(* ===== verification/_CoqProject ===== *)
-Q . S2P
Prelude.v
Lists.v
Fixed.v
Money.v
Domain.v
Float64.v
FloatInt.v
FloatRound.v
Calendar.v
EventQueue.v
Loop.v
Accounting.v
Sampler.v
SimExec.v
RiskGate.v
Reconcile.v
Context.v
Engine.v
EngineRun.v
OrderFSM.v
LiveExec.v
LiveTrade.v
LiveSession.v
Jobs.v
Nsga2.v
Study.v
Wire.v
WireClient.v
Commands.v
LiveNode.v
Scheduler.v
Indicators.v
Setup.v
Sepa.v
Targets.v
Pairs.v
Sector.v
PyDecimal.v
Orb.v
Trades.v
WalkForward.v
Metrics.v
SafeEval.v
SepaAdapter.v
Compose.v
Assembly.v
