(* ===== verification/Prelude.v ===== *)
(** * trade-tms-go: verification of the trading core

    trade-tms-go (src/) is a trading system in Go: a deterministic backtest
    engine, a live node that trades the same strategies through a broker, the
    services around them (a durable job queue, a hyper-parameter optimizer) and
    an HTTP API with a user interface.  This library models the parts that
    decide what is traded and what is booked, and proves what they promise.

    ** The program and how its parts interact

    A strategy sees bars and submits market orders.  In a backtest
    (internal/engine) the batch loop (internal/core) pops bars, fills and
    samples from one deterministic event queue; an order passes the risk gate
    (internal/riskgate), is filled by the simulated executor (internal/exec)
    and settled by the accounting (internal/accounting).  Live, the session
    (internal/livengine) drives the same strategies one timestamp at a time and
    the gated submitter (internal/livetrade) puts the halt latch
    (internal/commands/controller.go) and the same risk gate in front of the
    broker executor (internal/exec/moomoo), which follows each order with a
    state machine fed by the pushes of the broker (internal/broker/moomoo).
    Recovery, reconciliation and the sync desk compare the book with the
    broker.  The strategies are SEPA, pairs, sector rotation and opening range
    breakout (internal/strategy, over internal/indicators); a composition
    (internal/composition) names the members of a session with their weights
    and limits, and the assembly (internal/engine/strategyassembly,
    internal/runner) builds strategies, gate and instruments from it.  The
    live node (internal/runner) supervises sessions and obeys the commands of
    the operator (internal/commands); the gateway client
    (internal/broker/moomoo) frames its requests over a socket; the scheduler
    (internal/scheduler) enqueues the daily pipeline on the trading calendar
    (internal/data/calendar).  Amounts are int64 fixed-point numbers with four decimals
    (internal/domain).  Runs and studies are jobs in a table
    (internal/jobs); a study searches parameters with NSGA-II
    (internal/hyperopt/nsga2) over walk-forward folds, and scores runs with the
    performance metrics (internal/metrics).

    ** Files and sources

    - [Prelude]: machine integers with their wrap-around, the error sentinels,
      the result and effect monads, tactics, hints and lemmas shared by all.
    - [Lists]: lemmas on lists and permutations in stdpp's vocabulary.
    - [Fixed], [Money], [Float64]: domain/fixed.go and money.go.  Checked int64
      primitives, the exact decimal parser and printers, the value types, and
      float64 as the standard library's binary64 with strconv's shortest digits.
    - [FloatInt]: which integers are floats, and the conversions both ways.
    - [FloatRound]: rounding to binary64 is to the nearest float, and the
      shortest digits of a float parse back to it.
    - [Domain]: domain/enums.go, trading.go, bar.go, order.go, account.go.
    - [EventQueue], [Loop]: core/queue.go, event.go, clock.go, loop.go,
      stream.go.  The heap as the array the code keeps; the batch and the
      streaming loop over arbitrary handlers.
    - [Accounting], [Sampler]: accounting/.  Netting positions, cash, equity
      and the equity curves.
    - [SimExec]: exec/.  Both fill models and the executor's pending orders.
    - [RiskGate], [Reconcile], [Context]: riskgate/.  The allocator, the
      limits and the gate over exact rationals, the reconciliation report, and
      the regime, market-cap and earnings context of the strategies.
    - [Engine], [EngineRun]: engine/.  Assembly, dispatch, the handlers of a
      run, liquidation and result; here strategies are arbitrary programs over
      the submitter they are given.
    - [OrderFSM]: broker/moomoo/trade.go, trd_convert.go and
      exec/moomoo/statemachine.go.
    - [LiveExec]: exec/moomoo/executor*.go.  Database, engine and risk writes
      are an ordered log; the broker is a parameter; a push may arrive while a
      submission is in flight.
    - [LiveTrade]: livetrade/ and commands/controller.go.
    - [LiveSession]: livengine/ and livetrade/session.go.
    - [Calendar]: data/calendar/.  Dates, the exchange's rules of closing and
      the session table; the time zone database is a parameter.
    - [Wire], [WireClient]: broker/moomoo/protocol.go, codec.go, client.go,
      requests.go, trd_client.go.  Frames with their SHA-1, the reader over
      arbitrary chunks, the interleavings of concurrent calls and of the reader,
      and the life of a connection.
    - [Commands], [LiveNode]: commands/ and runner/live.go, live_persist.go.
      The commands table, the consumer, the sessions and halts of a node.
    - [Scheduler]: scheduler/ and the job handlers of the daily pipeline.
    - [Indicators], [Setup], [Sepa], [SepaAdapter]: indicators/,
      strategy/sepa/ and strategy/sepaadapter/.
    - [Targets]: domain/signal.go, intent.go.  Target signals and payloads.
    - [Pairs], [Sector]: strategy/pairs/, strategy/sectorrotation/ and their
      adapters.
    - [PyDecimal], [Orb]: strategy/orb/ and strategy/orbadapter/.
    - [Trades], [Metrics]: runs/trades.go and metrics/.
    - [WalkForward], [SafeEval]: hyperopt/walkforward.go, safe_eval.go.
    - [Compose], [Assembly]: composition/composition.go, params/typed.go,
      engine/strategyassembly/assembly.go, data/universe/live.go and the
      assembler of runner/assembly.go.
    - [Jobs]: jobs/queue.go, job.go, worker.go and the constraints of the
      migrations.  The table is a list of rows, a transaction one step.
    - [Nsga2], [Study]: hyperopt/nsga2/.

    A method that mutates its receiver and may fail is a function from the
    state to the state after the call and a result, on the error path too
    ([eff]); a pure fallible function returns [res]; [None] is a Go panic (or,
    where a function takes fuel, fuel that ran out).  Code outside the
    repository (the broker, the database driver, the wall clock, the random
    generator) is a parameter with its documented behaviour as hypotheses.

    ** What the theorems show

    - Numbers: parsing and printing are inverse; the parser computes the value
      of the literal with half-even rounding or an error; the checked
      operations are exact or report overflow.
    - Events: the heap refines a sorted list, so dispatch order is time,
      priority and insertion; a run keeps to the simulated timeline and
      terminates when its handlers consume what they schedule.
    - Accounting: equity is the starting balance less the cash paid out plus
      the market value; a chain of fills from flat to flat realizes its cash.
    - Backtests: every run returns, handles every bar, closes every position
      and ends with the balance its fills imply, for any strategies.
    - Risk: the gate approves exactly the orders within the limits, and the
      limits still hold once an approved order has settled, in the backtest
      and on the live account; a halt blocks every opening order and no close.
    - Orders: for any sequence of broker pushes the fills handed to accounting
      add up to the cumulative quantity of each order, the book is the opening
      book plus those fills, no real order is sent before activation, flatten
      sends one closing order per position, recovery and sync make the book
      equal to the broker's.
    - Live sessions: streaming and replay leave the same session, signals are a
      function of the bars in every mode, a restart resumes every strategy
      from its persisted state.
    - Jobs: the table constraints, the life cycle, the claim order, the
      recovery of stale claims, the back-off bounds.
    - Strategies: the incremental SEPA form computes what the batch form does,
      a restart from the snapshot resumes it; for SEPA, pairs and breakout an
      account that fills the orders of the adapter holds exactly the positions
      of the generator; a rebalance holds the strongest names; a breakout
      entry lies above its opening range with a stop under it.
    - Assembly: the gate, strategies and instruments of a session are those of
      its composition, and a live session stays within the subscription quota.
    - Live node: an operator halt survives a crash, orders need credentials,
      commands are applied in order and a stop is final; the gateway frames
      survive any chunking, a damaged body stops the reader, and every reply
      reaches its call.
    - Scheduler and calendar: no request of the pipeline reaches the queue
      twice, a reported enqueue left its jobs there, and the calendar's queries
      agree with the exchange's rules day by day.
    - Reports: the trades of a run realize its cash, folds partition their
      range, the deviation of the returns is exact, and constraint expressions
      evaluate to their value.
    - Studies: sorting yields the non-dominated layers, survival is elitist,
      and a study scores every trial by its own evaluation and reports exactly
      the non-dominated solutions.

    ** Bounds and fuel

    Integers keep their Go width; every operation that can wrap is written
    with [wrap64] or with its overflow check.  Recursions that are not
    structural take fuel, and the theorems are about total results:
    the heap's sift loops take the length of the array, which bounds the path;
    [Run] takes the number of dispatches, and [run_terminates] gives a bound
    from the work left ([runFuel] for a backtest); the drain of a streaming
    session takes one round, since its handler schedules nothing;
    [mergeLoop] the total length of the lists merged; [frontLoop] one more than
    the population; [reapBatches] one more than the stale rows; [backoffLoop]
    the 64 doublings after which an int64 is capped; [searchDigits] the 17
    digits that determine a binary64; [seqDigits] the 20 digits of an int64;
    [enqueueLoop] the retry limit of the source; [crossover] one round, which
    is enough for genes of the space; the drain of the command queue one turn
    per pending command and one more; the reader of frames one more than the
    bytes of the stream; the calendar's day loop 367 turns a year; the searches
    of the indicators one more than the length of their list; the decimals one
    turn per bit of the number and the 28 digits of a quotient; the evaluator
    of expressions four turns per character and four more.

    Floats are evaluated operation by operation, without fused operations;
    math.Pow and the time zone database are parameters.

    ** Not modelled

    - Goroutines, mutexes and channels: each method is one step, and where the
      code admits interleavings (pushes during a submission, other workers on
      the table, calls and replies on one connection) they are explicit
      sequences of steps.
    - Cancellation inside an emission: the sinks and hooks of a session do not
      see the context, which is read between bars.  The transactions of the job
      table commit in the order of their clock readings.
    - Protobuf coding and sockets below the frame reader, the mock venue, the
      HTTP API, SQL storage, market-data download and screening, the command
      line and the user interface: their work is done by code outside the
      repository or is plumbing around it.
    - JSON codecs of the snapshots; a snapshot is the record they carry.
    - The study coordinator and the job handlers over the database.
    - Reason texts, log lines, metrics counters and formatted error messages;
      an error keeps the sentinel the code can inspect. *)

From Stdlib Require Export ZArith Lia List Bool Ascii String.
From Stdlib Require Import Permutation.
Export ListNotations.

#[global] Open Scope Z_scope.

(** ** Machine integers

    Go's [int64] and [uint64] are kept as [Z]; every arithmetic operation of
    the source that can leave the range is written with its wrap-around. *)

Definition max_int64 : Z := 9223372036854775807.
Definition min_int64 : Z := -9223372036854775808.
Definition max_uint64 : Z := 18446744073709551615.

Definition wrap64 (z : Z) : Z :=
  (z + 9223372036854775808) mod 18446744073709551616 - 9223372036854775808.

Definition wrapu64 (z : Z) : Z := z mod 18446744073709551616.

Definition in64 (z : Z) : Prop := min_int64 <= z <= max_int64.

Definition inu64 (z : Z) : Prop := 0 <= z <= max_uint64.

Arguments wrap64 : simpl never.
Arguments wrapu64 : simpl never.
Arguments max_int64 : simpl never.
Arguments min_int64 : simpl never.
Arguments max_uint64 : simpl never.

Declare Scope go_scope.
Delimit Scope go_scope with go.
Notation "a ⊕ b" := (wrap64 (a + b)) (at level 50, left associativity) : go_scope.
Notation "a ⊖ b" := (wrap64 (a - b)) (at level 50, left associativity) : go_scope.
Notation "a ⊗ b" := (wrap64 (a * b)) (at level 40, left associativity) : go_scope.
Notation "⊖ a" := (wrap64 (- a)) (at level 35, right associativity) : go_scope.
(** Go's [/] truncates towards zero; MinInt64 / -1 wraps. *)
Notation "a ⊘ b" := (wrap64 (Z.quot a b)) (at level 40, left associativity) : go_scope.
Notation "a ⊙ b" := (Z.rem a b) (at level 40, left associativity) : go_scope.
#[global] Open Scope go_scope.

(** ** Errors

    The sentinels that the source's errors wrap ([errors.Is] is the only way
    the code inspects an error); the formatted message text is not kept. *)

Inductive error : Set :=
| ErrOverflow
| ErrInvalidNumber
| ErrInexact
| ErrNotFinite
| ErrInvalidArgument
| ErrTimeReversal
| ErrLoopClosed
| ErrShortHeader
| ErrBadMagic
| ErrSHAMismatch
| ErrEOF
| ErrUnexpectedEOF
| ErrCanceled
| ErrOther (msg : string).

Inductive res (A : Type) : Type :=
| Ok (a : A)
| Err (e : error).
Arguments Ok {A} a.
Arguments Err {A} e.

Definition res_bind {A B : Type} (m : res A) (k : A -> res B) : res B :=
  match m with Ok a => k a | Err e => Err e end.

Definition is_ok {A : Type} (m : res A) : bool :=
  match m with Ok _ => true | Err _ => false end.

(** The [v, ok] results of the checked primitives become a [res] where the
    callers turn [ok = false] into an error. *)
Definition of_checked {A : Type} (o : option A) (e : error) : res A :=
  match o with Some a => Ok a | None => Err e end.

Declare Scope res_scope.
Delimit Scope res_scope with res.
Notation "x <-? m ;; k" := (res_bind m (fun x => k))
  (at level 20, m at level 99, k at level 200) : res_scope.
Notation "' p <-? m ;; k" := (res_bind m (fun p => k))
  (at level 20, p pattern, m at level 99, k at level 200) : res_scope.
#[global] Open Scope res_scope.

(** ** Effects

    Methods that mutate their receiver and may fail: the state after the call
    is part of the result on the error path too. *)

Definition eff (S A : Type) : Type := S -> S * res A.

Definition eff_ret {S A} (a : A) : eff S A := fun s => (s, Ok a).
Definition eff_bind {S A B} (m : eff S A) (k : A -> eff S B) : eff S B :=
  fun s => match m s with (s', Ok a) => k a s' | (s', Err e) => (s', Err e) end.
Definition eff_fail {S A} (e : error) : eff S A := fun s => (s, Err e).
Definition eff_get {S} : eff S S := fun s => (s, Ok s).
Definition eff_modify {S} (f : S -> S) : eff S unit := fun s => (f s, Ok tt).
Definition eff_lift {S A} (m : res A) : eff S A := fun s => (s, m).

Declare Scope eff_scope.
Delimit Scope eff_scope with eff.
Notation "x <-! m ;; k" := (eff_bind m (fun x => k))
  (at level 20, m at level 99, k at level 200) : eff_scope.
#[global] Open Scope eff_scope.

(** ** Automation *)

Create HintDb go.
Create Rewrite HintDb go64.

(** Unfold the range predicates and the bounds, then decide. *)
Ltac rlia :=
  unfold in64, inu64, min_int64, max_int64, max_uint64 in *; lia.

(** Evaluate the boolean connectives only. *)
Ltac bsimpl := cbn [andb orb negb fst snd res_bind of_checked].

(** Case analysis on the scrutinee of a match or a conditional in the goal
    (or in a hypothesis), remembering the equation. *)
Ltac case_step :=
  match goal with
  | |- context [match ?x with _ => _ end] =>
      lazymatch x with context [match _ with _ => _ end] => fail | _ => destruct x eqn:? end
  end.
Ltac case_step_in H :=
  match type of H with
  | context [match ?x with _ => _ end] =>
      lazymatch x with context [match _ with _ => _ end] => fail | _ => destruct x eqn:? end
  end.

(** Split syntactic conjunctions only. *)
Ltac splits := repeat match goal with |- _ /\ _ => split end.

(** Turn boolean comparisons in the context into propositions. *)
Ltac breflect :=
  repeat match goal with
  | H : (_ && _)%bool = true |- _ => apply andb_true_iff in H; destruct H
  | H : (_ || _)%bool = false |- _ => apply orb_false_iff in H; destruct H
  | H : negb _ = true |- _ => apply negb_true_iff in H
  | H : negb _ = false |- _ => apply negb_false_iff in H
  | H : (_ =? _)%Z = true |- _ => apply Z.eqb_eq in H
  | H : (_ =? _)%Z = false |- _ => apply Z.eqb_neq in H
  | H : (_ <? _)%Z = true |- _ => apply Z.ltb_lt in H
  | H : (_ <? _)%Z = false |- _ => apply Z.ltb_ge in H
  | H : (_ <=? _)%Z = true |- _ => apply Z.leb_le in H
  | H : (_ <=? _)%Z = false |- _ => apply Z.leb_gt in H
  end.

(** Invert every equation between results. *)
Ltac res_inv :=
  repeat match goal with
  | H : Ok _ = Ok _ |- _ => injection H as H; try subst
  | H : Err _ = Err _ |- _ => injection H as H; try subst
  | H : Ok _ = Err _ |- _ => discriminate H
  | H : Err _ = Ok _ |- _ => discriminate H
  | H : Some _ = Some _ |- _ => injection H as H; try subst
  | H : Some _ = None |- _ => discriminate H
  | H : None = Some _ |- _ => discriminate H
  end.

(** ** Lemmas on machine integers *)

Lemma wrap64_in64 z : in64 (wrap64 z).
Proof.
  unfold wrap64. pose proof (Z.mod_pos_bound (z + 9223372036854775808) 18446744073709551616 eq_refl).
  rlia.
Qed.

Lemma wrap64_id z : in64 z -> wrap64 z = z.
Proof. intros H. unfold wrap64. rewrite Z.mod_small; rlia. Qed.

Lemma wrapu64_id z : inu64 z -> wrapu64 z = z.
Proof. intros H. unfold wrapu64. rewrite Z.mod_small; rlia. Qed.

Lemma wrapu64_inu64 z : inu64 (wrapu64 z).
Proof.
  unfold wrapu64. pose proof (Z.mod_pos_bound z 18446744073709551616 eq_refl). rlia.
Qed.

(** Wrap-around changes a value by a multiple of 2^64. *)
Lemma wrap64_shift z : exists k, wrap64 z = z + k * 18446744073709551616.
Proof.
  exists (- ((z + 9223372036854775808) / 18446744073709551616)).
  unfold wrap64. rewrite Z.mod_eq by lia. lia.
Qed.

Lemma wrap64_eq_mod a b : (a - b) mod 18446744073709551616 = 0 -> wrap64 a = wrap64 b.
Proof.
  intros H. unfold wrap64. f_equal. apply Z.mod_divide in H as [k Hk]; [|lia].
  replace (a + 9223372036854775808) with (b + 9223372036854775808 + k * 18446744073709551616) by lia.
  apply Z.mod_add. lia.
Qed.

Lemma wrap64_add_wrap a b : wrap64 (wrap64 a + b) = wrap64 (a + b).
Proof.
  destruct (wrap64_shift a) as [k ->]. apply wrap64_eq_mod.
  replace (a + k * 18446744073709551616 + b - (a + b)) with (k * 18446744073709551616) by lia.
  apply Z.mod_mul. lia.
Qed.

Lemma wrap64_add_wrap_r a b : wrap64 (a + wrap64 b) = wrap64 (a + b).
Proof. rewrite Z.add_comm, wrap64_add_wrap. f_equal. lia. Qed.

#[export] Hint Resolve wrap64_in64 wrapu64_inu64 : go.

(** Remove wrap-arounds whose argument is known to be in range. *)
Ltac unwrap :=
  repeat match goal with
  | |- context [wrap64 ?z] => rewrite (wrap64_id z) by rlia
  | H : context [wrap64 ?z] |- _ => rewrite (wrap64_id z) in H by rlia
  | |- context [wrapu64 ?z] => rewrite (wrapu64_id z) by rlia
  | H : context [wrapu64 ?z] |- _ => rewrite (wrapu64_id z) in H by rlia
  end.

(** ** Lemmas on results *)

Lemma res_bind_ok {A B} (m : res A) (k : A -> res B) b :
  res_bind m k = Ok b <-> exists a, m = Ok a /\ k a = Ok b.
Proof.
  destruct m as [a|e]; simpl; split.
  - eauto.
  - intros (a' & [= <-] & H); exact H.
  - discriminate.
  - intros (a' & H & _); discriminate.
Qed.

Lemma res_bind_err {A B} (m : res A) (k : A -> res B) e :
  res_bind m k = Err e <-> m = Err e \/ exists a, m = Ok a /\ k a = Err e.
Proof.
  destruct m as [a|e']; simpl; split.
  - eauto.
  - intros [H|(a' & [= <-] & H)]; [discriminate | exact H].
  - intros [= ->]; auto.
  - intros [[= ->]|(a' & H & _)]; [reflexivity | discriminate].
Qed.

Lemma of_checked_ok {A} (o : option A) e a : of_checked o e = Ok a <-> o = Some a.
Proof. destruct o; simpl; split; congruence. Qed.

Lemma eff_bind_ok {S A B} (m : eff S A) (k : A -> eff S B) s s' b :
  eff_bind m k s = (s', Ok b) <-> exists s1 a, m s = (s1, Ok a) /\ k a s1 = (s', Ok b).
Proof.
  unfold eff_bind. destruct (m s) as [s1 [a|e]]; split.
  - eauto.
  - intros (? & ? & [= <- <-] & H); exact H.
  - discriminate.
  - intros (? & ? & H & _); discriminate.
Qed.

(** Decompose every successful bind of the context. *)
Ltac bind_inv :=
  repeat match goal with
  | H : res_bind _ _ = Ok _ |- _ =>
      let a := fresh "r" in let H1 := fresh "Hb" in let H2 := fresh "Hk" in
      apply res_bind_ok in H; destruct H as (a & H1 & H2)
  | H : eff_bind _ _ _ = (_, Ok _) |- _ =>
      let s := fresh "s" in let a := fresh "r" in let H1 := fresh "Hb" in let H2 := fresh "Hk" in
      apply eff_bind_ok in H; destruct H as (s & a & H1 & H2)
  | H : eff_lift _ _ = (_, Ok _) |- _ => unfold eff_lift in H; injection H as ? H; try subst
  | H : eff_get _ = (_, Ok _) |- _ => unfold eff_get in H; injection H as ? ?; try subst
  | H : eff_modify _ _ = (_, Ok _) |- _ => unfold eff_modify in H; injection H as ? ?; try subst
  | H : eff_ret _ _ = (_, Ok _) |- _ => unfold eff_ret in H; injection H as ? ?; try subst
  | H : eff_fail _ _ = (_, Ok _) |- _ => discriminate H
  | H : of_checked _ _ = Ok _ |- _ => apply of_checked_ok in H
  end.

(** ** Half-to-even rounding

    The reference definition every rounding routine of the program is proved
    equal to, and the relation that characterises it: [q] is a nearest integer
    to [n / d], the even one when two are equally near. *)

Definition round_half_even (n d : Z) : Z :=
  let q := n / d in
  let r := n mod d in
  if 2 * r <? d then q
  else if d <? 2 * r then q + 1
  else if Z.even q then q else q + 1.

Definition half_even (n d q : Z) : Prop :=
  2 * Z.abs (n - q * d) <= d /\ (2 * Z.abs (n - q * d) = d -> Z.even q = true).

Lemma round_half_even_spec n d : 0 < d -> half_even n d (round_half_even n d).
Proof.
  intros Hd. unfold half_even, round_half_even.
  pose proof (Z.div_mod n d ltac:(lia)) as E. pose proof (Z.mod_pos_bound n d Hd) as B.
  set (q := n / d) in *. set (r := n mod d) in *.
  destruct (2 * r <? d) eqn:H1; breflect; [|destruct (d <? 2 * r) eqn:H2; breflect];
    [ | | destruct (Z.even q) eqn:H3 ].
  - replace (n - q * d) with r by lia. lia.
  - replace (n - (q + 1) * d) with (r - d) by lia. lia.
  - replace (n - q * d) with r by lia. split; [lia|auto].
  - replace (n - (q + 1) * d) with (r - d) by lia. split; [lia|].
    intros _. rewrite Z.add_1_r, Z.even_succ. rewrite <- Z.negb_even, H3. reflexivity.
Qed.

Lemma half_even_unique n d q1 q2 :
  0 < d -> half_even n d q1 -> half_even n d q2 -> q1 = q2.
Proof.
  intros Hd [A1 E1] [A2 E2].
  assert (Hb : - d <= (q1 - q2) * d <= d) by lia.
  assert (q1 - q2 = 0 \/ q1 - q2 = 1 \/ q1 - q2 = -1) as [H|[H|H]] by nia; [lia| |];
    [assert (Hq : q1 = q2 + 1) by lia | assert (Hq : q2 = q1 + 1) by lia];
    rewrite Hq in *; clear Hq H;
    [assert (T : 2 * Z.abs (n - (q2 + 1) * d) = d /\ 2 * Z.abs (n - q2 * d) = d) by lia
    |assert (T : 2 * Z.abs (n - (q1 + 1) * d) = d /\ 2 * Z.abs (n - q1 * d) = d) by lia];
    destruct T as [T1 T2];
    [pose proof (E1 T1) as X; pose proof (E2 T2) as Y | pose proof (E2 T1) as X; pose proof (E1 T2) as Y];
    rewrite Z.add_1_r, Z.even_succ, <- Z.negb_even, Y in X; discriminate.
Qed.

Lemma half_even_round n d q : 0 < d -> half_even n d q -> q = round_half_even n d.
Proof.
  intros Hd H. apply (half_even_unique n d); auto using round_half_even_spec.
Qed.

Lemma half_even_opp n d q : half_even n d q -> half_even (- n) d (- q).
Proof.
  intros [A E]. unfold half_even. replace (- n - - q * d) with (- (n - q * d)) by lia.
  rewrite Z.abs_opp, Z.even_opp. auto.
Qed.

Lemma half_even_exact q d : 0 < d -> half_even (q * d) d q.
Proof. intros Hd. split; replace (q * d - q * d) with 0 by lia; simpl; lia. Qed.

Lemma half_even_bounds n d q lo hi :
  0 < d -> half_even n d q -> lo * d <= n <= hi * d -> lo <= q <= hi.
Proof. intros Hd [A _] H. nia. Qed.

Lemma round_half_even_opp n d : 0 < d -> round_half_even (- n) d = - round_half_even n d.
Proof.
  intros Hd. symmetry. apply half_even_round; [exact Hd|].
  apply half_even_opp, round_half_even_spec, Hd.
Qed.

Lemma round_half_even_mono_bounds n d lo hi :
  0 < d -> lo * d <= n <= hi * d -> lo <= round_half_even n d <= hi.
Proof. intros Hd H. eapply half_even_bounds; eauto using round_half_even_spec. Qed.

Lemma round_half_even_error n d : 0 < d -> 2 * Z.abs (n - round_half_even n d * d) <= d.
Proof. intros Hd. apply round_half_even_spec, Hd. Qed.

(** ** Sums over lists *)

Definition sumZ (l : list Z) : Z := fold_right Z.add 0 l.

Lemma sumZ_cons x l : sumZ (x :: l) = x + sumZ l.
Proof. reflexivity. Qed.

Lemma sumZ_app a b : sumZ (a ++ b) = sumZ a + sumZ b.
Proof. induction a as [|x a IH]; cbn; [reflexivity|]. unfold sumZ in *. rewrite IH. lia. Qed.

#[export] Instance sumZ_perm : Morphisms.Proper (Morphisms.respectful (@Permutation Z) eq) sumZ.
Proof. intros a b H. unfold sumZ. induction H; cbn in *; lia. Qed.

Lemma sumZ_nonneg l : Forall (fun x => 0 <= x) l -> 0 <= sumZ l.
Proof. unfold sumZ. induction 1; cbn in *; lia. Qed.

Lemma sumZ_abs l : Z.abs (sumZ l) <= sumZ (map Z.abs l).
Proof. unfold sumZ. induction l as [|x l IH]; cbn in *; lia. Qed.

Lemma sumZ_abs_nonneg l : 0 <= sumZ (map Z.abs l).
Proof. unfold sumZ. induction l; cbn in *; lia. Qed.

(** ** Stable sorting by an integer key ([sort.SliceStable]) *)

Section SortBy.
Context {A : Type} (key : A -> Z).

(** Insert behind every element that is not greater. *)
Fixpoint insertBy (x : A) (l : list A) : list A :=
  match l with
  | [] => [x]
  | y :: l' => if key x <? key y then x :: l else y :: insertBy x l'
  end.

Definition sortBy (l : list A) : list A := fold_left (fun acc x => insertBy x acc) l [].

Inductive keySorted : list A -> Prop :=
| keySorted_nil : keySorted []
| keySorted_cons x l : Forall (fun y => key x <= key y) l -> keySorted l -> keySorted (x :: l).

Lemma insertBy_in x y l : In y (insertBy x l) <-> y = x \/ In y l.
Proof.
  induction l as [|z l IH]; cbn; [intuition|]. destruct (key x <? key z); cbn; [intuition|]. rewrite IH. intuition.
Qed.

Lemma insertBy_sorted x l : keySorted l -> keySorted (insertBy x l).
Proof.
  induction 1 as [|y l Hy Hl IH]; cbn; [constructor; constructor|].
  destruct (key x <? key y) eqn:E; breflect.
  - constructor; [|constructor; assumption]. constructor; [lia|].
    eapply Forall_impl; [|exact Hy]. cbn. intros; lia.
  - constructor; [|exact IH]. apply Forall_forall. intros z Hz. apply insertBy_in in Hz as [->|Hz]; [lia|].
    rewrite Forall_forall in Hy. apply Hy, Hz.
Qed.

Lemma sortBy_snoc l x : sortBy (l ++ [x]) = insertBy x (sortBy l).
Proof. unfold sortBy. rewrite fold_left_app. reflexivity. Qed.

Lemma sortBy_sorted l : keySorted (sortBy l).
Proof.
  induction l as [|x l IH] using rev_ind; [constructor|]. rewrite sortBy_snoc. apply insertBy_sorted, IH.
Qed.

Lemma insertBy_perm x l : Permutation (insertBy x l) (x :: l).
Proof.
  induction l as [|y l IH]; cbn; [reflexivity|]. destruct (key x <? key y); [reflexivity|].
  rewrite IH. apply perm_swap.
Qed.

Lemma sortBy_perm l : Permutation (sortBy l) l.
Proof.
  induction l as [|x l IH] using rev_ind; [reflexivity|].
  rewrite sortBy_snoc, insertBy_perm, IH. apply Permutation_cons_append.
Qed.

Lemma insertBy_filter (P : A -> bool) x l : keySorted l ->
  filter P (insertBy x l) = if P x then insertBy x (filter P l) else filter P l.
Proof.
  induction 1 as [|y l Hy Hl IH]; cbn; [destruct (P x); reflexivity|].
  destruct (key x <? key y) eqn:E; cbn; breflect.
  - destruct (P x); [|reflexivity]. destruct (P y); cbn.
    + apply Z.ltb_lt in E. rewrite E. reflexivity.
    + destruct (filter P l) as [|z r] eqn:Ef; [reflexivity|]. cbn.
      assert (Hz : In z (filter P l)) by (rewrite Ef; left; reflexivity). apply filter_In in Hz as [Hz _].
      rewrite Forall_forall in Hy. specialize (Hy z Hz). cbn in Hy.
      replace (key x <? key z) with true by (symmetry; apply Z.ltb_lt; lia). reflexivity.
  - rewrite IH. destruct (P x), (P y); cbn; try reflexivity.
    apply Z.ltb_ge in E. rewrite E. reflexivity.
Qed.

(** A stable sort commutes with a filter. *)
Lemma sortBy_filter (P : A -> bool) l : filter P (sortBy l) = sortBy (filter P l).
Proof.
  induction l as [|x l IH] using rev_ind; [reflexivity|].
  rewrite sortBy_snoc, insertBy_filter, IH by apply sortBy_sorted. rewrite filter_app. cbn.
  destruct (P x); [|rewrite app_nil_r; reflexivity]. rewrite sortBy_snoc. reflexivity.
Qed.
End SortBy.
