(* ===== verification/Lists.v ===== *)
(** * Lists

    Lemmas on lists, filters and permutations, in the vocabulary of stdpp, that
    the components share. *)

From stdpp Require Import list.
From Stdlib Require Import Sorted.
From S2P Require Import Prelude.
Set Default Goal Selector "!".
#[local] Abbreviation length := List.length.

Lemma NoDup_map_filter {A B} (f : A -> B) (P : A -> bool) l : base.NoDup (map f l) -> base.NoDup (map f (List.filter P l)).
Proof.
  induction l as [|x l IH]; [done|]. cbn [map List.filter]. intros Hd. apply list.NoDup_cons in Hd as [Hn Hd].
  destruct (P x); [|by apply IH]. cbn [map]. apply list.NoDup_cons. split; [|by apply IH].
  intros Hin. apply Hn. apply list_elem_of_fmap in Hin as (y & -> & Hy). apply list_elem_of_fmap. exists y. split; [done|].
  apply list_elem_of_In in Hy. apply filter_In in Hy as [Hy _]. by apply list_elem_of_In.
Qed.

Lemma filter_length_perm {A} (P : A -> bool) l l' : l ≡ₚ l' -> length (List.filter P l) = length (List.filter P l').
Proof.
  induction 1 as [|x l l' _ IH|x y l|l l' l'' _ IH1 _ IH2]; [done| | |congruence]; cbn.
  - destruct (P x); cbn; congruence.
  - by destruct (P x), (P y).
Qed.

Lemma firstn_in {A} n (l : list A) x : x ∈ firstn n l -> x ∈ l.
Proof. intros H. rewrite <- (firstn_skipn n l). apply elem_of_app. by left. Qed.

Lemma StronglySorted_filter {A} (R : A -> A -> Prop) (P : A -> bool) l :
  Sorted.StronglySorted R l -> Sorted.StronglySorted R (List.filter P l).
Proof.
  induction 1 as [|x l Hs IH Hx]; cbn; [constructor|]. destruct (P x); [|done]. constructor; [done|].
  rewrite List.Forall_forall in *. intros y Hy. apply filter_In in Hy as [Hy _]. by apply Hx.
Qed.

Lemma filter_perm {A} (P : A -> bool) l l' : l ≡ₚ l' -> List.filter P l ≡ₚ List.filter P l'.
Proof.
  induction 1 as [|x l l' _ IH|x y l|l l' l'' _ IH1 _ IH2]; [done| | |by rewrite IH1]; cbn.
  - destruct (P x); [by constructor|done].
  - destruct (P x), (P y); try done. constructor.
Qed.

(** ** Stable sorting ([sort.SliceStable]) *)

Section Stable.
Context {A : Type} (less : A -> A -> bool).

(** Move left while less; [racc] is the sorted prefix, last element first. *)
Fixpoint insertLeft (x : A) (racc : list A) : list A :=
  match racc with
  | [] => [x]
  | y :: r => if less x y then y :: insertLeft x r else x :: racc
  end.

Definition sliceStable (l : list A) : list A := rev (fold_left (fun racc x => insertLeft x racc) l []).
End Stable.

Lemma insertLeft_perm {A} (less : A -> A -> bool) x l : insertLeft less x l ≡ₚ x :: l.
Proof. induction l as [|y l IH]; cbn; [done|]. destruct (less x y); [|done]. rewrite IH. constructor. Qed.

Lemma sliceStable_perm {A} (less : A -> A -> bool) l : sliceStable less l ≡ₚ l.
Proof.
  unfold sliceStable. rewrite <- Permutation_rev. assert (H : forall l acc, fold_left (fun racc x => insertLeft less x racc) l acc ≡ₚ acc ++ l).
  { clear l. induction l as [|x l IH]; intros acc; cbn; [by rewrite app_nil_r|]. rewrite IH, insertLeft_perm. cbn. apply Permutation_middle. }
  apply H.
Qed.

(** The result is sorted, and elements of equal rank keep their order: [idx] is
    the position in the input. *)
Definition rankedBefore {A} (less : A -> A -> bool) (idx : A -> nat) (a b : A) : Prop :=
  less b a = false /\ (less a b = true \/ (idx a < idx b)%nat).

Section StableSpec.
Context {A : Type} (less : A -> A -> bool) (idx : A -> nat) (P : A -> Prop).
Context (Hasym : forall a b, P a -> P b -> less a b = true -> less b a = false).
Context (Htrans : forall a b c, P a -> P b -> P c -> less a b = false -> less b c = false -> less a c = false).

Lemma insertLeft_sorted x racc : P x -> Forall P racc -> (forall y, y ∈ racc -> (idx y < idx x)%nat) ->
  Sorted.StronglySorted (flip (rankedBefore less idx)) racc -> Sorted.StronglySorted (flip (rankedBefore less idx)) (insertLeft less x racc).
Proof using Hasym Htrans.
  intros Px Pr Hx. rewrite List.Forall_forall in Pr. induction 1 as [|y r Hs IH Hy]; cbn [insertLeft]; [by repeat constructor|].
  rewrite List.Forall_forall in Hy. assert (Py : P y) by (apply Pr; by left). destruct (less x y) eqn:E.
  - constructor; [apply IH; [intros z Hz; apply Pr; by right|intros z Hz; apply Hx; by right]|]. apply List.Forall_forall. intros z Hz%list_elem_of_In.
    rewrite insertLeft_perm in Hz. apply elem_of_cons in Hz as [->|Hz%list_elem_of_In]; [|by apply Hy]. split; [by apply Hasym|by left].
  - constructor; [by constructor; [|apply List.Forall_forall]|]. apply List.Forall_forall. intros z Hz%list_elem_of_In. split; [|right; by apply Hx].
    apply elem_of_cons in Hz as [->|Hz%list_elem_of_In]; [done|]. apply (Htrans _ y); [done|done| |done|]; [apply Pr; by right|by apply Hy].
Qed.

Lemma fold_insertLeft_sorted l : forall racc, Forall P l -> Forall P racc -> Sorted.StronglySorted (fun a b => (idx a < idx b)%nat) l ->
  (forall a b, a ∈ racc -> b ∈ l -> (idx a < idx b)%nat) -> Sorted.StronglySorted (flip (rankedBefore less idx)) racc ->
  Sorted.StronglySorted (flip (rankedBefore less idx)) (fold_left (fun racc x => insertLeft less x racc) l racc).
Proof using Hasym Htrans.
  induction l as [|x l IH]; intros racc Pl Pr Hl Hb Hr; cbn [fold_left]; [done|]. apply Sorted.StronglySorted_inv in Hl as [Hl Hx].
  apply List.Forall_cons_iff in Pl as [Px Pl]. apply IH; [done| |done| |].
  - rewrite insertLeft_perm. by constructor.
  - intros a b Ha Hin. rewrite insertLeft_perm in Ha. apply elem_of_cons in Ha as [->|Ha]; [|apply Hb; [done|by right]].
    rewrite List.Forall_forall in Hx. by apply Hx, list_elem_of_In.
  - apply insertLeft_sorted; [done|done| |done]. intros y Hy. apply Hb; [done|by left].
Qed.

Lemma StronglySorted_snoc (R : A -> A -> Prop) l x : Sorted.StronglySorted R l -> (forall y, y ∈ l -> R y x) -> Sorted.StronglySorted R (l ++ [x]).
Proof using Type.
  induction 1 as [|y l Hs IH Hy]; intros Hx; cbn [app]; [by repeat constructor|]. constructor; [apply IH; intros z Hz; apply Hx; by right|].
  rewrite List.Forall_forall in *. intros z [Hz|[<-|[]]]%in_app_iff; [by apply Hy|]. apply Hx. by left.
Qed.

Lemma rev_sorted (R : A -> A -> Prop) l : Sorted.StronglySorted (flip R) l -> Sorted.StronglySorted R (rev l).
Proof using Type.
  induction 1 as [|y l Hs IH Hy]; cbn [rev]; [constructor|]. apply StronglySorted_snoc; [done|].
  rewrite List.Forall_forall in Hy. intros z Hz%list_elem_of_In%in_rev. by apply Hy.
Qed.

Lemma sliceStable_sorted l : Forall P l -> Sorted.StronglySorted (fun a b => (idx a < idx b)%nat) l ->
  Sorted.StronglySorted (rankedBefore less idx) (sliceStable less l).
Proof using Hasym Htrans. intros Pl Hl. apply rev_sorted, fold_insertLeft_sorted; [done|constructor|done|intros a b []%elem_of_nil|constructor]. Qed.
End StableSpec.

(** The elements before a cut precede those after it. *)
Lemma sorted_cut {A} (R : A -> A -> Prop) n l : Sorted.StronglySorted R l -> forall a b, a ∈ firstn n l -> b ∈ skipn n l -> R a b.
Proof.
  intros Hs. revert n. induction Hs as [|x l Hs IH Hx]; intros n a b; [rewrite firstn_nil; by intros []%elem_of_nil|].
  destruct n as [|n]; cbn [firstn skipn]; [by intros []%elem_of_nil|]. intros [->|Ha]%elem_of_cons Hb; [|by apply (IH n)].
  rewrite List.Forall_forall in Hx. apply Hx, list_elem_of_In. rewrite <- (firstn_skipn n l). apply elem_of_app. by right.
Qed.

(** The first position of an element. *)
Fixpoint indexOf {A} `{EqDecision A} (l : list A) (a : A) : nat :=
  match l with [] => 0 | x :: l => if decide (x = a) then 0 else S (indexOf l a) end.

Lemma indexOf_sorted {A} `{EqDecision A} (l : list A) : base.NoDup l -> Sorted.StronglySorted (fun a b => (indexOf l a < indexOf l b)%nat) l.
Proof.
  assert (Hmono : forall (R S : A -> A -> Prop) k, (forall a b, a ∈ k -> b ∈ k -> R a b -> S a b) -> Sorted.StronglySorted R k -> Sorted.StronglySorted S k).
  { intros R S k HRS Hk. induction Hk as [|x k Hk IH Hx]; constructor.
    - apply IH. intros a b Ha Hb. apply HRS; by right.
    - rewrite List.Forall_forall in *. intros y Hy. apply HRS; [by left|right; by apply list_elem_of_In|by apply Hx]. }
  induction l as [|x l IH]; [constructor|]. intros [Hx Hd]%list.NoDup_cons. constructor.
  - eapply Hmono; [|by apply IH]. intros a b Ha Hb Hab. cbn in Hab |- *. rewrite !decide_False by (intros ->; done). lia.
  - apply List.Forall_forall. intros y Hy%list_elem_of_In. cbn. rewrite decide_True by done. rewrite decide_False by (intros ->; done). lia.
Qed.
