(* ===== verification/Fixed.v ===== *)
(** * Fixed-point engine (src/internal/domain/fixed.go)

    The overflow-checked [int64] primitives, the exact decimal-literal parser,
    the canonical printer and the half-to-even helpers behind [Price] and
    [Money].  A Go [string] or [[]byte] is a [string] or a [list ascii] (one
    [ascii] per byte); indices and lengths are unbounded because a Go slice
    cannot be longer than [int] can count. *)

From S2P Require Import Prelude.

(** ** Bytes and digits *)

Definition code (c : ascii) : Z := Z.of_N (N_of_ascii c).

Definition is_digit (c : ascii) : bool := (48 <=? code c) && (code c <=? 57).

(** [byte('0' + d)] *)
Definition digit (d : Z) : ascii := ascii_of_N (Z.to_N (48 + d)).

(** The numeric value of a digit string, most significant first. *)
Definition dval (ds : list ascii) : Z :=
  fold_left (fun acc c => acc * 10 + (code c - 48)) ds 0.

Definition FixedScale : Z := 10000.
Definition fixedFracDigits : Z := 4.

(** ** Overflow-checked primitives *)

Definition checkedAdd64 (a b : Z) : option Z :=
  if ((0 <? b) && (max_int64 ⊖ b <? a)) || ((b <? 0) && (a <? min_int64 ⊖ b))
  then None
  else Some (a ⊕ b).

Definition checkedSub64 (a b : Z) : option Z :=
  if ((b <? 0) && (max_int64 ⊕ b <? a)) || ((0 <? b) && (a <? min_int64 ⊕ b))
  then None
  else Some (a ⊖ b).

Definition checkedMul64 (a b : Z) : option Z :=
  if (a =? 0) || (b =? 0) then Some 0
  else if ((a =? -1) && (b =? min_int64)) || ((b =? -1) && (a =? min_int64)) then None
  else
    let c := a ⊗ b in
    if negb (c ⊘ b =? a) then None else Some c.

Definition checkedNeg64 (a : Z) : option Z :=
  if a =? min_int64 then None else Some (⊖ a).

Definition checkedAbs64 (a : Z) : option Z :=
  if a =? min_int64 then None
  else if a <? 0 then Some (⊖ a)
  else Some a.

(** ** Decimal literals *)

Inductive roundMode : Set := roundExact | roundHalfEven.

Definition magLimit : Z := 9223372036854775808.

Fixpoint anyNonzeroDigit (b : list ascii) : bool :=
  match b with
  | [] => false
  | c :: b' => if negb (c =? "0")%char then true else anyNonzeroDigit b'
  end.

(** The scanner state of the mantissa loop. *)
Record mantissa : Set := {
  m_buf : list ascii;
  m_frac : Z;
  m_digit : bool;
  m_dot : bool;
  m_nonzero : bool
}.

Definition mantissa0 : mantissa :=
  {| m_buf := []; m_frac := 0; m_digit := false; m_dot := false; m_nonzero := false |}.

(** One digit of the mantissa: leading zeros are counted in the fraction but
    not collected. *)
Definition feedDigit (m : mantissa) (c : ascii) : mantissa :=
  let frac := if m_dot m then m_frac m + 1 else m_frac m in
  if (c =? "0")%char && negb (m_nonzero m)
  then {| m_buf := m_buf m; m_frac := frac; m_digit := true;
          m_dot := m_dot m; m_nonzero := m_nonzero m |}
  else {| m_buf := m_buf m ++ [c]; m_frac := frac; m_digit := true;
          m_dot := m_dot m; m_nonzero := true |}.

Definition feedDot (m : mantissa) : mantissa :=
  {| m_buf := m_buf m; m_frac := m_frac m; m_digit := m_digit m;
     m_dot := true; m_nonzero := m_nonzero m |}.

Fixpoint scanMantissa (m : mantissa) (s : list ascii) : res (mantissa * list ascii) :=
  match s with
  | [] => Ok (m, [])
  | c :: s' =>
      if is_digit c then scanMantissa (feedDigit m c) s'
      else if (c =? ".")%char then
        if m_dot m then Err ErrInvalidNumber else scanMantissa (feedDot m) s'
      else Ok (m, s)
  end.

Fixpoint scanExpDigits (exp : Z) (s : list ascii) : Z * list ascii :=
  match s with
  | [] => (exp, [])
  | c :: s' =>
      if is_digit c
      then scanExpDigits (if exp <? 1000000000 then exp * 10 + (code c - 48) else exp) s'
      else (exp, s)
  end.

Definition scanSign (s : list ascii) : bool * list ascii :=
  match s with
  | c :: s' => if (c =? "+")%char || (c =? "-")%char then ((c =? "-")%char, s') else (false, s)
  | [] => (false, [])
  end.

Definition scanExponent (s : list ascii) : res (Z * list ascii) :=
  match s with
  | c :: s1 =>
      if (c =? "e")%char || (c =? "E")%char then
        let '(eneg, s2) := scanSign s1 in
        let '(exp, s3) := scanExpDigits 0 s2 in
        if (List.length s3 =? List.length s2)%nat then Err ErrInvalidNumber
        else Ok (if eneg then - exp else exp, s3)
      else Ok (0, s)
  | [] => Ok (0, [])
  end.

(** The lexical part of [parseFixed4]: sign, significant digits, number of
    fractional digits and exponent. *)
Definition lexFixed4 (s : list ascii) : res (bool * list ascii * Z * Z) :=
  match s with
  | [] => Err ErrInvalidNumber
  | _ =>
      let '(neg, s1) := scanSign s in
      '(m, s2) <-? scanMantissa mantissa0 s1 ;;
      if negb (m_digit m) then Err ErrInvalidNumber else
      '(exp, s3) <-? scanExponent s2 ;;
      match s3 with
      | [] => Ok (neg, m_buf m, m_frac m, exp)
      | _ => Err ErrInvalidNumber
      end
  end.

(** [parseMagnitude]: the accumulation loop of a digit slice into a [uint64]. *)
Fixpoint parseMagnitudeFrom (mag : Z) (digits : list ascii) : res Z :=
  match digits with
  | [] => Ok mag
  | c :: ds =>
      let d := (code c - 48) mod 256 in
      if (max_uint64 - d) / 10 <? mag then Err ErrOverflow
      else
        let mag' := wrapu64 (mag * 10 + d) in
        if magLimit <? mag' then Err ErrOverflow else parseMagnitudeFrom mag' ds
  end.

Definition parseMagnitude (digits : list ascii) : res Z := parseMagnitudeFrom 0 digits.

(** The scaling loop [for k := 0; k < shift; k++].  A positive magnitude
    exceeds [magLimit] after at most 19 steps, so 20 units of fuel never run
    out ([scaleUp_spec]). *)
Fixpoint scaleUp (fuel : nat) (shift mag : Z) : res Z :=
  if shift <=? 0 then Ok mag
  else if magLimit / 10 <? mag then Err ErrOverflow
  else match fuel with
       | O => Err ErrOverflow
       | S f => scaleUp f (shift - 1) (wrapu64 (mag * 10))
       end.

Definition scaleFuel : nat := 20.

(** The digits dropped by a negative shift: the kept prefix, the first dropped
    digit and whether any later dropped digit is nonzero. *)
Definition splitDropped (buf : list ascii) (k : Z) : list ascii * ascii * bool :=
  let keepLen := Z.of_nat (List.length buf) - k in
  if 0 <? keepLen then
    (firstn (Z.to_nat keepLen) buf, nth (Z.to_nat keepLen) buf "0"%char,
     anyNonzeroDigit (skipn (Z.to_nat keepLen + 1) buf))
  else if keepLen =? 0 then ([], nth 0 buf "0"%char, anyNonzeroDigit (skipn 1 buf))
  else ([], "0"%char, anyNonzeroDigit buf).

Definition magOfDigits (mode : roundMode) (buf : list ascii) (shift : Z) : res Z :=
  if 0 <=? shift then
    m <-? parseMagnitude buf ;; scaleUp scaleFuel shift m
  else
    let '(kept, first, sticky) := splitDropped buf (- shift) in
    match mode with
    | roundExact =>
        if negb (first =? "0")%char || sticky then Err ErrInexact else parseMagnitude kept
    | roundHalfEven =>
        m <-? parseMagnitude kept ;;
        Ok (if (code "5" <? code first)
               || ((first =? "5")%char && (sticky || (m mod 2 =? 1)))
            then wrapu64 (m + 1) else m)
    end.

Definition signMagnitude (neg : bool) (mag : Z) : res Z :=
  if (magLimit <? mag) || (negb neg && (mag =? magLimit)) then Err ErrOverflow
  else if neg then
    if mag =? magLimit then Ok min_int64 else Ok (⊖ (wrap64 mag))
  else Ok (wrap64 mag).

Definition parseFixed4 (s : string) (mode : roundMode) : res Z :=
  '(neg, buf, fracLen, exp) <-? lexFixed4 (list_ascii_of_string s) ;;
  match buf with
  | [] => Ok 0
  | _ =>
      mag <-? magOfDigits mode buf (exp - fracLen + fixedFracDigits) ;;
      signMagnitude neg mag
  end.

(** ** Formatting *)

(** [strconv.AppendUint(b, u, 10)]: a [uint64] has at most 20 digits. *)
Fixpoint uintDigits (fuel : nat) (u : Z) : list ascii :=
  match fuel with
  | O => []
  | S f => if u <? 10 then [digit u] else uintDigits f (u / 10) ++ [digit (u mod 10)]
  end.

Definition appendUint (b : list ascii) (u : Z) : list ascii := b ++ uintDigits 20 u.

(** [uint64(-(v+1)) + 1] for a negative [v], [uint64(v)] otherwise. *)
Definition magnitudeOf (v : Z) : Z :=
  if v <? 0 then wrapu64 (wrapu64 (⊖ (v ⊕ 1)) + 1) else wrapu64 v.

(** The [k] low decimal digits of [fp], most significant first. *)
Fixpoint fracDigits (k : nat) (fp : Z) (acc : list ascii) : list ascii :=
  match k with
  | O => acc
  | S k' => fracDigits k' (fp / 10) (digit (fp mod 10) :: acc)
  end.

Fixpoint trimZeros (l : list ascii) : list ascii :=
  match l with
  | [] => []
  | c :: l' =>
      match trimZeros l' with
      | [] => if (c =? "0")%char then [] else [c]
      | t => c :: t
      end
  end.

Definition formatFixed4 (v : Z) : string :=
  let u := magnitudeOf v in
  let ip := u / FixedScale in
  let fp := u mod FixedScale in
  let b := if v <? 0 then ["-"%char] else [] in
  let b := appendUint b ip in
  string_of_list_ascii
    (if negb (fp =? 0) then b ++ ["."%char] ++ trimZeros (fracDigits 4 fp []) else b).

(** [roundHalfEvenDiv] of package domain: [d] is a positive even power of ten. *)
Definition roundHalfEvenDiv (v d : Z) : Z :=
  let q := v ⊘ d in
  let r := v ⊙ d in
  if r =? 0 then q
  else
    let ar := if r <? 0 then ⊖ r else r in
    let half := d ⊘ 2 in
    if (half <? ar) || ((ar =? half) && negb (q ⊙ 2 =? 0)) then
      if v <? 0 then q ⊖ 1 else q ⊕ 1
    else q.

Definition pow10 (k : nat) : Z := 10 ^ Z.of_nat k.

(** The fixed-width digit loop [for k := dp-1; k >= 0; k--]. *)
Fixpoint padDigits (k : nat) (fp : Z) : list ascii :=
  match k with
  | O => []
  | S k' => digit ((fp / pow10 k') mod 10) :: padDigits k' fp
  end.

Definition formatFixedExact (v : Z) : string :=
  let u := magnitudeOf v in
  let b := if v <? 0 then ["-"%char] else [] in
  string_of_list_ascii
    (appendUint b (u / FixedScale) ++ ["."%char] ++ padDigits 4 (u mod FixedScale)).

Definition formatFixedDP (v : Z) (dp : Z) : string :=
  let dp := if dp <? 0 then 0 else dp in
  if fixedFracDigits <=? dp then
    (formatFixedExact v ++ string_of_list_ascii (repeat "0"%char (Z.to_nat (dp - fixedFracDigits))))%string
  else
    let scaled := roundHalfEvenDiv v (pow10 (Z.to_nat (fixedFracDigits - dp))) in
    let u := magnitudeOf scaled in
    let div := pow10 (Z.to_nat dp) in
    let b := if scaled <? 0 then ["-"%char] else [] in
    let b := appendUint b (u / div) in
    string_of_list_ascii
      (if 0 <? dp then b ++ ["."%char] ++ padDigits (Z.to_nat dp) (u mod div) else b).

(** ** Checked arithmetic refines exact integer arithmetic *)

(** The exact operation, cut off at the [int64] range. *)
Definition exact64 (z : Z) : option Z :=
  if (min_int64 <=? z) && (z <=? max_int64) then Some z else None.

Lemma exact64_some z r : exact64 z = Some r <-> r = z /\ in64 z.
Proof.
  unfold exact64, in64. destruct ((min_int64 <=? z) && (z <=? max_int64)) eqn:E.
  - breflect. split; [intros [= <-]; auto | intros [-> _]; auto].
  - split; [discriminate|]. intros [_ H]. apply andb_false_iff in E.
    destruct E as [E|E]; breflect; lia.
Qed.

Lemma exact64_in z : in64 z -> exact64 z = Some z.
Proof. intros H. apply exact64_some; auto. Qed.

Lemma exact64_out z : ~ in64 z -> exact64 z = None.
Proof.
  intros H. destruct (exact64 z) eqn:E; [|reflexivity]. apply exact64_some in E. tauto.
Qed.

Lemma checkedAdd64_exact a b : in64 a -> in64 b -> checkedAdd64 a b = exact64 (a + b).
Proof.
  intros Ha Hb. unfold checkedAdd64.
  destruct (0 <? b) eqn:P; destruct (b <? 0) eqn:N; bsimpl; breflect; try lia; unwrap;
    try (case_step; breflect; [symmetry; apply exact64_out; rlia|]);
    unwrap; symmetry; apply exact64_in; rlia.
Qed.

Lemma checkedSub64_exact a b : in64 a -> in64 b -> checkedSub64 a b = exact64 (a - b).
Proof.
  intros Ha Hb. unfold checkedSub64.
  destruct (0 <? b) eqn:P; destruct (b <? 0) eqn:N; bsimpl; breflect; try lia; unwrap;
    rewrite ?orb_false_r;
    try (case_step; breflect; [symmetry; apply exact64_out; rlia|]);
    unwrap; symmetry; apply exact64_in; rlia.
Qed.

(** The division test of [checkedMul64] detects every wrap-around. *)
Lemma wrapped_product_quot a b :
  in64 a -> in64 b -> b <> 0 -> Z.quot (wrap64 (a * b)) b = a -> wrap64 (a * b) = a * b.
Proof.
  intros Ha Hb Hb0 Hq. destruct (wrap64_shift (a * b)) as [k Hk].
  pose proof (Z.quot_rem (wrap64 (a * b)) b Hb0) as E.
  pose proof (Z.rem_bound_abs (wrap64 (a * b)) b Hb0) as R. rewrite Hq in E.
  assert (k * 18446744073709551616 = Z.rem (wrap64 (a * b)) b) by lia.
  assert (Z.abs b <= 9223372036854775808) by rlia. nia.
Qed.

Lemma checkedMul64_exact a b : in64 a -> in64 b -> checkedMul64 a b = exact64 (a * b).
Proof.
  intros Ha Hb. unfold checkedMul64.
  destruct ((a =? 0) || (b =? 0)) eqn:Z0.
  { apply orb_true_iff in Z0. symmetry.
    destruct Z0; breflect; subst; rewrite ?Z.mul_0_r; apply exact64_in; rlia. }
  breflect.
  destruct (((a =? -1) && (b =? min_int64)) || ((b =? -1) && (a =? min_int64))) eqn:M.
  { apply orb_true_iff in M. symmetry. apply exact64_out.
    destruct M as [M|M]; breflect; subst; rlia. }
  destruct (negb (wrap64 (Z.quot (wrap64 (a * b)) b) =? a)) eqn:Q;
    [apply negb_true_iff, Z.eqb_neq in Q | apply negb_false_iff, Z.eqb_eq in Q].
  - symmetry. apply exact64_out. intros Hin. apply Q.
    rewrite (wrap64_id (a * b)), Z.quot_mul by auto. apply wrap64_id, Ha.
  - destruct (Z.eq_dec b (-1)) as [->|Hb1].
    + apply orb_false_iff in M. destruct M as [_ M].
      assert (a <> min_int64) by (intros ->; vm_compute in M; discriminate).
      unwrap. symmetry. apply exact64_in. rlia.
    + assert (Hr : in64 (Z.quot (wrap64 (a * b)) b)).
      { pose proof (wrap64_in64 (a * b)) as W. pose proof (Z.quot_rem (wrap64 (a * b)) b ltac:(lia)).
        pose proof (Z.rem_bound_abs (wrap64 (a * b)) b ltac:(lia)).
        pose proof (Z.quot_abs (wrap64 (a * b)) b ltac:(lia)).
        destruct (Z.eq_dec b 1) as [->|]; [rewrite Z.quot_1_r; exact W|].
        assert (2 <= Z.abs b) by lia.
        pose proof (Z.quot_le_upper_bound (Z.abs (wrap64 (a * b))) (Z.abs b) 9223372036854775807 ltac:(lia) ltac:(rlia)).
        rlia. }
      rewrite (wrap64_id _ Hr) in Q.
      pose proof (wrapped_product_quot a b Ha Hb ltac:(lia) Q) as W. rewrite W.
      symmetry. apply exact64_in. rewrite <- W. apply wrap64_in64.
Qed.

Lemma checkedNeg64_exact a : in64 a -> checkedNeg64 a = exact64 (- a).
Proof.
  intros Ha. unfold checkedNeg64. destruct (a =? min_int64) eqn:E; breflect; symmetry.
  - subst. apply exact64_out. rlia.
  - unwrap. apply exact64_in. rlia.
Qed.

Lemma checkedAbs64_exact a : in64 a -> checkedAbs64 a = exact64 (Z.abs a).
Proof.
  intros Ha. unfold checkedAbs64. destruct (a =? min_int64) eqn:E; breflect; symmetry.
  - subst. apply exact64_out. rlia.
  - destruct (a <? 0) eqn:N; breflect; [unwrap|];
      rewrite exact64_in by rlia; f_equal; lia.
Qed.

#[export] Hint Rewrite checkedAdd64_exact checkedSub64_exact checkedMul64_exact
  checkedNeg64_exact checkedAbs64_exact using assumption : go64.

(** ** Digit strings *)

Definition digits (ds : list ascii) : Prop := Forall (fun c => is_digit c = true) ds.

Lemma code_digit d : 0 <= d <= 9 -> code (digit d) = 48 + d.
Proof. intros H. unfold code, digit. rewrite N_ascii_embedding; lia. Qed.

Lemma is_digit_range c : is_digit c = true <-> 48 <= code c <= 57.
Proof. unfold is_digit. rewrite andb_true_iff, !Z.leb_le. reflexivity. Qed.

Lemma is_digit_digit d : 0 <= d <= 9 -> is_digit (digit d) = true.
Proof. intros H. apply is_digit_range. rewrite code_digit; lia. Qed.

Lemma code_inj c d : code c = code d -> c = d.
Proof.
  unfold code. intros H. rewrite <- (ascii_N_embedding c), <- (ascii_N_embedding d). f_equal. lia.
Qed.

Lemma dval_acc ds acc :
  fold_left (fun acc c => acc * 10 + (code c - 48)) ds acc
  = acc * 10 ^ Z.of_nat (List.length ds) + dval ds.
Proof.
  unfold dval. revert acc. induction ds as [|c ds IH]; intros acc; simpl fold_left.
  - simpl. lia.
  - rewrite IH. symmetry. rewrite IH. simpl List.length.
    rewrite Nat2Z.inj_succ, Z.pow_succ_r by lia. ring.
Qed.

Lemma dval_cons c ds : dval (c :: ds) = (code c - 48) * 10 ^ Z.of_nat (List.length ds) + dval ds.
Proof. unfold dval at 1. simpl fold_left. rewrite dval_acc. ring. Qed.

Lemma dval_app a b : dval (a ++ b) = dval a * 10 ^ Z.of_nat (List.length b) + dval b.
Proof. unfold dval at 1. rewrite fold_left_app. apply dval_acc. Qed.

Lemma pow10_pos n : 0 <= n -> 0 < 10 ^ n.
Proof. intros. apply Z.pow_pos_nonneg; lia. Qed.

Lemma dval_bounds ds : digits ds -> 0 <= dval ds < 10 ^ Z.of_nat (List.length ds).
Proof.
  induction 1 as [|c ds Hc _ IH]; [cbn; lia|].
  rewrite dval_cons. apply is_digit_range in Hc. simpl List.length.
  rewrite Nat2Z.inj_succ, Z.pow_succ_r by lia. nia.
Qed.

Lemma anyNonzeroDigit_spec ds : digits ds -> anyNonzeroDigit ds = negb (dval ds =? 0).
Proof.
  induction 1 as [|c ds Hc Hds IH]; [reflexivity|].
  rewrite dval_cons. simpl anyNonzeroDigit. pose proof (dval_bounds ds Hds) as B.
  apply is_digit_range in Hc. pose proof (pow10_pos (Z.of_nat (List.length ds)) ltac:(lia)).
  destruct (Ascii.eqb_spec c "0") as [->|Hne].
  - rewrite IH. change (code "0" - 48) with 0. rewrite Z.mul_0_l, Z.add_0_l. reflexivity.
  - assert (code c <> 48) by (intros E; apply Hne, code_inj; exact E).
    simpl. symmetry. apply negb_true_iff, Z.eqb_neq. nia.
Qed.

Lemma digits_app a b : digits (a ++ b) <-> digits a /\ digits b.
Proof. apply Forall_app. Qed.

(** ** The magnitude loops *)

Lemma parseMagnitudeFrom_spec ds mag :
  digits ds -> 0 <= mag <= magLimit ->
  let v := mag * 10 ^ Z.of_nat (List.length ds) + dval ds in
  parseMagnitudeFrom mag ds = if v <=? magLimit then Ok v else Err ErrOverflow.
Proof.
  intros Hds. revert mag. induction Hds as [|c ds Hc Hds IH]; intros mag Hm v; subst v.
  - cbn [parseMagnitudeFrom List.length]. change (dval []) with 0.
    replace (mag * 10 ^ Z.of_nat 0 + 0) with mag by (simpl; lia).
    destruct (mag <=? magLimit) eqn:E; breflect; [reflexivity|lia].
  - cbn [parseMagnitudeFrom]. apply is_digit_range in Hc. rewrite dval_cons.
    pose proof (dval_bounds ds Hds) as B. cbn [List.length].
    rewrite Nat2Z.inj_succ, Z.pow_succ_r by lia.
    pose proof (pow10_pos (Z.of_nat (List.length ds)) ltac:(lia)) as P.
    rewrite (Z.mod_small (code c - 48)) by lia. unfold magLimit in *.
    destruct ((max_uint64 - (code c - 48)) / 10 <? mag) eqn:E1; breflect.
    { pose proof (Z.mul_succ_div_gt (max_uint64 - (code c - 48)) 10 ltac:(lia)).
      case_step; breflect; [|reflexivity]. unfold max_uint64 in *. nia. }
    pose proof (Z.mul_div_le (max_uint64 - (code c - 48)) 10 ltac:(lia)).
    rewrite wrapu64_id by rlia.
    destruct (9223372036854775808 <? mag * 10 + (code c - 48)) eqn:E2; breflect.
    { case_step; breflect; [nia|reflexivity]. }
    rewrite IH by lia. cbv zeta.
    replace (mag * (10 * 10 ^ Z.of_nat (List.length ds)) + ((code c - 48) * 10 ^ Z.of_nat (List.length ds) + dval ds))
      with ((mag * 10 + (code c - 48)) * 10 ^ Z.of_nat (List.length ds) + dval ds) by ring.
    reflexivity.
Qed.

Lemma parseMagnitude_spec ds :
  digits ds -> parseMagnitude ds = if dval ds <=? magLimit then Ok (dval ds) else Err ErrOverflow.
Proof. intros H. apply (parseMagnitudeFrom_spec ds 0 H). unfold magLimit; lia. Qed.

Lemma scaleUp_gen fuel shift mag :
  0 <= shift -> 1 <= mag <= magLimit -> 10 ^ (20 - Z.of_nat fuel) <= mag * 1 \/ (20 <= fuel)%nat ->
  scaleUp fuel shift mag
  = if mag * 10 ^ shift <=? magLimit then Ok (mag * 10 ^ shift) else Err ErrOverflow.
Proof.
  revert shift mag. induction fuel as [|f IH]; intros shift mag Hs Hm Hf;
    cbn [scaleUp]; destruct (shift <=? 0) eqn:E0; breflect;
    try (assert (shift = 0) as -> by lia; rewrite Z.mul_1_r;
         destruct (mag <=? magLimit) eqn:E; breflect; [reflexivity|lia]);
    assert (Hp : 10 ^ shift = 10 * 10 ^ (shift - 1))
      by (rewrite <- Z.pow_succ_r by lia; f_equal; lia);
    pose proof (pow10_pos (shift - 1) ltac:(lia)) as P;
    pose proof (Z.mul_div_le magLimit 10 ltac:(lia));
    pose proof (Z.mul_succ_div_gt magLimit 10 ltac:(lia)).
  - destruct Hf as [Hf|Hf]; [|lia]. change (10 ^ (20 - Z.of_nat 0)) with 100000000000000000000 in Hf.
    unfold magLimit in *. lia.
  - destruct (magLimit / 10 <? mag) eqn:E1; breflect.
    { case_step; breflect; [nia|reflexivity]. }
    rewrite wrapu64_id by (unfold magLimit in *; rlia).
    rewrite IH; [|lia|lia|].
    + rewrite Hp. replace (mag * 10 * 10 ^ (shift - 1)) with (mag * (10 * 10 ^ (shift - 1))) by ring.
      reflexivity.
    + destruct (Nat.le_gt_cases 20 f) as [|Hlt]; [auto|left].
      destruct (Nat.eq_dec f 19) as [->|]; [simpl; lia|].
      destruct Hf as [Hf|Hf]; [|lia].
      replace (20 - Z.of_nat f) with (Z.succ (20 - Z.of_nat (S f))) by lia.
      rewrite Z.pow_succ_r by lia. lia.
Qed.

Lemma scaleUp_spec shift mag :
  0 <= shift -> 1 <= mag <= magLimit ->
  scaleUp scaleFuel shift mag
  = if mag * 10 ^ shift <=? magLimit then Ok (mag * 10 ^ shift) else Err ErrOverflow.
Proof. intros. apply scaleUp_gen; auto. Qed.

(** ** The conversion of a lexed literal *)

Lemma splitDropped_spec buf k :
  digits buf -> buf <> [] -> 0 < k ->
  let '(kept, first, sticky) := splitDropped buf k in
  digits kept /\ is_digit first = true /\
  exists low, dval buf = dval kept * 10 ^ k + (code first - 48) * 10 ^ (k - 1) + low
              /\ 0 <= low < 10 ^ (k - 1) /\ sticky = negb (low =? 0).
Proof.
  intros Hd Hne Hk. unfold splitDropped.
  set (n := Z.of_nat (List.length buf)). pose proof (pow10_pos (k - 1) ltac:(lia)) as P.
  assert (Split : forall i, (i < List.length buf)%nat -> n - k = Z.of_nat i ->
    digits (firstn i buf) /\ is_digit (nth i buf "0"%char) = true /\
    exists low, dval buf = dval (firstn i buf) * 10 ^ k
                           + (code (nth i buf "0"%char) - 48) * 10 ^ (k - 1) + low
                /\ 0 <= low < 10 ^ (k - 1)
                /\ anyNonzeroDigit (skipn (i + 1) buf) = negb (low =? 0)).
  { intros i Hi Hik.
    pose proof (firstn_skipn i buf) as E1.
    assert (E2 : skipn i buf = nth i buf "0"%char :: skipn (i + 1) buf).
    { rewrite Nat.add_1_r. clear -Hi. revert buf Hi. induction i as [|i IH]; intros [|c b] Hi;
        simpl in *; try lia; [reflexivity|]. apply IH. lia. }
    assert (L : Z.of_nat (List.length (skipn (i + 1) buf)) = k - 1).
    { rewrite length_skipn. lia. }
    rewrite E2 in E1. rewrite <- E1 in Hd. apply digits_app in Hd. destruct Hd as [D1 D2].
    inversion D2 as [|x l Dn D3]; subst x l.
    split; [exact D1|split; [exact Dn|]]. exists (dval (skipn (i + 1) buf)).
    split; [|split].
    - rewrite <- E1 at 1. rewrite dval_app, dval_cons. cbn [List.length].
      rewrite Nat2Z.inj_succ, L, Z.sub_1_r, Z.succ_pred. ring.
    - rewrite <- L. apply dval_bounds, D3.
    - apply anyNonzeroDigit_spec, D3. }
  destruct (0 <? n - k) eqn:E0; breflect.
  - apply (Split (Z.to_nat (n - k))); lia.
  - destruct (n - k =? 0) eqn:E1; breflect.
    + specialize (Split 0%nat). cbn [firstn] in Split. apply Split; [|lia].
      destruct buf; [congruence|]. simpl; lia.
    + split; [constructor|split; [reflexivity|]].
      exists (dval buf). pose proof (dval_bounds buf Hd) as B. fold n in B.
      change (code "0" - 48) with 0. change (dval []) with 0.
      assert (10 ^ n <= 10 ^ (k - 1)) by (apply Z.pow_le_mono_r; lia).
      split; [lia|split; [lia|]]. apply anyNonzeroDigit_spec, Hd.
Qed.

(** The exact value of a magnitude loop, before the sign is applied. *)
Definition magSpec (mode : roundMode) (D shift : Z) : res Z :=
  if 0 <=? shift then
    if D * 10 ^ shift <=? magLimit then Ok (D * 10 ^ shift) else Err ErrOverflow
  else
    let d := 10 ^ (- shift) in
    match mode with
    | roundExact =>
        if D mod d =? 0 then (if D / d <=? magLimit then Ok (D / d) else Err ErrOverflow)
        else Err ErrInexact
    | roundHalfEven => if D / d <=? magLimit then Ok (round_half_even D d) else Err ErrOverflow
    end.

(** The rounding test on digits is the half-to-even rule on values. *)
Lemma digit_rounding q f low p (first : ascii) (sticky : bool) :
  0 < p -> f = code first - 48 -> 0 <= f <= 9 -> 0 <= low < p -> sticky = negb (low =? 0) ->
  0 <= q ->
  round_half_even (q * (10 * p) + f * p + low) (10 * p)
  = if (code "5" <? code first) || ((first =? "5")%char && (sticky || (q mod 2 =? 1)))
    then q + 1 else q.
Proof.
  intros Hp Hf Rf Rl Hs Hq. symmetry. apply half_even_round; [lia|].
  assert (E5 : (first =? "5")%char = (f =? 5)).
  { change (code "5") with 53 in *. destruct (Ascii.eqb_spec first "5") as [->|N].
    - subst f. reflexivity.
    - symmetry. apply Z.eqb_neq. intros E. apply N, code_inj. change (code "5") with 53. lia. }
  rewrite E5. change (code "5") with 53. subst sticky.
  pose proof (Z.mod_pos_bound q 2 ltac:(lia)). rewrite (Zmod_even q) in *.
  destruct (53 <? code first) eqn:A; breflect; bsimpl.
  - replace (q * (10 * p) + f * p + low - (q + 1) * (10 * p)) with (f * p + low - 10 * p) by ring.
    split; [nia|]. intros; exfalso; nia.
  - destruct (f =? 5) eqn:B; breflect; bsimpl.
    + destruct (low =? 0) eqn:C; breflect; bsimpl.
      * destruct (Z.even q) eqn:Ev; simpl (_ =? _); cbv iota.
        -- split; [|auto]. replace (q * (10 * p) + f * p + low - q * (10 * p)) with (5 * p) by nia. lia.
        -- replace (q * (10 * p) + f * p + low - (q + 1) * (10 * p)) with (- (5 * p)) by nia.
           split; [lia|]. intros _. rewrite Z.add_1_r, Z.even_succ, <- Z.negb_even, Ev. reflexivity.
      * replace (q * (10 * p) + f * p + low - (q + 1) * (10 * p)) with (low - 5 * p) by nia.
        split; [lia|]. intros; exfalso; lia.
    + replace (q * (10 * p) + f * p + low - q * (10 * p)) with (f * p + low) by ring.
      split; [nia|]. intros; exfalso; nia.
Qed.

Lemma magOfDigits_spec mode buf shift :
  digits buf -> 1 <= dval buf -> magOfDigits mode buf shift = magSpec mode (dval buf) shift.
Proof.
  intros Hd H1. unfold magOfDigits, magSpec.
  destruct (0 <=? shift) eqn:Es; breflect.
  - rewrite parseMagnitude_spec by exact Hd. pose proof (pow10_pos shift ltac:(lia)) as P.
    destruct (dval buf <=? magLimit) eqn:E; breflect; bsimpl.
    + apply scaleUp_spec; lia.
    + case_step; breflect; [nia|reflexivity].
  - assert (Hne : buf <> []) by (intros ->; change (dval []) with 0 in H1; lia).
    pose proof (splitDropped_spec buf (- shift) Hd Hne ltac:(lia)) as S.
    destruct (splitDropped buf (- shift)) as [[kept first] sticky].
    destruct S as (Dk & Df & low & E & Rl & Hst).
    apply is_digit_range in Df. pose proof (pow10_pos (- shift - 1) ltac:(lia)) as P.
    assert (Hp : 10 ^ (- shift) = 10 * 10 ^ (- shift - 1))
      by (rewrite <- Z.pow_succ_r by lia; f_equal; lia).
    pose proof (dval_bounds kept Dk) as Bk. cbv zeta.
    assert (Edm : dval buf / 10 ^ (- shift) = dval kept /\
                  dval buf mod 10 ^ (- shift) = (code first - 48) * 10 ^ (- shift - 1) + low).
    { rewrite E, Hp. set (p := 10 ^ (- shift - 1)) in *.
      replace (dval kept * (10 * p) + (code first - 48) * p + low)
        with (((code first - 48) * p + low) + dval kept * (10 * p)) by ring.
      rewrite Z.div_add, Z.mod_add, Z.div_small, Z.mod_small by nia. lia. }
    destruct Edm as [Ed Em]. destruct mode.
    + rewrite Em, Ed, Hst. rewrite parseMagnitude_spec by exact Dk.
      assert (EZ : ((code first - 48) * 10 ^ (- shift - 1) + low =? 0) = negb (negb (first =? "0")%char || negb (low =? 0))).
      { destruct (Ascii.eqb_spec first "0") as [->|N]; bsimpl.
        - change (code "0" - 48) with 0. rewrite Z.mul_0_l, Z.add_0_l, negb_involutive. reflexivity.
        - apply Z.eqb_neq. assert (code first <> 48) by (intros X; apply N, code_inj, X). nia. }
      rewrite EZ. destruct (negb (first =? "0")%char || negb (low =? 0)); reflexivity.
    + rewrite Ed, parseMagnitude_spec by exact Dk.
      destruct (dval kept <=? magLimit) eqn:El; breflect; [|reflexivity].
      bsimpl. f_equal. rewrite E, Hp.
      rewrite (digit_rounding (dval kept) (code first - 48) low _ first sticky) by lia || auto.
      rewrite wrapu64_id by (unfold magLimit in *; rlia). reflexivity.
Qed.

(** ** The scanner *)

Definition feedDigits (m : mantissa) (ds : list ascii) : mantissa := fold_left feedDigit ds m.

(** Nothing is collected before the first nonzero digit. *)
Definition mantissa_wf (m : mantissa) : Prop :=
  digits (m_buf m) /\ 0 <= m_frac m /\
  (m_nonzero m = false -> m_buf m = []) /\ (m_nonzero m = true -> 1 <= dval (m_buf m)).

Lemma feedDigit_wf m c : mantissa_wf m -> is_digit c = true -> mantissa_wf (feedDigit m c).
Proof.
  intros (D & F & N0 & N1) Hc. unfold feedDigit, mantissa_wf.
  destruct ((c =? "0")%char && negb (m_nonzero m)) eqn:E; cbn [m_buf m_frac m_digit m_dot m_nonzero].
  - split; [exact D|split; [destruct (m_dot m); lia|auto]].
  - split; [apply digits_app; split; [exact D|repeat constructor; exact Hc]|].
    split; [destruct (m_dot m); lia|split; [discriminate|intros _]].
    rewrite dval_app. cbn [List.length]. change (10 ^ Z.of_nat 1) with 10.
    assert (Ec : dval [c] = code c - 48) by (rewrite dval_cons; change (dval []) with 0; simpl; lia).
    rewrite Ec. apply is_digit_range in Hc. pose proof (dval_bounds _ D) as B.
    destruct (m_nonzero m) eqn:Nz; [specialize (N1 eq_refl); lia|].
    rewrite andb_true_r in E. apply Ascii.eqb_neq in E.
    assert (code c <> 48) by (intros X; apply E, code_inj, X).
    lia.
Qed.

Lemma feedDot_wf m : mantissa_wf m -> mantissa_wf (feedDot m).
Proof. unfold mantissa_wf, feedDot; cbn [m_buf m_frac m_digit m_dot m_nonzero]; tauto. Qed.

Lemma mantissa0_wf : mantissa_wf mantissa0.
Proof.
  split; [constructor|split; [cbn; lia|split; [auto|discriminate]]].
Qed.

Lemma scanMantissa_wf s : forall m m' r,
  mantissa_wf m -> scanMantissa m s = Ok (m', r) -> mantissa_wf m'.
Proof.
  induction s as [|c s IH]; cbn [scanMantissa]; intros m m' r W H.
  - injection H as <- <-. exact W.
  - destruct (is_digit c) eqn:Ed; [eapply IH; [|exact H]; apply feedDigit_wf; auto|].
    destruct (c =? ".")%char; [|injection H as <- <-; exact W].
    destruct (m_dot m); [discriminate|]. eapply IH; [|exact H]. apply feedDot_wf, W.
Qed.

Lemma lexFixed4_wf s neg buf frac exp :
  lexFixed4 s = Ok (neg, buf, frac, exp) -> digits buf /\ 0 <= frac /\ (buf = [] \/ 1 <= dval buf).
Proof.
  unfold lexFixed4. destruct s as [|c s]; [discriminate|].
  destruct (scanSign (c :: s)) as [ng s1]. intros H.
  destruct (scanMantissa mantissa0 s1) as [[m s2]|] eqn:Em; cbn [res_bind] in H; [|discriminate].
  destruct (negb (m_digit m)); [discriminate|].
  destruct (scanExponent s2) as [[ex s3]|]; cbn [res_bind] in H; [|discriminate].
  destruct s3; [|discriminate]. injection H as _ <- <- _.
  destruct (scanMantissa_wf _ _ _ _ mantissa0_wf Em) as (D & F & N0 & N1).
  split; [exact D|split; [exact F|]]. destruct (m_nonzero m); auto.
Qed.

Lemma scanMantissa_digits ds : forall m rest,
  digits ds -> scanMantissa m (ds ++ rest) = scanMantissa (feedDigits m ds) rest.
Proof.
  induction ds as [|c ds IH]; intros m rest H; [reflexivity|].
  inversion H as [|x l Hc Hds]; subst. cbn [app scanMantissa]. rewrite Hc. apply IH, Hds.
Qed.

Lemma scanMantissa_all ds m : digits ds -> scanMantissa m ds = Ok (feedDigits m ds, []).
Proof.
  intros H. rewrite <- (app_nil_r ds) at 1. rewrite scanMantissa_digits by exact H. reflexivity.
Qed.

(** What feeding a run of digits does to the scanner. *)
Lemma feedDigits_spec ds : forall m,
  mantissa_wf m -> digits ds ->
  let m' := feedDigits m ds in
  mantissa_wf m' /\ m_dot m' = m_dot m /\
  dval (m_buf m') = dval (m_buf m) * 10 ^ Z.of_nat (List.length ds) + dval ds /\
  m_frac m' = (if m_dot m then m_frac m + Z.of_nat (List.length ds) else m_frac m) /\
  m_digit m' = (m_digit m || negb (List.length ds =? 0)%nat).
Proof.
  induction ds as [|c ds IH]; intros m W D; cbv zeta.
  - change (feedDigits m []) with m. change (dval []) with 0. cbn [List.length].
    rewrite orb_false_r. change (10 ^ Z.of_nat 0) with 1.
    split; [exact W|split; [reflexivity|split; [lia|split; [destruct (m_dot m); lia|reflexivity]]]].
  - inversion D as [|x l Hc Hds]; subst.
    change (feedDigits m (c :: ds)) with (feedDigits (feedDigit m c) ds).
    pose proof (feedDigit_wf m c W Hc) as W'.
    destruct (IH (feedDigit m c) W' Hds) as (I1 & I2 & I3 & I4 & I5).
    assert (Eone : m_dot (feedDigit m c) = m_dot m /\ m_digit (feedDigit m c) = true /\
      m_frac (feedDigit m c) = (if m_dot m then m_frac m + 1 else m_frac m) /\
      dval (m_buf (feedDigit m c)) = dval (m_buf m) * 10 + (code c - 48)).
    { unfold feedDigit. destruct ((c =? "0")%char && negb (m_nonzero m)) eqn:E; cbn [m_buf m_frac m_digit m_dot m_nonzero]; repeat split.
      - breflect. apply Ascii.eqb_eq in H. subst c. destruct W as (_ & _ & N0 & _).
        rewrite (N0 H0). reflexivity.
      - rewrite dval_app, dval_cons. change (dval []) with 0. cbn [List.length].
        change (10 ^ Z.of_nat 1) with 10. change (10 ^ Z.of_nat 0) with 1. lia. }
    destruct Eone as (Ed & Eg & Ef & Ev).
    split; [exact I1|split; [congruence|split; [|split]]].
    + rewrite I3, Ev, dval_cons. cbn [List.length]. rewrite Nat2Z.inj_succ, Z.pow_succ_r by lia. ring.
    + rewrite I4, Ed, Ef. cbn [List.length]. destruct (m_dot m); lia.
    + rewrite I5, Eg. cbn. rewrite orb_true_r. reflexivity.
Qed.

(** ** The parser computes the exact decimal value *)

Definition sgn (neg : bool) : Z := if neg then -1 else 1.

Definition range64 (z : Z) : res Z := of_checked (exact64 z) ErrOverflow.

(** The reference semantics: [n * 10^shift] as an [int64], exactly or rounded
    half to even. *)
Definition fixedOf (mode : roundMode) (n shift : Z) : res Z :=
  if 0 <=? shift then range64 (n * 10 ^ shift)
  else
    let d := 10 ^ (- shift) in
    match mode with
    | roundExact => if n mod d =? 0 then range64 (n / d) else Err ErrInexact
    | roundHalfEven => range64 (round_half_even n d)
    end.

Lemma signMagnitude_spec neg mag : 0 <= mag -> signMagnitude neg mag = range64 (sgn neg * mag).
Proof.
  intros H. unfold signMagnitude, range64, exact64, sgn, magLimit.
  destruct neg; bsimpl; rewrite ?orb_false_r.
  - destruct (9223372036854775808 <? mag) eqn:E; breflect.
    + destruct (_ && _) eqn:F; [breflect; rlia|reflexivity].
    + destruct ((min_int64 <=? -1 * mag) && (-1 * mag <=? max_int64)) eqn:F;
        [|apply andb_false_iff in F; destruct F; breflect; rlia].
      destruct (mag =? 9223372036854775808) eqn:G; breflect.
      * subst. reflexivity.
      * bsimpl. unwrap. f_equal; lia.
  - destruct ((9223372036854775808 <? mag) || (mag =? 9223372036854775808)) eqn:E.
    + apply orb_true_iff in E.
      destruct (_ && _) eqn:F; [breflect; destruct E; breflect; rlia|reflexivity].
    + breflect.
      destruct ((min_int64 <=? 1 * mag) && (1 * mag <=? max_int64)) eqn:F;
        [|apply andb_false_iff in F; destruct F; breflect; rlia].
      bsimpl. unwrap. f_equal; lia.
Qed.

Lemma range64_out z : ~ in64 z -> range64 z = Err ErrOverflow.
Proof. intros H. unfold range64. rewrite exact64_out by exact H. reflexivity. Qed.

Lemma sgn_mod neg D d : 0 < d -> ((sgn neg * D) mod d =? 0) = (D mod d =? 0).
Proof.
  intros Hd. unfold sgn. destruct neg; [|rewrite Z.mul_1_l; reflexivity].
  replace (-1 * D) with (- D) by lia.
  destruct (Z.eq_dec (D mod d) 0) as [E|E].
  - rewrite Z.mod_opp_l_z by lia. rewrite E. reflexivity.
  - rewrite Z.mod_opp_l_nz by lia. pose proof (Z.mod_pos_bound D d Hd).
    rewrite (proj2 (Z.eqb_neq _ _) E). apply Z.eqb_neq. lia.
Qed.

Lemma fixedOf_magSpec mode neg D shift :
  0 <= D -> res_bind (magSpec mode D shift) (signMagnitude neg) = fixedOf mode (sgn neg * D) shift.
Proof.
  intros HD. unfold magSpec, fixedOf.
  assert (Out : forall z, magLimit < z -> range64 (sgn neg * z) = Err ErrOverflow).
  { intros z Hz. apply range64_out. unfold sgn, magLimit in *. destruct neg; rlia. }
  destruct (0 <=? shift) eqn:Es; breflect.
  - pose proof (pow10_pos shift ltac:(lia)).
    replace (sgn neg * D * 10 ^ shift) with (sgn neg * (D * 10 ^ shift)) by ring.
    case_step; breflect; bsimpl; [apply signMagnitude_spec; nia|symmetry; apply Out; lia].
  - pose proof (pow10_pos (- shift) ltac:(lia)) as P. cbv zeta.
    pose proof (Z.div_pos D _ HD P) as Dp. destruct mode.
    + rewrite sgn_mod by exact P. destruct (D mod 10 ^ (- shift) =? 0) eqn:E; breflect; [|reflexivity].
      assert (Eq : sgn neg * D / 10 ^ (- shift) = sgn neg * (D / 10 ^ (- shift))).
      { unfold sgn. destruct neg; [|rewrite !Z.mul_1_l; reflexivity].
        replace (-1 * D) with (- D) by lia. rewrite Z.div_opp_l_z by lia. lia. }
      rewrite Eq. case_step; breflect; bsimpl; [apply signMagnitude_spec; lia|symmetry; apply Out; lia].
    + assert (Er : round_half_even (sgn neg * D) (10 ^ (- shift)) = sgn neg * round_half_even D (10 ^ (- shift))).
      { unfold sgn. destruct neg; [|rewrite !Z.mul_1_l; reflexivity].
        replace (-1 * D) with (- D) by lia. rewrite round_half_even_opp by exact P. lia. }
      assert (Rl : D / 10 ^ (- shift) <= round_half_even D (10 ^ (- shift))).
      { unfold round_half_even. repeat case_step; lia. }
      rewrite Er. case_step; breflect; bsimpl; [apply signMagnitude_spec; lia|symmetry; apply Out; lia].
Qed.

Lemma parseFixed4_lexed s mode neg buf frac exp :
  lexFixed4 (list_ascii_of_string s) = Ok (neg, buf, frac, exp) ->
  parseFixed4 s mode = fixedOf mode (sgn neg * dval buf) (exp - frac + fixedFracDigits).
Proof.
  intros H. unfold parseFixed4. rewrite H. bsimpl.
  destruct (lexFixed4_wf _ _ _ _ _ H) as (D & _ & B). destruct buf as [|c buf].
  - change (dval []) with 0. rewrite Z.mul_0_r. unfold fixedOf.
    case_step; [rewrite Z.mul_0_l; reflexivity|]. breflect.
    pose proof (pow10_pos (- (exp - frac + fixedFracDigits)) ltac:(lia)) as P. cbv zeta.
    destruct mode.
    + rewrite Z.mod_0_l, Z.div_0_l by lia. reflexivity.
    + rewrite <- (half_even_round 0 _ 0 P); [reflexivity|]. apply (half_even_exact 0), P.
  - destruct B as [B|B]; [discriminate|].
    rewrite magOfDigits_spec by auto. apply fixedOf_magSpec. lia.
Qed.

(** ** The printers *)

Lemma magnitudeOf_abs v : in64 v -> magnitudeOf v = Z.abs v.
Proof.
  intros H. unfold magnitudeOf. destruct (v <? 0) eqn:E; breflect; unwrap; lia.
Qed.

Lemma uintDigits_spec fuel u :
  0 <= u < 10 ^ Z.of_nat fuel -> fuel <> O ->
  digits (uintDigits fuel u) /\ dval (uintDigits fuel u) = u /\ uintDigits fuel u <> [].
Proof.
  revert u. induction fuel as [|f IH]; intros u Hu Hf; [congruence|]. cbn [uintDigits].
  destruct (u <? 10) eqn:E; breflect.
  - split; [repeat constructor; apply is_digit_digit; lia|split; [|discriminate]].
    rewrite dval_cons, code_digit by lia. change (dval []) with 0. cbn [List.length].
    change (10 ^ Z.of_nat 0) with 1. lia.
  - rewrite Nat2Z.inj_succ, Z.pow_succ_r in Hu by lia.
    pose proof (Z.mod_pos_bound u 10 ltac:(lia)). pose proof (Z.div_mod u 10 ltac:(lia)).
    destruct f as [|f]; [change (10 ^ Z.of_nat 0) with 1 in Hu; lia|].
    destruct (IH (u / 10)) as (D & V & N); [nia|congruence|].
    split; [apply digits_app; split; [exact D|repeat constructor; apply is_digit_digit; lia]|].
    split; [|intros X; apply app_eq_nil in X; tauto].
    rewrite dval_app, V, dval_cons, code_digit by lia. change (dval []) with 0.
    cbn [List.length]. change (10 ^ Z.of_nat 0) with 1. change (10 ^ Z.of_nat 1) with 10. lia.
Qed.

Lemma fracDigits_spec k : forall fp acc,
  0 <= fp < 10 ^ Z.of_nat k -> digits acc ->
  digits (fracDigits k fp acc) /\ List.length (fracDigits k fp acc) = (k + List.length acc)%nat /\
  dval (fracDigits k fp acc) = fp * 10 ^ Z.of_nat (List.length acc) + dval acc.
Proof.
  induction k as [|k IH]; intros fp acc Hf D; cbn [fracDigits].
  - change (10 ^ Z.of_nat 0) with 1 in Hf. assert (fp = 0) as -> by lia.
    split; [exact D|split; [reflexivity|lia]].
  - rewrite Nat2Z.inj_succ, Z.pow_succ_r in Hf by lia.
    pose proof (Z.mod_pos_bound fp 10 ltac:(lia)). pose proof (Z.div_mod fp 10 ltac:(lia)).
    destruct (IH (fp / 10) (digit (fp mod 10) :: acc)) as (D' & L & V);
      [nia|constructor; [apply is_digit_digit; lia|exact D]|].
    split; [exact D'|split; [cbn in L |- *; lia|]].
    rewrite V, dval_cons, code_digit by lia. cbn [List.length].
    rewrite Nat2Z.inj_succ, Z.pow_succ_r by lia.
    replace (fp * 10 ^ Z.of_nat (List.length acc)) with ((10 * (fp / 10) + fp mod 10) * 10 ^ Z.of_nat (List.length acc)) by (f_equal; lia).
    ring.
Qed.

Lemma padDigits_spec k fp :
  0 <= fp < 10 ^ Z.of_nat k ->
  digits (padDigits k fp) /\ List.length (padDigits k fp) = k /\ dval (padDigits k fp) = fp.
Proof.
  assert (G : digits (padDigits k fp) /\ List.length (padDigits k fp) = k /\
              dval (padDigits k fp) = fp mod 10 ^ Z.of_nat k).
  { induction k as [|k (D & L & V)]; cbn [padDigits].
    - split; [constructor|split; [reflexivity|]]. change (10 ^ Z.of_nat 0) with 1.
      rewrite Z.mod_1_r. reflexivity.
    - pose proof (Z.mod_pos_bound (fp / pow10 k) 10 ltac:(lia)).
      split; [constructor; [apply is_digit_digit; lia|exact D]|split; [cbn; lia|]].
      rewrite dval_cons, code_digit, L, V by lia. unfold pow10.
      rewrite Nat2Z.inj_succ, Z.pow_succ_r, Z.mul_comm by lia.
      rewrite (Z.mul_comm 10), Z.rem_mul_r by (try apply Z.pow_nonzero; lia). ring. }
  intros H. destruct G as (D & L & V). rewrite Z.mod_small in V by exact H. auto.
Qed.

Lemma trimZeros_spec l :
  digits l ->
  digits (trimZeros l) /\ (List.length (trimZeros l) <= List.length l)%nat /\
  dval l = dval (trimZeros l) * 10 ^ (Z.of_nat (List.length l) - Z.of_nat (List.length (trimZeros l))).
Proof.
  induction 1 as [|c l Hc D (ID & IL & IV)]; cbn [trimZeros].
  - split; [constructor|split; [reflexivity|reflexivity]].
  - destruct (trimZeros l) as [|t ts] eqn:T.
    + destruct (Ascii.eqb_spec c "0") as [->|N].
      * split; [constructor|split; [cbn; lia|]]. rewrite dval_cons, IV.
        change (dval []) with 0. change (code "0" - 48) with 0. ring.
      * split; [repeat constructor; exact Hc|split; [cbn; lia|]].
        rewrite dval_cons, IV, dval_cons. change (dval []) with 0. cbn [List.length].
        rewrite Nat2Z.inj_succ. change (Z.of_nat 0) with 0. change (Z.of_nat 1) with 1.
        rewrite Z.pow_0_r. replace (Z.succ (Z.of_nat (List.length l)) - 1) with (Z.of_nat (List.length l)) by lia.
        ring.
    + split; [constructor; auto|split; [cbn in *; lia|]].
      rewrite dval_cons, IV, (dval_cons c). cbn [List.length] in *.
      rewrite !Nat2Z.inj_succ in *.
      replace (Z.succ (Z.of_nat (List.length l)) - Z.succ (Z.succ (Z.of_nat (List.length ts))))
        with (Z.of_nat (List.length l) - Z.succ (Z.of_nat (List.length ts))) by lia.
      set (a := Z.of_nat (List.length l)) in *. set (b := Z.of_nat (List.length ts)) in *.
      assert (Hab : 10 ^ a = 10 ^ Z.succ b * 10 ^ (a - Z.succ b))
        by (rewrite <- Z.pow_add_r by lia; f_equal; lia).
      rewrite Hab. ring.
Qed.

(** Lexing a plain decimal: sign, integer digits, optional fraction. *)
Definition decimalChars (neg : bool) (ds : list ascii) (frac : option (list ascii)) : list ascii :=
  (if neg then ["-"%char] else []) ++ ds ++
  match frac with Some fs => "."%char :: fs | None => [] end.

Lemma lexFixed4_decimal neg ds frac :
  let fs := match frac with Some fs => fs | None => [] end in
  digits ds -> ds <> [] -> digits fs ->
  exists buf, lexFixed4 (decimalChars neg ds frac) = Ok (neg, buf, Z.of_nat (List.length fs), 0)
              /\ dval buf = dval (ds ++ fs).
Proof.
  intros fs Dd Nd Df.
  assert (Sg : scanSign (decimalChars neg ds frac)
    = (neg, ds ++ match frac with Some fs => "."%char :: fs | None => [] end)).
  { destruct neg; [reflexivity|]. unfold decimalChars. cbn [app].
    destruct ds as [|d ds']; [congruence|]. inversion Dd as [|x l Hd _]; subst.
    cbn [app scanSign]. apply is_digit_range in Hd.
    destruct (Ascii.eqb_spec d "+") as [->|_]; [change (code "+") with 43 in Hd; lia|].
    destruct (Ascii.eqb_spec d "-") as [->|_]; [change (code "-") with 45 in Hd; lia|]. reflexivity. }
  destruct (feedDigits_spec ds mantissa0 mantissa0_wf Dd) as (W1 & D1 & V1 & F1 & G1).
  assert (Sc : exists m, scanMantissa mantissa0 (ds ++ match frac with Some fs => "."%char :: fs | None => [] end) = Ok (m, [])
    /\ m_digit m = true /\ m_frac m = Z.of_nat (List.length fs) /\ dval (m_buf m) = dval (ds ++ fs)).
  { rewrite scanMantissa_digits by exact Dd.
    assert (Nl : negb (List.length ds =? 0)%nat = true) by (destruct ds; [congruence|reflexivity]).
    rewrite Nl, orb_true_r in G1. destruct frac as [f|]; subst fs.
    - cbn [scanMantissa]. change (is_digit ".") with false. cbn [Ascii.eqb]. rewrite D1.
      change (m_dot mantissa0) with false. cbv iota.
      rewrite scanMantissa_all by exact Df. eexists; split; [reflexivity|].
      destruct (feedDigits_spec f (feedDot (feedDigits mantissa0 ds)) (feedDot_wf _ W1) Df) as (W2 & D2 & V2 & F2 & G2).
      rewrite G2, F2, V2. cbn [feedDot m_digit m_dot m_frac m_buf]. rewrite G1, F1, V1.
      change (m_dot mantissa0) with false. cbn [mantissa0 m_frac m_buf]. change (dval []) with 0.
      rewrite dval_app. split; [reflexivity|split; [lia|ring]].
    - cbn [scanMantissa]. eexists; split; [reflexivity|]. rewrite G1, F1, V1, app_nil_r.
      cbn [mantissa0 m_dot m_frac m_buf]. change (dval []) with 0. cbn [List.length].
      split; [reflexivity|split; [reflexivity|lia]]. }
  destruct Sc as (m & Em & Eg & Ef & Ev).
  exists (m_buf m). split; [|exact Ev]. unfold lexFixed4.
  destruct (decimalChars neg ds frac) as [|c cs] eqn:Ed.
  - exfalso. unfold decimalChars in Ed. apply app_eq_nil in Ed. destruct Ed as [_ Ed].
    apply app_eq_nil in Ed. tauto.
  - rewrite Sg, Em. bsimpl. rewrite Eg. bsimpl. rewrite Ef. reflexivity.
Qed.

Lemma parseFixed4_decimal mode neg ds frac :
  let fs := match frac with Some fs => fs | None => [] end in
  digits ds -> ds <> [] -> digits fs ->
  parseFixed4 (string_of_list_ascii (decimalChars neg ds frac)) mode
  = fixedOf mode (sgn neg * dval (ds ++ fs)) (4 - Z.of_nat (List.length fs)).
Proof.
  intros fs Dd Nd Df. destruct (lexFixed4_decimal neg ds frac Dd Nd Df) as (buf & L & V).
  rewrite (parseFixed4_lexed _ mode neg buf (Z.of_nat (List.length fs)) 0).
  - rewrite V. f_equal. unfold fixedFracDigits. fold fs. lia.
  - rewrite list_ascii_of_string_of_list_ascii. exact L.
Qed.

(** Every printer output has this shape. *)
Lemma formatFixed4_chars v :
  in64 v ->
  let u := Z.abs v in
  formatFixed4 v = string_of_list_ascii
    (decimalChars (v <? 0) (uintDigits 20 (u / FixedScale))
       (if u mod FixedScale =? 0 then None
        else Some (trimZeros (fracDigits 4 (u mod FixedScale) [])))).
Proof.
  intros Hv u. unfold formatFixed4. rewrite magnitudeOf_abs by exact Hv. fold u.
  unfold decimalChars, appendUint. destruct (u mod FixedScale =? 0); cbn [negb].
  - rewrite app_nil_r. reflexivity.
  - rewrite <- !app_assoc. reflexivity.
Qed.

Lemma sgn_abs v : sgn (v <? 0) * Z.abs v = v.
Proof. unfold sgn. destruct (v <? 0) eqn:E; breflect; lia. Qed.

Lemma parse_format_fixed4 v mode : in64 v -> parseFixed4 (formatFixed4 v) mode = Ok v.
Proof.
  intros Hv. rewrite formatFixed4_chars by exact Hv. cbv zeta. set (u := Z.abs v).
  assert (Hu : 0 <= u <= 9223372036854775808) by (subst u; rlia). unfold FixedScale.
  pose proof (Z.mod_pos_bound u 10000 ltac:(lia)) as B. pose proof (Z.div_mod u 10000 ltac:(lia)) as Edm.
  destruct (uintDigits_spec 20 (u / 10000)) as (D1 & V1 & N1);
    [change (10 ^ Z.of_nat 20) with 100000000000000000000; lia|discriminate|].
  destruct (fracDigits_spec 4 (u mod 10000) []) as (D2 & L2 & V2); [exact B|constructor|].
  destruct (trimZeros_spec _ D2) as (D3 & L3 & V3). rewrite V2, L2 in V3.
  cbn [List.length Nat.add] in *. change (dval []) with 0 in *. rewrite Z.mul_1_r, Z.add_0_r in V3.
  assert (Fin : forall fs, digits fs -> (List.length fs <= 4)%nat ->
    u mod 10000 = dval fs * 10 ^ (4 - Z.of_nat (List.length fs)) ->
    fixedOf mode (sgn (v <? 0) * dval (uintDigits 20 (u / 10000) ++ fs)) (4 - Z.of_nat (List.length fs)) = Ok v).
  { intros fs Df Lf Vf. unfold fixedOf.
    rewrite (proj2 (Z.leb_le 0 (4 - Z.of_nat (List.length fs)))) by lia.
    rewrite dval_app, V1.
    replace (sgn (v <? 0) * (u / 10000 * 10 ^ Z.of_nat (List.length fs) + dval fs) * 10 ^ (4 - Z.of_nat (List.length fs)))
      with (sgn (v <? 0) * (u / 10000 * (10 ^ Z.of_nat (List.length fs) * 10 ^ (4 - Z.of_nat (List.length fs)))
            + dval fs * 10 ^ (4 - Z.of_nat (List.length fs)))) by ring.
    rewrite <- Z.pow_add_r by lia. replace (Z.of_nat (List.length fs) + (4 - Z.of_nat (List.length fs))) with 4 by lia.
    rewrite <- Vf. change (10 ^ 4) with 10000.
    replace (u / 10000 * 10000 + u mod 10000) with u by lia. subst u. rewrite sgn_abs.
    unfold range64. rewrite exact64_in by exact Hv. reflexivity. }
  destruct (u mod 10000 =? 0) eqn:E; breflect.
  - rewrite (parseFixed4_decimal mode _ _ None) by (auto; constructor).
    apply (Fin []); [constructor|cbn; lia|rewrite E; reflexivity].
  - rewrite (parseFixed4_decimal mode _ _ (Some _)) by auto. apply Fin; auto.
Qed.

(** ** Half-to-even division *)

Lemma rem2_even q : (Z.rem q 2 =? 0) = Z.even q.
Proof.
  pose proof (Z.quot_rem q 2 ltac:(lia)) as E. pose proof (Z.rem_bound_abs q 2 ltac:(lia)) as R.
  destruct (Z.even q) eqn:Q.
  - apply Z.even_spec in Q. destruct Q as [k ->]. apply Z.eqb_eq. lia.
  - apply Z.eqb_neq. intros X. rewrite X, Z.add_0_r in E.
    rewrite E, Z.even_mul in Q. discriminate.
Qed.

Lemma roundHalfEvenDiv_ref v d :
  in64 v -> 2 <= d <= max_int64 -> d mod 2 = 0 -> roundHalfEvenDiv v d = round_half_even v d.
Proof.
  intros Hv Hd He. apply half_even_round; [lia|]. unfold roundHalfEvenDiv.
  pose proof (Z.quot_rem v d ltac:(lia)) as E. pose proof (Z.rem_bound_abs v d ltac:(lia)) as R.
  pose proof (Z.rem_sign_mul v d ltac:(lia)) as Sg.
  set (q := Z.quot v d) in *. set (r := Z.rem v d) in *.
  assert (Hq : Z.abs q <= 4611686018427387904).
  { subst q. rewrite <- Z.quot_abs, (Z.abs_eq d) by lia.
    apply Z.quot_le_upper_bound; [lia|]. rlia. }
  pose proof (Z.div_mod d 2 ltac:(lia)) as Ed. rewrite He in Ed.
  assert (Eh : Z.quot d 2 = d / 2) by (apply Z.quot_div_nonneg; lia). rewrite Eh.
  set (h := d / 2) in *. unwrap.
  assert (Ar : (if r <? 0 then - r else r) = Z.abs r)
    by (destruct (r <? 0) eqn:N; breflect; lia). rewrite Ar.
  assert (Ev : negb (Z.rem q 2 =? 0) = negb (Z.even q)) by (f_equal; apply rem2_even).
  rewrite Ev. destruct (r =? 0) eqn:R0; breflect.
  - split; replace (v - q * d) with 0 by lia; cbn; lia.
  - assert (Rs : (v < 0 /\ r < 0) \/ (0 <= v /\ 0 < r)).
    { assert (v <> 0) by (intros ->; apply R0; apply Z.rem_0_l; lia). clear -Sg R0 H. nia. }
    destruct (h <? Z.abs r) eqn:G; breflect; bsimpl.
    + destruct (v <? 0) eqn:N; breflect; unwrap; split; lia.
    + destruct (Z.abs r =? h) eqn:G2; breflect; bsimpl.
      * destruct (Z.even q) eqn:Q; bsimpl; [split; [lia|auto]|].
        destruct (v <? 0) eqn:N; breflect; unwrap; (split; [lia|]); intros _.
        -- rewrite Z.sub_1_r, Z.even_pred, <- Z.negb_even, Q. reflexivity.
        -- rewrite Z.add_1_r, Z.even_succ, <- Z.negb_even, Q. reflexivity.
      * split; lia.
Qed.

(** Printing with a fixed number of places below four rounds half to even. *)
Lemma formatFixedDP_low v dp :
  in64 v -> 0 <= dp < 4 ->
  let d := 10 ^ (4 - dp) in
  parseFixed4 (formatFixedDP v dp) roundExact = range64 (round_half_even v d * d).
Proof.
  intros Hv Hdp d. unfold formatFixedDP.
  assert (Hd : 10 <= d <= 10000 /\ d mod 2 = 0).
  { subst d. assert (dp = 0 \/ dp = 1 \/ dp = 2 \/ dp = 3) as [->|[->|[->| ->]]] by lia; cbn; lia. }
  rewrite (proj2 (Z.ltb_ge dp 0)) by lia. unfold fixedFracDigits.
  rewrite (proj2 (Z.leb_gt 4 dp)) by lia. cbv zeta.
  assert (Ep : pow10 (Z.to_nat (4 - dp)) = d) by (unfold pow10, d; f_equal; lia). rewrite Ep.
  rewrite roundHalfEvenDiv_ref by rlia. set (r := round_half_even v d).
  assert (Hr : -922337203685477581 <= r <= 922337203685477581)
    by (apply round_half_even_mono_bounds; rlia).
  rewrite magnitudeOf_abs by rlia. set (p := pow10 (Z.to_nat dp)).
  assert (Hp : p = 10 ^ dp) by (unfold p, pow10; f_equal; lia).
  pose proof (pow10_pos dp ltac:(lia)) as Pp. rewrite <- Hp in Pp.
  pose proof (Z.mod_pos_bound (Z.abs r) p Pp) as Bm. pose proof (Z.div_mod (Z.abs r) p ltac:(lia)) as Edm.
  assert (Bd : 0 <= Z.abs r / p < 10 ^ Z.of_nat 20).
  { change (10 ^ Z.of_nat 20) with 100000000000000000000. split; [apply Z.div_pos; lia|].
    apply Z.div_lt_upper_bound; [lia|]. nia. }
  destruct (uintDigits_spec 20 (Z.abs r / p) Bd ltac:(discriminate)) as (D1 & V1 & N1).
  assert (Hpd : p * d = 10000) by (rewrite Hp; unfold d; rewrite <- Z.pow_add_r by lia;
    replace (dp + (4 - dp)) with 4 by lia; reflexivity).
  destruct (0 <? dp) eqn:E0; breflect.
  - destruct (padDigits_spec (Z.to_nat dp) (Z.abs r mod p)) as (D2 & L2 & V2);
      [rewrite Z2Nat.id by lia; rewrite <- Hp; exact Bm|].
    replace (appendUint (if r <? 0 then ["-"%char] else []) (Z.abs r / p) ++ ["."%char] ++ padDigits (Z.to_nat dp) (Z.abs r mod p))
      with (decimalChars (r <? 0) (uintDigits 20 (Z.abs r / p)) (Some (padDigits (Z.to_nat dp) (Z.abs r mod p))))
      by (unfold decimalChars, appendUint; rewrite <- !app_assoc; reflexivity).
    rewrite parseFixed4_decimal by auto. rewrite L2, Z2Nat.id by lia. unfold fixedOf.
    rewrite (proj2 (Z.leb_le 0 (4 - dp))) by lia. fold d. rewrite dval_app, V1, V2, L2, Z2Nat.id by lia.
    rewrite <- Hp. replace (Z.abs r / p * p + Z.abs r mod p) with (Z.abs r) by lia.
    rewrite sgn_abs. reflexivity.
  - assert (dp = 0) as -> by lia. assert (p = 1) as Hp1 by exact Hp. rewrite Hp1, Z.div_1_r in *.
    replace (appendUint (if r <? 0 then ["-"%char] else []) (Z.abs r))
      with (decimalChars (r <? 0) (uintDigits 20 (Z.abs r)) None)
      by (unfold decimalChars, appendUint; rewrite app_nil_r; reflexivity).
    rewrite parseFixed4_decimal by (auto; constructor). cbn [List.length]. unfold fixedOf.
    change (0 <=? 4 - Z.of_nat 0) with true. cbv iota. rewrite app_nil_r, V1, sgn_abs. reflexivity.
Qed.

(** ** Properties *)

(** The overflow-checked [int64] primitives compute the exact integer result and
    report failure exactly when that result does not fit in 64 bits; none of
    them ever wraps. *)
Theorem checked_ops_exact a b :
  in64 a -> in64 b ->
  checkedAdd64 a b = exact64 (a + b) /\ checkedSub64 a b = exact64 (a - b) /\
  checkedMul64 a b = exact64 (a * b) /\ checkedNeg64 a = exact64 (- a) /\
  checkedAbs64 a = exact64 (Z.abs a).
Proof. intros Ha Hb. autorewrite with go64. auto. Qed.

Lemma checked_ops_exact_witness :
  in64 min_int64 /\ in64 (-1) /\ checkedMul64 min_int64 (-1) = None.
Proof.
  split; [rlia|split; [rlia|]].
  destruct (checked_ops_exact min_int64 (-1) ltac:(rlia) ltac:(rlia)) as (_ & _ & E & _).
  rewrite E. reflexivity.
Defined.

(** C40: the canonical decimal text of every [int64] fixed-point value parses back to
    that value, in both rounding modes (MinInt64 included). *)
Theorem parse_format_roundtrip v mode :
  in64 v -> parseFixed4 (formatFixed4 v) mode = Ok v.
Proof. apply parse_format_fixed4. Qed.

Lemma parse_format_roundtrip_witness :
  in64 min_int64 /\ parseFixed4 (formatFixed4 min_int64) roundExact = Ok min_int64.
Proof. split; [rlia|]. apply (parse_format_roundtrip min_int64 roundExact). rlia. Defined.

(** On every lexically valid literal the parser returns the exact decimal value at
    scale 1e-4: exactly when representable ([ErrInexact] otherwise) or rounded
    half to even, and [ErrOverflow] exactly outside the [int64] range. *)
Theorem parseFixed4_correct s mode neg buf frac exp :
  lexFixed4 (list_ascii_of_string s) = Ok (neg, buf, frac, exp) ->
  parseFixed4 s mode = fixedOf mode (sgn neg * dval buf) (exp - frac + fixedFracDigits).
Proof. apply parseFixed4_lexed. Qed.

Lemma parseFixed4_correct_witness :
  lexFixed4 (list_ascii_of_string "-12.50015e0") = Ok (true, list_ascii_of_string "1250015", 5, 0)
  /\ parseFixed4 "-12.50015e0" roundHalfEven = Ok (-125002).
Proof.
  split; [reflexivity|].
  rewrite (parseFixed4_correct "-12.50015e0" roundHalfEven true (list_ascii_of_string "1250015") 5 0 eq_refl).
  reflexivity.
Defined.

(** Printing with [dp < 4] decimal places denotes the value rounded half to even
    at that place (out of range only when the rounding itself leaves the
    [int64] range). *)
Theorem formatFixedDP_rounds v dp :
  in64 v -> 0 <= dp < 4 ->
  parseFixed4 (formatFixedDP v dp) roundExact
  = range64 (round_half_even v (10 ^ (4 - dp)) * 10 ^ (4 - dp)).
Proof. intros Hv Hdp. apply (formatFixedDP_low v dp Hv Hdp). Qed.

Lemma formatFixedDP_rounds_witness :
  in64 1234550 /\ parseFixed4 (formatFixedDP 1234550 2) roundExact = Ok 1234600.
Proof.
  split; [rlia|]. rewrite (formatFixedDP_rounds 1234550 2 ltac:(rlia) ltac:(lia)). reflexivity.
Defined.
