(* ===== verification/Money.v ===== *)
(** * Price, Money and Qty (src/internal/domain/money.go)

    The three [int64] value types of the system with their overflow-checked
    arithmetic, and their text and JSON codecs.  A value is the raw [Z] unit
    count; an operation that returns [(T, error)] in Go returns a [res].  The
    [float64] bridges of money.go are not part of this file. *)

From S2P Require Import Prelude Fixed.

Definition Price : Set := Z.
Definition Money : Set := Z.
Definition Qty : Set := Z.

(** ** Shared helpers *)

Definition cmpInt64 (a b : Z) : Z := if a <? b then -1 else if b <? a then 1 else 0.

(** [bytes.TrimSpace]: the UTF-8 encodings of the Unicode white space. *)
Definition spaceSeqs : list (list ascii) :=
  map (map (fun n => ascii_of_nat n))
    ([[9]; [10]; [11]; [12]; [13]; [32]; [194; 133]; [194; 160]; [225; 154; 128];
     [226; 128; 168]; [226; 128; 169]; [226; 128; 175]; [226; 129; 159]; [227; 128; 128]]
     ++ map (fun i => [226; 128; 128 + i]) (seq 0 11))%nat.

Fixpoint stripPrefix (p s : list ascii) : option (list ascii) :=
  match p, s with
  | [], _ => Some s
  | a :: p', b :: s' => if (a =? b)%char then stripPrefix p' s' else None
  | _ :: _, [] => None
  end.

Fixpoint stripAny (ps : list (list ascii)) (s : list ascii) : option (list ascii) :=
  match ps with
  | [] => None
  | p :: ps' => match stripPrefix p s with Some r => Some r | None => stripAny ps' s end
  end.

(** Each step removes at least one byte, so the length is enough fuel. *)
Fixpoint trimLeft (fuel : nat) (ps : list (list ascii)) (s : list ascii) : list ascii :=
  match fuel with
  | O => s
  | S f => match stripAny ps s with Some r => trimLeft f ps r | None => s end
  end.

Definition trimSpace (b : list ascii) : list ascii :=
  let l := trimLeft (List.length b) spaceSeqs b in
  rev (trimLeft (List.length l) (map (@rev ascii) spaceSeqs) (rev l)).

Definition quote : ascii := ascii_of_nat 34.
Definition backslash : ascii := ascii_of_nat 92.

Definition marshalFixedJSON (v : Z) : list ascii :=
  [quote] ++ list_ascii_of_string (formatFixed4 v) ++ [quote].

(** [len(tok) >= 2 && tok[0] == '"' && tok[len(tok)-1] == '"'], with the
    content between the quotes. *)
Definition quotedInner (tok : list ascii) : option (list ascii) :=
  match tok with
  | c :: rest =>
      if (c =? quote)%char then
        match rev rest with
        | d :: inner => if (d =? quote)%char then Some (rev inner) else None
        | [] => None
        end
      else None
  | [] => None
  end.

Definition unquoteJSONString (inner : list ascii) : res string :=
  if existsb (fun c => (c =? backslash)%char) inner then Err ErrInvalidNumber
  else Ok (string_of_list_ascii inner).

Definition jsonNull : list ascii := list_ascii_of_string "null".

Definition isNull (tok : list ascii) : bool := if list_eq_dec ascii_dec tok jsonNull then true else false.

(** The value and the [changed] flag. *)
Definition unmarshalFixedJSON (b : list ascii) : res (Z * bool) :=
  let tok := trimSpace b in
  if isNull tok then Ok (0, false)
  else
    match quotedInner tok with
    | Some inner =>
        match unquoteJSONString inner with
        | Err _ => Err ErrInvalidNumber
        | Ok s => n <-? parseFixed4 s roundExact ;; Ok (n, true)
        end
    | None => n <-? parseFixed4 (string_of_list_ascii tok) roundExact ;; Ok (n, true)
    end.

(** ** Price *)

Definition ParsePrice (s : string) : res Price := parseFixed4 s roundExact.
Definition PriceFromInt (units : Z) : res Price := of_checked (checkedMul64 units FixedScale) ErrOverflow.
Definition Price_String (p : Price) : string := formatFixed4 p.
Definition Price_StringFixed (p : Price) (dp : Z) : string := formatFixedDP p dp.
Definition Price_Add (p o : Price) : res Price := of_checked (checkedAdd64 p o) ErrOverflow.
Definition Price_Sub (p o : Price) : res Price := of_checked (checkedSub64 p o) ErrOverflow.
Definition Price_Neg (p : Price) : res Price := of_checked (checkedNeg64 p) ErrOverflow.
Definition Price_Abs (p : Price) : res Price := of_checked (checkedAbs64 p) ErrOverflow.
Definition Price_MulQty (p : Price) (q : Qty) : res Money := of_checked (checkedMul64 p q) ErrOverflow.
Definition Price_AsMoney (p : Price) : Money := p.
Definition Price_Cmp (p o : Price) : Z := cmpInt64 p o.
Definition Price_Sign (p : Price) : Z := cmpInt64 p 0.
Definition Price_IsZero (p : Price) : bool := p =? 0.
Definition Price_IsPositive (p : Price) : bool := 0 <? p.
Definition Price_IsNegative (p : Price) : bool := p <? 0.
Definition Price_MarshalText (p : Price) : list ascii := list_ascii_of_string (Price_String p).
Definition Price_UnmarshalText (b : list ascii) : res Price := ParsePrice (string_of_list_ascii b).
Definition Price_MarshalJSON (p : Price) : list ascii := marshalFixedJSON p.

(** The pointer receiver is the first argument; it keeps its value on null. *)
Definition Price_UnmarshalJSON (p : Price) (b : list ascii) : res Price :=
  '(v, changed) <-? unmarshalFixedJSON b ;; Ok (if changed : bool then v else p).

(** ** Money *)

Definition ParseMoney (s : string) : res Money := parseFixed4 s roundExact.
Definition MoneyFromInt (units : Z) : res Money := of_checked (checkedMul64 units FixedScale) ErrOverflow.
Definition Money_String (m : Money) : string := formatFixed4 m.
Definition Money_StringFixed (m : Money) (dp : Z) : string := formatFixedDP m dp.
Definition Money_Add (m o : Money) : res Money := of_checked (checkedAdd64 m o) ErrOverflow.
Definition Money_Sub (m o : Money) : res Money := of_checked (checkedSub64 m o) ErrOverflow.
Definition Money_Neg (m : Money) : res Money := of_checked (checkedNeg64 m) ErrOverflow.
Definition Money_Abs (m : Money) : res Money := of_checked (checkedAbs64 m) ErrOverflow.
Definition Money_MulInt64 (m : Money) (n : Z) : res Money := of_checked (checkedMul64 m n) ErrOverflow.
Definition Money_Cmp (m o : Money) : Z := cmpInt64 m o.
Definition Money_Sign (m : Money) : Z := cmpInt64 m 0.
Definition Money_IsZero (m : Money) : bool := m =? 0.
Definition Money_IsPositive (m : Money) : bool := 0 <? m.
Definition Money_IsNegative (m : Money) : bool := m <? 0.
Definition Money_MarshalText (m : Money) : list ascii := list_ascii_of_string (Money_String m).
Definition Money_UnmarshalText (b : list ascii) : res Money := ParseMoney (string_of_list_ascii b).
Definition Money_MarshalJSON (m : Money) : list ascii := marshalFixedJSON m.
Definition Money_UnmarshalJSON (m : Money) (b : list ascii) : res Money :=
  '(v, changed) <-? unmarshalFixedJSON b ;; Ok (if changed : bool then v else m).

(** ** Qty *)

(** [strconv.ParseInt(s, 10, 64)]; every failure becomes [ErrInvalidNumber]. *)
Definition ParseQty (s : string) : res Qty :=
  let '(neg, ds) := scanSign (list_ascii_of_string s) in
  if (List.length ds =? 0)%nat || negb (forallb is_digit ds) then Err ErrInvalidNumber
  else of_checked (exact64 (sgn neg * dval ds)) ErrInvalidNumber.

(** [strconv.FormatInt(q, 10)] *)
Definition formatInt (v : Z) : list ascii :=
  appendUint (if v <? 0 then ["-"%char] else []) (magnitudeOf v).

Definition Qty_String (q : Qty) : string := string_of_list_ascii (formatInt q).
Definition Qty_Add (q o : Qty) : res Qty := of_checked (checkedAdd64 q o) ErrOverflow.
Definition Qty_Sub (q o : Qty) : res Qty := of_checked (checkedSub64 q o) ErrOverflow.
Definition Qty_Neg (q : Qty) : res Qty := of_checked (checkedNeg64 q) ErrOverflow.
Definition Qty_Abs (q : Qty) : res Qty := of_checked (checkedAbs64 q) ErrOverflow.
Definition Qty_Cmp (q o : Qty) : Z := cmpInt64 q o.
Definition Qty_Sign (q : Qty) : Z := cmpInt64 q 0.
Definition Qty_IsZero (q : Qty) : bool := q =? 0.
Definition Qty_MarshalJSON (q : Qty) : list ascii := formatInt q.
Definition Qty_UnmarshalJSON (q : Qty) (b : list ascii) : res Qty :=
  let tok := trimSpace b in
  if isNull tok then Ok q
  else
    let tok := match quotedInner tok with Some inner => inner | None => tok end in
    ParseQty (string_of_list_ascii tok).

(** ** Arithmetic facts the other components use *)

Lemma of_exact64_ok z e r : of_checked (exact64 z) e = Ok r <-> r = z /\ in64 z.
Proof. rewrite of_checked_ok. apply exact64_some. Qed.

Lemma Price_Add_ok p o r : in64 p -> in64 o -> Price_Add p o = Ok r <-> r = p + o /\ in64 (p + o).
Proof. intros. unfold Price_Add. autorewrite with go64. apply of_exact64_ok. Qed.

Lemma Price_Sub_ok p o r : in64 p -> in64 o -> Price_Sub p o = Ok r <-> r = p - o /\ in64 (p - o).
Proof. intros. unfold Price_Sub. autorewrite with go64. apply of_exact64_ok. Qed.

Lemma Price_MulQty_ok p q r : in64 p -> in64 q -> Price_MulQty p q = Ok r <-> r = p * q /\ in64 (p * q).
Proof. intros. unfold Price_MulQty. autorewrite with go64. apply of_exact64_ok. Qed.

Lemma Money_Add_ok m o r : in64 m -> in64 o -> Money_Add m o = Ok r <-> r = m + o /\ in64 (m + o).
Proof. intros. unfold Money_Add. autorewrite with go64. apply of_exact64_ok. Qed.

Lemma Money_Sub_ok m o r : in64 m -> in64 o -> Money_Sub m o = Ok r <-> r = m - o /\ in64 (m - o).
Proof. intros. unfold Money_Sub. autorewrite with go64. apply of_exact64_ok. Qed.

Lemma Money_Neg_ok m r : in64 m -> Money_Neg m = Ok r <-> r = - m /\ in64 (- m).
Proof. intros. unfold Money_Neg. autorewrite with go64. apply of_exact64_ok. Qed.

Lemma Qty_Add_ok q o r : in64 q -> in64 o -> Qty_Add q o = Ok r <-> r = q + o /\ in64 (q + o).
Proof. intros. unfold Qty_Add. autorewrite with go64. apply of_exact64_ok. Qed.

Lemma Qty_Neg_ok q r : in64 q -> Qty_Neg q = Ok r <-> r = - q /\ in64 (- q).
Proof. intros. unfold Qty_Neg. autorewrite with go64. apply of_exact64_ok. Qed.
Lemma Qty_Abs_ok q r : in64 q -> Qty_Abs q = Ok r <-> r = Z.abs q /\ in64 (Z.abs q).
Proof. intros. unfold Qty_Abs. autorewrite with go64. apply of_exact64_ok. Qed.

(** ** Codecs *)

Definition plainChar (c : ascii) : bool := is_digit c || (c =? "-")%char || (c =? ".")%char.

Lemma plainChar_not_space c p ps :
  plainChar c = true -> In (p :: ps) spaceSeqs \/ In (p :: ps) (map (@rev ascii) spaceSeqs) -> (p =? c)%char = false.
Proof.
  intros Hc Hin. apply Ascii.eqb_neq. intros ->.
  assert (F : forallb (fun l => match l with [] => false | a :: _ => negb (plainChar a) end)
                (spaceSeqs ++ map (@rev ascii) spaceSeqs) = true) by (vm_compute; reflexivity).
  rewrite forallb_forall in F.
  specialize (F (c :: ps) ltac:(apply in_or_app; exact Hin)). cbn in F. rewrite Hc in F. discriminate.
Qed.

Lemma stripAny_none c s seqs :
  (forall q, In q seqs -> exists p ps, q = p :: ps /\ (p =? c)%char = false) -> stripAny seqs (c :: s) = None.
Proof.
  induction seqs as [|q seqs IH]; intros H; [reflexivity|]. cbn [stripAny].
  destruct (H q (or_introl eq_refl)) as (p & ps & -> & E). cbn [stripPrefix]. rewrite E.
  apply IH. intros q' Hq. apply H. right; exact Hq.
Qed.

Lemma trimLeft_stop fuel seqs c s :
  (forall q, In q seqs -> exists p ps, q = p :: ps /\ (p =? c)%char = false) ->
  trimLeft fuel seqs (c :: s) = c :: s.
Proof. intros H. destruct fuel; cbn [trimLeft]; [reflexivity|]. rewrite stripAny_none by exact H. reflexivity. Qed.

Lemma spaceSeqs_heads c seqs :
  (seqs = spaceSeqs \/ seqs = map (@rev ascii) spaceSeqs) ->
  plainChar c = true \/ c = quote ->
  forall q, In q seqs -> exists p ps, q = p :: ps /\ (p =? c)%char = false.
Proof.
  intros Hs Hc q Hq. destruct q as [|p ps].
  - exfalso. destruct Hs as [->| ->]; vm_compute in Hq; intuition discriminate.
  - exists p, ps. split; [reflexivity|]. destruct Hc as [Hc| ->].
    + apply (plainChar_not_space c p ps Hc). destruct Hs as [->| ->]; auto.
    + destruct Hs as [->| ->]; vm_compute in Hq;
        repeat (destruct Hq as [Hq|Hq]; [injection Hq as <- <-; reflexivity|]); destruct Hq.
Qed.

(** A token without white space at its ends is left alone. *)
Lemma trimSpace_id c s d t :
  c :: s = t ++ [d] -> plainChar c = true \/ c = quote -> plainChar d = true \/ d = quote ->
  trimSpace (c :: s) = c :: s.
Proof.
  intros E Hc Hd. unfold trimSpace.
  rewrite trimLeft_stop by (apply spaceSeqs_heads; auto).
  rewrite E, rev_app_distr. cbn [rev app].
  rewrite trimLeft_stop by (apply spaceSeqs_heads; auto).
  cbn [rev]. rewrite rev_involutive. reflexivity.
Qed.

Lemma isNull_head c s : plainChar c = true \/ c = quote -> isNull (c :: s) = false.
Proof.
  intros H. unfold isNull. destruct (list_eq_dec ascii_dec (c :: s) jsonNull) as [E|]; [|reflexivity].
  injection E as -> _. destruct H as [H|H]; vm_compute in H; discriminate.
Qed.

(** The characters of a printed decimal. *)
Lemma formatFixed4_plain v : in64 v -> Forall (fun c => plainChar c = true) (list_ascii_of_string (formatFixed4 v)).
Proof.
  intros Hv. rewrite formatFixed4_chars by exact Hv. rewrite list_ascii_of_string_of_list_ascii.
  cbv zeta. set (u := Z.abs v). assert (Hu : 0 <= u <= 9223372036854775808) by (subst u; rlia).
  assert (Dg : forall l, digits l -> Forall (fun c => plainChar c = true) l).
  { intros l D. eapply Forall_impl; [|exact D]. intros c Hc. unfold plainChar. rewrite Hc. reflexivity. }
  destruct (uintDigits_spec 20 (u / FixedScale)) as (D1 & _ & _);
    [change (10 ^ Z.of_nat 20) with 100000000000000000000; unfold FixedScale;
     split; [apply Z.div_pos; lia|apply Z.div_lt_upper_bound; lia]|discriminate|].
  unfold decimalChars. apply Forall_app; split; [destruct (v <? 0); repeat constructor|].
  apply Forall_app; split; [apply Dg, D1|].
  destruct (u mod FixedScale =? 0); [constructor|constructor; [reflexivity|]].
  destruct (fracDigits_spec 4 (u mod FixedScale) []) as (D2 & _ & _);
    [apply Z.mod_pos_bound; reflexivity|constructor|].
  apply Dg, trimZeros_spec, D2.
Qed.

Lemma plain_no_backslash l :
  Forall (fun c => plainChar c = true) l -> existsb (fun c => (c =? backslash)%char) l = false.
Proof.
  induction 1 as [|c l Hc _ IH]; [reflexivity|]. cbn [existsb]. rewrite IH, orb_false_r.
  apply Ascii.eqb_neq. intros ->. vm_compute in Hc. discriminate.
Qed.

Lemma quotedInner_quoted l : quotedInner ([quote] ++ l ++ [quote]) = Some l.
Proof.
  cbn [app quotedInner]. rewrite Ascii.eqb_refl, rev_app_distr. cbn [rev app].
  rewrite Ascii.eqb_refl, rev_involutive. reflexivity.
Qed.

Lemma string_ascii_id s : string_of_list_ascii (list_ascii_of_string s) = s.
Proof. apply string_of_list_ascii_of_string. Qed.

Lemma unmarshal_marshal_fixed v : in64 v -> unmarshalFixedJSON (marshalFixedJSON v) = Ok (v, true).
Proof.
  intros Hv. unfold unmarshalFixedJSON, marshalFixedJSON.
  set (l := list_ascii_of_string (formatFixed4 v)).
  change ([quote] ++ l ++ [quote]) with (quote :: l ++ [quote]).
  rewrite (trimSpace_id quote (l ++ [quote]) quote ([quote] ++ l)) by (auto; reflexivity).
  rewrite isNull_head by auto.
  change (quote :: l ++ [quote]) with ([quote] ++ l ++ [quote]). rewrite quotedInner_quoted.
  unfold unquoteJSONString. rewrite plain_no_backslash by (apply formatFixed4_plain, Hv).
  subst l. rewrite string_ascii_id, parse_format_fixed4 by exact Hv. reflexivity.
Qed.

Lemma ParseQty_String q : in64 q -> ParseQty (Qty_String q) = Ok q.
Proof.
  intros Hq. unfold ParseQty, Qty_String, formatInt, appendUint.
  rewrite list_ascii_of_string_of_list_ascii, magnitudeOf_abs by exact Hq.
  destruct (uintDigits_spec 20 (Z.abs q)) as (D & V & N);
    [change (10 ^ Z.of_nat 20) with 100000000000000000000; rlia|discriminate|].
  assert (Fb : forallb is_digit (uintDigits 20 (Z.abs q)) = true)
    by (apply forallb_forall; intros x Hx; unfold digits in D; rewrite Forall_forall in D; auto).
  destruct (uintDigits 20 (Z.abs q)) as [|d ds] eqn:E; [congruence|].
  assert (Sg : scanSign ((if q <? 0 then ["-"%char] else []) ++ d :: ds) = (q <? 0, d :: ds)).
  { destruct (q <? 0); [reflexivity|]. cbn [app scanSign]. inversion D as [|x l Hd _]; subst.
    apply is_digit_range in Hd.
    destruct (Ascii.eqb_spec d "+") as [->|_]; [change (code "+") with 43 in Hd; lia|].
    destruct (Ascii.eqb_spec d "-") as [->|_]; [change (code "-") with 45 in Hd; lia|]. reflexivity. }
  rewrite Sg, Fb, V, sgn_abs, exact64_in by exact Hq. reflexivity.
Qed.

Lemma formatInt_plain q : in64 q -> exists c s d t,
  formatInt q = c :: s /\ c :: s = t ++ [d] /\ plainChar c = true /\ plainChar d = true /\ c <> quote.
Proof.
  intros Hq. unfold formatInt, appendUint. rewrite magnitudeOf_abs by exact Hq.
  destruct (uintDigits_spec 20 (Z.abs q)) as (D & _ & N);
    [change (10 ^ Z.of_nat 20) with 100000000000000000000; rlia|discriminate|].
  destruct (exists_last N) as (t & d & E).
  assert (Hd : plainChar d = true).
  { unfold digits in D. rewrite Forall_forall in D. unfold plainChar.
    rewrite (D d) by (rewrite E; apply in_or_app; right; left; reflexivity). reflexivity. }
  assert (Hp : forall c, plainChar c = true -> c <> quote) by (intros c Hc ->; vm_compute in Hc; discriminate).
  destruct (q <? 0).
  - exists "-"%char, (uintDigits 20 (Z.abs q)), d, ("-"%char :: t).
    rewrite E. repeat split; auto; discriminate.
  - destruct (uintDigits 20 (Z.abs q)) as [|c s]; [congruence|]. exists c, s, d, t.
    inversion D as [|x l Hc _]; subst. assert (Pc : plainChar c = true) by (unfold plainChar; rewrite Hc; reflexivity).
    repeat split; auto.
Qed.

Lemma Qty_json q old : in64 q -> Qty_UnmarshalJSON old (Qty_MarshalJSON q) = Ok q.
Proof.
  intros Hq. unfold Qty_UnmarshalJSON, Qty_MarshalJSON.
  destruct (formatInt_plain q Hq) as (c & s & d & t & E & E2 & Pc & Pd & Nq). rewrite E.
  rewrite (trimSpace_id c s d t E2) by auto. rewrite isNull_head by auto.
  cbn [quotedInner]. rewrite (proj2 (Ascii.eqb_neq c quote) Nq). rewrite <- E.
  apply (ParseQty_String q Hq).
Qed.

(** ** Properties *)

(** Encoding a [Price], a [Money] or a [Qty] to JSON and decoding the bytes gives
    the value back, whatever the receiver held before; JSON null leaves the
    receiver unchanged. *)
Theorem json_roundtrip (v old : Z) :
  in64 v ->
  Price_UnmarshalJSON old (Price_MarshalJSON v) = Ok v /\
  Money_UnmarshalJSON old (Money_MarshalJSON v) = Ok v /\
  Qty_UnmarshalJSON old (Qty_MarshalJSON v) = Ok v /\
  Price_UnmarshalJSON old jsonNull = Ok old /\ Qty_UnmarshalJSON old jsonNull = Ok old.
Proof.
  intros Hv. split; [|split; [|split; [|split; reflexivity]]].
  - unfold Price_UnmarshalJSON, Price_MarshalJSON. rewrite unmarshal_marshal_fixed by exact Hv. reflexivity.
  - unfold Money_UnmarshalJSON, Money_MarshalJSON. rewrite unmarshal_marshal_fixed by exact Hv. reflexivity.
  - apply Qty_json, Hv.
Qed.

Lemma json_roundtrip_witness :
  in64 (-1234500) /\ Price_UnmarshalJSON 7 (Price_MarshalJSON (-1234500)) = Ok (-1234500).
Proof. split; [rlia|]. apply (json_roundtrip (-1234500) 7). rlia. Defined.
