(* ===== verification/Domain.v ===== *)
(** * Domain value objects (src/internal/domain)

    The string-valued enumerations (enums.go, trading.go), instants
    ([time.Time]), and the value objects [Bar], [Order], [Fill], [Position],
    [PortfolioSnapshot] and [Account] with their validation.  A Go string
    enumeration can hold any string, so it stays a [string] here and [IsValid]
    is what separates the known values from the rest. *)

From stdpp Require Import gmap strings list.
From S2P Require Import Prelude Fixed Money.
Set Default Goal Selector "!".
#[local] Open Scope Z_scope.

(** ** Instants *)

(** A [time.Time]: nanoseconds since the Unix epoch (unbounded, as Go keeps
    seconds and nanoseconds apart) and the zone offset in seconds. *)
Record time : Set := mkTime { t_ns : Z; t_off : Z }.

(** Go's zero time, January 1 of year 1, UTC. *)
Definition zeroNs : Z := -62135596800000000000.
Definition zeroTime : time := mkTime zeroNs 0.

Definition IsZeroTime (t : time) : bool := t_ns t =? zeroNs.
Definition Before (a b : time) : bool := t_ns a <? t_ns b.
Definition UTC (t : time) : time := mkTime (t_ns t) 0.
(** [UnixNano] is an [int64]; it wraps outside the years 1678 to 2262. *)
Definition UnixNano (t : time) : Z := wrap64 (t_ns t).
(** [_, off := t.Zone(); off != 0] *)
Definition nonUTC (t : time) : bool := negb (t_off t =? 0).

#[export] Instance time_eq_dec : EqDecision time.
Proof. solve_decision. Defined.

(** ** Enumerations *)

Definition oneOf (vals : list string) (s : string) : bool := existsb (String.eqb s) vals.

Definition parseEnum (valid : string -> bool) (s : string) : res string :=
  if valid s then Ok s else Err ErrInvalidArgument.

Abbreviation SignalSide := string (only parsing).
Definition SideLong : SignalSide := "LONG".
Definition SideFlat : SignalSide := "FLAT".
Definition SideShort : SignalSide := "SHORT".
Definition SignalSide_IsValid (s : SignalSide) : bool := oneOf [SideLong; SideFlat; SideShort] s.
Definition ParseSignalSide (s : string) : res SignalSide := parseEnum SignalSide_IsValid s.

Abbreviation OrderSide := string (only parsing).
Definition OrderSideBuy : OrderSide := "BUY".
Definition OrderSideSell : OrderSide := "SELL".
Definition OrderSide_IsValid (o : OrderSide) : bool := String.eqb o OrderSideBuy || String.eqb o OrderSideSell.
Definition ParseOrderSide (s : string) : res OrderSide := parseEnum OrderSide_IsValid s.

Definition OrderSideFor (s : SignalSide) : res OrderSide :=
  if String.eqb s SideLong then Ok OrderSideBuy
  else if String.eqb s SideShort then Ok OrderSideSell
  else Err ErrInvalidArgument.

Definition CloseSideFor (net : Qty) : option OrderSide :=
  if 0 <? net then Some OrderSideSell
  else if net <? 0 then Some OrderSideBuy
  else None.

Abbreviation OrderType := string (only parsing).
Definition OrderTypeMarket : OrderType := "MARKET".
Definition OrderTypeLimit : OrderType := "LIMIT".
Definition OrderTypeStopMarket : OrderType := "STOP_MARKET".
Definition OrderTypeStopLimit : OrderType := "STOP_LIMIT".
Definition OrderType_IsValid (t : OrderType) : bool :=
  oneOf [OrderTypeMarket; OrderTypeLimit; OrderTypeStopMarket; OrderTypeStopLimit] t.
Definition ParseOrderType (s : string) : res OrderType := parseEnum OrderType_IsValid s.

Abbreviation TimeInForce := string (only parsing).
Definition TIFGTC : TimeInForce := "GTC".
Definition TIFDay : TimeInForce := "DAY".
Definition TIFIOC : TimeInForce := "IOC".
Definition TIFFOK : TimeInForce := "FOK".
Definition TimeInForce_IsValid (t : TimeInForce) : bool := oneOf [TIFGTC; TIFDay; TIFIOC; TIFFOK] t.
Definition ParseTimeInForce (s : string) : res TimeInForce := parseEnum TimeInForce_IsValid s.

Abbreviation OrderStatus := string (only parsing).
Definition OrderStatusSubmitted : OrderStatus := "SUBMITTED".
Definition OrderStatusAccepted : OrderStatus := "ACCEPTED".
Definition OrderStatusPartiallyFilled : OrderStatus := "PARTIALLY_FILLED".
Definition OrderStatusFilled : OrderStatus := "FILLED".
Definition OrderStatusCanceled : OrderStatus := "CANCELED".
Definition OrderStatusRejected : OrderStatus := "REJECTED".
Definition OrderStatus_IsValid (s : OrderStatus) : bool :=
  oneOf [OrderStatusSubmitted; OrderStatusAccepted; OrderStatusPartiallyFilled;
         OrderStatusFilled; OrderStatusCanceled; OrderStatusRejected] s.
Definition ParseOrderStatus (s : string) : res OrderStatus := parseEnum OrderStatus_IsValid s.
Definition OrderStatus_IsTerminal (s : OrderStatus) : bool :=
  oneOf [OrderStatusFilled; OrderStatusCanceled; OrderStatusRejected] s.

Abbreviation SignalState := string (only parsing).
Definition SignalState_IsValid (s : SignalState) : bool :=
  oneOf ["no_setup"; "forming"; "buy"; "hold"; "exit"; "stop_hit"]%string s.
Definition ParseSignalState (s : string) : res SignalState := parseEnum SignalState_IsValid s.

Definition Regime_IsValid (s : string) : bool := oneOf ["bull"; "bear"; "neutral"; "warning"]%string s.
Definition ParseRegime (s : string) : res string := parseEnum Regime_IsValid s.

Definition MarketSession_IsValid (s : string) : bool := oneOf ["pre"; "regular"; "post"; "closed"]%string s.
Definition ParseMarketSession (s : string) : res string := parseEnum MarketSession_IsValid s.

Definition LegRole_IsValid (s : string) : bool := String.eqb s "long" || String.eqb s "short".
Definition ParseLegRole (s : string) : res string := parseEnum LegRole_IsValid s.

Abbreviation ExecutionPolicy := string (only parsing).
Definition ExecSignal : ExecutionPolicy := "signal".
Definition ExecAuto : ExecutionPolicy := "auto".
Definition ExecutionPolicy_IsValid (p : ExecutionPolicy) : bool := String.eqb p ExecSignal || String.eqb p ExecAuto.
Definition ParseExecutionPolicy (s : string) : res ExecutionPolicy := parseEnum ExecutionPolicy_IsValid s.

Abbreviation BrokerEnv := string (only parsing).
Definition EnvPaper : BrokerEnv := "paper".
Definition EnvReal : BrokerEnv := "real".
Definition BrokerEnv_IsValid (e : BrokerEnv) : bool := oneOf [EnvPaper; EnvReal] e.
Definition BrokerEnv_IsReal (e : BrokerEnv) : bool := String.eqb e EnvReal.
Definition BrokerEnv_IsBroker (e : BrokerEnv) : bool := String.eqb e EnvPaper || String.eqb e EnvReal.

Definition RunWord (exec : ExecutionPolicy) (env : BrokerEnv) : string :=
  if negb (String.eqb exec ExecAuto) then "signal"
  else if String.eqb env EnvReal then "live"
  else "paper".

Definition AccountKind (env : BrokerEnv) : string := if String.eqb env EnvReal then "live" else "paper".

(** ** Account (trading.go) *)

Record BrokerAccount : Set := {
  acct_ID : string;
  acct_Venue : string;
  acct_Env : BrokerEnv;
  acct_BrokerAccID : Z;
  acct_Label : string;
  acct_IsDefault : bool;
  acct_Notes : string
}.

(** [fmt.Sprintf("%s:%s:%d", venue, env, brokerAccID)] *)
Definition NewBrokerAccount (venue : string) (env : BrokerEnv) (brokerAccID : Z) (label : string) : BrokerAccount := {|
  acct_ID := (venue ++ ":" ++ env ++ ":" ++ string_of_list_ascii (appendUint [] brokerAccID))%string;
  acct_Venue := venue; acct_Env := env; acct_BrokerAccID := brokerAccID;
  acct_Label := label; acct_IsDefault := false; acct_Notes := "" |}.

Definition Account_IsReal (a : BrokerAccount) : bool := BrokerEnv_IsReal (acct_Env a).
Definition Account_IsBroker (a : BrokerAccount) : bool := BrokerEnv_IsBroker (acct_Env a).

Definition rejectIf (bad : bool) : res unit := if bad then Err ErrInvalidArgument else Ok tt.

Definition BrokerAccount_Validate (a : BrokerAccount) : res unit :=
  _ <-? rejectIf (String.eqb (acct_ID a) "") ;;
  _ <-? rejectIf (negb (BrokerEnv_IsValid (acct_Env a))) ;;
  rejectIf (BrokerEnv_IsBroker (acct_Env a) && (acct_BrokerAccID a =? 0)).

(** ** Bar (bar.go) *)

Record Bar : Set := {
  bar_Symbol : string;
  bar_TS : time;
  bar_Open : Price;
  bar_High : Price;
  bar_Low : Price;
  bar_Close : Price;
  bar_Volume : Z
}.

Definition Bar_Validate (b : Bar) : res unit :=
  _ <-? rejectIf (String.eqb (bar_Symbol b) "") ;;
  _ <-? rejectIf (IsZeroTime (bar_TS b)) ;;
  _ <-? rejectIf (nonUTC (bar_TS b)) ;;
  _ <-? rejectIf (bar_High b <? bar_Low b) ;;
  _ <-? rejectIf ((bar_Open b <? bar_Low b) || (bar_High b <? bar_Open b)) ;;
  _ <-? rejectIf ((bar_Close b <? bar_Low b) || (bar_High b <? bar_Close b)) ;;
  rejectIf (bar_Volume b <? 0).

(** ** Order, Fill, Position (order.go) *)

Record Order : Set := mkOrder {
  o_ClientOrderID : string;
  o_VenueOrderID : string;
  o_StrategyID : string;
  o_Symbol : string;
  o_Side : OrderSide;
  o_Type : OrderType;
  o_TIF : TimeInForce;
  o_Qty : Qty;
  o_LimitPrice : option Price;
  o_StopPrice : option Price;
  o_Status : OrderStatus;
  o_FilledQty : Qty;
  o_AvgFillPx : Price;
  o_Reason : string;
  o_TS : time
}.

Definition NewMarketOrder (clientOrderID strategyID symbol : string) (side : OrderSide)
    (qty : Qty) (reason : string) (ts : time) : Order := {|
  o_ClientOrderID := clientOrderID; o_VenueOrderID := ""; o_StrategyID := strategyID;
  o_Symbol := symbol; o_Side := side; o_Type := OrderTypeMarket; o_TIF := TIFGTC;
  o_Qty := qty; o_LimitPrice := None; o_StopPrice := None; o_Status := OrderStatusSubmitted;
  o_FilledQty := 0; o_AvgFillPx := 0; o_Reason := reason; o_TS := ts |}.

Definition missingPrice (p : option Price) : bool :=
  match p with None => true | Some v => negb (Price_IsPositive v) end.

Definition Order_Validate (o : Order) : res unit :=
  _ <-? rejectIf (String.eqb (o_ClientOrderID o) "") ;;
  _ <-? rejectIf (String.eqb (o_StrategyID o) "") ;;
  _ <-? rejectIf (String.eqb (o_Symbol o) "") ;;
  _ <-? rejectIf (negb (OrderSide_IsValid (o_Side o))) ;;
  _ <-? rejectIf (negb (OrderType_IsValid (o_Type o))) ;;
  _ <-? rejectIf (negb (TimeInForce_IsValid (o_TIF o))) ;;
  _ <-? rejectIf (negb (OrderStatus_IsValid (o_Status o))) ;;
  _ <-? rejectIf (o_Qty o <=? 0) ;;
  _ <-? rejectIf (oneOf [OrderTypeLimit; OrderTypeStopLimit] (o_Type o) && missingPrice (o_LimitPrice o)) ;;
  _ <-? rejectIf (oneOf [OrderTypeStopMarket; OrderTypeStopLimit] (o_Type o) && missingPrice (o_StopPrice o)) ;;
  _ <-? rejectIf (IsZeroTime (o_TS o)) ;;
  _ <-? rejectIf ((o_FilledQty o <? 0) || (o_Qty o <? o_FilledQty o)) ;;
  rejectIf (String.eqb (o_Status o) OrderStatusFilled && negb (o_FilledQty o =? o_Qty o)).

Record Fill : Set := mkFill {
  f_TradeID : string;
  f_ClientOrderID : string;
  f_VenueOrderID : string;
  f_StrategyID : string;
  f_Symbol : string;
  f_Side : OrderSide;
  f_Qty : Qty;
  f_Price : Price;
  f_Commission : Money;
  f_TS : time
}.

Definition Fill_Notional (f : Fill) : res Money := Price_MulQty (f_Price f) (f_Qty f).

Definition Fill_Validate (f : Fill) : res unit :=
  _ <-? rejectIf (String.eqb (f_TradeID f) "") ;;
  _ <-? rejectIf (String.eqb (f_ClientOrderID f) "") ;;
  _ <-? rejectIf (String.eqb (f_StrategyID f) "") ;;
  _ <-? rejectIf (String.eqb (f_Symbol f) "") ;;
  _ <-? rejectIf (negb (OrderSide_IsValid (f_Side f))) ;;
  _ <-? rejectIf (f_Qty f <=? 0) ;;
  _ <-? rejectIf (negb (Price_IsPositive (f_Price f))) ;;
  _ <-? rejectIf (Money_IsNegative (f_Commission f)) ;;
  rejectIf (IsZeroTime (f_TS f)).

Record PositionSnap : Set := mkPositionSnap {
  ps_StrategyID : string;
  ps_Symbol : string;
  ps_SignedQty : Qty;
  ps_AvgPx : Price;
  ps_RealizedPnL : Money;
  ps_UpdatedAt : time
}.

Definition PositionSnap_IsFlat (p : PositionSnap) : bool := ps_SignedQty p =? 0.
Definition PositionSnap_IsLong (p : PositionSnap) : bool := 0 <? ps_SignedQty p.
Definition PositionSnap_IsShort (p : PositionSnap) : bool := ps_SignedQty p <? 0.
Definition PositionSnap_MarketValue (p : PositionSnap) (last : Price) : res Money :=
  Price_MulQty last (ps_SignedQty p).
Definition PositionSnap_Validate (p : PositionSnap) : res unit :=
  _ <-? rejectIf (String.eqb (ps_StrategyID p) "") ;;
  _ <-? rejectIf (String.eqb (ps_Symbol p) "") ;;
  rejectIf (Price_IsNegative (ps_AvgPx p)).

(** ** PortfolioSnapshot (account.go) *)

(** The [(strategy_id, symbol)] key. *)
Abbreviation StrategySymbol := (string * string)%type.

Record PortfolioSnapshot : Set := mkPortfolioSnapshot {
  snap_NAV : Money;
  snap_Cash : Money;
  snap_RealizedPnLToday : Money;
  snap_UnrealizedPnLToday : Money;
  snap_Positions : gmap StrategySymbol Qty;
  snap_LastClose : gmap string Price
}.

(** The deep copies of both maps are the identity on persistent maps. *)
Definition NewPortfolioSnapshot (nav cash realizedToday unrealizedToday : Money)
    (positions : gmap StrategySymbol Qty) (lastClose : gmap string Price) : PortfolioSnapshot :=
  mkPortfolioSnapshot nav cash realizedToday unrealizedToday positions lastClose.

Definition snap_TotalPnLToday (a : PortfolioSnapshot) : res Money :=
  Money_Add (snap_RealizedPnLToday a) (snap_UnrealizedPnLToday a).

Definition snap_StrategyPosition (a : PortfolioSnapshot) (strategyID symbol : string) : Qty :=
  default 0 (snap_Positions a !! (strategyID, symbol)).

(** The loops over a Go map visit the entries in an order the language leaves
    open: the order is the argument [iter], any enumeration of the map. *)
Fixpoint netPositionLoop (symbol : string) (net : Qty) (iter : list (StrategySymbol * Qty)) : res Qty :=
  match iter with
  | [] => Ok net
  | (key, qty) :: rest =>
      if negb (String.eqb key.2 symbol) then netPositionLoop symbol net rest
      else n <-? Qty_Add net qty ;; netPositionLoop symbol n rest
  end.

Definition snap_NetPositionAcrossStrategies (iter : list (StrategySymbol * Qty)) (symbol : string) : res Qty :=
  netPositionLoop symbol 0 iter.

Fixpoint grossExposureLoop (lastClose : gmap string Price) (strategyID : string) (total : Money)
    (iter : list (StrategySymbol * Qty)) : res Money :=
  match iter with
  | [] => Ok total
  | (key, qty) :: rest =>
      if negb (String.eqb key.1 strategyID) || (qty =? 0)
      then grossExposureLoop lastClose strategyID total rest
      else
        match lastClose !! key.2 with
        | None => grossExposureLoop lastClose strategyID total rest
        | Some price =>
            if price =? 0 then grossExposureLoop lastClose strategyID total rest
            else
              absQty <-? Qty_Abs qty ;;
              value <-? Price_MulQty price absQty ;;
              total' <-? Money_Add total value ;;
              grossExposureLoop lastClose strategyID total' rest
        end
  end.

Definition snap_GrossExposureForStrategy (a : PortfolioSnapshot) (iter : list (StrategySymbol * Qty))
    (strategyID : string) : res Money :=
  grossExposureLoop (snap_LastClose a) strategyID 0 iter.

(** ** Validation lemmas *)

Lemma rejectIf_ok b u : rejectIf b = Ok u <-> b = false.
Proof. unfold rejectIf. destruct b, u; split; congruence. Qed.

Lemma rejectIf_bind b (k : unit -> res unit) u :
  res_bind (rejectIf b) k = Ok u <-> b = false /\ k tt = Ok u.
Proof. unfold rejectIf. destruct b; cbn; split; [discriminate|intros [? _]; discriminate|auto|tauto]. Qed.

(** Decide a chain of checks. *)
Ltac checks := rewrite ?rejectIf_bind, ?rejectIf_ok; cbv beta.

Lemma parseEnum_ok valid s v : parseEnum valid s = Ok v <-> v = s /\ valid s = true.
Proof. unfold parseEnum. destruct (valid s); split; intros; intuition congruence. Qed.

(** A fill that [Validate] accepts. *)
Record fill_ok (f : Fill) : Prop := {
  fill_ok_side : f_Side f = OrderSideBuy \/ f_Side f = OrderSideSell;
  fill_ok_qty : 0 < f_Qty f;
  fill_ok_price : 0 < f_Price f;
  fill_ok_ids : f_TradeID f <> ""%string /\ f_ClientOrderID f <> ""%string
                /\ f_StrategyID f <> ""%string /\ f_Symbol f <> ""%string;
  fill_ok_commission : 0 <= f_Commission f;
  fill_ok_ts : t_ns (f_TS f) <> zeroNs
}.

Lemma OrderSide_IsValid_iff s : OrderSide_IsValid s = true <-> s = OrderSideBuy \/ s = OrderSideSell.
Proof. unfold OrderSide_IsValid. rewrite orb_true_iff, !String.eqb_eq. reflexivity. Qed.

Lemma Fill_Validate_ok f : Fill_Validate f = Ok tt <-> fill_ok f.
Proof.
  unfold Fill_Validate. checks.
  unfold Price_IsPositive, Money_IsNegative, IsZeroTime.
  rewrite !String.eqb_neq, negb_false_iff, OrderSide_IsValid_iff, Z.leb_gt, negb_false_iff, Z.ltb_lt,
    Z.ltb_ge, Z.eqb_neq.
  split; [intros (? & ? & ? & ? & ? & ? & ? & ? & ?); constructor; auto|].
  intros [? ? ? (? & ? & ? & ?) ? ?]; repeat split; assumption.
Qed.

(** ** Map aggregation *)

Definition netTerms (symbol : string) (iter : list (StrategySymbol * Qty)) : list Z :=
  map snd (List.filter (fun e => String.eqb e.1.2 symbol) iter).

Lemma netPositionLoop_exact symbol iter net :
  in64 net -> Forall in64 (netTerms symbol iter) ->
  Z.abs net + sumZ (map Z.abs (netTerms symbol iter)) <= max_int64 ->
  netPositionLoop symbol net iter = Ok (net + sumZ (netTerms symbol iter)).
Proof.
  revert net. induction iter as [|[key qty] iter IH]; intros net Hn Hf Hb; cbn [netPositionLoop].
  - cbn. f_equal. lia.
  - unfold netTerms in *. cbn [List.filter fst snd] in *.
    destruct (String.eqb key.2 symbol); cbn [negb]; [|auto].
    cbn [map snd] in *. rewrite sumZ_cons in *. inversion Hf as [|x l Hq Hf']; subst.
    pose proof (sumZ_abs_nonneg (map snd (List.filter (fun e => String.eqb e.1.2 symbol) iter))).
    assert (Hs : in64 (net + qty)) by rlia.
    rewrite (proj2 (Qty_Add_ok net qty (net + qty) Hn Hq) (conj eq_refl Hs)). cbn [res_bind].
    rewrite IH; auto; [f_equal; lia|lia].
Qed.

Lemma netTerms_perm symbol a b : a ≡ₚ b -> netTerms symbol a ≡ₚ netTerms symbol b.
Proof.
  intros H. unfold netTerms. apply Permutation_map.
  induction H as [|x l l' H IH|x y l|l l' l'' H1 IH1 H2 IH2]; cbn;
    [reflexivity|destruct (String.eqb x.1.2 symbol); [by apply perm_skip|done]
    |destruct (String.eqb x.1.2 symbol), (String.eqb y.1.2 symbol); try reflexivity; apply perm_swap
    |etransitivity; eassumption].
Qed.

(** ** Properties *)

(** The cross-strategy net position of a snapshot does not depend on the order in
    which Go happens to iterate over the positions map, and is the exact sum,
    whenever the absolute quantities of the symbol fit in an [int64]. *)
Theorem net_position_order_independent (m : gmap StrategySymbol Qty) symbol iter1 iter2 :
  iter1 ≡ₚ map_to_list m -> iter2 ≡ₚ map_to_list m ->
  Forall in64 (netTerms symbol iter1) ->
  sumZ (map Z.abs (netTerms symbol iter1)) <= max_int64 ->
  snap_NetPositionAcrossStrategies iter1 symbol = Ok (sumZ (netTerms symbol iter1)) /\
  snap_NetPositionAcrossStrategies iter2 symbol = snap_NetPositionAcrossStrategies iter1 symbol.
Proof.
  intros H1 H2 Hf Hb.
  assert (P : netTerms symbol iter2 ≡ₚ netTerms symbol iter1)
    by (apply netTerms_perm; rewrite H1, H2; reflexivity).
  unfold snap_NetPositionAcrossStrategies.
  assert (Hf2 : Forall in64 (netTerms symbol iter2)) by (rewrite P; exact Hf).
  assert (Hb2 : sumZ (map Z.abs (netTerms symbol iter2)) <= max_int64) by (rewrite P; exact Hb).
  rewrite !netPositionLoop_exact by (assumption || rlia). rewrite P. auto.
Qed.

Lemma net_position_order_independent_witness :
  let m : gmap StrategySymbol Qty :=
    <[("sepa", "SPY")%string := 100]> (<[("pairs", "SPY")%string := -30]> ∅) in
  let swapped := [(("pairs", "SPY")%string, -30); (("sepa", "SPY")%string, 100)] in
  snap_NetPositionAcrossStrategies swapped "SPY" = Ok 70 /\
  snap_NetPositionAcrossStrategies (map_to_list m) "SPY" = snap_NetPositionAcrossStrategies swapped "SPY".
Proof.
  intros m swapped.
  apply (net_position_order_independent m "SPY" swapped (map_to_list m)).
  - assert (E : list_to_map swapped = m) by (vm_compute; reflexivity).
    rewrite <- E, map_to_list_to_map; [reflexivity|].
    repeat constructor; vm_compute; set_solver.
  - reflexivity.
  - change (netTerms "SPY" swapped) with [-30; 100]. repeat apply Forall_cons_2; [rlia|rlia|apply Forall_nil_2].
  - vm_compute. discriminate.
Defined.
