(* ===== verification/Float64.v ===== *)
(** * float64 and its decimal bridges (src/internal/domain: fixed.go, money.go)

    Go's [float64] is IEEE 754 binary64, computed here with the standard
    library's executable specification ([spec_float] at precision 53).
    [strconv.FormatFloat(f, 'g', -1, 64)] prints the shortest decimal that
    parses back to [f], the closest to [f] among those of that length, and
    [strconv.ParseFloat] rounds a decimal to the nearest float, ties to even:
    both are written out, so that the conversions between floats and the
    fixed-point types, which go through decimal strings, can be evaluated. *)

From Stdlib Require Import SpecFloat QArith.
From S2P Require Import Prelude Fixed Money.
#[local] Open Scope Z_scope.

Definition float64 : Set := spec_float.

Definition fadd : float64 -> float64 -> float64 := SFadd 53 1024.
Definition fsub : float64 -> float64 -> float64 := SFsub 53 1024.
Definition fmul : float64 -> float64 -> float64 := SFmul 53 1024.
Definition fdiv : float64 -> float64 -> float64 := SFdiv 53 1024.
Definition fneg : float64 -> float64 := SFopp.
Definition feqb : float64 -> float64 -> bool := SFeqb.
Definition fltb : float64 -> float64 -> bool := SFltb.
Definition fleb : float64 -> float64 -> bool := SFleb.

Definition fzero : float64 := S754_zero false.

Definition isNaN (f : float64) : bool := match f with S754_nan => true | _ => false end.
Definition isInf (f : float64) : bool := match f with S754_infinity _ => true | _ => false end.

(** The float nearest to [n / d], ties to even. *)
Definition ratToFloat (neg : bool) (n d : positive) : float64 :=
  let '(q, e, l) := SFdiv_core_binary 53 1024 (Zpos n) 0 (Zpos d) 0 in
  binary_round_aux 53 1024 neg q e l.

Definition zToFloat (v : Z) : float64 := binary_normalize 53 1024 v 0 false.

(** [ParseFloat] of the literal whose digits form [D] and whose exponent is [k]. *)
Definition decimalToFloat (neg : bool) (D : positive) (k : Z) : float64 :=
  if 0 <=? k then ratToFloat neg (D * Z.to_pos (10 ^ k)) 1
  else ratToFloat neg D (Z.to_pos (10 ^ (- k))).

(** ** The shortest decimal *)

(** The value [m * 2^e] as a fraction. *)
Definition fracOf (m : positive) (e : Z) : positive * positive :=
  if 0 <=? e then (Z.to_pos (Zpos m * 2 ^ e), 1%positive) else (m, Z.to_pos (2 ^ (- e))).

(** The [x] with [10^x <= n/d < 10^(x+1)], by counting. *)
Fixpoint log10Up (fuel : nat) (q : Z) (x : Z) : Z :=
  match fuel with
  | O => x
  | S fuel => if q <? 10 then x else log10Up fuel (q / 10) (x + 1)
  end.
Fixpoint log10Down (fuel : nat) (n d x : Z) : Z :=
  match fuel with
  | O => x
  | S fuel => if d <=? n then x else log10Down fuel (n * 10) d (x - 1)
  end.
Definition log10Floor (n d : Z) : Z :=
  if d <=? n then log10Up 400 (n / d) 0 else log10Down 400 n d 0.

(** [floor(n / (d * 10^k))] and its remainder over the same scale. *)
Definition scaledDigits (n d k : Z) : Z * Z * Z :=
  let den := if 0 <=? k then d * 10 ^ k else d in
  let num := if 0 <=? k then n else n * 10 ^ (- k) in
  (num / den, num mod den, den).

Definition sameFloat (a b : float64) : bool :=
  match a, b with
  | S754_finite s1 m1 e1, S754_finite s2 m2 e2 => Bool.eqb s1 s2 && Pos.eqb m1 m2 && (e1 =? e2)
  | _, _ => false
  end.

(** The best decimal of [digits] significant digits, when one parses back. *)
Definition tryDigits (f : float64) (n d x : Z) (digits : Z) : option (Z * Z) :=
  let k := x - digits + 1 in
  let '(lo, r, den) := scaledDigits n d k in
  let back D := match D with Zpos p => sameFloat (decimalToFloat false p k) f | _ => false end in
  let hiFirst := (den <? 2 * r) || ((2 * r =? den) && Z.odd lo) in
  let first := if hiFirst then lo + 1 else lo in
  let second := if hiFirst then lo else lo + 1 in
  if back first then Some (first, k) else if back second then Some (second, k) else None.

Fixpoint searchDigits (fuel : nat) (f : float64) (n d x digits : Z) : Z * Z :=
  match fuel with
  | O => let '(lo, _, _) := scaledDigits n d (x - digits + 1) in (lo, x - digits + 1)
  | S fuel =>
      match tryDigits f n d x digits with
      | Some r => r
      | None => searchDigits fuel f n d x (digits + 1)
      end
  end.

(** The digits and exponent of the shortest decimal of a positive finite float:
    17 digits always suffice for binary64. *)
Definition shortestDecimal (m : positive) (e : Z) : Z * Z :=
  let '(n, d) := fracOf m e in
  let x := log10Floor (Zpos n) (Zpos d) in
  searchDigits 17 (S754_finite false m e) (Zpos n) (Zpos d) x 1.

(** ** [FormatFloat(f, 'g', -1, 64)] *)

(** The digits as [d.ddde+XX], with at least two exponent digits. *)
Definition formatE (ds : list ascii) (exp : Z) : list ascii :=
  let mant := match ds with
              | [] => []
              | [c] => [c]
              | c :: rest => c :: "."%char :: rest
              end in
  let expDigits := uintDigits 20 (Z.abs exp) in
  let expDigits := if Z.abs exp <? 10 then "0"%char :: expDigits else expDigits in
  mant ++ ["e"%char; if exp <? 0 then "-"%char else "+"%char] ++ expDigits.

(** The digits in positional form. *)
Definition formatF (ds : list ascii) (exp : Z) : list ascii :=
  let nd := Z.of_nat (List.length ds) in
  let dp := exp + 1 in
  if dp <=? 0 then ("0"%char :: "."%char :: repeat "0"%char (Z.to_nat (- dp))) ++ ds
  else if nd <=? dp then ds ++ repeat "0"%char (Z.to_nat (dp - nd))
  else firstn (Z.to_nat dp) ds ++ ["."%char] ++ skipn (Z.to_nat dp) ds.

(** Exponent form when the decimal exponent is below -4 or at least 6. *)
Definition formatG (f : float64) : list ascii :=
  match f with
  | S754_nan => list_ascii_of_string "NaN"
  | S754_infinity s => list_ascii_of_string (if s then "-Inf" else "+Inf")
  | S754_zero s => if s then ["-"%char; "0"%char] else ["0"%char]
  | S754_finite s m e =>
      let '(D, k) := shortestDecimal m e in
      let ds := uintDigits 20 D in
      let exp := k + Z.of_nat (List.length ds) - 1 in
      let body := if (exp <? -4) || (6 <=? exp) then formatE ds exp else formatF ds exp in
      if s then "-"%char :: body else body
  end.

(** ** The bridges *)

Definition fixed4FromFloat (f : float64) : res Z :=
  if isNaN f || isInf f then Err ErrNotFinite
  else parseFixed4 (string_of_list_ascii (formatG f)) roundHalfEven.

(** [ParseFloat] of the canonical decimal, which denotes [v / 10^4]. *)
Definition fixed4ToFloat (v : Z) : float64 :=
  match v with
  | Z0 => fzero
  | Zpos p => ratToFloat false p 10000
  | Zneg p => ratToFloat true p 10000
  end.

(** [FormatFloat(x, 'f', ndigits, 64)] rounds the exact binary value half to
    even at [ndigits] decimals; the result is parsed back. *)
Definition PyRound (x : float64) (ndigits : Z) : res float64 :=
  if ndigits <? 0 then Err ErrInvalidArgument
  else if isNaN x || isInf x then Ok x
  else
    match x with
    | S754_finite s m e =>
        let '(n, d) := fracOf m e in
        match round_half_even (Zpos n * 10 ^ ndigits) (Zpos d) with
        | Zpos D => Ok (decimalToFloat s D (- ndigits))
        | _ => Ok (S754_zero s)
        end
    | _ => Ok x
    end.

Definition PyRound4 (x : float64) : float64 := match PyRound x 4 with Ok v => v | Err _ => fzero end.

Definition PriceFromFloat64 (f : float64) : res Price := fixed4FromFloat f.
Definition MoneyFromFloat64 (f : float64) : res Money := fixed4FromFloat f.
Definition Price_Float64 (p : Price) : float64 := fixed4ToFloat p.
Definition Money_Float64 (m : Money) : float64 := fixed4ToFloat m.

(** [math.Trunc] of a finite float, as an integer. *)
Definition truncFloat (f : float64) : Z :=
  match f with
  | S754_finite s m e =>
      let a := if 0 <=? e then Zpos m * 2 ^ e else Zpos m / 2 ^ (- e) in
      if s then - a else a
  | _ => 0
  end.

Definition QtyFromFloat64Trunc (f : float64) : res Qty :=
  if isNaN f || isInf f then Err ErrNotFinite
  else
    let t := truncFloat f in
    if (9223372036854775808 <=? t) || (t <? -9223372036854775808) then Err ErrOverflow
    else Ok t.

Definition Qty_Float64 (q : Qty) : float64 := zToFloat q.

(** Literals of the source. *)
Definition flit (n d : positive) : float64 := ratToFloat false n d.

(** ** Range *)

Lemma parseFixed4_in64 s mode v : parseFixed4 s mode = Ok v -> in64 v.
Proof.
  unfold parseFixed4. intros H. bind_inv. destruct r as [[[neg buf] frac] exp].
  destruct buf as [|c buf]; [injection Hk as <-; rlia|]. bind_inv. unfold signMagnitude in Hk0.
  repeat case_step_in Hk0; try discriminate Hk0; injection Hk0 as <-; auto with go. rlia.
Qed.

Lemma fixed4FromFloat_in64 f v : fixed4FromFloat f = Ok v -> in64 v.
Proof.
  unfold fixed4FromFloat. destruct (isNaN f || isInf f); [discriminate|]. apply parseFixed4_in64.
Qed.

(** The decimal the search returns parses back to the float. *)
Lemma tryDigits_back f n d x digits D k :
  tryDigits f n d x digits = Some (D, k) ->
  exists p, D = Zpos p /\ sameFloat (decimalToFloat false p k) f = true.
Proof.
  unfold tryDigits. destruct (scaledDigits n d _) as [[lo r] den]. cbv zeta.
  set (hi := (den <? 2 * r) || _). clearbody hi.
  destruct (if hi then lo + 1 else lo) as [|p|p] eqn:E1; destruct (if hi then lo else lo + 1) as [|q|q] eqn:E2;
    repeat match goal with |- context [sameFloat ?a ?b] => destruct (sameFloat a b) eqn:? end;
    intros H; try discriminate H; injection H as <- <-; eauto.
Qed.

(** ** The order of floats

    Comparison of floats other than NaN is lexicographic comparison of keys. *)

Definition fkey (f : float64) : Z * Z * Z :=
  match f with
  | S754_infinity true => (-2, 0, 0)
  | S754_finite true m e => (-1, - e, Zneg m)
  | S754_zero _ | S754_nan => (0, 0, 0)
  | S754_finite false m e => (1, e, Zpos m)
  | S754_infinity false => (2, 0, 0)
  end.

Definition klt (a b : Z * Z * Z) : Prop :=
  let '(a1, a2, a3) := a in let '(b1, b2, b3) := b in
  a1 < b1 \/ a1 = b1 /\ (a2 < b2 \/ a2 = b2 /\ a3 < b3).

Lemma fltb_key a b : isNaN a = false -> isNaN b = false -> fltb a b = true <-> klt (fkey a) (fkey b).
Proof.
  unfold fltb, SFltb, SFcompare.
  destruct a as [sa|[|]| |[|] ma ea], b as [sb|[|]| |[|] mb eb]; cbn; intros Ha Hb; try discriminate;
    try (split; [intros; (discriminate || lia)|intros; (reflexivity || lia)]).
  - destruct (Z.compare_spec ea eb) as [->|H|H]; [|split; [discriminate|lia]|split; [lia|reflexivity]].
    change (Pos.compare_cont Eq ma mb) with (ma ?= mb)%positive.
    destruct (Pos.compare_spec ma mb) as [->|H|H]; cbn; (split; [try discriminate|]); intros; try reflexivity; lia.
  - destruct (Z.compare_spec ea eb) as [->|H|H]; [|split; [lia|reflexivity]|split; [discriminate|lia]].
    change (Pos.compare_cont Eq ma mb) with (ma ?= mb)%positive.
    destruct (Pos.compare_spec ma mb) as [->|H|H]; cbn; (split; [try discriminate|]); intros; try reflexivity; lia.
Qed.

Lemma klt_trans a b c : klt a b -> klt b c -> klt a c.
Proof. destruct a as [[a1 a2] a3], b as [[b1 b2] b3], c as [[c1 c2] c3]. cbn. lia. Qed.
Lemma klt_not a b c : ~ klt b a -> ~ klt c b -> ~ klt c a.
Proof. destruct a as [[a1 a2] a3], b as [[b1 b2] b3], c as [[c1 c2] c3]. cbn. lia. Qed.
Lemma klt_not_lt a b c : ~ klt b a -> klt b c -> klt a c.
Proof. destruct a as [[a1 a2] a3], b as [[b1 b2] b3], c as [[c1 c2] c3]. cbn. lia. Qed.
Lemma klt_lt_not a b c : klt a b -> ~ klt c b -> klt a c.
Proof. destruct a as [[a1 a2] a3], b as [[b1 b2] b3], c as [[c1 c2] c3]. cbn. lia. Qed.
Lemma klt_irrefl a : ~ klt a a.
Proof. destruct a as [[a1 a2] a3]. cbn. lia. Qed.

Lemma fltb_trans_flip a b : fltb a b = true -> fltb b a = false.
Proof.
  destruct (fltb b a) eqn:E; [|reflexivity]. intros H.
  assert (Ha : isNaN a = false) by (destruct a; try reflexivity; discriminate H).
  assert (Hb : isNaN b = false) by (destruct b; try reflexivity; destruct a as [|[|]| |[|]]; discriminate H).
  apply fltb_key in H; [|assumption..]. apply fltb_key in E; [|assumption..].
  destruct (klt_irrefl (fkey a)). eapply klt_trans; eassumption.
Qed.

Lemma fleb_key a b : isNaN a = false -> isNaN b = false -> fleb a b = true <-> ~ klt (fkey b) (fkey a).
Proof.
  unfold fleb, SFleb, SFcompare.
  destruct a as [sa|[|]| |[|] ma ea], b as [sb|[|]| |[|] mb eb]; cbn; intros Ha Hb; try discriminate;
    try (split; [intros; (discriminate || lia)|intros; (reflexivity || lia)]).
  - destruct (Z.compare_spec ea eb) as [->|H|H]; [|split; [discriminate|lia]|split; [lia|reflexivity]].
    change (Pos.compare_cont Eq ma mb) with (ma ?= mb)%positive.
    destruct (Pos.compare_spec ma mb) as [->|H|H]; cbn; (split; [try discriminate|]); intros; try reflexivity; lia.
  - destruct (Z.compare_spec ea eb) as [->|H|H]; [|split; [lia|reflexivity]|split; [discriminate|lia]].
    change (Pos.compare_cont Eq ma mb) with (ma ?= mb)%positive.
    destruct (Pos.compare_spec ma mb) as [->|H|H]; cbn; (split; [try discriminate|]); intros; try reflexivity; lia.
Qed.

(** Equality of floats as Go compares them, NaN being equal to itself: the two
    zeros are identified. *)
Definition isZero (f : float64) : bool := match f with S754_zero _ => true | _ => false end.
Definition feq (a b : float64) : Prop := a = b \/ isZero a = true /\ isZero b = true.

#[export] Instance feq_equiv : Equivalence feq.
Proof.
  split.
  - intros a. left. reflexivity.
  - intros a b [->|[Ha Hb]]; [left; reflexivity|right; split; assumption].
  - intros a b c [->|[Ha Hb]] [->|[Hb' Hc]]; unfold feq; auto.
Qed.

Lemma fkey_feq a b : isNaN a = false -> isNaN b = false -> fkey a = fkey b -> feq a b.
Proof.
  destruct a as [sa|[|]| |[|] ma ea], b as [sb|[|]| |[|] mb eb]; cbn; intros Ha Hb H; try discriminate;
    try (left; reflexivity); try (right; split; reflexivity); left; injection H; intros; f_equal; lia.
Qed.

Lemma klt_tricho a b : ~ klt a b -> ~ klt b a -> a = b.
Proof. destruct a as [[a1 a2] a3], b as [[b1 b2] b3]. cbn. intros. repeat f_equal; lia. Qed.

#[export] Instance isNaN_proper : Proper (feq ==> eq) isNaN.
Proof. intros a b [->|[Ha Hb]]; [reflexivity|]. destruct a, b; try discriminate; reflexivity. Qed.

#[export] Instance fltb_proper : Proper (feq ==> feq ==> eq) fltb.
Proof.
  intros a b Hab c d Hcd. destruct Hab as [->|[Ha Hb]], Hcd as [->|[Hc Hd]]; try reflexivity.
  - destruct c, d; try discriminate. destruct b as [|[|]| |[|]]; reflexivity.
  - destruct a, b; try discriminate. destruct d as [|[|]| |[|]]; reflexivity.
  - destruct a, b, c, d; try discriminate; reflexivity.
Qed.

#[export] Instance fleb_proper : Proper (feq ==> feq ==> eq) fleb.
Proof.
  intros a b Hab c d Hcd. destruct Hab as [->|[Ha Hb]], Hcd as [->|[Hc Hd]]; try reflexivity.
  - destruct c, d; try discriminate. destruct b as [|[|]| |[|]]; reflexivity.
  - destruct a, b; try discriminate. destruct d as [|[|]| |[|]]; reflexivity.
  - destruct a, b, c, d; try discriminate; reflexivity.
Qed.

#[export] Instance fmul_proper : Proper (feq ==> feq ==> feq) fmul.
Proof.
  assert (Hz : forall a b c, isZero a = true -> isZero b = true -> feq (fmul a c) (fmul b c)).
  { intros a b c Ha Hb. destruct a, b; try discriminate. destruct c; cbn; [right; split; reflexivity|left; reflexivity|left; reflexivity|right; split; reflexivity]. }
  assert (Hz' : forall a b c, isZero a = true -> isZero b = true -> feq (fmul c a) (fmul c b)).
  { intros a b c Ha Hb. destruct a, b; try discriminate. destruct c; cbn; [right; split; reflexivity|left; reflexivity|left; reflexivity|right; split; reflexivity]. }
  intros a b [->|[Ha Hb]] c d [->|[Hc Hd]]; [left; reflexivity|apply Hz'; assumption|apply Hz; assumption|].
  transitivity (fmul b c); [apply Hz|apply Hz']; assumption.
Qed.

(** ** Functions of package math *)

Definition fNaN : float64 := S754_nan.
Definition fgtb (a b : float64) : bool := fltb b a.
Definition fgeb (a b : float64) : bool := fleb b a.
Definition fabs : float64 -> float64 := SFabs.
Definition fsqrt : float64 -> float64 := SFsqrt 53 1024.

(** [math.Floor]. *)
Definition ffloor (f : float64) : float64 :=
  match f with
  | S754_finite s m e =>
      if 0 <=? e then f
      else zToFloat (if s then - ((Zpos m + 2 ^ (- e) - 1) / 2 ^ (- e)) else Zpos m / 2 ^ (- e))
  | _ => f
  end.

(** [math.Mod], which is exact. *)
Definition fmod (x y : float64) : float64 :=
  match x, y with
  | S754_nan, _ | _, S754_nan | S754_infinity _, _ | _, S754_zero _ => S754_nan
  | S754_zero _, _ | _, S754_infinity _ => x
  | S754_finite sx mx ex, S754_finite _ my ey =>
      let e := Z.min ex ey in
      let r := (Zpos mx * 2 ^ (ex - e)) mod (Zpos my * 2 ^ (ey - e)) in
      binary_normalize 53 1024 (if sx then - r else r) e sx
  end.

(** [math.Round]: half away from zero. *)
Definition fround (f : float64) : float64 :=
  match f with
  | S754_finite s m e =>
      if 0 <=? e then f
      else
        let a := (2 * Zpos m + 2 ^ (- e)) / (2 * 2 ^ (- e)) in
        match a with Zpos _ => zToFloat (if s then - a else a) | _ => S754_zero s end
  | _ => f
  end.

(** [int64(f)] on amd64: what does not fit, or is not a number, becomes the least
    integer. *)
Definition intOfFloat (f : float64) : Z :=
  if isNaN f || isInf f then - 2 ^ 63
  else let t := truncFloat f in if (- 2 ^ 63 <=? t) && (t <? 2 ^ 63) then t else - 2 ^ 63.

(** ** Prices are numbers *)

Lemma shr_1_nonneg r : 0 <= shr_m r -> 0 <= shr_m (shr_1 r).
Proof. destruct r as [m a b]. cbn. destruct m as [|[p|p|]|[p|p|]]; cbn; lia. Qed.

Lemma iter_shr_nonneg p : forall r, 0 <= shr_m r -> 0 <= shr_m (SpecFloat.iter_pos shr_1 p r).
Proof. induction p as [p IH|p IH|]; intros r Hr; cbn [SpecFloat.iter_pos]; auto using shr_1_nonneg. Qed.

Lemma shr_nonneg r e n : 0 <= shr_m r -> 0 <= shr_m (fst (shr r e n)).
Proof. intros Hr. destruct n; cbn; try assumption. apply iter_shr_nonneg, Hr. Qed.

Lemma shr_of_loc m l : shr_m (shr_record_of_loc m l) = m.
Proof. destruct l as [|[| |]]; reflexivity. Qed.

Lemma binary_round_aux_not_nan s m e l : 0 <= m -> isNaN (binary_round_aux 53 1024 s m e l) = false.
Proof.
  intros Hm. unfold binary_round_aux, shr_fexp.
  match goal with |- context [shr ?r ?x ?n] => pose proof (shr_nonneg r x n) as H1; rewrite shr_of_loc in H1; specialize (H1 Hm); destruct (shr r x n) as [r1 e1] end.
  assert (H2 : 0 <= round_nearest_even (shr_m r1) (loc_of_shr_record r1)).
  { cbn [fst] in H1. unfold round_nearest_even. destruct (loc_of_shr_record r1) as [|[| |]]; try assumption; [|lia]. destruct (Z.even (shr_m r1)); lia. }
  match goal with |- context [shr ?r ?x ?n] => pose proof (shr_nonneg r x n) as H3; rewrite shr_of_loc in H3; specialize (H3 H2); destruct (shr r x n) as [r2 e2] end.
  cbn [fst] in H3. destruct (shr_m r2) as [|p|p]; [reflexivity| |lia]. destruct (e2 <=? 1024 - 53); reflexivity.
Qed.

Lemma ratToFloat_not_nan s n d : isNaN (ratToFloat s n d) = false.
Proof.
  unfold ratToFloat, SFdiv_core_binary. match goal with |- context [Z.div_eucl ?a ?b] => pose proof (Z_div_mod a b ltac:(lia)) as H;
    assert (Ha : 0 <= a) by (match goal with |- 0 <= match ?x with _ => _ end => destruct x end; try lia; apply Z.shiftl_nonneg; lia);
    destruct (Z.div_eucl a b) as [q r] end.
  apply binary_round_aux_not_nan. nia.
Qed.

Lemma fixed4ToFloat_not_nan v : isNaN (fixed4ToFloat v) = false.
Proof. destruct v; [reflexivity|apply ratToFloat_not_nan..]. Qed.
