(* ===== verification/FloatInt.v ===== *)
(** * Integers as floats

    An integer of machine size converts to a finite float, and a quotient by a
    positive one is a number: what the comparisons of computed returns rely on.  An
    integer of 53 bits converts exactly, and so does a quotient that is an integer. *)

From Stdlib Require Import SpecFloat.
From stdpp Require Import base numbers.
From S2P Require Import Prelude Fixed Money Float64.
Set Default Goal Selector "!".
#[local] Open Scope Z_scope.

Lemma digits2_bounds p : 2 ^ (Zpos (digits2_pos p) - 1) <= Zpos p < 2 ^ Zpos (digits2_pos p).
Proof.
  induction p as [p IH|p IH|]; cbn [digits2_pos]; [| |cbn; lia]; rewrite Pos2Z.inj_succ.
  all: replace (Z.succ (Z.pos (digits2_pos p)) - 1) with (Z.succ (Z.pos (digits2_pos p) - 1)) by lia.
  all: rewrite !Z.pow_succ_r by lia; lia.
Qed.

Lemma shr_1_div r : 0 <= shr_m r -> shr_m (shr_1 r) = shr_m r / 2.
Proof. destruct r as [m a b]. cbn. destruct m as [|[p|p|]|[p|p|]]; cbn; intros H; try lia; try reflexivity; Z.to_euclidean_division_equations; lia. Qed.

Lemma iter_shr_div p : forall r, 0 <= shr_m r -> shr_m (SpecFloat.iter_pos shr_1 p r) = shr_m r / 2 ^ Zpos p.
Proof.
  assert (Hd : forall a b c, 0 <= b -> 0 <= c -> a / 2 ^ b / 2 ^ c = a / 2 ^ (b + c)).
  { intros a b c Hb Hc. rewrite Zdiv.Zdiv_Zdiv by (apply Z.pow_nonneg; lia). by rewrite Z.pow_add_r by lia. }
  induction p as [p IH|p IH|]; intros r Hr; cbn [SpecFloat.iter_pos].
  - rewrite !IH by auto using iter_shr_nonneg, shr_1_nonneg. rewrite shr_1_div by done. change 2 with (2 ^ 1) at 1. rewrite !Hd by lia. f_equal. f_equal. lia.
  - rewrite !IH by auto using iter_shr_nonneg. rewrite !Hd by lia. f_equal. f_equal. lia.
  - by rewrite shr_1_div.
Qed.

Lemma shr_spec r e n : 0 <= shr_m r -> shr_m (fst (shr r e n)) = shr_m r / 2 ^ Z.max 0 n /\ snd (shr r e n) = e + Z.max 0 n.
Proof.
  intros Hr. destruct n as [|p|p]; cbn [shr fst snd]; [|split; [by apply iter_shr_div|lia]|];
    (split; [|lia]); change (2 ^ _) with 1; by rewrite Z.div_1_r.
Qed.

Lemma round_up_one m l : m <= round_nearest_even m l <= m + 1.
Proof. unfold round_nearest_even. destruct l as [|[| |]]; try lia. destruct (Z.even m); lia. Qed.

(** Rounding a mantissa of at least 53 bits at a small exponent. *)
Lemma binary_round_aux_finite s p e : 53 <= Zpos (digits2_pos p) -> -1000 <= e -> e + Zpos (digits2_pos p) <= 1000 ->
  exists m e', binary_round_aux 53 1024 s (Zpos p) e loc_Exact = S754_finite s m e'.
Proof.
  intros Hd He Hb. unfold binary_round_aux, shr_fexp.
  match goal with |- context [shr ?r ?x ?n] => destruct (shr_spec r x n) as [M1 E1]; [rewrite shr_of_loc; lia|]; destruct (shr r x n) as [r1 e1] end.
  rewrite shr_of_loc in M1. cbn [fst snd Zdigits2] in M1, E1. unfold fexp, emin in E1, M1.
  set (d := Zpos (digits2_pos p)) in *. replace (Z.max 0 (Z.max (d + e - 53) (3 - 1024 - 53) - e)) with (d - 53) in * by lia.
  pose proof (digits2_bounds p) as Hp. fold d in Hp.
  assert (Hm1 : 2 ^ 52 <= shr_m r1 < 2 ^ 53).
  { rewrite M1. split; [apply Z.div_le_lower_bound|apply Z.div_lt_upper_bound]; try (apply Z.pow_pos_nonneg; lia); rewrite <- Z.pow_add_r by lia.
    - replace (d - 53 + 52) with (d - 1) by lia. apply Hp.
    - replace (d - 53 + 53) with d by lia. apply Hp. }
  pose proof (round_up_one (shr_m r1) (loc_of_shr_record r1)) as Hr. set (m1 := round_nearest_even _ _) in *.
  destruct m1 as [|q|q] eqn:Em; [lia| |lia].
  match goal with |- context [shr ?r ?x ?n] => destruct (shr_spec r x n) as [M2 E2]; [rewrite shr_of_loc; lia|]; destruct (shr r x n) as [r2 e2] end.
  rewrite shr_of_loc in M2. cbn [fst snd Zdigits2] in M2, E2. unfold fexp, emin in M2, E2. pose proof (digits2_bounds q) as Hq.
  set (d2 := Zpos (digits2_pos q)) in *.
  assert (Hd2 : 53 <= d2 <= 54).
  { split.
    - destruct (Z.le_gt_cases 53 d2); [done|]. pose proof (Z.pow_le_mono_r 2 d2 52). lia.
    - destruct (Z.le_gt_cases d2 54); [done|]. pose proof (Z.pow_le_mono_r 2 54 (d2 - 1)). lia. }
  replace (Z.max 0 (Z.max (d2 + e1 - 53) (3 - 1024 - 53) - e1)) with (d2 - 53) in * by lia.
  assert (Hm2 : 0 < shr_m r2). { rewrite M2. apply Z.div_str_pos. split; [apply Z.pow_pos_nonneg; lia|]. pose proof (Z.pow_le_mono_r 2 (d2 - 53) 1). lia. }
  destruct (shr_m r2) as [|m|m]; [lia| |lia]. replace (e2 <=? 1024 - 53) with true by lia. by exists m, e2.
Qed.

Lemma digits2_shift p n : Zpos (digits2_pos (Pos.iter xO p n)) = Zpos (digits2_pos p) + Zpos n.
Proof.
  revert p. induction n as [|n IH] using Pos.peano_ind; intros p; [cbn; lia|].
  rewrite Pos.iter_succ. cbn [digits2_pos]. rewrite Pos2Z.inj_succ, IH. lia.
Qed.

Lemma zToFloat_finite p : Zpos p <= 2 ^ 64 -> exists m e, zToFloat (Zpos p) = S754_finite false m e.
Proof.
  intros Hp. unfold zToFloat, binary_normalize, binary_round, shl_align, fexp, emin. pose proof (digits2_bounds p) as Hb.
  set (d := Zpos (digits2_pos p)) in *.
  assert (Hd : d <= 65). { destruct (Z.le_gt_cases d 65); [done|]. pose proof (Z.pow_le_mono_r 2 65 (d - 1)). lia. }
  replace (Z.max (d + 0 - 53) (3 - 1024 - 53) - 0) with (d - 53) by lia.
  destruct (d - 53) as [|q|q] eqn:E; apply binary_round_aux_finite; fold d; try lia. all: rewrite ?digits2_shift; fold d; lia.
Qed.

(** A quotient is a number when the divisor is a positive integer. *)
Lemma fdiv_not_nan a p : isNaN a = false -> Zpos p <= 2 ^ 64 -> isNaN (fdiv a (zToFloat (Zpos p))) = false.
Proof.
  intros Ha Hp. destruct (zToFloat_finite p Hp) as (m & e & ->). destruct a as [s|s| |s ma ea]; try done. cbn [fdiv SFdiv].
  unfold SFdiv_core_binary. match goal with |- context [Z.div_eucl ?x ?b] => pose proof (Z_div_mod x b ltac:(lia)) as H;
    assert (Hx : 0 <= x) by (match goal with |- 0 <= match ?y with _ => _ end => destruct y end; try lia; apply Z.shiftl_nonneg; lia);
    destruct (Z.div_eucl x b) as [q r] end.
  apply binary_round_aux_not_nan. nia.
Qed.

Lemma zToFloat_not_nan z : isNaN (zToFloat z) = false.
Proof.
  unfold zToFloat, binary_normalize, binary_round. destruct z as [|p|p]; [done| |]; destruct (shl_align _ _ _); by apply binary_round_aux_not_nan.
Qed.

Lemma intOfFloat_range f : min_int64 <= intOfFloat f <= max_int64.
Proof. unfold intOfFloat. case_match; [rlia|]. cbv zeta. case_match; [breflect|]; rlia. Qed.

(** ** Exact results *)

Lemma iter_shr_exact n : forall c, SpecFloat.iter_pos shr_1 n (Build_shr_record (Zpos c * 2 ^ Zpos n) false false) = Build_shr_record (Zpos c) false false.
Proof.
  assert (H1 : forall c, shr_1 (Build_shr_record (Zpos c * 2) false false) = Build_shr_record (Zpos c) false false).
  { intros c. replace (Zpos c * 2) with (Zpos c~0) by lia. reflexivity. }
  induction n as [n IH|n IH|]; intros c; cbn [SpecFloat.iter_pos]; [| |apply H1].
  - assert (E1 : Zpos c * 2 ^ Zpos n~1 = Zpos (c * 2 ^ n * 2 ^ n) * 2).
    { rewrite !Pos2Z.inj_mul, !Pos2Z.inj_pow. replace (Zpos n~1) with (Zpos n + Zpos n + 1) by lia. rewrite !Z.pow_add_r by lia. lia. }
    rewrite E1, H1. replace (Zpos (c * 2 ^ n * 2 ^ n)) with (Zpos (c * 2 ^ n) * 2 ^ Zpos n) by (rewrite !Pos2Z.inj_mul, !Pos2Z.inj_pow; lia).
    rewrite IH, Pos2Z.inj_mul, Pos2Z.inj_pow. apply IH.
  - replace (Zpos c * 2 ^ Zpos n~0) with (Zpos (c * 2 ^ n) * 2 ^ Zpos n).
    2: { rewrite Pos2Z.inj_mul, Pos2Z.inj_pow. replace (Zpos n~0) with (Zpos n + Zpos n) by lia. rewrite Z.pow_add_r by lia. lia. }
    rewrite IH, Pos2Z.inj_mul, Pos2Z.inj_pow. apply IH.
Qed.

Lemma digits2_mul_pow c p j : 0 <= j -> Zpos p = Zpos c * 2 ^ j -> Zpos (digits2_pos p) = Zpos (digits2_pos c) + j.
Proof.
  intros Hj E. pose proof (digits2_bounds p) as Hp. pose proof (digits2_bounds c) as Hc. rewrite E in Hp.
  set (dp := Zpos (digits2_pos p)) in *. set (dc := Zpos (digits2_pos c)) in *.
  pose proof (Z.pow_pos_nonneg 2 j ltac:(lia) Hj) as H2.
  assert (Hl : 2 ^ (dc + j - 1) <= Zpos c * 2 ^ j < 2 ^ (dc + j)).
  { replace (dc + j - 1) with (dc - 1 + j) by lia. rewrite !Z.pow_add_r by lia. nia. }
  assert (dp - 1 < dc + j) by (apply (Z.pow_lt_mono_r_iff 2); lia). assert (dc + j - 1 < dp) by (apply (Z.pow_lt_mono_r_iff 2); lia). lia.
Qed.

(** Rounding keeps a value whose significant bits fit. *)
Lemma binary_round_aux_exact s c p j e : 0 <= j -> Zpos p = Zpos c * 2 ^ j -> Zpos (digits2_pos c) <= 53 -> 53 <= Zpos (digits2_pos p) ->
  -1000 <= e -> e + Zpos (digits2_pos p) <= 1000 ->
  exists m, binary_round_aux 53 1024 s (Zpos p) e loc_Exact = S754_finite s m (e + Zpos (digits2_pos p) - 53) /\
    Zpos m = Zpos c * 2 ^ (53 - Zpos (digits2_pos c)).
Proof.
  intros Hj E Hc Hd He Hb. pose proof (digits2_mul_pow c p j Hj E) as Ed. set (d := Zpos (digits2_pos p)) in *. set (dc := Zpos (digits2_pos c)) in *.
  pose proof (Z.pow_pos_nonneg 2 (53 - dc) ltac:(lia) ltac:(lia)) as Hpow.
  destruct (Zpos c * 2 ^ (53 - dc)) as [|m|m] eqn:Em; [lia| |lia]. exists m. split; [|done].
  assert (Ep : Zpos p = Zpos m * 2 ^ (d - 53)). { rewrite <- Em, E, <- Z.mul_assoc, <- Z.pow_add_r by lia. do 2 f_equal. lia. }
  assert (Hm : Zpos (digits2_pos m) = 53). { pose proof (digits2_mul_pow c m (53 - dc) ltac:(lia) ltac:(by symmetry)) as H. fold dc in H. lia. }
  unfold binary_round_aux, shr_fexp. cbn [Zdigits2]. fold d. unfold fexp, emin.
  replace (Z.max (d + e - 53) (3 - 1024 - 53) - e) with (d - 53) by lia.
  assert (E1 : shr (shr_record_of_loc (Zpos p) loc_Exact) e (d - 53) = (Build_shr_record (Zpos m) false false, e + d - 53)).
  { cbn [shr_record_of_loc]. destruct (d - 53) as [|n|n] eqn:En; [|rewrite Ep; cbn [shr]; rewrite iter_shr_exact; f_equal; lia|lia].
    cbn [shr]. rewrite Ep, Z.pow_0_r, Z.mul_1_r. f_equal. lia. }
  rewrite E1. cbn [shr_m loc_of_shr_record round_nearest_even Zdigits2 shr_record_of_loc]. rewrite Hm.
  replace (Z.max (53 + (e + d - 53) - 53) (3 - 1024 - 53) - (e + d - 53)) with 0 by lia. cbn [shr shr_m].
  by replace (e + d - 53 <=? 1024 - 53) with true by lia.
Qed.

Lemma Pos_iter_xO p n : Zpos (Pos.iter xO p n) = Zpos p * 2 ^ Zpos n.
Proof.
  induction n as [|n IH] using Pos.peano_ind; [cbn; lia|]. rewrite Pos.iter_succ, Pos2Z.inj_xO, IH, Pos2Z.inj_succ, Z.pow_succ_r by lia. lia.
Qed.

(** An integer of at most 53 bits is a float. *)
Lemma zToFloat_exact a : Zpos (digits2_pos a) <= 53 ->
  exists m, zToFloat (Zpos a) = S754_finite false m (Zpos (digits2_pos a) - 53) /\ Zpos m = Zpos a * 2 ^ (53 - Zpos (digits2_pos a)).
Proof.
  intros Ha. unfold zToFloat, binary_normalize, binary_round, shl_align, fexp, emin. set (d := Zpos (digits2_pos a)) in *.
  replace (Z.max (d + 0 - 53) (3 - 1024 - 53) - 0) with (d - 53) by lia. destruct (d - 53) as [|n|n] eqn:E; [|lia|].
  - destruct (binary_round_aux_exact false a a 0 0) as (m & Em & Hm); fold d; try lia. exists m. rewrite Em. fold d in Hm |- *. split; [f_equal; lia|done].
  - destruct (binary_round_aux_exact false a (Pos.iter xO a n) (Zpos n) (Zneg n)) as (m & Em & Hm); rewrite ?digits2_shift; fold d; try lia; [apply Pos_iter_xO|].
    replace (Z.max (d + 0 - 53) (3 - 1024 - 53)) with (Zneg n) by lia. exists m. rewrite Em, digits2_shift. fold d in Hm |- *. split; [f_equal; lia|done].
Qed.

(** A quotient of integers that is an integer is exact. *)
Lemma fdiv_exact a b : Zpos (a * b) < 2 ^ 53 -> fdiv (zToFloat (Zpos (a * b))) (zToFloat (Zpos b)) = zToFloat (Zpos a).
Proof.
  intros Hab. pose proof (digits2_bounds a) as Ba. pose proof (digits2_bounds b) as Bb. pose proof (digits2_bounds (a * b)) as Bab.
  set (da := Zpos (digits2_pos a)) in *. set (db := Zpos (digits2_pos b)) in *. set (dab := Zpos (digits2_pos (a * b))) in *.
  assert (H0 : 0 < da /\ 0 < db) by (unfold da, db; lia). assert (H1 : dab - 1 < 53) by (apply (Z.pow_lt_mono_r_iff 2); lia).
  assert (H2 : da + db - 2 < dab). { apply (Z.pow_lt_mono_r_iff 2); [lia|lia|]. replace (da + db - 2) with ((da - 1) + (db - 1)) by lia. rewrite Z.pow_add_r by lia. nia. }
  assert (H3 : dab - 1 < da + db). { apply (Z.pow_lt_mono_r_iff 2); [lia|lia|]. rewrite Z.pow_add_r by lia. nia. }
  destruct (zToFloat_exact (a * b)) as (m1 & -> & M1); [fold dab; lia|]. destruct (zToFloat_exact b) as (m2 & -> & M2); [fold db; lia|].
  destruct (zToFloat_exact a) as (m3 & -> & M3); [fold da; lia|]. fold dab in M1. fold db in M2. fold da in M3. fold da db dab.
  assert (D1 : Zpos (digits2_pos m1) = 53). { pose proof (digits2_mul_pow (a * b) m1 (53 - dab) ltac:(lia) M1). fold dab in H. lia. }
  assert (D2 : Zpos (digits2_pos m2) = 53). { pose proof (digits2_mul_pow b m2 (53 - db) ltac:(lia) M2). fold db in H. lia. }
  unfold fdiv, SFdiv, SFdiv_core_binary. cbn [Zdigits2 xorb]. rewrite D1, D2. unfold fexp, emin.
  replace (Z.min (Z.max (53 + (dab - 53) - (53 + (db - 53)) - 53) (3 - 1024 - 53)) (dab - 53 - (db - 53))) with (dab - db - 53) by lia.
  replace (dab - 53 - (db - 53) - (dab - db - 53)) with 53 by lia. cbn match. rewrite Z.shiftl_mul_pow2 by lia.
  pose proof (Z.pow_pos_nonneg 2 (53 - dab + db) ltac:(lia) ltac:(lia)) as Hpow.
  destruct (Zpos a * 2 ^ (53 - dab + db)) as [|q|q] eqn:Eq; [lia| |lia].
  assert (Hdiv : Zpos m1 * 2 ^ 53 = Zpos m2 * Zpos q + 0).
  { rewrite <- Eq, M1, M2, Pos2Z.inj_mul, Z.add_0_r.
    replace (Zpos a * Zpos b * 2 ^ (53 - dab) * 2 ^ 53) with (Zpos a * Zpos b * 2 ^ (53 - dab + 53)) by (rewrite Z.pow_add_r by lia; lia).
    replace (Zpos b * 2 ^ (53 - db) * (Zpos a * 2 ^ (53 - dab + db))) with (Zpos a * Zpos b * (2 ^ (53 - db) * 2 ^ (53 - dab + db))) by lia.
    rewrite <- Z.pow_add_r by lia. do 2 f_equal. lia. }
  destruct (Z.div_eucl (Zpos m1 * 2 ^ 53) (Zpos m2)) as [q' r'] eqn:Ee. pose proof (Z_div_mod (Zpos m1 * 2 ^ 53) (Zpos m2) ltac:(lia)) as Hdm. rewrite Ee in Hdm.
  destruct Hdm as [Hdm Hr]. assert (q' = Zpos q /\ r' = 0) as [-> ->].
  { apply (Z.div_mod_unique (Zpos m2)); [left; lia|left; lia|]. lia. }
  assert (Hloc : new_location (Zpos m2) 0 = loc_Exact). { unfold new_location. by destruct (Z.even _). } rewrite Hloc.
  assert (Dq : Zpos (digits2_pos q) = da + (53 - dab + db)). { unfold da. apply (digits2_mul_pow a q); [lia|by symmetry]. }
  destruct (binary_round_aux_exact false a q (53 - dab + db) (dab - db - 53)) as (m & -> & Hm); rewrite ?Dq; fold da; try lia.
  fold da in Hm. f_equal; lia.
Qed.

Lemma intOfFloat_exact a : Zpos a < 2 ^ 53 -> intOfFloat (zToFloat (Zpos a)) = Zpos a.
Proof.
  intros Ha. pose proof (digits2_bounds a) as Ba. assert (Hd : Zpos (digits2_pos a) - 1 < 53) by (apply (Z.pow_lt_mono_r_iff 2); lia).
  destruct (zToFloat_exact a) as (m & -> & Hm); [lia|]. set (d := Zpos (digits2_pos a)) in *. unfold intOfFloat. cbn [isNaN isInf orb truncFloat].
  assert (Ht : (if 0 <=? d - 53 then Zpos m * 2 ^ (d - 53) else Zpos m / 2 ^ (- (d - 53))) = Zpos a).
  { destruct (Z.leb_spec 0 (d - 53)) as [H|H].
    - assert (d = 53) as Ed by lia. rewrite Ed in *. cbn in *. lia.
    - replace (- (d - 53)) with (53 - d) by lia. rewrite Hm. apply Z.div_mul. pose proof (Z.pow_pos_nonneg 2 (53 - d) ltac:(lia) ltac:(lia)). lia. }
  rewrite Ht. cbv zeta. by replace ((- 2 ^ 63 <=? Zpos a) && (Zpos a <? 2 ^ 63)) with true by lia.
Qed.
