(* ===== verification/FloatRound.v ===== *)
(** * Rounding to binary64 and the shortest decimal

    What [strconv] documents of its conversions, proved of their definitions in
    [Float64]: every result of a division or of a parsed decimal is a binary64 number,
    the float of a fraction depends on its value only, a fraction closer to a float
    than its distance to a neighbour converts to it, and so the search for the
    shortest decimal succeeds within 17 digits and its result parses back. *)

From Stdlib Require Import SpecFloat.
From stdpp Require Import base numbers.
From S2P Require Import Prelude Fixed Money Float64 FloatInt.
Set Default Goal Selector "!".
#[local] Open Scope Z_scope.

(** A binary64 number: the mantissa has 53 bits, or fewer at the least exponent. *)
Definition isFloat64 (f : float64) : Prop := valid_binary 53 1024 f = true.

Lemma fexp_64 x : fexp 53 1024 x = Z.max (x - 53) (-1074).
Proof. done. Qed.

Lemma isFloat64_finite s m e : isFloat64 (S754_finite s m e) <-> Z.max (Zpos (digits2_pos m) + e - 53) (-1074) = e /\ e <= 971.
Proof. unfold isFloat64. cbn. unfold bounded, canonical_mantissa. rewrite fexp_64, andb_true_iff, Z.eqb_eq, Z.leb_le. done. Qed.

(** ** The shift register of the rounding *)

(** The register holds the fraction [N / D]: its integral part, whether the rest is at
    least a half, and whether there is more than that. *)
Definition shrRepr (r : shr_record) (N D : Z) : Prop :=
  0 < D /\ 0 <= shr_m r /\ exists rem, N = shr_m r * D + rem /\ 0 <= rem < D /\
    shr_r r = (D <=? 2 * rem) /\ shr_s r = negb (2 * rem =? (if D <=? 2 * rem then D else 0)).

Lemma shr_1_repr r N D : shrRepr r N D -> shrRepr (shr_1 r) N (2 * D).
Proof.
  destruct r as [m rb sb]. intros (HD & Hm & rem & HN & Hrem & Hr & Hs). cbn [shr_m shr_r shr_s] in *.
  assert (Hor : rb || sb = negb (rem =? 0)).
  { rewrite Hr, Hs. destruct (Z.leb_spec D (2 * rem)), (Z.eqb_spec rem 0); cbn; try lia; try done; destruct (Z.eqb_spec (2 * rem) 0); lia || done. }
  assert (Hm2 : exists b : bool, m = 2 * (m / 2) + Z.b2z b /\ shr_1 (Build_shr_record m rb sb) = Build_shr_record (m / 2) b (rb || sb)).
  { destruct m as [|p|p]; [by exists false| |lia]. destruct p as [p|p|]; [exists true|exists false|by exists true].
    - assert (E : Zpos p~1 / 2 = Zpos p) by (symmetry; apply (Z.div_unique _ _ _ 1); lia). rewrite E. split; [cbn; lia|done].
    - assert (E : Zpos p~0 / 2 = Zpos p) by (symmetry; apply (Z.div_unique _ _ _ 0); lia). rewrite E. split; [cbn; lia|done]. }
  destruct Hm2 as (b & Em & ->). rewrite Hor. unfold shrRepr. cbn [shr_m shr_r shr_s]. split; [lia|]. split; [apply Z.div_pos; lia|].
  exists (rem + Z.b2z b * D). set (h := m / 2) in *. clearbody h. subst m. destruct b; cbn [Z.b2z] in *.
  - split; [lia|]. split; [lia|]. rewrite (proj2 (Z.leb_le (2 * D) (2 * (rem + 1 * D)))) by lia. split; [done|].
    destruct (Z.eqb_spec rem 0), (Z.eqb_spec (2 * (rem + 1 * D)) (2 * D)); lia || done.
  - split; [lia|]. split; [lia|]. rewrite (proj2 (Z.leb_gt (2 * D) (2 * (rem + 0 * D)))) by lia. split; [done|].
    destruct (Z.eqb_spec rem 0), (Z.eqb_spec (2 * (rem + 0 * D)) 0); lia || done.
Qed.

Lemma iter_shr_repr p : forall r N D, shrRepr r N D -> shrRepr (SpecFloat.iter_pos shr_1 p r) N (D * 2 ^ Zpos p).
Proof.
  induction p as [p IH|p IH|]; intros r N D H; cbn [SpecFloat.iter_pos].
  - replace (D * 2 ^ Zpos p~1) with (2 * D * 2 ^ Zpos p * 2 ^ Zpos p); [by apply IH, IH, shr_1_repr|].
    rewrite (Pos2Z.inj_xI p), Z.pow_add_r, Z.pow_mul_r by lia. replace (2 ^ 2) with (2 * 2) by done. rewrite Z.pow_mul_l. ring.
  - replace (D * 2 ^ Zpos p~0) with (D * 2 ^ Zpos p * 2 ^ Zpos p); [by apply IH, IH|].
    rewrite (Pos2Z.inj_xO p), Z.pow_mul_r by lia. replace (2 ^ 2) with (2 * 2) by done. rewrite Z.pow_mul_l. ring.
  - replace (D * 2 ^ 1) with (2 * D) by lia. by apply shr_1_repr.
Qed.

Lemma shr_repr r e n N D : 0 <= n -> shrRepr r N D -> shrRepr (fst (shr r e n)) N (D * 2 ^ n) /\ snd (shr r e n) = e + n.
Proof.
  intros Hn H. destruct n as [|p|p]; cbn [shr fst snd]; [|split; [by apply iter_shr_repr|done]|lia].
  rewrite Z.mul_1_r. split; [done|lia].
Qed.

Lemma shrRepr_scale r N D c : 0 < c -> shrRepr r N D -> shrRepr r (N * c) (D * c).
Proof.
  intros Hc (HD & Hm & rem & HN & Hrem & Hr & Hs). split; [nia|]. split; [done|]. exists (rem * c).
  split; [subst N; ring|]. split; [nia|]. rewrite Hs, Hr.
  assert (E : (D * c <=? 2 * (rem * c)) = (D <=? 2 * rem)) by (apply eq_true_iff_eq; rewrite !Z.leb_le; nia). rewrite E. split; [done|]. f_equal.
  apply eq_true_iff_eq. rewrite !Z.eqb_eq. destruct (D <=? 2 * rem); (split; intros H; [apply (Z.mul_reg_r _ _ c); lia|nia]).
Qed.

Lemma shrRepr_unique r r' N N' D D' : shrRepr r N D -> shrRepr r' N' D' -> N * D' = N' * D -> r = r'.
Proof.
  intros H H' E. assert (HD : 0 < D) by apply H. assert (HD' : 0 < D') by apply H'.
  apply (shrRepr_scale _ _ _ D' HD') in H. apply (shrRepr_scale _ _ _ D HD) in H'. rewrite E, (Z.mul_comm D D') in H.
  generalize dependent (N' * D). generalize dependent (D' * D). clear. intros B A H H' _. destruct r as [m a b], r' as [m' a' b'].
  destruct H as (HB & Hm & rem & HN & Hrem & Hr & Hs), H' as (_ & Hm' & rem' & HN' & Hrem' & Hr' & Hs'). cbn [shr_m shr_r shr_s] in *.
  destruct (Zdiv_mod_unique B m m' rem rem') as [-> ->]; [lia..|]. by rewrite Hr, Hs, Hr', Hs'.
Qed.

Lemma shrRepr_div N d : 0 < d -> 0 <= N -> shrRepr (shr_record_of_loc (N / d) (new_location d (N mod d))) N d.
Proof.
  intros Hd HN. pose proof (Z.mod_pos_bound N d Hd) as Hr. pose proof (Z.div_mod N d ltac:(lia)) as E. set (rem := N mod d) in *. set (q := N / d) in *.
  assert (Hq : 0 <= q) by (apply Z.div_pos; lia). clearbody q rem.
  split; [done|]. destruct (Z.eq_dec rem 0) as [->|Hne].
  { replace (new_location d 0) with loc_Exact by (unfold new_location; by destruct (Z.even d)). cbn. split; [done|]. exists 0.
    split; [lia|]. split; [lia|]. change (2 * 0) with 0. destruct (Z.leb_spec d 0); [lia|]. by split. }
  unfold new_location, new_location_even, new_location_odd. destruct (Z.even d) eqn:Ev; rewrite (proj2 (Z.eqb_neq rem 0) Hne).
  - destruct (Z.compare_spec (2 * rem) d) as [Hc|Hc|Hc]; cbn; (split; [done|]); exists rem; (split; [lia|]); (split; [lia|]).
    + rewrite (proj2 (Z.leb_le d (2 * rem))) by lia. rewrite (proj2 (Z.eqb_eq (2 * rem) d)) by lia. done.
    + rewrite (proj2 (Z.leb_gt d (2 * rem))) by lia. rewrite (proj2 (Z.eqb_neq (2 * rem) 0)) by lia. done.
    + rewrite (proj2 (Z.leb_le d (2 * rem))) by lia. rewrite (proj2 (Z.eqb_neq (2 * rem) d)) by lia. done.
  - assert (Hodd : d <> 2 * rem) by (intros ->; rewrite Z.even_mul in Ev; done).
    destruct (Z.compare_spec (2 * rem + 1) d) as [Hc|Hc|Hc]; cbn; (split; [done|]); exists rem; (split; [lia|]); (split; [lia|]).
    + rewrite (proj2 (Z.leb_gt d (2 * rem))) by lia. rewrite (proj2 (Z.eqb_neq (2 * rem) 0)) by lia. done.
    + rewrite (proj2 (Z.leb_gt d (2 * rem))) by lia. rewrite (proj2 (Z.eqb_neq (2 * rem) 0)) by lia. done.
    + rewrite (proj2 (Z.leb_le d (2 * rem))) by lia. rewrite (proj2 (Z.eqb_neq (2 * rem) d)) by lia. done.
Qed.

(** An integer closer than a half is the one it rounds to. *)
Lemma shrRepr_round r N D M : shrRepr r N D -> 2 * Z.abs (N - M * D) < D -> round_nearest_even (shr_m r) (loc_of_shr_record r) = M.
Proof.
  destruct r as [m a b]. intros (HD & Hm & rem & HN & Hrem & Hr & Hs) Hc. cbn [shr_m shr_r shr_s] in *. subst N.
  destruct (Z.leb_spec D (2 * rem)) as [Hh|Hh]; subst a.
  - assert (HM : M = m + 1) by nia. subst M. destruct (Z.eqb_spec (2 * rem) D) as [Ht|Ht]; [nia|]. by subst b.
  - assert (HM : M = m) by nia. subst M. by destruct b.
Qed.

(** ** Rounded mantissas *)

Lemma Zdigits2_log2 q : 0 < q -> Zdigits2 q = Z.log2 q + 1.
Proof.
  intros Hq. destruct q as [|p|p]; [lia| |lia]. cbn [Zdigits2]. pose proof (digits2_bounds p) as Hb. set (n := Zpos (digits2_pos p)) in *.
  assert (0 < n) by (unfold n; lia). rewrite (Z.log2_unique (Zpos p) (n - 1)); [lia|lia|]. by replace (Z.succ (n - 1)) with n by lia.
Qed.

Lemma Zdigits2_nonneg q : 0 <= Zdigits2 q.
Proof. destruct q; cbn; lia. Qed.

Lemma Zdigits2_lt q n : 0 <= q -> 0 <= n -> (Zdigits2 q <= n <-> q < 2 ^ n).
Proof.
  intros Hq Hn. destruct (Z.eq_dec q 0) as [->|]; [cbn; split; [intros _; lia|done]|]. rewrite Zdigits2_log2 by lia.
  destruct (Z.log2_spec q ltac:(lia)) as [L1 L2]. split; intros H.
  - eapply Z.lt_le_trans; [exact L2|]. apply Z.pow_le_mono_r; lia.
  - apply Z.le_succ_l. apply (Z.pow_lt_mono_r_iff 2); lia.
Qed.

(** What the rounding does with the mantissa it rounded to. *)
Definition roundFinish (neg : bool) (m e : Z) : float64 :=
  let '(r, e) := shr_fexp 53 1024 m e loc_Exact in
  match shr_m r with
  | Z0 => S754_zero neg
  | Zpos m => if e <=? 971 then S754_finite neg m e else S754_infinity neg
  | _ => S754_nan
  end.

Lemma binary_round_aux_roundFinish neg m e l : binary_round_aux 53 1024 neg m e l =
  let '(r, e) := shr_fexp 53 1024 m e l in roundFinish neg (round_nearest_even (shr_m r) (loc_of_shr_record r)) e.
Proof. done. Qed.

(** A mantissa that fits is kept. *)
Lemma roundFinish_fits neg p e : Z.max (Zpos (digits2_pos p) + e - 53) (-1074) <= e ->
  roundFinish neg (Zpos p) e = if e <=? 971 then S754_finite neg p e else S754_infinity neg.
Proof.
  intros H. unfold roundFinish, shr_fexp. rewrite fexp_64. cbn [Zdigits2]. destruct (_ - e) as [|n|n] eqn:E; cbn [shr]; [done| |done]. lia.
Qed.

(** The next power of two takes the next exponent. *)
Lemma roundFinish_carry neg e : -1074 <= e -> roundFinish neg (2 ^ 53) e = if e + 1 <=? 971 then S754_finite neg (2 ^ 52) (e + 1) else S754_infinity neg.
Proof.
  intros H. unfold roundFinish, shr_fexp. rewrite fexp_64. replace (Zdigits2 (2 ^ 53)) with 54 by (vm_compute; reflexivity).
  replace (Z.max (54 + e - 53) (-1074) - e) with 1 by lia. done.
Qed.

(** A mantissa of at most 53 bits, all of them unless the exponent is the least one,
    and the next power of two give binary64 numbers. *)
Lemma roundFinish_float64 neg m e : 0 <= m <= 2 ^ 53 -> -1074 <= e -> (e = -1074 \/ 2 ^ 52 <= m) -> isFloat64 (roundFinish neg m e).
Proof.
  intros Hm He Hc. destruct (Z.eq_dec m (2 ^ 53)) as [->|Hne].
  { rewrite roundFinish_carry by done. destruct (Z.leb_spec (e + 1) 971); [|done]. apply isFloat64_finite.
    change (Zpos (digits2_pos (2 ^ 52))) with 53. lia. }
  destruct m as [|p|p]; [| |lia].
  - unfold roundFinish, shr_fexp. cbn [Zdigits2]. assert (e = -1074) as -> by lia. done.
  - assert (Hd : Zpos (digits2_pos p) <= 53) by (apply (Zdigits2_lt (Zpos p) 53); lia).
    assert (Hmax : Z.max (Zpos (digits2_pos p) + e - 53) (-1074) = e).
    { destruct Hc as [->|Hc]; [lia|]. assert (~ Zpos (digits2_pos p) <= 52) by (intros Hx; apply (Zdigits2_lt (Zpos p) 52) in Hx; lia). lia. }
    rewrite roundFinish_fits by lia. destruct (Z.leb_spec e 971); [|done]. by apply isFloat64_finite.
Qed.

(** Rounding a mantissa with at least the bits that are kept. *)
Lemma binary_round_aux_float64 neg q e l : 0 <= q -> e <= fexp 53 1024 (Zdigits2 q + e) -> isFloat64 (binary_round_aux 53 1024 neg q e l).
Proof.
  intros Hq He. rewrite binary_round_aux_roundFinish. unfold shr_fexp. rewrite fexp_64 in *. set (E := Z.max (Zdigits2 q + e - 53) (-1074)) in *.
  pose proof (shr_spec (shr_record_of_loc q l) e (E - e)) as Hs. rewrite shr_of_loc in Hs. specialize (Hs Hq). destruct Hs as [Hm Hx].
  destruct (shr (shr_record_of_loc q l) e (E - e)) as [r e1]. cbn [fst snd] in Hm, Hx. rewrite Z.max_r in Hm, Hx by lia. replace (e + (E - e)) with E in Hx by lia. subst e1.
  pose proof (round_up_one (shr_m r) (loc_of_shr_record r)) as Hr. set (M := round_nearest_even _ _) in *. clearbody M. rewrite Hm in Hr. clear Hm r.
  assert (Hp : 0 < 2 ^ (E - e)) by (apply Z.pow_pos_nonneg; lia). assert (Hq0 : 0 <= q / 2 ^ (E - e)) by (apply Z.div_pos; lia).
  pose proof (Zdigits2_nonneg q) as Hdn.
  assert (Hup : q / 2 ^ (E - e) < 2 ^ 53).
  { apply Z.div_lt_upper_bound; [done|]. rewrite <- Z.pow_add_r by lia. apply Zdigits2_lt; lia. }
  apply roundFinish_float64; [lia|lia|]. destruct (Z.eq_dec E (-1074)) as [|HE]; [by left|right].
  transitivity (q / 2 ^ (E - e)); [|lia]. assert (Hq1 : 0 < q). { destruct (Z.eq_dec q 0) as [->|]; [|lia]. exfalso. unfold E in *. change (Zdigits2 0) with 0 in *. lia. }
  apply Z.div_le_lower_bound; [done|]. rewrite <- Z.pow_add_r by lia. pose proof (Zdigits2_log2 q Hq1).
  destruct (Z.log2_spec q Hq1) as [L1 _]. eapply Z.le_trans; [|exact L1]. apply Z.pow_le_mono_r; unfold E in *; lia.
Qed.

Lemma div_core_bits m1 e1 m2 e2 : let '(q, e, l) := SFdiv_core_binary 53 1024 (Zpos m1) e1 (Zpos m2) e2 in
  0 <= q /\ e <= fexp 53 1024 (Zdigits2 q + e).
Proof.
  unfold SFdiv_core_binary. cbn [Zdigits2]. set (d1 := Zpos (digits2_pos m1)). set (d2 := Zpos (digits2_pos m2)). rewrite fexp_64.
  set (e := Z.min _ _). assert (Hs : 0 <= e1 - e2 - e) by (unfold e; lia).
  assert (Em : match e1 - e2 - e with 0 => Zpos m1 | Zpos _ => Z.shiftl (Zpos m1) (e1 - e2 - e) | Zneg _ => 0 end = Zpos m1 * 2 ^ (e1 - e2 - e)).
  { destruct (e1 - e2 - e) as [|n|n]; [cbn; lia|by rewrite Z.shiftl_mul_pow2 by lia|lia]. }
  rewrite Em. clear Em. set (s := e1 - e2 - e) in *. pose proof (Z.div_eucl_eq (Zpos m1 * 2 ^ s) (Zpos m2) ltac:(lia)) as _.
  assert (Eq : fst (Z.div_eucl (Zpos m1 * 2 ^ s) (Zpos m2)) = Zpos m1 * 2 ^ s / Zpos m2) by done.
  destruct (Z.div_eucl (Zpos m1 * 2 ^ s) (Zpos m2)) as [q rm]. cbn [fst] in Eq. subst q.
  assert (Hp : 0 < 2 ^ s) by (apply Z.pow_pos_nonneg; lia). split; [apply Z.div_pos; lia|]. rewrite fexp_64.
  destruct (Z.le_gt_cases (d1 + e1 - (d2 + e2) - 53) (-1074)) as [Hc|Hc]; [unfold e in *; lia|].
  set (q := Zpos m1 * 2 ^ s / Zpos m2).
  assert (Hq : 2 ^ (d1 - 1 + s - d2) <= q).
  { apply Z.div_le_lower_bound; [lia|]. destruct (digits2_bounds m1) as [B1 _], (digits2_bounds m2) as [_ B2]. fold d1 in B1. fold d2 in B2.
    assert (Hx : 0 <= d1 - 1 + s - d2) by (unfold s, e in *; lia). assert (0 < d1 /\ 0 < d2) by (unfold d1, d2; lia).
    transitivity (2 ^ d2 * 2 ^ (d1 - 1 + s - d2)); [apply Z.mul_le_mono_nonneg_r; [apply Z.pow_nonneg|]; lia|].
    rewrite <- Z.pow_add_r by lia. replace (d2 + (d1 - 1 + s - d2)) with (d1 - 1 + s) by lia. rewrite Z.pow_add_r by lia. apply Z.mul_le_mono_nonneg_r; lia. }
  assert (Hd : ~ Zdigits2 q <= d1 - 1 + s - d2).
  { intros Hx. apply Zdigits2_lt in Hx; [lia|unfold q; apply Z.div_pos; lia|]. unfold s, e in *. lia. }
  unfold s, e in *. lia.
Qed.

Lemma ratToFloat_float64 neg n d : isFloat64 (ratToFloat neg n d).
Proof.
  unfold ratToFloat. pose proof (div_core_bits n 0 d 0) as H. destruct (SFdiv_core_binary _ _ _ _ _ _) as [[q e] l].
  destruct H. by apply binary_round_aux_float64.
Qed.

Lemma decimalToFloat_float64 neg D k : isFloat64 (decimalToFloat neg D k).
Proof. unfold decimalToFloat. destruct (0 <=? k); apply ratToFloat_float64. Qed.

Lemma fdiv_float64 a b : isFloat64 (fdiv a b).
Proof.
  unfold fdiv, SFdiv. destruct a as [s|s| |s m e], b as [s'|s'| |s' m' e']; try done. pose proof (div_core_bits m e m' e') as H.
  destruct (SFdiv_core_binary _ _ _ _ _ _) as [[q ex] l]. destruct H. by apply binary_round_aux_float64.
Qed.

(** ** The float of a fraction *)

(** The exponent of the float of a fraction, in units of the least float. *)
Definition unitExp (X B : Z) : Z := Z.max (Z.log2 (X / B) - 52) 0.

Lemma log2_div_pow2 a j : 0 <= a -> 0 <= j -> 0 < a / 2 ^ j -> Z.log2 (a / 2 ^ j) = Z.log2 a - j.
Proof.
  intros Ha Hj H. rewrite <- Z.shiftr_div_pow2 in * by done. assert (0 < a).
  { destruct (Z.eq_dec a 0) as [->|]; [rewrite Z.shiftr_0_l in H|]; lia. }
  rewrite Z.log2_shiftr by done. apply Z.max_r. destruct (Z.le_gt_cases j (Z.log2 a)) as [|Hc]; [lia|].
  rewrite Z.shiftr_eq_0 in H; lia.
Qed.

(** The rounding starts from the value of the fraction, at the exponent that its
    size asks for. *)
Lemma ratToFloat_spec neg n d : let X := Zpos n * 2 ^ 1074 in
  exists r, shrRepr r X (Zpos d * 2 ^ unitExp X (Zpos d)) /\
    ratToFloat neg n d = roundFinish neg (round_nearest_even (shr_m r) (loc_of_shr_record r)) (unitExp X (Zpos d) - 1074).
Proof.
  cbv zeta. set (X := Zpos n * 2 ^ 1074). set (E := unitExp X (Zpos d)). assert (HX : 0 < X) by (unfold X; lia).
  unfold ratToFloat, SFdiv_core_binary. cbn [Zdigits2]. set (d1 := Zpos (digits2_pos n)). set (d2 := Zpos (digits2_pos d)). rewrite fexp_64.
  set (e := Z.min _ _). set (j := e + 1074). assert (Hj : 0 <= j) by (unfold j, e; lia). assert (Hs : 0 - 0 - e = 1074 - j) by (unfold j; lia). rewrite Hs.
  assert (Hj2 : j <= 1074) by (unfold j, e; lia).
  assert (Em : match 1074 - j with 0 => Zpos n | Zpos _ => Z.shiftl (Zpos n) (1074 - j) | Zneg _ => 0 end = Zpos n * 2 ^ (1074 - j)).
  { destruct (1074 - j) as [|p|p] eqn:Ej; [cbn; lia|by rewrite Z.shiftl_mul_pow2 by lia|lia]. }
  rewrite Em. clear Em. set (N := Zpos n * 2 ^ (1074 - j)). assert (HN : 0 < N) by (unfold N; apply Z.mul_pos_pos; [lia|apply Z.pow_pos_nonneg; lia]).
  assert (EX : X = N * 2 ^ j) by (unfold X, N; rewrite <- Z.mul_assoc, <- Z.pow_add_r by lia; do 2 f_equal; lia).
  assert (Hpj : 0 < 2 ^ j) by (apply Z.pow_pos_nonneg; lia).
  assert (Hdiv : Z.div_eucl N (Zpos d) = (N / Zpos d, N mod Zpos d)) by (unfold Z.div, Z.modulo; by destruct (Z.div_eucl N (Zpos d))).
  rewrite Hdiv. rewrite binary_round_aux_roundFinish. unfold shr_fexp. rewrite fexp_64.
  pose proof (shrRepr_div N (Zpos d) ltac:(lia) ltac:(lia)) as Hr0. apply (shrRepr_scale _ _ _ (2 ^ j)) in Hr0; [|done]. rewrite <- EX in Hr0.
  assert (Eq : N / Zpos d = X / Zpos d / 2 ^ j).
  { rewrite Z.div_div, EX by lia. rewrite Z.div_mul_cancel_r by lia. done. }
  (* the size of the fraction *)
  assert (Hbig : 0 < d1 - d2 + 1021 -> d1 - d2 + 1073 <= Z.log2 (X / Zpos d)).
  { intros Hb. apply Z.log2_le_pow2; [apply Z.div_str_pos; destruct (digits2_bounds n) as [B1 _], (digits2_bounds d) as [_ B2]; fold d1 in B1; fold d2 in B2|].
    - unfold X. split; [lia|]. assert (Zpos d < 2 ^ d2) by lia. transitivity (2 ^ d2); [lia|]. transitivity (2 ^ (d1 - 1) * 2 ^ 1074).
      + rewrite <- Z.pow_add_r by (unfold d1; lia). apply Z.pow_le_mono_r; lia.
      + apply Z.mul_le_mono_nonneg_r; [apply Z.pow_nonneg|]; lia.
    - apply Z.div_le_lower_bound; [lia|]. destruct (digits2_bounds n) as [B1 _], (digits2_bounds d) as [_ B2]. fold d1 in B1. fold d2 in B2. unfold X.
      transitivity (2 ^ d2 * 2 ^ (d1 - d2 + 1073)); [apply Z.mul_le_mono_nonneg_r; [apply Z.pow_nonneg|]; lia|].
      rewrite <- Z.pow_add_r by (unfold d2; lia). replace (d2 + (d1 - d2 + 1073)) with (d1 - 1 + 1074) by lia. rewrite Z.pow_add_r by (unfold d1; lia).
      apply Z.mul_le_mono_nonneg_r; [apply Z.pow_nonneg|]; lia. }
  assert (HE : Z.max (Zdigits2 (N / Zpos d) + e - 53) (-1074) = E - 1074 /\ j <= E).
  { assert (HjE : j <= E) by (unfold E, unitExp; destruct (Z.le_gt_cases (d1 - d2 + 1021) 0); unfold j, e in *; lia).
    split; [|done]. assert (Hd0 : 0 <= X / Zpos d) by (apply Z.div_pos; lia).
    destruct (Z.eq_dec (N / Zpos d) 0) as [Ez|Hnz].
    - rewrite Ez. change (Zdigits2 0) with 0. assert (j = 0 /\ X / Zpos d = 0) as [Hj0 HX0].
      { rewrite Ez in Eq. symmetry in Eq. apply Z.div_small_iff in Eq; [|lia]. destruct Eq as [Eq|Eq]; [|lia].
        destruct (Z.eq_dec j 0) as [->|Hjn]; [cbn in Eq; lia|]. exfalso.
        assert (Hc : 0 < d1 - d2 + 1021) by (unfold j, e in *; lia). specialize (Hbig Hc).
        assert (HX1 : 0 < X / Zpos d). { destruct (Z.eq_dec (X / Zpos d) 0) as [E0|]; [rewrite E0 in Hbig; cbn in Hbig|]; lia. }
        destruct Eq as [_ Eq]. apply Z.log2_lt_pow2 in Eq; [|done]. unfold j, e in *. lia. }
      unfold E, unitExp. rewrite HX0. cbn [Z.log2]. unfold j in Hj0. lia.
    - assert (Hq : 0 < N / Zpos d) by (pose proof (Z.div_pos N (Zpos d) ltac:(lia) ltac:(lia)); lia). rewrite Zdigits2_log2 by done. rewrite Eq in *.
      rewrite log2_div_pow2 by done. unfold E, unitExp, j. lia. }
  destruct HE as [HE HjE]. rewrite HE. clear HE Hbig.
  destruct (shr_repr _ e (E - 1074 - e) _ _ ltac:(unfold j in HjE; lia) Hr0) as [Hr1 He1].
  destruct (shr (shr_record_of_loc _ _) e (E - 1074 - e)) as [r e1]. cbn [fst snd] in *. exists r. split.
  - rewrite <- Z.mul_assoc, <- Z.pow_add_r in Hr1 by (unfold j in *; lia). replace (j + (E - 1074 - e)) with E in Hr1 by (unfold j; lia). done.
  - f_equal. lia.
Qed.

(** The float of a fraction is a function of its value. *)
Lemma ratToFloat_value neg n d n' d' : Zpos n * Zpos d' = Zpos n' * Zpos d -> ratToFloat neg n d = ratToFloat neg n' d'.
Proof.
  intros E. destruct (ratToFloat_spec neg n d) as (r & Hr & ->). destruct (ratToFloat_spec neg n' d') as (r' & Hr' & ->).
  assert (Hu : unitExp (Zpos n * 2 ^ 1074) (Zpos d) = unitExp (Zpos n' * 2 ^ 1074) (Zpos d')).
  { unfold unitExp. do 3 f_equal. rewrite <- (Z.div_mul_cancel_r _ (Zpos d) (Zpos d')), <- (Z.div_mul_cancel_r _ (Zpos d') (Zpos d)) by lia.
    f_equal; [|lia]. rewrite <- !Z.mul_assoc, !(Z.mul_comm (2 ^ 1074)), !Z.mul_assoc. by rewrite E. }
  rewrite <- Hu in *. rewrite (shrRepr_unique r r' _ _ _ _ Hr Hr'); [done|]. set (c := 2 ^ 1074). set (u := 2 ^ unitExp _ _). clearbody c u. transitivity (Zpos n * Zpos d' * (c * u)); [ring|]. rewrite E. ring.
Qed.

Lemma ratToFloat_sign n d : ratToFloat true n d = fneg (ratToFloat false n d).
Proof.
  unfold ratToFloat. destruct (SFdiv_core_binary _ _ _ _ _ _) as [[q e] l]. rewrite !binary_round_aux_roundFinish. destruct (shr_fexp _ _ _ _ _) as [r e1].
  unfold roundFinish. destruct (shr_fexp _ _ _ _ _) as [r2 e2]. destruct (shr_m r2) as [|m|m]; [done| |done]. by destruct (_ <=? _).
Qed.

Lemma unitExp_at X B j : 0 < B -> 0 < j -> B * 2 ^ (52 + j) <= X < B * 2 ^ (53 + j) -> unitExp X B = j.
Proof.
  intros HB Hj [H1 H2]. unfold unitExp. rewrite (Z.log2_unique (X / B) (52 + j)); [lia|lia|]. split.
  - apply Z.div_le_lower_bound; [done|lia].
  - apply Z.div_lt_upper_bound; [done|]. by replace (Z.succ (52 + j)) with (53 + j) by lia.
Qed.

Lemma unitExp_small X B : 0 < B -> 0 <= X < B * 2 ^ 53 -> unitExp X B = 0.
Proof.
  intros HB [H1 H2]. unfold unitExp. apply Z.max_r. destruct (Z.eq_dec (X / B) 0) as [->|]; [done|].
  assert (0 <= X / B) by (apply Z.div_pos; lia). assert (Z.log2 (X / B) < 53); [|lia]. apply Z.log2_lt_pow2; [lia|]. by apply Z.div_lt_upper_bound.
Qed.

(** A fraction closer to a float than a part in [2^54] of it converts to the float. *)
Lemma ratToFloat_near neg n d m e : isFloat64 (S754_finite neg m e) ->
  let X := Zpos n * 2 ^ 1074 in let V := Zpos m * 2 ^ (e + 1074) * Zpos d in
  Z.abs (X - V) * 2 ^ 54 < V -> ratToFloat neg n d = S754_finite neg m e.
Proof.
  cbv zeta. intros [Hcan Hmax]%isFloat64_finite. destruct (ratToFloat_spec neg n d) as (r & Hr & ->). set (X := Zpos n * 2 ^ 1074) in *.
  set (B := Zpos d) in *. assert (HB : 0 < B) by (unfold B; lia). clearbody X B. set (j := e + 1074). assert (Hj : 0 <= j) by (unfold j; lia).
  assert (Hfit : roundFinish neg (Zpos m) e = S754_finite neg m e) by (rewrite roundFinish_fits by lia; by destruct (Z.leb_spec e 971); [|lia]).
  destruct (digits2_bounds m) as [B1 B2]. set (dm := Zpos (digits2_pos m)) in *. intros Hnear.
  assert (Hpj : 0 < 2 ^ j) by (apply Z.pow_pos_nonneg; lia). change (2 ^ 54) with 18014398509481984 in Hnear.
  assert (Hd53 : dm <= 53) by lia. assert (Hm : Zpos m < 2 ^ 53) by (eapply Z.lt_le_trans; [exact B2|]; apply Z.pow_le_mono_r; lia).
  (* rounding at the exponent of the float *)
  assert (Hround : unitExp X B = j -> roundFinish neg (round_nearest_even (shr_m r) (loc_of_shr_record r)) (unitExp X B - 1074) = S754_finite neg m e).
  { intros Eu. rewrite Eu in *. rewrite (shrRepr_round r X (B * 2 ^ j) (Zpos m) Hr).
    - replace (j - 1074) with e by (unfold j; lia). exact Hfit.
    - change (2 ^ 53) with 9007199254740992 in Hm. replace (Zpos m * (B * 2 ^ j)) with (Zpos m * 2 ^ j * B) by ring. nia. }
  destruct (Z.eq_dec j 0) as [Hj0|Hj0].
  { apply Hround. rewrite Hj0. apply unitExp_small; [done|]. rewrite Hj0 in Hnear. change (2 ^ 53) with 9007199254740992 in *. nia. }
  assert (Hd : dm = 53) by (unfold j in *; lia). rewrite Hd in B1. change (53 - 1) with 52 in B1.
  assert (Hpow : forall a, 0 <= a -> 2 ^ (a + j) = 2 ^ a * 2 ^ j) by (intros; apply Z.pow_add_r; lia).
  destruct (Z.le_gt_cases (B * 2 ^ (52 + j)) X) as [Hlow|Hlow].
  { apply Hround. apply unitExp_at; [done|lia|]. split; [done|]. rewrite Hpow by lia. change (2 ^ 53) with 9007199254740992 in *. nia. }
  (* just under a power of two *)
  rewrite Hpow in Hlow by lia. change (2 ^ 52) with 4503599627370496 in *. change (2 ^ 53) with 9007199254740992 in *.
  assert (Em : Zpos m = 4503599627370496) by nia. assert (Hj1 : 0 <= j - 1) by lia. assert (E2 : 2 ^ j = 2 * 2 ^ (j - 1)).
  { rewrite <- Z.pow_succ_r by lia. f_equal. lia. }
  assert (Hpj1 : 0 < 2 ^ (j - 1)) by (apply Z.pow_pos_nonneg; lia). set (w := 2 ^ (j - 1)) in *. rewrite Em, E2 in *.
  assert (Eu : unitExp X B = j - 1).
  { destruct (Z.eq_dec j 1) as [Ej|].
    - rewrite Ej. apply unitExp_small; [done|]. unfold w in *. rewrite Ej in *. change (2 ^ (1 - 1)) with 1 in *. change (2 ^ 53) with 9007199254740992. nia.
    - apply unitExp_at; [done|lia|]. rewrite !Z.pow_add_r by lia. fold w. change (2 ^ 52) with 4503599627370496. change (2 ^ 53) with 9007199254740992. nia. }
  rewrite Eu in *. fold w in Hr. rewrite (shrRepr_round r X (B * w) (2 ^ 53) Hr).
  - rewrite roundFinish_carry by lia. replace (j - 1 - 1074 + 1) with e by (unfold j; lia). destruct (Z.leb_spec e 971); [|lia]. f_equal. change (2 ^ 52)%positive with 4503599627370496%positive. lia.
  - change (2 ^ 53) with 9007199254740992. nia.
Qed.

(** ** The shortest decimal *)

Lemma log10Up_spec fuel : forall q x, 0 < q -> q < 10 ^ Z.of_nat fuel * 10 ->
  let y := log10Up fuel q x in x <= y <= x + Z.of_nat fuel /\ 10 ^ (y - x) <= q < 10 ^ (y - x + 1).
Proof.
  induction fuel as [|fuel IH]; intros q x Hq Hlt; cbn [log10Up].
  - cbn in Hlt. rewrite Z.sub_diag. cbn. lia.
  - destruct (Z.ltb_spec q 10); [rewrite Z.sub_diag; cbn; lia|]. rewrite Nat2Z.inj_succ, Z.pow_succ_r in Hlt by lia.
    pose proof (Z.div_mod q 10 ltac:(lia)) as E. pose proof (Z.mod_pos_bound q 10 ltac:(lia)) as Hr.
    destruct (IH (q / 10) (x + 1)) as [H1 H2]; [lia|lia|]. cbv zeta in *. set (y := log10Up fuel (q / 10) (x + 1)) in *. clearbody y.
    split; [lia|]. replace (y - x) with (y - (x + 1) + 1) by lia. rewrite Z.pow_add_r by lia. rewrite (Z.pow_add_r 10 (y - (x + 1) + 1) 1) by lia.
    change (10 ^ 1) with 10. lia.
Qed.

Lemma log10Down_spec fuel : forall n d x, 0 < n -> n < d -> d <= n * 10 ^ Z.of_nat fuel ->
  let y := log10Down fuel n d x in x - Z.of_nat fuel <= y < x /\ d <= n * 10 ^ (x - y) /\ n * 10 ^ (x - y) < 10 * d.
Proof.
  induction fuel as [|fuel IH]; intros n d x Hn Hnd Hle; cbn [log10Down]; [cbn in Hle; lia|].
  destruct (Z.leb_spec d n); [lia|]. rewrite Nat2Z.inj_succ, Z.pow_succ_r in Hle by lia. destruct (Z.leb_spec d (n * 10)) as [Hc|Hc].
  - assert (Ey : log10Down fuel (n * 10) d (x - 1) = x - 1) by (destruct fuel; [done|cbn; by rewrite (proj2 (Z.leb_le _ _) Hc)]).
    cbv zeta. rewrite Ey. replace (x - (x - 1)) with 1 by lia. lia.
  - destruct (IH (n * 10) d (x - 1)) as (H1 & H2 & H3); [lia|lia|lia|]. cbv zeta in *. set (y := log10Down fuel (n * 10) d (x - 1)) in *. clearbody y.
    replace (x - y) with (Z.succ (x - 1 - y)) by lia. rewrite Z.pow_succ_r by lia. nia.
Qed.

(** The fraction [n / d] lies between [10^x] and [10^(x+1)]. *)
Definition decadeOf (n d x : Z) : Prop := d * 10 ^ Z.max 0 x <= n * 10 ^ Z.max 0 (- x) /\ n * 10 ^ Z.max 0 (- x) < 10 * (d * 10 ^ Z.max 0 x).

Lemma log10Floor_spec n d : 0 < n -> 0 < d -> n < 10 ^ 400 -> d < 10 ^ 400 -> -400 <= log10Floor n d <= 400 /\ decadeOf n d (log10Floor n d).
Proof.
  intros Hn Hd Hn2 Hd2. unfold log10Floor, decadeOf. destruct (Z.leb_spec d n).
  - assert (Hq : 0 < n / d) by (apply Z.div_str_pos; lia). assert (Hq2 : n / d <= n) by (apply Z.div_le_upper_bound; nia).
    destruct (log10Up_spec 400 (n / d) 0 Hq) as [H1 H2]; [change (Z.of_nat 400) with 400; lia|]. cbv zeta in *. set (y := log10Up 400 (n / d) 0) in *.
    change (Z.of_nat 400) with 400 in H1. rewrite Z.sub_0_r in H2. rewrite (Z.max_r 0 y), (Z.max_l 0 (- y)) by lia. split; [lia|].
    pose proof (Z.div_mod n d ltac:(lia)) as E. pose proof (Z.mod_pos_bound n d Hd) as Hr. rewrite Z.pow_add_r in H2 by lia. change (10 ^ 1) with 10 in H2.
    clearbody y. set (p := 10 ^ y) in *. cbn [Z.pow]. nia.
  - destruct (log10Down_spec 400 n d 0 Hn ltac:(lia)) as (H1 & H2 & H3); [change (Z.of_nat 400) with 400; nia|]. cbv zeta in *. set (y := log10Down 400 n d 0) in *.
    change (Z.of_nat 400) with 400 in H1. change (0 - y) with (- y) in *. rewrite (Z.max_l 0 y), (Z.max_r 0 (- y)) by lia. cbn [Z.pow]. lia.
Qed.

(** The scaled fraction has [t + 1] integral digits. *)
Lemma scaled_decade n d x t k : 0 <= t -> k = x - t -> decadeOf n d x ->
  let den := d * 10 ^ Z.max 0 k in let num := n * 10 ^ Z.max 0 (- k) in 10 ^ t * den <= num < 10 * 10 ^ t * den.
Proof.
  intros Ht -> [H1 H2]. cbv zeta. set (a := Z.max 0 x) in *. set (b := Z.max 0 (- x)) in *. set (c := Z.max 0 (x - t)). set (f := Z.max 0 (- (x - t))).
  assert (Hb : 0 < 10 ^ b) by (apply pow10_pos; lia). assert (Hf : 0 < 10 ^ f) by (apply pow10_pos; lia).
  assert (E : 10 ^ t * 10 ^ c * 10 ^ b = 10 ^ a * 10 ^ f) by (rewrite <- !Z.pow_add_r by lia; f_equal; lia).
  split.
  - apply (Zmult_le_reg_r _ _ (10 ^ b)); [lia|]. replace (10 ^ t * (d * 10 ^ c) * 10 ^ b) with (d * (10 ^ t * 10 ^ c * 10 ^ b)) by ring. rewrite E. nia.
  - apply (Zmult_lt_reg_r _ _ (10 ^ b)); [lia|]. replace (10 * 10 ^ t * (d * 10 ^ c) * 10 ^ b) with (10 * d * (10 ^ t * 10 ^ c * 10 ^ b)) by ring. rewrite E. nia.
Qed.

Lemma scaledDigits_eq n d k : scaledDigits n d k =
  let den := d * 10 ^ Z.max 0 k in let num := n * 10 ^ Z.max 0 (- k) in (num / den, num mod den, den).
Proof.
  unfold scaledDigits. cbv zeta. destruct (Z.leb_spec 0 k).
  - rewrite (Z.max_r 0 k), (Z.max_l 0 (- k)) by lia. by rewrite Z.mul_1_r.
  - rewrite (Z.max_l 0 k), (Z.max_r 0 (- k)) by lia. by rewrite Z.mul_1_r.
Qed.

Lemma sameFloat_eq a b : sameFloat a b = true -> a = b.
Proof. destruct a as [?|?| |s m e], b as [?|?| |s' m' e']; cbn; try done. rewrite !andb_true_iff, Bool.eqb_true_iff, Pos.eqb_eq, Z.eqb_eq. by intros [[-> ->] ->]. Qed.

(** The digits tried are one of the two neighbours of the scaled fraction. *)
Lemma tryDigits_size f n d x digits D k : 0 < d -> 0 <= digits - 1 -> decadeOf n d x -> tryDigits f n d x digits = Some (D, k) ->
  k = x - digits + 1 /\ D <= 10 ^ digits.
Proof.
  intros Hd Hdig Hx. unfold tryDigits. rewrite scaledDigits_eq. pose proof (scaled_decade n d x (digits - 1) (x - digits + 1) Hdig ltac:(lia) Hx) as Hs. cbv beta iota zeta in *.
  set (den := d * _) in *. set (num := n * _) in *. assert (Hden : 0 < den) by (unfold den; apply Z.mul_pos_pos; [done|apply pow10_pos; lia]).
  assert (Hlo : num / den < 10 ^ digits).
  { apply Z.div_lt_upper_bound; [done|]. replace (10 ^ digits) with (10 * 10 ^ (digits - 1)); [lia|]. rewrite <- Z.pow_succ_r by lia. f_equal. lia. }
  set (hi := orb (den <? _) _). clearbody hi. destruct hi; repeat (case_match; try done); intros [= <- <-]; lia.
Qed.

Section Shortest.
Context (m : positive) (e : Z) (Hf : isFloat64 (S754_finite false m e)).

Lemma fracOf_facts : let '(n, d) := fracOf m e in
  Zpos n * 2 ^ 1074 = Zpos m * 2 ^ (e + 1074) * Zpos d /\ Zpos n < 10 ^ 400 /\ Zpos d < 10 ^ 400.
Proof.
  apply isFloat64_finite in Hf as [H1 H2]. destruct (digits2_bounds m) as [_ B2]. set (dm := Zpos (digits2_pos m)) in *.
  assert (Hm : Zpos m < 2 ^ 53) by (eapply Z.lt_le_trans; [exact B2|]; apply Z.pow_le_mono_r; lia).
  assert (Hp : forall a, 0 <= a <= 1100 -> 2 ^ a < 10 ^ 400).
  { intros a Ha. apply Z.le_lt_trans with (2 ^ 1100); [apply Z.pow_le_mono_r; lia|by vm_compute]. }
  unfold fracOf. destruct (Z.leb_spec 0 e).
  - assert (0 < 2 ^ e) by (apply Z.pow_pos_nonneg; lia). rewrite Z2Pos.id by nia. split; [rewrite (Z.pow_add_r 2 e) by lia; ring|].
    split; [|by vm_compute]. apply Z.lt_trans with (2 ^ (53 + e)); [|apply Hp; lia]. rewrite Z.pow_add_r by lia. nia.
  - assert (0 < 2 ^ (- e)) by (apply Z.pow_pos_nonneg; lia). rewrite Z2Pos.id by done. split.
    + rewrite <- Z.mul_assoc, <- Z.pow_add_r by lia. do 2 f_equal. lia.
    + split; [|apply Hp; lia]. apply Z.lt_trans with (2 ^ 53); [done|]. apply Hp. lia.
Qed.

(** Seventeen digits determine the float. *)
Lemma tryDigits_17 n d x : fracOf m e = (n, d) -> decadeOf (Zpos n) (Zpos d) x ->
  is_Some (tryDigits (S754_finite false m e) (Zpos n) (Zpos d) x 17).
Proof.
  intros Ef Hx. pose proof fracOf_facts as Hfr. rewrite Ef in Hfr. destruct Hfr as (Hv & _ & _). unfold tryDigits. rewrite scaledDigits_eq.
  pose proof (scaled_decade (Zpos n) (Zpos d) x 16 (x - 17 + 1) ltac:(lia) ltac:(lia) Hx) as Hs. cbv beta iota zeta in *. set (k := x - 17 + 1) in *. clearbody k.
  set (den := Zpos d * 10 ^ Z.max 0 k) in *. set (num := Zpos n * 10 ^ Z.max 0 (- k)) in *. assert (Hden : 0 < den) by (unfold den; apply Z.mul_pos_pos; [lia|apply pow10_pos; lia]).
  pose proof (Z.div_mod num den ltac:(lia)) as E. pose proof (Z.mod_pos_bound num den Hden) as Hr. change (10 ^ 16) with 10000000000000000 in Hs.
  set (lo := num / den) in *. set (r := num mod den) in *. clearbody lo r. set (hi := orb (den <? 2 * r) _).
  assert (Hback : forall D, 2 * Z.abs (D * den - num) <= den -> exists p, D = Zpos p /\ decimalToFloat false p k = S754_finite false m e).
  { intros D HD. destruct D as [|p|p]; [nia| |nia]. exists p. split; [done|].
    assert (Hp2 : Z.abs (Zpos p * den - num) * 18014398509481984 < num) by nia. unfold decimalToFloat. destruct (Z.leb_spec 0 k) as [Hk|Hk].
    - apply ratToFloat_near; [done|]. unfold den, num in Hp2. rewrite (Z.max_r 0 k), (Z.max_l 0 (- k)) in Hp2 by lia. pose proof (pow10_pos k Hk) as H10.
      rewrite Pos2Z.inj_mul, Z2Pos.id by done. set (w := 10 ^ k) in *. clearbody w. change (10 ^ 0) with 1 in Hp2. rewrite Z.mul_1_r in *.
      change (2 ^ 54) with 18014398509481984. set (c := 2 ^ 1074) in *. assert (0 < c) by (unfold c; lia). clearbody c. set (M := Zpos m * 2 ^ (e + 1074)) in *. clearbody M.
      apply (Zmult_lt_reg_r _ _ (Zpos d)); [lia|]. rewrite <- Hv.
      replace (Z.abs (Zpos p * w * c - M) * 18014398509481984 * Zpos d) with (Z.abs ((Zpos p * (Zpos d * w) - Zpos n) * c) * 18014398509481984).
      + rewrite Z.abs_mul, (Z.abs_eq c) by lia. nia.
      + replace ((Zpos p * (Zpos d * w) - Zpos n) * c) with ((Zpos p * w * c - M) * Zpos d) by lia. rewrite Z.abs_mul. lia.
    - apply ratToFloat_near; [done|]. unfold den, num in Hp2. rewrite (Z.max_l 0 k), (Z.max_r 0 (- k)) in Hp2 by lia. pose proof (pow10_pos (- k) ltac:(lia)) as H10.
      rewrite Z2Pos.id by done. set (w := 10 ^ (- k)) in *. clearbody w. change (10 ^ 0) with 1 in Hp2. rewrite Z.mul_1_r in *.
      change (2 ^ 54) with 18014398509481984. set (c := 2 ^ 1074) in *. assert (0 < c) by (unfold c; lia). clearbody c. set (M := Zpos m * 2 ^ (e + 1074)) in *. clearbody M.
      assert (Hw : Zpos n * w * c = M * w * Zpos d) by (transitivity (Zpos n * c * w); [ring|]; rewrite Hv; ring).
      apply (Zmult_lt_reg_r _ _ (Zpos d)); [lia|]. rewrite <- Hw.
      replace (Z.abs (Zpos p * c - M * w) * 18014398509481984 * Zpos d) with (Z.abs ((Zpos p * Zpos d - Zpos n * w) * c) * 18014398509481984).
      + rewrite Z.abs_mul, (Z.abs_eq c) by lia. nia.
      + replace ((Zpos p * Zpos d - Zpos n * w) * c) with ((Zpos p * c - M * w) * Zpos d) by lia. rewrite Z.abs_mul. lia. }
  assert (Hfirst : 2 * Z.abs ((if hi then lo + 1 else lo) * den - num) <= den).
  { unfold hi. destruct (Z.ltb_spec den (2 * r)); cbn [orb]; [nia|]. destruct (Z.eqb_spec (2 * r) den); cbn [andb]; [|nia]. destruct (Z.odd lo); nia. }
  destruct (Hback _ Hfirst) as (p & -> & Hp). rewrite Hp. cbn. rewrite Pos.eqb_refl, Z.eqb_refl. by eexists.
Qed.

Lemma searchDigits_back n d x fuel : fracOf m e = (n, d) -> decadeOf (Zpos n) (Zpos d) x -> (0 < fuel)%nat ->
  forall digits, 1 <= digits -> digits + Z.of_nat fuel = 18 ->
  exists p k, searchDigits fuel (S754_finite false m e) (Zpos n) (Zpos d) x digits = (Zpos p, k) /\ decimalToFloat false p k = S754_finite false m e /\
    Zpos p <= 10 ^ 17 /\ x - 16 <= k <= x.
Proof.
  intros Ef Hx. induction fuel as [|fuel IH]; intros Hfuel digits Hd1 Hd2; [lia|]. cbn [searchDigits].
  destruct (tryDigits _ _ _ _ digits) as [[D k]|] eqn:Et.
  - pose proof (tryDigits_size _ (Zpos n) (Zpos d) x digits D k ltac:(lia) ltac:(lia) Hx Et) as [Hk HD]. apply tryDigits_back in Et as (p & -> & Hs). apply sameFloat_eq in Hs.
    exists p, k. split; [done|]. split; [done|]. split; [|lia]. etransitivity; [exact HD|]. apply Z.pow_le_mono_r; lia.
  - destruct fuel as [|fuel].
    + exfalso. assert (digits = 17) by lia. subst digits. destruct (tryDigits_17 n d x Ef Hx) as [? H]. congruence.
    + apply IH; lia.
Qed.

(** The search finds a decimal that parses back to the float. *)
Lemma shortestDecimal_back : exists p k, shortestDecimal m e = (Zpos p, k) /\ decimalToFloat false p k = S754_finite false m e /\
  Zpos p <= 10 ^ 17 /\ -420 <= k <= 400.
Proof.
  pose proof fracOf_facts as Hfr. unfold shortestDecimal. destruct (fracOf m e) as [n d] eqn:Ef. destruct Hfr as (_ & H1 & H2).
  destruct (log10Floor_spec (Zpos n) (Zpos d)) as [Hx Hdec]; [lia..|done|done|].
  destruct (searchDigits_back n d _ 17 Ef Hdec ltac:(lia) 1 ltac:(lia) ltac:(lia)) as (p & k & E & Hb & Hp & Hk). exists p, k. split; [done|]. split; [done|]. split; [done|lia].
Qed.
End Shortest.

(** The sign goes through. *)
Lemma decimalToFloat_sign p k : decimalToFloat true p k = fneg (decimalToFloat false p k).
Proof. unfold decimalToFloat. destruct (0 <=? k); apply ratToFloat_sign. Qed.

(** Trailing zeros of the digits do not matter. *)
Lemma decimalToFloat_zeros neg p j q : 0 <= j -> Zpos q = Zpos p * 10 ^ (j + 1) -> decimalToFloat neg q (-1) = decimalToFloat neg p j.
Proof.
  intros Hj Hq. unfold decimalToFloat. rewrite (proj2 (Z.leb_le 0 j)) by done. apply ratToFloat_value. pose proof (pow10_pos j Hj). rewrite Pos2Z.inj_mul, !Z2Pos.id by (done || lia).
  rewrite Hq, Z.pow_add_r by lia. change (10 ^ (- (-1))) with 10. change (10 ^ 1) with 10. ring.
Qed.
