(* ===== verification/Calendar.v ===== *)
(** * The NYSE calendar (src/internal/data/calendar)

    Calendar dates with the arithmetic of package time (the proleptic Gregorian
    calendar), the exchange's holiday and early-close rules, the precomputed table
    of sessions and the queries on it.  The time zone database is not part of the
    repository: a location is a parameter, the lookup the time package makes in
    it. *)

From stdpp Require Import gmap strings list sorting.
From S2P Require Import Prelude Lists Fixed Money Domain.
Set Default Goal Selector "!".
#[local] Open Scope string_scope.
#[local] Open Scope Z_scope.
#[local] Open Scope list_scope.
#[local] Abbreviation length := List.length.

(** ** Days (package time) *)

Definition isLeap (y : Z) : bool := (y mod 4 =? 0) && (negb (y mod 100 =? 0) || (y mod 400 =? 0)).

(** The days before January 1 of year [y], from January 1 of year 1. *)
Definition daysBeforeYear (y : Z) : Z := 365 * (y - 1) + (y - 1) / 4 - (y - 1) / 100 + (y - 1) / 400.

(** The days of a year before its month [m]. *)
Definition daysBeforeMonth (leap : bool) (m : Z) : Z :=
  let l := if leap : bool then 1 else 0 in
  if m <=? 1 then 0 else if m =? 2 then 31 else if m =? 3 then 59 + l else if m =? 4 then 90 + l
  else if m =? 5 then 120 + l else if m =? 6 then 151 + l else if m =? 7 then 181 + l else if m =? 8 then 212 + l
  else if m =? 9 then 243 + l else if m =? 10 then 273 + l else if m =? 11 then 304 + l else if m =? 12 then 334 + l
  else 365 + l.

Definition daysIn (y m : Z) : Z := daysBeforeMonth (isLeap y) (m + 1) - daysBeforeMonth (isLeap y) m.

(** [time.Date] at midnight UTC: a month outside 1..12 carries into the year. *)
Definition dayNumber (y m d : Z) : Z :=
  let y' := y + (m - 1) / 12 in
  let m' := (m - 1) mod 12 + 1 in
  daysBeforeYear y' + daysBeforeMonth (isLeap y') m' + (d - 1).

Record Date : Set := mkDate { d_Year : Z; d_Month : Z; d_Day : Z }.

#[export] Instance Date_eq_dec : EqDecision Date.
Proof. solve_decision. Defined.

#[export] Instance Date_countable : Countable Date.
Proof.
  apply (inj_countable' (fun d => (d_Year d, d_Month d, d_Day d)) (fun '(y, m, d) => mkDate y m d)). by intros [].
Defined.

Fixpoint monthOf (leap : bool) (yday : Z) (m : nat) : Z :=
  match m with
  | O => 1
  | S m' => if daysBeforeMonth leap (Z.of_nat m) <=? yday then Z.of_nat m else monthOf leap yday m'
  end.

(** The year, month and day of a day number: 400-, 100-, 4- and 1-year cycles. *)
Definition civil (n : Z) : Date :=
  let n400 := n / 146097 in
  let r := n mod 146097 in
  let n100 := Z.min (r / 36524) 3 in
  let r := r - n100 * 36524 in
  let n4 := r / 1461 in
  let r := r - n4 * 1461 in
  let n1 := Z.min (r / 365) 3 in
  let yday := r - n1 * 365 in
  let y := 400 * n400 + 100 * n100 + 4 * n4 + n1 + 1 in
  let m := monthOf (isLeap y) yday 12 in
  mkDate y m (yday - daysBeforeMonth (isLeap y) m + 1).

(** ** date.go *)

Definition NewDate (y m d : Z) : Date := civil (dayNumber y m d).
Definition dayOf (d : Date) : Z := dayNumber (d_Year d) (d_Month d) (d_Day d).

(** Sunday is 0; January 1 of year 1 was a Monday. *)
Definition Weekday (d : Date) : Z := (dayOf d + 1) mod 7.

Definition AddDays (n : Z) (d : Date) : Date := civil (dayNumber (d_Year d) (d_Month d) (d_Day d + n)).

Definition cmpInt (a b : Z) : Z := if a <? b then -1 else if b <? a then 1 else 0.

Definition DateCompare (d o : Date) : Z :=
  if negb (d_Year d =? d_Year o) then cmpInt (d_Year d) (d_Year o)
  else if negb (d_Month d =? d_Month o) then cmpInt (d_Month d) (d_Month o)
  else cmpInt (d_Day d) (d_Day o).

Definition DateBefore (d o : Date) : bool := DateCompare d o <? 0.
Definition DateAfter (d o : Date) : bool := 0 <? DateCompare d o.

Definition Date_IsZero (d : Date) : bool := (d_Year d =? 0) && (d_Month d =? 0) && (d_Day d =? 0).

Definition validDate (d : Date) : bool :=
  (1 <=? d_Month d) && (d_Month d <=? 12) && (1 <=? d_Day d) && (d_Day d <=? daysIn (d_Year d) (d_Month d)).

(** *** Day numbers and dates are inverse *)

Lemma yearLen y : daysBeforeYear (y + 1) - daysBeforeYear y = 365 + (if isLeap y then 1 else 0).
Proof.
  unfold daysBeforeYear, isLeap.
  destruct (Z.eqb_spec (y mod 4) 0), (Z.eqb_spec (y mod 100) 0), (Z.eqb_spec (y mod 400) 0); cbn [andb orb negb];
    Z.to_euclidean_division_equations; lia.
Qed.

Lemma daysBeforeYear_mono y1 y2 : y1 <= y2 -> daysBeforeYear y1 <= daysBeforeYear y2.
Proof. intros H. unfold daysBeforeYear. Z.to_euclidean_division_equations. lia. Qed.

(** The month of a day of the year, checked on the 366 days of both years. *)
Definition goodDay (leap : bool) (yday : Z) : bool :=
  let m := monthOf leap yday 12 in
  (1 <=? m) && (m <=? 12) && (daysBeforeMonth leap m <=? yday) && (yday <? daysBeforeMonth leap (m + 1)).

Lemma monthOf_good leap yday :
  0 <= yday < 365 + (if leap : bool then 1 else 0) -> goodDay leap yday = true.
Proof.
  intros H. assert (Hall : forallb (fun k => goodDay leap (Z.of_nat k)) (seq 0 (365 + (if leap then 1 else 0))) = true)
    by (by destruct leap; vm_compute).
  rewrite forallb_forall in Hall. specialize (Hall (Z.to_nat yday)). rewrite Z2Nat.id in Hall by lia. apply Hall.
  apply in_seq. destruct leap; lia.
Qed.

Lemma civil_year n :
  let d := civil n in
  let yday := n - daysBeforeYear (d_Year d) in
  0 <= yday < 365 + (if isLeap (d_Year d) then 1 else 0) /\
  d_Month d = monthOf (isLeap (d_Year d)) yday 12 /\ d_Day d = yday - daysBeforeMonth (isLeap (d_Year d)) (d_Month d) + 1.
Proof.
  unfold civil. cbn [d_Year d_Month d_Day].
  pose proof (Z.div_mod n 146097 ltac:(lia)) as E. pose proof (Z.mod_pos_bound n 146097 ltac:(lia)) as B.
  set (q := n / 146097) in *. set (r := n mod 146097) in *. set (a := Z.min (r / 36524) 3).
  assert (Ha : 0 <= a <= 3 /\ 0 <= r - a * 36524 <= 36524 /\ (r - a * 36524 = 36524 -> a = 3))
    by (unfold a; Z.to_euclidean_division_equations; lia).
  set (r1 := r - a * 36524) in *. set (b := r1 / 1461).
  assert (Hb : 0 <= b <= 24 /\ 0 <= r1 - b * 1461 <= 1460) by (unfold b; Z.to_euclidean_division_equations; lia).
  set (r2 := r1 - b * 1461) in *. set (c := Z.min (r2 / 365) 3).
  assert (Hc : 0 <= c <= 3 /\ 0 <= r2 - c * 365 <= 365 /\ (r2 - c * 365 = 365 -> c = 3))
    by (unfold c; Z.to_euclidean_division_equations; lia).
  set (y := 400 * q + 100 * a + 4 * b + c + 1).
  assert (Hd : daysBeforeYear y = 146097 * q + 36524 * a + 1461 * b + 365 * c)
    by (unfold daysBeforeYear, y; Z.to_euclidean_division_equations; lia).
  assert (Hy : n - daysBeforeYear y = r2 - c * 365) by (unfold r2, r1; lia).
  rewrite Hy. split; [|done]. destruct (decide (r2 - c * 365 = 365)) as [E2|]; [|destruct (isLeap y); lia].
  assert (Hl : isLeap y = true); [|rewrite Hl; lia].
  assert (c = 3) by tauto. assert (b = 24 -> a = 3) by (unfold r2 in *; lia). unfold isLeap, y.
  apply andb_true_iff. split; [apply Z.eqb_eq; Z.to_euclidean_division_equations; lia|]. apply orb_true_iff.
  destruct (decide (b = 24)); [right; apply Z.eqb_eq|left; apply negb_true_iff, Z.eqb_neq]; Z.to_euclidean_division_equations; lia.
Qed.

Lemma dayNumber_norm y m d : 1 <= m <= 12 -> dayNumber y m d = daysBeforeYear y + daysBeforeMonth (isLeap y) m + (d - 1).
Proof.
  intros H. unfold dayNumber. rewrite (Z.div_small (m - 1) 12) by lia. rewrite (Z.mod_small (m - 1) 12) by lia.
  replace (y + 0) with y by lia. replace (m - 1 + 1) with m by lia. done.
Qed.

Lemma civil_month n : let d := civil n in 1 <= d_Month d <= 12 /\
  daysBeforeMonth (isLeap (d_Year d)) (d_Month d) <= n - daysBeforeYear (d_Year d) < daysBeforeMonth (isLeap (d_Year d)) (d_Month d + 1).
Proof.
  cbv zeta. destruct (civil_year n) as (Hy & Hm & _). rewrite Hm. pose proof (monthOf_good _ _ Hy) as G. unfold goodDay in G. lia.
Qed.

Lemma dayOf_civil n : dayOf (civil n) = n.
Proof.
  destruct (civil_month n) as [Hm _]. destruct (civil_year n) as (_ & _ & Hd). unfold dayOf. rewrite dayNumber_norm by done. lia.
Qed.

Lemma validDate_civil n : validDate (civil n) = true.
Proof.
  destruct (civil_month n) as [Hm Hb]. destruct (civil_year n) as (_ & _ & Hd). unfold validDate, daysIn. rewrite Hd. lia.
Qed.

Lemma daysBeforeMonth_mono leap m1 m2 : m1 <= m2 -> daysBeforeMonth leap m1 <= daysBeforeMonth leap m2.
Proof. intros H. unfold daysBeforeMonth. destruct leap; repeat case_match; lia. Qed.

Lemma valid_bounds d : validDate d = true ->
  1 <= d_Month d <= 12 /\ dayOf d = daysBeforeYear (d_Year d) + daysBeforeMonth (isLeap (d_Year d)) (d_Month d) + (d_Day d - 1) /\
  1 <= d_Day d <= daysBeforeMonth (isLeap (d_Year d)) (d_Month d + 1) - daysBeforeMonth (isLeap (d_Year d)) (d_Month d).
Proof. unfold validDate, daysIn. intros H. assert (1 <= d_Month d <= 12) by lia. split; [done|]. split; [|lia]. by apply dayNumber_norm. Qed.

Lemma dayOf_lt d o : validDate d = true -> validDate o = true -> DateBefore d o = true -> dayOf d < dayOf o.
Proof.
  intros (Hm1 & -> & Hd1)%valid_bounds (Hm2 & -> & Hd2)%valid_bounds. unfold DateBefore, DateCompare, cmpInt.
  destruct (Z.eqb_spec (d_Year d) (d_Year o)) as [E|E]; cbn [negb].
  - rewrite E in *. destruct (Z.eqb_spec (d_Month d) (d_Month o)) as [E2|E2]; cbn [negb].
    + rewrite E2 in *. intros H. repeat case_match; lia.
    + intros H. assert (Hlt : d_Month d + 1 <= d_Month o) by (repeat case_match; lia).
      pose proof (daysBeforeMonth_mono (isLeap (d_Year o)) _ _ Hlt). lia.
  - intros H. assert (Hlt : d_Year d + 1 <= d_Year o) by (repeat case_match; lia).
    pose proof (daysBeforeYear_mono _ _ Hlt). pose proof (yearLen (d_Year d)) as Hl.
    pose proof (daysBeforeMonth_mono (isLeap (d_Year d)) (d_Month d + 1) 13 ltac:(lia)) as H13.
    pose proof (daysBeforeMonth_mono (isLeap (d_Year o)) 1 (d_Month o) ltac:(lia)) as H1.
    change (daysBeforeMonth (isLeap (d_Year o)) 1) with 0 in H1.
    assert (daysBeforeMonth (isLeap (d_Year d)) 13 = 365 + (if isLeap (d_Year d) then 1 else 0)) by (by destruct (isLeap (d_Year d))).
    lia.
Qed.

Lemma DateCompare_refl d : DateCompare d d = 0.
Proof. unfold DateCompare, cmpInt. by rewrite !Z.eqb_refl, !Z.ltb_irrefl. Qed.

Lemma DateCompare_eq d o : DateCompare d o = 0 -> d = o.
Proof.
  destruct d as [y m d], o as [y' m' d']. unfold DateCompare, cmpInt. cbn [d_Year d_Month d_Day].
  destruct (Z.eqb_spec y y'), (Z.eqb_spec m m'); cbn [negb]; intros H; repeat case_match; try lia. f_equal; lia.
Qed.

Lemma DateCompare_opp d o : DateCompare o d = - DateCompare d o.
Proof.
  unfold DateCompare, cmpInt. rewrite (Z.eqb_sym (d_Year o)), (Z.eqb_sym (d_Month o)).
  destruct (d_Year d =? d_Year o) eqn:E1, (d_Month d =? d_Month o) eqn:E2; cbn [negb]; repeat case_match; lia.
Qed.

(** The order of dates is the order of their day numbers. *)
Lemma DateBefore_iff d o : validDate d = true -> validDate o = true -> DateBefore d o = (dayOf d <? dayOf o).
Proof.
  intros Hd Ho. destruct (DateBefore d o) eqn:E; [symmetry; apply Z.ltb_lt; by apply dayOf_lt|]. symmetry. apply Z.ltb_ge.
  unfold DateBefore in E. destruct (decide (DateCompare d o = 0)) as [->%DateCompare_eq|Hne]; [lia|].
  apply Z.lt_le_incl, dayOf_lt; try done. unfold DateBefore. rewrite DateCompare_opp. lia.
Qed.

Lemma DateAfter_iff d o : validDate d = true -> validDate o = true -> DateAfter d o = (dayOf o <? dayOf d).
Proof. intros Hd Ho. rewrite <- (DateBefore_iff o d) by done. unfold DateAfter, DateBefore. rewrite DateCompare_opp. lia. Qed.

Lemma dayOf_inj d o : validDate d = true -> validDate o = true -> dayOf d = dayOf o -> d = o.
Proof.
  intros Hd Ho E. apply DateCompare_eq. pose proof (DateBefore_iff d o Hd Ho) as H1. pose proof (DateAfter_iff d o Hd Ho) as H2.
  unfold DateBefore, DateAfter in *. lia.
Qed.

Lemma civil_dayOf d : validDate d = true -> civil (dayOf d) = d.
Proof. intros H. apply dayOf_inj; [apply validDate_civil|done|apply dayOf_civil]. Qed.

Lemma dayOf_AddDays n d : dayOf (AddDays n d) = dayOf d + n.
Proof. unfold AddDays. rewrite dayOf_civil. unfold dayOf, dayNumber. lia. Qed.

Lemma validDate_AddDays n d : validDate (AddDays n d) = true.
Proof. apply validDate_civil. Qed.

(** ** Instants in a location (package time) *)

(** What [Location.lookup] answers for an instant in Unix seconds: the offset in
    force, and the half-open interval of instants it is in force for. *)
Record Location : Type := mkLocation { loc_lookup : Z -> Z * Z * Z }.

Definition UTCLocation : Location := mkLocation (fun _ => (0, - 2 ^ 62, 2 ^ 62)).

(** The day number of January 1, 1970. *)
Definition unixDay : Z := 719162.

(** [time.Date]: the wall clock in seconds, corrected by the offset found there, or
    by the offset of the corrected instant when the first does not cover it. *)
Definition dateIn (loc : Location) (y m d hour minute : Z) : time :=
  let unix := (dayNumber y m d - unixDay) * 86400 + hour * 3600 + minute * 60 in
  let '(offset, start, stop) := loc_lookup loc unix in
  let unix :=
    if negb (offset =? 0) then
      let utc := unix - offset in
      let offset := if (utc <? start) || (stop <=? utc) then (loc_lookup loc utc).1.1 else offset in
      unix - offset
    else unix in
  mkTime (unix * 1000000000) 0.

(** [t.In(loc).Date()] *)
Definition DateOf (loc : Location) (t : time) : Date :=
  let sec := t_ns t / 1000000000 in
  civil ((sec + (loc_lookup loc sec).1.1) / 86400 + unixDay).

(** ** Text (date.go) *)

(** [%0wd] of a number that is not negative. *)
Definition padZero (w : nat) (n : Z) : list ascii :=
  let s := formatInt n in repeat "0"%char (w - length s) ++ s.

Definition DateString (d : Date) : list ascii :=
  padZero 4 (d_Year d) ++ ["-"%char] ++ padZero 2 (d_Month d) ++ ["-"%char] ++ padZero 2 (d_Day d).

Definition digitVal (c : ascii) : option Z :=
  let n := Z.of_nat (nat_of_ascii c) - 48 in if (0 <=? n) && (n <=? 9) then Some n else None.

Fixpoint digitsVal (acc : Z) (s : list ascii) : option Z :=
  match s with
  | [] => Some acc
  | c :: s => match digitVal c with Some n => digitsVal (acc * 10 + n) s | None => None end
  end.

(** [time.Parse(time.DateOnly, s)]: four, two and two digits, and a real date. *)
Definition ParseDate (s : list ascii) : res Date :=
  match s with
  | [y1; y2; y3; y4; s1; m1; m2; s2; d1; d2] =>
      match digitsVal 0 [y1; y2; y3; y4], digitsVal 0 [m1; m2], digitsVal 0 [d1; d2] with
      | Some y, Some m, Some d =>
          if Ascii.eqb s1 "-"%char && Ascii.eqb s2 "-"%char && validDate (mkDate y m d) then Ok (mkDate y m d) else Err ErrInvalidArgument
      | _, _, _ => Err ErrInvalidArgument
      end
  | _ => Err ErrInvalidArgument
  end.

(** ** nyse.go *)

Definition Sunday : Z := 0.
Definition Monday : Z := 1.
Definition Tuesday : Z := 2.
Definition Wednesday : Z := 3.
Definition Thursday : Z := 4.
Definition Friday : Z := 5.
Definition Saturday : Z := 6.

Definition mlkFirstYear : Z := 1998.
Definition juneteenthFirstYear : Z := 2022.
Definition july3WednesdayEarlyCloseFirstYear : Z := 2013.
Definition july5FridayEarlyCloseLastYear : Z := 2012.
Definition july5FridayEarlyCloseFirstYear : Z := 1996.

Definition specialClosures : gmap Date string :=
  list_to_map [
    (NewDate 2001 9 11, "September 11 attacks"); (NewDate 2001 9 12, "September 11 attacks");
    (NewDate 2001 9 13, "September 11 attacks"); (NewDate 2001 9 14, "September 11 attacks");
    (NewDate 2004 6 11, "Day of mourning for President Ronald Reagan");
    (NewDate 2007 1 2, "Day of mourning for President Gerald Ford");
    (NewDate 2012 10 29, "Hurricane Sandy"); (NewDate 2012 10 30, "Hurricane Sandy");
    (NewDate 2018 12 5, "Day of mourning for President George H.W. Bush");
    (NewDate 2025 1 9, "Day of mourning for President Jimmy Carter")].

Definition adHocEarlyCloses : gmap Date string := list_to_map [(NewDate 2003 12 26, "Day after Christmas 2003")].

(** Go's division and remainder truncate; years are positive here. *)
Definition easterSunday (year : Z) : Date :=
  let a := Z.rem year 19 in
  let b := Z.quot year 100 in
  let c := Z.rem year 100 in
  let d := Z.quot b 4 in
  let e := Z.rem b 4 in
  let f := Z.quot (b + 8) 25 in
  let g := Z.quot (b - f + 1) 3 in
  let h := Z.rem (19 * a + b - d - g + 15) 30 in
  let i := Z.quot c 4 in
  let k := Z.rem c 4 in
  let l := Z.rem (32 + 2 * e + 2 * i - h - k) 7 in
  let m := Z.quot (a + 11 * h + 22 * l) 451 in
  let month := Z.quot (h + l - 7 * m + 114) 31 in
  let day := Z.rem (h + l - 7 * m + 114) 31 + 1 in
  NewDate year month day.

Definition nthWeekday (year month wd n : Z) : Date :=
  let first := NewDate year month 1 in
  let offset := Z.rem (wd - Weekday first + 7) 7 in
  AddDays (offset + (n - 1) * 7) first.

Definition lastWeekday (year month wd : Z) : Date :=
  let last := AddDays (-1) (NewDate year (month + 1) 1) in
  let offset := Z.rem (Weekday last - wd + 7) 7 in
  AddDays (- offset) last.

Definition observedSatFriSunMon (d : Date) : Date :=
  if Weekday d =? Saturday then AddDays (-1) d else if Weekday d =? Sunday then AddDays 1 d else d.

Definition nyseHolidaysForYear (year : Z) : gmap Date string :=
  let h : gmap Date string := ∅ in
  let newYear := NewDate year 1 1 in
  let h := if Weekday newYear =? Sunday then <[AddDays 1 newYear := "New Year's Day (observed)"]> h
           else if Weekday newYear =? Saturday then h
           else <[newYear := "New Year's Day"]> h in
  let h := if mlkFirstYear <=? year then <[nthWeekday year 1 Monday 3 := "Martin Luther King Jr. Day"]> h else h in
  let h := <[nthWeekday year 2 Monday 3 := "Washington's Birthday"]> h in
  let h := <[AddDays (-2) (easterSunday year) := "Good Friday"]> h in
  let h := <[lastWeekday year 5 Monday := "Memorial Day"]> h in
  let h := if juneteenthFirstYear <=? year
           then <[observedSatFriSunMon (NewDate year 6 19) := "Juneteenth National Independence Day"]> h else h in
  let h := <[observedSatFriSunMon (NewDate year 7 4) := "Independence Day"]> h in
  let h := <[nthWeekday year 9 Monday 1 := "Labor Day"]> h in
  let h := <[nthWeekday year 11 Thursday 4 := "Thanksgiving Day"]> h in
  <[observedSatFriSunMon (NewDate year 12 25) := "Christmas Day"]> h.

Definition nyseEarlyClose (d : Date) : option string :=
  match adHocEarlyCloses !! d with
  | Some reason => Some reason
  | None =>
      let wd := Weekday d in
      if ((d_Month d =? 11) || (d_Month d =? 12)) && bool_decide (d = AddDays 1 (nthWeekday (d_Year d) 11 Thursday 4))
      then Some "Day after Thanksgiving"
      else if (d_Month d =? 12) && (d_Day d =? 24) && (Monday <=? wd) && (wd <=? Thursday) then Some "Christmas Eve"
      else if (d_Month d =? 7) && (d_Day d =? 3) &&
              ((wd =? Monday) || (wd =? Tuesday) || (wd =? Thursday) ||
               ((wd =? Wednesday) && (july3WednesdayEarlyCloseFirstYear <=? d_Year d)))
      then Some "Day before Independence Day"
      else if (d_Month d =? 7) && (d_Day d =? 5) && (wd =? Friday) && (july5FridayEarlyCloseFirstYear <=? d_Year d)
              && (d_Year d <=? july5FridayEarlyCloseLastYear)
      then Some "Day after Independence Day"
      else None
  end.

(** ** calendar.go *)

Definition MinYear : Z := 2000.
Definition MaxYear : Z := 2030.

Definition ErrOutOfRange : error := ErrOther "calendar: date outside supported range".
Definition ErrNotTradingDay : error := ErrOther "calendar: not a trading day".
Definition ErrNoSession : error := ErrOther "calendar: no session in supported range".

Record TradingSession : Set := mkTradingSession {
  ss_Date : Date;
  ss_Open : time;
  ss_Close : time;
  ss_EarlyClose : bool
}.

Record Calendar : Type := mkCalendar {
  cal_loc : Location;
  cal_minDate : Date;
  cal_maxDate : Date;
  cal_sessions : list TradingSession;
  cal_byDate : gmap Date nat;
  cal_closures : gmap Date string
}.

Definition sessionFor (loc : Location) (d : Date) : TradingSession :=
  let early := match nyseEarlyClose d with Some _ => true | None => false end in
  let ch := if early then 13 else 16 in
  mkTradingSession d (dateIn loc (d_Year d) (d_Month d) (d_Day d) 9 30) (dateIn loc (d_Year d) (d_Month d) (d_Day d) ch 0) early.

(** The body of the inner loop. *)
Definition addDay (holidays : gmap Date string) (c : Calendar) (d : Date) : Calendar :=
  if (Weekday d =? Saturday) || (Weekday d =? Sunday) then c
  else match holidays !! d with
       | Some name => mkCalendar (cal_loc c) (cal_minDate c) (cal_maxDate c) (cal_sessions c) (cal_byDate c) (<[d := name]> (cal_closures c))
       | None =>
           match specialClosures !! d with
           | Some name => mkCalendar (cal_loc c) (cal_minDate c) (cal_maxDate c) (cal_sessions c) (cal_byDate c) (<[d := name]> (cal_closures c))
           | None => mkCalendar (cal_loc c) (cal_minDate c) (cal_maxDate c) (cal_sessions c ++ [sessionFor (cal_loc c) d])
                       (<[d := length (cal_sessions c)]> (cal_byDate c)) (cal_closures c)
           end
       end.

(** [for d := start; !d.After(end); d = d.AddDays(1)]; a year has at most 366 days. *)
Fixpoint dayLoop (fuel : nat) (holidays : gmap Date string) (last d : Date) (c : Calendar) : Calendar :=
  match fuel with
  | O => c
  | S fuel => if DateAfter d last then c else dayLoop fuel holidays last (AddDays 1 d) (addDay holidays c d)
  end.

Definition addYear (c : Calendar) (year : Z) : Calendar :=
  dayLoop 367 (nyseHolidaysForYear year) (NewDate year 12 31) (NewDate year 1 1) c.

Definition years : list Z := seqZ MinYear (MaxYear - MinYear + 1).

Definition NewNYSE (loc : Location) : Calendar :=
  foldl addYear (mkCalendar loc (NewDate MinYear 1 1) (NewDate MaxYear 12 31) [] ∅ ∅) years.

Section Queries.
Context (c : Calendar).

Definition checkRange (d : Date) : res unit :=
  if DateBefore d (cal_minDate c) || DateAfter d (cal_maxDate c) then Err ErrOutOfRange else Ok tt.

Definition IsTradingDay (d : Date) : res bool :=
  _ <-? checkRange d ;; Ok (match cal_byDate c !! d with Some _ => true | None => false end).

(** [c.sessions[i]]; the indices kept in [byDate] are in range. *)
Definition sessionAt (i : nat) : res TradingSession := of_checked (cal_sessions c !! i) (ErrOther "index out of range").

Definition IsEarlyClose (d : Date) : res bool :=
  _ <-? checkRange d ;;
  match cal_byDate c !! d with
  | None => Ok false
  | Some i => s <-? sessionAt i ;; Ok (ss_EarlyClose s)
  end.

Definition HolidayName (d : Date) : option string := cal_closures c !! d.

Definition SessionOn (d : Date) : res TradingSession :=
  _ <-? checkRange d ;;
  match cal_byDate c !! d with None => Err ErrNotTradingDay | Some i => sessionAt i end.

(** The binary search; the fuel is more than the halvings of any table. *)
Fixpoint searchLoop (fuel : nat) (d : Date) (lo hi : nat) : nat :=
  match fuel with
  | O => lo
  | S fuel =>
      if (lo <? hi)%nat then
        let mid := Nat.div2 (lo + hi) in
        match cal_sessions c !! mid with
        | Some s => if DateBefore (ss_Date s) d then searchLoop fuel d (S mid) hi else searchLoop fuel d lo mid
        | None => lo
        end
      else lo
  end.

Definition searchFrom (d : Date) : nat := searchLoop (S (length (cal_sessions c))) d 0 (length (cal_sessions c)).

Definition NextSession (d : Date) : res TradingSession :=
  _ <-? checkRange d ;;
  of_checked (cal_sessions c !! searchFrom (AddDays 1 d)) ErrNoSession.

Definition PrevSession (d : Date) : res TradingSession :=
  _ <-? checkRange d ;;
  match searchFrom d with O => Err ErrNoSession | S i => sessionAt i end.

Definition SessionsInRange (start stop : Date) : res (list TradingSession) :=
  _ <-? checkRange start ;;
  _ <-? checkRange stop ;;
  if DateAfter start stop then Ok []
  else
    let lo := searchFrom start in
    let hi := searchFrom (AddDays 1 stop) in
    Ok (firstn (hi - lo) (skipn lo (cal_sessions c))).

Definition SessionAt (t : time) : res (option TradingSession) :=
  let d := DateOf (cal_loc c) t in
  _ <-? checkRange d ;;
  match cal_byDate c !! d with None => Ok None | Some i => s <-? sessionAt i ;; Ok (Some s) end.
End Queries.

(** ** The table of sessions is the list of trading days *)

(** A trading day by the rules: a weekday that no rule and no closure takes out. *)
Definition isTradingDate (d : Date) : bool :=
  negb ((Weekday d =? Saturday) || (Weekday d =? Sunday)) &&
  match nyseHolidaysForYear (d_Year d) !! d, specialClosures !! d with None, None => true | _, _ => false end.

Definition inRange (d : Date) : Prop := MinYear <= d_Year d <= MaxYear.

Definition dateLt (d o : Date) : Prop := dayOf d < dayOf o.

(** The days numbered [a], [a + 1], ... *)
Definition daysFrom (a : Z) (k : nat) : list Date := map civil (seqZ a (Z.of_nat k)).

Lemma daysFrom_cons a k : daysFrom a (S k) = civil a :: daysFrom (a + 1) k.
Proof. unfold daysFrom. rewrite seqZ_cons by lia. cbn. do 3 f_equal; lia. Qed.

Lemma daysFrom_app a j k : daysFrom a (j + k) = daysFrom a j ++ daysFrom (a + Z.of_nat j) k.
Proof. unfold daysFrom. rewrite <- map_app. f_equal. rewrite Nat2Z.inj_add. by rewrite seqZ_app by lia. Qed.

Lemma daysFrom_in a k d : In d (daysFrom a k) <-> exists n, a <= n < a + Z.of_nat k /\ d = civil n.
Proof.
  unfold daysFrom. rewrite in_map_iff. split.
  - intros (n & <- & Hn). apply list_elem_of_In, elem_of_seqZ in Hn. by exists n.
  - intros (n & Hn & ->). exists n. split; [done|]. by apply list_elem_of_In, elem_of_seqZ.
Qed.

Lemma daysFrom_sorted k : forall a, StronglySorted dateLt (daysFrom a k).
Proof.
  induction k as [|k IH]; intros a; [constructor|]. rewrite daysFrom_cons. constructor; [apply IH|].
  apply List.Forall_forall. intros d (n & Hn & ->)%daysFrom_in. unfold dateLt. rewrite !dayOf_civil. lia.
Qed.

Lemma jan1 y : dayNumber y 1 1 = daysBeforeYear y.
Proof. rewrite dayNumber_norm by lia. cbn. lia. Qed.

Lemma dec31 y : dayNumber y 12 31 = daysBeforeYear (y + 1) - 1.
Proof. rewrite dayNumber_norm by lia. pose proof (yearLen y). unfold daysBeforeMonth. cbn. destruct (isLeap y); lia. Qed.

Lemma civil_inYear y n : daysBeforeYear y <= n < daysBeforeYear (y + 1) -> d_Year (civil n) = y.
Proof.
  intros H. destruct (civil_year n) as (Hy & _). pose proof (yearLen (d_Year (civil n))) as Hl.
  destruct (Z.lt_trichotomy (d_Year (civil n)) y) as [Hc|[Hc|Hc]]; [|done|].
  - pose proof (daysBeforeYear_mono (d_Year (civil n) + 1) y ltac:(lia)). lia.
  - pose proof (daysBeforeYear_mono (y + 1) (d_Year (civil n)) ltac:(lia)). lia.
Qed.

(** Every day is added under the rules of its own year. *)
Definition addDate (c : Calendar) (d : Date) : Calendar := addDay (nyseHolidaysForYear (d_Year d)) c d.

Lemma dayLoop_run hs last fuel : forall n c,
  validDate last = true -> n <= dayOf last + 1 -> dayOf last + 1 - n <= Z.of_nat fuel ->
  dayLoop (S fuel) hs last (civil n) c = foldl (addDay hs) c (daysFrom n (Z.to_nat (dayOf last + 1 - n))).
Proof.
  induction fuel as [|fuel IH]; intros n c Hv Hn Hf; cbn [dayLoop].
  - replace (Z.to_nat (dayOf last + 1 - n)) with 0%nat by lia. rewrite DateAfter_iff, dayOf_civil by (done || apply validDate_civil).
    replace (dayOf last <? n) with true by lia. done.
  - rewrite DateAfter_iff, dayOf_civil by (done || apply validDate_civil). destruct (Z.ltb_spec (dayOf last) n) as [H|H].
    + by replace (Z.to_nat (dayOf last + 1 - n)) with 0%nat by lia.
    + replace (Z.to_nat (dayOf last + 1 - n)) with (S (Z.to_nat (dayOf last + 1 - (n + 1)))) by lia. rewrite daysFrom_cons. cbn [foldl].
      replace (AddDays 1 (civil n)) with (civil (n + 1)); [apply IH; lia || done|].
      apply dayOf_inj; try apply validDate_civil. by rewrite dayOf_AddDays, !dayOf_civil.
Qed.

Definition yearDays (y : Z) : list Date := daysFrom (daysBeforeYear y) (Z.to_nat (daysBeforeYear (y + 1) - daysBeforeYear y)).

Lemma addYear_run c y : addYear c y = foldl addDate c (yearDays y).
Proof.
  pose proof (yearLen y) as Hl. unfold addYear, NewDate. rewrite jan1, dec31.
  rewrite dayLoop_run; rewrite ?dayOf_civil; [|apply validDate_civil|destruct (isLeap y); lia|destruct (isLeap y); lia].
  replace (daysBeforeYear (y + 1) - 1 + 1 - daysBeforeYear y) with (daysBeforeYear (y + 1) - daysBeforeYear y) by lia.
  fold (yearDays y). assert (Hy : Forall (fun d => d_Year d = y) (yearDays y)).
  { apply List.Forall_forall. intros d (n & Hn & ->)%daysFrom_in. apply civil_inYear. lia. }
  revert c. induction Hy as [|d l Hd _ IH]; intros c; [done|]. cbn [foldl]. rewrite IH. f_equal. unfold addDate. by rewrite Hd.
Qed.

Lemma yearDays_app y k : List.concat (map yearDays (seqZ y (Z.of_nat k))) =
  daysFrom (daysBeforeYear y) (Z.to_nat (daysBeforeYear (y + Z.of_nat k) - daysBeforeYear y)).
Proof.
  revert y. induction k as [|k IH]; intros y; [cbn; by rewrite Z.add_0_r, Z.sub_diag|].
  rewrite seqZ_cons by lia. cbn [map List.concat]. replace (Z.pred (Z.of_nat (S k))) with (Z.of_nat k) by lia.
  replace (Z.succ y) with (y + 1) by lia. rewrite IH. unfold yearDays.
  pose proof (daysBeforeYear_mono y (y + 1) ltac:(lia)). pose proof (daysBeforeYear_mono (y + 1) (y + 1 + Z.of_nat k) ltac:(lia)).
  replace (y + Z.of_nat (S k)) with (y + 1 + Z.of_nat k) by lia.
  set (a := daysBeforeYear y) in *. set (b := daysBeforeYear (y + 1)) in *. set (e := daysBeforeYear (y + 1 + Z.of_nat k)) in *.
  replace (Z.to_nat (e - a)) with (Z.to_nat (b - a) + Z.to_nat (e - b))%nat by lia.
  rewrite daysFrom_app. do 2 f_equal. lia.
Qed.

(** The days of the supported range. *)
Definition allDates : list Date :=
  daysFrom (daysBeforeYear MinYear) (Z.to_nat (daysBeforeYear (MaxYear + 1) - daysBeforeYear MinYear)).

Definition emptyCalendar (loc : Location) : Calendar := mkCalendar loc (NewDate MinYear 1 1) (NewDate MaxYear 12 31) [] ∅ ∅.

Lemma NewNYSE_run loc : NewNYSE loc = foldl addDate (emptyCalendar loc) allDates.
Proof.
  unfold NewNYSE, years. fold (emptyCalendar loc). generalize (emptyCalendar loc) as c.
  assert (E : allDates = List.concat (map yearDays (seqZ MinYear (MaxYear - MinYear + 1))))
    by (change (MaxYear - MinYear + 1) with (Z.of_nat 31); unfold allDates; rewrite yearDays_app; f_equal).
  rewrite E. clear E. induction (seqZ MinYear (MaxYear - MinYear + 1)) as [|y l IH]; intros c; [done|].
  cbn [foldl map List.concat]. by rewrite foldl_app, IH, addYear_run.
Qed.

(** The index agrees with the table. *)
Definition tableOk (c : Calendar) : Prop :=
  forall d i, cal_byDate c !! d = Some i <-> exists s, cal_sessions c !! i = Some s /\ ss_Date s = d.

Lemma addDate_run c d :
  tableOk c -> (forall s, s ∈ cal_sessions c -> dateLt (ss_Date s) d) ->
  tableOk (addDate c d) /\ cal_loc (addDate c d) = cal_loc c /\
  cal_minDate (addDate c d) = cal_minDate c /\ cal_maxDate (addDate c d) = cal_maxDate c /\
  cal_sessions (addDate c d) = cal_sessions c ++ (if isTradingDate d then [sessionFor (cal_loc c) d] else []).
Proof.
  intros Ht Hlt. unfold addDate, addDay, isTradingDate. destruct (_ || _); cbn [negb andb]; [by rewrite app_nil_r|].
  destruct (nyseHolidaysForYear (d_Year d) !! d); [by rewrite app_nil_r|].
  destruct (specialClosures !! d); [by rewrite app_nil_r|]. splits; try done. intros d' i. cbn [cal_byDate cal_sessions].
  destruct (decide (d' = d)) as [->|Hne].
  - rewrite lookup_insert_eq. split.
    + intros [= <-]. eexists. rewrite lookup_app_r by done. rewrite Nat.sub_diag. by split.
    + intros (s & Hs & Hd). f_equal. apply lookup_app_Some in Hs as [Hs|[Hl Hs]].
      * apply list_elem_of_lookup_2 in Hs. apply Hlt in Hs. unfold dateLt in Hs. rewrite Hd in Hs. lia.
      * apply list_lookup_singleton_Some in Hs as [Hz _]. lia.
  - rewrite lookup_insert_ne by done. rewrite (Ht d' i). split.
    + intros (s & Hs & Hd). exists s. split; [by apply lookup_app_l_Some|done].
    + intros (s & Hs & Hd). exists s. split; [|done]. apply lookup_app_Some in Hs as [Hs|[Hl Hs]]; [done|].
      apply list_lookup_singleton_Some in Hs as [_ <-]. done.
Qed.

Lemma addDates_run ds : forall c, tableOk c -> (forall s d, s ∈ cal_sessions c -> In d ds -> dateLt (ss_Date s) d) ->
  StronglySorted dateLt ds ->
  tableOk (foldl addDate c ds) /\ cal_loc (foldl addDate c ds) = cal_loc c /\
  cal_minDate (foldl addDate c ds) = cal_minDate c /\ cal_maxDate (foldl addDate c ds) = cal_maxDate c /\
  cal_sessions (foldl addDate c ds) = cal_sessions c ++ map (sessionFor (cal_loc c)) (List.filter isTradingDate ds).
Proof.
  induction ds as [|d ds IH]; intros c Ht Hlt Hs; cbn [foldl]; [by rewrite app_nil_r|].
  apply StronglySorted_inv in Hs as [Hs Hd]. rewrite List.Forall_forall in Hd.
  destruct (addDate_run c d Ht) as (H1 & H2 & H3 & H4 & H5); [intros s Hin; apply Hlt; [done|by left]|].
  destruct (IH (addDate c d) H1) as (G1 & G2 & G3 & G4 & G5); [|done|].
  - intros s d' Hin Hd'. rewrite H5 in Hin. apply elem_of_app in Hin as [Hin|Hin]; [apply Hlt; [done|by right]|].
    destruct (isTradingDate d); [|by apply elem_of_nil in Hin]. apply list_elem_of_singleton in Hin as ->. by apply Hd.
  - rewrite G2, G3, G4, G5, H2, H3, H4, H5. splits; try done. rewrite <- app_assoc. f_equal. cbn [List.filter].
    destruct (isTradingDate d); done.
Qed.

Lemma NewNYSE_table loc : let c := NewNYSE loc in
  tableOk c /\ cal_loc c = loc /\ cal_minDate c = NewDate MinYear 1 1 /\ cal_maxDate c = NewDate MaxYear 12 31 /\
  cal_sessions c = map (sessionFor loc) (List.filter isTradingDate allDates).
Proof.
  cbv zeta. rewrite NewNYSE_run. assert (Hs : StronglySorted dateLt allDates) by (unfold allDates; apply daysFrom_sorted).
  revert Hs. generalize allDates as ds. intros ds Hds.
  apply (addDates_run ds (emptyCalendar loc)); [|intros s d Hin; by apply elem_of_nil in Hin|done].
  intros d i. cbn. rewrite lookup_empty. split; [done|]. intros (s & Hs & _). by rewrite lookup_nil in Hs.
Qed.

Lemma allDates_in d : In d allDates <-> exists n, daysBeforeYear MinYear <= n < daysBeforeYear (MaxYear + 1) /\ d = civil n.
Proof.
  unfold allDates. rewrite daysFrom_in. rewrite Z2Nat.id; [|apply Z.le_0_sub, daysBeforeYear_mono; unfold MinYear, MaxYear; lia].
  by replace (daysBeforeYear MinYear + (daysBeforeYear (MaxYear + 1) - daysBeforeYear MinYear)) with (daysBeforeYear (MaxYear + 1)) by lia.
Qed.

Lemma allDates_sorted : StronglySorted dateLt allDates.
Proof. unfold allDates. apply daysFrom_sorted. Qed.


(** ** The binary search *)

Lemma StronglySorted_lookup {A} (R : A -> A -> Prop) l : StronglySorted R l ->
  forall i j x y, (i < j)%nat -> l !! i = Some x -> l !! j = Some y -> R x y.
Proof.
  induction 1 as [|a l Hs IH Ha]; intros i j x y Hij Hi Hj; [by rewrite lookup_nil in Hi|]. rewrite List.Forall_forall in Ha.
  destruct j as [|j]; [lia|]. cbn in Hj. destruct i as [|i]; cbn in Hi; [|by apply (IH i j); [lia| |]].
  simplify_eq. apply Ha, list_elem_of_In. by eapply list_elem_of_lookup_2.
Qed.

Lemma searchLoop_spec c d fuel : forall lo hi,
  (lo <= hi <= length (cal_sessions c))%nat -> (hi - lo < fuel)%nat ->
  StronglySorted (fun a b => dateLt (ss_Date a) (ss_Date b)) (cal_sessions c) ->
  Forall (fun s => validDate (ss_Date s) = true) (cal_sessions c) -> validDate d = true ->
  (forall i s, (i < lo)%nat -> cal_sessions c !! i = Some s -> DateBefore (ss_Date s) d = true) ->
  (forall i s, (hi <= i)%nat -> cal_sessions c !! i = Some s -> DateBefore (ss_Date s) d = false) ->
  let k := searchLoop c fuel d lo hi in
  (k <= length (cal_sessions c))%nat /\
  (forall i s, (i < k)%nat -> cal_sessions c !! i = Some s -> DateBefore (ss_Date s) d = true) /\
  (forall i s, (k <= i)%nat -> cal_sessions c !! i = Some s -> DateBefore (ss_Date s) d = false).
Proof.
  induction fuel as [|fuel IH]; intros lo hi Hb Hf Hs Hv Hd Hlo Hhi; [lia|]. cbn [searchLoop].
  destruct (Nat.ltb_spec lo hi) as [Hlt|Hge]; [|cbv zeta; split; [lia|split; [done|]]; intros i s Hi; apply Hhi; lia].
  assert (Hm : (lo <= Nat.div2 (lo + hi) < hi)%nat) by (rewrite Nat.div2_div; split; [apply Nat.div_le_lower_bound|apply Nat.Div0.div_lt_upper_bound]; lia).
  set (mid := Nat.div2 (lo + hi)) in *. destruct (cal_sessions c !! mid) as [s|] eqn:Em; [|apply lookup_ge_None in Em; lia].
  assert (Hord : forall i j a b, (i < j)%nat -> cal_sessions c !! i = Some a -> cal_sessions c !! j = Some b ->
    dayOf (ss_Date a) < dayOf (ss_Date b)) by (intros; by eapply (StronglySorted_lookup _ _ Hs)).
  rewrite List.Forall_forall in Hv.
  assert (Hval : forall i a, cal_sessions c !! i = Some a -> validDate (ss_Date a) = true)
    by (intros i a Hi; apply Hv, list_elem_of_In; by eapply list_elem_of_lookup_2).
  destruct (DateBefore (ss_Date s) d) eqn:Eb; apply IH; try done; try lia; try (apply List.Forall_forall; done).
  - intros i a Hi Ha. destruct (decide (i = mid)) as [->|]; [congruence|].
    rewrite DateBefore_iff in * by eauto. pose proof (Hord i mid a s ltac:(lia) Ha Em). lia.
  - intros i a Hi Ha. destruct (decide (i = mid)) as [->|]; [congruence|].
    rewrite DateBefore_iff in * by eauto. pose proof (Hord mid i s a ltac:(lia) Em Ha). lia.
Qed.

(** A prefix that satisfies [P] and a rest that does not are what [P] filters. *)
Lemma filter_split {A} (P : A -> bool) (l : list A) k :
  (forall i x, (i < k)%nat -> l !! i = Some x -> P x = true) -> (forall i x, (k <= i)%nat -> l !! i = Some x -> P x = false) ->
  List.filter P l = firstn k l /\ List.filter (fun x => negb (P x)) l = skipn k l.
Proof.
  revert k. induction l as [|x l IH]; intros k H1 H2; [by destruct k|]. destruct k as [|k]; cbn [firstn skipn List.filter].
  - rewrite (H2 0%nat x) by (done || lia). cbn [negb]. destruct (IH 0%nat) as [E1 E2]; [intros; lia|intros i y Hi Hy; apply (H2 (S i)); [lia|done]|].
    rewrite E1, E2. by destruct l.
  - rewrite (H1 0%nat x) by (done || lia). cbn [negb]. destruct (IH k) as [E1 E2];
      [intros i y Hi Hy; apply (H1 (S i)); [lia|done]|intros i y Hi Hy; apply (H2 (S i)); [lia|done]|]. by rewrite E1, E2.
Qed.

Lemma filter_map {A B} (f : A -> B) (P : B -> bool) l : List.filter P (map f l) = map f (List.filter (fun x => P (f x)) l).
Proof. induction l as [|x l IH]; [done|]. cbn. rewrite IH. by destruct (P (f x)). Qed.

Lemma filter_filter {A} (P Q : A -> bool) l : List.filter P (List.filter Q l) = List.filter (fun x => Q x && P x) l.
Proof. induction l as [|x l IH]; [done|]. cbn. destruct (Q x); cbn; [|done]. rewrite IH. done. Qed.

Lemma filter_ext' {A} (P Q : A -> bool) l : (forall x, In x l -> P x = Q x) -> List.filter P l = List.filter Q l.
Proof. intros H. by apply List.filter_ext_in. Qed.

Lemma filter_none {A} (l : list A) : List.filter (fun _ => false) l = [].
Proof. by induction l. Qed.

Lemma find_filter {A} (P : A -> bool) l : List.find P l = hd_error (List.filter P l).
Proof. induction l as [|x l IH]; [done|]. cbn. destruct (P x); done. Qed.

(** A calendar that covers the supported range: what the queries rely on. *)
Record covers (loc : Location) (c : Calendar) (dates : list Date) : Prop := {
  cov_table : tableOk c;
  cov_loc : cal_loc c = loc;
  cov_min : cal_minDate c = NewDate MinYear 1 1;
  cov_max : cal_maxDate c = NewDate MaxYear 12 31;
  cov_sessions : cal_sessions c = map (sessionFor loc) (List.filter isTradingDate dates);
  cov_sorted : StronglySorted dateLt dates;
  cov_dates : forall d, In d dates <-> exists n, daysBeforeYear MinYear <= n < daysBeforeYear (MaxYear + 1) /\ d = civil n
}.

Lemma NewNYSE_covers loc : covers loc (NewNYSE loc) allDates.
Proof. destruct (NewNYSE_table loc) as (H1 & H2 & H3 & H4 & H5). exact (Build_covers loc _ _ H1 H2 H3 H4 H5 allDates_sorted allDates_in). Qed.

Section Covered.
Context (loc : Location) (c : Calendar) (dates : list Date) (Hc : covers loc c dates).

(** The trading days before, and from, a date. *)
Definition tradingBefore (d : Date) : list Date := List.filter (fun x => isTradingDate x && DateBefore x d) dates.
Definition tradingFrom (d : Date) : list Date := List.filter (fun x => isTradingDate x && negb (DateBefore x d)) dates.

Lemma dates_valid d : In d dates -> validDate d = true.
Proof. rewrite (cov_dates _ _ _ Hc). intros (n & _ & ->). apply validDate_civil. Qed.

Lemma dates_range d : validDate d = true -> (In d dates <-> inRange d).
Proof.
  intros Hv. unfold inRange. rewrite (cov_dates _ _ _ Hc). split.
  - intros (n & Hn & ->). destruct (civil_year n) as (Hy & _). pose proof (yearLen (d_Year (civil n))).
    split; apply Z.nlt_ge; intros Hlt.
    + pose proof (daysBeforeYear_mono (d_Year (civil n) + 1) MinYear ltac:(lia)). lia.
    + pose proof (daysBeforeYear_mono (MaxYear + 1) (d_Year (civil n)) ltac:(lia)). lia.
  - intros [H1 H2]. exists (dayOf d). rewrite civil_dayOf by done. split; [|done].
    pose proof (civil_year (dayOf d)) as (Hy & _). rewrite civil_dayOf in Hy by done. pose proof (yearLen (d_Year d)).
    pose proof (daysBeforeYear_mono MinYear (d_Year d) H1). pose proof (daysBeforeYear_mono (d_Year d + 1) (MaxYear + 1) ltac:(lia)). lia.
Qed.

Lemma sessions_sorted : StronglySorted (fun a b => dateLt (ss_Date a) (ss_Date b)) (cal_sessions c).
Proof.
  rewrite (cov_sessions _ _ _ Hc). apply StronglySorted_fmap with (R1 := dateLt); [done|].
  apply StronglySorted_filter, (cov_sorted _ _ _ Hc).
Qed.

Lemma sessions_valid : Forall (fun s => validDate (ss_Date s) = true) (cal_sessions c).
Proof.
  rewrite (cov_sessions _ _ _ Hc). apply List.Forall_forall. intros s (d & <- & Hd)%in_map_iff.
  apply filter_In in Hd as [Hd _]. by apply dates_valid.
Qed.

Lemma searchFrom_spec d : validDate d = true ->
  (searchFrom c d <= length (cal_sessions c))%nat /\
  (forall i s, (i < searchFrom c d)%nat -> cal_sessions c !! i = Some s -> DateBefore (ss_Date s) d = true) /\
  (forall i s, (searchFrom c d <= i)%nat -> cal_sessions c !! i = Some s -> DateBefore (ss_Date s) d = false).
Proof.
  intros Hd. unfold searchFrom. apply searchLoop_spec; [lia|lia|apply sessions_sorted|apply sessions_valid|done|intros; lia|].
  intros i s Hi Hs. apply lookup_lt_Some in Hs. unfold length in *. lia.
Qed.

Lemma searchFrom_split d : validDate d = true ->
  firstn (searchFrom c d) (cal_sessions c) = map (sessionFor loc) (tradingBefore d) /\
  skipn (searchFrom c d) (cal_sessions c) = map (sessionFor loc) (tradingFrom d).
Proof.
  intros Hd. destruct (searchFrom_spec d Hd) as (_ & H1 & H2).
  destruct (filter_split (fun s => DateBefore (ss_Date s) d) _ _ H1 H2) as [<- <-].
  rewrite (cov_sessions _ _ _ Hc), !filter_map, !filter_filter. done.
Qed.

Lemma range_check d : validDate d = true -> checkRange c d = if decide (inRange d) then Ok tt else Err ErrOutOfRange.
Proof.
  intros Hv. unfold checkRange. rewrite (cov_min _ _ _ Hc), (cov_max _ _ _ Hc). unfold NewDate. rewrite jan1, dec31.
  rewrite DateBefore_iff, DateAfter_iff, !dayOf_civil by (done || apply validDate_civil).
  destruct (decide (inRange d)) as [Hr|Hr]; rewrite <- (dates_range d Hv), (cov_dates _ _ _ Hc) in Hr.
  - destruct Hr as (n & Hn & ->). rewrite dayOf_civil.
    replace (n <? daysBeforeYear MinYear) with false by lia. replace (daysBeforeYear (MaxYear + 1) - 1 <? n) with false by lia. done.
  - destruct (Z.ltb_spec (dayOf d) (daysBeforeYear MinYear)); [done|].
    destruct (Z.ltb_spec (daysBeforeYear (MaxYear + 1) - 1) (dayOf d)); [done|]. destruct Hr. exists (dayOf d).
    rewrite civil_dayOf by done. split; [lia|done].
Qed.

Lemma byDate_iff d : validDate d = true -> inRange d ->
  match cal_byDate c !! d with
  | Some i => cal_sessions c !! i = Some (sessionFor loc d) /\ isTradingDate d = true
  | None => isTradingDate d = false
  end.
Proof.
  intros Hv Hr. pose proof (cov_table _ _ _ Hc) as Ht. pose proof (cov_sessions _ _ _ Hc) as Hs.
  destruct (cal_byDate c !! d) as [i|] eqn:E.
  - apply Ht in E as (s & Hi & <-). rewrite Hi. rewrite Hs in Hi. apply list_elem_of_lookup_2, list_elem_of_In in Hi.
    apply in_map_iff in Hi as (x & <- & Hx). apply filter_In in Hx as [_ Hx]. done.
  - destruct (isTradingDate d) eqn:Et; [|done]. apply (dates_range d Hv) in Hr.
    assert (Hin : sessionFor loc d ∈ cal_sessions c) by (rewrite Hs; apply list_elem_of_In, in_map, filter_In; done).
    apply list_elem_of_lookup_1 in Hin as [i Hi]. enough (cal_byDate c !! d = Some i) by congruence. apply Ht. by eexists.
Qed.

Lemma IsTradingDay_run d : validDate d = true ->
  IsTradingDay c d = if decide (inRange d) then Ok (isTradingDate d) else Err ErrOutOfRange.
Proof.
  intros Hv. unfold IsTradingDay. rewrite range_check by done. destruct (decide (inRange d)) as [Hr|]; [|done]. cbn.
  pose proof (byDate_iff d Hv Hr) as H. destruct (cal_byDate c !! d); [by destruct H as [_ ->]|by rewrite H].
Qed.

(** The first trading day after a date, day by day. *)
Lemma NextSession_run d : validDate d = true -> inRange d ->
  NextSession c d = match List.find (fun x => isTradingDate x && DateAfter x d) dates with
                    | Some x => Ok (sessionFor loc x)
                    | None => Err ErrNoSession
                    end.
Proof.
  intros Hv Hr. unfold NextSession. rewrite range_check by done. destruct (decide _); [|done]. cbn [res_bind].
  destruct (searchFrom_split (AddDays 1 d) (validDate_AddDays 1 d)) as [_ Hk]. set (k := searchFrom c (AddDays 1 d)) in *.
  replace (cal_sessions c !! k) with (skipn k (cal_sessions c) !! 0%nat) by (change @skipn with @drop; by rewrite lookup_drop, Nat.add_0_r).
  rewrite Hk, find_filter. unfold tradingFrom.
  rewrite (filter_ext' _ (fun x => isTradingDate x && DateAfter x d)).
  - by destruct (List.filter _ dates).
  - intros x Hx. f_equal. rewrite DateBefore_iff, DateAfter_iff, dayOf_AddDays by (done || apply validDate_AddDays || by apply dates_valid). lia.
Qed.

(** The last trading day before a date. *)
Lemma PrevSession_run d : validDate d = true -> inRange d ->
  PrevSession c d = match list.last (tradingBefore d) with
                    | Some x => Ok (sessionFor loc x)
                    | None => Err ErrNoSession
                    end.
Proof.
  intros Hv Hr. unfold PrevSession. rewrite range_check by done. destruct (decide _); [|done]. cbn [res_bind].
  destruct (searchFrom_split d Hv) as [Hk _]. destruct (searchFrom_spec d Hv) as [Hlen _].
  destruct (searchFrom c d) as [|k].
  - cbn in Hk. symmetry in Hk. apply map_eq_nil in Hk. by rewrite Hk.
  - unfold sessionAt. assert (Hl : list.last (firstn (S k) (cal_sessions c)) = cal_sessions c !! k).
    { rewrite list.last_lookup, length_firstn, Nat.min_l by done. cbn [Nat.pred]. apply lookup_take_lt. lia. }
    rewrite <- Hl, Hk. rewrite (fmap_last (sessionFor loc) (tradingBefore d) : list.last (map _ _) = _). destruct (list.last (tradingBefore d)) eqn:Et; [done|].
    apply last_None in Et. rewrite Et in Hk. apply (f_equal length) in Hk. rewrite length_firstn in Hk. cbn [map length] in Hk. lia.
Qed.

Lemma SessionsInRange_run a b : validDate a = true -> validDate b = true -> inRange a -> inRange b ->
  SessionsInRange c a b =
    Ok (map (sessionFor loc) (List.filter (fun x => isTradingDate x && negb (DateBefore x a) && negb (DateAfter x b)) dates)).
Proof.
  intros Ha Hb Hra Hrb. unfold SessionsInRange. rewrite !range_check by done. rewrite !decide_True by done. cbn [res_bind].
  assert (Hx : forall x, In x dates -> DateBefore x a = (dayOf x <? dayOf a) /\ DateAfter x b = (dayOf b <? dayOf x) /\
    DateBefore x (AddDays 1 b) = negb (dayOf b <? dayOf x)).
  { intros x Hx%dates_valid. rewrite !DateBefore_iff, DateAfter_iff, dayOf_AddDays by (done || apply validDate_AddDays). splits; lia. }
  rewrite DateAfter_iff by done. destruct (Z.ltb_spec (dayOf b) (dayOf a)) as [Hlt|Hge].
  - do 2 f_equal. symmetry. rewrite (filter_ext' _ (fun _ => false)).
    + by rewrite filter_none.
    + intros x Hin. destruct (Hx x Hin) as (-> & -> & _). destruct (isTradingDate x); [|done]. cbn. lia.
  - f_equal. destruct (searchFrom_split a Ha) as [_ Hsk]. pose proof (validDate_AddDays 1 b) as Hvb.
    destruct (searchFrom_spec (AddDays 1 b) Hvb) as (_ & H1 & H2).
    set (lo := searchFrom c a) in *. set (hi := searchFrom c (AddDays 1 b)) in *.
    assert (Hd : forall i s, skipn lo (cal_sessions c) !! i = Some s -> cal_sessions c !! (lo + i)%nat = Some s)
      by (intros j s; change @skipn with @drop; by rewrite lookup_drop).
    destruct (filter_split (fun s => DateBefore (ss_Date s) (AddDays 1 b)) (skipn lo (cal_sessions c)) (hi - lo)) as [<- _].
    + intros j s Hj Hs%Hd. eapply H1; [|exact Hs]; lia.
    + intros j s Hj Hs%Hd. eapply H2; [|exact Hs]; lia.
    + rewrite Hsk, filter_map. f_equal. unfold tradingFrom. rewrite filter_filter. apply filter_ext'.
      intros x Hin. cbn [sessionFor ss_Date]. destruct (Hx x Hin) as (-> & -> & ->). done.
Qed.
End Covered.

(** ** Text *)

(** A number padded to its width reads back, checked on all the numbers that fit. *)
Definition padReads (w : nat) (n : Z) : bool :=
  (length (padZero w n) =? w)%nat && bool_decide (digitsVal 0 (padZero w n) = Some n).

Lemma padZero4 n : 0 <= n <= 9999 -> exists a b c d, padZero 4 n = [a; b; c; d] /\ digitsVal 0 [a; b; c; d] = Some n.
Proof.
  intros Hn. assert (Hall : forallb (fun k => padReads 4 (Z.of_nat k)) (seq 0 (Z.to_nat 10000)) = true) by (by vm_compute).
  rewrite forallb_forall in Hall. specialize (Hall (Z.to_nat n)). rewrite Z2Nat.id, in_seq in Hall by lia.
  specialize (Hall ltac:(lia)). unfold padReads in Hall. apply andb_true_iff in Hall as [Hl Hv].
  apply Nat.eqb_eq in Hl. apply bool_decide_eq_true in Hv. destruct (padZero 4 n) as [|a [|b [|c [|d [|e l]]]]]; try discriminate Hl.
  by exists a, b, c, d.
Qed.

Lemma padZero2 n : 0 <= n <= 99 -> exists a b, padZero 2 n = [a; b] /\ digitsVal 0 [a; b] = Some n.
Proof.
  intros Hn. assert (Hall : forallb (fun k => padReads 2 (Z.of_nat k)) (seq 0 100) = true) by (by vm_compute).
  rewrite forallb_forall in Hall. specialize (Hall (Z.to_nat n)). rewrite Z2Nat.id, in_seq in Hall by lia.
  specialize (Hall ltac:(lia)). unfold padReads in Hall. apply andb_true_iff in Hall as [Hl Hv].
  apply Nat.eqb_eq in Hl. apply bool_decide_eq_true in Hv. destruct (padZero 2 n) as [|a [|b [|c l]]]; try discriminate Hl.
  by exists a, b.
Qed.

Lemma ParseDate_String d : validDate d = true -> 0 <= d_Year d <= 9999 -> ParseDate (DateString d) = Ok d.
Proof.
  intros Hv Hy. destruct (valid_bounds d Hv) as (Hm & _ & Hd).
  assert (Hd' : d_Day d <= 99).
  { destruct Hd as [_ Hd]. unfold daysBeforeMonth in Hd. destruct (isLeap (d_Year d)); repeat case_match; lia. }
  destruct (padZero4 (d_Year d) Hy) as (a & b & c & e & E1 & V1). destruct (padZero2 (d_Month d) ltac:(lia)) as (f & g & E2 & V2).
  destruct (padZero2 (d_Day d) ltac:(lia)) as (h & i & E3 & V3). unfold DateString, ParseDate. rewrite E1, E2, E3.
  cbn [app]. rewrite V1, V2, V3, !Ascii.eqb_refl. destruct d as [y m dd]. cbn [d_Year d_Month d_Day andb]. by rewrite Hv.
Qed.

(** ** Properties *)

(** C18: The calendar's queries answer what walking the calendar day by day would.
    For a date of the supported range, a day is a trading day exactly when it is a
    weekday that is neither a holiday of its year nor a special closure; the next
    session is the one of the first trading day after the date, the previous one
    that of the last trading day before it, and a range query lists the sessions of
    its trading days in order.  Outside the range every query is refused. *)
Theorem calendar_queries_exact (loc : Location) (d b : Date) (Hd : validDate d = true) (Hb : validDate b = true) :
  let c := NewNYSE loc in
  (inRange d -> inRange b ->
     IsTradingDay c d = Ok (isTradingDate d) /\
     NextSession c d = of_checked (option_map (sessionFor loc) (List.find (fun x => isTradingDate x && DateAfter x d) allDates)) ErrNoSession /\
     PrevSession c d = of_checked (option_map (sessionFor loc) (list.last (List.filter (fun x => isTradingDate x && DateBefore x d) allDates))) ErrNoSession /\
     SessionsInRange c d b =
       Ok (map (sessionFor loc) (List.filter (fun x => isTradingDate x && negb (DateBefore x d) && negb (DateAfter x b)) allDates))) /\
  (~ inRange d -> IsTradingDay c d = Err ErrOutOfRange /\ NextSession c d = Err ErrOutOfRange /\
     PrevSession c d = Err ErrOutOfRange /\ SessionsInRange c d b = Err ErrOutOfRange).
Proof.
  cbv zeta. pose proof (NewNYSE_covers loc) as Hc. revert Hc. generalize (NewNYSE loc) as c, allDates as dates. intros c dates Hc. split.
  - intros Hr Hrb. splits.
    + rewrite (IsTradingDay_run loc c dates Hc) by done. by rewrite decide_True.
    + rewrite (NextSession_run loc c dates Hc) by done. by destruct (List.find _ dates).
    + rewrite (PrevSession_run loc c dates Hc) by done. unfold tradingBefore. by destruct (list.last _).
    + by apply (SessionsInRange_run loc c dates Hc).
  - intros Hr. unfold IsTradingDay, NextSession, PrevSession, SessionsInRange.
    rewrite !(range_check loc c dates Hc d Hd), !decide_False by done. done.
Qed.

Lemma calendar_queries_exact_witness :
  IsTradingDay (NewNYSE UTCLocation) (mkDate 2021 12 31) = Ok true /\
  IsTradingDay (NewNYSE UTCLocation) (mkDate 2024 3 29) = Ok false /\
  IsTradingDay (NewNYSE UTCLocation) (mkDate 2001 9 14) = Ok false /\
  NextSession (NewNYSE UTCLocation) (mkDate 1999 12 31) = Err ErrOutOfRange.
Proof.
  destruct (calendar_queries_exact UTCLocation (mkDate 2021 12 31) (mkDate 2021 12 31) eq_refl eq_refl) as [H1 _].
  destruct (calendar_queries_exact UTCLocation (mkDate 2024 3 29) (mkDate 2024 4 1) eq_refl eq_refl) as [H2 _].
  destruct (calendar_queries_exact UTCLocation (mkDate 2001 9 14) (mkDate 2024 4 1) eq_refl eq_refl) as [H3 _].
  destruct (calendar_queries_exact UTCLocation (mkDate 1999 12 31) (mkDate 2000 1 1) eq_refl eq_refl) as [_ H4].
  destruct H1 as (-> & _); [done|done|]. destruct H2 as (-> & _); [done|done|]. destruct H3 as (-> & _); [done|done|].
  destruct H4 as (_ & -> & _); [unfold inRange, MinYear, MaxYear; cbn; lia|].
  split; [|split; [|split; [|reflexivity]]]; vm_compute; reflexivity.
Defined.

(** Day numbers and dates correspond one to one: the date of a day number is a
    real date with that number, a real date is recovered from its number, adding
    days adds to the number, the order of dates is that of the numbers, and the
    text of a date with a four-digit year parses back to it. *)
Theorem dates_are_day_numbers (n k : Z) (d o : Date) (Hd : validDate d = true) (Ho : validDate o = true) :
  dayOf (civil n) = n /\ validDate (civil n) = true /\ civil (dayOf d) = d /\ dayOf (AddDays k d) = dayOf d + k /\
  DateBefore d o = (dayOf d <? dayOf o) /\ DateAfter d o = (dayOf o <? dayOf d) /\
  Weekday (AddDays k d) = (Weekday d + k) mod 7 /\
  (0 <= d_Year d <= 9999 -> ParseDate (DateString d) = Ok d).
Proof.
  splits; [apply dayOf_civil|apply validDate_civil|by apply civil_dayOf|apply dayOf_AddDays|by apply DateBefore_iff|by apply DateAfter_iff| |
    by apply ParseDate_String].
  unfold Weekday. rewrite dayOf_AddDays, Z.add_mod_idemp_l by lia. f_equal. lia.
Qed.

Lemma dates_are_day_numbers_witness :
  civil (dayOf (mkDate 2024 2 29)) = mkDate 2024 2 29 /\ DateBefore (mkDate 2024 2 29) (mkDate 2024 3 1) = true /\
  ParseDate (DateString (mkDate 2024 2 29)) = Ok (mkDate 2024 2 29).
Proof.
  destruct (dates_are_day_numbers 0 1 (mkDate 2024 2 29) (mkDate 2024 3 1) eq_refl eq_refl) as (_ & _ & H1 & _ & H2 & _ & _ & H3).
  split; [exact H1|]. split; [rewrite H2; reflexivity|]. apply H3. cbn. lia.
Defined.

(** The days around the closure of September 2001, Good Friday 2024, the New Year's
    Day of 2022 that is not observed, and the early closes of July. *)
Lemma rules_on_known_days :
  map isTradingDate [mkDate 2001 9 10; mkDate 2001 9 11; mkDate 2001 9 14; mkDate 2001 9 17] = [true; false; false; true] /\
  map isTradingDate [mkDate 2024 3 28; mkDate 2024 3 29; mkDate 2024 4 1; mkDate 2021 12 31; mkDate 2022 1 3] =
    [true; false; true; true; true] /\
  map (fun d => ss_EarlyClose (sessionFor UTCLocation d)) [mkDate 2002 7 5; mkDate 2024 7 3; mkDate 2024 7 5; mkDate 2023 11 24] =
    [true; true; false; true].
Proof. vm_compute. done. Qed.
