(* ===== verification/EventQueue.v ===== *)
(** * The deterministic event queue (src/internal/core/queue.go, event.go)

    Events, their dispatch order, and the hand-written binary min-heap.  The
    heap lives in a list indexed as the Go slice is; an index out of range
    would panic in Go and is [None] here, and the sift loops carry fuel, so
    totality (no panic, enough fuel) is a theorem.  The abstract queue is a
    list sorted by the total order [(tsNs, prio, seq)]; the heap refines it. *)

From stdpp Require Import list sorting.
From S2P Require Import Prelude Domain.
Set Default Goal Selector "!".
#[local] Open Scope Z_scope.
#[local] Abbreviation length := List.length.

(** ** Events *)

Inductive EventKind : Set := KindBar | KindFill | KindSample.

#[export] Instance EventKind_eq_dec : EqDecision EventKind.
Proof. solve_decision. Defined.

Definition Priority (k : EventKind) : Z :=
  match k with KindBar => 0 | KindFill => 1 | KindSample => 2 end.

Definition EventKind_String (k : EventKind) : string :=
  match k with KindBar => "bar" | KindFill => "fill" | KindSample => "sample" end.

Inductive Event : Set :=
| BarEvent (bar : Bar)
| FillEvent (fill : Fill)
| SampleEvent (ts : time).

Definition TsEvent (e : Event) : time :=
  match e with
  | BarEvent bar => bar_TS bar
  | FillEvent fill => f_TS fill
  | SampleEvent ts => ts
  end.

Definition Kind (e : Event) : EventKind :=
  match e with
  | BarEvent _ => KindBar
  | FillEvent _ => KindFill
  | SampleEvent _ => KindSample
  end.

(** ** The heap *)

Record queuedEvent : Set := mkQueued { ev : Event; tsNs : Z; prio : Z; seq : Z }.

Definition less (a b : queuedEvent) : bool :=
  if negb (tsNs a =? tsNs b) then tsNs a <? tsNs b
  else if negb (prio a =? prio b) then prio a <? prio b
  else seq a <? seq b.

Record eventQueue : Set := mkQueue { heap : list queuedEvent; nextID : Z }.

Definition newEventQueue : eventQueue := mkQueue [] 0.

Definition Len (q : eventQueue) : nat := length (heap q).

(** [nextID] is a [uint64]. *)
Definition nextSeq (q : eventQueue) : Z * eventQueue :=
  (nextID q, mkQueue (heap q) (wrapu64 (nextID q + 1))).

Fixpoint siftUp (fuel : nat) (h : list queuedEvent) (i : nat) : option (list queuedEvent) :=
  match fuel with
  | O => None
  | S fuel =>
      if (0 <? i)%nat then
        let parent := ((i - 1) / 2)%nat in
        x ← h !! i; y ← h !! parent;
        if negb (less x y) then Some h
        else siftUp fuel (<[parent:=x]> (<[i:=y]> h)) parent
      else Some h
  end.

(** [smallest := left; if right := left + 1; right < n && ... { smallest = right }] *)
Definition smallestChild (h : list queuedEvent) (left : nat) : option nat :=
  let right := (left + 1)%nat in
  if (right <? length h)%nat then
    r ← h !! right; l ← h !! left;
    Some (if less r l then right else left)
  else Some left.

Fixpoint siftDown (fuel : nat) (h : list queuedEvent) (i : nat) : option (list queuedEvent) :=
  match fuel with
  | O => None
  | S fuel =>
      let n := length h in
      let left := (2 * i + 1)%nat in
      if (n <=? left)%nat then Some h
      else
        smallest ← smallestChild h left;
        s ← h !! smallest; x ← h !! i;
        if negb (less s x) then Some h
        else siftDown fuel (<[smallest:=x]> (<[i:=s]> h)) smallest
  end.

Definition push (q : eventQueue) (e : Event) : option (Z * eventQueue) :=
  let '(s, q') := nextSeq q in
  let item := mkQueued e (UnixNano (UTC (TsEvent e))) (Priority (Kind e)) s in
  let h := heap q' ++ [item] in
  h' ← siftUp (length h) h (length h - 1);
  Some (s, mkQueue h' (nextID q')).

Definition peekTs (q : eventQueue) : option time :=
  match heap q with [] => None | x :: _ => Some (TsEvent (ev x)) end.

Definition pop (q : eventQueue) : option (option Event * eventQueue) :=
  match heap q with
  | [] => Some (None, q)
  | top :: _ =>
      let n := length (heap q) in
      lst ← heap q !! (n - 1)%nat;
      let h := take (n - 1) (<[0%nat:=lst]> (heap q)) in
      h' ← (if (0 <? length h)%nat then siftDown (length h) h 0 else Some h);
      Some (Some (ev top), mkQueue h' (nextID q))
  end.

#[global] Arguments push : simpl never.
#[global] Arguments pop : simpl never.

(** ** The abstract queue: a sorted list *)

Definition before (a b : queuedEvent) : Prop := less a b = true.
(** [notAfter a b]: [b] need not dispatch before [a]. *)
Definition notAfter (a b : queuedEvent) : Prop := less b a = false.

Fixpoint insertSorted (x : queuedEvent) (l : list queuedEvent) : list queuedEvent :=
  match l with
  | [] => [x]
  | y :: l' => if less x y then x :: l else y :: insertSorted x l'
  end.

Record specQueue : Set := mkSpec { items : list queuedEvent; nextTok : Z }.

Inductive queueOp : Set := OpPush (e : Event) | OpPop | OpNextSeq | OpPeek.
Inductive queueOut : Set := OutSeq (s : Z) | OutEvent (e : option Event) | OutTs (t : option time).

Definition specStep (s : specQueue) (o : queueOp) : queueOut * specQueue :=
  match o with
  | OpPush e =>
      (OutSeq (nextTok s),
       mkSpec (insertSorted (mkQueued e (UnixNano (UTC (TsEvent e))) (Priority (Kind e)) (nextTok s)) (items s))
              (nextTok s + 1))
  | OpPop =>
      match items s with
      | [] => (OutEvent None, s)
      | x :: l => (OutEvent (Some (ev x)), mkSpec l (nextTok s))
      end
  | OpNextSeq => (OutSeq (nextTok s), mkSpec (items s) (nextTok s + 1))
  | OpPeek => (OutTs (match items s with [] => None | x :: _ => Some (TsEvent (ev x)) end), s)
  end.

Definition queueStep (q : eventQueue) (o : queueOp) : option (queueOut * eventQueue) :=
  match o with
  | OpPush e => '(s, q') ← push q e; Some (OutSeq s, q')
  | OpPop => '(r, q') ← pop q; Some (OutEvent r, q')
  | OpNextSeq => let '(s, q') := nextSeq q in Some (OutSeq s, q')
  | OpPeek => Some (OutTs (peekTs q), q)
  end.

Fixpoint runSpec (s : specQueue) (ops : list queueOp) : list queueOut * specQueue :=
  match ops with
  | [] => ([], s)
  | o :: ops => let '(r, s') := specStep s o in let '(rs, s'') := runSpec s' ops in (r :: rs, s'')
  end.

Fixpoint runQueue (q : eventQueue) (ops : list queueOp) : option (list queueOut * eventQueue) :=
  match ops with
  | [] => Some ([], q)
  | o :: ops =>
      '(r, q') ← queueStep q o; '(rs, q'') ← runQueue q' ops; Some (r :: rs, q'')
  end.

(** Pop until empty, as the loops do between dispatches. *)
Fixpoint drain (fuel : nat) (q : eventQueue) : option (list Event) :=
  match fuel with
  | O => Some []
  | S fuel =>
      '(r, q') ← pop q;
      match r with None => Some [] | Some e => es ← drain fuel q'; Some (e :: es) end
  end.

(** Seeding: push a list of events in order. *)
Fixpoint pushAll (q : eventQueue) (es : list Event) : option eventQueue :=
  match es with
  | [] => Some q
  | e :: es => '(_, q') ← push q e; pushAll q' es
  end.

(** ** The order *)

Lemma before_iff a b :
  before a b <-> tsNs a < tsNs b \/ (tsNs a = tsNs b /\ (prio a < prio b \/ (prio a = prio b /\ seq a < seq b))).
Proof.
  unfold before, less. destruct (tsNs a =? tsNs b) eqn:H1; cbn [negb]; breflect;
    [destruct (prio a =? prio b) eqn:H2; cbn [negb]; breflect|]; rewrite Z.ltb_lt; lia.
Qed.

Lemma notAfter_iff a b : notAfter a b <-> ~ before b a.
Proof. unfold notAfter, before. destruct (less b a); intuition congruence. Qed.

Ltac order :=
  repeat match goal with
  | H : less _ _ = true |- _ => apply before_iff in H
  | H : less _ _ = false |- _ => apply notAfter_iff in H
  end;
  rewrite ?notAfter_iff, ?before_iff in *; lia.

Lemma notAfter_refl a : notAfter a a.
Proof. order. Qed.
Lemma notAfter_trans a b c : notAfter a b -> notAfter b c -> notAfter a c.
Proof. order. Qed.
Lemma before_trans a b c : before a b -> before b c -> before a c.
Proof. order. Qed.
Lemma before_notAfter a b : before a b -> notAfter a b.
Proof. order. Qed.
Lemma before_total a b : seq a <> seq b -> before a b \/ before b a.
Proof. order. Qed.

#[export] Instance before_transitive : Transitive before.
Proof. intros a b c. apply before_trans. Qed.
#[export] Instance notAfter_preorder : PreOrder notAfter.
Proof. split; [intros a; apply notAfter_refl|intros a b c; apply notAfter_trans]. Qed.
#[export] Hint Resolve notAfter_refl before_notAfter : go.

(** ** The heap invariant *)

Definition parentOf (j : nat) : nat := ((j - 1) / 2)%nat.

(** The edge from [j] to its parent is in order. *)
Definition edge (h : list queuedEvent) (p j : nat) : Prop :=
  forall x y, h !! p = Some y -> h !! j = Some x -> notAfter y x.

Definition heapOk (h : list queuedEvent) : Prop := forall j, (0 < j)%nat -> edge h (parentOf j) j.

(** Every edge is in order but the one above [i], and [i]'s children are in
    order with [i]'s parent. *)
Definition okBelow (h : list queuedEvent) (i : nat) : Prop :=
  (forall j, (0 < j)%nat -> j <> i -> edge h (parentOf j) j) /\
  (forall j, (0 < j)%nat -> (0 < i)%nat -> parentOf j = i -> edge h (parentOf i) j).

(** Every edge is in order but those below [i], and likewise. *)
Definition okAbove (h : list queuedEvent) (i : nat) : Prop :=
  (forall j, (0 < j)%nat -> parentOf j <> i -> edge h (parentOf j) j) /\
  (forall j, (0 < j)%nat -> (0 < i)%nat -> parentOf j = i -> edge h (parentOf i) j).

Lemma parentOf_iff i j : (0 < j)%nat -> parentOf j = i <-> (j = 2 * i + 1 \/ j = 2 * i + 2)%nat.
Proof.
  intros Hj. unfold parentOf. pose proof (Nat.div_mod_eq (j - 1) 2) as E.
  pose proof (Nat.mod_upper_bound (j - 1) 2 ltac:(lia)). lia.
Qed.

Lemma parentOf_lt j : (0 < j)%nat -> (parentOf j < j)%nat.
Proof. intros H. destruct (proj1 (parentOf_iff (parentOf j) j H) eq_refl); lia. Qed.

Lemma swap_lookup (h : list queuedEvent) i p (x y : queuedEvent) k :
  (i < length h)%nat -> (p < length h)%nat ->
  <[p:=x]> (<[i:=y]> h) !! k = if decide (k = p) then Some x else if decide (k = i) then Some y else h !! k.
Proof.
  intros Hi Hp. rewrite !list_lookup_insert, length_insert.
  repeat case_decide; naive_solver.
Qed.

Lemma lookup_lt (h : list queuedEvent) i : (i < length h)%nat -> exists x, h !! i = Some x.
Proof. apply lookup_lt_is_Some_2. Qed.

(** Decide which index of a swapped heap is looked up. *)
Ltac swap_cases :=
  rewrite ?swap_lookup in * by lia; repeat case_decide; simplify_eq.

Lemma siftUp_swap h i x y :
  (0 < i)%nat -> h !! i = Some x -> h !! parentOf i = Some y -> less x y = true ->
  okBelow h i -> okBelow (<[parentOf i:=x]> (<[i:=y]> h)) (parentOf i).
Proof.
  intros Hi Hx Hy Hl [Ho Hb]. set (p := parentOf i) in *.
  assert (Hpi : (p < i)%nat) by (apply parentOf_lt; lia).
  pose proof (lookup_lt_Some _ _ _ Hx) as Li. pose proof (lookup_lt_Some _ _ _ Hy) as Lp.
  split.
  - intros j Hj Hji a b Ha Hb'. swap_cases.
    + order.
    + transitivity y; [order|]. apply (Ho j); auto. congruence.
    + by apply (Hb j).
    + by apply (Ho j).
  - intros j Hj Hp0 Hp a b Ha Hb'. pose proof (parentOf_lt p Hp0) as Hpp.
    swap_cases; try lia.
    + apply (Ho (parentOf i)); auto; lia.
    + transitivity y; [apply (Ho (parentOf i)); auto; lia|]. apply (Ho j); auto. congruence.
Qed.

Lemma siftUp_ok fuel h i :
  (i < fuel)%nat -> (i < length h)%nat -> okBelow h i ->
  exists h', siftUp fuel h i = Some h' /\ heapOk h' /\ h' ≡ₚ h.
Proof.
  revert h i. induction fuel as [|fuel IH]; intros h i Hf Hi Hok; [lia|]. cbn [siftUp].
  destruct (Nat.ltb_spec 0 i) as [H0|H0].
  - fold (parentOf i). pose proof (parentOf_lt i H0) as Hp.
    destruct (lookup_lt h i Hi) as [x Hx]. destruct (lookup_lt h (parentOf i) ltac:(lia)) as [y Hy].
    rewrite Hx, Hy. cbn. destruct (less x y) eqn:Hl; cbn [negb].
    + destruct (IH (<[parentOf i:=x]> (<[i:=y]> h)) (parentOf i)) as (h' & E & Hh & Hperm);
        [lia|rewrite !length_insert; lia|by apply siftUp_swap|].
      exists h'. split; [done|]. split; [done|]. rewrite Hperm. by apply Permutation_insert_swap.
    + exists h. split; [done|]. split; [|done]. intros j Hj.
      destruct (decide (j = i)) as [->|]; [|by apply Hok].
      intros a b Ha Hb. by simplify_eq.
  - exists h. split; [done|]. split; [|done]. intros j Hj. apply Hok; lia.
Qed.

Lemma siftDown_swap h i s x c :
  h !! i = Some x -> h !! s = Some c -> (0 < s)%nat -> parentOf s = i -> less c x = true ->
  (forall j, (0 < j)%nat -> parentOf j = i -> edge h s j) ->
  okAbove h i -> okAbove (<[s:=x]> (<[i:=c]> h)) s.
Proof.
  intros Hx Hc Hs Hps Hl Hmin [Ho Hb].
  pose proof (lookup_lt_Some _ _ _ Hx) as Li. pose proof (lookup_lt_Some _ _ _ Hc) as Ls.
  assert (Hlt : (i < s)%nat) by (rewrite <- Hps; apply parentOf_lt; lia).
  split.
  - intros j Hj Hpj a b Ha Hb'. pose proof (parentOf_lt j Hj). swap_cases; try lia.
    + order.
    + by eapply (Hb s).
    + by eapply (Hmin j).
    + by eapply (Ho j).
  - intros j Hj Hs0 Hpj a b Ha Hb'. pose proof (parentOf_lt j Hj). swap_cases; try lia.
    eapply (Ho j); eauto; lia.
Qed.

Lemma smallestChild_ok h i :
  (2 * i + 1 < length h)%nat ->
  exists s c, smallestChild h (2 * i + 1) = Some s /\ (0 < s)%nat /\ parentOf s = i /\ h !! s = Some c /\
    forall j, (0 < j)%nat -> parentOf j = i -> edge h s j.
Proof.
  intros H0. unfold smallestChild. destruct (lookup_lt h (2 * i + 1) ltac:(lia)) as [l Hl].
  destruct (Nat.ltb_spec (2 * i + 1 + 1) (length h)) as [H1|H1].
  - destruct (lookup_lt h (2 * i + 1 + 1) ltac:(lia)) as [r Hr].
    rewrite Hr, Hl. cbn [mbind option_bind]. destruct (less r l) eqn:Hrl; do 2 eexists;
      (split; [reflexivity|]); (split; [lia|]); (split; [apply parentOf_iff; lia|]); (split; [eassumption|]);
      intros j Hj Hpj a b Ha Hb; apply parentOf_iff in Hpj as [->| ->]; try lia;
      replace (2 * i + 2)%nat with (2 * i + 1 + 1)%nat in * by lia; simplify_eq; order.
  - do 2 eexists. split; [reflexivity|]. split; [lia|]. split; [apply parentOf_iff; lia|]. split; [exact Hl|].
    intros j Hj Hpj a b Ha Hb. apply lookup_lt_Some in Hb as Hlt.
    apply parentOf_iff in Hpj as [->| ->]; try lia. simplify_eq. order.
Qed.

Lemma siftDown_ok fuel h i :
  (length h - i <= fuel)%nat -> (i < length h)%nat -> okAbove h i ->
  exists h', siftDown fuel h i = Some h' /\ heapOk h' /\ h' ≡ₚ h.
Proof.
  revert h i. induction fuel as [|fuel IH]; intros h i Hf Hi Hok; [lia|].
  cbn [siftDown]. destruct (Nat.leb_spec (length h) (2 * i + 1)) as [H0|H0].
  - exists h. split; [done|]. split; [|done]. intros j Hj.
    destruct (decide (parentOf j = i)) as [E|]; [|by apply Hok].
    intros a b Ha Hb. apply lookup_lt_Some in Hb. apply parentOf_iff in E; lia.
  - destruct (lookup_lt h i Hi) as [x Hx].
    destruct (smallestChild_ok h i ltac:(lia)) as (s & c & E & Hs & Hps & Hc & Hmin).
    rewrite E. cbn. rewrite Hc, Hx. cbn.
    assert (Hlt : (i < s)%nat) by (rewrite <- Hps; apply parentOf_lt; lia).
    pose proof (lookup_lt_Some _ _ _ Hc) as Ls.
    destruct (less c x) eqn:Hl; cbn [negb].
    + destruct (IH (<[s:=x]> (<[i:=c]> h)) s) as (h' & E' & Hh & Hperm);
        [rewrite !length_insert; lia|rewrite !length_insert; lia|by eapply siftDown_swap|].
      exists h'. split; [done|]. split; [done|]. rewrite Hperm. by apply Permutation_insert_swap.
    + exists h. split; [done|]. split; [|done]. intros j Hj.
      destruct (decide (parentOf j = i)) as [Ej|]; [|by apply Hok].
      intros a b Ha Hb. rewrite Ej in Ha. simplify_eq.
      transitivity c; [done|]. by apply (Hmin j).
Qed.

(** ** Queue-level lemmas *)

Lemma heap_root_min h top x : heapOk h -> h !! 0%nat = Some top -> x ∈ h -> notAfter top x.
Proof.
  intros Hh Ht Hx. apply list_elem_of_lookup in Hx as [j Hj]. revert x Hj.
  induction (lt_wf j) as [j _ IH]. intros x Hj. destruct (decide (j = 0%nat)) as [->|Hne].
  - simplify_eq. reflexivity.
  - pose proof (parentOf_lt j ltac:(lia)) as Hp. pose proof (lookup_lt_Some _ _ _ Hj).
    destruct (lookup_lt h (parentOf j) ltac:(lia)) as [y Hy].
    transitivity y; [by apply (IH _ Hp)|]. by apply (Hh j ltac:(lia)).
Qed.

Lemma heapOk_sub h h' :
  (forall i x, (0 < i)%nat -> h' !! i = Some x -> h !! i = Some x) -> length h' = length h ->
  heapOk h -> okAbove h' 0.
Proof.
  intros Hsub Hlen Hh. split; [|lia]. intros j Hj Hp a b Ha Hb.
  apply (Hh j Hj); apply Hsub; auto; lia.
Qed.

Lemma heapOk_take h n : heapOk h -> heapOk (take n h).
Proof.
  intros Hh j Hj a b Ha Hb.
  apply lookup_take_Some in Ha as [Ha _]. apply lookup_take_Some in Hb as [Hb _]. by apply (Hh j).
Qed.

(** The sequence numbers in the heap have been handed out. *)
Definition queueOk (q : eventQueue) : Prop :=
  heapOk (heap q) /\ Forall (fun x => seq x < nextID q) (heap q).

Lemma queueOk_new : queueOk newEventQueue.
Proof. split; [intros j Hj a b Ha Hb; discriminate|constructor]. Qed.

(** The item [push] builds. *)
Definition itemFor (e : Event) (s : Z) : queuedEvent :=
  mkQueued e (UnixNano (UTC (TsEvent e))) (Priority (Kind e)) s.

Lemma push_heap q e : heapOk (heap q) ->
  exists h', push q e = Some (nextID q, mkQueue h' (wrapu64 (nextID q + 1))) /\
    heapOk h' /\ h' ≡ₚ itemFor e (nextID q) :: heap q.
Proof.
  intros Hh. unfold push. cbn [nextSeq heap nextID].
  fold (itemFor e (nextID q)). set (x := itemFor e (nextID q)).
  set (h := heap q ++ [x]). assert (Hl : length h = S (length (heap q))) by (unfold h; rewrite length_app; cbn; lia).
  destruct (siftUp_ok (length h) h (length h - 1)) as (h' & E & Hok & Hp); [lia|lia| |].
  - split.
    + intros j Hj Hji a b Ha Hb. pose proof (lookup_lt_Some _ _ _ Hb). pose proof (parentOf_lt j Hj).
      unfold h in Ha, Hb. rewrite lookup_app_l in Ha, Hb by lia. by apply (Hh j).
    + intros j Hj _ Hpj a b _ Hb. apply lookup_lt_Some in Hb. pose proof (parentOf_lt j Hj). lia.
  - rewrite E. cbn. exists h'. split; [done|]. split; [done|].
    rewrite Hp. unfold h. symmetry. apply Permutation_cons_append.
Qed.

Lemma pop_empty q : heap q = [] -> pop q = Some (None, q).
Proof. intros E. unfold pop. by rewrite E. Qed.

Lemma pop_heap q : heap q <> [] -> heapOk (heap q) ->
  exists top h', pop q = Some (Some (ev top), mkQueue h' (nextID q)) /\
    heap q !! 0%nat = Some top /\ heapOk h' /\ heap q ≡ₚ top :: h'.
Proof.
  intros Hne Hh. unfold pop. destruct q as [h id]; cbn [heap nextID] in *.
  destruct h as [|top h]; [done|]. clear Hne.
  destruct (list_eq_nil_dec h) as [->|Hne].
  - cbn. exists top, []. split; [done|]. split; [done|]. split; [intros j Hj a b Ha Hb; discriminate|done].
  - destruct (exists_last Hne) as (h0 & lst & ->).
    assert (EL : length (top :: h0 ++ [lst]) = S (S (length h0))) by (cbn; rewrite length_app; cbn; lia).
    rewrite EL. replace (S (S (length h0)) - 1)%nat with (S (length h0)) by lia.
    cbv zeta iota. rewrite app_comm_cons. rewrite lookup_app_r by (cbn; lia).
    replace (S (length h0) - length (top :: h0))%nat with 0%nat by (cbn; lia). cbn [lookup list_lookup mbind option_bind].
    change (<[0%nat:=lst]> ((top :: h0) ++ [lst])) with ((lst :: h0) ++ [lst]).
    rewrite take_app_length' by (cbn; lia).
    destruct (siftDown_ok (length (lst :: h0)) (lst :: h0) 0) as (h' & E & Hok & Hp); [lia|cbn; lia| |].
    + apply (heapOk_sub (top :: h0)); [intros [|i] x Hi Hx; [lia|done]|done|].
      apply (heapOk_take _ (S (length h0))) in Hh.
      cbn in Hh. by rewrite take_app_length in Hh.
    + rewrite E. change (0 <? length (lst :: h0))%nat with true. cbn. exists top, h'. split; [done|]. split; [done|]. split; [done|].
      rewrite Hp. cbn. apply perm_skip. symmetry. apply Permutation_cons_append.
Qed.

(** The simulation relation: the abstract list is the sorted permutation of
    the heap. *)
Definition refines (q : eventQueue) (s : specQueue) : Prop :=
  queueOk q /\ heap q ≡ₚ items s /\ StronglySorted before (items s) /\ nextID q = nextTok s.

Lemma insertSorted_perm x l : insertSorted x l ≡ₚ x :: l.
Proof.
  induction l as [|y l IH]; cbn; [done|]. destruct (less x y); [done|]. rewrite IH. apply perm_swap.
Qed.

Lemma insertSorted_sorted x l :
  StronglySorted before l -> Forall (fun y => seq y < seq x) l -> StronglySorted before (insertSorted x l).
Proof.
  induction 1 as [|y l Hs IH Hy]; intros Hf; cbn; [repeat constructor|].
  inversion_clear Hf as [|? ? Hyx Hf']. destruct (less x y) eqn:E.
  - constructor; [by constructor|]. constructor; [done|].
    eapply List.Forall_impl; [|exact Hy]. intros z Hz. by apply (before_trans x y z).
  - constructor; [by apply IH|]. rewrite insertSorted_perm. constructor; [|done].
    destruct (before_total x y) as [H|H]; [lia| |done]. unfold before in H. congruence.
Qed.

Lemma push_refines q s e :
  refines q s -> 0 <= nextTok s -> nextTok s + 1 <= max_uint64 ->
  exists q', push q e = Some (nextTok s, q') /\ refines q' (specStep s (OpPush e)).2.
Proof.
  intros ([Hh Hf] & Hp & Hs & Hid) H0 Hn. destruct (push_heap q e Hh) as (h' & E & Hok & Hperm).
  rewrite Hid in *. rewrite wrapu64_id in E by rlia. eexists. split; [exact E|]. cbn.
  fold (itemFor e (nextTok s)). unfold refines. cbn.
  repeat apply conj; [done| | | |done].
  - cbn. rewrite Hperm. constructor; [cbn; lia|]. eapply List.Forall_impl; [|exact Hf]. cbn; lia.
  - rewrite insertSorted_perm, Hperm. by rewrite Hp.
  - apply insertSorted_sorted; [done|]. rewrite <- Hp. exact Hf.
Qed.

Lemma root_refines q s : refines q s -> heap q !! 0%nat = items s !! 0%nat.
Proof.
  intros ([Hh Hf] & Hp & Hs & Hid). destruct (heap q) as [|top h] eqn:Eh, (items s) as [|a l] eqn:Es.
  - done.
  - by apply Permutation_nil_cons in Hp.
  - symmetry in Hp. by apply Permutation_nil_cons in Hp.
  - cbn. f_equal. assert (H1 : top ∈ a :: l) by (rewrite <- Hp; left).
    assert (H2 : notAfter top a) by (apply (heap_root_min (top :: h)); [done|done|rewrite Hp; left]).
    apply elem_of_cons in H1 as [H1|H1]; [done|]. apply StronglySorted_inv in Hs as [_ Hs].
    apply list_elem_of_In in H1.
    rewrite List.Forall_forall in Hs. specialize (Hs top H1). order.
Qed.

Lemma pop_refines q s :
  refines q s ->
  exists r q', pop q = Some (r, q') /\ (specStep s OpPop).1 = OutEvent r /\
    refines q' (specStep s OpPop).2.
Proof.
  intros R. pose proof (root_refines q s R) as Hroot. pose proof R as ([Hh Hf] & Hp & Hs & Hid). cbn.
  destruct (items s) as [|a l] eqn:Es.
  - apply Permutation_nil_r in Hp. exists None, q. split; [by apply pop_empty|]. by split.
  - destruct (pop_heap q) as (top & h' & E & Ht & Hok & Hperm); [|done|].
    { intros E. rewrite E in Hp. by apply Permutation_nil_cons in Hp. }
    rewrite Ht in Hroot. cbn in Hroot. simplify_eq.
    eexists _, _. split; [exact E|]. split; [done|]. apply StronglySorted_inv in Hs as [Hs _].
    rewrite Hperm in Hp, Hf. apply Permutation_cons_inv in Hp. apply Forall_cons_1 in Hf as [_ Hf].
    by repeat apply conj.
Qed.

Lemma step_refines q s o :
  refines q s -> 0 <= nextTok s -> nextTok s + 1 <= max_uint64 ->
  exists q', queueStep q o = Some ((specStep s o).1, q') /\ refines q' (specStep s o).2.
Proof.
  intros R H0 Hn. destruct o as [e| | |].
  - destruct (push_refines q s e) as (q' & E & R'); auto. cbn [queueStep]. rewrite E. by exists q'.
  - destruct (pop_refines q s R) as (r & q' & E & Es & R'). cbn [queueStep]. rewrite E, Es. by exists q'.
  - destruct R as ([Hh Hf] & Hp & Hs & Hid). cbn. rewrite Hid, wrapu64_id by rlia.
    eexists. split; [done|]. repeat apply conj; [done| |done|done|done].
    eapply List.Forall_impl; [|exact Hf]. cbn. lia.
  - exists q. split; [|done]. cbn. pose proof (root_refines q s R). unfold peekTs.
    destruct (heap q), (items s); cbn in *; by simplify_eq.
Qed.

Lemma nextTok_step s o : nextTok s <= nextTok (specStep s o).2 <= nextTok s + 1.
Proof. destruct o; cbn; [lia|destruct (items s); cbn; lia|lia|lia]. Qed.

Lemma run_refines q s ops :
  refines q s -> 0 <= nextTok s -> nextTok s + Z.of_nat (length ops) <= max_uint64 ->
  exists q', runQueue q ops = Some ((runSpec s ops).1, q') /\ refines q' (runSpec s ops).2.
Proof.
  revert q s. induction ops as [|o ops IH]; intros q s R H0 Hn; cbn [runQueue runSpec].
  - by exists q.
  - cbn [length] in Hn. destruct (step_refines q s o) as (q' & E & R'); [done|done|lia|].
    rewrite E. pose proof (nextTok_step s o). destruct (specStep s o) as [r s'] eqn:Es; cbn in *.
    destruct (IH q' s') as (q'' & E' & R''); [done|lia|lia|]. rewrite E'. cbn.
    destruct (runSpec s' ops) as [rs s'']. by exists q''.
Qed.

(** The items [pushAll] enqueues, numbered from [s]. *)
Fixpoint seedItems (s : Z) (es : list Event) : list queuedEvent :=
  match es with [] => [] | e :: es => itemFor e s :: seedItems (s + 1) es end.

Lemma seedItems_length s es : length (seedItems s es) = length es.
Proof. revert s. induction es as [|e es IH]; intros s; cbn; [done|]. by rewrite IH. Qed.

Lemma pushAll_refines es q s :
  refines q s -> 0 <= nextTok s -> nextTok s + Z.of_nat (length es) <= max_uint64 ->
  exists q' s', pushAll q es = Some q' /\ refines q' s' /\ items s' ≡ₚ items s ++ seedItems (nextTok s) es.
Proof.
  revert q s. induction es as [|e es IH]; intros q s R H0 Hn; cbn [pushAll seedItems].
  - exists q, s. by rewrite app_nil_r.
  - cbn [length] in Hn. destruct (push_refines q s e) as (q1 & E & R1); [done|done|lia|].
    rewrite E. destruct (IH q1 (specStep s (OpPush e)).2) as (q' & s' & E' & R' & P); [done|cbn; lia|cbn; lia|].
    exists q', s'. split; [done|]. split; [done|]. rewrite P. cbn [specStep snd items nextTok].
    fold (itemFor e (nextTok s)). rewrite insertSorted_perm. apply Permutation_middle.
Qed.

Lemma drain_refines fuel q s :
  refines q s -> (length (items s) <= fuel)%nat -> drain fuel q = Some (map ev (items s)).
Proof.
  revert q s. induction fuel as [|fuel IH]; intros q s R Hl; cbn [drain].
  - by destruct (items s); cbn in *; [|lia].
  - destruct (pop_refines q s R) as (r & q' & E & Es & R'). rewrite E. cbn in *.
    destruct (items s) as [|x l]; cbn in *; simplify_eq; [done|].
    rewrite (IH q' _ R') by (cbn; lia). done.
Qed.

(** ** Properties *)

(** C7: the heap refines the sorted list: for every sequence of pushes, pops,
    peeks and token draws on a fresh queue, no operation panics and the
    outputs are those of the list kept sorted by [(tsNs, prio, seq)], so long
    as the [uint64] counter does not wrap. *)
Theorem queue_refines_sorted_list (ops : list queueOp) :
  Z.of_nat (length ops) <= max_uint64 ->
  option_map fst (runQueue newEventQueue ops) = Some (runSpec (mkSpec [] 0) ops).1.
Proof.
  intros H. destruct (run_refines newEventQueue (mkSpec [] 0) ops) as (q' & E & _); [|done|cbn; lia|by rewrite E].
  split; [apply queueOk_new|]. repeat constructor.
Qed.

Lemma queue_refines_sorted_list_witness :
  let t n := mkTime n 0 in
  option_map fst (runQueue newEventQueue
    [OpPush (SampleEvent (t 5)); OpPush (SampleEvent (t 3)); OpPush (SampleEvent (t 5)); OpPop; OpPop])
  = Some [OutSeq 0; OutSeq 1; OutSeq 2; OutEvent (Some (SampleEvent (t 3))); OutEvent (Some (SampleEvent (t 5)))].
Proof.
  intros t. rewrite queue_refines_sorted_list by (vm_compute; discriminate).
  vm_compute. reflexivity.
Defined.

(** A queue seeded with a list of events pops them all, each once, in
    strictly increasing [(timestamp, kind, insertion)] order: the dispatch order
    is the stable sort of the insertion order by timestamp and kind. *)
Theorem drain_stable_sort (es : list Event) :
  Z.of_nat (length es) <= max_uint64 ->
  exists q l,
    pushAll newEventQueue es = Some q /\ drain (length es) q = Some (map ev l) /\
    StronglySorted before l /\ l ≡ₚ seedItems 0 es.
Proof.
  intros H. destruct (pushAll_refines es newEventQueue (mkSpec [] 0)) as (q & s & E & R & P);
    [split; [apply queueOk_new|]; repeat constructor|done|cbn; lia|].
  exists q, (items s). cbn [nextTok items app] in P.
  split; [done|]. split; [|split; [apply R|done]].
  rewrite <- (seedItems_length 0 es), <- P. by apply drain_refines.
Qed.

Lemma drain_stable_sort_witness :
  let t n := mkTime n 0 in
  let es := [SampleEvent (t 5); SampleEvent (t 3); SampleEvent (t 5)] in
  exists q l,
    pushAll newEventQueue es = Some q /\ drain (length es) q = Some (map ev l) /\
    StronglySorted before l /\ l ≡ₚ seedItems 0 es.
Proof. intros t es. apply (drain_stable_sort es). vm_compute. discriminate. Defined.
