(* ===== verification/Loop.v ===== *)
(** * The event loops (src/internal/core/clock.go, loop.go, stream.go)

    The simulated clock, the batch loop that drains the queue and the
    streaming loop that is fed one event at a time.  A handler is arbitrary
    code that may call [Schedule], [NextSeq] and [Now] on the loop that runs
    it: it is a finite tree of such calls over a state of its own, so that the
    theorems quantify over every handler.  [ctx.Err()] is an oracle indexed by
    the number of the check.  [Run] carries fuel; its termination is a theorem
    about handlers that schedule less work than they consume. *)

From stdpp Require Import list sorting.
From S2P Require Import Prelude Domain EventQueue.
Set Default Goal Selector "!".
#[local] Open Scope Z_scope.
#[local] Abbreviation length := List.length.

(** ** SimClock *)

Definition NewSimClock : time := zeroTime.

Definition Advance (now t : time) : res time :=
  if nonUTC t then Err ErrInvalidArgument
  else if negb (IsZeroTime now) && Before t now then Err ErrTimeReversal
  else Ok t.

Section Loops.
Context {St : Type}.

(** ** Handlers

    Between two calls of [Schedule] a handler may draw sequence numbers: [n]
    draws from a counter at [s] return [s .. s+n-1], so a stretch of code that
    makes them is a function of [s] that also tells how many it made. *)

Inductive HProg : Type :=
| HDone (st : St) (r : option error)
| HSchedule (e : Event) (k : res Z -> HProg)
| HNextSeq (draws : Z -> nat) (k : Z -> HProg)
| HNow (k : time -> HProg).

Definition Handler : Type := St -> Event -> HProg.
(** [map[EventKind]Handler] *)
Definition Handlers : Type := EventKind -> option Handler.

Definition noHandlers : Handlers := fun _ => None.

Definition Register (hs : Handlers) (kind : EventKind) (h : Handler) : Handlers :=
  fun k => if decide (k = kind) then Some h else hs k.

(** ** The batch loop *)

Record Loop : Set := mkLoop { clock : time; queue : eventQueue; closed : bool }.

Definition NewLoop : Loop := mkLoop NewSimClock newEventQueue false.

Definition setQueue (l : Loop) (q : eventQueue) : Loop := mkLoop (clock l) q (closed l).

Definition Schedule (l : Loop) (e : Event) : option (res Z * Loop) :=
  if closed l then Some (Err ErrLoopClosed, l)
  else
    let ts := TsEvent e in
    if nonUTC ts then Some (Err ErrTimeReversal, l)
    else if negb (IsZeroTime (clock l)) && Before ts (clock l) then Some (Err ErrTimeReversal, l)
    else '(s, q) ← push (queue l) e; Some (Ok s, setQueue l q).

Definition NextSeq (l : Loop) : Z * Loop :=
  let '(s, q) := nextSeq (queue l) in (s, setQueue l q).

Definition drawSeqs (n : nat) (l : Loop) : Loop := Nat.iter n (fun l => snd (NextSeq l)) l.

Definition Now (l : Loop) : time := clock l.

(** One handler call: the loop and the handler's state after it, its error,
    and the events it scheduled with success. *)
Fixpoint runHandler (l : Loop) (p : HProg) : option (Loop * St * option error * list Event) :=
  match p with
  | HDone st r => Some (l, st, r, [])
  | HSchedule e k =>
      '(r, l') ← Schedule l e;
      '(l'', st, r', acc) ← runHandler l' (k r);
      Some (l'', st, r', if is_ok r then e :: acc else acc)
  | HNextSeq draws k => let s := nextID (queue l) in runHandler (drawSeqs (draws s) l) (k s)
  | HNow k => runHandler l (k (Now l))
  end.

(** How a run ends. *)
Inductive runEnd : Set :=
| Drained
| Cancelled
| AdvanceError (e : error)
| NoHandler (k : EventKind)
| HandlerError (e : error).

(** [Run]: the loop after it (closed by the deferred function), the handlers'
    state, the events handed to handlers in order, the events they scheduled,
    and the end.  [None] is a run longer than the fuel. *)
Record runResult : Type := mkRun {
  r_loop : Loop;
  r_state : St;
  r_trace : list Event;
  r_scheduled : list Event;
  r_end : runEnd
}.

Definition closeLoop (l : Loop) : Loop := mkLoop (clock l) (queue l) true.

Fixpoint Run (fuel : nat) (ctxErr : nat -> bool) (n : nat) (hs : Handlers) (l : Loop) (st : St) : option runResult :=
  match fuel with
  | O => None
  | S fuel =>
      if ctxErr n then Some (mkRun (closeLoop l) st [] [] Cancelled)
      else
        '(r, q) ← pop (queue l);
        let l := setQueue l q in
        match r with
        | None => Some (mkRun (closeLoop l) st [] [] Drained)
        | Some e =>
            match Advance (clock l) (TsEvent e) with
            | Err err => Some (mkRun (closeLoop l) st [] [] (AdvanceError err))
            | Ok now =>
                let l := mkLoop now (queue l) (closed l) in
                match hs (Kind e) with
                | None => Some (mkRun (closeLoop l) st [] [] (NoHandler (Kind e)))
                | Some h =>
                    '(l, st, herr, acc) ← runHandler l (h st e);
                    match herr with
                    | Some err => Some (mkRun (closeLoop l) st [e] acc (HandlerError err))
                    | None =>
                        rest ← Run fuel ctxErr (S n) hs l st;
                        Some (mkRun (r_loop rest) (r_state rest) (e :: r_trace rest)
                                (acc ++ r_scheduled rest) (r_end rest))
                    end
                end
            end
        end
  end.

(** ** The streaming loop

    [vnow] is the virtual clock; under the wall discipline [set] does nothing
    and [Now] reads the host clock, an oracle over the reads made so far. *)

Inductive StreamClockMode : Set := StreamWall | StreamVirtual.

Record StreamLoop : Set := mkStream {
  s_mode : StreamClockMode;
  s_vnow : time;
  s_reads : nat;
  s_queue : eventQueue;
  s_lastTs : time;
  s_haveLast : bool;
  s_closed : bool
}.

Definition NewStreamLoop (mode : StreamClockMode) (vc : option time) : StreamLoop :=
  mkStream mode (match vc with Some t => UTC t | None => UTC zeroTime end) 0 newEventQueue zeroTime false false.

Variable wall : nat -> time.

Definition streamNow (l : StreamLoop) : time * StreamLoop :=
  match s_mode l with
  | StreamVirtual => (s_vnow l, l)
  | StreamWall =>
      (UTC (wall (s_reads l)),
       mkStream (s_mode l) (s_vnow l) (S (s_reads l)) (s_queue l) (s_lastTs l) (s_haveLast l) (s_closed l))
  end.

Definition streamSetClock (l : StreamLoop) (t : time) : StreamLoop :=
  match s_mode l with
  | StreamWall => l
  | StreamVirtual => mkStream (s_mode l) (UTC t) (s_reads l) (s_queue l) (s_lastTs l) (s_haveLast l) (s_closed l)
  end.

Definition streamSetQueue (l : StreamLoop) (q : eventQueue) : StreamLoop :=
  mkStream (s_mode l) (s_vnow l) (s_reads l) q (s_lastTs l) (s_haveLast l) (s_closed l).

Definition streamSchedule (l : StreamLoop) (e : Event) : option (res Z * StreamLoop) :=
  if s_closed l then Some (Err ErrLoopClosed, l)
  else
    let ts := TsEvent e in
    if nonUTC ts then Some (Err ErrTimeReversal, l)
    else
      let '(now, l) := streamNow l in
      if negb (IsZeroTime now) && Before ts now then Some (Err ErrTimeReversal, l)
      else '(s, q) ← push (s_queue l) e; Some (Ok s, streamSetQueue l q).

Fixpoint runStreamHandler (l : StreamLoop) (p : HProg) : option (StreamLoop * St * option error) :=
  match p with
  | HDone st r => Some (l, st, r)
  | HSchedule e k => '(r, l') ← streamSchedule l e; runStreamHandler l' (k r)
  | HNextSeq draws k =>
      let s := nextID (s_queue l) in
      runStreamHandler (streamSetQueue l (Nat.iter (draws s) (fun q => snd (nextSeq q)) (s_queue l))) (k s)
  | HNow k => let '(now, l') := streamNow l in runStreamHandler l' (k now)
  end.

Inductive dispatchEnd : Set :=
| Dispatched
| StreamReversal
| StreamNoHandler (k : EventKind)
| StreamHandlerError (e : error).

Definition dispatch (hs : Handlers) (l : StreamLoop) (st : St) (e : Event) : option (StreamLoop * St * dispatchEnd) :=
  let ts := TsEvent e in
  if nonUTC ts then Some (l, st, StreamReversal)
  else if s_haveLast l && Before ts (s_lastTs l) then Some (l, st, StreamReversal)
  else
    let l := mkStream (s_mode l) (s_vnow l) (s_reads l) (s_queue l) ts true (s_closed l) in
    let l := streamSetClock l ts in
    match hs (Kind e) with
    | None => Some (l, st, StreamNoHandler (Kind e))
    | Some h =>
        '(l, st, herr) ← runStreamHandler l (h st e);
        Some (l, st, match herr with None => Dispatched | Some err => StreamHandlerError err end)
    end.

Inductive streamEnd : Set := StreamDone | StreamCancelled | StreamFailed (d : dispatchEnd).

(** The trace lists the events whose handler succeeded. *)
Fixpoint drainQueue (fuel : nat) (ctxErr : nat -> bool) (n : nat) (hs : Handlers) (l : StreamLoop) (st : St)
    : option (StreamLoop * St * nat * list Event * streamEnd) :=
  match fuel with
  | O => None
  | S fuel =>
      if ctxErr n then Some (l, st, S n, [], StreamCancelled)
      else
        '(r, q) ← pop (s_queue l);
        let l := streamSetQueue l q in
        match r with
        | None => Some (l, st, S n, [], StreamDone)
        | Some e =>
            '(l, st, d) ← dispatch hs l st e;
            match d with
            | Dispatched =>
                '(l, st, n, tr, en) ← drainQueue fuel ctxErr (S n) hs l st;
                Some (l, st, n, e :: tr, en)
            | _ => Some (l, st, S n, [], StreamFailed d)
            end
        end
  end.

(** The source is the list of events its channel delivers before it closes;
    the oracle decides the select when both branches are ready. *)
Fixpoint RunStream (fuel : nat) (ctxErr : nat -> bool) (n : nat) (hs : Handlers) (l : StreamLoop) (st : St)
    (src : list Event) : option (StreamLoop * St * list Event * streamEnd) :=
  let close l := mkStream (s_mode l) (s_vnow l) (s_reads l) (s_queue l) (s_lastTs l) (s_haveLast l) true in
  if ctxErr n then Some (close l, st, [], StreamCancelled)
  else
    match src with
    | [] => Some (close l, st, [], StreamDone)
    | e :: src =>
        '(l, st, d) ← dispatch hs l st e;
        match d with
        | Dispatched =>
            '(l, st, n, tr, en) ← drainQueue fuel ctxErr (S n) hs l st;
            match en with
            | StreamDone =>
                '(l, st, tr', en) ← RunStream fuel ctxErr n hs l st src;
                Some (l, st, e :: tr ++ tr', en)
            | _ => Some (close l, st, e :: tr, en)
            end
        | _ => Some (close l, st, [], StreamFailed d)
        end
    end.

(** ** Invariants *)

Definition inRange (e : Event) : Prop := in64 (t_ns (TsEvent e)).

(** Every event the program may schedule satisfies [P]. *)
Fixpoint schedules (P : Event -> Prop) (p : HProg) : Prop :=
  match p with
  | HDone _ _ => True
  | HSchedule e k => P e /\ forall r, schedules P (k r)
  | HNextSeq _ k => forall s, schedules P (k s)
  | HNow k => forall t, schedules P (k t)
  end.

Definition handlersIn (P : Event -> Prop) (hs : Handlers) : Prop :=
  forall h st e, hs (Kind e) = Some h -> inRange e -> schedules P (h st e).

(** A queued item is consistent with its event and not in the clock's past. *)
Definition itemOk (now : time) (x : queuedEvent) : Prop :=
  tsNs x = t_ns (TsEvent (ev x)) /\ prio x = Priority (Kind (ev x)) /\ nonUTC (TsEvent (ev x)) = false /\
  (IsZeroTime now = true \/ t_ns now <= tsNs x).

Definition loopOk (l : Loop) : Prop :=
  heapOk (heap (queue l)) /\ Forall (itemOk (clock l)) (heap (queue l)) /\
  Forall (fun x => in64 (tsNs x)) (heap (queue l)).

(** Along every path the program schedules events of total weight at most [n]. *)
Fixpoint budget (w : Event -> nat) (p : HProg) (n : nat) : Prop :=
  match p with
  | HDone _ _ => True
  | HSchedule e k => (w e <= n)%nat /\ (forall r, budget w (k r) (n - w e))
  | HNextSeq _ k => forall s, budget w (k s) n
  | HNow k => forall t, budget w (k t) n
  end.

Definition totalWeight (w : Event -> nat) (es : list Event) : nat := sum_list_with w es.

Definition eventsOf (q : eventQueue) : list Event := map ev (heap q).

Definition notBefore (a b : Event) : Prop := t_ns (TsEvent a) <= t_ns (TsEvent b).

(** ** The batch loop *)

Lemma itemOk_item now e s :
  inRange e -> nonUTC (TsEvent e) = false -> negb (IsZeroTime now) && Before (TsEvent e) now = false ->
  itemOk now (itemFor e s).
Proof.
  intros Hr Hu Hb. unfold itemOk, itemFor. cbn. unfold UnixNano, UTC. cbn.
  rewrite wrap64_id by exact Hr. split; [done|]. split; [done|]. split; [done|].
  unfold Before in Hb. destruct (IsZeroTime now); [by left|right]. cbn in Hb. breflect. done.
Qed.

Lemma Schedule_ok l e :
  loopOk l -> inRange e ->
  exists r l', Schedule l e = Some (r, l') /\ loopOk l' /\ clock l' = clock l /\ closed l' = closed l /\
    eventsOf (queue l') ≡ₚ (if is_ok r then [e] else []) ++ eventsOf (queue l).
Proof.
  intros (Hh & Hi & Hr) He. unfold Schedule.
  destruct (closed l) eqn:Hc; [by exists (Err ErrLoopClosed), l|].
  destruct (nonUTC (TsEvent e)) eqn:Hu; [by exists (Err ErrTimeReversal), l|].
  destruct (negb _ && _) eqn:Hb; [by exists (Err ErrTimeReversal), l|].
  destruct (push_heap (queue l) e Hh) as (h' & E & Hok & Hp). rewrite E.
  eexists _, _. split; [reflexivity|]. unfold loopOk, eventsOf. cbn.
  pose proof (itemOk_item (clock l) e (nextID (queue l)) He Hu Hb) as Hit.
  repeat split; [done| | |done|by rewrite Hp]; rewrite Hp; constructor; auto.
  destruct Hit as [-> _]. exact He.
Qed.

(** Drawing moves the counter and nothing else. *)
Lemma drawSeqs_spec n l :
  clock (drawSeqs n l) = clock l /\ closed (drawSeqs n l) = closed l /\
  heap (queue (drawSeqs n l)) = heap (queue l) /\
  (inu64 (nextID (queue l)) -> nextID (queue (drawSeqs n l)) = wrapu64 (nextID (queue l) + Z.of_nat n)).
Proof.
  induction n as [|n (H1 & H2 & H3 & H4)].
  - repeat split. intros H. rewrite Z.add_0_r. symmetry. by apply wrapu64_id.
  - change (drawSeqs (S n) l) with (snd (NextSeq (drawSeqs n l))). destruct (drawSeqs n l) as [c [h s] b]. cbn in *.
    splits; try done. intros H. rewrite H4 by done. unfold wrapu64. rewrite Z.add_mod_idemp_l by lia. f_equal. lia.
Qed.

Lemma drawSeqs_ok n l : loopOk l -> loopOk (drawSeqs n l).
Proof. destruct (drawSeqs_spec n l) as (E1 & _ & E2 & _). unfold loopOk. by rewrite E1, E2. Qed.

Lemma runHandler_ok p : forall l, loopOk l -> schedules inRange p ->
  exists l' st r acc, runHandler l p = Some (l', st, r, acc) /\ loopOk l' /\ clock l' = clock l /\
    eventsOf (queue l') ≡ₚ acc ++ eventsOf (queue l).
Proof.
  induction p as [st r|e k IH|draws k IH|k IH]; intros l Hl Hs; cbn [runHandler].
  - by exists l, st, r, [].
  - destruct Hs as [He Hk]. destruct (Schedule_ok l e Hl He) as (r & l1 & E & Hl1 & Hc & _ & Hp).
    rewrite E. cbn. destruct (IH r l1 Hl1 (Hk r)) as (l2 & st & r' & acc & E2 & Hl2 & Hc2 & Hp2).
    rewrite E2. cbn. eexists _, _, _, _. split; [reflexivity|]. split; [done|]. split; [congruence|].
    rewrite Hp2, Hp. destruct (is_ok r); cbn; [symmetry; apply Permutation_middle|done].
  - destruct (drawSeqs_spec (draws (nextID (queue l))) l) as (E1 & _ & E2 & _).
    destruct (IH (nextID (queue l)) _ (drawSeqs_ok (draws (nextID (queue l))) l Hl) (Hs _))
      as (l' & st & r & acc & E & Hl' & Hc & Hp).
    exists l', st, r, acc. unfold eventsOf in *. rewrite E1 in Hc. by rewrite E2 in Hp.
  - apply IH; [done|apply Hs].
Qed.

(** Popping keeps the invariant and moves the clock to a time no queued event precedes. *)
Lemma pop_advance l : loopOk l -> heap (queue l) <> [] ->
  exists e q, pop (queue l) = Some (Some e, q) /\ Advance (clock l) (TsEvent e) = Ok (TsEvent e) /\
    loopOk (mkLoop (TsEvent e) q (closed l)) /\ eventsOf (queue l) ≡ₚ e :: eventsOf q /\
    inRange e /\ (IsZeroTime (clock l) = true \/ t_ns (clock l) <= t_ns (TsEvent e)).
Proof.
  intros (Hh & Hi & Hr) Hne. destruct (pop_heap (queue l) Hne Hh) as (top & h' & E & Ht & Hok & Hp).
  assert (Hmin : forall x, x ∈ h' -> notAfter top x).
  { intros x Hx. apply (heap_root_min (heap (queue l))); [done|done|]. rewrite Hp. by right. }
  rewrite Hp in Hi, Hr. apply Forall_cons_1 in Hi as [(Hts & _ & Hu & Hz) Hi]. apply Forall_cons_1 in Hr as [Hr0 Hr].
  eexists _, _. split; [exact E|]. split; [|split; [|split; [|split]]].
  - unfold Advance. rewrite Hu. destruct Hz as [Hz|Hz]; [by rewrite Hz|].
    unfold Before. destruct (Z.ltb_spec (t_ns (TsEvent (ev top))) (t_ns (clock l))); [lia|].
    by rewrite andb_false_r.
  - split; [done|]. split; [|done]. cbn. apply List.Forall_forall. intros x Hx. apply list_elem_of_In in Hx.
    rewrite List.Forall_forall in Hi. destruct (Hi x) as (Hx1 & Hx2 & Hx3 & _); [by apply list_elem_of_In|].
    split; [done|]. split; [done|]. split; [done|]. right. specialize (Hmin x Hx). rewrite <- Hts. order.
  - unfold eventsOf. cbn. by rewrite Hp.
  - unfold inRange. by rewrite <- Hts.
  - by rewrite <- Hts.
Qed.

Lemma inRange_notZero e : inRange e -> IsZeroTime (TsEvent e) = false.
Proof. intros H. unfold IsZeroTime, zeroNs, inRange in *. apply Z.eqb_neq. rlia. Qed.

(** What a run guarantees, whatever the handlers do. *)
Definition runOk (l : Loop) (r : runResult) : Prop :=
  (forall err, r_end r <> AdvanceError err) /\
  StronglySorted notBefore (r_trace r) /\
  Forall (fun e => IsZeroTime (clock l) = true \/ t_ns (clock l) <= t_ns (TsEvent e)) (r_trace r) /\
  closed (r_loop r) = true /\
  (r_end r = Drained -> r_trace r ≡ₚ eventsOf (queue l) ++ r_scheduled r).

Lemma Run_ok fuel ctxErr hs : handlersIn inRange hs -> forall n l st r,
  loopOk l -> Run fuel ctxErr n hs l st = Some r -> runOk l r.
Proof.
  intros Hhs. induction fuel as [|fuel IH]; intros n l st r Hl; cbn [Run]; [done|].
  destruct (ctxErr n); [intros; simplify_eq; by repeat constructor|].
  destruct (heap (queue l)) as [|x h] eqn:Eh.
  { rewrite pop_empty by done. cbn. intros; simplify_eq. repeat split; try done; try constructor.
    unfold eventsOf. by rewrite Eh. }
  destruct (pop_advance l Hl ltac:(congruence)) as (e & q & E & Ea & Hl1 & Hp & Hr & Hz).
  rewrite E. cbn. rewrite Ea. destruct (hs (Kind e)) as [hd|] eqn:Ek; [|intros; simplify_eq; by repeat constructor].
  destruct (runHandler_ok (hd st e) _ Hl1 (Hhs _ _ _ Ek Hr)) as (l2 & st2 & r2 & acc & E2 & Hl2 & Hc2 & Hp2).
  rewrite E2. cbn in Hc2, Hp2 |- *. destruct r2 as [err|].
  { intros; simplify_eq. unfold runOk. cbn. repeat apply conj; try done; [by repeat constructor|by constructor]. }
  destruct (Run fuel ctxErr (S n) hs l2 st2) as [rest|] eqn:Er; [|done]. cbn. intros; simplify_eq.
  destruct (IH _ _ _ _ Hl2 Er) as (H1 & H2 & H3 & H4 & H5). rewrite Hc2 in H3.
  rewrite inRange_notZero in H3 by done.
  assert (H3' : Forall (notBefore e) (r_trace rest))
    by (eapply List.Forall_impl; [|exact H3]; intros a [?|?]; done).
  unfold runOk. cbn. repeat apply conj; auto.
  - by constructor.
  - constructor; [done|]. eapply List.Forall_impl; [|exact H3']. unfold notBefore. intros a Ha.
    destruct Hz as [Hz|Hz]; [by left|right; lia].
  - intros Hd. rewrite (H5 Hd), Hp2, Hp. rewrite <- app_comm_cons. apply perm_skip.
    rewrite !app_assoc. apply Permutation_app_tail. apply Permutation_app_comm.
Qed.

Lemma budget_acc w p : forall l n l' st r acc,
  budget w p n -> runHandler l p = Some (l', st, r, acc) -> (totalWeight w acc <= n)%nat.
Proof.
  induction p as [st0 r0|e k IH|draws k IH|k IH]; intros l n l' st r acc Hb; cbn [runHandler].
  - intros; simplify_eq. cbn. lia.
  - destruct Hb as [He Hk]. destruct (Schedule l e) as [[r1 l1]|]; [cbn|done].
    destruct (runHandler l1 (k r1)) as [[[[l2 st2] r2] acc2]|] eqn:E; [cbn|done]. intros; simplify_eq.
    specialize (IH r1 _ _ _ _ _ _ (Hk r1) E). destruct (is_ok r1); cbn; unfold totalWeight in *; lia.
  - apply IH, Hb.
  - apply IH, Hb.
Qed.

Lemma Run_terminates w ctxErr hs fuel :
  handlersIn inRange hs ->
  (forall h st e, hs (Kind e) = Some h -> (0 < w e)%nat /\ budget w (h st e) (w e - 1)) ->
  forall n l st, loopOk l -> (totalWeight w (eventsOf (queue l)) < fuel)%nat ->
  exists r, Run fuel ctxErr n hs l st = Some r.
Proof.
  intros Hhs Hw. induction fuel as [|fuel IH]; intros n l st Hl Hf; [lia|]. cbn [Run].
  destruct (ctxErr n); [eauto|].
  destruct (heap (queue l)) as [|x h] eqn:Eh; [rewrite pop_empty by done; cbn; eauto|].
  destruct (pop_advance l Hl ltac:(congruence)) as (e & q & E & Ea & Hl1 & Hp & Hr & _).
  rewrite E. cbn. rewrite Ea. destruct (hs (Kind e)) as [hd|] eqn:Ek; [|eauto].
  destruct (runHandler_ok (hd st e) _ Hl1 (Hhs _ _ _ Ek Hr)) as (l2 & st2 & r2 & acc & E2 & Hl2 & _ & Hp2).
  rewrite E2. cbn. destruct r2 as [err|]; [eauto|].
  destruct (Hw _ st e Ek) as [He Hb]. pose proof (budget_acc _ _ _ _ _ _ _ _ Hb E2) as Ha.
  unfold totalWeight in *. rewrite Hp in Hf. cbn in Hf.
  destruct (IH (S n) l2 st2 Hl2) as [rest Er]; [rewrite Hp2, sum_list_with_app; cbn; lia|].
  rewrite Er. cbn. eauto.
Qed.

(** A predicate of the queued events and of every event scheduled holds of
    every event dispatched. *)
Lemma runHandler_sched P p : forall l l' st r acc,
  schedules P p -> runHandler l p = Some (l', st, r, acc) -> Forall P acc.
Proof.
  induction p as [st0 r0|e k IH|draws k IH|k IH]; intros l l' st r acc Hs; cbn [runHandler].
  - intros; simplify_eq. constructor.
  - destruct Hs as [He Hk]. destruct (Schedule l e) as [[r1 l1]|]; [cbn|done].
    destruct (runHandler l1 (k r1)) as [[[[l2 st2] r2] acc2]|] eqn:E; [cbn|done]. intros; simplify_eq.
    specialize (IH r1 _ _ _ _ _ (Hk r1) E). destruct (is_ok r1); [by constructor|done].
  - apply IH, Hs.
  - apply IH, Hs.
Qed.

Lemma Run_forall P fuel ctxErr hs :
  handlersIn inRange hs -> handlersIn P hs -> forall n l st r,
  loopOk l -> Forall P (eventsOf (queue l)) -> Run fuel ctxErr n hs l st = Some r -> Forall P (r_trace r).
Proof.
  intros Hhs HP. induction fuel as [|fuel IH]; intros n l st r Hl Hq; cbn [Run]; [done|].
  destruct (ctxErr n); [intros; simplify_eq; constructor|].
  destruct (heap (queue l)) as [|x h] eqn:Eh; [rewrite pop_empty by done; cbn; intros; simplify_eq; constructor|].
  destruct (pop_advance l Hl ltac:(congruence)) as (e & q & E & Ea & Hl1 & Hp & Hr & _).
  rewrite E. cbn. rewrite Ea. destruct (hs (Kind e)) as [hd|] eqn:Ek; [|intros; simplify_eq; constructor].
  destruct (runHandler_ok (hd st e) _ Hl1 (Hhs _ _ _ Ek Hr)) as (l2 & st2 & r2 & acc & E2 & Hl2 & _ & Hp2).
  pose proof (runHandler_sched P _ _ _ _ _ _ (HP _ st e Ek Hr) E2) as Hacc.
  rewrite Hp in Hq. apply Forall_cons_1 in Hq as [He Hq]. rewrite E2. cbn in *.
  destruct r2 as [err|]; [intros; simplify_eq; by repeat constructor|].
  destruct (Run fuel ctxErr (S n) hs l2 st2) as [rest|] eqn:Er; [|done]. cbn. intros; simplify_eq.
  cbn. constructor; [done|]. apply (IH _ _ _ _ Hl2) in Er; [done|]. rewrite Hp2. apply List.Forall_app. by split.
Qed.

Lemma Run_scheduled P fuel ctxErr hs :
  handlersIn inRange hs -> handlersIn P hs -> forall n l st r,
  loopOk l -> Run fuel ctxErr n hs l st = Some r -> Forall P (r_scheduled r).
Proof.
  intros Hhs HP. induction fuel as [|fuel IH]; intros n l st r Hl; cbn [Run]; [done|].
  destruct (ctxErr n); [intros; simplify_eq; constructor|].
  destruct (heap (queue l)) as [|x h] eqn:Eh; [rewrite pop_empty by done; cbn; intros; simplify_eq; constructor|].
  destruct (pop_advance l Hl ltac:(congruence)) as (e & q & E & Ea & Hl1 & _ & Hr & _).
  rewrite E. cbn. rewrite Ea. destruct (hs (Kind e)) as [hd|] eqn:Ek; [|intros; simplify_eq; constructor].
  destruct (runHandler_ok (hd st e) _ Hl1 (Hhs _ _ _ Ek Hr)) as (l2 & st2 & r2 & acc & E2 & Hl2 & _ & _).
  pose proof (runHandler_sched P _ _ _ _ _ _ (HP _ st e Ek Hr) E2) as Hacc. rewrite E2. cbn.
  destruct r2 as [err|]; [intros; by simplify_eq|].
  destruct (Run fuel ctxErr (S n) hs l2 st2) as [rest|] eqn:Er; [|done]. cbn. intros; simplify_eq. cbn.
  apply List.Forall_app. split; [done|]. by eapply IH.
Qed.

(** An invariant of the handlers' state, indexed by the events handled so far,
    holds at the end of a run that drained the queue. *)
Lemma Run_state (P : Event -> Prop) (I : list Event -> St -> Prop) fuel ctxErr hs :
  handlersIn inRange hs -> handlersIn P hs ->
  (forall h e st l l' st' acc tr, hs (Kind e) = Some h -> P e -> I tr st ->
     runHandler l (h st e) = Some (l', st', None, acc) -> I (tr ++ [e]) st') ->
  forall n l st r tr, loopOk l -> Forall P (eventsOf (queue l)) -> I tr st ->
  Run fuel ctxErr n hs l st = Some r -> r_end r = Drained -> I (tr ++ r_trace r) (r_state r).
Proof.
  intros Hhs HP HI. induction fuel as [|fuel IH]; intros n l st r tr Hl Hq Hst; cbn [Run]; [done|].
  destruct (ctxErr n); [intros; by simplify_eq|].
  destruct (heap (queue l)) as [|x h] eqn:Eh.
  { rewrite pop_empty by done. cbn. intros; simplify_eq. cbn. by rewrite app_nil_r. }
  destruct (pop_advance l Hl ltac:(congruence)) as (e & q & E & Ea & Hl1 & Hp & Hr & _).
  rewrite E. cbn. rewrite Ea. destruct (hs (Kind e)) as [hd|] eqn:Ek; [|intros; by simplify_eq].
  destruct (runHandler_ok (hd st e) _ Hl1 (Hhs _ _ _ Ek Hr)) as (l2 & st2 & r2 & acc & E2 & Hl2 & _ & Hp2).
  pose proof (runHandler_sched P _ _ _ _ _ _ (HP _ st e Ek Hr) E2) as Hacc.
  rewrite Hp in Hq. apply Forall_cons_1 in Hq as [He Hq]. rewrite E2. cbn in *.
  destruct r2 as [err|]; [intros; by simplify_eq|].
  destruct (Run fuel ctxErr (S n) hs l2 st2) as [rest|] eqn:Er; [|done]. cbn. intros; simplify_eq. cbn in *.
  specialize (HI _ _ _ _ _ _ _ _ Ek He Hst E2). apply (IH _ _ _ _ (tr ++ [e]) Hl2) in Er; [| |exact HI|done].
  - by rewrite <- app_assoc in Er.
  - rewrite Hp2. apply List.Forall_app. by split.
Qed.

(** [b] is a bar that came after the non-bar [a] only at a later timestamp. *)
Definition barsLead (a b : Event) : Prop :=
  Kind a <> KindBar -> Kind b = KindBar -> t_ns (TsEvent a) < t_ns (TsEvent b).

(** Popping a non-bar event leaves only bars of later timestamps. *)
Lemma pop_barsLead l e q :
  loopOk l -> pop (queue l) = Some (Some e, q) ->
  Forall (barsLead e) (eventsOf q).
Proof.
  intros (Hh & Hi & Hr) E. destruct (heap (queue l)) as [|x0 h0] eqn:Eh; [by rewrite pop_empty in E|].
  destruct (pop_heap (queue l)) as (top & h' & E' & Ht & Hok & Hp); [congruence|by rewrite Eh|].
  rewrite E in E'. simplify_eq. unfold eventsOf. cbn. apply List.Forall_map, List.Forall_forall. intros x Hx Ha Hb.
  assert (Hin : x ∈ heap (queue l)) by (rewrite Hp; right; by apply list_elem_of_In).
  assert (Hmin : notAfter top x) by (apply (heap_root_min (heap (queue l))); [by rewrite Eh|done|done]).
  assert (Htop : top ∈ heap (queue l)) by (rewrite Hp; left).
  apply list_elem_of_In in Hin, Htop. rewrite <- Eh in Hi. rewrite List.Forall_forall in Hi.
  destruct (Hi _ Hin) as (<- & P1 & _). destruct (Hi _ Htop) as (<- & P2 & _). rewrite Hb in P1. cbn in P1.
  assert (0 < prio top) by (rewrite P2; destruct (Kind (ev top)); [done|done|done]). order.
Qed.

Definition notBar (e : Event) : Prop := Kind e <> KindBar.

Lemma handlersIn_mono (P Q : Event -> Prop) hs :
  (forall e, P e -> Q e) -> handlersIn P hs -> handlersIn Q hs.
Proof.
  intros HPQ H h st e Ek Hr. specialize (H h st e Ek Hr). revert H.
  induction (h st e) as [st0 r0|e0 k IH|draws k IH|k IH]; cbn; auto.
  intros [He Hk]. auto.
Qed.

Lemma Run_barsLead fuel ctxErr hs :
  handlersIn inRange hs -> handlersIn notBar hs -> forall n l st r,
  loopOk l -> Run fuel ctxErr n hs l st = Some r -> StronglySorted barsLead (r_trace r).
Proof.
  intros Hhs HP. induction fuel as [|fuel IH]; intros n l st r Hl; cbn [Run]; [done|].
  destruct (ctxErr n); [intros; simplify_eq; constructor|].
  destruct (heap (queue l)) as [|x h] eqn:Eh; [rewrite pop_empty by done; cbn; intros; simplify_eq; constructor|].
  destruct (pop_advance l Hl ltac:(congruence)) as (e & q & E & Ea & Hl1 & Hp & Hr & _).
  pose proof (pop_barsLead l e q Hl E) as Hlead.
  rewrite E. cbn. rewrite Ea. destruct (hs (Kind e)) as [hd|] eqn:Ek; [|intros; simplify_eq; constructor].
  destruct (runHandler_ok (hd st e) _ Hl1 (Hhs _ _ _ Ek Hr)) as (l2 & st2 & r2 & acc & E2 & Hl2 & _ & Hp2).
  assert (HP' : handlersIn (barsLead e) hs) by (eapply handlersIn_mono; [|exact HP]; by intros a Ha _ Hb).
  pose proof (runHandler_sched _ _ _ _ _ _ _ (HP' _ st e Ek Hr) E2) as Hacc.
  rewrite E2. cbn in *. destruct r2 as [err|]; [intros; simplify_eq; by repeat constructor|].
  destruct (Run fuel ctxErr (S n) hs l2 st2) as [rest|] eqn:Er; [|done]. cbn. intros; simplify_eq.
  cbn. constructor; [by apply (IH _ _ _ _ Hl2 Er)|].
  apply (Run_forall (barsLead e) _ _ _ Hhs HP' _ _ _ _ Hl2) in Er; [done|].
  rewrite Hp2. apply List.Forall_app. by split.
Qed.

(** Seed a loop, as the assembler does before [Run]; rejected events are dropped. *)
Fixpoint scheduleAll (l : Loop) (es : list Event) : option Loop :=
  match es with
  | [] => Some l
  | e :: es => '(_, l') ← Schedule l e; scheduleAll l' es
  end.

Lemma NewLoop_ok : loopOk NewLoop.
Proof. split; [apply queueOk_new|]. split; constructor. Qed.

(** On the fresh clock only non-UTC events are rejected. *)
Lemma scheduleAll_ok es : forall l,
  loopOk l -> closed l = false -> IsZeroTime (clock l) = true -> Forall inRange es ->
  exists l', scheduleAll l es = Some l' /\ loopOk l' /\
    eventsOf (queue l') ≡ₚ eventsOf (queue l) ++ List.filter (fun e => negb (nonUTC (TsEvent e))) es.
Proof.
  induction es as [|e es IH]; intros l Hl Hc Hz Hr; cbn [scheduleAll].
  - exists l. cbn. by rewrite app_nil_r.
  - apply Forall_cons_1 in Hr as [He Hr]. destruct (Schedule_ok l e Hl He) as (r & l1 & E & Hl1 & Hc1 & Hcl & Hp).
    rewrite E. cbn. destruct (IH l1) as (l2 & E2 & Hl2 & Hp2); [done|congruence|congruence|done|].
    exists l2. split; [done|]. split; [done|]. rewrite Hp2, Hp.
    assert (is_ok r = negb (nonUTC (TsEvent e))) as ->.
    { unfold Schedule in E. rewrite Hc, Hz in E. destruct (nonUTC (TsEvent e)); cbn in E; [by simplify_eq|].
      destruct (push (queue l) e) as [[s q]|]; [cbn in E|done]. injection E as <- <-. done. }
    destruct (nonUTC (TsEvent e)); cbn; [done|]. apply Permutation_middle.
Qed.

(** ** The streaming loop *)

Lemma streamSchedule_queue l e r l' :
  streamSchedule l e = Some (r, l') ->
  s_lastTs l' = s_lastTs l /\ s_haveLast l' = s_haveLast l /\ s_mode l' = s_mode l.
Proof.
  unfold streamSchedule, streamNow. destruct l as [mode vnow reads q0 last have cl]; cbn.
  destruct cl; [intros; by simplify_eq|]. destruct (nonUTC (TsEvent e)); [intros; by simplify_eq|].
  destruct mode; cbn; (destruct (negb _ && _); [intros; by simplify_eq|]);
    destruct (push q0 e) as [[s q]|]; cbn; intros; by simplify_eq.
Qed.

Lemma runStreamHandler_gate p : forall l l' st r,
  runStreamHandler l p = Some (l', st, r) ->
  s_lastTs l' = s_lastTs l /\ s_haveLast l' = s_haveLast l /\ s_mode l' = s_mode l.
Proof.
  induction p as [st0 r0|e k IH|draws k IH|k IH]; intros l l' st r; cbn [runStreamHandler].
  - intros; by simplify_eq.
  - destruct (streamSchedule l e) as [[r1 l1]|] eqn:E; [cbn|done]. intros E2.
    apply streamSchedule_queue in E as (<- & <- & <-). by apply IH in E2.
  - intros E2. by apply IH in E2.
  - unfold streamNow. destruct (s_mode l) eqn:Em; intros E2; apply IH in E2; cbn in E2; by rewrite ?Em in E2.
Qed.

(** A dispatched event passes the gate and becomes the last timestamp. *)
Lemma dispatch_gate hs l st e l' st' :
  dispatch hs l st e = Some (l', st', Dispatched) ->
  s_lastTs l' = TsEvent e /\ s_haveLast l' = true /\
  (s_haveLast l = true -> t_ns (s_lastTs l) <= t_ns (TsEvent e)).
Proof.
  unfold dispatch. intros E. destruct (nonUTC (TsEvent e)); [done|].
  destruct (s_haveLast l && Before (TsEvent e) (s_lastTs l)) eqn:Hb; [done|].
  destruct (hs (Kind e)) as [h|]; [|done].
  destruct (runStreamHandler _ _) as [[[l1 st1] r1]|] eqn:Er; [cbn in E|done].
  apply runStreamHandler_gate in Er as (H1 & H2 & H3). destruct r1; simplify_eq.
  rewrite H1, H2. unfold streamSetClock. cbn. split; [by case_match|]. split; [by case_match|].
  intros Hh. rewrite Hh in Hb. unfold Before in Hb. cbn in Hb. breflect. lia.
Qed.

(** The trace of a drain and of a run continues the gate's timeline. *)
Definition follows (l : StreamLoop) (tr : list Event) : Prop :=
  StronglySorted notBefore tr /\
  Forall (fun e => s_haveLast l = true -> t_ns (s_lastTs l) <= t_ns (TsEvent e)) tr.

Lemma follows_cons hs l st e l' st' tr :
  dispatch hs l st e = Some (l', st', Dispatched) -> follows l' tr -> follows l (e :: tr).
Proof.
  intros E [Hs Hf]. apply dispatch_gate in E as (H1 & H2 & H3). rewrite H1, H2 in Hf.
  assert (Hf' : Forall (notBefore e) tr) by (eapply List.Forall_impl; [|exact Hf]; unfold notBefore; auto).
  split; constructor; auto. eapply List.Forall_impl; [|exact Hf']. unfold notBefore. intros a Ha Hh.
  specialize (H3 Hh). lia.
Qed.

Lemma follows_nil l : follows l [].
Proof. split; constructor. Qed.

(** [tr'] is what is dispatched after a drain that ended with [en]. *)
Lemma drainQueue_follows fuel ctxErr hs : forall n l st l' st' n' tr en tr',
  drainQueue fuel ctxErr n hs l st = Some (l', st', n', tr, en) ->
  (if en is StreamDone then follows l' tr' else tr' = []) -> follows l (tr ++ tr').
Proof.
  induction fuel as [|fuel IH]; intros n l st l' st' n' tr en tr'; cbn [drainQueue]; [done|].
  destruct (ctxErr n); [intros ? Hf; simplify_eq; subst; apply follows_nil|].
  destruct (pop (s_queue l)) as [[r q]|]; [cbn|done]. destruct r as [e|]; [|intros ? Hf; simplify_eq; exact Hf].
  destruct (dispatch hs (streamSetQueue l q) st e) as [[[l1 st1] d]|] eqn:Ed; [cbn|done].
  destruct d as [| | |]; try (intros ? Hf; simplify_eq; subst; apply follows_nil).
  destruct (drainQueue fuel ctxErr (S n) hs l1 st1) as [[[[[l2 st2] n2] tr2] en2]|] eqn:E2; [cbn|done].
  intros ? Hf. simplify_eq. eapply (follows_cons hs (streamSetQueue l q)); [exact Ed|]. by eapply IH.
Qed.

Lemma RunStream_follows fuel ctxErr hs src : forall n l st l' st' tr en,
  RunStream fuel ctxErr n hs l st src = Some (l', st', tr, en) -> follows l tr /\ s_closed l' = true.
Proof.
  induction src as [|e src IH]; intros n l st l' st' tr en; cbn [RunStream];
    (destruct (ctxErr n); [intros; simplify_eq; split; [apply follows_nil|done]|]).
  - intros; simplify_eq; split; [apply follows_nil|done].
  - destruct (dispatch hs l st e) as [[[l1 st1] d]|] eqn:Ed; [cbn|done].
    destruct d as [| | |]; try (intros; simplify_eq; split; [apply follows_nil|done]).
    destruct (drainQueue fuel ctxErr (S n) hs l1 st1) as [[[[[l2 st2] n2] tr2] en2]|] eqn:E2; [cbn|done].
    destruct en2 as [| |d2].
    + destruct (RunStream fuel ctxErr n2 hs l2 st2 src) as [[[[l3 st3] tr3] en3]|] eqn:E3; [cbn|done].
      intros; simplify_eq. apply IH in E3 as [H3 Hc]. split; [|done].
      eapply follows_cons; [exact Ed|]. by eapply drainQueue_follows.
    + intros; simplify_eq. split; [|done]. eapply follows_cons; [exact Ed|].
      rewrite <- (app_nil_r tr2). by eapply drainQueue_follows.
    + intros; simplify_eq. split; [|done]. eapply follows_cons; [exact Ed|].
      rewrite <- (app_nil_r tr2). by eapply drainQueue_follows.
Qed.

(** ** Properties *)

(** A batch run over any seeded events and any handlers keeps to the simulated
    timeline: the clock is never asked to go backwards, events reach the
    handlers in non-decreasing time, a clean drain has handed over every seeded
    and every scheduled event exactly once, and the loop is closed afterwards. *)
Theorem run_timeline seeds hs ctxErr fuel st r l :
  Forall inRange seeds -> handlersIn inRange hs ->
  scheduleAll NewLoop seeds = Some l -> Run fuel ctxErr 0 hs l st = Some r ->
  (forall err, r_end r <> AdvanceError err) /\
  StronglySorted notBefore (r_trace r) /\
  (r_end r = Drained ->
     r_trace r ≡ₚ List.filter (fun e => negb (nonUTC (TsEvent e))) seeds ++ r_scheduled r) /\
  (forall e, Schedule (r_loop r) e = Some (Err ErrLoopClosed, r_loop r)).
Proof.
  intros Hs Hh E Er. destruct (scheduleAll_ok seeds NewLoop NewLoop_ok) as (l' & E' & Hl & Hp); [done|done|done|].
  rewrite E in E'. simplify_eq. destruct (Run_ok _ _ _ Hh _ _ _ _ Hl Er) as (H1 & H2 & _ & H4 & H5).
  repeat apply conj; [done|done| |].
  - intros Hd. rewrite (H5 Hd), Hp. done.
  - intros e. unfold Schedule. by rewrite H4.
Qed.

(** A batch run terminates when every handler schedules less work than the event
    it consumes: with a weight for events that each handler call strictly
    decreases, the total weight of the queue bounds the number of iterations. *)
Theorem run_terminates w seeds hs ctxErr st :
  Forall inRange seeds -> handlersIn inRange hs ->
  (forall h st e, hs (Kind e) = Some h -> (0 < w e)%nat /\ budget w (h st e) (w e - 1)) ->
  exists l r, scheduleAll NewLoop seeds = Some l /\
    Run (S (totalWeight w (eventsOf (queue l)))) ctxErr 0 hs l st = Some r.
Proof.
  intros Hs Hh Hw. destruct (scheduleAll_ok seeds NewLoop NewLoop_ok) as (l & E & Hl & _); [done|done|done|].
  destruct (Run_terminates w ctxErr hs (S (totalWeight w (eventsOf (queue l)))) Hh Hw 0 l st Hl) as [r Er]; [lia|].
  by exists l, r.
Qed.

(** Market data leads each timestamp: when bars are only seeded, never
    scheduled by a handler, no bar is dispatched after a fill or a sample of the
    same timestamp, so accounting observes fills after every bar at that time. *)
Theorem bars_lead_timestamp seeds hs ctxErr fuel st r l :
  Forall inRange seeds -> handlersIn inRange hs -> handlersIn notBar hs ->
  scheduleAll NewLoop seeds = Some l -> Run fuel ctxErr 0 hs l st = Some r ->
  StronglySorted barsLead (r_trace r).
Proof.
  intros Hs Hh Hb E Er. destruct (scheduleAll_ok seeds NewLoop NewLoop_ok) as (l' & E' & Hl & _); [done|done|done|].
  rewrite E in E'. simplify_eq. by apply (Run_barsLead _ _ _ Hh Hb _ _ _ _ Hl Er).
Qed.

End Loops.

(** ** A concrete engine: each bar schedules one fill at its timestamp *)

Definition demoBar (sym : string) (ns : Z) : Event :=
  BarEvent {| bar_Symbol := sym; bar_TS := mkTime ns 0; bar_Open := 100; bar_High := 100;
              bar_Low := 100; bar_Close := 100; bar_Volume := 0 |}.

Definition demoFill (e : Event) : Event :=
  match e with
  | BarEvent b => FillEvent (mkFill "T" "O" "V" "S" (bar_Symbol b) OrderSideBuy 1 100 0 (bar_TS b))
  | _ => e
  end.

Definition demoHandlers : @Handlers unit :=
  Register (Register noHandlers KindBar (fun st e =>
    HSchedule (demoFill e) (fun r => HDone st (match r with Ok _ => None | Err err => Some err end))))
    KindFill (fun st e => HDone st None).

Definition demoWeight (e : Event) : nat := match e with BarEvent _ => 2 | _ => 1 end.

Lemma demo_inRange : handlersIn inRange demoHandlers.
Proof. intros h st [b|f|t] Hk Hr; cbv -[demoFill] in Hk; simplify_eq; cbn; [split; [exact Hr|done]|exact I]. Qed.

Lemma demo_notBar : handlersIn notBar demoHandlers.
Proof. intros h st [b|f|t] Hk Hr; cbv -[demoFill] in Hk; simplify_eq; cbn; [by split|exact I]. Qed.

Definition demoSeeds : list Event := [demoBar "AAA" 7; demoBar "BBB" 5; demoBar "CCC" 5].

Lemma demoSeeds_inRange : Forall inRange demoSeeds.
Proof. repeat apply List.Forall_cons; try apply List.Forall_nil; unfold inRange; cbn; rlia. Qed.

Lemma run_timeline_witness :
  exists l r, scheduleAll NewLoop demoSeeds = Some l /\ Run 10 (fun _ => false) 0 demoHandlers l tt = Some r /\
    r_end r = Drained /\ r_trace r ≡ₚ demoSeeds ++ r_scheduled r.
Proof.
  eexists _, _. split; [vm_compute; reflexivity|]. split; [vm_compute; reflexivity|].
  split; [reflexivity|].
  eapply (run_timeline demoSeeds demoHandlers (fun _ => false) 10 tt);
    [apply demoSeeds_inRange|apply demo_inRange|vm_compute; reflexivity|vm_compute; reflexivity|reflexivity].
Defined.

Lemma run_terminates_witness :
  exists l r, scheduleAll NewLoop demoSeeds = Some l /\
    Run (S (totalWeight demoWeight (eventsOf (queue l)))) (fun _ => false) 0 demoHandlers l tt = Some r.
Proof.
  apply (run_terminates demoWeight demoSeeds demoHandlers (fun _ => false) tt);
    [apply demoSeeds_inRange|apply demo_inRange|].
  intros h st [b|f|t] Hk; cbv -[demoFill] in Hk; simplify_eq; cbn; (split; [lia|]); [split; [lia|done]|exact I].
Defined.

Lemma bars_lead_timestamp_witness :
  exists l r, scheduleAll NewLoop demoSeeds = Some l /\ Run 10 (fun _ => false) 0 demoHandlers l tt = Some r /\
    StronglySorted barsLead (r_trace r).
Proof.
  eexists _, _. split; [vm_compute; reflexivity|]. split; [vm_compute; reflexivity|].
  eapply (bars_lead_timestamp demoSeeds demoHandlers (fun _ => false) 10 tt);
    [apply demoSeeds_inRange|apply demo_inRange|apply demo_notBar|vm_compute; reflexivity|vm_compute; reflexivity].
Defined.

(** The streaming loop's gate: whatever the source delivers, in either clock mode,
    the handlers see non-decreasing timestamps, across the follow-on events
    drained between source events too, and the loop is closed on return. *)
Theorem stream_timeline {St} (wall : nat -> time) fuel ctxErr hs mode vc (st : St) src l' st' tr en e :
  RunStream wall fuel ctxErr 0 hs (NewStreamLoop mode vc) st src = Some (l', st', tr, en) ->
  StronglySorted notBefore tr /\ streamSchedule wall l' e = Some (Err ErrLoopClosed, l').
Proof.
  intros E. apply RunStream_follows in E as [[Hs _] Hc]. split; [done|].
  unfold streamSchedule. by rewrite Hc.
Qed.

Lemma stream_timeline_witness :
  exists l' st' tr en, RunStream (fun _ => zeroTime) 10 (fun _ => false) 0 demoHandlers (NewStreamLoop StreamVirtual None) tt
      [demoBar "AAA" 5; demoBar "BBB" 6; demoBar "CCC" 4] = Some (l', st', tr, en) /\
    StronglySorted notBefore tr /\
    streamSchedule (fun _ => zeroTime) l' (demoBar "DDD" 9) = Some (Err ErrLoopClosed, l').
Proof.
  destruct (RunStream (fun _ => zeroTime) 10 (fun _ => false) 0 demoHandlers (NewStreamLoop StreamVirtual None) tt
      [demoBar "AAA" 5; demoBar "BBB" 6; demoBar "CCC" 4]) as [[[[l' st'] tr] en]|] eqn:E.
  - exists l', st', tr, en. split; [reflexivity|]. eapply stream_timeline. exact E.
  - vm_compute in E. discriminate E.
Defined.

(** For two bars of one timestamp the streaming loop settles the first bar's fill
    before the second bar, where the batch loop settles both fills after both
    bars: the two loops interleave differently within a timestamp. *)
Theorem stream_batch_interleaving :
  let bars := [demoBar "AAA" 5; demoBar "BBB" 5] in
  let fills := map demoFill bars in
  (l ← scheduleAll NewLoop bars; r ← Run 10 (fun _ => false) 0 demoHandlers l tt; Some (r_trace r))
    = Some (bars ++ fills) /\
  ('(_, _, tr, _) ← RunStream (fun _ => zeroTime) 10 (fun _ => false) 0 demoHandlers
                      (NewStreamLoop StreamVirtual None) tt bars; Some tr)
    = Some [demoBar "AAA" 5; demoFill (demoBar "AAA" 5); demoBar "BBB" 5; demoFill (demoBar "BBB" 5)].
Proof. split; vm_compute; reflexivity. Qed.

(** Under the wall clock a handler cannot schedule a follow-on event at the
    timestamp of the bar it handles once the host clock has passed it: the
    streaming [Schedule] rejects it as a time reversal. *)
Theorem wall_rejects_event_time (wall : nat -> time) l e :
  s_mode l = StreamWall -> s_closed l = false -> nonUTC (TsEvent e) = false ->
  IsZeroTime (wall (s_reads l)) = false -> t_ns (TsEvent e) < t_ns (wall (s_reads l)) ->
  exists l', streamSchedule wall l e = Some (Err ErrTimeReversal, l') /\ s_queue l' = s_queue l.
Proof.
  intros Hm Hc Hu Hz Hlt. unfold streamSchedule, streamNow. rewrite Hc, Hu, Hm.
  unfold IsZeroTime, UTC, Before in *. cbn. rewrite Hz. apply Z.ltb_lt in Hlt. rewrite Hlt. cbn. eauto.
Qed.

Lemma wall_rejects_event_time_witness :
  exists l', streamSchedule (fun _ => mkTime 10 0) (NewStreamLoop StreamWall None) (demoFill (demoBar "AAA" 9))
    = Some (Err ErrTimeReversal, l') /\ s_queue l' = newEventQueue.
Proof. apply (wall_rejects_event_time (fun _ => mkTime 10 0)); reflexivity. Defined.
