(* ===== verification/Accounting.v ===== *)
(** * Positions and the account (src/internal/accounting)

    The netting position, its exact-integer helpers (math.go, position.go) and
    the account that owns the position book (account.go).  A method that
    mutates its receiver is an [eff] computation: what it leaves behind on an
    error path is part of the model.  [Account.bus] is the list of account
    states published so far, or [None] when no bus is attached. *)

From stdpp Require Import gmap strings list sorting.
From S2P Require Import Prelude Fixed Money Domain.
Set Default Goal Selector "!".
#[local] Open Scope Z_scope.

(** ** math.go *)

Definition sameSign (a b : Qty) : bool :=
  if (a =? 0) || (b =? 0) then a =? b else Bool.eqb (0 <? a) (0 <? b).

Definition absQty (q : Qty) : Z := if q <? 0 then ⊖ q else q.
Definition absQtyVal (q : Qty) : Qty := if q <? 0 then ⊖ q else q.

Definition roundHalfEvenDivInt (v d : Z) : Z :=
  if d =? 0 then 0
  else
    let neg := v <? 0 in
    let v := if neg then ⊖ v else v in
    let q := v ⊘ d in
    let r := v ⊙ d in
    let twice := r ⊗ 2 in
    let q := if d <? twice then q ⊕ 1
             else if twice =? d then (if negb (q ⊙ 2 =? 0) then q ⊕ 1 else q)
             else q in
    if neg then ⊖ q else q.

Definition roundMoneyToCents (m : Money) : Money := roundHalfEvenDivInt m 100 ⊗ 100.

(** The [big.Int] intermediates are exact; [Int64] keeps the low 64 bits. *)
Definition mulDivRoundHalfEven (v num den : Z) : Z :=
  if (den =? 0) || (num =? 0) then 0
  else
    let prod := v * num in
    let neg := prod <? 0 in
    let prod := Z.abs prod in
    let q := Z.quot prod den in
    let r := Z.rem prod den in
    let twice := Z.shiftl r 1 in
    let q := if den <? twice then q + 1
             else if twice =? den then (if Z.testbit q 0 then q + 1 else q)
             else q in
    wrap64 (if neg then - q else q).

(** ** position.go *)

Record Position : Set := mkPosition {
  p_strategyID : string;
  p_symbol : string;
  p_signedQty : Qty;
  p_entryNotional : Money;
  p_realized : Money;
  p_updatedAt : time
}.

Definition NewPosition (strategyID symbol : string) : Position :=
  mkPosition strategyID symbol 0 0 0 zeroTime.

Definition set_entryNotional (n : Money) (p : Position) : Position :=
  mkPosition (p_strategyID p) (p_symbol p) (p_signedQty p) n (p_realized p) (p_updatedAt p).
Definition set_realized (r : Money) (p : Position) : Position :=
  mkPosition (p_strategyID p) (p_symbol p) (p_signedQty p) (p_entryNotional p) r (p_updatedAt p).
Definition set_qty (q : Qty) (ts : time) (p : Position) : Position :=
  mkPosition (p_strategyID p) (p_symbol p) q (p_entryNotional p) (p_realized p) ts.

Definition Position_IsFlat (p : Position) : bool := p_signedQty p =? 0.

Definition AvgEntryPrice (p : Position) : Price :=
  if p_signedQty p =? 0 then 0
  else roundHalfEvenDivInt (p_entryNotional p) (absQty (p_signedQty p)).

Definition Position_Snapshot (p : Position) : PositionSnap :=
  mkPositionSnap (p_strategyID p) (p_symbol p) (p_signedQty p) (AvgEntryPrice p) (p_realized p) (p_updatedAt p).

Definition UnrealizedPnL (p : Position) (last : Price) : res Money :=
  if p_signedQty p =? 0 then Ok 0
  else
    mktValue <-? Price_MulQty last (p_signedQty p) ;;
    cost <-? (if p_signedQty p <? 0 then Money_Neg (p_entryNotional p) else Ok (p_entryNotional p)) ;;
    Money_Sub mktValue cost.

Record FillOutcome : Set := mkOutcome {
  RealizedDelta : Money;
  Opened : bool;
  Closed : bool;
  Changed : bool;
  Flipped : bool
}.

Definition openLeg (qty : Qty) (price : Price) : eff Position unit :=
  add <-! eff_lift (Price_MulQty price qty) ;;
  p <-! eff_get ;;
  n <-! eff_lift (Money_Add (p_entryNotional p) add) ;;
  eff_modify (set_entryNotional n).

Definition closeLeg (closeQty : Qty) (price : Price) (prevQty : Qty) : eff Position Money :=
  let prevAbs := absQty prevQty in
  let closeAbs := absQty closeQty in
  if closeAbs =? 0 then eff_ret 0
  else
    p <-! eff_get ;;
    let releasedCost := mulDivRoundHalfEven (p_entryNotional p) closeAbs prevAbs in
    proceeds <-! eff_lift (Price_MulQty price closeQty) ;;
    realizedFull <-! eff_lift (if 0 <? prevQty then Money_Sub proceeds releasedCost
                               else Money_Sub releasedCost proceeds) ;;
    let realized := roundMoneyToCents realizedFull in
    remaining <-! eff_lift (Money_Sub (p_entryNotional p) releasedCost) ;;
    let remaining := if closeAbs =? prevAbs then 0 else remaining in
    _ <-! eff_modify (set_entryNotional remaining) ;;
    acc <-! eff_lift (Money_Add (p_realized p) realized) ;;
    _ <-! eff_modify (set_realized acc) ;;
    eff_ret realized.

Definition fillDelta (f : Fill) : res Qty :=
  if String.eqb (f_Side f) OrderSideBuy then Ok (f_Qty f)
  else if String.eqb (f_Side f) OrderSideSell then Qty_Neg (f_Qty f)
  else Err ErrInvalidArgument.

Definition Position_ApplyFill (f : Fill) : eff Position FillOutcome :=
  if f_Qty f <=? 0 then eff_fail ErrInvalidArgument
  else
    delta <-! eff_lift (fillDelta f) ;;
    p <-! eff_get ;;
    let prevQty := p_signedQty p in
    newQty <-! eff_lift (Qty_Add prevQty delta) ;;
    out <-!
      (if prevQty =? 0 then
         _ <-! openLeg (f_Qty f) (f_Price f) ;;
         eff_ret (mkOutcome 0 true false false false)
       else if sameSign prevQty newQty && (absQty prevQty <? absQty newQty) then
         _ <-! openLeg (f_Qty f) (f_Price f) ;;
         eff_ret (mkOutcome 0 false false true false)
       else if sameSign prevQty newQty && negb (newQty =? 0) then
         realized <-! closeLeg (f_Qty f) (f_Price f) prevQty ;;
         eff_ret (mkOutcome realized false false true false)
       else if newQty =? 0 then
         realized <-! closeLeg (absQtyVal prevQty) (f_Price f) prevQty ;;
         eff_ret (mkOutcome realized false true false false)
       else
         realized <-! closeLeg (absQtyVal prevQty) (f_Price f) prevQty ;;
         _ <-! openLeg (absQtyVal newQty) (f_Price f) ;;
         eff_ret (mkOutcome realized true true false true)) ;;
    _ <-! eff_modify (set_qty newQty (f_TS f)) ;;
    eff_ret out.

(** ** account.go *)

Record AccountState : Set := mkAccountState {
  as_TS : time;
  as_Total : Money;
  as_Free : Money;
  as_Locked : Money;
  as_Realized : Money
}.

Record Account : Set := mkAccount {
  a_startingBalance : Money;
  a_realized : Money;
  a_positions : gmap StrategySymbol Position;
  a_lastPrice : gmap string Price;
  a_bus : option (list AccountState)
}.

Definition NewAccount (startingBalance : Money) (bus : option (list AccountState)) : Account :=
  mkAccount startingBalance 0 ∅ ∅ bus.

Definition set_acct_realized (r : Money) (a : Account) : Account :=
  mkAccount (a_startingBalance a) r (a_positions a) (a_lastPrice a) (a_bus a).
Definition set_position (key : StrategySymbol) (p : Position) (a : Account) : Account :=
  mkAccount (a_startingBalance a) (a_realized a) (<[key:=p]> (a_positions a)) (a_lastPrice a) (a_bus a).
Definition set_lastPrice (symbol : string) (px : Price) (a : Account) : Account :=
  mkAccount (a_startingBalance a) (a_realized a) (a_positions a) (<[symbol:=px]> (a_lastPrice a)) (a_bus a).
Definition publish (s : AccountState) (a : Account) : Account :=
  mkAccount (a_startingBalance a) (a_realized a) (a_positions a) (a_lastPrice a)
    (option_map (fun log => log ++ [s]) (a_bus a)).

Definition Cash (a : Account) : res Money := Money_Add (a_startingBalance a) (a_realized a).

Definition ObserveBar (bar : Bar) (a : Account) : Account := set_lastPrice (bar_Symbol bar) (bar_Close bar) a.

(** [position]: the entry for the key, created flat on first use. *)
Definition getPosition (strategyID symbol : string) : eff Account Position :=
  a <-! eff_get ;;
  match a_positions a !! (strategyID, symbol) with
  | Some p => eff_ret p
  | None =>
      let p := NewPosition strategyID symbol in
      _ <-! eff_modify (set_position (strategyID, symbol) p) ;;
      eff_ret p
  end.

Definition Account_Position (a : Account) (strategyID symbol : string) : option PositionSnap :=
  option_map Position_Snapshot (a_positions a !! (strategyID, symbol)).

Definition emitAccountState (ts : time) : eff Account unit :=
  a <-! eff_get ;;
  cash <-! eff_lift (Cash a) ;;
  eff_modify (publish (mkAccountState ts cash cash 0 (a_realized a))).

(** The [*Position] the map holds is mutated in place: the call on it writes
    back to the map, whether it succeeds or fails. *)
Definition onPosition {A} (key : StrategySymbol) (p : Position) (m : eff Position A) : eff Account A :=
  fun a => let '(p', r) := m p in (set_position key p' a, r).

Definition Account_ApplyFill (f : Fill) : eff Account (PositionSnap * FillOutcome) :=
  let key := (f_StrategyID f, f_Symbol f) in
  _ <-! eff_lift (Fill_Validate f) ;;
  pos <-! getPosition (f_StrategyID f) (f_Symbol f) ;;
  out <-! onPosition key pos (Position_ApplyFill f) ;;
  a <-! eff_get ;;
  _ <-! (if negb (RealizedDelta out =? 0) then
           acc <-! eff_lift (Money_Add (a_realized a) (RealizedDelta out)) ;;
           eff_modify (set_acct_realized acc)
         else eff_ret tt) ;;
  _ <-! eff_modify (set_lastPrice (f_Symbol f) (f_Price f)) ;;
  _ <-! emitAccountState (f_TS f) ;;
  a <-! eff_get ;;
  eff_ret (Position_Snapshot (default pos (a_positions a !! key)), out).

Definition EmitInitialState (ts : time) : eff Account unit := emitAccountState ts.

(** [sort.Slice] by strategy then symbol: the keys are distinct, so the order
    is total and the sorted slice is unique. *)
Definition keyLe (a b : StrategySymbol) : Prop :=
  (a.1 <> b.1 /\ String.le a.1 b.1) \/ (a.1 = b.1 /\ String.le a.2 b.2).

#[export] Instance keyLe_dec : RelDecision keyLe.
Proof. intros a b. unfold keyLe. apply _. Defined.

Definition sortKeys (positions : gmap StrategySymbol Position) : list StrategySymbol :=
  merge_sort keyLe (map fst (map_to_list positions)).

Fixpoint unrealizedLoop (a : Account) (total : Money) (keys : list StrategySymbol) : res Money :=
  match keys with
  | [] => Ok total
  | key :: keys =>
      match a_positions a !! key with
      | None => unrealizedLoop a total keys
      | Some p =>
          if Position_IsFlat p then unrealizedLoop a total keys
          else
            match a_lastPrice a !! p_symbol p with
            | None => unrealizedLoop a total keys
            | Some last =>
                u <-? UnrealizedPnL p last ;;
                total <-? Money_Add total u ;;
                unrealizedLoop a total keys
            end
      end
  end.

Definition Unrealized (a : Account) : res Money := unrealizedLoop a 0 (sortKeys (a_positions a)).

Definition Equity (a : Account) : res Money :=
  cash <-? Cash a ;;
  un <-? Unrealized a ;;
  Money_Add cash un.

Definition positionsInOrder (a : Account) : list Position :=
  omap (fun k => a_positions a !! k) (sortKeys (a_positions a)).

Definition OpenPositions (a : Account) : list PositionSnap :=
  map Position_Snapshot (List.filter (fun p => negb (Position_IsFlat p)) (positionsInOrder a)).

Definition AllPositions (a : Account) : list PositionSnap := map Position_Snapshot (positionsInOrder a).

Definition Account_Snapshot (a : Account) : res PortfolioSnapshot :=
  nav <-? Cash a ;;
  let positions := omap (fun p => if Position_IsFlat p then None else Some (p_signedQty p)) (a_positions a) in
  Ok (NewPortfolioSnapshot nav nav 0 0 positions (a_lastPrice a)).

(** ** Rounding *)

(** The quotient-and-remainder rounding both helpers share. *)
Lemma round_magnitude v d :
  0 < d ->
  (if d <? v mod d * 2 then v / d + 1
   else if v mod d * 2 =? d then (if Z.even (v / d) then v / d else v / d + 1) else v / d)
  = round_half_even v d.
Proof.
  intros Hd. unfold round_half_even.
  destruct (Z.ltb_spec d (v mod d * 2)), (Z.ltb_spec (2 * (v mod d)) d), (Z.ltb_spec d (2 * (v mod d))),
    (Z.eqb_spec (v mod d * 2) d); try lia; reflexivity.
Qed.

Lemma roundHalfEvenDivInt_ref v d :
  in64 v -> v <> min_int64 -> 0 < d <= 4611686018427387904 ->
  roundHalfEvenDivInt v d = round_half_even v d.
Proof.
  intros Hv Hm Hd. unfold roundHalfEvenDivInt. destruct (Z.eqb_spec d 0); [lia|].
  assert (Hmag : forall w, 0 <= w <= max_int64 ->
    (if d <? (w ⊙ d) ⊗ 2 then (w ⊘ d) ⊕ 1
     else if (w ⊙ d) ⊗ 2 =? d then (if negb ((w ⊘ d) ⊙ 2 =? 0) then (w ⊘ d) ⊕ 1 else w ⊘ d) else w ⊘ d)
    = round_half_even w d).
  { intros w Hw. rewrite Z.quot_div_nonneg, Z.rem_mod_nonneg by lia.
    pose proof (Z.mod_pos_bound w d ltac:(lia)) as Hr. pose proof (Z.div_mod w d ltac:(lia)) as E.
    assert (Hq : 0 <= w / d) by (apply Z.div_pos; lia).
    assert (Hq1 : d <= (w mod d) * 2 -> w / d + 1 <= max_int64) by (intros; nia).
    assert (Hq2 : w / d <= max_int64) by nia.
    rewrite !(wrap64_id (w / d)), !(wrap64_id (w mod d * 2)), rem2_even, <- round_magnitude by rlia.
    destruct (Z.ltb_spec d (w mod d * 2)); [rewrite wrap64_id by rlia; reflexivity|].
    destruct (Z.eqb_spec (w mod d * 2) d); [|reflexivity].
    rewrite wrap64_id by rlia. destruct (Z.even (w / d)); reflexivity. }
  destruct (Z.ltb_spec v 0).
  - rewrite !(wrap64_id (- v)) by rlia. rewrite Hmag by rlia. rewrite round_half_even_opp by lia.
    pose proof (round_half_even_mono_bounds (- v) d 0 max_int64 ltac:(lia) ltac:(rlia)) as B.
    rewrite round_half_even_opp in B by lia. rewrite Z.opp_involutive. apply wrap64_id. rlia.
  - apply Hmag. rlia.
Qed.

Lemma mulDivRoundHalfEven_ref v num den :
  0 < den -> in64 (round_half_even (v * num) den) ->
  mulDivRoundHalfEven v num den = round_half_even (v * num) den.
Proof.
  intros Hd Hin. unfold mulDivRoundHalfEven. destruct (Z.eqb_spec den 0); [lia|]. cbn [orb].
  destruct (Z.eqb_spec num 0) as [->|Hn].
  - rewrite Z.mul_0_r. unfold round_half_even. rewrite Z.div_0_l, Z.mod_0_l by lia.
    destruct (Z.ltb_spec (2 * 0) den); [reflexivity|lia].
  - rewrite Z.quot_div_nonneg, Z.rem_mod_nonneg by lia. rewrite Z.shiftl_mul_pow2 by lia. change (2 ^ 1) with 2.
    rewrite Z.bit0_odd, <- Z.negb_even.
    assert (E : (if den <? Z.abs (v * num) mod den * 2 then Z.abs (v * num) / den + 1
      else if Z.abs (v * num) mod den * 2 =? den then
        (if negb (Z.even (Z.abs (v * num) / den)) then Z.abs (v * num) / den + 1 else Z.abs (v * num) / den)
      else Z.abs (v * num) / den) = round_half_even (Z.abs (v * num)) den).
    { rewrite <- round_magnitude by lia. destruct (Z.even _); reflexivity. }
    rewrite E. destruct (Z.ltb_spec (v * num) 0).
    + rewrite Z.abs_neq, round_half_even_opp, Z.opp_involutive by lia. by apply wrap64_id.
    + rewrite Z.abs_eq by lia. by apply wrap64_id.
Qed.

(** A cent-rounded amount is within half a cent (50 units of 1e-4). *)
Lemma roundMoneyToCents_near m :
  in64 m -> m <> min_int64 ->
  Z.abs (roundMoneyToCents m - m) <= 50 /\ roundMoneyToCents m mod 100 = 0 /\ in64 (roundMoneyToCents m).
Proof.
  intros Hm Hb. unfold roundMoneyToCents. rewrite roundHalfEvenDivInt_ref by rlia.
  pose proof (round_half_even_error m 100 ltac:(lia)).
  rewrite wrap64_id by rlia. split; [lia|]. split; [apply Z.mod_mul; lia|rlia].
Qed.

(** ** Positions *)

(** The well-formed positions: the cost basis is not negative and vanishes
    when flat. *)
Record posOk (p : Position) : Prop := {
  posOk_qty : min_int64 < p_signedQty p <= max_int64;
  posOk_cost : 0 <= p_entryNotional p <= max_int64;
  posOk_flat : p_signedQty p = 0 -> p_entryNotional p = 0;
  posOk_realized : in64 (p_realized p)
}.

(** The cost basis signed as the position: [+] for a long, [-] for a short. *)
Definition signedCost (p : Position) : Z := Z.sgn (p_signedQty p) * p_entryNotional p.

(** The signed quantity of a fill. *)
Definition signedDelta (f : Fill) : Z :=
  if String.eqb (f_Side f) OrderSideBuy then f_Qty f else - f_Qty f.

Lemma absQty_abs q : min_int64 < q <= max_int64 -> absQty q = Z.abs q.
Proof. intros H. unfold absQty. destruct (Z.ltb_spec q 0); [rewrite wrap64_id by rlia|]; lia. Qed.

Lemma absQtyVal_abs q : min_int64 < q <= max_int64 -> absQtyVal q = Z.abs q.
Proof. apply absQty_abs. Qed.

Lemma sameSign_iff a b : a <> 0 -> b <> 0 -> sameSign a b = true <-> Z.sgn a = Z.sgn b.
Proof.
  intros Ha Hb. unfold sameSign. destruct (Z.eqb_spec a 0), (Z.eqb_spec b 0); try lia. cbn [orb].
  rewrite Bool.eqb_true_iff. destruct (Z.ltb_spec 0 a), (Z.ltb_spec 0 b); split; intros; lia || congruence.
Qed.

(** Both legs leave the quantity, the key and the timestamp alone. *)
Definition sameBook (p p' : Position) : Prop :=
  p_signedQty p' = p_signedQty p /\ p_updatedAt p' = p_updatedAt p /\
  p_strategyID p' = p_strategyID p /\ p_symbol p' = p_symbol p.

Lemma openLeg_spec qty price p p' r :
  in64 qty -> in64 price -> in64 (p_entryNotional p) -> openLeg qty price p = (p', r) ->
  (r = Ok tt /\ p' = set_entryNotional (p_entryNotional p + price * qty) p /\
     in64 (price * qty) /\ in64 (p_entryNotional p + price * qty)) \/
  (exists e, r = Err e) /\ p' = p.
Proof.
  intros Hq Hp Hc E. unfold openLeg, eff_bind, eff_lift, eff_get, eff_modify in E.
  destruct (Price_MulQty price qty) as [add|e] eqn:E1; [|right; injection E as <- <-; eauto].
  apply Price_MulQty_ok in E1 as [-> H1]; [|done|done].
  destruct (Money_Add _ _) as [n|e] eqn:E2; [|right; injection E as <- <-; eauto].
  apply Money_Add_ok in E2 as [-> H2]; [|done|done].
  left. by injection E as <- <-.
Qed.

(** The cost basis a partial or full close releases. *)
Definition released (p : Position) (n : Z) : Z := round_half_even (p_entryNotional p * n) (Z.abs (p_signedQty p)).

Lemma released_bounds p n : posOk p -> 0 <= n <= Z.abs (p_signedQty p) -> p_signedQty p <> 0 ->
  0 <= released p n <= p_entryNotional p.
Proof.
  intros [Hq Hc _ _] Hn Hne. apply round_half_even_mono_bounds; nia.
Qed.

Lemma released_full p : p_signedQty p <> 0 -> released p (Z.abs (p_signedQty p)) = p_entryNotional p.
Proof. intros H. symmetry. apply half_even_round; [lia|]. apply half_even_exact. lia. Qed.

Lemma closeLeg_spec n price p p' r :
  posOk p -> p_signedQty p <> 0 -> 0 < n <= Z.abs (p_signedQty p) -> 0 <= price <= max_int64 ->
  closeLeg n price (p_signedQty p) p = (p', r) ->
  sameBook p p' /\
  match r with
  | Ok realized => exists full,
      full = Z.sgn (p_signedQty p) * (price * n - released p n) /\ Z.abs (realized - full) <= 50 /\
      in64 realized /\ p_entryNotional p' = p_entryNotional p - released p n /\
      p_realized p' = p_realized p + realized /\ in64 (p_realized p')
  | Err _ => True
  end.
Proof.
  intros Hok Hne Hn Hp E. pose proof (released_bounds p n Hok ltac:(lia) Hne) as Hrel.
  pose proof Hok as [Hq Hc _ Hr]. unfold closeLeg, eff_bind, eff_lift, eff_get, eff_modify, eff_ret in E.
  rewrite !absQty_abs in E by rlia. rewrite (Z.abs_eq n) in E by lia.
  destruct (Z.eqb_spec n 0); [lia|].
  rewrite mulDivRoundHalfEven_ref in E by (unfold released in Hrel; lia || rlia). fold (released p n) in E.
  destruct (Price_MulQty price n) as [pr|e] eqn:E1; [|by injection E as <- <-].
  apply Price_MulQty_ok in E1 as [-> H1]; [|rlia|rlia].
  destruct (if 0 <? p_signedQty p then _ else _) as [full|e] eqn:E2; [|by injection E as <- <-].
  assert (Hf : full = Z.sgn (p_signedQty p) * (price * n - released p n) /\ in64 full /\ full <> min_int64).
  { assert (0 <= price * n) by nia. clear E.
    destruct (Z.ltb_spec 0 (p_signedQty p)); apply Money_Sub_ok in E2 as [-> H2]; try done; try rlia;
      (split; [lia|split; [done|rlia]]). }
  destruct Hf as (Hf & Hf1 & Hf2).
  destruct (Money_Sub (p_entryNotional p) _) as [rem|e] eqn:E3; [|by injection E as <- <-].
  apply Money_Sub_ok in E3 as [-> H3]; [|rlia|rlia].
  destruct (roundMoneyToCents_near full Hf1 Hf2) as (N1 & N2 & N3).
  destruct (Money_Add (p_realized p) _) as [acc|e] eqn:E4; [|by injection E as <- <-].
  apply Money_Add_ok in E4 as [-> H4]; [|done|done].
  injection E as <- <-. split; [done|]. exists full. split; [done|]. split; [done|]. split; [done|].
  split; [|done]. cbn. destruct (Z.eqb_spec n (Z.abs (p_signedQty p))) as [->|]; [|done].
  rewrite released_full by done. lia.
Qed.

Lemma fillDelta_ok f delta : in64 (f_Qty f) -> 0 < f_Qty f ->
  f_Side f = OrderSideBuy \/ f_Side f = OrderSideSell ->
  fillDelta f = Ok delta <-> delta = signedDelta f.
Proof.
  intros Hq Hp Hs. unfold fillDelta, signedDelta. destruct Hs as [-> | ->]; cbn.
  - split; [by intros [= ->]|by intros ->].
  - rewrite Qty_Neg_ok by done. split; [tauto|]. intros ->. split; [done|rlia].
Qed.

(** The fills a position may be given: positive quantity and price, known side. *)
Record fillIn (f : Fill) : Prop := {
  fillIn_side : f_Side f = OrderSideBuy \/ f_Side f = OrderSideSell;
  fillIn_qty : 0 < f_Qty f <= max_int64;
  fillIn_price : 0 < f_Price f <= max_int64
}.

(** What a successful fill does: the quantity moves by the signed fill, the
    cost basis by the signed notional and the exact profit [full], and the
    profit booked is [full] to within half a cent. *)
Definition settles (f : Fill) (p p' : Position) (out : FillOutcome) : Prop :=
  p_signedQty p' = p_signedQty p + signedDelta f /\ p_updatedAt p' = f_TS f /\
  p_strategyID p' = p_strategyID p /\ p_symbol p' = p_symbol p /\
  p_realized p' = p_realized p + RealizedDelta out /\ in64 (RealizedDelta out) /\
  exists full, signedCost p' = signedCost p + signedDelta f * f_Price f + full /\
    Z.abs (RealizedDelta out - full) <= 50.

Lemma settles_open f p p' q :
  posOk p -> fillIn f -> 0 < q <= max_int64 ->
  p_signedQty p + signedDelta f <> 0 ->
  (p_signedQty p = 0 \/ Z.sgn (p_signedQty p) = Z.sgn (p_signedQty p + signedDelta f)) ->
  signedDelta f = Z.sgn (p_signedQty p + signedDelta f) * q -> q = f_Qty f ->
  in64 (p_signedQty p + signedDelta f) -> p_signedQty p + signedDelta f <> min_int64 ->
  in64 (p_entryNotional p + f_Price f * q) ->
  p' = set_qty (p_signedQty p + signedDelta f) (f_TS f) (set_entryNotional (p_entryNotional p + f_Price f * q) p) ->
  forall o c ch fl, settles f p p' (mkOutcome 0 o c ch fl) /\ posOk p'.
Proof.
  intros [H1 H2 H3 H4] [S Q P] Hq Hn Hs Hd Hqf Hi Hm He -> o c ch fl. split.
  - unfold settles. cbn. splits; auto; [lia|rlia|]. exists 0. split; [|lia]. unfold signedCost. cbn.
    set (n := p_signedQty p + signedDelta f) in *. rewrite Hd.
    destruct Hs as [Hs|Hs]; [rewrite H3, Hs by done; cbn [Z.sgn]|rewrite Hs]; ring.
  - assert (0 <= f_Price f * q) by nia. constructor; cbn; [rlia|rlia|lia|done].
Qed.

(** A close of [n] shares, then the residual opened at the fill price. *)
Lemma settles_close f p n full realized res notional p' :
  posOk p -> fillIn f -> p_signedQty p <> 0 -> 0 < n <= Z.abs (p_signedQty p) -> 0 <= res ->
  let q := p_signedQty p + signedDelta f in
  in64 q -> q <> min_int64 ->
  signedDelta f = - Z.sgn (p_signedQty p) * (n + res) ->
  (res = 0 \/ n = Z.abs (p_signedQty p)) ->
  full = Z.sgn (p_signedQty p) * (f_Price f * n - released p n) -> Z.abs (realized - full) <= 50 -> in64 realized ->
  notional = p_entryNotional p - released p n + f_Price f * res -> in64 notional -> in64 (p_realized p + realized) ->
  p' = mkPosition (p_strategyID p) (p_symbol p) q notional (p_realized p + realized) (f_TS f) ->
  forall o c ch fl, settles f p p' (mkOutcome realized o c ch fl) /\ posOk p'.
Proof.
  intros Hok [S Q P] Hne Hn Hres q Hi Hm Hd Hside Hfull Hnear Hin -> Hni Hri -> o c ch fl.
  pose proof (released_bounds p n Hok ltac:(lia) Hne) as Hrel. pose proof Hok as [H1 H2 H3 H4].
  assert (Hnn : 0 <= f_Price f * res) by nia.
  set (rel := released p n) in *.
  assert (Hfr : n = Z.abs (p_signedQty p) -> rel = p_entryNotional p)
    by (intros ->; apply released_full; done).
  split.
  - unfold settles. cbn. splits; auto. exists full. split; [|done]. unfold signedCost. cbn. rewrite Hfull, Hd.
    subst q. rewrite Hd. clear Hfull Hd Hnear Hrel Hni Hnn.
    destruct (Z.lt_trichotomy (p_signedQty p) 0) as [Hs|[Hs|Hs]]; [|lia|].
    + rewrite (Z.sgn_neg (p_signedQty p)) by lia.
      destruct (decide (n = Z.abs (p_signedQty p))) as [En|En].
      * rewrite (Hfr En). destruct (decide (res = 0)) as [->|Hr0].
        -- replace (p_signedQty p + - -1 * (n + 0)) with 0 by lia. cbn [Z.sgn]. subst n. lia.
        -- rewrite (Z.sgn_pos (p_signedQty p + _)) by lia. ring.
      * destruct Hside as [->|]; [|done]. rewrite (Z.sgn_neg (p_signedQty p + _)) by lia. ring.
    + rewrite (Z.sgn_pos (p_signedQty p)) by lia.
      destruct (decide (n = Z.abs (p_signedQty p))) as [En|En].
      * rewrite (Hfr En). destruct (decide (res = 0)) as [->|Hr0].
        -- replace (p_signedQty p + - (1) * (n + 0)) with 0 by lia. cbn [Z.sgn]. subst n. lia.
        -- rewrite (Z.sgn_neg (p_signedQty p + _)) by lia. ring.
      * destruct Hside as [->|]; [|done]. rewrite (Z.sgn_pos (p_signedQty p + _)) by lia. ring.
  - constructor; cbn; [rlia|rlia| |done]. intros H0. subst q. rewrite Hd in H0.
    assert (res = 0) as -> by lia. rewrite Hfr by lia. lia.
Qed.

Lemma signedDelta_abs f : 0 < f_Qty f -> Z.abs (signedDelta f) = f_Qty f.
Proof. intros H. unfold signedDelta. destruct (String.eqb _ _); lia. Qed.

(** Linear arithmetic with signs: split on the sign of [x] and of [y]. *)
Ltac sign_cases x y :=
  destruct (Z.sgn_spec x) as [[? Ex]|[[? Ex]|[? Ex]]], (Z.sgn_spec y) as [[? Ey]|[[? Ey]|[? Ey]]];
  rewrite ?Ex, ?Ey in *.

Definition fillGoal (f : Fill) (p p' : Position) (r : res FillOutcome) : Prop :=
  match r with Ok out => settles f p p' out /\ posOk p' | Err _ => sameBook p p' end.

Section Branches.
Context (f : Fill) (p : Position).
Context (Hok : posOk p) (Hf : fillIn f).
Let n := p_signedQty p + signedDelta f.
Context (Hm : n <> min_int64) (Hi : in64 n).

(** The switch's branch, then the assignments after the switch. *)
Definition finish (m : eff Position FillOutcome) : eff Position FillOutcome :=
  out <-! m ;; _ <-! eff_modify (set_qty n (f_TS f)) ;; eff_ret out.

Lemma open_branch p' r o c ch fl :
  n <> 0 -> (p_signedQty p = 0 \/ Z.sgn (p_signedQty p) = Z.sgn n /\ Z.abs (p_signedQty p) < Z.abs n) ->
  finish (_ <-! openLeg (f_Qty f) (f_Price f) ;; eff_ret (mkOutcome 0 o c ch fl)) p = (p', r) -> fillGoal f p p' r.
Proof.
  intros Hn Hside E. pose proof Hok as [Hq Hc Hz Hr]. pose proof Hf as [Hs Hfq Hfp].
  pose proof (signedDelta_abs f ltac:(lia)) as Habs. unfold finish, eff_bind in E. unfold fillGoal.
  destruct (openLeg _ _ p) as [p1 r1] eqn:Eo.
  apply openLeg_spec in Eo as [(-> & -> & B1 & B2)|([e ->] & ->)]; [| |rlia|rlia|rlia];
    injection E as <- <-; [|done].
  eapply (settles_open f p _ (f_Qty f)); try done; fold n; sign_cases (p_signedQty p) n; lia.
Qed.

Lemma close_branch p' r k o c ch fl :
  p_signedQty p <> 0 -> 0 < k <= Z.abs (p_signedQty p) -> signedDelta f = - Z.sgn (p_signedQty p) * k ->
  finish (realized <-! closeLeg k (f_Price f) (p_signedQty p) ;; eff_ret (mkOutcome realized o c ch fl)) p = (p', r) ->
  fillGoal f p p' r.
Proof.
  intros H0 Hk Hd E. pose proof Hok as [Hq Hc Hz Hr]. pose proof Hf as [Hs Hfq Hfp].
  pose proof (released_bounds p k Hok ltac:(lia) H0). unfold finish, eff_bind in E. unfold fillGoal.
  destruct (closeLeg _ _ _ p) as [p1 r1] eqn:Ec.
  apply closeLeg_spec in Ec as [Hb Hsp]; [|done|done|done|lia].
  destruct r1 as [realized|e]; injection E as <- <-; [|done].
  destruct Hsp as (full & F1 & F2 & F3 & F4 & F5 & F6), Hb as (B1 & B2 & B3 & B4).
  eapply (settles_close f p k full realized 0 (p_entryNotional p1)); try done; fold n; try lia; try rlia.
  destruct p1. cbn in *. by subst.
Qed.

Lemma flip_branch p' r o c ch fl :
  p_signedQty p <> 0 -> n <> 0 -> Z.sgn (p_signedQty p) <> Z.sgn n ->
  finish (realized <-! closeLeg (Z.abs (p_signedQty p)) (f_Price f) (p_signedQty p) ;;
          _ <-! openLeg (Z.abs n) (f_Price f) ;;
          eff_ret (mkOutcome realized o c ch fl)) p = (p', r) ->
  fillGoal f p p' r.
Proof.
  intros H0 Hn Hsg E. pose proof Hok as [Hq Hc Hz Hr]. pose proof Hf as [Hs Hfq Hfp].
  pose proof (signedDelta_abs f ltac:(lia)) as Habs.
  unfold finish, eff_bind in E. unfold fillGoal.
  destruct (closeLeg _ _ _ p) as [p1 r1] eqn:Ec.
  apply closeLeg_spec in Ec as [Hb Hsp]; [|done|done|lia|lia].
  destruct r1 as [realized|e]; [|by injection E as <- <-].
  destruct Hsp as (full & F1 & F2 & F3 & F4 & F5 & F6). rewrite released_full in F4 by done.
  destruct (openLeg _ _ p1) as [p2 r2] eqn:Eo.
  apply openLeg_spec in Eo as [(-> & -> & O1 & O2)|([e ->] & ->)]; [| |rlia|rlia|rlia];
    injection E as <- <-; [|done].
  destruct Hb as (B1 & B2 & B3 & B4). rewrite F4 in O2.
  eapply (settles_close f p (Z.abs (p_signedQty p)) full realized (Z.abs n) (p_entryNotional p1 + f_Price f * Z.abs n));
    try done; fold n; rewrite ?released_full, ?F4 by done; try done; try lia; try rlia.
  destruct p1. cbn in *. by subst.
Qed.
End Branches.

Lemma Position_ApplyFill_spec f p p' r :
  posOk p -> fillIn f -> p_signedQty p + signedDelta f <> min_int64 ->
  Position_ApplyFill f p = (p', r) -> fillGoal f p p' r.
Proof.
  intros Hok Hf Hm E. pose proof Hok as [Hq Hc Hz Hr]. pose proof Hf as [Hs Hfq Hfp].
  unfold Position_ApplyFill in E. destruct (Z.leb_spec (f_Qty f) 0); [lia|].
  unfold eff_bind at 1, eff_lift at 1 in E.
  destruct (fillDelta f) as [delta|e] eqn:E1; [|by injection E as <- <-].
  apply fillDelta_ok in E1 as ->; [|rlia|lia|done].
  unfold eff_bind at 1, eff_get at 1 in E. unfold eff_bind at 1, eff_lift at 1 in E.
  pose proof (signedDelta_abs f ltac:(lia)) as Habs.
  destruct (Qty_Add _ _) as [newQty|e] eqn:E2; [|by injection E as <- <-].
  apply Qty_Add_ok in E2 as [-> Hi]; [|rlia|rlia].
  rewrite !absQty_abs, ?absQtyVal_abs in E by rlia.
  destruct (Z.eqb_spec (p_signedQty p) 0) as [H0|H0].
  { apply (open_branch f p Hok Hf Hm Hi p' r true false false false); [lia|by left|exact E]. }
  destruct (Z.eqb_spec (p_signedQty p + signedDelta f) 0) as [Hn|Hn].
  { unfold sameSign in E. rewrite Hn in E. destruct (Z.eqb_spec (p_signedQty p) 0); [done|]. cbn in E.
    apply (close_branch f p Hok Hf Hm Hi p' r (Z.abs (p_signedQty p)) false true false false);
      [done|lia|sign_cases (p_signedQty p) (signedDelta f); lia|].
    unfold finish. rewrite Hn. exact E. }
  destruct (sameSign _ _) eqn:Es; cbn [andb negb] in E.
  - apply sameSign_iff in Es; [|done|done].
    destruct (Z.ltb_spec (Z.abs (p_signedQty p)) (Z.abs (p_signedQty p + signedDelta f))).
    + apply (open_branch f p Hok Hf Hm Hi p' r false false true false); [done|by right|exact E].
    + apply (close_branch f p Hok Hf Hm Hi p' r (f_Qty f) false false true false); [done| | |exact E];
        sign_cases (p_signedQty p) (p_signedQty p + signedDelta f); lia.
  - apply (flip_branch f p Hok Hf Hm Hi p' r true true false true); [done|done| |exact E].
    rewrite <- sameSign_iff by done. congruence.
Qed.

(** ** Chains of fills on one position *)

Fixpoint applyFills (fs : list Fill) : eff Position (list FillOutcome) :=
  match fs with
  | [] => eff_ret []
  | f :: fs => out <-! Position_ApplyFill f ;; outs <-! applyFills fs ;; eff_ret (out :: outs)
  end.

(** The signed notional bought: what the fills cost. *)
Definition cashOut (fs : list Fill) : Z := sumZ (map (fun f => signedDelta f * f_Price f) fs).
Definition volume (fs : list Fill) : Z := sumZ (map f_Qty fs).

Lemma NewPosition_ok s y : posOk (NewPosition s y).
Proof. constructor; cbn; [rlia|rlia|done|rlia]. Qed.

Lemma applyFills_spec fs : forall p p' outs,
  posOk p -> Forall fillIn fs -> Z.abs (p_signedQty p) + volume fs <= max_int64 ->
  applyFills fs p = (p', Ok outs) ->
  posOk p' /\ p_signedQty p' = p_signedQty p + sumZ (map signedDelta fs) /\
  p_realized p' = p_realized p + sumZ (map RealizedDelta outs) /\
  Z.abs (p_realized p' - p_realized p - (signedCost p' - signedCost p - cashOut fs)) <= 50 * Z.of_nat (List.length fs).
Proof.
  induction fs as [|f fs IH]; intros p p' outs Hok Hf Hv E; cbn [applyFills] in E.
  - injection E as <- <-. unfold cashOut. cbn. splits; [done|lia|lia|lia].
  - apply Forall_cons_1 in Hf as [Hf Hfs]. bind_inv.
    unfold volume in Hv. cbn [map] in Hv. rewrite sumZ_cons in Hv. fold (volume fs) in Hv.
    assert (0 <= volume fs).
    { apply sumZ_nonneg, List.Forall_map. eapply List.Forall_impl; [|exact Hfs]. intros g [_ ? _]. cbn. lia. }
    pose proof (signedDelta_abs f ltac:(destruct Hf; lia)) as Ha.
    apply (Position_ApplyFill_spec f p) in Hb; [|done|done|rlia].
    destruct Hb as [(S1 & S2 & S3 & S4 & S5 & S6 & full & S7 & S8) Hok1].
    destruct (IH _ _ _ Hok1 Hfs ltac:(lia) Hb0) as (I1 & I2 & I3 & I4).
    unfold cashOut in *. cbn [map List.length]. rewrite !sumZ_cons. splits; [done|lia|cbn; lia|lia].
Qed.

(** ** Sums over maps *)

Section MapSum.
Context {K A : Type} `{Countable K} (g : A -> Z).

Definition mapSum (m : gmap K A) : Z := sumZ (map (fun kv => g kv.2) (map_to_list m)).

Lemma mapSum_empty : mapSum ∅ = 0.
Proof. unfold mapSum. by rewrite map_to_list_empty. Qed.

Lemma mapSum_insert_new m k x : m !! k = None -> mapSum (<[k:=x]> m) = g x + mapSum m.
Proof. intros Hk. unfold mapSum. rewrite map_to_list_insert by done. cbn [map]. by rewrite sumZ_cons. Qed.

Lemma mapSum_insert m k x : mapSum (<[k:=x]> m) = g x + mapSum (delete k m).
Proof. rewrite <- insert_delete_eq. apply mapSum_insert_new, lookup_delete_eq. Qed.

Lemma mapSum_lookup m k x : m !! k = Some x -> mapSum m = g x + mapSum (delete k m).
Proof. intros Hk. rewrite <- (insert_id m k x) at 1 by done. apply mapSum_insert. Qed.

(** Replacing the entry of [k], absent entries counting as [g d = 0]. *)
Lemma mapSum_update m k d x : g d = 0 -> mapSum (<[k:=x]> m) = mapSum m + g x - g (default d (m !! k)).
Proof.
  intros Hd. rewrite mapSum_insert. destruct (m !! k) as [y|] eqn:E; cbn.
  - rewrite (mapSum_lookup m k y E). lia.
  - rewrite Hd, delete_id by done. lia.
Qed.
End MapSum.

(** ** The account *)

Record acctOk (a : Account) : Prop := {
  acctOk_start : in64 (a_startingBalance a);
  acctOk_realized : in64 (a_realized a);
  acctOk_pos : forall key p, a_positions a !! key = Some p -> posOk p /\ (p_strategyID p, p_symbol p) = key;
  acctOk_price : forall s px, a_lastPrice a !! s = Some px -> in64 px
}.

(** The position a key stands for, flat when it was never opened. *)
Definition posAt (a : Account) (key : StrategySymbol) : Position :=
  default (NewPosition key.1 key.2) (a_positions a !! key).

Lemma posAt_ok a key : acctOk a -> posOk (posAt a key) /\ (p_strategyID (posAt a key), p_symbol (posAt a key)) = key.
Proof.
  intros [_ _ Hp _]. unfold posAt. destruct (a_positions a !! key) as [p|] eqn:E; cbn; [by apply Hp|].
  split; [apply NewPosition_ok|by destruct key].
Qed.

(** The account after a settled fill. *)
Definition settled (f : Fill) (p' : Position) (out : FillOutcome) (a a' : Account) : Prop :=
  a_startingBalance a' = a_startingBalance a /\
  a_realized a' = a_realized a + RealizedDelta out /\
  a_positions a' = <[(f_StrategyID f, f_Symbol f):=p']> (a_positions a) /\
  a_lastPrice a' = <[f_Symbol f:=f_Price f]> (a_lastPrice a) /\
  a_bus a' = option_map (fun log => log ++
    [mkAccountState (f_TS f) (a_startingBalance a + a_realized a') (a_startingBalance a + a_realized a') 0 (a_realized a')])
    (a_bus a).

Lemma getPosition_run s y a a' r : getPosition s y a = (a', r) ->
  r = Ok (posAt a (s, y)) /\ a' = set_position (s, y) (posAt a (s, y)) a.
Proof.
  unfold getPosition, posAt, eff_bind, eff_get, eff_ret, eff_modify.
  destruct (a_positions a !! (s, y)) as [p|] eqn:E; intros [= <- <-]; cbn; split; try done.
  destruct a. unfold set_position. cbn in *. by rewrite insert_id.
Qed.

Lemma emitAccountState_run ts a a' u :
  in64 (a_startingBalance a) -> in64 (a_realized a) -> emitAccountState ts a = (a', Ok u) ->
  let cash := a_startingBalance a + a_realized a in
  in64 cash /\ a' = publish (mkAccountState ts cash cash 0 (a_realized a)) a.
Proof.
  intros Hs Hr E. unfold emitAccountState in E. bind_inv. apply Money_Add_ok in Hb0 as [-> H]; done.
Qed.

Lemma book_realized_run a a' d u :
  in64 (a_realized a) -> in64 d ->
  (if negb (d =? 0) then acc <-! eff_lift (Money_Add (a_realized a) d) ;; eff_modify (set_acct_realized acc)
   else eff_ret tt) a = (a', Ok u) ->
  a' = set_acct_realized (a_realized a + d) a /\ in64 (a_realized a + d).
Proof.
  intros Hr Hd E. destruct (Z.eqb_spec d 0) as [->|Hne]; cbn [negb] in E.
  - bind_inv. rewrite Z.add_0_r. split; [by destruct a'|done].
  - bind_inv. apply Money_Add_ok in Hb as [-> H]; done.
Qed.

Lemma Account_ApplyFill_spec f a a' snap out :
  acctOk a -> in64 (f_Qty f) -> in64 (f_Price f) ->
  p_signedQty (posAt a (f_StrategyID f, f_Symbol f)) + signedDelta f <> min_int64 ->
  Account_ApplyFill f a = (a', Ok (snap, out)) ->
  exists p', settles f (posAt a (f_StrategyID f, f_Symbol f)) p' out /\ settled f p' out a a' /\
    acctOk a' /\ snap = Position_Snapshot p'.
Proof.
  intros Ha Hq Hpx Hm E. set (key := (f_StrategyID f, f_Symbol f)) in *. unfold Account_ApplyFill in E. fold key in E.
  bind_inv. destruct r, r3, r5. rename s into a. apply Fill_Validate_ok in Hb as [V1 V2 V3 _ _ _].
  apply getPosition_run in Hb0 as [Hp ->]. fold key in Hp, Hb1. injection Hp as ->.
  destruct (posAt_ok a key Ha) as [Hpo Hpk]. pose proof Ha as [A1 A2 A3 A4].
  unfold onPosition in Hb1. destruct (Position_ApplyFill f (posAt a key)) as [p' r'] eqn:Ep.
  injection Hb1 as <- ->.
  apply Position_ApplyFill_spec in Ep as [Hset Hpo']; [|done|by constructor; [|rlia|rlia]|done].
  pose proof Hset as (_ & _ & S3 & S4 & _ & S6 & _).
  apply book_realized_run in Hb3 as [-> Hr]; [|done|done]. cbn in Hr.
  apply emitAccountState_run in Hb5 as [Hc ->]; [|done|done]. cbn in Hc.
  exists p'. split; [done|].
  assert (Hpos : forall k p, <[key:=p']> (a_positions a) !! k = Some p -> posOk p /\ (p_strategyID p, p_symbol p) = k).
  { intros k p Hk. destruct (decide (key = k)) as [<-|Hne].
    - rewrite lookup_insert_eq in Hk. injection Hk as <-. rewrite S3, S4. done.
    - rewrite lookup_insert_ne in Hk by done. by apply A3. }
  assert (Hpr : forall y px, <[f_Symbol f:=f_Price f]> (a_lastPrice a) !! y = Some px -> in64 px).
  { intros y px Hy. destruct (decide (f_Symbol f = y)) as [<-|Hne].
    - rewrite lookup_insert_eq in Hy. by injection Hy as <-.
    - rewrite lookup_insert_ne in Hy by done. by apply (A4 y). }
  split; [|split].
  - unfold settled. cbn. by rewrite insert_insert_eq.
  - constructor; cbn; rewrite ?insert_insert_eq; done.
  - cbn. rewrite lookup_insert_eq. done.
Qed.

(** ** Runs of the account: bars observed and fills settled *)

Inductive acctEvent : Set := ObservedBar (b : Bar) | SettledFill (f : Fill).

Fixpoint runAccount (es : list acctEvent) : eff Account unit :=
  match es with
  | [] => eff_ret tt
  | ObservedBar b :: es => _ <-! eff_modify (ObserveBar b) ;; runAccount es
  | SettledFill f :: es => _ <-! Account_ApplyFill f ;; runAccount es
  end.

Definition fillsOf (es : list acctEvent) : list Fill :=
  omap (fun e => match e with SettledFill f => Some f | ObservedBar _ => None end) es.

Definition totalRealized (a : Account) : Z := mapSum p_realized (a_positions a).
Definition totalCost (a : Account) : Z := mapSum signedCost (a_positions a).

(** The value of the open quantities at the last prices. *)
Definition lastOf (a : Account) (p : Position) : Price := default (0 : Price) (a_lastPrice a !! p_symbol p).
Definition marketValue (a : Account) : Z := mapSum (fun p => p_signedQty p * lastOf a p) (a_positions a).

Definition priced (a : Account) : Prop :=
  forall key p, a_positions a !! key = Some p -> is_Some (a_lastPrice a !! p_symbol p).

Definition eventOk64 (e : acctEvent) : Prop :=
  match e with
  | ObservedBar b => in64 (bar_Close b)
  | SettledFill f => 0 < f_Qty f <= max_int64 /\ in64 (f_Price f)
  end.

Lemma ObserveBar_ok b a : in64 (bar_Close b) -> acctOk a -> acctOk (ObserveBar b a).
Proof.
  intros Hb [A1 A2 A3 A4]. constructor; cbn; try done. intros y px Hy.
  destruct (decide (bar_Symbol b = y)) as [<-|Hne].
  - rewrite lookup_insert_eq in Hy. by injection Hy as <-.
  - rewrite lookup_insert_ne in Hy by done. by apply (A4 y).
Qed.

Lemma priced_insert (m : gmap string Price) y px z : is_Some (m !! z) \/ y = z -> is_Some (<[y:=px]> m !! z).
Proof.
  intros H. destruct (decide (y = z)) as [->|Hne]; [by rewrite lookup_insert_eq|].
  rewrite lookup_insert_ne by done. naive_solver.
Qed.

Lemma volume_fills_nonneg es : Forall eventOk64 es -> 0 <= volume (fillsOf es).
Proof.
  induction 1 as [|[b|f] es He Hes IH]; [done|exact IH|].
  change (0 <= f_Qty f + volume (fillsOf es)). destruct He. lia.
Qed.

(** What a run preserves and what it accumulates. *)
Definition runGoal (es : list acctEvent) (a a' : Account) : Prop :=
  acctOk a' /\ priced a' /\ a_startingBalance a' = a_startingBalance a /\
  a_realized a' - a_realized a = totalRealized a' - totalRealized a /\
  Z.abs (totalRealized a' - totalRealized a - (totalCost a' - totalCost a - cashOut (fillsOf es)))
    <= 50 * Z.of_nat (List.length (fillsOf es)).

Lemma settle_step f a a' snap out :
  acctOk a -> priced a -> eventOk64 (SettledFill f) ->
  (forall key, Z.abs (p_signedQty (posAt a key)) + f_Qty f <= max_int64) ->
  Account_ApplyFill f a = (a', Ok (snap, out)) ->
  runGoal [SettledFill f] a a' /\
  (forall key, Z.abs (p_signedQty (posAt a' key)) <= Z.abs (p_signedQty (posAt a key)) + f_Qty f).
Proof.
  intros Ha Hpr [Hq Hpx] Hv E. pose proof (signedDelta_abs f ltac:(lia)) as Hd.
  set (key := (f_StrategyID f, f_Symbol f)).
  destruct (Account_ApplyFill_spec f a a' snap out) as (p' & Hset & Hsd & Hok1 & _); [done|rlia|done| |done|].
  { specialize (Hv key). fold key. rlia. }
  fold key in Hset, Hsd. destruct Hset as (S1 & _ & _ & S4 & S5 & S6 & full & S7 & S8).
  destruct Hsd as (D1 & D2 & D3 & D4 & _). fold key in D3.
  assert (HR : totalRealized a' = totalRealized a + RealizedDelta out).
  { unfold totalRealized. rewrite D3, (mapSum_update p_realized _ _ (NewPosition key.1 key.2)) by done.
    fold (posAt a key). lia. }
  assert (HC : totalCost a' = totalCost a + signedDelta f * f_Price f + full).
  { unfold totalCost. rewrite D3, (mapSum_update signedCost _ _ (NewPosition key.1 key.2)) by done.
    fold (posAt a key). lia. }
  split; [unfold runGoal; splits|].
  - done.
  - intros k p Hk. rewrite D4. apply priced_insert. rewrite D3 in Hk. destruct (decide (key = k)) as [<-|Hne].
    + rewrite lookup_insert_eq in Hk. injection Hk as <-. right. rewrite S4.
      destruct (posAt_ok a key Ha) as [_ Hk]. by injection Hk.
    + rewrite lookup_insert_ne in Hk by done. left. by apply (Hpr k).
  - done.
  - lia.
  - unfold cashOut. cbn [fillsOf omap list_omap map List.length]. rewrite sumZ_cons. cbn [sumZ fold_right]. lia.
  - intros k. unfold posAt at 1. rewrite D3. destruct (decide (key = k)) as [<-|Hne].
    + rewrite lookup_insert_eq. cbn. lia.
    + rewrite lookup_insert_ne by done. fold (posAt a k). lia.
Qed.

Lemma runAccount_spec es : forall a a',
  acctOk a -> priced a -> Forall eventOk64 es ->
  (forall key, Z.abs (p_signedQty (posAt a key)) + volume (fillsOf es) <= max_int64) ->
  runAccount es a = (a', Ok tt) -> runGoal es a a'.
Proof.
  induction es as [|[b|f] es IH]; intros a a' Ha Hpr Hes Hv E; cbn [runAccount] in E.
  - injection E as <-. unfold runGoal, cashOut. cbn. splits; [done|done|done|lia|lia].
  - apply Forall_cons_1 in Hes as [Hb Hes]. bind_inv.
    apply (IH (ObserveBar b a) a'); [by apply ObserveBar_ok| |done|done|done].
    intros k p Hp. apply priced_insert. left. by apply (Hpr k).
  - apply Forall_cons_1 in Hes as [Hf Hes]. bind_inv. destruct r as [snap out].
    pose proof (volume_fills_nonneg es Hes) as HV.
    assert (HVc : volume (fillsOf (SettledFill f :: es)) = f_Qty f + volume (fillsOf es)) by reflexivity.
    destruct (settle_step f a s snap out) as [(G1 & G2 & G3 & G4 & G5) Hq]; [done|done|done| |done|].
    { intros k. specialize (Hv k). lia. }
    destruct (IH s a' G1 G2 Hes) as (I1 & I2 & I3 & I4 & I5); [|done|].
    { intros k. specialize (Hv k). specialize (Hq k). lia. }
    unfold runGoal, cashOut in *. cbn [fillsOf omap list_omap map List.length] in *. rewrite !sumZ_cons in *.
    cbn [sumZ fold_right] in *. fold (fillsOf es). splits; [done|done|congruence|lia|lia].
Qed.

(** ** Marking to market *)

Lemma UnrealizedPnL_exact p last u :
  posOk p -> in64 last -> UnrealizedPnL p last = Ok u -> u = p_signedQty p * last - signedCost p.
Proof.
  intros [Hq Hc Hz _] Hl E. unfold UnrealizedPnL in E. unfold signedCost.
  destruct (Z.eqb_spec (p_signedQty p) 0) as [H0|H0].
  - injection E as <-. rewrite H0, (Hz H0). lia.
  - bind_inv. apply Price_MulQty_ok in Hb as [-> B1]; [|done|rlia].
    destruct (Z.ltb_spec (p_signedQty p) 0).
    + apply Money_Neg_ok in Hb0 as [-> B2]; [|rlia]. apply Money_Sub_ok in Hk0 as [-> _]; [|done|done].
      rewrite Z.sgn_neg by lia. lia.
    + injection Hb0 as <-. apply Money_Sub_ok in Hk0 as [-> _]; [|done|rlia]. rewrite Z.sgn_pos by lia. lia.
Qed.

Lemma UnrealizedPnL_in64 p last u : posOk p -> in64 last -> UnrealizedPnL p last = Ok u -> in64 u.
Proof.
  intros [Hq Hc Hz _] Hl E. unfold UnrealizedPnL in E.
  destruct (Z.eqb_spec (p_signedQty p) 0); [injection E as <-; rlia|]. bind_inv.
  apply Price_MulQty_ok in Hb as [-> B1]; [|done|rlia].
  assert (in64 r0).
  { destruct (Z.ltb_spec (p_signedQty p) 0); [apply Money_Neg_ok in Hb0 as [-> B2]; [done|rlia]|injection Hb0 as <-; rlia]. }
  apply Money_Sub_ok in Hk0 as [-> B3]; done.
Qed.

Definition markOf (a : Account) (key : StrategySymbol) : Z :=
  match a_positions a !! key with Some p => p_signedQty p * lastOf a p - signedCost p | None => 0 end.

Lemma unrealizedLoop_exact a keys : acctOk a -> priced a -> forall total t,
  in64 total -> unrealizedLoop a total keys = Ok t -> t = total + sumZ (map (markOf a) keys) /\ in64 t.
Proof.
  intros [_ _ Hp Hpx] Hpr. induction keys as [|key keys IH]; intros total t Ht E; cbn [unrealizedLoop map] in *.
  - injection E as <-. cbn. split; [lia|done].
  - rewrite sumZ_cons. unfold markOf at 1. destruct (a_positions a !! key) as [p|] eqn:Ek; [|by apply IH].
    destruct (Hp _ _ Ek) as [Hok _]. destruct (Hpr _ _ Ek) as [last Hlast]. rewrite Hlast in E.
    assert (lastOf a p = last) as -> by (unfold lastOf; by rewrite Hlast).
    unfold Position_IsFlat in E. destruct (Z.eqb_spec (p_signedQty p) 0) as [H0|H0].
    + destruct (IH total t Ht E) as [-> B]. unfold signedCost. rewrite (posOk_flat p Hok H0), H0, Z.mul_0_l, Z.mul_0_r. split; [lia|done].
    + bind_inv. pose proof (UnrealizedPnL_in64 p last r Hok (Hpx _ _ Hlast) Hb) as Hi.
      apply UnrealizedPnL_exact in Hb as ->; [|done|by apply (Hpx _ _ Hlast)].
      apply Money_Add_ok in Hb0 as [-> B]; [|done|done]. destruct (IH _ _ B Hk0) as [-> B']. split; [lia|done].
Qed.

Lemma sortKeys_perm m : sortKeys m ≡ₚ map fst (map_to_list m).
Proof. apply merge_sort_Permutation. Qed.

Lemma markOf_total a : sumZ (map (markOf a) (sortKeys (a_positions a))) = marketValue a - totalCost a.
Proof.
  rewrite sortKeys_perm. unfold marketValue, totalCost, mapSum, markOf.
  assert (Hin : forall k p, (k, p) ∈ map_to_list (a_positions a) -> a_positions a !! k = Some p)
    by (intros k p; apply elem_of_map_to_list).
  induction (map_to_list (a_positions a)) as [|[k p] l IH]; [done|].
  cbn [map]. rewrite !sumZ_cons, IH by (intros; apply Hin; by right). cbn [fst snd].
  rewrite (Hin k p) by left. lia.
Qed.

Lemma Equity_exact a e :
  acctOk a -> priced a -> Equity a = Ok e ->
  e = a_startingBalance a + a_realized a + marketValue a - totalCost a.
Proof.
  intros Ha Hpr E. pose proof Ha as [A1 A2 _ _]. unfold Equity in E. bind_inv.
  unfold Cash in Hb. apply Money_Add_ok in Hb as [-> B1]; [|done|done].
  apply unrealizedLoop_exact in Hb0 as [-> B2]; [|done|done|rlia].
  apply Money_Add_ok in Hk0 as [-> _]; [|done|done]. rewrite markOf_total. lia.
Qed.

(** ** Properties *)

(** One fill on a well-formed position.  On success the quantity moves by the
    signed fill, the cost basis by the signed notional plus the exact profit,
    the profit booked is that profit to within half a cent, and the position
    stays well-formed; on an error quantity, key and timestamp are untouched. *)
Theorem position_fill_settles f p p' r :
  posOk p -> fillIn f -> p_signedQty p + signedDelta f <> min_int64 ->
  Position_ApplyFill f p = (p', r) ->
  match r with
  | Ok out => settles f p p' out /\ posOk p'
  | Err _ => p_signedQty p' = p_signedQty p /\ p_updatedAt p' = p_updatedAt p /\
             p_strategyID p' = p_strategyID p /\ p_symbol p' = p_symbol p
  end.
Proof. intros H1 H2 H3 E. apply (Position_ApplyFill_spec f p p' r H1 H2 H3 E). Qed.

(** Round trips: a position opened flat and brought back to flat by any chain of
    fills has realized the net cash of the fills, to within half a cent each. *)
Theorem round_trip_realizes_cash_flow s y fs p' outs :
  Forall fillIn fs -> volume fs <= max_int64 -> applyFills fs (NewPosition s y) = (p', Ok outs) ->
  p_signedQty p' = 0 ->
  p_entryNotional p' = 0 /\ sumZ (map signedDelta fs) = 0 /\
  Z.abs (p_realized p' - - cashOut fs) <= 50 * Z.of_nat (List.length fs).
Proof.
  intros Hf Hv E H0. apply applyFills_spec in E as (H1 & H2 & _ & H4); [|apply NewPosition_ok|done|cbn; lia].
  pose proof (posOk_flat p' H1 H0) as Hz. cbn in H2, H4.
  assert (signedCost p' = 0) by (unfold signedCost; rewrite Hz; lia).
  splits; [done|lia|]. unfold signedCost at 2 in H4. cbn in H4. lia.
Qed.

(** C2: the account's equity after any run of observed bars and settled fills is the
    starting balance, less the cash paid for the fills, plus the market value
    of what is open, to within half a cent per fill; the account's realized PnL
    is the sum of its positions'. *)
Theorem equity_identity start bus es a' e :
  in64 start -> Forall eventOk64 es -> volume (fillsOf es) <= max_int64 ->
  runAccount es (NewAccount start bus) = (a', Ok tt) -> Equity a' = Ok e ->
  a_realized a' = totalRealized a' /\
  Z.abs (e - (start - cashOut (fillsOf es) + marketValue a')) <= 50 * Z.of_nat (List.length (fillsOf es)).
Proof.
  intros Hs Hes Hv E Ee.
  assert (Hn : acctOk (NewAccount start bus)).
  { constructor; cbn; [done|rlia|intros ? ? H; by rewrite lookup_empty in H|intros ? ? H; by rewrite lookup_empty in H]. }
  apply runAccount_spec in E as (G1 & G2 & G3 & G4 & G5); [|done| |done|].
  - rewrite (Equity_exact a' e G1 G2 Ee), G3. cbn in *.
    assert (totalRealized (NewAccount start bus) = 0) by apply mapSum_empty.
    assert (totalCost (NewAccount start bus) = 0) by apply mapSum_empty. split; lia.
  - intros ? ? H. cbn in H. by rewrite lookup_empty in H.
  - intros key. unfold posAt. cbn. rewrite lookup_empty. cbn. lia.
Qed.

Definition withCommission (c : Money) (f : Fill) : Fill :=
  mkFill (f_TradeID f) (f_ClientOrderID f) (f_VenueOrderID f) (f_StrategyID f) (f_Symbol f) (f_Side f)
    (f_Qty f) (f_Price f) c (f_TS f).

(** Settlement ignores the commission of a fill: whatever non-negative
    commission it carries, the account ends in the same state with the same
    result, so cash moves on realized PnL alone. *)
Theorem commission_not_charged f a c :
  0 <= c -> Account_ApplyFill (withCommission c f) a = Account_ApplyFill (withCommission 0 f) a.
Proof.
  intros Hc.
  assert (HV : Fill_Validate (withCommission c f) = Fill_Validate (withCommission 0 f)).
  { unfold Fill_Validate. cbn. unfold Money_IsNegative. destruct (Z.ltb_spec c 0); [lia|reflexivity]. }
  unfold Account_ApplyFill. rewrite HV. reflexivity.
Qed.

Definition demoTs : time := mkTime 1700000000000000000 0.
Definition demoFillOf (side : OrderSide) (qty price : Z) : Fill :=
  mkFill "T1" "O1" "V1" "sepa" "SPY" side qty price 0 demoTs.

Lemma commission_not_charged_witness :
  Account_ApplyFill (withCommission 12345 (demoFillOf OrderSideBuy 10 4000000)) (NewAccount 1000000000 None)
  = Account_ApplyFill (withCommission 0 (demoFillOf OrderSideBuy 10 4000000)) (NewAccount 1000000000 None).
Proof. apply (commission_not_charged (demoFillOf OrderSideBuy 10 4000000) (NewAccount 1000000000 None) 12345). lia. Defined.

(** A failing close is not undone: when booking the profit overflows, the fill is
    rejected but the cost basis has already been released, so the open
    quantity is left with the wrong average price. *)
Theorem failed_close_releases_cost :
  let p := mkPosition "sepa" "SPY" 2 200 max_int64 demoTs in
  let p' := fst (Position_ApplyFill (demoFillOf OrderSideSell 1 1000000) p) in
  snd (Position_ApplyFill (demoFillOf OrderSideSell 1 1000000) p) = Err ErrOverflow /\
  p_signedQty p' = 2 /\ AvgEntryPrice p = 100 /\ AvgEntryPrice p' = 50.
Proof. vm_compute. repeat split. Qed.

Lemma demoFill_in side qty price :
  side = OrderSideBuy \/ side = OrderSideSell -> 0 < qty <= max_int64 -> 0 < price <= max_int64 ->
  fillIn (demoFillOf side qty price).
Proof. intros. by constructor. Qed.

Lemma position_fill_settles_witness :
  let p := mkPosition "sepa" "SPY" 10 10000 0 demoTs in
  let f := demoFillOf OrderSideSell 15 1200 in
  exists p' out, Position_ApplyFill f p = (p', Ok out) /\ settles f p p' out /\ posOk p'.
Proof.
  intros p f. destruct (Position_ApplyFill f p) as [p' [out|e]] eqn:E.
  - exists p', out. split; [reflexivity|].
    apply (position_fill_settles f p p' (Ok out)); [|apply demoFill_in; [by right|rlia|rlia]|vm_compute; discriminate|exact E].
    constructor; cbn; [rlia|rlia|done|rlia].
  - vm_compute in E. discriminate E.
Defined.

Definition demoRoundTrip : list Fill :=
  [demoFillOf OrderSideBuy 3 1000001; demoFillOf OrderSideSell 5 1000302; demoFillOf OrderSideBuy 2 999999].

Lemma demoRoundTrip_in : Forall fillIn demoRoundTrip.
Proof.
  apply List.Forall_cons; [apply demoFill_in; [by left|rlia|rlia]|].
  apply List.Forall_cons; [apply demoFill_in; [by right|rlia|rlia]|].
  apply List.Forall_cons; [apply demoFill_in; [by left|rlia|rlia]|apply List.Forall_nil].
Qed.

Lemma round_trip_realizes_cash_flow_witness :
  exists p' outs, applyFills demoRoundTrip (NewPosition "sepa" "SPY") = (p', Ok outs) /\
    p_entryNotional p' = 0 /\ sumZ (map signedDelta demoRoundTrip) = 0 /\
    Z.abs (p_realized p' - - cashOut demoRoundTrip) <= 50 * 3.
Proof.
  destruct (applyFills demoRoundTrip (NewPosition "sepa" "SPY")) as [p' [outs|e]] eqn:E.
  - exists p', outs. split; [reflexivity|].
    assert (Hv : volume demoRoundTrip <= max_int64) by (vm_compute; discriminate).
    assert (H0 : p_signedQty p' = 0) by (vm_compute in E; by injection E as <- _).
    exact (round_trip_realizes_cash_flow "sepa" "SPY" demoRoundTrip p' outs demoRoundTrip_in Hv E H0).
  - vm_compute in E. discriminate E.
Defined.

Definition demoEvents : list acctEvent :=
  [SettledFill (demoFillOf OrderSideBuy 10 4000000);
   ObservedBar {| bar_Symbol := "SPY"; bar_TS := demoTs; bar_Open := 4010000; bar_High := 4100000;
                  bar_Low := 4000000; bar_Close := 4050000; bar_Volume := 1000 |};
   SettledFill (demoFillOf OrderSideSell 4 4050007)].

Lemma demoEvents_ok : Forall eventOk64 demoEvents.
Proof.
  apply List.Forall_cons; [cbn; split; rlia|]. apply List.Forall_cons; [cbn; rlia|].
  apply List.Forall_cons; [cbn; split; rlia|]. apply List.Forall_nil.
Qed.

Lemma equity_identity_witness :
  exists a' e, runAccount demoEvents (NewAccount 1000000000 None) = (a', Ok tt) /\ Equity a' = Ok e /\
    a_realized a' = totalRealized a'.
Proof.
  destruct (runAccount demoEvents (NewAccount 1000000000 None)) as [a' [[]|e]] eqn:E.
  - destruct (Equity a') as [e|err] eqn:Ee.
    + exists a', e. split; [reflexivity|]. split; [exact Ee|].
      assert (Hs : in64 1000000000) by (split; vm_compute; discriminate).
      assert (Hv : volume (fillsOf demoEvents) <= max_int64) by (vm_compute; discriminate).
      exact (proj1 (equity_identity 1000000000 None demoEvents a' e Hs demoEvents_ok Hv E Ee)).
    + vm_compute in E. injection E as <-. vm_compute in Ee. discriminate Ee.
  - vm_compute in E. discriminate E.
Defined.
