(* ===== verification/Sampler.v ===== *)
(** * The equity sampler (src/internal/accounting/sampler.go)

    One point per known strategy and one point of total equity per sample.
    The bound account is an argument of [Sample]; the scratch buffers hold
    nothing between calls and are not part of the state.  The theorem shows
    that the per-strategy curves add up to the total curve. *)

From stdpp Require Import gmap strings list sorting.
From S2P Require Import Prelude Fixed Money Domain Accounting.
Set Default Goal Selector "!".
#[local] Open Scope Z_scope.
#[local] Abbreviation length := List.length.

Record EquityPoint : Set := mkPoint { ep_TS : time; ep_Value : Money }.

Record EquitySampler : Set := mkSampler {
  sm_strategyIDs : gset string;
  sm_perStrategy : gmap string (list EquityPoint);
  sm_total : list EquityPoint
}.

Definition NewEquitySampler : EquitySampler := mkSampler ∅ ∅ [].

Definition set_ids (ids : gset string) (s : EquitySampler) : EquitySampler :=
  mkSampler ids (sm_perStrategy s) (sm_total s).
Definition add_point (sid : string) (pt : EquityPoint) (s : EquitySampler) : EquitySampler :=
  mkSampler (sm_strategyIDs s) (<[sid := default [] (sm_perStrategy s !! sid) ++ [pt]]> (sm_perStrategy s)) (sm_total s).
Definition add_total (pt : EquityPoint) (s : EquitySampler) : EquitySampler :=
  mkSampler (sm_strategyIDs s) (sm_perStrategy s) (sm_total s ++ [pt]).

Definition sortedStrategyIDs (s : EquitySampler) : list string := merge_sort String.le (elements (sm_strategyIDs s)).

Definition TotalCurve (s : EquitySampler) : list EquityPoint := sm_total s.
Definition StrategyCurve (s : EquitySampler) (sid : string) : list EquityPoint := default [] (sm_perStrategy s !! sid).

(** The inner loop: realized, plus unrealized for an open and priced position. *)
Fixpoint pnlLoop (a : Account) (sid : string) (pnl : Money) (keys : list StrategySymbol) : res Money :=
  match keys with
  | [] => Ok pnl
  | key :: keys =>
      if negb (String.eqb key.1 sid) then pnlLoop a sid pnl keys
      else
        match a_positions a !! key with
        | None => pnlLoop a sid pnl keys
        | Some p =>
            pnl <-? Money_Add pnl (p_realized p) ;;
            if negb (Position_IsFlat p) then
              match a_lastPrice a !! p_symbol p with
              | Some last =>
                  u <-? UnrealizedPnL p last ;;
                  pnl <-? Money_Add pnl u ;;
                  pnlLoop a sid pnl keys
              | None => pnlLoop a sid pnl keys
              end
            else pnlLoop a sid pnl keys
        end
  end.

(** The outer loop; [perStrat] in the order it is filled. *)
Fixpoint perStratLoop (a : Account) (keys : list StrategySymbol) (ids : list string) : res (list (string * Money)) :=
  match ids with
  | [] => Ok []
  | sid :: ids =>
      pnl <-? pnlLoop a sid 0 keys ;;
      rest <-? perStratLoop a keys ids ;;
      Ok ((sid, pnl) :: rest)
  end.

Definition Sample (a : Account) (ts : time) : eff EquitySampler unit :=
  _ <-! eff_modify (fun s => set_ids (sm_strategyIDs s ∪ list_to_set (map fst (map fst (map_to_list (a_positions a))))) s) ;;
  s <-! eff_get ;;
  perStrat <-! eff_lift (perStratLoop a (sortKeys (a_positions a)) (sortedStrategyIDs s)) ;;
  _ <-! eff_modify (fun s => foldl (fun s e => add_point e.1 (mkPoint ts e.2) s) s perStrat) ;;
  equity <-! eff_lift (Equity a) ;;
  eff_modify (add_total (mkPoint ts equity)).

(** ** What a sample records *)

(** The PnL of one position: realized plus the mark of what is open. *)
Definition keyPnL (a : Account) (key : StrategySymbol) : Z :=
  match a_positions a !! key with Some p => p_realized p + (p_signedQty p * lastOf a p - signedCost p) | None => 0 end.

Definition strategyPnL (a : Account) (sid : string) : Z :=
  sumZ (map (keyPnL a) (List.filter (fun key => String.eqb key.1 sid) (sortKeys (a_positions a)))).

Lemma pnlLoop_exact a sid keys : acctOk a -> priced a -> forall pnl r,
  in64 pnl -> pnlLoop a sid pnl keys = Ok r ->
  r = pnl + sumZ (map (keyPnL a) (List.filter (fun key => String.eqb key.1 sid) keys)).
Proof.
  intros [_ _ Hp Hpx] Hpr. induction keys as [|key keys IH]; intros pnl r Hi E; cbn [pnlLoop List.filter] in *.
  - injection E as <-. cbn. lia.
  - destruct (String.eqb key.1 sid); cbn [negb map] in *; [|by apply IH]. rewrite sumZ_cons. unfold keyPnL at 1.
    destruct (a_positions a !! key) as [p|] eqn:Ek; [|by apply IH].
    destruct (Hp _ _ Ek) as [Hok _]. destruct (Hpr _ _ Ek) as [last Hl]. bind_inv. pose proof Hok as [_ _ Hz Hr].
    apply Money_Add_ok in Hb as [-> B]; [|done|done]. unfold Position_IsFlat in Hk.
    assert (lastOf a p = last) as -> by (unfold lastOf; by rewrite Hl).
    destruct (Z.eqb_spec (p_signedQty p) 0) as [H0|H0]; cbn [negb] in Hk.
    + rewrite (IH _ _ B Hk). unfold signedCost. rewrite (Hz H0), H0. cbn. lia.
    + rewrite Hl in Hk. bind_inv. pose proof (UnrealizedPnL_in64 p last r0 Hok (Hpx _ _ Hl) Hb) as Hu.
      apply UnrealizedPnL_exact in Hb as ->; [|done|by apply (Hpx _ _ Hl)].
      apply Money_Add_ok in Hb0 as [-> B']; [|done|done]. match goal with H : pnlLoop _ _ _ _ = _ |- _ => rewrite (IH _ _ B' H) end. lia.
Qed.

Lemma perStratLoop_exact a ids : acctOk a -> priced a -> forall l,
  perStratLoop a (sortKeys (a_positions a)) ids = Ok l -> l = map (fun sid => (sid, strategyPnL a sid)) ids.
Proof.
  intros Ha Hpr. induction ids as [|sid ids IH]; intros l E; cbn [perStratLoop map] in *; [by injection E as <-|].
  bind_inv. injection Hk0 as <-. apply pnlLoop_exact in Hb; [|done|done|rlia].
  rewrite (IH _ Hb0). f_equal. f_equal. unfold strategyPnL. lia.
Qed.

Lemma add_points_spec ts l : forall s, base.NoDup (map fst l) ->
  let s' := foldl (fun s e => add_point e.1 (mkPoint ts e.2) s) s l in
  sm_strategyIDs s' = sm_strategyIDs s /\ sm_total s' = sm_total s /\
  (forall sid v, (sid, v) ∈ l -> StrategyCurve s' sid = StrategyCurve s sid ++ [mkPoint ts v]) /\
  (forall sid, sid ∉ map fst l -> StrategyCurve s' sid = StrategyCurve s sid).
Proof.
  induction l as [|[sid v] l IH]; intros s Hd; cbn [foldl map fst snd] in *.
  - splits; [done|done|intros ? ? H; by apply not_elem_of_nil in H|done].
  - apply list.NoDup_cons in Hd as [Hn Hd]. destruct (IH (add_point sid (mkPoint ts v) s) Hd) as (H1 & H2 & H3 & H4).
    splits; [by rewrite H1|by rewrite H2| |].
    + intros sid' v' [[= -> ->]|Hin]%elem_of_cons.
      * rewrite (H4 sid Hn). unfold StrategyCurve. cbn. by rewrite lookup_insert_eq.
      * rewrite (H3 _ _ Hin). unfold StrategyCurve. cbn. rewrite lookup_insert_ne; [done|].
        intros ->. apply Hn. apply list_elem_of_fmap. by exists (sid', v').
    + intros sid' Hnin. apply not_elem_of_cons in Hnin as [Hne Hnin]. rewrite (H4 _ Hnin).
      unfold StrategyCurve. cbn. by rewrite lookup_insert_ne.
Qed.

(** Grouping the positions by strategy loses none and counts none twice. *)
Lemma group_by_strategy (g : StrategySymbol -> Z) ids keys :
  base.NoDup ids -> Forall (fun key => key.1 ∈ ids) keys ->
  sumZ (map (fun sid => sumZ (map g (List.filter (fun key => String.eqb key.1 sid) keys))) ids) = sumZ (map g keys).
Proof.
  intros Hd Hk. induction Hk as [|key keys Hin Hk IH]; cbn [map List.filter].
  - induction ids as [|sid ids IH]; [done|]. cbn [map]. rewrite sumZ_cons. apply list.NoDup_cons in Hd as [_ Hd]. by rewrite (IH Hd).
  - rewrite sumZ_cons, <- IH. clear IH Hk. induction ids as [|sid ids IH]; [by apply not_elem_of_nil in Hin|].
    apply list.NoDup_cons in Hd as [Hn Hd]. cbn [map]. rewrite !sumZ_cons.
    destruct (String.eqb_spec key.1 sid) as [<-|Hne].
    + cbn [map]. rewrite sumZ_cons.
      assert (map (fun sid => sumZ (map g (List.filter (fun key => String.eqb key.1 sid) (key :: keys)))) ids
              = map (fun sid => sumZ (map g (List.filter (fun key => String.eqb key.1 sid) keys))) ids) as Em.
      { apply map_ext_in. intros sid Hs. cbn [List.filter]. destruct (String.eqb_spec key.1 sid) as [Heq|_]; [|done].
        exfalso. apply Hn. rewrite Heq. by apply list_elem_of_In. }
      cbn [List.filter] in Em. rewrite Em. lia.
    + apply elem_of_cons in Hin as [Heq|Hin]; [congruence|]. specialize (IH Hd Hin). lia.
Qed.

Lemma strategyPnL_total a : sumZ (map (keyPnL a) (sortKeys (a_positions a))) = totalRealized a + marketValue a - totalCost a.
Proof.
  pose proof (markOf_total a) as Hm.
  assert (Hr : sumZ (map (keyPnL a) (sortKeys (a_positions a)))
             = totalRealized a + sumZ (map (markOf a) (sortKeys (a_positions a)))); [|lia].
  rewrite !sortKeys_perm. unfold totalRealized, mapSum, keyPnL, markOf. clear Hm.
  assert (Hin : forall k p, (k, p) ∈ map_to_list (a_positions a) -> a_positions a !! k = Some p)
    by (intros k p; apply elem_of_map_to_list).
  induction (map_to_list (a_positions a)) as [|[k p] l IH]; [done|].
  cbn [map]. rewrite !sumZ_cons, IH by (intros; apply Hin; by right). cbn [fst snd]. rewrite (Hin k p) by left. lia.
Qed.

Lemma sortedIDs_spec s : base.NoDup (sortedStrategyIDs s) /\ forall sid, sid ∈ sortedStrategyIDs s <-> sid ∈ sm_strategyIDs s.
Proof.
  unfold sortedStrategyIDs. rewrite merge_sort_Permutation. split; [apply NoDup_elements|].
  intros sid. rewrite merge_sort_Permutation. apply elem_of_elements.
Qed.

(** ** Properties *)

(** A sample adds one point to the total curve, the account's equity, and one
    point to the curve of every strategy known so far or holding a position,
    its realized plus marked PnL; the starting balance plus the strategies'
    new points is exactly the new total. *)
Theorem sample_curves_add_up a ts s s' :
  acctOk a -> priced a -> a_realized a = totalRealized a -> Sample a ts s = (s', Ok tt) ->
  exists e, Equity a = Ok e /\ TotalCurve s' = TotalCurve s ++ [mkPoint ts e] /\
    (forall sid, sid ∈ sm_strategyIDs s' <-> sid ∈ sm_strategyIDs s \/ exists y p, a_positions a !! (sid, y) = Some p) /\
    (forall sid, sid ∈ sm_strategyIDs s' -> StrategyCurve s' sid = StrategyCurve s sid ++ [mkPoint ts (strategyPnL a sid)]) /\
    a_startingBalance a + sumZ (map (strategyPnL a) (sortedStrategyIDs s')) = e.
Proof.
  intros Ha Hpr Hr E. unfold Sample in E. bind_inv. injection Hk as <-.
  set (s1 := set_ids _ s) in *. destruct (sortedIDs_spec s1) as [Hd Hids].
  apply perStratLoop_exact in Hb1 as ->; [|done|done].
  set (l := map (fun sid => (sid, strategyPnL a sid)) (sortedStrategyIDs s1)).
  assert (Hl : map fst l = sortedStrategyIDs s1) by (unfold l; rewrite map_map; apply map_id).
  destruct (add_points_spec ts l s1) as (H1 & H2 & H3 & _); [exact (eq_ind_r base.NoDup Hd Hl)|]. cbn zeta in *.
  set (s2 := foldl (fun s e => add_point e.1 (mkPoint ts e.2) s) s1 (l : list (string * Money))) in *.
  assert (Hs : forall sid, sid ∈ sm_strategyIDs s1 <-> sid ∈ sm_strategyIDs s \/ exists y p, a_positions a !! (sid, y) = Some p).
  { intros sid. cbn. rewrite elem_of_union, elem_of_list_to_set. apply or_iff_compat_l. split.
    - intros ([i y] & -> & ([k p] & Ek & Hin)%list_elem_of_fmap)%list_elem_of_fmap. cbn in Ek. subst k.
      apply elem_of_map_to_list in Hin. by exists y, p.
    - intros (y & p & Hp). apply list_elem_of_fmap. exists (sid, y). split; [done|]. apply list_elem_of_fmap.
      exists ((sid, y), p). split; [done|]. by apply elem_of_map_to_list. }
  assert (Hso : sortedStrategyIDs (add_total (mkPoint ts r3) s2) = sortedStrategyIDs s1)
    by (unfold sortedStrategyIDs; cbn; by rewrite H1).
  exists r3. splits; [done|cbn; by rewrite H2|cbn; rewrite H1; exact Hs| |].
  - intros sid Hsid. cbn in Hsid. rewrite H1 in Hsid. apply (H3 sid (strategyPnL a sid)).
    apply list_elem_of_fmap. exists sid. split; [done|]. by apply Hids.
  - rewrite Hso. unfold strategyPnL. rewrite group_by_strategy, strategyPnL_total; [|done|].
    + rewrite (Equity_exact a r3 Ha Hpr) by done. lia.
    + apply List.Forall_forall. intros key Hk. apply list_elem_of_In in Hk. rewrite sortKeys_perm in Hk.
      apply list_elem_of_fmap in Hk as ([k p] & -> & Hin). apply elem_of_map_to_list in Hin. destruct k as [sid y].
      apply Hids, Hs. right. by exists y, p.
Qed.

Definition demoAccount : Account := fst (runAccount demoEvents (NewAccount 1000000000 None)).

Lemma sample_curves_add_up_witness :
  exists s', Sample demoAccount demoTs NewEquitySampler = (s', Ok tt) /\
    exists e, Equity demoAccount = Ok e /\ TotalCurve s' = TotalCurve NewEquitySampler ++ [mkPoint demoTs e] /\
      1000000000 + sumZ (map (strategyPnL demoAccount) (sortedStrategyIDs s')) = e.
Proof.
  destruct (Sample demoAccount demoTs NewEquitySampler) as [s' [[]|err]] eqn:E; [|vm_compute in E; discriminate E].
  exists s'. split; [reflexivity|].
  destruct (runAccount_spec demoEvents (NewAccount 1000000000 None) demoAccount) as (H1 & H2 & H3 & H4 & _).
  - constructor; cbn; [rlia|rlia|intros ? ? H; by rewrite lookup_empty in H|intros ? ? H; by rewrite lookup_empty in H].
  - intros ? ? H. cbn in H. by rewrite lookup_empty in H.
  - apply demoEvents_ok.
  - intros key. unfold posAt. cbn [NewAccount a_positions]. rewrite lookup_empty. vm_compute. discriminate.
  - unfold demoAccount. destruct (runAccount _ _) as [a' [[]|err]] eqn:Ea; [done|vm_compute in Ea; discriminate Ea].
  - destruct (sample_curves_add_up demoAccount demoTs NewEquitySampler s') as (e & E1 & E2 & _ & _ & E3);
      [exact H1|exact H2|cbn in H4; unfold totalRealized at 2 in H4; cbn in H4; rewrite mapSum_empty in H4; lia|exact E|].
    exists e. split; [exact E1|]. split; [exact E2|]. rewrite <- E3, H3. reflexivity.
Defined.
