(* ===== verification/SimExec.v ===== *)
(** * The simulated executor (src/internal/exec)

    The fill-model seam, the close-fill profile (fillmodel.go) and the
    executor that queues orders and turns them into fills (executor.go).  The
    executor is proved against the interface [FillModelLaws]; both profiles are
    shown to satisfy it.  The sequence source and the fill sink are the
    executor's environment: the counter is part of its state, and the sink is
    an arbitrary effect on a world of its own, which the state carries too. *)

From stdpp Require Import gmap strings list.
From S2P Require Import Prelude Fixed Money Domain Float64 Accounting.
Set Default Goal Selector "!".
#[local] Open Scope Z_scope.
#[local] Abbreviation length := List.length.

(** ** Fill models *)

(** [domain.MustPrice("0.01")] *)
Definition PriceIncrement : Price := 100.

Inductive FillTiming : Set := FillThisBar | FillNextBar.

Record FillLeg : Set := mkLeg { leg_Qty : Qty; leg_Price : Price }.

Record FillModel : Type := mkFillModel {
  fm_Name : string;
  fm_Timing : FillTiming;
  fm_Fill : Order -> Bar -> res (list FillLeg);
  fm_Commission : Qty -> Price -> res Money
}.

(** What the executor relies on: a priced order splits into legs of positive
    quantity that sum to the order, at prices in range. *)
Class FillModelLaws (model : FillModel) : Prop := {
  fm_legs_positive : forall o b legs, in64 (o_Qty o) -> fm_Fill model o b = Ok legs -> Forall (fun l => 0 < leg_Qty l) legs;
  fm_legs_sum : forall o b legs, in64 (o_Qty o) -> fm_Fill model o b = Ok legs -> sumZ (map leg_Qty legs) = o_Qty o;
  fm_prices : forall o b legs, in64 (bar_Open b) -> in64 (bar_Close b) -> fm_Fill model o b = Ok legs ->
    Forall (fun l => in64 (leg_Price l)) legs
}.

Definition closeTickVolume (volume : Z) : Z :=
  if volume <=? 0 then 0
  else
    let minSize := 1 in
    let quarter := volume ⊘ 4 in
    let quarter := if quarter <? minSize then minSize else quarter in
    let threeQuarters := 3 ⊗ quarter in
    if volume <=? threeQuarters then minSize
    else volume ⊖ threeQuarters.

Definition residualPrice (closePx : Price) (side : OrderSide) : res Price :=
  if String.eqb side OrderSideBuy then Price_Add closePx PriceIncrement
  else if String.eqb side OrderSideSell then Price_Sub closePx PriceIncrement
  else Err ErrInvalidArgument.

Definition closeFill (order : Order) (bar : Bar) : res (list FillLeg) :=
  if negb (String.eqb (o_Type order) OrderTypeMarket) then Err ErrInvalidArgument
  else if o_Qty order <=? 0 then Err ErrInvalidArgument
  else
    let closeTick := closeTickVolume (bar_Volume bar) in
    if closeTick <=? 0 then Ok [mkLeg (o_Qty order) (bar_Close bar)]
    else if o_Qty order <=? closeTick then Ok [mkLeg (o_Qty order) (bar_Close bar)]
    else
      let atClose := closeTick in
      let residual := o_Qty order ⊖ atClose in
      residualPx <-? residualPrice (bar_Close bar) (o_Side order) ;;
      Ok [mkLeg atClose (bar_Close bar); mkLeg residual residualPx].

Definition CloseFillModel : FillModel :=
  mkFillModel "close-fill" FillThisBar closeFill (fun _ _ => Ok 0).

Record RealisticConfig : Set := mkRealistic {
  SlippageBps : float64;
  CommissionPerShare : Money;
  CommissionBps : float64
}.

(** [x / 10000.0] *)
Definition bps (x : float64) : float64 := fdiv x (flit 10000 1).

Definition realisticFill (m : RealisticConfig) (order : Order) (bar : Bar) : res (list FillLeg) :=
  if negb (String.eqb (o_Type order) OrderTypeMarket) then Err ErrInvalidArgument
  else if o_Qty order <=? 0 then Err ErrInvalidArgument
  else
    let base := bar_Open bar in
    if feqb (SlippageBps m) fzero then Ok [mkLeg (o_Qty order) base]
    else
      let frac := bps (SlippageBps m) in
      let adj := fmul (Price_Float64 base) frac in
      let adj := if String.eqb (o_Side order) OrderSideSell then fneg adj else adj in
      p <-? PriceFromFloat64 (fadd (Price_Float64 base) adj) ;;
      Ok [mkLeg (o_Qty order) p].

Definition realisticCommission (m : RealisticConfig) (qty : Qty) (price : Price) : res Money :=
  let absQty := if qty <? 0 then ⊖ qty else qty in
  if negb (CommissionPerShare m =? 0) then Money_MulInt64 (CommissionPerShare m) absQty
  else if feqb (CommissionBps m) fzero then Ok 0
  else
    notional <-? Price_MulQty price absQty ;;
    let c := fmul (Money_Float64 notional) (bps (CommissionBps m)) in
    MoneyFromFloat64 c.

Definition RealisticModel (m : RealisticConfig) : FillModel :=
  mkFillModel "realistic" FillNextBar (realisticFill m) (realisticCommission m).

(** ** The executor *)

Record SimExecutor (W : Type) : Type := mkExec {
  e_pending : gmap string (list Order);
  e_submittedThisBar : list Order;
  e_barsThisTS : gmap string Bar;
  e_curTS : Z;
  e_curTSSet : bool;
  (** the [SeqSource] *)
  e_seq : Z;
  (** what the sink acts on, and the fills it has accepted *)
  e_world : W;
  e_emitted : list Fill
}.
Arguments mkExec {W}.
Arguments e_pending {W}.
Arguments e_submittedThisBar {W}.
Arguments e_barsThisTS {W}.
Arguments e_curTS {W}.
Arguments e_curTSSet {W}.
Arguments e_seq {W}.
Arguments e_world {W}.
Arguments e_emitted {W}.

Section ExecutorState.
Context {W : Type}.
#[local] Abbreviation Exec := (SimExecutor W).

Definition NewSimExecutor (seq : Z) (w : W) : Exec := mkExec ∅ [] ∅ 0 false seq w [].

Definition set_pending (p : gmap string (list Order)) (e : Exec) : Exec :=
  mkExec p (e_submittedThisBar e) (e_barsThisTS e) (e_curTS e) (e_curTSSet e) (e_seq e) (e_world e) (e_emitted e).
Definition set_submitted (s : list Order) (e : Exec) : Exec :=
  mkExec (e_pending e) s (e_barsThisTS e) (e_curTS e) (e_curTSSet e) (e_seq e) (e_world e) (e_emitted e).
Definition set_bars (b : gmap string Bar) (ts : Z) (set : bool) (e : Exec) : Exec :=
  mkExec (e_pending e) (e_submittedThisBar e) b ts set (e_seq e) (e_world e) (e_emitted e).
Definition set_seq (n : Z) (e : Exec) : Exec :=
  mkExec (e_pending e) (e_submittedThisBar e) (e_barsThisTS e) (e_curTS e) (e_curTSSet e) n (e_world e) (e_emitted e).
Definition set_world (w : W) (e : Exec) : Exec :=
  mkExec (e_pending e) (e_submittedThisBar e) (e_barsThisTS e) (e_curTS e) (e_curTSSet e) (e_seq e) w (e_emitted e).
Definition add_emitted (f : Fill) (e : Exec) : Exec :=
  mkExec (e_pending e) (e_submittedThisBar e) (e_barsThisTS e) (e_curTS e) (e_curTSSet e) (e_seq e) (e_world e)
    (e_emitted e ++ [f]).

(** [fmt.Sprintf("%s%d", prefix, n)] *)
Definition withNumber (prefix : string) (n : Z) : string := (prefix ++ string_of_list_ascii (formatInt n))%string.

Definition drawSeq : eff Exec Z :=
  e <-! eff_get ;;
  _ <-! eff_modify (set_seq (wrapu64 (e_seq e + 1))) ;;
  eff_ret (e_seq e).

Definition NewClientOrderID : eff Exec string :=
  s <-! drawSeq ;;
  eff_ret (withNumber "O-" s).

Section Executor.
Context (model : FillModel).
(** [EmitFill] *)
Context (sink : Fill -> eff W unit).

Definition Submit (order : Order) : eff Exec unit :=
  _ <-! eff_lift (Order_Validate order) ;;
  if negb (String.eqb (o_Type order) OrderTypeMarket) then eff_fail ErrInvalidArgument
  else
    match fm_Timing model with
    | FillThisBar => eff_modify (fun e => set_submitted (e_submittedThisBar e ++ [order]) e)
    | FillNextBar =>
        eff_modify (fun e => set_pending
          (<[o_Symbol order := default [] (e_pending e !! o_Symbol order) ++ [order]]> (e_pending e)) e)
    end.

Definition emitFill (f : Fill) : eff Exec unit :=
  fun e =>
    let '(w, r) := sink f (e_world e) in
    match r with
    | Err err => (set_world w e, Err err)
    | Ok _ => (add_emitted f (set_world w e), Ok tt)
    end.

Definition legFill (order : Order) (bar : Bar) (venueOrderID : string) (i : nat) (leg : FillLeg) (commission : Money) : Fill :=
  mkFill
    (withNumber (withNumber (venueOrderID ++ "-") (UnixNano (bar_TS bar)) ++ "-") (Z.of_nat i))
    (o_ClientOrderID order) venueOrderID (o_StrategyID order) (o_Symbol order) (o_Side order)
    (leg_Qty leg) (leg_Price leg) commission (bar_TS bar).

(** [for i, leg := range legs], with the running [legSum]. *)
Fixpoint fillLegs (order : Order) (bar : Bar) (venueOrderID : string) (i : nat) (legSum : Qty) (legs : list FillLeg)
    : eff Exec Qty :=
  match legs with
  | [] => eff_ret legSum
  | leg :: legs =>
      if negb (Price_IsPositive (leg_Price leg)) then eff_fail ErrInvalidArgument
      else if leg_Qty leg <=? 0 then eff_fail ErrInvalidArgument
      else
        let legSum := legSum ⊕ leg_Qty leg in
        commission <-! eff_lift (fm_Commission model (leg_Qty leg) (leg_Price leg)) ;;
        let f := legFill order bar venueOrderID i leg commission in
        _ <-! eff_lift (Fill_Validate f) ;;
        _ <-! emitFill f ;;
        fillLegs order bar venueOrderID (S i) legSum legs
  end.

Definition fill (order : Order) (bar : Bar) : eff Exec unit :=
  legs <-! eff_lift (fm_Fill model order bar) ;;
  if (length legs =? 0)%nat then eff_fail ErrInvalidArgument
  else
    s <-! drawSeq ;;
    let venueOrderID := withNumber "V-" s in
    legSum <-! fillLegs order bar venueOrderID 0 0 legs ;;
    if negb (legSum =? o_Qty order) then eff_fail ErrInvalidArgument
    else eff_ret tt.

(** The next-bar loop over the orders pending for the bar's symbol. *)
Fixpoint fillPending (orders : list Order) (bar : Bar) (count : Z) : eff Exec Z :=
  match orders with
  | [] => eff_ret count
  | order :: orders =>
      _ <-! fill order bar ;;
      fillPending orders bar (count + 1)
  end.

Definition ProcessBar (bar : Bar) : eff Exec Z :=
  match fm_Timing model with
  | FillThisBar =>
      let ts := UnixNano (bar_TS bar) in
      e <-! eff_get ;;
      _ <-! (if negb (e_curTSSet e) || negb (ts =? e_curTS e)
             then eff_modify (set_bars ∅ ts true) else eff_ret tt) ;;
      _ <-! eff_modify (fun e => set_bars (<[bar_Symbol bar := bar]> (e_barsThisTS e)) (e_curTS e) (e_curTSSet e) e) ;;
      eff_ret 0
  | FillNextBar =>
      e <-! eff_get ;;
      let orders := default [] (e_pending e !! bar_Symbol bar) in
      _ <-! eff_modify (set_pending (delete (bar_Symbol bar) (e_pending e))) ;;
      fillPending orders bar 0
  end.

Fixpoint flushLoop (orders unfilled : list Order) (count : Z) : eff Exec (list Order * Z) :=
  match orders with
  | [] => eff_ret (unfilled, count)
  | order :: orders =>
      e <-! eff_get ;;
      match e_barsThisTS e !! o_Symbol order with
      | None => flushLoop orders (unfilled ++ [order]) count
      | Some bar =>
          _ <-! fill order bar ;;
          flushLoop orders unfilled (count + 1)
      end
  end.

Definition FlushThisBar : eff Exec Z :=
  e <-! eff_get ;;
  match fm_Timing model with
  | FillNextBar => eff_ret 0
  | FillThisBar =>
      if (length (e_submittedThisBar e) =? 0)%nat then eff_ret 0
      else
        let orders := e_submittedThisBar e in
        _ <-! eff_modify (set_submitted []) ;;
        r <-! flushLoop orders [] 0 ;;
        _ <-! eff_modify (set_submitted (fst r)) ;;
        eff_ret (snd r)
  end.

Definition FillAtBar (order : Order) (bar : Bar) : eff Exec unit :=
  _ <-! eff_lift (Order_Validate order) ;;
  if negb (String.eqb (o_Type order) OrderTypeMarket) then eff_fail ErrInvalidArgument
  else fill order bar.

End Executor.

Definition pendingOrders (e : Exec) : list Order :=
  List.concat (map snd (map_to_list (e_pending e))) ++ e_submittedThisBar e.

Definition PendingCount (e : Exec) : Z := Z.of_nat (length (pendingOrders e)).
End ExecutorState.

(** ** The close-fill profile *)

Lemma closeTickVolume_spec v : in64 v ->
  closeTickVolume v = if v <=? 0 then 0 else if v <? 4 then 1 else v - 3 * (v / 4).
Proof.
  intros Hv. unfold closeTickVolume. destruct (Z.leb_spec v 0); [reflexivity|].
  rewrite Z.quot_div_nonneg by lia. pose proof (Z.div_mod v 4 ltac:(lia)). pose proof (Z.mod_pos_bound v 4 ltac:(lia)).
  rewrite (wrap64_id (v / 4)) by rlia.
  destruct (Z.ltb_spec (v / 4) 1), (Z.ltb_spec v 4); try lia; rewrite wrap64_id by rlia.
  - destruct (Z.leb_spec v (3 * 1)); lia.
  - destruct (Z.leb_spec v (3 * (v / 4))); [lia|]. rewrite wrap64_id by rlia. reflexivity.
Qed.

Lemma closeTickVolume_bounds v : in64 v -> 0 < v -> 1 <= closeTickVolume v <= v /\ v <= 4 * closeTickVolume v.
Proof.
  intros Hv H0. rewrite closeTickVolume_spec by done. destruct (Z.leb_spec v 0); [lia|].
  pose proof (Z.div_mod v 4 ltac:(lia)). pose proof (Z.mod_pos_bound v 4 ltac:(lia)).
  destruct (Z.ltb_spec v 4); lia.
Qed.

(** The legs of a close fill: all at the close, or the close-tick depth at the
    close and the rest one increment away. *)
Lemma closeFill_cases o b legs :
  in64 (o_Qty o) -> closeFill o b = Ok legs ->
  o_Type o = OrderTypeMarket /\ 0 < o_Qty o /\
  (legs = [mkLeg (o_Qty o) (bar_Close b)] \/
   exists px, let c := closeTickVolume (bar_Volume b) in
     0 < c < o_Qty o /\ residualPrice (bar_Close b) (o_Side o) = Ok px /\
     legs = [mkLeg c (bar_Close b); mkLeg (o_Qty o - c) px]).
Proof.
  intros Hq E. unfold closeFill in E.
  destruct (String.eqb_spec (o_Type o) OrderTypeMarket); [|done]. cbn [negb] in E.
  destruct (Z.leb_spec (o_Qty o) 0); [done|]. splits; [done|lia|].
  destruct (Z.leb_spec (closeTickVolume (bar_Volume b)) 0); [left; by injection E|].
  destruct (Z.leb_spec (o_Qty o) (closeTickVolume (bar_Volume b))); [left; by injection E|].
  right. bind_inv. injection Hk as <-. rewrite wrap64_id by rlia. exists r. by splits.
Qed.

Lemma residualPrice_ok px side r : in64 px -> residualPrice px side = Ok r ->
  in64 r /\ ((side = OrderSideBuy /\ r = px + PriceIncrement) \/ (side = OrderSideSell /\ r = px - PriceIncrement)).
Proof.
  intros Hp. unfold residualPrice. destruct (String.eqb_spec side OrderSideBuy) as [->|_].
  - rewrite Price_Add_ok by (done || unfold PriceIncrement; rlia). intros [-> Hi]. split; [done|by left].
  - destruct (String.eqb_spec side OrderSideSell) as [->|_]; [|done].
    rewrite Price_Sub_ok by (done || unfold PriceIncrement; rlia). intros [-> Hi]. split; [done|by right].
Qed.

Lemma closeFill_prices o b legs : in64 (bar_Close b) -> closeFill o b = Ok legs ->
  Forall (fun l => in64 (leg_Price l)) legs.
Proof.
  intros Hc E. unfold closeFill in E. destruct (negb _); [done|]. destruct (o_Qty o <=? 0); [done|].
  destruct (_ <=? 0); [injection E as <-; by apply List.Forall_cons|].
  destruct (o_Qty o <=? _); [injection E as <-; by apply List.Forall_cons|].
  bind_inv. injection Hk as <-. apply residualPrice_ok in Hb as [Hr _]; [|done].
  apply List.Forall_cons; [done|]. by apply List.Forall_cons.
Qed.

#[export] Instance closeFill_laws : FillModelLaws CloseFillModel.
Proof.
  constructor.
  - intros o b legs Hq E. destruct (closeFill_cases o b legs Hq E) as (_ & H0 & [->|(px & Hc & _ & ->)]);
      repeat apply List.Forall_cons; try apply List.Forall_nil; cbn; lia.
  - intros o b legs Hq E. destruct (closeFill_cases o b legs Hq E) as (_ & H0 & [->|(px & Hc & _ & ->)]);
      cbn; lia.
  - intros o b legs _ Hc E. by apply (closeFill_prices o b).
Qed.

(** The realistic profile fills the whole order in one leg. *)
Lemma realisticFill_leg m o b legs : realisticFill m o b = Ok legs ->
  0 < o_Qty o /\ exists px, legs = [mkLeg (o_Qty o) px] /\ (in64 (bar_Open b) -> in64 px).
Proof.
  unfold realisticFill. destruct (negb _); [done|]. destruct (Z.leb_spec (o_Qty o) 0); [done|].
  intros E. split; [lia|]. destruct (feqb _ _); [injection E as <-; eauto|].
  bind_inv. injection Hk as <-. exists r. split; [done|]. intros _. by apply fixed4FromFloat_in64 in Hb.
Qed.

#[export] Instance realistic_laws m : FillModelLaws (RealisticModel m).
Proof.
  constructor; intros o b legs; cbn; [intros Hq E|intros Hq E|intros Ho _ E];
    apply realisticFill_leg in E as (H0 & px & -> & Hp); cbn; [by apply List.Forall_cons|lia|].
  apply List.Forall_cons; [by apply Hp|apply List.Forall_nil].
Qed.

(** ** The executor against the interface *)

(** Filling touches the counter and the sink only. *)
Definition sameQueues {W} (e e' : SimExecutor W) : Prop :=
  e_pending e' = e_pending e /\ e_submittedThisBar e' = e_submittedThisBar e /\
  e_barsThisTS e' = e_barsThisTS e /\ e_curTS e' = e_curTS e /\ e_curTSSet e' = e_curTSSet e.

#[export] Instance sameQueues_preorder {W} : PreOrder (@sameQueues W).
Proof.
  split; [by repeat split|]. unfold sameQueues. intros a b c (?&?&?&?&?) (?&?&?&?&?). splits; congruence.
Qed.

(** [fs] executes [order] in full at [bar]. *)
Record executes (order : Order) (bar : Bar) (fs : list Fill) : Prop := {
  ex_valid : Forall (fun f => Fill_Validate f = Ok tt) fs;
  ex_order : Forall (fun f => f_ClientOrderID f = o_ClientOrderID order /\ f_StrategyID f = o_StrategyID order /\
                              f_Symbol f = o_Symbol order /\ f_Side f = o_Side order /\ f_TS f = bar_TS bar) fs;
  ex_venue : exists v, Forall (fun f => f_VenueOrderID f = v) fs;
  ex_qty : sumZ (map f_Qty fs) = o_Qty order;
  ex_price : in64 (bar_Open bar) -> in64 (bar_Close bar) -> Forall (fun f => in64 (f_Price f)) fs;
  ex_trades : NoDup (map f_TradeID fs)
}.

Section ExecutorProofs.
Context {W : Type} (model : FillModel) `{!FillModelLaws model} (sink : Fill -> eff W unit).

(** The sink over a list of fills, all accepted. *)
Fixpoint emitAll (fs : list Fill) : eff W unit :=
  match fs with
  | [] => eff_ret tt
  | f :: fs => _ <-! sink f ;; emitAll fs
  end.

Lemma emitAll_app fs gs w w' w'' :
  emitAll fs w = (w', Ok tt) -> emitAll gs w' = (w'', Ok tt) -> emitAll (fs ++ gs) w = (w'', Ok tt).
Proof.
  revert w. induction fs as [|f fs IH]; intros w E1 E2; cbn [emitAll app] in *; [by injection E1 as ->|].
  unfold eff_bind in *. destruct (sink f w) as [w1 [r|err]]; [|done]. by apply IH.
Qed.

(** The executor emitted exactly [fs], all accepted by the sink. *)
Definition emitted (fs : list Fill) (e e' : SimExecutor W) : Prop :=
  e_emitted e' = e_emitted e ++ fs /\ emitAll fs (e_world e) = (e_world e', Ok tt).

Lemma emitted_nil e : emitted [] e e.
Proof. split; [by rewrite app_nil_r|done]. Qed.

Lemma emitted_app fs gs e e' e'' : emitted fs e e' -> emitted gs e' e'' -> emitted (fs ++ gs) e e''.
Proof.
  intros [H1 H2] [H3 H4]. split; [by rewrite H3, H1, app_assoc|]. by eapply emitAll_app.
Qed.


Lemma emitFill_run f e e' : emitFill sink f e = (e', Ok tt) -> emitted [f] e e' /\ sameQueues e e'.
Proof.
  unfold emitFill, emitted. cbn [emitAll]. unfold eff_bind.
  destruct (sink f (e_world e)) as [w [r|err]]; [|done]. by intros [= <-].
Qed.

Fixpoint legFills (order : Order) (bar : Bar) (vid : string) (i : nat) (legs : list FillLeg) (cs : list Money) : list Fill :=
  match legs, cs with
  | leg :: legs, c :: cs => legFill order bar vid i leg c :: legFills order bar vid (S i) legs cs
  | _, _ => []
  end.

Lemma fillLegs_run order bar vid legs : forall i s e e' t,
  fillLegs model sink order bar vid i s legs e = (e', Ok t) ->
  exists cs, length cs = length legs /\ emitted (legFills order bar vid i legs cs) e e' /\
    sameQueues e e' /\ Forall (fun f => Fill_Validate f = Ok tt) (legFills order bar vid i legs cs).
Proof.
  induction legs as [|leg legs IH]; intros i s e e' t E; cbn [fillLegs] in E.
  - injection E as <- <-. exists []. splits; [done|apply emitted_nil|reflexivity|apply List.Forall_nil].
  - destruct (negb (Price_IsPositive _)); [done|]. destruct (leg_Qty leg <=? 0); [done|].
    bind_inv. destruct r0, r1. apply emitFill_run in Hb1 as [E0 Hq0].
    destruct (IH _ _ _ _ _ Hk) as (cs & L & E1 & Hq & Hv).
    exists (r :: cs). cbn [length legFills]. splits; [lia|exact (emitted_app [_] _ _ _ _ E0 E1)| |].
    + etransitivity; [exact Hq0|exact Hq].
    + by apply List.Forall_cons.
Qed.

Lemma legFills_qty order bar vid legs : forall i cs, length cs = length legs ->
  map f_Qty (legFills order bar vid i legs cs) = map leg_Qty legs.
Proof.
  induction legs as [|leg legs IH]; intros i [|c cs] L; cbn in *; [done|lia|lia|]. by rewrite IH by lia.
Qed.

Lemma legFills_price order bar vid legs : forall i cs,
  Forall (fun l => in64 (leg_Price l)) legs -> Forall (fun f => in64 (f_Price f)) (legFills order bar vid i legs cs).
Proof.
  induction legs as [|leg legs IH]; intros i [|c cs] H; cbn; try apply List.Forall_nil.
  apply Forall_cons_1 in H as [H1 H2]. apply List.Forall_cons; auto.
Qed.

Lemma legFills_order order bar vid legs : forall i cs,
  Forall (fun f => f_ClientOrderID f = o_ClientOrderID order /\ f_StrategyID f = o_StrategyID order /\
                   f_Symbol f = o_Symbol order /\ f_Side f = o_Side order /\ f_TS f = bar_TS bar)
    (legFills order bar vid i legs cs) /\
  Forall (fun f => f_VenueOrderID f = vid) (legFills order bar vid i legs cs).
Proof.
  induction legs as [|leg legs IH]; intros i [|c cs]; cbn; try (split; apply List.Forall_nil).
  destruct (IH (S i) cs) as [H1 H2]. split; apply List.Forall_cons; auto.
Qed.

Lemma string_app_inj (p a b : string) : (p ++ a = p ++ b)%string -> a = b.
Proof. induction p as [|c p IH]; cbn; [done|]. intros [= H]. auto. Qed.

Lemma withNumber_inj p a b : in64 a -> in64 b -> withNumber p a = withNumber p b -> a = b.
Proof.
  intros Ha Hb E. unfold withNumber in E. apply string_app_inj in E.
  pose proof (ParseQty_String a Ha) as Pa. pose proof (ParseQty_String b Hb) as Pb.
  unfold Qty_String in *. rewrite E in Pa. congruence.
Qed.

Lemma legFills_trades order bar vid legs : forall i cs, length cs = length legs ->
  Z.of_nat (i + length legs) <= max_int64 ->
  NoDup (map f_TradeID (legFills order bar vid i legs cs)) /\
  Forall (fun f => exists j, (i <= j)%nat /\ Z.of_nat j <= max_int64 /\
    f_TradeID f = withNumber (withNumber (vid ++ "-") (UnixNano (bar_TS bar)) ++ "-") (Z.of_nat j))
    (legFills order bar vid i legs cs).
Proof.
  induction legs as [|leg legs IH]; intros i [|c cs] L Hi; cbn in *; try lia; [by repeat constructor|].
  destruct (IH (S i) cs ltac:(lia) ltac:(lia)) as [Hn Hf]. split.
  - apply List.NoDup_cons; [|done]. intros Hin. apply in_map_iff in Hin as (f & Ef & Hin).
    rewrite List.Forall_forall in Hf. destruct (Hf f Hin) as (j & Hj & Hm & Et). rewrite Et in Ef.
    apply withNumber_inj in Ef; [lia|rlia|rlia].
  - apply List.Forall_cons; [exists i; splits; [lia|lia|done]|].
    eapply List.Forall_impl; [|exact Hf]. intros f (j & Hj & Hm & Et). exists j. splits; [lia|done|done].
Qed.

Lemma legs_count legs : Forall (fun l => 0 < leg_Qty l) legs -> Z.of_nat (length legs) <= sumZ (map leg_Qty legs).
Proof.
  induction 1 as [|l legs Hl _ IH]; [done|]. cbn [length map]. rewrite sumZ_cons. lia.
Qed.

Lemma drawSeq_run (e : SimExecutor W) : drawSeq e = (set_seq (wrapu64 (e_seq e + 1)) e, Ok (e_seq e)).
Proof. reflexivity. Qed.

Lemma fill_run order bar e e' :
  in64 (o_Qty order) -> fill model sink order bar e = (e', Ok tt) ->
  exists fs, executes order bar fs /\ emitted fs e e' /\ sameQueues e e'.
Proof.
  intros Hq E. unfold fill in E. bind_inv. rename r into legs.
  destruct (length legs =? 0)%nat; [done|]. bind_inv.
  rewrite drawSeq_run in Hb0. injection Hb0 as <- <-.
  destruct (negb _); [done|]. injection Hk as ->.
  pose proof (fm_legs_positive order bar legs Hq Hb) as Hpos.
  pose proof (fm_legs_sum order bar legs Hq Hb) as Hsum.
  pose proof (legs_count legs Hpos) as Hcnt.
  apply fillLegs_run in Hb1 as (cs & L & Ee & Hs & Hv).
  eexists. split; [|split; [exact Ee|etransitivity; [|exact Hs]; by repeat split]].
  destruct (legFills_order order bar (withNumber "V-" (e_seq s)) legs 0 cs) as [H1 H2].
  constructor; [done|done|by eexists| | |].
  - rewrite legFills_qty by done. exact Hsum.
  - intros Ho Hc. apply legFills_price. by apply (fm_prices order bar).
  - apply legFills_trades; [done|]. cbn [Nat.add]. rlia.
Qed.

(** ** Order conservation *)

(** The orders an operation executed, with the bar of each, and its fills. *)
Definition executions (l : list (Order * Bar * list Fill)) : Prop :=
  Forall (fun x => executes x.1.1 x.1.2 x.2) l.

Lemma fillPending_run bar orders : forall count e e' n,
  Forall (fun o => in64 (o_Qty o)) orders ->
  fillPending model sink orders bar count e = (e', Ok n) ->
  exists l, executions l /\ map (fun x => x.1.1) l = orders /\ Forall (fun x => x.1.2 = bar) l /\
    n = count + Z.of_nat (length orders) /\
    emitted (List.concat (map snd l)) e e' /\ sameQueues e e'.
Proof.
  induction orders as [|o orders IH]; intros count e e' n Hq E; cbn [fillPending] in E.
  - injection E as <- <-. exists [].
    splits; [apply List.Forall_nil|done|apply List.Forall_nil|cbn; lia|apply emitted_nil|reflexivity].
  - apply Forall_cons_1 in Hq as [Ho Hq]. bind_inv. destruct r.
    destruct (fill_run o bar e s Ho Hb) as (fs & Hx & Ee & Hs).
    destruct (IH _ _ _ _ Hq Hk) as (l & Hl & Hm & Hb' & -> & Ee' & Hs').
    exists ((o, bar, fs) :: l). splits.
    + by apply List.Forall_cons.
    + cbn. by rewrite Hm.
    + by apply List.Forall_cons.
    + cbn [length]. lia.
    + exact (emitted_app _ _ _ _ _ Ee Ee').
    + etransitivity; eassumption.
Qed.

Lemma flushLoop_run orders : forall unfilled count e e' rest n,
  Forall (fun o => in64 (o_Qty o)) orders ->
  flushLoop model sink orders unfilled count e = (e', Ok (rest, n)) ->
  exists l, executions l /\
    map (fun x => x.1.1) l = List.filter (fun o => bool_decide (is_Some (e_barsThisTS e !! o_Symbol o))) orders /\
    rest = unfilled ++ List.filter (fun o => negb (bool_decide (is_Some (e_barsThisTS e !! o_Symbol o)))) orders /\
    Forall (fun x => e_barsThisTS e !! o_Symbol x.1.1 = Some x.1.2) l /\
    n = count + Z.of_nat (length l) /\
    emitted (List.concat (map snd l)) e e' /\ sameQueues e e'.
Proof.
  induction orders as [|o orders IH]; intros unfilled count e e' rest n Hq E; cbn [flushLoop] in E.
  - injection E as <- <- <-. exists []. cbn. rewrite !app_nil_r.
    splits; [apply List.Forall_nil|done|done|apply List.Forall_nil|lia|apply emitted_nil|reflexivity].
  - apply Forall_cons_1 in Hq as [Ho Hq]. unfold eff_bind at 1, eff_get in E. cbn [List.filter].
    destruct (e_barsThisTS e !! o_Symbol o) as [bar|] eqn:Eb.
    + bind_inv. destruct r. destruct (fill_run o bar e s Ho Hb) as (fs & Hx & Ee & Hs).
      destruct (IH _ _ _ _ _ _ Hq Hk) as (l & Hl & Hm & Hr & Hbs & -> & Ee' & Hs').
      assert (Ebs : e_barsThisTS s = e_barsThisTS e) by apply Hs. rewrite Ebs in *.
      exists ((o, bar, fs) :: l). splits.
      * by apply List.Forall_cons.
      * cbn. by rewrite Hm.
      * exact Hr.
      * by apply List.Forall_cons.
      * cbn [length]. lia.
      * exact (emitted_app _ _ _ _ _ Ee Ee').
      * etransitivity; eassumption.
    + destruct (IH _ _ _ _ _ _ Hq E) as (l & Hl & Hm & Hr & Hbs & Hn & Ee' & Hs').
      exists l. cbn. splits; try done. rewrite Hr, <- app_assoc. done.
Qed.

Lemma flush_run e e' n :
  fm_Timing model = FillThisBar -> Forall (fun o => in64 (o_Qty o)) (e_submittedThisBar e) ->
  FlushThisBar model sink e = (e', Ok n) ->
  exists l, executions l /\
    map (fun x => x.1.1) l =
      List.filter (fun o => bool_decide (is_Some (e_barsThisTS e !! o_Symbol o))) (e_submittedThisBar e) /\
    e_submittedThisBar e' =
      List.filter (fun o => negb (bool_decide (is_Some (e_barsThisTS e !! o_Symbol o)))) (e_submittedThisBar e) /\
    Forall (fun x => e_barsThisTS e !! o_Symbol x.1.1 = Some x.1.2) l /\
    n = Z.of_nat (length l) /\ emitted (List.concat (map snd l)) e e' /\
    e_pending e' = e_pending e.
Proof.
  intros Ht Hq E. unfold FlushThisBar in E. unfold eff_bind at 1, eff_get in E. rewrite Ht in E.
  destruct (e_submittedThisBar e) as [|o os] eqn:Es.
  - cbn in E. injection E as <- <-. exists []. rewrite Es.
    splits; [apply List.Forall_nil|done|done|apply List.Forall_nil|done|apply emitted_nil|done].
  - cbn [length Nat.eqb] in E. unfold eff_bind at 1, eff_modify at 1 in E. bind_inv. destruct r as [rest k].
    apply flushLoop_run in Hb as (l & Hl & Hm & Hr & Hbs & Hn & Ee & Hs); [|done].
    exists l. cbn in *. splits; try done; apply Hs.
Qed.

Lemma process_next_run bar e e' n :
  fm_Timing model = FillNextBar -> Forall (fun o => in64 (o_Qty o)) (default [] (e_pending e !! bar_Symbol bar)) ->
  ProcessBar model sink bar e = (e', Ok n) ->
  exists l, executions l /\ map (fun x => x.1.1) l = default [] (e_pending e !! bar_Symbol bar) /\
    Forall (fun x => x.1.2 = bar) l /\ n = Z.of_nat (length l) /\
    emitted (List.concat (map snd l)) e e' /\
    e_pending e' = delete (bar_Symbol bar) (e_pending e) /\ e_submittedThisBar e' = e_submittedThisBar e.
Proof.
  intros Ht Hq E. unfold ProcessBar in E. rewrite Ht in E. unfold eff_bind at 1, eff_get in E.
  unfold eff_bind at 1, eff_modify in E.
  apply fillPending_run in E as (l & Hl & Hm & Hb & Hn & Ee & Hs); [|done].
  exists l. cbn in *. splits; try done; [|apply Hs|apply Hs].
  rewrite Hn, <- Hm, length_map. done.
Qed.
End ExecutorProofs.

(** ** Execution settles in the books *)

Lemma executes_fillIn order bar fs :
  executes order bar fs -> in64 (o_Qty order) -> in64 (bar_Open bar) -> in64 (bar_Close bar) -> Forall fillIn fs.
Proof.
  intros [Hv Ho _ Hq Hp _] Hi Hop Hcl. specialize (Hp Hop Hcl).
  assert (Hpos : Forall (fun f => 0 < f_Qty f) fs).
  { eapply List.Forall_impl; [|exact Hv]. intros f Hf. by apply Fill_Validate_ok in Hf as [_ ? _ _ _ _]. }
  assert (Hle : Forall (fun f => f_Qty f <= sumZ (map f_Qty fs)) fs).
  { clear -Hpos. induction Hpos as [|f fs Hf Hfs IH]; [apply List.Forall_nil|].
    assert (0 <= sumZ (map f_Qty fs)).
    { apply sumZ_nonneg, List.Forall_map. eapply List.Forall_impl; [|exact Hfs]. cbn. lia. }
    apply List.Forall_cons; cbn [map]; rewrite sumZ_cons; [lia|].
    eapply List.Forall_impl; [|exact IH]. cbn. lia. }
  rewrite Hq in Hle. rewrite List.Forall_forall in *. intros f Hf.
  pose proof (proj1 (Fill_Validate_ok f) (Hv f Hf)) as [V1 V2 V3 _ _ _].
  specialize (Hle f Hf). specialize (Hp f Hf). constructor; [done|rlia|rlia].
Qed.

Definition signedOrder (o : Order) : Z := if String.eqb (o_Side o) OrderSideBuy then o_Qty o else - o_Qty o.

Lemma executes_delta order bar fs : executes order bar fs -> sumZ (map signedDelta fs) = signedOrder order.
Proof.
  intros [_ Ho _ Hq _ _]. unfold signedOrder. rewrite <- Hq. clear Hq.
  induction Ho as [|f fs (_ & _ & _ & Hs & _) _ IH]; [by destruct (String.eqb _ _)|].
  cbn [map]. rewrite !sumZ_cons. unfold signedDelta at 1. rewrite Hs, IH.
  destruct (String.eqb _ _); lia.
Qed.

(** ** Properties *)

(** The close-fill profile: an order fills entirely at the close when it fits the
    close tick's depth (or the bar has no volume); otherwise the depth fills at
    the close and the rest exactly one increment against the order.  The depth
    is a quarter of the volume rounded up to the remainder, at least one share,
    never more than the bar traded. *)
Theorem close_fill_walks_one_tick o b legs :
  in64 (o_Qty o) -> in64 (bar_Volume b) -> in64 (bar_Close b) -> closeFill o b = Ok legs ->
  let depth := closeTickVolume (bar_Volume b) in
  sumZ (map leg_Qty legs) = o_Qty o /\ Forall (fun l => 0 < leg_Qty l) legs /\
  (0 < bar_Volume b -> 1 <= depth <= bar_Volume b /\ bar_Volume b <= 4 * depth) /\
  (bar_Volume b <= 0 \/ o_Qty o <= depth -> legs = [mkLeg (o_Qty o) (bar_Close b)]) /\
  (0 < bar_Volume b -> depth < o_Qty o ->
     exists px, legs = [mkLeg depth (bar_Close b); mkLeg (o_Qty o - depth) px] /\
       ((o_Side o = OrderSideBuy /\ px = bar_Close b + 100) \/ (o_Side o = OrderSideSell /\ px = bar_Close b - 100))).
Proof.
  intros Hq Hv Hc E depth. subst depth. set (depth := closeTickVolume (bar_Volume b)).
  assert (Hd : 0 < bar_Volume b -> 1 <= depth <= bar_Volume b /\ bar_Volume b <= 4 * depth)
    by (by apply closeTickVolume_bounds).
  assert (H0 : bar_Volume b <= 0 -> depth = 0)
    by (intros; unfold depth; rewrite closeTickVolume_spec by done; by destruct (Z.leb_spec (bar_Volume b) 0); [|lia]).
  splits; [by apply (fm_legs_sum (model := CloseFillModel) o b)|by apply (fm_legs_positive (model := CloseFillModel) o b)
    |done| |];
    destruct (closeFill_cases o b legs Hq E) as (_ & Hp & [->|(px & Hr & Epx & ->)]); subst depth.
  - done.
  - intros [H|H]; [specialize (H0 H)|]; lia.
  - intros Hv0 Hlt. exfalso. unfold closeFill in E. destruct (negb _); [done|].
    destruct (Z.leb_spec (o_Qty o) 0); [done|]. destruct (Z.leb_spec (closeTickVolume (bar_Volume b)) 0); [lia|].
    destruct (Z.leb_spec (o_Qty o) (closeTickVolume (bar_Volume b))); [lia|]. by destruct (residualPrice _ _).
  - intros _ _. exists px. split; [done|]. by apply residualPrice_ok in Epx as [_ Hpx].
Qed.

(** C8: the end-of-timestamp flush of a this-bar model executes, in submission
    order and in full, every order whose symbol has a bar at this timestamp,
    against that bar; the others stay queued; nothing is lost or filled twice. *)
Theorem flush_executes_orders model `{!FillModelLaws model} {W} (sink : Fill -> eff W unit) e e' n :
  fm_Timing model = FillThisBar -> Forall (fun o => in64 (o_Qty o)) (e_submittedThisBar e) ->
  FlushThisBar model sink e = (e', Ok n) ->
  exists l, executions l /\
    map (fun x => x.1.1) l =
      List.filter (fun o => bool_decide (is_Some (e_barsThisTS e !! o_Symbol o))) (e_submittedThisBar e) /\
    e_submittedThisBar e' =
      List.filter (fun o => negb (bool_decide (is_Some (e_barsThisTS e !! o_Symbol o)))) (e_submittedThisBar e) /\
    Forall (fun x => e_barsThisTS e !! o_Symbol x.1.1 = Some x.1.2) l /\
    n = Z.of_nat (length l) /\ emitted sink (List.concat (map snd l)) e e'.
Proof.
  intros Ht Hq E. destruct (flush_run model sink e e' n Ht Hq E) as (l & H1 & H2 & H3 & H4 & H5 & H6 & _).
  exists l. by splits.
Qed.

(** A next-bar model fills nothing on the bar of submission: the order waits in
    its symbol's queue, and the symbol's next bar executes the whole queue in
    submission order against that bar and leaves the other symbols alone. *)
Theorem next_bar_executes_pending model `{!FillModelLaws model} {W} (sink : Fill -> eff W unit) order bar e1 e2 e3 n :
  fm_Timing model = FillNextBar ->
  Submit model order e1 = (e2, Ok tt) ->
  in64 (o_Qty order) -> Forall (fun o => in64 (o_Qty o)) (default [] (e_pending e1 !! bar_Symbol bar)) ->
  bar_Symbol bar = o_Symbol order ->
  ProcessBar model sink bar e2 = (e3, Ok n) ->
  emitted sink [] e1 e2 /\
  exists l, executions l /\
    map (fun x => x.1.1) l = default [] (e_pending e1 !! o_Symbol order) ++ [order] /\
    Forall (fun x => x.1.2 = bar) l /\ emitted sink (List.concat (map snd l)) e1 e3 /\
    e_pending e3 = delete (o_Symbol order) (e_pending e1).
Proof.
  intros Ht Es Hq Hqs Hsym Ep. unfold Submit in Es. bind_inv. destruct (negb _); [done|]. rewrite Ht in Hk.
  injection Hk as <-. rewrite <- Hsym in *.
  apply process_next_run in Ep as (l & H1 & H2 & H3 & _ & H5 & H6 & _); [|done|done|].
  - split; [split; [cbn; by rewrite app_nil_r|done]|]. cbn in *. rewrite lookup_insert_eq in H2.
    exists l. splits; try done. rewrite H6. by rewrite delete_insert_eq.
  - cbn. rewrite lookup_insert_eq. cbn. apply List.Forall_app. split; [done|]. by apply List.Forall_cons.
Qed.

(** An executed order settles exactly: the fills of one order, applied to a
    well-formed position, move its quantity by the signed size of the order. *)
Theorem executed_order_settles model `{!FillModelLaws model} {W} (sink : Fill -> eff W unit) order bar e e' fs p p' outs :
  in64 (o_Qty order) -> in64 (bar_Open bar) -> in64 (bar_Close bar) ->
  fill model sink order bar e = (e', Ok tt) -> e_emitted e' = e_emitted e ++ fs ->
  posOk p -> Z.abs (p_signedQty p) + o_Qty order <= max_int64 ->
  applyFills fs p = (p', Ok outs) ->
  posOk p' /\ p_signedQty p' = p_signedQty p + signedOrder order.
Proof.
  intros Hq Ho Hc Ef Ee Hp Hb Ea. destruct (fill_run model sink order bar e e' Hq Ef) as (fs' & Hx & [Ee' _] & _).
  rewrite Ee in Ee'. apply app_inv_head in Ee' as ->.
  apply applyFills_spec in Ea as (H1 & H2 & _ & _); [|done|by apply (executes_fillIn order bar)|].
  - rewrite (executes_delta order bar fs' Hx) in H2. done.
  - unfold volume. by rewrite (ex_qty order bar fs' Hx).
Qed.

Definition demoOrder (side : OrderSide) (qty : Z) : Order :=
  NewMarketOrder "O-1" "sepa" "SPY" side qty "entry" demoTs.

Definition demoSpyBar : Bar :=
  {| bar_Symbol := "SPY"; bar_TS := demoTs; bar_Open := 4010000; bar_High := 4100000;
     bar_Low := 4000000; bar_Close := 4050000; bar_Volume := 10 |}.

(** 5 bps of slippage, half a cent per share. *)
Definition demoRealistic : RealisticConfig := mkRealistic (flit 5 1) 50 fzero.

Definition openSink (f : Fill) : eff unit unit := eff_ret tt.

Lemma close_fill_walks_one_tick_witness :
  exists px, [mkLeg 4 4050000; mkLeg 6 4050100] = [mkLeg 4 4050000; mkLeg 6 px] /\
    ((OrderSideBuy = OrderSideBuy /\ px = 4050100) \/ (OrderSideBuy = OrderSideSell /\ px = 4049900)).
Proof.
  apply (close_fill_walks_one_tick (demoOrder OrderSideBuy 10) demoSpyBar [mkLeg 4 4050000; mkLeg 6 4050100]);
    try (split; vm_compute; discriminate); reflexivity.
Defined.

Definition demoExec : SimExecutor unit :=
  mkExec ∅ [demoOrder OrderSideBuy 10] (<["SPY"%string := demoSpyBar]> ∅) (t_ns demoTs) true 7 tt [].

Lemma flush_executes_orders_witness :
  exists e' l, FlushThisBar CloseFillModel openSink demoExec = (e', Ok 1) /\ executions l /\
    map (fun x => x.1.1) l = [demoOrder OrderSideBuy 10].
Proof.
  destruct (FlushThisBar CloseFillModel openSink demoExec) as [e' r] eqn:E.
  assert (Er : r = Ok 1) by (vm_compute in E; by injection E as _ <-). subst r.
  destruct (flush_executes_orders CloseFillModel openSink demoExec e' 1) as (l & H1 & H2 & _);
    [reflexivity|apply List.Forall_cons; [split; vm_compute; discriminate|apply List.Forall_nil]|exact E|].
  exists e', l. split; [reflexivity|]. split; [exact H1|]. rewrite H2. vm_compute. reflexivity.
Defined.

Lemma next_bar_executes_pending_witness :
  exists e2 e3 l, Submit (RealisticModel demoRealistic) (demoOrder OrderSideSell 3) (NewSimExecutor 1 tt) = (e2, Ok tt) /\
    ProcessBar (RealisticModel demoRealistic) openSink demoSpyBar e2 = (e3, Ok 1) /\ executions l /\
    map (fun x => x.1.1) l = [demoOrder OrderSideSell 3].
Proof.
  destruct (Submit (RealisticModel demoRealistic) (demoOrder OrderSideSell 3) (NewSimExecutor 1 tt)) as [e2 r2] eqn:E2.
  assert (R2 : r2 = Ok tt) by (vm_compute in E2; by injection E2 as _ <-). subst r2.
  destruct (ProcessBar (RealisticModel demoRealistic) openSink demoSpyBar e2) as [e3 r3] eqn:E3.
  assert (R3 : r3 = Ok 1) by (vm_compute in E2; injection E2 as <-; vm_compute in E3; by injection E3 as _ <-). subst r3.
  destruct (next_bar_executes_pending (RealisticModel demoRealistic) openSink (demoOrder OrderSideSell 3) demoSpyBar
    (NewSimExecutor 1 tt) e2 e3 1) as (_ & l & H1 & H2 & _);
    [reflexivity|exact E2|split; vm_compute; discriminate|apply List.Forall_nil|reflexivity|exact E3|].
  exists e2, e3, l. split; [reflexivity|]. split; [exact E3|]. split; [exact H1|]. rewrite H2. reflexivity.
Defined.

Lemma executed_order_settles_witness :
  exists e' fs p' outs, fill CloseFillModel openSink (demoOrder OrderSideBuy 10) demoSpyBar (NewSimExecutor 1 tt) = (e', Ok tt) /\
    applyFills fs (NewPosition "sepa" "SPY") = (p', Ok outs) /\ p_signedQty p' = 10.
Proof.
  destruct (fill CloseFillModel openSink (demoOrder OrderSideBuy 10) demoSpyBar (NewSimExecutor 1 tt)) as [e' r] eqn:E.
  assert (R : r = Ok tt) by (vm_compute in E; by injection E as _ <-). subst r.
  destruct (applyFills (e_emitted e') (NewPosition "sepa" "SPY")) as [p' ro] eqn:Ea.
  destruct ro as [outs|err]; [|vm_compute in E; injection E as <-; vm_compute in Ea; discriminate Ea].
  exists e', (e_emitted e'), p', outs. split; [reflexivity|]. split; [exact Ea|].
  apply (executed_order_settles CloseFillModel openSink (demoOrder OrderSideBuy 10) demoSpyBar (NewSimExecutor 1 tt) e'
    (e_emitted e') (NewPosition "sepa" "SPY") p' outs); try (split; vm_compute; discriminate);
    [exact E|apply NewPosition_ok|vm_compute; discriminate|exact Ea].
Defined.
