(* ===== verification/RiskGate.v ===== *)
(** * The pre-trade risk gate (src/internal/riskgate)

    Exact rationals ([dec], a [big.Rat]) are Stdlib [Q]; the configured
    percentages are float64 and enter the arithmetic through their shortest
    decimal.  The reasons attached to rejections are text for people and are
    not kept; the rule names are.  Loops over Go maps run over a list of the
    entries: the theorems below show that its order does not matter. *)

From stdpp Require Import gmap strings list sorting.
From Stdlib Require Import QArith Qabs SpecFloat Lqa.
From S2P Require Import Prelude Fixed Money Domain Float64 Accounting.
Set Default Goal Selector "!".
#[local] Open Scope Z_scope.
#[local] Abbreviation length := List.length.

(** ** decimal.go *)

Definition dec : Set := Q.

Definition decZero : dec := 0%Q.
Definition decFromInt (v : Z) : dec := inject_Z v.

(** [10^k] as a fraction. *)
Definition pow10Q (k : Z) : Q := if 0 <=? k then inject_Z (10 ^ k) else 1 # Z.to_pos (10 ^ (- k)).

(** The exact rational of the shortest decimal; a non-finite float has no
    decimal and no binary fraction, and yields 0. *)
Definition decFromPctFloat (f : float64) : dec :=
  match f with
  | S754_finite s m e =>
      let '(D, k) := shortestDecimal m e in
      let v := (inject_Z D * pow10Q k)%Q in
      if s then (- v)%Q else v
  | _ => 0%Q
  end.

Definition DecFromMoney (m : Money) : dec := m # 10000.
Definition DecFromPrice (p : Price) : dec := p # 10000.

Definition decAdd (d o : dec) : dec := (d + o)%Q.
Definition decSub (d o : dec) : dec := (d - o)%Q.
Definition decMul (d o : dec) : dec := (d * o)%Q.
Definition decNeg (d : dec) : dec := (- d)%Q.
Definition decCmp (d o : dec) : comparison := Qcompare d o.
Definition decSign (d : dec) : Z := Z.sgn (Qnum d).

Definition decPrec : Z := 28.

(** [ratRoundHalfEven]: on the reduced numerator and denominator. *)
Definition ratRoundHalfEven (r : Q) (frac : Z) : Q :=
  let scale := 10 ^ frac in
  let scaled := Qred (r * inject_Z scale) in
  let num := Qnum scaled in
  let den := Zpos (Qden scaled) in
  let q := Z.quot num den in
  let rem := Z.rem num den in
  let q :=
    if negb (rem =? 0) then
      let twice := Z.shiftl (Z.abs rem) 1 in
      let roundUp := match twice ?= den with
                     | Gt => true
                     | Lt => false
                     | Eq => Z.testbit q 0
                     end in
      if roundUp then (if num <? 0 then q - 1 else q + 1) else q
    else q in
  (inject_Z q / inject_Z scale)%Q.

(** The number of decimal digits of a positive integer. *)
Definition decimalLen (u : Z) : Z := Z.of_nat (length (uintDigits (Z.to_nat (Z.log2 u + 1)) u)).

(** Scale a value of (0,1) up by ten until its integer part is not zero. *)
Fixpoint msdDown (fuel : nat) (n d msd : Z) : Z :=
  match fuel with
  | O => msd
  | S fuel => if n / d =? 0 then msdDown fuel (n * 10) d (msd - 1) else msd
  end.

(** The position of the most significant digit of [n / d > 0]. *)
Definition msdOf (n d : Z) : Z :=
  let intPart := n / d in
  if 0 <? intPart then decimalLen intPart - 1 else msdDown (Z.to_nat (Z.log2 d + 2)) n d 0.

Definition decQuo (d o : dec) : dec :=
  let q := Qred (d / o) in
  if (Qnum q =? 0) || (Zpos (Qden q) =? 1) then q
  else
    let msd := msdOf (Z.abs (Qnum q)) (Zpos (Qden q)) in
    let frac := decPrec - 1 - msd in
    let frac := if frac <? 0 then 0 else frac in
    ratRoundHalfEven q frac.

(** ** types.go *)

Record ProposedOrder : Set := mkProposed {
  po_StrategyID : string;
  po_Symbol : string;
  po_Side : SignalSide;
  po_Qty : Z;
  po_Price : dec;
  po_TS : time
}.

Record RiskDecision : Set := mkDecision { Approved : bool; RuleName : string }.

Definition Approve : RiskDecision := mkDecision true "".
Definition Reject (rule : string) : RiskDecision := mkDecision false rule.

Abbreviation PositionKey := (string * string)%type.

Record RiskSnapshot : Set := mkRiskSnapshot {
  rs_NAV : dec;
  rs_Cash : dec;
  rs_RealizedPnLToday : dec;
  rs_UnrealizedPnLToday : dec;
  rs_Positions : gmap PositionKey Z;
  rs_LastClose : gmap string dec
}.

Definition absInt64 (v : Z) : Z := if v <? 0 then ⊖ v else v.

Definition TotalPnLToday (a : RiskSnapshot) : dec := decAdd (rs_RealizedPnLToday a) (rs_UnrealizedPnLToday a).

Definition StrategyPosition (a : RiskSnapshot) (strategyID symbol : string) : Z :=
  default 0 (rs_Positions a !! (strategyID, symbol)).

Definition netLoop (symbol : string) (iter : list (PositionKey * Z)) : Z :=
  foldl (fun net e => if String.eqb e.1.2 symbol then net ⊕ e.2 else net) 0 iter.

Definition NetPositionAcrossStrategies (a : RiskSnapshot) (symbol : string) : Z :=
  netLoop symbol (map_to_list (rs_Positions a)).

Definition closeOr0 (a : RiskSnapshot) (symbol : string) : dec := default decZero (rs_LastClose a !! symbol).

Definition grossLoop (a : RiskSnapshot) (strategyID : string) (iter : list (PositionKey * Z)) : dec :=
  foldl (fun total e =>
    if negb (String.eqb e.1.1 strategyID) || (e.2 =? 0) then total
    else decAdd total (decMul (decFromInt (absInt64 e.2)) (closeOr0 a e.1.2))) decZero iter.

Definition GrossExposureForStrategy (a : RiskSnapshot) (strategyID : string) : dec :=
  grossLoop a strategyID (map_to_list (rs_Positions a)).

(** ** allocator.go *)

Record StrategyAllocation : Set := mkAllocation { al_StrategyID : string; al_CapitalPct : float64 }.

Definition Allocator : Set := gmap string float64.

Fixpoint allocLoop (table : gmap string float64) (total : float64) (allocations : list StrategyAllocation)
    : res (gmap string float64 * float64) :=
  match allocations with
  | [] => Ok (table, total)
  | a :: rest =>
      match table !! al_StrategyID a with
      | Some _ => Err (ErrOther "duplicate strategy_id")
      | None =>
          if negb (fltb fzero (al_CapitalPct a) && fleb (al_CapitalPct a) (flit 1 1))
          then Err (ErrOther "capital_pct out of (0, 1]")
          else allocLoop (<[al_StrategyID a := al_CapitalPct a]> table) (fadd total (al_CapitalPct a)) rest
      end
  end.

Definition NewAllocator (allocations : list StrategyAllocation) : res Allocator :=
  match allocations with
  | [] => Err (ErrOther "no allocation")
  | _ =>
      r <-? allocLoop ∅ fzero allocations ;;
      let '(table, total) := r in
      if fltb (flit 1000000001 1000000000) total then Err (ErrOther "allocations sum over 1")
      else Ok table
  end.

Definition BudgetPct (a : Allocator) (strategyID : string) : float64 := default fzero (a !! strategyID).

Definition budgetDollars (a : Allocator) (strategyID : string) (account : RiskSnapshot) : dec :=
  decMul (rs_NAV account) (decFromPctFloat (BudgetPct a strategyID)).

(** FLAT and empty orders bypass every rule. *)
Definition bypass (order : ProposedOrder) : bool := String.eqb (po_Side order) SideFlat || (po_Qty order <=? 0).

Definition orderValue (order : ProposedOrder) : dec := decMul (decFromInt (po_Qty order)) (po_Price order).

Definition CheckOrderWithinBudget (a : Allocator) (order : ProposedOrder) (account : RiskSnapshot) : RiskDecision :=
  if bypass order then Approve
  else
    let budget := budgetDollars a (po_StrategyID order) account in
    if decSign budget <=? 0 then Reject "allocator.unregistered_strategy"
    else
      let currentGross := GrossExposureForStrategy account (po_StrategyID order) in
      let newGross := decAdd currentGross (orderValue order) in
      match decCmp newGross budget with
      | Gt => Reject "allocator.budget_exceeded"
      | _ => Approve
      end.

(** ** risk_constraints.go *)

Record RiskConstraintsConfig : Set := mkRiskConfig {
  MaxSingleNamePct : float64;
  ConcentrationPct : float64;
  DailyLossHaltPct : float64
}.

Definition DefaultRiskConstraintsConfig : RiskConstraintsConfig :=
  mkRiskConfig (flit 2 10) (flit 3 10) (flit 5 100).

Definition pctOk (v : float64) : bool := fltb fzero v && fleb v (flit 1 1).

Definition RiskConfig_Validate (c : RiskConstraintsConfig) : res unit :=
  if pctOk (MaxSingleNamePct c) && pctOk (ConcentrationPct c) && pctOk (DailyLossHaltPct c) then Ok tt
  else Err (ErrOther "pct must be in (0, 1]").

Definition NewRiskConstraints (cfg : RiskConstraintsConfig) : res RiskConstraintsConfig :=
  _ <-? RiskConfig_Validate cfg ;; Ok cfg.

Definition haltThreshold (cfg : RiskConstraintsConfig) (account : RiskSnapshot) : dec :=
  decNeg (decMul (rs_NAV account) (decFromPctFloat (DailyLossHaltPct cfg))).

Definition checkDailyLossHalt (cfg : RiskConstraintsConfig) (account : RiskSnapshot) : RiskDecision :=
  match decCmp (TotalPnLToday account) (haltThreshold cfg account) with
  | Lt => Reject "risk.daily_loss_halt"
  | _ => Approve
  end.

Definition newNameValue (order : ProposedOrder) (account : RiskSnapshot) : dec :=
  let heldQty := absInt64 (StrategyPosition account (po_StrategyID order) (po_Symbol order)) in
  let lastClose := default (po_Price order) (rs_LastClose account !! po_Symbol order) in
  decAdd (decMul (decFromInt heldQty) lastClose) (orderValue order).

Definition checkMaxSingleName (cfg : RiskConstraintsConfig) (order : ProposedOrder) (account : RiskSnapshot) : RiskDecision :=
  match decCmp (newNameValue order account) (decMul (rs_NAV account) (decFromPctFloat (MaxSingleNamePct cfg))) with
  | Gt => Reject "risk.max_single_name"
  | _ => Approve
  end.

Definition newNetValue (order : ProposedOrder) (account : RiskSnapshot) : dec :=
  let currentNet := NetPositionAcrossStrategies account (po_Symbol order) in
  let signedQty := if negb (String.eqb (po_Side order) SideLong) then ⊖ (po_Qty order) else po_Qty order in
  let newNet := currentNet ⊕ signedQty in
  decMul (decFromInt (absInt64 newNet)) (po_Price order).

Definition checkConcentration (cfg : RiskConstraintsConfig) (order : ProposedOrder) (account : RiskSnapshot) : RiskDecision :=
  match decCmp (newNetValue order account) (decMul (rs_NAV account) (decFromPctFloat (ConcentrationPct cfg))) with
  | Gt => Reject "risk.concentration"
  | _ => Approve
  end.

(** [if d := ...; !d.Approved { return d }] *)
Definition andThen (d next : RiskDecision) : RiskDecision := if negb (Approved d) then d else next.

Definition RiskConstraints_Check (cfg : RiskConstraintsConfig) (order : ProposedOrder) (account : RiskSnapshot) : RiskDecision :=
  if bypass order then Approve
  else
    andThen (checkDailyLossHalt cfg account)
    (andThen (checkMaxSingleName cfg order account)
    (andThen (checkConcentration cfg order account) Approve)).

(** ** portfolio.go *)

Record Gate : Set := mkGate { g_allocator : Allocator; g_risk : RiskConstraintsConfig }.

Definition Gate_Check (p : Gate) (order : ProposedOrder) (account : RiskSnapshot) : RiskDecision :=
  andThen (CheckOrderWithinBudget (g_allocator p) order account)
  (andThen (RiskConstraints_Check (g_risk p) order account) Approve).

Record PortfolioHealthSnapshot : Set := mkHealth {
  h_DayPnL : dec;
  h_DayPnLPct : dec;
  h_DailyLossHalt : bool;
  h_HaltHeadroomPct : dec;
  h_ConcentrationPct : dec
}.

Fixpoint concentrationLoop (account : RiskSnapshot) (seen : list string) (concentration : dec)
    (iter : list (PositionKey * Z)) : dec :=
  match iter with
  | [] => concentration
  | (k, _) :: rest =>
      if existsb (String.eqb k.2) seen then concentrationLoop account seen concentration rest
      else
        let seen := k.2 :: seen in
        let net := NetPositionAcrossStrategies account k.2 in
        if net =? 0 then concentrationLoop account seen concentration rest
        else
          let value := decMul (decFromInt (absInt64 net)) (closeOr0 account k.2) in
          let pct := decQuo value (rs_NAV account) in
          let concentration := match decCmp pct concentration with Gt => pct | _ => concentration end in
          concentrationLoop account seen concentration rest
  end.

Definition HealthSnapshot (p : Gate) (account : RiskSnapshot) : PortfolioHealthSnapshot :=
  let nav := rs_NAV account in
  let navPositive := 0 <? decSign nav in
  let dayPnL := TotalPnLToday account in
  let dayPnLPct := if navPositive then decQuo dayPnL nav else decZero in
  let threshold := haltThreshold (g_risk p) account in
  let halted := match decCmp dayPnL threshold with Lt => true | _ => false end in
  let headroom := if negb halted && navPositive then decQuo (decSub dayPnL threshold) nav else decZero in
  let concentration :=
    if navPositive then concentrationLoop account [] decZero (map_to_list (rs_Positions account)) else decZero in
  mkHealth dayPnL dayPnLPct halted headroom concentration.

(** ** gate_signal.go, bridge.go *)

Record Rejection : Set := mkRejection {
  rj_StrategyID : string;
  rj_Symbol : string;
  rj_Side : SignalSide;
  rj_Qty : Qty;
  rj_Price : Price;
  rj_RuleName : string;
  rj_TS : time
}.

(** The recorder is the list of rejections it has been handed, or [None]. *)
Definition GateSignal (gate : option Gate) (proposed : ProposedOrder) (account : RiskSnapshot) (price : Price)
    (rec : option (list Rejection)) : RiskDecision * option (list Rejection) :=
  match gate with
  | None => (Approve, rec)
  | Some gate =>
      let decision := Gate_Check gate proposed account in
      (decision,
       if negb (Approved decision) then
         option_map (fun log => log ++
           [mkRejection (po_StrategyID proposed) (po_Symbol proposed) (po_Side proposed) (po_Qty proposed) price
              (RuleName decision) (po_TS proposed)]) rec
       else rec)
  end.

Definition NewProposedOrder (strategyID symbol : string) (side : SignalSide) (qty : Qty) (price : Price) (ts : time)
    : ProposedOrder :=
  mkProposed strategyID symbol side qty (DecFromPrice price) ts.

Definition SnapshotFromDomain (s : PortfolioSnapshot) : RiskSnapshot :=
  mkRiskSnapshot (DecFromMoney (snap_NAV s)) (DecFromMoney (snap_Cash s))
    (DecFromMoney (snap_RealizedPnLToday s)) (DecFromMoney (snap_UnrealizedPnLToday s))
    (snap_Positions s) (DecFromPrice <$> snap_LastClose s).

(** ** Sums of rationals *)

Definition sumQ (l : list Q) : Q := fold_right Qplus 0%Q l.

#[export] Instance sumQ_perm : Proper (Permutation ==> Qeq) sumQ.
Proof. intros a b H. unfold sumQ. induction H; cbn in *; lra. Qed.

Lemma sumQ_cons x l : sumQ (x :: l) = (x + sumQ l)%Q.
Proof. reflexivity. Qed.

(** ** Map loops do not depend on the iteration order *)

Definition netOf (symbol : string) (iter : list (PositionKey * Z)) : Z :=
  sumZ (map (fun e => if String.eqb e.1.2 symbol then e.2 else 0) iter).

Lemma netLoop_sum symbol iter : netLoop symbol iter = wrap64 (netOf symbol iter).
Proof.
  unfold netLoop, netOf.
  assert (H : forall net, wrap64 (foldl (fun net e => if String.eqb e.1.2 symbol then net ⊕ e.2 else net) net iter)
    = wrap64 (net + sumZ (map (fun e => if String.eqb e.1.2 symbol then e.2 else 0) iter)) ).
  { induction iter as [|e iter IH]; intros net; cbn [foldl map]; [cbn; f_equal; lia|].
    rewrite sumZ_cons. destruct (String.eqb e.1.2 symbol).
    - rewrite IH, wrap64_add_wrap. f_equal. lia.
    - rewrite IH. f_equal. }
  specialize (H 0). rewrite Z.add_0_l in H. rewrite <- H. symmetry. apply wrap64_id.
  clear H. assert (G : forall net, in64 net -> in64 (foldl (fun net e => if String.eqb e.1.2 symbol then net ⊕ e.2 else net) net iter)).
  { induction iter as [|e iter IH]; intros net Hn; cbn; [done|]. apply IH. destruct (String.eqb e.1.2 symbol); auto with go. }
  apply G. rlia.
Qed.

Definition grossTerm (a : RiskSnapshot) (strategyID : string) (e : PositionKey * Z) : Q :=
  if negb (String.eqb e.1.1 strategyID) || (e.2 =? 0) then 0%Q
  else (inject_Z (absInt64 e.2) * closeOr0 a e.1.2)%Q.

Lemma grossLoop_sum a s iter : (grossLoop a s iter == sumQ (map (grossTerm a s) iter))%Q.
Proof.
  unfold grossLoop.
  assert (H : forall t, (foldl (fun total e => if negb (String.eqb e.1.1 s) || (e.2 =? 0) then total
      else decAdd total (decMul (decFromInt (absInt64 e.2)) (closeOr0 a e.1.2))) t iter
    == t + sumQ (map (grossTerm a s) iter))%Q).
  { induction iter as [|e iter IH]; intros t; cbn [foldl map]; [cbn; lra|]. rewrite sumQ_cons.
    unfold grossTerm at 1. destruct (negb _ || _); rewrite IH; [lra|]. unfold decAdd, decMul, decFromInt. lra. }
  rewrite H. unfold decZero. lra.
Qed.

Lemma netLoop_perm symbol a b : a ≡ₚ b -> netLoop symbol a = netLoop symbol b.
Proof. intros H. rewrite !netLoop_sum. unfold netOf. by rewrite H. Qed.

Lemma grossLoop_perm acc s a b : a ≡ₚ b -> (grossLoop acc s a == grossLoop acc s b)%Q.
Proof. intros H. rewrite !grossLoop_sum. by rewrite H. Qed.

(** ** Approval *)

Lemma decCmp_gt a b : decCmp a b <> Gt <-> (a <= b)%Q.
Proof. unfold decCmp. rewrite Qle_alt. done. Qed.

Lemma decCmp_lt a b : decCmp a b <> Lt <-> (b <= a)%Q.
Proof.
  unfold decCmp. split; intros H.
  - apply Qnot_lt_le. by rewrite Qlt_alt.
  - rewrite <- Qlt_alt. apply Qle_not_lt, H.
Qed.

Lemma decSign_pos a : (decSign a <=? 0) = false <-> (0 < a)%Q.
Proof. unfold decSign, Qlt. cbn. rewrite Z.leb_gt, Z.mul_1_r. lia. Qed.

Lemma andThen_approved d n : Approved (andThen d n) = true <-> Approved d = true /\ Approved n = true.
Proof. unfold andThen. destruct (Approved d) eqn:E; cbn; intuition congruence. Qed.

(** The five limits, as inequalities between exact rationals. *)
Definition budgetOk (al : Allocator) (o : ProposedOrder) (a : RiskSnapshot) : Prop :=
  (0 < budgetDollars al (po_StrategyID o) a)%Q /\
  (GrossExposureForStrategy a (po_StrategyID o) + orderValue o <= budgetDollars al (po_StrategyID o) a)%Q.
Definition lossOk (c : RiskConstraintsConfig) (a : RiskSnapshot) : Prop :=
  (- (rs_NAV a * decFromPctFloat (DailyLossHaltPct c)) <= TotalPnLToday a)%Q.
Definition nameOk (c : RiskConstraintsConfig) (o : ProposedOrder) (a : RiskSnapshot) : Prop :=
  (newNameValue o a <= rs_NAV a * decFromPctFloat (MaxSingleNamePct c))%Q.
Definition netOk (c : RiskConstraintsConfig) (o : ProposedOrder) (a : RiskSnapshot) : Prop :=
  (newNetValue o a <= rs_NAV a * decFromPctFloat (ConcentrationPct c))%Q.

Lemma budget_approved al o a : bypass o = false ->
  Approved (CheckOrderWithinBudget al o a) = true <-> budgetOk al o a.
Proof.
  intros Hb. unfold CheckOrderWithinBudget, budgetOk. rewrite Hb.
  rewrite <- decSign_pos, <- decCmp_gt. unfold decAdd.
  destruct (decSign _ <=? 0); [cbn; intuition discriminate|].
  destruct (decCmp _ _); cbn; intuition congruence.
Qed.

Lemma loss_approved c a : Approved (checkDailyLossHalt c a) = true <-> lossOk c a.
Proof.
  unfold checkDailyLossHalt, lossOk, haltThreshold, decNeg, decMul. rewrite <- decCmp_lt.
  destruct (decCmp _ _); cbn; intuition congruence.
Qed.

Lemma name_approved c o a : Approved (checkMaxSingleName c o a) = true <-> nameOk c o a.
Proof.
  unfold checkMaxSingleName, nameOk, decMul. rewrite <- decCmp_gt. destruct (decCmp _ _); cbn; intuition congruence.
Qed.

Lemma net_approved c o a : Approved (checkConcentration c o a) = true <-> netOk c o a.
Proof.
  unfold checkConcentration, netOk, decMul. rewrite <- decCmp_gt. destruct (decCmp _ _); cbn; intuition congruence.
Qed.

Lemma gate_approved g o a :
  Approved (Gate_Check g o a) = true <->
  bypass o = true \/
  (budgetOk (g_allocator g) o a /\ lossOk (g_risk g) a /\ nameOk (g_risk g) o a /\ netOk (g_risk g) o a).
Proof.
  unfold Gate_Check, RiskConstraints_Check. destruct (bypass o) eqn:Hb.
  - unfold CheckOrderWithinBudget. rewrite Hb. cbn. tauto.
  - rewrite !andThen_approved, budget_approved, loss_approved, name_approved, net_approved by done.
    cbn. intuition congruence.
Qed.

(** The fill of an approved order at its price. *)
Definition signedQty (o : ProposedOrder) : Z := if String.eqb (po_Side o) SideLong then po_Qty o else - po_Qty o.
Definition afterFill (o : ProposedOrder) (a : RiskSnapshot) : RiskSnapshot :=
  let key := (po_StrategyID o, po_Symbol o) in
  mkRiskSnapshot (rs_NAV a) (rs_Cash a) (rs_RealizedPnLToday a) (rs_UnrealizedPnLToday a)
    (<[key := default 0 (rs_Positions a !! key) + signedQty o]> (rs_Positions a)) (rs_LastClose a).

Lemma sumQ_map_to_list_update (g : PositionKey * Z -> Q) (m : gmap PositionKey Z) k v :
  (g (k, 0%Z) == 0)%Q ->
  (sumQ (map g (map_to_list (<[k:=v]> m)))
   == sumQ (map g (map_to_list m)) + g (k, v) - g (k, default 0%Z (m !! k)))%Q.
Proof.
  intros H0.
  assert (Hi : forall w, (sumQ (map g (map_to_list (<[k:=w]> m))) == g (k, w) + sumQ (map g (map_to_list (delete k m))))%Q).
  { intros w. rewrite <- insert_delete_eq. rewrite map_to_list_insert by apply lookup_delete_eq.
    cbn [map]. by rewrite sumQ_cons. }
  rewrite Hi. destruct (m !! k) as [w|] eqn:E; cbn.
  - rewrite <- (insert_id m k w E) at 2. rewrite Hi. lra.
  - rewrite delete_id by done. lra.
Qed.

Lemma sumZ_map_to_list_update (g : PositionKey * Z -> Z) (m : gmap PositionKey Z) k v :
  g (k, 0) = 0 ->
  sumZ (map g (map_to_list (<[k:=v]> m))) = sumZ (map g (map_to_list m)) + g (k, v) - g (k, default 0 (m !! k)).
Proof.
  intros H0.
  assert (Hi : forall w, sumZ (map g (map_to_list (<[k:=w]> m))) = g (k, w) + sumZ (map g (map_to_list (delete k m)))).
  { intros w. rewrite <- insert_delete_eq. rewrite map_to_list_insert by apply lookup_delete_eq.
    cbn [map]. by rewrite sumZ_cons. }
  rewrite Hi. destruct (m !! k) as [w|] eqn:E; cbn.
  - rewrite <- (insert_id m k w E) at 2. rewrite Hi. lia.
  - rewrite delete_id by done. lia.
Qed.

Lemma absInt64_abs v : min_int64 < v <= max_int64 -> absInt64 v = Z.abs v.
Proof. apply absQty_abs. Qed.

Section Approved.
Context (g : Gate) (o : ProposedOrder) (a : RiskSnapshot).
Context (Hok : Approved (Gate_Check g o a) = true) (Hb : bypass o = false).
Context (Hprice : (0 <= po_Price o)%Q).
(** the order is priced at the mark *)
Context (Hmark : rs_LastClose a !! po_Symbol o = Some (po_Price o)).
Let pos := StrategyPosition a (po_StrategyID o) (po_Symbol o).
Context (Hpos : Z.abs pos + po_Qty o <= max_int64).

Lemma order_qty_pos : 0 < po_Qty o.
Proof. unfold bypass in Hb. apply orb_false_iff in Hb as [_ H]. apply Z.leb_gt in H. lia. Qed.

Lemma approved_limits :
  budgetOk (g_allocator g) o a /\ lossOk (g_risk g) a /\ nameOk (g_risk g) o a /\ netOk (g_risk g) o a.
Proof. apply gate_approved in Hok as [H|H]; [congruence|exact H]. Qed.

Lemma newPos_abs : absInt64 (pos + signedQty o) <= absInt64 pos + po_Qty o.
Proof.
  pose proof order_qty_pos as Hq. unfold signedQty.
  destruct (String.eqb (po_Side o) SideLong); rewrite !absInt64_abs by rlia; lia.
Qed.

Lemma qmul_le_l (x y p : Q) : (0 <= p)%Q -> (x <= y)%Q -> (x * p <= y * p)%Q.
Proof. intros. nra. Qed.

Lemma after_gross : (GrossExposureForStrategy (afterFill o a) (po_StrategyID o)
  <= GrossExposureForStrategy a (po_StrategyID o) + orderValue o)%Q.
Proof.
  unfold GrossExposureForStrategy. rewrite !grossLoop_sum. cbn [rs_Positions afterFill].
  assert (Et : forall e, grossTerm (afterFill o a) (po_StrategyID o) e = grossTerm a (po_StrategyID o) e) by reflexivity.
  rewrite (map_ext _ _ Et). rewrite sumQ_map_to_list_update by (unfold grossTerm; cbn; by rewrite orb_true_r).
  fold (StrategyPosition a (po_StrategyID o) (po_Symbol o)). fold pos.
  assert (Hg : forall v, (grossTerm a (po_StrategyID o) ((po_StrategyID o, po_Symbol o), v)
    == inject_Z (absInt64 v) * po_Price o)%Q).
  { intros v. unfold grossTerm, closeOr0. cbn. rewrite String.eqb_refl, Hmark. cbn.
    destruct (Z.eqb_spec v 0) as [->|]; [|reflexivity]. symmetry. apply Qmult_0_l. }
  rewrite !Hg. unfold orderValue, decMul, decFromInt.
  pose proof newPos_abs as Hn. rewrite Zle_Qle, inject_Z_plus in Hn.
  pose proof (qmul_le_l _ _ _ Hprice Hn). lra.
Qed.

Lemma after_name : (inject_Z (absInt64 (pos + signedQty o)) * po_Price o <= newNameValue o a)%Q.
Proof.
  unfold newNameValue, orderValue, decAdd, decMul, decFromInt. rewrite Hmark. cbn [default from_option id]. fold pos.
  pose proof newPos_abs as Hn. rewrite Zle_Qle, inject_Z_plus in Hn.
  pose proof (qmul_le_l _ _ _ Hprice Hn). lra.
Qed.

Lemma after_net : NetPositionAcrossStrategies (afterFill o a) (po_Symbol o)
  = NetPositionAcrossStrategies a (po_Symbol o) ⊕ signedQty o.
Proof.
  unfold NetPositionAcrossStrategies. rewrite !netLoop_sum. unfold netOf. cbn [rs_Positions afterFill].
  rewrite sumZ_map_to_list_update by (cbn; by destruct (String.eqb _ _)). cbn [fst snd].
  rewrite String.eqb_refl, wrap64_add_wrap. f_equal. lia.
Qed.
End Approved.

(** ** Division *)

(** Half-even rounding to [frac] decimals is off by at most half a unit. *)
Lemma ratRound_near r frac : 0 <= frac ->
  (Qabs (ratRoundHalfEven r frac - r) <= (1 # 2) / inject_Z (10 ^ frac))%Q.
Proof.
  intros Hf. unfold ratRoundHalfEven. set (scale := 10 ^ frac). set (sc := Qred _).
  assert (Hs : 0 < scale) by (apply Z.pow_pos_nonneg; lia).
  assert (Esc : (sc == r * inject_Z scale)%Q) by apply Qred_correct.
  set (num := Qnum sc). set (den := Zpos (Qden sc)).
  match goal with |- context [(inject_Z ?t / _)%Q] => set (q := t) end.
  assert (Hd : 0 < den) by (unfold den; lia).
  assert (Hn : 2 * Z.abs (num - q * den) <= den).
  { subst q. pose proof (Z.quot_rem num den ltac:(lia)) as E. pose proof (Z.rem_bound_abs num den ltac:(lia)) as B.
    pose proof (Z.rem_sign_mul num den ltac:(lia)) as Sg. rewrite Z.shiftl_mul_pow2 by lia. change (2 ^ 1) with 2.
    set (qq := Z.quot num den) in *. set (rr := Z.rem num den) in *.
    destruct (Z.eqb_spec rr 0) as [|Hr0]; cbn [negb]; [lia|].
    assert (Hnz : num <> 0) by (intros E0; apply Hr0; unfold rr; rewrite E0; apply Z.rem_0_l; lia).
    assert (Hsg : (num < 0 /\ rr < 0) \/ (0 <= num /\ 0 < rr)).
    { clearbody num rr. clear - Hnz Hr0 Sg.
      destruct (Z.lt_trichotomy num 0) as [|[|]]; [left|lia|right]; split; nia. }
    destruct (Z.compare_spec (Z.abs rr * 2) den) as [C|C|C];
      [destruct (Z.testbit qq 0)| |]; destruct (Z.ltb_spec num 0); lia. }
  assert (Enum : (inject_Z num == sc * inject_Z den)%Q).
  { unfold num, den, Qeq, inject_Z. cbn. lia. }
  assert (Hq : (Qabs (inject_Z q - sc) <= 1 # 2)%Q).
  { apply Qabs_Qle_condition. assert (Hdq : (0 < inject_Z den)%Q) by (by rewrite Zlt_Qlt in Hd).
    assert (HL : (inject_Z (- den) <= inject_Z (2 * (num - q * den)))%Q) by (rewrite <- Zle_Qle; lia).
    assert (HU : (inject_Z (2 * (num - q * den)) <= inject_Z den)%Q) by (rewrite <- Zle_Qle; lia).
    assert (Em : (inject_Z (2 * (num - q * den)) == (2 * (sc - inject_Z q)) * inject_Z den)%Q).
    { rewrite inject_Z_mult. unfold Z.sub. rewrite inject_Z_plus, inject_Z_opp, inject_Z_mult, Enum.
      change (inject_Z 2) with 2%Q. ring. }
    assert (En : (inject_Z (- den) == (-1) * inject_Z den)%Q) by (rewrite inject_Z_opp; ring).
    assert (E1 : (inject_Z den == 1 * inject_Z den)%Q) by ring.
    rewrite Em, En in HL. rewrite Em in HU. setoid_rewrite E1 in HU at 2.
    apply Qmult_le_r in HL, HU; [|done..]. split; lra. }
  assert (Hsq : (0 < inject_Z scale)%Q) by (by rewrite Zlt_Qlt in Hs).
  assert (Er : (inject_Z q / inject_Z scale - r == (inject_Z q - sc) / inject_Z scale)%Q).
  { rewrite Esc. field. lra. }
  rewrite Er. unfold Qdiv. rewrite Qabs_Qmult, (Qabs_pos (/ inject_Z scale)) by (apply Qinv_le_0_compat; lra).
  apply Qmult_le_compat_r; [done|]. apply Qinv_le_0_compat. lra.
Qed.

Lemma uintDigits_lead fuel u : 0 < u -> u < 10 ^ Z.of_nat fuel ->
  10 ^ (Z.of_nat (length (uintDigits fuel u)) - 1) <= u.
Proof.
  revert u. induction fuel as [|f IH]; intros u Hu Hf; [cbn in Hf; lia|]. cbn [uintDigits].
  destruct (Z.ltb_spec u 10) as [|H10]; [cbn; lia|].
  rewrite length_app. cbn [List.length]. rewrite Nat2Z.inj_succ, Z.pow_succ_r in Hf by lia.
  assert (H1 : 1 <= u / 10) by (apply Z.div_le_lower_bound; lia).
  assert (H2 : u / 10 < 10 ^ Z.of_nat f) by (apply Z.div_lt_upper_bound; lia).
  specialize (IH (u / 10) ltac:(lia) H2).
  destruct (uintDigits f (u / 10)) as [|c l] eqn:El; [destruct f; cbn in El; [cbn in H2; lia|]|].
  { destruct (u / 10 <? 10); [discriminate|]. by destruct (uintDigits f _). }
  cbn [List.length] in *.
  replace (Z.of_nat (S (length l) + 1) - 1) with (Z.succ (Z.of_nat (S (length l)) - 1)) by lia.
  rewrite Z.pow_succ_r by lia. pose proof (Z.mul_div_le u 10 ltac:(lia)). lia.
Qed.

Lemma decimalLen_lead u : 0 < u -> 10 ^ (decimalLen u - 1) <= u.
Proof.
  intros Hu. apply uintDigits_lead; [done|]. pose proof (Z.log2_spec u Hu) as [_ H].
  pose proof (Z.log2_nonneg u). rewrite Z2Nat.id by lia. unfold Z.succ in H.
  eapply Z.lt_le_trans; [exact H|]. apply Z.pow_le_mono_l. lia.
Qed.

(** The search for the leading fractional digit stops within its fuel. *)
Lemma msdDown_lead fuel n d msd : 0 < n -> 0 < d -> d <= n * 10 ^ Z.of_nat fuel ->
  exists k, msdDown fuel n d msd = msd - k /\ 0 <= k /\ d <= n * 10 ^ k.
Proof.
  revert n msd. induction fuel as [|f IH]; intros n msd Hn Hd Hf; cbn [msdDown].
  - exists 0. cbn in *. lia.
  - destruct (Z.eqb_spec (n / d) 0) as [E|E].
    + rewrite Nat2Z.inj_succ, Z.pow_succ_r in Hf by lia.
      destruct (IH (n * 10) (msd - 1)) as (k & E1 & Hk & H); [lia..|].
      exists (Z.succ k). rewrite Z.pow_succ_r by lia. split; [lia|split; [lia|]]. lia.
    + exists 0. split; [lia|split; [lia|]]. cbn. destruct (Z.le_gt_cases d n); [lia|].
      rewrite Z.div_small in E by lia. lia.
Qed.

(** [10^msd <= n / d], cleared of fractions. *)
Lemma msdOf_lead n d : 0 < n -> 0 < d -> d * 10 ^ Z.max 0 (msdOf n d) <= n * 10 ^ Z.max 0 (- msdOf n d).
Proof.
  intros Hn Hd. unfold msdOf. destruct (Z.ltb_spec 0 (n / d)) as [H|H].
  - pose proof (decimalLen_lead _ H) as L. pose proof (Z.mul_div_le n d Hd).
    destruct (Z.le_gt_cases 0 (decimalLen (n / d) - 1)).
    + rewrite Z.max_r, Z.max_l by lia. cbn. nia.
    + assert (0 <= decimalLen (n / d)) by (unfold decimalLen; lia).
      assert (E0 : decimalLen (n / d) = 0) by lia. rewrite E0.
      change (Z.max 0 (0 - 1)) with 0. change (Z.max 0 (- (0 - 1))) with 1. nia.
  - destruct (msdDown_lead (Z.to_nat (Z.log2 d + 2)) n d 0) as (k & -> & Hk & L); [done|done| |].
    + pose proof (Z.log2_spec d Hd) as [_ L]. pose proof (Z.log2_nonneg d). rewrite Z2Nat.id by lia.
      assert (2 ^ Z.succ (Z.log2 d) <= 10 ^ (Z.log2 d + 2)).
      { etransitivity; [apply (Z.pow_le_mono_l _ 10); lia|apply Z.pow_le_mono_r; lia]. }
      assert (0 < 10 ^ (Z.log2 d + 2)) by (apply Z.pow_pos_nonneg; lia). nia.
    + rewrite Z.max_l, Z.max_r by lia. cbn. rewrite Z.mul_1_r. replace (- (0 - k)) with k by lia. done.
Qed.

Lemma quo_scale n d m frac : 0 < n -> 0 < d -> m = msdOf n d ->
  frac = (if decPrec - 1 - m <? 0 then 0 else decPrec - 1 - m) ->
  10 ^ 27 * d <= 10 ^ frac * n.
Proof.
  intros Hn Hd Em Ef. pose proof (msdOf_lead n d Hn Hd) as L. rewrite <- Em in L. unfold decPrec in Ef.
  assert (Hf : 0 <= frac /\ 27 <= frac + m) by (destruct (Z.ltb_spec (28 - 1 - m) 0); lia).
  assert (Hp : forall k, 0 <= k -> 0 < 10 ^ k) by (intros; apply Z.pow_pos_nonneg; lia).
  destruct (Z.le_gt_cases 0 m).
  - rewrite Z.max_r, Z.max_l, Z.pow_0_r, Z.mul_1_r in L by lia.
    assert (10 ^ 27 <= 10 ^ frac * 10 ^ m) by (rewrite <- Z.pow_add_r by lia; apply Z.pow_le_mono_r; lia).
    specialize (Hp frac ltac:(lia)). nia.
  - rewrite Z.max_l, Z.max_r, Z.pow_0_r, Z.mul_1_r in L by lia.
    assert (10 ^ 27 * 10 ^ (- m) <= 10 ^ frac) by (rewrite <- Z.pow_add_r by lia; apply Z.pow_le_mono_r; lia).
    specialize (Hp (- m) ltac:(lia)). assert (0 < 10 ^ 27) by done. nia.
Qed.

Lemma quo_near d o : (Qabs (decQuo d o - d / o) <= (1 # 2) / inject_Z (10 ^ 27) * Qabs (d / o))%Q.
Proof.
  unfold decQuo. set (q := Qred (d / o)). assert (Eq : (q == d / o)%Q) by apply Qred_correct. rewrite <- Eq.
  assert (Hc : (0 <= (1 # 2) / inject_Z (10 ^ 27))%Q) by (vm_compute; discriminate).
  destruct (Z.eqb_spec (Qnum q) 0) as [|Hn]; cbn [orb];
    [|destruct (Zpos (Qden q) =? 1); [|set (m := msdOf _ _); set (frac := if _ <? 0 then _ else _)]].
  1,2: assert (E0 : (q - q == 0)%Q) by ring; rewrite E0; cbn [Qabs Z.abs Qnum]; apply Qmult_le_0_compat; [done|apply Qabs_nonneg].
  pose proof (quo_scale (Z.abs (Qnum q)) (Zpos (Qden q)) m frac ltac:(lia) ltac:(lia) eq_refl eq_refl) as L.
  assert (Hf : 0 <= frac) by (unfold frac; destruct (Z.ltb_spec (decPrec - 1 - m) 0); lia).
  eapply Qle_trans; [apply ratRound_near, Hf|]. unfold Qdiv. rewrite <- Qmult_assoc.
  rewrite !(Qmult_comm (1 # 2)). apply Qmult_le_compat_r; [|discriminate].
  assert (Hp : 0 < 10 ^ frac) by (apply Z.pow_pos_nonneg; lia).
  assert (Hpq : (0 < inject_Z (10 ^ frac))%Q) by (by rewrite Zlt_Qlt in Hp).
  apply (Qmult_le_r _ _ (inject_Z (10 ^ frac))); [done|].
  rewrite (Qmult_comm (/ _)), Qmult_inv_r by lra.
  assert (Hs : (inject_Z (10 ^ 27) <= inject_Z (10 ^ frac) * Qabs q)%Q).
  { destruct q as [n den]. cbn in L |- *. unfold Qle. cbn. lia. }
  assert (Hk : (0 < inject_Z (10 ^ 27))%Q) by (by vm_compute).
  apply (Qmult_le_r _ _ (inject_Z (10 ^ 27))); [done|]. rewrite Qmult_1_l.
  assert (Ef : (/ inject_Z (10 ^ 27) * Qabs q * inject_Z (10 ^ frac) * inject_Z (10 ^ 27)
    == inject_Z (10 ^ frac) * Qabs q)%Q) by (field; lra).
  by rewrite Ef.
Qed.

Lemma quo_nonneg d o : (0 <= d)%Q -> (0 < o)%Q -> (0 <= decQuo d o)%Q.
Proof.
  intros Hd Ho. pose proof (quo_near d o) as H. apply Qabs_Qle_condition in H as [H _].
  assert (Hq : (0 <= d / o)%Q) by (apply Qle_shift_div_l; lra).
  rewrite (Qabs_pos _ Hq) in H.
  assert (Hc : ((1 # 2) / inject_Z (10 ^ 27) <= 1)%Q) by (vm_compute; discriminate).
  assert (Hm : ((1 # 2) / inject_Z (10 ^ 27) * (d / o) <= 1 * (d / o))%Q) by (apply Qmult_le_compat_r; done).
  lra.
Qed.

(** ** Concentration *)

(** The exposure the health snapshot reports for one symbol. *)
Definition symbolPct (a : RiskSnapshot) (symbol : string) : Q :=
  decQuo (decMul (decFromInt (absInt64 (NetPositionAcrossStrategies a symbol))) (closeOr0 a symbol)) (rs_NAV a).

Lemma symbolPct_flat a symbol : NetPositionAcrossStrategies a symbol = 0 -> symbolPct a symbol = 0%Q.
Proof.
  intros E. unfold symbolPct, decQuo. rewrite E.
  assert (Ez : Qred (decMul (decFromInt (absInt64 0)) (closeOr0 a symbol) / rs_NAV a) = 0%Q).
  { change 0%Q with (Qred 0%Q) at 1. apply Qred_complete. unfold decMul. cbn. unfold Qdiv.
    change (decFromInt 0) with 0%Q. by rewrite !Qmult_0_l. }
  rewrite Ez. reflexivity.
Qed.

(** One step of the maximum. *)
Definition pctMax (a : RiskSnapshot) (symbol : string) (c : Q) : Q :=
  if NetPositionAcrossStrategies a symbol =? 0 then c
  else match decCmp (symbolPct a symbol) c with Gt => symbolPct a symbol | _ => c end.

Lemma concentrationLoop_cons a seen c k n iter :
  concentrationLoop a seen c ((k, n) :: iter) =
  if existsb (String.eqb k.2) seen then concentrationLoop a seen c iter
  else concentrationLoop a (k.2 :: seen) (pctMax a k.2 c) iter.
Proof. cbn. unfold pctMax. destruct (existsb _ _); [done|]. by destruct (Z.eqb _ _). Qed.

Lemma pctMax_spec a symbol c : (0 <= c)%Q ->
  (c <= pctMax a symbol c)%Q /\ (symbolPct a symbol <= pctMax a symbol c)%Q /\
  (pctMax a symbol c = c \/ pctMax a symbol c = symbolPct a symbol).
Proof.
  intros Hc. unfold pctMax. destruct (Z.eqb_spec (NetPositionAcrossStrategies a symbol) 0) as [E|_].
  - rewrite (symbolPct_flat _ _ E). split; [apply Qle_refl|]. auto.
  - destruct (decCmp (symbolPct a symbol) c) eqn:D;
      [| |apply (Qgt_alt (symbolPct a symbol) c) in D; split; [lra|]; split; [apply Qle_refl|by right]].
    all: assert (decCmp (symbolPct a symbol) c <> Gt) as F%decCmp_gt by congruence; split; [apply Qle_refl|]; auto.
Qed.

Lemma concentrationLoop_spec a iter : forall seen c, (0 <= c)%Q ->
  let r := concentrationLoop a seen c iter in
  (c <= r)%Q /\
  (forall k n, In (k, n) iter -> ~ In k.2 seen -> (symbolPct a k.2 <= r)%Q) /\
  (r = c \/ exists k n, In (k, n) iter /\ r = symbolPct a k.2).
Proof.
  induction iter as [|[k n] iter IH]; intros seen c Hc; cbv zeta.
  { split; [apply Qle_refl|]. split; [intros ? ? []|by left]. }
  rewrite concentrationLoop_cons. destruct (existsb (String.eqb k.2) seen) eqn:Ex.
  - destruct (IH seen c Hc) as (H1 & H2 & H3). split; [done|]. split.
    + intros k' n' [[= <- <-]|Hi] Hn; [|by apply (H2 k' n')].
      exfalso. apply Hn. apply existsb_exists in Ex as (s & Hs & E%String.eqb_eq). by rewrite E.
    + destruct H3 as [->|(k' & n' & Hi & E)]; [by left|right; exists k', n'; split; [by right|done]].
  - destruct (pctMax_spec a k.2 c Hc) as (C1 & C2 & C3). set (c' := pctMax a k.2 c) in *.
    destruct (IH (k.2 :: seen) c' ltac:(lra)) as (H1 & H2 & H3).
    split; [lra|]. split.
    + intros k' n' [[= <- <-]|Hi] Hn; [lra|]. destruct (string_dec k'.2 k.2) as [->|Hd]; [lra|].
      apply (H2 k' n' Hi). intros [F|F]; [by symmetry in F|done].
    + destruct H3 as [->|(k' & n' & Hi & E)]; [|right; exists k', n'; split; [by right|done]].
      destruct C3 as [->| ->]; [by left|]. right. exists k, n. split; [by left|done].
Qed.

(** ** What each rule decides *)

Lemma budget_cases al o a : bypass o = false ->
  let d := CheckOrderWithinBudget al o a in
  let positive := (0 < budgetDollars al (po_StrategyID o) a)%Q in
  (d = Approve /\ budgetOk al o a) \/
  (d = Reject "allocator.unregistered_strategy" /\ ~ positive) \/
  (d = Reject "allocator.budget_exceeded" /\ positive /\ ~ budgetOk al o a).
Proof.
  intros Hb d positive. pose proof (budget_approved al o a Hb) as B. fold d in B. subst positive.
  rewrite <- decSign_pos. subst d. unfold CheckOrderWithinBudget in *. rewrite Hb in *.
  destruct (decSign _ <=? 0); [right; left; split; [done|discriminate]|].
  destruct (decCmp (decAdd _ _) _); cbn in B; [left; tauto..|right; right]. rewrite <- B. auto.
Qed.

Lemma loss_cases c a :
  (checkDailyLossHalt c a = Approve /\ lossOk c a) \/
  (checkDailyLossHalt c a = Reject "risk.daily_loss_halt" /\ ~ lossOk c a).
Proof.
  pose proof (loss_approved c a) as B. unfold checkDailyLossHalt in *.
  destruct (decCmp _ _); cbn in B; [left; tauto|right|left; tauto]. rewrite <- B. auto.
Qed.

Lemma name_cases c o a :
  (checkMaxSingleName c o a = Approve /\ nameOk c o a) \/
  (checkMaxSingleName c o a = Reject "risk.max_single_name" /\ ~ nameOk c o a).
Proof.
  pose proof (name_approved c o a) as B. unfold checkMaxSingleName in *.
  destruct (decCmp _ _); cbn in B; [left; tauto..|right]. rewrite <- B. auto.
Qed.

Lemma net_cases c o a :
  (checkConcentration c o a = Approve /\ netOk c o a) \/
  (checkConcentration c o a = Reject "risk.concentration" /\ ~ netOk c o a).
Proof.
  pose proof (net_approved c o a) as B. unfold checkConcentration in *.
  destruct (decCmp _ _); cbn in B; [left; tauto..|right]. rewrite <- B. auto.
Qed.

(** ** The claims *)

(** The gate approves an order exactly when it is exempt (FLAT, or a
    quantity of at most 0) or all four limits hold as exact inequalities:
    the strategy has a positive budget that covers its gross exposure plus
    the order, the day's loss is within the halt threshold, and the name and
    the net exposure stay within their caps.  When it rejects, the rule name
    is that of the first limit violated, in this order. *)
Theorem gate_decides g o a :
  (Approved (Gate_Check g o a) = true <->
   bypass o = true \/
   (budgetOk (g_allocator g) o a /\ lossOk (g_risk g) a /\ nameOk (g_risk g) o a /\ netOk (g_risk g) o a)) /\
  (Approved (Gate_Check g o a) = false -> bypass o = false /\
   match RuleName (Gate_Check g o a) with
   | "allocator.unregistered_strategy" => ~ (0 < budgetDollars (g_allocator g) (po_StrategyID o) a)%Q
   | "allocator.budget_exceeded" => (0 < budgetDollars (g_allocator g) (po_StrategyID o) a)%Q /\ ~ budgetOk (g_allocator g) o a
   | "risk.daily_loss_halt" => budgetOk (g_allocator g) o a /\ ~ lossOk (g_risk g) a
   | "risk.max_single_name" => budgetOk (g_allocator g) o a /\ lossOk (g_risk g) a /\ ~ nameOk (g_risk g) o a
   | "risk.concentration" => budgetOk (g_allocator g) o a /\ lossOk (g_risk g) a /\ nameOk (g_risk g) o a /\
       ~ netOk (g_risk g) o a
   | _ => False
   end%string).
Proof.
  split; [apply gate_approved|]. unfold Gate_Check, RiskConstraints_Check. destruct (bypass o) eqn:Hb.
  { unfold CheckOrderWithinBudget. rewrite Hb. cbn. discriminate. }
  destruct (budget_cases (g_allocator g) o a Hb) as [[-> B]|[[-> B]|[-> B]]]; [|cbn; tauto..].
  destruct (loss_cases (g_risk g) a) as [[-> L]|[-> L]]; [|cbn; tauto].
  destruct (name_cases (g_risk g) o a) as [[-> N]|[-> N]]; [|cbn; tauto].
  destruct (net_cases (g_risk g) o a) as [[-> T]|[-> T]]; [|cbn; tauto].
  cbn. discriminate.
Qed.

(** The limits after the fill of an approved order. *)
Lemma approved_limits_after g o a
    (Hok : Approved (Gate_Check g o a) = true) (Hb : bypass o = false) (Hprice : (0 <= po_Price o)%Q)
    (Hmark : rs_LastClose a !! po_Symbol o = Some (po_Price o))
    (Hpos : Z.abs (StrategyPosition a (po_StrategyID o) (po_Symbol o)) + po_Qty o <= max_int64) :
  let a' := afterFill o a in
  (GrossExposureForStrategy a' (po_StrategyID o) <= budgetDollars (g_allocator g) (po_StrategyID o) a')%Q /\
  (inject_Z (Z.abs (StrategyPosition a' (po_StrategyID o) (po_Symbol o))) * po_Price o
     <= rs_NAV a' * decFromPctFloat (MaxSingleNamePct (g_risk g)))%Q /\
  (inject_Z (absInt64 (NetPositionAcrossStrategies a' (po_Symbol o))) * po_Price o
     <= rs_NAV a' * decFromPctFloat (ConcentrationPct (g_risk g)))%Q.
Proof.
  cbv zeta. destruct (approved_limits g o a Hok Hb) as ((_ & HB) & _ & HN & HC).
  pose proof (order_qty_pos o a Hb) as Hq. split; [|split].
  - eapply Qle_trans; [apply after_gross; done|]. exact HB.
  - assert (Ep : StrategyPosition (afterFill o a) (po_StrategyID o) (po_Symbol o)
        = StrategyPosition a (po_StrategyID o) (po_Symbol o) + signedQty o).
    { unfold StrategyPosition, afterFill. cbn. by rewrite lookup_insert_eq. }
    rewrite Ep, <- absInt64_abs by (unfold signedQty; destruct (String.eqb _ _); rlia).
    eapply Qle_trans; [apply after_name; done|]. exact HN.
  - rewrite after_net. eapply Qle_trans; [|exact HC]. unfold newNetValue, signedQty, decMul, decFromInt.
    destruct (String.eqb (po_Side o) SideLong); cbn [negb]; [apply Qle_refl|].
    rewrite (wrap64_id (- po_Qty o)) by rlia. apply Qle_refl.
Qed.

(** C4: when an approved order fills at the mark, the limits hold of the
    account after the fill, in either direction of the trade: the strategy's
    gross exposure fits its budget, its position in the name is within the
    single-name cap and the net position across strategies is within the
    concentration cap. *)
Theorem approved_fill_keeps_limits g o a
    (Hok : Approved (Gate_Check g o a) = true) (Hb : bypass o = false) (Hprice : (0 <= po_Price o)%Q)
    (Hmark : rs_LastClose a !! po_Symbol o = Some (po_Price o))
    (Hpos : Z.abs (StrategyPosition a (po_StrategyID o) (po_Symbol o)) + po_Qty o <= max_int64) :
  let a' := afterFill o a in
  (GrossExposureForStrategy a' (po_StrategyID o) <= budgetDollars (g_allocator g) (po_StrategyID o) a')%Q /\
  (inject_Z (Z.abs (StrategyPosition a' (po_StrategyID o) (po_Symbol o))) * po_Price o
     <= rs_NAV a' * decFromPctFloat (MaxSingleNamePct (g_risk g)))%Q /\
  (inject_Z (absInt64 (NetPositionAcrossStrategies a' (po_Symbol o))) * po_Price o
     <= rs_NAV a' * decFromPctFloat (ConcentrationPct (g_risk g)))%Q.
Proof. exact (approved_limits_after g o a Hok Hb Hprice Hmark Hpos). Qed.

Lemma halt_flag_iff g a : h_DailyLossHalt (HealthSnapshot g a) = true <-> ~ lossOk (g_risk g) a.
Proof.
  unfold HealthSnapshot. cbn [h_DailyLossHalt]. rewrite <- loss_approved. unfold checkDailyLossHalt.
  destruct (decCmp _ _); cbn; intuition congruence.
Qed.

(** The health snapshot's halt flag is the daily-loss rule of the gate:
    while it is set no entry is approved, exits always are, and when a
    funded account is not halted the reported headroom is not negative and
    is the distance of the day's return to the halt level, to 28 digits. *)
Theorem halt_flag_blocks_entries g a :
  let h := HealthSnapshot g a in
  (h_DailyLossHalt h = true <-> ~ lossOk (g_risk g) a) /\
  (h_DailyLossHalt h = true -> forall o, Approved (Gate_Check g o a) = bypass o) /\
  (h_DailyLossHalt h = false -> (0 < rs_NAV a)%Q ->
     let room := ((TotalPnLToday a + rs_NAV a * decFromPctFloat (DailyLossHaltPct (g_risk g))) / rs_NAV a)%Q in
     (0 <= h_HaltHeadroomPct h)%Q /\
     (Qabs (h_HaltHeadroomPct h - room) <= (1 # 2) / inject_Z (10 ^ 27) * Qabs room)%Q).
Proof.
  cbv zeta. unfold HealthSnapshot. cbn [h_DailyLossHalt h_HaltHeadroomPct].
  assert (Hh : (match decCmp (TotalPnLToday a) (haltThreshold (g_risk g) a) with Lt => true | _ => false end = true)
    <-> ~ lossOk (g_risk g) a).
  { exact (halt_flag_iff g a). }
  split; [exact Hh|]. set (halted := match decCmp _ _ with Lt => true | _ => false end) in *. split.
  - intros Ht o. apply Hh in Ht. apply eq_bool_prop_intro. rewrite !Is_true_true, gate_approved. tauto.
  - intros Hf Hnav. assert (Hl : lossOk (g_risk g) a).
    { apply decCmp_lt. intros C. revert Hf. unfold halted, haltThreshold, decNeg, decMul. by rewrite C. }
    assert (Hs : (0 <? decSign (rs_NAV a)) = true).
    { apply Z.ltb_lt. apply Z.leb_gt. by apply decSign_pos. }
    rewrite Hf, Hs. cbn [negb andb]. unfold lossOk in Hl. split.
    + apply quo_nonneg; [|done]. unfold decSub, haltThreshold, decNeg, decMul. lra.
    + assert (Er : (decSub (TotalPnLToday a) (haltThreshold (g_risk g) a)
        == TotalPnLToday a + rs_NAV a * decFromPctFloat (DailyLossHaltPct (g_risk g)))%Q)
        by (unfold decSub, haltThreshold, decNeg, decMul; ring).
      rewrite <- Er. apply quo_near.
Qed.

(** The health snapshot's concentration is the largest exposure over
    the symbols held, each symbol's net market value over the NAV: it bounds
    every symbol's and is one of them (or 0). *)
Theorem health_concentration_is_max g a (Hnav : (0 < rs_NAV a)%Q) :
  let c := h_ConcentrationPct (HealthSnapshot g a) in
  (forall strategy symbol n, rs_Positions a !! (strategy, symbol) = Some n -> (symbolPct a symbol <= c)%Q) /\
  (c = 0%Q \/ exists strategy symbol n, rs_Positions a !! (strategy, symbol) = Some n /\ c = symbolPct a symbol).
Proof.
  cbv zeta. unfold HealthSnapshot. cbn [h_ConcentrationPct].
  assert (Hs : (0 <? decSign (rs_NAV a)) = true) by (apply Z.ltb_lt, Z.leb_gt; by apply decSign_pos).
  rewrite Hs. destruct (concentrationLoop_spec a (map_to_list (rs_Positions a)) [] decZero (Qle_refl _)) as (_ & H2 & H3).
  split.
  - intros st sy n Hl. apply (H2 (st, sy) n); [|auto]. by apply list_elem_of_In, elem_of_map_to_list.
  - destruct H3 as [->|([st sy] & n & Hi & E)]; [by left|]. right. exists st, sy, n.
    split; [|exact E]. by apply elem_of_map_to_list, list_elem_of_In.
Qed.

(** ** Concrete runs *)

Definition demoGate : Gate := mkGate {["sepa"%string := flit 5 10]} DefaultRiskConstraintsConfig.
Definition demoRisk : RiskSnapshot :=
  mkRiskSnapshot (decFromInt 100000) (decFromInt 96000) 0%Q 0%Q
    {[("sepa", "SPY")%string := 10]} {["SPY"%string := decFromInt 400]}.
Definition demoEntry : ProposedOrder := mkProposed "sepa" "SPY" SideLong 15 (decFromInt 400) demoTs.

Lemma approved_fill_keeps_limits_witness :
  Approved (Gate_Check demoGate demoEntry demoRisk) = true /\
  (GrossExposureForStrategy (afterFill demoEntry demoRisk) "sepa" <= budgetDollars {["sepa"%string := flit 5 10]} "sepa" (afterFill demoEntry demoRisk))%Q.
Proof.
  assert (Hok : Approved (Gate_Check demoGate demoEntry demoRisk) = true) by (vm_compute; reflexivity).
  split; [exact Hok|].
  refine (proj1 (approved_fill_keeps_limits demoGate demoEntry demoRisk Hok eq_refl _ eq_refl _));
    vm_compute; discriminate.
Defined.

Lemma health_concentration_is_max_witness :
  (0 < rs_NAV demoRisk)%Q /\ (symbolPct demoRisk "SPY" <= h_ConcentrationPct (HealthSnapshot demoGate demoRisk))%Q.
Proof.
  assert (Hn : (0 < rs_NAV demoRisk)%Q) by (vm_compute; reflexivity). split; [exact Hn|].
  apply (proj1 (health_concentration_is_max demoGate demoRisk Hn) "sepa" "SPY" 10)%string. reflexivity.
Defined.

(** A fourth of the NAV in one name is over the 20% cap; an exit of any size
    passes; an unknown strategy has no budget. *)
Example demo_gate_rejects :
  map (fun o => RuleName (Gate_Check demoGate o demoRisk))
    [mkProposed "sepa" "SPY" SideLong 50 (decFromInt 400) demoTs;
     mkProposed "sepa" "SPY" SideFlat 500 (decFromInt 400) demoTs;
     mkProposed "orb" "SPY" SideLong 1 (decFromInt 400) demoTs;
     mkProposed "sepa" "SPY" SideShort 126 (decFromInt 400) demoTs]
  = ["risk.max_single_name"; ""; "allocator.unregistered_strategy"; "allocator.budget_exceeded"]%string.
Proof. vm_compute. reflexivity. Qed.
