(* ===== verification/Reconcile.v ===== *)
(** * End-of-day reconciliation (src/internal/riskgate/reconciliation.go)

    The strategies' books are summed per symbol and compared with the
    broker's net position.  The theorems give the exact content of the report
    and show that a clean report with zero tolerance means equality on every
    symbol. *)

From stdpp Require Import gmap strings list sorting.
From S2P Require Import Prelude Fixed Money Domain Float64 Accounting RiskGate.
Set Default Goal Selector "!".
#[local] Open Scope Z_scope.
#[local] Open Scope go_scope.
#[local] Abbreviation length := List.length.

Record Mismatch : Set := mkMismatch {
  mm_Symbol : string;
  mm_StrategyBooksSum : Z;
  mm_BrokerNet : Z;
  mm_Diff : Z
}.

Definition DiffShares (m : Mismatch) : Z := absInt64 (mm_Diff m).

Record ReconciliationReport : Set := mkReport {
  rr_TS : time;
  rr_Matched : list string;
  rr_Mismatches : list Mismatch;
  rr_OnlyInStrategies : list string;
  rr_OnlyAtBroker : list string
}.

Definition HasIssues (r : ReconciliationReport) : bool :=
  (0 <? Z.of_nat (length (rr_Mismatches r))) || (0 <? Z.of_nat (length (rr_OnlyInStrategies r)))
  || (0 <? Z.of_nat (length (rr_OnlyAtBroker r))).

(** The first loop: [strategySums[k.Symbol] += qty], skipping empty entries. *)
Definition sumBooks (iter : list (PositionKey * Z)) : gmap string Z :=
  foldl (fun sums e => if e.2 =? 0 then sums else <[e.1.2 := default 0 (sums !! e.1.2) ⊕ e.2]> sums) ∅ iter.

(** The body of the last loop. *)
Definition classifySymbol (sums broker : gmap string Z) (tolerance : Z) (r : ReconciliationReport) (sym : string)
    : ReconciliationReport :=
  let '(mkReport ts matched mismatches onlyS onlyB) := r in
  let sSum := default 0 (sums !! sym) in
  let bNet := default 0 (broker !! sym) in
  let diff := bNet ⊖ sSum in
  if negb (sSum =? 0) && (bNet =? 0) then mkReport ts matched mismatches (onlyS ++ [sym]) onlyB
  else if (sSum =? 0) && negb (bNet =? 0) then mkReport ts matched mismatches onlyS (onlyB ++ [sym])
  else if absInt64 diff <=? tolerance then mkReport ts (matched ++ [sym]) mismatches onlyS onlyB
  else mkReport ts matched (mismatches ++ [mkMismatch sym sSum bNet diff]) onlyS onlyB.

Definition Reconcile (ts : time) (strategyBooks : gmap PositionKey Z) (broker : gmap string Z) (toleranceShares : Z)
    : ReconciliationReport :=
  let strategySums := sumBooks (map_to_list strategyBooks) in
  let symSet := (dom strategySums ∪ dom broker : gset string) in
  let symbols := merge_sort String.le (elements symSet) in
  foldl (classifySymbol strategySums broker toleranceShares) (mkReport ts [] [] [] []) symbols.

(** ** The aggregation *)

Lemma sumBooks_snoc iter e :
  sumBooks (iter ++ [e]) =
  if e.2 =? 0 then sumBooks iter else <[e.1.2 := default 0 (sumBooks iter !! e.1.2) ⊕ e.2]> (sumBooks iter).
Proof. unfold sumBooks. by rewrite foldl_app. Qed.

(** The sum of a symbol is the net position the gate uses. *)
Lemma sumBooks_lookup iter sym : default 0 (sumBooks iter !! sym) = netLoop sym iter.
Proof.
  rewrite netLoop_sum. induction iter as [|e iter IH] using rev_ind; [done|].
  rewrite sumBooks_snoc. unfold netOf in *. rewrite map_app, sumZ_app. cbn [map]. rewrite sumZ_cons. cbn [sumZ fold_right].
  destruct (Z.eqb_spec e.2 0) as [E|E].
  - rewrite IH. f_equal. rewrite E. destruct (String.eqb _ _); lia.
  - destruct (String.eqb_spec e.1.2 sym) as [<-|Hn].
    + rewrite lookup_insert_eq. cbn. rewrite IH, wrap64_add_wrap. f_equal. lia.
    + rewrite lookup_insert_ne by done. rewrite IH. f_equal. lia.
Qed.

Lemma sumBooks_dom iter sym :
  sym ∈ dom (sumBooks iter) <-> exists k n, (k, n) ∈ iter /\ k.2 = sym /\ n <> 0.
Proof.
  induction iter as [|[k n] iter IH] using rev_ind.
  { unfold sumBooks. cbn. rewrite dom_empty, elem_of_empty. split; [done|]. intros (k & n & H & _). by apply elem_of_nil in H. }
  rewrite sumBooks_snoc. cbn [fst snd].
  destruct (Z.eqb_spec n 0) as [->|Hn]; [|rewrite dom_insert, elem_of_union, elem_of_singleton]; rewrite IH; clear IH.
  - split; intros (k' & n' & H & E & Hz).
    + exists k', n'. rewrite elem_of_app. by auto.
    + apply elem_of_app in H as [H|H%list_elem_of_singleton]; [eauto|]. congruence.
  - split.
    + intros [->|(k' & n' & H & E & Hz)]; [exists k, n|exists k', n']; rewrite elem_of_app, list_elem_of_singleton; by auto.
    + intros (k' & n' & H & E & Hz). apply elem_of_app in H as [H|H%list_elem_of_singleton]; [right; by eauto|].
      left. congruence.
Qed.

(** ** The classification *)

Inductive verdict : Set := VMatched | VMismatch | VOnlyStrategies | VOnlyBroker.

#[export] Instance verdict_eq_dec : EqDecision verdict.
Proof. solve_decision. Defined.

Section Classify.
Context (sums broker : gmap string Z) (tol : Z).
Let S sym := default 0 (sums !! sym).
Let B sym := default 0 (broker !! sym).

Definition verdictOf (sym : string) : verdict :=
  if negb (S sym =? 0) && (B sym =? 0) then VOnlyStrategies
  else if (S sym =? 0) && negb (B sym =? 0) then VOnlyBroker
  else if absInt64 (B sym ⊖ S sym) <=? tol then VMatched else VMismatch.

Definition picked (v : verdict) (symbols : list string) : list string :=
  base.filter (fun s => verdictOf s = v) symbols.

Lemma picked_snoc v l s : picked v (l ++ [s]) = picked v l ++ (if decide (verdictOf s = v) then [s] else []).
Proof. unfold picked. rewrite list.filter_app, list.filter_cons, list.filter_nil. by destruct (decide _). Qed.

(** The report lists are the symbols of each verdict, in processing order. *)
Lemma classify_all ts symbols :
  foldl (classifySymbol sums broker tol) (mkReport ts [] [] [] []) symbols =
  mkReport ts (picked VMatched symbols)
    (map (fun s => mkMismatch s (S s) (B s) (B s ⊖ S s)) (picked VMismatch symbols))
    (picked VOnlyStrategies symbols) (picked VOnlyBroker symbols).
Proof.
  induction symbols as [|s l IH] using rev_ind; [done|]. rewrite foldl_app, IH, !picked_snoc, map_app. cbn.
  unfold verdictOf. fold (S s) (B s).
  destruct (negb (S s =? 0) && (B s =? 0)); [cbn; by rewrite !app_nil_r|].
  destruct ((S s =? 0) && negb (B s =? 0)); [cbn; by rewrite !app_nil_r|].
  destruct (absInt64 (B s ⊖ S s) <=? tol); cbn; by rewrite !app_nil_r.
Qed.

Lemma elem_picked v l s : s ∈ picked v l <-> verdictOf s = v /\ s ∈ l.
Proof. unfold picked. by rewrite list_elem_of_filter. Qed.
End Classify.

Lemma sorted_filter {A} (R : relation A) (P : A -> Prop) `{forall x, Decision (P x)} l :
  StronglySorted R l -> StronglySorted R (base.filter P l).
Proof.
  induction 1 as [|x l Hs IH Hx]; [constructor|]. rewrite list.filter_cons.
  destruct (decide (P x)); [|done]. constructor; [done|].
  apply List.Forall_forall. intros y Hy%list_elem_of_In%list_elem_of_filter.
  rewrite List.Forall_forall in Hx. apply Hx, list_elem_of_In, Hy.
Qed.

(** The books' total and the broker's net, as exact integers. *)
Definition booksTotal (books : gmap PositionKey Z) (sym : string) : Z := netOf sym (map_to_list books).
Definition brokerNet (broker : gmap string Z) (sym : string) : Z := default 0 (broker !! sym).

(** Neither side nor their difference leaves int64. *)
Definition sharesFit (books : gmap PositionKey Z) (broker : gmap string Z) : Prop :=
  forall sym, Z.abs (booksTotal books sym) + Z.abs (brokerNet broker sym) <= max_int64.

(** A symbol someone reports: a non-empty book entry or a broker entry. *)
Definition reported (books : gmap PositionKey Z) (broker : gmap string Z) (sym : string) : Prop :=
  (exists strategy n, books !! (strategy, sym) = Some n /\ n <> 0) \/ is_Some (broker !! sym).

Section Report.
Context (ts : time) (books : gmap PositionKey Z) (broker : gmap string Z) (tol : Z).
Let sums := sumBooks (map_to_list books).
Let symbols := merge_sort String.le (elements (dom sums ∪ dom broker : gset string)).
Let S := booksTotal books.
Let B := brokerNet broker.
Context (Hfit : sharesFit books broker).

Lemma sums_exact sym : default 0 (sums !! sym) = S sym.
Proof.
  unfold sums, S, booksTotal. rewrite sumBooks_lookup, netLoop_sum. apply wrap64_id.
  specialize (Hfit sym). fold (booksTotal books sym). rlia.
Qed.

Lemma diff_exact sym : absInt64 (B sym ⊖ S sym) = Z.abs (B sym - S sym).
Proof. specialize (Hfit sym). fold (S sym) (B sym) in Hfit. rewrite wrap64_id by rlia. apply absInt64_abs. rlia. Qed.

Lemma elem_symbols sym : sym ∈ symbols <-> reported books broker sym.
Proof.
  unfold symbols. rewrite merge_sort_Permutation, elem_of_elements, elem_of_union. unfold sums. rewrite sumBooks_dom.
  unfold reported. rewrite elem_of_dom. apply or_iff_compat_r. split.
  - intros ([st k] & n & H%elem_of_map_to_list & <- & Hn). eauto.
  - intros (st & n & H & Hn). exists (st, sym), n. by rewrite elem_of_map_to_list.
Qed.

Lemma symbols_sorted : StronglySorted String.le symbols /\ base.NoDup symbols.
Proof.
  split; [apply (StronglySorted_merge_sort _)|]. unfold symbols. rewrite merge_sort_Permutation. apply NoDup_elements.
Qed.

Lemma unreported sym : ~ reported books broker sym -> S sym = 0 /\ B sym = 0.
Proof.
  intros H. unfold B, brokerNet. rewrite <- sums_exact. unfold sums.
  assert (E1 : sumBooks (map_to_list books) !! sym = None).
  { apply not_elem_of_dom. intros F. apply H, elem_symbols. unfold symbols.
    rewrite merge_sort_Permutation, elem_of_elements, elem_of_union. by left. }
  assert (E2 : broker !! sym = None).
  { destruct (broker !! sym) eqn:E; [|done]. exfalso. apply H. right. by rewrite E. }
  by rewrite E1, E2.
Qed.

Definition verdictMeans (v : verdict) (sym : string) : Prop :=
  match v with
  | VOnlyStrategies => S sym <> 0 /\ B sym = 0
  | VOnlyBroker => S sym = 0 /\ B sym <> 0
  | VMatched => (S sym = 0 <-> B sym = 0) /\ Z.abs (B sym - S sym) <= tol
  | VMismatch => (S sym = 0 <-> B sym = 0) /\ tol < Z.abs (B sym - S sym)
  end.

Lemma verdict_iff v sym : verdictOf sums broker tol sym = v <-> verdictMeans v sym.
Proof.
  unfold verdictOf. rewrite sums_exact. fold (brokerNet broker sym). fold (B sym). rewrite diff_exact.
  destruct (Z.eqb_spec (S sym) 0), (Z.eqb_spec (B sym) 0); cbn;
    try destruct (Z.leb_spec (Z.abs (B sym - S sym)) tol);
    destruct v; cbn; split; try discriminate; try tauto; try lia.
Qed.

(** The symbols with a given verdict. *)
Lemma picked_iff v s : s ∈ picked sums broker tol v symbols <-> verdictMeans v s /\ reported books broker s.
Proof. by rewrite elem_picked, elem_symbols, verdict_iff. Qed.

Lemma reported_nonzero s : S s <> 0 \/ B s <> 0 -> reported books broker s.
Proof.
  intros H. destruct (decide (s ∈ symbols)) as [D|D]; rewrite elem_symbols in D; [done|].
  destruct (unreported s D). tauto.
Qed.

Lemma picked_sorted v :
  StronglySorted String.le (picked sums broker tol v symbols) /\ base.NoDup (picked sums broker tol v symbols).
Proof. destruct symbols_sorted as [Hs Hd]. split; [by apply sorted_filter|by apply list.NoDup_filter]. Qed.

Lemma report_eq :
  Reconcile ts books broker tol =
  mkReport ts (picked sums broker tol VMatched symbols)
    (map (fun s => mkMismatch s (S s) (B s) (B s - S s)) (picked sums broker tol VMismatch symbols))
    (picked sums broker tol VOnlyStrategies symbols) (picked sums broker tol VOnlyBroker symbols).
Proof.
  unfold Reconcile. rewrite classify_all. fold sums symbols. f_equal. apply map_ext. intros s.
  rewrite sums_exact. fold (brokerNet broker s). fold (B s). f_equal. specialize (Hfit s).
  fold (S s) (B s) in Hfit. apply wrap64_id. rlia.
Qed.
End Report.

(** ** The claims *)

(** When shares fit in int64, the report classifies every reported
    symbol exactly: claimed by strategies but flat at the broker, held at the
    broker but claimed by none, within tolerance, or a mismatch carrying both
    sums and their difference.  The lists are in ascending order without
    duplicates. *)
Theorem reconcile_classifies ts books broker tol (Hfit : sharesFit books broker) :
  let r := Reconcile ts books broker tol in
  let S := booksTotal books in
  let B := brokerNet broker in
  (forall s, s ∈ rr_OnlyInStrategies r <-> S s <> 0 /\ B s = 0) /\
  (forall s, s ∈ rr_OnlyAtBroker r <-> S s = 0 /\ B s <> 0) /\
  (forall s, s ∈ rr_Matched r <-> reported books broker s /\ (S s = 0 <-> B s = 0) /\ Z.abs (B s - S s) <= tol) /\
  (forall m, m ∈ rr_Mismatches r <-> exists s, m = mkMismatch s (S s) (B s) (B s - S s) /\
      reported books broker s /\ (S s = 0 <-> B s = 0) /\ tol < Z.abs (B s - S s)) /\
  (forall l, l ∈ [rr_OnlyInStrategies r; rr_OnlyAtBroker r; rr_Matched r; map mm_Symbol (rr_Mismatches r)] ->
      StronglySorted String.le l /\ base.NoDup l).
Proof.
  cbv zeta. rewrite report_eq by done. cbn [rr_OnlyInStrategies rr_OnlyAtBroker rr_Matched rr_Mismatches].
  pose proof (reported_nonzero books broker Hfit) as Hr.
  split; [|split; [|split; [|split]]].
  1,2: intros s; rewrite picked_iff by done; cbn; specialize (Hr s); tauto.
  - intros s. rewrite picked_iff by done. cbn. tauto.
  - intros m. rewrite list_elem_of_fmap. apply exist_proper. intros s. rewrite picked_iff by done. cbn. tauto.
  - intros l Hl. rewrite map_map in Hl. cbn [mm_Symbol] in Hl. rewrite map_id in Hl.
    rewrite !elem_of_cons, elem_of_nil in Hl. destruct Hl as [->|[->|[->|[->|[]]]]]; apply picked_sorted.
Qed.

(** With zero tolerance and shares that fit in int64, the report has no
    issue exactly when every symbol's books sum to the broker's net. *)
Theorem reconcile_clean_iff ts books broker (Hfit : sharesFit books broker) :
  HasIssues (Reconcile ts books broker 0) = false <-> forall s, booksTotal books s = brokerNet broker s.
Proof.
  rewrite report_eq by done. unfold HasIssues. cbn [rr_OnlyInStrategies rr_OnlyAtBroker rr_Mismatches].
  rewrite length_map, !orb_false_iff, !Z.ltb_ge.
  set (sy := merge_sort _ _). set (P := picked _ _ _).
  assert (Hnil : forall v, (Z.of_nat (length (P v sy)) <= 0) <-> forall s, ~ (verdictMeans books broker 0 v s /\ reported books broker s)).
  { intros v. transitivity (P v sy = []).
    - rewrite <- length_zero_iff_nil. lia.
    - split; [intros E s H|intros H; apply elem_of_nil_inv; intros s E; apply (H s)];
        apply (picked_iff books broker 0 Hfit) in H || apply (picked_iff books broker 0 Hfit) in E; fold sy in H || fold sy in E.
      + fold P in H. rewrite E in H. by apply elem_of_nil in H.
      + done. }
  rewrite !Hnil. cbn. split.
  - intros [[H1 H2] H3] s. specialize (H1 s). specialize (H2 s). specialize (H3 s).
    pose proof (reported_nonzero books broker Hfit s) as Hr.
    destruct (Z.eq_dec (booksTotal books s) (brokerNet broker s)) as [|Hne]; [done|]. exfalso.
    specialize (Hr ltac:(lia)).
    destruct (Z.eq_dec (booksTotal books s) 0), (Z.eq_dec (brokerNet broker s) 0); [lia|tauto..|].
    apply H1. split; [|done]. split; [tauto|lia].
  - intros H. split; [split|]; intros s; rewrite H; lia.
Qed.

Lemma length_pos_in {A} (l : list A) : (0 <? Z.of_nat (length l)) = true -> exists x, x ∈ l.
Proof. destruct l as [|x l]; [discriminate|]. intros _. exists x. constructor. Qed.

(** An issue names a symbol on which the two sides differ. *)
Lemma issues_iff ts books broker (Hfit : sharesFit books broker) :
  HasIssues (Reconcile ts books broker 0) = true <-> exists s, booksTotal books s <> brokerNet broker s.
Proof.
  split.
  - rewrite report_eq by done. unfold HasIssues. cbn [rr_OnlyInStrategies rr_OnlyAtBroker rr_Mismatches]. rewrite length_map.
    intros [[H|H]%orb_true_iff|H]%orb_true_iff; apply length_pos_in in H as [s Hs]; apply picked_iff in Hs as [Hv _]; try done;
      cbn in Hv; exists s; lia.
  - intros [s Hs]. destruct (HasIssues _) eqn:E; [done|]. exfalso. apply Hs. by apply (reconcile_clean_iff ts books broker Hfit).
Qed.

(** ** Concrete runs *)

Definition demoBooks : gmap PositionKey Z :=
  {[("sepa", "SPY") := 60; ("orb", "SPY") := 40; ("orb", "QQQ") := -5; ("orb", "IWM") := 0]}%string.
Definition demoBroker : gmap string Z := {["SPY" := 95; "QQQ" := -5; "TLT" := 7]}%string.

Lemma demo_fit : sharesFit demoBooks demoBroker.
Proof.
  intros s. unfold booksTotal, netOf.
  assert (H : forall l : list (PositionKey * Z), Z.abs (sumZ (map (fun e => if String.eqb e.1.2 s then e.2 else 0) l))
    <= sumZ (map (fun e => Z.abs e.2) l)).
  { induction l as [|e l IH]; cbn [map]; rewrite ?sumZ_cons; [done|]. destruct (String.eqb _ _); lia. }
  specialize (H (map_to_list demoBooks)). assert (E : sumZ (map (fun e => Z.abs e.2) (map_to_list demoBooks)) = 105) by (vm_compute; reflexivity).
  assert (B : Z.abs (brokerNet demoBroker s) <= 95).
  { unfold brokerNet. destruct (demoBroker !! s) as [n|] eqn:En; [|cbn; lia].
    apply elem_of_map_to_list, list_elem_of_In in En. vm_compute in En.
    destruct En as [F|[F|[F|[]]]]; injection F as _ <-; cbn; lia. }
  rlia.
Qed.

Lemma reconcile_classifies_witness :
  sharesFit demoBooks demoBroker /\ "TLT"%string ∈ rr_OnlyAtBroker (Reconcile demoTs demoBooks demoBroker 2).
Proof.
  split; [exact demo_fit|].
  apply (proj1 (proj2 (reconcile_classifies demoTs demoBooks demoBroker 2 demo_fit)) "TLT"%string).
  vm_compute. split; [reflexivity|discriminate].
Defined.

Lemma reconcile_clean_iff_witness :
  sharesFit demoBooks demoBroker /\ ~ (forall s, booksTotal demoBooks s = brokerNet demoBroker s).
Proof.
  split; [exact demo_fit|]. intros H. apply (reconcile_clean_iff demoTs demoBooks demoBroker demo_fit) in H.
  vm_compute in H. discriminate.
Defined.

Example demo_report : Reconcile demoTs demoBooks demoBroker 2 =
  mkReport demoTs ["QQQ"] [mkMismatch "SPY" 100 95 (-5)] [] ["TLT"].
Proof. vm_compute. reflexivity. Qed.
