(* ===== verification/Context.v ===== *)
(** * The strategy context (src/internal/riskgate/context_*.go)

    The market regime, market capitalisations and earnings blackouts that the
    backtest publishes to the strategies on each heartbeat bar.  The provider
    holds the whole history; the theorems show what of it a bar can depend on,
    and that the published updates determine the shared state.  A [float64]
    is the executable binary64 of [Float64]. *)

From stdpp Require Import gmap strings list.
From Stdlib Require Import QArith SpecFloat.
From S2P Require Import Prelude Fixed Money Domain Float64 Accounting RiskGate.
Set Default Goal Selector "!".
#[local] Open Scope string_scope.
#[local] Open Scope Z_scope.
#[local] Open Scope list_scope.
#[local] Abbreviation length := List.length.

(** ** Calendar dates *)

Definition dayNs : Z := 86400000000000.

(** Midnight UTC of the instant's calendar date. *)
Definition dateOnly (ts : time) : time := mkTime (t_ns ts - t_ns ts mod dayNs) 0.

Definition After (a b : time) : bool := t_ns b <? t_ns a.

(** [AddDate(0, 0, n)] of a UTC midnight. *)
Definition addDays (t : time) (n : Z) : time := mkTime (t_ns t + n * dayNs) (t_off t).

(** ** context_types.go *)

Definition RegimeBull : string := "bull".
Definition RegimeBear : string := "bear".
Definition RegimeNeutral : string := "neutral".
Definition RegimeWarning : string := "warning".

Definition regimeMinBars : nat := 200.
Definition regimeSlopeWindow : nat := 30.
Definition regimeSlopeFlatPct : float64 := fzero.
Definition earningsBlackoutDays : Z := 5.
Definition sf1DimensionDefault : string := "MRT".

Record RegimeUpdate : Set := mkRegimeUpdate { ru_Value : string; ru_TSEvent : time; ru_TSInit : time }.
Record MarketCapUpdate : Set := mkCapUpdate {
  mu_Ticker : string; mu_Value : float64; mu_ValueDec : dec; mu_TSEvent : time; mu_TSInit : time }.
Record EarningsBlackoutUpdate : Set := mkEarningsUpdate {
  eu_Ticker : string; eu_Value : bool; eu_TSEvent : time; eu_TSInit : time }.

(** ** context_state.go *)

Record SharedContextState : Set := mkContextState {
  cs_regime : string;
  cs_marketCap : gmap string dec;
  cs_earningsBlackout : gmap string bool
}.

Definition NewSharedContextState : SharedContextState := mkContextState RegimeNeutral ∅ ∅.

Definition SetRegime (regime : string) (s : SharedContextState) : SharedContextState :=
  mkContextState regime (cs_marketCap s) (cs_earningsBlackout s).
Definition SetMarketCap (ticker : string) (value : dec) (s : SharedContextState) : SharedContextState :=
  mkContextState (cs_regime s) (<[ticker := value]> (cs_marketCap s)) (cs_earningsBlackout s).
Definition SetEarningsBlackout (ticker : string) (value : bool) (s : SharedContextState) : SharedContextState :=
  mkContextState (cs_regime s) (cs_marketCap s) (<[ticker := value]> (cs_earningsBlackout s)).

(** [big.Rat.Float64]: the nearest float. *)
Definition decFloat64 (d : dec) : float64 :=
  match Qnum d with
  | Z0 => fzero
  | Zpos p => ratToFloat false p (Qden d)
  | Zneg p => ratToFloat true p (Qden d)
  end.

Definition ReplaceMarketCap (m : gmap string dec) (s : SharedContextState) : SharedContextState :=
  mkContextState (cs_regime s) m (cs_earningsBlackout s).
Definition ReplaceEarningsBlackout (m : gmap string bool) (s : SharedContextState) : SharedContextState :=
  mkContextState (cs_regime s) (cs_marketCap s) m.

Definition MarketCap (s : SharedContextState) (ticker : string) : option dec := cs_marketCap s !! ticker.
Definition EarningsBlackout (s : SharedContextState) (ticker : string) : bool := default false (cs_earningsBlackout s !! ticker).

Definition MarketCapFloats (s : SharedContextState) : gmap string float64 := decFloat64 <$> cs_marketCap s.
Definition EarningsBlackouts (s : SharedContextState) : gmap string bool := cs_earningsBlackout s.

(** ** context_refresher.go *)

Record SPYBar : Set := mkSPY { spy_Date : time; spy_Close : float64 }.
Record SF1Row : Set := mkSF1 {
  sf_Ticker : string;
  sf_DateKey : time;
  sf_MarketCap : float64;
  sf_HasMarketCap : bool;
  sf_Dimension : string;
  sf_HasDimension : bool
}.
Record EarningsRow : Set := mkEarnings { er_Ticker : string; er_ReportDate : time }.

Definition rollingMean (xs : list float64) (window : nat) : list float64 :=
  map (fun i =>
    if (i + 1 <? window)%nat then S754_nan
    else
      let sum := foldl fadd fzero (firstn window (skipn (i + 1 - window) xs)) in
      fdiv sum (zToFloat (Z.of_nat window)))
    (seq 0 (length xs)).

(** [xs[i]]; the callers stay in range. *)
Definition floatAt (xs : list float64) (i : nat) : float64 := nth i xs S754_nan.

Definition ComputeRegime (history : list SPYBar) (asOf : time) : string :=
  let bars :=
    if negb (IsZeroTime asOf) then
      let cutoff := dateOnly asOf in
      List.filter (fun b => negb (After (dateOnly (spy_Date b)) cutoff)) history
    else history in
  if (length bars <? regimeMinBars)%nat then RegimeNeutral
  else
    let closes := map spy_Close bars in
    let ma200 := rollingMean closes regimeMinBars in
    let lastClose := floatAt closes (length closes - 1) in
    let lastMA := floatAt ma200 (length ma200 - 1) in
    if isNaN lastMA then RegimeNeutral
    else if fltb lastClose lastMA then RegimeBear
    else if (length ma200 <? regimeSlopeWindow + 1)%nat then RegimeWarning
    else
      let maThen := floatAt ma200 (length ma200 - 1 - regimeSlopeWindow) in
      if isNaN maThen || feqb maThen fzero then RegimeWarning
      else
        let slopePct := fdiv (fsub lastMA maThen) maThen in
        if fltb regimeSlopeFlatPct slopePct then RegimeBull else RegimeWarning.

(** The shortest decimal, parsed exactly; a non-finite float does not parse. *)
Definition decFromFloatStr (f : float64) : dec := decFromPctFloat f.

(** The rows the loader keeps. *)
Definition capEligible (hasDimCol : bool) (dimension : string) (cutoff : time) (r : SF1Row) : bool :=
  negb (hasDimCol && negb (String.eqb (sf_Dimension r) dimension)) &&
  negb (After (dateOnly (sf_DateKey r)) cutoff) && sf_HasMarketCap r && negb (fleb (sf_MarketCap r) fzero).

Definition orDefault (dimension : string) : string :=
  if String.eqb dimension "" then sf1DimensionDefault else dimension.

Definition LoadSF1MarketCaps (rows : list SF1Row) (asOf : time) (dimension : string) : gmap string dec :=
  let dimension := orDefault dimension in
  let hasDimCol := existsb sf_HasDimension rows in
  let cutoff := dateOnly asOf in
  let ks := List.filter (capEligible hasDimCol dimension cutoff) rows in
  let ks := sortBy (fun r => t_ns (dateOnly (sf_DateKey r))) ks in
  foldl (fun out r => <[sf_Ticker r := decFromFloatStr (sf_MarketCap r)]> out) ∅ ks.

(** [lo <= d <= hi] for the row's report date. *)
Definition inBlackout (cutoff : time) (blackoutDays : Z) (r : EarningsRow) : bool :=
  let lo := addDays cutoff (- blackoutDays) in
  let hi := addDays cutoff blackoutDays in
  let d := dateOnly (er_ReportDate r) in
  negb (Before d lo) && negb (After d hi).

Definition LoadEarningsCalendar (rows : list EarningsRow) (asOf : time) (blackoutDays : Z) : gmap string bool :=
  let cutoff := dateOnly asOf in
  foldl (fun out r => if inBlackout cutoff blackoutDays r then <[er_Ticker r := true]> out else out) ∅ rows.

(** ** context_provider.go *)

Record ContextProvider : Set := mkProvider {
  cp_spyHistory : list SPYBar;
  cp_sf1Rows : list SF1Row;
  cp_earnings : list EarningsRow;
  cp_tickers : list string;
  cp_dimension : string;
  cp_blackout : Z;
  cp_lastRegime : option string;
  cp_lastMarketCap : gmap string dec;
  cp_lastBlackoutSeen : gmap string bool;
  cp_lastBlackout : gmap string bool
}.

Definition NewContextProvider (spyHistory : list SPYBar) (sf1Rows : list SF1Row) (earnings : list EarningsRow)
    (tickers : list string) (dimension : string) (blackoutDays : Z) : ContextProvider :=
  mkProvider (sortBy (fun b => t_ns (spy_Date b)) spyHistory) sf1Rows earnings tickers (orDefault dimension)
    (if blackoutDays =? 0 then earningsBlackoutDays else blackoutDays) None ∅ ∅ ∅.

(** Reads that leave the published values alone. *)
Definition RegimeAt (p : ContextProvider) (date : time) : string := ComputeRegime (cp_spyHistory p) date.
Definition MarketCapAt (p : ContextProvider) (ticker : string) (date : time) : option dec :=
  LoadSF1MarketCaps (cp_sf1Rows p) date (cp_dimension p) !! ticker.
Definition EarningsBlackoutAt (p : ContextProvider) (ticker : string) (date : time) : bool :=
  default false (LoadEarningsCalendar (cp_earnings p) date (cp_blackout p) !! ticker).

Record ContextUpdates : Set := mkUpdates {
  u_Regime : option RegimeUpdate;
  u_MarketCap : list MarketCapUpdate;
  u_Earnings : list EarningsBlackoutUpdate
}.

Definition set_lastRegime (r : string) (p : ContextProvider) : ContextProvider :=
  mkProvider (cp_spyHistory p) (cp_sf1Rows p) (cp_earnings p) (cp_tickers p) (cp_dimension p) (cp_blackout p)
    (Some r) (cp_lastMarketCap p) (cp_lastBlackoutSeen p) (cp_lastBlackout p).
Definition set_lastMarketCap (m : gmap string dec) (p : ContextProvider) : ContextProvider :=
  mkProvider (cp_spyHistory p) (cp_sf1Rows p) (cp_earnings p) (cp_tickers p) (cp_dimension p) (cp_blackout p)
    (cp_lastRegime p) m (cp_lastBlackoutSeen p) (cp_lastBlackout p).
Definition set_lastBlackout (seen last : gmap string bool) (p : ContextProvider) : ContextProvider :=
  mkProvider (cp_spyHistory p) (cp_sf1Rows p) (cp_earnings p) (cp_tickers p) (cp_dimension p) (cp_blackout p)
    (cp_lastRegime p) (cp_lastMarketCap p) seen last.

Definition regimeStep (ts : time) (p : ContextProvider) (st : SharedContextState)
    : ContextProvider * SharedContextState * option RegimeUpdate :=
  let date := dateOnly ts in
  let available := length (List.filter (fun b => negb (After (dateOnly (spy_Date b)) date)) (cp_spyHistory p)) in
  if (regimeMinBars <=? available)%nat then
    let regime := ComputeRegime (cp_spyHistory p) date in
    let st := SetRegime regime st in
    if match cp_lastRegime p with None => true | Some r => negb (String.eqb r regime) end
    then (set_lastRegime regime p, st, Some (mkRegimeUpdate regime ts ts))
    else (p, st, None)
  else (p, st, None).

Fixpoint capLoop (ts : time) (caps : gmap string dec) (tickers : list string)
    (p : ContextProvider) (st : SharedContextState) : ContextProvider * SharedContextState * list MarketCapUpdate :=
  match tickers with
  | [] => (p, st, [])
  | ticker :: tickers =>
      match caps !! ticker with
      | None => capLoop ts caps tickers p st
      | Some v =>
          if match cp_lastMarketCap p !! ticker with
             | Some prev => match decCmp prev v with Eq => true | _ => false end
             | None => false
             end
          then capLoop ts caps tickers p st
          else
            let st := SetMarketCap ticker v st in
            let p := set_lastMarketCap (<[ticker := v]> (cp_lastMarketCap p)) p in
            let '(p, st, us) := capLoop ts caps tickers p st in
            (p, st, mkCapUpdate ticker (decFloat64 v) v ts ts :: us)
      end
  end.

Fixpoint earningsLoop (ts : time) (cal : gmap string bool) (tickers : list string)
    (p : ContextProvider) (st : SharedContextState) : ContextProvider * SharedContextState * list EarningsBlackoutUpdate :=
  match tickers with
  | [] => (p, st, [])
  | ticker :: tickers =>
      let value := default false (cal !! ticker) in
      let st := SetEarningsBlackout ticker value st in
      if negb (default false (cp_lastBlackoutSeen p !! ticker)) ||
         negb (Bool.eqb (default false (cp_lastBlackout p !! ticker)) value)
      then
        let p := set_lastBlackout (<[ticker := true]> (cp_lastBlackoutSeen p))
                   (<[ticker := value]> (cp_lastBlackout p)) p in
        let '(p, st, us) := earningsLoop ts cal tickers p st in
        (p, st, mkEarningsUpdate ticker value ts ts :: us)
      else earningsLoop ts cal tickers p st
  end.

Definition capStep (ts : time) (p : ContextProvider) (st : SharedContextState)
    : ContextProvider * SharedContextState * list MarketCapUpdate :=
  let caps := LoadSF1MarketCaps (cp_sf1Rows p) (dateOnly ts) (cp_dimension p) in
  if (0 <? size caps)%nat then capLoop ts caps (cp_tickers p) p st else (p, st, []).

Definition earningsStep (ts : time) (p : ContextProvider) (st : SharedContextState)
    : ContextProvider * SharedContextState * list EarningsBlackoutUpdate :=
  if (0 <? length (cp_tickers p))%nat then
    earningsLoop ts (LoadEarningsCalendar (cp_earnings p) (dateOnly ts) (cp_blackout p)) (cp_tickers p) p st
  else (p, st, []).

Definition Provider_OnBar (p : ContextProvider) (st : SharedContextState) (ts : time)
    : ContextProvider * SharedContextState * ContextUpdates :=
  let '(p, st, regime) := regimeStep ts p st in
  let '(p, st, cu) := capStep ts p st in
  let '(p, st, eu) := earningsStep ts p st in
  (p, st, mkUpdates regime cu eu).

(** ** Look-ahead *)

(** The rows dated no later than [D]. *)
Definition knownBy {A} (date : A -> time) (D : time) (l : list A) : list A :=
  List.filter (fun r => negb (After (dateOnly (date r)) D)) l.

(** The provider as it would be built from the data known on date [D]: prices
    and filings dated by [D], and the earnings dates announced for the
    blackout window around it. *)
Definition truncate (D : time) (p : ContextProvider) : ContextProvider :=
  mkProvider (knownBy spy_Date D (cp_spyHistory p)) (knownBy sf_DateKey D (cp_sf1Rows p))
    (knownBy er_ReportDate (addDays D (cp_blackout p)) (cp_earnings p)) (cp_tickers p) (cp_dimension p) (cp_blackout p)
    (cp_lastRegime p) (cp_lastMarketCap p) (cp_lastBlackoutSeen p) (cp_lastBlackout p).

(** The dimension column is present in all rows or in none. *)
Definition uniformDimension (rows : list SF1Row) : Prop := exists b, Forall (fun r => sf_HasDimension r = b) rows.

Lemma filter_twice {A} (P Q : A -> bool) l :
  (forall x, P x = true -> Q x = true) -> List.filter P (List.filter Q l) = List.filter P l.
Proof.
  intros H. induction l as [|x l IH]; cbn; [done|]. destruct (Q x) eqn:EQ; cbn; [by rewrite IH|].
  destruct (P x) eqn:EP; [|done]. apply H in EP. congruence.
Qed.

Lemma After_trans_known a b c : After b c = false -> negb (After a b) = true -> negb (After a c) = true.
Proof. unfold After. intros. breflect. apply negb_true_iff, Z.ltb_ge. lia. Qed.

Lemma knownBy_known {A} (date : A -> time) c D l :
  After c D = false -> knownBy date c (knownBy date D l) = knownBy date c l.
Proof. intros H. apply filter_twice. intros x. by apply After_trans_known. Qed.

Lemma dateOnly_idem t : dateOnly (dateOnly t) = dateOnly t.
Proof.
  unfold dateOnly. cbn. f_equal. rewrite Zminus_mod_idemp_r, Z.sub_diag. rewrite Z.mod_0_l; [lia|done].
Qed.

Lemma ComputeRegime_known history c D :
  IsZeroTime c = false -> dateOnly c = c -> After c D = false ->
  ComputeRegime (knownBy spy_Date D history) c = ComputeRegime history c.
Proof.
  intros Hz Hc Hd. unfold ComputeRegime. rewrite Hz, Hc. cbn [negb].
  fold (knownBy spy_Date c (knownBy spy_Date D history)). fold (knownBy spy_Date c history).
  by rewrite knownBy_known.
Qed.

Lemma existsb_uniform rows b : Forall (fun r => sf_HasDimension r = b) rows -> rows <> [] -> existsb sf_HasDimension rows = b.
Proof.
  intros H Hne. destruct rows as [|r rows]; [done|]. destruct b.
  - apply Forall_cons_1 in H as [H _]. cbn. by rewrite H.
  - clear Hne. induction H as [|x l Hx _ IH]; [done|]. cbn. by rewrite Hx.
Qed.

Lemma capEligible_known b dim c D r : After c D = false ->
  capEligible b dim c r = true -> negb (After (dateOnly (sf_DateKey r)) D) = true.
Proof.
  intros Hd H. unfold capEligible in H. apply andb_true_iff in H as [H _]. apply andb_true_iff in H as [H _].
  apply andb_true_iff in H as [_ H]. by eapply After_trans_known.
Qed.

Lemma LoadSF1_known rows c D dim :
  uniformDimension rows -> dateOnly c = c -> After c D = false ->
  LoadSF1MarketCaps (knownBy sf_DateKey D rows) c dim = LoadSF1MarketCaps rows c dim.
Proof.
  intros [b Hu] Hc Hd. unfold LoadSF1MarketCaps. rewrite Hc.
  assert (Hf : forall b', List.filter (capEligible b' (orDefault dim) c) (knownBy sf_DateKey D rows)
                     = List.filter (capEligible b' (orDefault dim) c) rows).
  { intros b'. apply filter_twice. intros x. by apply capEligible_known. }
  destruct (knownBy sf_DateKey D rows) as [|r known] eqn:Ek.
  - cbn. replace (List.filter _ rows) with (@nil SF1Row); [done|]. symmetry. rewrite <- Hf. done.
  - rewrite Hf. rewrite (existsb_uniform (r :: known) b), (existsb_uniform rows b); [done|done| | |done].
    + intros ->. done.
    + rewrite <- Ek. unfold knownBy. apply List.incl_Forall with (l1 := rows); [|done].
      intros x Hx. by apply filter_In in Hx as [? _].
Qed.

Lemma addDays_After a b n : After (addDays a n) (addDays b n) = After a b.
Proof. unfold After, addDays. cbn. destruct (Z.ltb_spec (t_ns b) (t_ns a)), (Z.ltb_spec (t_ns b + n * dayNs) (t_ns a + n * dayNs)); lia. Qed.

Lemma LoadEarnings_known rows c D n :
  dateOnly c = c -> After c D = false ->
  LoadEarningsCalendar (knownBy er_ReportDate (addDays D n) rows) c n = LoadEarningsCalendar rows c n.
Proof.
  intros Hc Hd. unfold LoadEarningsCalendar. rewrite Hc. generalize (∅ : gmap string bool) as out.
  induction rows as [|r rows IH]; intros out; cbn; [done|].
  destruct (negb (After (dateOnly (er_ReportDate r)) (addDays D n))) eqn:Ek; cbn; [by rewrite IH|].
  rewrite IH. assert (inBlackout c n r = false) as ->; [|done].
  unfold inBlackout. apply andb_false_iff. right. apply not_true_is_false. intros Hx.
  eapply After_trans_known in Hx; [|rewrite addDays_After; exact Hd]. congruence.
Qed.

(** A regime step, and each loop, commute with the truncation. *)
Lemma regimeStep_known ts D p st :
  IsZeroTime (dateOnly ts) = false -> After (dateOnly ts) D = false ->
  regimeStep ts (truncate D p) st =
    let '(p', st', u) := regimeStep ts p st in (truncate D p', st', u).
Proof.
  intros Hz Hd. unfold regimeStep. cbn [cp_spyHistory cp_lastRegime truncate].
  fold (knownBy spy_Date (dateOnly ts) (knownBy spy_Date D (cp_spyHistory p))).
  fold (knownBy spy_Date (dateOnly ts) (cp_spyHistory p)).
  rewrite knownBy_known, ComputeRegime_known by (done || apply dateOnly_idem).
  destruct (_ <=? _)%nat; [|done]. by destruct (match cp_lastRegime p with None => true | Some _ => _ end).
Qed.

Lemma capLoop_known ts caps D tickers : forall p st,
  capLoop ts caps tickers (truncate D p) st =
    let '(p', st', u) := capLoop ts caps tickers p st in (truncate D p', st', u).
Proof.
  induction tickers as [|t tickers IH]; intros p st; cbn [capLoop]; [done|].
  destruct (caps !! t) as [v|]; [|apply IH]. cbn [cp_lastMarketCap truncate].
  destruct (match cp_lastMarketCap p !! t with Some _ => _ | None => _ end); [apply IH|].
  change (set_lastMarketCap ?m (truncate D p)) with (truncate D (set_lastMarketCap m p)). rewrite IH.
  by destruct (capLoop ts caps tickers _ _) as [[p' st'] u].
Qed.

Lemma earningsLoop_known ts cal D tickers : forall p st,
  earningsLoop ts cal tickers (truncate D p) st =
    let '(p', st', u) := earningsLoop ts cal tickers p st in (truncate D p', st', u).
Proof.
  induction tickers as [|t tickers IH]; intros p st; cbn [earningsLoop]; [done|].
  cbn [cp_lastBlackoutSeen cp_lastBlackout truncate]. destruct (_ || _); [|apply IH].
  change (set_lastBlackout ?a ?b (truncate D p)) with (truncate D (set_lastBlackout a b p)). rewrite IH.
  by destruct (earningsLoop ts cal tickers _ _) as [[p' st'] u].
Qed.

(** The three steps leave the data alone. *)
Definition sameData (p p' : ContextProvider) : Prop :=
  cp_spyHistory p' = cp_spyHistory p /\ cp_sf1Rows p' = cp_sf1Rows p /\ cp_earnings p' = cp_earnings p /\
  cp_tickers p' = cp_tickers p /\ cp_dimension p' = cp_dimension p /\ cp_blackout p' = cp_blackout p.

#[export] Instance sameData_preorder : PreOrder sameData.
Proof. split; [by repeat split|]. unfold sameData. intros a b c (?&?&?&?&?&?) (?&?&?&?&?&?). splits; congruence. Qed.

Lemma regimeStep_data ts p st : sameData p (regimeStep ts p st).1.1.
Proof.
  unfold regimeStep. destruct (_ <=? _)%nat; [|reflexivity].
  by destruct (match cp_lastRegime p with None => true | Some _ => _ end).
Qed.

Lemma capLoop_data ts caps tickers : forall p st, sameData p (capLoop ts caps tickers p st).1.1.
Proof.
  induction tickers as [|t tickers IH]; intros p st; cbn [capLoop]; [reflexivity|].
  destruct (caps !! t) as [v|]; [|apply IH]. destruct (match cp_lastMarketCap p !! t with Some _ => _ | None => _ end); [apply IH|].
  set (p1 := set_lastMarketCap _ p). specialize (IH p1 (SetMarketCap t v st)).
  destruct (capLoop ts caps tickers p1 _) as [[p' st'] u]. cbn in *. etransitivity; [|exact IH]. by repeat split.
Qed.

Lemma earningsLoop_data ts cal tickers : forall p st, sameData p (earningsLoop ts cal tickers p st).1.1.
Proof.
  induction tickers as [|t tickers IH]; intros p st; cbn [earningsLoop]; [reflexivity|].
  destruct (_ || _); [|apply IH].
  set (p1 := set_lastBlackout _ _ p). set (st1 := SetEarningsBlackout _ _ _). specialize (IH p1 st1).
  destruct (earningsLoop ts cal tickers p1 st1) as [[p' st'] u]. cbn in *. etransitivity; [|exact IH]. by repeat split.
Qed.

Lemma capStep_data ts p st : sameData p (capStep ts p st).1.1.
Proof. unfold capStep. destruct (0 <? _)%nat; [apply capLoop_data|reflexivity]. Qed.

Lemma earningsStep_data ts p st : sameData p (earningsStep ts p st).1.1.
Proof. unfold earningsStep. destruct (0 <? _)%nat; [apply earningsLoop_data|reflexivity]. Qed.

Lemma capStep_known ts D p st :
  uniformDimension (cp_sf1Rows p) -> After (dateOnly ts) D = false ->
  capStep ts (truncate D p) st = let '(p', st', u) := capStep ts p st in (truncate D p', st', u).
Proof.
  intros Hu Hd. unfold capStep. cbn [cp_sf1Rows cp_dimension cp_tickers truncate].
  rewrite LoadSF1_known by (done || apply dateOnly_idem). rewrite capLoop_known. by destruct (0 <? _)%nat.
Qed.

Lemma earningsStep_known ts D p st :
  After (dateOnly ts) D = false ->
  earningsStep ts (truncate D p) st = let '(p', st', u) := earningsStep ts p st in (truncate D p', st', u).
Proof.
  intros Hd. unfold earningsStep. cbn [cp_earnings cp_blackout cp_tickers truncate].
  rewrite LoadEarnings_known by (done || apply dateOnly_idem). rewrite earningsLoop_known. by destruct (0 <? _)%nat.
Qed.

Lemma OnBar_data p st ts : sameData p (Provider_OnBar p st ts).1.1.
Proof.
  unfold Provider_OnBar. pose proof (regimeStep_data ts p st) as H1. destruct (regimeStep ts p st) as [[p1 st1] u1].
  pose proof (capStep_data ts p1 st1) as H2. destruct (capStep ts p1 st1) as [[p2 st2] u2].
  pose proof (earningsStep_data ts p2 st2) as H3. destruct (earningsStep ts p2 st2) as [[p3 st3] u3].
  cbn in *. do 2 (etransitivity; [eassumption|]). done.
Qed.

Lemma OnBar_known p st ts D :
  uniformDimension (cp_sf1Rows p) -> IsZeroTime (dateOnly ts) = false -> After (dateOnly ts) D = false ->
  Provider_OnBar (truncate D p) st ts =
    let '(p', st', u) := Provider_OnBar p st ts in (truncate D p', st', u).
Proof.
  intros Hu Hz Hd. unfold Provider_OnBar. rewrite regimeStep_known by done.
  pose proof (regimeStep_data ts p st) as (_ & S2 & _).
  destruct (regimeStep ts p st) as [[p1 st1] u1]. cbn [fst] in S2.
  rewrite capStep_known by (done || by rewrite S2). destruct (capStep ts p1 st1) as [[p2 st2] u2].
  rewrite earningsStep_known by done. by destruct (earningsStep ts p2 st2) as [[p3 st3] u3].
Qed.

(** ** A run of the provider *)

(** One heartbeat after another. *)
Fixpoint feed (p : ContextProvider) (st : SharedContextState) (tss : list time)
    : ContextProvider * SharedContextState * list ContextUpdates :=
  match tss with
  | [] => (p, st, [])
  | ts :: tss =>
      let '(p, st, u) := Provider_OnBar p st ts in
      let '(p, st, us) := feed p st tss in
      (p, st, u :: us)
  end.

Lemma feed_known D tss : forall p st,
  uniformDimension (cp_sf1Rows p) ->
  Forall (fun ts => IsZeroTime (dateOnly ts) = false /\ After (dateOnly ts) D = false) tss ->
  feed (truncate D p) st tss = let '(p', st', us) := feed p st tss in (truncate D p', st', us).
Proof.
  induction tss as [|ts tss IH]; intros p st Hu Ht; cbn [feed]; [done|].
  apply Forall_cons_1 in Ht as [[Hz Hd] Ht]. rewrite OnBar_known by done.
  pose proof (OnBar_data p st ts) as (_ & S2 & _). destruct (Provider_OnBar p st ts) as [[p1 st1] u1]. cbn [fst] in S2.
  rewrite IH by (done || by rewrite S2). by destruct (feed p1 st1 tss) as [[p2 st2] us].
Qed.

Lemma NewContextProvider_truncate D spy sf1 er tickers dim n :
  truncate D (NewContextProvider spy sf1 er tickers dim n) =
  NewContextProvider (knownBy spy_Date D spy) (knownBy sf_DateKey D sf1)
    (knownBy er_ReportDate (addDays D (if n =? 0 then earningsBlackoutDays else n)) er) tickers dim n.
Proof. unfold truncate, NewContextProvider, knownBy at 1. cbn. by rewrite sortBy_filter. Qed.

Lemma in64_date_notZero ts : in64 (t_ns ts) -> IsZeroTime (dateOnly ts) = false.
Proof.
  intros H. unfold IsZeroTime, dateOnly, zeroNs. cbn. apply Z.eqb_neq.
  pose proof (Z.mod_pos_bound (t_ns ts) dayNs eq_refl). unfold dayNs in *. rlia.
Qed.

(** ** The published updates *)

Definition replayRegime (u : option RegimeUpdate) (st : SharedContextState) : SharedContextState :=
  match u with None => st | Some u => SetRegime (ru_Value u) st end.

(** What a subscriber of the bus makes of the updates of one bar. *)
Definition replay (st : SharedContextState) (u : ContextUpdates) : SharedContextState :=
  let st := replayRegime (u_Regime u) st in
  let st := foldl (fun st c => SetMarketCap (mu_Ticker c) (mu_ValueDec c) st) st (u_MarketCap u) in
  foldl (fun st e => SetEarningsBlackout (eu_Ticker e) (eu_Value e) st) st (u_Earnings u).

(** The provider remembers what it published last. *)
Definition inStep (p : ContextProvider) (st : SharedContextState) : Prop :=
  cs_regime st = default RegimeNeutral (cp_lastRegime p) /\
  (forall t, cp_lastBlackoutSeen p !! t = Some true ->
     cs_earningsBlackout st !! t = cp_lastBlackout p !! t /\ is_Some (cp_lastBlackout p !! t)).

Lemma regimeStep_replay ts p st p' st' u :
  inStep p st -> regimeStep ts p st = (p', st', u) -> st' = replayRegime u st /\ inStep p' st'.
Proof.
  intros [H1 H2]. unfold regimeStep. destruct (_ <=? _)%nat; [|intros [= <- <- <-]; done].
  destruct (cp_lastRegime p) as [r|] eqn:Er; [|intros [= <- <- <-]; done].
  destruct (String.eqb_spec r (ComputeRegime (cp_spyHistory p) (dateOnly ts))) as [<-|_];
    cbn [negb]; intros [= <- <- <-]; [|done]. split; [|split; [by cbn; rewrite Er|done]]. cbn in H1.
  cbn. destruct st as [g m b]. cbn in *. unfold SetRegime. cbn. by rewrite H1.
Qed.

Lemma capLoop_replay ts caps tickers : forall p st p' st' us,
  inStep p st -> capLoop ts caps tickers p st = (p', st', us) ->
  st' = foldl (fun st c => SetMarketCap (mu_Ticker c) (mu_ValueDec c) st) st us /\ inStep p' st'.
Proof.
  induction tickers as [|t tickers IH]; intros p st p' st' us Hi; cbn [capLoop]; [intros [= <- <- <-]; done|].
  destruct (caps !! t) as [v|]; [|by apply IH].
  destruct (match cp_lastMarketCap p !! t with Some _ => _ | None => _ end); [by apply IH|].
  destruct (capLoop ts caps tickers _ _) as [[p1 st1] us1] eqn:E. intros [= <- <- <-]. cbn [foldl].
  by apply IH in E.
Qed.

Lemma earningsLoop_replay ts cal tickers : forall p st p' st' us,
  inStep p st -> earningsLoop ts cal tickers p st = (p', st', us) ->
  st' = foldl (fun st e => SetEarningsBlackout (eu_Ticker e) (eu_Value e) st) st us /\ inStep p' st'.
Proof.
  induction tickers as [|t tickers IH]; intros p st p' st' us Hi; cbn [earningsLoop]; [intros [= <- <- <-]; done|].
  set (v := default false (cal !! t)). destruct Hi as [H1 H2].
  destruct (_ || _) eqn:Ec.
  - destruct (earningsLoop ts cal tickers _ _) as [[p1 st1] us1] eqn:E. intros [= <- <- <-]. cbn [foldl].
    apply IH in E; [done|]. split; [done|]. cbn. intros x. destruct (decide (x = t)) as [->|Hx].
    + by rewrite !lookup_insert_eq.
    + rewrite !lookup_insert_ne by done. apply H2.
  - apply orb_false_iff in Ec as [Es Ev]. destruct (cp_lastBlackoutSeen p !! t) as [[]|] eqn:Eseen; try done.
    destruct (H2 t Eseen) as [Hb [w Hw]]. rewrite Hw in Ev, Hb. cbn in Ev. apply negb_false_iff, eqb_prop in Ev as ->.
    assert (SetEarningsBlackout t v st = st) as Est
      by (destruct st as [g m b]; cbn in *; unfold SetEarningsBlackout; cbn; f_equal; by apply insert_id).
    rewrite Est. intros E. apply IH in E; [done|]. done.
Qed.

Lemma OnBar_replay p st ts p' st' u :
  inStep p st -> Provider_OnBar p st ts = (p', st', u) -> st' = replay st u /\ inStep p' st'.
Proof.
  intros Hi. unfold Provider_OnBar. destruct (regimeStep ts p st) as [[p1 st1] u1] eqn:E1.
  destruct (regimeStep_replay _ _ _ _ _ _ Hi E1) as [S1 H1].
  destruct (capStep ts p1 st1) as [[p2 st2] u2] eqn:E2.
  assert (S2 : st2 = foldl (fun st c => SetMarketCap (mu_Ticker c) (mu_ValueDec c) st) st1 u2 /\ inStep p2 st2).
  { unfold capStep in E2. destruct (0 <? _)%nat; [by eapply capLoop_replay|]. by injection E2 as <- <- <-. }
  destruct S2 as [S2 H2]. destruct (earningsStep ts p2 st2) as [[p3 st3] u3] eqn:E3. intros [= <- <- <-].
  assert (S3 : st3 = foldl (fun st e => SetEarningsBlackout (eu_Ticker e) (eu_Value e) st) st2 u3 /\ inStep p3 st3).
  { unfold earningsStep in E3. destruct (0 <? _)%nat; [by eapply earningsLoop_replay|]. by injection E3 as <- <- <-. }
  destruct S3 as [S3 H3]. split; [|done]. unfold replay. cbn. by rewrite S3, S2, S1.
Qed.

Lemma feed_replay tss : forall p st p' st' us,
  inStep p st -> feed p st tss = (p', st', us) -> st' = foldl replay st us.
Proof.
  induction tss as [|ts tss IH]; intros p st p' st' us Hi; cbn [feed]; [by intros [= <- <- <-]|].
  destruct (Provider_OnBar p st ts) as [[p1 st1] u1] eqn:E1. destruct (feed p1 st1 tss) as [[p2 st2] us2] eqn:E2.
  intros [= <- <- <-]. destruct (OnBar_replay _ _ _ _ _ _ Hi E1) as [-> H1]. cbn [foldl]. by eapply IH.
Qed.

Lemma NewContextProvider_inStep spy sf1 er tickers dim n :
  inStep (NewContextProvider spy sf1 er tickers dim n) NewSharedContextState.
Proof. split; [done|]. cbn. intros t. by rewrite lookup_empty. Qed.

(** ** The latest filing per ticker *)

Section Latest.
Context (t : string).

Fixpoint lastRow (l : list SF1Row) : option SF1Row :=
  match l with
  | [] => None
  | r :: l => match lastRow l with Some r' => Some r' | None => if String.eqb (sf_Ticker r) t then Some r else None end
  end.

Lemma caps_lookup l : forall out : gmap string dec,
  foldl (fun out r => <[sf_Ticker r := decFromFloatStr (sf_MarketCap r)]> out) out l !! t =
  match lastRow l with Some r => Some (decFromFloatStr (sf_MarketCap r)) | None => out !! t end.
Proof.
  induction l as [|r l IH]; intros out; cbn [foldl lastRow]; [done|]. rewrite IH.
  destruct (lastRow l); [done|]. destruct (String.eqb_spec (sf_Ticker r) t) as [<-|Hne]; [by rewrite lookup_insert_eq|].
  by rewrite lookup_insert_ne.
Qed.

Lemma lastRow_In l r : lastRow l = Some r -> In r l.
Proof.
  induction l as [|x l IH]; cbn; [done|]. destruct (lastRow l) as [y|]; [intros [= ->]; auto|].
  destruct (String.eqb _ _); intros [= ->]. by left.
Qed.

(** In a sorted list the last row of a ticker is its latest; a new row takes
    over unless the latest one is strictly later. *)
Lemma lastRow_insertBy key x l : keySorted key l ->
  lastRow (insertBy key x l) =
  if String.eqb (sf_Ticker x) t then
    match lastRow l with Some b => if key x <? key b then Some b else Some x | None => Some x end
  else lastRow l.
Proof.
  induction 1 as [|y l Hy Hl IH]; cbn [insertBy]; [done|].
  destruct (Z.ltb_spec (key x) (key y)) as [Hlt|Hge].
  - change (lastRow (x :: y :: l)) with
      (match lastRow (y :: l) with Some r' => Some r' | None => if String.eqb (sf_Ticker x) t then Some x else None end).
    destruct (lastRow (y :: l)) as [b|] eqn:Eb; [|done].
    assert (key y <= key b).
    { apply lastRow_In in Eb as [<-|Hb]; [lia|]. rewrite List.Forall_forall in Hy. by apply Hy. }
    destruct (Z.ltb_spec (key x) (key b)); [by destruct (String.eqb _ _)|lia].
  - cbn [lastRow]. rewrite IH. destruct (String.eqb (sf_Ticker x) t); [|done].
    destruct (lastRow l) as [b|]; [by destruct (key x <? key b)|].
    destruct (String.eqb (sf_Ticker y) t); [|done]. by destruct (Z.ltb_spec (key x) (key y)); [lia|].
Qed.
End Latest.

(** The filing date a row is ranked by. *)
Definition filedOn (r : SF1Row) : Z := t_ns (dateOnly (sf_DateKey r)).

(** [r] is the latest row selected by [sel], the last one filed on its date. *)
Definition latestRow (sel : SF1Row -> bool) (rows : list SF1Row) (r : SF1Row) : Prop :=
  exists pre post, rows = pre ++ r :: post /\ sel r = true /\
    Forall (fun r' => sel r' = true -> filedOn r' <= filedOn r) pre /\
    Forall (fun r' => sel r' = true -> filedOn r' < filedOn r) post.

Lemma lastRow_latest t (elig : SF1Row -> bool) rows :
  match lastRow t (sortBy filedOn (List.filter elig rows)) with
  | Some r => latestRow (fun r => elig r && String.eqb (sf_Ticker r) t) rows r
  | None => Forall (fun r => elig r && String.eqb (sf_Ticker r) t = false) rows
  end.
Proof.
  induction rows as [|x rows IH] using rev_ind; [apply List.Forall_nil|].
  rewrite List.filter_app. cbn [List.filter]. destruct (elig x) eqn:Ex.
  - rewrite sortBy_snoc, lastRow_insertBy by apply sortBy_sorted.
    destruct (String.eqb (sf_Ticker x) t) eqn:Et.
    + destruct (lastRow t _) as [b|].
      * destruct IH as (pre & post & -> & Hb & H1 & H2). destruct (Z.ltb_spec (filedOn x) (filedOn b)).
        -- exists pre, (post ++ [x]). rewrite <- app_assoc. splits; [done|done|done|].
           apply List.Forall_app. split; [done|]. by apply List.Forall_cons.
        -- exists (pre ++ b :: post), []. splits; [done|by rewrite Ex, Et| |apply List.Forall_nil].
           apply List.Forall_app. split; [|apply List.Forall_cons; [done|]];
             (eapply List.Forall_impl; [|eassumption]); intros a Ha Hs; specialize (Ha Hs); lia.
      * exists rows, []. splits; [done|by rewrite Ex, Et| |apply List.Forall_nil].
        eapply List.Forall_impl; [|exact IH]. intros a Ha Hs. congruence.
    + destruct (lastRow t _) as [b|].
      * destruct IH as (pre & post & -> & Hb & H1 & H2). exists pre, (post ++ [x]). rewrite <- app_assoc.
        splits; [done|done|done|]. apply List.Forall_app. split; [done|]. apply List.Forall_cons; [|done].
        rewrite Ex, Et. done.
      * apply List.Forall_app. split; [done|]. apply List.Forall_cons; [by rewrite Ex, Et|done].
  - rewrite app_nil_r. destruct (lastRow t _) as [b|].
    + destruct IH as (pre & post & -> & Hb & H1 & H2). exists pre, (post ++ [x]). rewrite <- app_assoc.
      splits; [done|done|done|]. apply List.Forall_app. split; [done|]. apply List.Forall_cons; [|done].
      rewrite Ex. done.
    + apply List.Forall_app. split; [done|]. apply List.Forall_cons; [by rewrite Ex|done].
Qed.

Lemma LoadEarnings_lookup rows c n t :
  LoadEarningsCalendar rows c n !! t =
  if existsb (fun r => inBlackout (dateOnly c) n r && String.eqb (er_Ticker r) t) rows then Some true else None.
Proof.
  unfold LoadEarningsCalendar. rewrite <- (lookup_empty (M := gmap string) (A := bool) t).
  generalize (∅ : gmap string bool) as out. induction rows as [|r rows IH]; intros out; cbn [foldl existsb]; [done|].
  rewrite IH. destruct (existsb _ rows); [by rewrite orb_true_r|]. rewrite orb_false_r.
  destruct (inBlackout _ _ r); [|done]. cbn [andb].
  destruct (String.eqb_spec (er_Ticker r) t) as [<-|Hne]; [by rewrite lookup_insert_eq|by rewrite lookup_insert_ne].
Qed.

(** ** Properties *)

(** No look-ahead: for heartbeats up to date [D], the context the strategies see
    and every update published are those of a provider that was only given the
    prices and filings dated by [D] and the earnings dates of the blackout
    window around [D] (a filing table has a dimension column or has none). *)
Theorem context_no_lookahead spy sf1 er tickers dim n D tss :
  uniformDimension sf1 -> Forall (fun ts => in64 (t_ns ts) /\ After (dateOnly ts) D = false) tss ->
  let window := if n =? 0 then earningsBlackoutDays else n in
  let full := feed (NewContextProvider spy sf1 er tickers dim n) NewSharedContextState tss in
  let known := feed (NewContextProvider (knownBy spy_Date D spy) (knownBy sf_DateKey D sf1)
                       (knownBy er_ReportDate (addDays D window) er) tickers dim n) NewSharedContextState tss in
  known.1.2 = full.1.2 /\ known.2 = full.2.
Proof.
  intros Hu Ht. cbv zeta. rewrite <- NewContextProvider_truncate, feed_known; [|done|].
  - by destruct (feed _ _ _) as [[p st] us].
  - eapply List.Forall_impl; [|exact Ht]. intros ts [H1 H2]. split; [by apply in64_date_notZero|done].
Qed.

(** The published updates determine the context: a subscriber that applies the
    updates of a run in order, starting from the neutral state, ends with the
    shared state the strategies were given, although unchanged values are
    never published again. *)
Theorem context_updates_determine_state spy sf1 er tickers dim n tss p st us :
  feed (NewContextProvider spy sf1 er tickers dim n) NewSharedContextState tss = (p, st, us) ->
  st = foldl replay NewSharedContextState us.
Proof. apply feed_replay, NewContextProvider_inStep. Qed.

(** The market cap of a ticker is that of its latest eligible filing on or
    before the date (the last row of the table among those filed on the same
    day), absent when there is none; a ticker is in blackout exactly when one
    of its report dates lies within the window. *)
Theorem context_tables sf1 er asOf dim n t :
  let sel r := capEligible (existsb sf_HasDimension sf1) (orDefault dim) (dateOnly asOf) r && String.eqb (sf_Ticker r) t in
  match LoadSF1MarketCaps sf1 asOf dim !! t with
  | Some v => exists r, latestRow sel sf1 r /\ v = decFromFloatStr (sf_MarketCap r)
  | None => Forall (fun r => sel r = false) sf1
  end /\
  (LoadEarningsCalendar er asOf n !! t = Some true <->
   exists r, In r er /\ er_Ticker r = t /\
     t_ns (dateOnly asOf) - n * dayNs <= t_ns (dateOnly (er_ReportDate r)) <= t_ns (dateOnly asOf) + n * dayNs).
Proof.
  cbv zeta. split.
  - unfold LoadSF1MarketCaps. rewrite caps_lookup.
    pose proof (lastRow_latest t (capEligible (existsb sf_HasDimension sf1) (orDefault dim) (dateOnly asOf)) sf1) as H.
    unfold filedOn in H at 1. destruct (lastRow t _) as [r|]; [by exists r|]. by rewrite lookup_empty.
  - rewrite LoadEarnings_lookup. destruct (existsb _ er) eqn:E.
    + apply existsb_exists in E as (r & Hr & E). apply andb_true_iff in E as [Eb Et]. apply String.eqb_eq in Et.
      split; [intros _|done]. exists r. splits; try done; unfold inBlackout, Before, After, addDays in Eb; cbn in *; breflect; lia.
    + split; [done|]. intros (r & Hr & Et & Hw). exfalso. apply not_true_iff_false in E. apply E.
      apply existsb_exists. exists r. split; [done|]. rewrite Et, String.eqb_refl, andb_true_r.
      unfold inBlackout, Before, After, addDays. cbn. apply andb_true_iff.
      split; apply negb_true_iff, Z.ltb_ge; cbn in *; lia.
Qed.

(** One row dated in the future that carries a dimension column hides the
    rows of the past that have none: the column's presence is read off the
    whole table. *)
Definition demoCap (day : Z) (hasDim : bool) : SF1Row :=
  mkSF1 "AAPL" (mkTime (day * dayNs) 0) (flit 1000 1) true (if hasDim then "MRT" else "") hasDim.

Theorem future_dimension_hides_caps :
  LoadSF1MarketCaps [demoCap 1 false] (mkTime (2 * dayNs) 0) "MRT" !! "AAPL" <> None /\
  LoadSF1MarketCaps [demoCap 1 false; demoCap 9 true] (mkTime (2 * dayNs) 0) "MRT" !! "AAPL" = None.
Proof. split; [vm_compute; discriminate|vm_compute; reflexivity]. Qed.

(** A report date after the bar's date is consulted. *)
Theorem earnings_consult_the_future :
  LoadEarningsCalendar [mkEarnings "AAPL" (mkTime (7 * dayNs) 0)] (mkTime (2 * dayNs) 0) 5 !! "AAPL" = Some true.
Proof. vm_compute. reflexivity. Qed.

Definition demoRows : list SF1Row := [demoCap 1 true; demoCap 3 true; demoCap 9 true].
Definition demoReports : list EarningsRow := [mkEarnings "AAPL" (mkTime (8 * dayNs) 0)].
Definition demoDays : list time := map (fun d => mkTime (d * dayNs + 5) 0) [1; 2; 3; 4].

Lemma context_no_lookahead_witness :
  let full := feed (NewContextProvider [] demoRows demoReports ["AAPL"] "MRT" 5) NewSharedContextState demoDays in
  let D := mkTime (4 * dayNs) 0 in
  let known := feed (NewContextProvider (knownBy spy_Date D []) (knownBy sf_DateKey D demoRows)
                       (knownBy er_ReportDate (addDays D 5) demoReports) ["AAPL"] "MRT" 5) NewSharedContextState demoDays in
  known.1.2 = full.1.2 /\ known.2 = full.2.
Proof.
  apply (context_no_lookahead [] demoRows demoReports ["AAPL"] "MRT" 5 (mkTime (4 * dayNs) 0) demoDays).
  - exists true. repeat apply List.Forall_cons; try apply List.Forall_nil; reflexivity.
  - repeat apply List.Forall_cons; try apply List.Forall_nil; (split; [split; vm_compute; discriminate|reflexivity]).
Defined.

Lemma context_updates_determine_state_witness :
  exists p st us, feed (NewContextProvider [] demoRows demoReports ["AAPL"] "MRT" 5) NewSharedContextState demoDays = (p, st, us) /\
    st = foldl replay NewSharedContextState us.
Proof.
  destruct (feed (NewContextProvider [] demoRows demoReports ["AAPL"] "MRT" 5) NewSharedContextState demoDays) as [[p st] us] eqn:E.
  exists p, st, us. split; [reflexivity|]. exact (context_updates_determine_state _ _ _ _ _ _ _ _ _ _ E).
Defined.
