(* ===== verification/Engine.v ===== *)
(** * The backtest engine (src/internal/engine)

    The assembler of engine.go: configuration, strategy dispatch, seeding of
    the queue, the three event handlers, end-of-run liquidation and the
    result, over the loop, the executor, the account, the sampler, the gate
    and the context of the other files.  A strategy is arbitrary code over a
    state of its own that may submit orders and read its position and the
    settled balance through the submitter: it is a finite tree of such calls,
    so that the theorems quantify over every strategy; the scripted strategy
    of strategy.go is one of them.  The bar feed is the list of instruments it
    returns, or its error.  [cfg.Progress] must not touch the engine and is
    left out. *)

From stdpp Require Import gmap strings list sorting.
From S2P Require Import Prelude Fixed Money Domain Float64 Calendar EventQueue Loop Accounting SimExec RiskGate Context Sampler.
Set Default Goal Selector "!".
#[local] Open Scope string_scope.
#[local] Open Scope Z_scope.
#[local] Open Scope list_scope.
#[local] Abbreviation length := List.length.

(** [time.Date] at midnight UTC. *)
Definition dateMidnightUTC (d : Date) : time := mkTime ((dayOf d - unixDay) * dayNs) 0.

(** ** The strategy seam (strategy.go) *)

Record StrategyContext : Set := mkStrategyContext {
  sc_Regime : string;
  sc_AsOf : time;
  sc_MarketCapUSD : gmap string float64;
  sc_EarningsBlackout : gmap string bool
}.

Record Intent : Set := mkIntent { in_Date : time; in_Ticker : string; in_Side : SignalSide; in_Qty : Qty }.

Record InstrumentBars : Set := mkInstrument { ib_Symbol : string; ib_Bars : list Bar }.

(** A gate rejection as the engine keeps it. *)
Record RejectedOrder : Set := mkRejected {
  ro_StrategyID : string; ro_Symbol : string; ro_SignalSide : SignalSide; ro_Qty : Qty; ro_RuleName : string; ro_TS : time }.

(** The calls a strategy may make while it handles a bar. *)
Inductive SProg (St : Type) : Type :=
| SDone (st : St) (r : option error)
| SSubmitMarket (strategyID symbol : string) (side : OrderSide) (qty : Qty) (reason : string) (ts : time)
    (k : res string -> SProg St)
| SSubmitSignal (strategyID symbol : string) (signalSide : SignalSide) (orderSide : OrderSide) (qty : Qty)
    (reason : string) (ts : time) (k : res (string * bool) -> SProg St)
| SNetPosition (symbol : string) (k : Qty -> SProg St)
| SEquityFloat (k : float64 -> SProg St).
Arguments SDone {St}.
Arguments SSubmitMarket {St}.
Arguments SSubmitSignal {St}.
Arguments SNetPosition {St}.
Arguments SEquityFloat {St}.

(** [Strategy] with the optional capabilities the engine probes for. *)
Record Strategy (St : Type) : Type := mkStrategy {
  s_ID : string;
  s_OnBar : St -> Bar -> SProg St;
  s_InjectContext : option (StrategyContext -> St -> St);
  s_SymbolsScoped : option (list string);
  s_WarmupBars : option (string -> list Bar -> St -> St);
  s_WarmupBatch : option (list Bar -> St -> St)
}.
Arguments mkStrategy {St}.
Arguments s_ID {St}.
Arguments s_OnBar {St}.
Arguments s_InjectContext {St}.
Arguments s_SymbolsScoped {St}.
Arguments s_WarmupBars {St}.
Arguments s_WarmupBatch {St}.

(** ** result.go *)

Abbreviation FillProfile := string (only parsing).
Definition ProfileCloseFill : FillProfile := "close-fill".
Definition ProfileRealistic : FillProfile := "realistic".
Definition FillProfile_IsValid (p : FillProfile) : bool := String.eqb p ProfileCloseFill || String.eqb p ProfileRealistic.

Record StrategySpec : Set := mkStrategySpec { sp_ID : string; sp_Intents : list Intent }.

(** A prebuilt strategy comes with its current state; [None] is a nil entry. *)
Record Config (St : Type) : Type := mkConfig {
  cfg_Tickers : list string;
  cfg_Start : Date;
  cfg_End : Date;
  cfg_StartingBalance : Money;
  cfg_Profile : FillProfile;
  cfg_Realistic : RealisticConfig;
  cfg_Strategies : list StrategySpec;
  cfg_Prebuilt : list (option (Strategy St * St));
  cfg_Gate : option Gate;
  cfg_Context : option ContextProvider;
  cfg_SPYSymbol : string;
  cfg_Warmup : option (gmap string (list Bar))
}.
Arguments mkConfig {St}.
Arguments cfg_Tickers {St}.
Arguments cfg_Start {St}.
Arguments cfg_End {St}.
Arguments cfg_StartingBalance {St}.
Arguments cfg_Profile {St}.
Arguments cfg_Realistic {St}.
Arguments cfg_Strategies {St}.
Arguments cfg_Prebuilt {St}.
Arguments cfg_Gate {St}.
Arguments cfg_Context {St}.
Arguments cfg_SPYSymbol {St}.
Arguments cfg_Warmup {St}.

Record Result : Set := mkResult {
  res_StartingBalance : Money;
  res_FinalBalance : Money;
  res_TotalPnL : Money;
  res_Profile : FillProfile;
  res_Strategies : list string;
  res_Orders : list Order;
  res_Fills : list Fill;
  res_RejectedOrders : list RejectedOrder;
  res_Positions : list PositionSnap;
  (** [AccountStatePoint] *)
  res_AccountStates : list (time * Money);
  res_TotalEquityCurve : list EquityPoint;
  res_StrategyEquity : list (string * list EquityPoint);
  res_BarsProcessed : Z;
  res_SampledDays : Z;
  res_FirstTS : time;
  res_LastTS : time
}.

Record OrderCounts : Set := mkCounts { NumOrders : Z; NumFilledOrders : Z; NumRejectedOrders : Z; NumPositions : Z }.

(** [strategyID == "" || x == strategyID] *)
Definition inScope (strategyID x : string) : bool := String.eqb strategyID "" || String.eqb x strategyID.

Definition countIf {A} (P : A -> bool) (l : list A) : Z := Z.of_nat (length (List.filter P l)).

Definition Counts (r : Result) (strategyID : string) : OrderCounts :=
  let filledByOrder : gset string :=
    list_to_set (map f_ClientOrderID (List.filter (fun f => inScope strategyID (f_StrategyID f)) (res_Fills r))) in
  let orders := List.filter (fun o => inScope strategyID (o_StrategyID o)) (res_Orders r) in
  mkCounts (Z.of_nat (length orders))
    (countIf (fun o => bool_decide (o_ClientOrderID o ∈ filledByOrder)) orders)
    (countIf (fun o => String.eqb (o_Status o) OrderStatusRejected) orders +
     countIf (fun j => inScope strategyID (ro_StrategyID j)) (res_RejectedOrders r))
    (countIf (fun p => inScope strategyID (ps_StrategyID p)) (res_Positions r)).

(** ** Strategy dispatch (engine.go: buildDispatch) *)

Fixpoint mergeLoop (fuel : nat) (a b out : list nat) : list nat :=
  match fuel with
  | O => out
  | S fuel =>
      match a, b with
      | x :: a', y :: b' =>
          if (x <? y)%nat then mergeLoop fuel a' b (out ++ [x]) else mergeLoop fuel a b' (out ++ [y])
      | _, _ => (out ++ a) ++ b
      end
  end.

Definition mergeRegistrationOrder (a b : list nat) : list nat :=
  if (length b =? 0)%nat then a else mergeLoop (S (length a + length b)) a b [].

(** [for _, sym := range ss.SymbolsScoped()] with the [seen] set. *)
Fixpoint scopeLoop (i : nat) (seen : gset string) (syms : list string) (scoped : gmap string (list nat)) : gmap string (list nat) :=
  match syms with
  | [] => scoped
  | sym :: syms =>
      if bool_decide (sym ∈ seen) then scopeLoop i seen syms scoped
      else scopeLoop i ({[sym]} ∪ seen) syms (<[sym := default [] (scoped !! sym) ++ [i]]> scoped)
  end.

(** The loop over the strategies' declared scopes. *)
Fixpoint dispatchLoop (i : nat) (scopes : list (option (list string))) (broadcast : list nat)
    (scoped : gmap string (list nat)) : list nat * gmap string (list nat) :=
  match scopes with
  | [] => (broadcast, scoped)
  | None :: scopes => dispatchLoop (S i) scopes (broadcast ++ [i]) scoped
  | Some syms :: scopes => dispatchLoop (S i) scopes broadcast (scopeLoop i ∅ syms scoped)
  end.

Definition buildDispatch (scopes : list (option (list string))) (registration : list string)
    : gmap string (list nat) * list nat :=
  let '(broadcast, scoped) := dispatchLoop 0 scopes [] ∅ in
  let dispatch :=
    foldl (fun d sym => match d !! sym with
                        | Some _ => d
                        | None => <[sym := mergeRegistrationOrder broadcast (default [] (scoped !! sym))]> d
                        end) ∅ registration in
  (dispatch, broadcast).

Definition strategiesFor (dispatch : gmap string (list nat)) (broadcast : list nat) (sym : string) : list nat :=
  match dispatch !! sym with Some ix => ix | None => broadcast end.

(** ** The in-memory feed (feed.go: SliceFeed) *)

Definition SliceFeed_Load (instruments : list InstrumentBars) (tickers : list string) : list InstrumentBars :=
  let bySym : gmap string InstrumentBars := foldl (fun m ib => <[ib_Symbol ib := ib]> m) ∅ instruments in
  map (fun t => match bySym !! t with Some ib => ib | None => mkInstrument t [] end) tickers.

(** ** The engine's state *)

(** What the executor's sink acts on: the account, whose bus holds the
    account states the recorder is subscribed to, and the recorded fills. *)
Record World : Set := mkWorld { w_acct : Account; w_fills : list Fill }.

(** [fillSink.EmitFill]: settle, then publish to the recorder. *)
Definition fillSink (f : Fill) : eff World unit :=
  fun w =>
    let '(a, r) := Account_ApplyFill f (w_acct w) in
    match r with
    | Err err => (mkWorld a (w_fills w), Err err)
    | Ok _ => (mkWorld a (w_fills w ++ [f]), Ok tt)
    end.

Section EngineDefs.
Context {St : Type}.

Record Engine : Type := mkEngine {
  en_exec : SimExecutor World;
  en_smplr : EquitySampler;
  en_orders : list Order;
  en_rejected : list RejectedOrder;
  en_lastBar : gmap string Bar;
  en_states : list St;
  en_ctx : option (ContextProvider * SharedContextState);
  en_barsProcessed : Z;
  en_sampledDays : Z
}.

(** What assembly fixes for the whole run. *)
Record Setup : Type := mkSetup {
  su_cfg : Config St;
  su_model : FillModel;
  su_strategies : list (Strategy St);
  su_dispatch : gmap string (list nat);
  su_broadcast : list nat;
  su_spySym : string;
  su_totalBars : Z;
  su_firstTS : time;
  su_lastTS : time
}.

Definition set_exec (x : SimExecutor World) (e : Engine) : Engine :=
  mkEngine x (en_smplr e) (en_orders e) (en_rejected e) (en_lastBar e) (en_states e) (en_ctx e) (en_barsProcessed e) (en_sampledDays e).
Definition set_smplr (s : EquitySampler) (e : Engine) : Engine :=
  mkEngine (en_exec e) s (en_orders e) (en_rejected e) (en_lastBar e) (en_states e) (en_ctx e) (en_barsProcessed e) (en_sampledDays e).
Definition record_order (o : Order) (e : Engine) : Engine :=
  mkEngine (en_exec e) (en_smplr e) (en_orders e ++ [o]) (en_rejected e) (en_lastBar e) (en_states e) (en_ctx e) (en_barsProcessed e) (en_sampledDays e).
Definition set_rejected (l : list RejectedOrder) (e : Engine) : Engine :=
  mkEngine (en_exec e) (en_smplr e) (en_orders e) l (en_lastBar e) (en_states e) (en_ctx e) (en_barsProcessed e) (en_sampledDays e).
Definition set_lastBar (b : Bar) (e : Engine) : Engine :=
  mkEngine (en_exec e) (en_smplr e) (en_orders e) (en_rejected e) (<[bar_Symbol b := b]> (en_lastBar e)) (en_states e) (en_ctx e) (en_barsProcessed e) (en_sampledDays e).
Definition set_states (l : list St) (e : Engine) : Engine :=
  mkEngine (en_exec e) (en_smplr e) (en_orders e) (en_rejected e) (en_lastBar e) l (en_ctx e) (en_barsProcessed e) (en_sampledDays e).
Definition set_ctx (c : option (ContextProvider * SharedContextState)) (e : Engine) : Engine :=
  mkEngine (en_exec e) (en_smplr e) (en_orders e) (en_rejected e) (en_lastBar e) (en_states e) c (en_barsProcessed e) (en_sampledDays e).
Definition count_bar (e : Engine) : Engine :=
  mkEngine (en_exec e) (en_smplr e) (en_orders e) (en_rejected e) (en_lastBar e) (en_states e) (en_ctx e) (en_barsProcessed e + 1) (en_sampledDays e).
Definition count_sample (e : Engine) : Engine :=
  mkEngine (en_exec e) (en_smplr e) (en_orders e) (en_rejected e) (en_lastBar e) (en_states e) (en_ctx e) (en_barsProcessed e) (en_sampledDays e + 1).

Definition acctOf (e : Engine) : Account := w_acct (e_world (en_exec e)).

(** A call on the executor, on the account, on the sampler. *)
Definition onExec {A} (m : eff (SimExecutor World) A) : eff Engine A :=
  fun e => let '(x, r) := m (en_exec e) in (set_exec x e, r).
Definition onAcct {A} (m : eff Account A) : eff Engine A :=
  fun e =>
    let w := e_world (en_exec e) in
    let '(a, r) := m (w_acct w) in
    (set_exec (set_world (mkWorld a (w_fills w)) (en_exec e)) e, r).
Definition onSmplr {A} (m : eff EquitySampler A) : eff Engine A :=
  fun e => let '(s, r) := m (en_smplr e) in (set_smplr s e, r).

(** ** Context and warmup (dispatch.go) *)

Definition StrategyContextFrom (asOf : time) (st : SharedContextState) : StrategyContext :=
  mkStrategyContext (cs_regime st) asOf (MarketCapFloats st) (EarningsBlackouts st).

(** Every consumer gets the same snapshot. *)
Definition InjectContextInto (strategies : list (Strategy St)) (asOf : time) (st : SharedContextState) (states : list St) : list St :=
  let ctx := StrategyContextFrom asOf st in
  zip_with (fun s x => match s_InjectContext s with Some f => f ctx x | None => x end) strategies states.

(** One strategy over the sorted symbols; [barsFor] cannot fail in the batch engine. *)
Definition warmOne (s : Strategy St) (syms : list string) (barsFor : string -> res (list Bar)) (x : St) : res St :=
  match s_WarmupBars s with
  | None => Ok x
  | Some warm =>
      foldl (fun acc sym =>
        x <-? acc ;;
        hist <-? barsFor sym ;;
        Ok (if (0 <? length hist)%nat then warm sym hist x else x)) (Ok x) syms
  end.

Fixpoint warmLoop (strategies : list (Strategy St)) (skip : gset string) (syms : list string)
    (barsFor : string -> res (list Bar)) (states : list St) : res (list St) :=
  match strategies, states with
  | s :: strategies, x :: states =>
      x <-? (if bool_decide (s_ID s ∈ skip) then Ok x else warmOne s syms barsFor x) ;;
      rest <-? warmLoop strategies skip syms barsFor states ;;
      Ok (x :: rest)
  | _, _ => Ok states
  end.

Definition PrimeWarmupExcept (strategies : list (Strategy St)) (symbols : list string) (skip : gset string)
    (barsFor : string -> res (list Bar)) (states : list St) : res (list St) :=
  if (length symbols =? 0)%nat then Ok states
  else warmLoop strategies skip (merge_sort String.le symbols) barsFor states.

Definition PrimeWarmup (strategies : list (Strategy St)) (symbols : list string)
    (barsFor : string -> res (list Bar)) (states : list St) : res (list St) :=
  PrimeWarmupExcept strategies symbols ∅ barsFor states.

Definition PrimeWarmupBatchExcept (strategies : list (Strategy St)) (bars : list Bar) (skip : gset string) (states : list St) : list St :=
  if (length bars =? 0)%nat then states
  else zip_with (fun s x =>
    if bool_decide (s_ID s ∈ skip) then x
    else match s_WarmupBatch s with Some f => f bars x | None => x end) strategies states.

Definition PrimeWarmupBatch (strategies : list (Strategy St)) (bars : list Bar) (states : list St) : list St :=
  PrimeWarmupBatchExcept strategies bars ∅ states.

(** The FLAT close the strategy adapters share (adaptersupport.go); [k] is the
    adapter's code after the call. *)
Definition CloseToFlat (strategyID symbol : string) (ts : time) (reasonFor : Qty -> string)
    (k : res bool -> SProg St) : SProg St :=
  SNetPosition symbol (fun net =>
    match CloseSideFor net with
    | None => k (Ok false)
    | Some side =>
        let qty := if net <? 0 then ⊖ net else net in
        SSubmitMarket strategyID symbol side qty (reasonFor net) ts (fun r =>
          k (match r with Err err => Err err | Ok _ => Ok true end))
    end).

Definition primeWarmup (cfg : Config St) (strategies : list (Strategy St)) (states : list St) : list St :=
  match cfg_Warmup cfg with
  | None => states
  | Some bars =>
      match PrimeWarmup strategies (map fst (map_to_list bars)) (fun sym => Ok (default [] (bars !! sym))) states with
      | Ok states => states
      | Err _ => states
      end
  end.

(** ** The submitter (engine.go: orderSubmitter) *)

Definition NetPosition (a : Account) (symbol : string) : Qty :=
  match Account_Snapshot a with
  | Err _ => 0
  | Ok snap =>
      match snap_NetPositionAcrossStrategies (map_to_list (snap_Positions snap)) symbol with
      | Err _ => 0
      | Ok net => net
      end
  end.

Definition EquityFloat (a : Account) : float64 :=
  match Cash a with Err _ => Money_Float64 (a_startingBalance a) | Ok c => Money_Float64 c end.

Section Submitter.
Context (su : Setup).

Definition SubmitMarket (strategyID symbol : string) (side : OrderSide) (qty : Qty) (reason : string) (ts : time)
    : eff Engine string :=
  coid <-! onExec NewClientOrderID ;;
  let order := NewMarketOrder coid strategyID symbol side qty reason ts in
  _ <-! onExec (Submit (su_model su) order) ;;
  _ <-! eff_modify (record_order order) ;;
  eff_ret coid.

(** [engineRejectionSink]: the price is dropped. *)
Definition RecordRejection (r : Rejection) : RejectedOrder :=
  mkRejected (rj_StrategyID r) (rj_Symbol r) (rj_Side r) (rj_Qty r) (rj_RuleName r) (rj_TS r).

(** The gate's verdict; a rejection is recorded. *)
Definition gateSignal (gate : Gate) (strategyID symbol : string) (signalSide : SignalSide) (qty : Qty) (ts : time)
    : eff Engine bool :=
  e <-! eff_get ;;
  let price := default 0 (a_lastPrice (acctOf e) !! symbol) in
  snap <-! eff_lift (Account_Snapshot (acctOf e)) ;;
  let proposed := NewProposedOrder strategyID symbol signalSide qty price ts in
  let '(decision, log) := GateSignal (Some gate) proposed (SnapshotFromDomain snap) price (Some []) in
  _ <-! eff_modify (fun e => set_rejected (en_rejected e ++ map RecordRejection (default [] log)) e) ;;
  eff_ret (Approved decision).

Definition SubmitMarketSignal (strategyID symbol : string) (signalSide : SignalSide) (orderSide : OrderSide) (qty : Qty)
    (reason : string) (ts : time) : eff Engine (string * bool) :=
  ok <-! match cfg_Gate (su_cfg su) with
         | Some gate =>
             if negb (String.eqb signalSide SideFlat) && (0 <? qty)
             then gateSignal gate strategyID symbol signalSide qty ts else eff_ret true
         | None => eff_ret true
         end ;;
  if negb ok then eff_ret ("", false)
  else
    coid <-! SubmitMarket strategyID symbol orderSide qty reason ts ;;
    eff_ret (coid, true).

(** A strategy's [OnBar], run against the submitter. *)
Fixpoint runStrategy (p : SProg St) : eff Engine (St * option error) :=
  match p with
  | SDone st r => eff_ret (st, r)
  | SSubmitMarket strategyID symbol side qty reason ts k =>
      fun e => let '(e, r) := SubmitMarket strategyID symbol side qty reason ts e in runStrategy (k r) e
  | SSubmitSignal strategyID symbol signalSide orderSide qty reason ts k =>
      fun e => let '(e, r) := SubmitMarketSignal strategyID symbol signalSide orderSide qty reason ts e in runStrategy (k r) e
  | SNetPosition symbol k => fun e => runStrategy (k (NetPosition (acctOf e) symbol)) e
  | SEquityFloat k => fun e => runStrategy (k (EquityFloat (acctOf e))) e
  end.

(** One strategy by its index; the indices of the dispatch are in range. *)
Definition runStrategyAt (bar : Bar) (idx : nat) : eff Engine unit :=
  e <-! eff_get ;;
  match su_strategies su !! idx, en_states e !! idx with
  | Some s, Some x =>
      r <-! runStrategy (s_OnBar s x bar) ;;
      _ <-! eff_modify (fun e => set_states (<[idx := fst r]> (en_states e)) e) ;;
      match snd r with None => eff_ret tt | Some err => eff_fail err end
  | _, _ => eff_ret tt
  end.

Fixpoint runStrategies (bar : Bar) (ixs : list nat) : eff Engine unit :=
  match ixs with
  | [] => eff_ret tt
  | i :: ixs => _ <-! runStrategyAt bar i ;; runStrategies bar ixs
  end.

(** ** The handlers (engine.go) *)

(** [ctxProv.OnBar] and [injectContext] on the heartbeat bar. *)
Definition refreshContext (bar : Bar) (e : Engine) : Engine :=
  match en_ctx e with
  | Some (p, st) =>
      if String.eqb (bar_Symbol bar) (su_spySym su) then
        let '(p, st, _) := Provider_OnBar p st (bar_TS bar) in
        set_states (InjectContextInto (su_strategies su) (bar_TS bar) st (en_states e)) (set_ctx (Some (p, st)) e)
      else e
  | None => e
  end.

Definition timingIs (t : FillTiming) : bool :=
  match fm_Timing (su_model su), t with
  | FillNextBar, FillNextBar | FillThisBar, FillThisBar => true
  | _, _ => false
  end.

Definition handleBar (bar : Bar) : eff Engine unit :=
  _ <-! eff_modify count_bar ;;
  let nextBar := timingIs FillNextBar in
  _ <-! (if nextBar then _ <-! onExec (ProcessBar (su_model su) fillSink bar) ;; eff_ret tt else eff_ret tt) ;;
  _ <-! onAcct (eff_modify (ObserveBar bar)) ;;
  _ <-! eff_modify (set_lastBar bar) ;;
  _ <-! eff_modify (refreshContext bar) ;;
  _ <-! runStrategies bar (strategiesFor (su_dispatch su) (su_broadcast su) (bar_Symbol bar)) ;;
  if negb nextBar then _ <-! onExec (ProcessBar (su_model su) fillSink bar) ;; eff_ret tt else eff_ret tt.

Definition handleFill (f : Fill) : eff Engine unit :=
  _ <-! onAcct (Account_ApplyFill f) ;;
  onExec (eff_modify (fun x => set_world (mkWorld (w_acct (e_world x)) (w_fills (e_world x) ++ [f])) x)).

Definition handleSample (ts : time) : eff Engine unit :=
  _ <-! onExec (FlushThisBar (su_model su) fillSink) ;;
  e <-! eff_get ;;
  _ <-! onSmplr (Sample (acctOf e) ts) ;;
  eff_modify count_sample.

(** The three registered handlers; each is registered for its own kind. *)
Definition handle (ev : Event) : eff Engine unit :=
  match ev with
  | BarEvent bar => handleBar bar
  | FillEvent f => handleFill f
  | SampleEvent ts => handleSample ts
  end.

(** The loop is the executor's sequence source: a handler runs with the
    counter where the loop has it and draws what the executor used up. *)
Definition withSeq (s : Z) (e : Engine) : Engine := set_exec (set_seq s (en_exec e)) e.

Definition asHandler (h : Event -> eff Engine unit) : Handler :=
  fun e ev =>
    HNextSeq (fun s => Z.to_nat (wrapu64 (e_seq (en_exec (fst (h ev (withSeq s e)))) - s)))
      (fun s => let '(e', r) := h ev (withSeq s e) in
                HDone e' (match r with Ok _ => None | Err err => Some err end)).

Definition engineHandlers : Handlers :=
  Register (Register (Register noHandlers KindBar (asHandler handle)) KindFill (asHandler handle))
    KindSample (asHandler handle).

(** ** Liquidation, result and run (engine.go) *)

Fixpoint liquidateLoop (positions : list PositionSnap) : eff Engine unit :=
  match positions with
  | [] => eff_ret tt
  | pos :: positions =>
      match CloseSideFor (ps_SignedQty pos) with
      | None => liquidateLoop positions
      | Some side =>
          qty <-! eff_lift (Qty_Abs (ps_SignedQty pos)) ;;
          e <-! eff_get ;;
          match en_lastBar e !! ps_Symbol pos with
          | None => liquidateLoop positions
          | Some bar =>
              coid <-! onExec NewClientOrderID ;;
              let order := NewMarketOrder coid (ps_StrategyID pos) (ps_Symbol pos) side qty
                             "end-of-run liquidation" (bar_TS bar) in
              _ <-! eff_modify (record_order order) ;;
              _ <-! onExec (FillAtBar (su_model su) fillSink order bar) ;;
              liquidateLoop positions
          end
      end
  end.

Definition liquidateOpenPositions : eff Engine unit :=
  e <-! eff_get ;; liquidateLoop (OpenPositions (acctOf e)).

Definition profile (cfg : Config St) : FillProfile :=
  if String.eqb (cfg_Profile cfg) "" then ProfileRealistic else cfg_Profile cfg.

Definition buildResult (e : Engine) : res Result :=
  let cfg := su_cfg su in
  let a := acctOf e in
  final <-? Cash a ;;
  pnl <-? Money_Sub final (cfg_StartingBalance cfg) ;;
  let ids : gset string := list_to_set (map s_ID (su_strategies su)) in
  Ok (mkResult (cfg_StartingBalance cfg) final pnl (profile cfg) (merge_sort String.le (elements ids))
        (en_orders e) (w_fills (e_world (en_exec e))) (en_rejected e) (AllPositions a)
        (map (fun s => (as_TS s, as_Total s)) (default [] (a_bus a)))
        (TotalCurve (en_smplr e))
        (map (fun sid => (sid, StrategyCurve (en_smplr e) sid)) (sortedStrategyIDs (en_smplr e)))
        (en_barsProcessed e) (en_sampledDays e) (su_firstTS su) (su_lastTS su)).

(** The events a run starts with bound the iterations of the loop: no handler
    schedules another. *)
Definition runFuel (l : Loop) : nat := S (length (heap (queue l))).

Definition errRun : error := ErrOther "run".

(** The steps of [Run] after the loop has drained. *)
Definition finishRun (e : Engine) : res Result :=
  match (_ <-! onExec (FlushThisBar (su_model su) fillSink) ;; liquidateOpenPositions) e with
  | (_, Err err) => Err err
  | (e, Ok _) => buildResult e
  end.

(** [None] is a run longer than the fuel. *)
Definition Engine_Run (ctxErr : nat -> bool) (l : Loop) (e : Engine) : option (res Result) :=
  let initTS := if IsZeroTime (su_firstTS su) then dateMidnightUTC (cfg_Start (su_cfg su)) else su_firstTS su in
  match onAcct (EmitInitialState initTS) e with
  | (_, Err err) => Some (Err err)
  | (e, Ok _) =>
      r ← Run (runFuel l) ctxErr 0 engineHandlers l e;
      match r_end r with
      | Drained => Some (finishRun (withSeq (nextID (queue (r_loop r))) (r_state r)))
      | HandlerError err | AdvanceError err => Some (Err err)
      | Cancelled | NoHandler _ => Some (Err errRun)
      end
  end.
End Submitter.

(** ** The scripted strategy (strategy.go) *)

(** [keyOf]: the UTC calendar day and the ticker. *)
Definition sameDay (a b : time) : bool := t_ns (dateOnly a) =? t_ns (dateOnly b).

Definition intentOk (i : Intent) : bool :=
  negb (String.eqb (in_Ticker i) "") && SignalSide_IsValid (in_Side i) &&
  negb (negb (String.eqb (in_Side i) SideFlat) && (in_Qty i <=? 0)) && negb (IsZeroTime (in_Date i)).

(** The orders of one bar, in list order. *)
Fixpoint scriptedLoop (id : string) (ts : time) (st : St) (intents : list Intent) : SProg St :=
  match intents with
  | [] => SDone st None
  | i :: rest =>
      if String.eqb (in_Side i) SideLong || String.eqb (in_Side i) SideShort then
        match OrderSideFor (in_Side i) with
        | Err err => SDone st (Some err)
        | Ok side =>
            let reason := ("scripted " ++ in_Side i ++ " " ++ Qty_String (in_Qty i) ++ " " ++ in_Ticker i)%string in
            SSubmitMarket id (in_Ticker i) side (in_Qty i) reason ts (fun r =>
              match r with Err err => SDone st (Some err) | Ok _ => scriptedLoop id ts st rest end)
        end
      else if String.eqb (in_Side i) SideFlat then
        SNetPosition (in_Ticker i) (fun net =>
          match CloseSideFor net with
          | None => scriptedLoop id ts st rest
          | Some side =>
              let closeQty := if net <? 0 then ⊖ net else net in
              let reason := ("scripted FLAT (close " ++ Qty_String net ++ ") " ++ in_Ticker i)%string in
              SSubmitMarket id (in_Ticker i) side closeQty reason ts (fun r =>
                match r with Err err => SDone st (Some err) | Ok _ => scriptedLoop id ts st rest end)
          end)
      else scriptedLoop id ts st rest
  end.

Definition scriptedOnBar (id : string) (intents : list Intent) (st : St) (bar : Bar) : SProg St :=
  scriptedLoop id (bar_TS bar) st
    (List.filter (fun i => sameDay (in_Date i) (bar_TS bar) && String.eqb (in_Ticker i) (bar_Symbol bar)) intents).

Definition NewScriptedStrategy (id : string) (intents : list Intent) : res (Strategy St) :=
  if String.eqb id "" then Err ErrInvalidArgument
  else if negb (forallb intentOk intents) then Err ErrInvalidArgument
  else Ok (mkStrategy id (scriptedOnBar id intents) None None None None).

(** ** Assembly (engine.go: validateConfig, buildModel, New, seed) *)

Fixpoint noRepeats (seen : gset string) (l : list string) : bool :=
  match l with
  | [] => true
  | x :: l => negb (String.eqb x "") && negb (bool_decide (x ∈ seen)) && noRepeats ({[x]} ∪ seen) l
  end.

Definition validateConfig (cfg : Config St) : res unit :=
  _ <-? rejectIf (length (cfg_Tickers cfg) =? 0)%nat ;;
  _ <-? rejectIf (negb (noRepeats ∅ (cfg_Tickers cfg))) ;;
  _ <-? rejectIf (Date_IsZero (cfg_Start cfg) || Date_IsZero (cfg_End cfg)) ;;
  _ <-? rejectIf (DateBefore (cfg_End cfg) (cfg_Start cfg)) ;;
  _ <-? rejectIf (cfg_StartingBalance cfg <=? 0) ;;
  _ <-? rejectIf (negb (String.eqb (cfg_Profile cfg) "") && negb (FillProfile_IsValid (cfg_Profile cfg))) ;;
  _ <-? rejectIf ((length (cfg_Strategies cfg) =? 0)%nat && (length (cfg_Prebuilt cfg) =? 0)%nat) ;;
  _ <-? rejectIf ((0 <? length (cfg_Strategies cfg))%nat && (0 <? length (cfg_Prebuilt cfg))%nat) ;;
  _ <-? rejectIf (negb (noRepeats ∅ (map sp_ID (cfg_Strategies cfg)))) ;;
  rejectIf (negb (forallb (fun s => match s with Some (s, _) => negb (String.eqb (s_ID s) "") | None => false end)
                   (cfg_Prebuilt cfg))).

Definition buildModel (p : FillProfile) (rp : RealisticConfig) : res FillModel :=
  if String.eqb p ProfileCloseFill then Ok CloseFillModel
  else if String.eqb p ProfileRealistic then Ok (RealisticModel rp)
  else Err ErrInvalidArgument.

Fixpoint buildScripted (specs : list StrategySpec) : res (list (Strategy St)) :=
  match specs with
  | [] => Ok []
  | s :: specs =>
      st <-? NewScriptedStrategy (sp_ID s) (sp_Intents s) ;;
      rest <-? buildScripted specs ;;
      Ok (st :: rest)
  end.

(** Schedule in order; the first rejected event ends the assembly. *)
Fixpoint seedLoop (es : list Event) (l : Loop) : option (res Loop) :=
  match es with
  | [] => Some (Ok l)
  | e :: es =>
      '(r, l) ← Schedule l e;
      match r with
      | Err err => Some (Err err)
      | Ok _ => seedLoop es l
      end
  end.

Definition barsOf (instruments : list InstrumentBars) : list Bar := List.concat (map ib_Bars instruments).

(** [tsSet]: the last bar's timestamp for each distinct instant. *)
Definition sampleTimes (bars : list Bar) : list time :=
  let tsSet : gmap Z time := foldl (fun m b => <[UnixNano (bar_TS b) := bar_TS b]> m) ∅ bars in
  sortBy t_ns (map snd (map_to_list tsSet)).

Definition seed (instruments : list InstrumentBars) (l : Loop) : option (res Loop) :=
  let bars := barsOf instruments in
  seedLoop (map BarEvent bars ++ map SampleEvent (sampleTimes bars)) l.

(** The state a scripted strategy carries; it never reads it. *)
Context (idle : St).

Definition New (cfg : Config St) (feed : res (list InstrumentBars)) : option (res (Setup * Loop * Engine)) :=
  match validateConfig cfg with
  | Err err => Some (Err err)
  | Ok _ =>
      match buildModel (profile cfg) (cfg_Realistic cfg) with
      | Err err => Some (Err err)
      | Ok model =>
          let spySym := if String.eqb (cfg_SPYSymbol cfg) "" then "SPY" else cfg_SPYSymbol cfg in
          let built : res (list (Strategy St * St)) :=
            if (0 <? length (cfg_Prebuilt cfg))%nat
            then Ok (omap id (cfg_Prebuilt cfg))
            else ss <-? buildScripted (cfg_Strategies cfg) ;; Ok (map (fun s => (s, idle)) ss) in
          match built with
          | Err err => Some (Err err)
          | Ok pairs =>
              let strategies := map fst pairs in
              let states := primeWarmup cfg strategies (map snd pairs) in
              match feed with
              | Err err => Some (Err err)
              | Ok instruments =>
                  let '(dispatch, broadcast) := buildDispatch (map s_SymbolsScoped strategies) (map ib_Symbol instruments) in
                  r ← seed instruments NewLoop;
                  match r with
                  | Err err => Some (Err err)
                  | Ok l =>
                      let times := sampleTimes (barsOf instruments) in
                      let su := mkSetup cfg model strategies dispatch broadcast spySym
                                  (Z.of_nat (length (barsOf instruments)))
                                  (List.hd zeroTime times) (List.last times zeroTime) in
                      let e := mkEngine (NewSimExecutor 0 (mkWorld (NewAccount (cfg_StartingBalance cfg) (Some [])) []))
                                 NewEquitySampler [] [] ∅ states
                                 (match cfg_Context cfg with Some p => Some (p, NewSharedContextState) | None => None end) 0 0 in
                      Some (Ok (su, l, e))
                  end
              end
          end
      end
  end.
End EngineDefs.
Arguments Engine : clear implicits.
Arguments Setup : clear implicits.

(** ** Indexed dispatch is the full scan *)

Section Dispatch.
Context (sym : string).

Definition broadcasts (scope : option (list string)) : bool := match scope with None => true | Some _ => false end.
Definition scopedTo (scope : option (list string)) : bool :=
  match scope with None => false | Some syms => existsb (String.eqb sym) syms end.

(** The indices, from [i] on, of the scopes that satisfy [P]. *)
Fixpoint indicesOf (P : option (list string) -> bool) (i : nat) (scopes : list (option (list string))) : list nat :=
  match scopes with
  | [] => []
  | s :: scopes => if P s then i :: indicesOf P (S i) scopes else indicesOf P (S i) scopes
  end.

Lemma indicesOf_lt P scopes : forall i, Forall (fun j => i <= j)%nat (indicesOf P i scopes).
Proof.
  induction scopes as [|s scopes IH]; intros i; cbn; [apply List.Forall_nil|].
  assert (Hs : Forall (fun j => i <= j)%nat (indicesOf P (S i) scopes))
    by (eapply List.Forall_impl; [|apply IH]; cbn; lia).
  destruct (P s); [by apply List.Forall_cons|done].
Qed.

Lemma scopeLoop_lookup i syms : forall seen scoped,
  scopeLoop i seen syms scoped !! sym =
  if existsb (String.eqb sym) syms && negb (bool_decide (sym ∈ seen))
  then Some (default [] (scoped !! sym) ++ [i]) else scoped !! sym.
Proof.
  induction syms as [|x syms IH]; intros seen scoped; cbn [scopeLoop existsb]; [done|].
  destruct (bool_decide (x ∈ seen)) eqn:Ex.
  - rewrite IH. destruct (String.eqb_spec sym x) as [->|Hne]; [|done]. by rewrite Ex, !andb_false_r.
  - rewrite IH. apply bool_decide_eq_false in Ex. destruct (String.eqb_spec sym x) as [->|Hne]; cbn [orb].
    + rewrite lookup_insert_eq. rewrite (bool_decide_eq_false_2 (x ∈ seen)) by done. cbn [negb andb].
      rewrite bool_decide_eq_true_2 by set_solver. by rewrite andb_false_r.
    + rewrite lookup_insert_ne by done.
      assert (bool_decide (sym ∈ ({[x]} ∪ seen : gset string)) = bool_decide (sym ∈ seen)) as ->; [|done].
      apply bool_decide_ext. set_solver.
Qed.

Lemma dispatchLoop_spec scopes : forall i broadcast scoped,
  let '(b, sc) := dispatchLoop i scopes broadcast scoped in
  b = broadcast ++ indicesOf broadcasts i scopes /\
  default [] (sc !! sym) = default [] (scoped !! sym) ++ indicesOf scopedTo i scopes.
Proof.
  induction scopes as [|[syms|] scopes IH]; intros i broadcast scoped; cbn [dispatchLoop indicesOf broadcasts scopedTo].
  - by rewrite !app_nil_r.
  - specialize (IH (S i) broadcast (scopeLoop i ∅ syms scoped)).
    destruct (dispatchLoop (S i) scopes _ _) as [b sc]. destruct IH as [-> ->]. split; [done|].
    rewrite scopeLoop_lookup. rewrite bool_decide_eq_false_2 by set_solver. cbn [negb]. rewrite andb_true_r.
    destruct (existsb _ syms); [cbn; by rewrite <- app_assoc|done].
  - specialize (IH (S i) (broadcast ++ [i]) scoped).
    destruct (dispatchLoop (S i) scopes _ _) as [b sc]. destruct IH as [-> ->]. by rewrite <- app_assoc.
Qed.

Lemma indicesOf_none P Q scopes : forall i, indicesOf P i scopes = [] ->
  indicesOf (fun s => P s || Q s) i scopes = indicesOf Q i scopes.
Proof.
  induction scopes as [|s scopes IH]; intros i E; cbn in *; [done|].
  destruct (P s); [done|]. cbn [orb]. by rewrite IH.
Qed.

Lemma indicesOf_ext P Q scopes : (forall s, P s = Q s) -> forall i, indicesOf P i scopes = indicesOf Q i scopes.
Proof. intros H. induction scopes as [|s scopes IH]; intros i; cbn; [done|]. by rewrite H, IH. Qed.

Lemma indicesOf_swap P Q scopes : forall i,
  indicesOf (fun s => P s || Q s) i scopes = indicesOf (fun s => Q s || P s) i scopes.
Proof. induction scopes as [|s scopes IH]; intros i; cbn; [done|]. by rewrite orb_comm, IH. Qed.

(** Merging the two disjoint index lists restores the scan order. *)
Lemma mergeLoop_indices scopes : forall i fuel out,
  (length (indicesOf broadcasts i scopes) + length (indicesOf scopedTo i scopes) < fuel)%nat ->
  mergeLoop fuel (indicesOf broadcasts i scopes) (indicesOf scopedTo i scopes) out =
  out ++ indicesOf (fun s => broadcasts s || scopedTo s) i scopes.
Proof.
  induction scopes as [|s scopes IH]; intros i fuel out Hf; cbn [indicesOf].
  - destruct fuel; cbn; by rewrite ?app_nil_r.
  - cbn [indicesOf] in Hf.
    destruct (broadcasts s) eqn:Eb; [assert (scopedTo s = false) as Es by (by destruct s; [discriminate Eb|]); rewrite Es in *|
                                     destruct (scopedTo s) eqn:Es]; cbn [orb] in *.
    + destruct (indicesOf scopedTo (S i) scopes) as [|y b] eqn:Ey.
      * rewrite indicesOf_swap, (indicesOf_none _ _ _ _ Ey). destruct fuel; [lia|]. cbn. by rewrite app_nil_r.
      * pose proof (indicesOf_lt scopedTo scopes (S i)) as Hlt. rewrite Ey in Hlt. apply Forall_cons_1 in Hlt as [Hlt _].
        destruct fuel as [|fuel]; [lia|]. cbn [mergeLoop]. destruct (Nat.ltb_spec i y); [|lia].
        rewrite <- Ey. rewrite IH by (rewrite ?Ey; cbn in *; lia). by rewrite <- app_assoc.
    + destruct (indicesOf broadcasts (S i) scopes) as [|x a] eqn:Ex.
      * rewrite (indicesOf_none _ _ _ _ Ex). destruct fuel; [lia|]. cbn. by rewrite app_nil_r.
      * pose proof (indicesOf_lt broadcasts scopes (S i)) as Hlt. rewrite Ex in Hlt. apply Forall_cons_1 in Hlt as [Hlt _].
        destruct fuel as [|fuel]; [lia|]. cbn [mergeLoop]. destruct (Nat.ltb_spec x i); [lia|].
        rewrite <- Ex. rewrite IH by (rewrite ?Ex; cbn in *; lia). by rewrite <- app_assoc.
    + by apply IH.
Qed.

Lemma merge_indices scopes i :
  mergeRegistrationOrder (indicesOf broadcasts i scopes) (indicesOf scopedTo i scopes) =
  indicesOf (fun s => broadcasts s || scopedTo s) i scopes.
Proof.
  unfold mergeRegistrationOrder. pose proof (mergeLoop_indices scopes i) as H.
  destruct (indicesOf scopedTo i scopes) as [|y b] eqn:E; cbn [length Nat.eqb].
  - by rewrite indicesOf_swap, indicesOf_none.
  - rewrite H by (cbn; lia). done.
Qed.

Lemma dispatch_fold (g : string -> list nat) registration : forall d,
  foldl (fun (d : gmap string (list nat)) s => match d !! s with Some _ => d | None => <[s := g s]> d end) d registration !! sym =
  match d !! sym with
  | Some ix => Some ix
  | None => if existsb (String.eqb sym) registration then Some (g sym) else None
  end.
Proof.
  induction registration as [|s registration IH]; intros d; cbn [foldl existsb]; [by destruct (d !! sym)|].
  rewrite IH. destruct (d !! s) as [ix|] eqn:Es.
  - destruct (String.eqb_spec sym s) as [->|Hne]; [by rewrite Es|done].
  - destruct (String.eqb_spec sym s) as [->|Hne]; [by rewrite Es, lookup_insert_eq|].
    rewrite lookup_insert_ne by done. by destruct (d !! sym).
Qed.
End Dispatch.

(** The indexed dispatch of a bar is the full scan: a registered symbol
    reaches exactly the strategies that declare no scope or declare the symbol,
    each once, in registration order; a symbol that was never registered
    reaches the strategies without a scope. *)
Theorem dispatch_is_full_scan scopes registration sym :
  let '(d, b) := buildDispatch scopes registration in
  strategiesFor d b sym =
  indicesOf (fun s => broadcasts s || (existsb (String.eqb sym) registration && scopedTo sym s)) 0 scopes.
Proof.
  unfold buildDispatch. pose proof (dispatchLoop_spec sym scopes 0 [] ∅) as H.
  destruct (dispatchLoop 0 scopes [] ∅) as [b sc]. destruct H as [-> H]. cbn in H. unfold strategiesFor.
  rewrite (dispatch_fold sym (fun s => mergeRegistrationOrder _ (default [] (sc !! s)))), lookup_empty.
  destruct (existsb _ registration).
  - rewrite H. apply merge_indices.
  - apply indicesOf_ext. intros s. cbn. by rewrite orb_false_r.
Qed.
