(* ===== verification/EngineRun.v ===== *)
(** * Backtest runs (src/internal/engine/engine.go)

    What a whole run guarantees for every strategy: it terminates, it handles
    every bar and samples every timestamp once, it leaves no position open,
    and its final balance is the starting balance less the cash paid for the
    fills it reports.  The account of a run is the account of a history of
    observed bars and settled fills; one invariant of the engine is carried
    over the event loop, the final flush and the liquidation. *)

From stdpp Require Import gmap strings list sorting.
From S2P Require Import Prelude Lists Fixed Money Domain Float64 Calendar EventQueue Loop Accounting SimExec RiskGate Context Sampler Engine.
Set Default Goal Selector "!".
#[local] Open Scope string_scope.
#[local] Open Scope Z_scope.
#[local] Open Scope list_scope.
#[local] Abbreviation length := List.length.

(** ** Histories of the account *)

Lemma runAccount_app es es' a a' : runAccount es a = (a', Ok tt) -> runAccount (es ++ es') a = runAccount es' a'.
Proof.
  revert a. induction es as [|[b|f] es IH]; intros a E; cbn [runAccount app] in *; [by injection E as ->| |].
  - unfold eff_bind, eff_modify in *. by apply IH.
  - unfold eff_bind in *. destruct (Account_ApplyFill f a) as [a1 [r|err]]; [by apply IH|done].
Qed.

Lemma fillsOf_app es es' : fillsOf (es ++ es') = fillsOf es ++ fillsOf es'.
Proof. apply omap_app. Qed.

Lemma fillsOf_settled fs : fillsOf (map SettledFill fs) = fs.
Proof. induction fs as [|f fs IH]; [done|]. cbn. unfold fillsOf in IH. by rewrite IH. Qed.

Lemma volume_app fs gs : volume (fs ++ gs) = volume fs + volume gs.
Proof. unfold volume. by rewrite map_app, sumZ_app. Qed.

Lemma fillIn_event f : fillIn f -> eventOk64 (SettledFill f).
Proof. intros [_ Hq Hp]. cbn. split; [done|rlia]. Qed.

Lemma fillIn_events fs : Forall fillIn fs -> Forall eventOk64 (map SettledFill fs).
Proof. intros H. apply List.Forall_map. eapply List.Forall_impl; [|exact H]. apply fillIn_event. Qed.

Lemma volume_nonneg fs : Forall fillIn fs -> 0 <= volume fs.
Proof. intros H. rewrite <- (fillsOf_settled fs). by apply volume_fills_nonneg, fillIn_events. Qed.

(** The quantity of a position is bounded by the volume traded, and only
    traded keys have a position. *)
Lemma runAccount_bounds es : forall a a',
  acctOk a -> priced a -> Forall eventOk64 es ->
  (forall key, Z.abs (p_signedQty (posAt a key)) + volume (fillsOf es) <= max_int64) ->
  runAccount es a = (a', Ok tt) ->
  (forall key, Z.abs (p_signedQty (posAt a' key)) <= Z.abs (p_signedQty (posAt a key)) + volume (fillsOf es)) /\
  (forall key p, a_positions a' !! key = Some p ->
     is_Some (a_positions a !! key) \/ Exists (fun f => (f_StrategyID f, f_Symbol f) = key) (fillsOf es)).
Proof.
  induction es as [|[b|f] es IH]; intros a a' Ha Hpr Hes Hv E; cbn [runAccount] in E.
  - injection E as <-. split; [intros; cbn; lia|]. intros key p Hp. left. by exists p.
  - apply Forall_cons_1 in Hes as [Hb Hes]. bind_inv.
    apply (IH (ObserveBar b a) a'); [by apply ObserveBar_ok| |done|done|done].
    intros k p Hp. apply priced_insert. left. by apply (Hpr k).
  - apply Forall_cons_1 in Hes as [Hf Hes]. bind_inv. destruct r as [snap out].
    pose proof (volume_fills_nonneg es Hes) as HV.
    assert (HVc : volume (fillsOf (SettledFill f :: es)) = f_Qty f + volume (fillsOf es)) by reflexivity.
    destruct (settle_step f a s snap out) as [(G1 & G2 & _) Hq]; [done|done|done|intros k; specialize (Hv k); lia|done|].
    destruct (Account_ApplyFill_spec f a s snap out) as (p' & _ & (_ & _ & D3 & _) & _);
      [done|destruct Hf; rlia|by destruct Hf| |done|].
    { specialize (Hv (f_StrategyID f, f_Symbol f)). pose proof (signedDelta_abs f ltac:(destruct Hf; lia)). destruct Hf. rlia. }
    destruct (IH s a' G1 G2 Hes) as [I1 I2]; [intros k; specialize (Hv k); specialize (Hq k); lia|done|].
    split; [intros key; specialize (I1 key); specialize (Hq key); lia|].
    intros key p Hp. destruct (I2 key p Hp) as [[p0 H0]|Hx].
    + rewrite D3 in H0. destruct (decide ((f_StrategyID f, f_Symbol f) = key)) as [He|Hne].
      * right. by apply Exists_cons_hd.
      * rewrite lookup_insert_ne in H0 by done. left. by exists p0.
    + right. by apply Exists_cons_tl.
Qed.

(** The account of a run that started with an empty book. *)
Definition history (start : Money) (log : option (list AccountState)) (es : list acctEvent) (a : Account) : Prop :=
  runAccount es (NewAccount start log) = (a, Ok tt) /\ Forall eventOk64 es.

Lemma NewAccount_ok start log : in64 start -> acctOk (NewAccount start log).
Proof.
  intros Hs. constructor; cbn; [done|rlia|intros ? ? H; by rewrite lookup_empty in H|intros ? ? H; by rewrite lookup_empty in H].
Qed.

Record historyOk (start : Money) (es : list acctEvent) (a : Account) : Prop := {
  hist_ok : acctOk a;
  hist_priced : priced a;
  hist_start : a_startingBalance a = start;
  hist_realized : a_realized a = totalRealized a;
  hist_cash : Z.abs (a_realized a - (totalCost a - cashOut (fillsOf es))) <= 50 * Z.of_nat (length (fillsOf es));
  hist_qty : forall key, Z.abs (p_signedQty (posAt a key)) <= volume (fillsOf es);
  hist_keys : forall key p, a_positions a !! key = Some p ->
    Exists (fun f => (f_StrategyID f, f_Symbol f) = key) (fillsOf es)
}.

Lemma history_ok start log es a :
  in64 start -> history start log es a -> volume (fillsOf es) <= max_int64 -> historyOk start es a.
Proof.
  intros Hs [E Hes] Hv. pose proof (NewAccount_ok start log Hs) as Hn.
  assert (Hpr : priced (NewAccount start log)) by (intros ? ? H; cbn in H; by rewrite lookup_empty in H).
  assert (H0 : forall key, p_signedQty (posAt (NewAccount start log) key) = 0)
    by (intros key; unfold posAt; cbn; by rewrite lookup_empty).
  assert (Hb : forall key, Z.abs (p_signedQty (posAt (NewAccount start log) key)) + volume (fillsOf es) <= max_int64)
    by (intros key; rewrite H0; cbn; lia).
  destruct (runAccount_spec es _ a Hn Hpr Hes Hb E) as (G1 & G2 & G3 & G4 & G5).
  destruct (runAccount_bounds es _ a Hn Hpr Hes Hb E) as [B1 B2].
  assert (totalRealized (NewAccount start log) = 0) by apply mapSum_empty.
  assert (totalCost (NewAccount start log) = 0) by apply mapSum_empty.
  constructor; [done|done|done|cbn in G4; lia|cbn in G4; lia|intros key; specialize (B1 key); rewrite H0 in B1; lia|].
  intros key p Hp. destruct (B2 key p Hp) as [[q Hq]|Hx]; [cbn in Hq; by rewrite lookup_empty in Hq|done].
Qed.

(** Settling the fills of one order moves its position and no other. *)
Lemma settle_order start log es a fs a' key :
  in64 start -> history start log es a -> Forall fillIn fs ->
  Forall (fun f => (f_StrategyID f, f_Symbol f) = key) fs ->
  volume (fillsOf es) + volume fs <= max_int64 ->
  runAccount (map SettledFill fs) a = (a', Ok tt) ->
  p_signedQty (posAt a' key) = p_signedQty (posAt a key) + sumZ (map signedDelta fs) /\
  (forall k, k <> key -> a_positions a' !! k = a_positions a !! k).
Proof.
  intros Hs. revert es a. induction fs as [|f fs IH]; intros es a Hh Hf Hk Hv E; cbn [map runAccount] in E.
  - injection E as <-. cbn. split; [lia|done].
  - apply Forall_cons_1 in Hf as [Hf Hfs]. apply Forall_cons_1 in Hk as [Hkey Hks]. bind_inv. destruct r as [snap out].
    pose proof (volume_nonneg fs Hfs) as HV.
    assert (HVc : volume (f :: fs) = f_Qty f + volume fs) by reflexivity.
    destruct (history_ok start log es a Hs Hh) as [Ha Hpr _ _ _ Hq _]; [pose proof Hf as [_ ? _]; lia|].
    destruct (Account_ApplyFill_spec f a s snap out) as (p' & (S1 & _) & (_ & _ & D3 & _) & _ & _);
      [done|destruct Hf; rlia|destruct Hf; rlia| |done|].
    { specialize (Hq (f_StrategyID f, f_Symbol f)). pose proof (signedDelta_abs f ltac:(destruct Hf; lia)). destruct Hf. rlia. }
    rewrite Hkey in D3, S1.
    assert (Hh' : history start log (es ++ [SettledFill f]) s).
    { destruct Hh as [Er Hes]. split.
      - rewrite (runAccount_app _ _ _ _ Er). cbn [runAccount]. unfold eff_bind. by rewrite Hb.
      - apply List.Forall_app. split; [done|]. apply List.Forall_cons; [by apply fillIn_event|apply List.Forall_nil]. }
    destruct (IH _ s Hh' Hfs Hks) as [I1 I2];
      [rewrite fillsOf_app, volume_app; change (volume (fillsOf [SettledFill f])) with (f_Qty f + 0); lia|done|].
    assert (Hp : p_signedQty (posAt s key) = p_signedQty (posAt a key) + signedDelta f)
      by (unfold posAt at 1; rewrite D3, lookup_insert_eq; done).
    cbn [map]. rewrite sumZ_cons. split; [lia|]. intros k Hne. rewrite I2 by done. rewrite D3. by rewrite lookup_insert_ne.
Qed.

(** The engine's sink settles into the account and records the fills. *)
Lemma fillSink_emitAll fs : forall w w', emitAll fillSink fs w = (w', Ok tt) ->
  runAccount (map SettledFill fs) (w_acct w) = (w_acct w', Ok tt) /\ w_fills w' = w_fills w ++ fs.
Proof.
  induction fs as [|f fs IH]; intros w w' E; cbn [emitAll map runAccount] in *.
  - injection E as <-. by rewrite app_nil_r.
  - unfold eff_bind in *. unfold fillSink at 1 in E. destruct (Account_ApplyFill f (w_acct w)) as [a [r|err]]; [|done].
    apply IH in E as [H1 H2]. cbn in H1, H2. rewrite H2, <- app_assoc. done.
Qed.

(** ** The invariant of the engine *)

Record bar64 (b : Bar) : Prop := {
  bar64_ts : in64 (t_ns (bar_TS b));
  bar64_open : in64 (bar_Open b);
  bar64_close : in64 (bar_Close b)
}.

(** The quantities a strategy submits are [int64] values when its readings are. *)
Fixpoint sprogOk {St} (p : SProg St) : Prop :=
  match p with
  | SDone _ _ => True
  | SSubmitMarket _ _ _ qty _ _ k => in64 qty /\ forall r, sprogOk (k r)
  | SSubmitSignal _ _ _ _ qty _ _ k => in64 qty /\ forall r, sprogOk (k r)
  | SNetPosition _ k => forall q, in64 q -> sprogOk (k q)
  | SEquityFloat k => forall f, sprogOk (k f)
  end.

Definition strategiesOk {St} (ss : list (Strategy St)) : Prop :=
  Forall (fun s => forall st bar, sprogOk (s_OnBar s st bar)) ss.

Section Invariant.
Context {St : Type} (su : Setup St) `{!FillModelLaws (su_model su)} (start : Money) (log : option (list AccountState)).
Context (Hstart : in64 start).

Abbreviation execOf e := (en_exec e) (only parsing).
Abbreviation fillsIn e := (w_fills (e_world (en_exec e))).

(** [extra] is the symbol of the bar being handled, not yet recorded. *)
Definition observed (extra : option string) (e : Engine St) (s : string) : Prop :=
  is_Some (en_lastBar e !! s) \/ extra = Some s.

Record engOk (extra : option string) (e : Engine St) : Prop := {
  ek_hist : exists es, history start log es (acctOf e) /\ fillsOf es = fillsIn e;
  ek_submitted : Forall (fun o => in64 (o_Qty o)) (e_submittedThisBar (en_exec e));
  ek_pending : forall s os, e_pending (en_exec e) !! s = Some os -> Forall (fun o => in64 (o_Qty o) /\ o_Symbol o = s) os;
  ek_bars : forall s b, e_barsThisTS (en_exec e) !! s = Some b -> bar64 b /\ is_Some (en_lastBar e !! s);
  ek_last : forall s b, en_lastBar e !! s = Some b -> bar64 b;
  ek_held : Forall (fun f => observed extra e (f_Symbol f)) (fillsIn e);
  ek_fills : Forall fillIn (fillsIn e)
}.

(** What the strategies and the executor leave alone. *)
Definition keeps (e e' : Engine St) : Prop :=
  en_lastBar e' = en_lastBar e /\ en_smplr e' = en_smplr e /\
  en_barsProcessed e' = en_barsProcessed e /\ en_sampledDays e' = en_sampledDays e.

#[export] Instance keeps_preorder : PreOrder keeps.
Proof. split; [by repeat split|]. unfold keeps. intros a b c (?&?&?&?) (?&?&?&?). splits; congruence. Qed.

(** The executor emitted [fs] and its queues still satisfy the invariant. *)
Lemma engOk_emitted extra e x' fs :
  engOk extra e -> emitted fillSink fs (en_exec e) x' -> Forall fillIn fs ->
  Forall (fun f => observed extra e (f_Symbol f)) fs ->
  Forall (fun o => in64 (o_Qty o)) (e_submittedThisBar x') ->
  (forall s os, e_pending x' !! s = Some os -> Forall (fun o => in64 (o_Qty o) /\ o_Symbol o = s) os) ->
  (forall s b, e_barsThisTS x' !! s = Some b -> bar64 b /\ is_Some (en_lastBar e !! s)) ->
  engOk extra (set_exec x' e).
Proof.
  intros [(es & [Er Hes] & Hf) _ _ _ H5 H6 H7] [_ Em] Hfs Hob Hs Hp Hb.
  apply fillSink_emitAll in Em as [Ea Ef]. constructor; cbn; try done.
  - exists (es ++ map SettledFill fs). split; [split|].
    + rewrite (runAccount_app _ _ _ _ Er). exact Ea.
    + apply List.Forall_app. split; [done|]. by apply fillIn_events.
    + rewrite fillsOf_app, fillsOf_settled, Hf. unfold acctOf. cbn. congruence.
  - rewrite Ef. apply List.Forall_app. by split.
  - rewrite Ef. apply List.Forall_app. by split.
Qed.

(** Nothing but the counter moved. *)
Lemma engOk_seq extra e n : engOk extra e -> engOk extra (set_exec (set_seq n (en_exec e)) e).
Proof. intros [H1 H2 H3 H4 H5 H6 H7]. by constructor. Qed.

Lemma engOk_record extra e o : engOk extra e -> engOk extra (record_order o e).
Proof. intros [H1 H2 H3 H4 H5 H6 H7]. by constructor. Qed.

Lemma engOk_rejected extra e l : engOk extra e -> engOk extra (set_rejected l e).
Proof. intros [H1 H2 H3 H4 H5 H6 H7]. by constructor. Qed.

Lemma engOk_states extra e l : engOk extra e -> engOk extra (set_states l e).
Proof. intros [H1 H2 H3 H4 H5 H6 H7]. by constructor. Qed.

Lemma executes_observed extra e order bar fs : executes order bar fs -> observed extra e (o_Symbol order) ->
  Forall (fun f => observed extra e (f_Symbol f)) fs.
Proof.
  intros Hx Ho. eapply List.Forall_impl; [|exact (ex_order _ _ _ Hx)]. intros f (_ & _ & E & _). by rewrite E.
Qed.

Lemma executions_fills extra e l :
  executions l -> Forall (fun x => in64 (o_Qty x.1.1) /\ bar64 x.1.2 /\ observed extra e (o_Symbol x.1.1)) l ->
  Forall fillIn (List.concat (map snd l)) /\ Forall (fun f => observed extra e (f_Symbol f)) (List.concat (map snd l)).
Proof.
  unfold executions. induction l as [|x l IH]; intros Hx Hl; [split; apply List.Forall_nil|].
  apply Forall_cons_1 in Hx as [Hx Hxs]. apply Forall_cons_1 in Hl as [(Hq & [_ Bo Bc] & Ho) Hl].
  destruct (IH Hxs Hl) as [I1 I2]. cbn [map List.concat]. split; apply List.Forall_app; split; try done.
  - by apply (executes_fillIn x.1.1 x.1.2).
  - by apply (executes_observed extra e x.1.1 x.1.2).
Qed.

(** ** Submissions *)

Lemma Submit_run order (x x' : SimExecutor World) r : Submit (su_model su) order x = (x', r) ->
  x' = x \/
  x' = set_submitted (e_submittedThisBar x ++ [order]) x \/
  x' = set_pending (<[o_Symbol order := default [] (e_pending x !! o_Symbol order) ++ [order]]> (e_pending x)) x.
Proof.
  unfold Submit, eff_bind, eff_lift, eff_fail, eff_modify. destruct (Order_Validate order); [|intros [= <- <-]; by left].
  destruct (negb _); [intros [= <- <-]; by left|]. destruct (fm_Timing _); intros [= <- <-]; auto.
Qed.

Lemma Submit_engOk extra e order x' r :
  engOk extra e -> in64 (o_Qty order) -> Submit (su_model su) order (en_exec e) = (x', r) ->
  engOk extra (set_exec x' e).
Proof.
  intros Hok Hq E. pose proof Hok as [H1 H2 H3 H4 H5 H6 H7]. apply Submit_run in E as [-> | [-> | ->]].
  - by destruct e.
  - constructor; cbn; try done. apply List.Forall_app. split; [done|]. by apply List.Forall_cons.
  - constructor; cbn; try done. intros s os Hs. destruct (decide (o_Symbol order = s)) as [<-|Hne].
    + rewrite lookup_insert_eq in Hs. injection Hs as <-. apply List.Forall_app.
      split; [|by apply List.Forall_cons].
      destruct (e_pending (en_exec e) !! o_Symbol order) as [os|] eqn:Eo; [by apply (H3 _ os)|apply List.Forall_nil].
    + rewrite lookup_insert_ne in Hs by done. by apply (H3 s).
Qed.

Lemma SubmitMarket_engOk extra sid sym side qty reason ts e e' r :
  engOk extra e -> in64 qty -> SubmitMarket su sid sym side qty reason ts e = (e', r) -> engOk extra e' /\ keeps e e'.
Proof.
  intros Hok Hq E. unfold SubmitMarket in E. unfold eff_bind at 1, onExec at 1 in E. cbn in E.
  set (coid := withNumber "O-" _) in *. set (e1 := set_exec (set_seq _ _) e) in *.
  assert (Hok1 : engOk extra e1) by (by apply engOk_seq).
  assert (Hk1 : keeps e e1) by (by repeat split).
  unfold eff_bind at 1, onExec at 1 in E. set (order := NewMarketOrder coid sid sym side qty reason ts) in *.
  destruct (Submit (su_model su) order (en_exec e1)) as [x' [u|err]] eqn:Es;
    apply (Submit_engOk extra e1 order x' _ Hok1 Hq) in Es; cbn in E; injection E as <- <-.
  - split; [by apply engOk_record|by repeat split].
  - split; [done|by repeat split].
Qed.

Lemma gateSignal_engOk extra gate sid sym side qty ts e e' r :
  engOk extra e -> gateSignal gate sid sym side qty ts e = (e', r) -> engOk extra e' /\ keeps e e'.
Proof.
  intros Hok E. unfold gateSignal, eff_bind at 1, eff_get, eff_bind at 1, eff_lift in E.
  destruct (Account_Snapshot (acctOf e)) as [snap|err]; [|injection E as <- <-; by split].
  destruct (GateSignal _ _ _ _ _) as [d l]. cbn in E. injection E as <- <-. split; [by apply engOk_rejected|by repeat split].
Qed.

Lemma SubmitMarketSignal_engOk extra sid sym sside side qty reason ts e e' r :
  engOk extra e -> in64 qty -> SubmitMarketSignal su sid sym sside side qty reason ts e = (e', r) ->
  engOk extra e' /\ keeps e e'.
Proof.
  intros Hok Hq E. unfold SubmitMarketSignal in E. unfold eff_bind at 1 in E.
  set (gate := match cfg_Gate (su_cfg su) with Some _ => _ | None => _ end) in E.
  destruct (gate e) as [e1 r1] eqn:Eg.
  assert (H1 : engOk extra e1 /\ keeps e e1).
  { unfold gate in Eg. destruct (cfg_Gate _) as [g|]; [|injection Eg as <- <-; by split].
    destruct (_ && _); [by apply (gateSignal_engOk extra) in Eg|injection Eg as <- <-; by split]. }
  destruct H1 as [Hok1 Hk1]. destruct r1 as [ok|err]; [|injection E as <- <-; by split].
  destruct ok; cbn [negb] in E; [|injection E as <- <-; by split].
  unfold eff_bind in E. destruct (SubmitMarket su sid sym side qty reason ts e1) as [e2 r2] eqn:Es.
  apply (SubmitMarket_engOk extra) in Es as [Hok2 Hk2]; [|done|done].
  assert (keeps e e2) by (by etransitivity). destruct r2; injection E as <- <-; by split.
Qed.

Lemma netPositionLoop_in64 sym l : forall net r, in64 net -> netPositionLoop sym net l = Ok r -> in64 r.
Proof.
  induction l as [|[key q] l IH]; intros net r Hn E; cbn [netPositionLoop] in E; [by injection E as <-|].
  destruct (negb _); [by apply (IH net)|]. bind_inv. apply (IH r0); [|done].
  unfold Qty_Add, checkedAdd64 in Hb. apply of_checked_ok in Hb. repeat case_step_in Hb; res_inv; auto with go.
Qed.

Lemma NetPosition_in64 a sym : in64 (NetPosition a sym).
Proof.
  unfold NetPosition, snap_NetPositionAcrossStrategies. destruct (Account_Snapshot a) as [snap|]; [|rlia].
  destruct (netPositionLoop _ _ _) eqn:E; [|rlia]. by apply netPositionLoop_in64 in E; [|rlia].
Qed.

Lemma runStrategy_engOk extra p : forall e e' r,
  sprogOk p -> engOk extra e -> runStrategy su p e = (e', r) -> engOk extra e' /\ keeps e e'.
Proof.
  induction p as [st err|sid sym side qty reason ts k IH|sid sym sside side qty reason ts k IH|sym k IH|k IH];
    intros e e' r Hp Hok E; cbn [runStrategy sprogOk] in *.
  - injection E as <- <-. by split.
  - destruct Hp as [Hq Hk]. destruct (SubmitMarket su sid sym side qty reason ts e) as [e1 r1] eqn:Es.
    apply (SubmitMarket_engOk extra) in Es as [Hok1 Hk1]; [|done|done].
    apply IH in E as [Hok2 Hk2]; [|done|done]. split; [done|by etransitivity].
  - destruct Hp as [Hq Hk]. destruct (SubmitMarketSignal su sid sym sside side qty reason ts e) as [e1 r1] eqn:Es.
    apply (SubmitMarketSignal_engOk extra) in Es as [Hok1 Hk1]; [|done|done].
    apply IH in E as [Hok2 Hk2]; [|done|done]. split; [done|by etransitivity].
  - apply IH in E; [done|apply Hp, NetPosition_in64|done].
  - apply IH in E; [done|apply Hp|done].
Qed.

Lemma runStrategies_engOk extra bar ixs : strategiesOk (su_strategies su) -> forall e e' r,
  engOk extra e -> runStrategies su bar ixs e = (e', r) -> engOk extra e' /\ keeps e e'.
Proof.
  intros Hs. induction ixs as [|i ixs IH]; intros e e' r Hok E; cbn [runStrategies] in E.
  { injection E as <- <-. by split. }
  unfold eff_bind at 1 in E. destruct (runStrategyAt su bar i e) as [e1 r1] eqn:E1.
  assert (H1 : engOk extra e1 /\ keeps e e1).
  { unfold runStrategyAt, eff_bind at 1, eff_get in E1.
    destruct (su_strategies su !! i) as [s|] eqn:Ei; [|injection E1 as <- <-; by split].
    destruct (en_states e !! i) as [x|]; [|injection E1 as <- <-; by split].
    unfold eff_bind at 1 in E1. destruct (runStrategy su (s_OnBar s x bar) e) as [e2 r2] eqn:E2.
    apply list_elem_of_lookup_2, list_elem_of_In in Ei. unfold strategiesOk in Hs. rewrite List.Forall_forall in Hs.
    apply (runStrategy_engOk extra) in E2 as [Hok2 Hk2]; [|by apply Hs|done].
    destruct r2 as [[x' err]|err]; [|injection E1 as <- <-; by split].
    cbn in E1. destruct err; injection E1 as <- <-; (split; [by apply engOk_states|]; by etransitivity). }
  destruct H1 as [Hok1 Hk1]. destruct r1; [|injection E as <- <-; by split].
  apply IH in E as [Hok2 Hk2]; [|done]. split; [done|by etransitivity].
Qed.

(** ** The handlers *)

Lemma process_next_engOk e bar x' n :
  fm_Timing (su_model su) = FillNextBar -> engOk None e -> bar64 bar ->
  ProcessBar (su_model su) fillSink bar (en_exec e) = (x', Ok n) -> engOk (Some (bar_Symbol bar)) (set_exec x' e).
Proof.
  intros Ht Hok Hb E. pose proof Hok as [H1 H2 H3 H4 H5 H6 H7].
  assert (Hw : engOk (Some (bar_Symbol bar)) e).
  { constructor; try done. eapply List.Forall_impl; [|exact H6]. intros f [?|?]; [by left|done]. }
  pose proof E as E0. unfold ProcessBar in E0. rewrite Ht in E0. unfold eff_bind at 1, eff_get in E0.
  unfold eff_bind at 1, eff_modify in E0. clear E.
  assert (Hq : Forall (fun o => in64 (o_Qty o) /\ o_Symbol o = bar_Symbol bar)
                 (default [] (e_pending (en_exec e) !! bar_Symbol bar))).
  { destruct (e_pending (en_exec e) !! bar_Symbol bar) as [os|] eqn:Eo; [by apply (H3 _ os)|apply List.Forall_nil]. }
  apply fillPending_run in E0 as (l & Hl & Hm & Hbs & _ & Em & Hs); [|done|].
  - destruct Hs as (S1 & S2 & S3 & _). cbn in S1, S2, S3.
    destruct (executions_fills (Some (bar_Symbol bar)) e l Hl) as [F1 F2].
    { rewrite <- Hm in Hq. apply List.Forall_map in Hq. rewrite List.Forall_forall in *. intros x Hx.
      destruct (Hq x Hx) as [Q1 Q2]. rewrite (Hbs x Hx). splits; [done|done|]. right. by rewrite Q2. }
    apply (engOk_emitted _ e x' _ Hw Em F1 F2); rewrite ?S1, ?S2, ?S3; try done.
    intros s os Hs'. destruct (decide (bar_Symbol bar = s)) as [<-|Hne]; [by rewrite lookup_delete_eq in Hs'|].
    rewrite lookup_delete_ne in Hs' by done. by apply (H3 s).
  - eapply List.Forall_impl; [|exact Hq]. by intros o [? _].
Qed.

Lemma observe_engOk extra e bar e' r :
  engOk extra e -> bar64 bar -> onAcct (eff_modify (ObserveBar bar)) e = (e', r) -> engOk extra e' /\ keeps e e'.
Proof.
  intros [(es & [Er Hes] & Hf) H2 H3 H4 H5 H6 H7] Hb E. unfold onAcct, eff_modify in E. injection E as <- <-.
  split; [|by repeat split]. constructor; cbn; try done.
  exists (es ++ [ObservedBar bar]). split; [split|].
  - rewrite (runAccount_app _ _ _ _ Er). done.
  - apply List.Forall_app. split; [done|]. apply List.Forall_cons; [by destruct Hb|apply List.Forall_nil].
  - rewrite fillsOf_app. cbn. by rewrite app_nil_r.
Qed.

Lemma lastBar_engOk extra e bar :
  engOk extra e -> bar64 bar -> (extra = None \/ extra = Some (bar_Symbol bar)) -> engOk None (set_lastBar bar e).
Proof.
  intros [H1 H2 H3 H4 H5 H6 H7] Hb Hx.
  assert (Hin : forall s, observed extra e s -> is_Some (<[bar_Symbol bar := bar]> (en_lastBar e) !! s)).
  { intros s Hs. destruct (decide (bar_Symbol bar = s)) as [<-|Hne]; [by rewrite lookup_insert_eq|].
    rewrite lookup_insert_ne by done. destruct Hs as [?|Hs]; [done|]. destruct Hx as [-> | ->]; [done|congruence]. }
  constructor; cbn; try done.
  - intros s b Hs. destruct (H4 s b Hs) as [? ?]. split; [done|]. apply Hin. by left.
  - intros s b Hs. destruct (decide (bar_Symbol bar = s)) as [<-|Hne].
    + rewrite lookup_insert_eq in Hs. by injection Hs as <-.
    + rewrite lookup_insert_ne in Hs by done. by apply (H5 s).
  - eapply List.Forall_impl; [|exact H6]. intros f Hf. left. by apply Hin.
Qed.

Lemma process_this_engOk e bar x' r :
  fm_Timing (su_model su) = FillThisBar -> engOk None e -> bar64 bar -> is_Some (en_lastBar e !! bar_Symbol bar) ->
  ProcessBar (su_model su) fillSink bar (en_exec e) = (x', r) -> engOk None (set_exec x' e).
Proof.
  intros Ht [H1 H2 H3 H4 H5 H6 H7] Hb Hl E. unfold ProcessBar in E. rewrite Ht in E. unfold eff_bind, eff_get, eff_modify, eff_ret in E.
  assert (Hc : forall m, (m = ∅ \/ m = e_barsThisTS (en_exec e)) -> forall s b,
             <[bar_Symbol bar := bar]> m !! s = Some b -> bar64 b /\ is_Some (en_lastBar e !! s)).
  { intros m Hm s b Hs. destruct (decide (bar_Symbol bar = s)) as [<-|Hne].
    - rewrite lookup_insert_eq in Hs. by injection Hs as <-.
    - rewrite lookup_insert_ne in Hs by done. destruct Hm as [->| ->]; [by rewrite lookup_empty in Hs|by apply H4]. }
  destruct (_ || _); injection E as <- <-; (constructor; cbn; try done); apply Hc; auto.
Qed.

Lemma flush_engOk e x' n :
  engOk None e -> FlushThisBar (su_model su) fillSink (en_exec e) = (x', Ok n) -> engOk None (set_exec x' e).
Proof.
  intros Hok E. pose proof Hok as [H1 H2 H3 H4 H5 H6 H7]. destruct (fm_Timing (su_model su)) eqn:Ht.
  2:{ unfold FlushThisBar, eff_bind, eff_get in E. rewrite Ht in E. injection E as <- <-. by destruct e. }
  assert (Hbars : e_barsThisTS x' = e_barsThisTS (en_exec e)).
  { unfold FlushThisBar in E. unfold eff_bind at 1, eff_get in E. rewrite Ht in E.
    destruct (length _ =? 0)%nat; [by injection E as <- <-|]. unfold eff_bind at 1, eff_modify at 1 in E. bind_inv.
    destruct r as [rest k]. apply flushLoop_run in Hb as (l & _ & _ & _ & _ & _ & _ & Hs); [|done|done].
    destruct Hs as (_ & _ & Eb & _). exact Eb. }
  apply flush_run in E as (l & Hl & Hm & Hr & Hbs & _ & Em & Hp); [|done|done|done].
  destruct (executions_fills None e l Hl) as [F1 F2].
  { assert (Hq : Forall (fun o => in64 (o_Qty o)) (map (fun x => x.1.1) l)).
    { rewrite Hm. apply (List.incl_Forall (l1 := e_submittedThisBar (en_exec e))); [|done].
      intros o Ho. by apply filter_In in Ho as [? _]. }
    rewrite List.Forall_forall in *. intros x Hx. destruct (H4 _ _ (Hbs x Hx)) as [B1 B2].
    split; [apply Hq, (in_map (fun x => x.1.1)), Hx|]. split; [exact B1|by left]. }
  apply (engOk_emitted _ e x' _ Hok Em F1 F2); rewrite ?Hp, ?Hbars; try done.
  rewrite Hr. apply (List.incl_Forall (l1 := e_submittedThisBar (en_exec e))); [|done].
  intros o Ho. by apply filter_In in Ho as [? _].
Qed.
End Invariant.

Section Handlers.
Context {St : Type} (su : Setup St) `{!FillModelLaws (su_model su)} (start : Money) (log : option (list AccountState)).
Abbreviation ok := (engOk (St:=St) start log).

Lemma refreshContext_ok extra bar e : ok extra e -> ok extra (refreshContext su bar e) /\ keeps e (refreshContext su bar e).
Proof.
  intros [H1 H2 H3 H4 H5 H6 H7]. unfold refreshContext. destruct (en_ctx e) as [[p st]|]; [|by split].
  destruct (String.eqb _ _); [|by split]. destruct (Provider_OnBar _ _ _) as [[p' st'] u].
  split; [by constructor|by repeat split].
Qed.

Lemma count_bar_ok extra (e : Engine St) : ok extra e -> ok extra (count_bar e).
Proof. intros [H1 H2 H3 H4 H5 H6 H7]. by constructor. Qed.

Lemma timing_cases : (fm_Timing (su_model su) = FillNextBar /\ timingIs su FillNextBar = true) \/
  (fm_Timing (su_model su) = FillThisBar /\ timingIs su FillNextBar = false).
Proof. unfold timingIs. destruct (fm_Timing _); auto. Qed.

(** The part of a bar handler that both timings share. *)
Lemma bar_body_ok extra bar e1 e2 e3 e4 :
  strategiesOk (su_strategies su) -> ok extra e1 -> bar64 bar -> extra = None \/ extra = Some (bar_Symbol bar) ->
  onAcct (eff_modify (ObserveBar bar)) e1 = (e2, Ok tt) ->
  e3 = refreshContext su bar (set_lastBar bar e2) ->
  runStrategies su bar (strategiesFor (su_dispatch su) (su_broadcast su) (bar_Symbol bar)) e3 = (e4, Ok tt) ->
  ok None e4 /\ is_Some (en_lastBar e4 !! bar_Symbol bar) /\ en_smplr e4 = en_smplr e1 /\
  en_barsProcessed e4 = en_barsProcessed e1 /\ en_sampledDays e4 = en_sampledDays e1.
Proof.
  intros Hs Hok Hb Hx E2 -> E4. apply (observe_engOk start log extra) in E2 as [Hok2 (K1 & K2 & K3 & K4)]; [|done|done].
  pose proof (lastBar_engOk _ _ extra e2 bar Hok2 Hb Hx) as Hok3.
  destruct (refreshContext_ok None bar _ Hok3) as [Hok4 (L1 & L2 & L3 & L4)].
  apply (runStrategies_engOk su start log None) in E4 as [Hok5 (M1 & M2 & M3 & M4)]; [|done|done].
  splits; [done| |cbn in *; congruence|cbn in *; congruence|cbn in *; congruence].
  rewrite M1, L1. cbn. by rewrite lookup_insert_eq.
Qed.

Lemma handleBar_ok bar e e' :
  strategiesOk (su_strategies su) -> ok None e -> bar64 bar -> handleBar su bar e = (e', Ok tt) ->
  ok None e' /\ en_smplr e' = en_smplr e /\
  en_barsProcessed e' = en_barsProcessed e + 1 /\ en_sampledDays e' = en_sampledDays e.
Proof.
  intros Hs Hok Hb E. unfold handleBar in E. pose proof (count_bar_ok None e Hok) as Hokc.
  unfold eff_bind at 1, eff_modify at 1 in E. destruct timing_cases as [[Ht Et]|[Ht Et]]; rewrite Et in E; cbn [negb] in E.
  - bind_inv. unfold onExec in Hb5. destruct (ProcessBar _ _ _ _) as [x' r'] eqn:Ep. injection Hb5 as <- ->.
    destruct r0, r3. injection Hk as <-.
    apply (process_next_engOk su start log (count_bar e) bar x') in Ep; [|done|done|done].
    destruct (bar_body_ok (Some (bar_Symbol bar)) bar _ _ _ _ Hs Ep Hb ltac:(by right) Hb1 eq_refl Hb4)
      as (H1 & _ & H2 & H3 & H4). cbn in *. by splits.
  - bind_inv. destruct r0, r3. unfold onExec in Hb5. destruct (ProcessBar _ _ _ _) as [x' r'] eqn:Ep.
    injection Hb5 as <- ->. injection Hk0 as <-.
    destruct (bar_body_ok None bar _ _ _ _ Hs Hokc Hb ltac:(by left) Hb1 eq_refl Hb4) as (H1 & H0 & H2 & H3 & H4).
    apply (process_this_engOk su start log) in Ep; [|done|done|done|done]. cbn in *. by splits.
Qed.

Lemma Sample_total a ts s s' : Sample a ts s = (s', Ok tt) -> exists v, TotalCurve s' = TotalCurve s ++ [mkPoint ts v].
Proof.
  intros E. unfold Sample in E. bind_inv. injection Hk as <-. eexists. cbn. f_equal.
  assert (forall l s0, sm_total (foldl (fun s e => add_point e.1 (mkPoint ts e.2) s) s0 l) = sm_total s0) as ->; [|done].
  induction l as [|x l IH]; intros s0; cbn; [done|]. by rewrite IH.
Qed.

Lemma handleSample_ok ts e e' :
  ok None e -> handleSample su ts e = (e', Ok tt) ->
  ok None e' /\ en_barsProcessed e' = en_barsProcessed e /\ en_sampledDays e' = en_sampledDays e + 1 /\
  exists v, TotalCurve (en_smplr e') = TotalCurve (en_smplr e) ++ [mkPoint ts v].
Proof.
  intros Hok E. unfold handleSample in E. bind_inv. injection Hk as <-.
  unfold onExec in Hb. destruct (FlushThisBar _ _ _) as [x' r'] eqn:Ef. injection Hb as <- ->.
  apply (flush_engOk su start log) in Ef; [|done]. unfold onSmplr in Hb1.
  destruct (Sample _ _ _) as [s' r'] eqn:Es. injection Hb1 as <- ->. destruct r1.
  apply Sample_total in Es as [v Ev]. cbn in *. splits; [|done|done|by exists v].
  destruct Ef as [H1 H2 H3 H4 H5 H6 H7]. by constructor.
Qed.

(** ** The loop *)

(** The events a run is seeded with. *)
Definition evIn (ev : Event) : Prop :=
  match ev with BarEvent b => bar64 b | SampleEvent _ => True | FillEvent _ => False end.

Definition isBar (ev : Event) : bool := match ev with BarEvent _ => true | _ => false end.
Definition sampleOf (ev : Event) : option Z := match ev with SampleEvent ts => Some (t_ns ts) | _ => None end.

(** The engine after the events [tr]. *)
Definition runInv (tr : list Event) (e : Engine St) : Prop :=
  ok None e /\ en_barsProcessed e = Z.of_nat (length (List.filter isBar tr)) /\
  en_sampledDays e = Z.of_nat (length (omap sampleOf tr)) /\
  map (fun p => t_ns (ep_TS p)) (TotalCurve (en_smplr e)) = omap sampleOf tr.

Lemma handle_runInv ev e e' tr :
  strategiesOk (su_strategies su) -> evIn ev -> runInv tr e -> handle su ev e = (e', Ok tt) -> runInv (tr ++ [ev]) e'.
Proof.
  intros Hs Hev (Hok & Hb & Hd & Hc) E. unfold runInv. rewrite List.filter_app, length_app, omap_app, length_app.
  destruct ev as [b|f|ts]; cbn [evIn handle] in *; [| done |].
  - destruct (handleBar_ok b e e' Hs Hok Hev E) as (H1 & H2 & H3 & H4). cbn [List.filter isBar length omap list_omap sampleOf].
    rewrite H2, H3, H4, app_nil_r. splits; [done|lia|cbn; lia|done].
  - destruct (handleSample_ok ts e e' Hok E) as (H1 & H2 & H3 & v & H4).
    cbn [List.filter isBar length omap list_omap sampleOf].
    rewrite H2, H3, H4, map_app. splits; [done|cbn; lia|cbn; lia|by rewrite Hc].
Qed.

Lemma withSeq_runInv tr s e : runInv tr e -> runInv tr (withSeq s e).
Proof. intros (H1 & H2). split; [by apply engOk_seq|done]. Qed.

(** A handler call of the loop is a call of [handle]. *)
Lemma asHandler_run e ev l l' e' acc :
  runHandler l (asHandler (handle su) e ev) = Some (l', e', None, acc) ->
  exists s, handle su ev (withSeq s e) = (e', Ok tt).
Proof.
  unfold asHandler. cbn [runHandler]. set (s := nextID (queue l)).
  destruct (handle su ev (withSeq s e)) as [e1 [[]|err]] eqn:E; cbn; intros Hr; simplify_eq. by exists s.
Qed.

Lemma engineHandlers_kind k h : engineHandlers su k = Some h -> h = asHandler (handle su).
Proof. unfold engineHandlers, Register, noHandlers. repeat case_decide; intros Hh; by simplify_eq. Qed.

Lemma engineHandlers_schedule P : handlersIn P (engineHandlers su).
Proof.
  intros h st e Hk _. apply engineHandlers_kind in Hk as ->. intros s.
  by destruct (handle su e (withSeq s st)).
Qed.

Lemma engineHandlers_budget h st e : engineHandlers su (Kind e) = Some h ->
  (0 < 1)%nat /\ budget (fun _ => 1%nat) (h st e) 0.
Proof.
  intros Hk. apply engineHandlers_kind in Hk as ->. split; [lia|]. intros s. by destruct (handle su e (withSeq s st)).
Qed.

Lemma Run_runInv fuel ctxErr l e r :
  strategiesOk (su_strategies su) -> loopOk l -> Forall evIn (eventsOf (queue l)) -> runInv [] e ->
  Run fuel ctxErr 0 (engineHandlers su) l e = Some r -> r_end r = Drained -> runInv (r_trace r) (r_state r).
Proof.
  intros Hs Hl Hev Hi. apply (Run_state evIn runInv fuel ctxErr (engineHandlers su)) with (tr := []);
    [apply engineHandlers_schedule|apply engineHandlers_schedule| |done|done|done].
  intros h ev st l1 l2 st' acc tr Hk He Hst E. apply engineHandlers_kind in Hk as ->.
  apply asHandler_run in E as [s E]. by apply (handle_runInv ev (withSeq s st)); [| |apply withSeq_runInv|].
Qed.

Lemma Run_engine_terminates ctxErr l (e : Engine St) :
  loopOk l -> exists r, Run (runFuel l) ctxErr 0 (engineHandlers su) l e = Some r.
Proof.
  intros Hl. apply (Run_terminates (fun _ => 1%nat)); [apply engineHandlers_schedule| |done|].
  - intros h st ev Hk. by apply engineHandlers_budget.
  - unfold runFuel, totalWeight, eventsOf. rewrite <- length_map with (f := ev).
    assert (forall l : list Event, sum_list_with (fun _ => 1%nat) l = length l) as ->; [|lia].
    induction l0 as [|x l0 IH]; cbn; [done|]. by rewrite IH.
Qed.
End Handlers.

(** ** Liquidation *)

Section Liquidation.
Context {St : Type} (su : Setup St) `{!FillModelLaws (su_model su)} (start : Money) (log : option (list AccountState)).
Context (Hstart : in64 start).
Abbreviation ok := (engOk (St:=St) start log).
Abbreviation fillsIn e := (w_fills (e_world (en_exec e))).

(** Closing one position: a fresh order of the given side and size is recorded
    and executed in full at the bar. *)
Definition closeOne (pos : PositionSnap) (side : OrderSide) (qty : Qty) (bar : Bar) : eff (Engine St) unit :=
  coid <-! onExec NewClientOrderID ;;
  let order := NewMarketOrder coid (ps_StrategyID pos) (ps_Symbol pos) side qty "end-of-run liquidation" (bar_TS bar) in
  _ <-! eff_modify (record_order order) ;;
  onExec (FillAtBar (su_model su) fillSink order bar).

Record closed_one (pos : PositionSnap) (side : OrderSide) (qty : Qty) (e e' : Engine St) (fs : list Fill) : Prop := {
  co_ok : ok None e';
  co_keeps : keeps e e';
  co_in : Forall fillIn fs;
  co_key : Forall (fun f => (f_StrategyID f, f_Symbol f) = (ps_StrategyID pos, ps_Symbol pos)) fs;
  co_delta : sumZ (map signedDelta fs) = if String.eqb side OrderSideBuy then qty else - qty;
  co_run : runAccount (map SettledFill fs) (acctOf e) = (acctOf e', Ok tt);
  co_fills : fillsIn e' = fillsIn e ++ fs
}.

Lemma closeOne_ok pos side qty bar e e' :
  ok None e -> in64 qty -> en_lastBar e !! ps_Symbol pos = Some bar -> closeOne pos side qty bar e = (e', Ok tt) ->
  exists fs, closed_one pos side qty e e' fs.
Proof.
  intros Hok Hq Hl E. unfold closeOne in E. unfold eff_bind at 1, onExec at 1 in E. cbn in E.
  set (coid := withNumber "O-" _) in E. set (order := NewMarketOrder coid _ _ _ _ _ _) in E.
  set (e1 := record_order order _) in E. assert (Hok1 : ok None e1) by (by apply engOk_record, engOk_seq).
  unfold onExec in E. destruct (FillAtBar _ _ _ _ _) as [x' r'] eqn:Ef. injection E as <- ->.
  unfold FillAtBar in Ef. bind_inv. destruct (negb _); [done|].
  apply fill_run in Hk as (fs & Hx & Em & Hs); [|done|exact Hq].
  destruct (ek_last _ _ _ _ Hok _ _ Hl) as [_ Bo Bc].
  assert (Hin : Forall fillIn fs) by (by apply (executes_fillIn order bar)).
  exists fs. destruct Hs as (S1 & S2 & S3 & _). pose proof Hok1 as [_ K2 K3 K4 _ _ _].
  constructor; [| |done| | | |].
  - apply (engOk_emitted start log None e1 x' fs Hok1 Em Hin); rewrite ?S1, ?S2, ?S3; try done.
    apply (executes_observed None e1 order bar); [done|]. left. by exists bar.
  - by repeat split.
  - eapply List.Forall_impl; [|exact (ex_order _ _ _ Hx)]. intros f (_ & E1 & E2 & _). by rewrite E1, E2.
  - apply (executes_delta _ _ _ Hx).
  - destruct Em as [_ Em]. by apply fillSink_emitAll in Em as [? _].
  - destruct Em as [_ Em]. by apply fillSink_emitAll in Em as [_ ?].
Qed.

(** A step of the loop skips the position or closes it. *)
Lemma liquidateLoop_cons pos ps e e' : liquidateLoop su (pos :: ps) e = (e', Ok tt) ->
  ((CloseSideFor (ps_SignedQty pos) = None \/ en_lastBar e !! ps_Symbol pos = None) /\ liquidateLoop su ps e = (e', Ok tt)) \/
  exists side qty bar e1, CloseSideFor (ps_SignedQty pos) = Some side /\ Qty_Abs (ps_SignedQty pos) = Ok qty /\
    en_lastBar e !! ps_Symbol pos = Some bar /\ closeOne pos side qty bar e = (e1, Ok tt) /\
    liquidateLoop su ps e1 = (e', Ok tt).
Proof.
  intros E. cbn [liquidateLoop] in E. destruct (CloseSideFor _) as [side|]; [|by left; auto].
  unfold eff_bind at 1, eff_lift at 1 in E. destruct (Qty_Abs _) as [qty|err]; [|done].
  unfold eff_bind at 1, eff_get at 1 in E. destruct (en_lastBar e !! ps_Symbol pos) as [bar|]; [|by left; auto].
  right. exists side, qty, bar. unfold closeOne. bind_inv. destruct r1. exists s1. splits; try done.
  unfold eff_bind, eff_modify. by rewrite Hb.
Qed.

Lemma liquidateLoop_extends ps : forall e e',
  ok None e -> Forall (fun pos => in64 (ps_SignedQty pos)) ps -> liquidateLoop su ps e = (e', Ok tt) ->
  ok None e' /\ keeps e e' /\ exists fs, Forall fillIn fs /\ fillsIn e' = fillsIn e ++ fs.
Proof.
  induction ps as [|pos ps IH]; intros e e' Hok Hq E.
  - injection E as <-. splits; [done|by repeat split|]. exists []. split; [apply List.Forall_nil|by rewrite app_nil_r].
  - apply Forall_cons_1 in Hq as [Hq0 Hq].
    apply liquidateLoop_cons in E as [[_ E]|(side & qty & bar & e1 & _ & Ea & El & Ec & E)]; [by apply IH|].
    apply Qty_Abs_ok in Ea as [-> Hi]; [|done].
    apply closeOne_ok in Ec as [fs [C1 C2 C3 _ _ _ C7]]; [|done|done|done].
    destruct (IH _ _ C1 Hq E) as (I1 & I2 & gs & I3 & I4). splits; [done|by etransitivity|].
    exists (fs ++ gs). split; [by apply List.Forall_app|]. by rewrite I4, C7, app_assoc.
Qed.
End Liquidation.

(** ** The open positions of the account *)

Definition snapKey (p : PositionSnap) : StrategySymbol := (ps_StrategyID p, ps_Symbol p).

Lemma positionsInOrder_keys a keys :
  acctOk a -> Forall (fun k => is_Some (a_positions a !! k)) keys ->
  map (fun p => (p_strategyID p, p_symbol p)) (omap (fun k => a_positions a !! k) keys) = keys.
Proof.
  intros Ha. induction 1 as [|k keys [p Hp] Hk IH]; [done|]. cbn. rewrite Hp. cbn.
  destruct (acctOk_pos a Ha k p Hp) as [_ ->]. f_equal. exact IH.
Qed.

Lemma sortKeys_dom a k : k ∈ sortKeys (a_positions a) <-> is_Some (a_positions a !! k).
Proof.
  rewrite sortKeys_perm, list_elem_of_fmap. split.
  - intros ([k' p] & -> & Hin). apply elem_of_map_to_list in Hin. by exists p.
  - intros [p Hp]. exists (k, p). split; [done|]. by apply elem_of_map_to_list.
Qed.

Lemma sortKeys_NoDup a : base.NoDup (sortKeys (a_positions a)).
Proof. rewrite sortKeys_perm. apply NoDup_fst_map_to_list. Qed.

Lemma positionsInOrder_in a p : p ∈ positionsInOrder a <-> exists k, a_positions a !! k = Some p.
Proof.
  unfold positionsInOrder. rewrite list_elem_of_omap. split.
  - intros (k & _ & Hk). by exists k.
  - intros [k Hk]. exists k. split; [|done]. apply sortKeys_dom. by exists p.
Qed.

Lemma OpenPositions_spec a : acctOk a ->
  base.NoDup (map snapKey (OpenPositions a)) /\
  (forall pos, pos ∈ OpenPositions a -> exists p, a_positions a !! snapKey pos = Some p /\ pos = Position_Snapshot p) /\
  (forall k p, a_positions a !! k = Some p -> p_signedQty p <> 0 -> k ∈ map snapKey (OpenPositions a)).
Proof.
  intros Ha. unfold OpenPositions. rewrite map_map. change (fun x => snapKey (Position_Snapshot x)) with
    (fun p => (p_strategyID p, p_symbol p)).
  assert (Hin : forall p, p ∈ List.filter (fun p => negb (Position_IsFlat p)) (positionsInOrder a) <->
            (exists k, a_positions a !! k = Some p) /\ p_signedQty p <> 0).
  { intros p. rewrite list_elem_of_In, filter_In, <- list_elem_of_In, positionsInOrder_in. unfold Position_IsFlat.
    rewrite negb_true_iff, Z.eqb_neq. done. }
  splits.
  - apply NoDup_map_filter. unfold positionsInOrder. rewrite positionsInOrder_keys; [apply sortKeys_NoDup|done|].
    apply List.Forall_forall. intros k Hk. apply list_elem_of_In in Hk. by apply sortKeys_dom.
  - intros pos (p & -> & Hp)%list_elem_of_fmap. apply Hin in Hp as [[k Hk] _]. exists p. split; [|done].
    destruct (acctOk_pos a Ha k p Hk) as [_ <-]. exact Hk.
  - intros k p Hk Hq. apply list_elem_of_fmap. exists p. split; [by destruct (acctOk_pos a Ha k p Hk) as [_ ->]|].
    apply Hin. split; [by exists k|done].
Qed.

(** Whatever the fills, a position's quantity stays an [int64]. *)
Definition book64 (a : Account) : Prop := forall k p, a_positions a !! k = Some p -> in64 (p_signedQty p).

Lemma Position_ApplyFill_in64 f p p' out : Position_ApplyFill f p = (p', Ok out) -> in64 (p_signedQty p').
Proof.
  intros E. unfold Position_ApplyFill in E. destruct (f_Qty f <=? 0); [done|]. bind_inv.
  match goal with H : Qty_Add _ _ = Ok _ |- _ => rename H into Hq end.
  unfold Qty_Add, checkedAdd64 in Hq. apply of_checked_ok in Hq. cbn. repeat case_step_in Hq; res_inv; auto with go.
Qed.

Lemma Account_ApplyFill_book64 f a a' r : book64 a -> Account_ApplyFill f a = (a', Ok r) -> book64 a'.
Proof.
  intros Hb E. unfold Account_ApplyFill in E. bind_inv.
  match goal with H : getPosition _ _ _ = _ |- _ => apply getPosition_run in H as [_ ->] end.
  match goal with H : onPosition _ _ _ _ = _ |- _ => rename H into Ho end. unfold onPosition in Ho.
  destruct (Position_ApplyFill f _) as [p' r'] eqn:Ep. injection Ho as <- ->. apply Position_ApplyFill_in64 in Ep.
  assert (H3 : a_positions s3 = <[(f_StrategyID f, f_Symbol f) := p']> (a_positions s)).
  { destruct (negb _) in Hb4; bind_inv; cbn; by rewrite insert_insert_eq. }
  unfold emitAccountState in Hb6. bind_inv.
  intros k p Hp. cbn in Hp. rewrite H3 in Hp. destruct (decide ((f_StrategyID f, f_Symbol f) = k)) as [<-|Hne].
  - rewrite lookup_insert_eq in Hp. by injection Hp as <-.
  - rewrite lookup_insert_ne in Hp by done. by apply (Hb k).
Qed.

Lemma runAccount_book64 es : forall a a', book64 a -> runAccount es a = (a', Ok tt) -> book64 a'.
Proof.
  induction es as [|[b|f] es IH]; intros a a' Hb E; cbn [runAccount] in E; [by injection E as <-| |]; bind_inv.
  - by apply (IH (ObserveBar b a)).
  - apply (IH s); [|done]. by eapply Account_ApplyFill_book64.
Qed.

Section Flatten.
Context {St : Type} (su : Setup St) `{!FillModelLaws (su_model su)} (start : Money) (log : option (list AccountState)).
Context (Hstart : in64 start).
Abbreviation ok := (engOk (St:=St) start log).
Abbreviation fillsIn e := (w_fills (e_world (en_exec e))).

(** The engine's account, once the volume is known to fit. *)
Lemma engOk_account e : ok None e -> volume (fillsIn e) <= max_int64 ->
  exists es, history start log es (acctOf e) /\ fillsOf es = fillsIn e /\ historyOk start es (acctOf e).
Proof.
  intros [(es & Hh & Hf) _ _ _ _ _ _] Hv. exists es. splits; [done|done|].
  apply (history_ok start log); [done|done|by rewrite Hf].
Qed.

Lemma held_observed e key p : ok None e -> volume (fillsIn e) <= max_int64 ->
  a_positions (acctOf e) !! key = Some p -> is_Some (en_lastBar e !! p_symbol p).
Proof.
  intros Hok Hv Hp. destruct (engOk_account e Hok Hv) as (es & _ & Hf & [Ha _ _ _ _ _ Hk]).
  destruct (acctOk_pos _ Ha key p Hp) as [_ Hkey]. apply Hk in Hp. rewrite Hf in Hp.
  apply Exists_exists in Hp as (f & Hin & Ek). pose proof (ek_held _ _ _ _ Hok) as Hh. rewrite List.Forall_forall in Hh.
  specialize (Hh f Hin). rewrite <- Hkey in Ek. injection Ek as _ <-. by destruct Hh as [?|?].
Qed.

Lemma engOk_book64 e : ok None e -> book64 (acctOf e).
Proof.
  intros [(es & [Er _] & _) _ _ _ _ _ _]. apply (runAccount_book64 es) in Er; [done|].
  intros k p Hp. cbn in Hp. by rewrite lookup_empty in Hp.
Qed.

(** The snapshots still describe open positions of the account. *)
Definition stillOpen (e : Engine St) (ps : list PositionSnap) : Prop :=
  forall pos, pos ∈ ps -> exists p, a_positions (acctOf e) !! snapKey pos = Some p /\ pos = Position_Snapshot p.

Lemma stillOpen_in64 e ps : ok None e -> stillOpen e ps -> Forall (fun pos => in64 (ps_SignedQty pos)) ps.
Proof.
  intros Hok Hps. apply List.Forall_forall. intros pos Hin. apply list_elem_of_In in Hin.
  destruct (Hps pos Hin) as (p & Hp & ->). exact (engOk_book64 e Hok _ _ Hp).
Qed.

Lemma liquidate_volume ps e e' : ok None e -> Forall (fun pos => in64 (ps_SignedQty pos)) ps ->
  liquidateLoop su ps e = (e', Ok tt) -> volume (fillsIn e) <= volume (fillsIn e').
Proof.
  intros Hok Hps E. destruct (liquidateLoop_extends su start log ps e e' Hok Hps E) as (_ & _ & gs & G1 & G2).
  rewrite G2, volume_app. pose proof (volume_nonneg gs G1). lia.
Qed.

Lemma closed_one_flat pos p e e1 fs side :
  ok None e -> a_positions (acctOf e) !! snapKey pos = Some p -> pos = Position_Snapshot p ->
  CloseSideFor (p_signedQty p) = Some side -> closed_one start log pos side (Z.abs (p_signedQty p)) e e1 fs ->
  volume (fillsIn e1) <= max_int64 ->
  p_signedQty (posAt (acctOf e1) (snapKey pos)) = 0 /\
  (forall k, k <> snapKey pos -> a_positions (acctOf e1) !! k = a_positions (acctOf e) !! k).
Proof.
  intros Hok Hp -> Hside [_ _ C3 C4 C5 C6 C7] Hv. rewrite C7, volume_app in Hv. pose proof (volume_nonneg fs C3).
  destruct (engOk_account e Hok) as (es & Hh & Hf & _); [lia|].
  destruct (settle_order start log es (acctOf e) fs (acctOf e1) (snapKey (Position_Snapshot p))) as [S1 S2];
    [done|done|done|exact C4|by rewrite Hf|done|].
  split; [|done]. rewrite S1, C5. unfold posAt. rewrite Hp. cbn. unfold CloseSideFor in Hside.
  destruct (Z.ltb_spec 0 (p_signedQty p)); [injection Hside as <-; cbn; lia|].
  destruct (Z.ltb_spec (p_signedQty p) 0); [injection Hside as <-; cbn; lia|done].
Qed.

Lemma liquidateLoop_flattens ps : forall e e',
  ok None e -> volume (fillsIn e') <= max_int64 -> base.NoDup (map snapKey ps) ->
  stillOpen e ps ->
  (forall k p, a_positions (acctOf e) !! k = Some p -> p_signedQty p <> 0 -> k ∈ map snapKey ps) ->
  liquidateLoop su ps e = (e', Ok tt) ->
  forall k p, a_positions (acctOf e') !! k = Some p -> p_signedQty p = 0.
Proof.
  induction ps as [|pos ps IH]; intros e e' Hok Hv Hd Hps Hall E k p Hp.
  { injection E as <-. destruct (decide (p_signedQty p = 0)) as [|Hn]; [done|].
    specialize (Hall k p Hp Hn). by apply not_elem_of_nil in Hall. }
  cbn [map] in Hd. apply list.NoDup_cons in Hd as [Hn Hd]. pose proof (stillOpen_in64 e _ Hok Hps) as H64s.
  pose proof (liquidate_volume _ _ _ Hok H64s E) as Hve. apply Forall_cons_1 in H64s as [_ H64s].
  destruct (Hps pos ltac:(by left)) as (q & Hq & Epos).
  assert (Hrest : stillOpen e ps) by (intros x Hx; apply Hps; by right).
  assert (Eq : ps_SignedQty pos = p_signedQty q) by (by rewrite Epos).
  apply liquidateLoop_cons in E as [[Hskip E]|(side & qty & bar & e1 & Hside & Ea & El & Ec & E)].
  - assert (Hq0 : p_signedQty q = 0).
    { destruct Hskip as [Hs|Hs].
      - rewrite Eq in Hs. unfold CloseSideFor in Hs. destruct (Z.ltb_spec 0 (p_signedQty q)); [done|].
        destruct (Z.ltb_spec (p_signedQty q) 0); [done|lia].
      - destruct (held_observed e _ q Hok ltac:(lia) Hq) as [b Hb]. rewrite Epos in Hs. cbn in Hs. congruence. }
    apply (IH e e' Hok Hv Hd Hrest) with (k := k); [|done|done].
    intros k' p' Hp' Hne. specialize (Hall k' p' Hp' Hne). apply elem_of_cons in Hall as [->|?]; [congruence|done].
  - rewrite Eq in Hside, Ea. apply Qty_Abs_ok in Ea as [-> H64]; [|by apply (engOk_book64 e Hok _ _ Hq)].
    apply (closeOne_ok su start log) in Ec as [fs Hc]; [|done|done|done].
    pose proof (co_ok _ _ _ _ _ _ _ _ Hc) as Hok1.
    pose proof (liquidate_volume _ _ _ Hok1 H64s E) as Hv1.
    destruct (closed_one_flat pos q e e1 fs side Hok Hq Epos Hside Hc ltac:(lia)) as [Hflat Hkeep].
    apply (IH e1 e' Hok1 Hv Hd) with (k := k); [| |done|done].
    + intros x Hx. rewrite Hkeep; [by apply Hrest|]. intros Hk. apply Hn. rewrite <- Hk. apply list_elem_of_fmap. by exists x.
    + intros k' p' Hp' Hne. destruct (decide (k' = snapKey pos)) as [->|Hk'].
      * unfold posAt in Hflat. rewrite Hp' in Hflat. done.
      * rewrite Hkeep in Hp' by done. specialize (Hall k' p' Hp' Hne). by apply elem_of_cons in Hall as [?|?].
Qed.
End Flatten.

(** ** Assembly *)

Lemma seedLoop_ok es : forall l, loopOk l -> Forall inRange es ->
  exists r, seedLoop es l = Some r /\
    forall l', r = Ok l' -> loopOk l' /\ eventsOf (queue l') ≡ₚ es ++ eventsOf (queue l).
Proof.
  induction es as [|e es IH]; intros l Hl Hr; cbn [seedLoop].
  - exists (Ok l). split; [done|]. by intros l' [= <-].
  - apply Forall_cons_1 in Hr as [He Hr]. destruct (Schedule_ok l e Hl He) as (r & l1 & E & Hl1 & _ & _ & Hp).
    rewrite E. cbn. destruct r as [s|err]; [|exists (Err err); by split].
    destruct (IH l1 Hl1 Hr) as (r2 & E2 & H2). exists r2. split; [done|].
    intros l' El. destruct (H2 l' El) as [H3 H4]. split; [done|]. rewrite H4, Hp. cbn. by rewrite <- Permutation_middle.
Qed.

Definition tsSet (bars : list Bar) : gmap Z time :=
  foldl (fun m b => <[UnixNano (bar_TS b) := bar_TS b]> m) ∅ bars.

Lemma tsSet_lookup bars k t : tsSet bars !! k = Some t -> exists b, b ∈ bars /\ t = bar_TS b /\ k = UnixNano t.
Proof.
  unfold tsSet. revert t. induction bars as [|b bars IH] using rev_ind; intros t; [cbn; by rewrite lookup_empty|].
  rewrite foldl_app. cbn [foldl]. destruct (decide (UnixNano (bar_TS b) = k)) as [<-|Hne].
  - rewrite lookup_insert_eq. intros [= <-]. exists b. split; [|done]. apply elem_of_app. right. by apply list_elem_of_singleton.
  - rewrite lookup_insert_ne by done. intros H. destruct (IH t H) as (b' & Hb & H'). exists b'. split; [|done].
    apply elem_of_app. by left.
Qed.

Lemma sampleTimes_perm bars : sampleTimes bars ≡ₚ map snd (map_to_list (tsSet bars)).
Proof. apply sortBy_perm. Qed.

Lemma sampleTimes_in bars t : t ∈ sampleTimes bars -> exists b, b ∈ bars /\ t = bar_TS b.
Proof.
  rewrite sampleTimes_perm, list_elem_of_fmap. intros ([k t'] & -> & H). apply elem_of_map_to_list in H.
  destruct (tsSet_lookup bars k t' H) as (b & Hb & -> & _). by exists b.
Qed.

Lemma sampleTimes_sorted bars : StronglySorted Z.le (map t_ns (sampleTimes bars)).
Proof.
  pose proof (sortBy_sorted t_ns (map snd (map_to_list (tsSet bars)))) as H.
  change (sortBy _ _) with (sampleTimes bars) in H. induction H as [|x l Hx Hl IH]; [constructor|].
  cbn [map]. constructor; [done|]. by apply List.Forall_map.
Qed.

Lemma tsSet_has bars b : b ∈ bars -> is_Some (tsSet bars !! UnixNano (bar_TS b)).
Proof.
  unfold tsSet. induction bars as [|b' bars IH] using rev_ind; intros Hb; [by apply not_elem_of_nil in Hb|]. rewrite foldl_app. cbn [foldl].
  apply lookup_insert_is_Some. destruct (decide (UnixNano (bar_TS b') = UnixNano (bar_TS b))) as [|Hne]; [by left|right; split; [done|]].
  apply elem_of_app in Hb as [Hb|Hb]; [by apply IH|]. apply list_elem_of_singleton in Hb as ->. done.
Qed.

(** The sample times are the instants of the bars, each once, in increasing order. *)
Lemma sampleTimes_exact bars : Forall bar64 bars ->
  StronglySorted Z.lt (map t_ns (sampleTimes bars)) /\ (forall t, In t (map t_ns (sampleTimes bars)) <-> exists b, In b bars /\ t_ns (bar_TS b) = t).
Proof.
  intros Hb. rewrite List.Forall_forall in Hb.
  assert (Hkey : forall k t, tsSet bars !! k = Some t -> k = t_ns t).
  { intros k t E. destruct (tsSet_lookup bars k t E) as (b & Hin & -> & ->). unfold UnixNano. apply wrap64_id, bar64_ts, Hb. by apply list_elem_of_In. }
  assert (Hperm : map t_ns (sampleTimes bars) ≡ₚ map fst (map_to_list (tsSet bars))).
  { rewrite sampleTimes_perm, map_map. erewrite map_ext_in; [reflexivity|]. intros [k t] Hin. cbn. symmetry. apply Hkey, elem_of_map_to_list. by apply list_elem_of_In. }
  split.
  - assert (Hnd : List.NoDup (map t_ns (sampleTimes bars))) by (rewrite Hperm; apply NoDup_ListNoDup, NoDup_fst_map_to_list).
    pose proof (sampleTimes_sorted bars) as Hs. clear Hperm Hkey. induction Hs as [|x l Hl IH Hx]; [constructor|]. apply List.NoDup_cons_iff in Hnd as [Hn Hnd].
    constructor; [by apply IH|]. apply List.Forall_forall. intros y Hy. rewrite List.Forall_forall in Hx. specialize (Hx y Hy).
    assert (x <> y) by congruence. lia.
  - intros t. rewrite Hperm, in_map_iff. split.
    + intros ([k t'] & <- & Hin). apply list_elem_of_In, elem_of_map_to_list in Hin. destruct (tsSet_lookup bars k t' Hin) as (b & Hbin & -> & _).
      exists b. split; [by apply list_elem_of_In|]. cbn. symmetry. by apply Hkey.
    + intros (b & Hin & <-). destruct (tsSet_has bars b) as [t' Et]; [by apply list_elem_of_In|]. exists (UnixNano (bar_TS b), t').
      split; [cbn; unfold UnixNano; by apply wrap64_id, bar64_ts, Hb|]. by apply list_elem_of_In, elem_of_map_to_list.
Qed.

Lemma omap_samples (bars : list Bar) times :
  omap sampleOf (map BarEvent bars ++ map SampleEvent times) = map t_ns times.
Proof.
  rewrite omap_app. assert (omap sampleOf (map BarEvent bars) = []) as ->.
  { induction bars as [|b bars IH]; [done|exact IH]. }
  cbn. induction times as [|t times IH]; [done|]. cbn. f_equal. exact IH.
Qed.

Lemma filter_bars (bars : list Bar) times :
  length (List.filter isBar (map BarEvent bars ++ map SampleEvent times)) = length bars.
Proof.
  rewrite List.filter_app, length_app. assert (List.filter isBar (map SampleEvent times) = []) as ->.
  { induction times as [|t times IH]; [done|exact IH]. }
  cbn. rewrite Nat.add_0_r. induction bars as [|b bars IH]; [done|]. cbn. by rewrite IH.
Qed.

Lemma samples_sorted tr : StronglySorted notBefore tr -> StronglySorted Z.le (omap sampleOf tr).
Proof.
  induction 1 as [|e tr Htr IH He]; [constructor|]. cbn. destruct e as [b|f|ts]; cbn; [done|done|].
  constructor; [done|]. apply List.Forall_forall. intros z Hz. apply list_elem_of_In, list_elem_of_omap in Hz as (e' & Hin & E).
  rewrite List.Forall_forall in He. apply list_elem_of_In in Hin. specialize (He e' Hin). unfold notBefore in He.
  destruct e'; [done|done|]. injection E as <-. exact He.
Qed.

(** The quantities of a configuration are [int64] values, as the code's types have them. *)
Record configOk {St} (cfg : Config St) : Prop := {
  ck_start : in64 (cfg_StartingBalance cfg);
  ck_intents : Forall (fun s => Forall (fun i => in64 (in_Qty i)) (sp_Intents s)) (cfg_Strategies cfg);
  ck_prebuilt : Forall (fun o => forall s x, o = Some (s, x) -> forall st bar, sprogOk (s_OnBar s st bar)) (cfg_Prebuilt cfg)
}.

Section Assembled.
Context {St : Type} (idle : St).

Lemma scriptedLoop_ok id ts (st : St) intents :
  Forall (fun i => in64 (in_Qty i)) intents -> sprogOk (scriptedLoop id ts st intents).
Proof.
  induction 1 as [|i rest Hi Hr IH]; cbn [scriptedLoop]; [done|]. destruct (_ || _).
  - destruct (OrderSideFor _); [|done]. cbn. split; [done|]. by intros [].
  - destruct (String.eqb _ _); [|done]. cbn. intros net Hn. destruct (CloseSideFor net); [|done]. cbn.
    split; [destruct (net <? 0); auto with go|]. by intros [].
Qed.

Lemma buildScripted_ok specs (ss : list (Strategy St)) :
  Forall (fun s => Forall (fun i => in64 (in_Qty i)) (sp_Intents s)) specs -> buildScripted specs = Ok ss -> strategiesOk ss.
Proof.
  intros Hs. revert ss. induction Hs as [|s specs Hs Hss IH]; intros ss E; cbn [buildScripted] in E.
  - injection E as <-. apply List.Forall_nil.
  - bind_inv. injection Hk0 as <-. apply List.Forall_cons; [|by apply IH]. unfold NewScriptedStrategy in Hb.
    destruct (String.eqb _ _); [done|]. destruct (negb _); [done|]. injection Hb as <-. intros st bar. cbn.
    unfold scriptedOnBar. apply scriptedLoop_ok. apply (List.incl_Forall (l1 := sp_Intents s)); [|done].
    intros i Hi. by apply filter_In in Hi as [? _].
Qed.

(** What [New] hands to [Run]. *)
Record assembled (cfg : Config St) (bars : list Bar) (su : Setup St) (l : Loop) (e : Engine St) : Prop := {
  as_cfg : su_cfg su = cfg;
  as_laws : FillModelLaws (su_model su);
  as_strategies : strategiesOk (su_strategies su);
  as_loop : loopOk l;
  as_events : eventsOf (queue l) ≡ₚ map BarEvent bars ++ map SampleEvent (sampleTimes bars);
  as_exec : en_exec e = NewSimExecutor 0 (mkWorld (NewAccount (cfg_StartingBalance cfg) (Some [])) []);
  as_empty : en_smplr e = NewEquitySampler /\ en_lastBar e = ∅ /\ en_barsProcessed e = 0 /\ en_sampledDays e = 0
}.

Lemma seeds_inRange bars : Forall bar64 bars -> Forall inRange (map BarEvent bars ++ map SampleEvent (sampleTimes bars)).
Proof.
  intros Hb. apply List.Forall_app. split; apply List.Forall_map.
  - eapply List.Forall_impl; [|exact Hb]. by intros b [? _ _].
  - apply List.Forall_forall. intros t Ht. apply list_elem_of_In, sampleTimes_in in Ht as (b & Hin & ->).
    rewrite List.Forall_forall in Hb. apply list_elem_of_In in Hin. by destruct (Hb b Hin).
Qed.

Lemma New_assembles cfg instruments : configOk cfg -> Forall bar64 (barsOf instruments) ->
  exists r, New idle cfg (Ok instruments) = Some r /\
    forall su l e, r = Ok (su, l, e) -> assembled cfg (barsOf instruments) su l e.
Proof.
  intros [C1 C2 C3] Hb. unfold New. destruct (validateConfig cfg) as [[]|err]; [|by exists (Err err)].
  destruct (buildModel _ _) as [model|err] eqn:Em; [|by exists (Err err)].
  set (built := if (0 <? length (cfg_Prebuilt cfg))%nat then _ else _).
  assert (Hs : forall pairs, built = Ok pairs -> strategiesOk (map fst pairs)).
  { unfold built. intros pairs. destruct (_ <? _)%nat.
    - intros [= <-]. apply List.Forall_map, List.Forall_forall. intros [s x] Hin.
      apply list_elem_of_In, list_elem_of_omap in Hin as (o & Ho & E). apply list_elem_of_In in Ho.
      rewrite List.Forall_forall in C3. exact (C3 o Ho s x E).
    - intros E. bind_inv. injection Hk as <-. rewrite map_map. cbn. rewrite map_id. by apply (buildScripted_ok (cfg_Strategies cfg)). }
  destruct built as [pairs|err]; [|by exists (Err err)]. specialize (Hs pairs eq_refl).
  destruct (buildDispatch _ _) as [dispatch broadcast]. unfold seed.
  destruct (seedLoop_ok _ NewLoop NewLoop_ok (seeds_inRange _ Hb)) as (r & E & Hl). rewrite E. cbn.
  destruct r as [l|err]; [|by exists (Err err)]. destruct (Hl l eq_refl) as [Hl1 Hl2]. rewrite app_nil_r in Hl2.
  eexists. split; [reflexivity|]. intros su l' e [= <- <- <-]. constructor; cbn; try done.
  unfold buildModel in Em. destruct (String.eqb _ _); [injection Em as <-; apply _|].
  destruct (String.eqb _ _); [injection Em as <-; apply _|done].
Qed.
End Assembled.

(** ** The end of a run *)

Lemma flat_book_cost a : acctOk a -> (forall k p, a_positions a !! k = Some p -> p_signedQty p = 0) -> totalCost a = 0.
Proof.
  intros Ha Hf. unfold totalCost, mapSum.
  assert (H : forall kv, kv ∈ map_to_list (a_positions a) -> signedCost kv.2 = 0).
  { intros [k p] Hin. apply elem_of_map_to_list in Hin. destruct (acctOk_pos a Ha k p Hin) as [Hp _].
    cbn [snd]. unfold signedCost. rewrite (posOk_flat p Hp (Hf k p Hin)). lia. }
  induction (map_to_list (a_positions a)) as [|kv l IH]; [done|]. cbn [map]. rewrite sumZ_cons, H by (by left).
  rewrite IH; [done|]. intros kv' Hin. apply H. by right.
Qed.

Section Finish.
Context {St : Type} (su : Setup St) `{!FillModelLaws (su_model su)} (start : Money) (log : option (list AccountState)).
Context (Hstart : in64 start) (Hcfg : cfg_StartingBalance (su_cfg su) = start).
Abbreviation ok := (engOk (St:=St) start log).
Abbreviation fillsIn e := (w_fills (e_world (en_exec e))).

(** The books balance: what a result says of cash and positions. *)
Definition balanced (r : Result) : Prop :=
  Forall (fun p => ps_SignedQty p = 0) (res_Positions r) /\
  Z.abs (res_FinalBalance r - (res_StartingBalance r - cashOut (res_Fills r))) <= 50 * Z.of_nat (length (res_Fills r)) /\
  res_TotalPnL r = res_FinalBalance r - res_StartingBalance r.

Lemma buildResult_balanced e r :
  ok None e -> (forall k p, a_positions (acctOf e) !! k = Some p -> p_signedQty p = 0) ->
  volume (fillsIn e) <= max_int64 -> buildResult su e = Ok r -> balanced r.
Proof.
  intros Hok Hflat Hv E. destruct (engOk_account start log Hstart e Hok Hv) as (es & _ & Hf & [Ha _ Hs _ Hc _ _]).
  unfold buildResult in E. bind_inv. injection Hk0 as <-. rewrite Hcfg in *.
  unfold Cash in Hb. apply Money_Add_ok in Hb as [-> B]; [|apply (acctOk_start _ Ha)|apply (acctOk_realized _ Ha)].
  apply Money_Sub_ok in Hb0 as [-> _]; [|done|done]. rewrite Hf, (flat_book_cost _ Ha Hflat) in Hc. unfold balanced.
  cbn [res_Positions res_FinalBalance res_StartingBalance res_Fills res_TotalPnL].
  rewrite Hs. splits; [|lia|done]. unfold AllPositions. apply List.Forall_map, List.Forall_forall. intros p Hp.
  apply list_elem_of_In, positionsInOrder_in in Hp as [k Hk]. exact (Hflat k p Hk).
Qed.

Lemma buildResult_fields e r : buildResult su e = Ok r ->
  res_BarsProcessed r = en_barsProcessed e /\ res_SampledDays r = en_sampledDays e /\
  res_TotalEquityCurve r = TotalCurve (en_smplr e) /\ res_Fills r = fillsIn e.
Proof. intros E. unfold buildResult in E. bind_inv. by injection Hk0 as <-. Qed.

(** The final flush and the liquidation leave the counters and the curves. *)
Lemma finishRun_spec e r :
  ok None e -> finishRun su e = Ok r ->
  res_BarsProcessed r = en_barsProcessed e /\ res_SampledDays r = en_sampledDays e /\
  res_TotalEquityCurve r = TotalCurve (en_smplr e) /\ (volume (res_Fills r) <= max_int64 -> balanced r).
Proof.
  intros Hok E. unfold finishRun in E. destruct (eff_bind _ _ e) as [e2 [[]|err]] eqn:E2; [|done]. bind_inv.
  unfold onExec in Hb. destruct (FlushThisBar _ _ _) as [x' r'] eqn:Ef. injection Hb as <- ->.
  apply (flush_engOk su start log) in Ef; [|done]. set (e1 := set_exec x' e) in *.
  unfold liquidateOpenPositions, eff_bind, eff_get in Hk.
  pose proof Ef as [(es & [Er Hes] & _) _ _ _ _ _ _].
  assert (Hopen : Forall (fun pos => in64 (ps_SignedQty pos)) (OpenPositions (acctOf e1))).
  { unfold OpenPositions. apply List.Forall_map, List.Forall_forall. intros p Hp. apply filter_In in Hp as [Hp _].
    apply list_elem_of_In, positionsInOrder_in in Hp as [k Hp]. exact (engOk_book64 start log e1 Ef k p Hp). }
  destruct (liquidateLoop_extends su start log _ e1 e2 Ef Hopen Hk) as (Hok2 & (_ & K2 & K3 & K4) & _).
  destruct (buildResult_fields e2 r E) as (-> & -> & -> & Hfs). rewrite Hfs, K2, K3, K4. splits; try done.
  intros Hv. apply (buildResult_balanced e2); [done| |done|done].
  pose proof (liquidate_volume su start log _ e1 e2 Ef Hopen Hk) as Hve.
  destruct (engOk_account start log Hstart e1 Ef ltac:(cbn in Hv; lia)) as (es1 & _ & _ & [Ha _ _ _ _ _ _]).
  destruct (OpenPositions_spec (acctOf e1) Ha) as (O1 & O2 & O3).
  by apply (liquidateLoop_flattens su start log Hstart (OpenPositions (acctOf e1)) e1 e2).
Qed.
End Finish.

(** A run of an assembled engine, from the first account state to the result. *)
Record completed (bars : list Bar) (r : Result) : Prop := {
  cp_bars : res_BarsProcessed r = Z.of_nat (length bars);
  cp_days : res_SampledDays r = Z.of_nat (length (sampleTimes bars));
  cp_curve : map (fun p => t_ns (ep_TS p)) (res_TotalEquityCurve r) = map t_ns (sampleTimes bars)
}.

Section Completes.
Context {St : Type} (cfg : Config St) (bars : list Bar) (su : Setup St) (l : Loop) (e : Engine St) (ctxErr : nat -> bool).
Context (Hstart : in64 (cfg_StartingBalance cfg)) (Hbars : Forall bar64 bars) (Has : assembled cfg bars su l e).
Abbreviation start := (cfg_StartingBalance cfg).

(** The first account state opens the log; the book is empty. *)
Lemma initial_runInv ts e1 : onAcct (EmitInitialState ts) e = (e1, Ok tt) ->
  exists log, runInv start log [] e1.
Proof.
  destruct Has as [_ _ _ _ _ Ex (E1 & E2 & E3 & E4)]. unfold onAcct. rewrite Ex. cbn [e_world NewSimExecutor w_acct].
  destruct (EmitInitialState ts _) as [a r] eqn:Ea. intros [= <- ->].
  assert (exists log, a = NewAccount start log) as [log ->].
  { unfold EmitInitialState, emitAccountState in Ea. bind_inv. injection Hk0 as <-. by eexists. }
  exists log. unfold runInv. cbn. rewrite E1, E3, E4. splits; try done. constructor; cbn; try apply List.Forall_nil.
  - exists []. by repeat split.
  - intros s os H. by rewrite lookup_empty in H.
  - intros s b H. by rewrite lookup_empty in H.
  - intros s b H. rewrite E2 in H. by rewrite lookup_empty in H.
Qed.

Lemma seeds_evIn : Forall evIn (eventsOf (queue l)).
Proof.
  rewrite (as_events _ _ _ _ _ Has). apply List.Forall_app. split; apply List.Forall_map; [done|].
  by apply List.Forall_forall.
Qed.

(** Nothing is scheduled during the run, so the trace is the seeded events in
    time order. *)
Lemma trace_counts fuel (e1 : Engine St) r :
  Run fuel ctxErr 0 (engineHandlers su) l e1 = Some r -> r_end r = Drained ->
  length (List.filter isBar (r_trace r)) = length bars /\ omap sampleOf (r_trace r) = map t_ns (sampleTimes bars).
Proof.
  intros Er Hd. destruct Has as [_ _ _ Hl Hev _ _].
  destruct (Run_ok fuel ctxErr _ (engineHandlers_schedule su inRange) 0 l e1 r Hl Er) as (_ & Hsorted & _ & _ & Hp).
  specialize (Hp Hd).
  pose proof (Run_scheduled (fun _ => False) fuel ctxErr _ (engineHandlers_schedule su inRange)
                (engineHandlers_schedule su _) 0 l e1 r Hl Er) as Hn.
  destruct (r_scheduled r) as [|x xs]; [|by apply Forall_cons_1 in Hn as [[] _]]. rewrite app_nil_r, Hev in Hp. split.
  - rewrite (filter_length_perm isBar _ _ Hp). apply filter_bars.
  - apply (StronglySorted_unique Z.le); [by apply samples_sorted|apply sampleTimes_sorted|].
    rewrite Hp. by rewrite omap_samples.
Qed.

Lemma Engine_Run_total : exists out, Engine_Run su ctxErr l e = Some out /\
  forall r, out = Ok r -> completed bars r /\ (volume (res_Fills r) <= max_int64 -> balanced r).
Proof.
  unfold Engine_Run. destruct (onAcct _ e) as [e1 [[]|err]] eqn:Ei; [|by exists (Err err)].
  apply initial_runInv in Ei as [log Hi]. pose proof Has as [Hcfg Hlaws Hs Hl _ _ _].
  destruct (Run_engine_terminates su ctxErr l e1 Hl) as [r Er]. rewrite Er. cbn.
  destruct (r_end r) eqn:Hend; try (eexists; split; [reflexivity|done]).
  eexists. split; [reflexivity|]. intros res Hres.
  destruct (trace_counts _ _ _ Er Hend) as [T1 T2].
  destruct (Run_runInv su start log _ ctxErr l e1 r Hs Hl seeds_evIn Hi Er Hend) as (Hok & I1 & I2 & I3).
  destruct (finishRun_spec su start log Hstart ltac:(by rewrite Hcfg) (withSeq (nextID (queue (r_loop r))) (r_state r)) res)
    as (F1 & F2 & F3 & F4); [by apply engOk_seq|done|].
  cbn in F1, F2, F3. split; [|done]. rewrite T1 in I1. rewrite T2 in I2, I3. rewrite length_map in I2.
  constructor; congruence.
Qed.
End Completes.

(** ** Claims *)

(** C30: a backtest over any feed and any strategies completes: assembly returns,
    the run returns within the fuel of its seeded events, and a result reports
    every bar as processed, as many sampled days as equity points, and an equity
    curve whose times strictly increase and are exactly the timestamps of the bars:
    one point for each distinct timestamp. *)
Theorem engine_run_completes {St} (idle : St) cfg instruments ctxErr :
  configOk cfg -> Forall bar64 (barsOf instruments) ->
  exists asm, New idle cfg (Ok instruments) = Some asm /\
    forall su l e, asm = Ok (su, l, e) ->
    exists out, Engine_Run su ctxErr l e = Some out /\
      forall r, out = Ok r ->
        let times := map (fun p => t_ns (ep_TS p)) (res_TotalEquityCurve r) in
        res_BarsProcessed r = Z.of_nat (length (List.concat (map ib_Bars instruments))) /\
        res_SampledDays r = Z.of_nat (length times) /\
        StronglySorted Z.lt times /\
        (forall t, In t times <-> exists i b, In i instruments /\ In b (ib_Bars i) /\ t_ns (bar_TS b) = t).
Proof.
  intros Hc Hb. destruct (New_assembles idle cfg instruments Hc Hb) as (asm & E & Ha). exists asm. split; [done|].
  intros su l e He. destruct (Engine_Run_total cfg _ su l e ctxErr (ck_start cfg Hc) Hb (Ha su l e He)) as (out & Eo & Ho).
  exists out. split; [done|]. intros r Hr. destruct (Ho r Hr) as [[H1 H2 H3] _]. cbv zeta. rewrite H3. destruct (sampleTimes_exact _ Hb) as [S1 S2].
  splits; [done|by rewrite length_map|done|]. intros t. rewrite S2. unfold barsOf. split.
  - intros (b & Hin & <-). apply in_concat in Hin as (l' & Hl & Hin). apply in_map_iff in Hl as (i & <- & Hi). by exists i, b.
  - intros (i & b & Hi & Hin & <-). exists b. split; [|done]. apply in_concat. exists (ib_Bars i). split; [by apply in_map|done].
Qed.

(** C1: the books of a backtest balance whatever the strategies do: a run that
    returns a result has closed every position, and its final balance is the
    starting balance less the net cash paid for the fills it reports, to
    within half a cent per fill; the total profit is the difference. *)
Theorem engine_final_balance {St} (idle : St) cfg instruments ctxErr su l e r :
  configOk cfg -> Forall bar64 (barsOf instruments) ->
  New idle cfg (Ok instruments) = Some (Ok (su, l, e)) ->
  Engine_Run su ctxErr l e = Some (Ok r) -> volume (res_Fills r) <= max_int64 ->
  Forall (fun p => ps_SignedQty p = 0) (res_Positions r) /\
  Z.abs (res_FinalBalance r - (res_StartingBalance r - cashOut (res_Fills r))) <= 50 * Z.of_nat (length (res_Fills r)) /\
  res_TotalPnL r = res_FinalBalance r - res_StartingBalance r.
Proof.
  intros Hc Hb En Er Hv. destruct (New_assembles idle cfg instruments Hc Hb) as (asm & E & Ha). rewrite En in E.
  injection E as <-. destruct (Engine_Run_total cfg _ su l e ctxErr (ck_start cfg Hc) Hb (Ha su l e eq_refl)) as (out & Eo & Ho).
  rewrite Er in Eo. injection Eo as <-. by destruct (Ho r eq_refl) as [_ H]; apply H.
Qed.

(** *** A small backtest: two symbols over three days, one left short *)

Definition demoDay (n : Z) : time := mkTime ((20000 + n) * dayNs) 0.
Definition demoEngBar (sym : string) (n o c : Z) : Bar := Build_Bar sym (demoDay n) o (Z.max o c) (Z.min o c) c 100000.

Definition demoFeed : list InstrumentBars :=
  [mkInstrument "AAA" [demoEngBar "AAA" 1 1000000 1010000; demoEngBar "AAA" 2 1015000 1020000; demoEngBar "AAA" 3 1021000 1030000];
   mkInstrument "BBB" [demoEngBar "BBB" 1 500000 505000; demoEngBar "BBB" 2 505000 500000; demoEngBar "BBB" 3 501000 495000]].

Definition demoIntents : list Intent :=
  [mkIntent (demoDay 1) "AAA" SideLong 60; mkIntent (demoDay 3) "AAA" SideFlat 0; mkIntent (demoDay 1) "BBB" SideShort 5].

Definition demoConfig (profile : FillProfile) : Config unit :=
  mkConfig ["AAA"; "BBB"] (mkDate 2024 10 5) (mkDate 2024 10 7) 1000000000 profile demoRealistic
    [mkStrategySpec "S1" demoIntents] [] None None "" None.

Definition demoRun (profile : FillProfile) : option (res Result) :=
  asm ← New tt (demoConfig profile) (Ok demoFeed);
  match asm with
  | Ok (su, l, e) => Engine_Run su (fun _ => false) l e
  | Err err => Some (Err err)
  end.

Lemma demoConfig_ok profile : configOk (demoConfig profile).
Proof.
  constructor; cbn; [rlia| |apply List.Forall_nil]. apply List.Forall_cons; [|apply List.Forall_nil].
  repeat apply List.Forall_cons; try apply List.Forall_nil; cbn; rlia.
Qed.

Lemma demoFeed_ok : Forall bar64 (barsOf demoFeed).
Proof. repeat apply List.Forall_cons; try apply List.Forall_nil; constructor; split; vm_compute; discriminate. Qed.

Lemma engine_run_completes_witness :
  configOk (demoConfig "close-fill") /\ Forall bar64 (barsOf demoFeed) /\
  exists asm, New tt (demoConfig "close-fill") (Ok demoFeed) = Some asm /\
    forall su l e, asm = Ok (su, l, e) -> exists out, Engine_Run su (fun _ => false) l e = Some out.
Proof.
  split; [apply demoConfig_ok|]. split; [apply demoFeed_ok|].
  destruct (engine_run_completes tt (demoConfig "close-fill") demoFeed (fun _ => false) (demoConfig_ok _) demoFeed_ok)
    as (asm & E & H).
  exists asm. split; [exact E|]. intros su l e He. destruct (H su l e He) as (out & Eo & _). by exists out.
Defined.

Lemma engine_final_balance_witness :
  exists r, demoRun "" = Some (Ok r) /\ Forall (fun p => ps_SignedQty p = 0) (res_Positions r) /\
    res_TotalPnL r = res_FinalBalance r - res_StartingBalance r.
Proof.
  assert (Hn : match New tt (demoConfig "") (Ok demoFeed) with Some (Ok _) => true | _ => false end = true)
    by (vm_compute; reflexivity).
  destruct (New tt (demoConfig "") (Ok demoFeed)) as [[[[su l] e]|err]|] eqn:En; [|discriminate|discriminate].
  assert (Ed : demoRun "" = Engine_Run su (fun _ => false) l e) by (unfold demoRun; rewrite En; reflexivity).
  destruct (demoRun "") as [[r|err]|] eqn:Er;
    [|exfalso; revert Er; vm_compute; discriminate|exfalso; revert Er; vm_compute; discriminate].
  exists r. split; [reflexivity|].
  assert (Hv : volume (res_Fills r) <= max_int64).
  { revert Er. clear. intros Er. vm_compute in Er. injection Er as <-. vm_compute. discriminate. }
  destruct (engine_final_balance tt (demoConfig "") demoFeed (fun _ => false) su l e r (demoConfig_ok _) demoFeed_ok En
              (eq_sym Ed) Hv) as (H1 & _ & H2).
  split; [exact H1|exact H2].
Defined.

(** Under the default profile the end-of-run liquidation does not realise the
    value the last equity point shows: it fills at the open of the last bar
    with slippage, while the point marked the position to that bar's close. *)
Theorem liquidation_misses_last_mark :
  exists r p, demoRun "" = Some (Ok r) /\ res_Profile r = ProfileRealistic /\
    list.last (res_TotalEquityCurve r) = Some p /\ ep_Value p = 1000918260 /\ res_FinalBalance r = 1000316400.
Proof.
  destruct (demoRun "") as [[r|err]|] eqn:Er; [|by vm_compute in Er|by vm_compute in Er].
  exists r. vm_compute in Er. injection Er as <-. eexists. by repeat split.
Qed.
