(* ===== verification/OrderFSM.v ===== *)
(** * The broker order life cycle

    src/internal/broker/moomoo/{trade,trd_convert}.go: the normalised pushes
    and the classification of the broker's order statuses;
    src/internal/exec/moomoo/statemachine.go: the pure state machine that turns
    cumulative pushes into fills and status changes.  A method that mutates
    its [*OrderState] returns the new state. *)

From stdpp Require Import strings list sorting.
From S2P Require Import Prelude Fixed Money Domain Float64 Accounting.
Set Default Goal Selector "!".
#[local] Open Scope string_scope.
#[local] Open Scope Z_scope.
#[local] Open Scope go_scope.
#[local] Abbreviation length := List.length.

(** ** Trd_Common enumerations *)

Definition TrdEnvSimulate : Z := 0.
Definition TrdEnvReal : Z := 1.

Definition TrdSide_Buy : Z := 1.
Definition TrdSide_Sell : Z := 2.
Definition TrdSide_SellShort : Z := 3.
Definition TrdSide_BuyBack : Z := 4.

Definition OrderStatus_names : list (Z * string) :=
  [(0, "OrderStatus_Unsubmitted"); (-1, "OrderStatus_Unknown"); (1, "OrderStatus_WaitingSubmit");
   (2, "OrderStatus_Submitting"); (3, "OrderStatus_SubmitFailed"); (4, "OrderStatus_TimeOut");
   (5, "OrderStatus_Submitted"); (10, "OrderStatus_Filled_Part"); (11, "OrderStatus_Filled_All");
   (12, "OrderStatus_Cancelling_Part"); (13, "OrderStatus_Cancelling_All");
   (14, "OrderStatus_Cancelled_Part"); (15, "OrderStatus_Cancelled_All"); (21, "OrderStatus_Failed");
   (22, "OrderStatus_Disabled"); (23, "OrderStatus_Deleted"); (24, "OrderStatus_FillCancelled")].

(** ** trd_convert.go *)

Definition TrdEnv_IsValid (e : Z) : bool := (e =? TrdEnvSimulate) || (e =? TrdEnvReal).
Definition TrdEnv_IsReal (e : Z) : bool := e =? TrdEnvReal.

Definition trdSideForDomain (side : OrderSide) : res Z :=
  if String.eqb side OrderSideBuy then Ok TrdSide_Buy
  else if String.eqb side OrderSideSell then Ok TrdSide_Sell
  else Err ErrInvalidArgument.

Definition sideFromTrd (trdSide : Z) : res OrderSide :=
  if (trdSide =? TrdSide_Buy) || (trdSide =? TrdSide_BuyBack) then Ok OrderSideBuy
  else if (trdSide =? TrdSide_Sell) || (trdSide =? TrdSide_SellShort) then Ok OrderSideSell
  else Err ErrInvalidArgument.

Inductive OrderStatusClass : Set :=
  | StatusClassTransient | StatusClassAccepted | StatusClassFilled
  | StatusClassCanceled | StatusClassRejected | StatusClassUnknown.

#[export] Instance OrderStatusClass_eq_dec : EqDecision OrderStatusClass.
Proof. solve_decision. Defined.

Definition OrderStatusClass_String (c : OrderStatusClass) : string :=
  match c with
  | StatusClassTransient => "TRANSIENT"
  | StatusClassAccepted => "ACCEPTED"
  | StatusClassFilled => "FILLED"
  | StatusClassCanceled => "CANCELED"
  | StatusClassRejected => "REJECTED"
  | StatusClassUnknown => "UNKNOWN"
  end.

Definition OrderStatusClass_IsTerminal (c : OrderStatusClass) : bool :=
  match c with StatusClassCanceled | StatusClassRejected => true | _ => false end.

Definition classifyTrdStatus (raw : Z) : OrderStatusClass :=
  match raw with
  | 5 => StatusClassAccepted
  | 10 | 11 => StatusClassFilled
  | 14 | 15 | 23 | 24 => StatusClassCanceled
  | 21 | 22 | 3 | 4 => StatusClassRejected
  | 2 | 1 | 12 | 13 => StatusClassTransient
  | _ => StatusClassUnknown
  end.

Definition DomainOrderStatus (raw : Z) : option OrderStatus :=
  match classifyTrdStatus raw with
  | StatusClassAccepted => Some OrderStatusAccepted
  | StatusClassFilled => Some (if raw =? 11 then OrderStatusFilled else OrderStatusPartiallyFilled)
  | StatusClassCanceled => Some OrderStatusCanceled
  | StatusClassRejected => Some OrderStatusRejected
  | _ => None
  end.

(** [strings.TrimPrefix] *)
Definition TrimPrefix (s p : string) : string :=
  if String.prefix p s then String.substring (String.length p) (String.length s - String.length p) s else s.

(** The protobuf [String] method: the declared name, or the number. *)
Definition enumName (raw : Z) : string :=
  match List.find (fun e => e.1 =? raw) OrderStatus_names with
  | Some e => e.2
  | None => string_of_list_ascii (formatInt raw)
  end.

Definition TrdOrderStatusName (raw : Z) : string := TrimPrefix (enumName raw) "OrderStatus_OrderStatus_".

Record BrokerPosition : Set := mkBrokerPosition {
  bp_Symbol : string;
  bp_Qty : Qty;
  bp_AvgPrice : Price;
  bp_CostPrice : Price;
  bp_Price : Price;
  bp_PLVal : Money
}.

(** The fields of a [trdcommon.Position] that the conversion reads. *)
Record TrdPosition : Set := mkTrdPosition {
  tp_Code : string;
  tp_Qty : float64;
  tp_PositionSide : Z;
  tp_AverageCostPrice : float64;
  tp_CostPrice : float64;
  tp_Price : float64;
  tp_PlVal : float64
}.

(** [v, _ := f(x)]: a failed conversion yields 0. *)
Definition orZero (r : res Z) : Z := match r with Ok v => v | Err _ => 0 end.

Definition brokerPositionFromTrd (p : option TrdPosition) : res BrokerPosition :=
  match p with
  | None => Err ErrInvalidArgument
  | Some p =>
      qty <-? QtyFromFloat64Trunc (tp_Qty p) ;;
      let qty := if tp_PositionSide p =? 1 then ⊖ qty else qty in
      let avgF := if feqb (tp_AverageCostPrice p) fzero then tp_CostPrice p else tp_AverageCostPrice p in
      Ok (mkBrokerPosition (tp_Code p) qty (orZero (PriceFromFloat64 avgF)) (orZero (PriceFromFloat64 (tp_CostPrice p)))
            (orZero (PriceFromFloat64 (tp_Price p))) (orZero (MoneyFromFloat64 (tp_PlVal p))))
  end.

(** ** trade.go *)

Record PlaceOrderRequest : Set := mkPlaceRequest {
  pr_AccID : Z;
  pr_TrdEnv : Z;
  pr_ClientOrderID : string;
  pr_Symbol : string;
  pr_Side : OrderSide;
  pr_Type : OrderType;
  pr_TIF : TimeInForce;
  pr_Qty : Qty;
  pr_Price : Price
}.

Definition PlaceOrderRequest_Validate (r : PlaceOrderRequest) : res unit :=
  _ <-? rejectIf (String.eqb (pr_ClientOrderID r) "") ;;
  _ <-? rejectIf (pr_AccID r =? 0) ;;
  _ <-? rejectIf (negb (TrdEnv_IsValid (pr_TrdEnv r))) ;;
  _ <-? rejectIf (String.eqb (pr_Symbol r) "") ;;
  _ <-? rejectIf (negb (String.eqb (pr_Side r) OrderSideBuy) && negb (String.eqb (pr_Side r) OrderSideSell)) ;;
  rejectIf (pr_Qty r <=? 0).

Record OrderUpdate : Set := mkOrderUpdate {
  u_ClientOrderID : string;
  u_VenueOrderID : string;
  u_Symbol : string;
  u_Side : OrderSide;
  u_RawStatus : Z;
  u_OrderQty : Qty;
  u_DealtQty : Qty;
  u_DealtAvgPrice : Price;
  u_UpdateTimeNs : Z
}.

Definition UpdateClass (u : OrderUpdate) : OrderStatusClass := classifyTrdStatus (u_RawStatus u).
Definition IsFullFill (u : OrderUpdate) : bool := u_RawStatus u =? 11.
Definition IsFillCancelled (u : OrderUpdate) : bool := u_RawStatus u =? 24.
Definition StatusName (u : OrderUpdate) : string := TrdOrderStatusName (u_RawStatus u).

(** ** statemachine.go *)

Record OrderState : Set := mkOrderState {
  os_ClientOrderID : string;
  os_VenueOrderID : string;
  os_StrategyID : string;
  os_Symbol : string;
  os_Side : OrderSide;
  os_OrderQty : Qty;
  os_Status : OrderStatus;
  os_CumQty : Qty;
  os_CumNotional : Z;
  os_fillSeq : Z
}.

Definition set_status (st : OrderStatus) (s : OrderState) : OrderState :=
  mkOrderState (os_ClientOrderID s) (os_VenueOrderID s) (os_StrategyID s) (os_Symbol s) (os_Side s) (os_OrderQty s)
    st (os_CumQty s) (os_CumNotional s) (os_fillSeq s).
Definition set_cum (q n seq : Z) (s : OrderState) : OrderState :=
  mkOrderState (os_ClientOrderID s) (os_VenueOrderID s) (os_StrategyID s) (os_Symbol s) (os_Side s) (os_OrderQty s)
    (os_Status s) q n seq.
Definition set_venue (v : string) (s : OrderState) : OrderState :=
  mkOrderState (os_ClientOrderID s) v (os_StrategyID s) (os_Symbol s) (os_Side s) (os_OrderQty s)
    (os_Status s) (os_CumQty s) (os_CumNotional s) (os_fillSeq s).

Definition IsTerminal (s : OrderState) : bool := OrderStatus_IsTerminal (os_Status s).

Inductive Effect : Set :=
  | EffectAccepted (status : OrderStatus)
  | EffectFill (fill : Fill)
  | EffectStatus (status : OrderStatus) (fillReversed : bool)
  | EffectDrift (driftStatus : string).

Definition fillTime (wallTS : time) (venueNs : Z) : time := if 0 <? venueNs then mkTime venueNs 0 else UTC wallTS.

Section Machine.
(** The executor's trade-id generator. *)
Context (tradeID : OrderState -> Z -> string).

(** The [if cumQty > 0] block: the new state and the fill effects. *)
Definition cumulativeDelta (state : OrderState) (upd : OrderUpdate) (wallTS : time) : res (OrderState * list Effect) :=
  let cumQty := u_DealtQty upd in
  if negb (0 <? cumQty) then Ok (state, [])
  else
    cumNotional <-? Price_MulQty (u_DealtAvgPrice upd) cumQty ;;
    let deltaQty := cumQty ⊖ os_CumQty state in
    let deltaNotional := cumNotional ⊖ os_CumNotional state in
    if (0 <? deltaQty) && (0 <? deltaNotional) then
      let lastPx := deltaNotional ⊘ deltaQty in
      _ <-? (if negb (Price_IsPositive lastPx) then Err (ErrOther "non-positive per-fill price") else Ok tt) ;;
      let f := mkFill (tradeID state (os_fillSeq state)) (os_ClientOrderID state) (os_VenueOrderID state)
                 (os_StrategyID state) (os_Symbol state) (os_Side state) deltaQty lastPx 0
                 (fillTime wallTS (u_UpdateTimeNs upd)) in
      _ <-? Fill_Validate f ;;
      Ok (set_cum cumQty cumNotional (os_fillSeq state ⊕ 1) state, [EffectFill f])
    else Ok (state, []).

Definition applyFill (state : OrderState) (upd : OrderUpdate) (wallTS : time) : OrderState * res (list Effect) :=
  match cumulativeDelta state upd wallTS with
  | Err e => (state, Err e)
  | Ok (state, effects) =>
      let newStatus := if IsFullFill upd then OrderStatusFilled else OrderStatusPartiallyFilled in
      if negb (String.eqb (os_Status state) newStatus)
      then (set_status newStatus state, Ok (effects ++ [EffectStatus newStatus false])%list)
      else (state, Ok effects)
  end.

Definition Apply (state : OrderState) (upd : OrderUpdate) (wallTS : time) : OrderState * res (list Effect) :=
  if IsTerminal state then (state, Ok [])
  else
    match UpdateClass upd with
    | StatusClassTransient => (state, Ok [])
    | StatusClassAccepted =>
        if String.eqb (os_Status state) OrderStatusAccepted || String.eqb (os_Status state) OrderStatusPartiallyFilled
        then (state, Ok [])
        else (set_status OrderStatusAccepted state, Ok [EffectAccepted OrderStatusAccepted])
    | StatusClassFilled => applyFill state upd wallTS
    | StatusClassCanceled =>
        (set_status OrderStatusCanceled state, Ok [EffectStatus OrderStatusCanceled (IsFillCancelled upd)])
    | StatusClassRejected =>
        (set_status OrderStatusRejected state, Ok [EffectStatus OrderStatusRejected false])
    | StatusClassUnknown => (state, Ok [EffectDrift (StatusName upd)])
    end.
End Machine.

(** ** Facts about one push *)

Definition effectFills (effs : list Effect) : list Fill :=
  flat_map (fun e => match e with EffectFill f => [f] | _ => [] end) effs.

Lemma effectFills_app a b : effectFills (a ++ b)%list = (effectFills a ++ effectFills b)%list.
Proof. apply flat_map_app. Qed.

(** The cumulative snapshot stays in range. *)
Definition cumOk (s : OrderState) : Prop := 0 <= os_CumQty s <= max_int64 /\ 0 <= os_CumNotional s <= max_int64.
(** Pushes carry 64-bit quantities and no negative average price. *)
Definition pushOk (u : OrderUpdate) : Prop := in64 (u_DealtQty u) /\ 0 <= u_DealtAvgPrice u <= max_int64.

(** What one fill says of the order it belongs to. *)
Definition fillOf (s : OrderState) (f : Fill) : Prop :=
  f_ClientOrderID f = os_ClientOrderID s /\ f_StrategyID f = os_StrategyID s /\ f_Symbol f = os_Symbol s /\
  f_Side f = os_Side s /\ 0 < f_Qty f /\ 0 < f_Price f /\ Fill_Validate f = Ok tt.

Section Facts.
Context (tradeID : OrderState -> Z -> string).

(** The fill block either leaves the state alone or emits one fill for the
    quantity beyond the snapshot, priced at the truncated mean of the delta. *)
Lemma delta_cases s u ts s' effs : cumOk s -> pushOk u -> cumulativeDelta tradeID s u ts = Ok (s', effs) ->
  let q := u_DealtQty u in let n := u_DealtAvgPrice u * u_DealtQty u in
  (s' = s /\ effs = [] /\ (q <= os_CumQty s \/ n <= os_CumNotional s)) \/
  (exists f, s' = set_cum q n (os_fillSeq s ⊕ 1) s /\ effs = [EffectFill f] /\ fillOf s f /\
     f_TradeID f = tradeID s (os_fillSeq s) /\ f_VenueOrderID f = os_VenueOrderID s /\
     f_Qty f = q - os_CumQty s /\ f_Price f = (n - os_CumNotional s) / (q - os_CumQty s) /\
     0 <= n <= max_int64).
Proof.
  intros [Hq Hn] [Hu Hp] E. cbv zeta. unfold cumulativeDelta in E.
  destruct (Z.ltb_spec 0 (u_DealtQty u)) as [H0|H0]; cbn [negb] in E; [|injection E as <- <-; left; split; [done|split; [done|lia]]].
  apply res_bind_ok in E as (n & En & E). apply Price_MulQty_ok in En as [-> Hin]; [|rlia|done].
  assert (Hn0 : 0 <= u_DealtAvgPrice u * u_DealtQty u) by (apply Z.mul_nonneg_nonneg; lia).
  set (n := u_DealtAvgPrice u * u_DealtQty u) in *.
  rewrite (wrap64_id (u_DealtQty u - os_CumQty s)) in E by rlia.
  destruct (Z.ltb_spec 0 (u_DealtQty u - os_CumQty s)) as [Hd|Hd]; cbn [andb] in E;
    [|injection E as <- <-; left; split; [done|split; [done|lia]]].
  rewrite (wrap64_id (n - os_CumNotional s)) in E by rlia.
  destruct (Z.ltb_spec 0 (n - os_CumNotional s)) as [Hc|Hc]; [|injection E as <- <-; left; split; [done|split; [done|lia]]].
  assert (Hquot : in64 (Z.quot (n - os_CumNotional s) (u_DealtQty u - os_CumQty s))).
  { rewrite Z.quot_div_nonneg by lia. pose proof (Z.div_pos (n - os_CumNotional s) (u_DealtQty u - os_CumQty s) ltac:(lia) ltac:(lia)).
    pose proof (Z.div_le_upper_bound (n - os_CumNotional s) (u_DealtQty u - os_CumQty s) (n - os_CumNotional s) ltac:(lia) ltac:(nia)). rlia. }
  rewrite (wrap64_id (Z.quot _ _)) in E by exact Hquot. rewrite Z.quot_div_nonneg in E by lia.
  unfold Price_IsPositive in E at 1. set (px := (n - os_CumNotional s) / (u_DealtQty u - os_CumQty s)) in *.
  destruct (Z.ltb_spec 0 px) as [Hpx|Hpx]; cbn [negb res_bind] in E; [|discriminate].
  apply res_bind_ok in E as ([] & Ev & E). injection E as <- <-. right.
  eexists. split; [reflexivity|]. split; [reflexivity|]. unfold fillOf. cbn. splits; try done; rlia.
Qed.

(** The effects of a push: none when it is in error. *)
Definition effectsOf (r : res (list Effect)) : list Effect := match r with Ok effs => effs | Err _ => [] end.

Definition sameOrder (s s' : OrderState) : Prop :=
  os_ClientOrderID s' = os_ClientOrderID s /\ os_VenueOrderID s' = os_VenueOrderID s /\
  os_StrategyID s' = os_StrategyID s /\ os_Symbol s' = os_Symbol s /\ os_Side s' = os_Side s /\
  os_OrderQty s' = os_OrderQty s.

Definition notional (f : Fill) : Z := f_Qty f * f_Price f.

(** The ledger of a step: the fills account for the snapshot's move. *)
Record ledger (s s' : OrderState) (fs : list Fill) : Prop := {
  lg_ok : cumOk s';
  lg_same : sameOrder s s';
  lg_fills : Forall (fillOf s) fs;
  lg_qty : sumZ (map f_Qty fs) = os_CumQty s' - os_CumQty s;
  lg_notional : 0 <= os_CumNotional s' - os_CumNotional s - sumZ (map notional fs) <= sumZ (map f_Qty fs)
}.

Lemma ledger_status st s : cumOk s -> ledger s (set_status st s) [].
Proof. intros H. split; cbn; try done; lia. Qed.

Lemma ledger_refl s : cumOk s -> ledger s s [].
Proof. intros H. split; cbn; try done; lia. Qed.

Lemma delta_ledger s u ts s' effs : cumOk s -> pushOk u -> cumulativeDelta tradeID s u ts = Ok (s', effs) ->
  ledger s s' (effectFills effs).
Proof.
  intros Hc Hu E. destruct (delta_cases s u ts s' effs Hc Hu E) as [(-> & -> & _)|(f & -> & -> & Hf & _ & _ & Eq & Ep & Hn)];
    [by apply ledger_refl|].
  destruct Hc as [Hq Hcn]. destruct Hu as [Hu _]. pose proof Hf as (_ & _ & _ & _ & Hfq & Hfp & _).
  set (n := u_DealtAvgPrice u * u_DealtQty u) in *.
  assert (D : f_Qty f * f_Price f <= n - os_CumNotional s < f_Qty f * f_Price f + f_Qty f).
  { rewrite Ep, <- Eq. pose proof (Z.mul_div_le (n - os_CumNotional s) (f_Qty f) Hfq).
    pose proof (Z.mul_succ_div_gt (n - os_CumNotional s) (f_Qty f) Hfq). lia. }
  split; cbn -[sumZ]; rewrite ?sumZ_cons; cbn; unfold notional; try done; try rlia.
  - split; cbn; rlia.
  - by apply List.Forall_cons.
Qed.

Lemma ledger_set_status st s s' fs : ledger s s' fs -> ledger s (set_status st s') fs.
Proof. intros [H1 H2 H3 H4 H5]. by split. Qed.

Lemma Apply_ledger s u ts s' r : cumOk s -> pushOk u -> Apply tradeID s u ts = (s', r) ->
  ledger s s' (effectFills (effectsOf r)).
Proof.
  intros Hc Hu E. unfold Apply in E. destruct (IsTerminal s); [injection E as <- <-; by apply ledger_refl|].
  destruct (UpdateClass u); try (injection E as <- <-; by apply ledger_refl || by apply ledger_status).
  - destruct (_ || _); injection E as <- <-; [by apply ledger_refl|by apply ledger_status].
  - unfold applyFill in E. destruct (cumulativeDelta tradeID s u ts) as [[s1 effs]|e] eqn:D;
      [|injection E as <- <-; by apply ledger_refl].
    apply delta_ledger in D; [|done|done].
    destruct (negb _); injection E as <- <-; cbn [effectsOf]; [|done].
    rewrite effectFills_app. cbn. rewrite app_nil_r. by apply ledger_set_status.
Qed.

(** A sequence of pushes, as the executor handles them: a push in error is
    logged and leaves the state alone. *)
Fixpoint feed (us : list (OrderUpdate * time)) (s : OrderState) : OrderState * list Effect :=
  match us with
  | [] => (s, [])
  | (u, ts) :: us =>
      let '(s1, r) := Apply tradeID s u ts in
      let '(s2, effs) := feed us s1 in
      (s2, effectsOf r ++ effs)%list
  end.

Lemma ledger_trans s1 s2 s3 f1 f2 : ledger s1 s2 f1 -> ledger s2 s3 f2 -> ledger s1 s3 (f1 ++ f2)%list.
Proof.
  intros [A1 A2 A3 A4 A5] [B1 B2 B3 B4 B5]. split; rewrite ?map_app, ?sumZ_app; try done; try lia.
  - unfold sameOrder in *. intuition congruence.
  - apply List.Forall_app. split; [done|]. revert B3. apply List.Forall_impl. intros f Hf.
    unfold fillOf, sameOrder in *. intuition congruence.
Qed.

Lemma feed_ledger us s s' effs : cumOk s -> Forall (fun p => pushOk p.1) us -> feed us s = (s', effs) ->
  ledger s s' (effectFills effs).
Proof.
  intros Hc Hu. revert s Hc s' effs. induction Hu as [|[u ts] us Hp Hu IH]; intros s Hc s' effs E; cbn in E.
  { injection E as <- <-. by apply ledger_refl. }
  destruct (Apply tradeID s u ts) as [s1 r] eqn:E1. destruct (feed us s1) as [s2 effs2] eqn:E2.
  injection E as <- <-. pose proof (Apply_ledger s u ts s1 r Hc Hp E1) as L1.
  rewrite effectFills_app. eapply ledger_trans; [exact L1|]. apply (IH s1 (lg_ok _ _ _ L1) _ _ E2).
Qed.

(** ** The status never moves back *)

Definition statusRank (st : OrderStatus) : Z :=
  if OrderStatus_IsTerminal st then 3
  else if String.eqb st OrderStatusPartiallyFilled then 2
  else if String.eqb st OrderStatusAccepted then 1 else 0.

(** The statuses announced by a list of effects. *)
Definition announced (effs : list Effect) : list OrderStatus :=
  flat_map (fun e => match e with EffectAccepted st | EffectStatus st _ => [st] | _ => [] end) effs.

Lemma delta_status s u ts s' effs : cumulativeDelta tradeID s u ts = Ok (s', effs) ->
  os_Status s' = os_Status s /\ announced effs = [].
Proof.
  unfold cumulativeDelta. destruct (negb _); [intros [= <- <-]; done|]. intros E. bind_inv.
  destruct (_ && _); [|by simplify_eq]. bind_inv. by simplify_eq.
Qed.

Lemma nonterminal_rank s : IsTerminal s = false -> statusRank (os_Status s) <= 2 /\
  (String.eqb (os_Status s) OrderStatusPartiallyFilled = false -> statusRank (os_Status s) <= 1) /\
  (String.eqb (os_Status s) OrderStatusPartiallyFilled = false -> String.eqb (os_Status s) OrderStatusAccepted = false ->
   statusRank (os_Status s) = 0).
Proof.
  unfold IsTerminal, statusRank. intros ->. destruct (String.eqb _ OrderStatusPartiallyFilled), (String.eqb _ OrderStatusAccepted).
  all: splits; intros; try discriminate; lia.
Qed.

Lemma Apply_announces s u ts s' r : Apply tradeID s u ts = (s', r) ->
  (announced (effectsOf r) = [] /\ os_Status s' = os_Status s) \/
  (announced (effectsOf r) = [os_Status s'] /\ statusRank (os_Status s) < statusRank (os_Status s')).
Proof.
  unfold Apply. destruct (IsTerminal s) eqn:Ht; [intros [= <- <-]; by left|].
  destruct (nonterminal_rank s Ht) as (R2 & R1 & R0).
  destruct (UpdateClass u).
  - intros [= <- <-]. by left.
  - destruct (String.eqb (os_Status s) OrderStatusAccepted) eqn:Ea, (String.eqb (os_Status s) OrderStatusPartiallyFilled) eqn:Ep;
      cbn [orb]; intros [= <- <-]; try by left. right. split; [done|]. cbn. rewrite R0 by done. done.
  - unfold applyFill. destruct (cumulativeDelta tradeID s u ts) as [[s1 effs]|e] eqn:D; [|intros [= <- <-]; by left].
    apply delta_status in D as [Es Ha]. rewrite <- Es in *. set (st := if IsFullFill u then _ else _).
    destruct (String.eqb (os_Status s1) st) eqn:Est; cbn [negb]; intros [= <- <-]; [by left|right].
    cbn [effectsOf]. unfold announced in *. rewrite flat_map_app, Ha. split; [done|]. cbn [os_Status set_status].
    subst st. destruct (IsFullFill u); [change (statusRank OrderStatusFilled) with 3; lia|].
    change (statusRank OrderStatusPartiallyFilled) with 2. specialize (R1 Est). lia.
  - intros [= <- <-]. right. split; [done|]. cbn [os_Status set_status]. change (statusRank OrderStatusCanceled) with 3. lia.
  - intros [= <- <-]. right. split; [done|]. cbn [os_Status set_status]. change (statusRank OrderStatusRejected) with 3. lia.
  - intros [= <- <-]. by left.
Qed.

Lemma feed_announces us s s' effs : feed us s = (s', effs) ->
  let ranks := map statusRank (announced effs) in
  StronglySorted Z.lt ranks /\ Forall (fun k => statusRank (os_Status s) < k <= statusRank (os_Status s')) ranks /\
  statusRank (os_Status s) <= statusRank (os_Status s').
Proof.
  cbv zeta. revert s s' effs. induction us as [|[u ts] us IH]; intros s s' effs E; cbn in E.
  { injection E as <- <-. cbn. splits; [constructor|constructor|lia]. }
  destruct (Apply tradeID s u ts) as [s1 r] eqn:E1. destruct (feed us s1) as [s2 effs2] eqn:E2. injection E as <- <-.
  destruct (IH _ _ _ E2) as (H1 & H2 & H3).
  assert (Ea : announced (effectsOf r ++ effs2) = (announced (effectsOf r) ++ announced effs2)%list) by apply flat_map_app.
  rewrite Ea, map_app.
  destruct (Apply_announces _ _ _ _ _ E1) as [[-> Es]|[-> Hr]].
  - rewrite <- Es. done.
  - cbn. splits; [| |lia].
    + constructor; [done|]. revert H2. apply List.Forall_impl. lia.
    + apply List.Forall_cons; [lia|]. revert H2. apply List.Forall_impl. lia.
Qed.

Lemma feed_terminal us s : IsTerminal s = true -> feed us s = (s, []).
Proof. intros Ht. induction us as [|[u ts] us IH]; cbn; [done|]. unfold Apply. by rewrite Ht, IH. Qed.

(** ** A repeated push *)

Lemma delta_repeat s u ts s' effs ts2 : cumOk s -> pushOk u -> cumulativeDelta tradeID s u ts = Ok (s', effs) ->
  forall st, cumulativeDelta tradeID (set_status st s') u ts2 = Ok (set_status st s', []).
Proof.
  intros Hc Hu E st. pose proof Hu as [Hu1 Hu2]. destruct Hc as [Hq Hn].
  assert (Hm : 0 < u_DealtQty u -> Price_MulQty (u_DealtAvgPrice u) (u_DealtQty u) = Ok (u_DealtAvgPrice u * u_DealtQty u)).
  { intros H0. unfold cumulativeDelta in E. destruct (Z.ltb_spec 0 (u_DealtQty u)); [|lia]. cbn [negb] in E.
    apply res_bind_ok in E as (n & En & _). rewrite En. f_equal. apply Price_MulQty_ok in En as [-> _]; [done|rlia|done]. }
  assert (Hnn : 0 < u_DealtQty u -> 0 <= u_DealtAvgPrice u * u_DealtQty u <= max_int64).
  { intros H0. specialize (Hm H0). apply Price_MulQty_ok in Hm as [_ H]; [|rlia|done]. split; [nia|]. rlia. }
  unfold cumulativeDelta. destruct (Z.ltb_spec 0 (u_DealtQty u)) as [H0|H0]; [|done]. cbn [negb].
  rewrite (Hm H0). specialize (Hnn H0). cbn [res_bind os_CumQty os_CumNotional set_status].
  destruct (delta_cases s u ts s' effs (conj Hq Hn) Hu E) as [(-> & _ & Hle)|(f & -> & _)].
  - rewrite !wrap64_id by rlia.
    destruct (Z.ltb_spec 0 (u_DealtQty u - os_CumQty s)), (Z.ltb_spec 0 (u_DealtAvgPrice u * u_DealtQty u - os_CumNotional s)); try done. lia.
  - cbn. rewrite Z.sub_diag. done.
Qed.

Lemma set_status_id s : set_status (os_Status s) s = s.
Proof. by destruct s. Qed.

Lemma Apply_repeat s u ts s1 effs ts2 : cumOk s -> pushOk u -> Apply tradeID s u ts = (s1, Ok effs) ->
  Apply tradeID s1 u ts2 =
  (s1, Ok (if negb (IsTerminal s1) && bool_decide (UpdateClass u = StatusClassUnknown) then [EffectDrift (StatusName u)] else [])).
Proof.
  intros Hc Hu. unfold Apply at 1. destruct (IsTerminal s) eqn:Ht.
  { intros [= <- <-]. unfold Apply. by rewrite Ht. }
  destruct (UpdateClass u) eqn:Ec.
  - intros [= <- <-]. unfold Apply. by rewrite Ht, Ec.
  - destruct (_ || _) eqn:Eo; intros [= <- <-]; unfold Apply; rewrite Ec, ?Ht, ?Eo; done.
  - unfold applyFill. destruct (cumulativeDelta tradeID s u ts) as [[s' es]|e] eqn:D; [|intros [= ]].
    pose proof (delta_status _ _ _ _ _ D) as [Es _]. pose proof (delta_repeat s u ts s' es ts2 Hc Hu D) as Hr.
    set (st := if IsFullFill u then _ else _). destruct (String.eqb (os_Status s') st) eqn:E; cbn [negb]; intros [= <- <-].
    + specialize (Hr (os_Status s')). rewrite set_status_id in Hr. unfold Apply. rewrite Ec.
      destruct (IsTerminal s'); [done|]. unfold applyFill. rewrite Hr. fold st. by rewrite E.
    + unfold Apply. rewrite Ec. destruct (IsTerminal (set_status st s')); [done|].
      unfold applyFill. rewrite Hr. fold st. cbn [os_Status set_status]. by rewrite String.eqb_refl.
  - intros [= <- <-]. done.
  - intros [= <- <-]. done.
  - intros [= <- <-]. unfold Apply. by rewrite Ht, Ec.
Qed.

(** ** Pushes out of order *)

(** The cumulative notional as a function of the filled quantity: every share
    costs at least one unit of the price grid. *)
Definition tape (N : Z -> Z) : Prop := N 0 = 0 /\ forall a b, 0 <= a < b -> b - a <= N b - N a.

Record onTape (N : Z -> Z) (p : OrderUpdate * time) : Prop := {
  ot_partial : u_RawStatus p.1 = 10;
  ot_qty : 0 < u_DealtQty p.1 <= max_int64;
  ot_notional : u_DealtAvgPrice p.1 * u_DealtQty p.1 = N (u_DealtQty p.1);
  ot_range : N (u_DealtQty p.1) <= max_int64;
  ot_time : IsZeroTime (fillTime p.2 (u_UpdateTimeNs p.1)) = false
}.

(** An order whose fills are well formed. *)
Definition wellFormed (s : OrderState) : Prop :=
  os_ClientOrderID s <> "" /\ os_StrategyID s <> "" /\ os_Symbol s <> "" /\ OrderSide_IsValid (os_Side s) = true /\
  IsTerminal s = false.

Context (HtradeID : forall s k, tradeID s k <> "").

Lemma eqb_neq_false (a b : string) : a <> b -> String.eqb a b = false.
Proof. apply String.eqb_neq. Qed.

Lemma delta_tape N s u ts : tape N -> onTape N (u, ts) -> wellFormed s ->
  0 <= os_CumQty s <= max_int64 -> os_CumNotional s = N (os_CumQty s) ->
  exists s' effs, cumulativeDelta tradeID s u ts = Ok (s', effs) /\
    os_CumQty s' = Z.max (os_CumQty s) (u_DealtQty u).
Proof.
  intros [N0 HN] [_ Hq En Hr Ht] (W1 & W2 & W3 & W4 & _) Hc Ecn. cbn in *.
  assert (Hlow : forall a, 0 <= a -> a <= N a).
  { intros a Ha. destruct (Z.eq_dec a 0) as [->|]; [lia|]. specialize (HN 0 a ltac:(lia)). lia. }
  pose proof (Hlow (u_DealtQty u) ltac:(lia)) as L1.
  assert (Hp : 0 < u_DealtAvgPrice u <= max_int64) by nia.
  unfold cumulativeDelta. destruct (Z.ltb_spec 0 (u_DealtQty u)) as [_|]; [|lia]. cbn [negb].
  assert (Em : Price_MulQty (u_DealtAvgPrice u) (u_DealtQty u) = Ok (N (u_DealtQty u))).
  { apply Price_MulQty_ok; [rlia|rlia|]. rewrite En. split; [done|rlia]. }
  rewrite Em. cbn [res_bind]. rewrite (wrap64_id (u_DealtQty u - os_CumQty s)) by rlia.
  destruct (Z.ltb_spec 0 (u_DealtQty u - os_CumQty s)) as [Hd|Hd]; cbn [andb];
    [|eexists _, _; split; [reflexivity|lia]].
  specialize (HN (os_CumQty s) (u_DealtQty u) ltac:(lia)). pose proof (Hlow (os_CumQty s) ltac:(lia)).
  rewrite Ecn, (wrap64_id (N (u_DealtQty u) - N (os_CumQty s))) by rlia.
  destruct (Z.ltb_spec 0 (N (u_DealtQty u) - N (os_CumQty s))) as [Hn|]; [|lia].
  rewrite Z.quot_div_nonneg by lia. set (px := _ / _).
  assert (Hpx : 1 <= px <= max_int64).
  { split; [apply Z.div_le_lower_bound; lia|]. apply Z.div_le_upper_bound; [lia|]. nia. }
  rewrite (wrap64_id px) by rlia.
  assert (Hpos : Price_IsPositive px = true) by (apply Z.ltb_lt; lia). rewrite Hpos. cbn [negb res_bind].
  unfold Fill_Validate. cbn [f_TradeID f_ClientOrderID f_StrategyID f_Symbol f_Side f_Qty f_Price f_Commission f_TS].
  rewrite !eqb_neq_false, W4, Hpos, Ht by (done || apply HtradeID).
  assert (Hle : (u_DealtQty u - os_CumQty s <=? 0) = false) by (apply Z.leb_gt; lia). rewrite Hle. cbn.
  eexists _, _. split; [reflexivity|]. cbn. lia.
Qed.


Lemma max_shift q l : forall a, fold_right Z.max (Z.max a q) l = Z.max q (fold_right Z.max a l).
Proof. induction l as [|x l IH]; intros a; cbn; [lia|]. rewrite IH. lia. Qed.

(** What the pushes maintain. *)
Record tapeState (N : Z -> Z) (s : OrderState) : Prop := {
  ts_wf : wellFormed s;
  ts_cum : 0 <= os_CumQty s <= max_int64;
  ts_notional : os_CumNotional s = N (os_CumQty s);
  ts_range : N (os_CumQty s) <= max_int64
}.

Lemma Apply_tape N s u ts : tape N -> onTape N (u, ts) -> tapeState N s ->
  tapeState N (Apply tradeID s u ts).1 /\ os_CumQty (Apply tradeID s u ts).1 = Z.max (os_CumQty s) (u_DealtQty u).
Proof.
  intros HN Hu [Hw Hc En Hr]. destruct (delta_tape N s u ts HN Hu Hw Hc En) as (s' & effs & D & Eq).
  pose proof Hw as (W1 & W2 & W3 & W4 & Hter). pose proof Hu as [Eraw Hq Enn Hur _]. cbn in Eraw, Hq, Enn, Hur.
  assert (Hlow : forall a, 0 <= a -> a <= N a).
  { intros a Ha. destruct HN as [N0 HN]. destruct (Z.eq_dec a 0) as [->|]; [lia|]. specialize (HN 0 a ltac:(lia)). lia. }
  pose proof (Hlow (u_DealtQty u) ltac:(lia)) as L1. pose proof (Hlow (os_CumQty s) ltac:(lia)) as L2.
  assert (Hpk : pushOk u) by (split; [rlia|nia]).
  assert (Hs' : tapeState N s').
  { destruct (delta_cases s u ts s' effs ltac:(split; lia) Hpk D) as [(-> & _)|(f & -> & _)]; [by split|].
    split; cbn; [done|lia|done|lia]. }
  assert (Est : os_Status s' = os_Status s) by apply (delta_status _ _ _ _ _ D).
  unfold Apply, UpdateClass. rewrite Hter, Eraw. cbn. unfold applyFill, IsFullFill. rewrite D, Eraw. cbn [Z.eqb Pos.eqb].
  destruct (negb _); cbn; [|done]. split; [|done]. destruct Hs' as [(V1 & V2 & V3 & V4 & _) ? ? ?]. by split.
Qed.

Lemma feed_tape N us : tape N -> Forall (onTape N) us -> forall s, tapeState N s ->
  os_CumQty (feed us s).1 = fold_right Z.max (os_CumQty s) (map (fun p => u_DealtQty p.1) us).
Proof.
  intros HN Hus. induction Hus as [|[u ts] us Hu Hus IH]; intros s Hs; cbn; [done|].
  destruct (Apply_tape N s u ts HN Hu Hs) as [H1 H2]. destruct (Apply tradeID s u ts) as [s1 r]. cbn in H1, H2.
  specialize (IH s1 H1). rewrite H2, max_shift in IH. by destruct (feed us s1).
Qed.
End Facts.

Lemma tape_pushOk N us : tape N -> Forall (onTape N) us -> Forall (fun p => pushOk p.1) us.
Proof.
  intros [N0 HN]. apply List.Forall_impl. intros p [_ Hq En Hr _]. specialize (HN 0 (u_DealtQty p.1) ltac:(lia)).
  split; [rlia|nia].
Qed.

(** ** The claims *)

(** C6: over any sequence of broker pushes, duplicated, late or in error, the
    fills handed to accounting carry exactly the cumulative quantity the order
    has reached, belong to the order, are valid with positive quantity and
    price, and their notional falls short of the broker's cumulative notional
    by less than one grid unit per share. *)
Theorem fills_account_for_pushes tradeID us s s' effs :
  cumOk s -> Forall (fun p => pushOk p.1) us -> feed tradeID us s = (s', effs) ->
  let fs := effectFills effs in
  Forall (fillOf s) fs /\
  sumZ (map f_Qty fs) = os_CumQty s' - os_CumQty s /\ os_CumQty s <= os_CumQty s' /\
  sumZ (map notional fs) <= os_CumNotional s' - os_CumNotional s <= sumZ (map notional fs) + (os_CumQty s' - os_CumQty s).
Proof.
  intros Hc Hu E. destruct (feed_ledger tradeID us s s' effs Hc Hu E) as [_ _ Hf Hq Hn].
  cbv zeta. splits; [done|done| |lia|lia].
  assert (0 <= sumZ (map f_Qty (effectFills effs))); [|lia].
  apply sumZ_nonneg, List.Forall_map. revert Hf. apply List.Forall_impl. intros f (_ & _ & _ & _ & H & _). lia.
Qed.

(** Repeating a push that was applied changes nothing: the state is the
    same, no fill and no status is emitted again (an unrecognised status of a
    working order only repeats its drift warning). *)
Theorem repeated_push_is_noop tradeID s u ts s1 effs ts2 :
  cumOk s -> pushOk u -> Apply tradeID s u ts = (s1, Ok effs) ->
  exists effs2, Apply tradeID s1 u ts2 = (s1, Ok effs2) /\ effectFills effs2 = [] /\ announced effs2 = [] /\
    (UpdateClass u <> StatusClassUnknown -> effs2 = []).
Proof.
  intros Hc Hu E. eexists. split; [apply (Apply_repeat tradeID s u ts s1 effs ts2 Hc Hu E)|].
  destruct (negb (IsTerminal s1)), (bool_decide_reflect (UpdateClass u = StatusClassUnknown)); cbn; done.
Qed.

(** An order's status only advances: along any sequence of pushes every
    announced status ranks strictly above the ones before it (submitted,
    accepted, partially filled, terminal), so none is announced twice, and a
    terminal order neither changes nor emits anything. *)
Theorem status_only_advances tradeID us s s' effs :
  feed tradeID us s = (s', effs) ->
  StronglySorted Z.lt (map statusRank (announced effs)) /\
  Forall (fun k => statusRank (os_Status s) < k <= statusRank (os_Status s')) (map statusRank (announced effs)) /\
  statusRank (os_Status s) <= statusRank (os_Status s') /\
  (IsTerminal s = true -> s' = s /\ effs = []).
Proof.
  intros E. destruct (feed_announces tradeID us s s' effs E) as (H1 & H2 & H3). splits; [done|done|done|].
  intros Ht. rewrite (feed_terminal tradeID us s Ht) in E. by injection E as <- <-.
Qed.

(** Partial-fill pushes may arrive in any order and any number of times:
    when their cumulative notionals come from one execution tape, the order
    ends at the largest cumulative quantity and the emitted fills sum to it. *)
Theorem pushes_converge tradeID N us s s' effs :
  (forall s k, tradeID s k <> "") -> tape N -> Forall (onTape N) us -> tapeState N s -> os_CumQty s = 0 ->
  feed tradeID us s = (s', effs) ->
  os_CumQty s' = fold_right Z.max 0 (map (fun p => u_DealtQty p.1) us) /\
  sumZ (map f_Qty (effectFills effs)) = os_CumQty s'.
Proof.
  intros Ht HN Hus Hs H0 E. pose proof (feed_tape tradeID Ht N us HN Hus s Hs) as F. rewrite E, H0 in F. split; [exact F|].
  destruct Hs as [_ Hc En Hr]. assert (Hck : cumOk s) by (rewrite H0 in *; destruct HN as [N0 _]; split; lia).
  rewrite (lg_qty _ _ _ (feed_ledger tradeID us s s' effs Hck ltac:(apply (tape_pushOk N); done) E)). lia.
Qed.

(** A FILLED_ALL push that carries no cumulative quantity finalises the
    order as FILLED with no fill: the remaining quantity never reaches
    accounting, and later pushes are dropped. *)
Theorem full_fill_without_quantity_loses_rest tradeID s u ts :
  IsTerminal s = false -> IsFullFill u = true -> u_DealtQty u <= 0 ->
  exists s', Apply tradeID s u ts = (s', Ok [EffectStatus OrderStatusFilled false]) /\
    os_Status s' = OrderStatusFilled /\ os_CumQty s' = os_CumQty s /\
    forall us, feed tradeID us s' = (s', []).
Proof.
  intros Ht Hf Hq. exists (set_status OrderStatusFilled s). unfold Apply, UpdateClass. rewrite Ht.
  pose proof Hf as Er. apply Z.eqb_eq in Er. rewrite Er. cbn. unfold applyFill, cumulativeDelta.
  destruct (Z.ltb_spec 0 (u_DealtQty u)); [lia|]. cbn [negb]. rewrite Hf.
  assert (Hs : String.eqb (os_Status s) OrderStatusFilled = false).
  { apply String.eqb_neq. intros Es. revert Ht. unfold IsTerminal. by rewrite Es. }
  rewrite Hs. cbn [negb]. splits; [done|done|done|]. intros us. by apply feed_terminal.
Qed.

(** The symbolic status name keeps its [OrderStatus_] prefix for every
    declared status: the prefix that the code trims never occurs. *)
Theorem status_name_not_trimmed :
  forall raw name, In (raw, name) OrderStatus_names -> TrdOrderStatusName raw = name.
Proof.
  assert (H : Forall (fun e => TrdOrderStatusName e.1 = e.2) OrderStatus_names).
  { repeat (apply List.Forall_cons; [vm_compute; reflexivity|]). apply List.Forall_nil. }
  intros raw name Hi. rewrite List.Forall_forall in H. apply (H _ Hi).
Qed.

(** ** Concrete runs *)

Definition demoTradeID (s : OrderState) (k : Z) : string := ("T-" ++ string_of_list_ascii (formatInt k))%string.
Definition demoState : OrderState :=
  mkOrderState "PAPER-O-0" "V1" "sepa" "SPY" OrderSideBuy 10 OrderStatusSubmitted 0 0 0.
Definition demoPush (raw qty px : Z) : OrderUpdate * time :=
  (mkOrderUpdate "PAPER-O-0" "V1" "SPY" OrderSideBuy raw 10 qty px 1700000000000000000, demoTs).
Definition demoPushes : list (OrderUpdate * time) :=
  [demoPush 5 0 0; demoPush 10 3 4000000; demoPush 10 3 4000000; demoPush 10 7 4000100; demoPush 11 10 4000130].

Lemma demoPushes_ok : Forall (fun p => pushOk p.1) demoPushes.
Proof. unfold demoPushes. repeat (apply List.Forall_cons; [split; cbn; rlia|]). apply List.Forall_nil. Qed.

Lemma fills_account_for_pushes_witness :
  exists s' effs, feed demoTradeID demoPushes demoState = (s', effs) /\ os_CumQty s' = 10 /\
    sumZ (map f_Qty (effectFills effs)) = 10.
Proof.
  destruct (feed demoTradeID demoPushes demoState) as [s' effs] eqn:E.
  exists s', effs. split; [reflexivity|].
  assert (Hc : cumOk demoState) by (split; cbn; rlia).
  destruct (fills_account_for_pushes demoTradeID demoPushes demoState s' effs Hc demoPushes_ok E) as (_ & H & _).
  assert (Es : os_CumQty s' = 10) by (replace s' with (feed demoTradeID demoPushes demoState).1 by (by rewrite E); vm_compute; reflexivity).
  rewrite H, Es. split; reflexivity.
Defined.

Lemma repeated_push_is_noop_witness :
  exists s1 effs effs2, Apply demoTradeID demoState (demoPush 10 3 4000000).1 demoTs = (s1, Ok effs) /\
    Apply demoTradeID s1 (demoPush 10 3 4000000).1 demoTs = (s1, Ok effs2) /\ effectFills effs2 = [].
Proof.
  destruct (Apply demoTradeID demoState (demoPush 10 3 4000000).1 demoTs) as [s1 [effs|e]] eqn:E; [|vm_compute in E; discriminate].
  assert (Hc : cumOk demoState) by (split; cbn; rlia).
  assert (Hp : pushOk (demoPush 10 3 4000000).1) by (split; cbn; rlia).
  destruct (repeated_push_is_noop demoTradeID demoState _ demoTs s1 effs demoTs Hc Hp E) as (effs2 & H1 & H2 & _).
  exists s1, effs, effs2. auto.
Defined.

Lemma status_only_advances_witness :
  exists s' effs, feed demoTradeID demoPushes demoState = (s', effs) /\
    StronglySorted Z.lt (map statusRank (announced effs)) /\ announced effs = ["ACCEPTED"; "PARTIALLY_FILLED"; "FILLED"].
Proof.
  destruct (feed demoTradeID demoPushes demoState) as [s' effs] eqn:E.
  exists s', effs. split; [reflexivity|]. split; [exact (proj1 (status_only_advances demoTradeID demoPushes demoState s' effs E))|].
  replace effs with (feed demoTradeID demoPushes demoState).2 by (by rewrite E). vm_compute. reflexivity.
Defined.

Lemma demo_onTape q : 0 < q <= 10 -> onTape (fun n => 4000000 * n) (demoPush 10 q 4000000).
Proof. intros H. split; cbn; first [done|rlia]. Qed.

Lemma pushes_converge_witness :
  exists s' effs, feed demoTradeID [demoPush 10 7 4000000; demoPush 10 3 4000000; demoPush 10 7 4000000] demoState = (s', effs) /\
    os_CumQty s' = 7.
Proof.
  set (us := [demoPush 10 7 4000000; demoPush 10 3 4000000; demoPush 10 7 4000000]).
  destruct (feed demoTradeID us demoState) as [s' effs] eqn:E. exists s', effs. split; [reflexivity|].
  refine (proj1 (pushes_converge demoTradeID (fun n => 4000000 * n) us demoState s' effs _ _ _ _ eq_refl E)).
  - intros s k. discriminate.
  - split; [reflexivity|]. intros. lia.
  - unfold us. repeat (apply List.Forall_cons; [apply demo_onTape; lia|]). apply List.Forall_nil.
  - split; cbn; [splits; done|rlia|reflexivity|rlia].
Defined.

Lemma full_fill_without_quantity_loses_rest_witness :
  exists s', Apply demoTradeID demoState (demoPush 11 0 0).1 demoTs = (s', Ok [EffectStatus OrderStatusFilled false]) /\
    os_OrderQty s' = 10 /\ os_CumQty s' = 0.
Proof.
  destruct (full_fill_without_quantity_loses_rest demoTradeID demoState (demoPush 11 0 0).1 demoTs eq_refl eq_refl ltac:(cbn; lia))
    as (s' & H1 & H2 & H3 & _).
  exists s'. split; [exact H1|]. split; [|exact H3]. vm_compute in H1. injection H1 as <-. reflexivity.
Defined.

Lemma status_name_not_trimmed_witness : TrdOrderStatusName 11 = "OrderStatus_Filled_All".
Proof. apply (status_name_not_trimmed 11). cbn. tauto. Defined.
