(* ===== verification/LiveExec.v ===== *)
(** * The broker executor (src/internal/exec/moomoo/executor*.go)

    Submission, push handling, flatten-on-kill, crash recovery and broker
    synchronisation over the order state machine.  The accounting book is an
    interface ([AccountBook]); livetrade/account.go implements it with the
    accounting of the backtest.  The broker is a parameter: what it answers to
    a request, and the pushes that arrive before the answer does.  Writes to
    the database, the risk log and the engine are kept as one ordered log;
    their failures are only logged by the code and are not modelled. *)

From stdpp Require Import gmap strings list sorting.
From S2P Require Import Prelude Fixed Money Domain Float64 Accounting OrderFSM.
Set Default Goal Selector "!".
#[local] Open Scope string_scope.
#[local] Open Scope Z_scope.
#[local] Open Scope go_scope.
#[local] Abbreviation length := List.length.

(** ** The accounting seam *)

Class AccountBook (B : Type) : Type := {
  bk_ApplyFill : Fill -> B -> B * res PositionSnap;
  bk_Position : B -> string -> string -> option PositionSnap;
  bk_OpenPositions : B -> list PositionSnap
}.

(** [NetPosition]: the signed quantity, 0 when never opened. *)
Definition NetPosition {B} `{AccountBook B} (b : B) (strategyID symbol : string) : Qty :=
  match bk_Position b strategyID symbol with Some p => ps_SignedQty p | None => 0 end.

(** What the executor relies on: a settled fill moves its own position by its
    signed quantity and no other (short of MinInt64, which has no absolute
    value), and the open positions are the non-zero ones, once each. *)
Class BookLaws (B : Type) `{AccountBook B} (ok : B -> Prop) : Prop := {
  bl_fill : forall b b' f pos, ok b -> in64 (f_Qty f) -> in64 (f_Price f) ->
    bk_ApplyFill f b = (b', Ok pos) -> ps_SignedQty pos <> min_int64 ->
    ok b' /\ forall s y, NetPosition b' s y =
      NetPosition b s y + (if decide ((s, y) = (f_StrategyID f, f_Symbol f)) then signedDelta f else 0);
  bl_pos : forall b b' f pos, ok b -> in64 (f_Qty f) -> bk_ApplyFill f b = (b', Ok pos) ->
    ps_SignedQty pos = NetPosition b (f_StrategyID f) (f_Symbol f) + signedDelta f;
  bl_open : forall b, ok b ->
    base.NoDup (map (fun p => (ps_StrategyID p, ps_Symbol p)) (bk_OpenPositions b)) /\
    Forall (fun p => ps_SignedQty p = NetPosition b (ps_StrategyID p) (ps_Symbol p) /\ ps_SignedQty p <> 0 /\
      min_int64 < ps_SignedQty p <= max_int64) (bk_OpenPositions b) /\
    (forall s y, NetPosition b s y <> 0 -> In (s, y) (map (fun p => (ps_StrategyID p, ps_Symbol p)) (bk_OpenPositions b)))
}.

(** livetrade/account.go: the adapter over the backtest's account. *)
Definition adapterApplyFill (f : Fill) (a : Account) : Account * res PositionSnap :=
  let '(a', r) := Account_ApplyFill f a in
  (a', match r with Ok (pos, _) => Ok pos | Err e => Err e end).

#[export] Instance AccountAdapter : AccountBook Account := {
  bk_ApplyFill := adapterApplyFill;
  bk_Position := Account_Position;
  bk_OpenPositions := OpenPositions
}.

(** ** State *)

Inductive write : Set :=
  | WOrder (o : Order)
  | WFill (f : Fill)
  | WPosition (p : PositionSnap)
  | WRisk (strategyID symbol rule : string)
  | WEmit (f : Fill)
  | WLost (f : Fill)       (* accounting refused the fill; logged *)
  | WWarn.                 (* any other log line *)

Record Executor (B : Type) : Type := mkExecutor {
  x_env : Z;
  x_accID : Z;
  x_traderID : string;
  x_seq : Z;
  x_orders : gmap string OrderState;
  x_venIndex : gmap string string;
  x_book : B;
  x_sent : list PlaceOrderRequest;
  x_log : list write;
  x_submitted : Z;
  x_rejected : Z;
  x_fillsEmit : Z
}.
Arguments mkExecutor {B}.
Arguments x_env {B}.
Arguments x_accID {B}.
Arguments x_traderID {B}.
Arguments x_seq {B}.
Arguments x_orders {B}.
Arguments x_venIndex {B}.
Arguments x_book {B}.
Arguments x_sent {B}.
Arguments x_log {B}.
Arguments x_submitted {B}.
Arguments x_rejected {B}.
Arguments x_fillsEmit {B}.

Section Setters.
Context {B : Type} (x : Executor B).
Definition withSeq (n : Z) : Executor B :=
  mkExecutor (x_env x) (x_accID x) (x_traderID x) n (x_orders x) (x_venIndex x) (x_book x) (x_sent x) (x_log x)
    (x_submitted x) (x_rejected x) (x_fillsEmit x).
Definition withOrders (o : gmap string OrderState) : Executor B :=
  mkExecutor (x_env x) (x_accID x) (x_traderID x) (x_seq x) o (x_venIndex x) (x_book x) (x_sent x) (x_log x)
    (x_submitted x) (x_rejected x) (x_fillsEmit x).
Definition withVenues (v : gmap string string) : Executor B :=
  mkExecutor (x_env x) (x_accID x) (x_traderID x) (x_seq x) (x_orders x) v (x_book x) (x_sent x) (x_log x)
    (x_submitted x) (x_rejected x) (x_fillsEmit x).
Definition withBook (b : B) : Executor B :=
  mkExecutor (x_env x) (x_accID x) (x_traderID x) (x_seq x) (x_orders x) (x_venIndex x) b (x_sent x) (x_log x)
    (x_submitted x) (x_rejected x) (x_fillsEmit x).
Definition withSent (r : PlaceOrderRequest) : Executor B :=
  mkExecutor (x_env x) (x_accID x) (x_traderID x) (x_seq x) (x_orders x) (x_venIndex x) (x_book x) (x_sent x ++ [r])%list (x_log x)
    (x_submitted x) (x_rejected x) (x_fillsEmit x).
Definition logged (w : write) : Executor B :=
  mkExecutor (x_env x) (x_accID x) (x_traderID x) (x_seq x) (x_orders x) (x_venIndex x) (x_book x) (x_sent x) (x_log x ++ [w])%list
    (x_submitted x) (x_rejected x) (x_fillsEmit x).
Definition counted (s r f : Z) : Executor B :=
  mkExecutor (x_env x) (x_accID x) (x_traderID x) (x_seq x) (x_orders x) (x_venIndex x) (x_book x) (x_sent x) (x_log x)
    (x_submitted x ⊕ s) (x_rejected x ⊕ r) (x_fillsEmit x ⊕ f).
End Setters.

(** ** executor.go *)

Definition LiveConfirmationPhrase : string := "I CONFIRM LIVE REAL MONEY TRADING TMS-LIVE-REAL-001".
Definition LiveTraderID : string := "TMS-LIVE-REAL-001".

Record TradeAccount : Set := mkTradeAccount { ta_AccID : Z; ta_TrdEnv : Z; ta_SecurityFirm : Z }.

(** What activation asks of the client; [ac_unlock] returns the error text. *)
Record ActivationClient : Type := mkActivationClient {
  ac_accounts : Z -> res (list TradeAccount);
  ac_unlock : Z -> string -> Z -> option string;
  ac_subscribe : res unit
}.

Record ExecConfig (B : Type) : Type := mkExecConfig {
  c_Account : BrokerAccount;
  c_Client : option ActivationClient;
  c_TraderID : string;
  c_ConfirmationPhrase : string;
  c_UnlockPassword : string;
  c_hasSink : bool;
  c_Book : option B
}.
Arguments mkExecConfig {B}.
Arguments c_Account {B}.
Arguments c_Client {B}.
Arguments c_TraderID {B}.
Arguments c_ConfirmationPhrase {B}.
Arguments c_UnlockPassword {B}.
Arguments c_hasSink {B}.
Arguments c_Book {B}.

Definition accountExists (accs : list TradeAccount) (id : Z) : bool :=
  existsb (fun a => (ta_AccID a =? id) && (ta_TrdEnv a =? TrdEnvReal)) accs.

Definition accountSecurityFirm (accs : list TradeAccount) (id : Z) : Z :=
  match List.find (fun a => (ta_AccID a =? id) && (ta_TrdEnv a =? TrdEnvReal)) accs with
  | Some a => ta_SecurityFirm a
  | None => 0
  end.

(** [strings.Contains] *)
Definition Contains (s sub : string) : bool := match String.index 0 sub s with Some _ => true | None => false end.

Definition isGUIUnlockDisabled (err : string) : bool :=
  Contains err "disabled the unlock interface" || Contains err "Unlock button".

(** The live branch of [New]: the four factors, in order. *)
Definition activate {B} (cfg : ExecConfig B) (cl : ActivationClient) (accID : Z) : res Z :=
  _ <-? rejectIf (negb (String.eqb (c_ConfirmationPhrase cfg) LiveConfirmationPhrase)) ;;
  _ <-? rejectIf (negb (String.eqb (c_TraderID cfg) LiveTraderID)) ;;
  accs <-? ac_accounts cl TrdEnvReal ;;
  _ <-? rejectIf (negb (accountExists accs accID)) ;;
  _ <-? (if String.eqb (c_UnlockPassword cfg) "" then Ok tt
         else match ac_unlock cl TrdEnvReal (c_UnlockPassword cfg) (accountSecurityFirm accs accID) with
              | None => Ok tt
              | Some err => if isGUIUnlockDisabled err then Ok tt else Err (ErrOther err)
              end) ;;
  Ok TrdEnvReal.

Definition NewExecutor {B} (cfg : ExecConfig B) : res (Executor B) :=
  _ <-? rejectIf (negb (Account_IsBroker (c_Account cfg))) ;;
  match c_Client cfg, c_Book cfg with
  | None, _ => Err ErrInvalidArgument
  | Some cl, book =>
      let accID := acct_BrokerAccID (c_Account cfg) in
      _ <-? rejectIf (accID =? 0) ;;
      match c_hasSink cfg, book with
      | true, Some book =>
          env <-? (if String.eqb (acct_Env (c_Account cfg)) EnvPaper then
                     _ <-? rejectIf (String.eqb (c_TraderID cfg) LiveTraderID) ;; Ok TrdEnvSimulate
                   else if String.eqb (acct_Env (c_Account cfg)) EnvReal then activate cfg cl accID
                   else Ok TrdEnvSimulate) ;;
          _ <-? ac_subscribe cl ;;
          Ok (mkExecutor env accID (c_TraderID cfg) 0 ∅ ∅ book [] [] 0 0 0)
      | _, _ => Err ErrInvalidArgument
      end
  end.

Definition nextClientOrderID {B} (x : Executor B) : string * Executor B :=
  let prefix := if x_env x =? TrdEnvReal then "LIVE" else "PAPER" in
  (prefix ++ "-O-" ++ string_of_list_ascii (formatInt (x_seq x)), withSeq x (wrapu64 (x_seq x + 1)))%string.

(** ** executor_submit.go *)

Section Ops.
Context {B : Type} `{AccountBook B}.

Definition tradeID (st : OrderState) (fillIndex : Z) : string :=
  let base := if String.eqb (os_VenueOrderID st) "" then os_ClientOrderID st else os_VenueOrderID st in
  (base ++ "-" ++ string_of_list_ascii (formatInt fillIndex))%string.

Definition orderSnapshot (st : OrderState) (status : OrderStatus) (now : time) : Order :=
  let avgFillPx := if 0 <? os_CumQty st then os_CumNotional st ⊘ os_CumQty st else 0 in
  mkOrder (os_ClientOrderID st) (os_VenueOrderID st) (os_StrategyID st) (os_Symbol st) (os_Side st) OrderTypeMarket TIFGTC
    (os_OrderQty st) None None status (os_CumQty st) avgFillPx "" now.

Definition applyEffect (st : OrderState) (now : time) (x : Executor B) (eff : Effect) : Executor B :=
  match eff with
  | EffectAccepted status => logged x (WOrder (orderSnapshot st status now))
  | EffectFill f =>
      let '(book, r) := bk_ApplyFill f (x_book x) in
      let x := withBook x book in
      match r with
      | Err _ => logged x (WLost f)
      | Ok pos => counted (logged (logged (logged x (WFill f)) (WPosition pos)) (WEmit f)) 0 0 1
      end
  | EffectDrift _ => logged x WWarn
  | EffectStatus status fillReversed =>
      let x := if fillReversed then logged (logged x WWarn) (WRisk (os_StrategyID st) (os_Symbol st) "exec.fill_cancelled") else x in
      logged x (WOrder (orderSnapshot st status now))
  end.

Definition applyEffects (st : OrderState) (now : time) (effects : list Effect) (x : Executor B) : Executor B :=
  foldl (applyEffect st now) x effects.

(** The tracked order of a push, with its key; binds the venue id. *)
Definition lookup (upd : OrderUpdate) (x : Executor B) : option (string * OrderState) * Executor B :=
  let byVenue :=
    if negb (String.eqb (u_VenueOrderID upd) "") then
      match x_venIndex x !! u_VenueOrderID upd with
      | Some coid => option_map (fun st => (coid, st)) (x_orders x !! coid)
      | None => None
      end
    else None in
  if negb (String.eqb (u_ClientOrderID upd) "") then
    match x_orders x !! u_ClientOrderID upd with
    | Some st =>
        if String.eqb (os_VenueOrderID st) "" && negb (String.eqb (u_VenueOrderID upd) "") then
          let st := set_venue (u_VenueOrderID upd) st in
          (Some (u_ClientOrderID upd, st),
           withVenues (withOrders x (<[u_ClientOrderID upd := st]> (x_orders x)))
             (<[u_VenueOrderID upd := u_ClientOrderID upd]> (x_venIndex x)))
        else (Some (u_ClientOrderID upd, st), x)
    | None => (byVenue, x)
    end
  else (byVenue, x).

Definition onOrderUpdate (now : time) (upd : OrderUpdate) (x : Executor B) : Executor B :=
  match lookup upd x with
  | (None, x) => x
  | (Some (coid, st), x) =>
      let '(st, r) := Apply tradeID st upd now in
      let x := withOrders x (<[coid := st]> (x_orders x)) in
      match r with
      | Err _ => logged x WWarn
      | Ok effects => applyEffects st now effects x
      end
  end.

(** A Trd_UpdateOrderFill push only corroborates. *)
Definition onFillUpdate (clientOrderID venueOrderID : string) (x : Executor B) : Executor B :=
  let coid := if String.eqb clientOrderID "" && negb (String.eqb venueOrderID "")
              then default "" (x_venIndex x !! venueOrderID) else clientOrderID in
  match x_orders x !! coid with Some _ => x | None => logged x WWarn end.

Definition assertEnvInvariants (x : Executor B) (req : PlaceOrderRequest) : res unit :=
  _ <-? rejectIf (negb (pr_TrdEnv req =? x_env x)) ;;
  _ <-? rejectIf (negb (pr_AccID req =? x_accID x)) ;;
  rejectIf ((x_env x =? TrdEnvReal) && negb (String.eqb (x_traderID x) LiveTraderID)).

(** The broker: given the requests sent so far, the pushes that arrive before
    the reply, each with the clock reading, and the reply (the venue order id
    or an error). *)
Context (venue : list PlaceOrderRequest -> PlaceOrderRequest -> list (OrderUpdate * time) * res string).

Definition set_reason (status : OrderStatus) (reason : string) (o : Order) : Order :=
  mkOrder (o_ClientOrderID o) (o_VenueOrderID o) (o_StrategyID o) (o_Symbol o) (o_Side o) (o_Type o) (o_TIF o)
    (o_Qty o) (o_LimitPrice o) (o_StopPrice o) status (o_FilledQty o) (o_AvgFillPx o) reason (o_TS o).

(** The tracked state is created once: a repeated id keeps the old one. *)
Definition register (coid strategyID symbol : string) (side : OrderSide) (qty : Qty) (x : Executor B) : Executor B :=
  match x_orders x !! coid with
  | Some _ => x
  | None => withOrders x (<[coid := mkOrderState coid "" strategyID symbol side qty OrderStatusSubmitted 0 0 0]> (x_orders x))
  end.

Definition place (coid strategyID symbol : string) (side : OrderSide) (qty : Qty) (reason : string) (ts : time)
    (x : Executor B) : Executor B * res string :=
  let order := NewMarketOrder coid strategyID symbol side qty reason ts in
  match Order_Validate order with
  | Err e => (x, Err e)
  | Ok _ =>
      let req := mkPlaceRequest (x_accID x) (x_env x) coid symbol side OrderTypeMarket TIFGTC qty 0 in
      match assertEnvInvariants x req with
      | Err e => (logged (counted x 0 1 0) (WRisk strategyID symbol "safety.env_invariant"), Err e)
      | Ok _ =>
          let x := logged (register coid strategyID symbol side qty x) (WOrder order) in
          let '(racing, reply) := venue (x_sent x) req in
          let x := foldl (fun x p => onOrderUpdate p.2 p.1 x) (withSent x req) racing in
          match reply with
          | Err e =>
              let x := withOrders x (alter (set_status OrderStatusRejected) coid (x_orders x)) in
              (logged (logged x (WOrder (set_reason OrderStatusRejected "place failed" order)))
                 (WRisk strategyID symbol "exec.place_failed"), Err e)
          | Ok vid =>
              let x := withOrders x (alter (set_venue vid) coid (x_orders x)) in
              let x := if negb (String.eqb vid "") then withVenues x (<[vid := coid]> (x_venIndex x)) else x in
              (counted x 1 0 0, Ok vid)
          end
      end
  end.

Definition SubmitMarket (strategyID symbol : string) (side : OrderSide) (qty : Qty) (reason : string) (ts : time)
    (x : Executor B) : Executor B * res string :=
  let '(coid, x) := nextClientOrderID x in
  let '(x, r) := place coid strategyID symbol side qty reason ts x in
  (x, match r with Ok _ => Ok coid | Err e => Err e end).

Definition SubmitMarketSignal (strategyID symbol : string) (signalSide : SignalSide) (orderSide : OrderSide) (qty : Qty)
    (reason : string) (ts : time) (x : Executor B) : Executor B * res (string * bool) :=
  let '(coid, x) := nextClientOrderID x in
  let '(x, r) := place coid strategyID symbol orderSide qty reason ts x in
  (x, match r with Ok _ => Ok (coid, true) | Err e => Err e end).

(** ** executor_recovery.go: flatten *)

Definition FlattenConfirmationPhrase : string := "FLATTEN ALL POSITIONS".
Definition flattenStrategyID : string := "FLATTEN".

Definition hasWorkingCloseOrder (x : Executor B) (strategyID symbol : string) (closeSide : OrderSide) : bool :=
  existsb (fun e => String.eqb (os_StrategyID e.2) strategyID && String.eqb (os_Symbol e.2) symbol &&
                    String.eqb (os_Side e.2) closeSide && negb (IsTerminal e.2)) (map_to_list (x_orders x)).

Definition mustPosition (b : B) (strategyID symbol : string) : PositionSnap :=
  default (mkPositionSnap strategyID symbol 0 0 0 zeroTime) (bk_Position b strategyID symbol).

(** The ids submitted so far and the first error. *)
Definition orFirst (firstErr : option error) (r : res string) : option error :=
  match firstErr, r with Some e, _ => Some e | None, Err e => Some e | None, Ok _ => None end.

Fixpoint flattenBook (ps : list PositionSnap) (reason : string) (ts : time) (submitted : list string) (firstErr : option error)
    (x : Executor B) : Executor B * (list string * option error) :=
  match ps with
  | [] => (x, (submitted, firstErr))
  | p :: ps =>
      match CloseSideFor (ps_SignedQty p) with
      | None => flattenBook ps reason ts submitted firstErr x
      | Some side =>
          if hasWorkingCloseOrder x (ps_StrategyID p) (ps_Symbol p) side then flattenBook ps reason ts submitted firstErr x
          else
            let absQ := if ps_SignedQty p <? 0 then ⊖ (ps_SignedQty p) else ps_SignedQty p in
            let '(coid, x) := nextClientOrderID x in
            let '(x, r) := place coid (ps_StrategyID p) (ps_Symbol p) side absQ ("flatten-on-kill: " ++ reason) ts x in
            flattenBook ps reason ts (match r with Ok _ => submitted ++ [coid] | Err _ => submitted end)%list
              (orFirst firstErr r) x
      end
  end.

(** [closing[p.Symbol] += p.SignedQty] over the open book. *)
Definition closingQty (b : B) : gmap string Z :=
  foldl (fun m p => <[ps_Symbol p := default 0 (m !! ps_Symbol p) ⊕ ps_SignedQty p]> m) ∅ (bk_OpenPositions b).

(** [sort.Slice] by symbol; the sort of the runtime is not stable, positions
    with equal symbols keep their order here. *)
Definition symLe (a b : BrokerPosition) : Prop := String.le (bp_Symbol a) (bp_Symbol b).
#[local] Instance symLe_dec : RelDecision symLe.
Proof. intros a b. unfold symLe. apply _. Defined.

(** Seed the residual into the FLATTEN book so that the close nets it to 0. *)
Definition seedResidual (p : BrokerPosition) (residual absQ : Z) (ts : time) (x : Executor B) : Executor B :=
  let px := if bp_AvgPrice p <=? 0 then bp_Price p else bp_AvgPrice p in
  if 0 <? px then
    let openSide := if residual <? 0 then OrderSideSell else OrderSideBuy in
    let id := ("FLATTEN-DRIFT-SEED-" ++ bp_Symbol p)%string in
    let seed := mkFill id id "" flattenStrategyID (bp_Symbol p) openSide absQ px 0 ts in
    match Fill_Validate seed with
    | Err _ => x
    | Ok _ =>
        let '(book, r) := bk_ApplyFill seed (x_book x) in
        let x := withBook x book in
        match r with
        | Err _ => logged x (WLost seed)
        | Ok _ => logged x (WPosition (mustPosition (x_book x) flattenStrategyID (bp_Symbol p)))
        end
    end
  else x.

Fixpoint sweepLoop (closing : gmap string Z) (ps : list BrokerPosition) (reason : string) (ts : time)
    (submitted : list string) (firstErr : option error) (x : Executor B) : Executor B * (list string * option error) :=
  match ps with
  | [] => (x, (submitted, firstErr))
  | p :: ps =>
      let residual := bp_Qty p ⊖ default 0 (closing !! bp_Symbol p) in
      match (if residual =? 0 then None else CloseSideFor residual) with
      | None => sweepLoop closing ps reason ts submitted firstErr x
      | Some side =>
          if hasWorkingCloseOrder x flattenStrategyID (bp_Symbol p) side
          then sweepLoop closing ps reason ts submitted firstErr x
          else
            let absQ := if residual <? 0 then ⊖ residual else residual in
            let x := logged x (WRisk flattenStrategyID (bp_Symbol p) "exec.flatten_drift") in
            let x := seedResidual p residual absQ ts x in
            let '(coid, x) := nextClientOrderID x in
            let '(x, r) := place coid flattenStrategyID (bp_Symbol p) side absQ ("flatten-on-kill drift sweep: " ++ reason) ts x in
            sweepLoop closing ps reason ts (match r with Ok _ => submitted ++ [coid] | Err _ => submitted end)%list
              (orFirst firstErr r) x
      end
  end.

Definition flattenBrokerDrift (brokerPositions : res (list BrokerPosition)) (reason : string) (ts : time)
    (x : Executor B) : Executor B * (list string * option error) :=
  match brokerPositions with
  | Err e => (x, ([], Some e))
  | Ok positions => sweepLoop (closingQty (x_book x)) (merge_sort symLe positions) reason ts [] None x
  end.

(** [brokerPositions] is what the broker reports when the sweep asks. *)
Definition Flatten (brokerPositions : res (list BrokerPosition)) (confirmation reason : string) (now : time)
    (x : Executor B) : Executor B * (list string * option error) :=
  if negb (String.eqb confirmation FlattenConfirmationPhrase) then (x, ([], Some ErrInvalidArgument))
  else
    let '(x, (submitted, firstErr)) := flattenBook (bk_OpenPositions (x_book x)) reason now [] None x in
    let '(x, (swept, serr)) := flattenBrokerDrift brokerPositions reason now x in
    (x, ((submitted ++ swept)%list, match firstErr with Some e => Some e | None => serr end)).

(** ** executor_recovery.go: restore *)

(** The persisted strategy of an order: [None] when no resolver or record. *)
Definition resolveAll (resolve : string -> res (option string)) (orders : list OrderUpdate) : gmap string string * option error :=
  foldl (fun acc o =>
    let '(ids, resolveErr) := acc in
    let coid := u_ClientOrderID o in
    if String.eqb coid "" then acc
    else match resolve coid with
         | Err e => (ids, match resolveErr with Some e' => Some e' | None => Some e end)
         | Ok sid =>
             if String.eqb (default "" sid) "" then
               (ids, match resolveErr with Some e' => Some e' | None => Some ErrInvalidArgument end)
             else (<[coid := default "" sid]> ids, resolveErr)
         end) (∅, None) orders.

Definition restoredState (strategyByCOID : gmap string string) (o : OrderUpdate) : OrderState :=
  let coid := u_ClientOrderID o in
  let cumNotional :=
    if 0 <? u_DealtQty o then match Price_MulQty (u_DealtAvgPrice o) (u_DealtQty o) with Ok n => n | Err _ => 0 end else 0 in
  mkOrderState coid (u_VenueOrderID o) (default "" (strategyByCOID !! coid)) (u_Symbol o) (u_Side o) (u_OrderQty o)
    (default OrderStatusAccepted (DomainOrderStatus (u_RawStatus o))) (u_DealtQty o) cumNotional 0.

Definition restoreOrder (strategyByCOID : gmap string string) (x : Executor B) (o : OrderUpdate) : Executor B :=
  let coid := u_ClientOrderID o in
  if String.eqb coid "" then x
  else
    let x := withOrders x (<[coid := restoredState strategyByCOID o]> (x_orders x)) in
    if negb (String.eqb (u_VenueOrderID o) "") then withVenues x (<[u_VenueOrderID o := coid]> (x_venIndex x)) else x.

Definition RestoreFromBroker (resolve : string -> res (option string)) (orderList : res (list OrderUpdate))
    (positionList : res (list BrokerPosition)) (x : Executor B) : Executor B * (list BrokerPosition * option error) :=
  match orderList with
  | Err e => (x, ([], Some e))
  | Ok orders =>
      let '(ids, resolveErr) := resolveAll resolve orders in
      let x := foldl (restoreOrder ids) x orders in
      match positionList with
      | Err e => (x, ([], Some e))
      | Ok positions => (x, (positions, resolveErr))
      end
  end.

(** The map values are taken by key, so the sorted slice is in key order. *)
Definition TrackedOrders (x : Executor B) : list OrderState :=
  omap (fun k => x_orders x !! k) (merge_sort String.le (map fst (map_to_list (x_orders x)))).
End Ops.

(** ** executor_sync.go *)

Section Sync.
Context {B : Type} `{AccountBook B}.

Definition envTag (env : Z) : string := if env =? TrdEnvReal then "LIVE" else "PAPER".

Definition syncFill (env : Z) (strategyID symbol : string) (bp : BrokerPosition) (delta : Z) (ts : time) : Fill :=
  let side := if delta <? 0 then OrderSideSell else OrderSideBuy in
  let absQ := if delta <? 0 then ⊖ delta else delta in
  let price := if bp_AvgPrice bp <=? 0 then bp_Price bp else bp_AvgPrice bp in
  let price := if price <=? 0 then FixedScale else price in
  let coid := ("SYNC-" ++ envTag env ++ "-" ++ strategyID ++ "-" ++ symbol ++ "-" ++ string_of_list_ascii (formatInt (bp_Qty bp)))%string in
  mkFill (coid ++ "-F") coid "" strategyID symbol side absQ price 0 ts.

Definition reflectSymbol (strategyID symbol : string) (bp : BrokerPosition) (now : time)
    (x : Executor B) : Executor B * res bool :=
  let delta := bp_Qty bp ⊖ NetPosition (x_book x) strategyID symbol in
  if delta =? 0 then (x, Ok false)
  else
    let f := syncFill (x_env x) strategyID symbol bp delta now in
    match Fill_Validate f with
    | Err e => (x, Err e)
    | Ok _ =>
        let order := mkOrder (f_ClientOrderID f) "" strategyID symbol (f_Side f) OrderTypeMarket TIFGTC (f_Qty f) None None
                       OrderStatusFilled (f_Qty f) (f_Price f) "broker-sync reflect (external)" now in
        let x := logged x (WOrder order) in
        let '(book, r) := bk_ApplyFill f (x_book x) in
        let x := withBook x book in
        match r with
        | Err e => (x, Err e)
        | Ok pos => (logged (logged x (WFill f)) (WPosition pos), Ok true)
        end
    end.

(** The broker net per symbol, the first row of a symbol supplying the prices. *)
Definition brokerNetOf (positions : list BrokerPosition) : gmap string BrokerPosition :=
  foldl (fun m p =>
    if bp_Qty p =? 0 then m
    else match m !! bp_Symbol p with
         | None => <[bp_Symbol p := p]> m
         | Some cur => <[bp_Symbol p := mkBrokerPosition (bp_Symbol cur) (bp_Qty cur ⊕ bp_Qty p) (bp_AvgPrice cur)
                          (bp_CostPrice cur) (bp_Price cur) (bp_PLVal cur)]> m
         end) ∅ positions.

Definition zeroBrokerPosition : BrokerPosition := mkBrokerPosition "" 0 0 0 0 0.

Fixpoint reflectLoop (strategyID : string) (brokerNet : gmap string BrokerPosition) (now : time) (symbols : list string)
    (reflected : Z) (x : Executor B) : Executor B * res Z :=
  match symbols with
  | [] => (x, Ok reflected)
  | sym :: symbols =>
      let bp := default zeroBrokerPosition (brokerNet !! sym) in
      match reflectSymbol strategyID sym bp now x with
      | (x, Err e) => (x, Err e)
      | (x, Ok r) => reflectLoop strategyID brokerNet now symbols (if r then reflected + 1 else reflected) x
      end
  end.

(** The symbols to reflect: the broker's and those the strategy holds. *)
Definition syncSymbols (strategyID : string) (brokerNet : gmap string BrokerPosition) (b : B) : list string :=
  let held := map ps_Symbol (List.filter (fun p => String.eqb (ps_StrategyID p) strategyID && negb (ps_SignedQty p =? 0))
                               (bk_OpenPositions b)) in
  merge_sort String.le (elements (dom brokerNet ∪ list_to_set held : gset string)).

(** The reads of [PullBroker] supply [positions]; the other rows only count. *)
Definition SyncBrokerInto (strategyID : string) (positions : res (list BrokerPosition)) (now : time)
    (x : Executor B) : Executor B * res Z :=
  if String.eqb strategyID "" then (x, Err ErrInvalidArgument)
  else match positions with
       | Err e => (x, Err e)
       | Ok positions =>
           let brokerNet := brokerNetOf positions in
           reflectLoop strategyID brokerNet now (syncSymbols strategyID brokerNet (x_book x)) 0 x
       end.
End Sync.

(** ** The accounting satisfies the seam *)

Lemma net_posAt a s y : NetPosition a s y = p_signedQty (posAt a (s, y)).
Proof. unfold NetPosition, posAt. cbn. unfold Account_Position. by destruct (a_positions a !! (s, y)). Qed.

Lemma sortKeys_elem (m : gmap StrategySymbol Position) k : k ∈ sortKeys m <-> is_Some (m !! k).
Proof.
  rewrite sortKeys_perm, list_elem_of_fmap. split.
  - intros ([k' p] & -> & Hi%elem_of_map_to_list). eauto.
  - intros [p Hp]. exists (k, p). by rewrite elem_of_map_to_list.
Qed.

Lemma sortKeys_nodup (m : gmap StrategySymbol Position) : base.NoDup (sortKeys m).
Proof. rewrite sortKeys_perm. apply NoDup_fst_map_to_list. Qed.

(** The open positions, by key. *)
Lemma OpenPositions_keys a : acctOk a ->
  OpenPositions a = map (fun k => Position_Snapshot (posAt a k))
    (List.filter (fun k => negb (p_signedQty (posAt a k) =? 0)) (sortKeys (a_positions a))).
Proof.
  intros Ha. unfold OpenPositions, positionsInOrder.
  assert (Hk : Forall (fun k => is_Some (a_positions a !! k)) (sortKeys (a_positions a))).
  { apply List.Forall_forall. intros k Hk%list_elem_of_In. by apply sortKeys_elem. }
  induction Hk as [|k l [p Hp] Hl IH]; [done|].
  assert (Ek : posAt a k = p) by (unfold posAt; by rewrite Hp).
  cbn [omap list_omap List.filter map]. rewrite Hp, Ek. cbn [List.filter]. change (Position_IsFlat p) with (p_signedQty p =? 0).
  destruct (negb (p_signedQty p =? 0)); cbn [map]; [|exact IH]. by rewrite Ek, IH.
Qed.

Lemma Position_ApplyFill_qty f p p' out : in64 (p_signedQty p) -> in64 (f_Qty f) ->
  Position_ApplyFill f p = (p', Ok out) -> p_signedQty p' = p_signedQty p + signedDelta f.
Proof.
  intros Hp Hq E. unfold Position_ApplyFill in E. destruct (Z.leb_spec (f_Qty f) 0); [discriminate|].
  apply eff_bind_ok in E as (s1 & delta & E1 & E). unfold eff_lift in E1. injection E1 as <- Ed.
  apply eff_bind_ok in E as (s2 & q & E2 & E). injection E2 as <- <-.
  apply eff_bind_ok in E as (s3 & n & E3 & E). unfold eff_lift in E3. injection E3 as <- En.
  apply eff_bind_ok in E as (s4 & o & _ & E). apply eff_bind_ok in E as (s5 & [] & E5 & E).
  injection E as <- _. injection E5 as <-. cbn. unfold fillDelta in Ed. unfold signedDelta.
  destruct (String.eqb (f_Side f) OrderSideBuy); [injection Ed as <-; by apply Qty_Add_ok in En as [-> _]|].
  destruct (String.eqb (f_Side f) OrderSideSell); [|discriminate]. apply Qty_Neg_ok in Ed as [-> Hi]; [|done].
  by apply Qty_Add_ok in En as [-> _].
Qed.

Lemma Account_ApplyFill_qty f a a' snap out : acctOk a -> in64 (f_Qty f) ->
  Account_ApplyFill f a = (a', Ok (snap, out)) ->
  ps_SignedQty snap = p_signedQty (posAt a (f_StrategyID f, f_Symbol f)) + signedDelta f.
Proof.
  intros Ha Hq E. set (key := (f_StrategyID f, f_Symbol f)) in *. unfold Account_ApplyFill in E. fold key in E.
  apply eff_bind_ok in E as (a1 & [] & E1 & E). unfold eff_lift in E1. injection E1 as <- _.
  apply eff_bind_ok in E as (a2 & pos & E2 & E). apply getPosition_run in E2 as [E2 ->]. injection E2 as ->. fold key in E.
  apply eff_bind_ok in E as (a3 & o & E3 & E). unfold onPosition in E3.
  destruct (Position_ApplyFill f (posAt a key)) as [p' r] eqn:Ep. injection E3 as <- ->.
  destruct (posAt_ok a key Ha) as [[Hpq _ _ _] _]. apply Position_ApplyFill_qty in Ep; [|rlia|done].
  apply eff_bind_ok in E as (a4 & b4 & E4 & E). injection E4 as <- <-.
  apply eff_bind_ok in E as (a5 & [] & E5 & E). apply eff_bind_ok in E as (a6 & [] & E6 & E). injection E6 as <-.
  apply eff_bind_ok in E as (a7 & [] & E7 & E). apply eff_bind_ok in E as (a8 & b8 & E8 & E). injection E8 as <- <-.
  injection E as <- <- _.
  assert (P5 : a_positions a5 !! key = Some p').
  { destruct (negb _); bind_inv; unfold eff_modify, eff_ret in *; simplify_eq; cbn; by rewrite lookup_insert_eq. }
  assert (P7 : a_positions a7 !! key = Some p').
  { unfold emitAccountState in E7. bind_inv. unfold eff_modify, publish in *. by simplify_eq. }
  rewrite P7. cbn. exact Ep.
Qed.

#[export] Instance AccountAdapter_laws : BookLaws Account acctOk.
Proof.
  split.
  - intros b b' f pos Hb Hq Hp E Hm. cbn [bk_ApplyFill AccountAdapter] in E. unfold adapterApplyFill in E. revert E.
    destruct (Account_ApplyFill f b) as [a' [[snap out]|e]] eqn:Ea; intros E; [|discriminate]. injection E as <- <-.
    rewrite (Account_ApplyFill_qty f b a' snap out Hb Hq Ea) in Hm.
    destruct (Account_ApplyFill_spec f b a' snap out Hb Hq Hp Hm Ea) as (p' & Hs & Hset & Hok & _).
    split; [done|]. intros s y. rewrite !net_posAt. destruct Hset as (_ & _ & Ep & _ & _). unfold posAt at 1. rewrite Ep.
    destruct (decide ((s, y) = (f_StrategyID f, f_Symbol f))) as [->|Hne].
    + rewrite lookup_insert_eq. cbn. apply Hs.
    + rewrite lookup_insert_ne by done. fold (posAt b (s, y)). lia.
  - intros b b' f pos Hb Hq E. cbn [bk_ApplyFill AccountAdapter] in E. unfold adapterApplyFill in E. revert E.
    destruct (Account_ApplyFill f b) as [a' [[snap out]|e]] eqn:Ea; intros E; [|discriminate]. injection E as <- <-.
    rewrite net_posAt. apply (Account_ApplyFill_qty f b a' snap out Hb Hq Ea).
  - intros a Ha. cbn [bk_OpenPositions AccountAdapter]. rewrite OpenPositions_keys by done. rewrite map_map.
    assert (Ek : forall l, map (fun k => (ps_StrategyID (Position_Snapshot (posAt a k)), ps_Symbol (Position_Snapshot (posAt a k)))) l = l).
    { intros l. rewrite <- (map_id l) at 2. apply map_ext. intros k. apply (posAt_ok a k Ha). }
    rewrite Ek. split; [|split].
    + apply NoDup_ListNoDup, List.NoDup_filter, NoDup_ListNoDup, sortKeys_nodup.
    + apply List.Forall_map, List.Forall_forall. intros k [_ Hk]%List.filter_In.
      pose proof (posAt_ok a k Ha) as [[Hq _ _ _] Hkey]. cbn [ps_StrategyID ps_Symbol ps_SignedQty Position_Snapshot].
      rewrite net_posAt, Hkey. apply negb_true_iff, Z.eqb_neq in Hk. done.
    + intros s y Hn. rewrite net_posAt in Hn. apply List.filter_In. split.
      * apply list_elem_of_In, sortKeys_elem. unfold posAt in Hn. destruct (a_positions a !! (s, y)); [eauto|]. cbn in Hn. done.
      * by apply negb_true_iff, Z.eqb_neq.
Qed.

(** ** What operations leave alone *)

Section Link.
Context {B : Type} `{AccountBook B}.

(** The account binding and the outgoing requests. *)
Definition sameLink (x x' : Executor B) : Prop :=
  x_env x' = x_env x /\ x_accID x' = x_accID x /\ x_traderID x' = x_traderID x /\ x_sent x' = x_sent x /\ x_seq x' = x_seq x.

#[export] Instance sameLink_preorder : PreOrder sameLink.
Proof. split; [done|]. unfold sameLink. intros x y z ? ?. intuition congruence. Qed.

Lemma applyEffects_link st now effs x : sameLink x (applyEffects st now effs x).
Proof.
  unfold applyEffects. revert x. induction effs as [|e effs IH]; intros x; [done|]. cbn.
  transitivity (applyEffect st now x e); [|apply IH]. unfold applyEffect. destruct e as [s|f|s [|]|s]; try done.
  by destruct (bk_ApplyFill f (x_book x)) as [b [p|e]].
Qed.

Lemma lookup_link u x : sameLink x (lookup u x).2.
Proof.
  unfold lookup. destruct (negb (String.eqb (u_ClientOrderID u) "")); [|done].
  destruct (x_orders x !! u_ClientOrderID u); [|done]. by destruct (_ && _).
Qed.

Lemma onOrderUpdate_link now u x : sameLink x (onOrderUpdate now u x).
Proof.
  unfold onOrderUpdate. pose proof (lookup_link u x) as Hl. destruct (lookup u x) as [[[coid st]|] x1]; [|done]. cbn in Hl.
  destruct (Apply tradeID st u now) as [st' [effs|e]]; [|done].
  etransitivity; [exact Hl|]. etransitivity; [|apply applyEffects_link]. done.
Qed.

Definition pushAll (x : Executor B) (ps : list (OrderUpdate * time)) : Executor B :=
  foldl (fun x p => onOrderUpdate p.2 p.1 x) x ps.

Lemma pushAll_link ps x : sameLink x (pushAll x ps).
Proof.
  unfold pushAll. revert x. induction ps as [|p ps IH]; intros x; [done|]. cbn.
  etransitivity; [apply onOrderUpdate_link|apply IH].
Qed.

Context (venue : list PlaceOrderRequest -> PlaceOrderRequest -> list (OrderUpdate * time) * res string).

(** A request that may leave the executor. *)
Definition bound (x : Executor B) (r : PlaceOrderRequest) : Prop :=
  pr_TrdEnv r = x_env x /\ pr_AccID r = x_accID x /\ (x_env x = TrdEnvReal -> x_traderID x = LiveTraderID) /\
  0 < pr_Qty r /\ pr_ClientOrderID r <> "" /\ pr_Symbol r <> "" /\ (pr_Side r = OrderSideBuy \/ pr_Side r = OrderSideSell).

(** What any operation may do to the link. *)
Definition extends (x x' : Executor B) : Prop :=
  x_env x' = x_env x /\ x_accID x' = x_accID x /\ x_traderID x' = x_traderID x /\
  exists l, x_sent x' = (x_sent x ++ l)%list /\ Forall (bound x) l.

#[export] Instance extends_preorder : PreOrder extends.
Proof.
  split.
  - intros x. unfold extends. splits; [done..|]. exists []. by rewrite app_nil_r.
  - intros x y z (A1 & A2 & A3 & l & A4 & A5) (B1 & B2 & B3 & k & B4 & B5). unfold extends. splits; [congruence..|].
    exists (l ++ k)%list. rewrite B4, A4, app_assoc. split; [done|]. apply List.Forall_app. split; [done|].
    revert B5. apply List.Forall_impl. unfold bound. intros r. by rewrite A1, A2, A3.
Qed.

Lemma link_extends x x' : sameLink x x' -> extends x x'.
Proof. intros (H1 & H2 & H3 & H4 & H5). unfold extends. splits; [done..|]. exists []. by rewrite app_nil_r. Qed.

Lemma next_extends x : extends x (nextClientOrderID x).2.
Proof. unfold extends. cbn. splits; [done..|]. exists []. by rewrite app_nil_r. Qed.

Lemma Order_Validate_market coid s y side q reason ts : Order_Validate (NewMarketOrder coid s y side q reason ts) = Ok tt ->
  coid <> "" /\ y <> "" /\ 0 < q /\ (side = OrderSideBuy \/ side = OrderSideSell).
Proof.
  unfold Order_Validate. checks. cbn [o_ClientOrderID o_StrategyID o_Symbol o_Side o_Qty NewMarketOrder].
  rewrite !String.eqb_neq, negb_false_iff, OrderSide_IsValid_iff, Z.leb_gt. tauto.
Qed.

Lemma register_link coid s y side q x : sameLink x (register coid s y side q x).
Proof. unfold register. by destruct (x_orders x !! coid). Qed.

Lemma place_extends coid s y side q reason ts x : extends x (place venue coid s y side q reason ts x).1.
Proof.
  unfold place. destruct (Order_Validate _) as [[]|e] eqn:Ev; [|done]. apply Order_Validate_market in Ev as (V1 & V2 & V3 & V4).
  set (req := mkPlaceRequest _ _ _ _ _ _ _ _ _). destruct (assertEnvInvariants x req) as [u|e] eqn:Ea;
    [|apply link_extends; done].
  assert (Hb : bound x req).
  { unfold assertEnvInvariants in Ea. revert Ea. unfold rejectIf. rewrite !Z.eqb_refl. cbn [negb res_bind].
    destruct (Z.eqb_spec (x_env x) TrdEnvReal) as [Er|Er]; cbn [andb].
    - destruct (String.eqb_spec (x_traderID x) LiveTraderID) as [Et|Et]; [|discriminate]. intros _. unfold bound. cbn. tauto.
    - intros _. unfold bound. cbn. tauto. }
  set (x1 := logged _ _). assert (H1 : sameLink x x1) by (etransitivity; [apply register_link|done]). clearbody x1.
  destruct (venue (x_sent x1) req) as [racing reply]. fold (pushAll (withSent x1 req) racing).
  assert (H2 : extends x (withSent x1 req)).
  { destruct H1 as (A1 & A2 & A3 & A4 & A5). unfold extends. splits; [done..|]. exists [req]. cbn. rewrite A4.
    split; [done|]. by apply List.Forall_cons. }
  pose proof (link_extends _ _ (pushAll_link racing (withSent x1 req))) as H3.
  transitivity (pushAll (withSent x1 req) racing); [by transitivity (withSent x1 req)|].
  apply link_extends. destruct reply as [vid|e]; [|done]. by destruct (negb _).
Qed.

Lemma submit_extends s y side q reason ts x :
  extends x (place venue (nextClientOrderID x).1 s y side q reason ts (nextClientOrderID x).2).1.
Proof. etransitivity; [apply next_extends|apply place_extends]. Qed.

Lemma SubmitMarket_extends s y side q reason ts x : extends x (SubmitMarket venue s y side q reason ts x).1.
Proof.
  unfold SubmitMarket. pose proof (submit_extends s y side q reason ts x) as Hx.
  destruct (nextClientOrderID x) as [coid x1]. cbn in Hx. by destruct (place _ _ _ _ _ _ _ _ x1).
Qed.

Lemma SubmitMarketSignal_extends s y sg side q reason ts x : extends x (SubmitMarketSignal venue s y sg side q reason ts x).1.
Proof.
  unfold SubmitMarketSignal. pose proof (submit_extends s y side q reason ts x) as Hx.
  destruct (nextClientOrderID x) as [coid x1]. cbn in Hx. by destruct (place _ _ _ _ _ _ _ _ x1).
Qed.

Lemma flattenBook_extends ps reason ts : forall sub err x, extends x (flattenBook venue ps reason ts sub err x).1.
Proof.
  induction ps as [|p ps IH]; intros sub err x; [done|]. cbn [flattenBook].
  destruct (CloseSideFor (ps_SignedQty p)) as [side|]; [|apply IH]. destruct (hasWorkingCloseOrder _ _ _ _); [apply IH|].
  pose proof (submit_extends (ps_StrategyID p) (ps_Symbol p) side
    (if ps_SignedQty p <? 0 then ⊖ (ps_SignedQty p) else ps_SignedQty p) ("flatten-on-kill: " ++ reason) ts x) as Hx.
  destruct (nextClientOrderID x) as [coid x1]. cbn [fst snd] in Hx. destruct (place _ _ _ _ _ _ _ _ x1) as [x2 r].
  etransitivity; [exact Hx|apply IH].
Qed.

Lemma seedResidual_link p r q ts x : sameLink x (seedResidual p r q ts x).
Proof.
  unfold seedResidual. destruct (0 <? _); [|done]. destruct (Fill_Validate _); [|done].
  by destruct (bk_ApplyFill _ _) as [b [pos|e]].
Qed.

Lemma sweepLoop_extends closing ps reason ts : forall sub err x, extends x (sweepLoop venue closing ps reason ts sub err x).1.
Proof.
  induction ps as [|p ps IH]; intros sub err x; [done|]. cbn [sweepLoop].
  destruct (if _ =? 0 then _ else _) as [side|]; [|apply IH]. destruct (hasWorkingCloseOrder _ _ _ _); [apply IH|].
  set (res := _ ⊖ _). set (absQ := if res <? 0 then _ else _). set (x1 := seedResidual _ _ _ _ _).
  pose proof (submit_extends flattenStrategyID (bp_Symbol p) side absQ ("flatten-on-kill drift sweep: " ++ reason) ts x1) as Hx.
  assert (H1 : extends x x1) by (apply link_extends; etransitivity; [|apply seedResidual_link]; done). clearbody x1.
  destruct (nextClientOrderID x1) as [coid x2]. cbn [fst snd] in Hx. destruct (place _ _ _ _ _ _ _ _ x2) as [x3 r].
  etransitivity; [exact H1|]. etransitivity; [exact Hx|apply IH].
Qed.

Lemma Flatten_extends bps conf reason now x : extends x (Flatten venue bps conf reason now x).1.
Proof.
  unfold Flatten. destruct (negb _); [done|].
  pose proof (flattenBook_extends (bk_OpenPositions (x_book x)) reason now [] None x) as Hx.
  destruct (flattenBook _ _ _ _ _ _ x) as [x1 [sub err]]. cbn in Hx. unfold flattenBrokerDrift.
  destruct bps as [ps|e]; [|done].
  pose proof (sweepLoop_extends (closingQty (x_book x1)) (merge_sort symLe ps) reason now [] None x1) as Hs.
  destruct (sweepLoop _ _ _ _ _ _ _ x1) as [x2 [swept serr]]. etransitivity; [exact Hx|exact Hs].
Qed.

Lemma restore_link resolve orders positions x : sameLink x (RestoreFromBroker resolve orders positions x).1.
Proof.
  unfold RestoreFromBroker. destruct orders as [os|e]; [|done]. destruct (resolveAll resolve os) as [ids err].
  assert (Hf : forall os x, sameLink x (foldl (restoreOrder ids) x os)).
  { clear. induction os as [|o os IH]; intros x; [done|]. cbn. etransitivity; [|apply IH].
    unfold restoreOrder. destruct (String.eqb _ ""); [done|]. by destruct (negb _). }
  destruct positions; apply Hf.
Qed.

Lemma reflectLoop_link strategyID net now syms : forall n x, sameLink x (reflectLoop strategyID net now syms n x).1.
Proof.
  induction syms as [|y syms IH]; intros n x; [done|]. cbn [reflectLoop].
  assert (Hr : sameLink x (reflectSymbol strategyID y (default zeroBrokerPosition (net !! y)) now x).1).
  { unfold reflectSymbol. destruct (_ =? 0); [done|]. destruct (Fill_Validate _); [|done].
    by destruct (bk_ApplyFill _ _) as [b [pos|e]]. }
  destruct (reflectSymbol _ _ _ _ x) as [x1 [r|e]]; [|done]. etransitivity; [exact Hr|apply IH].
Qed.

Lemma sync_link strategyID positions now x : sameLink x (SyncBrokerInto strategyID positions now x).1.
Proof.
  unfold SyncBrokerInto. destruct (String.eqb strategyID ""); [done|]. destruct positions; [|done]. apply reflectLoop_link.
Qed.

(** ** Histories of an executor *)

Inductive xstep : Executor B -> Executor B -> Prop :=
  | step_submit s y side q reason ts x : xstep x (SubmitMarket venue s y side q reason ts x).1
  | step_signal s y sg side q reason ts x : xstep x (SubmitMarketSignal venue s y sg side q reason ts x).1
  | step_push now u x : xstep x (onOrderUpdate now u x)
  | step_fill_push coid vid x : xstep x (onFillUpdate coid vid x)
  | step_flatten bps conf reason now x : xstep x (Flatten venue bps conf reason now x).1
  | step_restore resolve orders positions x : xstep x (RestoreFromBroker resolve orders positions x).1
  | step_sync strategyID positions now x : xstep x (SyncBrokerInto strategyID positions now x).1.

Inductive reach (x0 : Executor B) : Executor B -> Prop :=
  | reach_refl : reach x0 x0
  | reach_step x x' : reach x0 x -> xstep x x' -> reach x0 x'.

Lemma xstep_extends x x' : xstep x x' -> extends x x'.
Proof.
  intros [s y side q reason ts z|s y sg side q reason ts z|now u z|coid vid z|bps conf reason now z|resolve orders positions z|sid positions now z].
  - apply SubmitMarket_extends.
  - apply SubmitMarketSignal_extends.
  - apply link_extends, onOrderUpdate_link.
  - apply link_extends. unfold onFillUpdate. by destruct (x_orders z !! _).
  - apply Flatten_extends.
  - apply link_extends, restore_link.
  - apply link_extends, sync_link.
Qed.

Lemma reach_extends x0 x : reach x0 x -> extends x0 x.
Proof. induction 1 as [|x x' _ IH Hs]; [done|]. etransitivity; [exact IH|by apply xstep_extends]. Qed.
End Link.

(** ** The book follows the orders *)

Lemma sumZ_In_le x l : Forall (fun y => 0 <= y) l -> In x l -> x <= sumZ l.
Proof.
  induction 1 as [|y l Hy Hl IH]; intros Hi; [destruct Hi|]. rewrite sumZ_cons. pose proof (sumZ_nonneg l Hl).
  destruct Hi as [->|Hi]; [lia|]. specialize (IH Hi). lia.
Qed.

Section SumMap.
Context {A : Type} (g : A -> Z).
Definition sumMap (m : gmap string A) : Z := sumZ (map (fun e => g e.2) (map_to_list m)).

Lemma sumMap_new m k v : m !! k = None -> sumMap (<[k := v]> m) = sumMap m + g v.
Proof. intros Hk. unfold sumMap. rewrite map_to_list_insert by done. cbn [map]. rewrite sumZ_cons. cbn. lia. Qed.

Lemma sumMap_set m k v w : m !! k = Some w -> sumMap (<[k := v]> m) = sumMap m + g v - g w.
Proof.
  intros Hk. rewrite <- (insert_delete_eq m k v). rewrite sumMap_new by apply lookup_delete_eq.
  rewrite <- (insert_id m k w Hk) at 2. rewrite <- (insert_delete_eq m k w). rewrite sumMap_new by apply lookup_delete_eq. lia.
Qed.
End SumMap.

(** No fill was refused by accounting, no position reached MinInt64. *)
Definition cleanWrite (w : write) : Prop :=
  match w with WLost _ => False | WPosition p => ps_SignedQty p <> min_int64 | _ => True end.

(** The signed quantity an order has filled into a position. *)
Definition contrib (s y : string) (st : OrderState) : Z :=
  if decide ((s, y) = (os_StrategyID st, os_Symbol st))
  then (if String.eqb (os_Side st) OrderSideBuy then os_CumQty st else - os_CumQty st) else 0.

Definition fillSum (s y : string) (fs : list Fill) : Z :=
  sumZ (map (fun f => if decide ((s, y) = (f_StrategyID f, f_Symbol f)) then signedDelta f else 0) fs).

(** A fill within int64. *)
Definition fillFits (f : Fill) : Prop := in64 (f_Qty f) /\ in64 (f_Price f).

Lemma ledger_fits st st' fs : ledger st st' fs -> cumOk st -> Forall fillFits fs.
Proof.
  intros [[Hc1 Hc2] _ Hf Hq Hn] [Hd1 Hd2].
  assert (Hq0 : Forall (fun y => 0 <= y) (map f_Qty fs)).
  { apply List.Forall_map. revert Hf. apply List.Forall_impl. intros f (_ & _ & _ & _ & ? & _). lia. }
  assert (Hn0 : Forall (fun y => 0 <= y) (map notional fs)).
  { apply List.Forall_map. revert Hf. apply List.Forall_impl. intros f (_ & _ & _ & _ & ? & ? & _). unfold notional. nia. }
  apply List.Forall_forall. intros f Hi. rewrite List.Forall_forall in Hf. destruct (Hf f Hi) as (_ & _ & _ & _ & F1 & F2 & _).
  pose proof (sumZ_In_le (f_Qty f) _ Hq0 (in_map f_Qty _ _ Hi)).
  pose proof (sumZ_In_le (notional f) _ Hn0 (in_map notional _ _ Hi)) as L. unfold notional in L at 1.
  split; rlia || nia.
Qed.

Lemma ledger_contrib s y st st' fs : ledger st st' fs -> fillSum s y fs = contrib s y st' - contrib s y st.
Proof.
  intros [_ (_ & _ & E1 & E2 & E3 & _) Hf Hq _]. unfold fillSum, contrib. rewrite E1, E2, E3.
  assert (Hm : map (fun f => if decide ((s, y) = (f_StrategyID f, f_Symbol f)) then signedDelta f else 0) fs
    = map (fun f => if decide ((s, y) = (os_StrategyID st, os_Symbol st)) then
        (if String.eqb (os_Side st) OrderSideBuy then f_Qty f else - f_Qty f) else 0) fs).
  { apply map_ext_in. intros f Hi. rewrite List.Forall_forall in Hf. destruct (Hf f Hi) as (_ & F1 & F2 & F3 & _).
    unfold signedDelta. by rewrite F1, F2, F3. }
  rewrite Hm. destruct (decide _) as [_|_].
  - assert (Hs : forall l, sumZ (map (fun f => if String.eqb (os_Side st) OrderSideBuy then f_Qty f else - f_Qty f) l)
      = if String.eqb (os_Side st) OrderSideBuy then sumZ (map f_Qty l) else - sumZ (map f_Qty l)).
    { induction l as [|f l IH]; cbn [map]; rewrite ?sumZ_cons; [by destruct (String.eqb _ _)|]. rewrite IH. destruct (String.eqb _ _); lia. }
    rewrite Hs, Hq. destruct (String.eqb _ _); lia.
  - clear. induction fs as [|f fs IH]; cbn [map]; rewrite ?sumZ_cons; [done|]. rewrite IH. lia.
Qed.

Section Settle.
Context {B : Type} `{HB : AccountBook B} (ok : B -> Prop) `{HL : !BookLaws B ok}.

(** [x'] is [x] with the fills [fs] settled: the log grew, the orders did not
    change, and if nothing went wrong the positions moved by the fills. *)
Record settledBy (fs : list Fill) (x x' : Executor B) : Prop := {
  sb_orders : x_orders x' = x_orders x;
  sb_log : exists l, x_log x' = (x_log x ++ l)%list;
  sb_net : Forall fillFits fs -> Forall cleanWrite (x_log x') -> ok (x_book x) ->
    ok (x_book x') /\ forall s y, NetPosition (x_book x') s y = NetPosition (x_book x) s y + fillSum s y fs
}.

Lemma settledBy_none x x' l : x_orders x' = x_orders x -> x_book x' = x_book x -> x_log x' = (x_log x ++ l)%list ->
  settledBy [] x x'.
Proof.
  intros H1 H2 H3. split; [done|by exists l|]. rewrite H2. intros _ _ Hok. split; [done|]. intros. unfold fillSum. cbn. lia.
Qed.

Lemma settledBy_trans f1 f2 x y z : settledBy f1 x y -> settledBy f2 y z -> settledBy (f1 ++ f2)%list x z.
Proof.
  intros [A1 [l A2] A3] [B1 [k B2] B3]. split; [by rewrite B1|exists (l ++ k)%list; by rewrite B2, A2, app_assoc|].
  intros Hf Hc Hok. apply List.Forall_app in Hf as [F1 F2].
  assert (Hc1 : Forall cleanWrite (x_log y)) by (rewrite B2 in Hc; by apply List.Forall_app in Hc as [? _]).
  destruct (A3 F1 Hc1 Hok) as [O1 N1]. destruct (B3 F2 Hc O1) as [O2 N2]. split; [done|].
  intros s w. rewrite N2, N1. unfold fillSum. rewrite map_app, sumZ_app. lia.
Qed.

Lemma applyEffect_settle st now e x : settledBy (effectFills [e]) x (applyEffect st now x e).
Proof.
  destruct e as [t|f|t [|]|t]; cbn [applyEffect effectFills flat_map app];
    try (eapply settledBy_none; [done|done|cbn; rewrite <- ?app_assoc; reflexivity]).
  destruct (bk_ApplyFill f (x_book x)) as [b [pos|err]] eqn:Eb.
  - split; [done|cbn; rewrite <- !app_assoc; by eexists|]. intros Hfit Hcl Hok.
    inversion Hfit as [|? ? [Hq Hp] _]; subst. cbn in Hcl. rewrite !List.Forall_app in Hcl. destruct Hcl as [[[_ _] Hcl] _].
    inversion Hcl as [|? ? Hpos _]; subst.
    destruct (bl_fill _ _ _ _ Hok Hq Hp Eb Hpos) as [Hok' Hnet]. split; [done|]. intros s y. cbn. rewrite Hnet.
    unfold fillSum. cbn. lia.
  - split; [done|by eexists|]. intros _ Hcl. cbn in Hcl. apply List.Forall_app in Hcl as [_ Hcl]. by inversion Hcl.
Qed.

Lemma applyEffects_settle st now effs : forall x, settledBy (effectFills effs) x (applyEffects st now effs x).
Proof.
  induction effs as [|e effs IH]; intros x; [eapply (settledBy_none _ _ []); [done|done|cbn; by rewrite app_nil_r]|].
  assert (Ee : effectFills (e :: effs) = (effectFills [e] ++ effectFills effs)%list) by (rewrite <- effectFills_app; done).
  rewrite Ee. eapply settledBy_trans; [apply (applyEffect_settle st now)|apply IH].
Qed.

(** The invariant: every snapshot in range and, as long as nothing went wrong,
    every position is its opening value plus what its orders have filled. *)
Context (net0 : string -> string -> Z).
Record tracks (x : Executor B) : Prop := {
  tk_cum : forall k st, x_orders x !! k = Some st -> cumOk st;
  tk_net : Forall cleanWrite (x_log x) ->
    ok (x_book x) /\ forall s y, NetPosition (x_book x) s y = net0 s y + sumMap (contrib s y) (x_orders x)
}.

(** Replacing an order by one that has filled the same. *)
Lemma tracks_replace x x' k st st' : tracks x -> x_orders x !! k = Some st -> cumOk st' ->
  (forall s y, contrib s y st' = contrib s y st) ->
  x_orders x' = <[k := st']> (x_orders x) -> x_book x' = x_book x -> x_log x' = x_log x -> tracks x'.
Proof.
  intros [T1 T2] Hk Hc He E1 E2 E3. split; rewrite ?E1, ?E2, ?E3.
  - intros j t. destruct (decide (k = j)) as [<-|Hne].
    + rewrite lookup_insert_eq. by intros [= <-].
    + rewrite lookup_insert_ne by done. apply T1.
  - intros Hcl. destruct (T2 Hcl) as [Hok Hn]. split; [done|]. intros s y.
    rewrite Hn, (sumMap_set _ _ _ _ _ Hk), He. lia.
Qed.

(** Changes that touch neither the orders nor the book. *)
Lemma tracks_same x x' l : tracks x -> x_orders x' = x_orders x -> x_book x' = x_book x ->
  x_log x' = (x_log x ++ l)%list -> tracks x'.
Proof.
  intros [T1 T2] E1 E2 E3. split; rewrite ?E1, ?E2; [done|]. rewrite E3. intros Hcl. apply T2. by apply List.Forall_app in Hcl as [? _].
Qed.

Lemma lookup_tracks u x : tracks x -> tracks (lookup u x).2 /\
  match (lookup u x).1 with Some (k, st) => x_orders (lookup u x).2 !! k = Some st | None => True end.
Proof.
  intros T. unfold lookup. set (byVenue := if negb (String.eqb (u_VenueOrderID u) "") then _ else None).
  assert (Hv : match byVenue with Some (k, st) => x_orders x !! k = Some st | None => True end).
  { unfold byVenue. destruct (negb _); [|done]. destruct (x_venIndex x !! _) as [c|]; [|done].
    by destruct (x_orders x !! c) eqn:E. }
  destruct (negb (String.eqb (u_ClientOrderID u) "")); [|done].
  destruct (x_orders x !! u_ClientOrderID u) as [st|] eqn:Ek; [|done]. destruct (_ && _); [|done].
  split; [|apply lookup_insert_eq].
  eapply (tracks_replace x _ (u_ClientOrderID u) st (set_venue (u_VenueOrderID u) st)); [done|done|apply (tk_cum x T _ _ Ek)|done|done|done|done].
Qed.

Lemma onOrderUpdate_tracks now u x : pushOk u -> tracks x -> tracks (onOrderUpdate now u x).
Proof.
  intros Hu T. unfold onOrderUpdate. destruct (lookup_tracks u x T) as [T1 Hk].
  destruct (lookup u x) as [[[k st]|] x1]; cbn [fst snd] in *; [|done].
  destruct (Apply tradeID st u now) as [st' r] eqn:Ea.
  pose proof (Apply_ledger tradeID st u now st' r (tk_cum x1 T1 _ _ Hk) Hu Ea) as L.
  pose proof (ledger_fits _ _ _ L (tk_cum x1 T1 _ _ Hk)) as Hfit.
  set (x2 := withOrders x1 (<[k := st']> (x_orders x1))).
  assert (Hcum : forall j t, x_orders x2 !! j = Some t -> cumOk t).
  { intros j t. cbn. destruct (decide (k = j)) as [<-|Hne].
    - rewrite lookup_insert_eq. intros [= <-]. apply (lg_ok _ _ _ L).
    - rewrite lookup_insert_ne by done. apply (tk_cum x1 T1). }
  assert (Hsum : forall s y, sumMap (contrib s y) (x_orders x2) = sumMap (contrib s y) (x_orders x1) + fillSum s y (effectFills (effectsOf r))).
  { intros s y. cbn. rewrite (sumMap_set _ _ _ _ _ Hk), (ledger_contrib s y _ _ _ L). lia. }
  destruct r as [effs|e]; cbn [effectsOf] in *.
  - destruct (applyEffects_settle st' now effs x2) as [S1 [l S2] S3]. split; rewrite ?S1; [done|]. intros Hcl.
    assert (Hc1 : Forall cleanWrite (x_log x1)) by (rewrite S2 in Hcl; by apply List.Forall_app in Hcl as [? _]).
    destruct (tk_net x1 T1 Hc1) as [Hok Hn]. destruct (S3 Hfit Hcl Hok) as [Hok' Hn']. split; [done|].
    intros s y. rewrite Hn', Hsum. cbn [x_book x2 withOrders]. rewrite Hn. lia.
  - split; [done|]. cbn [x_log logged]. intros Hcl. apply List.Forall_app in Hcl as [Hcl _].
    destruct (tk_net x1 T1 Hcl) as [Hok Hn]. split; [done|]. intros s y. cbn [x_book x_orders logged].
    rewrite Hsum. cbn [x_book x2 withOrders]. rewrite Hn. unfold fillSum. cbn. lia.
Qed.

Lemma pushAll_tracks ps : Forall (fun p => pushOk p.1) ps -> forall x, tracks x -> tracks (pushAll x ps).
Proof.
  unfold pushAll. induction 1 as [|p ps Hp Hps IH]; intros x T; [done|]. cbn. apply IH. by apply onOrderUpdate_tracks.
Qed.

(** Setting the status or the venue id of an order leaves its fills alone. *)
Lemma tracks_alter x x' k f : tracks x -> (forall st, cumOk st -> cumOk (f st)) -> (forall s y st, contrib s y (f st) = contrib s y st) ->
  x_orders x' = alter f k (x_orders x) -> x_book x' = x_book x -> x_log x' = x_log x -> tracks x'.
Proof.
  intros T Hf Hc E1 E2 E3. destruct (x_orders x !! k) as [st|] eqn:Ek.
  - eapply (tracks_replace x x' k st (f st)); [done|done|apply Hf, (tk_cum x T _ _ Ek)|intros; apply Hc| |done|done].
    rewrite E1. apply map_eq. intros j. destruct (decide (k = j)) as [<-|Hne].
    + by rewrite lookup_alter_eq, lookup_insert_eq, Ek.
    + by rewrite lookup_alter_ne, lookup_insert_ne.
  - apply (tracks_same x x' []); [done| |done|by rewrite app_nil_r].
    rewrite E1. apply map_eq. intros j. destruct (decide (k = j)) as [<-|Hne]; [by rewrite lookup_alter_eq, Ek|by rewrite lookup_alter_ne].
Qed.

Lemma register_tracks coid s y side q x : tracks x -> tracks (register coid s y side q x).
Proof.
  intros [T1 T2]. unfold register. destruct (x_orders x !! coid) eqn:Ek; [done|]. split; cbn.
  - intros j st. destruct (decide (coid = j)) as [<-|Hne].
    + rewrite lookup_insert_eq. intros [= <-]. split; cbn; rlia.
    + rewrite lookup_insert_ne by done. apply T1.
  - intros Hcl. destruct (T2 Hcl) as [Hok Hn]. split; [done|]. intros s' y'. rewrite Hn, sumMap_new by done.
    unfold contrib at 3. cbn. destruct (decide _); [|lia]. destruct (String.eqb _ _); lia.
Qed.

Context (venue : list PlaceOrderRequest -> PlaceOrderRequest -> list (OrderUpdate * time) * res string).
Context (Hvenue : forall sent req, Forall (fun p => pushOk p.1) (venue sent req).1).

Lemma place_tracks coid s y side q reason ts x : tracks x -> tracks (place venue coid s y side q reason ts x).1.
Proof.
  intros T. unfold place. destruct (Order_Validate _); [|done].
  set (req := mkPlaceRequest _ _ _ _ _ _ _ _ _). destruct (assertEnvInvariants x req); [|eapply (tracks_same x); [done|done|done|reflexivity]].
  set (x1 := logged _ _). assert (T1 : tracks x1) by (eapply (tracks_same (register coid s y side q x)); [by apply register_tracks|done|done|reflexivity]). clearbody x1.
  destruct (venue (x_sent x1) req) as [racing reply] eqn:Evn. fold (pushAll (withSent x1 req) racing).
  assert (T2 : tracks (pushAll (withSent x1 req) racing)).
  { apply pushAll_tracks; [pose proof (Hvenue (x_sent x1) req) as Hv; by rewrite Evn in Hv|].
    apply (tracks_same x1 _ []); [done|done|done|by rewrite app_nil_r]. }
  set (x2 := pushAll _ _) in *. clearbody x2. destruct reply as [vid|e]; cbn [fst].
  - assert (T3 : tracks (withOrders x2 (alter (set_venue vid) coid (x_orders x2)))) by (eapply (tracks_alter x2); [done| | |reflexivity|done|done]; done).
    destruct (negb _); apply (tracks_same _ _ [] T3); try done; by rewrite app_nil_r.
  - assert (T3 : tracks (withOrders x2 (alter (set_status OrderStatusRejected) coid (x_orders x2)))) by (eapply (tracks_alter x2); [done| | |reflexivity|done|done]; done).
    eapply (tracks_same _ _ _ T3); [done|done|]. cbn. rewrite <- app_assoc. reflexivity.
Qed.

(** Submissions and pushes, in any order. *)
Inductive trade : Executor B -> Executor B -> Prop :=
  | trade_submit s y side q reason ts x : trade x (SubmitMarket venue s y side q reason ts x).1
  | trade_signal s y sg side q reason ts x : trade x (SubmitMarketSignal venue s y sg side q reason ts x).1
  | trade_push now u x : pushOk u -> trade x (onOrderUpdate now u x)
  | trade_fill_push coid vid x : trade x (onFillUpdate coid vid x).

Inductive trades (x0 : Executor B) : Executor B -> Prop :=
  | trades_refl : trades x0 x0
  | trades_step x x' : trades x0 x -> trade x x' -> trades x0 x'.

Lemma submit_tracks s y side q reason ts x : tracks x ->
  tracks (place venue (nextClientOrderID x).1 s y side q reason ts (nextClientOrderID x).2).1.
Proof. intros T. apply place_tracks. apply (tracks_same x _ []); [done|done|done|by rewrite app_nil_r]. Qed.

Lemma trade_tracks x x' : trade x x' -> tracks x -> tracks x'.
Proof.
  intros [s y side q reason ts z|s y sg side q reason ts z|now u z Hu|coid vid z] T.
  - pose proof (submit_tracks s y side q reason ts z T) as Hx. unfold SubmitMarket.
    destruct (nextClientOrderID z) as [coid z1]. cbn in Hx. by destruct (place _ _ _ _ _ _ _ _ z1).
  - pose proof (submit_tracks s y side q reason ts z T) as Hx. unfold SubmitMarketSignal.
    destruct (nextClientOrderID z) as [coid z1]. cbn in Hx. by destruct (place _ _ _ _ _ _ _ _ z1).
  - by apply onOrderUpdate_tracks.
  - unfold onFillUpdate. destruct (x_orders z !! _); [done|]. eapply (tracks_same z); [done|done|done|reflexivity].
Qed.

Lemma trades_tracks x0 x : trades x0 x -> tracks x0 -> tracks x.
Proof. induction 1 as [|x x' _ IH Ht]; intros T; [done|]. eapply trade_tracks; [exact Ht|]. by apply IH. Qed.
End Settle.

(** ** Flatten on a quiet market *)

Definition idOf (env n : Z) : string :=
  let prefix := if env =? TrdEnvReal then "LIVE" else "PAPER" in
  (prefix ++ "-O-" ++ string_of_list_ascii (formatInt n))%string.

Lemma idOf_inj env a b : in64 a -> in64 b -> idOf env a = idOf env b -> a = b.
Proof.
  intros Ha Hb E. assert (Eq : Qty_String a = Qty_String b).
  { unfold idOf, Qty_String in *. destruct (env =? TrdEnvReal); cbn in E; by injection E. }
  pose proof (ParseQty_String a Ha) as Pa. rewrite Eq, ParseQty_String in Pa by done. by injection Pa.
Qed.

Section Flatten.
Context {B : Type} `{AccountBook B}.
Context (venue : list PlaceOrderRequest -> PlaceOrderRequest -> list (OrderUpdate * time) * res string).
(** The broker accepts every order; its fills have not arrived yet. *)
Context (Hquiet : forall sent req, exists vid, venue sent req = ([], Ok vid)).

(** The ids still to be drawn are unused. *)
Definition freshIds (x : Executor B) : Prop := forall n, x_seq x <= n -> in64 n -> x_orders x !! idOf (x_env x) n = None.

Definition envOk (x : Executor B) : Prop := x_env x = TrdEnvReal -> x_traderID x = LiveTraderID.

Definition closable (p : PositionSnap) : Prop :=
  ps_StrategyID p <> "" /\ ps_Symbol p <> "" /\ ps_SignedQty p <> 0 /\ min_int64 < ps_SignedQty p <= max_int64.

Definition closeSide (p : PositionSnap) : OrderSide := if 0 <? ps_SignedQty p then OrderSideSell else OrderSideBuy.

(** The order that closes a position. *)
Definition closeRequest (x : Executor B) (n : Z) (p : PositionSnap) : PlaceOrderRequest :=
  mkPlaceRequest (x_accID x) (x_env x) (idOf (x_env x) n) (ps_Symbol p) (closeSide p) OrderTypeMarket TIFGTC
    (Z.abs (ps_SignedQty p)) 0.

Definition working (x : Executor B) (p : PositionSnap) : bool :=
  hasWorkingCloseOrder x (ps_StrategyID p) (ps_Symbol p) (closeSide p).

Lemma CloseSideFor_side p : ps_SignedQty p <> 0 -> CloseSideFor (ps_SignedQty p) = Some (closeSide p).
Proof. intros Hn. unfold CloseSideFor, closeSide. destruct (Z.ltb_spec 0 (ps_SignedQty p)), (Z.ltb_spec (ps_SignedQty p) 0); done || lia. Qed.

Lemma existsb_map_insert (g : string * OrderState -> bool) (m : gmap string OrderState) k v : m !! k = None ->
  existsb g (map_to_list (<[k := v]> m)) = g (k, v) || existsb g (map_to_list m).
Proof.
  intros Hk. apply eq_bool_prop_intro. rewrite !Is_true_true, orb_true_iff, !existsb_exists.
  pose proof (map_to_list_insert m k v Hk) as Hp. split.
  - intros (e & Hi & Hg). apply list_elem_of_In in Hi. rewrite Hp in Hi. apply elem_of_cons in Hi as [->|Hi]; [by left|].
    right. exists e. split; [by apply list_elem_of_In|done].
  - intros [Hg|(e & Hi & Hg)]; [exists (k, v)|exists e]; (split; [|done]); apply list_elem_of_In; rewrite Hp; apply elem_of_cons.
    + by left.
    + right. by apply list_elem_of_In.
Qed.

Lemma market_order_valid coid s y side q reason ts :
  coid <> "" -> s <> "" -> y <> "" -> OrderSide_IsValid side = true -> 0 < q -> IsZeroTime ts = false ->
  Order_Validate (NewMarketOrder coid s y side q reason ts) = Ok tt.
Proof.
  intros H1 H2 H3 H4 H5 H6. unfold Order_Validate. checks.
  cbn [o_ClientOrderID o_StrategyID o_Symbol o_Side o_Qty o_TS NewMarketOrder o_FilledQty o_Status o_Type o_TIF o_LimitPrice o_StopPrice].
  rewrite !String.eqb_neq, H4, H6. cbn. splits; try done; [lia|]. destruct (Z.ltb_spec q 0); [lia|done].
Qed.

(** Placing an order on the quiet market. *)
Lemma place_quiet coid s y side q reason ts x :
  coid <> "" -> s <> "" -> y <> "" -> OrderSide_IsValid side = true -> 0 < q -> IsZeroTime ts = false ->
  envOk x -> x_orders x !! coid = None ->
  exists vid, let '(x', r) := place venue coid s y side q reason ts x in
    r = Ok vid /\ x_orders x' = <[coid := mkOrderState coid vid s y side q OrderStatusSubmitted 0 0 0]> (x_orders x) /\
    x_sent x' = (x_sent x ++ [mkPlaceRequest (x_accID x) (x_env x) coid y side OrderTypeMarket TIFGTC q 0])%list /\
    x_book x' = x_book x /\ x_env x' = x_env x /\ x_accID x' = x_accID x /\ x_traderID x' = x_traderID x /\ x_seq x' = x_seq x.
Proof.
  intros H1 H2 H3 H4 H5 H6 He Hf. unfold place. rewrite market_order_valid by done.
  assert (Ha : forall r, pr_TrdEnv r = x_env x -> pr_AccID r = x_accID x -> assertEnvInvariants x r = Ok tt).
  { intros r E1 E2. unfold assertEnvInvariants, rejectIf. rewrite E1, E2, !Z.eqb_refl. cbn.
    destruct (Z.eqb_spec (x_env x) TrdEnvReal) as [E|E]; cbn; [|done]. by rewrite (He E), String.eqb_refl. }
  rewrite Ha by done. unfold register. rewrite Hf. set (x1 := logged _ _). set (req := mkPlaceRequest _ _ _ _ _ _ _ _ _).
  destruct (Hquiet (x_sent x1) req) as [vid ->]. exists vid. cbn [foldl].
  assert (Eo : alter (set_venue vid) coid (x_orders (withSent x1 req))
    = <[coid := mkOrderState coid vid s y side q OrderStatusSubmitted 0 0 0]> (x_orders x)).
  { cbn. apply map_eq. intros j. destruct (decide (coid = j)) as [<-|Hne].
    - by rewrite lookup_alter_eq, !lookup_insert_eq.
    - by rewrite lookup_alter_ne, !lookup_insert_ne. }
  rewrite Eo. destruct (negb _); splits; done.
Qed.

Fixpoint requestsFrom (x : Executor B) (n : Z) (ps : list PositionSnap) : list PlaceOrderRequest :=
  match ps with [] => [] | p :: ps => closeRequest x n p :: requestsFrom x (n + 1) ps end.

Lemma requestsFrom_link x x' ps : x_env x' = x_env x -> x_accID x' = x_accID x ->
  forall n, requestsFrom x' n ps = requestsFrom x n ps.
Proof. intros E1 E2. induction ps as [|p ps IH]; intros n; cbn; [done|]. unfold closeRequest. by rewrite E1, E2, IH. Qed.

Definition key (p : PositionSnap) : string * string := (ps_StrategyID p, ps_Symbol p).

(** One close on the quiet market: the request, the new working order and
    nothing else. *)
Lemma close_quiet p reason ts x :
  closable p -> IsZeroTime ts = false -> envOk x -> freshIds x -> 0 <= x_seq x < max_int64 ->
  let absQ := if ps_SignedQty p <? 0 then ⊖ (ps_SignedQty p) else ps_SignedQty p in
  exists x' vid,
    place venue (nextClientOrderID x).1 (ps_StrategyID p) (ps_Symbol p) (closeSide p) absQ reason ts (nextClientOrderID x).2 = (x', Ok vid) /\
    x_sent x' = (x_sent x ++ [closeRequest x (x_seq x) p])%list /\ x_book x' = x_book x /\ x_seq x' = x_seq x + 1 /\
    x_env x' = x_env x /\ x_accID x' = x_accID x /\ x_traderID x' = x_traderID x /\ freshIds x' /\
    (forall q, working x' q = bool_decide (key q = key p /\ closeSide q = closeSide p) || working x q).
Proof.
  intros (C1 & C2 & C3 & C4) Ht He Hf Hs absQ.
  assert (Ea : absQ = Z.abs (ps_SignedQty p)).
  { unfold absQ. destruct (Z.ltb_spec (ps_SignedQty p) 0); [rewrite wrap64_id by rlia|]; lia. }
  assert (Hsd : OrderSide_IsValid (closeSide p) = true) by (unfold closeSide; by destruct (0 <? _)).
  set (x1 := (nextClientOrderID x).2). change ((nextClientOrderID x).1) with (idOf (x_env x) (x_seq x)).
  assert (Hid : idOf (x_env x) (x_seq x) <> "") by (unfold idOf; by destruct (x_env x =? TrdEnvReal)).
  assert (Hno : x_orders x1 !! idOf (x_env x) (x_seq x) = None) by (apply (Hf (x_seq x)); rlia).
  destruct (place_quiet (idOf (x_env x) (x_seq x)) (ps_StrategyID p) (ps_Symbol p) (closeSide p) absQ reason ts x1
    Hid C1 C2 Hsd ltac:(lia) Ht He Hno) as [vid Hp].
  destruct (place venue _ _ _ _ _ _ _ x1) as [x' r]. destruct Hp as (-> & Eo & Es & Eb & E1 & E2 & E3 & E4).
  exists x', vid. split; [done|]. rewrite Es, Eb, E1, E2, E3, E4.
  assert (Eseq : x_seq x1 = x_seq x + 1) by (cbn; apply wrapu64_id; rlia).
  splits; try done.
  - unfold closeRequest. by rewrite <- Ea.
  - intros n Hn Hi. rewrite E1, Eo. rewrite E4, Eseq in Hn. change (x_env x1) with (x_env x).
    rewrite lookup_insert_ne; [apply (Hf n); [lia|done]|]. intros E. apply idOf_inj in E; [lia|rlia|done].
  - intros q. unfold working, hasWorkingCloseOrder. rewrite Eo, existsb_map_insert by done. f_equal. cbn.
    rewrite andb_true_r. apply eq_bool_prop_intro. unfold key.
    rewrite bool_decide_spec, Is_true_true, !andb_true_iff, !String.eqb_eq. split.
    + intros [[-> ->] ->]. done.
    + intros [[= -> ->] ->]. done.
Qed.

Lemma flattenBook_quiet reason ts ps : IsZeroTime ts = false -> Forall closable ps -> base.NoDup (map key ps) -> forall x sub,
  envOk x -> freshIds x -> 0 <= x_seq x -> x_seq x + Z.of_nat (length ps) <= max_int64 ->
  (forall p, In p ps -> working x p = false) ->
  exists x', flattenBook venue ps reason ts sub None x
      = (x', ((sub ++ map pr_ClientOrderID (requestsFrom x (x_seq x) ps))%list, None)) /\
    x_sent x' = (x_sent x ++ requestsFrom x (x_seq x) ps)%list /\ x_book x' = x_book x /\
    (forall q, working x q = true \/ In q ps -> working x' q = true).
Proof.
  intros Ht Hc. induction Hc as [|p ps Hp Hps IH]; intros Hnd x sub He Hf Hs Hl Hw.
  { exists x. cbn. rewrite !app_nil_r. splits; [done..|]. intros q [Hq|[]]. done. }
  cbn [flattenBook]. pose proof Hp as (_ & _ & Hn & _). rewrite CloseSideFor_side by done.
  pose proof (Hw p (or_introl eq_refl)) as Hwp. unfold working in Hwp. rewrite Hwp.
  cbn [List.length] in Hl.
  destruct (close_quiet p ("flatten-on-kill: " ++ reason) ts x Hp Ht He Hf ltac:(lia)) as (x1 & vid & E & S1 & S2 & S3 & S4 & S5 & S6 & S7 & S8).
  destruct (nextClientOrderID x) as [coid x0] eqn:En. cbn [fst snd] in E. rewrite E. cbn [orFirst].
  assert (Ec : coid = idOf (x_env x) (x_seq x)) by (unfold nextClientOrderID in En; by injection En as <- _).
  cbn [map] in Hnd. apply list.NoDup_cons in Hnd as [Hni Hnd].
  destruct (IH Hnd x1 (sub ++ [coid])%list) as (x' & E' & R1 & R2 & R3).
  - unfold envOk. by rewrite S4, S6.
  - done.
  - lia.
  - lia.
  - intros q Hq. rewrite S8. rewrite (Hw q (or_intror Hq)), orb_false_r. apply bool_decide_eq_false.
    intros [Ek _]. apply Hni. rewrite <- Ek. apply list_elem_of_In, in_map, Hq.
  - exists x'. rewrite E', R1, R2, S1, S2, S3, (requestsFrom_link x x1 ps S4 S5). cbn [requestsFrom map].
    split; [by rewrite Ec, <- app_assoc|]. split; [by rewrite <- app_assoc|]. split; [done|].
    intros q Hq. apply R3. rewrite S8. destruct Hq as [Hq|[->|Hq]]; [left; by rewrite Hq, orb_true_r| |by right].
    left. apply orb_true_iff. left. by apply bool_decide_eq_true.
Qed.

Lemma flattenBook_working reason ts ps x sub : (forall p, In p ps -> working x p = true) -> Forall closable ps ->
  flattenBook venue ps reason ts sub None x = (x, (sub, None)).
Proof.
  intros Hw Hc. induction Hc as [|p ps (_ & _ & Hn & _) Hps IH]; [done|]. cbn [flattenBook].
  rewrite CloseSideFor_side by done. pose proof (Hw p (or_introl eq_refl)) as Hp. unfold working in Hp. rewrite Hp.
  apply IH. intros q Hq. apply Hw. by right.
Qed.

(** The broker's rows agree with what the book sums to. *)
Definition noDrift (b : B) (ps : list BrokerPosition) : Prop :=
  Forall (fun p => bp_Qty p = default 0 (closingQty b !! bp_Symbol p)) ps.

Lemma sweep_quiet closing ps reason ts sub err x :
  Forall (fun p => bp_Qty p = default 0 (closing !! bp_Symbol p)) ps ->
  sweepLoop venue closing ps reason ts sub err x = (x, (sub, err)).
Proof.
  induction 1 as [|p ps Hp Hps IH]; [done|]. cbn [sweepLoop]. rewrite Hp, Z.sub_diag. cbn. exact IH.
Qed.

Lemma drift_quiet ps reason ts x : noDrift (x_book x) ps ->
  flattenBrokerDrift venue (Ok ps) reason ts x = (x, ([], None)).
Proof.
  intros Hd. unfold flattenBrokerDrift. apply sweep_quiet. unfold noDrift in Hd. rewrite List.Forall_forall in *.
  intros p Hp. apply Hd. apply list_elem_of_In in Hp. rewrite merge_sort_Permutation in Hp. by apply list_elem_of_In.
Qed.

Lemma requestsFrom_close b x ps : Forall (fun p => ps_SignedQty p = NetPosition b (ps_StrategyID p) (ps_Symbol p) /\ ps_SignedQty p <> 0 /\
      min_int64 < ps_SignedQty p <= max_int64) ps -> forall n,
  Forall2 (fun p r => pr_Symbol r = ps_Symbol p /\ pr_TrdEnv r = x_env x /\ pr_AccID r = x_accID x /\
    NetPosition b (ps_StrategyID p) (ps_Symbol p) + (if String.eqb (pr_Side r) OrderSideBuy then pr_Qty r else - pr_Qty r) = 0)
    ps (requestsFrom x n ps).
Proof.
  induction 1 as [|p ps (Hn & Hz & Hr) Hps IH]; intros n; cbn; [constructor|]. constructor; [|apply IH]. splits; try done.
  cbn. rewrite <- Hn. unfold closeSide. destruct (Z.ltb_spec 0 (ps_SignedQty p)); cbn; lia.
Qed.
End Flatten.

(** ** Synchronisation *)

(** The broker's net of a symbol over its rows. *)
Definition brokerQty (ps : list BrokerPosition) (y : string) : Z :=
  sumZ (map (fun p => if String.eqb (bp_Symbol p) y then bp_Qty p else 0) ps).

Definition netRow (ps : list BrokerPosition) (y : string) : BrokerPosition := default zeroBrokerPosition (brokerNetOf ps !! y).

Lemma netRow_snoc ps p y :
  bp_Qty (netRow (ps ++ [p]) y) =
  if (bp_Qty p =? 0) || negb (String.eqb (bp_Symbol p) y) then bp_Qty (netRow ps y)
  else match brokerNetOf ps !! y with None => bp_Qty p | Some cur => bp_Qty cur ⊕ bp_Qty p end.
Proof.
  unfold netRow, brokerNetOf. rewrite foldl_app. cbn. destruct (bp_Qty p =? 0); [done|]. cbn [orb].
  destruct (String.eqb_spec (bp_Symbol p) y) as [<-|Hne]; cbn [negb].
  - destruct (foldl _ ∅ ps !! bp_Symbol p); by rewrite lookup_insert_eq.
  - destruct (foldl _ ∅ ps !! bp_Symbol p); by rewrite lookup_insert_ne.
Qed.

Lemma brokerQty_snoc ps p y : brokerQty (ps ++ [p]) y = brokerQty ps y + (if String.eqb (bp_Symbol p) y then bp_Qty p else 0).
Proof. unfold brokerQty. rewrite map_app, sumZ_app. cbn [map]. rewrite sumZ_cons. change (sumZ []) with 0.
  destruct (String.eqb (bp_Symbol p) y); lia. Qed.

Lemma netRow_sum ps y : Forall (fun p => in64 (bp_Qty p)) ps -> bp_Qty (netRow ps y) = wrap64 (brokerQty ps y).
Proof.
  induction ps as [|p ps IH] using rev_ind; intros Hi; [done|]. apply List.Forall_app in Hi as [Hi Hp].
  inversion Hp as [|? ? Hq _]; subst. specialize (IH Hi). rewrite netRow_snoc, brokerQty_snoc.
  destruct (Z.eqb_spec (bp_Qty p) 0) as [Ez|Hz]; cbn [orb];
    [rewrite IH, Ez; destruct (String.eqb _ _); by rewrite Z.add_0_r|].
  destruct (String.eqb (bp_Symbol p) y); cbn [negb]; [|by rewrite IH, Z.add_0_r].
  unfold netRow in IH. destruct (brokerNetOf ps !! y) as [cur|]; cbn in IH.
  - by rewrite IH, wrap64_add_wrap.
  - symmetry in IH. rewrite <- wrap64_add_wrap, IH. symmetry. by apply wrap64_id.
Qed.

Section SyncFacts.
Context {B : Type} `{HB : AccountBook B} (ok : B -> Prop) `{HL : !BookLaws B ok}.
Context (sid : string) (ps : list BrokerPosition) (now : time).

(** Book and broker are far enough from the int64 edge to subtract. *)
Definition netFits (b : B) (y : string) : Prop := Z.abs (bp_Qty (netRow ps y)) + Z.abs (NetPosition b sid y) <= max_int64.

Lemma syncFill_signed env y bp d ts : min_int64 < d <= max_int64 -> signedDelta (syncFill env sid y bp d ts) = d /\ in64 (f_Qty (syncFill env sid y bp d ts)).
Proof.
  intros Hd. unfold syncFill, signedDelta. cbn. destruct (Z.ltb_spec d 0); cbn; [rewrite wrap64_id by rlia|]; split; rlia.
Qed.

Lemma syncFill_price env y bp d ts : in64 (bp_AvgPrice bp) -> in64 (bp_Price bp) -> in64 (f_Price (syncFill env sid y bp d ts)).
Proof. intros H1 H2. cbn. repeat destruct (_ <=? 0); done || rlia. Qed.

(** One symbol: the strategy's position becomes the broker's, no other moves. *)
Lemma reflectSymbol_spec y x x' r : ok (x_book x) -> netFits (x_book x) y ->
  in64 (bp_AvgPrice (netRow ps y)) -> in64 (bp_Price (netRow ps y)) ->
  reflectSymbol sid y (netRow ps y) now x = (x', Ok r) ->
  ok (x_book x') /\ NetPosition (x_book x') sid y = bp_Qty (netRow ps y) /\
  (forall s z, (s, z) <> (sid, y) -> NetPosition (x_book x') s z = NetPosition (x_book x) s z).
Proof.
  intros Hok Hfit Ha Hp E. unfold netFits in Hfit. unfold reflectSymbol in E.
  rewrite (wrap64_id (bp_Qty (netRow ps y) - NetPosition (x_book x) sid y)) in E by rlia.
  set (d := bp_Qty (netRow ps y) - NetPosition (x_book x) sid y) in *.
  destruct (Z.eqb_spec d 0) as [Ed|Ed]; [injection E as <- <-; splits; [done|lia|done]|].
  set (f := syncFill _ _ _ _ _ _) in *. destruct (Fill_Validate f); [|discriminate].
  cbn [x_book logged] in E. destruct (bk_ApplyFill f (x_book x)) as [b [pos|e]] eqn:Eb; [|discriminate].
  injection E as <- <-. cbn [x_book logged withBook].
  destruct (syncFill_signed (x_env x) y (netRow ps y) d now) as [Hs Hq]; [rlia|]. fold f in Hs, Hq.
  assert (Hpx : in64 (f_Price f)) by (by apply syncFill_price).
  pose proof (bl_pos _ _ _ _ Hok Hq Eb) as Hpos. change (f_StrategyID f) with sid in Hpos. change (f_Symbol f) with y in Hpos.
  destruct (bl_fill _ _ _ _ Hok Hq Hpx Eb) as [Hok' Hn]; [rlia|]. split; [done|].
  change (f_StrategyID f) with sid in Hn. change (f_Symbol f) with y in Hn. split.
  - rewrite Hn, decide_True by done. lia.
  - intros s z Hne. rewrite Hn, decide_False by done. lia.
Qed.

Definition pricesFit : Prop := Forall (fun p => in64 (bp_AvgPrice p) /\ in64 (bp_Price p)) ps.

Lemma netRow_price y : pricesFit -> in64 (bp_AvgPrice (netRow ps y)) /\ in64 (bp_Price (netRow ps y)).
Proof.
  assert (Hz : in64 0) by rlia.
  assert (Hg : forall l, Forall (fun p => in64 (bp_AvgPrice p) /\ in64 (bp_Price p)) l ->
    in64 (bp_AvgPrice (netRow l y)) /\ in64 (bp_Price (netRow l y))); [|apply Hg].
  induction l as [|p l IH] using rev_ind; intros Hl; [done|]. apply List.Forall_app in Hl as [Hl Hp].
  inversion Hp as [|? ? Hp' _]; subst. specialize (IH Hl). unfold netRow, brokerNetOf in *. rewrite foldl_app. cbn.
  destruct (bp_Qty p =? 0); [done|]. destruct (string_dec (bp_Symbol p) y) as [<-|Hne].
  - destruct (foldl _ ∅ l !! bp_Symbol p); by rewrite lookup_insert_eq.
  - destruct (foldl _ ∅ l !! bp_Symbol p); by rewrite lookup_insert_ne.
Qed.

Lemma reflectLoop_spec syms : pricesFit -> base.NoDup syms -> forall n x x' r, ok (x_book x) ->
  (forall y, y ∈ syms -> netFits (x_book x) y) ->
  reflectLoop sid (brokerNetOf ps) now syms n x = (x', Ok r) ->
  ok (x_book x') /\ (forall y, y ∈ syms -> NetPosition (x_book x') sid y = bp_Qty (netRow ps y)) /\
  (forall s z, ~ (s = sid /\ z ∈ syms) -> NetPosition (x_book x') s z = NetPosition (x_book x) s z).
Proof.
  intros Hpx Hnd. induction Hnd as [|y syms Hni Hnd IH]; intros n x x' r Hok Hfit E; cbn in E.
  { injection E as <- <-. splits; [done|intros y Hy; by apply elem_of_nil in Hy|done]. }
  fold (netRow ps y) in E. destruct (reflectSymbol sid y (netRow ps y) now x) as [x1 [b|e]] eqn:E1; [|discriminate].
  destruct (netRow_price y Hpx) as [P1 P2].
  destruct (reflectSymbol_spec y x x1 b Hok (Hfit y ltac:(by left)) P1 P2 E1) as (O1 & N1 & U1).
  assert (Hfit1 : forall z, z ∈ syms -> netFits (x_book x1) z).
  { intros z Hz. unfold netFits. rewrite U1 by (intros [= ->]; done). apply Hfit. by right. }
  destruct (IH _ _ _ _ O1 Hfit1 E) as (O2 & N2 & U2).
  splits; [done| |].
  - intros z Hz. apply elem_of_cons in Hz as [->|Hz]; [|by apply N2]. rewrite U2 by (intros [_ ?]; done). exact N1.
  - intros s z Hn. rewrite U2, U1; [done| |].
    + intros [= -> ->]. apply Hn. split; [done|by left].
    + intros [-> Hz]. apply Hn. split; [done|by right].
Qed.

Lemma reflectLoop_same syms : forall n x, (forall y, y ∈ syms -> NetPosition (x_book x) sid y = bp_Qty (netRow ps y)) ->
  reflectLoop sid (brokerNetOf ps) now syms n x = (x, Ok n).
Proof.
  induction syms as [|y syms IH]; intros n x Hs; cbn; [done|]. fold (netRow ps y).
  unfold reflectSymbol. rewrite (Hs y ltac:(by left)), Z.sub_diag. cbn. apply IH. intros z Hz. apply Hs. by right.
Qed.

(** A symbol that is not synchronised is held by neither side. *)
Lemma syncSymbols_rest b y : ok b -> y ∉ syncSymbols sid (brokerNetOf ps) b ->
  NetPosition b sid y = 0 /\ bp_Qty (netRow ps y) = 0.
Proof.
  intros Hok Hn. unfold syncSymbols in Hn. rewrite merge_sort_Permutation, elem_of_elements, not_elem_of_union in Hn.
  destruct Hn as [H1 H2]. split.
  - destruct (Z.eq_dec (NetPosition b sid y) 0) as [|Hz]; [done|]. exfalso. apply H2.
    destruct (bl_open b Hok) as (_ & Hop & Hall). specialize (Hall sid y Hz). apply in_map_iff in Hall as (p & [= E1 E2] & Hi).
    apply elem_of_list_to_set, list_elem_of_In, in_map_iff. exists p. split; [done|]. apply List.filter_In. split; [done|].
    rewrite E1, String.eqb_refl. rewrite List.Forall_forall in Hop. destruct (Hop p Hi) as (_ & Hq & _).
    by apply negb_true_iff, Z.eqb_neq.
  - unfold netRow. apply not_elem_of_dom in H1. by rewrite H1.
Qed.
End SyncFacts.

(** ** Activation *)

(** The factors of a real-money executor that the constructor checks. *)
Definition activated {B} (cfg : ExecConfig B) : Prop :=
  acct_Env (c_Account cfg) = EnvReal /\
  c_ConfirmationPhrase cfg = LiveConfirmationPhrase /\ c_TraderID cfg = LiveTraderID /\
  exists cl accs, c_Client cfg = Some cl /\ ac_accounts cl TrdEnvReal = Ok accs /\
    (exists a, In a accs /\ ta_AccID a = acct_BrokerAccID (c_Account cfg) /\ ta_TrdEnv a = TrdEnvReal) /\
    (c_UnlockPassword cfg = "" \/
     let unlock := ac_unlock cl TrdEnvReal (c_UnlockPassword cfg) (accountSecurityFirm accs (acct_BrokerAccID (c_Account cfg))) in
     unlock = None \/ exists err, unlock = Some err /\ isGUIUnlockDisabled err = true).

Lemma activate_ok {B} (cfg : ExecConfig B) cl env : c_Client cfg = Some cl -> acct_Env (c_Account cfg) = EnvReal ->
  activate cfg cl (acct_BrokerAccID (c_Account cfg)) = Ok env -> env = TrdEnvReal /\ activated cfg.
Proof.
  intros Hc He E. unfold activate in E. set (id := acct_BrokerAccID (c_Account cfg)) in *.
  apply res_bind_ok in E as ([] & E1 & E). apply rejectIf_ok, negb_false_iff, String.eqb_eq in E1.
  apply res_bind_ok in E as ([] & E2 & E). apply rejectIf_ok, negb_false_iff, String.eqb_eq in E2.
  apply res_bind_ok in E as (accs & E3 & E).
  apply res_bind_ok in E as ([] & E4 & E). apply rejectIf_ok, negb_false_iff in E4. unfold accountExists in E4.
  apply existsb_exists in E4 as (a & Hi & Ha). apply andb_true_iff in Ha as [H1%Z.eqb_eq H2%Z.eqb_eq].
  apply res_bind_ok in E as ([] & E5 & E). injection E as <-. split; [done|].
  unfold activated. splits; [done..|]. exists cl, accs. splits; [done|done|by exists a|]. fold id.
  destruct (String.eqb_spec (c_UnlockPassword cfg) ""); [by left|right]. cbv zeta.
  destruct (ac_unlock _ _ _ _) as [err|]; [right|by left]. exists err. by destruct (isGUIUnlockDisabled err).
Qed.

Lemma NewExecutor_ok {B} (cfg : ExecConfig B) x : NewExecutor cfg = Ok x ->
  x_sent x = [] /\ x_accID x = acct_BrokerAccID (c_Account cfg) /\ x_accID x <> 0 /\ x_orders x = ∅ /\ x_log x = [] /\
  c_Book cfg = Some (x_book x) /\
  ((x_env x = TrdEnvSimulate /\ acct_Env (c_Account cfg) = EnvPaper) \/ (x_env x = TrdEnvReal /\ activated cfg)).
Proof.
  unfold NewExecutor. intros E. apply res_bind_ok in E as ([] & E1 & E).
  apply rejectIf_ok, negb_false_iff in E1. destruct (c_Client cfg) as [cl|] eqn:Hc; [|discriminate].
  apply res_bind_ok in E as ([] & E2 & E). apply rejectIf_ok, Z.eqb_neq in E2.
  destruct (c_hasSink cfg); [|discriminate]. destruct (c_Book cfg) as [b|]; [|discriminate].
  apply res_bind_ok in E as (env & E3 & E). apply res_bind_ok in E as ([] & _ & E). injection E as <-. cbn.
  splits; [done..|]. destruct (String.eqb_spec (acct_Env (c_Account cfg)) EnvPaper) as [Ep|Ep].
  - apply res_bind_ok in E3 as ([] & _ & E3). injection E3 as <-. by left.
  - destruct (String.eqb_spec (acct_Env (c_Account cfg)) EnvReal) as [Er|Er]; [right; by apply (activate_ok cfg cl)|].
    exfalso. unfold Account_IsBroker, BrokerEnv_IsBroker in E1.
    apply orb_true_iff in E1 as [E1|E1]; apply String.eqb_eq in E1; done.
Qed.

(** ** The claims *)

(** C5: whatever is submitted, flattened, pushed, restored or synchronised,
    every order that reaches the broker is valid and bound to the configured
    account; an order on the real environment exists only if the executor was
    built for a real account with the exact phrase, the live trader id, an
    account listed under REAL and an unlock that succeeded or was left to the
    OpenD window; a paper executor only sends simulated orders. *)
Theorem real_orders_need_activation {B} `{AccountBook B} venue (cfg : ExecConfig B) x0 x :
  NewExecutor cfg = Ok x0 -> reach venue x0 x ->
  Forall (fun r => PlaceOrderRequest_Validate r = Ok tt /\ pr_AccID r = acct_BrokerAccID (c_Account cfg) /\
      (pr_TrdEnv r = TrdEnvReal -> activated cfg) /\
      (acct_Env (c_Account cfg) = EnvPaper -> pr_TrdEnv r = TrdEnvSimulate)) (x_sent x).
Proof.
  intros En Hr. destruct (NewExecutor_ok cfg x0 En) as (S0 & Ea & Hnz & _ & _ & _ & Henv).
  apply reach_extends in Hr as (_ & _ & _ & l & -> & Hl). rewrite S0. cbn. revert Hl. apply List.Forall_impl.
  intros r (B1 & B2 & B3 & B4 & B5 & B6 & B7).
  assert (Hv : TrdEnv_IsValid (pr_TrdEnv r) = true) by (rewrite B1; destruct Henv as [[-> _]|[-> _]]; reflexivity).
  splits.
  - unfold PlaceOrderRequest_Validate, rejectIf. rewrite Hv, (eqb_neq_false _ _ B5), (eqb_neq_false _ _ B6).
    destruct (Z.eqb_spec (pr_AccID r) 0); [congruence|]. destruct (Z.leb_spec (pr_Qty r) 0); [lia|].
    by destruct B7 as [-> | ->].
  - congruence.
  - intros Er. rewrite B1 in Er. destruct Henv as [[E _]|[_ Hact]]; [|done]. rewrite E in Er. discriminate.
  - intros Ep. rewrite B1. destruct Henv as [[E _]|[_ (Hreal & _)]]; [done|]. rewrite Hreal in Ep. discriminate.
Qed.

(** C3: the accounting book follows the broker: after any history of
    submissions and pushes, including pushes that overtake the reply to their
    own submission, and as long as accounting refused no fill, the net
    position of every strategy and symbol is its opening value plus the signed
    cumulative quantities of the orders tracked for it. *)
Theorem book_matches_orders {B} `{AccountBook B} ok `{!BookLaws B ok} venue (cfg : ExecConfig B) x0 x :
  (forall sent req, Forall (fun p => pushOk p.1) (venue sent req).1) ->
  NewExecutor cfg = Ok x0 -> ok (x_book x0) -> trades venue x0 x -> Forall cleanWrite (x_log x) ->
  ok (x_book x) /\
  forall s y, NetPosition (x_book x) s y = NetPosition (x_book x0) s y + sumMap (contrib s y) (x_orders x).
Proof.
  intros Hv En Hok Ht Hcl. destruct (NewExecutor_ok cfg x0 En) as (_ & _ & _ & Eo & El & _).
  assert (T0 : tracks ok (NetPosition (x_book x0)) x0).
  { split; rewrite Eo; [intros k st Hk; by rewrite lookup_empty in Hk|]. intros _. split; [done|].
    intros s y. unfold sumMap. rewrite map_to_list_empty. cbn. lia. }
  apply (tk_net _ _ _ (trades_tracks ok _ venue Hv x0 x Ht T0) Hcl).
Qed.

(** Flatten-on-kill on a quiet market: with the confirmation phrase, no
    close already working, a broker that agrees with the book and accepts
    every order, it sends exactly one order per open position, under the
    position's own strategy and symbol, whose full fill brings the position to
    0; a second flatten before any fill has arrived sends nothing more. *)
Theorem flatten_closes_each_once {B} `{AccountBook B} ok `{!BookLaws B ok} venue x positions reason now :
  (forall sent req, exists vid, venue sent req = ([], Ok vid)) ->
  ok (x_book x) -> envOk x -> freshIds x -> 0 <= x_seq x -> IsZeroTime now = false ->
  let open := bk_OpenPositions (x_book x) in
  x_seq x + Z.of_nat (length open) <= max_int64 ->
  Forall (fun p => ps_StrategyID p <> "" /\ ps_Symbol p <> "") open ->
  (forall p, In p open -> working x p = false) -> noDrift (x_book x) positions ->
  exists x' reqs,
    Flatten venue (Ok positions) FlattenConfirmationPhrase reason now x = (x', (map pr_ClientOrderID reqs, None)) /\
    x_sent x' = (x_sent x ++ reqs)%list /\
    Forall2 (fun p r => pr_Symbol r = ps_Symbol p /\ pr_TrdEnv r = x_env x /\ pr_AccID r = x_accID x /\
      NetPosition (x_book x) (ps_StrategyID p) (ps_Symbol p)
        + (if String.eqb (pr_Side r) OrderSideBuy then pr_Qty r else - pr_Qty r) = 0) open reqs /\
    (forall s y, NetPosition (x_book x) s y <> 0 -> In (s, y) (map (fun p => (ps_StrategyID p, ps_Symbol p)) open)) /\
    Flatten venue (Ok positions) FlattenConfirmationPhrase reason now x' = (x', ([], None)).
Proof.
  intros Hv Hok He Hf Hs Ht open Hl Hne Hw Hd. destruct (bl_open _ Hok) as (Hnd & Hop & Hall).
  assert (Hc : Forall closable open).
  { apply List.Forall_forall. intros p Hp. rewrite List.Forall_forall in Hne, Hop. destruct (Hne p Hp). destruct (Hop p Hp) as (_ & ? & ?). done. }
  destruct (flattenBook_quiet venue Hv reason now open Ht Hc Hnd x [] He Hf Hs Hl Hw) as (x' & E & S1 & S2 & S3).
  exists x', (requestsFrom x (x_seq x) open). unfold Flatten. rewrite String.eqb_refl. cbn [negb].
  fold open. rewrite E, drift_quiet by (by rewrite S2). cbn [app]. rewrite app_nil_r. splits; [done|done|by apply requestsFrom_close|done|].
  rewrite S2. fold open. rewrite flattenBook_working by auto. by rewrite drift_quiet by (by rewrite S2).
Qed.

Lemma sync_spec {B} `{AccountBook B} ok `{!BookLaws B ok} sid ps now now2 (x x' : Executor B) n :
  ok (x_book x) -> pricesFit ps -> Forall (fun p => in64 (bp_Qty p)) ps ->
  (forall y, Z.abs (brokerQty ps y) + Z.abs (NetPosition (x_book x) sid y) <= max_int64) ->
  SyncBrokerInto sid (Ok ps) now x = (x', Ok n) ->
  ok (x_book x') /\
  (forall y, NetPosition (x_book x') sid y = brokerQty ps y) /\
  (forall s y, s <> sid -> NetPosition (x_book x') s y = NetPosition (x_book x) s y) /\
  SyncBrokerInto sid (Ok ps) now2 x' = (x', Ok 0).
Proof.
  intros Hok Hpx Hq Hfit E. unfold SyncBrokerInto in *. destruct (String.eqb sid ""); [discriminate|].
  assert (Er : forall y, bp_Qty (netRow ps y) = brokerQty ps y).
  { intros y. rewrite netRow_sum by done. apply wrap64_id. specialize (Hfit y). rlia. }
  set (syms := syncSymbols sid (brokerNetOf ps) (x_book x)) in *.
  assert (Hnd : base.NoDup syms) by (unfold syms, syncSymbols; rewrite merge_sort_Permutation; apply NoDup_elements).
  destruct (reflectLoop_spec ok sid ps now syms Hpx Hnd 0 x x' n Hok) as (O & N & U); [|exact E|].
  { intros y _. unfold netFits. rewrite Er. apply Hfit. }
  assert (Hall : forall y, NetPosition (x_book x') sid y = brokerQty ps y).
  { intros y. destruct (decide (y ∈ syms)) as [Hi|Hi]; [by rewrite N, Er|].
    rewrite U by (intros [_ ?]; done). destruct (syncSymbols_rest ok sid ps (x_book x) y Hok Hi) as [-> Hz]. by rewrite <- Er. }
  splits; [done|done| |].
  - intros s y Hs. apply U. intros [-> _]. done.
  - apply reflectLoop_same. intros y _. by rewrite Er.
Qed.

(** Synchronising from the broker reflects it: afterwards the strategy's
    net position in every symbol, held or not, is the sum of the broker's
    rows, no other strategy's position has moved, and synchronising again
    against the same rows settles nothing. *)
Theorem sync_reflects_broker {B} `{AccountBook B} ok `{!BookLaws B ok} sid ps now now2 (x x' : Executor B) n :
  ok (x_book x) -> pricesFit ps -> Forall (fun p => in64 (bp_Qty p)) ps ->
  (forall y, Z.abs (brokerQty ps y) + Z.abs (NetPosition (x_book x) sid y) <= max_int64) ->
  SyncBrokerInto sid (Ok ps) now x = (x', Ok n) ->
  (forall y, NetPosition (x_book x') sid y = brokerQty ps y) /\
  (forall s y, s <> sid -> NetPosition (x_book x') s y = NetPosition (x_book x) s y) /\
  SyncBrokerInto sid (Ok ps) now2 x' = (x', Ok 0).
Proof. intros Hok Hpx Hq Hfit E. by destruct (sync_spec ok sid ps now now2 x x' n Hok Hpx Hq Hfit E) as [_ ?]. Qed.

Lemma NewExecutor_seq {B} (cfg : ExecConfig B) x : NewExecutor cfg = Ok x -> x_seq x = 0 /\ x_orders x = ∅.
Proof.
  unfold NewExecutor. intros E. apply res_bind_ok in E as ([] & _ & E). destruct (c_Client cfg); [|discriminate].
  apply res_bind_ok in E as ([] & _ & E). destruct (c_hasSink cfg), (c_Book cfg); try discriminate.
  apply res_bind_ok in E as (env & _ & E). apply res_bind_ok in E as ([] & _ & E). by injection E as <-.
Qed.

Lemma restore_fillSeq {B} ids orders : forall x : Executor B,
  (forall k st, x_orders x !! k = Some st -> os_fillSeq st = 0) ->
  forall k st, x_orders (foldl (restoreOrder ids) x orders) !! k = Some st -> os_fillSeq st = 0.
Proof.
  induction orders as [|o orders IH]; intros x Hx; [done|]. cbn. apply IH. intros k st. unfold restoreOrder.
  destruct (String.eqb _ ""); [apply Hx|].
  assert (Hi : <[u_ClientOrderID o := restoredState ids o]> (x_orders x) !! k = Some st -> os_fillSeq st = 0).
  { destruct (decide (u_ClientOrderID o = k)) as [<-|Hne].
    - rewrite lookup_insert_eq. by intros [= <-].
    - rewrite lookup_insert_ne by done. apply Hx. }
  destruct (negb _); exact Hi.
Qed.

(** A restarted executor draws its ids from the start again: after a
    restore the next client order id is the first id of the previous process,
    whatever orders were restored, a submission under a restored id keeps the
    restored order's tracked state, and the next fill of every restored order
    is numbered 0 like its first one. *)
Theorem restart_reuses_ids {B} `{AccountBook B} (cfg : ExecConfig B) x0 resolve orders positions x1 r :
  NewExecutor cfg = Ok x0 -> RestoreFromBroker resolve (Ok orders) positions x0 = (x1, r) ->
  (nextClientOrderID x1).1 = idOf (x_env x0) 0 /\
  (forall st s y side q, x_orders x1 !! idOf (x_env x0) 0 = Some st ->
     x_orders (register (idOf (x_env x0) 0) s y side q x1) !! idOf (x_env x0) 0 = Some st) /\
  (forall k st u ts st' effs f, x_orders x1 !! k = Some st -> cumOk st -> pushOk u ->
     Apply tradeID st u ts = (st', Ok effs) -> In f (effectFills effs) -> f_TradeID f = tradeID st 0).
Proof.
  intros En Er. destruct (NewExecutor_seq cfg x0 En) as [Es Eo].
  pose proof (restore_link resolve (Ok orders) positions x0) as Hl. rewrite Er in Hl. destruct Hl as (L1 & _ & _ & _ & L5). cbn in L1, L5.
  splits.
  - cbn. by rewrite L5, Es, L1.
  - intros st s y side q Hk. unfold register. by rewrite Hk.
  - intros k st u ts st' effs f Hk Hc Hu Ea Hi.
    assert (Hz : os_fillSeq st = 0).
    { unfold RestoreFromBroker in Er. destruct (resolveAll resolve orders) as [ids err].
      assert (Ex : x1 = foldl (restoreOrder ids) x0 orders) by (destruct positions; by injection Er as <- _).
      rewrite Ex in Hk. revert Hk. apply restore_fillSeq. rewrite Eo. intros j t Hj. by rewrite lookup_empty in Hj. }
    rewrite <- Hz. unfold Apply in Ea. destruct (IsTerminal st); [injection Ea as <- <-; destruct Hi|].
    destruct (UpdateClass u); try (injection Ea as <- <-; by destruct Hi).
    + destruct (_ || _); injection Ea as <- <-; by destruct Hi.
    + unfold applyFill in Ea. destruct (cumulativeDelta tradeID st u ts) as [[s1 es]|e] eqn:D; [|discriminate].
      assert (Hf : effectFills effs = effectFills es).
      { destruct (negb _); injection Ea as _ <-; [rewrite effectFills_app; cbn; by rewrite app_nil_r|done]. }
      rewrite Hf in Hi. destruct (delta_cases tradeID st u ts s1 es Hc Hu D) as [(_ & -> & _)|(g & _ & -> & _ & Ht & _)];
        [destruct Hi|]. cbn in Hi. destruct Hi as [<-|[]]. exact Ht.
Qed.

(** ** Concrete runs *)

Definition demoVenue (sent : list PlaceOrderRequest) (req : PlaceOrderRequest) : list (OrderUpdate * time) * res string :=
  ([], Ok ("V" ++ string_of_list_ascii (formatInt (Z.of_nat (length sent))))%string).

Definition demoClient : ActivationClient :=
  mkActivationClient (fun env => Ok [mkTradeAccount 42 env 2]) (fun _ _ _ => Some "bad password") (Ok tt).

Definition demoAccount (env : BrokerEnv) : BrokerAccount := NewBrokerAccount "moomoo" env 42 "".

Definition demoConfig : ExecConfig Account :=
  mkExecConfig (demoAccount EnvPaper) (Some demoClient) "TMS-PAPER-001" "" "" true (Some (NewAccount 1000000000 None)).

Definition demoX0 : Executor Account :=
  mkExecutor TrdEnvSimulate 42 "TMS-PAPER-001" 0 ∅ ∅ (NewAccount 1000000000 None) [] [] 0 0 0.

Lemma demoX0_new : NewExecutor demoConfig = Ok demoX0.
Proof. reflexivity. Qed.

Definition demoX1 : Executor Account := (SubmitMarket demoVenue "sepa" "SPY" OrderSideBuy 10 "entry" demoTs demoX0).1.
Definition livePush (raw qty px : Z) : OrderUpdate :=
  mkOrderUpdate "PAPER-O-0" "V0" "SPY" OrderSideBuy raw 10 qty px 1700000000000000000.
Definition demoX2 : Executor Account := onOrderUpdate demoTs (livePush 10 3 4000000) demoX1.

Lemma livePush_ok raw qty px : in64 qty -> 0 <= px <= max_int64 -> pushOk (livePush raw qty px).
Proof. by split. Qed.

Lemma demoAccount_ok : acctOk (NewAccount 1000000000 None).
Proof. split; cbn; [rlia|rlia|intros k p Hk; by rewrite lookup_empty in Hk|intros s q Hk; by rewrite lookup_empty in Hk]. Qed.

Lemma real_orders_need_activation_witness :
  reach demoVenue demoX0 demoX2 /\ length (x_sent demoX2) = 1%nat /\
  Forall (fun r => pr_TrdEnv r = TrdEnvSimulate) (x_sent demoX2).
Proof.
  assert (Hr : reach demoVenue demoX0 demoX2).
  { eapply reach_step; [eapply reach_step; [apply reach_refl|apply step_submit]|apply step_push]. }
  split; [exact Hr|]. split; [vm_compute; reflexivity|].
  pose proof (real_orders_need_activation demoVenue demoConfig demoX0 demoX2 demoX0_new Hr) as Hf.
  revert Hf. apply List.Forall_impl. intros r (_ & _ & _ & Hp). apply Hp. reflexivity.
Defined.

Lemma demoX2_clean : Forall cleanWrite (x_log demoX2).
Proof. vm_compute. repeat (apply List.Forall_cons; [first [exact I|discriminate]|]). apply List.Forall_nil. Qed.

Lemma book_matches_orders_witness :
  Forall cleanWrite (x_log demoX2) /\ NetPosition (x_book demoX2) "sepa" "SPY" = 3.
Proof.
  split; [exact demoX2_clean|].
  assert (Ht : trades demoVenue demoX0 demoX2).
  { eapply trades_step; [eapply trades_step; [apply trades_refl|apply trade_submit]|].
    apply trade_push. apply livePush_ok; rlia. }
  destruct (book_matches_orders acctOk demoVenue demoConfig demoX0 demoX2 (fun _ _ => List.Forall_nil _) demoX0_new demoAccount_ok Ht demoX2_clean)
    as [_ ->].
  vm_compute. reflexivity.
Defined.

(** The order filled in full: the book holds 10 shares and no order works. *)
Definition demoX3 : Executor Account := onOrderUpdate demoTs (livePush 11 10 4000130) demoX2.

Lemma demoX3_ok : acctOk (x_book demoX3).
Proof.
  assert (Ht : trades demoVenue demoX0 demoX3).
  { apply (trades_step _ _ demoX2 demoX3); [|apply (trade_push _ demoTs (livePush 11 10 4000130) demoX2), livePush_ok; rlia].
    apply (trades_step _ _ demoX1 demoX2); [|apply (trade_push _ demoTs (livePush 10 3 4000000) demoX1), livePush_ok; rlia].
    apply (trades_step _ _ demoX0 demoX1); [apply trades_refl|apply trade_submit]. }
  assert (T0 : tracks acctOk (NetPosition (x_book demoX0)) demoX0).
  { split; [intros k st Hk; change (x_orders demoX0) with (∅ : gmap string OrderState) in Hk; by rewrite lookup_empty in Hk|].
    intros _. split; [apply demoAccount_ok|].
    intros s y. change (sumMap (contrib s y) (x_orders demoX0)) with 0. by rewrite Z.add_0_r. }
  apply (tk_net _ _ _ (trades_tracks acctOk _ demoVenue (fun _ _ => List.Forall_nil _) demoX0 demoX3 Ht T0)).
  vm_compute. repeat (apply List.Forall_cons; [first [exact I|discriminate]|]). apply List.Forall_nil.
Qed.

Definition demoBrokerRows : list BrokerPosition := [mkBrokerPosition "SPY" 10 4000130 4000130 4010000 0].

Lemma demoX3_fresh : freshIds demoX3.
Proof.
  intros n Hn Hi. assert (Es : x_seq demoX3 = 1) by (vm_compute; reflexivity). rewrite Es in Hn.
  assert (Eo : exists st, x_orders demoX3 = {[ idOf (x_env demoX3) 0 := st ]}) by (eexists; vm_compute; reflexivity).
  destruct Eo as [st ->]. apply lookup_singleton_ne. intros E. apply idOf_inj in E; [lia|rlia|done].
Qed.

Lemma flatten_closes_each_once_witness :
  exists x' reqs, Flatten demoVenue (Ok demoBrokerRows) FlattenConfirmationPhrase "kill" demoTs demoX3
      = (x', (map pr_ClientOrderID reqs, None)) /\ x_sent x' = (x_sent demoX3 ++ reqs)%list /\ length reqs = 1%nat.
Proof.
  destruct (flatten_closes_each_once acctOk demoVenue demoX3 demoBrokerRows "kill" demoTs) as (x' & reqs & E & S & F & _).
  - intros sent req. eexists. reflexivity.
  - exact demoX3_ok.
  - intros E. vm_compute in E. discriminate.
  - exact demoX3_fresh.
  - vm_compute. discriminate.
  - reflexivity.
  - vm_compute. discriminate.
  - vm_compute. apply List.Forall_cons; [split; discriminate|apply List.Forall_nil].
  - vm_compute. intros p [<-|[]]. reflexivity.
  - vm_compute. apply List.Forall_cons; [reflexivity|apply List.Forall_nil].
  - exists x', reqs. split; [exact E|]. split; [exact S|]. apply Forall2_length in F. rewrite <- F. vm_compute. reflexivity.
Defined.

Lemma sync_reflects_broker_witness :
  exists x' n, SyncBrokerInto "MANUAL" (Ok demoBrokerRows) demoTs demoX0 = (x', Ok n) /\
    NetPosition (x_book x') "MANUAL" "SPY" = 10.
Proof.
  destruct (SyncBrokerInto "MANUAL" (Ok demoBrokerRows) demoTs demoX0) as [x' [n|e]] eqn:E; [|vm_compute in E; discriminate].
  exists x', n. split; [reflexivity|].
  destruct (sync_reflects_broker acctOk "MANUAL" demoBrokerRows demoTs demoTs demoX0 x' n) as (Hn & _).
  - exact demoAccount_ok.
  - apply List.Forall_cons; [split; cbn; rlia|apply List.Forall_nil].
  - apply List.Forall_cons; [cbn; rlia|apply List.Forall_nil].
  - intros y. change (NetPosition (x_book demoX0) "MANUAL" y) with 0. unfold brokerQty, demoBrokerRows. cbn [map bp_Symbol bp_Qty].
    rewrite sumZ_cons. change (sumZ []) with 0. clear. destruct (String.eqb "SPY" y); rlia.
  - exact E.
  - rewrite Hn. reflexivity.
Defined.

(** The broker's row of the order while it was filled to 3 of 10. *)
Definition demoRow : OrderUpdate := livePush 10 3 4000000.
Definition demoRestored : Executor Account :=
  (RestoreFromBroker (fun _ => Ok (Some "sepa")) (Ok [demoRow]) (Ok []) demoX0).1.

Lemma restart_reuses_ids_witness :
  (nextClientOrderID demoRestored).1 = "PAPER-O-0" /\ is_Some (x_orders demoRestored !! "PAPER-O-0").
Proof.
  destruct (RestoreFromBroker (fun _ => Ok (Some "sepa")) (Ok [demoRow]) (Ok []) demoX0) as [x1 r] eqn:E.
  assert (Ex : demoRestored = x1) by (unfold demoRestored; by rewrite E). rewrite Ex.
  split; [exact (proj1 (restart_reuses_ids demoConfig demoX0 _ [demoRow] (Ok []) x1 r demoX0_new E))|].
  rewrite <- Ex. vm_compute. eexists. reflexivity.
Defined.

(** The trade ids of the durable fills. *)
Definition fillIDs (log : list write) : list (string * Z) :=
  flat_map (fun w => match w with WFill f => [(f_TradeID f, f_Qty f)] | _ => [] end) log.

(** The first fill before the restart and the one after it share a trade id. *)
Example demo_restart_trade_ids :
  fillIDs (x_log demoX2) = [("V0-0", 3)] /\
  fillIDs (x_log (onOrderUpdate demoTs (livePush 11 10 4000130) demoRestored)) = [("V0-0", 7)].
Proof. vm_compute. split; reflexivity. Qed.

(** A broker net that is revisited reuses the trade id of its first visit:
    10 shares, none, 10 shares again. *)
Theorem sync_revisit_reuses_trade_id :
  let row q := [mkBrokerPosition "SPY" q 4000130 4000130 4010000 0] in
  let x1 := (SyncBrokerInto "MANUAL" (Ok (row 10)) demoTs demoX0).1 in
  let x2 := (SyncBrokerInto "MANUAL" (Ok []) demoTs x1).1 in
  let x3 := (SyncBrokerInto "MANUAL" (Ok (row 10)) demoTs x2).1 in
  fillIDs (x_log x3) =
    [("SYNC-PAPER-MANUAL-SPY-10-F", 10); ("SYNC-PAPER-MANUAL-SPY-0-F", 10); ("SYNC-PAPER-MANUAL-SPY-10-F", 10)] /\
  NetPosition (x_book x3) "MANUAL" "SPY" = 10.
Proof. vm_compute. split; reflexivity. Qed.

(** An executor on the real account that has not unlocked anything: an empty
    password skips the unlock, which this client would refuse. *)
Theorem live_without_unlock :
  let cfg pwd := mkExecConfig (demoAccount EnvReal) (Some demoClient) LiveTraderID LiveConfirmationPhrase pwd true
                   (Some (NewAccount 1000000000 None)) in
  (exists x, NewExecutor (cfg "") = Ok x /\ x_env x = TrdEnvReal) /\
  NewExecutor (cfg "secret") = Err (ErrOther "bad password").
Proof. split; [eexists; split; reflexivity|reflexivity]. Qed.
