(* ===== verification/LiveTrade.v ===== *)
(** * The gated trading session (src/internal/livetrade, src/internal/commands/controller.go)

    The halt latch, the gate in front of the broker executor, the marked
    account snapshot, reconciliation of the books with the broker, crash
    recovery and the broker-sync desk.  The account adapter is the book of the
    executor: the gate reads what the fills settle into.  The recorders of
    decisions, reports, alerts and audit rows are logs; saving a report may
    fail.  The broker's answers and the clock are arguments. *)

From Stdlib Require Import SpecFloat QArith Lqa.
From stdpp Require Import gmap strings list sorting.
From S2P Require Import Prelude Lists Fixed Money Domain Float64 Accounting RiskGate Reconcile OrderFSM LiveExec.
Set Default Goal Selector "!".
#[local] Open Scope string_scope.
#[local] Open Scope Z_scope.
#[local] Open Scope go_scope.
#[local] Open Scope list_scope.
#[local] Abbreviation length := List.length.

(** ** The halt latch (commands/controller.go) *)

Abbreviation HaltKind := string (only parsing).
Definition HaltManual : HaltKind := "manual".
Definition HaltDailyLoss : HaltKind := "daily_loss".
Definition HaltReconciliation : HaltKind := "reconciliation".

Record HaltState : Set := mkHaltState {
  hs_halted : bool;
  hs_haltKind : HaltKind;
  hs_haltReason : string;
  hs_haltedAt : time;
  hs_stopped : bool
}.

Definition NewHaltState : HaltState := mkHaltState false "" "" zeroTime false.

Definition Halt (now : time) (kind : HaltKind) (reason : string) (h : HaltState) : HaltState :=
  if negb (hs_halted h) then mkHaltState true kind reason now (hs_stopped h) else h.

Definition HaltState_HaltDailyLoss (now : time) (reason : string) (h : HaltState) : HaltState := Halt now HaltDailyLoss reason h.

Definition Resume (h : HaltState) : HaltState := mkHaltState false "" "" zeroTime (hs_stopped h).

Definition Stop (h : HaltState) : HaltState :=
  mkHaltState (hs_halted h) (hs_haltKind h) (hs_haltReason h) (hs_haltedAt h) true.

Definition Emitting (h : HaltState) : bool := negb (hs_halted h) && negb (hs_stopped h).

Definition IsHalted (h : HaltState) : bool := hs_halted h.
Definition IsStopped (h : HaltState) : bool := hs_stopped h.

(** ** The account adapter (account.go) *)

(** The day's P&L is marked to market; [startingNAV] is not used. *)
Definition MarkedSnapshot (startingNAV : Money) (a : Account) : res PortfolioSnapshot :=
  base <-? Account_Snapshot a ;;
  let realized := a_realized a in
  unrealized <-? Unrealized a ;;
  equity <-? Equity a ;;
  Ok (NewPortfolioSnapshot equity (snap_Cash base) realized unrealized (snap_Positions base) (snap_LastClose base)).

Definition LastPrice (a : Account) (symbol : string) : option Price := a_lastPrice a !! symbol.

Definition adapterNet (a : Account) (symbol : string) : Qty :=
  match Account_Snapshot a with
  | Err _ => 0
  | Ok snap =>
      match snap_NetPositionAcrossStrategies (map_to_list (snap_Positions snap)) symbol with
      | Err _ => 0
      | Ok net => net
      end
  end.

(** ** The gated submitter (gate.go) *)

Record GateDecision : Set := mkGateDecision {
  gd_Approved : bool;
  gd_RuleName : string;
  gd_StrategyID : string;
  gd_Symbol : string;
  gd_Side : SignalSide;
  gd_Qty : Qty;
  gd_Price : Price;
  gd_TS : time
}.

Record GatedSubmitter : Type := mkGated {
  gs_exec : Executor Account;
  gs_gate : option Gate;
  gs_halt : option HaltState;
  gs_risk : option (list GateDecision);
  gs_haltPct : float64;
  gs_nav : Money;
  gs_submitted : Z;
  gs_rejected : Z;
  gs_flatPass : Z
}.

Definition NewGatedSubmitter (exec : Executor Account) (gate : option Gate) (halt : option HaltState)
    (risk : option (list GateDecision)) (nav : Money) : GatedSubmitter :=
  let haltPct := match gate with Some g => DailyLossHaltPct (g_risk g) | None => flit 1 10 end in
  mkGated exec gate halt risk haltPct nav 0 0 0.

Definition set_gexec (x : Executor Account) (g : GatedSubmitter) : GatedSubmitter :=
  mkGated x (gs_gate g) (gs_halt g) (gs_risk g) (gs_haltPct g) (gs_nav g) (gs_submitted g) (gs_rejected g) (gs_flatPass g).
Definition set_halt (h : option HaltState) (g : GatedSubmitter) : GatedSubmitter :=
  mkGated (gs_exec g) (gs_gate g) h (gs_risk g) (gs_haltPct g) (gs_nav g) (gs_submitted g) (gs_rejected g) (gs_flatPass g).
Definition set_risk (r : option (list GateDecision)) (g : GatedSubmitter) : GatedSubmitter :=
  mkGated (gs_exec g) (gs_gate g) (gs_halt g) r (gs_haltPct g) (gs_nav g) (gs_submitted g) (gs_rejected g) (gs_flatPass g).
Definition count_gate (s r f : Z) (g : GatedSubmitter) : GatedSubmitter :=
  mkGated (gs_exec g) (gs_gate g) (gs_halt g) (gs_risk g) (gs_haltPct g) (gs_nav g)
    (gs_submitted g ⊕ s) (gs_rejected g ⊕ r) (gs_flatPass g ⊕ f).

Definition gs_book (g : GatedSubmitter) : Account := x_book (gs_exec g).

Definition onGateExec {A} (m : eff (Executor Account) A) : eff GatedSubmitter A :=
  fun g => let '(x, r) := m (gs_exec g) in (set_gexec x g, r).

(** A snapshot that cannot be computed counts as no breach. *)
Definition dailyLossThresholdBreached (g : GatedSubmitter) : bool :=
  match gs_gate g with
  | None => false
  | Some gate =>
      match MarkedSnapshot (gs_nav g) (gs_book g) with
      | Err _ => false
      | Ok snap => h_DailyLossHalt (HealthSnapshot gate (SnapshotFromDomain snap))
      end
  end.

Definition dailyLossHalted (g : GatedSubmitter) : bool :=
  match gs_halt g with
  | Some h => if IsHalted h then true else dailyLossThresholdBreached g
  | None => dailyLossThresholdBreached g
  end.

(** [FormatFloat(frac*100, 'f', -1, 64)] and a percent sign (util.go). *)
Definition pctString (frac : float64) : string :=
  let s := match fmul frac (flit 100 1) with
           | S754_nan => list_ascii_of_string "NaN"
           | S754_infinity s => list_ascii_of_string (if s then "-Inf" else "+Inf")
           | S754_zero s => if s then ["-"%char; "0"%char] else ["0"%char]
           | S754_finite s m e =>
               let '(D, k) := shortestDecimal m e in
               let ds := uintDigits 20 D in
               let body := formatF ds (k + Z.of_nat (length ds) - 1) in
               if s then "-"%char :: body else body
           end in
  (string_of_list_ascii s ++ "%")%string.

Definition EvaluateDailyLossHalt (now : time) (g : GatedSubmitter) : GatedSubmitter * (bool * bool) :=
  match gs_halt g with
  | None => (g, (false, dailyLossThresholdBreached g))
  | Some h =>
      if IsHalted h then (g, (false, dailyLossThresholdBreached g))
      else if dailyLossThresholdBreached g then
        (set_halt (Some (HaltState_HaltDailyLoss now ("day P&L below -" ++ pctString (gs_haltPct g) ++ " of NAV")%string h)) g, (true, true))
      else (g, (false, false))
  end.

Definition recordRejection (rule strategyID symbol : string) (side : SignalSide) (qty : Qty) (price : Price) (ts : time)
    (g : GatedSubmitter) : GatedSubmitter :=
  let g := count_gate 0 1 0 g in
  match gs_risk g with
  | None => g
  | Some log => set_risk (Some (log ++ [mkGateDecision false rule strategyID symbol side qty price ts])) g
  end.

(** [gateRejectionSink] *)
Definition recordGateRejection (g : GatedSubmitter) (r : Rejection) : GatedSubmitter :=
  recordRejection (rj_RuleName r) (rj_StrategyID r) (rj_Symbol r) (rj_Side r) (rj_Qty r) (rj_Price r) (rj_TS r) g.

Section Submit.
Context (venue : list PlaceOrderRequest -> PlaceOrderRequest -> list (OrderUpdate * time) * res string).

Definition Gated_SubmitMarket (strategyID symbol : string) (side : OrderSide) (qty : Qty) (reason : string) (ts : time)
    : eff GatedSubmitter string :=
  _ <-! eff_modify (count_gate 0 0 1) ;;
  onGateExec (SubmitMarket venue strategyID symbol side qty reason ts).

(** The executor's call, counted when it submitted. *)
Definition forward (strategyID symbol : string) (signalSide : SignalSide) (orderSide : OrderSide) (qty : Qty)
    (reason : string) (ts : time) : eff GatedSubmitter (string * bool) :=
  r <-! onGateExec (SubmitMarketSignal venue strategyID symbol signalSide orderSide qty reason ts) ;;
  _ <-! (if snd r then eff_modify (count_gate 1 0 0) else eff_ret tt) ;;
  eff_ret r.

Definition Gated_SubmitMarketSignal (strategyID symbol : string) (signalSide : SignalSide) (orderSide : OrderSide) (qty : Qty)
    (reason : string) (ts : time) : eff GatedSubmitter (string * bool) :=
  if String.eqb signalSide SideFlat || (qty <=? 0) then
    _ <-! eff_modify (count_gate 0 0 1) ;;
    forward strategyID symbol signalSide orderSide qty reason ts
  else
    g <-! eff_get ;;
    let price := default 0 (LastPrice (gs_book g) symbol) in
    if dailyLossHalted g then
      _ <-! eff_modify (recordRejection "risk.daily_loss_halt" strategyID symbol signalSide qty price ts) ;;
      eff_ret ("", false)
    else
      ok <-! match gs_gate g with
             | None => eff_ret true
             | Some gate =>
                 snap <-! eff_lift (Account_Snapshot (gs_book g)) ;;
                 let proposed := NewProposedOrder strategyID symbol signalSide qty price ts in
                 let '(decision, log) := GateSignal (Some gate) proposed (SnapshotFromDomain snap) price (Some []) in
                 _ <-! eff_modify (fun g => foldl recordGateRejection g (default [] log)) ;;
                 eff_ret (Approved decision)
             end ;;
      if negb ok then eff_ret ("", false)
      else forward strategyID symbol signalSide orderSide qty reason ts.

Definition Gated_NetPosition (g : GatedSubmitter) (symbol : string) : Qty := adapterNet (gs_book g) symbol.
End Submit.

(** ** Reconciliation (reconcile.go) *)

(** The non-flat positions of the account, as the reconciliation reads them. *)
Definition BookPositions (a : Account) : gmap PositionKey Z :=
  foldl (fun out p => if ps_SignedQty p =? 0 then out else <[(ps_StrategyID p, ps_Symbol p) := ps_SignedQty p]> out)
    ∅ (AllPositions a).

(** [CombinedBooks.BookPositions]: counts of equal keys add up; [None] is a nil source. *)
Definition CombinedBooks (sources : list (option (gmap PositionKey Z))) : gmap PositionKey Z :=
  foldl (fun out src =>
    match src with
    | None => out
    | Some books => foldl (fun out e => <[e.1 := default 0 (out !! e.1) ⊕ e.2]> out) out (map_to_list books)
    end) ∅ sources.

(** [broker[p.Symbol] += int64(p.Qty)] over the non-zero rows. *)
Definition brokerTotals (positions : list BrokerPosition) : gmap string Z :=
  foldl (fun m p => if bp_Qty p =? 0 then m else <[bp_Symbol p := default 0 (m !! bp_Symbol p) ⊕ bp_Qty p]> m) ∅ positions.

Record Reconciler : Set := mkReconciler {
  rec_tolerance : Z;
  rec_sink : option (list (ReconciliationReport * Z));
  rec_alerter : option (list ReconciliationReport);
  rec_runs : Z
}.

Definition NewReconciler (hasBroker hasBooks : bool) (accID tolerance : Z) (sink : option (list (ReconciliationReport * Z)))
    (alerter : option (list ReconciliationReport)) : res Reconciler :=
  if negb hasBroker || negb hasBooks then Err (ErrOther "livetrade: reconciler requires a broker source and strategy books")
  else if accID =? 0 then Err (ErrOther "livetrade: reconciler requires a non-zero acc id")
  else Ok (mkReconciler tolerance sink alerter 0).

(** The report, and the error when there is one: a report that cannot be saved is
    returned all the same and raises no alert.  [save] is the answer of the sink. *)
Definition Reconciler_Reconcile (positions : res (list BrokerPosition)) (books : gmap PositionKey Z) (now : time)
    (save : option error) (r : Reconciler) : Reconciler * (option ReconciliationReport * option error) :=
  match positions with
  | Err e => (r, (None, Some e))
  | Ok positions =>
      let broker := brokerTotals positions in
      let report := Reconcile now books broker (rec_tolerance r) in
      let runs := rec_runs r ⊕ 1 in
      let alert r := if HasIssues report
                     then mkReconciler (rec_tolerance r) (rec_sink r) (option_map (fun l => l ++ [report]) (rec_alerter r)) (rec_runs r)
                     else r in
      match rec_sink r with
      | None => (alert (mkReconciler (rec_tolerance r) None (rec_alerter r) runs), (Some report, None))
      | Some saved =>
          match save with
          | Some e => (mkReconciler (rec_tolerance r) (Some saved) (rec_alerter r) runs, (Some report, Some e))
          | None =>
              (alert (mkReconciler (rec_tolerance r) (Some (saved ++ [(report, rec_tolerance r)])) (rec_alerter r) runs),
               (Some report, None))
          end
      end
  end.

(** ** Crash recovery (recovery.go) *)

Definition recoveryStrategyID : string := "RECOVERY".

Definition seedFill (p : BrokerPosition) (delta px : Z) (now : time) : Fill :=
  let side := if delta <? 0 then OrderSideSell else OrderSideBuy in
  let absQ := if delta <? 0 then ⊖ delta else delta in
  let id := ("RECOVERY-" ++ bp_Symbol p)%string in
  mkFill id id "" recoveryStrategyID (bp_Symbol p) side absQ px 0 now.

(** One row: the difference to the book's net, settled as one fill. *)
Definition seedPosition (now : time) (p : BrokerPosition) : eff Account unit :=
  if bp_Qty p =? 0 then eff_ret tt
  else
    a <-! eff_get ;;
    let delta := bp_Qty p ⊖ adapterNet a (bp_Symbol p) in
    if delta =? 0 then eff_ret tt
    else
      let px := if bp_AvgPrice p <=? 0 then bp_Price p else bp_AvgPrice p in
      if px <=? 0 then eff_fail (ErrOther "livetrade: cannot seed: broker reported no price")
      else
        let f := seedFill p delta px now in
        _ <-! eff_lift (Fill_Validate f) ;;
        _ <-! adapterApplyFill f ;;
        eff_ret tt.

Fixpoint seedPositions (now : nat -> time) (k : nat) (positions : list BrokerPosition) : eff Account unit :=
  match positions with
  | [] => eff_ret tt
  | p :: positions => _ <-! seedPosition (now k) p ;; seedPositions now (S k) positions
  end.

(** Positions are seeded before an attribution gap is reported; an I/O error of
    the executor comes without positions. *)
Definition Session_RestoreFromBroker (resolve : string -> res (option string)) (orderList : res (list OrderUpdate))
    (positionList : res (list BrokerPosition)) (now : nat -> time) (x : Executor Account)
    : Executor Account * (list BrokerPosition * option error) :=
  let '(x, (positions, attribErr)) := RestoreFromBroker resolve orderList positionList x in
  match positions, attribErr with
  | [], Some e => (x, ([], Some e))
  | _, _ =>
      let '(book, r) := seedPositions now 0 positions (x_book x) in
      let x := withBook x book in
      match r with
      | Err e => (x, ([], Some e))
      | Ok _ => (x, (positions, attribErr))
      end
  end.

(** ** The trade session (session.go) *)

(** The guards of [NewTradeSession] on its own arguments. *)
Definition NewTradeSession (acct : BrokerAccount) (exec : option (Executor Account)) (gate : option Gate)
    (halt : option HaltState) (risk : option (list GateDecision)) (nav : Money) : res GatedSubmitter :=
  _ <-? rejectIf (negb (Account_IsBroker acct)) ;;
  match exec with
  | None => Err ErrInvalidArgument
  | Some exec =>
      _ <-? rejectIf (match halt with None => true | Some _ => false end) ;;
      let isLive := x_env exec =? TrdEnvReal in
      _ <-? rejectIf (Account_IsReal acct && negb isLive) ;;
      _ <-? rejectIf (negb (Account_IsReal acct) && isLive) ;;
      Ok (NewGatedSubmitter exec gate halt risk nav)
  end.

Record LiveSnapshot : Set := mkLiveSnapshot {
  lsn_AsOf : time;
  lsn_Health : option PortfolioHealthSnapshot;
  lsn_Positions : list PositionSnap;
  lsn_DailyLossHalted : bool;
  lsn_HaltLatchedNow : bool
}.

(** The telemetry of one timestamp; the state snapshots of the strategies go to
    their store afterwards. *)
Definition postTimestamp (now asOf : time) (g : GatedSubmitter) : GatedSubmitter * res LiveSnapshot :=
  let '(g, (latched, _)) := EvaluateDailyLossHalt now g in
  match MarkedSnapshot (gs_nav g) (gs_book g) with
  | Err e => (g, Err e)
  | Ok snap =>
      let health := match gs_gate g with Some gate => Some (HealthSnapshot gate (SnapshotFromDomain snap)) | None => None end in
      let halted := match health with Some h => h_DailyLossHalt h | None => false end ||
                    match gs_halt g with Some h => IsHalted h | None => false end in
      (g, Ok (mkLiveSnapshot asOf health (OpenPositions (gs_book g)) halted latched))
  end.

(** ** The broker-sync desk (manual.go, broker_sync.go) *)

Definition ExternalStrategyID : string := "EXTERNAL".

Record SyncAuditRecord : Set := mkSyncAudit { sa_Operator : string; sa_Action : string; sa_Qty : Z; sa_Live : bool; sa_TS : time }.

Record BrokerSyncController : Type := mkSyncDesk {
  sd_acct : BrokerAccount;
  sd_exec : Executor Account;
  sd_audit : option (list SyncAuditRecord);
  sd_reconciler : option Reconciler
}.

Definition NewBrokerSyncController (acct : BrokerAccount) (exec : option (Executor Account))
    (audit : option (list SyncAuditRecord)) (reconciler : option Reconciler) : res BrokerSyncController :=
  _ <-? rejectIf (negb (Account_IsBroker acct)) ;;
  match exec with
  | None => Err ErrInvalidArgument
  | Some exec =>
      let isLive := x_env exec =? TrdEnvReal in
      _ <-? rejectIf (Account_IsReal acct && negb isLive) ;;
      _ <-? rejectIf (negb (Account_IsReal acct) && isLive) ;;
      Ok (mkSyncDesk acct exec audit reconciler)
  end.

Definition audit0 (rec : SyncAuditRecord) (d : BrokerSyncController) : BrokerSyncController :=
  match sd_audit d with
  | None => d
  | Some log => mkSyncDesk (sd_acct d) (sd_exec d) (Some (log ++ [rec])) (sd_reconciler d)
  end.

Record SyncReport : Set := mkSyncReport {
  sr_Reflected : Z;
  sr_Reconciliation : option ReconciliationReport;
  sr_TS : time
}.

Definition HasDrift (r : SyncReport) : bool :=
  match sr_Reconciliation r with Some report => HasIssues report | None => false end.

(** [strings.TrimSpace(operator) == ""], for ASCII text. *)
Definition isSpace (c : ascii) : bool :=
  let n := Z.of_nat (nat_of_ascii c) in ((9 <=? n) && (n <=? 13)) || (n =? 32).
Definition blank (s : string) : bool := forallb isSpace (list_ascii_of_string s).

(** [pull] is what the sync reads of the positions, [pull2] what the
    reconciliation reads; [strategyBooks] is the book of the running strategy
    session, if any.  The reconciler of the desk compares the broker with both
    books. *)
Definition SyncFromBroker (operator : string) (ts now1 now2 : time) (pull pull2 : res (list BrokerPosition))
    (strategyBooks : option (gmap PositionKey Z)) (save : option error) (d : BrokerSyncController)
    : BrokerSyncController * res (SyncReport * option error) :=
  if blank operator then (d, Err ErrInvalidArgument)
  else
    let '(x, r) := SyncBrokerInto ExternalStrategyID pull now1 (sd_exec d) in
    let d := mkSyncDesk (sd_acct d) x (sd_audit d) (sd_reconciler d) in
    match r with
    | Err e => (audit0 (mkSyncAudit operator "sync" 0 (Account_IsReal (sd_acct d)) ts) d, Err e)
    | Ok reflected =>
        let d := audit0 (mkSyncAudit operator "sync" reflected (Account_IsReal (sd_acct d)) ts) d in
        match sd_reconciler d with
        | None => (d, Ok (mkSyncReport reflected None ts, None))
        | Some rec =>
            let books := CombinedBooks [Some (BookPositions (x_book (sd_exec d))); strategyBooks] in
            let '(rec, (report, rerr)) := Reconciler_Reconcile pull2 books now2 save rec in
            let d := mkSyncDesk (sd_acct d) (sd_exec d) (sd_audit d) (Some rec) in
            match rerr with
            | Some e => (d, Ok (mkSyncReport reflected None ts, Some e))
            | None => (d, Ok (mkSyncReport reflected report ts, None))
            end
        end
    end.

(** ** Fills that open or extend a position *)

Definition opening (p : Position) (f : Fill) : Prop := p_signedQty p = 0 \/ Z.sgn (p_signedQty p) = Z.sgn (signedDelta f).

Lemma openLeg_run qty price p :
  0 <= p_entryNotional p -> 0 <= price -> 0 <= qty -> p_entryNotional p + price * qty <= max_int64 ->
  price <= max_int64 -> qty <= max_int64 ->
  openLeg qty price p = (set_entryNotional (p_entryNotional p + price * qty) p, Ok tt).
Proof.
  intros H1 H2 H3 H4 H5 H6. assert (0 <= price * qty) by nia. unfold openLeg, eff_bind, eff_lift, eff_get, eff_modify.
  rewrite (proj2 (Price_MulQty_ok price qty (price * qty) ltac:(rlia) ltac:(rlia)) ltac:(split; [done|rlia])).
  rewrite (proj2 (Money_Add_ok (p_entryNotional p) (price * qty) _ ltac:(rlia) ltac:(rlia)) ltac:(split; [done|rlia])). done.
Qed.

Lemma opening_run f p :
  posOk p -> fillIn f -> opening p f -> Z.abs (p_signedQty p) + f_Qty f <= max_int64 ->
  p_entryNotional p + f_Price f * f_Qty f <= max_int64 ->
  exists o c, Position_ApplyFill f p =
    (set_qty (p_signedQty p + signedDelta f) (f_TS f) (set_entryNotional (p_entryNotional p + f_Price f * f_Qty f) p),
     Ok (mkOutcome 0 o false c false)).
Proof.
  intros [Q1 Q2 Q3 Q4] [S [Fq1 Fq2] [Fp1 Fp2]] Ho Hq Hn. unfold Position_ApplyFill.
  destruct (Z.leb_spec (f_Qty f) 0); [lia|]. unfold eff_bind, eff_lift, eff_get.
  pose proof (signedDelta_abs f ltac:(lia)) as Habs.
  rewrite (proj2 (fillDelta_ok f (signedDelta f) ltac:(rlia) ltac:(lia) S)) by done.
  rewrite (proj2 (Qty_Add_ok (p_signedQty p) (signedDelta f) (p_signedQty p + signedDelta f) ltac:(rlia) ltac:(rlia)) ltac:(split; [done|rlia])).
  destruct (Z.eqb_spec (p_signedQty p) 0) as [E0|E0].
  - rewrite openLeg_run by rlia. by exists true, false.
  - destruct Ho as [Ho|Ho]; [done|]. rewrite !absQty_abs by rlia.
    assert (Hs : sameSign (p_signedQty p) (p_signedQty p + signedDelta f) = true).
    { apply sameSign_iff; [done| |]; destruct (Z.sgn_spec (p_signedQty p)) as [[? E]|[[? E]|[? E]]];
        destruct (Z.sgn_spec (signedDelta f)) as [[? E']|[[? E']|[? E']]]; try lia. }
    rewrite Hs. cbn [andb]. destruct (Z.ltb_spec (Z.abs (p_signedQty p)) (Z.abs (p_signedQty p + signedDelta f))) as [|Hl].
    + rewrite openLeg_run by rlia. by exists false, true.
    + exfalso. destruct (Z.sgn_spec (p_signedQty p)) as [[? E]|[[? E]|[? E]]];
        destruct (Z.sgn_spec (signedDelta f)) as [[? E']|[[? E']|[? E']]]; lia.
Qed.

(** The account after such a fill: no profit is booked. *)
Definition opened (f : Fill) (a : Account) : Account :=
  let key := (f_StrategyID f, f_Symbol f) in
  let p := posAt a key in
  let p' := set_qty (p_signedQty p + signedDelta f) (f_TS f) (set_entryNotional (p_entryNotional p + f_Price f * f_Qty f) p) in
  let cash := a_startingBalance a + a_realized a in
  mkAccount (a_startingBalance a) (a_realized a) (<[key := p']> (a_positions a)) (<[f_Symbol f := f_Price f]> (a_lastPrice a))
    (option_map (fun log => log ++ [mkAccountState (f_TS f) cash cash 0 (a_realized a)]) (a_bus a)).

(** What the fill needs to settle. *)
Record settlable (f : Fill) (a : Account) : Prop := {
  sb_valid : Fill_Validate f = Ok tt;
  sb_qty : f_Qty f <= max_int64;
  sb_price : f_Price f <= max_int64;
  sb_cash : in64 (a_startingBalance a + a_realized a);
  sb_open : opening (posAt a (f_StrategyID f, f_Symbol f)) f;
  sb_size : Z.abs (p_signedQty (posAt a (f_StrategyID f, f_Symbol f))) + f_Qty f <= max_int64;
  sb_cost : p_entryNotional (posAt a (f_StrategyID f, f_Symbol f)) + f_Price f * f_Qty f <= max_int64
}.

Lemma ApplyFill_opened f a : acctOk a -> settlable f a ->
  exists o c, Account_ApplyFill f a =
    (opened f a, Ok (Position_Snapshot (posAt (opened f a) (f_StrategyID f, f_Symbol f)), mkOutcome 0 o false c false)).
Proof.
  intros Ha [V Sq Sp Sc So Sz Sn]. unfold Account_ApplyFill. set (key := (f_StrategyID f, f_Symbol f)) in *.
  pose proof V as V'. apply Fill_Validate_ok in V' as [V1 V2 V3 _ _ _]. destruct (posAt_ok a key Ha) as [Hp Hk].
  destruct (opening_run f (posAt a key) Hp ltac:(by constructor) So Sz Sn) as (o & c & Er).
  unfold eff_bind at 1, eff_lift at 1. rewrite V. unfold eff_bind at 1.
  destruct (getPosition (f_StrategyID f) (f_Symbol f) a) as [a1 r1] eqn:Eg.
  apply getPosition_run in Eg as [-> ->]. fold key. unfold onPosition, eff_bind at 1. rewrite Er.
  unfold eff_modify, emitAccountState, eff_bind, eff_get, eff_lift, eff_ret, Cash. cbn.
  rewrite (proj2 (Money_Add_ok _ _ (a_startingBalance a + a_realized a) (acctOk_start a Ha) (acctOk_realized a Ha)) (conj eq_refl Sc)).
  cbn. exists o, c. unfold publish, set_lastPrice, set_position. cbn. rewrite !insert_insert_eq. unfold opened, posAt. cbn.
  fold key. by rewrite !lookup_insert_eq.
Qed.

Lemma opened_ok f a : acctOk a -> settlable f a -> acctOk (opened f a).
Proof.
  intros Ha [V Sq Sp Sc So Sz Sn]. set (key := (f_StrategyID f, f_Symbol f)) in *. destruct (posAt_ok a key Ha) as [[H1 H2 H3 H4] Hk].
  pose proof V as V'. apply Fill_Validate_ok in V' as [V1 V2 V3 _ _ _]. destruct Ha as [A1 A2 A3 A4].
  pose proof (signedDelta_abs f ltac:(lia)) as Habs. assert (0 < f_Price f * f_Qty f) by nia.
  constructor; cbn; [done|done| |].
  - intros k p Hl. apply lookup_insert_Some in Hl as [[<- <-]|[_ Hl]]; [|by apply A3]. fold key. split; [|done].
    constructor; cbn; [rlia|rlia| |done]. intros E0. exfalso. destruct So as [So|So]; [lia|].
    destruct (Z.sgn_spec (p_signedQty (posAt a key))) as [[? E]|[[? E]|[? E]]];
      destruct (Z.sgn_spec (signedDelta f)) as [[? E']|[[? E']|[? E']]]; lia.
  - intros y px Hl. apply lookup_insert_Some in Hl as [[<- <-]|[_ Hl]]; [rlia|by apply (A4 y)].
Qed.

(** ** What the gate lets through *)

(** The open positions as the snapshot lists them. *)
Definition openQty (a : Account) : gmap StrategySymbol Qty :=
  omap (fun p => if Position_IsFlat p then None else Some (p_signedQty p)) (a_positions a).

Lemma openQty_at a k : default 0 (openQty a !! k) = p_signedQty (posAt a k).
Proof.
  unfold openQty, posAt, Position_IsFlat. rewrite lookup_omap. destruct (a_positions a !! k) as [p|]; cbn; [|done].
  by destruct (Z.eqb_spec (p_signedQty p) 0).
Qed.

Lemma openQty_opened f a : acctOk a -> settlable f a ->
  openQty (opened f a) = <[(f_StrategyID f, f_Symbol f) := p_signedQty (posAt a (f_StrategyID f, f_Symbol f)) + signedDelta f]> (openQty a).
Proof.
  intros Ha [V Sq Sp Sc So Sz Sn]. apply Fill_Validate_ok in V as [_ V2 _ _ _ _].
  pose proof (signedDelta_abs f ltac:(lia)) as Habs. unfold openQty, opened. cbn.
  rewrite (omap_insert_Some _ _ _ _ (p_signedQty (posAt a (f_StrategyID f, f_Symbol f)) + signedDelta f)); [done|].
  unfold Position_IsFlat. cbn. destruct (Z.eqb_spec (p_signedQty (posAt a (f_StrategyID f, f_Symbol f)) + signedDelta f) 0); [|done].
  exfalso. destruct So as [So|So]; [lia|]. revert So.
  destruct (Z.sgn_spec (p_signedQty (posAt a (f_StrategyID f, f_Symbol f)))) as [[? ->]|[[? ->]|[? ->]]];
    destruct (Z.sgn_spec (signedDelta f)) as [[? ->]|[[? ->]|[? ->]]]; lia.
Qed.

Lemma Snapshot_run a : acctOk a -> in64 (a_startingBalance a + a_realized a) ->
  let cash := a_startingBalance a + a_realized a in
  Account_Snapshot a = Ok (NewPortfolioSnapshot cash cash 0 0 (openQty a) (a_lastPrice a)).
Proof.
  intros [A1 A2 _ _] H. cbv zeta. unfold Account_Snapshot, Cash. rewrite (proj2 (Money_Add_ok _ _ _ A1 A2) (conj eq_refl H)). done.
Qed.

(** The conditions on an opening order. *)
Definition proposal (g : GatedSubmitter) (s y : string) (side : SignalSide) (qty : Qty) (ts : time) : ProposedOrder :=
  NewProposedOrder s y side qty (default 0 (LastPrice (gs_book g) y)) ts.

Definition admits (g : GatedSubmitter) (s y : string) (side : SignalSide) (qty : Qty) (ts : time) : Prop :=
  dailyLossHalted g = false /\
  forall gate, gs_gate g = Some gate -> exists snap, Account_Snapshot (gs_book g) = Ok snap /\
    Approved (Gate_Check gate (proposal g s y side qty ts) (SnapshotFromDomain snap)) = true.

(** What every operation of the gate but the executor's leaves alone. *)
Definition sameTrading (g g' : GatedSubmitter) : Prop :=
  gs_exec g' = gs_exec g /\ gs_halt g' = gs_halt g /\ gs_gate g' = gs_gate g /\ gs_nav g' = gs_nav g /\ gs_haltPct g' = gs_haltPct g.

#[export] Instance sameTrading_equiv : Equivalence sameTrading.
Proof.
  split; [done| |]; unfold sameTrading; [intros ? ? (? & ? & ? & ? & ?); splits; congruence|].
  intros ? ? ? (? & ? & ? & ? & ?) (? & ? & ? & ? & ?). splits; congruence.
Qed.

Lemma recordRejection_same rule s y side q px ts g : sameTrading g (recordRejection rule s y side q px ts g).
Proof. unfold recordRejection. by destruct (gs_risk (count_gate 0 1 0 g)). Qed.

Section Cases.
Context (venue : list PlaceOrderRequest -> PlaceOrderRequest -> list (OrderUpdate * time) * res string).

Lemma gated_signal_cases s y side oside qty reason ts g :
  String.eqb side SideFlat || (qty <=? 0) = false ->
  let r := Gated_SubmitMarketSignal venue s y side oside qty reason ts g in
  (admits g s y side qty ts /\ r = forward venue s y side oside qty reason ts g) \/
  (~ admits g s y side qty ts /\ sameTrading g (fst r) /\ forall coid, snd r <> Ok (coid, true)).
Proof.
  intros Hb. cbv zeta. set (r := Gated_SubmitMarketSignal _ _ _ _ _ _ _ _ g). assert (Er : r = Gated_SubmitMarketSignal venue s y side oside qty reason ts g) by done.
  clearbody r. revert Er. unfold Gated_SubmitMarketSignal. rewrite Hb. unfold eff_bind at 1, eff_get at 1.
  destruct (dailyLossHalted g) eqn:Ed.
  { intros ->. right. split; [intros [H _]; congruence|]. split; [apply recordRejection_same|by intros ? [=]]. }
  destruct (gs_gate g) as [gate|] eqn:Eg.
  - unfold eff_bind at 1 2, eff_lift at 1. destruct (Account_Snapshot (gs_book g)) as [snap|e] eqn:Es.
    + unfold GateSignal. fold (proposal g s y side qty ts).
      destruct (Approved (Gate_Check gate (proposal g s y side qty ts) (SnapshotFromDomain snap))) eqn:Ea; cbn; intros ->.
      * left. split; [|done]. split; [done|]. rewrite Eg. intros ? [= <-]. by exists snap.
      * right. split; [|split; [apply recordRejection_same|by intros ? [=]]]. intros [_ H].
        destruct (H gate Eg) as (snap' & E1 & E2). congruence.
    + intros ->. right. split; [|by split; [|intros ? [=]]]. intros [_ H].
      destruct (H gate Eg) as (snap' & E1 & _). congruence.
  - intros ->. left. split; [|done]. split; [done|]. rewrite Eg. intros ? [=].
Qed.

Lemma onGateExec_run {A} (m : eff (Executor Account) A) g :
  onGateExec m g = (set_gexec (fst (m (gs_exec g))) g, snd (m (gs_exec g))).
Proof. unfold onGateExec. by destruct (m (gs_exec g)). Qed.

Lemma forward_run s y side oside qty reason ts g :
  let m := SubmitMarketSignal venue s y side oside qty reason ts (gs_exec g) in
  forward venue s y side oside qty reason ts g =
    (match snd m with Ok (_, true) => count_gate 1 0 0 (set_gexec (fst m) g) | _ => set_gexec (fst m) g end, snd m).
Proof.
  cbv zeta. unfold forward, eff_bind at 1. rewrite onGateExec_run.
  by destruct (SubmitMarketSignal venue s y side oside qty reason ts (gs_exec g)) as [x [[coid [|]]|e]].
Qed.
End Cases.

(** ** Sessions: the calls on a gate, in the order they happen *)

Inductive gateOp : Type :=
| GSignal (s y : string) (side : SignalSide) (oside : OrderSide) (qty : Qty) (reason : string) (ts : time)
| GMarket (s y : string) (side : OrderSide) (qty : Qty) (reason : string) (ts : time)
| GPush (now : time) (u : OrderUpdate)
| GBar (bar : Bar)
| GEvaluate (now : time)
| GHalt (now : time) (kind : HaltKind) (reason : string)
| GResume
| GFlatten (positions : res (list BrokerPosition)) (confirmation reason : string) (now : time).

Definition runGateOp venue (o : gateOp) (g : GatedSubmitter) : GatedSubmitter :=
  match o with
  | GSignal s y side oside qty reason ts => fst (Gated_SubmitMarketSignal venue s y side oside qty reason ts g)
  | GMarket s y side qty reason ts => fst (Gated_SubmitMarket venue s y side qty reason ts g)
  | GPush now u => set_gexec (onOrderUpdate now u (gs_exec g)) g
  | GBar bar => set_gexec (withBook (gs_exec g) (ObserveBar bar (gs_book g))) g
  | GEvaluate now => fst (EvaluateDailyLossHalt now g)
  | GHalt now kind reason => set_halt (option_map (Halt now kind reason) (gs_halt g)) g
  | GResume => set_halt (option_map Resume (gs_halt g)) g
  | GFlatten positions conf reason now => set_gexec (fst (Flatten venue positions conf reason now (gs_exec g))) g
  end.

Definition runGate venue (ops : list gateOp) (g : GatedSubmitter) : GatedSubmitter := fold_left (fun g o => runGateOp venue o g) ops g.

(** A signal that is not a close. *)
Definition isOpening (o : gateOp) : bool :=
  match o with
  | GSignal _ _ side _ qty _ _ => negb (String.eqb side SideFlat || (qty <=? 0))
  | _ => false
  end.

Definition isResume (o : gateOp) : bool := match o with GResume => true | _ => false end.

Definition latched (g : GatedSubmitter) : bool := match gs_halt g with Some h => IsHalted h | None => false end.

Lemma latched_halted g : latched g = true -> dailyLossHalted g = true.
Proof. unfold latched, dailyLossHalted. destruct (gs_halt g) as [h|]; [|done]. by intros ->. Qed.

Lemma latched_opening venue o g : isOpening o = true -> latched g = true -> sameTrading g (runGateOp venue o g).
Proof.
  destruct o as [s y side oside qty reason ts| | | | | | |]; cbn [isOpening runGateOp]; try discriminate.
  intros Hb%negb_true_iff Hl. destruct (gated_signal_cases venue s y side oside qty reason ts g Hb) as [[[H _] _]|(_ & H & _)];
    [|done]. rewrite latched_halted in H by done. discriminate.
Qed.

Lemma latched_stays venue o g : isResume o = false -> latched g = true -> gs_halt (runGateOp venue o g) = gs_halt g.
Proof.
  intros Hr Hl. destruct (isOpening o) eqn:Ho; [by apply (latched_opening venue)|].
  destruct o as [s y side oside qty reason ts|s y side qty reason ts|now u|bar|now|now kind reason| |ps conf reason now];
    cbn [isOpening isResume runGateOp] in *; try done.
  - apply negb_false_iff in Ho. unfold Gated_SubmitMarketSignal. rewrite Ho. unfold eff_bind, eff_modify.
    rewrite forward_run. cbn [fst]. destruct (snd _) as [[c [|]]|e]; done.
  - unfold Gated_SubmitMarket, eff_bind, eff_modify. by rewrite onGateExec_run.
  - unfold EvaluateDailyLossHalt, latched in *. destruct (gs_halt g) as [h|] eqn:Eh; [|done]. rewrite Hl. done.
  - unfold latched in Hl. cbn. destruct (gs_halt g) as [h|]; [|done]. cbn. unfold Halt, IsHalted in *. by rewrite Hl.
Qed.

(** While halted, the effect of an operation on the trading state does not
    depend on the gate's counters and logs. *)
Lemma latched_congr venue o g1 g2 :
  isOpening o = false -> latched g1 = true -> sameTrading g1 g2 -> sameTrading (runGateOp venue o g1) (runGateOp venue o g2).
Proof.
  intros Ho Hl (E1 & E2 & E3 & E4 & E5).
  destruct o as [s y side oside qty reason ts|s y side qty reason ts|now u|bar|now|now kind reason| |ps conf reason now];
    cbn [isOpening runGateOp] in *.
  - apply negb_false_iff in Ho. unfold Gated_SubmitMarketSignal. rewrite Ho. unfold eff_bind, eff_modify.
    rewrite !forward_run. cbn [gs_exec count_gate]. rewrite E1. unfold sameTrading. cbn [fst].
    destruct (snd _) as [[c [|]]|e]; cbn; splits; done.
  - unfold Gated_SubmitMarket, eff_bind, eff_modify. rewrite !onGateExec_run. cbn [gs_exec count_gate]. rewrite E1. done.
  - unfold sameTrading. cbn. by rewrite E1.
  - unfold sameTrading, gs_book. cbn. by rewrite E1.
  - unfold EvaluateDailyLossHalt, latched in *. rewrite E2. destruct (gs_halt g1) as [h|] eqn:Eh; [|done]. rewrite Hl.
    unfold sameTrading. cbn [fst]. splits; congruence.
  - unfold sameTrading. cbn. by rewrite E2.
  - unfold sameTrading. cbn. by rewrite E2.
  - unfold sameTrading. cbn. by rewrite E1.
Qed.

Lemma latched_run venue ops : forall g1 g2,
  Forall (fun o => isResume o = false) ops -> latched g1 = true -> sameTrading g1 g2 ->
  sameTrading (runGate venue ops g1) (runGate venue (List.filter (fun o => negb (isOpening o)) ops) g2) /\
  gs_halt (runGate venue ops g1) = gs_halt g1.
Proof.
  induction ops as [|o ops IH]; intros g1 g2 Hr Hl Hs; [done|]. apply List.Forall_cons_iff in Hr as [Ho Hr].
  pose proof (latched_stays venue o g1 Ho Hl) as Hh.
  assert (Hl' : latched (runGateOp venue o g1) = true) by (unfold latched; by rewrite Hh).
  cbn [runGate fold_left List.filter]. destruct (isOpening o) eqn:Ei; cbn [negb].
  - destruct (IH (runGateOp venue o g1) g2 Hr Hl') as [H1 H2]; [|split; [exact H1|etransitivity; [exact H2|exact Hh]]].
    etransitivity; [symmetry; by apply latched_opening|done].
  - destruct (IH (runGateOp venue o g1) (runGateOp venue o g2) Hr Hl') as [H1 H2]; [by apply latched_congr|].
    split; [exact H1|etransitivity; [exact H2|exact Hh]].
Qed.

(** What an operation does to an executor that is called directly, with no gate and
    no halt in front of it. *)
Definition bareOp venue (o : gateOp) (x : Executor Account) : Executor Account :=
  match o with
  | GSignal s y side oside qty reason ts => fst (SubmitMarketSignal venue s y side oside qty reason ts x)
  | GMarket s y side qty reason ts => fst (SubmitMarket venue s y side qty reason ts x)
  | GPush now u => onOrderUpdate now u x
  | GBar bar => withBook x (ObserveBar bar (x_book x))
  | GFlatten positions conf reason now => fst (Flatten venue positions conf reason now x)
  | GEvaluate _ | GHalt _ _ _ | GResume => x
  end.

(** A close passes the gate in every state and returns what the executor returns. *)
Lemma close_forwarded venue s y side oside qty reason ts g : String.eqb side SideFlat || (qty <=? 0) = true ->
  let '(g', r) := Gated_SubmitMarketSignal venue s y side oside qty reason ts g in
  (gs_exec g', r) = SubmitMarketSignal venue s y side oside qty reason ts (gs_exec g).
Proof.
  intros Hc. unfold Gated_SubmitMarketSignal. rewrite Hc. unfold eff_bind at 1, eff_modify at 1. rewrite forward_run. cbn [gs_exec count_gate].
  destruct (SubmitMarketSignal venue s y side oside qty reason ts (gs_exec g)) as [x [[c [|]]|e]]; done.
Qed.

Lemma non_opening_bare venue o g : isOpening o = false -> gs_exec (runGateOp venue o g) = bareOp venue o (gs_exec g).
Proof.
  destruct o as [s y side oside qty reason ts|s y side qty reason ts|now u|bar|now|now kind reason| |ps conf reason now]; cbn [isOpening runGateOp bareOp]; try done.
  - intros Hc%negb_false_iff. pose proof (close_forwarded venue s y side oside qty reason ts g Hc) as H.
    destruct (Gated_SubmitMarketSignal venue s y side oside qty reason ts g) as [g' r]. by rewrite <- H.
  - intros _. unfold Gated_SubmitMarket, eff_bind, eff_modify. by rewrite onGateExec_run.
  - intros _. unfold EvaluateDailyLossHalt. destruct (gs_halt g) as [h|]; [|done]. destruct (IsHalted h); [done|]. by destruct (dailyLossThresholdBreached g).
Qed.

Lemma halted_run_bare venue ops : forall g, Forall (fun o => isResume o = false) ops -> latched g = true ->
  gs_exec (runGate venue ops g) = foldl (fun x o => bareOp venue o x) (gs_exec g) (List.filter (fun o => negb (isOpening o)) ops).
Proof.
  induction ops as [|o ops IH]; intros g Hr Hl; [done|]. apply List.Forall_cons_iff in Hr as [Ho Hr].
  assert (Hl' : latched (runGateOp venue o g) = true) by (unfold latched; by rewrite (latched_stays venue o g Ho Hl)).
  cbn [runGate fold_left List.filter]. specialize (IH (runGateOp venue o g) Hr Hl'). unfold runGate in IH. rewrite IH. destruct (isOpening o) eqn:Ei; cbn [negb foldl].
  - by destruct (latched_opening venue o g Ei Hl) as (-> & _).
  - by rewrite non_opening_bare.
Qed.

Lemma bareOp_extends venue o x : extends x (bareOp venue o x).
Proof.
  destruct o as [s y side oside qty reason ts|s y side qty reason ts|now u|bar|now|now kind reason| |ps conf reason now]; cbn [bareOp]; try reflexivity.
  - apply SubmitMarketSignal_extends.
  - apply SubmitMarket_extends.
  - apply link_extends, onOrderUpdate_link.
  - by apply link_extends.
  - apply Flatten_extends.
Qed.

Lemma bareRun_extends venue ops : forall x, extends x (foldl (fun x o => bareOp venue o x) x ops).
Proof. induction ops as [|o ops IH]; intros x; [reflexivity|]. cbn [foldl]. etransitivity; [apply bareOp_extends|apply IH]. Qed.

(** A valid order that the executor is bound to send is sent, whatever the broker
    answers and pushes meanwhile. *)
Lemma SubmitMarketSignal_sends venue s y side oside qty reason ts (x : Executor Account) :
  s <> "" -> y <> "" -> OrderSide_IsValid oside = true -> 0 < qty -> IsZeroTime ts = false -> envOk x ->
  x_sent (fst (SubmitMarketSignal venue s y side oside qty reason ts x)) =
  (x_sent x ++ [mkPlaceRequest (x_accID x) (x_env x) (fst (nextClientOrderID x)) y oside OrderTypeMarket TIFGTC qty 0])%list.
Proof.
  intros H2 H3 H4 H5 H6 He. unfold SubmitMarketSignal.
  assert (H1 : fst (nextClientOrderID x) <> "") by (unfold nextClientOrderID; cbn; by destruct (x_env x =? TrdEnvReal)).
  destruct (nextClientOrderID x) as [coid x0] eqn:En. cbn [fst] in *. unfold nextClientOrderID in En. injection En as _ <-. unfold place.
  rewrite market_order_valid by done. set (req := mkPlaceRequest _ _ _ _ _ _ _ _ _).
  match goal with |- context [assertEnvInvariants ?x0 req] => assert (Ha : assertEnvInvariants x0 req = Ok tt) end.
  { unfold assertEnvInvariants, rejectIf, req. cbn. rewrite !Z.eqb_refl. cbn. destruct (Z.eqb_spec (x_env x) TrdEnvReal) as [E|E]; cbn; [|done].
    by rewrite (He E), String.eqb_refl. }
  rewrite Ha. set (x1 := logged _ _). assert (Hx1 : x_sent x1 = x_sent x) by (unfold x1; cbn; unfold register; by destruct (_ !! _)). clearbody x1.
  destruct (venue (x_sent x1) req) as [racing reply]. fold (pushAll (withSent x1 req) racing).
  destruct (pushAll_link racing (withSent x1 req)) as (_ & _ & _ & Hs & _).
  destruct reply as [vid|e]; [destruct (negb _)|]; cbn; rewrite Hs; cbn; by rewrite Hx1.
Qed.

(** ** Recovery from the broker's rows *)

(** A symbol that only strategy [s] may hold. *)
Definition onlyHolder (m : gmap StrategySymbol Qty) (s y : string) : Prop :=
  forall s', s' <> s -> default 0 (m !! (s', y)) = 0.

Lemma sumZ_zeros l : Forall (eq 0) l -> sumZ l = 0 /\ sumZ (map Z.abs l) = 0.
Proof. induction 1 as [|x l <- _ [IH1 IH2]]; [done|]. cbn [map]. rewrite !sumZ_cons. lia. Qed.

Lemma netTerms_one (m : gmap StrategySymbol Qty) s y : onlyHolder m s y ->
  let d := default 0 (m !! (s, y)) in
  sumZ (netTerms y (map_to_list m)) = d /\ sumZ (map Z.abs (netTerms y (map_to_list m))) = Z.abs d /\
  Forall (fun x => x = 0 \/ x = d) (netTerms y (map_to_list m)).
Proof.
  intros Ho. cbv zeta. set (m' := delete (s, y) m).
  assert (Hz : Forall (eq 0) (netTerms y (map_to_list m'))).
  { unfold netTerms. apply List.Forall_forall. intros x Hx. apply in_map_iff in Hx as ([[s' y'] q] & <- & Hx).
    apply filter_In in Hx as [Hx Hk%String.eqb_eq]. apply list_elem_of_In, elem_of_map_to_list in Hx. cbn [fst snd] in *. subst y'.
    apply lookup_delete_Some in Hx as [Hne Hx]. specialize (Ho s' ltac:(congruence)). exact (eq_trans (eq_sym Ho) (f_equal (default 0) Hx)). }
  destruct (sumZ_zeros _ Hz) as [Z1 Z2]. destruct (m !! (s, y)) as [q|] eqn:E; cbn [default from_option id].
  - assert (Hp : map_to_list m ≡ₚ ((s, y), q) :: map_to_list m').
    { unfold m'. rewrite <- map_to_list_insert by apply lookup_delete_eq. by rewrite insert_delete_id. }
    assert (Hn : netTerms y (map_to_list m) ≡ₚ q :: netTerms y (map_to_list m')).
    { rewrite (netTerms_perm y _ _ Hp). unfold netTerms. cbn. by rewrite String.eqb_refl. }
    rewrite Hn. cbn [map]. rewrite !sumZ_cons. split; [lia|]. split; [lia|]. constructor; [by right|].
    revert Hz. apply List.Forall_impl. intros ? <-. by left.
  - unfold m' in *. rewrite delete_id in * by done. split; [done|]. split; [done|]. revert Hz. apply List.Forall_impl. intros ? <-. by left.
Qed.

Lemma net_one (m : gmap StrategySymbol Qty) s y : onlyHolder m s y -> Z.abs (default 0 (m !! (s, y))) <= max_int64 ->
  snap_NetPositionAcrossStrategies (map_to_list m) y = Ok (default 0 (m !! (s, y))).
Proof.
  intros Ho Hi. destruct (netTerms_one m s y Ho) as (H1 & H2 & H3). unfold snap_NetPositionAcrossStrategies.
  rewrite netPositionLoop_exact; [by rewrite H1|rlia| |rlia].
  revert H3. apply List.Forall_impl. intros x [-> | ->]; rlia.
Qed.

(** A row that can be seeded into an empty position. *)
Definition seedPrice (p : BrokerPosition) : Price := if bp_AvgPrice p <=? 0 then bp_Price p else bp_AvgPrice p.

Definition seedable (p : BrokerPosition) : Prop :=
  bp_Qty p = 0 \/
  (bp_Symbol p <> "" /\ Z.abs (bp_Qty p) <= max_int64 /\ 0 < seedPrice p <= max_int64 /\
   seedPrice p * Z.abs (bp_Qty p) <= max_int64).

(** The book holds exactly the listed positions, under the recovery strategy. *)
Record seeded (start : Money) (rows : list BrokerPosition) (a : Account) : Prop := {
  sd_ok : acctOk a;
  sd_start : a_startingBalance a = start;
  sd_realized : a_realized a = 0;
  sd_only : forall y, onlyHolder (openQty a) recoveryStrategyID y;
  sd_net : forall y, default 0 (openQty a !! (recoveryStrategyID, y)) = brokerQty rows y
}.

Lemma brokerQty_cons p ps y : brokerQty (p :: ps) y = (if String.eqb (bp_Symbol p) y then bp_Qty p else 0) + brokerQty ps y.
Proof. reflexivity. Qed.

Lemma brokerQty_absent ps y : y ∉ map bp_Symbol ps -> brokerQty ps y = 0.
Proof.
  induction ps as [|p ps IH]; intros Hn; [done|]. rewrite brokerQty_cons. cbn in Hn. apply not_elem_of_cons in Hn as [H1 H2].
  rewrite IH by done. by destruct (String.eqb_spec (bp_Symbol p) y) as [<-|].
Qed.

Lemma adapterNet_seeded start rows a y :
  seeded start rows a -> Z.abs (brokerQty rows y) <= max_int64 -> adapterNet a y = brokerQty rows y.
Proof.
  intros [H1 H2 H3 H4 H5] Hq. unfold adapterNet.
  rewrite Snapshot_run; [|done|rewrite H3, Z.add_0_r; apply H1]. cbn [snap_Positions NewPortfolioSnapshot].
  rewrite (net_one (openQty a) recoveryStrategyID y (H4 y)); [apply H5|by rewrite H5].
Qed.

Lemma seedPosition_run now start rows a p :
  t_ns now <> zeroNs -> seeded start rows a -> seedable p -> bp_Symbol p ∉ map bp_Symbol rows ->
  exists a', seedPosition now p a = (a', Ok tt) /\ seeded start (p :: rows) a'.
Proof.
  intros Hnow Hs Hp Hn. pose proof (brokerQty_absent rows _ Hn) as Hb. unfold seedPosition.
  destruct (Z.eqb_spec (bp_Qty p) 0) as [E0|E0].
  { exists a. split; [done|]. destruct Hs as [H1 H2 H3 H4 H5]. constructor; try done. intros y. rewrite H5, brokerQty_cons, E0.
    by destruct (String.eqb _ _). }
  destruct Hp as [Hp|(P1 & P2 & P3 & P4)]; [done|]. unfold eff_bind at 1, eff_get.
  rewrite (adapterNet_seeded start rows) by (done || (rewrite Hb; rlia)). rewrite Hb, Z.sub_0_r, wrap64_id by rlia.
  destruct (Z.eqb_spec (bp_Qty p) 0); [done|]. fold (seedPrice p). destruct (Z.leb_spec (seedPrice p) 0); [lia|].
  set (f := seedFill p (bp_Qty p) (seedPrice p) now).
  assert (Hq : f_Qty f = Z.abs (bp_Qty p)).
  { unfold f. cbn. destruct (Z.ltb_spec (bp_Qty p) 0); [rewrite wrap64_id by rlia|]; lia. }
  assert (Hd : signedDelta f = bp_Qty p).
  { unfold signedDelta. rewrite Hq. unfold f. cbn. destruct (Z.ltb_spec (bp_Qty p) 0); cbn; lia. }
  assert (Hv : Fill_Validate f = Ok tt).
  { apply Fill_Validate_ok. constructor; [|rewrite Hq; lia|cbn; lia| |cbn; lia|done].
    - unfold f. cbn. destruct (bp_Qty p <? 0); auto.
    - by cbn. }
  destruct Hs as [H1 H2 H3 H4 H5].
  assert (Hz : p_signedQty (posAt a (recoveryStrategyID, bp_Symbol p)) = 0) by (rewrite <- openQty_at, H5; done).
  destruct (posAt_ok a (recoveryStrategyID, bp_Symbol p) H1) as [[_ _ Hflat _] _].
  assert (Hs : settlable f a).
  { constructor; [done|rewrite Hq; done|apply P3|rewrite H3, Z.add_0_r; apply H1|by left| |];
      change (f_StrategyID f, f_Symbol f) with (recoveryStrategyID, bp_Symbol p).
    - rewrite Hz, Hq. lia.
    - rewrite (Hflat Hz), Hq. cbn. lia. }
  unfold eff_bind, eff_lift, adapterApplyFill. rewrite Hv. destruct (ApplyFill_opened f a H1 Hs) as (o & c & ->).
  exists (opened f a). split; [done|].
  assert (Ho : openQty (opened f a) = <[(recoveryStrategyID, bp_Symbol p) := bp_Qty p]> (openQty a)).
  { rewrite openQty_opened by done. change (f_StrategyID f, f_Symbol f) with (recoveryStrategyID, bp_Symbol p). by rewrite Hz, Hd. }
  constructor; [by apply opened_ok|done|done| |].
  - intros y s' Hne. rewrite Ho, lookup_insert_ne by congruence. by apply H4.
  - intros y. rewrite Ho, brokerQty_cons. destruct (String.eqb_spec (bp_Symbol p) y) as [<-|Hne].
    + rewrite lookup_insert_eq, Hb. cbn. lia.
    + rewrite lookup_insert_ne by congruence. by rewrite H5.
Qed.

Lemma seedPositions_run now ps : forall start rows a k,
  (forall k, t_ns (now k) <> zeroNs) -> seeded start rows a -> Forall seedable ps ->
  base.NoDup (map bp_Symbol ps ++ map bp_Symbol rows) ->
  exists a', seedPositions now k ps a = (a', Ok tt) /\ seeded start (rev ps ++ rows) a'.
Proof.
  induction ps as [|p ps IH]; intros start rows a k Hn Hs Hp Hd; [by exists a|].
  apply List.Forall_cons_iff in Hp as [Hp Hps]. cbn [map app] in Hd. apply list.NoDup_cons in Hd as [Hd1 Hd2].
  destruct (seedPosition_run (now k) start rows a p (Hn k) Hs Hp) as (a1 & E1 & Hs1); [set_solver|].
  destruct (IH start (p :: rows) a1 (S k) Hn Hs1 Hps) as (a2 & E2 & Hs2).
  - cbn [map]. rewrite <- Permutation_middle. by apply list.NoDup_cons.
  - exists a2. cbn [seedPositions]. unfold eff_bind. rewrite E1. split; [done|]. cbn [rev]. by rewrite <- app_assoc.
Qed.

Lemma brokerQty_rev ps y : brokerQty (rev ps) y = brokerQty ps y.
Proof. unfold brokerQty. by rewrite <- Permutation_rev. Qed.

Lemma seeded_rev start ps a : seeded start (rev ps) a -> seeded start ps a.
Proof. intros [H1 H2 H3 H4 H5]. constructor; try done. intros y. by rewrite H5, brokerQty_rev. Qed.

Lemma seeded_new start : in64 start -> seeded start [] (NewAccount start None).
Proof. intros H. by constructor. Qed.

(** The books of the reconciliation are the open positions of the account. *)
Section Books.
Context (a : Account) (Ha : acctOk a).

Lemma bookFold_spec l : forall out : gmap PositionKey Z,
  (forall p, p ∈ l -> a_positions a !! (p_strategyID p, p_symbol p) = Some p) ->
  (forall k q, out !! k = Some q -> openQty a !! k = Some q) ->
  let r := foldl (fun out p => if ps_SignedQty p =? 0 then out else <[(ps_StrategyID p, ps_Symbol p) := ps_SignedQty p]> out)
             out (map Position_Snapshot l) in
  (forall k q, r !! k = Some q -> openQty a !! k = Some q) /\ (forall k, is_Some (out !! k) -> is_Some (r !! k)) /\
  (forall p, p ∈ l -> p_signedQty p <> 0 -> is_Some (r !! (p_strategyID p, p_symbol p))).
Proof.
  induction l as [|p l IH]; intros out Hl Ho; cbn [map foldl]; [by splits; [done|done|intros p Hp%elem_of_nil]|].
  cbn [Position_Snapshot ps_SignedQty ps_StrategyID ps_Symbol].
  assert (Hp : a_positions a !! (p_strategyID p, p_symbol p) = Some p) by (apply Hl; constructor).
  set (out' := if p_signedQty p =? 0 then out else _).
  destruct (IH out') as (I1 & I2 & I3).
  - intros q Hq. apply Hl. by constructor.
  - intros k q Hk. unfold out' in Hk. destruct (Z.eqb_spec (p_signedQty p) 0) as [|Hne]; [by apply Ho|].
    apply lookup_insert_Some in Hk as [[<- <-]|[_ Hk]]; [|by apply Ho]. unfold openQty. rewrite lookup_omap, Hp. cbn.
    unfold Position_IsFlat. by destruct (Z.eqb_spec (p_signedQty p) 0).
  - splits; [exact I1| |].
    + intros k Hk. apply I2. unfold out'. destruct (p_signedQty p =? 0); [done|].
      destruct (decide ((p_strategyID p, p_symbol p) = k)) as [<-|Hne]; [by rewrite lookup_insert_eq|by rewrite lookup_insert_ne].
    + intros q [->|Hq]%elem_of_cons Hne; [|by apply I3]. apply I2. unfold out'.
      destruct (Z.eqb_spec (p_signedQty p) 0); [done|]. by rewrite lookup_insert_eq.
Qed.

Lemma elem_positionsInOrder p : p ∈ positionsInOrder a <-> a_positions a !! (p_strategyID p, p_symbol p) = Some p.
Proof.
  unfold positionsInOrder. rewrite list_elem_of_omap. split.
  - intros (k & _ & Hk). by destruct (acctOk_pos a Ha k p Hk) as [_ ->].
  - intros Hk. exists (p_strategyID p, p_symbol p). split; [|done]. rewrite sortKeys_perm. apply list_elem_of_fmap.
    exists ((p_strategyID p, p_symbol p), p). split; [done|]. by apply elem_of_map_to_list.
Qed.

Lemma BookPositions_open : BookPositions a = openQty a.
Proof.
  unfold BookPositions, AllPositions. destruct (bookFold_spec (positionsInOrder a) ∅) as (B1 & _ & B3).
  - intros p Hp. by apply elem_positionsInOrder.
  - intros k q Hk. by rewrite lookup_empty in Hk.
  - set (r := foldl _ _ _) in *. clearbody r. apply map_eq. intros k. apply option_eq. intros q. split; [apply B1|].
    intros Hk. unfold openQty in Hk. rewrite lookup_omap in Hk. destruct (a_positions a !! k) as [p|] eqn:E; [|done]. cbn in Hk.
    unfold Position_IsFlat in Hk. destruct (Z.eqb_spec (p_signedQty p) 0) as [|Hne]; [done|]. injection Hk as <-.
    destruct (acctOk_pos a Ha k p E) as [_ Ek]. destruct (B3 p) as [q Hq]; [apply elem_positionsInOrder; by rewrite Ek|done|].
    rewrite Ek in Hq. pose proof (B1 k q Hq) as H2. unfold openQty in H2. rewrite lookup_omap, E in H2. cbn in H2.
    unfold Position_IsFlat in H2. destruct (Z.eqb_spec (p_signedQty p) 0); [done|]. by rewrite Hq.
Qed.
End Books.

Lemma brokerTotals_sum ps y : Forall (fun p => in64 (bp_Qty p)) ps -> brokerNet (brokerTotals ps) y = wrap64 (brokerQty ps y).
Proof.
  unfold brokerNet. induction ps as [|p ps IH] using rev_ind; intros Hi; [done|]. apply List.Forall_app in Hi as [Hi Hp].
  inversion Hp as [|? ? Hq _]; subst. specialize (IH Hi). rewrite brokerQty_snoc. unfold brokerTotals in *. rewrite foldl_app. cbn [foldl].
  destruct (Z.eqb_spec (bp_Qty p) 0) as [->|Hz]; [rewrite IH; destruct (String.eqb _ _); by rewrite Z.add_0_r|].
  destruct (String.eqb_spec (bp_Symbol p) y) as [<-|Hne].
  - rewrite lookup_insert_eq. cbn [default from_option id]. by rewrite IH, wrap64_add_wrap.
  - rewrite lookup_insert_ne by done. by rewrite IH, Z.add_0_r.
Qed.

Lemma netOf_terms y l : netOf y l = sumZ (netTerms y l).
Proof.
  induction l as [|[k q] l IH]; [done|]. unfold netOf, netTerms in *. cbn [map List.filter fst snd]. rewrite sumZ_cons, IH.
  destruct (String.eqb k.2 y); cbn [map]; [by rewrite sumZ_cons|lia].
Qed.

Lemma brokerQty_one ps p : base.NoDup (map bp_Symbol ps) -> p ∈ ps -> brokerQty ps (bp_Symbol p) = bp_Qty p.
Proof.
  induction ps as [|q ps IH]; intros Hd Hp; [by apply elem_of_nil in Hp|]. cbn in Hd. apply list.NoDup_cons in Hd as [Hn Hd].
  rewrite brokerQty_cons. apply elem_of_cons in Hp as [->|Hp].
  - rewrite String.eqb_refl, brokerQty_absent by done. lia.
  - rewrite IH by done. destruct (String.eqb_spec (bp_Symbol q) (bp_Symbol p)) as [E|]; [|lia].
    exfalso. apply Hn. rewrite E. apply list_elem_of_fmap. by exists p.
Qed.

Lemma brokerQty_abs ps y (b : Z) : 0 <= b -> base.NoDup (map bp_Symbol ps) -> Forall (fun p => Z.abs (bp_Qty p) <= b) ps ->
  Z.abs (brokerQty ps y) <= b.
Proof.
  intros Hb Hd Hf. destruct (decide (y ∈ map bp_Symbol ps)) as [Hy|Hy].
  - apply list_elem_of_fmap in Hy as (p & -> & Hp). rewrite brokerQty_one by done. rewrite List.Forall_forall in Hf.
    by apply Hf, list_elem_of_In.
  - rewrite brokerQty_absent by done. lia.
Qed.

(** A book seeded from rows with distinct symbols agrees with the broker. *)
Lemma seeded_reconciles start ps a ts :
  seeded start ps a -> base.NoDup (map bp_Symbol ps) -> Forall (fun p => Z.abs (bp_Qty p) <= max_int64 / 2) ps ->
  HasIssues (Reconcile ts (BookPositions a) (brokerTotals ps) 0) = false.
Proof.
  intros [H1 H2 H3 H4 H5] Hd Hf. pose proof (fun y => brokerQty_abs ps y (max_int64 / 2) ltac:(done) Hd Hf) as Hb.
  assert (Hmax : max_int64 / 2 + max_int64 / 2 <= max_int64) by done.
  assert (Hs : forall y, booksTotal (BookPositions a) y = brokerQty ps y).
  { intros y. unfold booksTotal. rewrite (BookPositions_open a H1), netOf_terms.
    exact (eq_trans (proj1 (netTerms_one (openQty a) recoveryStrategyID y (H4 y))) (H5 y)). }
  assert (Ht : forall y, brokerNet (brokerTotals ps) y = brokerQty ps y).
  { intros y. rewrite brokerTotals_sum; [apply wrap64_id; specialize (Hb y); rlia|].
    revert Hf. apply List.Forall_impl. intros p Hp. rlia. }
  apply reconcile_clean_iff; intros y; rewrite Hs, Ht; [specialize (Hb y); lia|done].
Qed.

Lemma seeded_again now ps : forall start a l k,
  seeded start l a -> base.NoDup (map bp_Symbol l) -> Forall (fun p => Z.abs (bp_Qty p) <= max_int64 / 2) l -> (forall p, p ∈ ps -> p ∈ l) ->
  seedPositions now k ps a = (a, Ok tt).
Proof.
  induction ps as [|p ps IH]; intros start a l k Hs Hd Hf Hl; [done|]. cbn [seedPositions]. unfold eff_bind.
  assert (Hp : p ∈ l) by (apply Hl; constructor). pose proof (brokerQty_one l p Hd Hp) as Hq.
  assert (E : seedPosition (now k) p a = (a, Ok tt)).
  { unfold seedPosition. destruct (bp_Qty p =? 0); [done|]. unfold eff_bind, eff_get.
    pose proof (brokerQty_abs l (bp_Symbol p) (max_int64 / 2) ltac:(done) Hd Hf) as Hb.
    assert (max_int64 / 2 <= max_int64) by done.
    rewrite (adapterNet_seeded start l) by (done || lia). rewrite Hq, Z.sub_diag, wrap64_id by rlia. done. }
  rewrite E. apply (IH start a l); try done. intros q Hq'. apply Hl. by constructor.
Qed.

(** ** Properties *)

(** What an admitted order becomes when it fills completely at the mark. *)
Definition markFill (s y : string) (side : OrderSide) (qty : Qty) (f : Fill) (px : Price) : Prop :=
  f_StrategyID f = s /\ f_Symbol f = y /\ f_Side f = side /\ f_Qty f = qty /\ f_Price f = px.

(** C9: an opening order the gate submits keeps the limits on the real account:
    when it fills at the last price and does not cross an opposite position, the
    fill settles, and on the account's own snapshot afterwards the strategy's
    exposure is within its budget, the name within its cap and the net position
    within the concentration cap. *)
Theorem admitted_fill_keeps_limits venue s y side qty reason ts g g' coid gate f px
    (Hacct : acctOk (gs_book g)) (Hgate : gs_gate g = Some gate) (Hopen : side = SideLong \/ side = SideShort) (Hqty : 0 < qty)
    (Hpx : LastPrice (gs_book g) y = Some px)
    (Hsub : Gated_SubmitMarketSignal venue s y side (if String.eqb side SideLong then OrderSideBuy else OrderSideSell)
              qty reason ts g = (g', Ok (coid, true)))
    (Hfill : markFill s y (if String.eqb side SideLong then OrderSideBuy else OrderSideSell) qty f px)
    (Hset : settlable f (gs_book g)) :
  exists a' snap' pos, adapterApplyFill f (gs_book g) = (a', Ok pos) /\ Account_Snapshot a' = Ok snap' /\
    let r := SnapshotFromDomain snap' in
    (GrossExposureForStrategy r s <= budgetDollars (g_allocator gate) s r)%Q /\
    (inject_Z (Z.abs (StrategyPosition r s y)) * DecFromPrice px
       <= rs_NAV r * decFromPctFloat (MaxSingleNamePct (g_risk gate)))%Q /\
    (inject_Z (absInt64 (NetPositionAcrossStrategies r y)) * DecFromPrice px
       <= rs_NAV r * decFromPctFloat (ConcentrationPct (g_risk gate)))%Q.
Proof.
  set (a := gs_book g) in *. destruct Hfill as (F1 & F2 & F3 & F4 & F5).
  assert (Hb : String.eqb side SideFlat || (qty <=? 0) = false).
  { apply orb_false_iff. split; [by destruct Hopen as [-> | ->]|by apply Z.leb_gt]. }
  destruct (gated_signal_cases venue s y side (if String.eqb side SideLong then OrderSideBuy else OrderSideSell) qty reason ts g Hb) as [[[_ Hadm] _]|(_ & _ & H)];
    [|rewrite Hsub in H; by destruct (H coid)].
  destruct (Hadm gate Hgate) as (snap & Es & Hok). fold a in Es. unfold proposal in Hok. fold a in Hok. rewrite Hpx in Hok. cbn [default from_option id] in Hok.
  unfold LastPrice in Hpx. pose proof Hset as [V Sq Sp Sc So Sz Sn]. destruct (ApplyFill_opened f a Hacct Hset) as (o & c & Ea).
  rewrite (Snapshot_run a Hacct Sc) in Es. injection Es as <-.
  unfold adapterApplyFill. rewrite Ea. do 3 eexists. split; [reflexivity|].
  split; [apply (Snapshot_run _ (opened_ok f a Hacct Hset)); exact Sc|]. cbv zeta.
  set (ord := NewProposedOrder s y side qty px ts) in *. set (R := SnapshotFromDomain _) in Hok.
  assert (Er : SnapshotFromDomain (NewPortfolioSnapshot (a_startingBalance (opened f a) + a_realized (opened f a))
     (a_startingBalance (opened f a) + a_realized (opened f a)) 0 0 (openQty (opened f a)) (a_lastPrice (opened f a))) = afterFill ord R).
  { unfold afterFill, R, SnapshotFromDomain. cbn [snap_NAV snap_Cash snap_RealizedPnLToday snap_UnrealizedPnLToday snap_Positions snap_LastClose NewPortfolioSnapshot rs_NAV rs_Cash rs_RealizedPnLToday rs_UnrealizedPnLToday rs_Positions rs_LastClose ord po_StrategyID po_Symbol NewProposedOrder].
    rewrite openQty_opened, F1, F2, openQty_at by done. cbn [opened a_startingBalance a_realized a_lastPrice].
    rewrite F2, F5, (insert_id (a_lastPrice a) y px Hpx). f_equal. f_equal. f_equal.
    unfold signedDelta, signedQty. cbn. rewrite F3, F4. by destruct Hopen as [-> | ->]. }
  rewrite Er. apply (approved_limits_after gate ord R Hok).
  - unfold bypass. cbn. exact Hb.
  - cbn. apply Fill_Validate_ok in V as [_ _ V3 _ _ _]. unfold DecFromPrice, Qle. cbn. lia.
  - unfold R. cbn. rewrite lookup_fmap, Hpx. done.
  - unfold StrategyPosition, R. cbn. rewrite openQty_at. rewrite F1, F2, F4 in Sz. exact Sz.
Qed.

(** C10: while trading is halted and nobody resumes it, opening signals have no effect
    and everything else works: whatever strategies, pushes, bars, operators and the
    flatten do in between, the executor with its account and the requests sent is
    the one that gets, in their order and directly, the calls other than the opening
    signals, and the halt keeps its first trigger.  At any point of the halted
    session a close of a held position reaches the broker: a valid FLAT signal
    returns what the executor returns and sends exactly its order.  A session of
    opening signals, pushes, bars and evaluations sends nothing. *)
Theorem halt_blocks_openings venue ops g
    (Hhalt : latched g = true) (Hresume : Forall (fun o => isResume o = false) ops) :
  let g' := runGate venue ops g in
  gs_exec g' = foldl (fun x o => bareOp venue o x) (gs_exec g) (List.filter (fun o => negb (isOpening o)) ops) /\
  gs_halt g' = gs_halt g /\
  (forall s y oside qty reason ts, s <> "" -> y <> "" -> OrderSide_IsValid oside = true -> 0 < qty -> IsZeroTime ts = false -> envOk (gs_exec g) ->
     let '(g2, r) := Gated_SubmitMarketSignal venue s y SideFlat oside qty reason ts g' in
     (gs_exec g2, r) = SubmitMarketSignal venue s y SideFlat oside qty reason ts (gs_exec g') /\
     x_sent (gs_exec g2) = (x_sent (gs_exec g') ++
       [mkPlaceRequest (x_accID (gs_exec g)) (x_env (gs_exec g)) (fst (nextClientOrderID (gs_exec g'))) y oside OrderTypeMarket TIFGTC qty 0])%list) /\
  (Forall (fun o => match o with GSignal _ _ _ _ _ _ _ => isOpening o = true | GPush _ _ | GBar _ | GEvaluate _ => True | _ => False end) ops ->
     x_sent (gs_exec g') = x_sent (gs_exec g)).
Proof.
  cbv zeta. pose proof (halted_run_bare venue ops g Hresume Hhalt) as Hb. destruct (latched_run venue ops g g Hresume Hhalt ltac:(reflexivity)) as [_ H2].
  pose proof (bareRun_extends venue (List.filter (fun o => negb (isOpening o)) ops) (gs_exec g)) as Hx. rewrite <- Hb in Hx. destruct Hx as (X1 & X2 & X3 & _).
  splits; [done|done| |].
  - intros s y oside qty reason ts H3 H4 H5 H6 H7 He. pose proof (close_forwarded venue s y SideFlat oside qty reason ts (runGate venue ops g) eq_refl) as Hf.
    destruct (Gated_SubmitMarketSignal _ _ _ _ _ _ _ _ _) as [g2 r2]. split; [exact Hf|].
    assert (Hg2 : gs_exec g2 = fst (SubmitMarketSignal venue s y SideFlat oside qty reason ts (gs_exec (runGate venue ops g)))) by (by rewrite <- Hf).
    rewrite Hg2, SubmitMarketSignal_sends; [by rewrite X1, X2|done..|]. unfold envOk. by rewrite X1, X3.
  - intros Ho. rewrite Hb. clear Hb H2 X1 X2 X3. generalize (gs_exec g) as x. clear Hresume. induction ops as [|o ops IH]; intros x; [done|].
    apply List.Forall_cons_iff in Ho as [Ho Hops]. cbn [List.filter]. destruct (isOpening o) eqn:Ei; cbn [negb foldl]; [by apply IH|].
    rewrite (IH Hops). destruct o as [s y side oside qty reason ts| |now u|bar|now| | |]; try done.
    cbn. by destruct (onOrderUpdate_link now u x) as (_ & _ & _ & -> & _).
Qed.

Lemma loss_algebra (S R U : Z) (pct : Q) :
  (~ (- (DecFromMoney (S + R + U)%Z * pct) <= DecFromMoney R + DecFromMoney U) <->
   inject_Z (S + R + U)%Z * (1 + pct) < inject_Z S)%Q.
Proof.
  unfold DecFromMoney. rewrite !(Qmake_Qdiv _ 10000), !inject_Z_plus. generalize (inject_Z S), (inject_Z R), (inject_Z U).
  change (inject_Z 10000) with 10000%Q. unfold Qdiv. change (/ 10000)%Q with (1 # 10000)%Q. intros s r u.
  assert (Hx : (- ((s + r + u) * (1 # 10000) * pct) <= r * (1 # 10000) + u * (1 # 10000) <-> s <= (s + r + u) * (1 + pct))%Q).
  { generalize ((s + r + u) * pct)%Q as v, (Qeq_refl ((s + r + u) * pct)). intros v Ev. split; intros H; nra. }
  rewrite Hx. split; [apply Qnot_le_lt|apply Qlt_not_le].
Qed.

(** The loss the latch reacts to, in units of 1/10000 dollar. *)
Lemma breach_iff g gate e :
  acctOk (gs_book g) -> gs_gate g = Some gate -> Equity (gs_book g) = Ok e ->
  (forall u, Unrealized (gs_book g) = Ok u -> in64 u) ->
  dailyLossThresholdBreached g = true <->
  (inject_Z e * (1 + decFromPctFloat (DailyLossHaltPct (g_risk gate))) < inject_Z (a_startingBalance (gs_book g)))%Q.
Proof.
  intros Ha Hg He Hu. unfold dailyLossThresholdBreached, MarkedSnapshot. rewrite Hg, He.
  unfold Equity in He. bind_inv. rename r into cash, r0 into un.
  unfold Account_Snapshot. rewrite Hb. cbn [res_bind]. rewrite Hb0. cbn [res_bind]. unfold Cash in Hb.
  apply Money_Add_ok in Hb as [-> Hc]; [|apply Ha|apply Ha]. apply Money_Add_ok in Hk0 as [-> He2]; [|done|by apply Hu].
  rewrite halt_flag_iff. apply loss_algebra.
Qed.

Lemma Unrealized_in64 a u : acctOk a -> Unrealized a = Ok u -> in64 u.
Proof.
  intros [_ _ Hp Hpx]. unfold Unrealized. assert (H0 : in64 0) by rlia. revert H0. generalize 0 as total.
  induction (sortKeys (a_positions a)) as [|key keys IH]; intros total Ht E; cbn [unrealizedLoop] in E; [by injection E as <-|].
  destruct (a_positions a !! key) as [p|] eqn:Ek; [|by apply (IH total)]. destruct (Position_IsFlat p); [by apply (IH total)|].
  destruct (a_lastPrice a !! p_symbol p) as [last|] eqn:El; [|by apply (IH total)]. bind_inv. destruct (Hp _ _ Ek) as [Hok _].
  pose proof (UnrealizedPnL_in64 p last r Hok (Hpx _ _ El) Hb). apply Money_Add_ok in Hb0 as [-> B]; [|done|done]. by apply (IH _ B).
Qed.

(** The daily-loss latch fires exactly when the marked equity [e], grown by the
    halt fraction, is below the starting balance; then it records a daily-loss
    halt that blocks openings, and otherwise the gate is left as it was. *)
Theorem daily_loss_latch now g h gate e
    (Hacct : acctOk (gs_book g)) (Hhalt : gs_halt g = Some h) (Hrun : IsHalted h = false) (Hgate : gs_gate g = Some gate)
    (Heq : Equity (gs_book g) = Ok e) :
  let breach := (inject_Z e * (1 + decFromPctFloat (DailyLossHaltPct (g_risk gate))) < inject_Z (a_startingBalance (gs_book g)))%Q in
  let '(g', out) := EvaluateDailyLossHalt now g in
  (breach /\ out = (true, true) /\ latched g' = true /\ gs_exec g' = gs_exec g /\
     exists reason, gs_halt g' = Some (mkHaltState true HaltDailyLoss reason now (hs_stopped h))) \/
  (~ breach /\ out = (false, false) /\ g' = g).
Proof.
  cbv zeta. pose proof (breach_iff g gate e Hacct Hgate Heq (fun u => Unrealized_in64 _ u Hacct)) as Hb.
  unfold EvaluateDailyLossHalt. rewrite Hhalt, Hrun. destruct (dailyLossThresholdBreached g).
  - left. splits; [by apply Hb|done| |done|].
    + unfold latched, HaltState_HaltDailyLoss, Halt. cbn. unfold IsHalted in Hrun. by rewrite Hrun.
    + unfold HaltState_HaltDailyLoss, Halt. cbn. unfold IsHalted in Hrun. rewrite Hrun. cbn. by eexists.
  - right. splits; [|done|done]. intros H. apply Hb in H. discriminate.
Qed.

Lemma restore_book resolve orders positions (z : Executor Account) :
  exists z' err, RestoreFromBroker resolve (Ok orders) (Ok positions) z = (z', (positions, err)) /\
    x_book z' = x_book z /\ x_sent z' = x_sent z.
Proof.
  pose proof (restore_link resolve (Ok orders) (Ok positions) z) as (_ & _ & _ & L & _). revert L.
  unfold RestoreFromBroker. destruct (resolveAll resolve orders) as [ids err]. cbn [fst]. intros L.
  do 2 eexists. split; [reflexivity|]. split; [|exact L]. clear L. revert z.
  induction orders as [|o orders IH]; intros z; [done|]. cbn [foldl]. rewrite IH. unfold restoreOrder.
  destruct (String.eqb _ ""); [done|]. by destruct (negb _).
Qed.

Lemma Session_restore_run resolve orders positions now (z : Executor Account) a :
  seedPositions now 0 positions (x_book z) = (a, Ok tt) ->
  exists z' err, Session_RestoreFromBroker resolve (Ok orders) (Ok positions) now z = (z', (positions, err)) /\
    x_book z' = a /\ x_sent z' = x_sent z.
Proof.
  intros Ea. destruct (restore_book resolve orders positions z) as (z1 & err & E & B & S).
  unfold Session_RestoreFromBroker. rewrite E. destruct positions as [|p ps], err as [e|].
  - cbn in Ea. injection Ea as <-. by exists z1, (Some e).
  - rewrite B, Ea. by do 2 eexists.
  - rewrite B, Ea. by do 2 eexists.
  - rewrite B, Ea. by do 2 eexists.
Qed.

(** C11: after a crash the restored session agrees with the broker: from an empty
    book and rows with distinct symbols, recovery places no order, succeeds, gives
    every symbol the broker's net, the reconciliation of the book with the same
    rows is clean at zero tolerance, and restoring again settles nothing. *)
Theorem restored_book_reconciles resolve orders positions now now' start (x : Executor Account) ts
    (Hstart : in64 start) (Hbook : x_book x = NewAccount start None) (Hnow : forall k, t_ns (now k) <> zeroNs)
    (Hrows : Forall seedable positions) (Hsize : Forall (fun p => Z.abs (bp_Qty p) <= max_int64 / 2) positions)
    (Hdistinct : base.NoDup (map bp_Symbol positions)) :
  let '(x', (rows, _)) := Session_RestoreFromBroker resolve (Ok orders) (Ok positions) now x in
  rows = positions /\ x_sent x' = x_sent x /\
  (forall y, adapterNet (x_book x') y = brokerQty positions y) /\
  HasIssues (Reconcile ts (BookPositions (x_book x')) (brokerTotals rows) 0) = false /\
  x_book (fst (Session_RestoreFromBroker resolve (Ok orders) (Ok positions) now' x')) = x_book x'.
Proof.
  destruct (seedPositions_run now positions start [] (x_book x) 0 Hnow) as (a & Ea & Hs);
    [rewrite Hbook; by apply seeded_new|done|by rewrite app_nil_r|]. rewrite app_nil_r in Hs. apply seeded_rev in Hs.
  destruct (Session_restore_run resolve orders positions now x a Ea) as (x' & err & -> & Bx & Sx).
  pose proof (seeded_again now' positions start a positions 0 Hs Hdistinct Hsize (fun p H => H)) as Eagain. rewrite <- Bx in Eagain at 1.
  destruct (Session_restore_run resolve orders positions now' x' a Eagain) as (x2 & err2 & E2 & B2 & _). rewrite E2, Bx. splits; try done.
  - intros y. apply (adapterNet_seeded start); [done|]. assert (max_int64 / 2 <= max_int64) by done.
    pose proof (brokerQty_abs positions y (max_int64 / 2) ltac:(done) Hdistinct Hsize). lia.
  - by apply (seeded_reconciles start).
Qed.

(** *** The sync desk *)

Lemma booksTotal_add (m : gmap PositionKey Z) k v y :
  m !! k = None -> booksTotal (<[k := v]> m) y = booksTotal m y + (if String.eqb k.2 y then v else 0).
Proof.
  intros Hn. unfold booksTotal, netOf.
  rewrite (sumZ_map_to_list_update (fun e => if String.eqb e.1.2 y then e.2 else 0)) by (cbn; by destruct (String.eqb _ _)).
  rewrite Hn. cbn. destruct (String.eqb k.2 y); lia.
Qed.

(** Books with disjoint keys add up. *)
Lemma addBooks_spec y l : forall out : gmap PositionKey Z,
  base.NoDup (map fst l) -> (forall k v, (k, v) ∈ l -> out !! k = None /\ in64 v) ->
  let r := foldl (fun out e => <[e.1 := default 0 (out !! e.1) ⊕ e.2]> out) out l in
  booksTotal r y = booksTotal out y + netOf y l /\ (forall k, k ∉ map fst l -> r !! k = out !! k).
Proof.
  induction l as [|[k v] l IH]; intros out Hn Hl; [unfold netOf; cbn; split; [lia|done]|].
  cbn [map fst] in Hn. apply list.NoDup_cons in Hn as [Hk Hn].
  destruct (Hl k v ltac:(constructor)) as [Ho Hv]. cbn [foldl fst snd]. rewrite Ho. cbn [default from_option id].
  rewrite Z.add_0_l, (wrap64_id v Hv). destruct (IH (<[k := v]> out)) as [H1 H2]; [done| |].
  - intros k' v' Hi. destruct (Hl k' v' ltac:(by constructor)) as [Ho' Hv']. split; [|done].
    rewrite lookup_insert_ne; [done|]. intros ->. apply Hk, list_elem_of_fmap. by exists (k', v').
  - split; [rewrite H1, booksTotal_add by done; unfold netOf; cbn [map fst snd]; rewrite sumZ_cons; lia|].
    intros k' [Hne Hn']%not_elem_of_cons. rewrite H2 by done. by rewrite lookup_insert_ne.
Qed.

Lemma combine_total (a b : gmap PositionKey Z) y :
  (forall k, is_Some (a !! k) -> b !! k = None) -> (forall k v, a !! k = Some v \/ b !! k = Some v -> in64 v) ->
  booksTotal (CombinedBooks [Some a; Some b]) y = booksTotal a y + booksTotal b y.
Proof.
  intros Hd Hb. unfold CombinedBooks. cbn [foldl].
  destruct (addBooks_spec y (map_to_list a) ∅ (NoDup_fst_map_to_list a)) as [H1 H2].
  { intros k v Hk%elem_of_map_to_list. split; [apply lookup_empty|apply (Hb k); by left]. }
  set (out := foldl _ ∅ (map_to_list a)) in *.
  destruct (addBooks_spec y (map_to_list b) out (NoDup_fst_map_to_list b)) as [H3 _].
  { intros k v Hk%elem_of_map_to_list. split; [|apply (Hb k); by right]. rewrite H2; [apply lookup_empty|].
    intros ([k' v'] & -> & Hi%elem_of_map_to_list)%list_elem_of_fmap. cbn in Hk. rewrite Hd in Hk by done. done. }
  rewrite H3, H1. unfold booksTotal. rewrite map_to_list_empty. cbn. lia.
Qed.

Lemma NetPosition_at (a : Account) s y : NetPosition a s y = p_signedQty (posAt a (s, y)).
Proof. unfold NetPosition, posAt. cbn. unfold Account_Position. by destruct (a_positions a !! (s, y)). Qed.

(** A book of one holder next to books without it: the totals add up. *)
Lemma desk_total (a : Account) (sid : string) (other : gmap PositionKey Z) (y : string) :
  acctOk a -> (forall s y, s <> sid -> NetPosition a s y = 0) ->
  (forall y, other !! (sid, y) = None) -> (forall k v, other !! k = Some v -> in64 v) ->
  booksTotal (CombinedBooks [Some (BookPositions a); Some other]) y = NetPosition a sid y + booksTotal other y.
Proof.
  intros Ha Hz Hn H64. assert (Hq : forall k, default 0 (openQty a !! k) = NetPosition a k.1 k.2)
    by (intros [s z]; by rewrite openQty_at, NetPosition_at).
  rewrite (BookPositions_open a Ha), combine_total.
  - f_equal. unfold booksTotal. rewrite netOf_terms.
    assert (Ho : onlyHolder (openQty a) sid y) by (intros s' Hne; rewrite Hq; by apply Hz).
    exact (eq_trans (proj1 (netTerms_one (openQty a) sid y Ho)) (Hq (sid, y))).
  - intros [s z] [v Hv]. destruct (decide (s = sid)) as [->|Hne]; [apply Hn|]. exfalso.
    assert (Hv' : v = 0) by exact (eq_trans (f_equal (default 0) (eq_sym Hv)) (eq_trans (Hq (s, z)) (Hz s z Hne))). subst v.
    unfold openQty in Hv. rewrite lookup_omap in Hv. destruct (a_positions a !! (s, z)) as [p|]; [|done]. cbn in Hv.
    unfold Position_IsFlat in Hv. destruct (Z.eqb_spec (p_signedQty p) 0); [done|]. by injection Hv.
  - intros k v [Hv|Hv]; [|by apply (H64 k)]. pose proof (openQty_at a k) as Hz'.
    destruct (posAt_ok a k Ha) as [[Hp _ _ _] _]. rewrite <- Hz' in Hp.
    assert (Hv' : default 0 (openQty a !! k) = v) by exact (f_equal (default 0) Hv). rewrite Hv' in Hp. rlia.
Qed.

(** What a sync that returns a reconciliation did. *)
Lemma sync_run operator ts now1 now2 ps books d d' report rec :
  sd_reconciler d = Some rec ->
  SyncFromBroker operator ts now1 now2 (Ok ps) (Ok ps) books None d = (d', Ok (report, None)) ->
  exists n, SyncBrokerInto ExternalStrategyID (Ok ps) now1 (sd_exec d) = (sd_exec d', Ok n) /\
    sr_Reconciliation report = Some (Reconcile now2 (CombinedBooks [Some (BookPositions (x_book (sd_exec d'))); books])
                                       (brokerTotals ps) (rec_tolerance rec)).
Proof.
  intros Hr. unfold SyncFromBroker. destruct (blank operator); [discriminate|].
  destruct (SyncBrokerInto ExternalStrategyID (Ok ps) now1 (sd_exec d)) as [x [n|e]]; [|discriminate].
  unfold audit0. cbn. destruct (sd_audit d); cbn; rewrite Hr; unfold Reconciler_Reconcile; cbn;
    destruct (rec_sink rec); cbn; intros [= <- <-]; by exists n.
Qed.

(** C12: a sync from the broker sends no order, and when the broker does not move
    between its two reads the desk reports drift exactly when a strategy session
    holds some symbol: the external book already carries the whole broker account,
    so the strategies' positions are counted twice. *)
Theorem sync_drift_iff_strategies_hold operator ts now1 now2 ps strategyBooks d d' report rec
    (Hbook : acctOk (x_book (sd_exec d))) (Hprice : pricesFit ps) (Hqty : Forall (fun p => in64 (bp_Qty p)) ps)
    (Hext : forall s y, s <> ExternalStrategyID -> NetPosition (x_book (sd_exec d)) s y = 0)
    (Hdesk : forall y, Z.abs (brokerQty ps y) + Z.abs (NetPosition (x_book (sd_exec d)) ExternalStrategyID y) <= max_int64)
    (Hstrat : forall y, strategyBooks !! (ExternalStrategyID, y) = None) (Hq64 : forall k v, strategyBooks !! k = Some v -> in64 v)
    (Hfit : forall y, 2 * Z.abs (brokerQty ps y) + Z.abs (booksTotal strategyBooks y) <= max_int64)
    (Hrec : sd_reconciler d = Some rec) (Htol : rec_tolerance rec = 0)
    (Hsync : SyncFromBroker operator ts now1 now2 (Ok ps) (Ok ps) (Some strategyBooks) None d = (d', Ok (report, None))) :
  x_sent (sd_exec d') = x_sent (sd_exec d) /\
  (HasDrift report = true <-> exists y, booksTotal strategyBooks y <> 0).
Proof.
  destruct (sync_run operator ts now1 now2 ps _ d d' report rec Hrec Hsync) as (n & E & Hrep). rewrite Htol in Hrep.
  pose proof (sync_link ExternalStrategyID (Ok ps) now1 (sd_exec d)) as (_ & _ & _ & L & _). rewrite E in L.
  destruct (sync_spec acctOk ExternalStrategyID ps now1 now2 (sd_exec d) _ n Hbook Hprice Hqty Hdesk E) as (Ok1 & Net & Oth & _).
  assert (Ht : forall y, booksTotal (CombinedBooks [Some (BookPositions (x_book (sd_exec d'))); Some strategyBooks]) y
      = brokerQty ps y + booksTotal strategyBooks y).
  { intros y. rewrite (desk_total _ ExternalStrategyID), Net; try done. intros s z Hne. rewrite Oth by done. by apply Hext. }
  assert (Hb : forall y, brokerNet (brokerTotals ps) y = brokerQty ps y).
  { intros y. rewrite brokerTotals_sum by done. apply wrap64_id. specialize (Hfit y). rlia. }
  split; [done|]. unfold HasDrift. rewrite Hrep, issues_iff.
  - split; intros [y Hy]; exists y; rewrite ?Ht, ?Hb in *; lia.
  - intros y. rewrite Ht, Hb. specialize (Hfit y). lia.
Qed.

(** ** Concrete sessions *)

Definition demoMarkBar (px : Price) : Bar :=
  {| bar_Symbol := "SPY"; bar_TS := demoTs; bar_Open := px; bar_High := px; bar_Low := px; bar_Close := px; bar_Volume := 1000 |}.

Definition demoBook : Account := ObserveBar (demoMarkBar 4000000) (NewAccount 1000000000 None).

Lemma demoBook_ok : acctOk demoBook.
Proof. apply ObserveBar_ok; [cbn; rlia|apply demoAccount_ok]. Qed.

Definition demoSession : GatedSubmitter :=
  NewGatedSubmitter (withBook demoX0 demoBook) (Some demoGate) (Some NewHaltState) (Some []) 1000000000.

Definition demoEntryFill : Fill := mkFill "V0-0" "PAPER-O-0" "V0" "sepa" "SPY" OrderSideBuy 10 4000000 0 demoTs.

Lemma demoEntryFill_settles : settlable demoEntryFill demoBook.
Proof. constructor; [reflexivity|vm_compute; discriminate..| |by left|vm_compute; discriminate|vm_compute; discriminate]. split; vm_compute; discriminate. Qed.

Definition demoEntrySubmit : GatedSubmitter * res (string * bool) :=
  Gated_SubmitMarketSignal demoVenue "sepa" "SPY" SideLong OrderSideBuy 10 "entry" demoTs demoSession.

Lemma admitted_fill_keeps_limits_witness :
  exists a' snap' pos, adapterApplyFill demoEntryFill demoBook = (a', Ok pos) /\ Account_Snapshot a' = Ok snap' /\
    let r := SnapshotFromDomain snap' in
    (GrossExposureForStrategy r "sepa" <= budgetDollars (g_allocator demoGate) "sepa" r)%Q /\
    (inject_Z (Z.abs (StrategyPosition r "sepa" "SPY")) * DecFromPrice 4000000%Z
       <= rs_NAV r * decFromPctFloat (MaxSingleNamePct (g_risk demoGate)))%Q /\
    (inject_Z (absInt64 (NetPositionAcrossStrategies r "SPY")) * DecFromPrice 4000000%Z
       <= rs_NAV r * decFromPctFloat (ConcentrationPct (g_risk demoGate)))%Q.
Proof.
  apply (admitted_fill_keeps_limits demoVenue "sepa" "SPY" SideLong 10 "entry" demoTs demoSession (fst demoEntrySubmit) "PAPER-O-0"
           demoGate demoEntryFill 4000000).
  - exact demoBook_ok.
  - reflexivity.
  - by left.
  - lia.
  - reflexivity.
  - assert (E : snd demoEntrySubmit = Ok ("PAPER-O-0", true)) by (vm_compute; reflexivity).
    rewrite <- E. exact (surjective_pairing demoEntrySubmit).
  - done.
  - exact demoEntryFill_settles.
Defined.

Definition demoHalted : GatedSubmitter := set_halt (Some (Halt demoTs HaltManual "operator" NewHaltState)) demoSession.

Definition demoHaltedOps : list gateOp :=
  [GSignal "sepa" "SPY" SideLong OrderSideBuy 10 "entry" demoTs; GBar (demoMarkBar 3900000); GEvaluate demoTs;
   GSignal "sepa" "SPY" SideShort OrderSideSell 5 "entry" demoTs].

Lemma halt_blocks_openings_witness :
  latched demoHalted = true /\
  let g' := runGate demoVenue demoHaltedOps demoHalted in
  x_sent (gs_exec g') = [] /\
  length (x_sent (gs_exec (fst (Gated_SubmitMarketSignal demoVenue "sepa" "SPY" SideFlat OrderSideSell 5 "exit" demoTs g')))) = 1%nat.
Proof.
  split; [reflexivity|]. cbv zeta.
  assert (Hr : Forall (fun o => isResume o = false) demoHaltedOps) by (repeat constructor).
  destruct (halt_blocks_openings demoVenue demoHaltedOps demoHalted eq_refl Hr) as (_ & _ & Hclose & H).
  assert (Hs : x_sent (gs_exec (runGate demoVenue demoHaltedOps demoHalted)) = []) by (rewrite H; [reflexivity|]; repeat constructor).
  split; [exact Hs|].
  specialize (Hclose "sepa" "SPY" OrderSideSell 5 "exit" demoTs ltac:(discriminate) ltac:(discriminate) eq_refl ltac:(lia) eq_refl ltac:(vm_compute; discriminate)).
  destruct (Gated_SubmitMarketSignal _ _ _ _ _ _ _ _ _) as [g2 r]. cbn [fst]. destruct Hclose as [_ Hsent]. rewrite Hsent, Hs. reflexivity.
Defined.

(** 1000 shares bought at 100.00 with all of a 100,000.00 account, marked at 90.90. *)
Definition demoLossBook : Account :=
  ObserveBar (demoMarkBar 909000)
    (fst (adapterApplyFill (mkFill "V0-0" "PAPER-O-0" "V0" "sepa" "SPY" OrderSideBuy 1000 1000000 0 demoTs) (NewAccount 1000000000 None))).

Definition demoTenPct : Gate := mkGate {["sepa" := flit 5 10]} (mkRiskConfig (flit 1 2) (flit 1 2) (flit 1 10)).

Definition demoLossSession : GatedSubmitter :=
  NewGatedSubmitter (withBook demoX0 demoLossBook) (Some demoTenPct) (Some NewHaltState) (Some []) 1000000000.

Lemma demoLossBook_ok : acctOk demoLossBook.
Proof.
  apply ObserveBar_ok; [cbn; rlia|].
  set (f := mkFill _ _ _ _ _ _ _ _ _ _).
  assert (Hs : settlable f (NewAccount 1000000000 None)).
  { constructor; [reflexivity|vm_compute; discriminate..| |by left|vm_compute; discriminate|vm_compute; discriminate]. split; vm_compute; discriminate. }
  unfold adapterApplyFill. destruct (ApplyFill_opened f _ demoAccount_ok Hs) as (o & c & ->). cbn [fst].
  by apply opened_ok; [apply demoAccount_ok|].
Qed.

Lemma daily_loss_latch_witness :
  Equity demoLossBook = Ok 909000000 /\ latched (fst (EvaluateDailyLossHalt demoTs demoLossSession)) = true.
Proof.
  assert (He : Equity demoLossBook = Ok 909000000) by (vm_compute; reflexivity). split; [exact He|].
  pose proof (daily_loss_latch demoTs demoLossSession NewHaltState demoTenPct 909000000 demoLossBook_ok eq_refl eq_refl eq_refl He) as H.
  destruct (EvaluateDailyLossHalt demoTs demoLossSession) as [g' out]. destruct H as [(_ & _ & H & _)|(Hn & _)]; [exact H|].
  exfalso. apply Hn. vm_compute. reflexivity.
Defined.

(** The latch compares the loss with the current equity: a session configured for
    ten percent halts at a loss of 9.1% of its opening balance. *)
Theorem halt_before_documented_loss :
  gs_nav demoLossSession = 1000000000 /\ Equity demoLossBook = Ok (1000000000 - 91000000) /\
  10 * 91000000 < 1000000000 /\ snd (EvaluateDailyLossHalt demoTs demoLossSession) = (true, true).
Proof. splits; vm_compute; reflexivity. Qed.

Definition demoRows : list BrokerPosition :=
  [mkBrokerPosition "SPY" 10 4000130 4000130 4010000 0; mkBrokerPosition "QQQ" (-5) 0 0 3000000 0].

Definition demoRestoredX : Executor Account * (list BrokerPosition * option error) :=
  Session_RestoreFromBroker (fun _ => Ok None) (Ok []) (Ok demoRows) (fun _ => demoTs) demoX0.

Lemma restored_book_reconciles_witness :
  adapterNet (x_book (fst demoRestoredX)) "QQQ" = -5 /\
  HasIssues (Reconcile demoTs (BookPositions (x_book (fst demoRestoredX))) (brokerTotals demoRows) 0) = false.
Proof.
  assert (Hn : forall k : nat, t_ns ((fun _ => demoTs) k) <> zeroNs) by (intros k; vm_compute; discriminate).
  assert (Hr : Forall seedable demoRows).
  { repeat (apply List.Forall_cons; [right; vm_compute; repeat split; discriminate|]). apply List.Forall_nil. }
  assert (Hs : Forall (fun p => Z.abs (bp_Qty p) <= max_int64 / 2) demoRows)
    by (repeat (apply List.Forall_cons; [vm_compute; discriminate|]); apply List.Forall_nil).
  assert (Hd : base.NoDup (map bp_Symbol demoRows)) by (apply (bool_decide_unpack _); vm_compute; reflexivity).
  pose proof (restored_book_reconciles (fun _ => Ok None) [] demoRows (fun _ => demoTs) (fun _ => demoTs) 1000000000 demoX0 demoTs
    ltac:(rlia) eq_refl Hn Hr Hs Hd) as H.
  fold demoRestoredX in H. assert (E : fst (snd demoRestoredX) = demoRows) by (vm_compute; reflexivity).
  destruct demoRestoredX as [x' [rows err]]. destruct H as (-> & _ & H1 & H2 & _). split; [|exact H2].
  cbn [fst]. rewrite H1. reflexivity.
Defined.

(** A symbol the broker reports in two rows is seeded to the last row only, and the
    reconciliation that follows reports the difference. *)
Theorem split_rows_break_recovery :
  let rows := [mkBrokerPosition "SPY" 10 4000130 4000130 4010000 0; mkBrokerPosition "SPY" (-4) 4000130 4000130 4010000 0] in
  let book := x_book (fst (Session_RestoreFromBroker (fun _ => Ok None) (Ok []) (Ok rows) (fun _ => demoTs) demoX0)) in
  adapterNet book "SPY" = -4 /\ brokerQty rows "SPY" = 6 /\
  rr_Mismatches (Reconcile demoTs (BookPositions book) (brokerTotals rows) 0) = [mkMismatch "SPY" (-4) 6 10].
Proof. intros rows book; splits; vm_compute; reflexivity. Qed.

Definition demoDesk : BrokerSyncController :=
  mkSyncDesk (demoAccount EnvPaper) demoX0 (Some []) (Some (mkReconciler 0 (Some []) (Some []) 0)).

Definition demoSync : BrokerSyncController * res (SyncReport * option error) :=
  SyncFromBroker "operator" demoTs demoTs demoTs (Ok demoBrokerRows) (Ok demoBrokerRows) (Some {[("sepa", "SPY") := 10]}) None demoDesk.

Definition demoSyncReport : SyncReport :=
  match snd demoSync with Ok (r, _) => r | Err _ => mkSyncReport 0 None demoTs end.

Lemma demoSync_run : demoSync = (fst demoSync, Ok (demoSyncReport, None)).
Proof.
  assert (E : match snd demoSync with Ok (_, None) => true | _ => false end = true) by (vm_compute; reflexivity).
  unfold demoSyncReport. destruct demoSync as [d [[r [e|]]|e]]; cbn in *; done.
Qed.

Lemma sync_drift_iff_strategies_hold_witness :
  x_sent (sd_exec (fst demoSync)) = [] /\ HasDrift demoSyncReport = true.
Proof.
  set (books := {[("sepa", "SPY") := 10]} : gmap PositionKey Z).
  assert (Hz : forall s y, NetPosition (x_book (sd_exec demoDesk)) s y = 0).
  { intros s y. rewrite NetPosition_at. unfold posAt. cbn. by rewrite lookup_empty. }
  assert (Hb : forall y, brokerQty demoBrokerRows y = if String.eqb "SPY" y then 10 else 0)
    by (intros y; unfold brokerQty; cbn [map sumZ fold_right demoBrokerRows bp_Symbol bp_Qty]; destruct (String.eqb "SPY" y); reflexivity).
  assert (Ht : forall y, booksTotal books y = if String.eqb "SPY" y then 10 else 0)
    by (intros y; unfold booksTotal, books; rewrite map_to_list_singleton; unfold netOf; cbn [map sumZ fold_right fst snd]; destruct (String.eqb "SPY" y); reflexivity).
  destruct (sync_drift_iff_strategies_hold "operator" demoTs demoTs demoTs demoBrokerRows books demoDesk (fst demoSync) demoSyncReport
    (mkReconciler 0 (Some []) (Some []) 0)) as [H1 H2].
  - exact demoAccount_ok.
  - apply List.Forall_cons; [split; vm_compute; split; discriminate|apply List.Forall_nil].
  - apply List.Forall_cons; [vm_compute; split; discriminate|apply List.Forall_nil].
  - intros s y _. apply Hz.
  - intros y. rewrite Hz, Hb. destruct (String.eqb "SPY" y); vm_compute; discriminate.
  - intros y. unfold books. by rewrite lookup_singleton_ne.
  - intros k v Hk. unfold books in Hk. apply lookup_singleton_Some in Hk as [_ <-]. rlia.
  - intros y. rewrite Hb, Ht. destruct (String.eqb "SPY" y); vm_compute; discriminate.
  - reflexivity.
  - reflexivity.
  - exact demoSync_run.
  - split; [exact H1|]. apply H2. exists "SPY". rewrite Ht. cbn. lia.
Defined.
