(* ===== verification/LiveSession.v ===== *)
(** * The live session (src/internal/livengine, livetrade/session.go)

    The session that drives strategies over bars one timestamp at a time: the
    signal-mode executor that records would-be orders, the per-bar and
    per-timestamp work, the streaming run over the loop of Loop.v and the batch
    replay, and the paper/live session that plugs the gated submitter, the
    account and the strategy-state store into it.  Strategies are the programs
    of Engine.v; the order submitter is an interface with three
    implementations (the backtest engine, the signal-mode executor and the gated
    submitter), so that what holds of a strategy program holds of all runtimes.
    [W] is everything the injected hooks share (submitter, account, halt latch,
    stores), [K] the state of the signal sink and [P] the opaque payloads.
    Counters are [int64] counts of work done and do not reach their bound. *)

From stdpp Require Import gmap strings list sorting.
From Stdlib Require Import Sorted.
From S2P Require Import Prelude Lists Fixed Money Domain Float64 EventQueue Loop Accounting RiskGate Context Engine.
From S2P Require Import OrderFSM LiveExec LiveTrade.
Set Default Goal Selector "!".
#[local] Open Scope string_scope.
#[local] Open Scope Z_scope.
#[local] Open Scope list_scope.
#[local] Abbreviation length := List.length.

(** ** The order-submitter interface (engine/strategy.go) *)

Class OrderSubmitter (W : Type) : Type := {
  sub_Market : string -> string -> OrderSide -> Qty -> string -> time -> eff W string;
  sub_Signal : string -> string -> SignalSide -> OrderSide -> Qty -> string -> time -> eff W (string * bool);
  sub_Net : string -> W -> Qty
}.

(** A strategy's [OnBar] against any submitter; [equity] is the bound equity
    source of the assembly. *)
Fixpoint runProg {W St : Type} `{OrderSubmitter W} (equity : W -> float64) (p : SProg St) : eff W (St * option error) :=
  match p with
  | SDone st r => eff_ret (st, r)
  | SSubmitMarket id symbol side qty reason ts k =>
      fun w => let '(w, r) := sub_Market id symbol side qty reason ts w in runProg equity (k r) w
  | SSubmitSignal id symbol side oside qty reason ts k =>
      fun w => let '(w, r) := sub_Signal id symbol side oside qty reason ts w in runProg equity (k r) w
  | SNetPosition symbol k => fun w => runProg equity (k (sub_Net symbol w)) w
  | SEquityFloat k => fun w => runProg equity (k (equity w)) w
  end.

#[export] Instance engineSubmitter {St} (su : Setup St) : OrderSubmitter (Engine.Engine St) := {
  sub_Market := Engine.SubmitMarket su;
  sub_Signal := Engine.SubmitMarketSignal su;
  sub_Net := fun symbol e => Engine.NetPosition (acctOf e) symbol
}.

#[export] Instance gatedSubmitter (venue : list PlaceOrderRequest -> PlaceOrderRequest -> list (OrderUpdate * time) * res string) : OrderSubmitter GatedSubmitter := {
  sub_Market := Gated_SubmitMarket venue;
  sub_Signal := Gated_SubmitMarketSignal venue;
  sub_Net := fun symbol g => Gated_NetPosition g symbol
}.

(** ** The signal-mode executor (noop.go, intent.go) *)

Record IntentRecord : Set := mkIntentRecord {
  ir_StrategyID : string;
  ir_AsOf : time;
  ir_Symbol : string;
  ir_Side : SignalSide;
  ir_Qty : Qty
}.

Record NoopExecutor : Set := mkNoop { nx_seq : Z; nx_submitted : Z; nx_pending : list IntentRecord }.

Definition NewNoopExecutor : NoopExecutor := mkNoop 0 0 [].

(** The digits of [n], least significant first; 20 digits hold any [uint64]. *)
Fixpoint seqDigits (fuel : nat) (n : Z) : list ascii :=
  match fuel with
  | O => []
  | S fuel => if n <=? 0 then [] else ascii_of_N (Z.to_N (48 + n mod 10)) :: seqDigits fuel (n / 10)
  end.

Definition formatSeq (n : Z) : string :=
  let digits := if n =? 0 then ["0"%char] else seqDigits 20 n in
  let digits := digits ++ repeat "0"%char (9 - length digits) in
  string_of_list_ascii (rev digits).

Definition Noop_nextID : eff NoopExecutor string :=
  fun e => (mkNoop (wrapu64 (nx_seq e + 1)) (nx_submitted e) (nx_pending e), Ok ("SIGNAL-" ++ formatSeq (nx_seq e))%string).

Definition capture (rec : IntentRecord) (e : NoopExecutor) : NoopExecutor :=
  mkNoop (nx_seq e) (nx_submitted e + 1) (nx_pending e ++ [rec]).

Definition drainPending (e : NoopExecutor) : list IntentRecord * NoopExecutor :=
  (nx_pending e, mkNoop (nx_seq e) (nx_submitted e) []).

Definition signalSideOf (side : OrderSide) : SignalSide :=
  if String.eqb side OrderSideSell then SideShort else SideLong.

Definition Noop_SubmitMarket (strategyID symbol : string) (side : OrderSide) (qty : Qty) (reason : string) (ts : time)
    : eff NoopExecutor string :=
  _ <-! eff_modify (capture (mkIntentRecord strategyID ts symbol (signalSideOf side) qty)) ;; Noop_nextID.

Definition Noop_SubmitMarketSignal (strategyID symbol : string) (signalSide : SignalSide) (orderSide : OrderSide) (qty : Qty)
    (reason : string) (ts : time) : eff NoopExecutor (string * bool) :=
  _ <-! eff_modify (capture (mkIntentRecord strategyID ts symbol signalSide qty)) ;;
  id <-! Noop_nextID ;; eff_ret (id, true).

#[export] Instance noopSubmitter : OrderSubmitter NoopExecutor := {
  sub_Market := Noop_SubmitMarket;
  sub_Signal := Noop_SubmitMarketSignal;
  sub_Net := fun _ _ => 0
}.

(** ** Sinks (signal.go, intent.go) *)

Section Defs.
Context {P : Type}.

Record SignalRecord : Type := mkSignalRecord { sr_StrategyID : string; sr_AsOf : time; sr_Payload : P }.
Record StateRecord : Type := mkStateRecord { st_StrategyID : string; st_AsOf : time; st_Summary : P }.
Record HealthRecord : Set := mkHealthRecord { hr_AsOf : time; hr_Snapshot : PortfolioHealthSnapshot }.

(** [SignalSink] with its optional capabilities [IntentSink] and [StateEmitter].
    A sink may fail, but it does not see the context of the session: an
    emission that fails because the context is cancelled in the middle of a
    flush is not modelled. *)
Record SignalSink (K : Type) : Type := mkSink {
  EmitSignal : SignalRecord -> eff K unit;
  EmitHealth : HealthRecord -> eff K unit;
  EmitIntent : option (IntentRecord -> eff K unit);
  EmitState : option (StateRecord -> eff K unit)
}.

Definition DiscardSink {K} : SignalSink K :=
  mkSink K (fun _ => eff_ret tt) (fun _ => eff_ret tt) (Some (fun _ => eff_ret tt)) None.

Record MemSink : Type := mkMemSink { Signals : list SignalRecord; Health : list HealthRecord; Intents : list IntentRecord }.

Definition NewMemSink : MemSink := mkMemSink [] [] [].

Definition memSink : SignalSink MemSink :=
  mkSink MemSink
    (fun rec => eff_modify (fun s => mkMemSink (Signals s ++ [rec]) (Health s) (Intents s)))
    (fun rec => eff_modify (fun s => mkMemSink (Signals s) (Health s ++ [rec]) (Intents s)))
    (Some (fun rec => eff_modify (fun s => mkMemSink (Signals s) (Health s) (Intents s ++ [rec]))))
    None.

(** ** Configuration and state (session.go) *)

Context {St : Type}.

(** An engine strategy with the capabilities the live session probes for.
    [ls_StateDict] is the JSON text of the state, absent for a nil value. *)
Record LiveStrategy : Type := mkLive {
  ls_strategy : Strategy St;
  ls_EvaluateSignal : option (time -> St -> P);
  ls_StateSummary : option (St -> P);
  ls_Persist : option ((St -> res string) * (string -> St -> res St))
}.

Context {W K : Type}.

Record SessionConfig : Type := mkSessionConfig {
  lc_Exec : ExecutionPolicy;
  lc_Strategies : list (option (LiveStrategy * St));
  lc_Gate : option Gate;
  lc_Context : option ContextProvider;
  lc_SPYSymbol : string;
  lc_Warmup : option (string -> res (list Bar));
  lc_WarmupSymbols : list string;
  lc_WarmupBatch : list Bar;
  lc_StartingBalance : Money;
  lc_Sink : option (SignalSink K);
  lc_EmitGate : option (W -> W * bool);
  lc_Submitter : option (OrderSubmitter W);
  lc_PostTimestamp : option (time -> list St -> eff W unit);
  lc_ObserveBar : option (Bar -> W -> W);
  (** The equity source of the assembly: no engine is bound in a live session. *)
  lc_Equity : float64
}.

Record Session : Type := mkSession {
  se_exec : option NoopExecutor;
  se_world : W;
  se_sink : K;
  se_ctx : option (ContextProvider * SharedContextState);
  se_states : list St;
  se_curTS : time;
  se_haveTS : bool;
  se_emitted : Z;
  se_barsSeen : Z;
  se_haltedFlushes : Z
}.

Definition set_sexec (x : option NoopExecutor) (s : Session) : Session :=
  mkSession x (se_world s) (se_sink s) (se_ctx s) (se_states s) (se_curTS s) (se_haveTS s) (se_emitted s) (se_barsSeen s) (se_haltedFlushes s).
Definition set_sworld (w : W) (s : Session) : Session :=
  mkSession (se_exec s) w (se_sink s) (se_ctx s) (se_states s) (se_curTS s) (se_haveTS s) (se_emitted s) (se_barsSeen s) (se_haltedFlushes s).
Definition set_sink (k : K) (s : Session) : Session :=
  mkSession (se_exec s) (se_world s) k (se_ctx s) (se_states s) (se_curTS s) (se_haveTS s) (se_emitted s) (se_barsSeen s) (se_haltedFlushes s).
Definition set_sctx (c : option (ContextProvider * SharedContextState)) (s : Session) : Session :=
  mkSession (se_exec s) (se_world s) (se_sink s) c (se_states s) (se_curTS s) (se_haveTS s) (se_emitted s) (se_barsSeen s) (se_haltedFlushes s).
Definition set_sstates (l : list St) (s : Session) : Session :=
  mkSession (se_exec s) (se_world s) (se_sink s) (se_ctx s) l (se_curTS s) (se_haveTS s) (se_emitted s) (se_barsSeen s) (se_haltedFlushes s).
Definition set_ts (t : time) (have : bool) (s : Session) : Session :=
  mkSession (se_exec s) (se_world s) (se_sink s) (se_ctx s) (se_states s) t have (se_emitted s) (se_barsSeen s) (se_haltedFlushes s).
Definition count_session (emitted bars halted : Z) (s : Session) : Session :=
  mkSession (se_exec s) (se_world s) (se_sink s) (se_ctx s) (se_states s) (se_curTS s) (se_haveTS s)
    (se_emitted s + emitted) (se_barsSeen s + bars) (se_haltedFlushes s + halted).

Definition onWorld {A} (m : eff W A) : eff Session A :=
  fun s => let '(w, r) := m (se_world s) in (set_sworld w s, r).
Definition onSink {A} (m : eff K A) : eff Session A :=
  fun s => let '(k, r) := m (se_sink s) in (set_sink k s, r).

Definition strategyID (l : LiveStrategy) : string := s_ID (ls_strategy l).

(** [cfg.Strategies] once none of them is nil. *)
Definition liveStrategies (cfg : SessionConfig) : list LiveStrategy := omap (fun o => option_map fst o) (lc_Strategies cfg).
Definition baseStrategies (cfg : SessionConfig) : list (Strategy St) := map ls_strategy (liveStrategies cfg).
Definition sinkOf (cfg : SessionConfig) : SignalSink K := default DiscardSink (lc_Sink cfg).
Definition spySym (cfg : SessionConfig) : string := if String.eqb (lc_SPYSymbol cfg) "" then "SPY" else lc_SPYSymbol cfg.

Definition NewSession (cfg : SessionConfig) (w : W) (k : K) : res Session :=
  _ <-? rejectIf (negb (ExecutionPolicy_IsValid (lc_Exec cfg))) ;;
  _ <-? (if String.eqb (lc_Exec cfg) ExecSignal then rejectIf (match lc_Submitter cfg with Some _ => true | None => false end)
         else if String.eqb (lc_Exec cfg) ExecAuto then rejectIf (match lc_Submitter cfg with Some _ => false | None => true end)
         else Ok tt) ;;
  _ <-? rejectIf (length (lc_Strategies cfg) =? 0)%nat ;;
  _ <-? rejectIf (lc_StartingBalance cfg <=? 0) ;;
  _ <-? rejectIf (existsb (fun o => match o with None => true | Some (l, _) => String.eqb (strategyID l) "" end) (lc_Strategies cfg)) ;;
  Ok (mkSession (if String.eqb (lc_Exec cfg) ExecSignal then Some NewNoopExecutor else None) w k
        (option_map (fun p => (p, NewSharedContextState)) (lc_Context cfg))
        (omap (fun o => option_map snd o) (lc_Strategies cfg)) zeroTime false 0 0 0).

Section Run.
Context (cfg : SessionConfig).

(** [PrimeExcept]; a history query that fails aborts the start of the session, and
    the states of the strategies warmed before it are left out of the result. *)
Definition PrimeExcept (skip : gset string) : eff Session unit :=
  fun s =>
    let s := set_sstates (PrimeWarmupBatchExcept (baseStrategies cfg) (lc_WarmupBatch cfg) skip (se_states s)) s in
    match lc_Warmup cfg with
    | None => (s, Ok tt)
    | Some warm =>
        if (length (lc_WarmupSymbols cfg) =? 0)%nat then (s, Ok tt)
        else match PrimeWarmupExcept (baseStrategies cfg) (lc_WarmupSymbols cfg) skip warm (se_states s) with
             | Err e => (s, Err e)
             | Ok l => (set_sstates l s, Ok tt)
             end
    end.

Definition Prime : eff Session unit := PrimeExcept ∅.

(** ** One bar (session.go: onBar) *)

(** The strategies run through [s.sub]. *)
Definition runOnBar (p : SProg St) : eff Session (St * option error) :=
  fun s =>
    match se_exec s with
    | Some x => let '(x, r) := runProg (fun _ => lc_Equity cfg) p x in (set_sexec (Some x) s, r)
    | None =>
        match lc_Submitter cfg with
        | Some sub => let '(w, r) := runProg (fun _ => lc_Equity cfg) p (se_world s) in (set_sworld w s, r)
        | None => (s, Err ErrInvalidArgument)
        end
    end.

Fixpoint onBarLoop (strategies : list (Strategy St)) (i : nat) (bar : Bar) : eff Session unit :=
  match strategies with
  | [] => eff_ret tt
  | st :: strategies =>
      fun s =>
        match se_states s !! i with
        | None => (s, Ok tt)
        | Some x =>
            match runOnBar (s_OnBar st x bar) s with
            | (s, Err e) => (s, Err e)
            | (s, Ok (x, err)) =>
                let s := set_sstates (<[i := x]> (se_states s)) s in
                match err with
                | Some e => (s, Err e)
                | None => onBarLoop strategies (S i) bar s
                end
            end
        end
  end.

Definition injectContext (asOf : time) (s : Session) : Session :=
  match se_ctx s with
  | Some (_, st) => set_sstates (InjectContextInto (baseStrategies cfg) asOf st (se_states s)) s
  | None => s
  end.

(** The context refresh on the heartbeat. *)
Definition heartbeat (bar : Bar) (s : Session) : Session :=
  match se_ctx s with
  | Some (p, st) =>
      if String.eqb (bar_Symbol bar) (spySym cfg) then
        let '(p, st, _) := Provider_OnBar p st (bar_TS bar) in
        injectContext (bar_TS bar) (set_sctx (Some (p, st)) s)
      else s
  | None => s
  end.

Definition observe (bar : Bar) (s : Session) : Session :=
  match lc_ObserveBar cfg with Some f => set_sworld (f bar (se_world s)) s | None => s end.

(** The work of one bar, its timestamp accepted. *)
Definition barWork (bar : Bar) : eff Session unit :=
  _ <-! eff_modify (fun s => heartbeat bar (observe bar (count_session 0 1 0 (set_ts (bar_TS bar) true s)))) ;;
  onBarLoop (baseStrategies cfg) 0 bar.

(** ** The flush of a timestamp (session.go: flushTimestamp, emitHealth) *)

Definition emitHealth (asOf : time) : eff Session unit :=
  match lc_Gate cfg, lc_PostTimestamp cfg with
  | Some gate, None =>
      let nav := lc_StartingBalance cfg in
      let snap := NewPortfolioSnapshot nav nav 0 0 ∅ ∅ in
      onSink (EmitHealth _ (sinkOf cfg) (mkHealthRecord asOf (HealthSnapshot gate (SnapshotFromDomain snap))))
  | _, _ => eff_ret tt
  end.

Definition post (asOf : time) : eff Session unit :=
  match lc_PostTimestamp cfg with
  | Some f => fun s => onWorld (f asOf (se_states s)) s
  | None => eff_ret tt
  end.

(** The evaluators of the strategies, with their states. *)
Fixpoint emitSignals (strategies : list LiveStrategy) (states : list St) (asOf : time) : eff Session unit :=
  match strategies, states with
  | l :: strategies, x :: states =>
      _ <-! match ls_EvaluateSignal l with
            | Some eval =>
                _ <-! onSink (EmitSignal _ (sinkOf cfg) (mkSignalRecord (strategyID l) asOf (eval asOf x))) ;;
                eff_modify (count_session 1 0 0)
            | None => eff_ret tt
            end ;;
      emitSignals strategies states asOf
  | _, _ => eff_ret tt
  end.

Fixpoint emitEach {A} (emit : A -> eff K unit) (recs : list A) : eff Session unit :=
  match recs with
  | [] => eff_ret tt
  | rec :: recs => _ <-! onSink (emit rec) ;; emitEach emit recs
  end.

Definition emitIntents : eff Session unit :=
  fun s =>
    match se_exec s with
    | None => (s, Ok tt)
    | Some x =>
        let '(intents, x) := drainPending x in
        let s := set_sexec (Some x) s in
        match EmitIntent _ (sinkOf cfg) with
        | Some emit => emitEach emit intents s
        | None => (s, Ok tt)
        end
    end.

Definition stateRecords (strategies : list LiveStrategy) (states : list St) (asOf : time) : list StateRecord :=
  omap (fun '(l, x) => option_map (fun f => mkStateRecord (strategyID l) asOf (f x)) (ls_StateSummary l)) (zip strategies states).

Definition emitStates (asOf : time) : eff Session unit :=
  fun s =>
    match EmitState _ (sinkOf cfg) with
    | Some emit => emitEach emit (stateRecords (liveStrategies cfg) (se_states s) asOf) s
    | None => (s, Ok tt)
    end.

(** [EmitGate()], true without a gate. *)
Definition emitting (s : Session) : Session * bool :=
  match lc_EmitGate cfg with
  | Some gate => let '(w, b) := gate (se_world s) in (set_sworld w s, b)
  | None => (s, true)
  end.

(** What a timestamp emits, halted or not. *)
Definition suppressed (asOf : time) : eff Session unit :=
  _ <-! eff_modify (fun s =>
          let s := count_session 0 0 1 s in
          set_sexec (option_map (fun x => snd (drainPending x)) (se_exec s)) s) ;;
  _ <-! emitHealth asOf ;;
  post asOf.

Definition emission (asOf : time) : eff Session unit :=
  _ <-! (fun s => emitSignals (liveStrategies cfg) (se_states s) asOf s) ;;
  _ <-! emitIntents ;;
  _ <-! emitStates asOf ;;
  _ <-! emitHealth asOf ;;
  post asOf.

Definition flushTimestamp : eff Session unit :=
  fun s =>
    if negb (se_haveTS s) then (s, Ok tt)
    else
      let asOf := se_curTS s in
      let '(s, emit) := emitting s in
      (_ <-! (if emit then emission asOf else suppressed asOf) ;;
       eff_modify (fun s => set_ts (se_curTS s) false s)) s.

Definition onBar (bar : Bar) : eff Session unit :=
  fun s =>
    if nonUTC (bar_TS bar) then (s, Err ErrInvalidArgument)
    else
      (_ <-! (if se_haveTS s && Before (se_curTS s) (bar_TS bar) then flushTimestamp else eff_ret tt) ;;
       fun s =>
         if se_haveTS s && Before (bar_TS bar) (se_curTS s) then (s, Err ErrTimeReversal)
         else barWork bar s) s.

(** ** Replay and streaming *)

Fixpoint replayLoop (bars : list Bar) : eff Session unit :=
  match bars with
  | [] => eff_ret tt
  | b :: bars => _ <-! onBar b ;; replayLoop bars
  end.

Definition Replay (bars : list Bar) : eff Session unit := _ <-! replayLoop bars ;; flushTimestamp.

(** The handler of bar events: it schedules nothing. *)
Definition Session_handleBar : Handler (St := Session) :=
  fun s ev =>
    match ev with
    | BarEvent bar => let '(s, r) := onBar bar s in HDone s (match r with Ok _ => None | Err e => Some e end)
    | _ => HDone s (Some (ErrOther "livengine: KindBar handler"))
    end.

Definition streamError (en : streamEnd) : option error :=
  match en with
  | StreamDone => None
  | StreamCancelled => Some ErrCanceled
  | StreamFailed (StreamHandlerError e) => Some e
  | StreamFailed StreamReversal => Some ErrTimeReversal
  | StreamFailed _ => Some (ErrOther "stream: no handler registered")
  end.

(** [RunStream] over the bars a feed delivers ([Open] may fail).  The handler
    schedules no events, so one look at the queue drains it after each bar. *)
Definition Session_RunStream (wall : nat -> time) (ctxErr : nat -> bool) (mode : StreamClockMode) (vc : option time)
    (feed : res (list Bar)) (s : Session) : option (Session * res unit) :=
  match feed with
  | Err e => Some (s, Err e)
  | Ok bars =>
      '(_, s, _, en) ← RunStream wall 1 ctxErr 0 (Register noHandlers KindBar Session_handleBar) (NewStreamLoop mode vc) s
                          (map BarEvent bars);
      Some (match streamError en with Some e => (s, Err e) | None => flushTimestamp s end)
  end.
End Run.
End Defs.

(** ** The trade session (livetrade/session.go)

    The durable store of the strategy states is an interface: what a session
    relies on is that a load returns what was last saved under the id. *)

Class StateStore (S : Type) : Type := {
  SaveState : string -> string -> eff S unit;
  LoadState : string -> S -> res (option string)
}.

Class StateStoreLaws (S : Type) `{StateStore S} : Prop := {
  load_saved id text st st' : SaveState id text st = (st', Ok tt) -> LoadState id st' = Ok (Some text);
  load_other id id' text st st' : SaveState id text st = (st', Ok tt) -> id' <> id -> LoadState id' st' = LoadState id' st
}.

(** The upsert store: one row per strategy. *)
#[export] Instance memStore : StateStore (gmap string string) := {
  SaveState := fun id text => eff_modify (insert id text);
  LoadState := fun id m => Ok (m !! id)
}.

#[export] Instance memStore_laws : StateStoreLaws (gmap string string).
Proof.
  split.
  - intros id text st st'. cbn. intros [= <-]. by rewrite lookup_insert_eq.
  - intros id id' text st st'. cbn. intros [= <-] Hne. by rewrite lookup_insert_ne.
Qed.

Section Trade.
Context {P St K H S : Type} `{StateStore S}.
Context (venue : list PlaceOrderRequest -> PlaceOrderRequest -> list (OrderUpdate * time) * res string).
(** The host clock, by the number of reads made. *)
Context (clock : nat -> time).

Record TradeWorld : Type := mkTradeWorld {
  tw_gated : GatedSubmitter;
  tw_store : option S;
  tw_health : H;
  tw_reads : nat
}.

Definition set_gated (g : GatedSubmitter) (w : TradeWorld) : TradeWorld := mkTradeWorld g (tw_store w) (tw_health w) (tw_reads w).
Definition set_store (st : option S) (w : TradeWorld) : TradeWorld := mkTradeWorld (tw_gated w) st (tw_health w) (tw_reads w).
Definition set_health (h : H) (w : TradeWorld) : TradeWorld := mkTradeWorld (tw_gated w) (tw_store w) h (tw_reads w).

Definition onGated {A} (m : eff GatedSubmitter A) : eff TradeWorld A :=
  fun w => let '(g, r) := m (tw_gated w) in (set_gated g w, r).

#[export] Instance tradeSubmitter : OrderSubmitter TradeWorld := {
  sub_Market := fun id symbol side qty reason ts => onGated (Gated_SubmitMarket venue id symbol side qty reason ts);
  sub_Signal := fun id symbol side oside qty reason ts => onGated (Gated_SubmitMarketSignal venue id symbol side oside qty reason ts);
  sub_Net := fun symbol w => Gated_NetPosition (tw_gated w) symbol
}.

(** [cfg.Account.ObserveBar]; the executor settles into the same account. *)
Definition tradeObserve (bar : Bar) (w : TradeWorld) : TradeWorld :=
  let g := tw_gated w in
  set_gated (set_gexec (withBook (gs_exec g) (ObserveBar bar (gs_book g))) g) w.

(** [PersistStrategyState] over the strategies that can persist. *)
Fixpoint persistLoop (strategies : list (LiveStrategy (P := P) (St := St))) (states : list St) : eff S unit :=
  match strategies, states with
  | l :: strategies, x :: states =>
      _ <-! match ls_Persist l with
            | Some (dict, _) => text <-! eff_lift (dict x) ;; SaveState (strategyID l) text
            | None => eff_ret tt
            end ;;
      persistLoop strategies states
  | _, _ => eff_ret tt
  end.

Definition PersistStrategyState (strategies : list (LiveStrategy (P := P) (St := St))) (states : list St) : eff TradeWorld unit :=
  fun w =>
    match tw_store w with
    | None => (w, Ok tt)
    | Some st => let '(st, r) := persistLoop strategies states st in (set_store (Some st) w, r)
    end.

(** [RestoreStrategyState]: the states and the ids that were restored.  An error
    aborts the start of the session. *)
Fixpoint restoreLoop (strategies : list (LiveStrategy (P := P) (St := St))) (st : S) (states : list St) : res (list St * gset string) :=
  match strategies, states with
  | l :: strategies, x :: states =>
      here <-? match ls_Persist l with
               | Some (_, load) =>
                   saved <-? LoadState (strategyID l) st ;;
                   match saved with
                   | Some text => if String.eqb text "" then Ok (x, ∅) else x <-? load text x ;; Ok (x, {[strategyID l]})
                   | None => Ok (x, ∅)
                   end
               | None => Ok (x, ∅)
               end ;;
      rest <-? restoreLoop strategies st states ;;
      Ok (fst here :: fst rest, snd here ∪ snd rest)
  | _, _ => Ok (states, ∅)
  end.

Definition RestoreStrategyState (strategies : list (LiveStrategy (P := P) (St := St))) (w : TradeWorld) (states : list St)
    : res (list St * gset string) :=
  match tw_store w with None => Ok (states, ∅) | Some st => restoreLoop strategies st states end.

(** The post-timestamp hook: halt evaluation, telemetry, strategy states. *)
Definition Trade_postTimestamp (healthSink : option (LiveSnapshot -> eff H unit))
    (strategies : list (LiveStrategy (P := P) (St := St))) (asOf : time) (states : list St) : eff TradeWorld unit :=
  fun w =>
    let '(g, r) := postTimestamp (clock (tw_reads w)) asOf (tw_gated w) in
    let w := mkTradeWorld g (tw_store w) (tw_health w) (Datatypes.S (tw_reads w)) in
    match r with
    | Err e => (w, Err e)
    | Ok snap =>
        (_ <-! match healthSink with
               | Some emit => fun w => let '(h, r) := emit snap (tw_health w) in (set_health h w, r)
               | None => eff_ret tt
               end ;;
         PersistStrategyState strategies states) w
    end.

Definition navOrDefault (nav : Money) : Money := if 0 <? nav then nav else 1000000000.

(** The live-session configuration of [NewTradeSession]; [tc] carries what the
    caller chose for strategies, context, warm-up, sink and emit gate. *)
Definition tradeConfig (tc : SessionConfig (P := P) (St := St) (W := TradeWorld) (K := K))
    (healthSink : option (LiveSnapshot -> eff H unit)) (nav : Money) : SessionConfig :=
  mkSessionConfig ExecAuto (lc_Strategies tc) (lc_Gate tc) (lc_Context tc) (lc_SPYSymbol tc) (lc_Warmup tc)
    (lc_WarmupSymbols tc) (lc_WarmupBatch tc) (navOrDefault nav) (lc_Sink tc) (lc_EmitGate tc) (Some tradeSubmitter)
    (Some (Trade_postTimestamp healthSink (liveStrategies tc))) (Some tradeObserve) (lc_Equity tc).

(** [TradeSession.Prime]: restore, then warm up the strategies left cold. *)
Definition Trade_Prime (cfg : SessionConfig (P := P) (St := St) (W := TradeWorld) (K := K)) : eff (Session (W := TradeWorld) (K := K)) unit :=
  fun s =>
    match RestoreStrategyState (liveStrategies cfg) (se_world s) (se_states s) with
    | Err e => (s, Err e)
    | Ok (states, restored) => PrimeExcept cfg restored (set_sstates states s)
    end.
End Trade.

(** ** Frames

    [frames R m]: whatever [m] returns, the state after it is related to the one
    before by [R].  The hint database [frame] closes the cases of a composed
    operation. *)

Create HintDb frame.

Definition frames {S A} (R : relation S) (m : eff S A) : Prop := forall s, R s (m s).1.

Lemma frames_bind {S A B} (R : relation S) `{!PreOrder R} (m : eff S A) (k : A -> eff S B) :
  frames R m -> (forall a, frames R (k a)) -> frames R (eff_bind m k).
Proof.
  intros Hm Hk s. unfold eff_bind. specialize (Hm s). destruct (m s) as [s1 [a|e]]; cbn in *; [|done].
  etransitivity; [exact Hm|apply Hk].
Qed.

Lemma frames_ret {S A} (R : relation S) `{!PreOrder R} (a : A) : frames R (eff_ret a).
Proof. intros s. reflexivity. Qed.

Lemma frames_modify {S} (R : relation S) f : (forall s, R s (f s)) -> frames R (eff_modify f).
Proof. intros H s. apply H. Qed.

#[export] Hint Resolve frames_bind frames_ret : frame.

Section Session.
Context {P St W K : Type}.
Context (cfg : SessionConfig (P := P) (St := St) (W := W) (K := K)).
Abbreviation Sess := (Session (St := St) (W := W) (K := K)).

(** Operations that leave the timestamp alone, or the strategies and their context. *)
Definition sameTS (s s' : Sess) : Prop := se_curTS s' = se_curTS s /\ se_haveTS s' = se_haveTS s.
Definition sameStrategies (s s' : Sess) : Prop := se_ctx s' = se_ctx s /\ se_states s' = se_states s.

#[local] Instance sameTS_pre : PreOrder sameTS.
Proof. split; [by intros s|intros a b c [H1 H2] [H3 H4]; split; congruence]. Qed.
#[local] Instance sameStrategies_pre : PreOrder sameStrategies.
Proof. split; [by intros s|intros a b c [H1 H2] [H3 H4]; split; congruence]. Qed.

Lemma onSink_frames {A} (R : relation Sess) (m : eff K A) : (forall k s, R s (set_sink k s)) -> frames R (onSink m).
Proof. intros H s. unfold onSink. destruct (m (se_sink s)). apply H. Qed.
Lemma onWorld_frames {A} (R : relation Sess) (m : eff W A) : (forall w s, R s (set_sworld w s)) -> frames R (onWorld m).
Proof. intros H s. unfold onWorld. destruct (m (se_world s)). apply H. Qed.

Section Emission.
Context (R : relation Sess) `{!PreOrder R}.
Context (Hsink : forall k s, R s (set_sink k s)) (Hworld : forall w s, R s (set_sworld w s)).
Context (Hexec : forall x s, R s (set_sexec x s)) (Hcount : forall a b c s, R s (count_session a b c s)).

Lemma emitHealth_frames asOf : frames R (emitHealth cfg asOf).
Proof. unfold emitHealth. destruct (lc_Gate cfg), (lc_PostTimestamp cfg); auto using onSink_frames with frame. Qed.

Lemma post_frames asOf : frames R (post cfg asOf).
Proof.
  unfold post. destruct (lc_PostTimestamp cfg) as [f|]; [|auto with frame].
  intros s. by apply (onWorld_frames R (f asOf (se_states s))).
Qed.

Lemma emitSignals_frames asOf strategies : forall states, frames R (emitSignals cfg strategies states asOf).
Proof.
  induction strategies as [|l strategies IH]; intros [|x states]; cbn [emitSignals]; auto with frame.
  apply frames_bind; [done| |done]. destruct (ls_EvaluateSignal l); auto 6 using onSink_frames, frames_modify with frame.
Qed.

Lemma emitEach_frames {A} (emit : A -> eff K unit) recs : frames R (emitEach emit recs).
Proof. induction recs as [|r recs IH]; cbn [emitEach]; auto using onSink_frames with frame. Qed.

Lemma emitIntents_frames : frames R (emitIntents cfg).
Proof.
  intros s. unfold emitIntents. destruct (se_exec s) as [x|]; [|reflexivity]. cbn [drainPending].
  destruct (EmitIntent _ _) as [emit|]; [|apply Hexec]. etransitivity; [apply Hexec|apply emitEach_frames].
Qed.

Lemma emitStates_frames asOf : frames R (emitStates cfg asOf).
Proof. intros s. unfold emitStates. destruct (EmitState _ _); [apply emitEach_frames|reflexivity]. Qed.

Lemma emission_frames asOf : frames R (emission cfg asOf).
Proof.
  unfold emission. apply frames_bind; [done|intros s; apply emitSignals_frames|].
  auto using emitIntents_frames, emitStates_frames, emitHealth_frames, post_frames with frame.
Qed.

Lemma suppressed_frames asOf : frames R (suppressed cfg asOf).
Proof.
  unfold suppressed. apply frames_bind; [done| |auto using emitHealth_frames, post_frames with frame].
  apply frames_modify. intros s. etransitivity; [apply (Hcount 0 0 1)|apply Hexec].
Qed.

Lemma emitting_frames s : R s (emitting cfg s).1.
Proof. unfold emitting. destruct (lc_EmitGate cfg) as [g|]; [|reflexivity]. destruct (g (se_world s)). apply Hworld. Qed.
End Emission.

Lemma emission_sameTS asOf (emit : bool) : frames sameTS (if emit then emission cfg asOf else suppressed cfg asOf).
Proof. destruct emit; [apply emission_frames|apply suppressed_frames]; try apply sameTS_pre; done. Qed.

Lemma emission_sameStrategies asOf (emit : bool) : frames sameStrategies (if emit then emission cfg asOf else suppressed cfg asOf).
Proof. destruct emit; [apply emission_frames|apply suppressed_frames]; try apply sameStrategies_pre; done. Qed.

Lemma flush_sameStrategies : frames sameStrategies (flushTimestamp cfg).
Proof.
  intros s. unfold flushTimestamp. destruct (negb _); [reflexivity|].
  pose proof (emitting_frames sameStrategies (fun _ _ => conj eq_refl eq_refl) s) as H.
  destruct (emitting cfg s) as [s1 emit]. cbn [fst] in H.
  etransitivity; [exact H|]. apply frames_bind; [apply sameStrategies_pre|apply emission_sameStrategies|].
  intros _. by apply frames_modify.
Qed.

Lemma flush_ts s s' : flushTimestamp cfg s = (s', Ok tt) -> se_haveTS s' = false /\ (se_haveTS s = true -> se_curTS s' = se_curTS s).
Proof.
  unfold flushTimestamp. destruct (se_haveTS s) eqn:Eh; cbn [negb]; [|intros [= <-]; split; [done|discriminate]].
  pose proof (emitting_frames sameTS (fun _ _ => conj eq_refl eq_refl) s) as H.
  destruct (emitting cfg s) as [s1 emit]. cbn [fst] in H. intros E. apply eff_bind_ok in E as (s2 & [] & Hb & [= <-]).
  pose proof (emission_sameTS (se_curTS s) emit s1) as H2. rewrite Hb in H2. cbn in H2.
  destruct H as [H _], H2 as [H2 _]. split; [done|]. intros _. cbn. congruence.
Qed.

Lemma runOnBar_sameTS p : frames sameTS (runOnBar cfg p).
Proof.
  intros s. unfold runOnBar. destruct (se_exec s) as [x|]; [by destruct (runProg _ _ x)|].
  destruct (lc_Submitter cfg); [|done]. by destruct (runProg _ _ _).
Qed.

Lemma onBarLoop_sameTS bar l : forall i, frames sameTS (onBarLoop cfg l i bar).
Proof.
  induction l as [|st l IH]; intros i s; cbn [onBarLoop]; [done|].
  destruct (se_states s !! i) as [x|]; [|done]. pose proof (runOnBar_sameTS (s_OnBar st x bar) s) as H.
  destruct (runOnBar cfg _ s) as [s1 [[x' [e|]]|e]]; cbn [fst] in H; [exact H| |exact H].
  etransitivity; [exact H|]. etransitivity; [|apply IH]. done.
Qed.

Lemma heartbeat_ts bar s : sameTS s (heartbeat cfg bar s).
Proof.
  unfold heartbeat. destruct (se_ctx s) as [[p st]|]; [|done]. destruct (String.eqb _ _); [|done].
  by destruct (Provider_OnBar p st (bar_TS bar)) as [[p' st'] evs].
Qed.

Lemma observe_ts bar s : sameTS s (observe cfg bar s).
Proof. unfold observe. by destruct (lc_ObserveBar cfg). Qed.

Lemma barWork_ts bar s : se_curTS (barWork cfg bar s).1 = bar_TS bar /\ se_haveTS (barWork cfg bar s).1 = true.
Proof.
  unfold barWork, eff_bind, eff_modify. set (s0 := count_session 0 1 0 (set_ts (bar_TS bar) true s)).
  destruct (onBarLoop_sameTS bar (baseStrategies cfg) 0 (heartbeat cfg bar (observe cfg bar s0))) as [-> ->].
  destruct (heartbeat_ts bar (observe cfg bar s0)) as [-> ->]. by destruct (observe_ts bar s0) as [-> ->].
Qed.

Lemma onBar_ts bar s s' : onBar cfg bar s = (s', Ok tt) -> se_curTS s' = bar_TS bar /\ se_haveTS s' = true.
Proof.
  unfold onBar. destruct (nonUTC _); [done|]. intros E. bind_inv. clear Hb.
  destruct (se_haveTS s0 && _); [done|]. pose proof (barWork_ts bar s0) as H. by rewrite Hk in H.
Qed.

(** ** Streaming and replay *)

(** The session is where the loop's monotonic gate is. *)
Definition inStep (l : StreamLoop) (s : Sess) : Prop :=
  heap (s_queue l) = [] /\ s_closed l = false /\
  (s_haveLast l = true -> se_haveTS s = true /\ se_curTS s = s_lastTs l).

Abbreviation barHandlers := (Register noHandlers KindBar (Session_handleBar cfg)).

(** Dispatch of a bar is [onBar], up to the error of a bar out of time. *)
Lemma dispatch_onBar wall l s b : inStep l s ->
  exists l' d, dispatch wall barHandlers l s (BarEvent b) = Some (l', (onBar cfg b s).1, d) /\
  (d = Dispatched <-> (onBar cfg b s).2 = Ok tt) /\ (d = Dispatched -> inStep l' (onBar cfg b s).1) /\
  (forall e, streamError (StreamFailed d) = Some e -> d <> Dispatched ->
     (onBar cfg b s).2 = Err e \/ (onBar cfg b s).2 = Err ErrInvalidArgument /\ e = ErrTimeReversal).
Proof.
  intros (Hq & Hc & Hl). unfold dispatch. cbn [TsEvent Kind].
  destruct (nonUTC (bar_TS b)) eqn:Hu.
  { eexists _, _. unfold onBar. rewrite Hu. split; [reflexivity|]. split; [split; discriminate|]. split; [discriminate|].
    cbn. intros e [= <-] _. by right. }
  destruct (s_haveLast l && Before (bar_TS b) (s_lastTs l)) eqn:Hb.
  { eexists _, _. apply andb_true_iff in Hb as [Hh Hb]. destruct (Hl Hh) as [H1 H2].
    assert (E : onBar cfg b s = (s, Err ErrTimeReversal)).
    { unfold onBar. rewrite Hu, H1, H2. unfold Before in *. cbn [andb].
      replace (t_ns (s_lastTs l) <? t_ns (bar_TS b)) with false by (symmetry; apply Z.ltb_ge; breflect; lia).
      cbn. by rewrite H1, H2, Hb. }
    rewrite E. split; [reflexivity|]. split; [split; discriminate|]. split; [discriminate|]. cbn. intros e [= <-] _. by left. }
  unfold Register. rewrite decide_True by done. cbn [Session_handleBar]. destruct (onBar cfg b s) as [s' r] eqn:E.
  destruct r as [[]|e]; cbn; eexists _, _; (split; [reflexivity|]); cbn [fst snd].
  - split; [done|]. split; [|by intros e _ []]. intros _. apply onBar_ts in E as [H1 H2].
    split; [by destruct (s_mode l)|]. split; [by destruct (s_mode l)|]. intros _. split; [done|]. by destruct (s_mode l).
  - split; [split; discriminate|]. split; [discriminate|]. intros e' [= <-] _. by left.
Qed.

Lemma drain_empty wall l (s : Sess) ctxErr n : heap (s_queue l) = [] ->
  drainQueue wall 1 ctxErr n barHandlers l s =
    Some (if ctxErr n then (l, s, Datatypes.S n, [], StreamCancelled) else (l, s, Datatypes.S n, [], StreamDone)).
Proof.
  intros Hq. cbn [drainQueue]. destruct (ctxErr n); [done|]. unfold pop. rewrite Hq. cbn. f_equal.
  unfold streamSetQueue. by destruct l.
Qed.

(** A stream over a source: the bars of a prefix went through [onBar]. *)
Inductive streamed (s : Sess) (bars : list Bar) (s' : Sess) : streamEnd -> Prop :=
| streamed_all : replayLoop cfg bars s = (s', Ok tt) -> streamed s bars s' StreamDone
| streamed_cancelled seen rest :
    bars = seen ++ rest -> replayLoop cfg seen s = (s', Ok tt) -> streamed s bars s' StreamCancelled
| streamed_failed d e e' :
    streamError (StreamFailed d) = Some e -> replayLoop cfg bars s = (s', Err e') ->
    e' = e \/ e' = ErrInvalidArgument /\ e = ErrTimeReversal -> streamed s bars s' (StreamFailed d).

Lemma streamed_cons s b s1 bars s' en :
  onBar cfg b s = (s1, Ok tt) -> streamed s1 bars s' en -> streamed s (b :: bars) s' en.
Proof.
  intros E [H|seen rest -> H|d e e' He H Hd]; [apply streamed_all|apply (streamed_cancelled _ _ _ (b :: seen) rest)|
    apply (streamed_failed _ _ _ _ e e')]; try done; cbn [replayLoop]; unfold eff_bind; by rewrite E.
Qed.

Lemma RunStream_streamed wall ctxErr bars : forall n l s, inStep l s ->
  exists l' s' tr en, RunStream wall 1 ctxErr n barHandlers l s (map BarEvent bars) = Some (l', s', tr, en) /\
    streamed s bars s' en /\ (en = StreamCancelled -> exists k, ctxErr k = true).
Proof.
  induction bars as [|b bars IH]; intros n l s Hs; cbn [map RunStream].
  { destruct (ctxErr n) eqn:Ec; eexists _, _, _, _; (split; [reflexivity|]); split;
      [by apply (streamed_cancelled _ _ _ [] [])|by exists n|by apply streamed_all|done]. }
  destruct (ctxErr n) eqn:Ec.
  { eexists _, _, _, _. split; [reflexivity|]. split; [by apply (streamed_cancelled _ _ _ [] (b :: bars))|by exists n]. }
  destruct (dispatch_onBar wall l s b Hs) as (l1 & d & E & Hd & Hi & He). rewrite E. cbn [mbind option_bind].
  destruct (onBar cfg b s) as [s1 r1] eqn:Eb. cbn [fst snd] in *.
  assert (Hcase : d = Dispatched \/ d <> Dispatched) by (destruct d; [by left|by right..]).
  destruct Hcase as [->|Hnd].
  - specialize (Hi eq_refl). rewrite (drain_empty wall l1 s1) by apply Hi. destruct Hd as [Hd _]. rewrite Hd in Eb by done. cbn [mbind option_bind].
    destruct (ctxErr (Datatypes.S n)) eqn:Ec3.
    + cbn. eexists _, _, _, _. split; [reflexivity|]. split.
      * apply (streamed_cancelled _ _ _ [b] bars); [done|]. cbn. unfold eff_bind. by rewrite Eb.
      * by eexists.
    + cbn. destruct (IH (Datatypes.S (Datatypes.S n)) l1 s1 Hi) as (l' & s' & tr & en & -> & H1 & H2). cbn.
      eexists _, _, _, _. split; [reflexivity|]. split; [by apply (streamed_cons s b s1)|done].
  - assert (Hr : exists e', r1 = Err e').
    { destruct r1 as [[]|e']; [|by exists e']. by destruct Hnd; apply Hd. }
    destruct Hr as [e' ->]. assert (Hse : exists e, streamError (StreamFailed d) = Some e) by (destruct d; eauto; done).
    destruct Hse as [e Hse].
    exists (mkStream (s_mode l1) (s_vnow l1) (s_reads l1) (s_queue l1) (s_lastTs l1) (s_haveLast l1) true), s1, [], (StreamFailed d).
    split; [by destruct d|]. split; [|by intros]. apply (streamed_failed _ _ _ _ e e'); [done| |].
    + cbn [replayLoop]. unfold eff_bind. by rewrite Eb.
    + destruct (He e Hse Hnd) as [[= ->]|[[= ->] ->]]; auto.
Qed.

(** C29: streaming is replay: for any strategies, submitter, hooks, sink, clock
    discipline and session, a stream over a feed always ends, and unless it is cancelled it
    leaves exactly the session a batch replay of the same bars leaves, with the same
    result (a bar in another time zone is a time reversal to the stream and an
    invalid argument to the replay).  A cancelled stream leaves the replay of the
    bars delivered before, its last timestamp not flushed. *)
Theorem stream_equals_replay wall ctxErr mode vc bars s :
  exists s' r, Session_RunStream cfg wall ctxErr mode vc (Ok bars) s = Some (s', r) /\
  ((s' = (Replay cfg bars s).1 /\
    (r = (Replay cfg bars s).2 \/ r = Err ErrTimeReversal /\ (Replay cfg bars s).2 = Err ErrInvalidArgument)) \/
   (r = Err ErrCanceled /\ (exists k, ctxErr k = true) /\
    exists seen rest, bars = seen ++ rest /\ replayLoop cfg seen s = (s', Ok tt))).
Proof.
  destruct (RunStream_streamed wall ctxErr bars 0 (NewStreamLoop mode vc) s) as (l' & s' & tr & en & E & Hs & Hc);
    [done|]. unfold Session_RunStream. rewrite E. cbn [mbind option_bind].
  destruct Hs as [H|seen rest -> H|d e e' He H Hd].
  - exists (flushTimestamp cfg s').1, (flushTimestamp cfg s').2. rewrite <- surjective_pairing. split; [done|].
    left. unfold Replay, eff_bind. rewrite H. auto.
  - exists s', (Err ErrCanceled). split; [done|]. right. split; [done|]. split; [|by exists seen, rest]. by apply Hc.
  - exists s', (Err e). split; [by rewrite He|]. left. unfold Replay, eff_bind. rewrite H. cbn.
    destruct Hd as [->|[-> ->]]; auto.
Qed.
End Session.

(** ** What the strategies compute from the bars

    A strategy is blind when its state after a bar does not depend on what the
    submitter answers; [eq] is the equity source. *)

Fixpoint blind {St} (eq : float64) (p : SProg St) (st : St) : Prop :=
  match p with
  | SDone st' _ => st' = st
  | SSubmitMarket _ _ _ _ _ _ k => forall r, blind eq (k r) st
  | SSubmitSignal _ _ _ _ _ _ _ k => forall r, blind eq (k r) st
  | SNetPosition _ k => forall q, blind eq (k q) st
  | SEquityFloat k => blind eq (k eq) st
  end.

Lemma runProg_blind {W St} `{OrderSubmitter W} eq (p : SProg St) st : blind eq p st ->
  forall w, exists w' err, runProg (fun _ => eq) p w = (w', Ok (st, err)).
Proof.
  induction p as [st' r|id y side qty reason ts k IH|id y side oside qty reason ts k IH|y k IH|k IH];
    cbn [blind runProg]; intros Hb w.
  - subst. by eexists _, _.
  - destruct (sub_Market id y side qty reason ts w) as [w1 r]. by apply IH.
  - destruct (sub_Signal id y side oside qty reason ts w) as [w1 r]. by apply IH.
  - by apply IH.
  - by apply IH.
Qed.

Section Consistency.
Context {P St W : Type}.
Context (cfg : SessionConfig (P := P) (St := St) (W := W) (K := MemSink (P := P))).
Abbreviation Sess := (Session (St := St) (W := W) (K := MemSink (P := P))).

(** [steps] are the state functions of the blind strategies. *)
Context (steps : list (St -> Bar -> St)).
Context (Hblind : Forall2 (fun s f => forall x b, blind (lc_Equity cfg) (s_OnBar s x b) (f x b)) (baseStrategies cfg) steps).
Context (Hsink : lc_Sink cfg = Some memSink) (Hemit : lc_EmitGate cfg = None).

Definition strategiesState : Type := option (ContextProvider * SharedContextState) * list St.

(** The context refresh and the bar, on the strategies alone. *)
Definition pureBar (bar : Bar) (c : strategiesState) : strategiesState :=
  let '(ctx, states) :=
    match c with
    | (Some (p, st), states) =>
        if String.eqb (bar_Symbol bar) (spySym cfg) then
          let '(p, st, _) := Provider_OnBar p st (bar_TS bar) in
          (Some (p, st), InjectContextInto (baseStrategies cfg) (bar_TS bar) st states)
        else c
    | (None, _) => c
    end in
  (ctx, zip_with (fun f x => f x bar) steps states).

Definition signalsAt (asOf : time) (states : list St) : list (SignalRecord (P := P)) :=
  omap (fun '(l, x) => option_map (fun eval => mkSignalRecord (strategyID l) asOf (eval asOf x)) (ls_EvaluateSignal l))
    (zip (liveStrategies cfg) states).

(** Whether no later bar of the list has the timestamp [t]. *)
Definition closes (t : time) (rest : list Bar) : bool :=
  match rest with [] => true | b :: _ => Before t (bar_TS b) end.

(** The signals of a list of bars: after the last bar of each timestamp, one
    record per evaluator, on the states all its bars have led to. *)
Fixpoint signalSpec (bars : list Bar) (c : strategiesState) : list SignalRecord :=
  match bars with
  | [] => []
  | b :: rest =>
      let c := pureBar b c in
      (if closes (bar_TS b) rest then signalsAt (bar_TS b) (snd c) else []) ++ signalSpec rest c
  end.

Lemma onBarLoop_blind bar l fs :
  Forall2 (fun s f => forall x b, blind (lc_Equity cfg) (s_OnBar s x b) (f x b)) l fs ->
  forall (done todo : list St) (s s' : Sess), se_states s = done ++ todo -> length todo = length l ->
  onBarLoop cfg l (length done) bar s = (s', Ok tt) ->
  se_states s' = done ++ zip_with (fun f x => f x bar) fs todo /\ se_ctx s' = se_ctx s /\ se_sink s' = se_sink s.
Proof.
  induction 1 as [|st f l fs Hf _ IH]; intros done todo s s' Es Hl E; cbn [onBarLoop] in E.
  { injection E as <-. destruct todo; [|done]. by rewrite Es. }
  destruct todo as [|x todo]; [done|]. rewrite Es, list_lookup_middle in E by done.
  assert (Hrun : exists s1 err, runOnBar cfg (s_OnBar st x bar) s = (s1, Ok (f x bar, err)) /\
            se_states s1 = se_states s /\ se_ctx s1 = se_ctx s /\ se_sink s1 = se_sink s \/
            runOnBar cfg (s_OnBar st x bar) s = (s, Err ErrInvalidArgument)).
  { unfold runOnBar. destruct (se_exec s) as [nx|].
    - destruct (runProg_blind _ _ _ (Hf x bar) nx) as (w' & err & ->). by eexists _, _; left.
    - destruct (lc_Submitter cfg) as [sub|].
      + destruct (runProg_blind _ _ _ (Hf x bar) (se_world s)) as (w' & err & ->). by eexists _, _; left.
      + exists s, None. by right. }
  destruct Hrun as (s1 & err & [(Er & E1 & E2 & E3)|Er]); rewrite Er in E; [|discriminate].
  destruct err; [discriminate|].
  replace (Datatypes.S (length done)) with (length (done ++ [f x bar])) in E by (rewrite length_app; cbn; lia).
  apply (IH (done ++ [f x bar]) todo) in E as (H1 & H2 & H3); [| |by injection Hl].
  - cbn [se_ctx se_sink set_sstates] in *. rewrite H1, H2, H3, E2, E3. by rewrite <- app_assoc.
  - cbn. rewrite E1, Es. rewrite <- (Nat.add_0_r (length done)), insert_app_r, <- app_assoc. done.
Qed.

Lemma barWork_blind bar (s s' : Sess) : length (se_states s) = length steps -> barWork cfg bar s = (s', Ok tt) ->
  (se_ctx s', se_states s') = pureBar bar (se_ctx s, se_states s) /\ se_sink s' = se_sink s.
Proof.
  intros Hl. unfold barWork, eff_bind, eff_modify. set (s0 := count_session 0 1 0 (set_ts (bar_TS bar) true s)).
  pose proof (Forall2_length Hblind) as Hlen.
  assert (H0 : se_states (observe cfg bar s0) = se_states s /\ se_ctx (observe cfg bar s0) = se_ctx s /\
               se_sink (observe cfg bar s0) = se_sink s)
    by (unfold observe; destruct (lc_ObserveBar cfg); done).
  destruct H0 as (E1 & E2 & E3). set (s1 := observe cfg bar s0) in *. intros E.
  assert (Hh : length (se_states (heartbeat cfg bar s1)) = length (baseStrategies cfg) /\ se_sink (heartbeat cfg bar s1) = se_sink s).
  { unfold heartbeat. rewrite E2. destruct (se_ctx s) as [[p st]|]; [|split; congruence].
    destruct (String.eqb _ _); [|split; congruence]. destruct (Provider_OnBar p st (bar_TS bar)) as [[p' st'] ev]. cbn.
    unfold InjectContextInto. rewrite length_zip_with. split; [|done]. rewrite E1. lia. }
  destruct Hh as [Hh1 Hh2].
  destruct (onBarLoop_blind bar _ _ Hblind [] (se_states (heartbeat cfg bar s1)) _ _ eq_refl Hh1 E) as (H1 & H2 & H3).
  split; [|congruence]. rewrite H1, H2. cbn [app]. unfold pureBar, heartbeat. rewrite E2.
  destruct (se_ctx s) as [[p st]|]; [|by rewrite E1, E2].
  destruct (String.eqb _ _); [|by rewrite E1, E2]. destruct (Provider_OnBar p st (bar_TS bar)) as [[p' st'] ev]. cbn. by rewrite E1.
Qed.

Abbreviation signals s := (Signals (se_sink s)).

Lemma emitSignals_mem asOf l : forall states (s s' : Sess),
  emitSignals cfg l states asOf s = (s', Ok tt) ->
  signals s' = signals s ++
    omap (fun '(l, x) => option_map (fun eval => mkSignalRecord (strategyID l) asOf (eval asOf x)) (ls_EvaluateSignal l)) (zip l states).
Proof.
  induction l as [|a l IH]; intros [|x states] s s' E; cbn [emitSignals] in E;
    try (injection E as <-; by rewrite app_nil_r).
  apply eff_bind_ok in E as (s1 & [] & E1 & E2). apply IH in E2. rewrite E2. cbn [zip zip_with omap list_omap].
  destruct (ls_EvaluateSignal a) as [eval|]; cbn [option_map].
  - unfold sinkOf in E1. rewrite Hsink in E1. cbn in E1. injection E1 as <-. cbn. by rewrite <- app_assoc.
  - by injection E1 as <-.
Qed.

Lemma emitEach_mem (recs : list IntentRecord) : forall s : Sess,
  emitEach (fun rec => eff_modify (fun k => mkMemSink (Signals k) (Health k) (Intents k ++ [rec]))) recs s =
  (set_sink (mkMemSink (Signals (se_sink s)) (Health (se_sink s)) (Intents (se_sink s) ++ recs)) s, Ok tt).
Proof.
  induction recs as [|r recs IH]; intros s; cbn [emitEach].
  - destruct s as [a b [k1 k2 k3] d e f g h i j]. unfold eff_ret, set_sink. cbn. by rewrite app_nil_r.
  - unfold eff_bind, onSink, eff_modify. rewrite IH. cbn. by rewrite <- app_assoc.
Qed.

(** A flush after [emitSignals] adds intents and health records only. *)
Lemma emission_mem asOf (s s' : Sess) : emission cfg asOf s = (s', Ok tt) ->
  signals s' = signals s ++ signalsAt asOf (se_states s).
Proof.
  unfold emission. intros E. apply eff_bind_ok in E as (s1 & [] & E1 & E). apply emitSignals_mem in E1.
  apply eff_bind_ok in E as (s2 & [] & E2 & E). apply eff_bind_ok in E as (s3 & [] & E3 & E).
  apply eff_bind_ok in E as (s4 & [] & E4 & E5).
  assert (H2 : signals s2 = signals s1).
  { unfold emitIntents in E2. destruct (se_exec s1) as [x|]; [|by injection E2 as <-]. cbn [drainPending] in E2.
    unfold sinkOf in E2. rewrite Hsink in E2. cbn [default from_option id EmitIntent memSink] in E2. rewrite emitEach_mem in E2. by injection E2 as <-. }
  assert (H3 : s3 = s2) by (unfold emitStates, sinkOf in E3; rewrite Hsink in E3; cbn in E3; congruence).
  assert (H4 : signals s4 = signals s3).
  { unfold emitHealth, sinkOf in E4. rewrite Hsink in E4.
    destruct (lc_Gate cfg), (lc_PostTimestamp cfg); cbn in E4; by injection E4 as <-. }
  assert (H5 : signals s' = signals s4).
  { unfold post in E5. destruct (lc_PostTimestamp cfg) as [f|]; [|by injection E5 as <-].
    unfold onWorld in E5. destruct (f asOf (se_states s4) (se_world s4)). by injection E5 as <-. }
  unfold signalsAt. congruence.
Qed.

Lemma flush_mem (s s' : Sess) : flushTimestamp cfg s = (s', Ok tt) ->
  signals s' = signals s ++ (if se_haveTS s then signalsAt (se_curTS s) (se_states s) else []).
Proof.
  unfold flushTimestamp, emitting. rewrite Hemit. destruct (se_haveTS s); cbn [negb];
    [|intros [= <-]; by rewrite app_nil_r].
  intros E. apply eff_bind_ok in E as (s2 & [] & E1 & [= <-]). by apply emission_mem in E1.
Qed.

Lemma replay_mem bars : forall s s1 s' : Sess, length (se_states s) = length steps ->
  replayLoop cfg bars s = (s1, Ok tt) -> flushTimestamp cfg s1 = (s', Ok tt) ->
  signals s' = signals s ++
    (if se_haveTS s && closes (se_curTS s) bars then signalsAt (se_curTS s) (se_states s) else []) ++
    signalSpec bars (se_ctx s, se_states s) /\
  (se_ctx s', se_states s') = foldl (fun c b => pureBar b c) (se_ctx s, se_states s) bars.
Proof.
  induction bars as [|b bars IH]; intros s s1 s' Hl E Ef; cbn [replayLoop] in E.
  { injection E as <-. destruct (flush_sameStrategies cfg s) as [H1 H2]. rewrite Ef in H1, H2. cbn in H1, H2.
    apply flush_mem in Ef. cbn. rewrite H1, H2, Ef, app_nil_r, andb_true_r. done. }
  apply eff_bind_ok in E as (s2 & [] & E1 & E2). pose proof (onBar_ts cfg b s s2 E1) as [T1 T2].
  unfold onBar in E1. destruct (nonUTC (bar_TS b)); [discriminate|]. apply eff_bind_ok in E1 as (s3 & [] & E3 & E1).
  assert (H3 : signals s3 = signals s ++ (if se_haveTS s && Before (se_curTS s) (bar_TS b) then signalsAt (se_curTS s) (se_states s) else [])
               /\ se_ctx s3 = se_ctx s /\ se_states s3 = se_states s).
  { destruct (se_haveTS s && _) eqn:Eb; [|injection E3 as <-; by rewrite app_nil_r].
    destruct (flush_sameStrategies cfg s) as [H1 H2]. rewrite E3 in H1, H2. apply andb_true_iff in Eb as [Eb _].
    apply flush_mem in E3. rewrite Eb in E3. done. }
  destruct H3 as (H3 & H4 & H5). destruct (se_haveTS s3 && _); [discriminate|].
  apply barWork_blind in E1 as [H6 H7]; [|by rewrite H5].
  assert (Hl2 : length (se_states s2) = length steps).
  { rewrite H4, H5 in H6. change (length (snd (se_ctx s2, se_states s2)) = length steps). rewrite H6. unfold pureBar.
    pose proof (Forall2_length Hblind) as Hlen.
    destruct (se_ctx s) as [[p st]|]; [destruct (String.eqb _ _); [destruct (Provider_OnBar p st (bar_TS b)) as [[p' st'] ev]|]|];
      cbn; rewrite length_zip_with; try unfold InjectContextInto; try rewrite length_zip_with; lia. }
  destruct (IH s2 s1 s' Hl2 E2 Ef) as [G1 G2]. rewrite T1, T2, H7, H3, H6, H4, H5 in G1. rewrite H6, H4, H5 in G2.
  split; [|exact G2]. rewrite G1. cbn [andb signalSpec closes]. rewrite <- !app_assoc. repeat f_equal.
  by rewrite <- H5, <- H4, <- H6.
Qed.
End Consistency.

(** What a session signals is a function of the bars: for strategies that do not
    look at the submitter's answers, in any mode and with any submitter, account and
    hooks, a successful replay (and so a stream) leaves exactly the specified signals, one per
    evaluator and timestamp on the states after all bars of that timestamp, and
    the strategies in the states the bars alone determine.  Signal mode and
    trading sessions therefore signal the same. *)
Theorem signals_determined_by_bars {P St W : Type} (cfg : SessionConfig (P := P) (St := St) (W := W) (K := MemSink (P := P)))
    (steps : list (St -> Bar -> St)) bars (s s' : Session)
    (Hblind : Forall2 (fun st f => forall x b, blind (lc_Equity cfg) (s_OnBar st x b) (f x b)) (baseStrategies cfg) steps)
    (Hsink : lc_Sink cfg = Some memSink) (Hemit : lc_EmitGate cfg = None)
    (Hstates : length (se_states s) = length steps) (Hfresh : se_haveTS s = false)
    (Hrun : Replay cfg bars s = (s', Ok tt)) :
  Signals (se_sink s') = Signals (se_sink s) ++ signalSpec cfg steps bars (se_ctx s, se_states s) /\
  (se_ctx s', se_states s') = foldl (fun c b => pureBar cfg steps b c) (se_ctx s, se_states s) bars.
Proof.
  apply eff_bind_ok in Hrun as (s1 & [] & E1 & E2).
  destruct (replay_mem cfg steps Hblind Hsink Hemit bars s s1 s' Hstates E1 E2) as [H1 H2]. by rewrite Hfresh in H1.
Qed.

(** ** The trade session as a sequence of gate operations *)

Section TradePaths.
Context {P St K H S : Type} `{StateStore S}.
Context (venue : list PlaceOrderRequest -> PlaceOrderRequest -> list (OrderUpdate * time) * res string) (clock : nat -> time).
Abbreviation TW := (TradeWorld (H := H) (S := S)).
Context (tc : SessionConfig (P := P) (St := St) (W := TW) (K := K)) (healthSink : option (LiveSnapshot -> eff H unit)) (nav : Money).
Abbreviation cfg := (tradeConfig venue clock tc healthSink nav).
Abbreviation Sess := (Session (St := St) (W := TW) (K := K)).

(** The gate went from one state to the other by operations other than [Resume]. *)
Definition gatePath (g g' : GatedSubmitter) : Prop :=
  exists ops, Forall (fun o => isResume o = false) ops /\ g' = runGate venue ops g.

#[local] Instance gatePath_pre : PreOrder gatePath.
Proof.
  split; [by exists []|]. intros a b c (l1 & H1 & ->) (l2 & H2 & ->). exists (l1 ++ l2). split; [by apply Forall_app|].
  unfold runGate. by rewrite fold_left_app.
Qed.

Lemma gatePath_op o g : isResume o = false -> gatePath g (runGateOp venue o g).
Proof. intros Ho. exists [o]. by repeat constructor. Qed.

Definition worldPath (w w' : TW) : Prop := gatePath (tw_gated w) (tw_gated w').
#[local] Instance worldPath_pre : PreOrder worldPath.
Proof. split; [intros w; unfold worldPath; reflexivity|]. intros a b c H1 H2. unfold worldPath in *. by transitivity (tw_gated b). Qed.

(** What reads the halt latch before an emission leaves the gate alone. *)
Context (Hgate : forall f w, lc_EmitGate tc = Some f -> tw_gated (fst (f w)) = tw_gated w).

(** Sessions that trade have no signal-mode executor. *)
Definition sessPath (s s' : Sess) : Prop :=
  se_exec s = None -> se_exec s' = None /\ worldPath (se_world s) (se_world s').
#[local] Instance sessPath_pre : PreOrder sessPath.
Proof.
  split; [intros s Hx; by split; [|reflexivity]|]. intros a b c H1 H2 Hx. destruct (H1 Hx) as [Hb P1].
  destruct (H2 Hb) as [Hc P2]. split; [done|]. by transitivity (se_world b).
Qed.

Lemma sessPath_same (f : Sess -> Sess) s :
  se_world (f s) = se_world s -> (se_exec s = None -> se_exec (f s) = None) -> sessPath s (f s).
Proof. intros Hw He Hx. rewrite Hw. split; [auto|reflexivity]. Qed.

Lemma runProg_path eq (p : SProg St) : frames worldPath (runProg (H := tradeSubmitter venue) eq p).
Proof.
  induction p as [st r|id y side qty reason ts k IH|id y side oside qty reason ts k IH|y k IH|k IH];
    intros w; cbn [runProg]; [reflexivity| | |apply IH|apply IH].
  - cbn [sub_Market sub_Signal tradeSubmitter]. unfold onGated. destruct (Gated_SubmitMarket venue id y side qty reason ts (tw_gated w)) as [g r] eqn:E.
    transitivity (set_gated g w); [|apply IH].
    pose proof (gatePath_op (GMarket id y side qty reason ts) (tw_gated w) eq_refl) as Hp. cbn [runGateOp] in Hp. by rewrite E in Hp.
  - cbn [sub_Market sub_Signal tradeSubmitter]. unfold onGated. destruct (Gated_SubmitMarketSignal venue id y side oside qty reason ts (tw_gated w)) as [g r] eqn:E.
    transitivity (set_gated g w); [|apply IH].
    pose proof (gatePath_op (GSignal id y side oside qty reason ts) (tw_gated w) eq_refl) as Hp. cbn [runGateOp] in Hp. by rewrite E in Hp.
Qed.

Lemma postHook_path asOf states : frames worldPath (Trade_postTimestamp clock healthSink (liveStrategies tc) asOf states).
Proof.
  intros w. unfold Trade_postTimestamp, postTimestamp.
  pose proof (gatePath_op (GEvaluate (clock (tw_reads w))) (tw_gated w) eq_refl) as Hp. cbn [runGateOp] in Hp.
  destruct (EvaluateDailyLossHalt (clock (tw_reads w)) (tw_gated w)) as [g [la hb]]. cbn [fst] in Hp.
  set (w1 := mkTradeWorld g (tw_store w) (tw_health w) (Datatypes.S (tw_reads w))).
  transitivity w1; [exact Hp|]. destruct (MarkedSnapshot (gs_nav g) (gs_book g)) as [snap|e]; [|reflexivity].
  apply (frames_bind worldPath).
  - destruct healthSink as [emit|]; [|apply frames_ret, worldPath_pre]. intros w'. destruct (emit _ (tw_health w')).
    unfold worldPath. reflexivity.
  - intros _ w'. unfold PersistStrategyState. destruct (tw_store w') as [st|]; [|reflexivity].
    destruct (persistLoop _ _ st). unfold worldPath. reflexivity.
Qed.

Lemma onBarLoop_path bar l : forall i, frames sessPath (onBarLoop cfg l i bar).
Proof.
  induction l as [|st l IH]; intros i s; cbn [onBarLoop]; [reflexivity|].
  destruct (se_states s !! i) as [x|]; [|reflexivity]. intros Hx.
  unfold runOnBar. rewrite Hx. cbn [lc_Submitter tradeConfig].
  pose proof (runProg_path (fun _ => lc_Equity cfg) (s_OnBar st x bar) (se_world s)) as Hp.
  destruct (runProg _ _ (se_world s)) as [w [[x' [e|]]|e]]; cbn [fst] in Hp; [by split| |by split].
  destruct (IH (Datatypes.S i) (set_sstates (<[i:=x']> (se_states (set_sworld w s))) (set_sworld w s)) Hx) as [H1 H2].
  split; [exact H1|]. by etransitivity.
Qed.

Lemma post_path asOf : frames sessPath (post cfg asOf).
Proof.
  unfold post. cbn [lc_PostTimestamp tradeConfig]. intros s0 Hx. unfold onWorld.
  pose proof (postHook_path asOf (se_states s0) (se_world s0)) as Hp.
  by destruct (Trade_postTimestamp _ _ _ _ _ (se_world s0)) as [w r].
Qed.

Lemma emission_path asOf (emit : bool) : frames sessPath (if emit then emission cfg asOf else suppressed cfg asOf).
Proof.
  assert (Hheal : frames sessPath (emitHealth cfg asOf))
    by (apply emitHealth_frames; [apply sessPath_pre|intros k s0; by apply sessPath_same]).
  destruct emit.
  - unfold emission. repeat (apply (frames_bind sessPath); [|intros []]); [| | |exact Hheal|apply post_path].
    + intros s0. apply emitSignals_frames; [apply sessPath_pre|..]; intros; by apply sessPath_same.
    + intros s0 Hx. unfold emitIntents. rewrite Hx. by split; [|reflexivity].
    + apply emitStates_frames; [apply sessPath_pre|..]; intros; by apply sessPath_same.
  - unfold suppressed. repeat (apply (frames_bind sessPath); [|intros []]); [|exact Hheal|apply post_path].
    apply frames_modify. intros s0 Hx. cbn. rewrite Hx. split; [done|reflexivity].
Qed.

Lemma emitting_path (s : Sess) : sessPath s (emitting cfg s).1.
Proof.
  unfold emitting. cbn [lc_EmitGate tradeConfig]. destruct (lc_EmitGate tc) as [f|] eqn:Ef; [|reflexivity].
  specialize (Hgate f (se_world s) eq_refl). destruct (f (se_world s)) as [w b]. cbn in *. intros Hx. split; [done|].
  unfold worldPath. cbn. by rewrite Hgate.
Qed.

Lemma flush_path : frames sessPath (flushTimestamp cfg).
Proof.
  intros s. unfold flushTimestamp. destruct (negb _); [reflexivity|]. pose proof (emitting_path s) as He.
  destruct (emitting cfg s) as [s1 emit]. cbn [fst] in He. etransitivity; [exact He|].
  apply (frames_bind sessPath); [apply emission_path|intros _ s2; by apply sessPath_same].
Qed.

Lemma barWork_path bar : frames sessPath (barWork cfg bar).
Proof.
  unfold barWork. apply (frames_bind sessPath); [|intros _; apply onBarLoop_path].
  apply frames_modify. intros s Hx.
  set (s1 := count_session 0 1 0 (set_ts (bar_TS bar) true s)).
  assert (E : se_world (heartbeat cfg bar (observe cfg bar s1)) = tradeObserve bar (se_world s) /\
              se_exec (heartbeat cfg bar (observe cfg bar s1)) = None).
  { unfold observe. cbn [lc_ObserveBar tradeConfig]. unfold heartbeat. cbn [se_ctx set_sworld].
    destruct (se_ctx s1) as [[p st]|]; [|done]. destruct (String.eqb _ _); [|done].
    by destruct (Provider_OnBar p st (bar_TS bar)) as [[p' st'] ev]. }
  destruct E as [-> ->]. split; [done|]. exact (gatePath_op (GBar bar) (tw_gated (se_world s)) eq_refl).
Qed.

Lemma onBar_path bar : frames sessPath (onBar cfg bar).
Proof.
  intros s. unfold onBar. destruct (nonUTC _); [reflexivity|]. apply (frames_bind sessPath).
  - destruct (se_haveTS s && _); [apply flush_path|apply frames_ret, sessPath_pre].
  - intros _ s1. destruct (se_haveTS s1 && _); [reflexivity|apply barWork_path].
Qed.

Lemma Replay_path bars : frames sessPath (Replay cfg bars).
Proof.
  apply (frames_bind sessPath); [|intros _; apply flush_path].
  induction bars as [|b bars IH]; cbn [replayLoop]; [apply frames_ret, sessPath_pre|].
  apply (frames_bind sessPath); [apply onBar_path|done].
Qed.
End TradePaths.

(** A halted trading session opens nothing: for any strategies and bars, once
    the halt is latched the executor ends as after a sequence of gate calls none
    of which opens a position or lifts the halt, and the halt is still the one
    that was latched. *)
Theorem halted_session_opens_nothing {P St K H S : Type} `{StateStore S} venue clock
    (tc : SessionConfig (P := P) (St := St) (W := TradeWorld (H := H) (S := S)) (K := K)) healthSink nav bars (s : Session)
    (Hgate : forall f w, lc_EmitGate tc = Some f -> tw_gated (fst (f w)) = tw_gated w)
    (Hauto : se_exec s = None) (Hhalt : latched (tw_gated (se_world s)) = true) :
  let g := tw_gated (se_world s) in
  let g' := tw_gated (se_world (Replay (tradeConfig venue clock tc healthSink nav) bars s).1) in
  gs_halt g' = gs_halt g /\
  exists ops, Forall (fun o => isOpening o = false /\ isResume o = false) ops /\ gs_exec g' = gs_exec (runGate venue ops g).
Proof.
  cbv zeta. destruct (Replay_path venue clock tc healthSink nav Hgate bars s Hauto) as [_ (ops & Hr & ->)].
  destruct (latched_run venue ops (tw_gated (se_world s)) (tw_gated (se_world s)) Hr Hhalt) as [[H1 _] H2]; [reflexivity|].
  split; [exact H2|]. eexists. split; [|symmetry; exact H1].
  apply List.Forall_forall. intros o Ho. apply filter_In in Ho as [Ho Hn]. split; [by destruct (isOpening o)|].
  by apply (proj1 (List.Forall_forall _ _) Hr).
Qed.

(** ** Crash recovery of the strategies *)

Section Recovery.
Context {P St : Type}.
Abbreviation LS := (LiveStrategy (P := P) (St := St)).

(** [StatePersister]: a state is restored in full from what was saved of it. *)
Definition persists (l : LS) : Prop :=
  match ls_Persist l with
  | Some (dict, load) => forall x x0 text, dict x = Ok text -> text <> "" /\ load text x0 = Ok x
  | None => True
  end.

Definition isPersister (l : LS) : bool := match ls_Persist l with Some _ => true | None => false end.
Definition persisterIDs (ls : list LS) : list string := map strategyID (List.filter isPersister ls).

Section Store.
Context {S : Type} `{StateStoreLaws S}.

Lemma persistLoop_saved ls : forall states st st', length states = length ls -> base.NoDup (persisterIDs ls) ->
  persistLoop ls states st = (st', Ok tt) ->
  (forall id, id ∉ persisterIDs ls -> LoadState id st' = LoadState id st) /\
  Forall2 (fun l x => forall dict load, ls_Persist l = Some (dict, load) ->
             exists text, dict x = Ok text /\ LoadState (strategyID l) st' = Ok (Some text)) ls states.
Proof.
  induction ls as [|l ls IH]; intros [|x states] st st' Hl Hd E; try discriminate; cbn [persistLoop] in E.
  { injection E as <-. by split; [|constructor]. }
  apply eff_bind_ok in E as (st1 & [] & E1 & E2). injection Hl as Hl.
  assert (Ei : persisterIDs (l :: ls) = (if isPersister l then [strategyID l] else []) ++ persisterIDs ls)
    by (unfold persisterIDs; cbn [List.filter]; by destruct (isPersister l)).
  rewrite Ei in *. unfold isPersister in *. destruct (ls_Persist l) as [[dict load]|] eqn:Ep; cbn [app] in *.
  - apply list.NoDup_cons in Hd as [Hn Hd]. apply eff_bind_ok in E1 as (st2 & text & E0 & E1).
    pose proof (f_equal fst E0) as Es. pose proof (f_equal snd E0) as Ht. cbn in Es, Ht. subst st2.
    destruct (IH states st1 st' Hl Hd E2) as [H1 H2]. split.
    + intros id Hid. apply not_elem_of_cons in Hid as [Hne Hid]. rewrite (H1 id Hid). by apply (load_other (strategyID l) id text).
    + constructor; [|done]. intros dict' load' Ep'. rewrite Ep in Ep'. injection Ep' as <- <-. exists text. split; [done|].
      rewrite (H1 _ Hn). by apply (load_saved (strategyID l) text st).
  - injection E1 as <-. destruct (IH states st st' Hl Hd E2) as [H1 H2]. split; [done|]. constructor; [|done]. congruence.
Qed.

(** The states of a restart: the saved ones where the strategy persists. *)
Definition resumed (ls : list LS) (states states0 : list St) : list St :=
  zip_with (fun l '(x, x0) => if isPersister l then x else x0) ls (zip states states0).

Lemma restoreLoop_resumes ls : forall states states0 st, Forall persists ls ->
  length states0 = length ls ->
  Forall2 (fun l x => forall dict load, ls_Persist l = Some (dict, load) ->
             exists text, dict x = Ok text /\ LoadState (strategyID l) st = Ok (Some text)) ls states ->
  restoreLoop ls st states0 = Ok (resumed ls states states0, list_to_set (persisterIDs ls)).
Proof.
  induction ls as [|l ls IH]; intros states states0 st Hp Hl Hs; inversion Hs as [|? x ? states' Hx Hs']; subst.
  { by destruct states0. }
  destruct states0 as [|x0 states0]; [discriminate|]. apply List.Forall_cons_iff in Hp as [Hpl Hp]. injection Hl as Hl.
  cbn [restoreLoop]. rewrite (IH states' states0 st Hp Hl Hs').
  assert (Ei : list_to_set (persisterIDs (l :: ls)) =
               (if isPersister l then {[strategyID l]} else ∅) ∪ list_to_set (C := gset string) (persisterIDs ls))
    by (unfold persisterIDs; cbn [List.filter]; destruct (isPersister l); set_solver).
  rewrite Ei. unfold resumed, persists in *. cbn [zip zip_with]. unfold isPersister.
  destruct (ls_Persist l) as [[dict load]|]; cbn.
  - destruct (Hx dict load eq_refl) as (text & Ht & ->). cbn. destruct (Hpl x x0 text Ht) as [Hne Hload].
    rewrite (proj2 (String.eqb_neq text "") Hne), Hload. cbn. done.
  - by rewrite union_empty_l_L.
Qed.
End Store.
End Recovery.

Lemma warmLoop_skips {St} (l : list (Strategy St)) skip syms barsFor : forall states states', 
  warmLoop l skip syms barsFor states = Ok states' ->
  forall i a, l !! i = Some a -> s_ID a ∈ skip -> states' !! i = states !! i.
Proof.
  induction l as [|a l IH]; intros [|x states] states' E i b Hi Hs; cbn [warmLoop] in E; try (by injection E as <-).
  apply res_bind_ok in E as (x' & E1 & E). apply res_bind_ok in E as (rest & E2 & [= <-]).
  destruct i as [|i]; cbn in Hi |- *.
  - injection Hi as ->. rewrite bool_decide_true in E1 by done. by injection E1 as <-.
  - by apply (IH states rest E2 i b).
Qed.

Lemma PrimeExcept_skips {P St W K} (cfg : SessionConfig (P := P) (St := St) (W := W) (K := K)) skip (s : Session) i l :
  length (se_states s) = length (baseStrategies cfg) -> baseStrategies cfg !! i = Some l -> s_ID l ∈ skip ->
  se_states (PrimeExcept cfg skip s).1 !! i = se_states s !! i.
Proof.
  intros Hlen Hi Hs. unfold PrimeExcept.
  set (sb := PrimeWarmupBatchExcept (baseStrategies cfg) (lc_WarmupBatch cfg) skip (se_states s)).
  assert (Hb : sb !! i = se_states s !! i).
  { unfold sb, PrimeWarmupBatchExcept. destruct (_ =? 0)%nat; [done|]. rewrite lookup_zip_with, Hi. cbn.
    destruct (se_states s !! i) as [x|]; [|done]. cbn. by rewrite bool_decide_true. }
  destruct (lc_Warmup cfg) as [warm|]; [|done]. destruct (_ =? 0)%nat eqn:En; [done|]. cbn [se_states set_sstates].
  destruct (PrimeWarmupExcept _ _ _ _ _) as [states|e] eqn:E; [|done]. cbn. rewrite <- Hb. unfold PrimeWarmupExcept in E. rewrite En in E.
  by apply (warmLoop_skips _ _ _ _ _ _ E i l).
Qed.

(** Crash recovery restores the strategies: a session started on the store that a
    timestamp's persist left, by the same strategies in any state, has after
    [Prime] every strategy that persists exactly in the state it had, whatever the
    warm-up history and whether or not the warm-up of the others succeeds. *)
Theorem recovery_resumes_strategies {P St K H S : Type} `{StateStoreLaws S}
    (cfg : SessionConfig (P := P) (St := St) (W := TradeWorld (H := H) (S := S)) (K := K)) states
    (w w' : TradeWorld (H := H) (S := S)) st (s : Session (St := St) (W := TradeWorld (H := H) (S := S)) (K := K))
    (Hfull : Forall persists (liveStrategies cfg)) (Hids : base.NoDup (persisterIDs (liveStrategies cfg)))
    (Hlen : length states = length (liveStrategies cfg)) (Hlen' : length (se_states s) = length (liveStrategies cfg))
    (Hstore : tw_store w = Some st) (Hpersist : PersistStrategyState (liveStrategies cfg) states w = (w', Ok tt))
    (Hsame : tw_store (se_world s) = tw_store w') :
  forall i l, liveStrategies cfg !! i = Some l -> isPersister l = true ->
  se_states (Trade_Prime cfg s).1 !! i = states !! i.
Proof.
  unfold PersistStrategyState in Hpersist. rewrite Hstore in Hpersist.
  destruct (persistLoop (liveStrategies cfg) states st) as [st' r] eqn:E. injection Hpersist as <- ->.
  destruct (persistLoop_saved _ _ _ _ Hlen Hids E) as [_ Hsaved].
  intros i l Hi Hl. unfold Trade_Prime, RestoreStrategyState. rewrite Hsame. cbn [tw_store set_store].
  rewrite (restoreLoop_resumes _ states (se_states s) st' Hfull Hlen' Hsaved).
  assert (Hr : length (resumed (liveStrategies cfg) states (se_states s)) = length (liveStrategies cfg))
    by (unfold resumed; rewrite !length_zip_with; lia).
  rewrite (PrimeExcept_skips cfg _ _ i (ls_strategy l)).
  - cbn. unfold resumed. rewrite lookup_zip_with, Hi. cbn. rewrite lookup_zip_with.
    destruct (lookup_lt_is_Some_2 states i) as [x Hx]; [apply lookup_lt_Some in Hi; lia|].
    destruct (lookup_lt_is_Some_2 (se_states s) i) as [x0 Hx0]; [apply lookup_lt_Some in Hi; lia|].
    rewrite Hx, Hx0. cbn. by rewrite Hl.
  - cbn. rewrite Hr. unfold baseStrategies. by rewrite length_map.
  - unfold baseStrategies. by rewrite list_lookup_fmap, Hi.
  - apply elem_of_list_to_set. unfold persisterIDs. apply list_elem_of_fmap. exists l. split; [done|].
    apply list_elem_of_In, filter_In. split; [|done]. by apply list_elem_of_In, list_elem_of_lookup; exists i.
Qed.

(** ** The dispatch order of a bar feed (feed.go: BatchBars) *)

Fixpoint tagBars (reg : nat) (instruments : list InstrumentBars) : list (Bar * nat) :=
  match instruments with
  | [] => []
  | ib :: instruments => map (fun b => (b, reg)) (ib_Bars ib) ++ tagBars (Datatypes.S reg) instruments
  end.

Definition taggedLess (a b : Bar * nat) : bool :=
  if negb (t_ns (bar_TS a.1) =? t_ns (bar_TS b.1)) then Before (bar_TS a.1) (bar_TS b.1) else (a.2 <? b.2)%nat.

(** [sort.SliceStable]: behind every element that is not greater. *)
Fixpoint insertTagged (x : Bar * nat) (l : list (Bar * nat)) : list (Bar * nat) :=
  match l with
  | [] => [x]
  | y :: l' => if taggedLess x y then x :: l else y :: insertTagged x l'
  end.

Definition BatchBars (instruments : list InstrumentBars) : list Bar :=
  map fst (fold_left (fun acc x => insertTagged x acc) (tagBars 0 instruments) []).

Definition barNs (b : Bar) : Z := t_ns (bar_TS b).

(** Registration order is the order of the list, so the tie-break never acts. *)
Lemma insertTagged_insertBy x l : Forall (fun y => (y.2 <= x.2)%nat) l ->
  map fst (insertTagged x l) = insertBy barNs x.1 (map fst l) /\ Forall (fun y => (y.2 <= x.2)%nat) (insertTagged x l).
Proof.
  induction 1 as [|y l Hy Hl [IH1 IH2]]; cbn [insertTagged map insertBy]; [by repeat constructor|].
  assert (E : taggedLess x y = (barNs x.1 <? barNs y.1)).
  { unfold taggedLess, Before, barNs. destruct (Z.eqb_spec (t_ns (bar_TS x.1)) (t_ns (bar_TS y.1))) as [->|]; cbn; [|done].
    rewrite Z.ltb_irrefl. apply Nat.ltb_ge. lia. }
  rewrite E. destruct (barNs x.1 <? barNs y.1); cbn [map]; [by repeat constructor|]. rewrite IH1. by repeat constructor.
Qed.

Lemma sortTagged l : forall acc, StronglySorted (fun a b => (a.2 <= b.2)%nat) l ->
  Forall (fun x => Forall (fun y => (y.2 <= x.2)%nat) acc) l ->
  map fst (fold_left (fun acc x => insertTagged x acc) l acc) =
  fold_left (fun acc x => insertBy barNs x acc) (map fst l) (map fst acc).
Proof.
  induction l as [|x l IH]; intros acc Hs Hf; [done|]. inversion Hs as [|? ? Hs' Hx]; subst.
  apply List.Forall_cons_iff in Hf as [Hfx Hf]. destruct (insertTagged_insertBy x acc Hfx) as [E1 E2].
  cbn [fold_left map]. rewrite IH; [by rewrite E1|done|]. rewrite List.Forall_forall in Hx |- *. intros y Hy.
  eapply List.Forall_impl; [|exact E2]. cbn. intros a Ha. specialize (Hx y Hy). lia.
Qed.

Lemma tagBars_sorted ins : forall reg, StronglySorted (fun a b => (a.2 <= b.2)%nat) (tagBars reg ins) /\
  Forall (fun x => (reg <= x.2)%nat) (tagBars reg ins).
Proof.
  induction ins as [|ib ins IH]; intros reg; cbn [tagBars]; [by repeat constructor|].
  destruct (IH (Datatypes.S reg)) as [H1 H2]. induction (ib_Bars ib) as [|b bs IHb]; cbn [map app].
  - split; [done|]. eapply List.Forall_impl; [|exact H2]. cbn. lia.
  - destruct IHb as [G1 G2]. split; by constructor.
Qed.

Lemma tagBars_fst ins : forall reg, map fst (tagBars reg ins) = barsOf ins.
Proof.
  induction ins as [|ib ins IH]; intros reg; cbn [tagBars]; [done|]. rewrite map_app, IH, map_map, map_id. reflexivity.
Qed.

Lemma BatchBars_sort ins : BatchBars ins = sortBy barNs (barsOf ins).
Proof.
  unfold BatchBars, sortBy. rewrite sortTagged; [by rewrite tagBars_fst|apply tagBars_sorted|].
  apply List.Forall_forall. intros x _. constructor.
Qed.

(** A stable sort of queue items seeded in order is sorted in queue order. *)
Lemma insertBy_before x l : StronglySorted before l -> Forall (fun y => prio y = prio x /\ seq y < seq x) l ->
  StronglySorted before (insertBy tsNs x l).
Proof.
  induction 1 as [|y l Hs IH Hy]; intros Hf; cbn [insertBy]; [by repeat constructor|].
  apply List.Forall_cons_iff in Hf as [[Hp Hq] Hf]. destruct (tsNs x <? tsNs y) eqn:E; breflect.
  - constructor; [by constructor|]. constructor.
    + unfold before, less. replace (tsNs x =? tsNs y) with false by (symmetry; apply Z.eqb_neq; lia). cbn. by apply Z.ltb_lt.
    + rewrite List.Forall_forall in *. intros z Hz. specialize (Hy z Hz). unfold before, less in *.
      destruct (Z.eqb_spec (tsNs y) (tsNs z)); cbn in Hy; breflect; replace (tsNs x =? tsNs z) with false
        by (symmetry; apply Z.eqb_neq; lia); cbn; apply Z.ltb_lt; lia.
  - constructor; [by apply IH|]. apply List.Forall_forall. intros z Hz. apply insertBy_in in Hz as [->|Hz];
      [|by apply (proj1 (List.Forall_forall _ _) Hy)].
    unfold before, less. rewrite Hp, Z.eqb_refl. destruct (Z.eqb_spec (tsNs y) (tsNs x)); cbn; apply Z.ltb_lt; lia.
Qed.

Lemma seedItems_snoc es e : forall s, seedItems s (es ++ [e]) = seedItems s es ++ [itemFor e (s + Z.of_nat (length es))].
Proof.
  induction es as [|x es IH]; intros s; cbn [seedItems app length]; [by rewrite Z.add_0_r|].
  rewrite IH. by replace (s + 1 + Z.of_nat (length es)) with (s + Z.of_nat (Datatypes.S (length es))) by lia.
Qed.

Lemma seedItems_seq es : forall s, Forall (fun y => seq y < s + Z.of_nat (length es)) (seedItems s es).
Proof.
  induction es as [|x es IH]; intros s; cbn [seedItems length]; [constructor|]. constructor; [cbn; lia|].
  eapply List.Forall_impl; [|apply (IH (s + 1))]. cbn. intros a. lia.
Qed.

Lemma seedItems_prio bars s : Forall (fun y => prio y = Priority KindBar) (seedItems s (map BarEvent bars)).
Proof. revert s. induction bars as [|b bars IH]; intros s; cbn; constructor; [done|apply IH]. Qed.

Lemma sortBy_before bars : StronglySorted before (sortBy tsNs (seedItems 0 (map BarEvent bars))).
Proof.
  induction bars as [|b bars IH] using rev_ind; [constructor|]. rewrite map_app. cbn [map]. rewrite seedItems_snoc, sortBy_snoc.
  apply insertBy_before; [done|]. rewrite sortBy_perm. apply List.Forall_forall. intros y Hy. split.
  - by apply (proj1 (List.Forall_forall _ _) (seedItems_prio bars 0)).
  - pose proof (proj1 (List.Forall_forall _ _) (seedItems_seq (map BarEvent bars) 0) y Hy) as H. done.
Qed.

Definition barOf (e : Event) : option Bar := match e with BarEvent b => Some b | _ => None end.

Definition isBarItem (x : queuedEvent) : bool := match barOf (ev x) with Some _ => true | None => false end.

Lemma seedItems_app es es' : forall s, seedItems s (es ++ es') = seedItems s es ++ seedItems (s + Z.of_nat (length es)) es'.
Proof.
  induction es as [|x es IH]; intros s; cbn [seedItems app length]; [by rewrite Z.add_0_r|].
  rewrite IH. by replace (s + 1 + Z.of_nat (length es)) with (s + Z.of_nat (Datatypes.S (length es))) by lia.
Qed.

Lemma barItems bars times s :
  List.filter isBarItem (seedItems s (map BarEvent bars ++ map SampleEvent times)) = seedItems s (map BarEvent bars).
Proof.
  rewrite seedItems_app, List.filter_app. generalize (s + Z.of_nat (length (map BarEvent bars))). intros s'.
  assert (E2 : List.filter isBarItem (seedItems s' (map SampleEvent times)) = [])
    by (revert s'; induction times as [|t times IH]; intros s'; cbn; [done|apply IH]).
  rewrite E2, app_nil_r. revert s. induction bars as [|b bars IH]; intros s; cbn; [done|]. by rewrite IH.
Qed.

Lemma seedItems_bars bars : Forall (fun b => in64 (barNs b)) bars -> forall s,
  Forall (fun y => exists b, ev y = BarEvent b /\ tsNs y = barNs b) (seedItems s (map BarEvent bars)).
Proof.
  induction 1 as [|b bars Hb _ IH]; intros s; cbn; constructor; [|apply IH].
  exists b. split; [done|]. cbn. unfold UnixNano, UTC. cbn. by rewrite wrap64_id.
Qed.

(** Sorting the items by their key is sorting the bars by their timestamp. *)
Lemma sortBy_items bars : Forall (fun b => in64 (barNs b)) bars ->
  omap (fun x => barOf (ev x)) (sortBy tsNs (seedItems 0 (map BarEvent bars))) = sortBy barNs bars.
Proof.
  induction bars as [|b bars IH] using rev_ind; intros Hr; [done|]. apply Forall_app in Hr as [Hr Hb]. apply List.Forall_inv in Hb.
  rewrite map_app. cbn [map]. rewrite seedItems_snoc, !sortBy_snoc, <- IH by done.
  set (items := sortBy tsNs (seedItems 0 (map BarEvent bars))).
  assert (Hi : Forall (fun y => exists b', ev y = BarEvent b' /\ tsNs y = barNs b') items).
  { unfold items. rewrite sortBy_perm. by apply seedItems_bars. }
  clearbody items. assert (Hk : tsNs (itemFor (BarEvent b) (0 + Z.of_nat (length (map BarEvent bars)))) = barNs b)
    by (cbn; unfold UnixNano, UTC; cbn; by rewrite wrap64_id).
  set (x := itemFor _ _) in *. assert (Ex : barOf (ev x) = Some b) by done. clearbody x.
  induction Hi as [|y items (b' & Ey & Ky) Hi IHi]; cbn; [by rewrite Ex|].
  rewrite Hk, Ky. rewrite Ey. cbn. destruct (barNs b <? barNs b'); cbn; [by rewrite Ex, Ey|]. rewrite Ey. cbn. by rewrite IHi.
Qed.

Lemma seedLoop_pushAll es : forall l l', seedLoop es l = Some (Ok l') -> EventQueue.pushAll (Loop.queue l) es = Some (Loop.queue l').
Proof.
  induction es as [|e es IH]; intros l l' E; cbn [seedLoop EventQueue.pushAll] in *; [by injection E as <-|].
  unfold Schedule in E. destruct (closed l); [discriminate|]. destruct (nonUTC (TsEvent e)); [discriminate|].
  destruct (negb _ && _); [discriminate|]. destruct (push (Loop.queue l) e) as [[s q]|]; cbn in *; [|discriminate].
  by apply IH in E.
Qed.

(** The feed order is the engine order: the bars of the queue the backtest
    engine seeds from the instruments come off it exactly in the order [BatchBars]
    gives a stream or a replay, so both runtimes hand the strategies the same bars
    in the same order. *)
Theorem batch_bars_are_engine_order instruments l
    (Hrange : Forall (fun b => in64 (barNs b)) (barsOf instruments))
    (Hcount : Z.of_nat (length (barsOf instruments) + length (sampleTimes (barsOf instruments))) <= max_uint64)
    (Hseed : seed instruments NewLoop = Some (Ok l)) :
  exists out, drain (length (barsOf instruments) + length (sampleTimes (barsOf instruments))) (Loop.queue l) = Some out /\
    omap barOf out = BatchBars instruments /\ keySorted barNs (BatchBars instruments).
Proof.
  unfold seed in Hseed. apply seedLoop_pushAll in Hseed. set (es := map BarEvent _ ++ map SampleEvent _) in *.
  assert (El : length es = (length (barsOf instruments) + length (sampleTimes (barsOf instruments)))%nat)
    by (unfold es; by rewrite length_app, !length_map).
  rewrite <- El in *. destruct (drain_stable_sort es Hcount) as (q & items & Eq & Ed & Hs & Hp).
  cbn [Loop.queue NewLoop] in Hseed. rewrite Hseed in Eq. injection Eq as ->. exists (map ev items). split; [exact Ed|].
  rewrite BatchBars_sort. split; [|apply sortBy_sorted].
  assert (Hb : List.filter isBarItem items = sortBy tsNs (seedItems 0 (map BarEvent (barsOf instruments)))).
  { apply (StronglySorted_unique_strong before).
    - intros a b _ _ H1 H2. unfold before, less in *. exfalso.
      repeat match goal with H : context [?x =? ?y] |- _ => destruct (Z.eqb_spec x y) end; cbn [negb] in *; breflect; lia.
    - by apply StronglySorted_filter.
    - apply sortBy_before.
    - rewrite sortBy_perm, <- (barItems (barsOf instruments) (sampleTimes (barsOf instruments))). by apply filter_perm. }
  rewrite <- (sortBy_items (barsOf instruments) Hrange), <- Hb. clear. induction items as [|x items IH]; [done|].
  cbn. unfold isBarItem. destruct (barOf (ev x)) eqn:E; cbn; rewrite ?E, IH; done.
Qed.

(** ** Signal mode *)

Section SignalMode.
Context {P St W : Type}.
Context (cfg : SessionConfig (P := P) (St := St) (W := W) (K := MemSink (P := P))).
Abbreviation Sess := (Session (St := St) (W := W) (K := MemSink (P := P))).
Context (Hsink : lc_Sink cfg = Some memSink) (Hemit : lc_EmitGate cfg = None) (Hpost : lc_PostTimestamp cfg = None)
  (Hobs : lc_ObserveBar cfg = None).

(** The would-be orders so far: emitted, then pending. *)
Definition recorded (s : Sess) : list IntentRecord :=
  Intents (se_sink s) ++ match se_exec s with Some x => nx_pending x | None => [] end.

Definition recording (s s' : Sess) : Prop :=
  forall x, se_exec s = Some x -> exists x' recs, se_exec s' = Some x' /\ se_world s' = se_world s /\
    recorded s' = recorded s ++ recs /\ nx_submitted x' = nx_submitted x + Z.of_nat (length recs).

#[local] Instance recording_pre : PreOrder recording.
Proof.
  split.
  - intros s x Hx. exists x, []. rewrite app_nil_r. splits; [done..|cbn; lia].
  - intros a b c H1 H2 x Hx. destruct (H1 x Hx) as (x1 & r1 & E1 & E2 & E3 & E4).
    destruct (H2 x1 E1) as (x2 & r2 & F1 & F2 & F3 & F4). exists x2, (r1 ++ r2). rewrite length_app, F3, E3, <- app_assoc.
    splits; [done|congruence|done|lia].
Qed.

(** Changes that touch neither the executor nor the intents of the sink. *)
Lemma recording_same s s' : se_exec s' = se_exec s -> se_world s' = se_world s -> Intents (se_sink s') = Intents (se_sink s) ->
  recording s s'.
Proof.
  intros E1 E2 E3 x Hx. exists x, []. unfold recorded. rewrite E1, E3, app_nil_r. splits; [done..|cbn; lia].
Qed.

Lemma runProg_noop eq (p : SProg St) : forall x, exists x' recs r, runProg eq p x = (x', r) /\
  nx_pending x' = nx_pending x ++ recs /\ nx_submitted x' = nx_submitted x + Z.of_nat (length recs).
Proof.
  induction p as [st r|id y side qty reason ts k IH|id y side oside qty reason ts k IH|y k IH|k IH]; intros x; cbn [runProg];
    [| | |apply IH|apply IH].
  - eexists x, [], _. rewrite app_nil_r. splits; [done..|cbn; lia].
  - cbn. destruct (IH (Ok ("SIGNAL-" ++ formatSeq (nx_seq x))%string) (mkNoop (wrapu64 (nx_seq x + 1)) (nx_submitted x + 1)
      (nx_pending x ++ [mkIntentRecord id ts y (signalSideOf side) qty]))) as (x' & recs & r & -> & E1 & E2).
    eexists x', (_ :: recs), r. rewrite E1, E2. cbn. rewrite <- app_assoc. splits; [done..|lia].
  - cbn. destruct (IH (Ok (("SIGNAL-" ++ formatSeq (nx_seq x))%string, true)) (mkNoop (wrapu64 (nx_seq x + 1)) (nx_submitted x + 1)
      (nx_pending x ++ [mkIntentRecord id ts y side qty]))) as (x' & recs & r & -> & E1 & E2).
    eexists x', (_ :: recs), r. rewrite E1, E2. cbn. rewrite <- app_assoc. splits; [done..|lia].
Qed.

Lemma onBarLoop_recording bar l : forall i, frames recording (onBarLoop cfg l i bar).
Proof.
  induction l as [|st l IH]; intros i s; cbn [onBarLoop]; [reflexivity|].
  destruct (se_states s !! i) as [x|]; [|reflexivity]. unfold runOnBar. destruct (se_exec s) as [nx|] eqn:Ex.
  - destruct (runProg_noop (fun _ => lc_Equity cfg) (s_OnBar st x bar) nx) as (nx' & recs & r & -> & E1 & E2).
    set (s1 := set_sexec (Some nx') s). assert (H1 : recording s s1).
    { intros y Hy. rewrite Ex in Hy. injection Hy as <-. exists nx', recs. splits; [done..| |done].
      unfold recorded. cbn. rewrite Ex, E1. by rewrite app_assoc. }
    destruct r as [[x' [e|]]|e]; [| |exact H1].
    + etransitivity; [exact H1|]. by apply recording_same.
    + etransitivity; [exact H1|]. etransitivity; [|apply IH]. by apply recording_same.
  - intros y Hy. congruence.
Qed.

Lemma barWork_recording bar : frames recording (barWork cfg bar).
Proof.
  unfold barWork. apply (frames_bind recording); [|intros _; apply onBarLoop_recording]. apply frames_modify. intros s.
  set (s1 := count_session 0 1 0 (set_ts (bar_TS bar) true s)). unfold observe. rewrite Hobs. unfold heartbeat.
  destruct (se_ctx s1) as [[p st]|]; [|by apply recording_same]. destruct (String.eqb _ _); [|by apply recording_same].
  destruct (Provider_OnBar p st (bar_TS bar)) as [[p' st'] ev]. by apply recording_same.
Qed.

Lemma emitSignals_recording asOf l : forall states, frames recording (emitSignals cfg l states asOf).
Proof.
  induction l as [|a l IH]; intros [|x states]; cbn [emitSignals]; try apply frames_ret, recording_pre.
  apply (frames_bind recording); [|intros _; apply IH]. destruct (ls_EvaluateSignal a); [|apply frames_ret, recording_pre].
  apply (frames_bind recording); [|intros _ s; by apply recording_same]. unfold sinkOf. rewrite Hsink. intros s. by apply recording_same.
Qed.

Lemma emitIntents_mem (s : Sess) x : se_exec s = Some x ->
  emitIntents cfg s = (set_sink (mkMemSink (Signals (se_sink s)) (Health (se_sink s)) (Intents (se_sink s) ++ nx_pending x))
                         (set_sexec (Some (mkNoop (nx_seq x) (nx_submitted x) [])) s), Ok tt).
Proof.
  intros Ex. unfold emitIntents. rewrite Ex. cbn [drainPending]. unfold sinkOf. rewrite Hsink.
  cbn [default from_option id EmitIntent memSink]. by rewrite emitEach_mem.
Qed.

Lemma tail_recording asOf : frames (fun s s' => recording s s' /\ se_exec s' = se_exec s)
  (_ <-! emitStates cfg asOf ;; _ <-! emitHealth cfg asOf ;; post cfg asOf).
Proof.
  intros s. unfold eff_bind, emitStates, emitHealth, post, sinkOf. rewrite Hsink, Hpost. cbn.
  destruct (lc_Gate cfg); (split; [by apply recording_same|done]).
Qed.

(** A flush emits everything that was pending. *)
Lemma emission_recording asOf s : recording s (emission cfg asOf s).1 /\
  (forall s' x, emission cfg asOf s = (s', Ok tt) -> se_exec s = Some x -> exists x', se_exec s' = Some x' /\ nx_pending x' = []).
Proof.
  destruct (emission cfg asOf s) as [s' r] eqn:E. unfold emission in E. unfold eff_bind at 1 in E.
  pose proof (emitSignals_recording asOf (liveStrategies cfg) (se_states s) s) as H1.
  destruct (emitSignals cfg (liveStrategies cfg) (se_states s) asOf s) as [s1 [[]|e]]; cbn [fst] in H1 |- *;
    [|injection E as <- <-; split; [exact H1|discriminate]].
  destruct (se_exec s) as [x|] eqn:Ex; [|split; [intros y Hy|]; congruence].
  destruct (H1 x Ex) as (x1 & r1 & E1 & _). unfold eff_bind at 1 in E. rewrite (emitIntents_mem s1 x1 E1) in E.
  set (s2 := set_sink _ _) in E.
  assert (H2 : recording s1 s2).
  { intros y Hy. rewrite E1 in Hy. injection Hy as <-. eexists _, []. splits; [done|done| |cbn; lia].
    unfold recorded. cbn. by rewrite E1, !app_nil_r. }
  pose proof (tail_recording asOf s2) as [H3 H4]. rewrite E in H3, H4. cbn [fst] in H3, H4. split.
  - etransitivity; [exact H1|]. etransitivity; [exact H2|exact H3].
  - intros s'' x' [= -> _] _. rewrite H4. by eexists.
Qed.

Lemma flush_recording s : recording s (flushTimestamp cfg s).1 /\
  (forall s' x, flushTimestamp cfg s = (s', Ok tt) -> se_exec s = Some x -> se_haveTS s = true \/ nx_pending x = [] ->
     exists x', se_exec s' = Some x' /\ nx_pending x' = []).
Proof.
  unfold flushTimestamp, emitting. rewrite Hemit. destruct (se_haveTS s) eqn:Eh; cbn [negb].
  2:{ split; [reflexivity|]. intros s' x [= <-] Hx [|]; [done|]. by exists x. }
  destruct (emission_recording (se_curTS s) s) as [H1 H2]. split.
  - apply (frames_bind recording (emission cfg (se_curTS s))); [|intros _ s2; by apply recording_same].
    intros s0. apply emission_recording.
  - intros s' x E Hx _. apply eff_bind_ok in E as (s1 & [] & E1 & [= <-]). by apply (H2 s1 x).
Qed.

Lemma onBar_recording bar : frames recording (onBar cfg bar).
Proof.
  intros s. unfold onBar. destruct (nonUTC _); [reflexivity|]. apply (frames_bind recording).
  - destruct (se_haveTS s && _); [intros s1; apply flush_recording|apply frames_ret, recording_pre].
  - intros _ s1. destruct (se_haveTS s1 && _); [reflexivity|apply barWork_recording].
Qed.

Lemma replayLoop_recording bars : frames recording (replayLoop cfg bars).
Proof.
  induction bars as [|b bars IH]; cbn [replayLoop]; [apply frames_ret, recording_pre|].
  apply (frames_bind recording); [apply onBar_recording|done].
Qed.

Lemma replayLoop_ts bars : forall s s' : Sess, replayLoop cfg bars s = (s', Ok tt) -> bars <> [] -> se_haveTS s' = true.
Proof.
  induction bars as [|b bars IH]; intros s s' E Hn; [done|]. cbn [replayLoop] in E. apply eff_bind_ok in E as (s1 & [] & E1 & E2).
  destruct bars as [|b' bars]; [|by apply (IH s1)]. injection E2 as <-. by apply (onBar_ts cfg b s).
Qed.
End SignalMode.

(** A signal-mode session places nothing: for any strategies, what the session
    was given (submitter, account, broker) is untouched by a replay whatever its
    result, and after a successful one every order a strategy would have placed,
    and nothing else, has been emitted as an intent and counted. *)
Theorem signal_mode_places_nothing {P St W : Type} (cfg : SessionConfig (P := P) (St := St) (W := W) (K := MemSink (P := P))) w s bars
    (Hsink : lc_Sink cfg = Some memSink) (Hemit : lc_EmitGate cfg = None) (Hpost : lc_PostTimestamp cfg = None)
    (Hobs : lc_ObserveBar cfg = None) (Hexec : lc_Exec cfg = ExecSignal) (Hnew : NewSession cfg w NewMemSink = Ok s) :
  let '(s', r) := Replay cfg bars s in
  lc_Submitter cfg = None /\ se_world s' = w /\
  (r = Ok tt -> exists x, se_exec s' = Some x /\ nx_pending x = [] /\
     Z.of_nat (length (Intents (se_sink s'))) = nx_submitted x).
Proof.
  unfold NewSession in Hnew. rewrite Hexec in Hnew.
  apply res_bind_ok in Hnew as ([] & _ & Hnew). apply res_bind_ok in Hnew as ([] & Hsub & Hnew).
  apply res_bind_ok in Hnew as ([] & _ & Hnew). apply res_bind_ok in Hnew as ([] & _ & Hnew). apply res_bind_ok in Hnew as ([] & _ & Hnew).
  cbn in Hsub. destruct (lc_Submitter cfg); [discriminate|]. cbn in Hnew. injection Hnew as <-. set (s0 := mkSession _ _ _ _ _ _ _ _ _ _).
  unfold Replay, eff_bind. pose proof (replayLoop_recording cfg Hsink Hemit Hpost Hobs bars s0 NewNoopExecutor eq_refl) as H1.
  destruct (replayLoop cfg bars s0) as [s1 [[]|e]] eqn:E1; cbn [fst] in H1; destruct H1 as (x1 & r1 & F1 & F2 & F3 & F4);
    [|by splits].
  destruct (flush_recording cfg Hsink Hemit Hpost s1) as [H2 H3]. destruct (H2 x1 F1) as (x2 & r2 & G1 & G2 & G3 & G4).
  destruct (flushTimestamp cfg s1) as [s' r] eqn:E2. cbn [fst] in *. splits; [done|by rewrite G2, F2|]. intros ->.
  destruct (H3 s' x1 eq_refl F1) as (x' & G5 & G6).
  { destruct bars as [|b bars]; [right; injection E1 as E1; rewrite <- E1 in F1; cbn in F1; injection F1 as F1; by rewrite <- F1|left; by apply (replayLoop_ts cfg (b :: bars) s0)]. }
  exists x'. splits; [done..|]. rewrite G1 in G5. injection G5 as ->.
  unfold recorded in *. rewrite G1, G6, app_nil_r, F3 in G3. cbn in G3, F4. rewrite G3, G4, F4, length_app. lia.
Qed.

(** The backtest engine runs a strategy program as any submitter does. *)
Lemma runStrategy_runProg {St} (su : Setup St) (p : SProg St) e :
  runStrategy su p e = runProg (H := engineSubmitter su) (fun e => EquityFloat (acctOf e)) p e.
Proof.
  revert e. induction p as [st r|id y side qty reason ts k IH|id y side oside qty reason ts k IH|y k IH|k IH]; intros e;
    cbn [runStrategy runProg sub_Market sub_Signal sub_Net engineSubmitter]; [done| | |apply IH|apply IH].
  - destruct (Engine.SubmitMarket su id y side qty reason ts e). apply IH.
  - destruct (Engine.SubmitMarketSignal su id y side oside qty reason ts e). apply IH.
Qed.

(** ** Concrete sessions *)

(** A strategy that counts bars and enters on each of them. *)
Definition demoCounter : LiveStrategy (P := Z) (St := Z) :=
  mkLive (mkStrategy "sepa" (fun n b => SSubmitSignal "sepa" (bar_Symbol b) SideLong OrderSideBuy 10 "entry" (bar_TS b)
                                          (fun _ => SDone (n + 1) None)) None None None None)
    (Some (fun _ n => n)) None None.

Definition demoLiveBar (sym : string) (ns : Z) : Bar :=
  {| bar_Symbol := sym; bar_TS := mkTime ns 0; bar_Open := 4000000; bar_High := 4000000; bar_Low := 4000000;
     bar_Close := 4000000; bar_Volume := 1000 |}.

Definition demoBars : list Bar := [demoLiveBar "SPY" 5; demoLiveBar "QQQ" 5; demoLiveBar "SPY" 7].

Definition demoSignalCfg : SessionConfig (P := Z) (St := Z) (W := unit) (K := MemSink (P := Z)) :=
  mkSessionConfig ExecSignal [Some (demoCounter, 0)] None None "" None [] [] 1000000000 (Some memSink) None None None None (flit 1 1).

Definition demoSignalSession : Session (St := Z) (W := unit) (K := MemSink (P := Z)) :=
  match NewSession demoSignalCfg tt NewMemSink with
  | Ok s => s
  | Err _ => mkSession None tt NewMemSink None [] zeroTime false 0 0 0
  end.

Definition demoSignalRun : Session (St := Z) (W := unit) (K := MemSink (P := Z)) * res unit := Replay demoSignalCfg demoBars demoSignalSession.

Lemma signals_determined_by_bars_witness :
  Signals (se_sink demoSignalRun.1) =
    [mkSignalRecord "sepa" (mkTime 5 0) 2; mkSignalRecord "sepa" (mkTime 7 0) 3] /\
  (se_ctx demoSignalRun.1, se_states demoSignalRun.1) = (None, [3]).
Proof.
  assert (Hb : Forall2 (fun st f => forall x b, blind (lc_Equity demoSignalCfg) (s_OnBar st x b) (f x b))
                 (baseStrategies demoSignalCfg) [fun n _ => n + 1]).
  { constructor; [|constructor]. intros x b. cbn. intros r. reflexivity. }
  assert (E : Replay demoSignalCfg demoBars demoSignalSession = (demoSignalRun.1, Ok tt)) by (vm_compute; reflexivity).
  assert (Hl : length (se_states demoSignalSession) = 1%nat) by (vm_compute; reflexivity).
  assert (Hf : se_haveTS demoSignalSession = false) by (vm_compute; reflexivity).
  destruct (signals_determined_by_bars demoSignalCfg [fun n _ => n + 1] demoBars demoSignalSession demoSignalRun.1 Hb
    eq_refl eq_refl Hl Hf E) as [H1 H2].
  split; [rewrite H1; vm_compute; reflexivity|rewrite H2; vm_compute; reflexivity].
Defined.

Lemma signal_mode_places_nothing_witness :
  se_world demoSignalRun.1 = tt /\ length (Intents (se_sink demoSignalRun.1)) = 3%nat /\
  exists x, se_exec demoSignalRun.1 = Some x /\ nx_submitted x = 3.
Proof.
  pose proof (signal_mode_places_nothing demoSignalCfg tt demoSignalSession demoBars eq_refl eq_refl eq_refl eq_refl eq_refl
    ltac:(vm_compute; reflexivity)) as H.
  assert (ER : Replay demoSignalCfg demoBars demoSignalSession = demoSignalRun) by (unfold demoSignalRun; reflexivity). rewrite ER in H. clear ER.
  assert (E : snd demoSignalRun = Ok tt) by (vm_compute; reflexivity).
  assert (L : length (Intents (se_sink (fst demoSignalRun))) = 3%nat) by (vm_compute; reflexivity).
  destruct demoSignalRun as [s' r]. cbn [fst snd] in *. destruct H as (_ & _ & H). destruct (H E) as (x & H1 & _ & H2).
  split; [by destruct (se_world s')|]. split; [exact L|]. exists x. split; [exact H1|]. rewrite L in H2. symmetry. exact H2.
Defined.

(** The same strategy trading on a halted gate. *)
Definition demoTradeCfg : SessionConfig (P := Z) (St := Z) (W := TradeWorld (H := unit) (S := gmap string string)) (K := unit) :=
  mkSessionConfig ExecAuto [Some (demoCounter, 0)] None None "" None [] [] 1000000000 None
    (Some (fun w => (w, match gs_halt (tw_gated w) with Some h => Emitting h | None => true end))) None None None (flit 1 1).

Definition demoTradeSession : Session (St := Z) (W := TradeWorld (H := unit) (S := gmap string string)) (K := unit) :=
  mkSession None (mkTradeWorld demoHalted (Some ∅) tt 0) tt None [0] zeroTime false 0 0 0.

Lemma halted_session_opens_nothing_witness :
  let run := Replay (tradeConfig demoVenue (fun _ => demoTs) demoTradeCfg None 1000000000) demoBars demoTradeSession in
  gs_halt (tw_gated (se_world run.1)) = gs_halt demoHalted /\ se_states run.1 = [3] /\
  x_sent (gs_exec (tw_gated (se_world run.1))) = [] /\ snd run = Ok tt.
Proof.
  intros run. destruct (halted_session_opens_nothing demoVenue (fun _ => demoTs) demoTradeCfg None 1000000000 demoBars demoTradeSession)
    as [H _]; [intros f w [= <-]; reflexivity|reflexivity|vm_compute; reflexivity|].
  split; [exact H|]. split; [vm_compute; reflexivity|]. split; vm_compute; reflexivity.
Defined.

(** A persisting strategy whose state is a text. *)
Definition demoPersister : LiveStrategy (P := Z) (St := string) :=
  mkLive (mkStrategy "pairs" (fun x _ => SDone x None) None None None (Some (fun _ _ => "warmed"))) None None
    (Some (fun x => Ok (String "#"%char x), fun text _ => match text with String _ x => Ok x | EmptyString => Err ErrInvalidArgument end)).

Definition demoRecoveryCfg : SessionConfig (P := Z) (St := string) (W := TradeWorld (H := unit) (S := gmap string string)) (K := unit) :=
  mkSessionConfig ExecAuto [Some (demoPersister, "")] None None "" None [] demoBars 1000000000 None None None None None (flit 1 1).

Definition demoStored : TradeWorld (H := unit) (S := gmap string string) :=
  fst (PersistStrategyState (liveStrategies demoRecoveryCfg) ["held"] (mkTradeWorld demoHalted (Some ∅) tt 0)).

Definition demoRestarted : Session (St := string) (W := TradeWorld (H := unit) (S := gmap string string)) (K := unit) :=
  mkSession None demoStored tt None ["cold"] zeroTime false 0 0 0.

Lemma recovery_resumes_strategies_witness :
  se_states (Trade_Prime demoRecoveryCfg demoRestarted).1 !! 0%nat = Some "held" /\
  se_states (Prime demoRecoveryCfg demoRestarted).1 = ["warmed"].
Proof.
  split; [|vm_compute; reflexivity].
  apply (recovery_resumes_strategies demoRecoveryCfg ["held"] (mkTradeWorld demoHalted (Some ∅) tt 0) demoStored ∅ demoRestarted)
    with (l := demoPersister); try reflexivity.
  - constructor; [|constructor]. cbn. intros x x0 text [= <-]. split; [discriminate|reflexivity].
  - apply (bool_decide_unpack _). vm_compute. reflexivity.
Defined.

Definition demoInstruments : list InstrumentBars :=
  [mkInstrument "SPY" [demoLiveBar "SPY" 5; demoLiveBar "SPY" 7]; mkInstrument "QQQ" [demoLiveBar "QQQ" 3; demoLiveBar "QQQ" 5]].

Definition demoSeeded : Loop := match seed demoInstruments NewLoop with Some (Ok l) => l | _ => NewLoop end.

Lemma batch_bars_are_engine_order_witness :
  map bar_Symbol (BatchBars demoInstruments) = ["QQQ"; "SPY"; "QQQ"; "SPY"] /\
  exists out, drain 7 (Loop.queue demoSeeded) = Some out /\ omap barOf out = BatchBars demoInstruments.
Proof.
  split; [vm_compute; reflexivity|].
  destruct (batch_bars_are_engine_order demoInstruments demoSeeded) as (out & H1 & H2 & _).
  - repeat (apply List.Forall_cons; [vm_compute; split; discriminate|]). apply List.Forall_nil.
  - vm_compute. discriminate.
  - vm_compute. reflexivity.
  - exists out. split; [exact H1|exact H2].
Defined.
