(* ===== verification/Jobs.v ===== *)
(** * The durable job queue (src/internal/jobs)

    The table [tms.jobs] and the transactions of queue.go over it: enqueue with
    deduplication, claim, heartbeat, progress, the owner-guarded terminal
    transitions, cancel and the recovery of stale claims, with the worker's
    choice of the final transition (worker.go).  A transaction is atomic: it is
    one function of the table, given the transaction's [now()] and, where the
    statement says [SKIP LOCKED], the rows other transactions hold.  Clients of
    the queue interleave transactions: a run is any sequence of them.  A failed
    database connection aborts a transaction without effect and is not a step.
    JSON columns are opaque text; the audit details, the [created_at] and
    [updated_at] columns and the event timestamps are left out. *)

From stdpp Require Import gmap strings list sorting.
From S2P Require Import Prelude Lists.
Set Default Goal Selector "!".
#[local] Open Scope string_scope.
#[local] Open Scope Z_scope.
#[local] Open Scope list_scope.
#[local] Abbreviation length := List.length.

(** ** job.go *)

Inductive Status : Set := StatusQueued | StatusRunning | StatusSucceeded | StatusFailed | StatusCanceled.

#[export] Instance Status_eq_dec : EqDecision Status.
Proof. solve_decision. Defined.

Definition Status_String (s : Status) : string :=
  match s with
  | StatusQueued => "queued" | StatusRunning => "running" | StatusSucceeded => "succeeded"
  | StatusFailed => "failed" | StatusCanceled => "canceled"
  end.

Definition Terminal (s : Status) : bool :=
  match s with StatusSucceeded | StatusFailed | StatusCanceled => true | _ => false end.

Definition ErrNoJob : error := ErrOther "jobs: no claimable job".
Definition ErrJobNotFound : error := ErrOther "jobs: job not found".
Definition ErrLostClaim : error := ErrOther "jobs: claim lost (job no longer running under this worker)".
Definition ErrNoHandler : error := ErrOther "jobs: no handler registered for kind".

(** Instants and durations are nanoseconds. *)
Record Job : Set := mkJob {
  j_ID : Z;
  j_Kind : string;
  j_Payload : string;
  j_Status : Status;
  j_Priority : Z;
  j_RunAt : Z;
  j_Attempts : Z;
  j_MaxAttempts : Z;
  j_DedupeKey : option string;
  j_ClaimedBy : option string;
  j_ClaimedAt : option Z;
  j_HeartbeatAt : option Z;
  j_StartedAt : option Z;
  j_FinishedAt : option Z;
  j_LastError : option string;
  j_Progress : option string;
  j_CancelRequested : bool;
  j_Result : option string
}.

(** notify.go *)
Record JobEvent : Set := mkJobEvent {
  je_JobID : Z; je_Kind : string; je_Event : string; je_Status : Status; je_Worker : string;
  je_Progress : option string; je_Error : string }.

Record AuditRow : Set := mkAudit { au_actor : string; au_action : string; au_entity : Z }.

Record DB : Set := mkDB {
  d_jobs : gmap Z Job;
  d_nextID : Z;
  d_audit : list AuditRow;
  (** events published after the commits *)
  d_events : list JobEvent
}.

Definition emptyDB : DB := mkDB ∅ 1 [] [].

Record Queue : Type := mkJobQueue { q_notifier : bool; q_backoff : Z -> Z }.

(** ** Constants and helpers *)

Definition second : Z := 1000000000.
Definition maxErrorLen : Z := 8192.
Definition defaultRetryBase : Z := 30 * second.
Definition defaultRetryCap : Z := 900 * second.
Definition dedupeRaces : nat := 3.

(** [for i := 1; i < attempt && d < cap; i++ { d *= 2 }], with one iteration per
    attempt as fuel. *)
Fixpoint backoffLoop (fuel : nat) (i attempt d : Z) : Z :=
  match fuel with
  | O => d
  | S fuel => if (i <? attempt) && (d <? defaultRetryCap) then backoffLoop fuel (i + 1) attempt (wrap64 (d * 2)) else d
  end.

Definition defaultBackoff (attempt : Z) : Z :=
  Z.min (backoffLoop (Z.to_nat attempt) 1 attempt defaultRetryBase) defaultRetryCap.

Definition NewQueue (notifier : bool) : Queue := mkJobQueue notifier defaultBackoff.

Definition newline : string := String "010"%char EmptyString.

Definition truncateErr (msg : string) : string :=
  if maxErrorLen <? Z.of_nat (String.length msg)
  then (String.substring 0 (Z.to_nat maxErrorLen) msg ++ newline ++ "... (truncated)")%string
  else msg.

Definition nonEmpty (s def : string) : string := if String.eqb s "" then def else s.

(** [NULLIF($3, '')] *)
Definition nullIfEmpty (s : string) : option string := if String.eqb s "" then None else Some s.

(** A value to store: nil, already encoded, or the outcome of [json.Marshal]. *)
Inductive Payload : Set := PayloadNil | PayloadRaw (s : string) | PayloadValue (m : option string).

Definition marshalObject (v : Payload) : res string :=
  match v with
  | PayloadNil => Ok "{}"
  | PayloadRaw t => Ok t
  | PayloadValue (Some b) => Ok b
  | PayloadValue None => Err (ErrOther "jobs: marshal payload")
  end.

Definition putJob (j : Job) (d : DB) : DB := mkDB (<[j_ID j := j]> (d_jobs d)) (d_nextID d) (d_audit d) (d_events d).

Definition audit (actor action : string) (jobID : Z) (d : DB) : DB :=
  mkDB (d_jobs d) (d_nextID d) (d_audit d ++ [mkAudit (nonEmpty actor "system") action jobID]) (d_events d).

Definition notify (q : Queue) (ev : JobEvent) (d : DB) : DB :=
  if q_notifier q then mkDB (d_jobs d) (d_nextID d) (d_audit d) (d_events d ++ [ev]) else d.

(** ** The rows the statements write *)

Definition claimRow (now : Z) (worker : string) (j : Job) : Job :=
  mkJob (j_ID j) (j_Kind j) (j_Payload j) StatusRunning (j_Priority j) (j_RunAt j) (j_Attempts j + 1) (j_MaxAttempts j)
    (j_DedupeKey j) (Some worker) (Some now) (Some now) (Some now) (j_FinishedAt j) (j_LastError j) (j_Progress j)
    (j_CancelRequested j) (j_Result j).

Definition heartbeatRow (now : Z) (j : Job) : Job :=
  mkJob (j_ID j) (j_Kind j) (j_Payload j) (j_Status j) (j_Priority j) (j_RunAt j) (j_Attempts j) (j_MaxAttempts j)
    (j_DedupeKey j) (j_ClaimedBy j) (j_ClaimedAt j) (Some now) (j_StartedAt j) (j_FinishedAt j) (j_LastError j) (j_Progress j)
    (j_CancelRequested j) (j_Result j).

Definition progressRow (now : Z) (progress : string) (j : Job) : Job :=
  mkJob (j_ID j) (j_Kind j) (j_Payload j) (j_Status j) (j_Priority j) (j_RunAt j) (j_Attempts j) (j_MaxAttempts j)
    (j_DedupeKey j) (j_ClaimedBy j) (j_ClaimedAt j) (Some now) (j_StartedAt j) (j_FinishedAt j) (j_LastError j) (Some progress)
    (j_CancelRequested j) (j_Result j).

Definition succeedRow (now : Z) (result : string) (j : Job) : Job :=
  mkJob (j_ID j) (j_Kind j) (j_Payload j) StatusSucceeded (j_Priority j) (j_RunAt j) (j_Attempts j) (j_MaxAttempts j)
    (j_DedupeKey j) (j_ClaimedBy j) (j_ClaimedAt j) (j_HeartbeatAt j) (j_StartedAt j) (Some now) (j_LastError j) (j_Progress j)
    (j_CancelRequested j) (Some result).

(** Terminal with a reason: canceled or failed. *)
Definition endRow (status : Status) (now : Z) (reason : option string) (j : Job) : Job :=
  mkJob (j_ID j) (j_Kind j) (j_Payload j) status (j_Priority j) (j_RunAt j) (j_Attempts j) (j_MaxAttempts j)
    (j_DedupeKey j) (j_ClaimedBy j) (j_ClaimedAt j) (j_HeartbeatAt j) (j_StartedAt j) (Some now) reason (j_Progress j)
    (j_CancelRequested j) (j_Result j).

(** Back to the queue, unclaimed. *)
Definition queuedRow (runAt attempts : Z) (reason : option string) (j : Job) : Job :=
  mkJob (j_ID j) (j_Kind j) (j_Payload j) StatusQueued (j_Priority j) runAt attempts (j_MaxAttempts j)
    (j_DedupeKey j) None None None None (j_FinishedAt j) reason (j_Progress j)
    (j_CancelRequested j) (j_Result j).

Definition cancelRequestedRow (j : Job) : Job :=
  mkJob (j_ID j) (j_Kind j) (j_Payload j) (j_Status j) (j_Priority j) (j_RunAt j) (j_Attempts j) (j_MaxAttempts j)
    (j_DedupeKey j) (j_ClaimedBy j) (j_ClaimedAt j) (j_HeartbeatAt j) (j_StartedAt j) (j_FinishedAt j) (j_LastError j) (j_Progress j)
    true (j_Result j).

(** ** Enqueue *)

Record EnqueueParams : Set := mkEnqueue {
  ep_Kind : string; ep_Payload : Payload; ep_DedupeKey : string; ep_Priority : Z; ep_RunAt : option Z;
  ep_MaxAttempts : Z; ep_Actor : string }.

Definition active (j : Job) : bool := match j_Status j with StatusQueued | StatusRunning => true | _ => false end.

Definition hasKey (key : string) (j : Job) : bool :=
  match j_DedupeKey j with Some k => String.eqb k key | None => false end.

(** The rows that collide on the partial unique index. *)
Definition activeWithKey (key : string) (d : DB) : list Job :=
  List.filter (fun j => active j && hasKey key j) (map snd (map_to_list (d_jobs d))).

(** One [INSERT ... ON CONFLICT DO NOTHING] with its audit row; [None] on a conflict. *)
Definition tryInsert (now : Z) (p : EnqueueParams) (payload : string) (runAt : option Z) (maxAttempts : Z)
    (dedupe : option string) : eff DB (option Job) :=
  fun d =>
    if match dedupe with Some k => (0 <? length (activeWithKey k d))%nat | None => false end then (d, Ok None)
    else
      let job := mkJob (d_nextID d) (ep_Kind p) payload StatusQueued (ep_Priority p) (default now runAt) 0 maxAttempts dedupe
                   None None None None None None None false None in
      let d := mkDB (<[j_ID job := job]> (d_jobs d)) (d_nextID d + 1) (d_audit d) (d_events d) in
      (audit (ep_Actor p) "job.enqueued" (j_ID job) d, Ok (Some job)).

(** [ORDER BY id DESC LIMIT 1] *)
Definition latest (l : list Job) : option Job :=
  fold_left (fun best j => match best with
                           | Some b => if j_ID b <? j_ID j then Some j else Some b
                           | None => Some j
                           end) l None.

(** The insert/select races: other clients commit between the statements;
    [others k] is what they do before the [k]-th statement, and [now k] its
    clock. *)
Fixpoint enqueueLoop (q : Queue) (now : nat -> Z) (others : nat -> DB -> DB) (k races : nat) (p : EnqueueParams)
    (payload : string) (runAt : option Z) (maxAttempts : Z) (dedupe : option string) : eff DB (Job * bool) :=
  match races with
  | O => eff_fail (ErrOther "jobs: enqueue: dedupe race not settled")
  | S races =>
      _ <-! eff_modify (others k) ;;
      r <-! tryInsert (now k) p payload runAt maxAttempts dedupe ;;
      match r with
      | Some job =>
          _ <-! eff_modify (notify q (mkJobEvent (j_ID job) (j_Kind job) "enqueued" (j_Status job) "" None "")) ;;
          eff_ret (job, false)
      | None =>
          _ <-! eff_modify (others (S k)) ;;
          d <-! eff_get ;;
          match latest (activeWithKey (ep_DedupeKey p) d) with
          | Some existing => eff_ret (existing, true)
          | None => enqueueLoop q now others (S (S k)) races p payload runAt maxAttempts dedupe
          end
      end
  end.

Definition Enqueue (q : Queue) (now : nat -> Z) (others : nat -> DB -> DB) (p : EnqueueParams) : eff DB (Job * bool) :=
  if String.eqb (ep_Kind p) "" then eff_fail (ErrOther "jobs: enqueue: empty kind")
  else
    payload <-! eff_lift (marshalObject (ep_Payload p)) ;;
    let maxAttempts := if ep_MaxAttempts p <? 1 then 1 else ep_MaxAttempts p in
    let dedupe := nullIfEmpty (ep_DedupeKey p) in
    enqueueLoop q now others 0 dedupeRaces p payload (ep_RunAt p) maxAttempts dedupe.

(** ** Claim, heartbeat, progress *)

(** [ORDER BY priority DESC, run_at, id] *)
Definition claimLe (a b : Job) : Prop :=
  j_Priority b < j_Priority a \/
  (j_Priority a = j_Priority b /\ (j_RunAt a < j_RunAt b \/ (j_RunAt a = j_RunAt b /\ j_ID a <= j_ID b))).

#[export] Instance claimLe_dec : RelDecision claimLe.
Proof. intros a b. unfold claimLe. apply _. Defined.

(** [WHERE status = 'queued' AND run_at <= now() ... SKIP LOCKED] *)
Definition claimable (now : Z) (locked : gset Z) (j : Job) : bool :=
  bool_decide (j_Status j = StatusQueued) && (j_RunAt j <=? now) && negb (bool_decide (j_ID j ∈ locked)).

Definition claimQueue (now : Z) (locked : gset Z) (d : DB) : list Job :=
  merge_sort claimLe (List.filter (claimable now locked) (map snd (map_to_list (d_jobs d)))).

Definition Claim (q : Queue) (now : Z) (locked : gset Z) (workerID : string) : eff DB Job :=
  if String.eqb workerID "" then eff_fail (ErrOther "jobs: claim: empty worker id")
  else
    d <-! eff_get ;;
    match claimQueue now locked d with
    | [] => eff_fail ErrNoJob
    | j :: _ =>
        let job := claimRow now workerID j in
        _ <-! eff_modify (putJob job) ;;
        _ <-! eff_modify (audit workerID "job.claimed" (j_ID job)) ;;
        _ <-! eff_modify (notify q (mkJobEvent (j_ID job) (j_Kind job) "claimed" StatusRunning workerID None "")) ;;
        eff_ret job
    end.

(** [WHERE id = $1 AND claimed_by = $2 AND status = 'running'] *)
Definition owned (jobID : Z) (workerID : string) (d : DB) : option Job :=
  match d_jobs d !! jobID with
  | Some j => if bool_decide (j_ClaimedBy j = Some workerID) && bool_decide (j_Status j = StatusRunning) then Some j else None
  | None => None
  end.

Definition Heartbeat (now jobID : Z) (workerID : string) : eff DB bool :=
  d <-! eff_get ;;
  match owned jobID workerID d with
  | None => eff_fail ErrLostClaim
  | Some j => _ <-! eff_modify (putJob (heartbeatRow now j)) ;; eff_ret (j_CancelRequested j)
  end.

Definition ReportProgress (q : Queue) (now jobID : Z) (workerID : string) (progress : Payload) : eff DB bool :=
  blob <-! eff_lift (marshalObject progress) ;;
  d <-! eff_get ;;
  match owned jobID workerID d with
  | None => eff_fail ErrLostClaim
  | Some j =>
      _ <-! eff_modify (putJob (progressRow now blob j)) ;;
      _ <-! eff_modify (notify q (mkJobEvent jobID (j_Kind j) "progress" StatusRunning workerID (Some blob) "")) ;;
      eff_ret (j_CancelRequested j)
  end.

(** ** Owner-guarded transitions *)

Definition finishOwned (q : Queue) (jobID : Z) (workerID action event : string) (row : Job -> Job) : eff DB Job :=
  d <-! eff_get ;;
  match owned jobID workerID d with
  | None => eff_fail ErrLostClaim
  | Some j =>
      let job := row j in
      _ <-! eff_modify (putJob job) ;;
      _ <-! eff_modify (audit workerID action (j_ID job)) ;;
      _ <-! eff_modify (notify q (mkJobEvent (j_ID job) (j_Kind job) event (j_Status job) workerID None
                                    (default "" (j_LastError job)))) ;;
      eff_ret job
  end.

Definition Succeed (q : Queue) (now jobID : Z) (workerID : string) (result : Payload) : eff DB Job :=
  blob <-! eff_lift (marshalObject result) ;;
  finishOwned q jobID workerID "job.succeeded" "succeeded" (succeedRow now blob).

Definition MarkCanceled (q : Queue) (now jobID : Z) (workerID reason : string) : eff DB Job :=
  finishOwned q jobID workerID "job.canceled" "canceled" (endRow StatusCanceled now (nullIfEmpty (truncateErr reason))).

Definition Release (q : Queue) (now jobID : Z) (workerID reason : string) : eff DB Job :=
  finishOwned q jobID workerID "job.released" "released"
    (fun j => queuedRow now (Z.max (j_Attempts j - 1) 0) (nullIfEmpty (truncateErr reason)) j).

Definition Fail (q : Queue) (now jobID : Z) (workerID jobErr : string) : eff DB Job :=
  let jobErr := truncateErr (nonEmpty jobErr "unknown error") in
  d <-! eff_get ;;
  match owned jobID workerID d with
  | None => eff_fail ErrLostClaim
  | Some j =>
      let '(job, action, event) :=
        if j_Attempts j <? j_MaxAttempts j
        then (queuedRow (now + q_backoff q (j_Attempts j)) (j_Attempts j) (Some jobErr) j, "job.requeued", "requeued")
        else (endRow StatusFailed now (Some jobErr) j, "job.failed", "failed") in
      _ <-! eff_modify (putJob job) ;;
      _ <-! eff_modify (audit workerID action (j_ID job)) ;;
      _ <-! eff_modify (notify q (mkJobEvent (j_ID job) (j_Kind job) event (j_Status job) workerID None jobErr)) ;;
      eff_ret job
  end.

(** ** Cancel *)

Inductive CancelOutcome : Set := CancelDone | CancelRequested | CancelAlreadyTerminal.

Definition Cancel (q : Queue) (now jobID : Z) (actor reason : string) : eff DB (CancelOutcome * Job) :=
  d <-! eff_get ;;
  match d_jobs d !! jobID with
  | None => eff_fail ErrJobNotFound
  | Some j =>
      let reason := truncateErr (if String.eqb reason "" then ("canceled by " ++ nonEmpty actor "system")%string else reason) in
      match j_Status j with
      | StatusQueued =>
          let job := endRow StatusCanceled now (Some reason) j in
          _ <-! eff_modify (putJob job) ;;
          _ <-! eff_modify (audit actor "job.canceled" jobID) ;;
          _ <-! eff_modify (notify q (mkJobEvent (j_ID job) (j_Kind job) "canceled" StatusCanceled "" None reason)) ;;
          eff_ret (CancelDone, job)
      | StatusRunning =>
          let job := cancelRequestedRow j in
          _ <-! eff_modify (putJob job) ;;
          _ <-! (if negb (j_CancelRequested j) then
                   _ <-! eff_modify (audit actor "job.cancel_requested" jobID) ;;
                   eff_modify (notify q (mkJobEvent (j_ID job) (j_Kind job) "cancel_requested" StatusRunning "" None reason))
                 else eff_ret tt) ;;
          eff_ret (CancelRequested, job)
      | _ => eff_ret (CancelAlreadyTerminal, j)
      end
  end.

(** ** Stale-claim recovery *)

Record ReapStats : Set := mkReap { Requeued : Z; Failed : Z; Canceled : Z }.

Definition ReapStats_Total (s : ReapStats) : Z := Requeued s + Failed s + Canceled s.

(** [heartbeat_at < now() - make_interval(secs => $1)]; a NULL stamp compares unknown. *)
Definition stale (now staleAfter : Z) (locked : gset Z) (j : Job) : bool :=
  bool_decide (j_Status j = StatusRunning) &&
  match j_HeartbeatAt j with Some h => h <? now - staleAfter | None => false end &&
  negb (bool_decide (j_ID j ∈ locked)).

(** [ORDER BY heartbeat_at LIMIT $2]; the order of equal stamps is left to the
    database and is fixed here. *)
Definition staleRows (now staleAfter : Z) (locked : gset Z) (limit : nat) (d : DB) : list Job :=
  firstn limit (sortBy (fun j => default 0 (j_HeartbeatAt j))
    (List.filter (stale now staleAfter locked) (map snd (map_to_list (d_jobs d))))).

Definition reapReason (j : Job) : string :=
  ("worker heartbeat expired (claimed_by=" ++ default "unknown" (j_ClaimedBy j) ++ ")")%string.

(** What becomes of one stale row, with its audit action and event. *)
Definition reapRow (now : Z) (j : Job) : Job * string * string * string :=
  let reason := reapReason j in
  if j_CancelRequested j
  then (endRow StatusCanceled now (Some ("cancel requested; " ++ reason)%string) j, "job.canceled", "canceled", reason)
  else if j_MaxAttempts j <=? j_Attempts j
  then (endRow StatusFailed now (Some reason) j, "job.failed", "failed", reason)
  else (queuedRow now (j_Attempts j) (Some reason) j, "job.reaped", "reaped", reason).

Definition countReap (j : Job) (s : ReapStats) : ReapStats :=
  match j_Status j with
  | StatusCanceled => mkReap (Requeued s) (Failed s) (Canceled s + 1)
  | StatusFailed => mkReap (Requeued s) (Failed s + 1) (Canceled s)
  | _ => mkReap (Requeued s + 1) (Failed s) (Canceled s)
  end.

(** The rows are updated in order; the events go out after the commit. *)
Fixpoint reapLoop (now : Z) (found : list Job) (stats : ReapStats) (events : list JobEvent) (d : DB)
    : DB * ReapStats * list JobEvent :=
  match found with
  | [] => (d, stats, events)
  | j :: found =>
      let '(job, action, event, reason) := reapRow now j in
      reapLoop now found (countReap job stats)
        (events ++ [mkJobEvent (j_ID job) (j_Kind job) event (j_Status job) "" None reason])
        (audit "reaper" action (j_ID job) (putJob job d))
  end.

Definition reapBatch (q : Queue) (now staleAfter : Z) (locked : gset Z) (limit : nat) (d : DB) : DB * nat * ReapStats :=
  let found := staleRows now staleAfter locked limit d in
  let '(d, stats, events) := reapLoop now found (mkReap 0 0 0) [] d in
  (fold_left (fun d ev => notify q ev d) events d, length found, stats).

Definition reapBatchSize : nat := 100.

(** Batches until one is short, each a transaction with its own clock and locked
    rows; [None] is a run longer than the fuel. *)
Fixpoint reapBatches (q : Queue) (fuel : nat) (now : nat -> Z) (locked : nat -> gset Z) (k : nat) (staleAfter : Z)
    (stats : ReapStats) (d : DB) : option (DB * ReapStats * nat) :=
  match fuel with
  | O => None
  | S fuel =>
      let '(d, n, b) := reapBatch q (now k) staleAfter (locked k) reapBatchSize d in
      let stats := mkReap (Requeued stats + Requeued b) (Failed stats + Failed b) (Canceled stats + Canceled b) in
      if (n <? reapBatchSize)%nat then Some (d, stats, k)
      else reapBatches q fuel now locked (S k) staleAfter stats d
  end.

(** A full batch takes rows out of the running ones, so the rows of the table
    bound the batches.  The number of the last batch is part of the result. *)
Definition ReapStale (q : Queue) (now : nat -> Z) (locked : nat -> gset Z) (staleAfter : Z) (d : DB)
    : option (DB * res (ReapStats * nat)) :=
  if staleAfter <=? 0 then Some (d, Err (ErrOther "jobs: reap: staleAfter must be > 0"))
  else
    match reapBatches q (S (size (d_jobs d))) now locked 0 staleAfter (mkReap 0 0 0) d with
    | Some (d, stats, k) => Some (d, Ok (stats, k))
    | None => None
    end.

(** ** Reads *)

Definition Get (jobID : Z) (d : DB) : res Job := of_checked (d_jobs d !! jobID) ErrJobNotFound.

Definition List_ (kind : string) (status : option Status) (limit : Z) (d : DB) : list Job :=
  let limit := if limit <=? 0 then 50 else limit in
  let keep j := (String.eqb kind "" || String.eqb (j_Kind j) kind) &&
                match status with None => true | Some s => bool_decide (j_Status j = s) end in
  firstn (Z.to_nat limit) (sortBy (fun j => - j_ID j) (List.filter keep (map snd (map_to_list (d_jobs d))))).

(** ** The worker's final transition (worker.go: finalize) *)

Record execState : Set := mkExecState { lost : bool; cancelRequested : bool; drainExpired : bool }.

(** A handler error: its text, and whether it is a context error. *)
Record handlerError : Set := mkHandlerError { he_Error : string; isContextErr : bool }.

(** [None] when the claim is lost: nothing is written. *)
Definition finalize (q : Queue) (now : Z) (workerID : string) (jobID : Z) (state : execState) (result : Payload)
    (err : option handlerError) : eff DB (option Job) :=
  if lost state then eff_ret None
  else
    job <-! match err with
            | None => Succeed q now jobID workerID result
            | Some err =>
                if cancelRequested state then MarkCanceled q now jobID workerID ("canceled: " ++ he_Error err)%string
                else if drainExpired state && isContextErr err
                then Release q now jobID workerID "released: worker drain timeout during shutdown"
                else Fail q now jobID workerID (he_Error err)
            end ;;
    eff_ret (Some job).

(** ** The schema (migrations/000006_ops.up.sql, 000008_jobs_p1.up.sql) *)

(** The CHECK constraints on a row of [tms.jobs], the JSON ones apart. *)
Definition checks (j : Job) : bool :=
  negb (String.eqb (j_Kind j) "") && (0 <=? j_Attempts j) && (1 <=? j_MaxAttempts j) &&
  match j_FinishedAt j, j_StartedAt j with Some f, Some s => s <=? f | _, _ => true end &&
  (negb (bool_decide (j_Status j = StatusRunning)) || (bool_decide (is_Some (j_ClaimedBy j)) && bool_decide (is_Some (j_ClaimedAt j)))) &&
  (negb (Terminal (j_Status j)) || bool_decide (is_Some (j_FinishedAt j))) &&
  (negb (bool_decide (j_Status j = StatusFailed)) || bool_decide (is_Some (j_LastError j))) &&
  negb (bool_decide (j_DedupeKey j = Some "")).

(** [jobs_dedupe_active_idx] *)
Definition uniqueActive (d : DB) : Prop :=
  forall i i' j j' k, d_jobs d !! i = Some j -> d_jobs d !! i' = Some j' ->
    active j = true -> active j' = true -> j_DedupeKey j = Some k -> j_DedupeKey j' = Some k -> i = i'.

(** ** Runs: the transactions of any clients, in the order they commit *)

(** What a transaction does, with the job it is about. *)
Inductive jobOp : Type :=
| OpInsert (p : EnqueueParams) (payload : string)
| OpClaim (locked : gset Z) (workerID : string)
| OpHeartbeat (jobID : Z) (workerID : string)
| OpProgress (jobID : Z) (workerID : string) (progress : Payload)
| OpSucceed (jobID : Z) (workerID : string) (result : Payload)
| OpMarkCanceled (jobID : Z) (workerID reason : string)
| OpRelease (jobID : Z) (workerID reason : string)
| OpFail (jobID : Z) (workerID jobErr : string)
| OpCancel (jobID : Z) (actor reason : string)
| OpReap (staleAfter : Z) (locked : gset Z).

(** The effect of one transaction; the inserts are those of [Enqueue]. *)
Definition runOp (q : Queue) (now : Z) (o : jobOp) (d : DB) : DB :=
  match o with
  | OpInsert p payload =>
      if String.eqb (ep_Kind p) "" then d
      else fst (tryInsert now p payload (ep_RunAt p) (if ep_MaxAttempts p <? 1 then 1 else ep_MaxAttempts p)
                  (nullIfEmpty (ep_DedupeKey p)) d)
  | OpClaim locked w => fst (Claim q now locked w d)
  | OpHeartbeat i w => fst (Heartbeat now i w d)
  | OpProgress i w p => fst (ReportProgress q now i w p d)
  | OpSucceed i w r => fst (Succeed q now i w r d)
  | OpMarkCanceled i w r => fst (MarkCanceled q now i w r d)
  | OpRelease i w r => fst (Release q now i w r d)
  | OpFail i w e => fst (Fail q now i w e d)
  | OpCancel i a r => fst (Cancel q now i a r d)
  | OpReap staleAfter locked => fst (fst (reapBatch q now staleAfter locked reapBatchSize d))
  end.

(** The tables reachable from the empty one, with the clock not going back. *)
Inductive reachable (q : Queue) : Z -> DB -> Prop :=
| reach_empty now : reachable q now emptyDB
| reach_step now now' o d : reachable q now d -> now <= now' -> reachable q now' (runOp q now' o d).

(** ** Transitions of a row *)

(** What a transaction at [now] can do to a row. *)
Inductive rowStep (now : Z) (j : Job) : Job -> Prop :=
| row_claim w : j_Status j = StatusQueued -> w <> "" -> rowStep now j (claimRow now w j)
| row_cancel r : j_Status j = StatusQueued -> rowStep now j (endRow StatusCanceled now (Some r) j)
| row_beat : j_Status j = StatusRunning -> rowStep now j (heartbeatRow now j)
| row_progress b : j_Status j = StatusRunning -> rowStep now j (progressRow now b j)
| row_request : j_Status j = StatusRunning -> rowStep now j (cancelRequestedRow j)
| row_succeed b : j_Status j = StatusRunning -> rowStep now j (succeedRow now b j)
| row_canceled r : j_Status j = StatusRunning -> rowStep now j (endRow StatusCanceled now r j)
| row_failed r : j_Status j = StatusRunning -> j_MaxAttempts j <= j_Attempts j ->
    rowStep now j (endRow StatusFailed now (Some r) j)
| row_requeue at_ r : j_Status j = StatusRunning -> j_Attempts j < j_MaxAttempts j ->
    rowStep now j (queuedRow at_ (j_Attempts j) (Some r) j)
| row_release r : j_Status j = StatusRunning -> rowStep now j (queuedRow now (Z.max (j_Attempts j - 1) 0) r j).

(** A transaction leaves a row alone or takes it through one transition. *)
Definition rowNext (now : Z) (j j' : Job) : Prop := j' = j \/ rowStep now j j'.

Definition rowsNext (now : Z) (d d' : DB) : Prop :=
  d_nextID d' = d_nextID d /\
  forall i, match d_jobs d !! i with
            | Some j => exists j', d_jobs d' !! i = Some j' /\ rowNext now j j'
            | None => d_jobs d' !! i = None
            end.

Definition insertedRow (now : Z) (p : EnqueueParams) (payload : string) (d : DB) : Job :=
  mkJob (d_nextID d) (ep_Kind p) payload StatusQueued (ep_Priority p) (default now (ep_RunAt p)) 0
    (if ep_MaxAttempts p <? 1 then 1 else ep_MaxAttempts p) (nullIfEmpty (ep_DedupeKey p))
    None None None None None None None false None.

Definition idsOk (d : DB) : Prop := forall i j, d_jobs d !! i = Some j -> j_ID j = i.

#[export] Instance rowsNext_refl now : Reflexive (rowsNext now).
Proof. intros d. split; [done|]. intros i. destruct (d_jobs d !! i) as [j|]; [|done]. exists j. split; [done|by left]. Qed.

Lemma audit_jobs a b i d : d_jobs (audit a b i d) = d_jobs d /\ d_nextID (audit a b i d) = d_nextID d.
Proof. done. Qed.

Lemma notify_jobs q ev d : d_jobs (notify q ev d) = d_jobs d /\ d_nextID (notify q ev d) = d_nextID d.
Proof. unfold notify. by destruct (q_notifier q). Qed.

(** Replacing one row by its successor. *)
Lemma rowsNext_put now d d' j j' :
  d_jobs d !! j_ID j = Some j -> j_ID j' = j_ID j -> rowStep now j j' ->
  d_jobs d' = <[j_ID j' := j']> (d_jobs d) -> d_nextID d' = d_nextID d -> rowsNext now d d'.
Proof.
  intros Hj Hi Hs Hd Hn. split; [done|]. intros i. rewrite Hd, Hi. destruct (decide (j_ID j = i)) as [<-|Hne].
  - rewrite Hj, lookup_insert_eq. exists j'. split; [done|by right].
  - rewrite lookup_insert_ne by done. destruct (d_jobs d !! i) as [x|]; [|done]. exists x. split; [done|by left].
Qed.

Lemma rowStep_id now j j' : rowStep now j j' -> j_ID j' = j_ID j.
Proof. by destruct 1. Qed.

Lemma owned_some jobID w d j : owned jobID w d = Some j ->
  d_jobs d !! jobID = Some j /\ j_ClaimedBy j = Some w /\ j_Status j = StatusRunning.
Proof.
  unfold owned. destruct (d_jobs d !! jobID) as [x|]; [|done]. destruct (bool_decide _) eqn:E1; [|done].
  destruct (bool_decide (j_Status x = _)) eqn:E2; [|done]. intros [= <-]. apply bool_decide_eq_true in E1, E2. done.
Qed.

Lemma finishOwned_run q jobID w action event row d :
  match owned jobID w d with
  | None => finishOwned q jobID w action event row d = (d, Err ErrLostClaim)
  | Some j => exists d', finishOwned q jobID w action event row d = (d', Ok (row j)) /\
                d_jobs d' = <[j_ID (row j) := row j]> (d_jobs d) /\ d_nextID d' = d_nextID d
  end.
Proof.
  unfold finishOwned, eff_bind, eff_get. destruct (owned jobID w d) as [j|]; [|done]. cbn.
  eexists. split; [reflexivity|]. destruct (notify_jobs q (mkJobEvent (j_ID (row j)) (j_Kind (row j)) event
    (j_Status (row j)) w None (default "" (j_LastError (row j)))) (audit w action (j_ID (row j)) (putJob (row j) d))) as [-> ->].
  done.
Qed.

Lemma finishOwned_next q now jobID w action event row d :
  idsOk d -> (forall j, j_Status j = StatusRunning -> rowStep now j (row j)) ->
  rowsNext now d (fst (finishOwned q jobID w action event row d)).
Proof.
  intros Hi Hr. pose proof (finishOwned_run q jobID w action event row d) as H. destruct (owned jobID w d) as [j|] eqn:Eo.
  - destruct H as (d' & -> & Hd & Hn). apply owned_some in Eo as (Hj & _ & Hs). pose proof (Hi _ _ Hj) as Hid.
    rewrite <- Hid in Hj. eapply rowsNext_put; [exact Hj| |by apply Hr|done|done].
    by apply (rowStep_id now), Hr.
  - by rewrite H.
Qed.

(** The row a failure leaves. *)
Definition failRow (q : Queue) (now : Z) (jobErr : string) (j : Job) : Job :=
  let jobErr := truncateErr (nonEmpty jobErr "unknown error") in
  if j_Attempts j <? j_MaxAttempts j
  then queuedRow (now + q_backoff q (j_Attempts j)) (j_Attempts j) (Some jobErr) j
  else endRow StatusFailed now (Some jobErr) j.

Lemma Fail_run q now jobID w e d :
  match owned jobID w d with
  | None => Fail q now jobID w e d = (d, Err ErrLostClaim)
  | Some j => exists d', Fail q now jobID w e d = (d', Ok (failRow q now e j)) /\
                d_jobs d' = <[j_ID j := failRow q now e j]> (d_jobs d) /\ d_nextID d' = d_nextID d
  end.
Proof.
  unfold Fail, failRow, eff_bind, eff_get. destruct (owned jobID w d) as [j|]; [|done].
  set (err := truncateErr (nonEmpty e "unknown error")).
  destruct (j_Attempts j <? j_MaxAttempts j); cbn; (eexists; split; [reflexivity|]);
    unfold notify; destruct (q_notifier q); done.
Qed.

Lemma Fail_next q now jobID w e d : idsOk d -> rowsNext now d (fst (Fail q now jobID w e d)).
Proof.
  intros Hi. pose proof (Fail_run q now jobID w e d) as H. destruct (owned jobID w d) as [j|] eqn:Eo; [|by rewrite H].
  destruct H as (d' & -> & Hd & Hn). apply owned_some in Eo as (Hj & _ & Hs). pose proof (Hi _ _ Hj) as Hid.
  rewrite <- Hid in Hj. cbn [fst].
  assert (Hr : rowStep now j (failRow q now e j)).
  { unfold failRow. destruct (Z.ltb_spec (j_Attempts j) (j_MaxAttempts j)); by constructor. }
  eapply rowsNext_put; [exact Hj| |exact Hr| |done]; [by apply (rowStep_id now)|].
  by rewrite (rowStep_id _ _ _ Hr).
Qed.

Lemma claimQueue_in now locked d j : idsOk d -> j ∈ claimQueue now locked d <->
  d_jobs d !! j_ID j = Some j /\ j_Status j = StatusQueued /\ j_RunAt j <= now /\ j_ID j ∉ locked.
Proof.
  intros Hi. unfold claimQueue. rewrite merge_sort_Permutation, list_elem_of_In, filter_In, <- list_elem_of_In, list_elem_of_fmap.
  unfold claimable. rewrite !andb_true_iff, negb_true_iff, bool_decide_eq_true, bool_decide_eq_false, Z.leb_le. split.
  - intros [([i x] & -> & Hin) Hc]. apply elem_of_map_to_list in Hin. cbn in *. rewrite <- (Hi i x Hin) in Hin. tauto.
  - intros (Hj & Hc). split; [|tauto]. exists (j_ID j, j). split; [done|]. by apply elem_of_map_to_list.
Qed.

Lemma Claim_run q now locked w d :
  match claimQueue now locked d with
  | j :: _ => w <> "" ->
      exists d', Claim q now locked w d = (d', Ok (claimRow now w j)) /\
        d_jobs d' = <[j_ID j := claimRow now w j]> (d_jobs d) /\ d_nextID d' = d_nextID d
  | [] => w <> "" -> Claim q now locked w d = (d, Err ErrNoJob)
  end.
Proof.
  unfold Claim. destruct (claimQueue now locked d) as [|j l] eqn:Ec; intros Hw;
    rewrite (proj2 (String.eqb_neq w "") Hw); unfold eff_bind, eff_get; rewrite Ec; [done|]. cbn.
  eexists. split; [reflexivity|]. unfold notify. by destruct (q_notifier q).
Qed.

Lemma Claim_next q now locked w d : idsOk d -> rowsNext now d (fst (Claim q now locked w d)).
Proof.
  intros Hi. destruct (decide (w = "")) as [->|Hw]; [done|].
  pose proof (Claim_run q now locked w d) as H. pose proof (claimQueue_in now locked d) as Hin.
  destruct (claimQueue now locked d) as [|j l]; [by rewrite H|]. destruct (H Hw) as (d' & -> & Hd & Hn).
  destruct (Hin j Hi) as [Hj _]. destruct (Hj ltac:(by left)) as (H1 & H2 & _).
  eapply rowsNext_put; [exact H1| |by constructor|done|done]. done.
Qed.

Lemma Cancel_next q now i a r d : idsOk d -> rowsNext now d (fst (Cancel q now i a r d)).
Proof.
  intros Hi. unfold Cancel, eff_bind at 1, eff_get. destruct (d_jobs d !! i) as [j|] eqn:Ej; [|done].
  pose proof (Hi _ _ Ej) as Hid. rewrite <- Hid in Ej. set (reason := truncateErr _).
  destruct (j_Status j) eqn:Es; try done.
  - eapply (rowsNext_put _ _ _ j (endRow StatusCanceled now (Some reason) j)); [done|done|by apply row_cancel| |];
      cbn; unfold notify; by destruct (q_notifier q).
  - eapply (rowsNext_put _ _ _ j (cancelRequestedRow j)); [done|done|by apply row_request| |];
      cbn; destruct (j_CancelRequested j); cbn; try done; unfold notify; by destruct (q_notifier q).
Qed.

Lemma progress_next q now i w p d : idsOk d -> rowsNext now d (fst (ReportProgress q now i w p d)).
Proof.
  intros Hi. unfold ReportProgress, eff_bind at 1, eff_lift. destruct (marshalObject p) as [blob|]; [|done].
  unfold eff_bind at 1, eff_get. destruct (owned i w d) as [j|] eqn:Eo; [|done].
  apply owned_some in Eo as (Hj & _ & Hs). pose proof (Hi _ _ Hj) as Hid. rewrite <- Hid in Hj.
  eapply (rowsNext_put _ _ _ j (progressRow now blob j)); [done|done|by apply row_progress| |]; cbn; unfold notify; by destruct (q_notifier q).
Qed.

Lemma Heartbeat_next now i w d : idsOk d -> rowsNext now d (fst (Heartbeat now i w d)).
Proof.
  intros Hi. unfold Heartbeat, eff_bind at 1, eff_get. destruct (owned i w d) as [j|] eqn:Eo; [|done].
  apply owned_some in Eo as (Hj & _ & Hs). pose proof (Hi _ _ Hj) as Hid. rewrite <- Hid in Hj.
  by eapply (rowsNext_put _ _ _ j (heartbeatRow now j)); [|done|apply row_beat| |].
Qed.

(** *** Reaping *)

Definition reaped (now : Z) (j : Job) : Job := fst (fst (fst (reapRow now j))).

Lemma reaped_step now j : j_Status j = StatusRunning -> rowStep now j (reaped now j).
Proof.
  intros Hs. unfold reaped, reapRow. destruct (j_CancelRequested j); [by apply row_canceled|].
  destruct (Z.leb_spec (j_MaxAttempts j) (j_Attempts j)); [by apply row_failed|by apply row_requeue].
Qed.

Lemma reaped_status now j : j_Status (reaped now j) <> StatusRunning.
Proof. unfold reaped, reapRow. destruct (j_CancelRequested j); [done|]. by destruct (_ <=? _). Qed.

Lemma reaped_id now j : j_ID (reaped now j) = j_ID j.
Proof. unfold reaped, reapRow. destruct (j_CancelRequested j); [done|]. by destruct (_ <=? _). Qed.

Lemma countReap_total j s : ReapStats_Total (countReap j s) = ReapStats_Total s + 1.
Proof. unfold countReap, ReapStats_Total. destruct (j_Status j); cbn; lia. Qed.

Lemma reapLoop_spec now found : forall stats events d d' stats' events',
  base.NoDup (map j_ID found) -> reapLoop now found stats events d = (d', stats', events') ->
  d_nextID d' = d_nextID d /\ ReapStats_Total stats' = ReapStats_Total stats + Z.of_nat (length found) /\
  (forall j, j ∈ found -> d_jobs d' !! j_ID j = Some (reaped now j)) /\
  (forall i, i ∉ map j_ID found -> d_jobs d' !! i = d_jobs d !! i).
Proof.
  induction found as [|j found IH]; intros stats events d d' stats' events' Hd E; cbn [reapLoop] in E.
  - injection E as <- <- <-. splits; [done|cbn; lia| |done]. intros j Hj. by apply not_elem_of_nil in Hj.
  - cbn [map] in Hd. apply list.NoDup_cons in Hd as [Hn Hd].
    pose proof (reaped_id now j) as Hid. unfold reaped in Hid.
    destruct (reapRow now j) as [[[job action] event] reason] eqn:Er. cbn in Hid.
    apply IH in E as (E1 & E2 & E3 & E4); [|done]. cbn in E1, E4. rewrite countReap_total in E2. splits; [done|cbn [length]; lia| |].
    + intros x [->|Hx]%elem_of_cons; [|by apply E3]. rewrite E4 by done. rewrite Hid, lookup_insert_eq.
      unfold reaped. by rewrite Er.
    + cbn [map]. intros i [Hne Hi]%not_elem_of_cons. rewrite E4 by done. by rewrite lookup_insert_ne by congruence.
Qed.

Lemma notify_fold_jobs q evs : forall d,
  d_jobs (fold_left (fun d ev => notify q ev d) evs d) = d_jobs d /\
  d_nextID (fold_left (fun d ev => notify q ev d) evs d) = d_nextID d.
Proof.
  induction evs as [|ev evs IH]; intros d; cbn; [done|]. destruct (IH (notify q ev d)) as [-> ->]. apply notify_jobs.
Qed.

Definition staleList (now staleAfter : Z) (locked : gset Z) (d : DB) : list Job :=
  sortBy (fun j => default 0 (j_HeartbeatAt j)) (List.filter (stale now staleAfter locked) (map snd (map_to_list (d_jobs d)))).

Lemma map_snd_ids d : idsOk d -> map j_ID (map snd (map_to_list (d_jobs d))) = map fst (map_to_list (d_jobs d)).
Proof.
  intros Hi. rewrite map_map. apply List.map_ext_in. intros [i j] Hin. apply list_elem_of_In, elem_of_map_to_list in Hin.
  exact (Hi i j Hin).
Qed.

Lemma staleList_ids now staleAfter locked d : idsOk d -> base.NoDup (map j_ID (staleList now staleAfter locked d)).
Proof.
  intros Hi. unfold staleList. rewrite sortBy_perm. apply NoDup_map_filter. rewrite map_snd_ids by done.
  apply NoDup_fst_map_to_list.
Qed.

Lemma staleList_in now staleAfter locked d j : idsOk d ->
  j ∈ staleList now staleAfter locked d <-> d_jobs d !! j_ID j = Some j /\ stale now staleAfter locked j = true.
Proof.
  intros Hi. unfold staleList. rewrite sortBy_perm, list_elem_of_In, filter_In, <- list_elem_of_In, list_elem_of_fmap. split.
  - intros [([i x] & -> & Hin) Hc]. apply elem_of_map_to_list in Hin. cbn in *. by rewrite <- (Hi i x Hin) in Hin.
  - intros [Hj Hc]. split; [|done]. exists (j_ID j, j). split; [done|]. by apply elem_of_map_to_list.
Qed.

Lemma stale_running now staleAfter locked j : stale now staleAfter locked j = true -> j_Status j = StatusRunning.
Proof. unfold stale. rewrite !andb_true_iff, bool_decide_eq_true. tauto. Qed.

(** One batch: the first [limit] stale rows, by their stamps, and no other row. *)
Record batchOk (now staleAfter : Z) (locked : gset Z) (limit : nat) (d d' : DB) (n : nat) (stats : ReapStats) : Prop := {
  bt_next : d_nextID d' = d_nextID d;
  bt_total : ReapStats_Total stats = Z.of_nat n;
  bt_count : n = Nat.min limit (length (staleList now staleAfter locked d));
  bt_found : forall j, j ∈ firstn limit (staleList now staleAfter locked d) -> d_jobs d' !! j_ID j = Some (reaped now j);
  bt_rest : forall i, i ∉ map j_ID (firstn limit (staleList now staleAfter locked d)) -> d_jobs d' !! i = d_jobs d !! i
}.

Lemma reapBatch_ok q now staleAfter locked limit d d' n stats : idsOk d ->
  reapBatch q now staleAfter locked limit d = (d', n, stats) -> batchOk now staleAfter locked limit d d' n stats.
Proof.
  intros Hi E. unfold reapBatch in E. change (staleRows now staleAfter locked limit d) with
    (firstn limit (staleList now staleAfter locked d)) in E.
  destruct (reapLoop now _ _ _ d) as [[d1 s1] ev] eqn:El. injection E as <- <- <-.
  pose proof (staleList_ids now staleAfter locked d Hi) as Hd.
  assert (Hd' : base.NoDup (map j_ID (firstn limit (staleList now staleAfter locked d)))).
  { rewrite <- (firstn_skipn limit (staleList now staleAfter locked d)), map_app in Hd. by apply list.NoDup_app in Hd as [? _]. }
  apply reapLoop_spec in El as (E1 & E2 & E3 & E4); [|done]. destruct (notify_fold_jobs q ev d1) as [N1 N2].
  change (ReapStats_Total (mkReap 0 0 0)) with 0 in E2.
  constructor; [congruence|lia|by rewrite length_firstn| |]; intros; rewrite N1; auto.
Qed.

Lemma reapBatch_next q now staleAfter locked limit d : idsOk d ->
  rowsNext now d (fst (fst (reapBatch q now staleAfter locked limit d))).
Proof.
  intros Hi. destruct (reapBatch q now staleAfter locked limit d) as [[d' n] stats] eqn:E.
  apply reapBatch_ok in E as [H1 _ _ H4 H5]; [|done]. cbn. split; [done|]. intros i.
  destruct (decide (i ∈ map j_ID (firstn limit (staleList now staleAfter locked d)))) as [Hin|Hn].
  - apply list_elem_of_fmap in Hin as (j & -> & Hj). rewrite (H4 j Hj). apply firstn_in in Hj.
    apply staleList_in in Hj as [Hj Hs]; [|done]. rewrite Hj. eexists. split; [done|]. right.
    by eapply reaped_step, stale_running.
  - rewrite H5 by done. destruct (d_jobs d !! i) as [j|]; [|done]. exists j. split; [done|by left].
Qed.

(** ** The invariant *)

Record rowOk (now : Z) (j : Job) : Prop := {
  ro_kind : j_Kind j <> "";
  ro_key : j_DedupeKey j <> Some "";
  ro_attempts : 0 <= j_Attempts j <= j_MaxAttempts j;
  ro_max : 1 <= j_MaxAttempts j;
  ro_queued : j_Status j = StatusQueued ->
    j_Attempts j < j_MaxAttempts j /\ j_ClaimedBy j = None /\ j_HeartbeatAt j = None /\ j_StartedAt j = None /\ j_FinishedAt j = None;
  ro_running : j_Status j = StatusRunning ->
    1 <= j_Attempts j /\ is_Some (j_ClaimedBy j) /\ is_Some (j_ClaimedAt j) /\
    (exists h, j_HeartbeatAt j = Some h /\ h <= now) /\ (exists s, j_StartedAt j = Some s /\ s <= now) /\ j_FinishedAt j = None;
  ro_done : Terminal (j_Status j) = true ->
    exists f, j_FinishedAt j = Some f /\ f <= now /\ forall s, j_StartedAt j = Some s -> s <= f;
  ro_failed : j_Status j = StatusFailed -> is_Some (j_LastError j)
}.

Lemma rowOk_mono now now' j : now <= now' -> rowOk now j -> rowOk now' j.
Proof.
  intros Hn [H1 H2 H3 H4 H5 H6 H7 H8]. constructor; try done.
  - intros Hs. destruct (H6 Hs) as (A & B & C & (h & D1 & D2) & (s & E1 & E2) & F). splits; try done.
    + exists h. split; [done|lia].
    + exists s. split; [done|lia].
  - intros Ht. destruct (H7 Ht) as (f & A & B & C). exists f. splits; [done|lia|done].
Qed.

Lemma rowStep_rowOk now j j' : rowOk now j -> rowStep now j j' -> rowOk now j'.
Proof.
  intros [H1 H2 H3 H4 H5 H6 H7 H8] [w Hs Hw|r Hs|Hs|b Hs|Hs|b Hs|r Hs|r Hs Ha|at_ r Hs Ha|r Hs];
    [destruct (H5 Hs) as (A & B & C & D & E)|destruct (H5 Hs) as (A & B & C & D & E)
    |destruct (H6 Hs) as (A & B & C & (h & D1 & D2) & (s & E1 & E2) & F)..];
    constructor; cbn; rewrite ?Hs; intros; try done; try lia; splits; eauto; try lia;
    try (exists now; splits; [done|lia|intros; simplify_eq; lia]); by exists now.
Qed.

Record tableOk (now : Z) (d : DB) : Prop := {
  to_ids : idsOk d;
  to_next : forall i j, d_jobs d !! i = Some j -> i < d_nextID d;
  to_rows : forall i j, d_jobs d !! i = Some j -> rowOk now j;
  to_unique : uniqueActive d
}.

Lemma rowNext_key now j j' : rowNext now j j' -> j_DedupeKey j' = j_DedupeKey j /\ j_ID j' = j_ID j /\
  (active j' = true -> active j = true).
Proof.
  intros [-> | H]; [done|]. splits; [by destruct H|by destruct H|]. unfold active.
  destruct H as [w Hs Hw|r Hs|Hs|b Hs|Hs|b Hs|r Hs|r Hs Ha|at_ r Hs Ha|r Hs]; cbn; by rewrite ?Hs.
Qed.

Lemma rowsNext_tableOk now d d' : tableOk now d -> rowsNext now d d' -> tableOk now d'.
Proof.
  intros [T1 T2 T3 T4] [Hn Hr].
  assert (Hb : forall i j', d_jobs d' !! i = Some j' -> exists j, d_jobs d !! i = Some j /\ rowNext now j j').
  { intros i j' Hj'. specialize (Hr i). destruct (d_jobs d !! i) as [j|]; [|congruence].
    destruct Hr as (x & Hx & Hs). rewrite Hj' in Hx. injection Hx as <-. by exists j. }
  constructor.
  - intros i j' Hj'. destruct (Hb i j' Hj') as (j & Hj & Hs). destruct (rowNext_key _ _ _ Hs) as (_ & -> & _). by apply T1.
  - intros i j' Hj'. destruct (Hb i j' Hj') as (j & Hj & _). rewrite Hn. by apply (T2 i j).
  - intros i j' Hj'. destruct (Hb i j' Hj') as (j & Hj & [-> | Hs]); [by apply (T3 i)|]. by apply (rowStep_rowOk now j), Hs; apply (T3 i).
  - intros i1 i2 j1 j2 k H1 H2 A1 A2 K1 K2. destruct (Hb _ _ H1) as (x1 & X1 & S1). destruct (Hb _ _ H2) as (x2 & X2 & S2).
    destruct (rowNext_key _ _ _ S1) as (E1 & _ & B1). destruct (rowNext_key _ _ _ S2) as (E2 & _ & B2).
    apply (T4 i1 i2 x1 x2 k); try done; auto; congruence.
Qed.

Lemma activeWithKey_in key d j : j ∈ activeWithKey key d <->
  (exists i, d_jobs d !! i = Some j) /\ active j = true /\ j_DedupeKey j = Some key.
Proof.
  unfold activeWithKey. rewrite list_elem_of_In, filter_In, <- list_elem_of_In, list_elem_of_fmap, andb_true_iff.
  unfold hasKey. split.
  - intros [([i x] & -> & Hin) [Ha Hk]]. apply elem_of_map_to_list in Hin. split; [by exists i|]. split; [done|].
    cbn in *. destruct (j_DedupeKey x) as [k|]; [|done]. apply String.eqb_eq in Hk. by subst.
  - intros [[i Hi] [Ha Hk]]. split; [exists (i, j); split; [done|]; by apply elem_of_map_to_list|].
    rewrite Hk. split; [done|apply String.eqb_refl].
Qed.

(** The outcome of an insert. *)
Lemma tryInsert_run now p payload d :
  let dedupe := nullIfEmpty (ep_DedupeKey p) in
  let max := if ep_MaxAttempts p <? 1 then 1 else ep_MaxAttempts p in
  let '(d', r) := tryInsert now p payload (ep_RunAt p) max dedupe d in
  (r = Ok None /\ d' = d /\ exists k, dedupe = Some k /\ activeWithKey k d <> []) \/
  (r = Ok (Some (insertedRow now p payload d)) /\ (forall k, dedupe = Some k -> activeWithKey k d = []) /\
   d_jobs d' = <[d_nextID d := insertedRow now p payload d]> (d_jobs d) /\ d_nextID d' = d_nextID d + 1).
Proof.
  unfold tryInsert. cbn zeta. destruct (nullIfEmpty (ep_DedupeKey p)) as [k|] eqn:Ek.
  - destruct (activeWithKey k d) as [|x l] eqn:Ea; cbn [length Nat.ltb Nat.leb].
    + right. unfold insertedRow. rewrite Ek. splits; try done. by intros k' [= <-].
    + left. splits; try done. exists k. by rewrite Ea.
  - right. unfold insertedRow. rewrite Ek. by splits.
Qed.

Lemma insert_tableOk now p payload d : ep_Kind p <> "" -> tableOk now d ->
  (forall k, nullIfEmpty (ep_DedupeKey p) = Some k -> activeWithKey k d = []) -> forall d',
  d_jobs d' = <[d_nextID d := insertedRow now p payload d]> (d_jobs d) -> d_nextID d' = d_nextID d + 1 -> tableOk now d'.
Proof.
  intros Hk [T1 T2 T3 T4] Hfree d' Hd Hn. set (job := insertedRow now p payload d) in *.
  assert (Hkey : j_DedupeKey job <> Some "").
  { cbn. unfold nullIfEmpty. by destruct (String.eqb_spec (ep_DedupeKey p) ""); [|intros [=]]. }
  constructor; unfold idsOk, uniqueActive; rewrite ?Hd, ?Hn.
  - intros i j Hj. destruct (decide (d_nextID d = i)) as [<-|Hne]; [rewrite lookup_insert_eq in Hj; by injection Hj as <-|].
    rewrite lookup_insert_ne in Hj by done. by apply T1.
  - intros i j Hj. destruct (decide (d_nextID d = i)) as [<-|Hne]; [lia|].
    rewrite lookup_insert_ne in Hj by done. specialize (T2 i j Hj). lia.
  - intros i j Hj. destruct (decide (d_nextID d = i)) as [<-|Hne].
    + rewrite lookup_insert_eq in Hj. injection Hj as <-.
      constructor; [done|done| | | |done|done|done]; cbn; destruct (Z.ltb_spec (ep_MaxAttempts p) 1); intros; splits; try done; lia.
    + rewrite lookup_insert_ne in Hj by done. by apply (T3 i).
  - assert (Hnew : forall i j k, d_jobs d !! i = Some j -> active j = true -> j_DedupeKey j = Some k -> j_DedupeKey job = Some k -> False).
    { intros i j k Hj Ha Hjk Hjob. specialize (Hfree k Hjob). assert (Hin : j ∈ activeWithKey k d).
      { apply activeWithKey_in. split; [by exists i|done]. }
      rewrite Hfree in Hin. by apply not_elem_of_nil in Hin. }
    intros i1 i2 j1 j2 k H1 H2 A1 A2 K1 K2.
    apply lookup_insert_Some in H1 as [[<- <-]|[N1 H1]]; apply lookup_insert_Some in H2 as [[<- <-]|[N2 H2]]; [done| | |].
    + exfalso. by apply (Hnew i2 j2 k).
    + exfalso. by apply (Hnew i1 j1 k).
    + by apply (T4 i1 i2 j1 j2 k).
Qed.

(** ** Reachable tables *)

Lemma runOp_next q now o d : tableOk now d ->
  rowsNext now d (runOp q now o d) \/ exists p payload, o = OpInsert p payload /\ ep_Kind p <> "" /\
    (forall k, nullIfEmpty (ep_DedupeKey p) = Some k -> activeWithKey k d = []) /\
    d_jobs (runOp q now o d) = <[d_nextID d := insertedRow now p payload d]> (d_jobs d) /\
    d_nextID (runOp q now o d) = d_nextID d + 1.
Proof.
  intros [Hi _ _ _]. destruct o as [p payload|locked w|i w|i w p|i w r|i w r|i w r|i w e|i a r|sa locked]; cbn [runOp].
  - destruct (String.eqb_spec (ep_Kind p) "") as [|Hk]; [by left|]. pose proof (tryInsert_run now p payload d) as H.
    cbn zeta in H. destruct (tryInsert _ _ _ _ _ _ d) as [d' r] eqn:Et. cbn [fst].
    destruct H as [(_ & -> & _)|(_ & Hf & Hd & Hn)]; [by left|]. right. by exists p, payload.
  - left. by apply Claim_next.
  - left. by apply Heartbeat_next.
  - left. by apply progress_next.
  - left. unfold Succeed, eff_bind at 1, eff_lift. destruct (marshalObject r) as [blob|]; [|done].
    apply finishOwned_next; [done|]. intros j. apply row_succeed.
  - left. apply finishOwned_next; [done|]. intros j. apply row_canceled.
  - left. apply finishOwned_next; [done|]. intros j. apply row_release.
  - left. by apply Fail_next.
  - left. by apply Cancel_next.
  - left. by apply reapBatch_next.
Qed.

Lemma tableOk_mono now now' d : now <= now' -> tableOk now d -> tableOk now' d.
Proof. intros Hn [T1 T2 T3 T4]. constructor; try done. intros i j Hj. by apply (rowOk_mono now), (T3 i). Qed.

Lemma runOp_tableOk q now o d : tableOk now d -> tableOk now (runOp q now o d).
Proof.
  intros Ht. destruct (runOp_next q now o d Ht) as [Hr|(p & payload & -> & Hk & Hf & Hd & Hn)].
  - by apply (rowsNext_tableOk now d).
  - by apply (insert_tableOk now p payload d Hk Ht Hf).
Qed.

Lemma empty_tableOk now : tableOk now emptyDB.
Proof. constructor; unfold idsOk, uniqueActive; cbn; intros *; by rewrite lookup_empty. Qed.

Lemma reachable_tableOk q now d : reachable q now d -> tableOk now d.
Proof.
  induction 1 as [now|now now' o d _ IH Hn]; [apply empty_tableOk|]. by apply runOp_tableOk, (tableOk_mono now).
Qed.

Lemma rowOk_checks now j : rowOk now j -> checks j = true.
Proof.
  intros [H1 H2 H3 H4 H5 H6 H7 H8]. unfold checks. rewrite (proj2 (String.eqb_neq _ _) H1).
  rewrite (proj2 (Z.leb_le 0 _)), (proj2 (Z.leb_le 1 _)), (bool_decide_eq_false_2 _ H2) by lia. cbn.
  rewrite andb_true_r. destruct (j_Status j) eqn:Es; cbn.
  - destruct (H5 eq_refl) as (_ & _ & _ & _ & ->). done.
  - destruct (H6 eq_refl) as (_ & [c ->] & [t ->] & _ & _ & ->). done.
  - destruct (H7 eq_refl) as (f & -> & _ & Hs). destruct (j_StartedAt j) as [s|]; [|done].
    by rewrite (proj2 (Z.leb_le s f)) by (by apply Hs).
  - destruct (H7 eq_refl) as (f & -> & _ & Hs). destruct (H8 eq_refl) as [e ->].
    destruct (j_StartedAt j) as [s|]; [|done]. by rewrite (proj2 (Z.leb_le s f)) by (by apply Hs).
  - destruct (H7 eq_refl) as (f & -> & _ & Hs). destruct (j_StartedAt j) as [s|]; [|done].
    by rewrite (proj2 (Z.leb_le s f)) by (by apply Hs).
Qed.

(** ** Claims drain the queue *)

Lemma claimLe_total : Total claimLe.
Proof. intros a b. unfold claimLe. lia. Qed.
#[local] Existing Instance claimLe_total.

#[local] Instance claimLe_trans : Transitive claimLe.
Proof. intros a b c. unfold claimLe. lia. Qed.

Lemma claimQueue_sorted now locked d : StronglySorted claimLe (claimQueue now locked d).
Proof. apply Sorted_StronglySorted; [apply _|]. apply Sorted_merge_sort. apply _. Qed.

Lemma claimQueue_ids now locked d : idsOk d -> base.NoDup (map j_ID (claimQueue now locked d)).
Proof.
  intros Hi. unfold claimQueue. rewrite merge_sort_Permutation. apply NoDup_map_filter. rewrite map_snd_ids by done.
  apply NoDup_fst_map_to_list.
Qed.

Lemma NoDup_map_inv {A B} (f : A -> B) l : base.NoDup (map f l) -> base.NoDup l.
Proof. apply NoDup_fmap_1. Qed.

(** Claiming the head leaves the tail. *)
Lemma claimQueue_claimed now locked d d' j l w :
  idsOk d -> claimQueue now locked d = j :: l -> d_jobs d' = <[j_ID j := claimRow now w j]> (d_jobs d) ->
  idsOk d' /\ claimQueue now locked d' = l.
Proof.
  intros Hi Hc Hd.
  assert (Hi' : idsOk d').
  { intros i x Hx. rewrite Hd in Hx. apply lookup_insert_Some in Hx as [[<- <-]|[_ Hx]]; [done|by apply Hi]. }
  split; [done|]. pose proof (claimQueue_ids now locked d Hi) as Hnd. rewrite Hc in Hnd. cbn [map] in Hnd.
  pose proof (claimQueue_sorted now locked d) as Hs. rewrite Hc in Hs. apply StronglySorted_inv in Hs as [Hs _].
  assert (Hin : forall x, x ∈ claimQueue now locked d' <-> x ∈ l).
  { intros x. rewrite (claimQueue_in now locked d' x Hi'), Hd. apply list.NoDup_cons in Hnd as [Hn Hnd]. split.
    - intros (Hx & Hq & Hr & Hl). apply lookup_insert_Some in Hx as [[_ <-]|[Hne Hx]]; [done|].
      assert (Hxc : x ∈ claimQueue now locked d) by (by apply claimQueue_in).
      rewrite Hc in Hxc. apply elem_of_cons in Hxc as [->|?]; [done|done].
    - intros Hx. assert (Hxc : x ∈ claimQueue now locked d) by (rewrite Hc; by right).
      apply claimQueue_in in Hxc as (H1 & H2 & H3 & H4); [|done]. splits; try done.
      rewrite lookup_insert_ne; [done|]. intros He. apply Hn. rewrite He. apply list_elem_of_fmap. by exists x. }
  apply (StronglySorted_unique_strong claimLe); [|apply claimQueue_sorted|done|].
  - intros x1 x2 H1 H2 L1 L2. assert (j_ID x1 = j_ID x2) as He by (unfold claimLe in *; lia).
    apply Hin in H1.
    assert (G1 : x1 ∈ claimQueue now locked d) by (rewrite Hc; by right).
    assert (G2 : x2 ∈ claimQueue now locked d) by (rewrite Hc; by right).
    apply claimQueue_in in G1 as [G1 _], G2 as [G2 _]; [|done|done]. rewrite He, G2 in G1. by injection G1.
  - apply NoDup_Permutation; [eapply NoDup_map_inv, claimQueue_ids, Hi'| |exact Hin].
    apply list.NoDup_cons in Hnd as [_ Hnd]. by eapply NoDup_map_inv.
Qed.

(** Workers claim one after the other. *)
Fixpoint claimAll (q : Queue) (now : Z) (locked : gset Z) (ws : list string) (d : DB) : DB * list (res Job) :=
  match ws with
  | [] => (d, [])
  | w :: ws =>
      let '(d, r) := Claim q now locked w d in
      let '(d, rs) := claimAll q now locked ws d in
      (d, r :: rs)
  end.

Lemma claimAll_drains q now locked ws : forall d,
  idsOk d -> Forall (fun w => w <> "") ws -> length ws = length (claimQueue now locked d) ->
  exists d', claimAll q now locked ws d = (d', zip_with (fun w j => Ok (claimRow now w j)) ws (claimQueue now locked d)) /\
    claimQueue now locked d' = [].
Proof.
  induction ws as [|w ws IH]; intros d Hi Hw Hl; cbn [claimAll].
  - exists d. destruct (claimQueue now locked d); [done|discriminate Hl].
  - apply Forall_cons_1 in Hw as [Hw Hws]. pose proof (Claim_run q now locked w d) as H.
    destruct (claimQueue now locked d) as [|j l] eqn:Ec; [discriminate Hl|].
    destruct (H Hw) as (d1 & -> & Hd & _). destruct (claimQueue_claimed now locked d d1 j l w Hi Ec Hd) as [Hi1 Hc1].
    destruct (IH d1 Hi1 Hws) as (d' & E & Hn); [rewrite Hc1; cbn in Hl; lia|]. rewrite E, Hc1. by exists d'.
Qed.

(** ** Backoff *)

Lemma backoffLoop_spec fuel : forall i attempt d,
  1 <= i -> (Z.to_nat (attempt - i) <= fuel)%nat -> 0 < d < 2 * defaultRetryCap ->
  Z.min (backoffLoop fuel i attempt d) defaultRetryCap = Z.min (d * 2 ^ Z.max 0 (attempt - i)) defaultRetryCap.
Proof.
  induction fuel as [|fuel IH]; intros i attempt d Hi Hf Hd; cbn [backoffLoop].
  - replace (Z.max 0 (attempt - i)) with 0 by lia. lia.
  - destruct (Z.ltb_spec i attempt); cbn [andb]; [|replace (Z.max 0 (attempt - i)) with 0 by lia; lia].
    destruct (Z.ltb_spec d defaultRetryCap) as [Hlt|Hge].
    + rewrite wrap64_id by (unfold defaultRetryCap, second in *; rlia). rewrite IH by lia.
      replace (Z.max 0 (attempt - i)) with (Z.succ (Z.max 0 (attempt - (i + 1)))) by lia. rewrite Z.pow_succ_r by lia. f_equal. lia.
    + rewrite Z.min_r by lia. rewrite Z.min_r; [done|]. assert (1 <= 2 ^ Z.max 0 (attempt - i)) by (apply (Z.pow_le_mono_r 2 0); lia). nia.
Qed.

(** ** Reaping to the end *)

Definition runningIDs (d : DB) : gset Z := dom (base.filter (fun kv : Z * Job => j_Status kv.2 = StatusRunning) (d_jobs d)).

Lemma runningIDs_in d i : i ∈ runningIDs d <-> exists j, d_jobs d !! i = Some j /\ j_Status j = StatusRunning.
Proof.
  unfold runningIDs. rewrite elem_of_dom. split.
  - intros [j Hj]. apply map_lookup_filter_Some in Hj as [Hj Hs]. by exists j.
  - intros (j & Hj & Hs). exists j. by apply map_lookup_filter_Some.
Qed.

Lemma batch_idsOk now staleAfter locked limit d d' n stats :
  idsOk d -> batchOk now staleAfter locked limit d d' n stats -> idsOk d'.
Proof.
  intros Hi [_ _ _ H4 H5] i j Hj.
  destruct (decide (i ∈ map j_ID (firstn limit (staleList now staleAfter locked d)))) as [Hin|Hn].
  - apply list_elem_of_fmap in Hin as (x & -> & Hx). rewrite (H4 x Hx) in Hj. injection Hj as <-. apply reaped_id.
  - rewrite H5 in Hj by done. by apply Hi.
Qed.

Lemma batch_running now staleAfter locked limit d d' n stats :
  idsOk d -> batchOk now staleAfter locked limit d d' n stats ->
  runningIDs d' = runningIDs d ∖ list_to_set (map j_ID (firstn limit (staleList now staleAfter locked d))).
Proof.
  intros Hi [_ _ _ H4 H5]. apply leibniz_equiv. intros i. rewrite elem_of_difference, elem_of_list_to_set, !runningIDs_in.
  destruct (decide (i ∈ map j_ID (firstn limit (staleList now staleAfter locked d)))) as [Hin|Hn].
  - split; [|tauto]. intros (j & Hj & Hs). apply list_elem_of_fmap in Hin as (x & -> & Hx). rewrite (H4 x Hx) in Hj.
    injection Hj as <-. by apply reaped_status in Hs.
  - rewrite H5 by done. tauto.
Qed.

Lemma batch_running_size now staleAfter locked limit d d' n stats :
  idsOk d -> batchOk now staleAfter locked limit d d' n stats -> (size (runningIDs d') + n = size (runningIDs d))%nat.
Proof.
  intros Hi Hb. rewrite (batch_running _ _ _ _ _ _ _ _ Hi Hb). destruct Hb as [_ _ -> _ _].
  set (l := firstn limit (staleList now staleAfter locked d)).
  assert (Hnd : base.NoDup (map j_ID l)).
  { pose proof (staleList_ids now staleAfter locked d Hi) as Hd.
    rewrite <- (firstn_skipn limit (staleList now staleAfter locked d)), map_app in Hd. by apply list.NoDup_app in Hd as [? _]. }
  assert (Hsub : list_to_set (map j_ID l) ⊆ runningIDs d).
  { intros i. rewrite elem_of_list_to_set, runningIDs_in. intros (j & -> & Hj)%list_elem_of_fmap. apply firstn_in in Hj.
    apply staleList_in in Hj as [Hj Hs]; [|done]. exists j. split; [done|]. by eapply stale_running. }
  assert (Hsz : size (list_to_set (C:=gset Z) (map j_ID l)) = length l) by (rewrite size_list_to_set by done; apply length_map).
  pose proof (subseteq_size _ _ Hsub). rewrite size_difference by done. rewrite Hsz in *.
  unfold l in *. rewrite length_firstn in *. lia.
Qed.

(** The rows changed by the batches up to [k], each at its batch's clock. *)
Definition reapedBy (now : nat -> Z) (locked : nat -> gset Z) (staleAfter : Z) (k0 k : nat) (d d' : DB) : Prop :=
  forall i j, d_jobs d !! i = Some j ->
    d_jobs d' !! i = Some j \/
    exists m, (k0 <= m <= k)%nat /\ stale (now m) staleAfter (locked m) j = true /\ d_jobs d' !! i = Some (reaped (now m) j).

Lemma batch_reapedBy now locked staleAfter limit k d d' n stats : idsOk d ->
  batchOk (now k) staleAfter (locked k) limit d d' n stats -> reapedBy now locked staleAfter k k d d'.
Proof.
  intros Hi [_ _ _ H4 H5] i j Hj.
  destruct (decide (i ∈ map j_ID (firstn limit (staleList (now k) staleAfter (locked k) d)))) as [Hin|Hn].
  - right. exists k. apply list_elem_of_fmap in Hin as (x & -> & Hx). rewrite (H4 x Hx). apply firstn_in in Hx.
    apply staleList_in in Hx as [Hx Hs]; [|done]. rewrite Hj in Hx. injection Hx as <-. splits; [lia|lia|done|done].
  - left. by rewrite H5.
Qed.

Lemma reaped_not_stale now now' staleAfter locked j : stale now' staleAfter locked (reaped now j) = false.
Proof. unfold stale. by rewrite (bool_decide_eq_false_2 _ (reaped_status now j)). Qed.

Lemma reapBatches_spec q now locked staleAfter fuel : forall k stats d,
  idsOk d -> (size (runningIDs d) < fuel)%nat ->
  exists d' stats' k', reapBatches q fuel now locked k staleAfter stats d = Some (d', stats', k') /\ (k <= k')%nat /\
    reapedBy now locked staleAfter k k' d d' /\
    (forall i j, d_jobs d' !! i = Some j -> stale (now k') staleAfter (locked k') j = false) /\
    ReapStats_Total stats' = ReapStats_Total stats + Z.of_nat (size (runningIDs d)) - Z.of_nat (size (runningIDs d')).
Proof.
  induction fuel as [|fuel IH]; intros k stats d Hi Hf; [lia|]. cbn [reapBatches].
  destruct (reapBatch q (now k) staleAfter (locked k) reapBatchSize d) as [[d1 n] b] eqn:Eb.
  apply reapBatch_ok in Eb as Hb; [|done]. pose proof (batch_running_size _ _ _ _ _ _ _ _ Hi Hb) as Hsz.
  pose proof (batch_reapedBy now locked staleAfter _ k d d1 n b Hi Hb) as Hr. pose proof (bt_total _ _ _ _ _ _ _ _ Hb) as Ht.
  set (stats1 := mkReap _ _ _).
  assert (Hst : ReapStats_Total stats1 = ReapStats_Total stats + Z.of_nat n)
    by (rewrite <- Ht; unfold stats1, ReapStats_Total; cbn; lia).
  destruct (Nat.ltb_spec n reapBatchSize) as [Hlt|Hge].
  - exists d1, stats1, k. splits; [done|done|done| |lia]. destruct Hb as [_ _ Hn H4 H5].
    assert (Hall : firstn reapBatchSize (staleList (now k) staleAfter (locked k) d) = staleList (now k) staleAfter (locked k) d)
      by (apply firstn_all2; lia).
    rewrite Hall in H4, H5. intros i j Hj.
    destruct (decide (i ∈ map j_ID (staleList (now k) staleAfter (locked k) d))) as [Hin|Hnin].
    + apply list_elem_of_fmap in Hin as (x & -> & Hx). rewrite (H4 x Hx) in Hj. injection Hj as <-. apply reaped_not_stale.
    + rewrite H5 in Hj by done. destruct (stale _ _ _ j) eqn:Es; [|done]. exfalso. apply Hnin.
      pose proof (Hi i j Hj) as Hid. apply list_elem_of_fmap. exists j. split; [done|]. apply staleList_in; [done|]. by rewrite Hid.
  - assert (1 <= n)%nat by (unfold reapBatchSize in Hge; lia).
    destruct (IH (S k) stats1 d1) as (d2 & s2 & k2 & E & Hk & Hr2 & Hs2 & Ht2);
      [by eapply batch_idsOk|lia|]. exists d2, s2, k2. splits; [done|lia| |done|lia].
    intros i j Hj. destruct (Hr i j Hj) as [Hj1|(m & Hm & Hms & Hj1)].
    + destruct (Hr2 i j Hj1) as [?|(m & Hm & ? & ?)]; [by left|]. right. exists m. splits; [lia|lia|done|done].
    + right. exists m. splits; [lia|lia|done|]. destruct (Hr2 i _ Hj1) as [?|(m' & _ & Hst' & _)]; [done|].
      by rewrite reaped_not_stale in Hst'.
Qed.

Lemma runningIDs_size d : (size (runningIDs d) <= size (d_jobs d))%nat.
Proof.
  rewrite <- (size_dom (D:=gset Z) (d_jobs d)). apply subseteq_size. intros i Hi. apply runningIDs_in in Hi as (j & Hj & _).
  apply elem_of_dom. by exists j.
Qed.

(** ** Enqueue *)

Lemma latest_in l : forall best, fold_left (fun best j => match best with
    | Some b => if j_ID b <? j_ID j then Some j else Some b
    | None => Some j end) l (Some best) = Some best \/
  exists j, j ∈ l /\ fold_left (fun best j => match best with
    | Some b => if j_ID b <? j_ID j then Some j else Some b
    | None => Some j end) l (Some best) = Some j.
Proof.
  induction l as [|x l IH]; intros best; cbn [fold_left]; [by left|]. destruct (_ <? _).
  - destruct (IH x) as [H|(j & Hj & H)]; right; [exists x; split; [by left|done]|exists j; split; [by right|done]].
  - destruct (IH best) as [H|(j & Hj & H)]; [by left|]. right. exists j. split; [by right|done].
Qed.

Lemma latest_some l j : latest l = Some j -> j ∈ l.
Proof.
  unfold latest. destruct l as [|x l]; [done|]. cbn [fold_left]. destruct (latest_in l x) as [->|(y & Hy & ->)].
  - intros [= <-]. by left.
  - intros [= <-]. by right.
Qed.

(** What a caller of [Enqueue] gets, in the table it leaves. *)
Definition enqueued (p : EnqueueParams) (d' : DB) (r : res (Job * bool)) : Prop :=
  match r with
  | Ok (job, false) =>
      d_jobs d' !! j_ID job = Some job /\ j_Status job = StatusQueued /\ j_Kind job = ep_Kind p /\
      j_DedupeKey job = nullIfEmpty (ep_DedupeKey p)
  | Ok (job, true) =>
      d_jobs d' !! j_ID job = Some job /\ active job = true /\ j_DedupeKey job = Some (ep_DedupeKey p)
  | Err _ => True
  end.

Section EnqueueRuns.
Context (q : Queue) (now : nat -> Z) (others : nat -> DB -> DB).
(** The other clients keep the table well formed, and the clock advances. *)
Context (Hothers : forall k d, tableOk (now k) d -> tableOk (now k) (others k d)).
Context (Hnow : forall k, now k <= now (S k)).

Lemma enqueueLoop_ok p payload : ep_Kind p <> "" -> forall races k d d' r,
  tableOk (now k) d ->
  enqueueLoop q now others k races p payload (ep_RunAt p) (if ep_MaxAttempts p <? 1 then 1 else ep_MaxAttempts p)
    (nullIfEmpty (ep_DedupeKey p)) d = (d', r) ->
  (exists k', tableOk (now k') d') /\ enqueued p d' r.
Proof.
  intros Hk. induction races as [|races IH]; intros k d d' r Ht E; cbn [enqueueLoop] in E.
  { injection E as <- <-. split; [by exists k|done]. }
  unfold eff_bind at 1, eff_modify at 1 in E. pose proof (Hothers k d Ht) as Ht1. set (d1 := others k d) in *.
  unfold eff_bind at 1 in E. pose proof (tryInsert_run (now k) p payload d1) as Hi. cbn zeta in Hi.
  destruct (tryInsert (now k) p payload _ _ _ d1) as [d2 r2].
  destruct Hi as [(-> & -> & key & Hkey & _)|(-> & Hf & Hd & Hn)].
  - unfold eff_bind at 1, eff_modify at 1 in E. pose proof (tableOk_mono _ _ _ (Hnow k) Ht1) as Ht2.
    pose proof (Hothers (S k) d1 Ht2) as Ht3. set (d3 := others (S k) d1) in *. unfold eff_bind at 1, eff_get in E.
    destruct (latest (activeWithKey (ep_DedupeKey p) d3)) as [j|] eqn:El.
    + injection E as <- <-. split; [by exists (S k)|]. apply latest_some, activeWithKey_in in El as [[i Hj] [Ha Hjk]].
      cbn. by rewrite (to_ids _ _ Ht3 i j Hj).
    + apply (IH (S (S k)) d3 d' r); [|done]. by apply (tableOk_mono (now (S k))).
  - unfold eff_bind at 1, eff_modify at 1, eff_ret in E. injection E as <- <-. set (ev := mkJobEvent _ _ _ _ _ _ _).
    destruct (notify_jobs q ev d2) as [N1 N2]. split.
    + exists k. apply (insert_tableOk (now k) p payload d1 Hk Ht1 Hf); by rewrite ?N1, ?N2.
    + cbn. rewrite N1, Hd. by rewrite lookup_insert_eq.
Qed.
End EnqueueRuns.

(** ** Claims *)

(** The worker whose claim a transaction relies on. *)
Definition opWorker (o : jobOp) : option string :=
  match o with
  | OpHeartbeat _ w | OpProgress _ w _ | OpSucceed _ w _ | OpMarkCanceled _ w _ | OpRelease _ w _ | OpFail _ w _ => Some w
  | _ => None
  end.

Definition allowed (s s' : Status) : bool :=
  match s, s' with
  | StatusQueued, (StatusQueued | StatusRunning | StatusCanceled) => true
  | StatusRunning, _ => true
  | _, _ => bool_decide (s = s')
  end.

Lemma rowNext_allowed now j j' : rowNext now j j' ->
  allowed (j_Status j) (j_Status j') = true /\ (Terminal (j_Status j) = true -> j' = j) /\
  j_Kind j' = j_Kind j /\ j_Payload j' = j_Payload j /\ j_MaxAttempts j' = j_MaxAttempts j.
Proof.
  intros [-> | H]; [destruct (j_Status j); by splits|].
  destruct H as [w Hs Hw|r Hs|Hs|b Hs|Hs|b Hs|r Hs|r Hs Ha|at_ r Hs Ha|r Hs]; rewrite Hs; cbn; splits; try done; by rewrite Hs.
Qed.

(** An owner-guarded transaction leaves every row it does not own alone. *)
Lemma owned_op_guard q now o w d i j : opWorker o = Some w -> idsOk d -> d_jobs d !! i = Some j ->
  (j_Status j = StatusRunning /\ j_ClaimedBy j = Some w) \/ d_jobs (runOp q now o d) !! i = Some j.
Proof.
  intros Ho Hi Hj.
  assert (Hput : forall i' row x d', owned i' w d = Some row -> d_jobs d' = <[j_ID row := x]> (d_jobs d) ->
            (j_Status j = StatusRunning /\ j_ClaimedBy j = Some w) \/ d_jobs d' !! i = Some j).
  { intros i' row x d' Hr Hd. apply owned_some in Hr as (Hr & Hc & Hs). pose proof (Hi _ _ Hr) as Hid.
    destruct (decide (i' = i)) as [->|Hne].
    - left. rewrite Hj in Hr. by injection Hr as ->.
    - right. rewrite Hd, lookup_insert_ne by congruence. done. }
  assert (Hfin : forall i' action event row, (forall x, j_ID (row x) = j_ID x) ->
            (j_Status j = StatusRunning /\ j_ClaimedBy j = Some w) \/
            d_jobs (fst (finishOwned q i' w action event row d)) !! i = Some j).
  { intros i' action event row Hrow. pose proof (finishOwned_run q i' w action event row d) as H.
    destruct (owned i' w d) as [x|] eqn:Eo; [|rewrite H; by right]. destruct H as (d' & -> & Hd & _). cbn [fst].
    rewrite Hrow in Hd. by eapply Hput. }
  destruct o as [p payload|locked w'|i' w'|i' w' p|i' w' r|i' w' r|i' w' r|i' w' e|i' a r|sa locked]; try done;
    injection Ho as ->; cbn [runOp].
  - unfold Heartbeat, eff_bind at 1, eff_get. destruct (owned i' w d) as [x|] eqn:Eo; [|by right].
    by eapply Hput.
  - unfold ReportProgress, eff_bind at 1, eff_lift. destruct (marshalObject p) as [b|]; [|by right].
    unfold eff_bind at 1, eff_get. destruct (owned i' w d) as [x|] eqn:Eo; [|by right].
    apply (Hput i' x (progressRow now b x) _ Eo). cbn. unfold notify. by destruct (q_notifier q).
  - unfold Succeed, eff_bind at 1, eff_lift. destruct (marshalObject r) as [b|]; [|by right]. by apply Hfin.
  - by apply Hfin.
  - by apply Hfin.
  - pose proof (Fail_run q now i' w e d) as H. destruct (owned i' w d) as [x|] eqn:Eo; [|rewrite H; by right].
    destruct H as (d' & -> & Hd & _). by eapply Hput.
Qed.

(** C39: whatever the workers, cancellers and reapers do and however they
    interleave, the table satisfies the constraints of its schema: every row
    passes the CHECKs, a job is never attempted more often than allowed, a
    queued job still has an attempt left, and no two active jobs share a
    deduplication key. *)
Theorem jobs_table_invariant q now d :
  reachable q now d ->
  (forall i j, d_jobs d !! i = Some j -> checks j = true /\ j_Attempts j <= j_MaxAttempts j /\
     (j_Status j = StatusQueued -> j_Attempts j < j_MaxAttempts j)) /\ uniqueActive d.
Proof.
  intros Hr. destruct (reachable_tableOk q now d Hr) as [_ _ T3 T4]. split; [|done]. intros i j Hj.
  specialize (T3 i j Hj). splits; [by apply (rowOk_checks now)|apply (ro_attempts _ _ T3)|].
  intros Hs. by destruct (ro_queued _ _ T3 Hs).
Qed.

(** Jobs follow their life cycle: no transaction deletes a row or changes a
    finished one, a queued job can only be claimed or canceled, a job keeps its
    kind, payload and attempt limit, and a worker's transaction changes only a
    running job that this worker has claimed. *)
Theorem job_lifecycle q now now' d o i j :
  reachable q now d -> now <= now' -> d_jobs d !! i = Some j ->
  exists j', d_jobs (runOp q now' o d) !! i = Some j' /\
    allowed (j_Status j) (j_Status j') = true /\ (Terminal (j_Status j) = true -> j' = j) /\
    (j_Kind j' = j_Kind j /\ j_Payload j' = j_Payload j /\ j_MaxAttempts j' = j_MaxAttempts j) /\
    (forall w, opWorker o = Some w -> (j_Status j = StatusRunning /\ j_ClaimedBy j = Some w) \/ j' = j).
Proof.
  intros Hr Hn Hj. pose proof (tableOk_mono _ _ _ Hn (reachable_tableOk q now d Hr)) as Ht.
  assert (Hx : exists j', d_jobs (runOp q now' o d) !! i = Some j' /\ rowNext now' j j').
  { destruct (runOp_next q now' o d Ht) as [[_ Hs]|(p & payload & _ & _ & _ & Hd & _)].
    - specialize (Hs i). by rewrite Hj in Hs.
    - exists j. split; [|by left]. rewrite Hd. rewrite lookup_insert_ne; [done|].
      pose proof (to_next _ _ Ht i j Hj). lia. }
  destruct Hx as (j' & Hj' & Hs). exists j'. destruct (rowNext_allowed _ _ _ Hs) as (A & B & C). splits; try tauto.
  intros w Hw. destruct (owned_op_guard q now' o w d i j Hw (to_ids _ _ Ht) Hj) as [?|He]; [by left|].
  right. rewrite Hj' in He. by injection He.
Qed.

(** Claiming drains the queue in order: when as many claims follow each other
    as there are eligible jobs, each succeeds, they take the jobs by falling
    priority, then due time, then id, and nothing eligible is left; a claim
    on an empty queue reports that there is no job. *)
Theorem claims_drain_queue q now locked ws d0 :
  (exists now0, reachable q now0 d0) -> Forall (fun w => w <> "") ws -> length ws = length (claimQueue now locked d0) ->
  exists d, claimAll q now locked ws d0 =
      (d, zip_with (fun w j => Ok (claimRow now w j)) ws (claimQueue now locked d0)) /\
    StronglySorted claimLe (claimQueue now locked d0) /\
    (forall j, j ∈ claimQueue now locked d0 <->
       d_jobs d0 !! j_ID j = Some j /\ j_Status j = StatusQueued /\ j_RunAt j <= now /\ j_ID j ∉ locked) /\
    (forall w, w <> "" -> Claim q now locked w d = (d, Err ErrNoJob)).
Proof.
  intros [now0 Hr] Hw Hl. pose proof (to_ids _ _ (reachable_tableOk q now0 d0 Hr)) as Hi.
  destruct (claimAll_drains q now locked ws d0 Hi Hw Hl) as (d & E & He). exists d.
  splits; [done|apply claimQueue_sorted|intros j; by apply claimQueue_in|].
  intros w Hne. pose proof (Claim_run q now locked w d) as H. rewrite He in H. by apply H.
Qed.

(** The reaper terminates and recovers every stale claim: it changes exactly
    running jobs whose heartbeat had expired, as the rule for them says, no
    claim that is stale for its last batch is left, and it reports as many jobs
    as stopped running. *)
Theorem reap_recovers_stale q now locked staleAfter d now0 :
  reachable q now0 d -> 0 < staleAfter ->
  exists d' stats k, ReapStale q now locked staleAfter d = Some (d', Ok (stats, k)) /\
    reapedBy now locked staleAfter 0 k d d' /\
    (forall i j, d_jobs d' !! i = Some j -> stale (now k) staleAfter (locked k) j = false) /\
    ReapStats_Total stats = Z.of_nat (size (runningIDs d)) - Z.of_nat (size (runningIDs d')).
Proof.
  intros Hr Hs. pose proof (to_ids _ _ (reachable_tableOk q now0 d Hr)) as Hi. unfold ReapStale.
  destruct (Z.leb_spec staleAfter 0); [lia|]. pose proof (runningIDs_size d).
  destruct (reapBatches_spec q now locked staleAfter (S (size (d_jobs d))) 0 (mkReap 0 0 0) d Hi) as
    (d' & stats & k & -> & _ & H1 & H2 & H3); [lia|]. exists d', stats, k. by splits.
Qed.

(** The retry delay doubles from thirty seconds up to fifteen minutes and
    never overflows, for every number of attempts. *)
Theorem backoff_bounds attempt :
  1 <= attempt -> defaultBackoff attempt = Z.min (30 * second * 2 ^ (attempt - 1)) (900 * second) /\
    30 * second <= defaultBackoff attempt <= 900 * second.
Proof.
  intros Ha. unfold defaultBackoff. rewrite backoffLoop_spec by (unfold defaultRetryBase, defaultRetryCap, second; lia).
  replace (Z.max 0 (attempt - 1)) with (attempt - 1) by lia. split; [done|].
  assert (1 <= 2 ^ (attempt - 1)) by (apply (Z.pow_le_mono_r 2 0); lia). unfold defaultRetryBase, defaultRetryCap, second. nia.
Qed.

(** Enqueueing under a deduplication key, with other clients committing
    between its statements, either inserts a queued job in the table or returns
    an active job that holds the key; the table keeps its invariant. *)
Theorem enqueue_dedupes q now others p d d' r :
  (forall k d, tableOk (now k) d -> tableOk (now k) (others k d)) -> (forall k, now k <= now (S k)) ->
  tableOk (now 0%nat) d -> Enqueue q now others p d = (d', r) ->
  (exists k, tableOk (now k) d') /\ enqueued p d' r.
Proof.
  intros Ho Hn Ht E. unfold Enqueue in E. destruct (String.eqb_spec (ep_Kind p) "") as [|Hk].
  { injection E as <- <-. split; [by exists 0%nat|done]. }
  unfold eff_bind, eff_lift in E. destruct (marshalObject (ep_Payload p)) as [payload|err].
  - by apply (enqueueLoop_ok q now others Ho Hn p payload Hk) in E.
  - injection E as <- <-. split; [by exists 0%nat|done].
Qed.

(** *** A small queue *)

Definition demoQueue : Queue := NewQueue true.
Definition demoEnqueue (kind key : string) (prio : Z) : EnqueueParams := mkEnqueue kind PayloadNil key prio None 2 "test".

Definition demoOps : list jobOp :=
  [OpInsert (demoEnqueue "sync" "k" 0) "{}"; OpInsert (demoEnqueue "sync" "k" 5) "{}"; OpInsert (demoEnqueue "import" "" 7) "{}";
   OpInsert (demoEnqueue "eod" "" 0) "{}"].

Definition runOps (now : Z) (ops : list jobOp) (d : DB) : DB := fold_left (fun d o => runOp demoQueue now o d) ops d.

Lemma runOps_reachable now ops : forall d, reachable demoQueue now d -> reachable demoQueue now (runOps now ops d).
Proof.
  unfold runOps. induction ops as [|o ops IH]; intros d Hd; cbn [fold_left]; [done|]. apply IH.
  by apply (reach_step demoQueue now); [|lia].
Qed.

Definition demoDB : DB := runOps 100 demoOps emptyDB.

Lemma demoDB_reachable : reachable demoQueue 100 demoDB.
Proof. apply runOps_reachable, reach_empty. Qed.

(** Jobs 1 (sync), 2 (import) and 3 (eod): the second insert was deduplicated. *)
Lemma jobs_table_invariant_witness :
  reachable demoQueue 100 demoDB /\ size (d_jobs demoDB) = 3%nat /\ uniqueActive demoDB.
Proof.
  split; [apply demoDB_reachable|]. split; [vm_compute; reflexivity|].
  apply (jobs_table_invariant demoQueue 100 demoDB demoDB_reachable).
Defined.

Lemma job_lifecycle_witness :
  exists j j', d_jobs demoDB !! 2 = Some j /\ d_jobs (runOp demoQueue 200 (OpClaim ∅ "w1") demoDB) !! 2 = Some j' /\
    j_Status j' = StatusRunning /\ allowed (j_Status j) (j_Status j') = true.
Proof.
  destruct (d_jobs demoDB !! 2) as [j|] eqn:Ej; [|exfalso; revert Ej; vm_compute; discriminate].
  destruct (job_lifecycle demoQueue 100 200 demoDB (OpClaim ∅ "w1") 2 j demoDB_reachable ltac:(lia) Ej) as (j' & E & H & _).
  exists j, j'. split; [reflexivity|]. split; [exact E|]. split; [|exact H].
  revert E. clear. intros E. vm_compute in E. injection E as <-. reflexivity.
Defined.

Lemma claims_drain_queue_witness :
  exists d, claimAll demoQueue 200 ∅ ["w1"; "w2"; "w1"] demoDB =
      (d, zip_with (fun w j => Ok (claimRow 200 w j)) ["w1"; "w2"; "w1"] (claimQueue 200 ∅ demoDB)) /\
    map j_ID (claimQueue 200 ∅ demoDB) = [2; 1; 3] /\ Claim demoQueue 200 ∅ "w3" d = (d, Err ErrNoJob).
Proof.
  destruct (claims_drain_queue demoQueue 200 ∅ ["w1"; "w2"; "w1"] demoDB) as (d & E & _ & _ & H).
  - exists 100. apply demoDB_reachable.
  - repeat constructor; discriminate.
  - vm_compute. reflexivity.
  - exists d. split; [exact E|]. split; [vm_compute; reflexivity|]. apply H. discriminate.
Defined.

(** Two claims, one of which has gone stale. *)
Definition demoClaimed : DB := runOps 100 [OpClaim ∅ "w1"; OpClaim ∅ "w2"] demoDB.

Lemma demoClaimed_reachable : reachable demoQueue 100 demoClaimed.
Proof. apply runOps_reachable, demoDB_reachable. Qed.

Lemma reap_recovers_stale_witness :
  exists d' stats k, ReapStale demoQueue (fun _ => 300) (fun _ => ∅) 60 demoClaimed = Some (d', Ok (stats, k)) /\
    ReapStats_Total stats = 2 /\
    (forall i j, d_jobs d' !! i = Some j -> stale 300 60 ∅ j = false).
Proof.
  destruct (reap_recovers_stale demoQueue (fun _ => 300) (fun _ => ∅) 60 demoClaimed 100 demoClaimed_reachable ltac:(lia))
    as (d' & stats & k & E & _ & H & _).
  exists d', stats, k. split; [exact E|]. split; [|exact H].
  revert E. clear. intros E. vm_compute in E. injection E as <- <- <-. vm_compute. reflexivity.
Defined.

Lemma backoff_bounds_witness : defaultBackoff 40 = 900 * second /\ 30 * second <= defaultBackoff 40 <= 900 * second.
Proof. split; [vm_compute; reflexivity|]. apply (backoff_bounds 40). lia. Defined.

Lemma enqueue_dedupes_witness :
  exists d' job, Enqueue demoQueue (fun _ => 100) (fun _ d => d) (demoEnqueue "sync" "k" 1) demoDB = (d', Ok (job, true)) /\
    d_jobs d' !! j_ID job = Some job /\ active job = true.
Proof.
  destruct (Enqueue demoQueue (fun _ => 100) (fun _ d => d) (demoEnqueue "sync" "k" 1) demoDB) as [d' r] eqn:E.
  destruct (enqueue_dedupes demoQueue (fun _ => 100) (fun _ d => d) (demoEnqueue "sync" "k" 1) demoDB d' r) as [_ H];
    [intros k d Hd; exact Hd|intros k; lia|apply (reachable_tableOk demoQueue 100), demoDB_reachable|exact E|].
  destruct r as [[job [|]]|err].
  - exists d', job. split; [reflexivity|]. destruct H as (H1 & H2 & _). split; [exact H1|exact H2].
  - exfalso. revert E. clear. vm_compute. discriminate.
  - exfalso. revert E. clear. vm_compute. discriminate.
Defined.

(** The guard of the owner is the worker's name, which all executors of a worker
    share: an executor whose claim was reaped and taken again by a sibling still
    passes it, and its late result finishes the sibling's attempt. *)
Theorem sibling_result_accepted :
  let d := runOps 100 [OpInsert (demoEnqueue "sync" "" 0) "{}"; OpClaim ∅ "w1"] emptyDB in
  let d := runOps 300 [OpReap 60 ∅; OpClaim ∅ "w1"] d in
  exists d' j, Succeed demoQueue 301 1 "w1" PayloadNil d = (d', Ok j) /\ j_Attempts j = 2 /\
    j_Status j = StatusSucceeded /\ Heartbeat 302 1 "w1" d' = (d', Err ErrLostClaim).
Proof. vm_compute. eexists _, _. by repeat split. Qed.

(** The owned row after a transition, with the result it is returned in. *)
Definition settledAs (now : Z) (d d' : DB) (i : Z) (w : string) (r : res (option Job)) (st : Job -> Status) : Prop :=
  match owned i w d with
  | None => d' = d
  | Some j => exists j', d_jobs d' !! i = Some j' /\ rowStep now j j' /\ r = Ok (Some j') /\ j_Status j' = st j
  end.

Lemma finishOwned_settles q now i w action event row st d d' r : idsOk d ->
  (forall x, j_Status x = StatusRunning -> rowStep now x (row x)) -> (forall x, j_Status (row x) = st x) ->
  (job <-! finishOwned q i w action event row ;; eff_ret (Some job)) d = (d', r) -> settledAs now d d' i w r st.
Proof.
  intros Hi Hrow Hst. unfold eff_bind, settledAs. pose proof (finishOwned_run q i w action event row d) as H.
  destruct (owned i w d) as [j|] eqn:Eo; [|rewrite H; by intros [= <- <-]]. destruct H as (d2 & -> & Hd & _).
  intros [= <- <-]. apply owned_some in Eo as (Hj & _ & Hs). exists (row j).
  rewrite Hd, (rowStep_id _ _ _ (Hrow j Hs)), (Hi i j Hj), lookup_insert_eq. splits; try done. by apply Hrow.
Qed.

Lemma Fail_settles q now i w e d d' r : idsOk d ->
  (job <-! Fail q now i w e ;; eff_ret (Some job)) d = (d', r) ->
  settledAs now d d' i w r (fun j => if j_Attempts j <? j_MaxAttempts j then StatusQueued else StatusFailed).
Proof.
  intros Hi. unfold eff_bind, settledAs. pose proof (Fail_run q now i w e d) as H.
  destruct (owned i w d) as [j|] eqn:Eo; [|rewrite H; by intros [= <- <-]]. destruct H as (d2 & -> & Hd & _).
  intros [= <- <-]. apply owned_some in Eo as (Hj & _ & Hs). exists (failRow q now e j).
  rewrite Hd, (Hi i j Hj), lookup_insert_eq. splits; try done; unfold failRow; destruct (Z.ltb_spec (j_Attempts j) (j_MaxAttempts j)); try done.
  - by apply row_requeue.
  - by apply row_failed.
Qed.

(** An executor's last transaction settles its job: if the job still runs
    under its worker it leaves the running state, for the state the outcome
    calls for (succeeded, canceled, back in the queue on a drain, or retried
    while attempts remain and failed otherwise); if the claim is gone the table
    does not change. *)
Theorem finalize_settles q now w i state result err d d' r :
  idsOk d -> is_ok (marshalObject result) = true -> finalize q now w i state result err d = (d', r) ->
  if lost state then d' = d
  else settledAs now d d' i w r (fun j =>
    match err with
    | None => StatusSucceeded
    | Some e => if cancelRequested state then StatusCanceled
                else if drainExpired state && isContextErr e then StatusQueued
                else if j_Attempts j <? j_MaxAttempts j then StatusQueued else StatusFailed
    end).
Proof.
  intros Hi Hm E. unfold finalize in E. destruct (lost state); [by injection E as <- <-|].
  destruct err as [e|]; [destruct (cancelRequested state); [|destruct (_ && _)]|].
  - by eapply (finishOwned_settles q now) in E; [|done|intros x; apply row_canceled|].
  - by eapply (finishOwned_settles q now) in E; [|done|intros x; apply row_release|].
  - by apply Fail_settles in E.
  - unfold Succeed in E. destruct (marshalObject result) as [b|]; [|done].
    by eapply (finishOwned_settles q now i w "job.succeeded" "succeeded" (succeedRow now b)) in E; [|done|intros x; apply row_succeed|].
Qed.

Lemma finalize_settles_witness :
  exists d' j', finalize demoQueue 200 "w1" 2 (mkExecState false false false) PayloadNil (Some (mkHandlerError "boom" false))
      demoClaimed = (d', Ok (Some j')) /\ j_Status j' = StatusQueued /\ d_jobs d' !! 2 = Some j'.
Proof.
  destruct (finalize demoQueue 200 "w1" 2 (mkExecState false false false) PayloadNil (Some (mkHandlerError "boom" false))
      demoClaimed) as [d' r] eqn:E.
  pose proof (finalize_settles demoQueue 200 "w1" 2 (mkExecState false false false) PayloadNil
    (Some (mkHandlerError "boom" false)) demoClaimed d' r) as H.
  cbn [lost] in H. unfold settledAs in H.
  destruct (owned 2 "w1" demoClaimed) as [j|] eqn:Eo; [|exfalso; revert Eo; vm_compute; discriminate].
  destruct H as (j' & H1 & _ & -> & Hs);
    [apply (to_ids 100), (reachable_tableOk demoQueue), demoClaimed_reachable|reflexivity|exact E|].
  exists d', j'. split; [reflexivity|]. split; [|exact H1]. rewrite Hs.
  revert Eo. clear. intros Eo. vm_compute in Eo. injection Eo as <-. reflexivity.
Defined.
