(* ===== verification/Nsga2.v ===== *)
(** * Non-dominated sorting and survival (src/internal/hyperopt/nsga2)

    The selection core of NSGA-II: Pareto dominance on loss vectors, the fast
    non-dominated sort with its domination counts, crowding distance and elite
    selection (dominance.go, crowding.go, selectElite of nsga2.go).  The members
    of a front are indices into the population, as the Go slices hold pointers
    into it; the sort writes ranks into the shared individuals, so it returns
    the population with its ranks.  Objective values are floats, infinities and
    NaN included.  [sort.SliceStable] is the insertion sort Go uses on short
    slices; on a strict weak order every stable sort gives its result.  [None]
    is a panic: two loss vectors of different lengths. *)

From Stdlib Require Import SpecFloat.
From stdpp Require Import gmap strings list sorting.
From S2P Require Import Prelude Lists Fixed Money Float64.
Set Default Goal Selector "!".
#[local] Open Scope string_scope.
#[local] Open Scope Z_scope.
#[local] Open Scope list_scope.
#[local] Abbreviation length := List.length.

(** ** Individuals and dominance (dominance.go) *)

Record ObjectiveSpec : Set := mkObjective { ob_Name : string; ob_Maximize : bool }.

Abbreviation Genome := (list float64) (only parsing).

Record individual : Set := mkIndividual {
  i_id : Z;
  i_gen : Z;
  i_genome : Genome;
  i_values : list float64;
  i_loss : list float64;
  i_rank : Z;
  i_evalOK : bool;
  i_evalErr : option error
}.

Definition set_rank (r : Z) (x : individual) : individual :=
  mkIndividual (i_id x) (i_gen x) (i_genome x) (i_values x) (i_loss x) r (i_evalOK x) (i_evalErr x).

Fixpoint toLoss (values : list float64) (objs : list ObjectiveSpec) : list float64 :=
  match values with
  | [] => []
  | v :: values =>
      match objs with
      | ob :: objs => (if ob_Maximize ob then fneg v else v) :: toLoss values objs
      | [] => v :: toLoss values []
      end
  end.

(** The loop over the coordinates; reading past the end of [b] panics. *)
Fixpoint dominatesLoop (a b : list float64) (betterInOne : bool) : option bool :=
  match a with
  | [] => Some betterInOne
  | av :: a =>
      match b with
      | [] => None
      | bv :: b =>
          if isNaN av || isNaN bv then Some false
          else if fltb bv av then Some false
          else dominatesLoop a b (betterInOne || fltb av bv)
      end
  end.

Definition dominatesLoss (a b : list float64) : option bool := dominatesLoop a b false.

(** ** fastNonDominatedSort

    [dom p q] for indices is [dominatesLoss pop[p].loss pop[q].loss]; the sort
    reads the population only through it. *)

Section Sort.
Context (dom : nat -> nat -> bool).

Definition dominatedBy (n p : nat) : list nat :=
  List.filter (fun q => negb (p =? q)%nat && dom p q) (seq 0 n).

Definition dominationCount (n p : nat) : Z :=
  Z.of_nat (length (List.filter (fun q => negb (p =? q)%nat && negb (dom p q) && dom q p) (seq 0 n))).

(** The counts, the ranks and the next front while a front is processed. *)
Record sortState : Set := mkSort { ss_counts : list Z; ss_ranks : list (option Z); ss_next : list nat }.

(** [dominationCount[q]--], and [q] joins the next front at zero. *)
Definition relax (rank : Z) (st : sortState) (q : nat) : sortState :=
  let c := default 0 (ss_counts st !! q) - 1 in
  let counts := <[q := c]> (ss_counts st) in
  if c =? 0 then mkSort counts (<[q := Some (rank + 1)]> (ss_ranks st)) (ss_next st ++ [q])
  else mkSort counts (ss_ranks st) (ss_next st).

Definition relaxFront (n : nat) (rank : Z) (curIdx : list nat) (st : sortState) : sortState :=
  fold_left (fun st p => fold_left (relax rank) (dominatedBy n p) st) curIdx st.

(** [for len(curIdx) > 0]; every round but the last assigns an individual, so [n] rounds suffice. *)
Fixpoint frontLoop (fuel n : nat) (rank : Z) (curIdx : list nat) (counts : list Z) (ranks : list (option Z))
    : option (list (list nat) * list (option Z)) :=
  match fuel with
  | O => None
  | S fuel =>
      if (length curIdx =? 0)%nat then Some ([], ranks)
      else
        let st := relaxFront n rank curIdx (mkSort counts ranks []) in
        if (length (ss_next st) =? 0)%nat then Some ([], ss_ranks st)
        else '(fronts, ranks) ← frontLoop fuel n (rank + 1) (ss_next st) (ss_counts st) (ss_ranks st);
             Some (ss_next st :: fronts, ranks)
  end.

(** The fronts as indices, and the rank each index was given. *)
Definition sortFronts (n : nat) : option (list (list nat) * list (option Z)) :=
  if (n =? 0)%nat then Some ([], [])
  else
    let counts := map (dominationCount n) (seq 0 n) in
    let first := List.filter (fun p => default 0 (counts !! p) =? 0) (seq 0 n) in
    let ranks := map (fun c => if c =? 0 then Some 0 else None) counts in
    '(fronts, ranks) ← frontLoop (S n) n 0 first counts ranks;
    Some (first :: fronts, ranks).
End Sort.

Definition lossOf (pop : list individual) (i : nat) : list float64 :=
  match pop !! i with Some x => i_loss x | None => [] end.

Definition domIn (pop : list individual) (p q : nat) : bool :=
  default false (dominatesLoss (lossOf pop p) (lossOf pop q)).

Definition applyRanks (pop : list individual) (ranks : list (option Z)) : list individual :=
  zip_with (fun x r => match r with Some r => set_rank r x | None => x end) pop ranks.

(** Every ordered pair is compared; a vector longer than another panics. *)
Definition comparable (pop : list individual) : bool :=
  forallb (fun p => forallb (fun q => (p =? q)%nat || match dominatesLoss (lossOf pop p) (lossOf pop q) with Some _ => true | None => false end)
                      (seq 0 (length pop))) (seq 0 (length pop)).

(** The sort writes the ranks into the shared individuals. *)
Definition fastNonDominatedSort (pop : list individual) : option (list (list nat) * list individual) :=
  if negb (comparable pop) then None
  else
    '(fronts, ranks) ← sortFronts (domIn pop) (length pop);
    Some (fronts, applyRanks pop ranks).

(** ** crowdingDistances (dominance.go) and sortByCrowdingDesc (crowding.go) *)

Definition fnth (l : list float64) (i : nat) : float64 := default fzero (l !! i).

(** One objective: the gaps of the individuals in its order. *)
Definition crowdGap (vs : list float64) (width : float64) (j : nat) : float64 :=
  let below := if (j =? 0)%nat then S754_infinity true else fnth vs (j - 1) in
  let above := if (j =? length vs - 1)%nat then S754_infinity false else fnth vs (j + 1) in
  let gap := if negb (feqb below above) then fsub above below else fzero in
  fdiv gap width.

Definition addCrowd (dist : gmap Z float64) (ids : list Z) (gaps : list float64) : gmap Z float64 :=
  fold_left (fun d '(id, g) => <[id := fadd (default fzero (d !! id)) g]> d) (zip ids gaps) dist.

Definition crowdObjective (obj : nat) (st : list individual * gmap Z float64) : list individual * gmap Z float64 :=
  let '(work, dist) := st in
  let work := sliceStable (fun a b => fltb (fnth (i_loss a) obj) (fnth (i_loss b) obj)) work in
  let vs := map (fun x => fnth (i_loss x) obj) work in
  let lo := fnth vs 0 in
  let hi := fnth vs (length vs - 1) in
  if feqb lo hi then (work, dist)
  else
    let width := fsub hi lo in
    let width := if fleb width fzero then flit 1 1 else width in
    (work, addCrowd dist (map i_id work) (map (crowdGap vs width) (seq 0 (length vs)))).

Definition crowdingDistances (front : list individual) : gmap Z float64 :=
  match front with
  | [] => ∅
  | x :: _ =>
      let dist := fold_left (fun d y => <[i_id y := fzero]> d) front ∅ in
      snd (fold_left (fun st obj => crowdObjective obj st) (seq 0 (length (i_loss x))) (front, dist))
  end.

Definition crowdLess (dist : gmap Z float64) (a b : individual) : bool :=
  let da := default fzero (dist !! i_id a) in
  let db := default fzero (dist !! i_id b) in
  if negb (feqb da db) then fltb db da else i_id a <? i_id b.

Definition sortByCrowdingDesc (front : list individual) (dist : gmap Z float64) : list individual :=
  sliceStable (crowdLess dist) front.

(** ** selectElite (nsga2.go) *)

Definition members (pop : list individual) (front : list nat) : list individual := omap (fun i => pop !! i) front.

Fixpoint eliteLoop (size : nat) (pop : list individual) (fronts : list (list nat)) (elite : list individual) : list individual :=
  match fronts with
  | [] => elite
  | front :: fronts =>
      let front := members pop front in
      if (length elite + length front <=? size)%nat then
        let elite := elite ++ front in
        if (length elite =? size)%nat then elite else eliteLoop size pop fronts elite
      else
        let need := (size - length elite)%nat in
        elite ++ firstn need (sortByCrowdingDesc front (crowdingDistances front))
  end.

Definition selectElite (pop : list individual) (size : nat) : option (list individual) :=
  '(fronts, pop) ← fastNonDominatedSort pop;
  Some (if (length pop <=? size)%nat then pop else eliteLoop size pop fronts []).

(** ** Dominance is a strict partial order *)

Definition noWorse (a b : float64) : Prop := isNaN a = false /\ isNaN b = false /\ ~ klt (fkey b) (fkey a).
Definition dominates (a b : list float64) : Prop :=
  Forall2 noWorse a b /\ Exists (fun '(x, y) => klt (fkey x) (fkey y)) (zip a b).

Lemma dominatesLoop_total a : forall b better, length a = length b -> exists r, dominatesLoop a b better = Some r.
Proof.
  induction a as [|x a IH]; intros [|y b] better Hl; cbn; try discriminate; [by eexists|].
  destruct (isNaN x || isNaN y); [by eexists|]. destruct (fltb y x); [by eexists|]. apply IH. by injection Hl.
Qed.

Lemma dominatesLoop_spec a : forall b better, length a = length b ->
  dominatesLoop a b better = Some true <->
  Forall2 noWorse a b /\ (better = true \/ Exists (fun '(x, y) => klt (fkey x) (fkey y)) (zip a b)).
Proof.
  induction a as [|x a IH]; intros [|y b] better Hl; cbn [dominatesLoop]; try discriminate.
  { cbn. split; [intros [= ->]; by split; [constructor|left]|]. intros [_ [->|H]]; [done|inversion H]. }
  injection Hl as Hl. destruct (isNaN x) eqn:Hx, (isNaN y) eqn:Hy; cbn [orb];
    try (split; [discriminate|]; intros [H _]; inversion H as [|? ? ? ? [N1 [N2 _]]]; subst; congruence).
  destruct (fltb y x) eqn:Hlt.
  { split; [discriminate|]. intros [H _]. inversion H as [|? ? ? ? [_ [_ N]]]; subst. destruct N. by apply fltb_key. }
  assert (Hn : noWorse x y).
  { split; [done|split; [done|]]. intros H. apply fltb_key in H; [|done..]. congruence. }
  rewrite IH by done. cbn [zip zip_with]. rewrite Exists_cons, orb_true_iff.
  assert (Hk : fltb x y = true <-> klt (fkey x) (fkey y)) by (by apply fltb_key).
  split; intros [H1 H2]; [split; [by constructor|tauto]|]. inversion H1; subst. split; [done|tauto].
Qed.

Lemma dominatesLoss_spec a b : length a = length b -> dominatesLoss a b = Some true <-> dominates a b.
Proof.
  intros Hl. unfold dominatesLoss, dominates. rewrite dominatesLoop_spec by done. split; intros [H1 H2]; (split; [done|]).
  - by destruct H2.
  - by right.
Qed.

Lemma dominates_irrefl a : ~ dominates a a.
Proof.
  intros [_ H]. induction a as [|x a IH]; cbn in H; inversion H as [? ? Hk|? ? He]; subst; [by apply klt_irrefl in Hk|by apply IH].
Qed.

Lemma dominates_trans a b c : dominates a b -> dominates b c -> dominates a c.
Proof.
  intros [H1 E1] [H2 _]. revert c H2. induction H1 as [|x y a b [Nx [Ny Hxy]] H1 IH]; intros c H2; [inversion E1|].
  inversion H2 as [|? z ? c' [_ [Nz Hyz]] H2']; subst. cbn in E1. split.
  - constructor; [split; [done|split; [done|by apply (klt_not _ (fkey y))]]|].
    clear IH E1 H2. revert c' H2'. induction H1 as [|x' y' a b [Nx' [Ny' Hxy']] H1 IH]; intros c' H2'; inversion H2' as [|? z' ? c2 [_ [Nz' Hyz']] H3]; subst;
      constructor; [split; [done|split; [done|by apply (klt_not _ (fkey y'))]]|by apply IH].
  - cbn. apply Exists_cons. inversion E1 as [? ? Hk|? ? He]; subst.
    + left. by apply (klt_lt_not _ (fkey y)).
    + right. by apply IH.
Qed.

(** ** The fast non-dominated sort peels off non-dominated layers *)

Section Layers.
Context (dom : nat -> nat -> bool) (n : nat).
Context (Hirr : forall p, dom p p = false) (Htr : forall p q r, dom p q = true -> dom q r = true -> dom p r = true).

Lemma dom_asym p q : dom p q = true -> dom q p = false.
Proof. intros H. destruct (dom q p) eqn:E; [|done]. pose proof (Htr p q p H E) as F. by rewrite Hirr in F. Qed.

(** The dominators of [q] outside [done]. *)
Definition pending (done : list nat) (q : nat) : list nat :=
  List.filter (fun p => dom p q && negb (bool_decide (p ∈ done))) (seq 0 n).

Lemma pending_in done q p : p ∈ pending done q <-> (p < n)%nat /\ dom p q = true /\ p ∉ done.
Proof.
  unfold pending. rewrite list_elem_of_In, filter_In, in_seq, andb_true_iff, negb_true_iff.
  rewrite bool_decide_eq_false. intuition lia.
Qed.

Lemma count_pending q : dominationCount dom n q = Z.of_nat (length (pending [] q)).
Proof.
  unfold dominationCount, pending. f_equal. f_equal. apply filter_ext. intros p.
  destruct (Nat.eqb_spec q p) as [->|]; cbn [negb andb]; [by rewrite Hirr|]. destruct (dom p q) eqn:E.
  - by rewrite (dom_asym p q E).
  - by rewrite andb_false_r.
Qed.

Abbreviation occ q l := (count_occ Nat.eq_dec l q).

Lemma occ_dominatedBy p q : (q < n)%nat -> occ q (dominatedBy dom n p) = if dom p q then 1%nat else 0%nat.
Proof.
  intros Hq. unfold dominatedBy. assert (E : forall l, List.NoDup l -> In q l ->
    occ q (List.filter (fun q => negb (p =? q)%nat && dom p q) l) = if dom p q then 1%nat else 0%nat).
  { intros l Hd Hin. destruct (dom p q) eqn:Ed.
    - apply NoDup_count_occ'; [by apply List.NoDup_filter|]. apply filter_In. split; [done|]. rewrite Ed.
      destruct (Nat.eqb_spec p q) as [->|]; [|done]. by rewrite Hirr in Ed.
    - apply count_occ_not_In. rewrite filter_In, Ed, andb_false_r. by intros [_ ?]. }
  apply E; [apply seq_NoDup|apply in_seq; lia].
Qed.

Lemma occ_relaxed cur q : (q < n)%nat -> occ q (List.concat (map (dominatedBy dom n) cur)) = length (List.filter (fun p => dom p q) cur).
Proof.
  intros Hq. induction cur as [|p cur IH]; cbn; [done|]. rewrite count_occ_app, occ_dominatedBy, IH by done. by destruct (dom p q).
Qed.

(** Processing a list of decrements. *)
Lemma relax_list rank qs : forall st, length (ss_ranks st) = length (ss_counts st) ->
  (forall q, q ∈ qs -> (q < length (ss_counts st))%nat) ->
  (forall q c, ss_counts st !! q = Some c -> Z.of_nat (occ q qs) <= c) ->
  let st' := fold_left (relax rank) qs st in
  exists new, ss_next st' = ss_next st ++ new /\ base.NoDup new /\
    (forall q, q ∈ new <-> q ∈ qs /\ ss_counts st !! q = Some (Z.of_nat (occ q qs))) /\
    length (ss_counts st') = length (ss_counts st) /\ length (ss_ranks st') = length (ss_ranks st) /\
    (forall q c, ss_counts st !! q = Some c -> ss_counts st' !! q = Some (c - Z.of_nat (occ q qs))) /\
    (forall q, q ∈ new -> ss_ranks st' !! q = Some (Some (rank + 1))) /\
    (forall q, q ∉ new -> ss_ranks st' !! q = ss_ranks st !! q).
Proof.
  induction qs as [|q0 qs IH]; intros st Hlen Hin Hle; cbn [fold_left].
  { exists []. rewrite app_nil_r. splits; try done; [constructor|split; [intros H|intros [H _]]; by apply not_elem_of_nil in H| |].
    - intros q c Hc. cbn. by rewrite Z.sub_0_r.
    - intros q H. by apply not_elem_of_nil in H. }
  destruct (lookup_lt_is_Some_2 (ss_counts st) q0) as [c0 Hc0]; [apply Hin; left|].
  pose proof (Hle q0 c0 Hc0) as H0. cbn in H0. destruct (Nat.eq_dec q0 q0) as [_|]; [|done].
  set (st1 := relax rank st q0).
  assert (E1 : ss_counts st1 = <[q0 := c0 - 1]> (ss_counts st)).
  { unfold st1, relax. rewrite Hc0. cbn [from_option id]. by destruct (c0 - 1 =? 0). }
  assert (El : length (ss_ranks st1) = length (ss_counts st1)).
  { rewrite E1, length_insert, <- Hlen. unfold st1, relax. destruct (_ =? 0); cbn; [by rewrite length_insert|done]. }
  assert (Hq0 : (q0 < length (ss_counts st))%nat) by (by apply lookup_lt_Some in Hc0).
  destruct (IH st1 El) as (new & N1 & N2 & N3 & N4 & N5 & N6 & N7 & N8).
  { intros q Hq. rewrite E1, length_insert. apply Hin. by right. }
  { intros q c. rewrite E1. destruct (decide (q = q0)) as [->|Hne].
    - rewrite list_lookup_insert_eq by done. intros [= <-]. lia.
    - rewrite list_lookup_insert_ne by done. intros Hc. pose proof (Hle q c Hc) as H1. cbn in H1.
      destruct (Nat.eq_dec q0 q); [done|lia]. }
  assert (Hnew : forall q c, q <> q0 -> ss_counts st !! q = Some c -> ss_counts st1 !! q = Some c)
    by (intros q c Hne Hc; by rewrite E1, list_lookup_insert_ne).
  assert (Hcnt : forall q c, ss_counts st !! q = Some c ->
            ss_counts (fold_left (relax rank) qs st1) !! q = Some (c - Z.of_nat (occ q (q0 :: qs)))).
  { intros q c Hc. cbn. destruct (Nat.eq_dec q0 q) as [<-|Hne]; [|apply N6, Hnew; done].
    rewrite Hc in Hc0. injection Hc0 as ->. rewrite (N6 q0 (c0 - 1)) by (by rewrite E1, list_lookup_insert_eq). f_equal. lia. }
  destruct (Z.eqb_spec (c0 - 1) 0) as [Hz|Hz].
  - assert (Hocc : occ q0 qs = 0%nat) by lia. assert (Hnin : q0 ∉ qs) by (rewrite list_elem_of_In; by apply (count_occ_not_In Nat.eq_dec)).
    assert (Hn0 : q0 ∉ new) by (intros H; by apply N3 in H as [H _]).
    assert (Es : st1 = mkSort (<[q0 := c0 - 1]> (ss_counts st)) (<[q0 := Some (rank + 1)]> (ss_ranks st)) (ss_next st ++ [q0])).
    { unfold st1, relax. rewrite Hc0. cbn [from_option id]. by rewrite (proj2 (Z.eqb_eq _ _) Hz). }
    exists (q0 :: new). splits.
    + rewrite N1, Es. cbn. by rewrite <- app_assoc.
    + by constructor.
    + intros q. rewrite elem_of_cons, N3, elem_of_cons. cbn. destruct (Nat.eq_dec q0 q) as [<-|Hne].
      * split; [intros _; split; [by left|]|by intros _; left]. rewrite Hc0. f_equal. lia.
      * rewrite E1, list_lookup_insert_ne by done. intuition congruence.
    + by rewrite N4, E1, length_insert.
    + rewrite N5, El, E1, length_insert. done.
    + exact Hcnt.
    + intros q Hq. apply elem_of_cons in Hq as [->|Hq]; [|by apply N7]. rewrite N8 by done. rewrite Es. cbn.
      apply list_lookup_insert_eq. lia.
    + intros q Hq. apply not_elem_of_cons in Hq as [Hne Hq]. rewrite N8 by done. rewrite Es. cbn. by apply list_lookup_insert_ne.
  - assert (Es : st1 = mkSort (<[q0 := c0 - 1]> (ss_counts st)) (ss_ranks st) (ss_next st)).
    { unfold st1, relax. rewrite Hc0. cbn [from_option id]. by rewrite (proj2 (Z.eqb_neq _ _) Hz). }
    exists new. splits; try done.
    + rewrite N1, Es. done.
    + intros q. rewrite N3, elem_of_cons. cbn. destruct (Nat.eq_dec q0 q) as [<-|Hne].
      * rewrite E1, list_lookup_insert_eq, Hc0 by done. split.
        -- intros [Hq [= Hc]]. split; [by left|]. f_equal. lia.
        -- intros [_ [= Hc]]. split; [|f_equal; lia]. rewrite list_elem_of_In. apply (count_occ_In Nat.eq_dec). lia.
      * rewrite E1, list_lookup_insert_ne by done. intuition congruence.
    + by rewrite N4, E1, length_insert.
    + rewrite N5, El, E1, length_insert. done.
    + intros q Hq. rewrite N8 by done. by rewrite Es.
Qed.

Lemma pending_nil done q : pending done q = [] <-> forall p, (p < n)%nat -> p ∉ done -> dom p q = false.
Proof.
  split.
  - intros E p Hp Hd. destruct (dom p q) eqn:H; [|done]. assert (Hin : p ∈ pending done q) by (by apply pending_in).
    rewrite E in Hin. by apply not_elem_of_nil in Hin.
  - intros H. destruct (pending done q) as [|p l] eqn:E; [done|]. assert (Hin : p ∈ pending done q) by (rewrite E; left).
    apply pending_in in Hin as (Hp & Hd & Hn). rewrite H in Hd; done.
Qed.

(** A set that every non-dominated outsider belongs to is everything. *)
Lemma all_done done : (forall q, (q < n)%nat -> q ∉ done -> pending done q <> []) -> forall q, (q < n)%nat -> q ∈ done.
Proof.
  intros H. assert (Hwf : forall k q, length (pending [] q) = k -> (q < n)%nat -> q ∈ done).
  { intros k. induction (lt_wf k) as [k _ IH]. intros q Hk Hq. destruct (decide (q ∈ done)) as [|Hn]; [done|]. exfalso.
    destruct (pending done q) as [|p l] eqn:E; [by apply (H q)|].
    assert (Hp : p ∈ pending done q) by (rewrite E; left). apply pending_in in Hp as (Hp & Hd & Hpn). apply Hpn.
    refine (IH (length (pending [] p)) _ p eq_refl Hp). rewrite <- Hk.
    assert (Hlt : (length (p :: pending [] p) <= length (pending [] q))%nat); [|cbn in Hlt; lia].
    apply submseteq_length, NoDup_submseteq.
    - constructor; [intros Hin; apply pending_in in Hin as (_ & Hin & _); by rewrite Hirr in Hin|].
      apply NoDup_ListNoDup, List.NoDup_filter, seq_NoDup.
    - intros r Hr. apply elem_of_cons in Hr as [->|Hr]; apply pending_in; [splits; [done..|apply not_elem_of_nil]|].
      apply pending_in in Hr as (Hr & Hrp & _). splits; [done|by apply (Htr r p q)|apply not_elem_of_nil]. }
  intros q Hq. by apply (Hwf _ q eq_refl).
Qed.

(** The layers that remain once [done] is taken away. *)
Fixpoint layered (done : list nat) (fronts : list (list nat)) : Prop :=
  match fronts with
  | [] => forall q, (q < n)%nat -> q ∈ done
  | front :: fronts =>
      front <> [] /\ base.NoDup front /\
      (forall q, q ∈ front <-> (q < n)%nat /\ q ∉ done /\ forall p, (p < n)%nat -> p ∉ done -> dom p q = false) /\
      layered (done ++ front) fronts
  end.

Record sortInv (done cur : list nat) (counts : list Z) (ranks : list (option Z)) : Prop := {
  si_nodup : base.NoDup (done ++ cur);
  si_range : forall q, q ∈ done -> (q < n)%nat;
  si_len : length counts = n /\ length ranks = n;
  si_counts : forall q, (q < n)%nat -> counts !! q = Some (Z.of_nat (length (pending done q)));
  si_cur : forall q, q ∈ cur <-> (q < n)%nat /\ q ∉ done /\ pending done q = [];
  si_closed : forall p q, q ∈ done -> (p < n)%nat -> dom p q = true -> p ∈ done
}.

Lemma pending_split done cur q : base.NoDup (done ++ cur) -> (forall p, p ∈ cur -> (p < n)%nat) ->
  length (pending done q) = (length (pending (done ++ cur) q) + length (List.filter (fun p => dom p q) cur))%nat.
Proof.
  intros Hd Hr. apply list.NoDup_app in Hd as (_ & Hdis & Hc). rewrite <- length_app. apply Permutation_length, list.NoDup_Permutation.
  - apply NoDup_ListNoDup, List.NoDup_filter, seq_NoDup.
  - apply list.NoDup_app. splits; [apply NoDup_ListNoDup, List.NoDup_filter, seq_NoDup| |apply NoDup_ListNoDup, List.NoDup_filter; by apply NoDup_ListNoDup].
    intros p Hp Hf. apply pending_in in Hp as (_ & _ & Hp). apply list_elem_of_In, filter_In in Hf as [Hf _].
    apply Hp, elem_of_app. right. by apply list_elem_of_In.
  - intros p. rewrite elem_of_app, !pending_in, elem_of_app. rewrite (list_elem_of_In (List.filter _ _) p), filter_In, <- list_elem_of_In.
    specialize (Hr p). specialize (Hdis p). destruct (decide (p ∈ cur)); intuition.
Qed.

(** One round: the next front is the next layer. *)
Lemma relax_layer rank done cur counts ranks : sortInv done cur counts ranks ->
  let st := relaxFront dom n rank cur (mkSort counts ranks []) in
  sortInv (done ++ cur) (ss_next st) (ss_counts st) (ss_ranks st) /\
  (forall q, q ∈ ss_next st -> ss_ranks st !! q = Some (Some (rank + 1))) /\
  (forall q, q ∉ ss_next st -> ss_ranks st !! q = ranks !! q).
Proof.
  intros [Hnd Hrg [Hl1 Hl2] Hct Hcur Hcl]. cbv zeta. unfold relaxFront.
  assert (Hcr : forall p, p ∈ cur -> (p < n)%nat) by (intros p Hp; by apply Hcur in Hp as [Hp _]).
  set (qs := List.concat (map (dominatedBy dom n) cur)).
  assert (Ef : forall (l : list nat) st, fold_left (fun st p => fold_left (relax rank) (dominatedBy dom n p) st) l st =
            fold_left (relax rank) (List.concat (map (dominatedBy dom n) l)) st).
  { induction l as [|p l IH]; intros st; cbn; [done|]. by rewrite fold_left_app, IH. }
  rewrite Ef. fold qs.
  assert (Hqs : forall q, q ∈ qs <-> (q < n)%nat /\ exists p, p ∈ cur /\ dom p q = true).
  { intros q. unfold qs. rewrite list_elem_of_In, in_concat. split.
    - intros (l & Hl & Hq). apply in_map_iff in Hl as (p & <- & Hp). unfold dominatedBy in Hq. apply filter_In in Hq as [Hq Hd].
      apply in_seq in Hq. apply andb_true_iff in Hd as [_ Hd]. split; [lia|]. exists p. by rewrite list_elem_of_In.
    - intros (Hq & p & Hp & Hd). exists (dominatedBy dom n p). split; [apply in_map; by apply list_elem_of_In|].
      apply filter_In. split; [apply in_seq; lia|]. rewrite Hd. destruct (Nat.eqb_spec p q) as [->|]; [|done]. by rewrite Hirr in Hd. }
  assert (Hocc : forall q, (q < n)%nat -> length (pending done q) = (length (pending (done ++ cur) q) + count_occ Nat.eq_dec qs q)%nat).
  { intros q Hq. unfold qs. rewrite occ_relaxed by done. by apply pending_split. }
  destruct (relax_list rank qs (mkSort counts ranks [])) as (new & N1 & N2 & N3 & N4 & N5 & N6 & N7 & N8); cbn [ss_counts ss_ranks ss_next] in *.
  { congruence. }
  { intros q Hq. rewrite Hl1. by apply Hqs in Hq as [Hq _]. }
  { intros q c Hc. assert (Hq : (q < n)%nat) by (apply lookup_lt_Some in Hc; lia). rewrite Hct in Hc by done. injection Hc as <-.
    rewrite (Hocc q Hq). lia. }
  cbn [app] in N1. rewrite N1.
  assert (Hnew : forall q, q ∈ new <-> (q < n)%nat /\ q ∉ done ++ cur /\ pending (done ++ cur) q = []).
  { intros q. rewrite N3, Hqs. split.
    - intros [(Hq & p & Hp & Hd) Hc]. rewrite Hct in Hc by done. injection Hc as Hc. pose proof (Hocc q Hq) as Ho.
      split; [done|]. split; [|apply length_zero_iff_nil; lia]. rewrite elem_of_app. intros [Hx|Hx].
      + assert (Hin : p ∈ done) by (apply (Hcl p q); [done|by apply Hcr|done]). apply list.NoDup_app in Hnd as (_ & Hdis & _). by apply (Hdis p).
      + apply Hcur in Hx as (_ & _ & Hx). apply Hcur in Hp as (Hp & Hpn & _). assert (Hin : p ∈ pending done q) by (by apply pending_in).
        rewrite Hx in Hin. by apply not_elem_of_nil in Hin.
    - intros (Hq & Hn & Hp). pose proof (Hocc q Hq) as Ho. rewrite Hp in Ho. cbn in Ho. split.
      + split; [done|]. destruct (pending done q) as [|p l] eqn:E.
        * exfalso. apply Hn, elem_of_app. right. apply Hcur. split; [done|]. split; [|done]. intros Hx. apply Hn, elem_of_app. by left.
        * assert (Hin : p ∈ pending done q) by (rewrite E; left). apply pending_in in Hin as (Hpn & Hd & Hnd').
          exists p. split; [|done]. destruct (decide (p ∈ cur)) as [|Hnc]; [done|]. exfalso.
          rewrite (proj1 (pending_nil (done ++ cur) q) Hp p) in Hd; [done|done|]. rewrite elem_of_app. tauto.
      + rewrite Hct by done. do 2 f_equal. lia. }
  split; [constructor|split; [exact N7|exact N8]].
  - apply list.NoDup_app. split; [done|]. split; [|done]. intros q Hq Hn. by apply Hnew in Hn as (_ & Hn & _).
  - intros q Hq. apply elem_of_app in Hq as [Hq|Hq]; [by apply Hrg|by apply Hcr].
  - split; congruence.
  - intros q Hq. rewrite (N6 q (Z.of_nat (length (pending done q)))) by (by apply Hct). do 2 f_equal. pose proof (Hocc q Hq). lia.
  - exact Hnew.
  - intros p q Hq Hp Hd. apply elem_of_app. apply elem_of_app in Hq as [Hq|Hq]; [left; by apply (Hcl p q)|].
    destruct (decide (p ∈ done)) as [|Hn]; [by left|]. apply Hcur in Hq as (_ & _ & Hq).
    rewrite (proj1 (pending_nil done q) Hq p Hp Hn) in Hd. done.
Qed.

Lemma frontLoop_layers fuel : forall rank done cur counts ranks, sortInv done cur counts ranks -> (n < fuel + length done)%nat ->
  exists fronts ranks', frontLoop dom fuel n rank cur counts ranks = Some (fronts, ranks') /\
    layered (done ++ cur) fronts /\ length ranks' = n /\
    (forall q, q ∈ done ++ cur -> ranks' !! q = ranks !! q) /\
    (forall k front q, fronts !! k = Some front -> q ∈ front -> ranks' !! q = Some (Some (rank + 1 + Z.of_nat k))).
Proof.
  induction fuel as [|fuel IH]; intros rank done cur counts ranks Hi Hf.
  { exfalso. pose proof (si_nodup _ _ _ _ Hi) as Hd. apply list.NoDup_app in Hd as [Hd _].
    assert (Hle : (length done <= length (seq 0 n))%nat).
    { apply submseteq_length, NoDup_submseteq; [done|]. intros q Hq. apply elem_of_seq. apply (si_range _ _ _ _ Hi) in Hq. lia. }
    rewrite length_seq in Hle. lia. }
  cbn [frontLoop]. destruct (length cur =? 0)%nat eqn:Ec.
  { apply Nat.eqb_eq, length_zero_iff_nil in Ec. subst cur. exists [], ranks. rewrite app_nil_r. splits; try done.
    - cbn. apply all_done. intros q Hq Hn E. assert (H : q ∈ []) by (by apply (si_cur _ _ _ _ Hi)). by apply not_elem_of_nil in H.
    - apply (si_len _ _ _ _ Hi). }
  apply Nat.eqb_neq in Ec. destruct (relax_layer rank done cur counts ranks Hi) as (Hi' & Hr1 & Hr2).
  set (st := relaxFront dom n rank cur (mkSort counts ranks [])) in *.
  assert (Hold : forall q, q ∈ done ++ cur -> ss_ranks st !! q = ranks !! q).
  { intros q Hq. apply Hr2. intros Hn. by apply (si_cur _ _ _ _ Hi') in Hn as (_ & Hn & _). }
  destruct (length (ss_next st) =? 0)%nat eqn:En.
  { apply Nat.eqb_eq, length_zero_iff_nil in En. exists [], (ss_ranks st). splits; try done.
    - cbn. apply all_done. intros q Hq Hn E. assert (H : q ∈ ss_next st) by (by apply (si_cur _ _ _ _ Hi')).
      rewrite En in H. by apply not_elem_of_nil in H.
    - apply (si_len _ _ _ _ Hi'). }
  apply Nat.eqb_neq in En.
  destruct (IH (rank + 1) (done ++ cur) (ss_next st) (ss_counts st) (ss_ranks st) Hi') as (fronts & ranks' & E & H1 & H2 & H3 & H4).
  { rewrite length_app. lia. }
  rewrite E. cbn. exists (ss_next st :: fronts), ranks'. splits; [done| |done| |].
  - cbn [layered]. splits; [by destruct (ss_next st)| | |done].
    + pose proof (si_nodup _ _ _ _ Hi') as Hd. by apply list.NoDup_app in Hd as (_ & _ & Hd).
    + intros q. rewrite (si_cur _ _ _ _ Hi'), pending_nil. done.
  - intros q Hq. rewrite H3 by (apply elem_of_app; by left). by apply Hold.
  - intros [|k] front q Hk Hq; cbn in Hk.
    + injection Hk as <-. rewrite H3 by (apply elem_of_app; by right). rewrite (Hr1 q Hq). do 2 f_equal. lia.
    + rewrite (H4 k front q Hk Hq). do 2 f_equal. lia.
Qed.

Lemma sortFronts_layers : exists fronts ranks, sortFronts dom n = Some (fronts, ranks) /\ layered [] fronts /\ length ranks = n /\
  (forall k front q, fronts !! k = Some front -> q ∈ front -> ranks !! q = Some (Some (Z.of_nat k))).
Proof.
  unfold sortFronts. destruct (Nat.eqb_spec n 0) as [E0|Hn].
  { exists [], []. splits; try done. cbn. intros q Hq. lia. }
  set (counts := map (dominationCount dom n) (seq 0 n)).
  set (first := List.filter (fun p => default 0 (counts !! p) =? 0) (seq 0 n)).
  set (ranks := map (fun c => if c =? 0 then Some 0 else None) counts).
  assert (Hc : forall q, (q < n)%nat -> counts !! q = Some (Z.of_nat (length (pending [] q)))).
  { intros q Hq. unfold counts. rewrite list_lookup_fmap, lookup_seq_lt by done. cbn. f_equal. apply count_pending. }
  assert (Hfirst : forall q, q ∈ first <-> (q < n)%nat /\ q ∉ [] /\ pending [] q = []).
  { intros q. unfold first. rewrite list_elem_of_In, filter_In, in_seq. split.
    - intros [Hq He]. rewrite Hc in He by lia. cbn in He. apply Z.eqb_eq in He. splits; [lia|apply not_elem_of_nil|].
      apply length_zero_iff_nil. lia.
    - intros (Hq & _ & E). split; [lia|]. rewrite Hc, E by done. done. }
  assert (Hi : sortInv [] first counts ranks).
  { constructor; [|intros q Hq; by apply not_elem_of_nil in Hq| | |exact Hfirst|intros p q Hq; by apply not_elem_of_nil in Hq].
    - cbn. apply NoDup_ListNoDup, List.NoDup_filter, seq_NoDup.
    - unfold ranks, counts. by rewrite !length_map, length_seq.
    - intros q Hq. by apply Hc. }
  destruct (frontLoop_layers (S n) 0 [] first counts ranks Hi) as (fronts & ranks' & E & H1 & H2 & H3 & H4); [cbn; lia|].
  rewrite E. cbn. exists (first :: fronts), ranks'. splits; [done| |done|].
  - cbn [layered]. splits; [| |intros q; rewrite Hfirst, pending_nil; done|done].
    + intros E1. destruct n as [|n'] eqn:En; [done|]. assert (Hall : 0%nat ∈ ([] : list nat)); [|by apply not_elem_of_nil in Hall].
      rewrite <- En in *. apply all_done; [|lia]. intros q Hq Hnq Hp. assert (H : q ∈ first) by (by apply Hfirst).
      rewrite E1 in H. by apply not_elem_of_nil in H.
    + apply NoDup_ListNoDup, List.NoDup_filter, seq_NoDup.
  - intros [|k] front q Hk Hq; cbn in Hk.
    + injection Hk as <-. rewrite H3 by done. apply Hfirst in Hq as (Hq & _ & Hp). unfold ranks.
      rewrite list_lookup_fmap, Hc, Hp by done. done.
    + rewrite (H4 k front q Hk Hq). do 2 f_equal. lia.
Qed.

(** What [layered] says of the fronts one by one. *)
Lemma layered_fronts fronts : forall done, layered done fronts ->
  (forall k front, fronts !! k = Some front -> front <> [] /\ base.NoDup front /\
     forall q, q ∈ front <-> (q < n)%nat /\ q ∉ done ++ List.concat (take k fronts) /\
       forall p, (p < n)%nat -> p ∉ done ++ List.concat (take k fronts) -> dom p q = false) /\
  (forall q, (q < n)%nat -> q ∈ done ++ List.concat fronts).
Proof.
  induction fronts as [|F fronts IH]; intros done Hl; cbn in Hl |- *.
  { split; [by intros k front Hk|]. intros q Hq. rewrite app_nil_r. by apply Hl. }
  destruct Hl as (H1 & H2 & H3 & H4). destruct (IH (done ++ F) H4) as [G1 G2]. split.
  - intros [|k] front Hk; cbn in Hk.
    + injection Hk as <-. cbn. rewrite app_nil_r. done.
    + destruct (G1 k front Hk) as (K1 & K2 & K3). cbn. by rewrite app_assoc.
  - intros q Hq. rewrite app_assoc. by apply G2.
Qed.

Lemma layered_disjoint fronts : forall done, base.NoDup done -> (forall q, q ∈ done -> (q < n)%nat) -> layered done fronts ->
  base.NoDup (done ++ List.concat fronts) /\ (forall q, q ∈ done ++ List.concat fronts -> (q < n)%nat).
Proof.
  induction fronts as [|F fronts IH]; intros done Hd Hr Hl; cbn in Hl |- *; [by rewrite app_nil_r|].
  destruct Hl as (H1 & H2 & H3 & H4). rewrite app_assoc. apply IH; [| |done].
  - apply list.NoDup_app. splits; [done| |done]. intros q Hq Hf. by apply H3 in Hf as (_ & Hf & _).
  - intros q Hq. apply elem_of_app in Hq as [Hq|Hq]; [by apply Hr|by apply H3 in Hq as [Hq _]].
Qed.

Lemma layered_perm fronts : layered [] fronts -> List.concat fronts ≡ₚ seq 0 n.
Proof.
  intros Hl. destruct (layered_disjoint fronts []) as [H1 H2]; [constructor|intros q Hq; by apply not_elem_of_nil in Hq|done|].
  destruct (layered_fronts fronts [] Hl) as [_ H3]. cbn in *. apply list.NoDup_Permutation; [done|apply NoDup_seq|].
  intros q. rewrite elem_of_seq. split; [intros Hq; apply H2 in Hq; lia|intros Hq; apply H3; lia].
Qed.
End Layers.

(** ** Populations *)

Definition sameLoss (m : nat) (pop : list individual) : Prop := Forall (fun x => length (i_loss x) = m) pop.

Lemma lossOf_lookup pop i x : pop !! i = Some x -> lossOf pop i = i_loss x.
Proof. unfold lossOf. by intros ->. Qed.

Lemma domIn_spec m pop p q : sameLoss m pop ->
  domIn pop p q = true <-> exists x y, pop !! p = Some x /\ pop !! q = Some y /\ dominates (i_loss x) (i_loss y).
Proof.
  intros Hm. unfold sameLoss in Hm. rewrite List.Forall_forall in Hm.
  assert (Hl : forall i x, pop !! i = Some x -> length (i_loss x) = m)
    by (intros i x Hi; apply Hm, list_elem_of_In, list_elem_of_lookup; by exists i).
  unfold domIn, lossOf. destruct (pop !! p) as [x|] eqn:Ep.
  2:{ split; [by cbn|]. intros (x & y & H & _). discriminate. }
  destruct (pop !! q) as [y|] eqn:Eq.
  - assert (Hxy : length (i_loss x) = length (i_loss y)) by (rewrite (Hl p x Ep), (Hl q y Eq); done).
    split.
    + intros H. exists x, y. splits; [done..|]. apply dominatesLoss_spec; [done|].
      destruct (dominatesLoop_total _ _ false Hxy) as [r Hr]. unfold dominatesLoss in *. rewrite Hr in H |- *. cbn in H. by rewrite H.
    + intros (x' & y' & [= <-] & [= <-] & H). apply dominatesLoss_spec in H; [|done]. by rewrite H.
  - split; [|by intros (x' & y' & _ & H & _)]. unfold dominatesLoss. destruct (i_loss x); cbn; discriminate.
Qed.

Lemma domIn_irrefl m pop p : sameLoss m pop -> domIn pop p p = false.
Proof.
  intros Hm. destruct (domIn pop p p) eqn:E; [|done]. apply (domIn_spec m) in E as (x & y & H1 & H2 & H3); [|done].
  rewrite H1 in H2. injection H2 as <-. by apply dominates_irrefl in H3.
Qed.

Lemma domIn_trans m pop p q r : sameLoss m pop -> domIn pop p q = true -> domIn pop q r = true -> domIn pop p r = true.
Proof.
  intros Hm H1 H2. apply (domIn_spec m) in H1 as (x & y & E1 & E2 & D1); [|done].
  apply (domIn_spec m) in H2 as (y' & z & E3 & E4 & D2); [|done]. rewrite E2 in E3. injection E3 as <-.
  apply (domIn_spec m); [done|]. exists x, z. splits; [done..|]. by apply (dominates_trans _ (i_loss y)).
Qed.

Lemma comparable_same m pop : sameLoss m pop -> comparable pop = true.
Proof.
  intros Hm. unfold comparable. apply forallb_forall. intros p Hp. apply forallb_forall. intros q Hq.
  apply in_seq in Hp, Hq. destruct (lookup_lt_is_Some_2 pop p) as [x Hx]; [lia|]. destruct (lookup_lt_is_Some_2 pop q) as [y Hy]; [lia|].
  rewrite (lossOf_lookup _ _ _ Hx), (lossOf_lookup _ _ _ Hy). unfold sameLoss in Hm. rewrite List.Forall_forall in Hm.
  destruct (dominatesLoop_total (i_loss x) (i_loss y) false) as [r Hr].
  - rewrite (Hm x), (Hm y); [done| |]; apply list_elem_of_In, list_elem_of_lookup; eauto.
  - unfold dominatesLoss. rewrite Hr. apply orb_true_r.
Qed.

(** What the sort leaves of an individual apart from its rank. *)
Definition unranked (x : individual) : individual := set_rank 0 x.

Lemma applyRanks_lookup pop ranks i x r : pop !! i = Some x -> ranks !! i = Some (Some r) -> applyRanks pop ranks !! i = Some (set_rank r x).
Proof. intros Hx Hr. unfold applyRanks. by rewrite lookup_zip_with, Hx, Hr. Qed.

Lemma applyRanks_unranked pop : forall ranks, length ranks = length pop -> map unranked (applyRanks pop ranks) = map unranked pop.
Proof.
  unfold applyRanks. induction pop as [|x pop IH]; intros [|r ranks] Hl; try discriminate; [done|]. injection Hl as Hl.
  cbn [zip_with map]. rewrite (IH ranks Hl). by destruct r.
Qed.

Lemma applyRanks_loss pop ranks i : length ranks = length pop -> lossOf (applyRanks pop ranks) i = lossOf pop i.
Proof.
  intros Hl. unfold lossOf, applyRanks. rewrite lookup_zip_with. destruct (pop !! i) as [x|] eqn:E; [|done]. cbn.
  destruct (lookup_lt_is_Some_2 ranks i) as [r Hr]; [apply lookup_lt_Some in E; lia|]. rewrite Hr. cbn. by destruct r.
Qed.

(** C38: the fast non-dominated sort is the peeling of non-dominated layers: on a
    population whose individuals have the same number of objectives it always
    returns, its fronts contain every individual exactly once, each front is non-empty and
    consists of exactly the individuals that nothing outside the earlier fronts
    dominates, and the rank written into an individual is the number of its front. *)
Theorem nondominated_sort_layers m pop (Hm : sameLoss m pop) :
  exists fronts pop', fastNonDominatedSort pop = Some (fronts, pop') /\
    List.concat fronts ≡ₚ seq 0 (length pop) /\ map unranked pop' = map unranked pop /\
    forall k front, fronts !! k = Some front -> front <> [] /\
      (forall q, q ∈ front -> exists x, pop' !! q = Some x /\ i_rank x = Z.of_nat k) /\
      (forall q, q ∈ front <-> (q < length pop)%nat /\ q ∉ List.concat (take k fronts) /\
         forall p, (p < length pop)%nat -> p ∉ List.concat (take k fronts) -> domIn pop p q = false).
Proof.
  destruct (sortFronts_layers (domIn pop) (length pop)) as (fronts & ranks & E & Hl & Hr & Hk).
  { intros p. by apply (domIn_irrefl m). } { intros p q r. by apply (domIn_trans m). }
  exists fronts, (applyRanks pop ranks). unfold fastNonDominatedSort. rewrite (comparable_same m pop Hm), E. cbn.
  split; [done|]. split; [by apply (layered_perm (domIn pop))|]. split; [by apply applyRanks_unranked|].
  intros k front Hf. destruct (layered_fronts (domIn pop) (length pop) fronts [] Hl) as [H1 _].
  destruct (H1 k front Hf) as (H2 & H3 & H4). split; [done|]. split; [|exact H4].
  intros q Hq. pose proof (Hk k front q Hf Hq) as Hrk. assert (Hq' : (q < length pop)%nat) by (by apply H4 in Hq as [Hq _]).
  destruct (lookup_lt_is_Some_2 pop q Hq') as [x Hx]. exists (set_rank (Z.of_nat k) x). split; [|done]. by apply applyRanks_lookup.
Qed.

(** ** Stable sorting permutes *)

(** ** Elite selection *)

Section Elite.
Context (bad : individual -> individual -> Prop).

(** Nothing of a layer or a later one is [bad] for a member of the layer. *)
Fixpoint noneLater (groups : list (list individual)) : Prop :=
  match groups with
  | [] => True
  | g :: gs => (forall x y, x ∈ g ++ List.concat gs -> y ∈ g -> ~ bad x y) /\ noneLater gs
  end.

Lemma eliteLoop_selects size pop fronts : forall elite, noneLater (map (members pop) fronts) -> (length elite <= size)%nat ->
  exists sel rest, eliteLoop size pop fronts elite = elite ++ sel /\
    sel ++ rest ≡ₚ List.concat (map (members pop) fronts) /\
    length (elite ++ sel) = Nat.min size (length elite + length (List.concat (map (members pop) fronts))) /\
    forall x y, x ∈ rest -> y ∈ sel -> ~ bad x y.
Proof.
  induction fronts as [|front fronts IH]; intros elite Hn Hs; cbn [eliteLoop map List.concat] in *.
  { exists [], []. rewrite app_nil_r. cbn. splits; [done..|lia|]. intros x y Hx. by apply not_elem_of_nil in Hx. }
  cbn [noneLater] in Hn. destruct Hn as [Hg Hn]. set (g := members pop front) in *. set (gs := List.concat (map (members pop) fronts)) in *.
  rewrite (length_app g gs). destruct (Nat.leb_spec (length elite + length g) size) as [Hle|Hgt].
  - destruct (Nat.eqb_spec (length (elite ++ g)) size) as [He|He]; rewrite length_app in He.
    + exists g, gs. splits; [done..|rewrite length_app; lia|]. intros x y Hx Hy. apply Hg; [|done]. apply elem_of_app. by right.
    + destruct (IH (elite ++ g) Hn) as (sel & rest & E1 & E2 & E3 & E4); [rewrite length_app; lia|].
      exists (g ++ sel), rest. splits.
      * rewrite E1. by rewrite <- app_assoc.
      * by rewrite <- app_assoc, E2.
      * rewrite app_assoc, E3, length_app. lia.
      * intros x y Hx Hy. apply elem_of_app in Hy as [Hy|Hy]; [|by apply E4]. apply Hg; [|done]. apply elem_of_app. right.
        rewrite <- E2. apply elem_of_app. by right.
  - set (sorted := sortByCrowdingDesc g (crowdingDistances g)).
    assert (Hp : sorted ≡ₚ g) by apply sliceStable_perm. set (need := (size - length elite)%nat).
    assert (Hl : length sorted = length g) by (by apply Permutation_length).
    exists (firstn need sorted), (skipn need sorted ++ gs). splits.
    + done.
    + rewrite app_assoc, firstn_skipn, Hp. done.
    + rewrite length_app, length_firstn, Hl. unfold need. lia.
    + intros x y Hx Hy. apply Hg.
      * apply elem_of_app in Hx as [Hx|Hx]; apply elem_of_app; [left|by right]. rewrite <- Hp, <- (firstn_skipn need sorted).
        apply elem_of_app. by right.
      * rewrite <- Hp. by apply (firstn_in need).
Qed.
End Elite.

Lemma members_concat pop fronts : List.concat (map (members pop) fronts) = members pop (List.concat fronts).
Proof. induction fronts as [|F fronts IH]; cbn; [done|]. rewrite IH. unfold members. by rewrite omap_app. Qed.

Lemma members_seq pop : members pop (seq 0 (length pop)) = pop.
Proof.
  unfold members. assert (H : forall (l pre : list individual), omap (fun i => (pre ++ l) !! i) (seq (length pre) (length l)) = l).
  { induction l as [|x l IH]; intros pre; [done|]. cbn [length seq]. cbn. rewrite list_lookup_middle by done. f_equal.
    specialize (IH (pre ++ [x])). rewrite <- app_assoc, length_app in IH. cbn in IH. by rewrite Nat.add_1_r in IH. }
  apply (H pop []).
Qed.

Lemma members_in pop front x : x ∈ members pop front <-> exists i, i ∈ front /\ pop !! i = Some x.
Proof. unfold members. by rewrite list_elem_of_omap. Qed.

Lemma layered_noneLater m pop pop' n fronts : sameLoss m pop -> (forall i, lossOf pop' i = lossOf pop i) -> length pop' = length pop ->
  forall done, base.NoDup done -> (forall q, q ∈ done -> (q < n)%nat) -> layered (domIn pop) n done fronts ->
  noneLater (fun x y => dominates (i_loss x) (i_loss y)) (map (members pop') fronts).
Proof.
  intros Hm Hloss Hlen. assert (Hdom : forall i j x y, pop' !! i = Some x -> pop' !! j = Some y ->
    dominates (i_loss x) (i_loss y) -> domIn pop i j = true).
  { intros i j x y Hi Hj Hd. apply (domIn_spec m); [done|]. pose proof (lossOf_lookup _ _ _ Hi) as Lx. pose proof (lossOf_lookup _ _ _ Hj) as Ly.
    rewrite Hloss in Lx, Ly. destruct (lookup_lt_is_Some_2 pop i) as [x' Hx']; [apply lookup_lt_Some in Hi; lia|].
    destruct (lookup_lt_is_Some_2 pop j) as [y' Hy']; [apply lookup_lt_Some in Hj; lia|]. exists x', y'. splits; [done..|].
    by rewrite <- (lossOf_lookup _ _ _ Hx'), <- (lossOf_lookup _ _ _ Hy'), Lx, Ly. }
  induction fronts as [|F fronts IH]; intros done Hd Hr Hl; cbn [map noneLater]; [exact I|].
  pose proof (layered_disjoint (domIn pop) n (F :: fronts) done Hd Hr Hl) as [Hnd Hrg]. cbn in Hl. destruct Hl as (H1 & H2 & H3 & H4).
  split.
  - intros x y Hx Hy Hbad. rewrite members_concat in Hx. apply members_in in Hy as (j & Hj & Ej).
    assert (Hi : exists i, i ∈ F ++ List.concat fronts /\ pop' !! i = Some x).
    { apply elem_of_app in Hx as [Hx|Hx]; apply members_in in Hx as (i & Hi & Ei); exists i; (split; [|done]); apply elem_of_app; auto. }
    destruct Hi as (i & Hi & Ei). apply H3 in Hj as (_ & _ & Hj). cbn in Hnd, Hrg.
    assert (Hni : i ∉ done) by (intros Hin; apply list.NoDup_app in Hnd as (_ & Hdis & _); by apply (Hdis i)).
    specialize (Hj i ltac:(apply Hrg, elem_of_app; by right) Hni).
    rewrite (Hdom i j x y Ei Ej Hbad) in Hj. discriminate.
  - apply (IH (done ++ F)); [|intros q Hq; apply elem_of_app in Hq as [Hq|Hq]; [by apply Hr|by apply H3 in Hq as [Hq _]]|done].
    apply list.NoDup_app. splits; [done| |done]. intros q Hq Hf. by apply H3 in Hf as (_ & Hf & _).
Qed.

(** [selectElite] in terms of what it keeps and what it drops. *)
Lemma selectElite_elite m pop size : sameLoss m pop ->
  exists elite rest, selectElite pop size = Some elite /\ length elite = Nat.min size (length pop) /\
    map unranked (elite ++ rest) ≡ₚ map unranked pop /\
    forall x y, x ∈ rest -> y ∈ elite -> ~ dominates (i_loss x) (i_loss y).
Proof.
  intros Hm. destruct (sortFronts_layers (domIn pop) (length pop)) as (fronts & ranks & E & Hl & Hr & _).
  { intros p. by apply (domIn_irrefl m). } { intros p q r. by apply (domIn_trans m). }
  unfold selectElite, fastNonDominatedSort. rewrite (comparable_same m pop Hm), E. cbn.
  set (pop' := applyRanks pop ranks). assert (Hlen : length pop' = length pop) by (unfold pop', applyRanks; rewrite length_zip_with; lia).
  assert (Hun : map unranked pop' = map unranked pop) by (by apply applyRanks_unranked).
  rewrite Hlen. destruct (Nat.leb_spec (length pop) size) as [Hle|Hgt].
  { exists pop', []. rewrite app_nil_r, Hun. splits; [done|lia|done|]. intros x y Hx. by apply not_elem_of_nil in Hx. }
  pose proof (layered_noneLater m pop pop' (length pop) fronts Hm (fun i => applyRanks_loss pop ranks i Hr) Hlen []
    ltac:(constructor) ltac:(intros q Hq; by apply not_elem_of_nil in Hq) Hl) as Hn.
  destruct (eliteLoop_selects _ size pop' fronts [] Hn) as (sel & rest & E1 & E2 & E3 & E4); [cbn; lia|]. cbn in E1, E3.
  assert (Hp : List.concat (map (members pop') fronts) ≡ₚ pop').
  { rewrite members_concat. transitivity (members pop' (seq 0 (length pop'))); [|by rewrite members_seq].
    unfold members. rewrite (layered_perm (domIn pop) _ _ Hl), Hlen. done. }
  rewrite Hp in E2, E3. exists sel, rest. splits; [by rewrite E1|congruence| |done]. by rewrite E2, Hun.
Qed.

(** Elite selection is elitist: from any population it keeps exactly
    [size] individuals (all of a smaller one), the kept and the dropped ones
    together are the population, and no dropped individual dominates a kept one. *)
Theorem elite_selection_is_elitist m pop size (Hm : sameLoss m pop) :
  exists elite rest, selectElite pop size = Some elite /\ length elite = Nat.min size (length pop) /\
    map unranked (elite ++ rest) ≡ₚ map unranked pop /\
    forall x y, x ∈ rest -> y ∈ elite -> dominatesLoss (i_loss x) (i_loss y) <> Some true.
Proof.
  destruct (selectElite_elite m pop size Hm) as (elite & rest & E & H1 & H2 & H3). exists elite, rest. splits; [done..|].
  intros x y Hx Hy Hd.
  assert (Hlen : forall z, z ∈ elite ++ rest -> length (i_loss z) = m).
  { intros z Hz. assert (Hu : unranked z ∈ map unranked pop) by (rewrite <- H2; by apply list_elem_of_fmap_2).
    apply list_elem_of_fmap in Hu as (u & Eu & Hu). unfold sameLoss in Hm. rewrite List.Forall_forall in Hm.
    rewrite <- (Hm u) by (by apply list_elem_of_In). change (i_loss z) with (i_loss (unranked z)). by rewrite Eu. }
  apply (H3 x y Hx Hy). apply dominatesLoss_spec; [|done]. rewrite (Hlen x), (Hlen y); [done|apply elem_of_app; by left|apply elem_of_app; by right].
Qed.

(** ** Rank zero *)

Lemma sameLoss_unranked m pop pop' : map unranked pop' = map unranked pop -> sameLoss m pop -> sameLoss m pop'.
Proof.
  intros Hun. assert (H : forall l, sameLoss m l <-> Forall (fun x => length (i_loss x) = m) (map unranked l)).
  { intros l. unfold sameLoss. by rewrite Forall_map. }
  by rewrite !H, Hun.
Qed.

Lemma domIn_loss m pop p q x y : sameLoss m pop -> pop !! p = Some x -> pop !! q = Some y ->
  domIn pop p q = true <-> dominatesLoss (i_loss x) (i_loss y) = Some true.
Proof.
  intros Hm Hp Hq. unfold domIn. rewrite (lossOf_lookup _ _ _ Hp), (lossOf_lookup _ _ _ Hq).
  destruct (dominatesLoss (i_loss x) (i_loss y)) as [[]|]; cbn; intuition congruence.
Qed.

(** The rank of an individual is zero exactly when nothing dominates it. *)
Lemma sorted_rank_zero m pop fronts ranks q x : sameLoss m pop -> sortFronts (domIn pop) (length pop) = Some (fronts, ranks) ->
  applyRanks pop ranks !! q = Some x -> (q < length pop)%nat ->
  i_rank x = 0 <-> forall p, (p < length pop)%nat -> domIn pop p q = false.
Proof.
  intros Hm E Hx Hq. destruct (sortFronts_layers (domIn pop) (length pop)) as (fronts' & ranks' & E' & Hl & Hr & Hk).
  { intros p. by apply (domIn_irrefl m). } { intros p q' r. by apply (domIn_trans m). }
  rewrite E in E'. injection E' as <- <-. destruct (layered_fronts (domIn pop) (length pop) fronts [] Hl) as [Hf Hall].
  specialize (Hall q Hq). cbn in Hall. apply list_elem_of_In, in_concat in Hall as (F & HF & HqF).
  apply list_elem_of_In in HF, HqF. apply list_elem_of_lookup in HF as [k HF]. destruct (lookup_lt_is_Some_2 pop q Hq) as [x0 Hx0].
  rewrite (applyRanks_lookup pop ranks q x0 _ Hx0 (Hk k F q HF HqF)) in Hx. injection Hx as <-. cbn.
  destruct (Hf k F HF) as (_ & _ & Hspec). destruct k as [|k].
  - split; [|done]. intros _ p Hp. apply Hspec in HqF as (_ & _ & H0). apply H0; [done|]. cbn. apply not_elem_of_nil.
  - split; [lia|]. intros Hnd. exfalso. apply Hspec in HqF as (_ & Hnot & _). apply Hnot. cbn.
    destruct fronts as [|F0 fronts]; [done|]. cbn. apply elem_of_app. left.
    destruct (Hf 0%nat F0 eq_refl) as (_ & _ & H0). apply H0. splits; [done|apply not_elem_of_nil|]. intros p Hp _. by apply Hnd.
Qed.

Lemma rank_zero_iff m pop : sameLoss m pop -> exists fronts pop', fastNonDominatedSort pop = Some (fronts, pop') /\
  map unranked pop' = map unranked pop /\
  forall x, x ∈ pop' -> i_rank x = 0 <-> forall y, y ∈ pop' -> dominatesLoss (i_loss y) (i_loss x) <> Some true.
Proof.
  intros Hm. destruct (sortFronts_layers (domIn pop) (length pop)) as (fronts & ranks & E & _ & Hr & _).
  { intros p. by apply (domIn_irrefl m). } { intros p q r. by apply (domIn_trans m). }
  exists fronts, (applyRanks pop ranks). unfold fastNonDominatedSort. rewrite (comparable_same m pop Hm), E. cbn.
  pose proof (applyRanks_unranked pop ranks Hr) as Hun. splits; [done|done|]. set (pop' := applyRanks pop ranks) in *.
  pose proof (sameLoss_unranked m pop pop' Hun Hm) as Hm'.
  assert (Hlen : length pop' = length pop) by (by rewrite <- (length_map unranked), Hun, length_map).
  assert (Hdom : forall p q, domIn pop' p q = domIn pop p q).
  { intros p q. unfold domIn, pop'. by rewrite !applyRanks_loss. }
  intros x Hx. apply list_elem_of_lookup in Hx as [q Hq]. assert (Hqn : (q < length pop)%nat) by (apply lookup_lt_Some in Hq; lia).
  rewrite (sorted_rank_zero m pop fronts ranks q x Hm E Hq Hqn). split.
  - intros H0 y Hy Hd. apply list_elem_of_lookup in Hy as [p Hp]. apply (domIn_loss m pop' p q y x Hm' Hp Hq) in Hd.
    rewrite Hdom, H0 in Hd; [done|]. apply lookup_lt_Some in Hp. lia.
  - intros H0 p Hp. destruct (lookup_lt_is_Some_2 pop' p) as [y Hy]; [lia|]. apply not_true_iff_false. intros Hd. rewrite <- Hdom in Hd.
    apply (H0 y); [by apply list_elem_of_lookup_2 in Hy|]. by apply (domIn_loss m pop' p q y x Hm' Hy Hq).
Qed.

(** ** Concrete populations *)

(** Four two-objective individuals; the last two are dominated by one each. *)
Definition popOf (ls : list (list Z)) : list individual :=
  zip_with (fun i l => mkIndividual (Z.of_nat i) 0 [] (map zToFloat l) (map zToFloat l) 0 true None) (seq 0 (length ls)) ls.
Definition fourPop : list individual := popOf [[0; 2]; [2; 0]; [3; 1]; [1; 3]].

Lemma nondominated_sort_layers_witness :
  exists fronts pop', fastNonDominatedSort fourPop = Some (fronts, pop') /\ List.concat fronts ≡ₚ seq 0 4.
Proof.
  destruct (nondominated_sort_layers 2 fourPop) as (fronts & pop' & E & Hp & _).
  { unfold sameLoss. repeat constructor. }
  exists fronts, pop'. split; [exact E|exact Hp].
Defined.

Lemma elite_selection_is_elitist_witness :
  exists (elite rest : list individual), selectElite fourPop 3 = Some elite /\ length elite = 3%nat /\
    forall x y, x ∈ rest -> y ∈ elite -> dominatesLoss (i_loss x) (i_loss y) <> Some true.
Proof.
  destruct (elite_selection_is_elitist 2 fourPop 3) as (elite & rest & E & Hl & _ & Hd).
  { unfold sameLoss. repeat constructor. }
  exists elite, rest. split; [exact E|]. split; [exact Hl|exact Hd].
Defined.

(** The fronts after the first follow the order in which the counts reach
    zero, not the order of the population. *)
Theorem second_front_not_in_input_order :
  fst <$> fastNonDominatedSort fourPop = Some [[0; 1]; [3; 2]]%nat.
Proof. reflexivity. Qed.
