(* ===== verification/Study.v ===== *)
(** * The ask/tell optimizer and its driver (src/internal/hyperopt/nsga2)

    The search space and its genomes (param.go), the configuration with its
    defaults, the optimizer's Ask and Tell with parent selection, crossover and
    mutation (nsga2.go), and the study loop with its result (optimize.go).  The
    generator (math/rand/v2) is a class with its two draws, and [math.Log10]
    and [math.Pow] are parameters.  The only unbounded loop is the retry loop of
    [crossover], which takes fuel: one round is enough whenever the sampled
    genes lie in the space.  [None] is a panic, or a retry loop still running. *)

From Stdlib Require Import SpecFloat.
From stdpp Require Import gmap strings list sorting.
From S2P Require Import Prelude Lists Fixed Money Float64 Nsga2.
Set Default Goal Selector "!".
#[local] Open Scope string_scope.
#[local] Open Scope Z_scope.
#[local] Open Scope list_scope.
#[local] Abbreviation length := List.length.

(** ** Parameters and genomes (param.go) *)

Inductive ParamKind : Set := KindFloat | KindInt | KindCategorical.

Section Optimizer.
(** The choices of a categorical parameter, the generator's state, and the two
    functions of package math. *)
Context {V R : Type}.
Context (log10 pow10 : float64 -> float64).

Record Param : Type := mkParam {
  pa_Name : string;
  pa_Kind : ParamKind;
  pa_Low : float64;
  pa_High : float64;
  pa_Log : bool;
  pa_Choices : list V
}.

Definition FloatParam (name : string) (low high : float64) : Param := mkParam name KindFloat low high false [].
Definition LogFloatParam (name : string) (low high : float64) : Param := mkParam name KindFloat low high true [].
Definition IntParam (name : string) (low high : Z) : Param := mkParam name KindInt (zToFloat low) (zToFloat high) false [].
Definition CategoricalParam (name : string) (choices : list V) : Param := mkParam name KindCategorical fzero fzero false choices.

Definition Param_validate (p : Param) : res unit :=
  match pa_Kind p with
  | KindFloat | KindInt =>
      if negb (fleb (pa_Low p) (pa_High p)) || isNaN (pa_Low p) || isNaN (pa_High p) || isInf (pa_Low p) || isInf (pa_High p)
      then Err (ErrOther "invalid bounds")
      else if pa_Log p && fleb (pa_Low p) fzero then Err (ErrOther "log scale requires low>0") else Ok tt
  | KindCategorical => if (length (pa_Choices p) =? 0)%nat then Err (ErrOther "categorical requires >=1 choice") else Ok tt
  end.

(** The search space is the list of its parameters; the name index mirrors it. *)
Fixpoint checkParams (seen : list string) (params : list Param) : res unit :=
  match params with
  | [] => Ok tt
  | p :: params =>
      if String.eqb (pa_Name p) "" then Err (ErrOther "empty name")
      else if existsb (String.eqb (pa_Name p)) seen then Err (ErrOther "duplicate param name")
      else _ <-? Param_validate p ;; checkParams (pa_Name p :: seen) params
  end.

Definition NewSearchSpace (params : list Param) : res (list Param) :=
  if (length params =? 0)%nat then Err (ErrOther "search space must have >=1 parameter")
  else _ <-? checkParams [] params ;; Ok params.

(** [math.RoundToEven] *)
Definition RoundToEven (f : float64) : float64 :=
  match f with
  | S754_finite s m e =>
      if 0 <=? e then f
      else
        let z := round_half_even (Zpos m) (2 ^ (- e)) in
        if z =? 0 then S754_zero s else zToFloat (if s then - z else z)
  | _ => f
  end.

(** ** The generator (rng.go) *)

Class Rng : Type := { rFloat64 : R -> float64 * R; rInt64n : Z -> R -> Z * R }.
Context `{Rng}.

(** Both integer draws panic on an empty range. *)
Definition Int64n (n : Z) (r : R) : option (Z * R) := if n <=? 0 then None else Some (rInt64n n r).

Definition sampleGene (p : Param) (r : R) : option (float64 * R) :=
  match pa_Kind p with
  | KindFloat =>
      let '(lo, hi) := if pa_Log p then (log10 (pa_Low p), log10 (pa_High p)) else (pa_Low p, pa_High p) in
      let '(u, r) := rFloat64 r in
      Some (fadd lo (fmul u (fsub hi lo)), r)
  | KindInt =>
      let lo := truncFloat (pa_Low p) in
      '(k, r) ← Int64n (wrap64 (wrap64 (truncFloat (pa_High p) - lo) + 1)) r;
      Some (zToFloat (wrap64 (lo + k)), r)
  | KindCategorical =>
      '(k, r) ← Int64n (Z.of_nat (length (pa_Choices p))) r;
      Some (zToFloat k, r)
  end.

Fixpoint sample (space : list Param) (r : R) : option (Genome * R) :=
  match space with
  | [] => Some ([], r)
  | p :: space => '(g, r) ← sampleGene p r; '(gs, r) ← sample space r; Some (g :: gs, r)
  end.

(** One gene of [contains]. *)
Definition geneOk (p : Param) (v : float64) : bool :=
  negb (isNaN v) &&
  match pa_Kind p with
  | KindFloat =>
      let '(lo, hi) := if pa_Log p then (log10 (pa_Low p), log10 (pa_High p)) else (pa_Low p, pa_High p) in
      negb (fltb v lo) && negb (fltb hi v)
  | KindInt => negb (fltb (RoundToEven v) (pa_Low p)) && negb (fltb (pa_High p) (RoundToEven v))
  | KindCategorical => negb (fltb v fzero) && (truncFloat v <? Z.of_nat (length (pa_Choices p)))
  end.

Definition contains (space : list Param) (g : Genome) : bool :=
  (length g =? length space)%nat && forallb (fun '(p, v) => geneOk p v) (zip space g).

Inductive PValue : Type := PFloat (f : float64) | PInt (z : Z) | PChoice (v : V).

Definition decodeGene (p : Param) (g : float64) : option PValue :=
  match pa_Kind p with
  | KindFloat => Some (PFloat (if pa_Log p then pow10 g else g))
  | KindInt => Some (PInt (truncFloat (RoundToEven g)))
  | KindCategorical =>
      let idx := truncFloat (RoundToEven g) in
      let idx := if idx <? 0 then 0 else idx in
      let idx := if Z.of_nat (length (pa_Choices p)) <=? idx then Z.of_nat (length (pa_Choices p)) - 1 else idx in
      v ← pa_Choices p !! Z.to_nat idx; Some (PChoice v)
  end.

(** The map is written gene by gene; a genome shorter than the space panics. *)
Fixpoint decodeInto (space : list Param) (g : Genome) (out : gmap string PValue) : option (gmap string PValue) :=
  match space with
  | [] => Some out
  | p :: space =>
      match g with
      | [] => None
      | v :: g => x ← decodeGene p v; decodeInto space g (<[pa_Name p := x]> out)
      end
  end.

Definition decode (space : list Param) (g : Genome) : option (gmap string PValue) := decodeInto space g ∅.

(** ** Configuration (nsga2.go) *)

Record Config : Type := mkConfig {
  nc_Space : list Param;
  nc_Objectives : list ObjectiveSpec;
  nc_PopulationSize : Z;
  nc_CrossoverProb : float64;
  nc_SwappingProb : float64;
  nc_MutationProb : float64;
  nc_Seed : Z
}.

Definition probOrDefault (v d : float64) : float64 := if feqb v fzero then d else v.
Definition badProb (v : float64) : bool := fltb v fzero || fltb (flit 1 1) v.

Definition withDefaults (c : Config) : res Config :=
  if (length (nc_Space c) =? 0)%nat then Err (ErrOther "Config.Space is required")
  else if (length (nc_Objectives c) =? 0)%nat then Err (ErrOther "Config.Objectives must have >=1 entry")
  else
    let pop := if nc_PopulationSize c =? 0 then 50 else nc_PopulationSize c in
    if pop <? 2 then Err (ErrOther "PopulationSize must be >=2")
    else
      let cross := probOrDefault (nc_CrossoverProb c) (flit 9 10) in
      if badProb cross then Err (ErrOther "CrossoverProb must be in [0,1]")
      else
        let swap := probOrDefault (nc_SwappingProb c) (flit 1 2) in
        if badProb swap then Err (ErrOther "SwappingProb must be in [0,1]")
        else
          let mut := if fleb (nc_MutationProb c) fzero
                     then fdiv (flit 1 1) (zToFloat (Z.max 1 (Z.of_nat (length (nc_Space c))))) else nc_MutationProb c in
          if fltb (flit 1 1) mut then Err (ErrOther "MutationProb must be <=1")
          else Ok (mkConfig (nc_Space c) (nc_Objectives c) pop cross swap mut (if nc_Seed c =? 0 then 42 else nc_Seed c)).

(** ** The optimizer (nsga2.go) *)

Record Optimizer : Type := mkOptimizer {
  op_r : R;
  op_nextID : Z;
  op_gen : Z;
  op_parents : list individual;
  op_pending : gmap Z individual;
  op_asked : Z;
  op_told : list individual
}.

(** The generator's two seed words. *)
Definition splitmix64 (x : Z) : Z :=
  let x := wrapu64 (x + 0x9E3779B97F4A7C15) in
  let x := wrapu64 (Z.lxor x (Z.shiftr x 30) * 0xBF58476D1CE4E5B9) in
  let x := wrapu64 (Z.lxor x (Z.shiftr x 27) * 0x94D049BB133111EB) in
  Z.lxor x (Z.shiftr x 31).

Definition newRNG (NewPCG : Z -> Z -> R) (seed : Z) : R :=
  NewPCG (splitmix64 seed) (splitmix64 (Z.lxor seed 0x9E3779B97F4A7C15)).

Definition New (NewPCG : Z -> Z -> R) (cfg : Config) : res (Config * Optimizer) :=
  c <-? withDefaults cfg ;; Ok (c, mkOptimizer (newRNG NewPCG (nc_Seed c)) 0 0 [] ∅ 0 []).

Record Trial : Type := mkTrial { tr_ID : Z; tr_Generation : Z; tr_Params : gmap string PValue }.

Section Ops.
Context (cfg : Config).
Definition space : list Param := nc_Space cfg.

(** [pop[o.r.Intn(len(pop))]] *)
Definition pick (pop : list individual) (r : R) : option (individual * R) :=
  '(k, r) ← Int64n (Z.of_nat (length pop)) r; x ← pop !! Z.to_nat k; Some (x, r).

Definition tournament (pop : list individual) (r : R) : option (individual * R) :=
  '(c0, r) ← pick pop r;
  '(c1, r) ← pick pop r;
  d ← dominatesLoss (i_loss c0) (i_loss c1);
  Some (if d : bool then c0 else c1, r).

Definition selectParents (parents : list individual) (r : R) : option (individual * individual * R) :=
  '(p0, r) ← tournament parents r;
  let rest := List.filter (fun x => negb (i_id x =? i_id p0)) parents in
  if (length rest =? 0)%nat then Some (p0, p0, r)
  else '(p1, r) ← tournament rest r; Some (p0, p1, r).

Fixpoint mixGenes (n : nat) (a b : Genome) (r : R) : option (Genome * R) :=
  match n with
  | O => Some ([], r)
  | S n =>
      match a, b with
      | x :: a, y :: b =>
          let '(u, r) := rFloat64 r in
          '(g, r) ← mixGenes n a b r;
          Some ((if fleb (nc_SwappingProb cfg) u then x else y) :: g, r)
      | _, _ => None
      end
  end.

(** [for { ... }] until the child lies in bounds. *)
Fixpoint crossover (fuel : nat) (parents : list individual) (r : R) : option (Genome * R) :=
  match fuel with
  | O => None
  | S fuel =>
      '(p0, p1, r) ← selectParents parents r;
      '(child, r) ← mixGenes (length space) (i_genome p0) (i_genome p1) r;
      if contains space child then Some (child, r) else crossover fuel parents r
  end.

Fixpoint mutate (params : list Param) (child : Genome) (r : R) : option (Genome * R) :=
  match params, child with
  | p :: params, g :: child =>
      let '(u, r) := rFloat64 r in
      '(g, r) ← (if fleb (nc_MutationProb cfg) u then Some (g, r) else sampleGene p r);
      '(child, r) ← mutate params child r;
      Some (g :: child, r)
  | [], _ => Some (child, r)
  | _, [] => None
  end.

Definition generateChild (fuel : nat) (parents : list individual) (r : R) : option (Genome * R) :=
  let '(u, r) := rFloat64 r in
  '(child, r) ← (if fltb u (nc_CrossoverProb cfg) then crossover fuel parents r
                 else '(p, r) ← pick parents r; Some (i_genome p, r));
  mutate space child r.

Definition newIndividual (id gen : Z) (genome : Genome) : individual := mkIndividual id gen genome [] [] 0 false None.

(** The trial asked for, or none once the generation is dispatched. *)
Definition Ask (fuel : nat) (o : Optimizer) : option (option Trial * Optimizer) :=
  if nc_PopulationSize cfg <=? op_asked o then Some (None, o)
  else
    '(genome, r) ← (if op_gen o =? 0 then sample space (op_r o) else generateChild fuel (op_parents o) (op_r o));
    params ← decode space genome;
    let ind := newIndividual (op_nextID o) (op_gen o) genome in
    Some (Some (mkTrial (i_id ind) (op_gen o) params),
          mkOptimizer r (op_nextID o + 1) (op_gen o) (op_parents o) (<[i_id ind := ind]> (op_pending o)) (op_asked o + 1) (op_told o)).

Definition advanceGeneration (o : Optimizer) : option Optimizer :=
  parents ← selectElite (op_parents o ++ List.filter i_evalOK (op_told o)) (Z.to_nat (nc_PopulationSize cfg));
  Some (mkOptimizer (op_r o) (op_nextID o) (op_gen o + 1) parents (op_pending o) 0 []).

Definition evaluated (x : individual) (values : list float64) : individual :=
  mkIndividual (i_id x) (i_gen x) (i_genome x) values (toLoss values (nc_Objectives cfg)) (i_rank x) true (i_evalErr x).
Definition failed (x : individual) (e : error) : individual :=
  mkIndividual (i_id x) (i_gen x) (i_genome x) (i_values x) (i_loss x) (i_rank x) false (Some e).

Definition Tell (id : Z) (result : res (list float64)) (o : Optimizer) : option (Optimizer * res unit) :=
  match op_pending o !! id with
  | None => Some (o, Err (ErrOther "Tell for unknown or already-told trial id"))
  | Some ind =>
      let o := mkOptimizer (op_r o) (op_nextID o) (op_gen o) (op_parents o) (delete id (op_pending o)) (op_asked o) (op_told o) in
      match (match result with
             | Err e => Ok (failed ind e)
             | Ok values =>
                 if negb (length values =? length (nc_Objectives cfg))%nat then Err (ErrOther "Tell expected objective values")
                 else Ok (evaluated ind values)
             end) with
      | Err e => Some (o, Err e)
      | Ok ind =>
          let o := mkOptimizer (op_r o) (op_nextID o) (op_gen o) (op_parents o) (op_pending o) (op_asked o) (op_told o ++ [ind]) in
          if Z.of_nat (length (op_told o)) =? nc_PopulationSize cfg
          then o ← advanceGeneration o; Some (o, Ok tt)
          else Some (o, Ok tt)
      end
  end.

(** ** Optimize (optimize.go) *)

Record Solution : Type := mkSolution { so_ID : Z; so_Params : gmap string PValue; so_Values : list float64; so_Rank : Z }.
Record Result : Type := mkResult {
  nr_Population : list Solution; nr_ParetoFront : list Solution; nr_Evaluations : Z; nr_Failures : Z; nr_Generations : Z }.

Definition rankLess (a b : individual) : bool :=
  if negb (i_rank a =? i_rank b) then i_rank a <? i_rank b else i_id a <? i_id b.

Fixpoint solutions (pop : list individual) : option (list Solution) :=
  match pop with
  | [] => Some []
  | x :: pop =>
      params ← decode space (i_genome x);
      rest ← solutions pop;
      Some (mkSolution (i_id x) params (i_values x) (i_rank x) :: rest)
  end.

Definition buildResult (o : Optimizer) (evals failures gens : Z) : option Result :=
  '(_, pop) ← fastNonDominatedSort (op_parents o);
  sols ← solutions (sliceStable rankLess pop);
  Some (mkResult sols (sliceStable (fun a b => so_ID a <? so_ID b) (List.filter (fun s => so_Rank s =? 0) sols)) evals failures gens).

Definition PopulationSolutions (o : Optimizer) : option (list Solution) := nr_Population <$> buildResult o 0 0 (op_gen o).

(** Ask until the generation is dispatched; one more call than its size ends it. *)
Fixpoint askAll (rounds fuel : nat) (o : Optimizer) : option (list Trial * Optimizer) :=
  match rounds with
  | O => None
  | S rounds =>
      '(t, o) ← Ask fuel o;
      match t with
      | None => Some ([], o)
      | Some t => '(ts, o) ← askAll rounds fuel o; Some (t :: ts, o)
      end
  end.

(** Every trial is scored; [eval t = None] is a cancelled context found at [t]. *)
Fixpoint evaluateGeneration (eval : Trial -> option (res (list float64))) (ts : list Trial)
    : option (list (res (list float64))) :=
  match ts with
  | [] => Some []
  | t :: ts => v ← eval t; vs ← evaluateGeneration eval ts; Some (v :: vs)
  end.

(** Tell in ask order; the counters of successes and failures. *)
Fixpoint tellAll (ts : list Trial) (results : list (res (list float64))) (o : Optimizer) (evals failures : Z)
    : option (Optimizer * res (Z * Z)) :=
  match ts with
  | [] => Some (o, Ok (evals, failures))
  | t :: ts =>
      match results with
      | [] => None
      | result :: results =>
          '(o, r) ← Tell (tr_ID t) result o;
          match r with
          | Err e => Some (o, Err e)
          | Ok _ => match result with
                    | Err _ => tellAll ts results o evals (failures + 1)
                    | Ok _ => tellAll ts results o (evals + 1) failures
                    end
          end
      end
  end.

(** [canceled g]: the context is cancelled when generation [g] begins. *)
Fixpoint generations (gens : nat) (g : nat) (fuel : nat) (canceled : nat -> bool)
    (eval : Trial -> option (res (list float64))) (o : Optimizer) (evals failures : Z)
    : option (Optimizer * res (Z * Z)) :=
  match gens with
  | O => Some (o, Ok (evals, failures))
  | S gens =>
      if canceled g then Some (o, Err ErrCanceled)
      else
        '(ts, o) ← askAll (S (Z.to_nat (nc_PopulationSize cfg))) fuel o;
        match evaluateGeneration eval ts with
        | None => Some (o, Err ErrCanceled)
        | Some results =>
            '(o, r) ← tellAll ts results o evals failures;
            match r with
            | Err e => Some (o, Err e)
            | Ok (evals, failures) => generations gens (S g) fuel canceled eval o evals failures
            end
        end
  end.

Definition Optimize (fuel : nat) (canceled : nat -> bool) (eval : Trial -> option (res (list float64))) (gens : Z)
    (o : Optimizer) : option (Optimizer * res Result) :=
  if gens <? 1 then Some (o, Err (ErrOther "RunConfig.Generations must be >=1"))
  else
    '(o, r) ← generations (Z.to_nat gens) 0 fuel canceled eval o 0 0;
    match r with
    | Err e => Some (o, Err e)
    | Ok (evals, failures) => result ← buildResult o evals failures gens; Some (o, Ok result)
    end.


(** ** Drawing genomes *)

Section Laws.
Context (rng_range : forall n r, 0 < n -> 0 <= fst (rInt64n n r) < n).

(** Sampling the parameter always yields a gene inside its bounds. *)
Definition drawable (p : Param) : Prop := forall r, exists g r', sampleGene p r = Some (g, r') /\ geneOk p g = true.

Definition inSpace (ps : list Param) (g : Genome) : Prop := Forall2 (fun p v => geneOk p v = true) ps g.

Lemma contains_inSpace ps g : contains ps g = true <-> inSpace ps g.
Proof.
  unfold contains, inSpace. rewrite andb_true_iff, Nat.eqb_eq. revert g.
  induction ps as [|p ps IH]; intros [|v g]; cbn [length zip zip_with forallb].
  - split; [constructor|done].
  - split; [by intros [[=] _]|by inversion 1].
  - split; [by intros [[=] _]|by inversion 1].
  - rewrite andb_true_iff. split.
    + intros (Hl & Hp & Hf). constructor; [done|]. apply IH. split; [lia|done].
    + inversion 1 as [|? ? ? ? Hp Hf]; subst. apply IH in Hf as [Hl Hf]. splits; [lia|done|done].
Qed.

Lemma sample_inSpace ps : Forall drawable ps -> forall r, exists g r', sample ps r = Some (g, r') /\ inSpace ps g.
Proof.
  induction 1 as [|p ps Hp _ IH]; intros r; cbn [sample].
  { exists [], r. split; [done|constructor]. }
  destruct (Hp r) as (v & r1 & -> & Hv). cbn. destruct (IH r1) as (g & r2 & -> & Hg). cbn.
  exists (v :: g), r2. split; [done|by constructor].
Qed.

Lemma pick_in pop r : pop <> [] -> exists x r', pick pop r = Some (x, r') /\ x ∈ pop.
Proof.
  intros Hn. assert (Hl : 0 < Z.of_nat (length pop)) by (destruct pop; [done|cbn; lia]).
  unfold pick, Int64n. destruct (Z.leb_spec (Z.of_nat (length pop)) 0) as [Hle|_]; [lia|].
  pose proof (rng_range (Z.of_nat (length pop)) r Hl) as Hr. destruct (rInt64n (Z.of_nat (length pop)) r) as [k r']. cbn in *.
  destruct (lookup_lt_is_Some_2 pop (Z.to_nat k)) as [x Hx]; [lia|]. rewrite Hx. cbn. exists x, r'. split; [done|].
  by apply list_elem_of_lookup_2 in Hx.
Qed.

Lemma tournament_in m pop r : sameLoss m pop -> pop <> [] -> exists x r', tournament pop r = Some (x, r') /\ x ∈ pop.
Proof.
  intros Hm Hn. unfold tournament. destruct (pick_in pop r Hn) as (c0 & r0 & -> & H0). cbn.
  destruct (pick_in pop r0 Hn) as (c1 & r1 & -> & H1). cbn. unfold sameLoss in Hm. rewrite List.Forall_forall in Hm.
  destruct (dominatesLoop_total (i_loss c0) (i_loss c1) false) as [d Hd].
  { rewrite (Hm c0), (Hm c1); [done|by apply list_elem_of_In..]. }
  unfold dominatesLoss. rewrite Hd. cbn. exists (if d then c0 else c1), r1. by destruct d.
Qed.

Lemma selectParents_in m pop r : sameLoss m pop -> pop <> [] ->
  exists p0 p1 r', selectParents pop r = Some (p0, p1, r') /\ p0 ∈ pop /\ p1 ∈ pop.
Proof.
  intros Hm Hn. unfold selectParents. destruct (tournament_in m pop r Hm Hn) as (p0 & r0 & -> & H0). cbn.
  set (rest := List.filter _ pop). assert (Hsub : forall x, x ∈ rest -> x ∈ pop).
  { intros x. rewrite !list_elem_of_In. unfold rest. rewrite filter_In. by intros [Hx _]. }
  destruct (Nat.eqb_spec (length rest) 0) as [E|E]; [by exists p0, p0, r0|].
  destruct (tournament_in m rest r0) as (p1 & r1 & -> & H1).
  { unfold sameLoss in *. rewrite List.Forall_forall in *. intros x Hx. apply Hm, list_elem_of_In, Hsub, list_elem_of_In, Hx. }
  { intros E0. by rewrite E0 in E. }
  cbn. exists p0, p1, r1. auto.
Qed.

Lemma mixGenes_inSpace ps a : inSpace ps a -> forall b, inSpace ps b -> forall r,
  exists g r', mixGenes (length ps) a b r = Some (g, r') /\ inSpace ps g.
Proof.
  induction 1 as [|p x ps a Hx _ IH]; intros b Hb r; inversion Hb as [|? y ? b' Hy Hb']; subst; cbn [length mixGenes].
  { exists [], r. split; [done|constructor]. }
  destruct (rFloat64 r) as [u r1]. destruct (IH b' Hb' r1) as (g & r2 & -> & Hg). cbn.
  eexists _, r2. split; [done|]. constructor; [by destruct (fleb _ u)|done].
Qed.

Lemma mutate_inSpace ps g : Forall drawable ps -> inSpace ps g -> forall r,
  exists g' r', mutate ps g r = Some (g', r') /\ inSpace ps g'.
Proof.
  intros Hd Hg. revert Hd. induction Hg as [|p v ps g Hv _ IH]; intros Hd r; cbn [mutate].
  { exists [], r. split; [done|constructor]. }
  inversion Hd as [|? ? Hp Hd']; subst. destruct (rFloat64 r) as [u r1].
  assert (Hgene : exists w r2, (if fleb (nc_MutationProb cfg) u then Some (v, r1) else sampleGene p r1) = Some (w, r2) /\ geneOk p w = true).
  { destruct (fleb _ u); [by exists v, r1|apply Hp]. }
  destruct Hgene as (w & r2 & -> & Hw). cbn. destruct (IH Hd' r2) as (g' & r3 & -> & Hg'). cbn.
  exists (w :: g'), r3. split; [done|by constructor].
Qed.

Lemma drawable_decodes (r : R) p v : drawable p -> exists x, decodeGene p v = Some x.
Proof.
  intros Hp. unfold decodeGene. destruct (pa_Kind p) eqn:Ek; [by eexists..|].
  assert (Hl : (0 < length (pa_Choices p))%nat).
  { destruct (Hp r) as (g & r' & E & _). unfold sampleGene, Int64n in E. rewrite Ek in E.
    destruct (Z.leb_spec (Z.of_nat (length (pa_Choices p))) 0); [discriminate|lia]. }
  set (idx := Z.to_nat _). destruct (lookup_lt_is_Some_2 (pa_Choices p) idx) as [x Hx]; [|rewrite Hx; by eexists].
  unfold idx. set (k := truncFloat _). destruct (Z.ltb_spec k 0); [destruct (Z.leb_spec (Z.of_nat (length (pa_Choices p))) 0); lia|].
  destruct (Z.leb_spec (Z.of_nat (length (pa_Choices p))) k); lia.
Qed.

Lemma decode_inSpace (r : R) ps g : Forall drawable ps -> inSpace ps g -> exists params, decode ps g = Some params.
Proof.
  intros Hd Hg. unfold decode. generalize (∅ : gmap string PValue). revert Hd.
  induction Hg as [|p v ps g Hv _ IH]; intros Hd out; cbn [decodeInto]; [by eexists|].
  inversion Hd as [|? ? Hp Hd']; subst. destruct (drawable_decodes r p v Hp) as [x ->]. cbn. by apply IH.
Qed.

(** ** The invariant of a study *)

Context (space_drawable : Forall drawable space).
Context (pop_size : 2 <= nc_PopulationSize cfg).

#[local] Abbreviation objectives := (nc_Objectives cfg).
#[local] Abbreviation popSize := (nc_PopulationSize cfg).

(** An individual that joined the population. *)
Definition goodIndividual (x : individual) : Prop :=
  i_evalOK x = true /\ length (i_values x) = length objectives /\ i_loss x = toLoss (i_values x) objectives /\
  inSpace space (i_genome x).

Record studyInv (o : Optimizer) : Prop := {
  sv_parents : Forall goodIndividual (op_parents o);
  sv_seeded : op_gen o <> 0 -> op_parents o <> [];
  sv_gen : 0 <= op_gen o;
  sv_told : Forall goodIndividual (List.filter i_evalOK (op_told o));
  sv_pending : forall id x, op_pending o !! id = Some x -> i_id x = id /\ id < op_nextID o /\ inSpace space (i_genome x);
  sv_asked : op_asked o = Z.of_nat (length (op_told o)) + Z.of_nat (size (op_pending o));
  sv_range : Z.of_nat (length (op_told o)) < popSize /\ op_asked o <= popSize
}.

Lemma toLoss_length vs objs : length (toLoss vs objs) = length vs.
Proof. revert objs. induction vs as [|v vs IH]; intros [|ob objs]; cbn; [done..| |]; by rewrite IH. Qed.

Lemma good_sameLoss xs : Forall goodIndividual xs -> sameLoss (length objectives) xs.
Proof. apply Forall_impl. intros x (_ & Hl & -> & _). by rewrite toLoss_length. Qed.

Lemma good_genome xs x : Forall goodIndividual xs -> x ∈ xs -> inSpace space (i_genome x).
Proof. rewrite Forall_forall, list_elem_of_In. intros H0 Hx. by destruct (H0 x Hx) as (_ & _ & _ & Hg). Qed.

(** A crossover of genomes of the space succeeds in its first round. *)
Lemma crossover_inSpace fuel parents r : Forall goodIndividual parents -> parents <> [] ->
  exists g r', crossover (S fuel) parents r = Some (g, r') /\ inSpace space g.
Proof.
  intros Hg Hn. cbn [crossover]. destruct (selectParents_in _ parents r (good_sameLoss _ Hg) Hn) as (p0 & p1 & r1 & -> & H0 & H1). cbn.
  destruct (mixGenes_inSpace space (i_genome p0)) with (b := i_genome p1) (r := r1) as (g & r2 & -> & Hgs).
  { by apply (good_genome parents). } { by apply (good_genome parents). }
  cbn. rewrite (proj2 (contains_inSpace space g) Hgs). by exists g, r2.
Qed.

Lemma generateChild_inSpace fuel parents r : Forall goodIndividual parents -> parents <> [] ->
  exists g r', generateChild (S fuel) parents r = Some (g, r') /\ inSpace space g.
Proof.
  intros Hg Hn. unfold generateChild. destruct (rFloat64 r) as [u r1].
  assert (Hc : exists g r2, (if fltb u (nc_CrossoverProb cfg) then crossover (S fuel) parents r1
    else '(p, r) ← pick parents r1; Some (i_genome p, r)) = Some (g, r2) /\ inSpace space g).
  { destruct (fltb u _); [by apply crossover_inSpace|]. destruct (pick_in parents r1 Hn) as (x & r2 & -> & Hx). cbn.
    exists (i_genome x), r2. split; [done|]. by apply (good_genome parents). }
  destruct Hc as (g & r2 & -> & Hgs). cbn. by apply mutate_inSpace.
Qed.

(** The individual [x] that stands for the trial [t] until its result is told. *)
Definition stands (t : Trial) (x : individual) : Prop :=
  i_id x = tr_ID t /\ decode space (i_genome x) = Some (tr_Params t).

(** The next trial of an unfinished generation. *)
Lemma Ask_next fuel o : studyInv o -> op_asked o < popSize -> exists t o', Ask (S fuel) o = Some (Some t, o') /\ studyInv o' /\
  tr_ID t = op_nextID o /\ tr_Generation t = op_gen o /\ op_nextID o' = op_nextID o + 1 /\ op_gen o' = op_gen o /\
  op_asked o' = op_asked o + 1 /\ op_told o' = op_told o /\ op_parents o' = op_parents o /\
  exists x, op_pending o' = <[op_nextID o := x]> (op_pending o) /\ stands t x.
Proof.
  intros Hi Ha. unfold Ask. destruct (Z.leb_spec popSize (op_asked o)) as [Hle|_]; [lia|].
  assert (Hg : exists g r', (if op_gen o =? 0 then sample space (op_r o) else generateChild (S fuel) (op_parents o) (op_r o)) = Some (g, r')
    /\ inSpace space g).
  { destruct (Z.eqb_spec (op_gen o) 0) as [E|E]; [by apply sample_inSpace|].
    apply generateChild_inSpace; [apply (sv_parents _ Hi)|by apply (sv_seeded _ Hi)]. }
  destruct Hg as (g & r' & -> & Hg). cbn. destruct (decode_inSpace r' space g space_drawable Hg) as [params Ep]. rewrite Ep. cbn.
  eexists _, _. split; [done|]. cbn.
  assert (Hfresh : op_pending o !! op_nextID o = None).
  { destruct (op_pending o !! op_nextID o) eqn:E; [|done]. apply (sv_pending _ Hi) in E. lia. }
  splits; try done; [|by eexists]. constructor; cbn; try apply Hi.
  - intros id x. rewrite lookup_insert_Some. intros [[<- <-]|[_ Hx]]; cbn; [splits; [done|lia|done]|].
    apply (sv_pending _ Hi) in Hx. splits; [by apply Hx|lia|by apply Hx].
  - rewrite map_size_insert_None by done. pose proof (sv_asked _ Hi). lia.
  - pose proof (sv_range _ Hi). lia.
Qed.

(** The whole remainder of a generation is dispatched, with consecutive ids. *)
Lemma askAll_rest fuel n : forall rounds o, studyInv o -> popSize - op_asked o = Z.of_nat n -> (n < rounds)%nat ->
  exists ts o', askAll rounds (S fuel) o = Some (ts, o') /\ studyInv o' /\ map tr_ID ts = seqZ (op_nextID o) (Z.of_nat n) /\
    op_asked o' = popSize /\ op_gen o' = op_gen o /\ op_told o' = op_told o /\ op_parents o' = op_parents o /\
    op_nextID o' = op_nextID o + Z.of_nat n /\
    (forall id, is_Some (op_pending o' !! id) <-> is_Some (op_pending o !! id) \/ id ∈ map tr_ID ts) /\
    (forall id, id < op_nextID o -> op_pending o' !! id = op_pending o !! id) /\
    forall t, t ∈ ts -> exists x, op_pending o' !! tr_ID t = Some x /\ stands t x.
Proof.
  induction n as [|n IH]; intros [|rounds] o Hi Hn Hr; try lia; cbn [askAll].
  { exists [], o. unfold Ask. rewrite (proj2 (Z.leb_le _ _)) by lia. cbn. splits; try done; [lia|lia| |].
    - intros id. rewrite elem_of_nil. tauto.
    - intros t Ht. by apply not_elem_of_nil in Ht. }
  destruct (Ask_next fuel o Hi) as (t & o1 & -> & Hi1 & Et & Eg & En1 & Eg1 & Ea1 & Et1 & Ep1 & x & Ex & Hx); [lia|]. cbn.
  destruct (IH rounds o1 Hi1) as (ts & o2 & -> & Hi2 & Eids & Ea2 & Eg2 & Et2 & Ep2 & En2 & Hpend & Hold & Hst); [lia..|]. cbn.
  exists (t :: ts), o2. splits; [done|done| |congruence..|lia| | |].
  - cbn [map]. rewrite Eids, Et, En1. rewrite (seqZ_cons (op_nextID o)) by lia. do 2 f_equal; lia.
  - intros id. rewrite Hpend, Ex. cbn [map]. rewrite elem_of_cons, lookup_insert_is_Some, Et.
    destruct (decide (op_nextID o = id)) as [->|Hne]; [tauto|]. intuition congruence.
  - intros id Hid. rewrite Hold by lia. rewrite Ex. apply lookup_insert_ne. lia.
  - intros t' Ht'. apply elem_of_cons in Ht' as [->|Ht']; [|by apply Hst].
    exists x. split; [|done]. rewrite Et, Hold, Ex by lia. apply lookup_insert_eq.
Qed.

(** What a result makes of the trial it belongs to. *)
Definition judged (x : individual) (result : res (list float64)) : individual :=
  match result with Ok vs => evaluated x vs | Err e => failed x e end.

Definition wfResult (result : res (list float64)) : Prop :=
  match result with Ok vs => length vs = length objectives | Err _ => True end.

Lemma judged_ok x result : i_evalOK (judged x result) = is_ok result.
Proof. by destruct result. Qed.

Lemma judged_good x result : wfResult result -> inSpace space (i_genome x) ->
  Forall goodIndividual (List.filter i_evalOK [judged x result]).
Proof. destruct result as [vs|e]; intros Hw Hx; cbn; constructor; [done|constructor]. Qed.

(** What Tell does with a pending trial, before the generation is advanced. *)
Definition recorded (id : Z) (x : individual) (result : res (list float64)) (o : Optimizer) : Optimizer :=
  mkOptimizer (op_r o) (op_nextID o) (op_gen o) (op_parents o) (delete id (op_pending o)) (op_asked o) (op_told o ++ [judged x result]).

Lemma Tell_eq id result o x : op_pending o !! id = Some x -> wfResult result ->
  Tell id result o = if Z.of_nat (length (op_told o ++ [judged x result])) =? popSize
    then o' ← advanceGeneration (recorded id x result o); Some (o', Ok tt) else Some (recorded id x result o, Ok tt).
Proof.
  intros Hx Hw. unfold Tell. rewrite Hx. destruct result as [vs|e]; [|done]. cbn in Hw. rewrite Hw, Nat.eqb_refl. done.
Qed.

Lemma recorded_inv id result o x : studyInv o -> op_pending o !! id = Some x -> wfResult result ->
  Z.of_nat (length (op_told o)) + 1 < popSize -> studyInv (recorded id x result o).
Proof.
  intros Hi Hx Hw Hlt. constructor; cbn; try apply Hi.
  - rewrite filter_app. apply Forall_app. split; [apply Hi|]. apply judged_good; [done|]. by apply (sv_pending _ Hi) in Hx as (_ & _ & Hx).
  - intros i y. rewrite lookup_delete_Some. intros [_ Hy]. by apply (sv_pending _ Hi).
  - rewrite length_app. cbn. pose proof (sv_asked _ Hi). rewrite map_size_delete, Hx.
    assert (Hs : size (op_pending o) <> 0%nat) by (intros E; apply map_size_empty_inv in E; by rewrite E in Hx). lia.
  - rewrite length_app. cbn. pose proof (sv_range _ Hi). lia.
Qed.

Lemma good_unranked x : goodIndividual x <-> goodIndividual (unranked x).
Proof. done. Qed.

(** The survivors are individuals of the pool, up to the ranks written in them. *)
Lemma selectElite_from m pool n elite x : sameLoss m pool -> selectElite pool n = Some elite -> x ∈ elite ->
  exists y, y ∈ pool /\ unranked x = unranked y.
Proof.
  intros Hm E Hx. destruct (selectElite_elite m pool n Hm) as (elite' & rest & E' & _ & Hp & _).
  rewrite E in E'. injection E' as <-.
  assert (Hin : unranked x ∈ map unranked pool).
  { rewrite <- Hp. apply list_elem_of_fmap_2, elem_of_app. by left. }
  apply list_elem_of_fmap in Hin as (y & Ey & Hy). by exists y.
Qed.

(** Survival keeps good individuals and, of a non-empty pool, some. *)
Lemma selectElite_good pool n : Forall goodIndividual pool -> (0 < n)%nat ->
  exists elite, selectElite pool n = Some elite /\ Forall goodIndividual elite /\ (pool <> [] -> elite <> []) /\ (length elite <= n)%nat.
Proof.
  intros Hg Hn. destruct (selectElite_elite _ pool n (good_sameLoss _ Hg)) as (elite & rest & E & Hl & _).
  exists elite. splits; [done| | |lia].
  - rewrite Forall_forall in *. intros x Hx.
    destruct (selectElite_from _ pool n elite x (good_sameLoss _ (proj2 (List.Forall_forall _ _) Hg)) E) as (y & Hy & Exy); [by apply list_elem_of_In|].
    apply (proj2 (good_unranked x)). rewrite Exy. apply (proj1 (good_unranked y)), Hg. by apply list_elem_of_In.
  - intros Hne E0. subst elite. destruct pool; [done|]. cbn in Hl. lia.
Qed.

(** The last trial of a generation advances the study. *)
Lemma Tell_last id result o x : studyInv o -> op_pending o !! id = Some x -> wfResult result ->
  Z.of_nat (length (op_told o)) + 1 = popSize -> op_parents o ++ List.filter i_evalOK (op_told o ++ [judged x result]) <> [] ->
  exists o', Tell id result o = Some (o', Ok tt) /\ studyInv o' /\ op_asked o' = 0 /\ op_told o' = [] /\
    op_pending o' = ∅ /\ op_gen o' = op_gen o + 1 /\ op_parents o' <> [] /\ Z.of_nat (length (op_parents o')) <= popSize.
Proof.
  intros Hi Hx Hw Hlast Hpool. rewrite (Tell_eq id result o x Hx Hw), length_app. cbn [length].
  rewrite (proj2 (Z.eqb_eq _ _)) by lia. unfold advanceGeneration. cbn [recorded op_parents op_told].
  destruct (selectElite_good (op_parents o ++ List.filter i_evalOK (op_told o ++ [judged x result])) (Z.to_nat popSize))
    as (elite & -> & Hg & Hne & Hl); [|lia|].
  { apply Forall_app. split; [apply Hi|]. rewrite filter_app. apply Forall_app. split; [apply Hi|].
    apply judged_good; [done|]. by apply (sv_pending _ Hi) in Hx as (_ & _ & Hx). }
  cbn. eexists. split; [done|]. cbn.
  assert (He : delete id (op_pending o) = ∅).
  { apply map_size_empty_inv. rewrite map_size_delete, Hx. pose proof (sv_asked _ Hi). pose proof (sv_range _ Hi). lia. }
  rewrite He. splits; try done; [|by apply Hne|lia]. pose proof (sv_gen _ Hi). constructor; cbn; try done; [by intros _; apply Hne|lia|lia].
Qed.

Definition count {A} (f : A -> bool) (l : list A) : Z := Z.of_nat (length (List.filter f l)).

Lemma tellAll_done : forall ts results o evals failures, studyInv o -> base.NoDup (map tr_ID ts) -> ts <> [] ->
  (forall id, is_Some (op_pending o !! id) <-> id ∈ map tr_ID ts) -> Z.of_nat (length (op_told o)) + Z.of_nat (length ts) = popSize ->
  length results = length ts -> Forall wfResult results ->
  op_parents o <> [] \/ List.filter i_evalOK (op_told o) <> [] \/ List.filter is_ok results <> [] ->
  exists o', tellAll ts results o evals failures =
      Some (o', Ok (evals + count is_ok results, failures + count (fun x => negb (is_ok x)) results)) /\
    studyInv o' /\ op_asked o' = 0 /\ op_told o' = [] /\ op_pending o' = ∅ /\ op_gen o' = op_gen o + 1 /\ op_parents o' <> [] /\
    Z.of_nat (length (op_parents o')) <= popSize.
Proof.
  induction ts as [|t ts IH]; intros [|result results] o evals failures Hi Hnd Hne Hdom Hlen Hrl Hw Hseed; try done.
  cbn [map] in Hnd, Hdom. apply list.NoDup_cons in Hnd as [Hnin Hnd]. inversion Hw as [|? ? Hw1 Hw2]; subst.
  cbn [length] in *. destruct (proj2 (Hdom (tr_ID t))) as [x Hx]; [by left|]. cbn [tellAll].
  assert (Hpool : op_parents o <> [] \/ List.filter i_evalOK (op_told o ++ [judged x result]) <> [] \/ List.filter is_ok results <> []).
  { destruct Hseed as [Hs|[Hs|Hs]]; [by left| |].
    - right; left. rewrite filter_app. by destruct (List.filter i_evalOK (op_told o)).
    - right. cbn in Hs. rewrite filter_app. cbn. rewrite judged_ok. destruct (is_ok result); [left|by right].
      by destruct (List.filter i_evalOK (op_told o)). }
  assert (Hcount : (evals + count is_ok (result :: results), failures + count (fun x => negb (is_ok x)) (result :: results)) =
    ((if is_ok result then evals + 1 else evals) + count is_ok results,
     (if is_ok result then failures else failures + 1) + count (fun x => negb (is_ok x)) results)).
  { unfold count. cbn [List.filter]. destruct (is_ok result); cbn [negb length]; f_equal; lia. }
  rewrite Hcount. destruct ts as [|t2 ts].
  - destruct results; [|done]. destruct (Tell_last (tr_ID t) result o x Hi Hx Hw1) as (o' & -> & Hrest); [cbn in Hlen; lia| |].
    { intros E. apply app_eq_nil in E as [E1 E2]. by destruct Hpool as [H0|[H0|H0]]. }
    cbn. exists o'. split; [|done]. destruct result; cbn; unfold count; cbn; by rewrite !Z.add_0_r.
  - rewrite (Tell_eq (tr_ID t) result o x Hx Hw1), length_app. cbn [length] in *.
    rewrite (proj2 (Z.eqb_neq _ _)) by lia. cbn [mbind option_bind].
    destruct (IH results (recorded (tr_ID t) x result o) (if is_ok result then evals + 1 else evals)
      (if is_ok result then failures else failures + 1)) as (o' & E & Hrest); try done.
    + apply recorded_inv; [done..|lia].
    + intros id. cbn [recorded op_pending]. rewrite lookup_delete_is_Some, Hdom, elem_of_cons.
      split; [intros [H1 [H2|H2]]; [congruence|done]|]. intros Hin. split; [|by right]. intros <-. done.
    + cbn [recorded op_told]. rewrite length_app. cbn [length]. lia.
    + lia.
    + exists o'. split; [|done]. by destruct result.
Qed.

(** Between two generations nothing is outstanding. *)
Definition boundary (o : Optimizer) : Prop := studyInv o /\ op_asked o = 0 /\ op_told o = [] /\ op_pending o = ∅.

Section Study.
Context (eval : Trial -> option (res (list float64))).
Context (eval_total : forall t, exists result, eval t = Some result /\ wfResult result).
Context (k : Z) (k_range : 0 <= k < popSize) (k_succeeds : forall t, tr_ID t = k -> exists vs, eval t = Some (Ok vs)).

Lemma evaluateGeneration_total ts : exists results, evaluateGeneration eval ts = Some results /\ length results = length ts /\
  Forall wfResult results /\ Forall2 (fun t result => eval t = Some result) ts results /\
  (k ∈ map tr_ID ts -> List.filter is_ok results <> []).
Proof.
  induction ts as [|t ts (results & E & Hl & Hw & He & Hk)]; cbn [evaluateGeneration map].
  { exists []. splits; [done|done|constructor..|]. intros Hin. by apply not_elem_of_nil in Hin. }
  destruct (eval_total t) as (r & Er & Hr). rewrite Er, E. cbn. exists (r :: results). splits; [done|cbn; lia|by constructor..|].
  rewrite elem_of_cons. cbn. intros [->|Hin].
  - destruct (k_succeeds t eq_refl) as [vs Evs]. rewrite Er in Evs. injection Evs as ->. done.
  - destruct (is_ok r); [done|by apply Hk].
Qed.

Lemma count_split {A} (f : A -> bool) l : count f l + count (fun x => negb (f x)) l = Z.of_nat (length l).
Proof. unfold count. induction l as [|x l IH]; cbn; [done|]. destruct (f x); cbn [negb length]; lia. Qed.

(** *** What the results become *)

Definition succeeds (t : Trial) : bool := match eval t with Some (Ok _) => true | _ => false end.

(** [x] carries the result of its own trial, one of [all]. *)
Definition toldOf (all : list Trial) (x : individual) : Prop := exists t, t ∈ all /\ stands t x /\
  eval t = Some (Ok (i_values x)) /\ i_loss x = toLoss (i_values x) objectives.

Lemma toldOf_sub all all' x : all ⊆ all' -> toldOf all x -> toldOf all' x.
Proof. intros Hs (t & Ht & H0). exists t. split; [by apply Hs|done]. Qed.

Lemma toldOf_unranked all x y : unranked x = unranked y -> toldOf all y -> toldOf all x.
Proof.
  intros E (t & Ht & [H1 H2] & H3 & H4).
  assert (Ei : i_id x = i_id y) by exact (f_equal i_id E).
  assert (Eg : i_genome x = i_genome y) by exact (f_equal i_genome E).
  assert (Ev : i_values x = i_values y) by exact (f_equal i_values E).
  assert (El : i_loss x = i_loss y) by exact (f_equal i_loss E).
  exists t. unfold stands. by rewrite Ei, Eg, Ev, El.
Qed.

Lemma toldOf_sameLoss all pool : Forall (toldOf all) pool -> sameLoss (length objectives) pool.
Proof.
  apply Forall_impl. intros x (t & _ & _ & Ev & ->). rewrite toLoss_length.
  destruct (eval_total t) as (result & E & Hw). rewrite Ev in E. by injection E as <-.
Qed.

Lemma judged_toldOf all t x result : t ∈ all -> stands t x -> eval t = Some result ->
  Forall (toldOf all) (List.filter i_evalOK [judged x result]).
Proof.
  intros Ht Hx He. destruct result as [vs|e]; cbn; constructor; [|done]. exists t. by splits.
Qed.

(** The candidates for survival: the parents and the successes told so far. *)
Definition pool (o : Optimizer) : list individual := op_parents o ++ List.filter i_evalOK (op_told o).

Lemma advanceGeneration_told all o o' : Forall (toldOf all) (pool o) -> advanceGeneration o = Some o' ->
  Forall (toldOf all) (pool o') /\ op_nextID o' = op_nextID o /\ op_pending o' = op_pending o.
Proof.
  intros Hp E. unfold advanceGeneration in E. fold (pool o) in E. destruct (selectElite (pool o) _) as [elite|] eqn:Es; [|done].
  injection E as <-. splits; [|done..]. unfold pool at 1. cbn. rewrite app_nil_r. rewrite Forall_forall in *. intros x Hx.
  destruct (selectElite_from _ _ _ _ x (toldOf_sameLoss all _ (proj2 (List.Forall_forall _ _) Hp)) Es) as (y & Hy & Exy); [by apply list_elem_of_In|].
  apply (toldOf_unranked all x y Exy), Hp. by apply list_elem_of_In.
Qed.

(** A trial told its own result. *)
Lemma Tell_told all t x result o o' : t ∈ all -> op_pending o !! tr_ID t = Some x -> stands t x -> eval t = Some result ->
  Forall (toldOf all) (pool o) -> Tell (tr_ID t) result o = Some (o', Ok tt) ->
  Forall (toldOf all) (pool o') /\ op_nextID o' = op_nextID o /\ op_pending o' = delete (tr_ID t) (op_pending o).
Proof.
  intros Ht Hx Hst He Hp E. destruct (eval_total t) as (result' & E' & Hw). rewrite He in E'. injection E' as <-.
  rewrite (Tell_eq _ _ _ _ Hx Hw) in E.
  assert (Hp' : Forall (toldOf all) (pool (recorded (tr_ID t) x result o))).
  { unfold pool in *. cbn. rewrite filter_app, app_assoc. apply Forall_app. split; [done|]. by apply (judged_toldOf all t). }
  destruct (_ =? popSize); [|by injection E as <-].
  destruct (advanceGeneration _) as [o1|] eqn:Ea; [|done]. injection E as <-. by apply (advanceGeneration_told all) in Ea.
Qed.

Lemma tellAll_told all : forall ts results o evals failures o' e f,
  tellAll ts results o evals failures = Some (o', Ok (e, f)) -> Forall2 (fun t result => eval t = Some result) ts results ->
  base.NoDup (map tr_ID ts) -> (forall t, t ∈ ts -> t ∈ all /\ exists x, op_pending o !! tr_ID t = Some x /\ stands t x) ->
  Forall (toldOf all) (pool o) ->
  Forall (toldOf all) (pool o') /\ op_nextID o' = op_nextID o /\
  e = evals + count succeeds ts /\ f = failures + count (fun t => negb (succeeds t)) ts.
Proof.
  induction ts as [|t ts IH]; intros results o evals failures o' e f E He Hnd Hst Hp.
  { injection E as <- <- <-. unfold count. cbn. splits; [done|done|lia..]. }
  inversion He as [|? result ? results' Her He']; subst. cbn [map] in Hnd. apply list.NoDup_cons in Hnd as [Hnin Hnd].
  cbn [tellAll] in E. destruct (Hst t) as (Ht & x & Hx & Hstx); [by left|].
  destruct (Tell (tr_ID t) result o) as [[o1 [[]|err]]|] eqn:Et; cbn in E; [|done..].
  destruct (Tell_told all t x result o o1 Ht Hx Hstx Her Hp Et) as (Hp1 & En1 & Epend).
  assert (Hst1 : forall t', t' ∈ ts -> t' ∈ all /\ exists x, op_pending o1 !! tr_ID t' = Some x /\ stands t' x).
  { intros t' Ht'. rewrite Epend, lookup_delete_ne; [apply Hst; by right|]. intros Eid. apply Hnin. rewrite Eid. by apply list_elem_of_fmap_2. }
  assert (Hs : succeeds t = is_ok result) by (unfold succeeds; rewrite Her; by destruct result).
  destruct result; destruct (IH _ _ _ _ _ _ _ E He' Hnd Hst1 Hp1) as (Hp' & En' & -> & ->).
  all: unfold count; cbn [List.filter]; rewrite Hs; cbn [is_ok negb length]; splits; [done|congruence|lia..].
Qed.

(** The trials [all] asked up to a boundary, each scored once by its own evaluation. *)
Record studied (all : list Trial) (o : Optimizer) (evals failures : Z) : Prop := {
  sd_ids : map tr_ID all = seqZ 0 (op_nextID o);
  sd_next : 0 <= op_nextID o;
  sd_space : forall t, t ∈ all -> exists g, contains space g = true /\ decode space g = Some (tr_Params t);
  sd_parents : Forall (toldOf all) (op_parents o);
  sd_evals : evals = count succeeds all;
  sd_failures : failures = count (fun t => negb (succeeds t)) all
}.

Lemma count_app {A} (f : A -> bool) l l' : count f (l ++ l') = count f l + count f l'.
Proof. unfold count. rewrite filter_app, length_app. lia. Qed.

(** One generation of the study. *)
Lemma generation_done fuel o all evals failures : boundary o -> op_parents o <> [] \/ op_nextID o = 0 -> studied all o evals failures ->
  exists ts o1 results o' e f, askAll (S (Z.to_nat popSize)) (S fuel) o = Some (ts, o1) /\ evaluateGeneration eval ts = Some results /\
    tellAll ts results o1 evals failures = Some (o', Ok (e, f)) /\ studied (all ++ ts) o' e f /\ op_nextID o' = op_nextID o + popSize /\
    boundary o' /\ op_gen o' = op_gen o + 1 /\ op_parents o' <> [] /\ Z.of_nat (length (op_parents o')) <= popSize.
Proof.
  intros (Hi & Ha & Ht & Hp) Hseed Hall.
  destruct (askAll_rest fuel (Z.to_nat popSize) (S (Z.to_nat popSize)) o Hi)
    as (ts & o1 & E1 & Hi1 & Eids & Ea & Eg & Et & Epar & Enext & Hpend & _ & Hst); [lia..|].
  destruct (evaluateGeneration_total ts) as (results & E2 & Hl & Hw & He & Hk).
  assert (Hlen : length ts = Z.to_nat popSize).
  { rewrite <- (length_map tr_ID ts), Eids, length_seqZ. lia. }
  assert (Hnd : base.NoDup (map tr_ID ts)) by (rewrite Eids; apply NoDup_seqZ).
  destruct (tellAll_done ts results o1 evals failures) as (o' & E3 & Hi' & Ha' & Ht' & Hp' & Hg' & Hn' & Hsz); try done.
  - intros ->. cbn in Hlen. lia.
  - intros id. rewrite Hpend, Hp, lookup_empty. split; [intros [Hs|Hs]; [by apply is_Some_None in Hs|done]|by right].
  - rewrite Et, Ht. cbn. lia.
  - rewrite Epar. destruct Hseed as [Hs|Hs]; [by left|]. right; right. apply Hk. rewrite Eids, Hs. apply elem_of_seqZ. lia.
  - destruct (tellAll_told (all ++ ts) _ _ _ _ _ _ _ _ E3 He Hnd) as (Hpool & En' & Ee & Ef).
    { intros t Hin. split; [apply elem_of_app; by right|by apply Hst]. }
    { unfold pool. rewrite Et, Ht, Epar. cbn. rewrite app_nil_r. eapply Forall_impl; [|apply (sd_parents _ _ _ _ Hall)].
      intros x. apply toldOf_sub. intros t Hin. apply elem_of_app. by left. }
    unfold pool in Hpool. rewrite Ht' in Hpool. cbn in Hpool. rewrite app_nil_r in Hpool. pose proof (sd_next _ _ _ _ Hall) as Hz.
    exists ts, o1, results, o', (evals + count is_ok results), (failures + count (fun x => negb (is_ok x)) results).
    splits; try done; [constructor|lia|congruence].
    + rewrite map_app, Eids, (sd_ids _ _ _ _ Hall), En', Enext, seqZ_app by lia. done.
    + lia.
    + intros t Hin. apply elem_of_app in Hin as [Hin|Hin]; [by apply (sd_space _ _ _ _ Hall)|].
      destruct (Hst t Hin) as (x & Hx & _ & Hd). exists (i_genome x). split; [|done].
      apply contains_inSpace. by apply (sv_pending _ Hi1) in Hx as (_ & _ & Hx).
    + done.
    + rewrite Ee, count_app, (sd_evals _ _ _ _ Hall). done.
    + rewrite Ef, count_app, (sd_failures _ _ _ _ Hall). done.
Qed.

(** A population to breed from. *)
Definition filled (o : Optimizer) : Prop := op_parents o <> [] /\ Z.of_nat (length (op_parents o)) <= popSize.

Lemma generations_done fuel n : forall g o all evals failures, boundary o -> op_parents o <> [] \/ op_nextID o = 0 ->
  studied all o evals failures ->
  exists all' o' e f, generations n g (S fuel) (fun _ => false) eval o evals failures = Some (o', Ok (e, f)) /\
    studied all' o' e f /\ op_nextID o' = op_nextID o + Z.of_nat n * popSize /\ boundary o' /\ op_gen o' = op_gen o + Z.of_nat n /\
    (filled o \/ (0 < n)%nat -> filled o').
Proof.
  induction n as [|n IH]; intros g o all evals failures Hb Hseed Hall; cbn [generations].
  { exists all, o, evals, failures. splits; [done|done|lia|done|lia|]. by intros [Hf|Hf]; [|lia]. }
  destruct (generation_done fuel o all evals failures Hb Hseed Hall)
    as (ts & o1 & results & o2 & e1 & f1 & -> & E2 & E3 & Hall2 & En2 & Hb2 & Hg2 & Hn2 & Hsz).
  cbn [mbind option_bind]. rewrite E2, E3. cbn [mbind option_bind].
  destruct (IH (S g) o2 (all ++ ts) e1 f1 Hb2 (or_introl Hn2) Hall2) as (all' & o' & e & f & -> & Hall' & En' & Hb' & Hg' & Hn').
  exists all', o', e, f. splits; [done|done|lia|done|lia|]. intros _. apply Hn'. by left.
Qed.
End Study.

(** ** The result of a study *)

Definition solutionOf (x : individual) (params : gmap string PValue) : Solution := mkSolution (i_id x) params (i_values x) (i_rank x).

Lemma solutions_total (r : R) pop : Forall goodIndividual pop -> exists sols, solutions pop = Some sols /\
  Forall2 (fun x s => exists params, decode space (i_genome x) = Some params /\ s = solutionOf x params) pop sols.
Proof.
  induction 1 as [|x pop (_ & _ & _ & Hx) _ (sols & E & IH)]; cbn [solutions]; [by exists []|].
  destruct (decode_inSpace r space (i_genome x) space_drawable Hx) as [params Ep]. rewrite Ep, E. cbn.
  exists (solutionOf x params :: sols). split; [done|]. constructor; [by exists params|done].
Qed.

(** A solution is dominated when another one's objective vector is better. *)
Definition beats (a b : Solution) : Prop :=
  dominatesLoss (toLoss (so_Values a) objectives) (toLoss (so_Values b) objectives) = Some true.

Lemma good_of_unranked pop pop' : map unranked pop' = map unranked pop -> Forall goodIndividual pop -> Forall goodIndividual pop'.
Proof.
  intros Hun. assert (H0 : forall l, Forall goodIndividual l <-> Forall goodIndividual (map unranked l)).
  { intros l. by rewrite Forall_map. }
  by rewrite (H0 pop'), Hun, <- H0.
Qed.

Lemma Forall2_in {A B} (P : A -> B -> Prop) l k : Forall2 P l k ->
  (forall x, x ∈ l -> exists y, y ∈ k /\ P x y) /\ (forall y, y ∈ k -> exists x, x ∈ l /\ P x y).
Proof.
  induction 1 as [|x y l k Hxy _ [IH1 IH2]]; [by split; intros ? Hin; apply not_elem_of_nil in Hin|]. split.
  - intros z Hz. apply elem_of_cons in Hz as [->|Hz]; [exists y; split; [by left|done]|].
    destruct (IH1 z Hz) as (w & Hw & Hp). exists w. split; [by right|done].
  - intros z Hz. apply elem_of_cons in Hz as [->|Hz]; [exists x; split; [by left|done]|].
    destruct (IH2 z Hz) as (w & Hw & Hp). exists w. split; [by right|done].
Qed.

Lemma and_iff_compat_l' (A B C : Prop) : (A -> (B <-> C)) -> A /\ B <-> A /\ C.
Proof. tauto. Qed.

(** The result lists the population and its non-dominated part. *)
Lemma buildResult_front (r : R) o evals failures gens : Forall goodIndividual (op_parents o) ->
  exists sols front, buildResult o evals failures gens = Some (mkResult sols front evals failures gens) /\
    length sols = length (op_parents o) /\
    (forall s, s ∈ sols -> exists x params, unranked x ∈ map unranked (op_parents o) /\
       decode space (i_genome x) = Some params /\ s = solutionOf x params) /\
    forall s, s ∈ front <-> s ∈ sols /\ forall s', s' ∈ sols -> ~ beats s' s.
Proof.
  intros Hg. unfold buildResult. destruct (rank_zero_iff _ _ (good_sameLoss _ Hg)) as (fronts & pop' & -> & Hun & Hz). cbn [mbind option_bind].
  pose proof (good_of_unranked _ _ Hun Hg) as Hg'. pose proof (sliceStable_perm rankLess pop') as Hperm.
  assert (Hgs : Forall goodIndividual (sliceStable rankLess pop')).
  { rewrite Forall_forall in *. intros x Hx. apply Hg'. by rewrite <- Hperm. }
  destruct (solutions_total r _ Hgs) as (sols & -> & H2). cbn [mbind option_bind]. eexists sols, _. split; [done|]. split.
  { rewrite <- (Forall2_length H2), Hperm, <- (length_map unranked), Hun. by rewrite length_map. }
  assert (Hsol : forall x s params, s = solutionOf x params -> goodIndividual x -> toLoss (so_Values s) objectives = i_loss x).
  { intros x s params -> (_ & _ & -> & _). done. }
  destruct (Forall2_in _ _ _ H2) as [Hto Hfrom]. rewrite List.Forall_forall in Hgs.
  assert (Hin : forall x, x ∈ sliceStable rankLess pop' <-> x ∈ pop') by (intros x; by rewrite Hperm).
  split.
  { intros s Hs. destruct (Hfrom s Hs) as (x & Hx & params & Hd & Es). exists x, params. split; [|done].
    rewrite <- Hun. by apply list_elem_of_fmap_2, Hin. }
  intros s. rewrite sliceStable_perm, list_elem_of_In, filter_In, <- list_elem_of_In, Z.eqb_eq. apply and_iff_compat_l'.
  intros Hs. destruct (Hfrom s Hs) as (x & Hx & params & _ & Es). rewrite Es. cbn [solutionOf so_Rank]. rewrite Hz by (by apply Hin).
  rewrite <- Es. unfold beats. rewrite (Hsol x s params Es) by (by apply Hgs, list_elem_of_In). split.
  - intros H0 s' Hs'. destruct (Hfrom s' Hs') as (y & Hy & params' & _ & Es').
    rewrite (Hsol y s' params' Es') by (by apply Hgs, list_elem_of_In). apply H0. by apply Hin.
  - intros H0 y Hy. destruct (Hto y) as (s' & Hs' & params' & _ & Es'); [by apply Hin|].
    rewrite <- (Hsol y s' params' Es') by (by apply Hgs, list_elem_of_In, Hin). by apply H0.
Qed.

Lemma fresh_boundary r : boundary (mkOptimizer r 0 0 [] ∅ 0 []).
Proof.
  split; [|done]. constructor; cbn; try done; try (by constructor). lia.
Qed.

Lemma fresh_studied eval r : studied eval [] (mkOptimizer r 0 0 [] ∅ 0 []) 0 0.
Proof. constructor; cbn; try done. intros t Ht. by apply not_elem_of_nil in Ht. Qed.

(** Every solution of the population carries the values its own trial was given. *)
Definition scoredBy (eval : Trial -> option (res (list float64))) (ts : list Trial) (s : Solution) : Prop :=
  exists t, t ∈ ts /\ tr_ID t = so_ID s /\ tr_Params t = so_Params s /\ eval t = Some (Ok (so_Values s)).

Lemma solutionOf_scored eval ts xs x params : Forall (toldOf eval ts) xs -> unranked x ∈ map unranked xs ->
  decode space (i_genome x) = Some params -> scoredBy eval ts (solutionOf x params).
Proof.
  rewrite Forall_forall. intros Hxs Hx Hd. apply list_elem_of_fmap in Hx as (y & Exy & Hy).
  destruct (toldOf_unranked eval ts x y Exy) as (t & Ht & [Eid Ed] & Ev & _); [by apply Hxs, list_elem_of_In|].
  exists t. rewrite Hd in Ed. injection Ed as ->. by splits.
Qed.

(** A study from a fresh optimizer, from the lemmas above. *)
Lemma Optimize_completes eval k gens r fuel :
  (forall t, exists result, eval t = Some result /\ wfResult result) -> 0 <= k < popSize ->
  (forall t, tr_ID t = k -> exists vs, eval t = Some (Ok vs)) -> 1 <= gens ->
  exists o' result ts, Optimize (S fuel) (fun _ => false) eval gens (mkOptimizer r 0 0 [] ∅ 0 []) = Some (o', Ok result) /\
    map tr_ID ts = seqZ 0 (gens * popSize) /\
    (forall t, t ∈ ts -> exists g, contains space g = true /\ decode space g = Some (tr_Params t)) /\
    nr_Evaluations result = count (succeeds eval) ts /\ nr_Failures result = count (fun t => negb (succeeds eval t)) ts /\
    nr_Evaluations result + nr_Failures result = gens * popSize /\ nr_Generations result = gens /\ op_gen o' = gens /\
    1 <= Z.of_nat (length (nr_Population result)) <= popSize /\
    (forall s, s ∈ nr_Population result -> scoredBy eval ts s) /\
    forall s, s ∈ nr_ParetoFront result <-> s ∈ nr_Population result /\ forall s', s' ∈ nr_Population result -> ~ beats s' s.
Proof.
  intros Hev Hk Hks Hgens. unfold Optimize. rewrite (proj2 (Z.ltb_ge _ _)) by lia.
  destruct (generations_done eval Hev k Hk Hks fuel (Z.to_nat gens) 0 (mkOptimizer r 0 0 [] ∅ 0 []) [] 0 0 (fresh_boundary r))
    as (ts & o' & e & f & -> & Hall & En & Hb & Hg & Hfill); [by right|apply fresh_studied|]. cbn [mbind option_bind].
  destruct Hfill as [Hne Hsz]; [right; lia|]. destruct Hb as [Hi _].
  destruct (buildResult_front r o' e f gens (sv_parents _ Hi)) as (sols & front & -> & Hl & Hsols & Hfront). cbn.
  assert (Hids : map tr_ID ts = seqZ 0 (gens * popSize)).
  { rewrite (sd_ids _ _ _ _ _ Hall), En. cbn [op_nextID]. f_equal. lia. }
  assert (Hlen : Z.of_nat (length ts) = gens * popSize).
  { rewrite <- (length_map tr_ID ts), Hids, length_seqZ. lia. }
  pose proof (count_split (succeeds eval) ts) as Hsplit.
  eexists o', _, ts. split; [done|]. cbn. splits; [done|apply Hall|apply Hall|apply Hall| |done|cbn in Hg; lia| | | |exact Hfront].
  - rewrite (sd_evals _ _ _ _ _ Hall), (sd_failures _ _ _ _ _ Hall). lia.
  - rewrite Hl. destruct (op_parents o'); [done|cbn [length]; lia].
  - by rewrite Hl.
  - intros s Hs. destruct (Hsols s Hs) as (x & params & Hx & Hd & ->).
    by apply (solutionOf_scored eval ts (op_parents o')); [apply Hall|..].
Qed.
End Laws.
End Ops.

Lemma New_valid NewPCG cfg0 cfg o : New NewPCG cfg0 = Ok (cfg, o) ->
  2 <= nc_PopulationSize cfg /\ exists r, o = mkOptimizer r 0 0 [] ∅ 0 [].
Proof.
  unfold New. intros E. apply res_bind_ok in E as (c & Ec & E). injection E as <- <-. split; [|by eexists].
  unfold withDefaults in Ec. repeat (case_match; try discriminate).
  all: injection Ec as <-; cbn; repeat match goal with H0 : (_ <? _) = false |- _ => apply Z.ltb_ge in H0 end; lia.
Qed.

(** C34: a study completes and learns what its evaluations said: from a new
    optimizer over a space whose parameters can be drawn, with an evaluator that
    answers every trial and succeeds at least on one trial of the first
    generation, Optimize returns a result (no index panic, no retry of a
    crossover).  It asks generations times population size trials, numbered from 0,
    each with parameters decoded from a genome inside the bounds of the space;
    the counters of the result are the numbers of these trials whose evaluation
    succeeded and failed; every solution of the population is one of them, with
    that trial's parameters and exactly the values of that trial's own
    evaluation.  The population is non-empty and no larger than the configured
    one, and the reported Pareto front is exactly the set of the solutions of
    the population that no other one dominates. *)
Theorem study_completes NewPCG cfg0 cfg o eval k gens fuel
  (rng_range : forall n r, 0 < n -> 0 <= fst (rInt64n n r) < n)
  (Hnew : New NewPCG cfg0 = Ok (cfg, o)) (Hdraw : Forall drawable (nc_Space cfg)) (Hgens : 1 <= gens)
  (eval_total : forall t, exists result, eval t = Some result /\ wfResult cfg result)
  (k_range : 0 <= k < nc_PopulationSize cfg) (k_succeeds : forall t, tr_ID t = k -> exists vs, eval t = Some (Ok vs)) :
  exists o' result ts, Optimize cfg (S fuel) (fun _ => false) eval gens o = Some (o', Ok result) /\
    map tr_ID ts = seqZ 0 (gens * nc_PopulationSize cfg) /\
    (forall t, t ∈ ts -> exists g, contains (nc_Space cfg) g = true /\ decode (nc_Space cfg) g = Some (tr_Params t)) /\
    nr_Evaluations result = count (succeeds eval) ts /\ nr_Failures result = count (fun t => negb (succeeds eval t)) ts /\
    nr_Evaluations result + nr_Failures result = gens * nc_PopulationSize cfg /\ nr_Generations result = gens /\ op_gen o' = gens /\
    1 <= Z.of_nat (length (nr_Population result)) <= nc_PopulationSize cfg /\
    (forall s, s ∈ nr_Population result -> exists t, t ∈ ts /\ tr_ID t = so_ID s /\ tr_Params t = so_Params s /\
       eval t = Some (Ok (so_Values s))) /\
    forall s, s ∈ nr_ParetoFront result <-> s ∈ nr_Population result /\ forall s', s' ∈ nr_Population result -> ~ beats cfg s' s.
Proof.
  destruct (New_valid _ _ _ _ Hnew) as [Hpop [r ->]]. by apply (Optimize_completes cfg rng_range Hdraw Hpop eval k).
Qed.
End Optimizer.

(** ** Concrete studies *)

(** A generator that counts; its floats alternate between 0.25 and 0.75. *)
Definition countRng : Rng (R := Z) :=
  {| rFloat64 r := (if Z.even r then flit 1 4 else flit 3 4, r + 1); rInt64n n r := (r mod n, r + 1) |}.
#[local] Existing Instance countRng.

Lemma countRng_range n r : 0 < n -> 0 <= fst (rInt64n n r) < n.
Proof. intros Hn. cbn. by apply Z.mod_pos_bound. Qed.

(** Two objectives over an integer in 0..3 and a categorical axis. *)
Definition demoSpace : list (Param (V := string)) := [IntParam "n" 0 3; CategoricalParam "mode" ["a"; "b"]].
Definition demoCfg0 : Config (V := string) :=
  mkConfig demoSpace [mkObjective "loss" false; mkObjective "gain" true] 3 fzero fzero fzero 0.
Definition demoPCG (a b : Z) : Z := a mod 7.
Definition demoCfg : Config (V := string) :=
  mkConfig demoSpace [mkObjective "loss" false; mkObjective "gain" true] 3 (flit 9 10) (flit 1 2) (flit 1 2) 42.
Definition noLog (f : float64) : float64 := f.
Definition demoEval (t : Trial (V := string)) : option (res (list float64)) :=
  if tr_ID t =? 1 then Some (Err ErrInexact) else Some (Ok [zToFloat (tr_ID t); zToFloat (tr_ID t mod 2)]).
Definition demoStart : Optimizer (R := Z) := mkOptimizer (newRNG demoPCG 42) 0 0 [] ∅ 0 [].

(** The residue is one of the first [n] numbers, whatever the draw. *)
Lemma residues (P : Z -> Prop) (n : nat) r : (0 < n)%nat -> Forall P (map Z.of_nat (seq 0 n)) -> P (r mod Z.of_nat n).
Proof.
  intros Hn. rewrite Forall_forall. intros HP. apply HP. assert (H0 : 0 <= r mod Z.of_nat n < Z.of_nat n) by (apply Z.mod_pos_bound; lia).
  apply list_elem_of_In, list_elem_of_fmap. exists (Z.to_nat (r mod Z.of_nat n)). rewrite elem_of_seq. lia.
Qed.

Lemma demo_drawable : Forall (drawable noLog) demoSpace.
Proof.
  unfold demoSpace. constructor; [|constructor; [|constructor]]; intros r.
  - exists (zToFloat (wrap64 (0 + r mod 4))), (r + 1). split; [reflexivity|]. apply (residues (fun z => geneOk noLog _ (zToFloat (wrap64 (0 + z))) = true) 4); [lia|].
    repeat constructor.
  - exists (zToFloat (r mod 2)), (r + 1). split; [reflexivity|]. apply (residues (fun z => geneOk noLog _ (zToFloat z) = true) 2); [lia|].
    repeat constructor.
Qed.

Lemma study_completes_witness : exists o' result ts,
  Optimize noLog noLog demoCfg 1 (fun _ => false) demoEval 2 demoStart = Some (o', Ok result) /\
  map tr_ID ts = [0; 1; 2; 3; 4; 5] /\ nr_Evaluations result = count (succeeds demoEval) ts /\
  nr_Evaluations result + nr_Failures result = 6 /\
  forall s, s ∈ nr_Population result -> exists t, t ∈ ts /\ tr_ID t = so_ID s /\ tr_Params t = so_Params s /\
    demoEval t = Some (Ok (so_Values s)).
Proof.
  destruct (study_completes noLog noLog demoPCG demoCfg0 demoCfg demoStart demoEval 0 2 0)
    as (o' & result & ts & E & Hids & _ & He & _ & Hs & _ & _ & _ & Hp & _).
  - exact countRng_range.
  - vm_compute. reflexivity.
  - exact demo_drawable.
  - lia.
  - intros t. unfold demoEval. destruct (tr_ID t =? 1); eexists; (split; [reflexivity|]); cbn; done.
  - cbn. lia.
  - intros t Ht. unfold demoEval. rewrite Ht. cbn. by eexists.
  - exists o', result, ts. splits; [exact E|exact Hids|exact He|exact Hs|exact Hp].
Defined.

Definition is_Some_b {A} (x : option A) : bool := match x with Some _ => true | None => false end.

(** The trial whose result has the wrong number of values is neither pending
    nor told: the generation can no longer complete, and no further trial is
    ever asked. *)
Theorem malformed_result_stalls_study :
  ('(ts, o) ← askAll noLog noLog demoCfg 4 1 demoStart;
   '(o, _) ← Tell demoCfg 0 (Ok []) o;
   '(o, _) ← Tell demoCfg 1 (Ok [fzero; fzero]) o;
   '(o, _) ← Tell demoCfg 2 (Ok [fzero; fzero]) o;
   '(t, _) ← Ask noLog noLog demoCfg 1 o;
   Some (map tr_ID ts, op_gen o, length (op_told o), size (op_pending o), is_Some_b t)) = Some ([0; 1; 2], 0, 2%nat, 0%nat, false).
Proof. vm_compute. reflexivity. Qed.

(** After a generation whose every trial failed there is no parent to draw,
    and the next Ask panics. *)
Theorem failed_generation_panics_next_ask :
  ('(ts, o) ← askAll noLog noLog demoCfg 4 1 demoStart;
   '(o, r) ← tellAll demoCfg ts (repeat (Err ErrInexact) 3) o 0 0;
   Some (r, op_gen o, is_Some_b (Ask noLog noLog demoCfg 1 o))) = Some (Ok (0, 3), 1, false).
Proof. vm_compute. reflexivity. Qed.

(** Bounds whose width overflows pass the validation, but every sampled gene is
    infinite: no child is ever in bounds and the retry loop never returns. *)
Definition wideParam : Param (V := string) := FloatParam "x" (fneg (flit (10 ^ 308) 1)) (flit (10 ^ 308) 1).
Definition wideCfg : Config (V := string) :=
  mkConfig [wideParam] [mkObjective "loss" false] 2 (flit 9 10) (flit 1 2) (flit 1 2) 42.
Definition infinite : float64 := S754_infinity false.
Definition wideIndividual (id : Z) : individual := mkIndividual id 0 [infinite] [fzero] [fzero] 0 true None.

Theorem crossover_of_wide_bounds_never_returns :
  Param_validate wideParam = Ok tt /\ (forall r, fst <$> sampleGene noLog wideParam r = Some infinite) /\
  forall fuel r, crossover noLog wideCfg fuel [wideIndividual 0; wideIndividual 1] r = None.
Proof.
  splits; [vm_compute; reflexivity| |].
  - intros r. cbn. destruct (Z.even r); vm_compute; reflexivity.
  - assert (Hg : forall x, x ∈ [wideIndividual 0; wideIndividual 1] -> i_genome x = [infinite]).
    { intros x. rewrite !elem_of_cons. by intros [->|[->|Hx]]; [| |apply not_elem_of_nil in Hx]. }
    induction fuel as [|fuel IH]; intros r; [done|]. cbn [crossover].
    destruct (selectParents_in countRng_range 1 [wideIndividual 0; wideIndividual 1] r) as (p0 & p1 & r1 & -> & H0 & H1);
      [repeat constructor|done|]. cbn [mbind option_bind]. rewrite (Hg p0 H0), (Hg p1 H1). cbn [length space wideCfg nc_Space mixGenes rFloat64 countRng].
    cbn [mbind option_bind]. replace (if fleb _ _ then infinite else infinite) with infinite by (by destruct (fleb _ _)).
    replace (contains noLog _ [infinite]) with false by (vm_compute; reflexivity). apply IH.
Qed.
