(* ===== verification/Wire.v ===== *)
(** * The wire protocol of the broker gateway (src/internal/broker/moomoo)

    protocol.go and codec.go: the 44-byte frame header with its SHA-1, and the
    streaming frame reader.  Bytes are [Init.Byte.byte], little-endian fields
    are coqutil's [le_split] and [le_combine], and SHA-1 (crypto/sha1) is
    written out.  The stream is the list of the chunks that the reads of the
    socket return, in order, followed by its end. *)

From Stdlib Require Import Init.Byte.
From coqutil Require Import Byte Word.LittleEndianList.
From stdpp Require Import gmap strings list.
From S2P Require Import Prelude.
Set Default Goal Selector "!".
#[local] Open Scope string_scope.
#[local] Open Scope Z_scope.
#[local] Open Scope list_scope.
#[local] Abbreviation length := List.length.

(** ** SHA-1 (crypto/sha1) *)

Module Sha1.
Definition w32 (z : Z) : Z := z mod 2 ^ 32.
Definition rotl (n x : Z) : Z := Z.lor (w32 (Z.shiftl x n)) (Z.shiftr x (32 - n)).

(** The message, the bit 1, zeros up to 56 modulo 64, and the bit length. *)
Definition pad (msg : list byte) : list byte :=
  let n := length msg in
  msg ++ [x80] ++ repeat x00 ((119 - n mod 64) mod 64) ++ rev (le_split 8 (8 * Z.of_nat n)).

Fixpoint chunksOf (fuel n : nat) (l : list byte) : list (list byte) :=
  match fuel with
  | O => []
  | S fuel => match l with [] => [] | _ => firstn n l :: chunksOf fuel n (skipn n l) end
  end.

Definition be32 (l : list byte) : Z := le_combine (rev l).

(** The schedule, most recent word first. *)
Fixpoint schedule (k : nat) (ws : list Z) : list Z :=
  match k with
  | O => ws
  | S k => schedule k (rotl 1 (Z.lxor (Z.lxor (nth 2 ws 0) (nth 7 ws 0)) (Z.lxor (nth 13 ws 0) (nth 15 ws 0))) :: ws)
  end.

Definition round (st : Z * Z * Z * Z * Z) (tw : nat * Z) : Z * Z * Z * Z * Z :=
  let '(a, b, c, d, e) := st in
  let '(t, w) := tw in
  let '(f, k) :=
    if (t <? 20)%nat then (Z.lor (Z.land b c) (Z.land (Z.lxor b 0xFFFFFFFF) d), 0x5A827999)
    else if (t <? 40)%nat then (Z.lxor (Z.lxor b c) d, 0x6ED9EBA1)
    else if (t <? 60)%nat then (Z.lor (Z.lor (Z.land b c) (Z.land b d)) (Z.land c d), 0x8F1BBCDC)
    else (Z.lxor (Z.lxor b c) d, 0xCA62C1D6) in
  (w32 (rotl 5 a + f + e + w + k), a, rotl 30 b, c, d).

Definition block (h : Z * Z * Z * Z * Z) (chunk : list byte) : Z * Z * Z * Z * Z :=
  let words := rev (schedule 64 (rev (map be32 (chunksOf 16 4 chunk)))) in
  let '(a, b, c, d, e) := fold_left round (zip (seq 0 80) words) h in
  let '(h0, h1, h2, h3, h4) := h in
  (w32 (h0 + a), w32 (h1 + b), w32 (h2 + c), w32 (h3 + d), w32 (h4 + e)).

Definition Sum (msg : list byte) : list byte :=
  let l := pad msg in
  let '(h0, h1, h2, h3, h4) := fold_left block (chunksOf (length l) 64 l) (0x67452301, 0xEFCDAB89, 0x98BADCFE, 0x10325476, 0xC3D2E1F0) in
  List.concat (map (fun h => rev (le_split 4 h)) [h0; h1; h2; h3; h4]).

Lemma length_Sum msg : length (Sum msg) = 20%nat.
Proof. unfold Sum. by destruct (fold_left _ _ _) as [[[[h0 h1] h2] h3] h4]. Qed.

(** The published values for the empty message and for the letters abc. *)
Lemma Sum_vectors :
  map (fun m => le_combine (rev (Sum m))) [[]; [x61; x62; x63]]
  = [0xDA39A3EE5E6B4B0D3255BFEF95601890AFD80709; 0xA9993E364706816ABA3E25717850C26C9CD0D89D].
Proof. vm_compute. reflexivity. Qed.
End Sha1.

(** ** Frames (protocol.go) *)

Definition HeaderLen : nat := 44.
Definition protoFmtProtobuf : byte := x00.
Definition apiProtoVer : byte := x00.
Definition magic : list byte := [x46; x54].

Definition ProtoInitConnect : Z := 1001.
Definition ProtoGetGlobalState : Z := 1002.
Definition ProtoKeepAlive : Z := 1004.
Definition ProtoQotSub : Z := 3001.
Definition ProtoQotRegQotPush : Z := 3002.
Definition ProtoQotGetSubInfo : Z := 3003.
Definition ProtoQotGetBasicQot : Z := 3004.
Definition ProtoQotGetKL : Z := 3006.
Definition ProtoQotUpdateKL : Z := 3007.
Definition ProtoQotRequestHistoryKL : Z := 3103.
Definition ProtoTrdGetAccList : Z := 2001.
Definition ProtoTrdUnlockTrade : Z := 2005.
Definition ProtoTrdGetFunds : Z := 2101.
Definition ProtoTrdGetPositionList : Z := 2102.
Definition ProtoTrdGetOrderList : Z := 2201.
Definition ProtoTrdPlaceOrder : Z := 2202.
Definition ProtoTrdUpdateOrder : Z := 2208.
Definition ProtoTrdGetOrderFillList : Z := 2211.
Definition ProtoTrdUpdateOrderFill : Z := 2218.

Record Header : Type := mkHeader {
  h_ProtoID : Z;
  h_ProtoFmt : byte;
  h_ProtoVer : byte;
  h_SerialNo : Z;
  h_BodyLen : Z;
  h_BodySHA1 : list byte;
  h_Reserved : list byte
}.

(** [binary.LittleEndian.PutUint32] and [Uint32]. *)
Definition putUint32 (v : Z) : list byte := le_split 4 v.
Definition slice (a b : nat) (buf : list byte) : list byte := firstn (b - a) (skipn a buf).

Definition EncodeFrame (protoID serialNo : Z) (body : list byte) : list byte :=
  magic ++ putUint32 protoID ++ [protoFmtProtobuf; apiProtoVer] ++ putUint32 serialNo
    ++ putUint32 (Z.of_nat (length body)) ++ Sha1.Sum body ++ repeat x00 8 ++ body.

Definition byteAt (i : nat) (buf : list byte) : byte := nth i buf x00.

Definition DecodeHeader (buf : list byte) : res Header :=
  if (length buf <? HeaderLen)%nat then Err ErrShortHeader
  else if negb (Byte.eqb (byteAt 0 buf) (byteAt 0 magic)) || negb (Byte.eqb (byteAt 1 buf) (byteAt 1 magic)) then Err ErrBadMagic
  else Ok (mkHeader (le_combine (slice 2 6 buf)) (byteAt 6 buf) (byteAt 7 buf) (le_combine (slice 8 12 buf))
             (le_combine (slice 12 16 buf)) (slice 16 36 buf) (slice 36 44 buf)).

#[global] Instance byte_eq_dec : EqDecision byte := Byte.byte_eq_dec.

Definition VerifyBody (h : Header) (body : list byte) : res unit :=
  if decide (Sha1.Sum body = h_BodySHA1 h) then Ok tt else Err ErrSHAMismatch.

(** ** The frame reader (codec.go) *)

Definition MaxBodyLen : Z := 64 * 2 ^ 20.

Record Frame : Type := mkFrame { fr_Header : Header; fr_Body : list byte }.

(** The bytes read so far by the reads of a full read, and the stream after them. *)
Fixpoint gather (n : nat) (s : list (list byte)) : list byte * list (list byte) :=
  match s with
  | [] => ([], [])
  | c :: s =>
      if (n <=? length c)%nat then (firstn n c, skipn n c :: s)
      else let '(d, s) := gather (n - length c) s in (c ++ d, s)
  end.

(** [io.ReadFull] *)
Definition readFull (n : nat) (s : list (list byte)) : res (list byte) * list (list byte) :=
  if (n =? 0)%nat then (Ok [], s)
  else
    let '(d, s) := gather n s in
    if (length d =? n)%nat then (Ok d, s)
    else if (length d =? 0)%nat then (Err ErrEOF, s) else (Err ErrUnexpectedEOF, s).

Definition ReadFrame (s : list (list byte)) : res Frame * list (list byte) :=
  let '(r, s) := readFull HeaderLen s in
  match r with
  | Err e => (Err e, s)
  | Ok hdr =>
      match DecodeHeader hdr with
      | Err e => (Err e, s)
      | Ok h =>
          if MaxBodyLen <? h_BodyLen h then (Err (ErrOther "body length exceeds cap"), s)
          else
            let '(r, s) := readFull (Z.to_nat (h_BodyLen h)) s in
            match r with
            | Err ErrEOF => (Err ErrUnexpectedEOF, s)
            | Err e => (Err e, s)
            | Ok body =>
                match VerifyBody h body with
                | Err e => (Err e, s)
                | Ok _ => (Ok (mkFrame h body), s)
                end
            end
      end
  end.

Definition peekProtoID (hdr : list byte) : Z * bool :=
  if (length hdr <? 6)%nat then (0, false) else (le_combine (slice 2 6 hdr), true).

(** [readLoop] (client.go): frames until the first error.  A frame consumes its
    header, so the bytes of the stream bound the rounds. *)
Fixpoint readFrames (fuel : nat) (s : list (list byte)) : option (list Frame * error) :=
  match fuel with
  | O => None
  | S fuel =>
      match ReadFrame s with
      | (Err e, _) => Some ([], e)
      | (Ok f, s) => '(fs, e) ← readFrames fuel s; Some (f :: fs, e)
      end
  end.

Definition readLoop (s : list (list byte)) : option (list Frame * error) := readFrames (S (length (List.concat s))) s.

(** ** Reading from chunks *)

Lemma gather_concat s : forall n, exists s', gather n s = (firstn n (List.concat s), s') /\ List.concat s' = skipn n (List.concat s).
Proof.
  induction s as [|c s IH]; intros n; cbn [gather List.concat].
  { exists []. by rewrite firstn_nil, skipn_nil. }
  destruct (Nat.leb_spec n (length c)) as [Hle|Hgt].
  - exists (skipn n c :: s). rewrite firstn_app, skipn_app. replace (n - length c)%nat with 0%nat by lia. cbn. by rewrite app_nil_r.
  - destruct (IH (n - length c)%nat) as (s' & -> & Hs'). exists s'. rewrite firstn_app, skipn_app.
    rewrite (firstn_all2 c), (skipn_all2 c) by lia. done.
Qed.

(** A full read in terms of the bytes of the stream alone. *)
Definition readBytes (n : nat) (b : list byte) : res (list byte) :=
  if (n <=? length b)%nat then Ok (firstn n b) else if (length b =? 0)%nat then Err ErrEOF else Err ErrUnexpectedEOF.

Lemma readFull_bytes n s : exists s', readFull n s = (readBytes n (List.concat s), s') /\ List.concat s' = skipn n (List.concat s).
Proof.
  unfold readFull, readBytes. destruct (Nat.eqb_spec n 0) as [->|Hn]; [by exists s|].
  destruct (gather_concat s n) as (s' & -> & Hs'). exists s'. rewrite length_firstn.
  destruct (Nat.leb_spec n (length (List.concat s))) as [Hle|Hgt].
  - rewrite (proj2 (Nat.eqb_eq _ _)) by lia. done.
  - rewrite (proj2 (Nat.eqb_neq _ _)) by lia. replace (Nat.min n (length (List.concat s))) with (length (List.concat s)) by lia.
    by destruct (_ =? 0)%nat.
Qed.

(** The frame an encoded message denotes. *)
Definition frameOf (protoID serialNo : Z) (body : list byte) : Frame :=
  mkFrame (mkHeader protoID protoFmtProtobuf apiProtoVer serialNo (Z.of_nat (length body)) (Sha1.Sum body) (repeat x00 8)) body.

Definition isU32 (z : Z) : Prop := 0 <= z < 2 ^ 32.

Lemma putUint32_back v : isU32 v -> le_combine (putUint32 v) = v.
Proof. intros Hv. unfold putUint32. rewrite le_combine_split. by apply Z.mod_small. Qed.

(** The 44 bytes before the body. *)
Definition headerBytes (protoID serialNo : Z) (body : list byte) : list byte :=
  magic ++ putUint32 protoID ++ [protoFmtProtobuf; apiProtoVer] ++ putUint32 serialNo
    ++ putUint32 (Z.of_nat (length body)) ++ Sha1.Sum body ++ repeat x00 8.

Lemma EncodeFrame_split protoID serialNo body : EncodeFrame protoID serialNo body = headerBytes protoID serialNo body ++ body.
Proof. unfold EncodeFrame, headerBytes. by rewrite <- !app_assoc. Qed.

Lemma length_headerBytes protoID serialNo body : length (headerBytes protoID serialNo body) = HeaderLen.
Proof. unfold headerBytes, putUint32. by rewrite !length_app, !length_le_split, Sha1.length_Sum. Qed.

Lemma take_app_eq {A} (l k : list A) n : length l = n -> firstn n (l ++ k) = l.
Proof. intros <-. apply take_app_length. Qed.

Lemma drop_app_eq {A} (l k : list A) n : length l = n -> skipn n (l ++ k) = k.
Proof. intros <-. apply drop_app_length. Qed.

(** A list is as long as the list of its elements written out. *)
Ltac explode l n :=
  match n with
  | O => destruct l; [|cbn in *; discriminate]
  | S ?n => let b := fresh "b" in let l' := fresh "l" in destruct l as [|b l']; [cbn in *; discriminate|]; explode l' n
  end.

Lemma DecodeHeader_headerBytes protoID serialNo body : isU32 protoID -> isU32 serialNo -> isU32 (Z.of_nat (length body)) ->
  DecodeHeader (headerBytes protoID serialNo body) = Ok (fr_Header (frameOf protoID serialNo body)).
Proof.
  intros Hp Hs Hb. unfold DecodeHeader. rewrite length_headerBytes. cbn [Nat.ltb Nat.leb HeaderLen].
  pose proof (putUint32_back _ Hp) as Ep. pose proof (putUint32_back _ Hs) as Es. pose proof (putUint32_back _ Hb) as Eb.
  pose proof (Sha1.length_Sum body) as Hl. unfold headerBytes, frameOf. cbn [fr_Header].
  set (n := Z.of_nat (length body)) in *. generalize dependent (Sha1.Sum body). intros sha Hl.
  assert (Hlen : forall v, length (putUint32 v) = 4%nat) by (intros v; apply length_le_split).
  pose proof (Hlen protoID) as Lp. pose proof (Hlen serialNo) as Ls. pose proof (Hlen n) as Ln.
  revert Ep Es Eb Lp Ls Ln. generalize (putUint32 protoID), (putUint32 serialNo), (putUint32 n). intros lp ls ln Ep Es Eb Lp Ls Ln.
  explode lp 4%nat. explode ls 4%nat. explode ln 4%nat. explode sha 20%nat. rewrite <- Ep, <- Es, <- Eb. reflexivity.
Qed.

(** What is read of a stream that starts with an encoded frame. *)
Lemma ReadFrame_encoded s protoID serialNo body rest : isU32 protoID -> isU32 serialNo -> Z.of_nat (length body) <= MaxBodyLen ->
  List.concat s = EncodeFrame protoID serialNo body ++ rest ->
  exists s', ReadFrame s = (Ok (frameOf protoID serialNo body), s') /\ List.concat s' = rest.
Proof.
  intros Hp Hq Hb Hs. assert (Hb32 : isU32 (Z.of_nat (length body))) by (unfold isU32, MaxBodyLen in *; lia).
  unfold ReadFrame. destruct (readFull_bytes HeaderLen s) as (s1 & -> & Hs1).
  rewrite Hs, EncodeFrame_split, <- app_assoc in Hs1 |- *. unfold readBytes.
  rewrite (proj2 (Nat.leb_le _ _)) by (rewrite length_app, length_headerBytes; lia).
  rewrite (take_app_eq (headerBytes protoID serialNo body)) by apply length_headerBytes. rewrite DecodeHeader_headerBytes by done. cbn [frameOf fr_Header h_BodyLen].
  rewrite (proj2 (Z.ltb_ge _ _)) by done. rewrite Nat2Z.id.
  rewrite (drop_app_eq (headerBytes protoID serialNo body)) in Hs1 by apply length_headerBytes.
  destruct (readFull_bytes (length body) s1) as (s2 & -> & Hs2). rewrite Hs1 in Hs2 |- *. unfold readBytes.
  rewrite (proj2 (Nat.leb_le _ _)) by (rewrite length_app; lia). rewrite take_app_length.
  unfold VerifyBody. cbn [h_BodySHA1]. rewrite decide_True by done. exists s2. split; [done|].
  by rewrite Hs2, drop_app_length.
Qed.

(** ** The reader is the inverse of the encoder *)

Record Message : Type := mkMessage { ms_ProtoID : Z; ms_SerialNo : Z; ms_Body : list byte }.

Definition encode (m : Message) : list byte := EncodeFrame (ms_ProtoID m) (ms_SerialNo m) (ms_Body m).
Definition decoded (m : Message) : Frame := frameOf (ms_ProtoID m) (ms_SerialNo m) (ms_Body m).
Definition sendable (m : Message) : Prop :=
  isU32 (ms_ProtoID m) /\ isU32 (ms_SerialNo m) /\ Z.of_nat (length (ms_Body m)) <= MaxBodyLen.

Lemma encode_length m : length (encode m) = (HeaderLen + length (ms_Body m))%nat.
Proof. unfold encode. by rewrite EncodeFrame_split, length_app, length_headerBytes. Qed.

(** A stream that ends inside a frame. *)
Lemma ReadFrame_truncated m k s : sendable m -> (k < length (encode m))%nat -> List.concat s = firstn k (encode m) ->
  exists s', ReadFrame s = (Err (if (k =? 0)%nat then ErrEOF else ErrUnexpectedEOF), s').
Proof.
  intros (Hp & Hq & Hb) Hk Hs. rewrite encode_length in Hk.
  assert (Hl : length (List.concat s) = k) by (rewrite Hs, length_firstn, encode_length; lia).
  unfold ReadFrame. destruct (readFull_bytes HeaderLen s) as (s1 & -> & Hs1). unfold readBytes. rewrite Hl.
  destruct (Nat.leb_spec HeaderLen k) as [Hle|Hgt]; [|exists s1; by destruct (k =? 0)%nat].
  assert (Hb32 : isU32 (Z.of_nat (length (ms_Body m)))) by (unfold isU32, MaxBodyLen in *; lia).
  rewrite (proj2 (Nat.eqb_neq k 0)) by (unfold HeaderLen in *; lia).
  unfold encode in Hs. rewrite EncodeFrame_split, firstn_app, length_headerBytes in Hs.
  rewrite (firstn_all2 (headerBytes _ _ _)) in Hs by (rewrite length_headerBytes; done). rewrite Hs in Hs1 |- *.
  rewrite (take_app_eq (headerBytes _ _ _)) by apply length_headerBytes. rewrite DecodeHeader_headerBytes by done.
  cbn [frameOf fr_Header h_BodyLen]. rewrite (proj2 (Z.ltb_ge _ _)) by done. rewrite Nat2Z.id.
  rewrite (drop_app_eq (headerBytes _ _ _)) in Hs1 by apply length_headerBytes.
  destruct (readFull_bytes (length (ms_Body m)) s1) as (s2 & -> & _). rewrite Hs1. unfold readBytes.
  rewrite length_firstn, (proj2 (Nat.leb_gt _ _)) by (unfold HeaderLen in *; lia). exists s2.
  by destruct (_ =? 0)%nat.
Qed.

Lemma concat_encode_length msgs : (length msgs <= length (List.concat (map encode msgs)))%nat.
Proof. induction msgs as [|m msgs IH]; cbn [map List.concat length]; [lia|]. rewrite length_app, encode_length. unfold HeaderLen. lia. Qed.

Lemma readFrames_spec : forall msgs fuel s tail e, Forall sendable msgs -> (length msgs < fuel)%nat ->
  (forall s', List.concat s' = tail -> exists s'', ReadFrame s' = (Err e, s'')) ->
  List.concat s = List.concat (map encode msgs) ++ tail ->
  readFrames fuel s = Some (map decoded msgs, e).
Proof.
  induction msgs as [|m msgs IH]; intros [|fuel] s tail e Hm Hf Ht Hs; cbn [length] in Hf; try lia; cbn [readFrames map List.concat] in *.
  { destruct (Ht s Hs) as [s' ->]. done. }
  inversion Hm as [|? ? (Hp & Hq & Hb) Hm']; subst. rewrite <- app_assoc in Hs.
  destruct (ReadFrame_encoded s _ _ _ _ Hp Hq Hb Hs) as (s' & -> & Hs'). rewrite (IH fuel s' tail e) by (done || lia). done.
Qed.

(** C31: the frame reader inverts the encoder: whatever the chunks in which a
    stream of encoded frames arrives, the reader yields exactly the messages
    sent, in order, with their ids, serial numbers and bodies, and then ends:
    with EOF when the stream stops between two frames, with an unexpected EOF
    when it stops inside one. *)
Theorem frames_roundtrip msgs next k s (Hm : Forall sendable msgs) (Hn : sendable next) (Hk : (k < length (encode next))%nat)
  (Hs : List.concat s = List.concat (map encode msgs) ++ firstn k (encode next)) :
  readLoop s = Some (map decoded msgs, if (k =? 0)%nat then ErrEOF else ErrUnexpectedEOF).
Proof.
  unfold readLoop. apply (readFrames_spec msgs _ s (firstn k (encode next))); [done| |intros s' Hs'; by apply (ReadFrame_truncated next)|done].
  rewrite Hs, length_app. pose proof (concat_encode_length msgs). lia.
Qed.

(** C32: A frame whose body was changed on the way is not delivered: the messages
    before it are, and the reader stops with the checksum error. *)
Theorem damaged_body_stops_reader (msgs : list Message) (m : Message) (body' rest : list byte) (s : list (list byte))
    (Hmsgs : Forall sendable msgs) (Hsend : sendable m) (Hlen : length body' = length (ms_Body m))
    (Hdamaged : Sha1.Sum body' <> Sha1.Sum (ms_Body m))
    (Hstream : List.concat s = List.concat (map encode msgs) ++ headerBytes (ms_ProtoID m) (ms_SerialNo m) (ms_Body m) ++ body' ++ rest) :
  readLoop s = Some (map decoded msgs, ErrSHAMismatch).
Proof.
  rename Hmsgs into Hm, Hlen into Hl, Hdamaged into Hsha, Hstream into Hs. destruct Hsend as (Hp & Hq & Hb). unfold readLoop.
  apply (readFrames_spec msgs _ s (headerBytes (ms_ProtoID m) (ms_SerialNo m) (ms_Body m) ++ body' ++ rest)); [done| | |done].
  { rewrite Hs, length_app. pose proof (concat_encode_length msgs). lia. }
  intros s' Hs'. assert (Hb32 : isU32 (Z.of_nat (length (ms_Body m)))) by (unfold isU32, MaxBodyLen in *; lia).
  unfold ReadFrame. destruct (readFull_bytes HeaderLen s') as (s1 & -> & Hs1). rewrite Hs' in Hs1 |- *. unfold readBytes.
  rewrite (proj2 (Nat.leb_le _ _)) by (rewrite length_app, length_headerBytes; lia).
  rewrite (take_app_eq (headerBytes _ _ _)) by apply length_headerBytes. rewrite DecodeHeader_headerBytes by done.
  cbn [frameOf fr_Header h_BodyLen]. rewrite (proj2 (Z.ltb_ge _ _)) by done. rewrite Nat2Z.id.
  rewrite (drop_app_eq (headerBytes _ _ _)) in Hs1 by apply length_headerBytes.
  destruct (readFull_bytes (length (ms_Body m)) s1) as (s2 & -> & _). rewrite Hs1. unfold readBytes.
  rewrite (proj2 (Nat.leb_le _ _)) by (rewrite length_app; lia). rewrite take_app_eq by done.
  unfold VerifyBody. cbn [h_BodySHA1]. rewrite decide_False by done. by exists s2.
Qed.

(** Two frames in three chunks, and the first half of a third. *)
Definition hello : Message := mkMessage ProtoInitConnect 1 [x01; x02].
Definition ping : Message := mkMessage ProtoKeepAlive 2 [].

Lemma frames_roundtrip_witness :
  readLoop [firstn 30 (encode hello); skipn 30 (encode hello) ++ firstn 10 (encode ping); skipn 10 (encode ping) ++ firstn 45 (encode hello)]
  = Some ([decoded hello; decoded ping], ErrUnexpectedEOF).
Proof.
  apply (frames_roundtrip [hello; ping] hello 45).
  - repeat constructor; vm_compute; done.
  - repeat split; vm_compute; done.
  - vm_compute. lia.
  - vm_compute. reflexivity.
Defined.

Lemma damaged_body_stops_reader_witness :
  readLoop [encode ping; headerBytes ProtoInitConnect 1 [x01; x02]; [x01; x03] ++ encode ping] = Some ([decoded ping], ErrSHAMismatch).
Proof.
  apply (damaged_body_stops_reader [ping] hello [x01; x03] (encode ping)).
  - repeat constructor; vm_compute; done.
  - repeat split; vm_compute; done.
  - reflexivity.
  - vm_compute. discriminate.
  - vm_compute. reflexivity.
Defined.
