(* ===== verification/WireClient.v ===== *)
(** * The gateway client (src/internal/broker/moomoo/client.go, requests.go, trd_client.go)

    Request/response correlation, the life of a connection, subscriptions and
    order submission of the reconnecting client.  A call is split at the points where
    other goroutines can run: it draws its serial number, registers its waiter under
    the mutex, writes its frame, waits for one of the cases of its select, and removes
    its waiter before it returns; the reader takes a waiter out of the map under the
    mutex and then sends the frame into its channel.  A connection is a number; the
    channel of a waiter holds at most one frame.  Protobuf encoding and decoding are parameters. *)

From Stdlib Require Import Init.Byte.
From coqutil Require Import Byte Word.LittleEndianList.
From stdpp Require Import gmap strings list pretty.
From S2P Require Import Prelude Lists Fixed Money Domain Float64 OrderFSM Wire.
Set Default Goal Selector "!".
#[local] Open Scope string_scope.
#[local] Open Scope Z_scope.
#[local] Open Scope list_scope.
#[local] Abbreviation length := List.length.

Definition ErrClosed : error := ErrOther "moomoo: client closed".
Definition ErrNotConnected : error := ErrOther "moomoo: not connected".
Definition ErrProtocol : error := ErrOther "moomoo: protocol error".
Definition ErrTimeout : error := ErrOther "context deadline exceeded".
Definition ErrWrite : error := ErrOther "moomoo: write".
Definition ErrOrderRejected : error := ErrOther "moomoo: order rejected by the broker".
Definition ErrUnsupported : error := ErrOther "moomoo: trade operation not supported by this client".

(** ** State (client.go) *)

(** A call in flight: its waiter (with the buffered channel) and its connection. *)
Record call : Type := mkCall { ca_protoID : Z; ca_serial : Z; ca_conn : nat; ca_ch : option Frame }.

Abbreviation Subscription := (string * Z)%type (only parsing).

Record Client : Type := mkClient {
  cl_serial : Z;
  cl_conn : option nat;
  cl_connIDs : gmap nat Z;
  cl_done : gset nat;
  cl_waiters : gmap Z nat;
  cl_calls : gmap nat call;
  cl_subs : gset Subscription;
  cl_closed : bool;
  cl_submittedCO : gmap string string;
  cl_written : list (nat * list byte);
  cl_nextCall : nat;
  cl_nextConn : nat
}.

Definition NewClient : Client := mkClient 0 None ∅ ∅ ∅ ∅ ∅ false ∅ [] 0 0.

Definition withSerial (s : Z) (c : Client) : Client :=
  mkClient s (cl_conn c) (cl_connIDs c) (cl_done c) (cl_waiters c) (cl_calls c) (cl_subs c) (cl_closed c) (cl_submittedCO c) (cl_written c) (cl_nextCall c) (cl_nextConn c).
Definition withConn (o : option nat) (c : Client) : Client :=
  mkClient (cl_serial c) o (cl_connIDs c) (cl_done c) (cl_waiters c) (cl_calls c) (cl_subs c) (cl_closed c) (cl_submittedCO c) (cl_written c) (cl_nextCall c) (cl_nextConn c).
Definition withCalls (ws : gmap Z nat) (cs : gmap nat call) (c : Client) : Client :=
  mkClient (cl_serial c) (cl_conn c) (cl_connIDs c) (cl_done c) ws cs (cl_subs c) (cl_closed c) (cl_submittedCO c) (cl_written c) (cl_nextCall c) (cl_nextConn c).
Definition withSubs (s : gset Subscription) (c : Client) : Client :=
  mkClient (cl_serial c) (cl_conn c) (cl_connIDs c) (cl_done c) (cl_waiters c) (cl_calls c) s (cl_closed c) (cl_submittedCO c) (cl_written c) (cl_nextCall c) (cl_nextConn c).
Definition withSubmitted (s : gmap string string) (c : Client) : Client :=
  mkClient (cl_serial c) (cl_conn c) (cl_connIDs c) (cl_done c) (cl_waiters c) (cl_calls c) (cl_subs c) (cl_closed c) s (cl_written c) (cl_nextCall c) (cl_nextConn c).

Definition wrapu32 (z : Z) : Z := z mod 2 ^ 32.

(** [for { s := c.serial.Add(1); if s != 0 { return s } }]: the second round
    cannot yield 0 again. *)
Definition nextSerial (c : Client) : Z * Client :=
  let s := wrapu32 (cl_serial c + 1) in
  let s := if s =? 0 then wrapu32 (s + 1) else s in
  (s, withSerial s c).

(** ** Calls *)

(** The locked section of [roundTripSerial]: a waiter under the serial number. *)
Definition registerCall (protoID serial : Z) (c : Client) : Client * res nat :=
  if cl_closed c then (c, Err ErrClosed)
  else match cl_conn c with
       | None => (c, Err ErrNotConnected)
       | Some k =>
           let n := cl_nextCall c in
           (mkClient (cl_serial c) (cl_conn c) (cl_connIDs c) (cl_done c) (<[serial := n]> (cl_waiters c))
              (<[n := mkCall protoID serial k None]> (cl_calls c)) (cl_subs c) (cl_closed c) (cl_submittedCO c) (cl_written c) (S n) (cl_nextConn c), Ok n)
       end.

(** [writeFrame]: the frame reaches the connection, or the write fails. *)
Definition writeFrame (k : nat) (frame : list byte) (ok : bool) (c : Client) : Client * res unit :=
  if ok then (mkClient (cl_serial c) (cl_conn c) (cl_connIDs c) (cl_done c) (cl_waiters c) (cl_calls c) (cl_subs c) (cl_closed c)
                (cl_submittedCO c) (cl_written c ++ [(k, frame)]) (cl_nextCall c) (cl_nextConn c), Ok tt)
  else (c, Err ErrWrite).

(** The deferred removal of the waiter when a call returns. *)
Definition removeCall (n : nat) (serial : Z) (c : Client) : Client :=
  withCalls (delete serial (cl_waiters c)) (delete n (cl_calls c)) c.

Inductive wake : Set := WReply | WTimeout | WConnDone | WClosed.

(** The final select: the result of the case taken, when it can be.  The run context
    ends with [Close] or when its owner cancels it. *)
Definition selectCase (w : wake) (ca : call) (c : Client) : option (res (list byte)) :=
  match w with
  | WReply => f ← ca_ch ca; Some (Ok (fr_Body f))
  | WTimeout => Some (Err ErrTimeout)
  | WConnDone => if decide (ca_conn ca ∈ cl_done c) then Some (Err ErrNotConnected) else None
  | WClosed => Some (Err ErrClosed)
  end.

(** The select and the deferred removal. *)
Definition endCall (n : nat) (w : wake) (c : Client) : option (Client * res (list byte)) :=
  ca ← cl_calls c !! n;
  r ← selectCase w ca c;
  Some (removeCall n (ca_serial ca) c, r).

(** ** Routing of frames *)

Definition isPush (f : Frame) : bool :=
  let p := h_ProtoID (fr_Header f) in
  (p =? ProtoQotUpdateKL) || (p =? ProtoTrdUpdateOrder) || (p =? ProtoTrdUpdateOrderFill).

(** The non-blocking send into the waiter's channel. *)
Definition deliver (f : Frame) (ca : call) : call :=
  mkCall (ca_protoID ca) (ca_serial ca) (ca_conn ca) (match ca_ch ca with None => Some f | Some g => Some g end).

(** The locked section of [dispatch]: pushes go to their handlers; the waiter of the
    serial number is taken out of the map.  The result names its call. *)
Definition popWaiter (f : Frame) (c : Client) : Client * option nat :=
  if isPush f then (c, None)
  else match cl_waiters c !! h_SerialNo (fr_Header f) with
       | None => (c, None)
       | Some n => (withCalls (delete (h_SerialNo (fr_Header f)) (cl_waiters c)) (cl_calls c) c, Some n)
       end.

(** The send into the channel of that waiter. *)
Definition sendFrame (n : nat) (f : Frame) (c : Client) : Client := withCalls (cl_waiters c) (alter (deliver f) n (cl_calls c)) c.

Definition dispatch (f : Frame) (c : Client) : Client * option nat :=
  match popWaiter f c with
  | (c, Some n) => (sendFrame n f c, Some n)
  | (c, None) => (c, None)
  end.

(** ** The life of a connection *)

(** [connectOnce] installs the dialled connection before the handshake. *)
Definition install (c : Client) : Client :=
  if cl_closed c then c
  else mkClient (cl_serial c) (Some (cl_nextConn c)) (<[cl_nextConn c := 0]> (cl_connIDs c)) (cl_done c) (cl_waiters c) (cl_calls c) (cl_subs c)
         (cl_closed c) (cl_submittedCO c) (cl_written c) (cl_nextCall c) (S (cl_nextConn c)).

(** The InitConnect reply gives the connection its id. *)
Definition handshaken (k : nat) (connID : Z) (c : Client) : Client :=
  mkClient (cl_serial c) (cl_conn c) (<[k := connID]> (cl_connIDs c)) (cl_done c) (cl_waiters c) (cl_calls c) (cl_subs c) (cl_closed c)
    (cl_submittedCO c) (cl_written c) (cl_nextCall c) (cl_nextConn c).

(** The reader has exited: [close(cs.done)]. *)
Definition readerExit (k : nat) (c : Client) : Client :=
  mkClient (cl_serial c) (cl_conn c) (cl_connIDs c) ({[k]} ∪ cl_done c) (cl_waiters c) (cl_calls c) (cl_subs c) (cl_closed c)
    (cl_submittedCO c) (cl_written c) (cl_nextCall c) (cl_nextConn c).

Definition detach (k : nat) (c : Client) : Client :=
  if decide (cl_conn c = Some k) then withConn None c else c.

Definition failConnWaiters (c : Client) : Client := withCalls ∅ (cl_calls c) c.

Definition Close (c : Client) : Client :=
  mkClient (cl_serial c) (cl_conn c) (cl_connIDs c) (cl_done c) (cl_waiters c) (cl_calls c) (cl_subs c) true
    (cl_submittedCO c) (cl_written c) (cl_nextCall c) (cl_nextConn c).

(** ** A whole round trip, as its caller sees it *)

(** What happens while the call waits: the frames that arrive, and what wakes it. *)
Record Answer : Type := mkAnswer { an_writeOK : bool; an_frames : list Frame; an_wake : wake }.

Definition dispatchAll (fs : list Frame) (c : Client) : Client := fold_left (fun c f => fst (dispatch f c)) fs c.

Definition roundTripSerial (protoID serial : Z) (body : list byte) (a : Answer) (c : Client) : option (Client * res (list byte)) :=
  match registerCall protoID serial c with
  | (c, Err e) => Some (c, Err e)
  | (c, Ok n) =>
      ca ← cl_calls c !! n;
      match writeFrame (ca_conn ca) (EncodeFrame protoID serial body) (an_writeOK a) c with
      | (c, Err e) => Some (removeCall n serial c, Err e)
      | (c, Ok _) => endCall n (an_wake a) (dispatchAll (an_frames a) c)
      end
  end.

Definition roundTrip (protoID : Z) (body : list byte) (a : Answer) (c : Client) : option (Client * res (list byte)) :=
  let '(serial, c) := nextSerial c in roundTripSerial protoID serial body a c.

(** ** Subscriptions (requests.go) *)

Definition checkRet (retType : option Z) : res unit :=
  match retType with Some t => if t =? 0 then Ok tt else Err ErrProtocol | None => Err ErrProtocol end.

(** [qotcommon.SubType] of a [KLType]. *)
Definition SubTypeForKLType (kl : Z) : res Z :=
  if kl =? 2 then Ok 6
  else if kl =? 1 then Ok 11
  else if kl =? 6 then Ok 7
  else if kl =? 7 then Ok 8
  else if kl =? 8 then Ok 9
  else if kl =? 9 then Ok 10
  else Err (ErrOther "moomoo: no SubType for KLType").

Definition reserveQuota (maxSubs : Z) (symbols : list string) (kl : Z) (c : Client) : Client * res unit :=
  let add := length (List.filter (fun s => negb (bool_decide ((s, kl) ∈ cl_subs c))) symbols) in
  if maxSubs <? Z.of_nat (size (cl_subs c)) + Z.of_nat add then (c, Err ErrInvalidArgument)
  else (withSubs (cl_subs c ∪ list_to_set (map (fun s => (s, kl)) symbols)) c, Ok tt).

Definition releaseQuota (symbols : list string) (kl : Z) (c : Client) : Client :=
  withSubs (cl_subs c ∖ list_to_set (map (fun s => (s, kl)) symbols)) c.

Section Requests.
(** Protobuf: the encoding of the requests and the decoding of the replies. *)
Context (marshalSub : list string -> Z -> bool -> bool -> list byte).
Context (unmarshalRet : list byte -> option (option Z)).

(** [sendSub]: one Qot_Sub round trip and the check of its return code. *)
Definition sendSub (symbols : list string) (subType : Z) (sub regPush : bool) (a : Answer) (c : Client) : option (Client * res unit) :=
  '(c, r) ← roundTrip ProtoQotSub (marshalSub symbols subType sub regPush) a c;
  Some (c, body <-? r ;; match unmarshalRet body with None => Err ErrProtocol | Some ret => checkRet ret end).

Definition Subscribe (maxSubs : Z) (symbols : list string) (kl : Z) (a : Answer) (c : Client) : option (Client * res unit) :=
  match SubTypeForKLType kl with
  | Err e => Some (c, Err e)
  | Ok subType =>
      match reserveQuota maxSubs symbols kl c with
      | (c, Err e) => Some (c, Err e)
      | (c, Ok _) =>
          '(c, r) ← sendSub symbols subType true true a c;
          match r with
          | Err e => Some (releaseQuota symbols kl c, Err e)
          | Ok _ => Some (c, Ok tt)
          end
      end
  end.

Definition Unsubscribe (symbols : list string) (kl : Z) (a : Answer) (c : Client) : option (Client * res unit) :=
  match SubTypeForKLType kl with
  | Err e => Some (c, Err e)
  | Ok subType =>
      '(c, r) ← sendSub symbols subType false false a c;
      match r with
      | Err e => Some (c, Err e)
      | Ok _ => Some (releaseQuota symbols kl c, Ok tt)
      end
  end.

(** ** Orders (trd_client.go) *)

Record PacketID : Type := mkPacketID { pk_ConnID : Z; pk_SerialNo : Z }.

Record PlaceC2S : Type := mkPlaceC2S {
  pc_PacketID : PacketID;
  pc_TrdEnv : Z;
  pc_AccID : Z;
  pc_TrdSide : Z;
  pc_OrderType : Z;
  pc_Code : string;
  pc_Qty : float64;
  pc_Price : float64;
  pc_Remark : string;
  pc_TimeInForce : Z
}.

Record PlaceResponse : Type := mkPlaceResponse { rp_RetType : option Z; rp_OrderID : Z; rp_OrderIDEx : string }.

Context (marshalPlace : PlaceC2S -> list byte) (unmarshalPlace : list byte -> option PlaceResponse).

(** [venueID]: the string id, else the decimal of the number, else none. *)
Definition venueID (num : Z) (ex : string) : string :=
  if negb (String.eqb ex "") then ex else if num =? 0 then "" else pretty (Z.to_N num).

Definition packetID (c : Client) : PacketID * Client :=
  let connID := match cl_conn c with Some k => default 0 (cl_connIDs c !! k) | None => 0 end in
  let '(serial, c) := nextSerial c in
  (mkPacketID connID serial, c).

(** OrderType_Market = 2, OrderType_Normal = 1; TimeInForce_DAY = 0, TimeInForce_GTC = 1. *)
Definition placeC2S (pk : PacketID) (req : PlaceOrderRequest) (trdSide : Z) : PlaceC2S :=
  mkPlaceC2S pk (pr_TrdEnv req) (pr_AccID req) trdSide (if String.eqb (pr_Type req) OrderTypeLimit then 1 else 2)
    (pr_Symbol req) (Qty_Float64 (pr_Qty req)) (Price_Float64 (pr_Price req)) (pr_ClientOrderID req)
    (if String.eqb (pr_TIF req) TIFDay then 0 else 1).

Definition PlaceOrder (req : PlaceOrderRequest) (a : Answer) (c : Client) : option (Client * res string) :=
  match PlaceOrderRequest_Validate req with
  | Err e => Some (c, Err e)
  | Ok _ =>
      match cl_submittedCO c !! pr_ClientOrderID req with
      | Some v => Some (c, Ok v)
      | None =>
          match trdSideForDomain (pr_Side req) with
          | Err e => Some (c, Err e)
          | Ok trdSide =>
              let '(pk, c) := packetID c in
              '(c, r) ← roundTrip ProtoTrdPlaceOrder (marshalPlace (placeC2S pk req trdSide)) a c;
              match r with
              | Err e => Some (c, Err e)
              | Ok body =>
                  match unmarshalPlace body with
                  | None => Some (c, Err ErrProtocol)
                  | Some rsp =>
                      match checkRet (rp_RetType rsp) with
                      | Err _ => Some (c, Err ErrOrderRejected)
                      | Ok _ =>
                          let vid := venueID (rp_OrderID rsp) (rp_OrderIDEx rsp) in
                          Some (withSubmitted (<[pr_ClientOrderID req := vid]> (cl_submittedCO c)) c, Ok vid)
                      end
                  end
              end
          end
      end
  end.

(** [UnlockTrade]: nothing to do for the simulated account; a password is required. *)
Context (marshalUnlock : string -> Z -> list byte).

Definition UnlockTrade (env : Z) (password : string) (securityFirm : Z) (a : Answer) (c : Client) : option (Client * res unit) :=
  if negb (env =? TrdEnvReal) then Some (c, Ok tt)
  else if String.eqb password "" then Some (c, Err ErrInvalidArgument)
  else
    '(c, r) ← roundTrip ProtoTrdUnlockTrade (marshalUnlock password securityFirm) a c;
    Some (c, body <-? r ;; match unmarshalRet body with None => Err ErrProtocol | Some ret => checkRet ret end).

(** The cancel request is not wired. *)
Definition CancelOrder : res unit := Err ErrUnsupported.
End Requests.

(** ** Pushes (trd_client.go) *)

(** [trdcommon.Order] as far as it is read; the update time is already an instant. *)
Record TrdOrder : Type := mkTrdOrder {
  to_TrdSide : Z; to_Qty : float64; to_FillQty : float64; to_FillAvgPrice : float64; to_OrderStatus : Z;
  to_Remark : string; to_OrderID : Z; to_OrderIDEx : string; to_Code : string; to_UpdateNs : Z }.

Definition orderUpdateFromTrd (o : TrdOrder) : res OrderUpdate :=
  side <-? sideFromTrd (to_TrdSide o) ;;
  qty <-? QtyFromFloat64Trunc (to_Qty o) ;;
  dealt <-? QtyFromFloat64Trunc (to_FillQty o) ;;
  let avg := match PriceFromFloat64 (to_FillAvgPrice o) with Ok p => p | Err _ => 0 end in
  Ok (mkOrderUpdate (to_Remark o) (venueID (to_OrderID o) (to_OrderIDEx o)) (to_Code o) side (to_OrderStatus o) qty dealt avg (to_UpdateNs o)).

Record TrdOrderFill : Type := mkTrdOrderFill {
  tf_TrdSide : Z; tf_Qty : float64; tf_Price : float64; tf_FillID : Z; tf_FillIDEx : string;
  tf_OrderID : Z; tf_OrderIDEx : string; tf_Code : string; tf_UpdateNs : Z }.

Record FillUpdate : Type := mkFillUpdate {
  fu_FillID : string; fu_VenueOrderID : string; fu_Symbol : string; fu_Side : OrderSide; fu_Qty : Qty; fu_Price : Price; fu_UpdateTimeNs : Z }.

Definition fillUpdateFromTrd (f : TrdOrderFill) : res FillUpdate :=
  side <-? sideFromTrd (tf_TrdSide f) ;;
  qty <-? QtyFromFloat64Trunc (tf_Qty f) ;;
  let px := match PriceFromFloat64 (tf_Price f) with Ok p => p | Err _ => 0 end in
  Ok (mkFillUpdate (venueID (tf_FillID f) (tf_FillIDEx f)) (venueID (tf_OrderID f) (tf_OrderIDEx f)) (tf_Code f) side qty px (tf_UpdateNs f)).

(** [handleTrdOrderPush]: what the registered handler is called with, if anything. *)
Definition handleTrdOrderPush (unmarshal : list byte -> option (option TrdOrder)) (registered : bool) (f : Frame) : option OrderUpdate :=
  if negb registered then None
  else match unmarshal (fr_Body f) with
       | Some (Some o) => match orderUpdateFromTrd o with Ok u => Some u | Err _ => None end
       | _ => None
       end.

(** [GetOrderList]: the rows that convert, in order. *)
Definition ordersOf (rows : list TrdOrder) : list OrderUpdate :=
  omap (fun o => match orderUpdateFromTrd o with Ok u => Some u | Err _ => None end) rows.

(** ** Concurrent calls as steps

    The state of the client together with what its goroutines hold outside the
    mutex: serial numbers drawn and not yet registered, frames whose waiter was taken
    out of the map and that are not yet sent into its channel, and the serial numbers
    of calls that have their result and have yet to remove their waiter. *)

Record Traffic : Type := mkTraffic {
  w_client : Client;
  w_drawn : list Z;
  w_transit : list (nat * Frame);
  w_leaving : list Z
}.

(** The observable events of a run: a call registered under its serial number on a
    connection, a frame read on a connection with the call whose waiter it found,
    and a call that has its result. *)
Inductive event : Type :=
| ECall (n : nat) (protoID serial : Z) (k : nat)
| ERecv (k : nat) (f : Frame) (served : option nat)
| EReturn (n : nat) (r : res (list byte))
| EOther.

(** A call that has its result is no longer in flight; its waiter may still be there. *)
Definition settle (n : nat) (c : Client) : Client := withCalls (cl_waiters c) (delete n (cl_calls c)) c.

Definition unregister (serial : Z) (c : Client) : Client := withCalls (delete serial (cl_waiters c)) (cl_calls c) c.

Inductive step : Traffic -> event -> Traffic -> Prop :=
| step_draw c d tr lv s c1 :
    nextSerial c = (s, c1) -> step (mkTraffic c d tr lv) EOther (mkTraffic c1 (s :: d) tr lv)
| step_abandon c d1 s d2 tr lv : step (mkTraffic c (d1 ++ s :: d2) tr lv) EOther (mkTraffic c (d1 ++ d2) tr lv)
| step_register c d1 s d2 tr lv protoID c1 n k :
    registerCall protoID s c = (c1, Ok n) -> cl_conn c = Some k ->
    step (mkTraffic c (d1 ++ s :: d2) tr lv) (ECall n protoID s k) (mkTraffic c1 (d1 ++ d2) tr lv)
| step_refused c d1 s d2 tr lv protoID c1 e :
    registerCall protoID s c = (c1, Err e) -> step (mkTraffic c (d1 ++ s :: d2) tr lv) EOther (mkTraffic c1 (d1 ++ d2) tr lv)
| step_write c d tr lv n ca body c1 r :
    cl_calls c !! n = Some ca -> writeFrame (ca_conn ca) (EncodeFrame (ca_protoID ca) (ca_serial ca) body) true c = (c1, Ok r) ->
    step (mkTraffic c d tr lv) EOther (mkTraffic c1 d tr lv)
| step_writeErr c d tr lv n ca body c1 e :
    cl_calls c !! n = Some ca -> writeFrame (ca_conn ca) (EncodeFrame (ca_protoID ca) (ca_serial ca) body) false c = (c1, Err e) ->
    step (mkTraffic c d tr lv) (EReturn n (Err e)) (mkTraffic (settle n c1) d tr (ca_serial ca :: lv))
| step_recv c d tr lv k f c1 served :
    (k < cl_nextConn c)%nat -> k ∉ cl_done c -> popWaiter f c = (c1, served) ->
    step (mkTraffic c d tr lv) (ERecv k f served) (mkTraffic c1 d (match served with Some n => (n, f) :: tr | None => tr end) lv)
| step_send c d tr1 n f tr2 lv : step (mkTraffic c d (tr1 ++ (n, f) :: tr2) lv) EOther (mkTraffic (sendFrame n f c) d (tr1 ++ tr2) lv)
| step_select c d tr lv n w ca r :
    cl_calls c !! n = Some ca -> selectCase w ca c = Some r ->
    step (mkTraffic c d tr lv) (EReturn n r) (mkTraffic (settle n c) d tr (ca_serial ca :: lv))
| step_leave c d tr lv1 s lv2 : step (mkTraffic c d tr (lv1 ++ s :: lv2)) EOther (mkTraffic (unregister s c) d tr (lv1 ++ lv2))
| step_install c d tr lv : cl_conn c = None -> step (mkTraffic c d tr lv) EOther (mkTraffic (install c) d tr lv)
| step_handshaken c d tr lv k connID : cl_conn c = Some k -> step (mkTraffic c d tr lv) EOther (mkTraffic (handshaken k connID c) d tr lv)
| step_readerExit c d tr lv k : (k < cl_nextConn c)%nat -> step (mkTraffic c d tr lv) EOther (mkTraffic (readerExit k c) d tr lv)
| step_detach c d tr lv k : k ∈ cl_done c -> step (mkTraffic c d tr lv) EOther (mkTraffic (detach k c) d tr lv)
| step_failWaiters c d tr lv : step (mkTraffic c d tr lv) EOther (mkTraffic (failConnWaiters c) d tr lv)
| step_subs c d tr lv x : step (mkTraffic c d tr lv) EOther (mkTraffic (withSubs x c) d tr lv)
| step_submitted c d tr lv x : step (mkTraffic c d tr lv) EOther (mkTraffic (withSubmitted x c) d tr lv)
| step_close c d tr lv : step (mkTraffic c d tr lv) EOther (mkTraffic (Close c) d tr lv).

(** Runs, with the most recent event first. *)
Inductive run : list event -> Traffic -> Prop :=
| run_start : run [] (mkTraffic NewClient [] [] [])
| run_step t w e w' : run t w -> step w e w' -> run (e :: t) w'.

(** [before t x y]: in the run [t] the event [x] precedes the event [y]. *)
Definition before (t : list event) (x y : event) : Prop := exists t1 t2 t3, t = t1 ++ y :: t2 ++ x :: t3.

(** The frame answers the call: it was read after the call was registered, carries its
    serial number, is no push, and found its waiter. *)
Definition answers (t : list event) (n : nat) (f : Frame) : Prop :=
  exists p s k k', before t (ECall n p s k) (ERecv k' f (Some n)) /\ h_SerialNo (fr_Header f) = s /\ isPush f = false.

(** What the waiters, the calls in flight and the frames in transit say about the run
    so far. *)
Record callsInv (t : list event) (w : Traffic) : Prop := {
  ci_call : forall n ca, cl_calls (w_client w) !! n = Some ca -> ECall n (ca_protoID ca) (ca_serial ca) (ca_conn ca) ∈ t;
  ci_next : forall n p s k, ECall n p s k ∈ t -> (n < cl_nextCall (w_client w))%nat;
  ci_unique : forall n p s k p' s' k', ECall n p s k ∈ t -> ECall n p' s' k' ∈ t -> (p, s, k) = (p', s', k');
  ci_waiter : forall s n, cl_waiters (w_client w) !! s = Some n -> exists p k, ECall n p s k ∈ t;
  ci_transit : forall n f, (n, f) ∈ w_transit w -> answers t n f;
  ci_reply : forall n ca f, cl_calls (w_client w) !! n = Some ca -> ca_ch ca = Some f -> answers t n f;
  ci_served : forall n k f k' f', ERecv k f (Some n) ∈ t -> ERecv k' f' (Some n) ∈ t -> k = k' /\ f = f';
  ci_recv : forall n k f, ERecv k f (Some n) ∈ t -> (n < cl_nextCall (w_client w))%nat;
  ci_once : forall n k f, ERecv k f (Some n) ∈ t -> forall s, cl_waiters (w_client w) !! s <> Some n
}.

(** ** Correlation *)

Lemma before_cons e t x y : before t x y -> before (e :: t) x y.
Proof. intros (t1 & t2 & t3 & ->). by exists (e :: t1), t2, t3. Qed.

Lemma before_head t x y : x ∈ t -> before (y :: t) x y.
Proof. intros Hx. apply list_elem_of_split in Hx as (t2 & t3 & ->). by exists [], t2, t3. Qed.

Lemma before_in t x y : before t x y -> x ∈ t /\ y ∈ t.
Proof. intros (t1 & t2 & t3 & ->). split; set_solver. Qed.

Lemma answers_cons e t n f : answers t n f -> answers (e :: t) n f.
Proof. intros (p & s & k & k' & H1 & H2). exists p, s, k, k'. split; [by apply before_cons|done]. Qed.

(** Events that are no call and no service of one leave the invariant to the state. *)
Definition silent (e : event) : Prop :=
  match e with ECall _ _ _ _ => False | ERecv _ _ (Some _) => False | _ => True end.

(** A step that adds no waiter, no call in flight and no frame in transit. *)
Lemma callsInv_shrink t w e w' : silent e -> callsInv t w -> cl_nextCall (w_client w') = cl_nextCall (w_client w) ->
  (forall n ca, cl_calls (w_client w') !! n = Some ca -> cl_calls (w_client w) !! n = Some ca) ->
  (forall s n, cl_waiters (w_client w') !! s = Some n -> cl_waiters (w_client w) !! s = Some n) ->
  (forall n f, (n, f) ∈ w_transit w' -> (n, f) ∈ w_transit w) ->
  callsInv (e :: t) w'.
Proof.
  intros He Hi Hn Hc Hw Ht.
  assert (Hcall : forall n p s k, ECall n p s k ∈ e :: t -> ECall n p s k ∈ t) by (intros n p s k [<-|]%elem_of_cons; done).
  assert (Hrecv : forall k f n, ERecv k f (Some n) ∈ e :: t -> ERecv k f (Some n) ∈ t) by (intros k f n [<-|]%elem_of_cons; done).
  constructor.
  - intros n ca Hca. right. by apply Hi, Hc.
  - intros n p s k Hin. rewrite Hn. by eapply ci_next, Hcall.
  - intros n p s k p' s' k' H1%Hcall H2%Hcall. by eapply ci_unique.
  - intros s n Hs. apply Hw, (ci_waiter _ _ Hi) in Hs as (p & k & Hin). exists p, k. by right.
  - intros n f Hin. apply answers_cons, (ci_transit _ _ Hi). by apply Ht.
  - intros n ca f Hca Hch. apply answers_cons. by eapply (ci_reply _ _ Hi); [apply Hc|].
  - intros n k f k' f' H1%Hrecv H2%Hrecv. by eapply ci_served.
  - intros n k f H1%Hrecv. rewrite Hn. by eapply ci_recv.
  - intros n k f H1%Hrecv s Hs. apply Hw in Hs. by eapply ci_once.
Qed.

Lemma callsInv_same t c d tr lv e c' d' lv' : silent e -> callsInv t (mkTraffic c d tr lv) -> cl_nextCall c' = cl_nextCall c ->
  cl_calls c' = cl_calls c -> cl_waiters c' = cl_waiters c -> callsInv (e :: t) (mkTraffic c' d' tr lv').
Proof. intros He Hi Hn Hc Hw. apply (callsInv_shrink t (mkTraffic c d tr lv)); cbn; rewrite ?Hc, ?Hw; done. Qed.

Lemma callsInv_settle t c d tr lv e n lv' : silent e -> callsInv t (mkTraffic c d tr lv) -> callsInv (e :: t) (mkTraffic (settle n c) d tr lv').
Proof.
  intros He Hi. apply (callsInv_shrink t (mkTraffic c d tr lv)); cbn; try done. intros m cm. rewrite lookup_delete_Some. tauto.
Qed.

Lemma callsInv_call t c d tr lv p s k d' : callsInv t (mkTraffic c d tr lv) -> cl_conn c = Some k -> cl_closed c = false ->
  callsInv (ECall (cl_nextCall c) p s k :: t) (mkTraffic (fst (registerCall p s c)) d' tr lv).
Proof.
  intros Hi Hk Hcl. unfold registerCall. rewrite Hcl, Hk. cbn. set (n := cl_nextCall c).
  assert (Hfresh : forall p' s' k', ECall n p' s' k' ∈ t -> False).
  { intros p' s' k' Hin. apply (ci_next _ _ Hi) in Hin. unfold n in Hin. cbn in Hin. lia. }
  assert (Hrecv : forall k0 f m, ERecv k0 f (Some m) ∈ ECall n p s k :: t -> ERecv k0 f (Some m) ∈ t) by (intros k0 f m [?|]%elem_of_cons; done).
  constructor; cbn.
  - intros m ca. rewrite lookup_insert_Some. intros [[<- <-]|[_ Hca]]; [by left|]. right. by apply (ci_call _ _ Hi).
  - intros m p' s' k' [[= -> -> -> ->]|Hin]%elem_of_cons; [lia|]. apply (ci_next _ _ Hi) in Hin. cbn in Hin. lia.
  - intros m p1 s1 k1 p2 s2 k2 [[= -> -> -> ->]|H1]%elem_of_cons [[= -> -> ->]|H2]%elem_of_cons; try done;
      [by apply Hfresh in H2|by apply Hfresh in H1|by eapply ci_unique].
  - intros s' m. rewrite lookup_insert_Some. intros [[<- <-]|[_ Hs]]; [exists p, k; by left|].
    destruct (ci_waiter _ _ Hi s' m Hs) as (p' & k' & Hin). exists p', k'. by right.
  - intros m f Hin. by apply answers_cons, (ci_transit _ _ Hi).
  - intros m ca f. rewrite lookup_insert_Some. intros [[<- <-]|[_ Hca]] Hch; [done|]. by apply answers_cons, (ci_reply _ _ Hi m ca).
  - intros m k1 f1 k2 f2 H1%Hrecv H2%Hrecv. by eapply ci_served.
  - intros m k0 f H1%Hrecv. apply (ci_recv _ _ Hi) in H1. cbn in H1. lia.
  - intros m k0 f H1%Hrecv s'. rewrite lookup_insert_Some. intros [[<- <-]|[_ Hs]]; [|by eapply (ci_once _ _ Hi)].
    apply (ci_recv _ _ Hi) in H1. unfold n in H1. cbn in H1. lia.
Qed.

Lemma callsInv_recv t c d tr lv k f c' served : callsInv t (mkTraffic c d tr lv) -> popWaiter f c = (c', served) ->
  callsInv (ERecv k f served :: t) (mkTraffic c' d (match served with Some n => (n, f) :: tr | None => tr end) lv).
Proof.
  intros Hi Hd. unfold popWaiter in Hd. destruct (isPush f) eqn:Hp; [injection Hd as <- <-; by apply (callsInv_same t c d tr lv)|].
  destruct (cl_waiters c !! h_SerialNo (fr_Header f)) as [n|] eqn:Hw; [|injection Hd as <- <-; by apply (callsInv_same t c d tr lv)].
  injection Hd as <- <-. destruct (ci_waiter _ _ Hi _ _ Hw) as (p & k0 & Hin).
  assert (Hcall : forall m p s k', ECall m p s k' ∈ ERecv k f (Some n) :: t -> ECall m p s k' ∈ t) by (intros m p' s k' [?|]%elem_of_cons; done).
  assert (Hnew : forall k0 f0, ERecv k0 f0 (Some n) ∈ t -> False) by (intros k1 f0 Hin'; by apply (ci_once _ _ Hi n k1 f0 Hin' _ Hw)).
  constructor; cbn.
  - intros m cm Hm. right. by apply (ci_call _ _ Hi).
  - intros m p' s k' H1%Hcall. by apply (ci_next _ _ Hi) in H1.
  - intros m p1 s k1 p' s' k2 H1%Hcall H2%Hcall. by eapply ci_unique.
  - intros s m. rewrite lookup_delete_Some. intros [_ Hm]. destruct (ci_waiter _ _ Hi s m Hm) as (p' & k' & Hin'). exists p', k'. by right.
  - intros m g [[= -> ->]|Hm]%elem_of_cons; [|by apply answers_cons, (ci_transit _ _ Hi)].
    exists p, (h_SerialNo (fr_Header f)), k0, k. split; [by apply before_head|done].
  - intros m cm g Hm Hg. by apply answers_cons, (ci_reply _ _ Hi m cm).
  - intros m k1 f1 k2 f2 [[= -> -> ->]|H1]%elem_of_cons [[= -> ->]|H2]%elem_of_cons; try done;
      [by apply Hnew in H2|subst; by apply Hnew in H1|by eapply ci_served].
  - intros m k1 f1 [[= -> -> ->]|H1]%elem_of_cons; [|by apply (ci_recv _ _ Hi) in H1]. by apply (ci_next _ _ Hi) in Hin.
  - intros m k1 f1 [[= -> -> ->]|H1]%elem_of_cons s; rewrite lookup_delete_Some; intros [Hne Hm]; [|by eapply (ci_once _ _ Hi)].
    destruct (ci_waiter _ _ Hi s n Hm) as (p' & k' & Hin'). pose proof (ci_unique _ _ Hi _ _ _ _ _ _ _ Hin Hin'). congruence.
Qed.

Lemma callsInv_send t c d tr1 n f tr2 lv : callsInv t (mkTraffic c d (tr1 ++ (n, f) :: tr2) lv) ->
  callsInv (EOther :: t) (mkTraffic (sendFrame n f c) d (tr1 ++ tr2) lv).
Proof.
  intros Hi. assert (Hcall : forall m p s k, ECall m p s k ∈ EOther :: t -> ECall m p s k ∈ t) by (intros m p s k [?|]%elem_of_cons; done).
  assert (Hrecv : forall k g m, ERecv k g (Some m) ∈ EOther :: t -> ERecv k g (Some m) ∈ t) by (intros k g m [?|]%elem_of_cons; done).
  constructor; cbn.
  - intros m cm. rewrite lookup_alter_Some. intros [(<- & cm0 & Hm & ->)|[_ Hm]]; right; [|by apply (ci_call _ _ Hi)]. exact (ci_call _ _ Hi n cm0 Hm).
  - intros m p s k H1%Hcall. by apply (ci_next _ _ Hi) in H1.
  - intros m p s k1 p' s' k2 H1%Hcall H2%Hcall. by eapply ci_unique.
  - intros s m Hm. destruct (ci_waiter _ _ Hi s m Hm) as (p & k & Hin). exists p, k. by right.
  - intros m g Hin. apply answers_cons, (ci_transit _ _ Hi). cbn. set_solver.
  - intros m cm g. rewrite lookup_alter_Some. intros [(<- & cm0 & Hm & ->)|[_ Hm]] Hg; [|by apply answers_cons, (ci_reply _ _ Hi m cm)].
    cbn in Hg. destruct (ca_ch cm0) as [g0|] eqn:E; injection Hg as <-; apply answers_cons.
    + by apply (ci_reply _ _ Hi n cm0).
    + apply (ci_transit _ _ Hi). cbn. set_solver.
  - intros m k1 f1 k2 f2 H1%Hrecv H2%Hrecv. by eapply ci_served.
  - intros m k1 f1 H1%Hrecv. by apply (ci_recv _ _ Hi) in H1.
  - intros m k1 f1 H1%Hrecv s. by eapply (ci_once _ _ Hi).
Qed.

Lemma callsInv_serial c s c1 : nextSerial c = (s, c1) -> cl_nextCall c1 = cl_nextCall c /\ cl_calls c1 = cl_calls c /\ cl_waiters c1 = cl_waiters c.
Proof. unfold nextSerial. intros E. by injection E as <- <-. Qed.

Lemma registerCall_ok p s c c' n : registerCall p s c = (c', Ok n) ->
  cl_closed c = false /\ n = cl_nextCall c /\ c' = fst (registerCall p s c) /\ cl_serial c' = cl_serial c.
Proof. unfold registerCall. destruct (cl_closed c); [done|]. destruct (cl_conn c); [|done]. intros E. by injection E as <- <-. Qed.

Lemma registerCall_err p s c c' e : registerCall p s c = (c', Err e) -> c' = c.
Proof. unfold registerCall. destruct (cl_closed c); [congruence|]. destruct (cl_conn c); congruence. Qed.

Lemma writeFrame_calls k fr ok c c' r : writeFrame k fr ok c = (c', r) ->
  cl_nextCall c' = cl_nextCall c /\ cl_calls c' = cl_calls c /\ cl_waiters c' = cl_waiters c /\ cl_serial c' = cl_serial c.
Proof. unfold writeFrame. destruct ok; intros E; by injection E as <- <-. Qed.

Lemma step_callsInv t w e w' : callsInv t w -> step w e w' -> callsInv (e :: t) w'.
Proof.
  intros Hi Hs. destruct Hs as [c d tr lv s c1 E|c d1 s d2 tr lv|c d1 s d2 tr lv p c1 n k E Hk|c d1 s d2 tr lv p c1 err E|c d tr lv n ca body c1 r _ E
    |c d tr lv n ca body c1 err _ E|c d tr lv k f c1 served _ _ E|c d tr1 n f tr2 lv|c d tr lv n w ca r _ _|c d tr lv1 s lv2|c d tr lv _|c d tr lv k connID _
    |c d tr lv k _|c d tr lv k _|c d tr lv|c d tr lv x|c d tr lv x|c d tr lv]; try (by eapply callsInv_same).
  - destruct (callsInv_serial c s c1 E) as (H1 & H2 & H3). by eapply (callsInv_same t c).
  - destruct (registerCall_ok _ _ _ _ _ E) as (Hcl & -> & -> & _). by eapply callsInv_call.
  - apply registerCall_err in E as ->. by eapply (callsInv_same t c).
  - destruct (writeFrame_calls _ _ _ _ _ _ E) as (H1 & H2 & H3 & _). by eapply (callsInv_same t c).
  - assert (c1 = c) as -> by (cbn in E; congruence). by eapply callsInv_settle.
  - by apply callsInv_recv with c.
  - by apply callsInv_send.
  - by eapply callsInv_settle.
  - eapply callsInv_shrink; [done|exact Hi|..]; cbn; try done. intros s' n. rewrite lookup_delete_Some. tauto.
  - eapply callsInv_same; [done|exact Hi|..]; unfold install; by destruct (cl_closed c).
  - eapply callsInv_same; [done|exact Hi|..]; unfold detach; by destruct (decide _).
  - by eapply callsInv_shrink; [done|exact Hi|..].
Qed.

Lemma run_callsInv t w : run t w -> callsInv t w.
Proof.
  induction 1 as [|t w e w' _ IH Hs]; [|by eapply step_callsInv].
  constructor; cbn; intros *; rewrite ?lookup_empty, ?elem_of_nil; done.
Qed.

(** ** Serial numbers *)

(** While they have not wrapped, the serial numbers of the calls and those drawn for
    calls to come are distinct. *)
Record serialInv (t : list event) (w : Traffic) : Prop := {
  se_range : 0 <= cl_serial (w_client w) <= Z.of_nat (length t);
  se_drawn : forall s, s ∈ w_drawn w -> 1 <= s <= cl_serial (w_client w) /\ forall n p k, ECall n p s k ∉ t;
  se_nodup : base.NoDup (w_drawn w);
  se_call : forall n p s k, ECall n p s k ∈ t -> 1 <= s <= cl_serial (w_client w);
  se_unique : forall n p k n' p' k' s, ECall n p s k ∈ t -> ECall n' p' s k' ∈ t -> n = n'
}.

Lemma nextSerial_small c s c1 : nextSerial c = (s, c1) -> 0 <= cl_serial c < 2 ^ 32 - 1 -> s = cl_serial c + 1 /\ cl_serial c1 = s.
Proof.
  unfold nextSerial, wrapu32. intros E Hc. rewrite (Z.mod_small (cl_serial c + 1)) in E by lia.
  rewrite (proj2 (Z.eqb_neq _ _)) in E by lia. by injection E as <- <-.
Qed.

Definition isCall (e : event) : bool := match e with ECall _ _ _ _ => true | _ => false end.

(** A step that registers nothing and draws nothing. *)
Lemma serialInv_other t w e w' : isCall e = false -> serialInv t w -> cl_serial (w_client w') = cl_serial (w_client w) ->
  sublist (w_drawn w') (w_drawn w) -> serialInv (e :: t) w'.
Proof.
  intros He Hi Hs Hd. assert (Hin : forall n p s k, ECall n p s k ∈ e :: t -> ECall n p s k ∈ t) by (intros n p s k [<-|]%elem_of_cons; done).
  pose proof (se_range _ _ Hi) as Hr. constructor; rewrite ?Hs.
  - cbn [length]. lia.
  - intros s Hx. destruct (se_drawn _ _ Hi s) as [H1 H2]; [by eapply elem_of_sublist|]. split; [done|]. intros n p k H3%Hin. by apply H2 in H3.
  - eapply sublist_NoDup; [apply Hi|exact Hd].
  - intros n p s k H1%Hin. by apply (se_call _ _ Hi) in H1.
  - intros n p k n' p' k' s H1%Hin H2%Hin. by eapply se_unique.
Qed.

Lemma serialInv_draw t c d tr lv s c1 : serialInv t (mkTraffic c d tr lv) -> nextSerial c = (s, c1) -> Z.of_nat (length t) < 2 ^ 32 - 1 ->
  serialInv (EOther :: t) (mkTraffic c1 (s :: d) tr lv).
Proof.
  intros Hi E Hl. pose proof (se_range _ _ Hi) as Hr. cbn in Hr. destruct (nextSerial_small c s c1 E ltac:(lia)) as [-> Hs1].
  assert (Hin : forall n p s k, ECall n p s k ∈ EOther :: t -> ECall n p s k ∈ t) by (intros n p s k [?|]%elem_of_cons; done).
  constructor; cbn [w_client w_drawn]; rewrite ?Hs1.
  - cbn [length]. lia.
  - intros s [->|Hx]%elem_of_cons.
    + split; [lia|]. intros n p k H%Hin. apply (se_call _ _ Hi) in H. cbn in H. lia.
    + destruct (se_drawn _ _ Hi s Hx) as [H1 H2]. cbn in H1. split; [lia|]. intros n p k H%Hin. by apply H2 in H.
  - apply list.NoDup_cons. split; [|apply Hi]. intros Hx. destruct (se_drawn _ _ Hi _ Hx) as [H1 _]. cbn in H1. lia.
  - intros n p s k H%Hin. apply (se_call _ _ Hi) in H. cbn in H. lia.
  - intros n p k n' p' k' s H1%Hin H2%Hin. by eapply se_unique.
Qed.

Lemma serialInv_register t c d1 s d2 tr lv n p k c1 : serialInv t (mkTraffic c (d1 ++ s :: d2) tr lv) -> cl_serial c1 = cl_serial c ->
  serialInv (ECall n p s k :: t) (mkTraffic c1 (d1 ++ d2) tr lv).
Proof.
  intros Hi Hs. pose proof (se_range _ _ Hi) as Hr. cbn in Hr. pose proof (se_nodup _ _ Hi) as Hnd. cbn in Hnd.
  destruct (se_drawn _ _ Hi s) as [Hs1 Hs2]; [cbn; set_solver|]. cbn in Hs1.
  assert (Hnew : s ∉ d1 ++ d2).
  { rewrite <- Permutation_middle in Hnd. by apply list.NoDup_cons in Hnd as [? _]. }
  constructor; cbn [w_client w_drawn]; rewrite ?Hs.
  - cbn [length]. lia.
  - intros s' Hx. destruct (se_drawn _ _ Hi s') as [H1 H2]; [cbn; set_solver|]. split; [done|]. intros m p' k' [[= -> -> -> ->]|H]%elem_of_cons; [done|by apply H2 in H].
  - rewrite <- Permutation_middle in Hnd. by apply list.NoDup_cons in Hnd as [_ ?].
  - intros m p' s' k' [[= -> -> -> ->]|H]%elem_of_cons; [done|]. by apply (se_call _ _ Hi) in H.
  - intros m p1 k1 m' p2 k2 s' [[= -> -> -> ->]|H1]%elem_of_cons [[= -> -> ->]|H2]%elem_of_cons; try done;
      [by apply Hs2 in H2|subst; by apply Hs2 in H1|by eapply se_unique].
Qed.

Lemma popWaiter_serial f c c' r : popWaiter f c = (c', r) -> cl_serial c' = cl_serial c.
Proof. unfold popWaiter. destruct (isPush f); [congruence|]. destruct (cl_waiters c !! _); intros E; by injection E as <- _. Qed.

Lemma step_serialInv t w e w' : serialInv t w -> step w e w' -> Z.of_nat (length t) < 2 ^ 32 - 1 -> serialInv (e :: t) w'.
Proof.
  intros Hi Hs Hl. destruct Hs as [c d tr lv s c1 E|c d1 s d2 tr lv|c d1 s d2 tr lv p c1 n k E Hk|c d1 s d2 tr lv p c1 err E|c d tr lv n ca body c1 r _ E
    |c d tr lv n ca body c1 err _ E|c d tr lv k f c1 served _ _ E|c d tr1 n f tr2 lv|c d tr lv n w ca r _ _|c d tr lv1 s lv2|c d tr lv _|c d tr lv k connID _
    |c d tr lv k _|c d tr lv k _|c d tr lv|c d tr lv x|c d tr lv x|c d tr lv]; try by (eapply serialInv_other; [done|exact Hi|done|done]).
  - by eapply serialInv_draw.
  - eapply serialInv_other; [done|exact Hi|done|]. cbn. apply sublist_app; [done|by apply sublist_cons].
  - destruct (registerCall_ok _ _ _ _ _ E) as (_ & _ & _ & H). by eapply serialInv_register.
  - apply registerCall_err in E as ->. eapply serialInv_other; [done|exact Hi|done|]. cbn. apply sublist_app; [done|by apply sublist_cons].
  - destruct (writeFrame_calls _ _ _ _ _ _ E) as (_ & _ & _ & H). by eapply serialInv_other; [done|exact Hi|exact H|done].
  - destruct (writeFrame_calls _ _ _ _ _ _ E) as (_ & _ & _ & H). by eapply serialInv_other; [done|exact Hi|exact H|done].
  - eapply serialInv_other; [done|exact Hi|by eapply popWaiter_serial|done].
  - eapply serialInv_other; [done|exact Hi| |done]. cbn. unfold install. by destruct (cl_closed c).
  - eapply serialInv_other; [done|exact Hi| |done]. cbn. unfold detach. by destruct (decide _).
Qed.

Lemma run_serialInv t w : run t w -> Z.of_nat (length t) < 2 ^ 32 - 1 -> serialInv t w.
Proof.
  induction 1 as [|t w e w' _ IH Hs]; intros Hl.
  - constructor; cbn; try lia; [intros s; by rewrite elem_of_nil|apply base.NoDup_nil_2|..]; intros *; by rewrite elem_of_nil.
  - cbn [length] in Hl. eapply step_serialInv; [apply IH; lia|exact Hs|lia].
Qed.

(** ** Returned calls *)

Lemma returned_reply t w : run t w -> forall n body, EReturn n (Ok body) ∈ t -> exists p s k k' f,
  before t (ECall n p s k) (ERecv k' f (Some n)) /\ before t (ERecv k' f (Some n)) (EReturn n (Ok body)) /\
  fr_Body f = body /\ h_SerialNo (fr_Header f) = s /\ isPush f = false.
Proof.
  induction 1 as [|t w e w' Hr IH Hs]; intros n body Hin; [by apply not_elem_of_nil in Hin|].
  apply elem_of_cons in Hin as [<-|Hin].
  - pose proof (run_callsInv _ _ Hr) as Hi. inversion Hs as [| | | | | | | |c d tr lv n' wk ca r Hca E| | | | | | | | |]; subst. unfold selectCase in E.
    destruct wk; [destruct (ca_ch ca) as [f|] eqn:Hf|..]; cbn in *; repeat case_match; simplify_eq.
    destruct (ci_reply _ _ Hi n ca f Hca Hf) as (p & s & k & k' & Hb & Hse & Hp).
    exists p, s, k, k', f. splits; [by apply before_cons|apply before_head, (before_in _ _ _ Hb)|done..].
  - destruct (IH n body Hin) as (p & s & k & k' & f & H1 & H2 & H3). exists p, s, k, k', f.
    split; [by apply before_cons|]. split; [by apply before_cons|done].
Qed.

(** The gateway answers on a connection only what was asked on it. *)
Definition answersItsOwn (t : list event) : Prop :=
  forall k f served, ERecv k f served ∈ t -> isPush f = false -> exists n p, ECall n p (h_SerialNo (fr_Header f)) k ∈ t.


(** A run with two concurrent calls that draw in one order and register in the other;
    the first to register times out between the lookup of its reply and the send. *)
Definition demoReply (serial : Z) (b : byte) : Frame := frameOf ProtoKeepAlive serial [b].

Definition twoCalls : list event :=
  [EOther; EReturn 1 (Ok [x01]); EOther; EReturn 0 (Err ErrTimeout); EOther; ERecv 0 (demoReply 1 x01) (Some 1%nat); ERecv 0 (demoReply 2 x02) (Some 0%nat);
   ECall 1 ProtoKeepAlive 1 0; ECall 0 ProtoQotSub 2 0; EOther; EOther; EOther].

Lemma twoCalls_run : exists w, run twoCalls w.
Proof.
  unfold twoCalls. eexists.
  eapply run_step; [eapply run_step; [eapply run_step; [eapply run_step; [eapply run_step; [eapply run_step; [eapply run_step; [eapply run_step; [eapply run_step;
    [eapply run_step; [eapply run_step; [eapply run_step|]|]|]|]|]|]|]|]|]|]|].
  - constructor.
  - by apply step_install.
  - by eapply step_draw.
  - by eapply step_draw.
  - eapply (step_register _ [] _ [_]); reflexivity.
  - eapply (step_register _ [] _ []); reflexivity.
  - apply step_recv; [cbn; lia|cbn; set_solver|reflexivity].
  - apply step_recv; [cbn; lia|cbn; set_solver|reflexivity].
  - apply (step_send _ _ [] _ _ [_]).
  - eapply (step_select _ _ _ _ 0 WTimeout); reflexivity.
  - apply (step_leave _ _ _ [] _ []).
  - eapply (step_select _ _ _ _ 1 WReply); reflexivity.
  - apply (step_send _ _ [] _ _ []).
Qed.


(** ** Orders are not sent again *)

(** What a round trip leaves alone: the subscriptions and the submitted orders. *)
Definition sameData (c c' : Client) : Prop := cl_submittedCO c' = cl_submittedCO c /\ cl_subs c' = cl_subs c.

Lemma dispatchAll_data fs c : sameData c (dispatchAll fs c).
Proof.
  unfold dispatchAll. revert c. induction fs as [|f fs IH]; intros c; cbn [fold_left]; [done|].
  destruct (IH (fst (dispatch f c))) as [H1 H2]. unfold sameData. rewrite H1, H2. unfold dispatch, popWaiter.
  destruct (isPush f); [done|]. by destruct (cl_waiters c !! _).
Qed.

Lemma endCall_data n w c c' r : endCall n w c = Some (c', r) -> sameData c c'.
Proof.
  unfold endCall. destruct (cl_calls c !! n) as [ca|]; [|done]. cbn [mbind option_bind]. destruct (selectCase w ca c); [|done]. cbn.
  intros E. by injection E as <- _.
Qed.

Lemma roundTrip_data p body a c c' r : roundTrip p body a c = Some (c', r) -> sameData c c'.
Proof.
  unfold roundTrip, nextSerial. set (s := if _ =? 0 then _ else _). unfold roundTripSerial.
  unfold registerCall. cbn [withSerial cl_closed cl_conn]. destruct (cl_closed c); [intros E; by injection E as <- _|].
  destruct (cl_conn c) as [k|]; [|intros E; by injection E as <- _]. cbn [cl_calls cl_nextCall withSerial].
  rewrite lookup_insert_eq. cbn [mbind option_bind]. unfold writeFrame. destruct (an_writeOK a).
  - set (c2 := mkClient _ _ _ _ _ _ _ _ _ (_ ++ _) _ _). intros E. apply endCall_data in E as [H1 H2].
    destruct (dispatchAll_data (an_frames a) c2) as [H3 H4]. unfold sameData. rewrite H1, H2, H3, H4. done.
  - intros E. by injection E as <- _.
Qed.

Section Orders.
Context (marshalPlace : PlaceC2S -> list byte) (unmarshalPlace : list byte -> option PlaceResponse).
#[local] Abbreviation placeOne := (PlaceOrder marshalPlace unmarshalPlace).

(** A history of submissions, with whatever each of them met. *)
Fixpoint placeAll (hist : list (PlaceOrderRequest * Answer)) (c : Client) : option Client :=
  match hist with
  | [] => Some c
  | (req, a) :: hist => '(c, _) ← placeOne req a c; placeAll hist c
  end.

Lemma PlaceOrder_grows req a c c' r : placeOne req a c = Some (c', r) ->
  (forall x v, cl_submittedCO c !! x = Some v -> cl_submittedCO c' !! x = Some v) /\
  (forall v, r = Ok v -> PlaceOrderRequest_Validate req = Ok tt /\ cl_submittedCO c' !! pr_ClientOrderID req = Some v).
Proof.
  unfold PlaceOrder. destruct (PlaceOrderRequest_Validate req) as [[]|e] eqn:Hv; [|intros E; by injection E as <- <-].
  destruct (cl_submittedCO c !! pr_ClientOrderID req) as [v|] eqn:Hs.
  { intros E. injection E as <- <-. split; [done|]. intros v' [= <-]. done. }
  destruct (trdSideForDomain (pr_Side req)) as [side|e]; [|intros E; by injection E as <- <-].
  unfold packetID, nextSerial. set (s := if _ =? 0 then _ else _). set (cp := withSerial s c).
  destruct (roundTrip _ _ a cp) as [[c1 r1]|] eqn:Hr; [|done]. cbn [mbind option_bind]. apply roundTrip_data in Hr as [Hr _].
  assert (Hold : forall x v, cl_submittedCO c !! x = Some v -> cl_submittedCO c1 !! x = Some v) by (intros x v; by rewrite Hr).
  destruct r1 as [body|e]; [|intros E; by injection E as <- <-].
  destruct (unmarshalPlace body) as [rsp|]; [|intros E; by injection E as <- <-].
  destruct (checkRet (rp_RetType rsp)); intros E; injection E as <- <-; [|done]. cbn. split.
  - intros x v Hx. rewrite lookup_insert_ne by (intros <-; congruence). by apply Hold.
  - intros v [= <-]. by rewrite lookup_insert_eq.
Qed.

Lemma placeAll_grows hist : forall c c', placeAll hist c = Some c' ->
  forall x v, cl_submittedCO c !! x = Some v -> cl_submittedCO c' !! x = Some v.
Proof.
  induction hist as [|[req a] hist IH]; intros c c' E x v Hx; cbn in E; [by injection E as <-|].
  destruct (placeOne req a c) as [[c1 r]|] eqn:Hp; [|done]. cbn in E. eapply IH; [done|]. by eapply PlaceOrder_grows.
Qed.

(** An accepted order is not sent again: once a submission has returned a
    venue id, after any further submissions, successful or not, submitting the
    same order again returns the same id and changes nothing: no serial number
    is drawn and no frame is written. *)
Theorem accepted_order_not_resent req a v c c1 hist c2 a'
  (Hp : placeOne req a c = Some (c1, Ok v)) (Hh : placeAll hist c1 = Some c2) : placeOne req a' c2 = Some (c2, Ok v).
Proof.
  destruct (PlaceOrder_grows _ _ _ _ _ Hp) as [_ Hok]. destruct (Hok v eq_refl) as [Hv Hs].
  unfold PlaceOrder. rewrite Hv. by rewrite (placeAll_grows _ _ _ Hh _ _ Hs).
Qed.
End Orders.

(** ** The subscription quota *)

Section Quota.
Context (marshalSub : list string -> Z -> bool -> bool -> list byte) (unmarshalRet : list byte -> option (option Z)) (maxSubs : Z).

Inductive subOp : Type :=
| OpSubscribe (symbols : list string) (kl : Z) (a : Answer)
| OpUnsubscribe (symbols : list string) (kl : Z) (a : Answer).

Definition runOp (o : subOp) (c : Client) : option (Client * res unit) :=
  match o with
  | OpSubscribe symbols kl a => Subscribe marshalSub unmarshalRet maxSubs symbols kl a c
  | OpUnsubscribe symbols kl a => Unsubscribe marshalSub unmarshalRet symbols kl a c
  end.

Fixpoint runOps (os : list subOp) (c : Client) : option Client :=
  match os with
  | [] => Some c
  | o :: os => '(c, _) ← runOp o c; runOps os c
  end.

Lemma size_reserve (X : gset Subscription) (symbols : list string) (kl : Z) :
  (size (X ∪ list_to_set (map (fun s => (s, kl)) symbols)) <= size X + length (List.filter (fun s => negb (bool_decide ((s, kl) ∈ X))) symbols))%nat.
Proof.
  induction symbols as [|s symbols IH]; cbn [map List.filter list_to_set]; [rewrite union_empty_r_L; lia|].
  set (Y := list_to_set (map (fun s => (s, kl)) symbols)) in *.
  replace (X ∪ ({[(s, kl)]} ∪ Y)) with ((X ∪ Y) ∪ {[(s, kl)]}) by set_solver.
  case_bool_decide as Hin; cbn [negb length].
  - replace ((X ∪ Y) ∪ {[(s, kl)]}) with (X ∪ Y) by set_solver. exact IH.
  - rewrite size_union_alt. pose proof (subseteq_size ({[(s, kl)]} ∖ (X ∪ Y)) {[(s, kl)]} ltac:(set_solver)) as Hsz.
    rewrite size_singleton in Hsz. lia.
Qed.

Lemma sendSub_data symbols st sub reg a c c' r : sendSub marshalSub unmarshalRet symbols st sub reg a c = Some (c', r) -> sameData c c'.
Proof. 
  unfold sendSub. destruct (roundTrip _ _ a c) as [[c1 r1]|] eqn:E; [|done]. cbn. intros E1. injection E1 as <- _.
  by eapply roundTrip_data.
Qed.

Lemma releaseQuota_size symbols kl c : (size (cl_subs (releaseQuota symbols kl c)) <= size (cl_subs c))%nat.
Proof. unfold releaseQuota. cbn [withSubs cl_subs]. apply subseteq_size. set_solver. Qed.

Lemma runOp_quota o c c' r : Z.of_nat (size (cl_subs c)) <= maxSubs -> runOp o c = Some (c', r) -> Z.of_nat (size (cl_subs c')) <= maxSubs.
Proof.
  intros Hc. destruct o as [symbols kl a|symbols kl a]; cbn; [unfold Subscribe|unfold Unsubscribe].
  - destruct (SubTypeForKLType kl) as [st|e]; [|intros E; by injection E as <- _]. unfold reserveQuota.
    destruct (Z.ltb_spec maxSubs (Z.of_nat (size (cl_subs c)) + Z.of_nat (length (List.filter (fun s => negb (bool_decide ((s, kl) ∈ cl_subs c))) symbols)))) as [Hlt|Hge];
      [intros E; by injection E as <- _|].
    pose proof (size_reserve (cl_subs c) symbols kl) as Hs. set (c0 := withSubs _ c).
    assert (H0 : Z.of_nat (size (cl_subs c0)) <= maxSubs) by (unfold c0; cbn [withSubs cl_subs]; lia).
    destruct (sendSub _ _ _ _ _ _ a c0) as [[c1 r1]|] eqn:E; [|done]. apply sendSub_data in E as [_ E]. rewrite <- E in H0.
    cbn. destruct r1; intros E1; injection E1 as <- _; [done|]. pose proof (releaseQuota_size symbols kl c1). lia.
  - destruct (SubTypeForKLType kl) as [st|e]; [|intros E; by injection E as <- _].
    destruct (sendSub _ _ _ _ _ _ a c) as [[c1 r1]|] eqn:E; [|done]. apply sendSub_data in E as [_ E]. rewrite <- E in Hc.
    cbn. destruct r1; intros E1; injection E1 as <- _; [|done]. pose proof (releaseQuota_size symbols kl c1). lia.
Qed.

(** The client never holds more subscriptions than its quota, after any
    sequence of subscribe and unsubscribe requests, whatever the gateway
    answers to each of them. *)
Theorem subscriptions_within_quota os : forall c c' (Hc : Z.of_nat (size (cl_subs c)) <= maxSubs) (Hr : runOps os c = Some c'),
  Z.of_nat (size (cl_subs c')) <= maxSubs.
Proof.
  induction os as [|o os IH]; intros c c' Hc Hr; cbn in Hr; [by injection Hr as <-|].
  destruct (runOp o c) as [[c1 r]|] eqn:E; [|done]. cbn in Hr. eapply IH; [|done]. by eapply runOp_quota.
Qed.
End Quota.

(** ** Concrete sessions *)

(** The remark alone, and a reply that is the venue id; a return code per body. *)
Definition demoMarshal (p : PlaceC2S) : list byte := [byte.of_Z (pk_SerialNo (pc_PacketID p)); x2d] ++ map (fun a => byte.of_Z (Z.of_N (Ascii.N_of_ascii a))) (String.list_ascii_of_string (pc_Remark p)).
Definition demoUnmarshal (b : list byte) : option PlaceResponse := Some (mkPlaceResponse (Some 0) (Z.of_nat (length b)) "").
Definition demoRet (b : list byte) : option (option Z) := Some (match b with [] => Some 0 | _ => Some 1 end).
Definition online : Client := handshaken 0 77 (install NewClient).
Definition buyOne : PlaceOrderRequest := mkPlaceRequest 5 TrdEnvSimulate "O-1" "SPY" OrderSideBuy OrderTypeMarket TIFDay 10 0.
Definition replyTo (serial : Z) (body : list byte) : Answer := mkAnswer true [frameOf ProtoTrdPlaceOrder serial body] WReply.
Definition noReply : Answer := mkAnswer true [] WTimeout.

Lemma accepted_order_not_resent_witness : exists c1 c2,
  PlaceOrder demoMarshal demoUnmarshal buyOne (replyTo 2 [x01; x02]) online = Some (c1, Ok "2") /\
  placeAll demoMarshal demoUnmarshal [(buyOne, noReply)] c1 = Some c2 /\
  PlaceOrder demoMarshal demoUnmarshal buyOne noReply c2 = Some (c2, Ok "2").
Proof.
  destruct (PlaceOrder demoMarshal demoUnmarshal buyOne (replyTo 2 [x01; x02]) online) as [[c1 r]|] eqn:E; [|discriminate (eq_trans (eq_sym E) eq_refl)].
  assert (Hr : r = Ok "2") by (apply (f_equal (fmap snd)) in E; vm_compute in E; congruence). subst r.
  destruct (placeAll demoMarshal demoUnmarshal [(buyOne, noReply)] c1) as [c2|] eqn:E2.
  - exists c1, c2. split; [reflexivity|]. split; [exact E2|].
    exact (accepted_order_not_resent demoMarshal demoUnmarshal buyOne _ "2" online c1 _ c2 noReply E E2).
  - exfalso. apply (f_equal (fun o => match o with Some (c, _) => match placeAll demoMarshal demoUnmarshal [(buyOne, noReply)] c with Some _ => true | None => false end | None => true end)) in E.
    rewrite E2 in E. vm_compute in E. discriminate.
Defined.

Lemma subscriptions_within_quota_witness : exists c,
  runOps (fun _ _ _ _ => []) demoRet 2 [OpSubscribe ["SPY"; "QQQ"] 2 (replyTo 1 []); OpSubscribe ["IWM"] 2 (replyTo 2 [])] online = Some c /\
  Z.of_nat (size (cl_subs c)) <= 2.
Proof.
  destruct (runOps (fun _ _ _ _ => []) demoRet 2 [OpSubscribe ["SPY"; "QQQ"] 2 (replyTo 1 []); OpSubscribe ["IWM"] 2 (replyTo 2 [])] online) as [c|] eqn:E.
  - exists c. split; [reflexivity|]. refine (subscriptions_within_quota (fun _ _ _ _ => []) demoRet 2 _ online c _ E). vm_compute. discriminate.
  - exfalso. apply (f_equal (fun o => match o with Some _ => true | None => false end)) in E. vm_compute in E. discriminate.
Defined.

(** A submission whose reply is lost is sent again by the retry: two order
    frames with the same remark reach the gateway.  The serial number in each
    packet id is not the one of its frame. *)
Theorem lost_reply_submits_twice :
  ('(c, _) ← PlaceOrder demoMarshal demoUnmarshal buyOne noReply online;
   '(c, r) ← PlaceOrder demoMarshal demoUnmarshal buyOne (replyTo 4 [x01]) c;
   Some (map snd (cl_written c), r)) =
  Some ([EncodeFrame ProtoTrdPlaceOrder 2 [x01; x2d; x4f; x2d; x31]; EncodeFrame ProtoTrdPlaceOrder 4 [x03; x2d; x4f; x2d; x31]], Ok "1").
Proof. vm_compute. reflexivity. Qed.

(** A repeated subscription that fails drops the symbol that was subscribed. *)
Theorem failed_resubscribe_forgets :
  ('(c, _) ← Subscribe (fun _ _ _ _ => []) demoRet 100 ["SPY"] 2 (replyTo 1 []) online;
   '(c', _) ← Subscribe (fun _ _ _ _ => []) demoRet 100 ["SPY"] 2 noReply c;
   Some (elements (cl_subs c), elements (cl_subs c'))) = Some ([("SPY", 2)], []).
Proof. vm_compute. reflexivity. Qed.
