(* ===== verification/Commands.v ===== *)
(** * The control plane (src/internal/commands)

    The table [tms.commands] and its two sides: the enqueuer of the API and the
    command line, and the consumer of the live node, which claims the pending
    commands of its target, applies each through a [Controller] and records the
    outcome.  The controller is an interface: [LiveNode] implements it.  The
    statements of the consumer are transactions on the table, given what the
    database answers; a command's arguments are stored as the decoder finds them,
    so [Err] is a column that does not decode.  Text is valid UTF-8 without NUL,
    which JSON keeps.  The Redis notification, which only shortens the poll, the
    logger and the [updated_at] columns are left out. *)

From stdpp Require Import gmap strings list sorting pretty.
From S2P Require Import Prelude Lists Money LiveTrade.
Set Default Goal Selector "!".
#[local] Open Scope string_scope.
#[local] Open Scope Z_scope.
#[local] Open Scope list_scope.
#[local] Abbreviation length := List.length.

(** ** Text (package strings) *)

Definition TrimSpace (s : string) : string := string_of_list_ascii (trimSpace (list_ascii_of_string s)).

(** [strings.ToLower] up to comparison with ASCII words: the ASCII letters, and the
    two other letters whose lower case is ASCII (U+0130 and U+212A). *)
Fixpoint toLower (b : list ascii) : list ascii :=
  match b with
  | [] => []
  | "196"%char :: "176"%char :: b => "i"%char :: toLower b
  | "226"%char :: "132"%char :: "170"%char :: b => "k"%char :: toLower b
  | c :: b =>
      let n := nat_of_ascii c in
      (if ((65 <=? n) && (n <=? 90))%nat then ascii_of_nat (n + 32) else c) :: toLower b
  end.

Definition ToLower (s : string) : string := string_of_list_ascii (toLower (list_ascii_of_string s)).

Definition modeWord (mode : string) : string := ToLower (TrimSpace mode).

(** ** commands.go *)

Definition TargetLive : string := "live".

Abbreviation Name := string (only parsing).
Definition NameStart : Name := "start".
Definition NameStop : Name := "stop".
Definition NameSetMode : Name := "set_mode".
Definition NameHalt : Name := "halt".
Definition NameResume : Name := "resume".
Definition NameKill : Name := "kill".
Definition NameFlatten : Name := "flatten".
Definition NameEmergencyKill : Name := "emergency_kill".
Definition NameReconcile : Name := "reconcile".

Definition isOneOf (l : list string) (s : string) : bool := existsb (String.eqb s) l.

Definition Name_IsValid (n : Name) : bool :=
  isOneOf [NameStart; NameStop; NameSetMode; NameHalt; NameResume; NameKill; NameFlatten; NameEmergencyKill; NameReconcile] n.

Definition RequiresConfirmation (n : Name) (mode : string) : bool :=
  if isOneOf [NameFlatten; NameEmergencyKill] n then true
  else if String.eqb n NameSetMode then
    let m := modeWord mode in String.eqb m "paper" || String.eqb m "live"
  else false.

Record CommandArgs : Set := mkArgs {
  ca_Mode : string;
  ca_Reason : string;
  ca_ConfirmToken : string;
  ca_TraderID : string
}.

Record Command : Set := mkCommand {
  cmd_ID : Z;
  cmd_Source : string;
  cmd_Target : string;
  cmd_Name : Name;
  cmd_Args : CommandArgs;
  cmd_RequestedBy : string
}.

Definition zeroArgs : CommandArgs := mkArgs "" "" "" "".
Definition zeroCommand : Command := mkCommand 0 "" "" "" zeroArgs "".

Definition Command_Validate (c : Command) : res unit :=
  if negb (Name_IsValid (cmd_Name c)) then Err (ErrOther ("commands: unknown command " ++ cmd_Name c))
  else if String.eqb (cmd_Name c) NameSetMode then
    if isOneOf ["signal"; "paper"; "live"] (modeWord (ca_Mode (cmd_Args c))) then Ok tt
    else Err (ErrOther ("commands: set_mode requires mode in {signal,paper,live}, got " ++ ca_Mode (cmd_Args c)))
  else Ok tt.

(** ** The table [tms.commands] and the audit log *)

Inductive CmdStatus : Set := CmdPending | CmdAcknowledged | CmdCompleted | CmdRejected.

#[export] Instance CmdStatus_eq_dec : EqDecision CmdStatus.
Proof. solve_decision. Defined.

(** JSON values of results and audit details. *)
Inductive jval : Set :=
| JBool (b : bool)
| JInt (n : Z)
| JStr (s : string)
| JObj (fields : list (string * jval)).

Record CommandRow : Set := mkRow {
  cr_source : string;
  cr_target : string;
  cr_name : string;
  cr_args : res CommandArgs;
  cr_status : CmdStatus;
  cr_requested_by : string;
  cr_created_at : Z;
  cr_acknowledged_at : option Z;
  cr_completed_at : option Z;
  cr_result : option jval;
  cr_error : option string
}.

Record AuditRow : Set := mkAudit {
  au_actor : string;
  au_action : string;
  au_entity_id : string;
  au_details : list (string * jval)
}.

Abbreviation table := (gmap Z CommandRow) (only parsing).

Definition statusIs (s : CmdStatus) (r : CommandRow) : bool := bool_decide (cr_status r = s).

(** ** The control surface (controller.go: Controller)

    [N] is the state of the node and [E] what the world answers while a command
    runs: the clock, the broker and the database. *)
Class Controller (E N : Type) := {
  ctl_Mode : N -> string;
  ctl_SetMode : E -> string -> eff N unit;
  ctl_Halt : E -> string -> string -> eff N unit;
  ctl_Resume : E -> eff N unit;
  ctl_Stop : E -> string -> eff N unit;
  ctl_Kill : E -> string -> eff N unit;
  ctl_Flatten : E -> string -> eff N Z;
  ctl_EmergencyKill : E -> string -> eff N Z;
  ctl_Reconcile : E -> eff N bool
}.

(** ** consumer.go *)

(** [err.Error()], for the errors whose text the model keeps. *)
Definition errorText (e : error) : string := match e with ErrOther msg => msg | _ => "error" end.

Definition reasonOr (reason fallback : string) : string := if String.eqb reason "" then fallback else reason.

Section Consumer.
Context {E N : Type} `{Controller E N}.

Record Consumer : Type := mkConsumer {
  co_commands : gmap Z CommandRow;
  co_audit : list AuditRow;
  co_ctrl : N;
  co_actor : string;
  co_processed : Z
}.

(** What the world answers in one round of the drain: the state of the context,
    the clock, the rows other transactions hold, the error of the claim, which of
    the round's writes succeed, and the answers the controller sees. *)
Record Round : Type := mkRound {
  ro_done : option error;
  ro_now : Z;
  ro_locked : gset Z;
  ro_claim : option error;
  ro_write : nat -> bool;
  ro_env : E
}.

Definition set_commands (t : gmap Z CommandRow) (c : Consumer) : Consumer :=
  mkConsumer t (co_audit c) (co_ctrl c) (co_actor c) (co_processed c).
Definition add_audit (a : AuditRow) (c : Consumer) : Consumer :=
  mkConsumer (co_commands c) (co_audit c ++ [a]) (co_ctrl c) (co_actor c) (co_processed c).
Definition set_ctrl (n : N) (c : Consumer) : Consumer :=
  mkConsumer (co_commands c) (co_audit c) n (co_actor c) (co_processed c).
Definition count (c : Consumer) : Consumer :=
  mkConsumer (co_commands c) (co_audit c) (co_ctrl c) (co_actor c) (co_processed c + 1).

Definition NewConsumer (t : gmap Z CommandRow) (log : list AuditRow) (ctrl : N) (actor : string) : Consumer :=
  mkConsumer t log ctrl (if String.eqb actor "" then "tms-live" else actor) 0.

Definition auditDetails (cmd : Command) (outcome : string) (result : option jval) (reason : string) : list (string * jval) :=
  [("command", JStr (cmd_Name cmd)); ("source", JStr (cmd_Source cmd)); ("target", JStr (cmd_Target cmd));
   ("requested_by", JStr (cmd_RequestedBy cmd)); ("outcome", JStr outcome)] ++
  (if String.eqb (ca_Mode (cmd_Args cmd)) "" then [] else [("mode", JStr (ca_Mode (cmd_Args cmd)))]) ++
  (if String.eqb reason "" then [] else [("reason", JStr reason)]) ++
  match result with Some r => [("result", r)] | None => [] end.

Definition auditRow (actor : string) (cmd : Command) (outcome : string) (result : option jval) (reason : string) : AuditRow :=
  mkAudit actor ("live.command." ++ cmd_Name cmd) (pretty (cmd_ID cmd)) (auditDetails cmd outcome result reason).

(** [ok] is whether the insert succeeds; a failure is only logged. *)
Definition audit (ok : bool) (cmd : Command) (outcome : string) (result : option jval) (reason : string) (c : Consumer) : Consumer :=
  if ok : bool then add_audit (auditRow (co_actor c) cmd outcome result reason) c else c.

Definition completedRow (now : Z) (result : jval) (r : CommandRow) : CommandRow :=
  mkRow (cr_source r) (cr_target r) (cr_name r) (cr_args r) CmdCompleted (cr_requested_by r) (cr_created_at r)
    (cr_acknowledged_at r) (Some now) (Some result) (cr_error r).
Definition rejectedRow (now : Z) (reason : string) (r : CommandRow) : CommandRow :=
  mkRow (cr_source r) (cr_target r) (cr_name r) (cr_args r) CmdRejected (cr_requested_by r) (cr_created_at r)
    (cr_acknowledged_at r) (Some now) (cr_result r) (Some reason).
Definition acknowledgedRow (now : Z) (r : CommandRow) : CommandRow :=
  mkRow (cr_source r) (cr_target r) (cr_name r) (cr_args r) CmdAcknowledged (cr_requested_by r) (cr_created_at r)
    (Some now) (cr_completed_at r) (cr_result r) (cr_error r).

(** [k] numbers the round's writes. *)
Definition complete (ro : Round) (k : nat) (cmd : Command) (result : jval) (c : Consumer) : Consumer :=
  let c := if ro_write ro k then set_commands (alter (completedRow (ro_now ro) result) (cmd_ID cmd) (co_commands c)) c else c in
  audit (ro_write ro (S k)) cmd "completed" (Some result) "" c.

Definition reject (ro : Round) (k : nat) (cmd : Command) (reason : string) (c : Consumer) : Consumer :=
  let c := if ro_write ro k then set_commands (alter (rejectedRow (ro_now ro) reason) (cmd_ID cmd) (co_commands c)) c else c in
  audit (ro_write ro (S k)) cmd "rejected" None reason c.

(** The subquery of the claim: the pending commands of the live node that no other
    transaction holds, oldest first. *)
Definition pendingLive (locked : gset Z) (e : Z * CommandRow) : bool :=
  String.eqb (cr_target e.2) TargetLive && statusIs CmdPending e.2 && negb (bool_decide (e.1 ∈ locked)).

Definition queueLe (a b : Z * CommandRow) : Prop :=
  cr_created_at a.2 < cr_created_at b.2 \/ (cr_created_at a.2 = cr_created_at b.2 /\ a.1 <= b.1).

#[export] Instance queueLe_dec : RelDecision queueLe.
Proof. intros a b. unfold queueLe. apply _. Defined.

Definition pendingQueue (locked : gset Z) (t : gmap Z CommandRow) : list (Z * CommandRow) :=
  merge_sort queueLe (List.filter (pendingLive locked) (map_to_list t)).

Definition commandOf (id : Z) (r : CommandRow) (args : CommandArgs) : Command :=
  mkCommand id (cr_source r) (cr_target r) (cr_name r) args (cr_requested_by r).

(** A row whose arguments do not decode is rejected here, and the zero command is
    handed on as claimed. *)
Definition claim (ro : Round) : eff Consumer (option Command) :=
  fun c =>
    match ro_claim ro with
    | Some e => (c, Err e)
    | None =>
        match pendingQueue (ro_locked ro) (co_commands c) with
        | [] => (c, Ok None)
        | (id, r) :: _ =>
            let c := set_commands (<[id := acknowledgedRow (ro_now ro) r]> (co_commands c)) c in
            match cr_args r with
            | Err e => (reject ro 0 (commandOf id r zeroArgs) ("invalid args json: " ++ errorText e) c, Ok (Some zeroCommand))
            | Ok args => (c, Ok (Some (commandOf id r args)))
            end
        end
    end.

(** The calls of [apply] on the controller. *)
Definition dispatch (env : E) (cmd : Command) : eff N jval :=
  let n := cmd_Name cmd in
  let reason := ca_Reason (cmd_Args cmd) in
  if isOneOf [NameStart; NameResume] n then
    _ <-! ctl_Resume env ;; eff_ret (JObj [("emitting", JBool true)])
  else if String.eqb n NameStop then
    _ <-! ctl_Stop env reason ;; eff_ret (JObj [("stopped", JBool true)])
  else if String.eqb n NameHalt then
    _ <-! ctl_Halt env HaltManual (reasonOr reason "manual halt") ;; eff_ret (JObj [("halted", JBool true)])
  else if String.eqb n NameKill then
    _ <-! ctl_Kill env (reasonOr reason "kill switch") ;; eff_ret (JObj [("halted", JBool true); ("stopped", JBool true)])
  else if String.eqb n NameSetMode then
    _ <-! ctl_SetMode env (ca_Mode (cmd_Args cmd)) ;; eff_ret (JObj [("mode", JStr (ca_Mode (cmd_Args cmd)))])
  else if String.eqb n NameFlatten then
    k <-! ctl_Flatten env (reasonOr reason "flatten") ;; eff_ret (JObj [("flattened_orders", JInt k)])
  else if String.eqb n NameEmergencyKill then
    k <-! ctl_EmergencyKill env (reasonOr reason "emergency kill") ;;
    eff_ret (JObj [("halted", JBool true); ("flattened_orders", JInt k); ("stopped", JBool true)])
  else if String.eqb n NameReconcile then
    issues <-! ctl_Reconcile env ;; eff_ret (JObj [("has_issues", JBool issues)])
  else eff_fail (ErrOther ("unhandled command " ++ n)).

Definition apply (ro : Round) (cmd : Command) (c : Consumer) : Consumer :=
  match Command_Validate cmd with
  | Err e => reject ro 2 cmd (errorText e) c
  | Ok _ =>
      let '(n, r) := dispatch (ro_env ro) cmd (co_ctrl c) in
      let c := set_ctrl n c in
      match r with
      | Err e => reject ro 2 cmd (errorText e) c
      | Ok result => complete ro 2 cmd result c
      end
  end.

(** The drain, with one round of answers per turn; [fuel] bounds the turns. *)
Fixpoint drain (fuel : nat) (rounds : nat -> Round) (k : nat) : eff Consumer unit :=
  match fuel with
  | O => eff_fail (ErrOther "out of fuel")
  | S fuel =>
      fun c =>
        match ro_done (rounds k) with
        | Some e => (c, Err e)
        | None =>
            match claim (rounds k) c with
            | (c, Err e) => (c, Err e)
            | (c, Ok None) => (c, Ok tt)
            | (c, Ok (Some cmd)) => drain fuel rounds (S k) (count (apply (rounds k) cmd c))
            end
        end
  end.
End Consumer.

Arguments Consumer : clear implicits.
Arguments Round : clear implicits.

(** ** enqueue.go *)

Record EnqueueParams : Set := mkEnqueue {
  ep_Source : string;
  ep_Name : Name;
  ep_Args : CommandArgs;
  ep_RequestedBy : string
}.

Definition ErrConfirmationRequired : error := ErrOther "commands: confirmation token required for paper/live mode switch".

Definition tokenOK (confirmWant token : string) : bool :=
  let token := TrimSpace token in
  if negb (String.eqb confirmWant "") then String.eqb token confirmWant else negb (String.eqb token "").

Definition storedArgs (a : CommandArgs) : CommandArgs := mkArgs (ca_Mode a) (ca_Reason a) "" (ca_TraderID a).

(** The insert: the identity column gives [id], [created_at] is the transaction's
    clock, and the check on [source] refuses other origins. *)
Definition Enqueue (confirmWant : string) (id now : Z) (p : EnqueueParams) : eff (gmap Z CommandRow) Z :=
  if negb (Name_IsValid (ep_Name p)) then eff_fail (ErrOther ("commands: unknown command " ++ ep_Name p))
  else if String.eqb (TrimSpace (ep_RequestedBy p)) "" then eff_fail (ErrOther "commands: requested_by is required")
  else
    _ <-! eff_lift (Command_Validate (mkCommand 0 "" "" (ep_Name p) (ep_Args p) "")) ;;
    if RequiresConfirmation (ep_Name p) (ca_Mode (ep_Args p)) && negb (tokenOK confirmWant (ca_ConfirmToken (ep_Args p)))
    then eff_fail ErrConfirmationRequired
    else
      let source := if String.eqb (ep_Source p) "" then "api" else ep_Source p in
      if negb (isOneOf ["api"; "cli"; "ui"; "system"] source) then eff_fail (ErrOther "commands: enqueue")
      else
        _ <-! eff_modify (fun t => <[id := mkRow source TargetLive (ep_Name p) (Ok (storedArgs (ep_Args p))) CmdPending
                                           (ep_RequestedBy p) now None None None None]> t) ;;
        eff_ret id.

(** ** The queue of pending commands *)

#[export] Instance queueLe_trans : Transitive queueLe.
Proof. intros [i a] [j b] [k c]. unfold queueLe. cbn. lia. Qed.

#[export] Instance queueLe_total : Total queueLe.
Proof. intros [i a] [j b]. unfold queueLe. cbn. lia. Qed.

Lemma pendingQueue_in locked t id r :
  (id, r) ∈ pendingQueue locked t <-> t !! id = Some r /\ pendingLive locked (id, r) = true.
Proof.
  unfold pendingQueue. rewrite merge_sort_Permutation, list_elem_of_In, filter_In, <- list_elem_of_In, elem_of_map_to_list. done.
Qed.

Lemma pendingQueue_sorted locked t : StronglySorted queueLe (pendingQueue locked t).
Proof. apply Sorted_StronglySorted; [apply _|]. apply Sorted_merge_sort. apply _. Qed.

Lemma pendingQueue_ids locked t : base.NoDup (map fst (pendingQueue locked t)).
Proof. unfold pendingQueue. rewrite merge_sort_Permutation. apply NoDup_map_filter. apply NoDup_fst_map_to_list. Qed.

Lemma pendingQueue_NoDup locked t : base.NoDup (pendingQueue locked t).
Proof. eapply (NoDup_fmap_1 fst), pendingQueue_ids. Qed.

(** Once the head of the queue is no longer pending, the rest is the queue. *)
Lemma pendingQueue_next locked t id r l r' :
  pendingQueue locked t = (id, r) :: l -> statusIs CmdPending r' = false -> pendingQueue locked (<[id := r']> t) = l.
Proof.
  intros Hq Hp. pose proof (pendingQueue_ids locked t) as Hd. pose proof (pendingQueue_sorted locked t) as Hs.
  rewrite Hq in Hd, Hs. cbn [map fst] in Hd. apply list.NoDup_cons in Hd as [Hn Hd]. apply StronglySorted_inv in Hs as [Hs _].
  assert (Hin : forall x, x ∈ pendingQueue locked (<[id := r']> t) <-> x ∈ l).
  { intros [i s]. rewrite pendingQueue_in. destruct (decide (i = id)) as [->|Hne].
    - rewrite lookup_insert_eq. split; [|intros Hx; destruct Hn; apply list_elem_of_fmap; by exists (id, s)].
      intros [[= <-] Hl]. unfold pendingLive in Hl. cbn in Hl. rewrite Hp, andb_false_r in Hl. done.
    - rewrite lookup_insert_ne by congruence. rewrite <- pendingQueue_in, Hq, list.elem_of_cons.
      split; [intros [[=]|?]; done|by right]. }
  apply (StronglySorted_unique_strong queueLe); [|apply pendingQueue_sorted|done|].
  - intros [i1 r1] [i2 r2] H1 H2 L1 L2. apply Hin in H1. assert (i1 = i2) as -> by (unfold queueLe in *; cbn in *; lia).
    assert (G1 : (i2, r1) ∈ pendingQueue locked t) by (rewrite Hq; by right).
    assert (G2 : (i2, r2) ∈ pendingQueue locked t) by (rewrite Hq; by right).
    apply pendingQueue_in in G1 as [G1 _], G2 as [G2 _]. congruence.
  - apply NoDup_Permutation; [apply pendingQueue_NoDup|eapply (NoDup_fmap_1 fst), Hd|exact Hin].
Qed.

(** ** What a drain means: the queue, run in order *)

Section Reference.
Context {E N : Type} `{Controller E N}.

(** A command run on the node: the result, or why it was rejected. *)
Definition runCommand (env : E) (e : Z * CommandRow) (n : N) : N * (jval + string) :=
  match cr_args e.2 with
  | Err er => (n, inr ("invalid args json: " ++ errorText er)%string)
  | Ok args =>
      let cmd := commandOf e.1 e.2 args in
      match Command_Validate cmd with
      | Err er => (n, inr (errorText er))
      | Ok _ =>
          match dispatch env cmd n with
          | (n, Ok v) => (n, inl v)
          | (n, Err er) => (n, inr (errorText er))
          end
      end
  end.

Fixpoint runQueue (rounds : nat -> Round E) (k : nat) (q : list (Z * CommandRow)) (n : N) : N * list (jval + string) :=
  match q with
  | [] => (n, [])
  | e :: q =>
      let '(n, out) := runCommand (ro_env (rounds k)) e n in
      let '(n, outs) := runQueue rounds (S k) q n in
      (n, out :: outs)
  end.

Definition finishedRow (now : Z) (out : jval + string) (r : CommandRow) : CommandRow :=
  match out with
  | inl v => completedRow now v (acknowledgedRow now r)
  | inr reason => rejectedRow now reason (acknowledgedRow now r)
  end.

(** The audit rows of a command; arguments that do not decode leave a second one,
    of the zero command. *)
Definition auditsOf (actor : string) (e : Z * CommandRow) (out : jval + string) : list AuditRow :=
  match cr_args e.2 with
  | Err _ =>
      [auditRow actor (commandOf e.1 e.2 zeroArgs) "rejected" None (match out with inr m => m | inl _ => "" end);
       auditRow actor zeroCommand "rejected" None "commands: unknown command "]
  | Ok args =>
      [match out with
       | inl v => auditRow actor (commandOf e.1 e.2 args) "completed" (Some v) ""
       | inr m => auditRow actor (commandOf e.1 e.2 args) "rejected" None m
       end]
  end.

(** A round in which the context is live and the database answers every statement. *)
Definition quietRound (ro : Round E) : Prop :=
  ro_done ro = None /\ ro_claim ro = None /\ ro_locked ro = ∅ /\ forall w, ro_write ro w = true.

Lemma alter_insert_row (t : gmap Z CommandRow) id r f : alter f id (<[id := r]> t) = <[id := f r]> t.
Proof. apply alter_insert_eq. Qed.

(** One turn of the drain on the head of the queue. *)
Lemma turn_run ro (c : Consumer N) id r l :
  quietRound ro -> co_commands c !! 0 = None -> pendingQueue ∅ (co_commands c) = (id, r) :: l ->
  exists cmd c1, claim ro c = (c1, Ok (Some cmd)) /\
    count (apply ro cmd c1) =
      let '(n, out) := runCommand (ro_env ro) (id, r) (co_ctrl c) in
      mkConsumer (<[id := finishedRow (ro_now ro) out r]> (co_commands c))
        (co_audit c ++ auditsOf (co_actor c) (id, r) out) n (co_actor c) (co_processed c + 1).
Proof.
  intros (Hd & Hc & Hl & Hw) H0 Hq.
  assert (Hid : id <> 0).
  { intros ->. assert (Hin : (0, r) ∈ pendingQueue ∅ (co_commands c)) by (rewrite Hq; left).
    apply pendingQueue_in in Hin as [Hin _]. congruence. }
  unfold claim. rewrite Hc, Hl, Hq. unfold runCommand, auditsOf, finishedRow. cbn [fst snd].
  destruct (cr_args r) as [args|er].
  - eexists _, _. split; [done|]. unfold apply. destruct (Command_Validate _) as [[]|er].
    + cbn [co_ctrl set_commands]. destruct (dispatch (ro_env ro) (commandOf id r args) (co_ctrl c)) as [n [v|er]];
        unfold complete, reject, audit; rewrite !Hw; unfold set_commands, set_ctrl, add_audit, count; cbn;
        by rewrite alter_insert_row.
    + unfold reject, audit. rewrite !Hw. unfold set_commands, add_audit, count. cbn. by rewrite alter_insert_row.
  - eexists _, _. split; [done|]. unfold apply. change (Command_Validate zeroCommand) with (@Err unit (ErrOther "commands: unknown command ")).
    unfold reject, audit. rewrite !Hw. unfold set_commands, add_audit, count. cbn. rewrite alter_insert_row, <- app_assoc. cbn.
    f_equal. apply map_eq. intros i. destruct (decide (i = 0)) as [->|Hi].
    + rewrite lookup_alter_eq, lookup_insert_ne, H0 by done. done.
    + rewrite lookup_alter_ne by congruence. done.
Qed.

Lemma finishedRow_done now out r : statusIs CmdPending (finishedRow now out r) = false.
Proof. by destruct out. Qed.

Lemma drain_run rounds : (forall k, quietRound (rounds k)) -> forall q k (c : Consumer N),
  co_commands c !! 0 = None -> pendingQueue ∅ (co_commands c) = q ->
  let '(n, outs) := runQueue rounds k q (co_ctrl c) in
  exists c', drain (S (length q)) rounds k c = (c', Ok tt) /\ co_ctrl c' = n /\
    co_processed c' = co_processed c + Z.of_nat (length q) /\ length outs = length q /\
    (forall i id r out, q !! i = Some (id, r) -> outs !! i = Some out ->
       co_commands c' !! id = Some (finishedRow (ro_now (rounds (k + i)%nat)) out r)) /\
    (forall id, ~ In id (map fst q) -> co_commands c' !! id = co_commands c !! id) /\
    co_audit c' = co_audit c ++ List.concat (zip_with (auditsOf (co_actor c)) q outs).
Proof.
  intros Hr. induction q as [|[id r] q IH]; intros k c H0 Hq.
  - exists c. cbn [drain length]. destruct (Hr k) as (-> & Hc & Hl & _). unfold claim. rewrite Hc, Hl, Hq.
    cbn [zip_with List.concat length Z.of_nat]. rewrite app_nil_r, Z.add_0_r. by splits.
  - destruct (turn_run (rounds k) c id r q (Hr k) H0 Hq) as (cmd & c1 & Ec & Ea). cbn [runQueue].
    destruct (runCommand (ro_env (rounds k)) (id, r) (co_ctrl c)) as [n out] eqn:Er.
    remember (count (apply (rounds k) cmd c1)) as c2 eqn:Ec2.
    assert (Hq2 : pendingQueue ∅ (co_commands c2) = q).
    { rewrite Ea. cbn. eapply pendingQueue_next; [exact Hq|apply finishedRow_done]. }
    assert (Hid : id <> 0).
    { intros ->. assert (Hin : (0, r) ∈ pendingQueue ∅ (co_commands c)) by (rewrite Hq; left).
      apply pendingQueue_in in Hin as [Hin _]. congruence. }
    assert (H2 : co_commands c2 !! 0 = None) by (rewrite Ea; cbn; by rewrite lookup_insert_ne).
    assert (Hn2 : co_ctrl c2 = n) by (by rewrite Ea). specialize (IH (S k) c2 H2 Hq2). rewrite Hn2 in IH.
    destruct (runQueue rounds (S k) q n) as [n' outs]. destruct IH as (c' & Ed & Hn & Hp & Hlen & Hrow & Hother & Haudit).
    pose proof (pendingQueue_ids ∅ (co_commands c)) as Hnd. rewrite Hq in Hnd. cbn [map fst] in Hnd.
    apply list.NoDup_cons in Hnd as [Hnin _]. rewrite list_elem_of_In in Hnin.
    exists c'. splits; try done.
    + cbn [length]. destruct (Hr k) as (Hd & _). cbn [drain]. rewrite Hd, Ec, <- Ec2. exact Ed.
    + rewrite Hp, Ea. cbn [co_processed length]. lia.
    + cbn. lia.
    + intros [|i] i' r' out' Hi Ho; cbn in Hi, Ho; simplify_eq.
      * rewrite Hother by done. rewrite Ea. cbn. rewrite lookup_insert_eq, Nat.add_0_r. done.
      * rewrite (Hrow i i' r' out' Hi Ho), Nat.add_succ_r. done.
    + intros i Hi. cbn [map In fst] in Hi. rewrite Hother by tauto. rewrite Ea. cbn. rewrite lookup_insert_ne; [done|]. tauto.
    + rewrite Haudit, Ea. cbn [co_audit co_actor zip_with List.concat]. by rewrite app_assoc.
Qed.
End Reference.

(** ** The enqueuer *)

(** An accepted command: confirmed where it must be, and stored as one pending row
    that validates and holds no token. *)
Lemma Enqueue_ok want id now p t t' i :
  Enqueue want id now p t = (t', Ok i) ->
  i = id /\ (RequiresConfirmation (ep_Name p) (ca_Mode (ep_Args p)) = true -> tokenOK want (ca_ConfirmToken (ep_Args p)) = true) /\
  exists source, let r := mkRow source TargetLive (ep_Name p) (Ok (storedArgs (ep_Args p))) CmdPending (ep_RequestedBy p) now None None None None in
    t' = <[id := r]> t /\ Command_Validate (commandOf id r (storedArgs (ep_Args p))) = Ok tt.
Proof.
  unfold Enqueue. destruct (Name_IsValid (ep_Name p)) eqn:Hn; [|discriminate]. cbn [negb].
  destruct (String.eqb (TrimSpace (ep_RequestedBy p)) ""); [discriminate|].
  unfold eff_bind at 1, eff_lift. destruct (Command_Validate _) as [[]|e] eqn:Hv; [|discriminate].
  destruct (RequiresConfirmation _ _) eqn:Hc, (tokenOK _ _) eqn:Ht; cbn [andb negb]; try discriminate;
    destruct (isOneOf _ (if String.eqb (ep_Source p) "" then "api" else ep_Source p)); try discriminate; cbn;
    intros [= <- <-]; (split; [done|]; split; [done|]; eexists; split; [done|]);
    unfold Command_Validate in *; cbn in *; done.
Qed.

(** ** Draining the queue *)

(** C15: A drain applies the pending commands of the live node, all of them and each
    once, in the order they were created: it returns after one turn per command
    and a last look, the node ends in the state the commands leave it in when they
    run one after the other, every row of the queue is completed with its result
    or rejected with its reason, the other rows are untouched, and the audit log
    grows by the commands' entries in the same order. *)
Theorem drain_applies_in_order {E N} `{Controller E N} (rounds : nat -> Round E) (c : Consumer N)
    (Hquiet : forall k, quietRound (rounds k)) (Hzero : co_commands c !! 0 = None) :
  let q := pendingQueue ∅ (co_commands c) in
  let '(n, outs) := runQueue rounds 0 q (co_ctrl c) in
  exists c', drain (S (length q)) rounds 0 c = (c', Ok tt) /\ co_ctrl c' = n /\
    co_processed c' = co_processed c + Z.of_nat (length q) /\
    StronglySorted queueLe q /\ base.NoDup (map fst q) /\
    (forall id r, (id, r) ∈ q <-> co_commands c !! id = Some r /\ cr_target r = TargetLive /\ cr_status r = CmdPending) /\
    length outs = length q /\
    (forall i id r out, q !! i = Some (id, r) -> outs !! i = Some out ->
       co_commands c' !! id = Some (finishedRow (ro_now (rounds i)) out r)) /\
    (forall id, ~ In id (map fst q) -> co_commands c' !! id = co_commands c !! id) /\
    co_audit c' = co_audit c ++ List.concat (zip_with (auditsOf (co_actor c)) q outs).
Proof.
  intros q. pose proof (drain_run rounds Hquiet q 0 c Hzero eq_refl) as Hd.
  destruct (runQueue rounds 0 q (co_ctrl c)) as [n outs]. destruct Hd as (c' & Hd & Hn & Hp & Hl & Hr & Ho & Ha).
  exists c'. splits; try done; [apply pendingQueue_sorted|apply pendingQueue_ids|].
  intros id r. unfold q. rewrite pendingQueue_in. unfold pendingLive, statusIs. cbn [fst snd].
  rewrite !andb_true_iff, String.eqb_eq, bool_decide_eq_true. split; [tauto|]. intros (H1 & H2 & H3).
  by split_and!.
Qed.

(** *** A controller that records its calls *)

#[local] Instance recorder : Controller unit (list string) := {
  ctl_Mode _ := "signal";
  ctl_SetMode _ mode l := (l, if String.eqb mode "signal" then Ok tt else Err (ErrOther "refused"));
  ctl_Halt _ kind reason l := (l ++ ["halt " ++ kind ++ ": " ++ reason]%string, Ok tt);
  ctl_Resume _ l := (l ++ ["resume"], Ok tt);
  ctl_Stop _ reason l := (l ++ ["stop"], Ok tt);
  ctl_Kill _ reason l := (l ++ ["kill"], Ok tt);
  ctl_Flatten _ reason l := (l ++ ["flatten"], Ok 2);
  ctl_EmergencyKill _ reason l := (l ++ ["emergency"], Ok 2);
  ctl_Reconcile _ l := (l ++ ["reconcile"], Ok false)
}.

Definition demoRow (name mode : string) (args : res CommandArgs) (at_ : Z) : CommandRow :=
  mkRow "cli" TargetLive name (match args with Ok a => Ok (mkArgs mode (ca_Reason a) "" "") | Err e => Err e end)
    CmdPending "op" at_ None None None None.

(** A halt and a resume created in the order opposite to their ids, a mode the node
    refuses, arguments that do not decode, and a row of another target. *)
Definition demoTable : gmap Z CommandRow :=
  <[1 := demoRow NameResume "" (Ok zeroArgs) 20]> (<[2 := demoRow NameHalt "" (Ok zeroArgs) 10]>
  (<[3 := demoRow NameSetMode "PAPER" (Ok zeroArgs) 30]> (<[4 := demoRow NameKill "" (Err (ErrOther "bad")) 40]>
  (<[5 := mkRow "cli" "eod" NameKill (Ok zeroArgs) CmdPending "op" 1 None None None None]> ∅)))).

Definition demoRounds (k : nat) : Round unit := mkRound None (100 + Z.of_nat k) ∅ None (fun _ => true) tt.
Definition demoConsumer : Consumer (list string) := NewConsumer demoTable [] [] "tms-live:SIGNAL-001".

Lemma drain_applies_in_order_witness :
  map fst (pendingQueue ∅ demoTable) = [2; 1; 3; 4] /\
  (let '(n, outs) := runQueue demoRounds 0 (pendingQueue ∅ demoTable) [] in
   n = ["halt manual: manual halt"; "resume"] /\
   exists c', drain 5 demoRounds 0 demoConsumer = (c', Ok tt) /\ co_ctrl c' = n /\ length (co_audit c') = 5%nat).
Proof.
  split; [by vm_compute|].
  pose proof (drain_applies_in_order demoRounds demoConsumer (fun k => conj eq_refl (conj eq_refl (conj eq_refl (fun _ => eq_refl)))) eq_refl) as H.
  cbv zeta in H. change (co_ctrl demoConsumer) with (@nil string) in H. change (co_commands demoConsumer) with demoTable in H.
  destruct (runQueue demoRounds 0 (pendingQueue ∅ demoTable) []) as [n outs] eqn:E.
  destruct H as (c' & H1 & H2 & _ & _ & _ & _ & _ & _ & _ & H3).
  vm_compute in E. injection E as <- <-. split; [done|]. exists c'. split; [exact H1|]. split; [exact H2|].
  rewrite H3. by vm_compute.
Defined.
