(* ===== verification/LiveNode.v ===== *)
(** * The live node (src/internal/runner/live.go)

    The node's in-memory state, the tables [tms.sessions] and [tms.halts] it keeps
    beside it, the operations the command consumer drives (the [Controller] of
    [Commands]) and the supervisor of [Run] as a sequence of steps: consumed
    commands, work of the trading session, session restarts, shutdowns and
    crashes.  The halt latch is one object shared by the node and the gate of the
    running session: the gate works on the node's latch.  [world] holds what the
    clock, the broker and the database answer; a write the database refuses is
    logged and skipped, as in the code.  How a session is assembled from market
    data (the assembler, the feed and the warm-up) is the outcome of a step; the
    executor and the gated session are built by [LiveExec] and [LiveTrade].  The
    bar tape, the watch list and the logger are left out. *)

From stdpp Require Import gmap strings list sorting.
From S2P Require Import Prelude Lists Money Domain RiskGate Reconcile Accounting OrderFSM LiveExec LiveTrade Calendar Commands.
Set Default Goal Selector "!".
#[local] Open Scope string_scope.
#[local] Open Scope Z_scope.
#[local] Open Scope list_scope.
#[local] Abbreviation length := List.length.

(** ** The text of a reconciliation report (riskgate/reconciliation.go) *)

Definition isoFormat (ts : time) : list ascii :=
  let sec := t_ns ts / 1000000000 in
  let ns := t_ns ts mod 1000000000 in
  let day := sec mod 86400 in
  DateString (civil (sec / 86400 + unixDay)) ++ ["T"%char] ++ padZero 2 (day / 3600) ++ [":"%char] ++
  padZero 2 (day / 60 mod 60) ++ [":"%char] ++ padZero 2 (day mod 60) ++
  (if ns =? 0 then [] else ["."%char] ++ padZero 6 (ns / 1000)) ++ list_ascii_of_string "+00:00".

Definition itoa (n : Z) : string := string_of_list_ascii (formatInt n).
(** [%+d] *)
Definition signed (n : Z) : string := if n <? 0 then itoa n else ("+" ++ itoa n)%string.

Definition Summary (r : ReconciliationReport) : string :=
  if negb (HasIssues r) then ("Reconciliation OK (" ++ itoa (Z.of_nat (length (rr_Matched r))) ++ " symbols matched)")%string
  else
    let nonEmpty {A} (l : list A) (lines : list string) : list string := match l with [] => [] | _ => lines end in
    String.concat "
" (["Reconciliation report @ " ++ string_of_list_ascii (isoFormat (rr_TS r))]%string ++
      nonEmpty (rr_Mismatches r)
        (("  Mismatches (" ++ itoa (Z.of_nat (length (rr_Mismatches r))) ++ "):")%string ::
         map (fun m => ("    " ++ mm_Symbol m ++ ": strategies sum " ++ signed (mm_StrategyBooksSum m) ++ ", broker " ++
                        signed (mm_BrokerNet m) ++ ", diff " ++ signed (mm_Diff m))%string) (rr_Mismatches r)) ++
      nonEmpty (rr_OnlyInStrategies r)
        ["  Strategies claim positions, broker shows zero: " ++ String.concat ", " (rr_OnlyInStrategies r)]%string ++
      nonEmpty (rr_OnlyAtBroker r)
        ["  Broker shows positions, no strategy claims them: " ++ String.concat ", " (rr_OnlyAtBroker r)]%string).

(** ** Modes *)

Definition modeSignal : string := "signal".
Definition modePaper : string := "paper".
Definition modeLive : string := "live".

Definition execPolicyForMode (mode : string) : ExecutionPolicy := if String.eqb mode modeSignal then ExecSignal else ExecAuto.

(** The part of [LiveConfig] the control surface reads. *)
Record LiveConfig : Set := mkLiveConfig {
  lcf_TraderID : string;
  lcf_Mode : string;
  lcf_BoundAccount : BrokerAccount;
  lcf_UnlockPassword : string;
  lcf_LiveConfirmationPhrase : string;
  lcf_MoomooMaxSub : Z;
  lcf_BarSeconds : Z;
  lcf_ReconcileTolerance : Z
}.

Definition liveUnhealthyAfter : Z := 3.

Record SessionHealth : Set := mkSessionHealth {
  sh_Running : bool;
  sh_ConsecutiveFailures : Z;
  sh_Healthy : bool;
  sh_LastError : string
}.

(** ** The tables *)

Record SessionRow : Set := mkSessionRow {
  sr_trader_id : string;
  sr_exec_policy : string;
  sr_account_id : option string;
  sr_status : string;
  sr_started_at : time;
  sr_ended_at : option time
}.

Record HaltRow : Set := mkHaltRow {
  hr_session_id : option Z;
  hr_kind : string;
  hr_reason : string;
  hr_triggered_at : time;
  hr_cleared : option (time * string)
}.

(** [pg_nextID] is the identity sequence of [tms.sessions]; halts are kept in the
    order of their ids. *)
Record Tables : Set := mkTables {
  pg_sessions : gmap Z SessionRow;
  pg_nextID : Z;
  pg_halts : list HaltRow;
  pg_accounts : gmap string BrokerAccount
}.

(** ** The node *)

(** [nd_trade] is the active trade session with its reconciler, set and cleared
    together; [nd_restartCh] is the one-slot channel that wakes the supervisor. *)
Record Live : Type := mkLive {
  nd_cfg : LiveConfig;
  nd_halt : HaltState;
  nd_mode : string;
  nd_restartMode : string;
  nd_restartCh : bool;
  nd_sessionRunning : bool;
  nd_sessionFailures : Z;
  nd_sessionLastErr : string;
  nd_trade : option (GatedSubmitter * Reconciler);
  nd_sessionID : Z;
  nd_pg : Tables
}.

(** What the world answers while an operation runs. *)
Record world : Type := mkWorld {
  wd_now : time;
  wd_write : nat -> bool;
  wd_positions : res (list BrokerPosition);
  wd_save : option error
}.

Definition set_nhalt (h : HaltState) (n : Live) : Live :=
  mkLive (nd_cfg n) h (nd_mode n) (nd_restartMode n) (nd_restartCh n) (nd_sessionRunning n) (nd_sessionFailures n)
    (nd_sessionLastErr n) (nd_trade n) (nd_sessionID n) (nd_pg n).
Definition set_modes (mode restart : string) (n : Live) : Live :=
  mkLive (nd_cfg n) (nd_halt n) mode restart (nd_restartCh n) (nd_sessionRunning n) (nd_sessionFailures n)
    (nd_sessionLastErr n) (nd_trade n) (nd_sessionID n) (nd_pg n).
Definition set_restartCh (b : bool) (n : Live) : Live :=
  mkLive (nd_cfg n) (nd_halt n) (nd_mode n) (nd_restartMode n) b (nd_sessionRunning n) (nd_sessionFailures n)
    (nd_sessionLastErr n) (nd_trade n) (nd_sessionID n) (nd_pg n).
Definition set_health (running : bool) (failures : Z) (msg : string) (n : Live) : Live :=
  mkLive (nd_cfg n) (nd_halt n) (nd_mode n) (nd_restartMode n) (nd_restartCh n) running failures msg
    (nd_trade n) (nd_sessionID n) (nd_pg n).
Definition set_sessionID (id : Z) (n : Live) : Live :=
  mkLive (nd_cfg n) (nd_halt n) (nd_mode n) (nd_restartMode n) (nd_restartCh n) (nd_sessionRunning n) (nd_sessionFailures n)
    (nd_sessionLastErr n) (nd_trade n) id (nd_pg n).
Definition set_pg (t : Tables) (n : Live) : Live :=
  mkLive (nd_cfg n) (nd_halt n) (nd_mode n) (nd_restartMode n) (nd_restartCh n) (nd_sessionRunning n) (nd_sessionFailures n)
    (nd_sessionLastErr n) (nd_trade n) (nd_sessionID n) t.
Definition setTradeSession (t : option (GatedSubmitter * Reconciler)) (n : Live) : Live :=
  mkLive (nd_cfg n) (nd_halt n) (nd_mode n) (nd_restartMode n) (nd_restartCh n) (nd_sessionRunning n) (nd_sessionFailures n)
    (nd_sessionLastErr n) t (nd_sessionID n) (nd_pg n).

Definition set_halts (l : list HaltRow) (t : Tables) : Tables := mkTables (pg_sessions t) (pg_nextID t) l (pg_accounts t).
Definition set_sessions (m : gmap Z SessionRow) (t : Tables) : Tables := mkTables m (pg_nextID t) (pg_halts t) (pg_accounts t).

(** ** Construction and health *)

Definition NewLive (cfg : LiveConfig) (pg : Tables) : res Live :=
  if String.eqb (lcf_TraderID cfg) "" then Err (ErrOther "runner: live node requires a trader id")
  else
    let mode := if String.eqb (lcf_Mode cfg) "" then modeSignal else lcf_Mode cfg in
    _ <-? (if String.eqb mode modeSignal then Ok tt
           else if String.eqb mode modePaper then
             if acct_BrokerAccID (lcf_BoundAccount cfg) =? 0 then Err (ErrOther "runner: paper mode requires a bound paper account with a broker acc id")
             else Ok tt
           else if String.eqb mode modeLive then
             if acct_BrokerAccID (lcf_BoundAccount cfg) =? 0 then Err (ErrOther "runner: live mode requires a bound REAL account with a broker acc id")
             else if negb (String.eqb (lcf_LiveConfirmationPhrase cfg) LiveConfirmationPhrase) then
               Err (ErrOther "runner: live mode requires the exact confirmation phrase")
             else if negb (String.eqb (lcf_TraderID cfg) LiveTraderID) then Err (ErrOther "runner: live mode requires the real-money trader-id")
             else Ok tt
           else Err (ErrOther "runner: unknown live mode")) ;;
    let cfg := mkLiveConfig (lcf_TraderID cfg) (lcf_Mode cfg) (lcf_BoundAccount cfg) (lcf_UnlockPassword cfg)
                 (lcf_LiveConfirmationPhrase cfg) (lcf_MoomooMaxSub cfg)
                 (if lcf_BarSeconds cfg <=? 0 then 86400 else lcf_BarSeconds cfg) (lcf_ReconcileTolerance cfg) in
    Ok (mkLive cfg NewHaltState mode "" false false 0 "" None 0 pg).

Definition Live_SessionHealth (n : Live) : SessionHealth :=
  mkSessionHealth (nd_sessionRunning n) (nd_sessionFailures n) (nd_sessionFailures n <? liveUnhealthyAfter) (nd_sessionLastErr n).

Definition markSessionRunning (n : Live) : Live := set_health true 0 "" n.
Definition markSessionFailed (e : error) (n : Live) : Live := set_health false (nd_sessionFailures n + 1) (errorText e) n.

(** ** Halt rows *)

Definition sessionIDValue (n : Live) : option Z := if nd_sessionID n =? 0 then None else Some (nd_sessionID n).

(** [session_id = $1 AND cleared_at IS NULL]; a NULL is equal to nothing. *)
Definition activeFor (id : option Z) (r : HaltRow) : bool :=
  match id, hr_session_id r, hr_cleared r with
  | Some s, Some s', None => s =? s'
  | _, _, _ => false
  end.

Definition recordHalt (ok : bool) (now : time) (kind : HaltKind) (reason : string) (n : Live) : Live :=
  let reason := if String.eqb reason "" then kind else reason in
  let id := sessionIDValue n in
  if ok && negb (existsb (activeFor id) (pg_halts (nd_pg n))) then
    set_pg (set_halts (pg_halts (nd_pg n) ++ [mkHaltRow id kind reason now None]) (nd_pg n)) n
  else n.

Definition clearRow (now : time) (by_ : string) (r : HaltRow) : HaltRow :=
  mkHaltRow (hr_session_id r) (hr_kind r) (hr_reason r) (hr_triggered_at r) (Some (now, by_)).

Definition clearHalt (ok : bool) (now : time) (by_ : string) (n : Live) : Live :=
  if ok : bool then
    set_pg (set_halts (map (fun r => if activeFor (sessionIDValue n) r then clearRow now by_ r else r) (pg_halts (nd_pg n))) (nd_pg n)) n
  else n.

(** The newest active halt of the session; [ok] is whether the query is answered. *)
Definition newestFirst (a b : HaltRow) : Prop := t_ns (hr_triggered_at b) <= t_ns (hr_triggered_at a).

#[export] Instance newestFirst_dec : RelDecision newestFirst.
Proof. intros a b. unfold newestFirst. apply _. Defined.

Definition rehydrateHalt (ok : bool) (now : time) (n : Live) : Live :=
  match sessionIDValue n with
  | None => n
  | Some id =>
      if ok : bool then
        match merge_sort newestFirst (List.filter (activeFor (Some id)) (pg_halts (nd_pg n))) with
        | [] => n
        | r :: _ => set_nhalt (Halt now (hr_kind r) (hr_reason r) (nd_halt n)) n
        end
      else n
  end.

(** ** Session rows *)

Definition isRunning (trader : string) (r : SessionRow) : bool :=
  String.eqb (sr_trader_id r) trader && String.eqb (sr_status r) "RUNNING".

Definition runningRows (trader : string) (m : gmap Z SessionRow) : list (Z * SessionRow) :=
  List.filter (fun e => isRunning trader e.2) (map_to_list m).

Definition startedLast (a b : Z * SessionRow) : Prop := t_ns (sr_started_at b.2) <= t_ns (sr_started_at a.2).

#[export] Instance startedLast_dec : RelDecision startedLast.
Proof. intros a b. unfold startedLast. apply _. Defined.

(** The bound account for every mode. *)
Definition resolveAccount (mode : string) (n : Live) : BrokerAccount := lcf_BoundAccount (nd_cfg n).

(** An existing row keeps all but its label. *)
Definition upsertAccount (a : BrokerAccount) (m : gmap string BrokerAccount) : gmap string BrokerAccount :=
  match m !! acct_ID a with
  | Some old => <[acct_ID a := {| acct_ID := acct_ID old; acct_Venue := acct_Venue old; acct_Env := acct_Env old;
                                  acct_BrokerAccID := acct_BrokerAccID old; acct_Label := acct_Label a;
                                  acct_IsDefault := acct_IsDefault old; acct_Notes := acct_Notes old |}]> m
  | None => <[acct_ID a := {| acct_ID := acct_ID a; acct_Venue := acct_Venue a; acct_Env := acct_Env a;
                              acct_BrokerAccID := acct_BrokerAccID a; acct_Label := acct_Label a;
                              acct_IsDefault := false; acct_Notes := "" |}]> m
  end.

Definition ensureAccount (ok : bool) (acct : BrokerAccount) : eff Live (option string) :=
  if String.eqb (acct_ID acct) "" then eff_ret None
  else
    _ <-! eff_lift (BrokerAccount_Validate acct) ;;
    if ok : bool then
      _ <-! eff_modify (fun n => set_pg (mkTables (pg_sessions (nd_pg n)) (pg_nextID (nd_pg n)) (pg_halts (nd_pg n))
                                           (upsertAccount acct (pg_accounts (nd_pg n)))) n) ;;
      eff_ret (Some (acct_ID acct))
    else eff_fail (ErrOther "runner: upsert account").

Definition syncSessionAccount (w : world) (sessionID : Z) (acct : BrokerAccount) : eff Live unit :=
  if (sessionID =? 0) || String.eqb (acct_ID acct) "" then eff_ret tt
  else
    _ <-! ensureAccount (wd_write w 0) acct ;;
    if wd_write w 1 then
      eff_modify (fun n => set_pg (set_sessions (alter (fun r => mkSessionRow (sr_trader_id r) (sr_exec_policy r) (Some (acct_ID acct))
        (sr_status r) (sr_started_at r) (sr_ended_at r)) sessionID (pg_sessions (nd_pg n))) (nd_pg n)) n)
    else eff_fail (ErrOther "runner: syncing session account_id").

(** The insert takes the next identity and fails on the partial unique index (or in
    the database); then a running row of the trader is reused. *)
Definition insertSession (ok : bool) (now : time) (trader policy : string) (account : option string) : eff Live Z :=
  fun n =>
    let t := nd_pg n in
    let id := pg_nextID t in
    let t := mkTables (pg_sessions t) (id + 1) (pg_halts t) (pg_accounts t) in
    if ok && match runningRows trader (pg_sessions t) with [] => true | _ => false end then
      (set_pg (set_sessions (<[id := mkSessionRow trader policy account "RUNNING" now None]> (pg_sessions t)) t) n, Ok id)
    else (set_pg t n, Err (ErrOther "insert into tms.sessions")).

Definition openSession (w : world) : eff Live Z :=
  n <-! eff_get ;;
  let mode := nd_mode n in
  account <-! ensureAccount (wd_write w 0) (resolveAccount mode n) ;;
  fun n =>
    match insertSession (wd_write w 1) (wd_now w) (lcf_TraderID (nd_cfg n)) (execPolicyForMode mode) account n with
    | (n, Ok id) => (n, Ok id)
    | (n, Err e) =>
        match merge_sort startedLast (runningRows (lcf_TraderID (nd_cfg n)) (pg_sessions (nd_pg n))) with
        | (id, _) :: _ => if wd_write w 2 then (n, Ok id) else (n, Err (ErrOther "runner: opening session"))
        | [] => (n, Err (ErrOther "runner: opening session"))
        end
    end.

Definition closeRow (now : time) (status : string) (r : SessionRow) : SessionRow :=
  if String.eqb (sr_status r) "RUNNING"
  then mkSessionRow (sr_trader_id r) (sr_exec_policy r) (sr_account_id r) status (sr_started_at r) (Some now) else r.

Definition closeSession (ok : bool) (now : time) (id : Z) (status : string) (n : Live) : Live :=
  if ok : bool then set_pg (set_sessions (alter (closeRow now status) id (pg_sessions (nd_pg n))) (nd_pg n)) n else n.

(** ** The control surface *)

Section Node.
Context (venue : list PlaceOrderRequest -> PlaceOrderRequest -> list (OrderUpdate * time) * res string).

Definition Live_SetMode (mode : string) : eff Live unit :=
  fun n =>
    let acc := acct_BrokerAccID (lcf_BoundAccount (nd_cfg n)) in
    let check :=
      if String.eqb mode modeSignal then Ok tt
      else if String.eqb mode modePaper then
        if acc =? 0 then Err (ErrOther "cannot switch to paper: no broker account bound") else Ok tt
      else if String.eqb mode modeLive then
        if (acc =? 0) || negb (String.eqb (lcf_LiveConfirmationPhrase (nd_cfg n)) LiveConfirmationPhrase)
        then Err (ErrOther "cannot switch to live: bound real account + confirmation phrase not configured (refusing real money)")
        else if negb (String.eqb (lcf_TraderID (nd_cfg n)) LiveTraderID)
        then Err (ErrOther "cannot switch to live: trader-id")
        else Ok tt
      else Err (ErrOther ("unknown mode " ++ mode)) in
    match check with
    | Err e => (n, Err e)
    | Ok _ =>
        if String.eqb (nd_mode n) mode && String.eqb (nd_restartMode n) "" then (n, Ok tt)
        else (set_restartCh true (set_modes (nd_mode n) mode n), Ok tt)
    end.

(** A flatten on the executor of the active session. *)
Definition flattenSession (w : world) (reason : string) (g : GatedSubmitter) : GatedSubmitter * (list string * option error) :=
  let '(x, r) := Flatten venue (wd_positions w) FlattenConfirmationPhrase reason (wd_now w) (gs_exec g) in (set_gexec x g, r).

Definition Live_Flatten (w : world) (reason : string) : eff Live Z :=
  fun n =>
    match nd_trade n with
    | None => (n, Err (ErrOther "flatten: no active paper/live trading session (signal mode has no positions)"))
    | Some (g, rec) =>
        let '(g, (coids, err)) := flattenSession w reason g in
        let n := setTradeSession (Some (g, rec)) n in
        match err with
        | Some e => (n, Err e)
        | None => (n, Ok (Z.of_nat (length coids)))
        end
    end.

Definition haltAndRecord (w : world) (kind : HaltKind) (latched recorded : string) (n : Live) : Live :=
  recordHalt (wd_write w 0) (wd_now w) kind recorded (set_nhalt (Halt (wd_now w) kind latched (nd_halt n)) n).

Definition stopNode (n : Live) : Live := set_restartCh true (set_nhalt (Stop (nd_halt n)) n).

(** An error of the flatten is logged; the closing orders already sent count. *)
Definition Live_EmergencyKill (w : world) (reason : string) : eff Live Z :=
  fun n =>
    let reason := if String.eqb reason "" then "emergency kill" else reason in
    let n := haltAndRecord w HaltManual reason reason n in
    let '(n, k) :=
      match nd_trade n with
      | None => (n, 0)
      | Some (g, rec) =>
          let '(g, (coids, _)) := flattenSession w ("emergency-kill: " ++ reason) g in
          (setTradeSession (Some (g, rec)) n, Z.of_nat (length coids))
      end in
    (stopNode n, Ok k).

(** [reconcileAlerter]; [summary] is the report's text. *)
Definition OnReconciliationMismatch (w : world) (summary : string) (n : Live) : Live :=
  haltAndRecord w HaltReconciliation "reconciliation mismatch detected (no auto-correct)"
    ("reconciliation mismatch: " ++ summary) n.

(** A run of the reconciler of a session on its book, with the alert of the node. *)
Definition reconcileSession (w : world) (g : GatedSubmitter) (rec : Reconciler) (n : Live) : Live * Reconciler * res bool :=
  let '(rec, (report, err)) := Reconciler_Reconcile (wd_positions w) (BookPositions (gs_book g)) (wd_now w) (wd_save w) rec in
  match report, err with
  | _, Some e => (n, rec, Err e)
  | Some r, None => if HasIssues r then (OnReconciliationMismatch w (Summary r) n, rec, Ok true) else (n, rec, Ok false)
  | None, None => (n, rec, Ok false)
  end.

Definition Live_Reconcile (w : world) : eff Live bool :=
  fun n =>
    match nd_trade n with
    | None => (n, Err (ErrOther "reconcile: no active paper/live trading session (signal mode has no broker positions)"))
    | Some (g, rec) =>
        let '(n, rec, r) := reconcileSession w g rec n in (setTradeSession (Some (g, rec)) n, r)
    end.

Definition Live_Halt (w : world) (kind reason : string) : eff Live unit := eff_modify (haltAndRecord w kind reason reason).

Definition Live_Resume (w : world) : eff Live unit :=
  eff_modify (fun n => clearHalt (wd_write w 0) (wd_now w) "command" (set_nhalt (Resume (nd_halt n)) n)).

Definition Live_Stop (w : world) (reason : string) : eff Live unit := eff_modify stopNode.

Definition Live_Kill (w : world) (reason : string) : eff Live unit :=
  eff_modify (fun n => stopNode (haltAndRecord w HaltManual reason reason n)).

#[export] Instance liveController : Controller world Live := {
  ctl_Mode := nd_mode;
  ctl_SetMode w := Live_SetMode;
  ctl_Halt := Live_Halt;
  ctl_Resume := Live_Resume;
  ctl_Stop := Live_Stop;
  ctl_Kill := Live_Kill;
  ctl_Flatten := Live_Flatten;
  ctl_EmergencyKill := Live_EmergencyKill;
  ctl_Reconcile := Live_Reconcile
}.

(** ** One session (runSession, buildRunnable) *)

(** What a session is built from: the error of the assembly, the subscription or
    the warm-up, what the broker answers while the executor is activated and the
    state restored, the gate and the starting book, and the error of priming. *)
Record Build : Type := mkBuild {
  bu_assembly : option error;
  bu_world : world;
  bu_client : option ActivationClient;
  bu_gate : option Gate;
  bu_book : Account;
  bu_nav : Money;
  bu_resolve : string -> res (option string);
  bu_orders : res (list OrderUpdate);
  bu_clock : nat -> time;
  bu_prime : option error
}.

Definition execEnv (acct : BrokerAccount) : Z := if Account_IsReal acct then TrdEnvReal else TrdEnvSimulate.

(** The phrase and the password are handed over for a real account only. *)
Definition execConfig (mode : string) (b : Build) (n : Live) : ExecConfig Account :=
  let acct := resolveAccount mode n in
  mkExecConfig acct (bu_client b) (lcf_TraderID (nd_cfg n))
    (if Account_IsReal acct then lcf_LiveConfirmationPhrase (nd_cfg n) else "")
    (if Account_IsReal acct then lcf_UnlockPassword (nd_cfg n) else "") true (Some (bu_book b)).

(** [LivePersist.UpsertAccount] *)
Definition UpsertAccount (ok : bool) (acct : BrokerAccount) : eff Live unit :=
  _ <-! eff_lift (BrokerAccount_Validate acct) ;;
  if ok : bool then
    eff_modify (fun n => set_pg (mkTables (pg_sessions (nd_pg n)) (pg_nextID (nd_pg n)) (pg_halts (nd_pg n))
                                   (upsertAccount acct (pg_accounts (nd_pg n)))) n)
  else eff_fail (ErrOther "upsert account").

(** The activated executor, the gated session around the node's latch, and the
    reconciler. *)
Definition tradeStack (mode : string) (b : Build) (n : Live) : res (GatedSubmitter * Reconciler) :=
  let acct := resolveAccount mode n in
  exec <-? NewExecutor (execConfig mode b n) ;;
  g <-? NewTradeSession acct (Some exec) (bu_gate b) (Some (nd_halt n)) (Some []) (bu_nav b) ;;
  rec <-? NewReconciler true true (acct_BrokerAccID acct) (lcf_ReconcileTolerance (nd_cfg n)) (Some []) (Some []) ;;
  Ok (g, rec).

(** Recovery: the broker's orders and positions, then a reconciliation, skipped
    when the restore fails. *)
Definition recoverSession (b : Build) (g : GatedSubmitter) (rec : Reconciler) (n : Live) : Live :=
  let '(x, (restored, rerr)) := Session_RestoreFromBroker (bu_resolve b) (bu_orders b) (wd_positions (bu_world b)) (bu_clock b) (gs_exec g) in
  let g := set_gexec x g in
  match restored, rerr with
  | [], Some _ => setTradeSession (Some (g, rec)) n
  | _, _ => let '(n, rec, _) := reconcileSession (bu_world b) g rec n in setTradeSession (Some (g, rec)) n
  end.

Definition buildRunnable (mode : string) (b : Build) : eff Live unit :=
  fun n =>
    let acct := resolveAccount mode n in
    let w := bu_world b in
    if String.eqb (execPolicyForMode mode) ExecSignal then syncSessionAccount w (nd_sessionID n) acct n
    else
      match UpsertAccount (wd_write w 2) acct n with
      | (n, Err e) => (n, Err e)
      | (n, Ok _) =>
          match syncSessionAccount w (nd_sessionID n) acct n with
          | (n, Err e) => (n, Err e)
          | (n, Ok _) =>
              match tradeStack mode b n with
              | Err e => (n, Err e)
              | Ok (g, rec) => (recoverSession b g rec n, Ok tt)
              end
          end
      end.

Definition takeRestartMode (n : Live) : Live :=
  if negb (String.eqb (nd_restartMode n) "") then set_modes (nd_restartMode n) "" n else n.

Definition setRunningMode (mode : string) (n : Live) : Live := set_modes mode (nd_restartMode n) n.

(** [runSession] up to its run loop; a failed priming detaches the session. *)
Definition startSession (b : Build) (mode : string) : eff Live unit :=
  fun n =>
    match bu_assembly b with
    | Some e => (n, Err e)
    | None =>
        match buildRunnable mode b n with
        | (n, Err e) => (n, Err e)
        | (n, Ok _) =>
            match bu_prime b with
            | Some e => (setTradeSession None n, Err e)
            | None => (markSessionRunning (setRunningMode mode n), Ok tt)
            end
        end
    end.

(** ** The supervisor (Run) *)

(** Where [Run] stands: not running, before its session row is open, at the top of
    the supervisor loop, inside a session, or past the loop and waiting for the
    consumer to end. *)
Inductive Phase : Set := PDown | PStarting | PIdle | PRunning | PWaiting.

#[export] Instance Phase_eq_dec : EqDecision Phase.
Proof. solve_decision. Defined.

Record Machine : Type := mkMachine { m_phase : Phase; m_node : Live }.

Inductive nodeOp : Type :=
| OStart (cfg : LiveConfig)
| OOpen (w : world)
| OCommand (w : world) (row : Z * CommandRow)
| OLoop (w : world) (b : Build)
| OGate (o : gateOp)
| OReconcile (w : world)
| OSessionEnd (err : option error)
| OShutdown (w : world)
| OCrash.

(** The gate of the session works on the node's latch. *)
Definition onGate (o : gateOp) (n : Live) : Live :=
  match nd_trade n with
  | None => n
  | Some (g, rec) =>
      let g := runGateOp venue o (set_halt (Some (nd_halt n)) g) in
      setTradeSession (Some (g, rec)) (set_nhalt (default (nd_halt n) (gs_halt g)) n)
  end.

(** Halts, resumes and flattens reach the gate through the node. *)
Definition sessionWork (o : gateOp) : bool := match o with GHalt _ _ _ | GResume | GFlatten _ _ _ _ => false | _ => true end.

Definition noteFailure (e : error) (n : Live) : Live := if IsStopped (nd_halt n) then n else markSessionFailed e n.

(** One step; an operation that does not apply leaves the machine as it is. *)
Definition nodeStep (o : nodeOp) (m : Machine) : Machine :=
  let n := m_node m in
  match o, m_phase m with
  | OStart cfg, PDown =>
      match NewLive cfg (nd_pg n) with Ok n => mkMachine PStarting n | Err _ => m end
  | OOpen w, PStarting =>
      match openSession w n with
      | (n, Err _) => mkMachine PWaiting n
      | (n, Ok id) => mkMachine PIdle (rehydrateHalt (wd_write w 3) (wd_now w) (set_sessionID id n))
      end
  | OCommand w row, PDown => m
  | OCommand w row, ph => mkMachine ph (fst (runCommand w row n))
  | OLoop w b, PIdle =>
      if IsStopped (nd_halt n) then mkMachine PWaiting (closeSession (wd_write w 0) (wd_now w) (nd_sessionID n) "STOPPED" n)
      else
        let n := takeRestartMode n in
        match startSession b (nd_mode n) n with
        | (n, Ok _) => mkMachine PRunning n
        | (n, Err e) => mkMachine PIdle (noteFailure e n)
        end
  | OGate o, PRunning => if sessionWork o then mkMachine PRunning (onGate o n) else m
  | OReconcile w, PRunning => mkMachine PRunning (fst (Live_Reconcile w n))
  | OSessionEnd None, PRunning =>
      if nd_restartCh n then mkMachine PIdle (setTradeSession None (set_restartCh false n)) else m
  | OSessionEnd (Some e), PRunning => mkMachine PIdle (noteFailure e (setTradeSession None n))
  | OShutdown w, PIdle | OShutdown w, PRunning =>
      mkMachine PDown (closeSession (wd_write w 0) (wd_now w) (nd_sessionID n) "STOPPED" n)
  | OShutdown w, _ => mkMachine PDown n
  | OCrash, _ => mkMachine PDown n
  | _, _ => m
  end.

Definition runNode (ops : list nodeOp) (m : Machine) : Machine := fold_left (fun m o => nodeStep o m) ops m.
End Node.

(** ** What an operation leaves alone *)

(** The trader and status of a session row. *)
Definition sessKey (m : gmap Z SessionRow) (id : Z) : option (string * string) :=
  option_map (fun r => (sr_trader_id r, sr_status r)) (m !! id).

(** From [n] to [n']: the same process and session, no session opened or closed, halt
    rows only added, and a latch that is set stays set. *)
Record keeps (n n' : Live) : Prop := {
  kp_cfg : nd_cfg n' = nd_cfg n;
  kp_id : nd_sessionID n' = nd_sessionID n;
  kp_next : pg_nextID (nd_pg n') = pg_nextID (nd_pg n);
  kp_sessions : forall id, sessKey (pg_sessions (nd_pg n')) id = sessKey (pg_sessions (nd_pg n)) id;
  kp_halts : exists new, pg_halts (nd_pg n') = pg_halts (nd_pg n) ++ new;
  kp_halted : IsHalted (nd_halt n) = true -> IsHalted (nd_halt n') = true;
  kp_stopped : IsStopped (nd_halt n) = true -> IsStopped (nd_halt n') = true
}.

#[export] Instance keeps_refl : Reflexive keeps.
Proof. intros n. split; try done. exists []. by rewrite app_nil_r. Qed.

#[export] Instance keeps_trans : Transitive keeps.
Proof.
  intros a b c [A1 A2 A3 A4 [l1 A5] A6 A7] [B1 B2 B3 B4 [l2 B5] B6 B7]. split; try congruence; try tauto.
  exists (l1 ++ l2). by rewrite B5, A5, app_assoc.
Qed.

Create HintDb live.

Ltac keeps := split; try done; first [by exists []; rewrite app_nil_r | done].

Lemma keeps_latch (h : HaltState -> HaltState) n :
  (IsHalted (nd_halt n) = true -> IsHalted (h (nd_halt n)) = true) ->
  (IsStopped (nd_halt n) = true -> IsStopped (h (nd_halt n)) = true) -> keeps n (set_nhalt (h (nd_halt n)) n).
Proof. intros H1 H2. keeps. Qed.

Lemma keeps_Halt now kind reason n : keeps n (set_nhalt (Halt now kind reason (nd_halt n)) n).
Proof. apply (keeps_latch (Halt now kind reason)); unfold Halt, IsHalted, IsStopped; by destruct (hs_halted (nd_halt n)) eqn:E. Qed.

Lemma keeps_Stop n : keeps n (set_nhalt (Stop (nd_halt n)) n).
Proof. by apply (keeps_latch Stop). Qed.

Lemma keeps_modes a b n : keeps n (set_modes a b n).
Proof. keeps. Qed.
Lemma keeps_restartCh b n : keeps n (set_restartCh b n).
Proof. keeps. Qed.
Lemma keeps_health a b c n : keeps n (set_health a b c n).
Proof. keeps. Qed.
Lemma keeps_trade t n : keeps n (setTradeSession t n).
Proof. keeps. Qed.

Lemma keeps_accounts m n : keeps n (set_pg (mkTables (pg_sessions (nd_pg n)) (pg_nextID (nd_pg n)) (pg_halts (nd_pg n)) m) n).
Proof. keeps. Qed.

Lemma keeps_sessions m n :
  (forall id, sessKey m id = sessKey (pg_sessions (nd_pg n)) id) -> keeps n (set_pg (set_sessions m (nd_pg n)) n).
Proof. intros H. keeps. Qed.

Lemma keeps_record ok now kind reason n : keeps n (recordHalt ok now kind reason n).
Proof. unfold recordHalt. destruct (_ && _); [|done]. split; try done. by eexists. Qed.

#[export] Hint Resolve keeps_Halt keeps_Stop keeps_modes keeps_restartCh keeps_health keeps_trade keeps_accounts keeps_record : live.

Lemma keeps_haltAndRecord w kind a b n : keeps n (haltAndRecord w kind a b n).
Proof. unfold haltAndRecord. etransitivity; [apply keeps_Halt|apply keeps_record]. Qed.

Lemma keeps_stopNode n : keeps n (stopNode n).
Proof. unfold stopNode. etransitivity; [apply keeps_Stop|apply keeps_restartCh]. Qed.

Lemma keeps_ensureAccount ok acct n : keeps n (fst (ensureAccount ok acct n)).
Proof.
  unfold ensureAccount. destruct (String.eqb _ _); [done|]. unfold eff_bind, eff_lift.
  destruct (BrokerAccount_Validate acct); [|done]. destruct ok; [|done]. apply keeps_accounts.
Qed.

Lemma keeps_UpsertAccount ok acct n : keeps n (fst (UpsertAccount ok acct n)).
Proof.
  unfold UpsertAccount, eff_bind, eff_lift. destruct (BrokerAccount_Validate acct); [|done]. destruct ok; [|done]. apply keeps_accounts.
Qed.

Lemma sessKey_alter f i m id : (forall r, sr_trader_id (f r) = sr_trader_id r /\ sr_status (f r) = sr_status r) ->
  sessKey (alter f i m) id = sessKey m id.
Proof.
  intros Hf. unfold sessKey. destruct (decide (id = i)) as [->|]; [|by rewrite lookup_alter_ne by congruence].
  rewrite lookup_alter_eq. destruct (m !! i) as [r|]; [|done]. cbn. destruct (Hf r) as [-> ->]. done.
Qed.

Lemma keeps_syncSessionAccount w id acct n : keeps n (fst (syncSessionAccount w id acct n)).
Proof.
  unfold syncSessionAccount. destruct (_ || _); [done|]. unfold eff_bind.
  pose proof (keeps_ensureAccount (wd_write w 0) acct n) as H. destruct (ensureAccount _ _ n) as [n1 [a|e]]; [|done].
  destruct (wd_write w 1); [|done]. etransitivity; [exact H|]. cbn [fst eff_modify]. apply keeps_sessions.
  intros i. by apply sessKey_alter.
Qed.

#[export] Hint Resolve keeps_haltAndRecord keeps_stopNode keeps_ensureAccount keeps_UpsertAccount keeps_syncSessionAccount : live.

Section Steps.
Context (venue : list PlaceOrderRequest -> PlaceOrderRequest -> list (OrderUpdate * time) * res string).

Lemma keeps_SetMode mode n : keeps n (fst (Live_SetMode mode n)).
Proof.
  unfold Live_SetMode. destruct (if String.eqb mode modeSignal then _ else _) as [[]|]; [|done]. destruct (_ && _); [done|].
  cbn [fst]. etransitivity; [apply keeps_modes|apply keeps_restartCh].
Qed.

Lemma keeps_Flatten w reason n : keeps n (fst (Live_Flatten venue w reason n)).
Proof.
  unfold Live_Flatten. destruct (nd_trade n) as [[g rec]|]; [|done]. destruct (flattenSession venue w reason g) as [g' [coids [e|]]]; apply keeps_trade.
Qed.

Lemma keeps_EmergencyKill w reason n : keeps n (fst (Live_EmergencyKill venue w reason n)).
Proof.
  unfold Live_EmergencyKill. set (r := if String.eqb reason "" then _ else _).
  pose proof (keeps_haltAndRecord w HaltManual r r n) as H. set (n1 := haltAndRecord w HaltManual r r n) in *.
  destruct (nd_trade n1) as [[g rec]|]; cbn [fst]; [|etransitivity; [exact H|apply keeps_stopNode]].
  destruct (flattenSession venue w _ g) as [g' [coids e]]. cbn [fst].
  etransitivity; [exact H|]. etransitivity; [apply keeps_trade|apply keeps_stopNode].
Qed.

Lemma keeps_reconcileSession w g rec n : keeps n (fst (fst (reconcileSession w g rec n))).
Proof.
  unfold reconcileSession. destruct (Reconciler_Reconcile _ _ _ _ rec) as [rec' [[r|] [e|]]]; try done.
  destruct (HasIssues r); [|done]. apply keeps_haltAndRecord.
Qed.

Lemma keeps_Reconcile w n : keeps n (fst (Live_Reconcile w n)).
Proof.
  unfold Live_Reconcile. destruct (nd_trade n) as [[g rec]|]; [|done]. pose proof (keeps_reconcileSession w g rec n) as H.
  destruct (reconcileSession w g rec n) as [[n1 rec1] r]. cbn [fst] in *. etransitivity; [exact H|apply keeps_trade].
Qed.

Lemma eff_map_fst {S A B} (m : eff S A) (f : A -> B) s : fst (eff_bind m (fun a => eff_ret (f a)) s) = fst (m s).
Proof. unfold eff_bind, eff_ret. by destruct (m s) as [s' [a|e]]. Qed.

(** A command other than start and resume. *)
Definition isResumeName (name : string) : bool := isOneOf [NameStart; NameResume] name.

Lemma keeps_dispatch w cmd n : isResumeName (cmd_Name cmd) = false -> keeps n (fst (dispatch (H := liveController venue) w cmd n)).
Proof.
  intros Hr. unfold dispatch. unfold isResumeName in Hr. rewrite Hr.
  repeat match goal with |- context [if String.eqb (cmd_Name cmd) ?x then _ else _] => destruct (String.eqb (cmd_Name cmd) x) end;
    rewrite ?eff_map_fst; cbn [ctl_Stop ctl_Halt ctl_Kill ctl_SetMode ctl_Flatten ctl_EmergencyKill ctl_Reconcile liveController].
  - apply keeps_stopNode.
  - apply keeps_haltAndRecord.
  - cbn. etransitivity; [apply keeps_haltAndRecord|apply keeps_stopNode].
  - apply keeps_SetMode.
  - apply keeps_Flatten.
  - apply keeps_EmergencyKill.
  - apply keeps_Reconcile.
  - done.
Qed.
End Steps.

Section Machine.
Context (venue : list PlaceOrderRequest -> PlaceOrderRequest -> list (OrderUpdate * time) * res string).
#[local] Abbreviation step := (nodeStep venue).
#[local] Abbreviation run := (runNode venue).
#[local] Abbreviation command w row n := (fst (runCommand (H := liveController venue) w row n)).

Lemma keeps_command w row n : isResumeName (cr_name row.2) = false -> keeps n (command w row n).
Proof.
  intros Hr. unfold runCommand. destruct (cr_args row.2) as [args|e]; [|done]. destruct (Command_Validate _); [|done].
  pose proof (keeps_dispatch venue w (commandOf row.1 row.2 args) n Hr) as H. by destruct (dispatch w _ n) as [n' [v|e]].
Qed.

Lemma keeps_recoverSession b g rec n : keeps n (recoverSession b g rec n).
Proof.
  unfold recoverSession. destruct (Session_RestoreFromBroker _ _ _ _ _) as [x [restored rerr]].
  pose proof (keeps_reconcileSession (bu_world b) (set_gexec x g) rec n) as H.
  destruct (reconcileSession (bu_world b) (set_gexec x g) rec n) as [[n1 rec1] r]. cbn [fst] in H.
  destruct restored, rerr; (apply keeps_trade || (etransitivity; [exact H|apply keeps_trade])).
Qed.

Lemma keeps_buildRunnable mode b n : keeps n (fst (buildRunnable mode b n)).
Proof.
  unfold buildRunnable. destruct (String.eqb _ _); [apply keeps_syncSessionAccount|].
  pose proof (keeps_UpsertAccount (wd_write (bu_world b) 2) (resolveAccount mode n) n) as H1.
  destruct (UpsertAccount _ _ n) as [n1 [?|e]]; [|done]. cbn [fst] in H1.
  pose proof (keeps_syncSessionAccount (bu_world b) (nd_sessionID n1) (resolveAccount mode n) n1) as H2.
  destruct (syncSessionAccount _ _ _ n1) as [n2 [?|e]]; cbn [fst] in H2; [|by etransitivity].
  destruct (tradeStack mode b n2) as [[g rec]|e]; cbn [fst]; [|by etransitivity].
  etransitivity; [exact H1|]. etransitivity; [exact H2|]. apply keeps_recoverSession.
Qed.

Lemma keeps_startSession b mode n : keeps n (fst (startSession b mode n)).
Proof.
  unfold startSession. destruct (bu_assembly b); [done|]. pose proof (keeps_buildRunnable mode b n) as H.
  destruct (buildRunnable mode b n) as [n1 [?|e]]; [|done]. cbn [fst] in H. destruct (bu_prime b); cbn [fst].
  - etransitivity; [exact H|apply keeps_trade].
  - etransitivity; [exact H|]. etransitivity; [apply keeps_modes|apply keeps_health].
Qed.

Lemma keeps_noteFailure e n : keeps n (noteFailure e n).
Proof. unfold noteFailure. destruct (IsStopped _); [done|apply keeps_health]. Qed.

(** The gate latches, and touches the latch in no other way. *)
Lemma gate_latch o g h : gs_halt g = Some h -> sessionWork o = true ->
  exists h', gs_halt (runGateOp venue o g) = Some h' /\ hs_stopped h' = hs_stopped h /\ (hs_halted h = true -> h' = h).
Proof.
  intros Hg Hw. destruct o as [s y side oside qty reason ts|s y side qty reason ts|now u|bar|now|now kind reason| |ps conf reason now];
    try discriminate Hw; cbn [runGateOp].
  - exists h. split; [|done]. destruct (String.eqb side SideFlat || (qty <=? 0)) eqn:Hb.
    + unfold Gated_SubmitMarketSignal. rewrite Hb. unfold eff_bind, eff_modify. rewrite forward_run. cbn [fst].
      by destruct (snd _) as [[c [|]]|e].
    + destruct (gated_signal_cases venue s y side oside qty reason ts g Hb) as [[_ ->]|(_ & (_ & -> & _) & _)]; [|done].
      rewrite forward_run. cbn [fst]. by destruct (snd _) as [[c [|]]|e].
  - exists h. split; [|done]. unfold Gated_SubmitMarket, eff_bind, eff_modify. by rewrite onGateExec_run.
  - by exists h.
  - by exists h.
  - unfold EvaluateDailyLossHalt. rewrite Hg. unfold IsHalted. destruct (hs_halted h) eqn:Eh; [by exists h|].
    destruct (dailyLossThresholdBreached g); [|by exists h]. cbn [fst]. eexists. split; [done|].
    unfold HaltState_HaltDailyLoss, Halt. by rewrite Eh.
Qed.

Lemma keeps_onGate o n : sessionWork o = true -> keeps n (onGate venue o n).
Proof.
  intros Hw. unfold onGate. destruct (nd_trade n) as [[g rec]|]; [|done].
  destruct (gate_latch o (set_halt (Some (nd_halt n)) g) (nd_halt n) eq_refl Hw) as (h & E & Hs & Hh).
  etransitivity; [|apply keeps_trade]. rewrite E. cbn [default]. apply (keeps_latch (fun _ => h)); unfold IsHalted, IsStopped.
  - intros H. by rewrite Hh.
  - by rewrite Hs.
Qed.

Lemma keeps_takeRestartMode n : keeps n (takeRestartMode n).
Proof. unfold takeRestartMode. destruct (negb _); [apply keeps_modes|done]. Qed.

(** ** Sessions and restarts *)

Definition supervising (m : Machine) : Prop := m_phase m = PIdle \/ m_phase m = PRunning.

Definition RUNNING : string := "RUNNING".

(** The tables the database guarantees: fresh identities, and one running row per
    trader (the partial unique index). *)
Record tablesOk (t : Tables) : Prop := {
  tk_ids : forall id r, pg_sessions t !! id = Some r -> 0 < id < pg_nextID t;
  tk_next : 0 < pg_nextID t;
  tk_running : forall i j a b, pg_sessions t !! i = Some a -> pg_sessions t !! j = Some b ->
    isRunning (sr_trader_id a) a = true -> isRunning (sr_trader_id a) b = true -> i = j
}.

Lemma sessKey_running (m : gmap Z SessionRow) id trader :
  sessKey m id = Some (trader, RUNNING) <-> exists r, m !! id = Some r /\ isRunning trader r = true.
Proof.
  unfold sessKey, isRunning. destruct (m !! id) as [r|]; cbn.
  - split; [intros [= <- E]; exists r; by rewrite E, !String.eqb_refl|]. intros (r' & [= <-] & H).
    apply andb_true_iff in H as [H1%String.eqb_eq H2%String.eqb_eq]. by rewrite H1, H2.
  - split; [done|]. by intros (? & ? & _).
Qed.

(** The same in terms of keys. *)
Lemma tablesOk_keys t : tablesOk t <->
  (forall id k, sessKey (pg_sessions t) id = Some k -> 0 < id < pg_nextID t) /\ 0 < pg_nextID t /\
  (forall i j trader, sessKey (pg_sessions t) i = Some (trader, RUNNING) -> sessKey (pg_sessions t) j = Some (trader, RUNNING) -> i = j).
Proof.
  split.
  - intros [H1 H2 H3]. splits; [|done|].
    + intros id k. unfold sessKey. destruct (pg_sessions t !! id) as [r|] eqn:E; [|done]. intros _. by eapply H1.
    + intros i j trader (a & Ha & Ra)%sessKey_running (b & Hb & Rb)%sessKey_running.
      assert (sr_trader_id a = trader) as <- by (unfold isRunning in Ra; apply andb_true_iff in Ra as [Ra _]; by apply String.eqb_eq).
      by eapply H3.
  - intros (H1 & H2 & H3). split; [|done|].
    + intros id r E. eapply (H1 id). unfold sessKey. by rewrite E.
    + intros i j a b Ha Hb Ra Rb. apply (H3 i j (sr_trader_id a)); apply sessKey_running; by eexists.
Qed.

Lemma keeps_tables n n' : keeps n n' -> tablesOk (nd_pg n) -> tablesOk (nd_pg n').
Proof.
  intros [_ _ Hn Hs _ _ _]. rewrite !tablesOk_keys, Hn. intros (H1 & H2 & H3). splits; [|done|].
  - intros id k. rewrite Hs. apply H1.
  - intros i j trader. rewrite !Hs. apply H3.
Qed.

Lemma runningRows_in trader m id r : (id, r) ∈ runningRows trader m <-> m !! id = Some r /\ isRunning trader r = true.
Proof. unfold runningRows. rewrite list_elem_of_In, filter_In, <- list_elem_of_In, elem_of_map_to_list. done. Qed.

Definition withAccounts (m : gmap string BrokerAccount) (n : Live) : Live :=
  set_pg (mkTables (pg_sessions (nd_pg n)) (pg_nextID (nd_pg n)) (pg_halts (nd_pg n)) m) n.

Lemma withAccounts_id n : withAccounts (pg_accounts (nd_pg n)) n = n.
Proof. by destruct n as [? ? ? ? ? ? ? ? ? ? [? ? ? ?]]. Qed.

Lemma ensureAccount_run ok acct n : exists m, fst (ensureAccount ok acct n) = withAccounts m n.
Proof.
  unfold ensureAccount. destruct (String.eqb _ _); [exists (pg_accounts (nd_pg n)); by rewrite withAccounts_id|]. unfold eff_bind, eff_lift.
  destruct (BrokerAccount_Validate acct); [|exists (pg_accounts (nd_pg n)); by rewrite withAccounts_id].
  destruct ok; [by eexists|exists (pg_accounts (nd_pg n)); by rewrite withAccounts_id].
Qed.

(** What opening a session may change: the sequence and the rows from it on. *)
Record opened (n n' : Live) : Prop := {
  op_tables : tablesOk (nd_pg n');
  op_cfg : nd_cfg n' = nd_cfg n;
  op_halt : nd_halt n' = nd_halt n;
  op_mode : nd_mode n' = nd_mode n;
  op_restart : nd_restartMode n' = nd_restartMode n;
  op_trade : nd_trade n' = nd_trade n;
  op_sessionID : nd_sessionID n' = nd_sessionID n;
  op_halts : pg_halts (nd_pg n') = pg_halts (nd_pg n);
  op_next : pg_nextID (nd_pg n) <= pg_nextID (nd_pg n');
  op_old : forall s, s < pg_nextID (nd_pg n) -> sessKey (pg_sessions (nd_pg n')) s = sessKey (pg_sessions (nd_pg n)) s
}.

Lemma tablesOk_next t accounts : tablesOk t -> tablesOk (mkTables (pg_sessions t) (pg_nextID t + 1) (pg_halts t) accounts).
Proof. intros [H1 H2 H3]. split; cbn; [|lia|exact H3]. intros id r E. specialize (H1 id r E). lia. Qed.

Lemma insertSession_run ok now trader policy account n : tablesOk (nd_pg n) ->
  let '(n', r) := insertSession ok now trader policy account n in
  opened n n' /\
  match r with
  | Ok id => id = pg_nextID (nd_pg n) /\ sessKey (pg_sessions (nd_pg n')) id = Some (trader, RUNNING) /\ runningRows trader (pg_sessions (nd_pg n)) = []
  | Err _ => pg_sessions (nd_pg n') = pg_sessions (nd_pg n)
  end.
Proof.
  intros Ht. unfold insertSession. cbv zeta. cbn [pg_sessions]. destruct (ok && _) eqn:Eb.
  - apply andb_true_iff in Eb as [_ Eb]. destruct (runningRows trader (pg_sessions (nd_pg n))) as [|] eqn:Er; [|done].
    set (id := pg_nextID (nd_pg n)). set (row := mkSessionRow _ _ _ _ _ _).
    assert (Hk : forall s, sessKey (<[id := row]> (pg_sessions (nd_pg n))) s =
      if decide (s = id) then Some (trader, RUNNING) else sessKey (pg_sessions (nd_pg n)) s).
    { intros s. unfold sessKey. destruct (decide (s = id)) as [->|]; [by rewrite lookup_insert_eq|by rewrite lookup_insert_ne by congruence]. }
    split; [split; try done; cbn|split; [done|split; [|done]]].
    + apply tablesOk_keys in Ht as (H1 & H2 & H3). apply tablesOk_keys. cbn. splits; [|lia|].
      * intros s k. rewrite Hk. destruct (decide (s = id)) as [->|]; [unfold id; lia|]. intros Hs%H1. lia.
      * intros i j t. rewrite !Hk. assert (Hno : sessKey (pg_sessions (nd_pg n)) i = Some (trader, RUNNING) \/
          sessKey (pg_sessions (nd_pg n)) j = Some (trader, RUNNING) -> False).
        { intros [(r & Hr)%sessKey_running|(r & Hr)%sessKey_running]; apply runningRows_in in Hr; rewrite Er in Hr; by apply elem_of_nil in Hr. }
        destruct (decide (i = id)) as [->|], (decide (j = id)) as [->|]; [done| | |apply H3]; intros; simplify_eq; exfalso; apply Hno; auto.
    + unfold id. lia.
    + intros s Hs. rewrite Hk. rewrite decide_False; [done|]. unfold id. lia.
    + cbn. rewrite Hk. by rewrite decide_True.
  - split; [|done]. split; try done; cbn; [by apply (tablesOk_next (nd_pg n))|lia].
Qed.

(** After opening, a row of the trader runs; with one running before, it is that. *)
Lemma openSession_run w n : tablesOk (nd_pg n) ->
  let '(n', r) := openSession w n in
  opened n n' /\
  match r with
  | Ok id => 0 < id /\ sessKey (pg_sessions (nd_pg n')) id = Some (lcf_TraderID (nd_cfg n), RUNNING) /\
      (forall s, sessKey (pg_sessions (nd_pg n)) s = Some (lcf_TraderID (nd_cfg n), RUNNING) -> id = s)
  | Err _ => True
  end.
Proof.
  intros Ht. unfold openSession, eff_bind at 1, eff_get. unfold eff_bind.
  destruct (ensureAccount_run (wd_write w 0) (resolveAccount (nd_mode n) n) n) as [m Em].
  destruct (ensureAccount _ _ n) as [n1 r1]. cbn [fst] in Em. subst n1.
  assert (Ho : opened n (withAccounts m n)) by (split; try done; destruct Ht; by split).
  destruct r1 as [account|e]; [|done]. set (n1 := withAccounts m n) in *.
  pose proof (insertSession_run (wd_write w 1) (wd_now w) (lcf_TraderID (nd_cfg n1)) (execPolicyForMode (nd_mode n)) account n1 (op_tables _ _ Ho)) as Hi.
  destruct (insertSession _ _ _ _ _ n1) as [n2 [id|e]].
  - destruct Hi as [[] (-> & Hk & Hr)]. split; [by split|]. split; [apply tk_next; by destruct Ht|]. split; [done|].
    intros s (r & Hs)%sessKey_running. apply runningRows_in in Hs.
    assert (Hn : (s, r) ∈ runningRows (lcf_TraderID (nd_cfg n1)) (pg_sessions (nd_pg n1))) by exact Hs. rewrite Hr in Hn. by apply elem_of_nil in Hn.
  - destruct Hi as [Hop Hs]. assert (Hop' : opened n n2) by (destruct Hop; by split).
    destruct (merge_sort startedLast _) as [|[id row] l] eqn:Em; [done|]. destruct (wd_write w 2); [|done]. split; [done|].
    assert (Hin : (id, row) ∈ runningRows (lcf_TraderID (nd_cfg n2)) (pg_sessions (nd_pg n2)))
      by (rewrite <- (merge_sort_Permutation startedLast), Em; left).
    apply runningRows_in in Hin. rewrite (op_cfg _ _ Hop') in Hin. assert (Hk : sessKey (pg_sessions (nd_pg n2)) id = Some (lcf_TraderID (nd_cfg n), RUNNING))
      by (apply sessKey_running; by exists row).
    pose proof (op_tables _ _ Hop') as Ht2. apply tablesOk_keys in Ht2 as (G1 & _ & G3). split; [apply G1 in Hk; lia|]. split; [done|].
    intros s Hsk. apply (G3 id s _ Hk). rewrite Hs. exact Hsk.
Qed.

(** ** Credentials *)

Definition credsFor (cfg : LiveConfig) (mode : string) : Prop :=
  let acc := acct_BrokerAccID (lcf_BoundAccount cfg) in
  mode = modeSignal \/ (mode = modePaper /\ acc <> 0) \/
  (mode = modeLive /\ acc <> 0 /\ lcf_LiveConfirmationPhrase cfg = LiveConfirmationPhrase /\ lcf_TraderID cfg = LiveTraderID).

(** The executor of a session and the requests it sent belong to the bound account;
    a real account comes with the phrase and the trader id. *)
Definition boundTo (cfg : LiveConfig) (x : Executor Account) : Prop :=
  let acct := lcf_BoundAccount cfg in
  x_accID x = acct_BrokerAccID acct /\ acct_BrokerAccID acct <> 0 /\ x_env x = execEnv acct /\
  (x_env x = TrdEnvReal -> Account_IsReal acct = true /\ lcf_LiveConfirmationPhrase cfg = LiveConfirmationPhrase /\ lcf_TraderID cfg = LiveTraderID) /\
  Forall (fun r => pr_AccID r = acct_BrokerAccID acct /\ pr_TrdEnv r = execEnv acct) (x_sent x).

Lemma boundTo_extends cfg x x' : extends x x' -> boundTo cfg x -> boundTo cfg x'.
Proof.
  intros (E1 & E2 & E3 & l & E4 & E5) (H1 & H2 & H3 & H4 & H5). unfold boundTo. rewrite E1, E2, E4. splits; try done.
  apply List.Forall_app. split; [done|]. revert E5. apply List.Forall_impl. intros r (R1 & R2 & _). split; congruence.
Qed.

Record nodeInv (n : Live) : Prop := {
  inv_mode : credsFor (nd_cfg n) (nd_mode n);
  inv_restart : nd_restartMode n = "" \/ credsFor (nd_cfg n) (nd_restartMode n);
  inv_trade : forall g rec, nd_trade n = Some (g, rec) -> boundTo (nd_cfg n) (gs_exec g)
}.

Lemma NewLive_inv cfg pg n : NewLive cfg pg = Ok n -> nodeInv n /\ nd_pg n = pg /\ lcf_TraderID (nd_cfg n) = lcf_TraderID cfg /\ nd_sessionID n = 0.
Proof.
  unfold NewLive. destruct (String.eqb (lcf_TraderID cfg) ""); [done|]. set (mode := if String.eqb (lcf_Mode cfg) "" then _ else _).
  intros H. assert (Hc : credsFor cfg mode).
  { unfold credsFor. destruct (String.eqb_spec mode modeSignal) as [Em|_]; [by left|]. destruct (String.eqb_spec mode modePaper) as [Em|_].
    { destruct (Z.eqb_spec (acct_BrokerAccID (lcf_BoundAccount cfg)) 0); [done|]. right. by left. }
    destruct (String.eqb_spec mode modeLive) as [Em|_]; [|done].
    destruct (Z.eqb_spec (acct_BrokerAccID (lcf_BoundAccount cfg)) 0); [done|].
    destruct (String.eqb_spec (lcf_LiveConfirmationPhrase cfg) LiveConfirmationPhrase); [|done].
    destruct (String.eqb_spec (lcf_TraderID cfg) LiveTraderID); [|done]. right. by right. }
  apply res_bind_ok in H as ([] & _ & [= <-]). split; [|done]. split; [done|by left|done].
Qed.

Lemma SetMode_inv mode n : nodeInv n -> nodeInv (fst (Live_SetMode mode n)).
Proof.
  intros [H1 H2 H3]. unfold Live_SetMode. set (check := if String.eqb mode modeSignal then _ else _).
  assert (Hc : check = Ok tt -> credsFor (nd_cfg n) mode).
  { unfold check, credsFor. destruct (String.eqb_spec mode modeSignal) as [Em|_]; [by left|]. destruct (String.eqb_spec mode modePaper) as [Em|_].
    { destruct (Z.eqb_spec (acct_BrokerAccID (lcf_BoundAccount (nd_cfg n))) 0); [done|]. right. by left. }
    destruct (String.eqb_spec mode modeLive) as [Em|_]; [|done].
    destruct (Z.eqb_spec (acct_BrokerAccID (lcf_BoundAccount (nd_cfg n))) 0); [done|]. cbn [orb].
    destruct (String.eqb_spec (lcf_LiveConfirmationPhrase (nd_cfg n)) LiveConfirmationPhrase); [|done].
    destruct (String.eqb_spec (lcf_TraderID (nd_cfg n)) LiveTraderID); [|done]. right. by right. }
  destruct check as [[]|e]; [|by split]. destruct (_ && _); [by split|]. split; [done| |done]. right. by apply Hc.
Qed.

Lemma haltAndRecord_inv w kind a b n : nodeInv n -> nodeInv (haltAndRecord w kind a b n).
Proof. intros [H1 H2 H3]. unfold haltAndRecord, recordHalt. destruct (_ && _); by split. Qed.

Lemma trade_inv g rec n : nodeInv n -> boundTo (nd_cfg n) (gs_exec g) -> nodeInv (setTradeSession (Some (g, rec)) n).
Proof. intros [H1 H2 H3] Hb. split; try done. by intros g' rec' [= <- <-]. Qed.

Lemma detach_inv n : nodeInv n -> nodeInv (setTradeSession None n).
Proof. intros [H1 H2 H3]. by split. Qed.

Lemma flattenSession_bound cfg w reason g : boundTo cfg (gs_exec g) -> boundTo cfg (gs_exec (fst (flattenSession venue w reason g))).
Proof.
  intros Hb. unfold flattenSession. pose proof (Flatten_extends venue (wd_positions w) FlattenConfirmationPhrase reason (wd_now w) (gs_exec g)) as He.
  destruct (Flatten venue _ _ _ _ (gs_exec g)) as [x r]. cbn in *. by eapply boundTo_extends.
Qed.

Lemma reconcileSession_inv w g rec n : nodeInv n -> let n' := fst (fst (reconcileSession w g rec n)) in nodeInv n' /\ nd_cfg n' = nd_cfg n.
Proof.
  intros Hi. unfold reconcileSession. destruct (Reconciler_Reconcile _ _ _ _ rec) as [rec' [[r|] [e|]]]; try done.
  destruct (HasIssues r); [|done]. split; [by apply haltAndRecord_inv|apply keeps_haltAndRecord].
Qed.

Lemma command_inv w row n : nodeInv n -> nodeInv (command w row n).
Proof.
  intros Hi. pose proof Hi as [H1 H2 H3]. unfold runCommand. destruct (cr_args row.2) as [args|e]; [|done].
  destruct (Command_Validate _); [|done]. set (cmd := commandOf row.1 row.2 args).
  enough (H : nodeInv (fst (dispatch (H := liveController venue) w cmd n))) by (by destruct (dispatch w cmd n) as [n' [v|e]]).
  unfold dispatch. destruct (isOneOf _ _).
  { rewrite eff_map_fst. cbn. unfold clearHalt. destruct (wd_write w 0); by split. }
  repeat match goal with |- context [if String.eqb (cmd_Name cmd) ?x then _ else _] => destruct (String.eqb (cmd_Name cmd) x) end;
    rewrite ?eff_map_fst; cbn [ctl_Stop ctl_Halt ctl_Kill ctl_SetMode ctl_Flatten ctl_EmergencyKill ctl_Reconcile liveController].
  - by split.
  - by apply haltAndRecord_inv.
  - pose proof (haltAndRecord_inv w HaltManual (reasonOr (ca_Reason (cmd_Args cmd)) "kill switch") (reasonOr (ca_Reason (cmd_Args cmd)) "kill switch") n Hi) as [? ? ?].
    by split.
  - by apply SetMode_inv.
  - unfold Live_Flatten. destruct (nd_trade n) as [[g rec]|] eqn:Et; [|done].
    pose proof (flattenSession_bound (nd_cfg n) w (reasonOr (ca_Reason (cmd_Args cmd)) "flatten") g (H3 g rec eq_refl)) as Hb.
    destruct (flattenSession venue w _ g) as [g' [coids [e|]]]; by apply trade_inv.
  - unfold Live_EmergencyKill. set (r := if String.eqb (reasonOr _ _) "" then _ else _).
    pose proof (haltAndRecord_inv w HaltManual r r n Hi) as Hi'. set (n1 := haltAndRecord w HaltManual r r n) in *.
    destruct (nd_trade n1) as [[g rec]|] eqn:Et; [|destruct Hi'; by split].
    pose proof (flattenSession_bound (nd_cfg n1) w ("emergency-kill: " ++ r) g (inv_trade _ Hi' g rec Et)) as Hb.
    destruct (flattenSession venue w _ g) as [g' [coids e]]. cbn [fst] in *.
    pose proof (trade_inv g' rec n1 Hi' Hb) as [? ? ?]. by split.
  - unfold Live_Reconcile. destruct (nd_trade n) as [[g rec]|] eqn:Et; [|done].
    destruct (reconcileSession_inv w g rec n Hi) as [Hr Hc]. destruct (reconcileSession w g rec n) as [[n1 rec1] r]. cbn [fst] in *.
    apply trade_inv; [done|]. rewrite Hc. by eapply H3.
  - done.
Qed.

Definition sameDesk (n n' : Live) : Prop :=
  nd_cfg n' = nd_cfg n /\ nd_mode n' = nd_mode n /\ nd_restartMode n' = nd_restartMode n /\ nd_trade n' = nd_trade n.

Lemma sameDesk_inv n n' : sameDesk n n' -> nodeInv n -> nodeInv n'.
Proof. intros (E1 & E2 & E3 & E4) [H1 H2 H3]. split; rewrite E1; [by rewrite E2|by rewrite E3|by rewrite E4]. Qed.

Lemma UpsertAccount_desk ok acct n : sameDesk n (fst (UpsertAccount ok acct n)).
Proof. unfold UpsertAccount, eff_bind, eff_lift. destruct (BrokerAccount_Validate acct); [|done]. by destruct ok. Qed.

Lemma syncSessionAccount_desk w id acct n : sameDesk n (fst (syncSessionAccount w id acct n)).
Proof.
  unfold syncSessionAccount. destruct (_ || _); [done|]. unfold eff_bind.
  destruct (ensureAccount_run (wd_write w 0) acct n) as [m Em]. destruct (ensureAccount _ _ n) as [n1 [a|e]]; cbn [fst] in Em; subst n1; [|done].
  by destruct (wd_write w 1).
Qed.

Lemma tradeStack_bound mode b n g rec : tradeStack mode b n = Ok (g, rec) -> boundTo (nd_cfg n) (gs_exec g).
Proof.
  unfold tradeStack. intros H. apply res_bind_ok in H as (x & Hx & H). apply res_bind_ok in H as (g' & Hg & H).
  apply res_bind_ok in H as (rec' & _ & [= <- <-]).
  assert (Hex : gs_exec g' = x).
  { unfold NewTradeSession in Hg. repeat (apply res_bind_ok in Hg as (? & _ & Hg)). by injection Hg as <-. }
  rewrite Hex. destruct (NewExecutor_ok _ x Hx) as (Hs & Ha & H0 & _ & _ & _ & Henv). cbn [c_Account execConfig] in Ha, Henv.
  unfold resolveAccount in *. unfold boundTo, execEnv. rewrite Hs, Ha in *. unfold Account_IsReal, BrokerEnv_IsReal.
  destruct Henv as [[He Hp]|[He Hact]]; rewrite He.
  - rewrite Hp. splits; try done.
  - destruct Hact as (Hr & Hph & Htr & _). cbn [c_Account c_ConfirmationPhrase c_TraderID execConfig] in *. unfold resolveAccount, Account_IsReal, BrokerEnv_IsReal in *.
    rewrite Hr in *. cbn in Hph. by splits.
Qed.

Lemma restore_extends resolve orders positions now x : extends x (fst (Session_RestoreFromBroker resolve orders positions now x)).
Proof.
  unfold Session_RestoreFromBroker. pose proof (restore_link resolve orders positions x) as Hl.
  destruct (RestoreFromBroker resolve orders positions x) as [x1 [ps err]]. cbn [fst] in Hl. apply link_extends.
  assert (Hb : forall b, sameLink x (withBook x1 b)) by (intros b; etransitivity; [exact Hl|done]).
  destruct ps as [|p ps], err as [e|]; cbn [fst]; try done;
    destruct (seedPositions _ _ _ _) as [book [?|?]]; apply Hb.
Qed.

Lemma recoverSession_inv b g rec n : nodeInv n -> boundTo (nd_cfg n) (gs_exec g) -> nodeInv (recoverSession b g rec n).
Proof.
  intros Hi Hb. unfold recoverSession.
  pose proof (restore_extends (bu_resolve b) (bu_orders b) (wd_positions (bu_world b)) (bu_clock b) (gs_exec g)) as He.
  destruct (Session_RestoreFromBroker _ _ _ _ _) as [x [restored rerr]]. cbn [fst] in He. apply (boundTo_extends (nd_cfg n)) in He; [|done].
  destruct (reconcileSession_inv (bu_world b) (set_gexec x g) rec n Hi) as [Hr Hc].
  destruct (reconcileSession (bu_world b) (set_gexec x g) rec n) as [[n1 rec1] r]. cbn [fst] in *.
  destruct restored, rerr; apply trade_inv; try done; by rewrite Hc.
Qed.

Lemma buildRunnable_inv mode b n : nodeInv n -> nodeInv (fst (buildRunnable mode b n)).
Proof.
  intros Hi. unfold buildRunnable. destruct (String.eqb _ _); [eapply sameDesk_inv; [apply syncSessionAccount_desk|done]|].
  pose proof (UpsertAccount_desk (wd_write (bu_world b) 2) (resolveAccount mode n) n) as D1.
  destruct (UpsertAccount _ _ n) as [n1 [?|e]]; cbn [fst] in D1; [|by eapply sameDesk_inv].
  pose proof (syncSessionAccount_desk (bu_world b) (nd_sessionID n1) (resolveAccount mode n) n1) as D2.
  apply (sameDesk_inv _ _ D1) in Hi. destruct (syncSessionAccount _ _ _ n1) as [n2 [?|e]]; cbn [fst] in D2; apply (sameDesk_inv _ _ D2) in Hi; [|done].
  destruct (tradeStack mode b n2) as [[g rec]|e] eqn:Et; [|done]. cbn [fst]. apply recoverSession_inv; [done|by eapply tradeStack_bound].
Qed.

Lemma startSession_inv b n : nodeInv n -> nodeInv (fst (startSession b (nd_mode n) n)).
Proof.
  intros Hi. unfold startSession. destruct (bu_assembly b); [done|]. pose proof (buildRunnable_inv (nd_mode n) b n Hi) as Hb.
  pose proof (keeps_buildRunnable (nd_mode n) b n) as Hk. destruct (buildRunnable (nd_mode n) b n) as [n1 [?|e]]; [|done].
  cbn [fst] in *. destruct (bu_prime b); [by apply detach_inv|]. destruct Hb as [? ? ?]. split; try done.
  cbn. rewrite (kp_cfg _ _ Hk). apply (inv_mode _ Hi).
Qed.

Lemma takeRestartMode_inv n : nodeInv n -> nodeInv (takeRestartMode n).
Proof.
  intros [H1 H2 H3]. unfold takeRestartMode. destruct (String.eqb_spec (nd_restartMode n) ""); [by split|].
  split; [destruct H2; done|by left|done].
Qed.

Lemma noteFailure_inv e n : nodeInv n -> nodeInv (noteFailure e n).
Proof. intros [H1 H2 H3]. unfold noteFailure. destruct (IsStopped _); by split. Qed.

Lemma onGate_inv o n : sessionWork o = true -> nodeInv n -> nodeInv (onGate venue o n).
Proof.
  intros Hw [H1 H2 H3]. unfold onGate. destruct (nd_trade n) as [[g rec]|] eqn:Et; [|by split; rewrite ?Et].
  split; [done|done|]. intros g' rec' [= <- <-]. specialize (H3 g rec eq_refl). cbn [nd_cfg set_nhalt setTradeSession].
  eapply boundTo_extends; [|exact H3]. set (g0 := set_halt (Some (nd_halt n)) g). change (gs_exec g) with (gs_exec g0).
  destruct o as [s y side oside qty reason ts|s y side qty reason ts|now u|bar|now|now kind reason| |ps conf reason now];
    try discriminate Hw; cbn [runGateOp].
  - assert (Hf : forall g, extends (gs_exec g) (gs_exec (fst (forward venue s y side oside qty reason ts g)))).
    { intros h. rewrite forward_run. pose proof (SubmitMarketSignal_extends venue s y side oside qty reason ts (gs_exec h)) as He.
      cbn [fst]. by destruct (snd _) as [[c [|]]|e]. }
    destruct (String.eqb side SideFlat || (qty <=? 0)) eqn:Hb.
    + unfold Gated_SubmitMarketSignal. rewrite Hb. unfold eff_bind, eff_modify. exact (Hf (count_gate 0 0 1 g0)).
    + destruct (gated_signal_cases venue s y side oside qty reason ts g0 Hb) as [[_ ->]|(_ & (-> & _) & _)]; [apply Hf|done].
  - unfold Gated_SubmitMarket, eff_bind, eff_modify. rewrite onGateExec_run. apply (SubmitMarket_extends venue s y side qty reason ts (gs_exec g0)).
  - apply link_extends, onOrderUpdate_link.
  - apply link_extends. done.
  - unfold EvaluateDailyLossHalt. cbn [gs_halt set_halt g0]. destruct (IsHalted _); [done|]. by destruct (dailyLossThresholdBreached _).
Qed.

(** ** The invariant of a deployment *)

Lemma closeSession_key ok now id n s :
  sessKey (pg_sessions (nd_pg (closeSession ok now id "STOPPED" n))) s = sessKey (pg_sessions (nd_pg n)) s \/
  exists t, s = id /\ sessKey (pg_sessions (nd_pg n)) s = Some (t, RUNNING) /\
    sessKey (pg_sessions (nd_pg (closeSession ok now id "STOPPED" n))) s = Some (t, "STOPPED").
Proof.
  unfold closeSession. destruct ok; [|by left]. cbn. unfold sessKey.
  destruct (decide (s = id)) as [->|]; [|left; by rewrite lookup_alter_ne by congruence]. rewrite lookup_alter_eq.
  destruct (pg_sessions (nd_pg n) !! id) as [r|]; [|by left]. cbn. unfold closeRow.
  destruct (String.eqb_spec (sr_status r) "RUNNING") as [E|]; [|by left]. right. exists (sr_trader_id r). by rewrite E.
Qed.

Lemma closeSession_same ok now id n :
  let n' := closeSession ok now id "STOPPED" n in
  pg_nextID (nd_pg n') = pg_nextID (nd_pg n) /\ pg_halts (nd_pg n') = pg_halts (nd_pg n) /\ sameDesk n n' /\
  nd_sessionID n' = nd_sessionID n /\ nd_halt n' = nd_halt n.
Proof. unfold closeSession. by destruct ok. Qed.

Lemma closeSession_tables ok now id n : tablesOk (nd_pg n) -> tablesOk (nd_pg (closeSession ok now id "STOPPED" n)).
Proof.
  rewrite !tablesOk_keys. pose proof (closeSession_key ok now id n) as Hk. destruct (closeSession_same ok now id n) as (-> & _).
  intros (H1 & H2 & H3). splits; [|done|].
  - intros s k Hs. destruct (Hk s) as [E|(t & _ & E & _)]; [rewrite E in Hs; by eapply H1|by eapply H1].
  - assert (Hr : forall s t, sessKey (pg_sessions (nd_pg (closeSession ok now id "STOPPED" n))) s = Some (t, RUNNING) ->
      sessKey (pg_sessions (nd_pg n)) s = Some (t, RUNNING)).
    { intros s t Hs. destruct (Hk s) as [E|(t' & _ & _ & E)]; [by rewrite E in Hs|]. rewrite E in Hs. discriminate Hs. }
    intros i j t Hi%Hr Hj%Hr. by eapply H3.
Qed.

Record machineInv (m : Machine) : Prop := {
  mi_tables : tablesOk (nd_pg (m_node m));
  mi_node : m_phase m <> PDown -> nodeInv (m_node m);
  mi_session : supervising m ->
    sessKey (pg_sessions (nd_pg (m_node m))) (nd_sessionID (m_node m)) = Some (lcf_TraderID (nd_cfg (m_node m)), RUNNING);
  mi_start : m_phase m = PStarting -> nd_sessionID (m_node m) = 0
}.

Lemma inv_keeps ph n n' : machineInv (mkMachine ph n) -> keeps n n' -> (ph <> PDown -> nodeInv n') -> machineInv (mkMachine ph n').
Proof.
  intros [H1 H2 H3 H4] Hk Hi. split; cbn in *; [by eapply keeps_tables|done| |].
  - intros Hs. rewrite (kp_id _ _ Hk), (kp_cfg _ _ Hk), (kp_sessions _ _ Hk). by apply H3.
  - intros Hs. rewrite (kp_id _ _ Hk). by apply H4.
Qed.

Lemma inv_phase ph ph' n : machineInv (mkMachine ph n) -> ph <> PDown -> (ph' = PIdle \/ ph' = PRunning -> ph = PIdle \/ ph = PRunning) ->
  ph' <> PStarting -> machineInv (mkMachine ph' n).
Proof. intros [H1 H2 H3 H4] Hd Hs Hn. split; cbn in *; [done|by intros _; apply H2|intros H; by apply H3, Hs|done]. Qed.

(** Resuming changes the latch and the halt rows only. *)
Lemma resume_command w row n : isResumeName (cr_name row.2) = true ->
  nd_cfg (command w row n) = nd_cfg n /\ nd_sessionID (command w row n) = nd_sessionID n /\
  pg_sessions (nd_pg (command w row n)) = pg_sessions (nd_pg n) /\ pg_nextID (nd_pg (command w row n)) = pg_nextID (nd_pg n).
Proof.
  intros Hr. unfold runCommand. destruct (cr_args row.2) as [args|e]; [|done]. destruct (Command_Validate _); [|done].
  unfold dispatch. cbn [cmd_Name commandOf]. unfold isResumeName in Hr. rewrite Hr. cbn. unfold clearHalt. by destruct (wd_write w 0).
Qed.

Lemma command_machine w row ph n : machineInv (mkMachine ph n) -> ph <> PDown -> machineInv (mkMachine ph (command w row n)).
Proof.
  intros Hm Hd. destruct (isResumeName (cr_name row.2)) eqn:Hr; [|eapply inv_keeps; [done|by apply keeps_command|intros _; apply command_inv, Hm; done]].
  destruct (resume_command w row n Hr) as (E1 & E2 & E3 & E4). destruct Hm as [H1 H2 H3 H4].
  split; cbn in *; rewrite ?E1, ?E2, ?E3; try done; [|intros _; by apply command_inv, H2].
  destruct H1 as [K1 K2 K3]. split; by rewrite ?E3, ?E4.
Qed.

Lemma step_inv o m : machineInv m -> machineInv (step o m).
Proof.
  intros Hm. destruct m as [ph n]. pose proof Hm as [H1 H2 H3 H4]. cbn in H1, H2, H3, H4.
  assert (Hdown : forall n', tablesOk (nd_pg n') -> machineInv (mkMachine PDown n')).
  { intros n' Ht. split; cbn; try done. by intros [|]. }
  destruct o as [cfg|w|w row|w b|g|w|[e|]|w|], ph; unfold nodeStep; cbn [m_phase m_node]; try done; try (by apply Hdown);
    try (by apply command_machine).
  - destruct (NewLive cfg (nd_pg n)) as [n'|e] eqn:En; [|done]. destruct (NewLive_inv cfg _ _ En) as (Hi & Hp & Ht & Hid).
    split; cbn; [by rewrite Hp|done|by intros [|]|done].
  - pose proof (openSession_run w n H1) as Ho. destruct (openSession w n) as [n' [id|e]].
    + destruct Ho as (Hop & Hid & Hk & _). assert (Hi : nodeInv n') by (eapply sameDesk_inv; [by destruct Hop|by apply H2]).
      apply (inv_keeps PIdle (set_sessionID id n')).
      * split; cbn; [apply Hop|intros _; by destruct Hi|intros _; by rewrite (op_cfg _ _ Hop)|done].
      * unfold rehydrateHalt. destruct (sessionIDValue _); [|done]. destruct (wd_write w 3); [|done].
        destruct (merge_sort _ _); [done|apply keeps_Halt].
      * intros _. destruct Hi. unfold rehydrateHalt. destruct (sessionIDValue _); [|by split]. destruct (wd_write w 3); [|by split].
        destruct (merge_sort _ _); by split.
    + destruct Ho as (Hop & _). split; cbn; [apply Hop|intros _; eapply sameDesk_inv; [by destruct Hop|by apply H2]|by intros [|]|done].
  - destruct (IsStopped (nd_halt n)).
    + destruct (closeSession_same (wd_write w 0) (wd_now w) (nd_sessionID n) n) as (_ & _ & Hd & _).
      split; cbn; [by apply closeSession_tables|intros _; eapply sameDesk_inv; [done|by apply H2]|by intros [|]|done].
    + pose proof (takeRestartMode_inv n (H2 ltac:(done))) as Hi. pose proof (keeps_takeRestartMode n) as Hk.
      set (n1 := takeRestartMode n) in *. pose proof (startSession_inv b n1 Hi) as Hs. pose proof (keeps_startSession b (nd_mode n1) n1) as Hk2.
      destruct (startSession b (nd_mode n1) n1) as [n2 [?|e]]; cbn [fst] in *.
      * eapply (inv_phase PIdle); [|done|auto|done]. eapply inv_keeps; [done|by etransitivity|done].
      * eapply inv_keeps; [done| |intros _; by apply noteFailure_inv]. etransitivity; [exact Hk|]. etransitivity; [exact Hk2|apply keeps_noteFailure].
  - destruct (sessionWork g) eqn:Ew; [|done]. eapply inv_keeps; [done|by apply keeps_onGate|intros _; apply onGate_inv; [done|by apply H2]].
  - eapply inv_keeps; [done|apply keeps_Reconcile|]. intros _. unfold Live_Reconcile. destruct (nd_trade n) as [[g rec]|] eqn:Et; [|by apply H2].
    destruct (reconcileSession_inv w g rec n (H2 ltac:(done))) as [Hr Hc]. destruct (reconcileSession w g rec n) as [[n1 rec1] r]. cbn [fst] in *.
    apply trade_inv; [done|]. rewrite Hc. by eapply (inv_trade _ (H2 ltac:(done))).
  - eapply (inv_phase PRunning); [|done|auto|done]. eapply inv_keeps; [done| |].
    + etransitivity; [apply (keeps_trade None)|apply keeps_noteFailure].
    + intros _. apply noteFailure_inv, detach_inv. by apply H2.
  - destruct (nd_restartCh n); [|done]. eapply (inv_phase PRunning); [|done|auto|done]. eapply inv_keeps; [done| |].
    + etransitivity; [apply (keeps_restartCh false)|apply keeps_trade].
    + intros _. destruct (H2 ltac:(done)). by split.
  - apply Hdown, closeSession_tables, H1.
  - apply Hdown, closeSession_tables, H1.
Qed.

Lemma run_inv ops : forall m, machineInv m -> machineInv (run ops m).
Proof. induction ops as [|o ops IH]; intros m Hm; [done|]. cbn. apply IH. by apply step_inv. Qed.

(** A deployment: the steps of any number of processes, from tables in order. *)
Definition deployed (m : Machine) : Prop := exists n0 ops, tablesOk (nd_pg n0) /\ m = run ops (mkMachine PDown n0).

Lemma deployed_inv m : deployed m -> machineInv m.
Proof. intros (n0 & ops & Ht & ->). apply run_inv. split; cbn; try done. by intros [|]. Qed.

(** ** Halts across steps *)

Definition haltActive (s : Z) (m : Machine) : Prop := existsb (activeFor (Some s)) (pg_halts (nd_pg (m_node m))) = true.

(** The operations after a halt: no start or resume, the same trader, and an answer
    to the query for the halt at every start. *)
Definition leavesHalt (trader : string) (o : nodeOp) : Prop :=
  match o with
  | OCommand _ row => isResumeName (cr_name row.2) = false
  | OStart cfg => lcf_TraderID cfg = trader
  | OOpen w => wd_write w 3 = true
  | _ => True
  end.

(** What a step does to the tables: sessions open above the sequence or close, and
    without a resume halt rows are only added. *)
Definition tableStep (m m' : Machine) : Prop :=
  pg_nextID (nd_pg (m_node m)) <= pg_nextID (nd_pg (m_node m')) /\
  forall s, s < pg_nextID (nd_pg (m_node m)) ->
    let k := sessKey (pg_sessions (nd_pg (m_node m))) s in
    let k' := sessKey (pg_sessions (nd_pg (m_node m'))) s in
    k' = k \/ exists t, k = Some (t, RUNNING) /\ k' = Some (t, "STOPPED").

Lemma keeps_tableStep ph ph' n n' : keeps n n' -> tableStep (mkMachine ph n) (mkMachine ph' n').
Proof. intros Hk. split; cbn; [rewrite (kp_next _ _ Hk); lia|]. intros s _. left. apply Hk. Qed.

Lemma close_tableStep ph ph' ok now id n : tableStep (mkMachine ph n) (mkMachine ph' (closeSession ok now id "STOPPED" n)).
Proof.
  destruct (closeSession_same ok now id n) as (E & _). split; cbn; [rewrite E; lia|]. intros s _.
  destruct (closeSession_key ok now id n s) as [E2|(t & _ & E2 & E3)]; [by left|right; by exists t].
Qed.

Lemma tableStep_same m m' : pg_nextID (nd_pg (m_node m')) = pg_nextID (nd_pg (m_node m)) ->
  pg_sessions (nd_pg (m_node m')) = pg_sessions (nd_pg (m_node m)) -> tableStep m m'.
Proof. intros E1 E2. split; [rewrite E1; lia|]. intros s _. left. by rewrite E2. Qed.

Lemma tableStep_pg m m' : nd_pg (m_node m') = nd_pg (m_node m) -> tableStep m m'.
Proof. intros E. apply tableStep_same; by rewrite E. Qed.

Lemma rehydrateHalt_pg ok now n : nd_pg (rehydrateHalt ok now n) = nd_pg n.
Proof. unfold rehydrateHalt. destruct (sessionIDValue n); [|done]. destruct ok; [|done]. by destruct (merge_sort _ _). Qed.

Lemma open_tableStep ph ph' n n' : opened n n' -> forall n2, nd_pg n2 = nd_pg n' -> tableStep (mkMachine ph n) (mkMachine ph' n2).
Proof. intros Ho n2 E. split; cbn; rewrite E; [apply Ho|]. intros s Hs. left. by apply Ho. Qed.

Lemma loop_keeps b n : let n1 := takeRestartMode n in keeps n (fst (startSession b (nd_mode n1) n1)).
Proof. cbv zeta. etransitivity; [apply keeps_takeRestartMode|apply keeps_startSession]. Qed.

Lemma command_tableStep w row ph n : tableStep (mkMachine ph n) (mkMachine ph (command w row n)).
Proof.
  destruct (isResumeName (cr_name row.2)) eqn:Hr; [|by apply keeps_tableStep, keeps_command].
  destruct (resume_command w row n Hr) as (_ & _ & E1 & E2). by apply tableStep_same.
Qed.

Lemma step_tables o m : machineInv m -> tableStep m (step o m).
Proof.
  intros [H1 _ _ _]. destruct m as [ph n]. cbn in H1.
  destruct o as [cfg|w|w row|w b|g|w|[e|]|w|], ph; unfold nodeStep; cbn [m_phase m_node];
    try (by apply tableStep_pg); try apply close_tableStep; try apply command_tableStep.
  - destruct (NewLive cfg (nd_pg n)) as [n'|e] eqn:En; [|by apply tableStep_pg]. destruct (NewLive_inv cfg _ _ En) as (_ & Hp & _).
    by apply tableStep_pg.
  - pose proof (openSession_run w n H1) as Ho. destruct (openSession w n) as [n' [id|e]]; destruct Ho as [Hop _];
      eapply open_tableStep; [done|by rewrite rehydrateHalt_pg|done|done].
  - destruct (IsStopped (nd_halt n)); [apply close_tableStep|]. pose proof (loop_keeps b n) as Hk. cbv zeta in Hk.
    destruct (startSession b _ _) as [n2 [?|e]]; apply keeps_tableStep; [done|]. etransitivity; [exact Hk|apply keeps_noteFailure].
  - destruct (sessionWork g) eqn:Ew; [by apply keeps_tableStep, keeps_onGate|by apply tableStep_pg].
  - apply keeps_tableStep, keeps_Reconcile.
  - apply keeps_tableStep. etransitivity; [apply (keeps_trade None)|apply keeps_noteFailure].
  - destruct (nd_restartCh n); by apply tableStep_pg.
Qed.

(** Halt rows without a resume. *)
Lemma step_halts trader o m : machineInv m -> leavesHalt trader o ->
  exists new, pg_halts (nd_pg (m_node (step o m))) = pg_halts (nd_pg (m_node m)) ++ new.
Proof.
  intros [H1 _ _ _] Hq. destruct m as [ph n]. cbn in H1.
  assert (Hsame : forall n', pg_halts (nd_pg n') = pg_halts (nd_pg n) -> exists new, pg_halts (nd_pg n') = pg_halts (nd_pg n) ++ new)
    by (intros n' ->; exists []; by rewrite app_nil_r).
  destruct o as [cfg|w|w row|w b|g|w|[e|]|w|], ph; unfold nodeStep; cbn [m_phase m_node]; try (by apply Hsame);
    try (by apply Hsame, closeSession_same); try (by apply keeps_command).
  - destruct (NewLive cfg (nd_pg n)) as [n'|e] eqn:En; [|by apply Hsame]. destruct (NewLive_inv cfg _ _ En) as (_ & Hp & _). apply (Hsame n'). by rewrite Hp.
  - pose proof (openSession_run w n H1) as Ho. destruct (openSession w n) as [n' [id|e]]; destruct Ho as [Hop _]; apply Hsame; cbn [m_node];
      [rewrite rehydrateHalt_pg|]; apply Hop.
  - destruct (IsStopped (nd_halt n)); [apply Hsame, closeSession_same|]. pose proof (loop_keeps b n) as Hk. cbv zeta in Hk.
    destruct (startSession b _ _) as [n2 [?|e]]; [apply Hk|]. apply (keeps_trans _ _ _ Hk (keeps_noteFailure e n2)).
  - destruct (sessionWork g) eqn:Ew; [by apply keeps_onGate|by apply Hsame].
  - apply keeps_Reconcile.
  - apply Hsame. unfold noteFailure. by destruct (IsStopped _).
  - destruct (nd_restartCh n); by apply Hsame.
Qed.

(** The session [s] is held: it was closed, or it still runs with its halt recorded
    and any supervisor of the trader is on it with the latch set. *)
Definition held (trader : string) (s : Z) (m : Machine) : Prop :=
  s < pg_nextID (nd_pg (m_node m)) /\
  (sessKey (pg_sessions (nd_pg (m_node m))) s = Some (trader, "STOPPED") \/
   (sessKey (pg_sessions (nd_pg (m_node m))) s = Some (trader, RUNNING) /\ haltActive s m /\
    (m_phase m <> PDown -> lcf_TraderID (nd_cfg (m_node m)) = trader) /\
    (supervising m -> nd_sessionID (m_node m) = s /\ IsHalted (nd_halt (m_node m)) = true))).

Lemma rehydrate_halts s now n : sessionIDValue n = Some s -> existsb (activeFor (Some s)) (pg_halts (nd_pg n)) = true ->
  IsHalted (nd_halt (rehydrateHalt true now n)) = true.
Proof.
  intros Hs Ha. unfold rehydrateHalt. rewrite Hs. apply existsb_exists in Ha as (r & Hr & Hact).
  destruct (merge_sort newestFirst _) as [|r' l] eqn:Em.
  - assert (Hin : r ∈ merge_sort newestFirst (List.filter (activeFor (Some s)) (pg_halts (nd_pg n))))
      by (rewrite merge_sort_Permutation; apply list_elem_of_In, filter_In; done).
    rewrite Em in Hin. by apply elem_of_nil in Hin.
  - cbn. unfold Halt, IsHalted. by destruct (hs_halted (nd_halt n)) eqn:E.
Qed.

(** A step that keeps the process keeps the hold on its supervisor. *)
Definition holds (trader : string) (s : Z) (m : Machine) : Prop :=
  (m_phase m <> PDown -> lcf_TraderID (nd_cfg (m_node m)) = trader) /\
  (supervising m -> nd_sessionID (m_node m) = s /\ IsHalted (nd_halt (m_node m)) = true).

Lemma holds_keeps trader s ph ph' n n' : holds trader s (mkMachine ph n) -> keeps n n' ->
  (ph' <> PDown -> ph <> PDown) -> (supervising (mkMachine ph' n') -> supervising (mkMachine ph n)) -> holds trader s (mkMachine ph' n').
Proof.
  intros [H1 H2] Hk Hd Hs. split; cbn in *.
  - intros H. rewrite (kp_cfg _ _ Hk). auto.
  - intros H. destruct (H2 (Hs H)) as [<- Hh]. split; [apply Hk|by apply Hk].
Qed.

Lemma holds_idle trader s ph n : (ph <> PDown -> lcf_TraderID (nd_cfg n) = trader) -> ph <> PIdle -> ph <> PRunning -> holds trader s (mkMachine ph n).
Proof. intros H1 H2 H3. split; [done|]. intros [H|H]; by cbn in H. Qed.

Lemma step_holds trader s o m : machineInv m -> leavesHalt trader o -> 0 < s ->
  sessKey (pg_sessions (nd_pg (m_node m))) s = Some (trader, RUNNING) -> haltActive s m -> holds trader s m -> holds trader s (step o m).
Proof.
  intros Hm Hq Hs Hk Ha Hh. destruct m as [ph n]. pose proof (mi_tables _ Hm) as Ht. cbn in Hk, Ht.
  destruct o as [cfg|w|w row|w b|g|w|[e|]|w|], ph; unfold nodeStep; cbn [m_phase m_node]; try done; try (by apply holds_idle);
    try (eapply holds_keeps; [exact Hh|by apply keeps_command|done|done]).
  - destruct (NewLive cfg (nd_pg n)) as [n'|e] eqn:En; [|done]. destruct (NewLive_inv cfg _ _ En) as (_ & _ & Etr & _).
    apply holds_idle; [|done|done]. intros _. by rewrite Etr.
  - destruct Hh as [Hd _]. specialize (Hd ltac:(done)). cbn in Hd. pose proof (openSession_run w n Ht) as Ho. destruct (openSession w n) as [n' [id|e]].
    + destruct Ho as (Hop & Hid & _ & Hre). rewrite Hd in Hre. specialize (Hre s Hk) as ->. cbn in Hq. rewrite Hq.
      assert (E : keeps (set_sessionID s n') (rehydrateHalt true (wd_now w) (set_sessionID s n'))).
      { unfold rehydrateHalt. destruct (sessionIDValue _); [|done]. destruct (merge_sort _ _); [done|apply keeps_Halt]. }
      split; cbn [m_phase m_node]; [intros _; rewrite (kp_cfg _ _ E); cbn; by rewrite (op_cfg _ _ Hop)|]. intros _. split; [by rewrite (kp_id _ _ E)|].
      apply (rehydrate_halts s); [unfold sessionIDValue; cbn; by destruct (Z.eqb_spec s 0); [lia|]|]. cbn. rewrite (op_halts _ _ Hop). exact Ha.
    + destruct Ho as (Hop & _). apply holds_idle; [|done|done]. intros _. by rewrite (op_cfg _ _ Hop).
  - destruct (IsStopped (nd_halt n)).
    + apply holds_idle; [|done|done]. intros _. destruct (closeSession_same (wd_write w 0) (wd_now w) (nd_sessionID n) n) as (_ & _ & (-> & _) & _).
      by apply Hh.
    + pose proof (loop_keeps b n) as Hl. cbv zeta in Hl. destruct (startSession b _ _) as [n2 [?|e]]; cbn [fst] in Hl.
      * eapply holds_keeps; [exact Hh|exact Hl|done|]. by left.
      * eapply holds_keeps; [exact Hh| |done|by left]. etransitivity; [exact Hl|apply keeps_noteFailure].
  - destruct (sessionWork g) eqn:Ew; [|done]. eapply holds_keeps; [exact Hh|by apply keeps_onGate|done|done].
  - eapply holds_keeps; [exact Hh|apply keeps_Reconcile|done|done].
  - eapply holds_keeps; [exact Hh| |done|by right]. etransitivity; [apply (keeps_trade None)|apply keeps_noteFailure].
  - destruct (nd_restartCh n); [|done]. eapply holds_keeps; [exact Hh| |done|by right]. etransitivity; [apply (keeps_restartCh false)|apply keeps_trade].
Qed.

Lemma step_held trader s o m : machineInv m -> leavesHalt trader o -> 0 < s -> held trader s m -> held trader s (step o m).
Proof.
  intros Hm Hq Hs (Hn & Hc). destruct (step_tables o m Hm) as [Hnext Hk]. specialize (Hk s Hn). cbv zeta in Hk. split; [lia|].
  destruct Hc as [Hc|(Hr & Ha & Hh)].
  - left. destruct Hk as [->|(t & E & _)]; [done|]. rewrite Hc in E. discriminate E.
  - destruct Hk as [E|(t & E & E2)]; [right|left; rewrite Hr in E; by injection E as ->].
    rewrite E. splits; [done| |by apply (step_holds trader s o m)..]. destruct (step_halts trader o m Hm Hq) as [new Hnew].
    unfold haltActive. rewrite Hnew, existsb_app. apply orb_true_iff. by left.
Qed.

Lemma run_held trader s ops : forall m, machineInv m -> Forall (leavesHalt trader) ops -> 0 < s -> held trader s m -> held trader s (run ops m).
Proof.
  induction ops as [|o ops IH]; intros m Hm Hq Hs Hh; [done|]. apply List.Forall_cons_iff in Hq as [Ho Hq].
  cbn. apply IH; [by apply step_inv|done|done|by apply step_held].
Qed.

(** The commands that halt. *)
Definition isHaltName (name : string) : bool := isOneOf [NameHalt; NameKill; NameEmergencyKill] name.

Lemma record_active ok now kind reason n s : sessionIDValue n = Some s -> ok = true ->
  existsb (activeFor (Some s)) (pg_halts (nd_pg (recordHalt ok now kind reason n))) = true.
Proof.
  intros Hs ->. unfold recordHalt. rewrite Hs. destruct (existsb (activeFor (Some s)) (pg_halts (nd_pg n))) eqn:E; [done|]. cbn.
  rewrite existsb_app. cbn. by rewrite Z.eqb_refl, orb_true_r.
Qed.

Lemma haltAndRecord_latches w kind a b n : IsHalted (nd_halt (haltAndRecord w kind a b n)) = true.
Proof.
  unfold haltAndRecord, recordHalt. destruct (_ && _); cbn; unfold Halt, IsHalted; by destruct (hs_halted (nd_halt n)) eqn:E.
Qed.

Lemma keeps_active n n' s : keeps n n' -> existsb (activeFor (Some s)) (pg_halts (nd_pg n)) = true ->
  existsb (activeFor (Some s)) (pg_halts (nd_pg n')) = true.
Proof. intros Hk H. destruct (kp_halts _ _ Hk) as [new ->]. rewrite existsb_app, H. done. Qed.

(** A halting command sets the latch and leaves an active row. *)
Lemma halt_command w row args n s : cr_args row.2 = Ok args -> isHaltName (cr_name row.2) = true -> wd_write w 0 = true ->
  sessionIDValue n = Some s ->
  IsHalted (nd_halt (command w row n)) = true /\ existsb (activeFor (Some s)) (pg_halts (nd_pg (command w row n))) = true.
Proof.
  intros Ha Hn Hw Hs. unfold runCommand. rewrite Ha. set (cmd := commandOf row.1 row.2 args).
  assert (Hv : Command_Validate cmd = Ok tt /\ (cmd_Name cmd = NameHalt \/ cmd_Name cmd = NameKill \/ cmd_Name cmd = NameEmergencyKill)).
  { unfold isHaltName, isOneOf in Hn. cbn [existsb] in Hn. rewrite !orb_true_iff, !String.eqb_eq in Hn. unfold Command_Validate, cmd. cbn [cmd_Name commandOf].
    destruct Hn as [->|[->|[->|[=]]]]; split; auto. }
  destruct Hv as [-> Hname]. pose proof (fun a => record_active (wd_write w 0) (wd_now w) HaltManual a) as Hrec.
  assert (Hhr : forall r, IsHalted (nd_halt (haltAndRecord w HaltManual r r n)) = true /\
    existsb (activeFor (Some s)) (pg_halts (nd_pg (haltAndRecord w HaltManual r r n))) = true).
  { intros r. split; [apply haltAndRecord_latches|]. unfold haltAndRecord. apply Hrec; [done|done]. }
  destruct Hname as [E|[E|E]].
  - unfold dispatch. rewrite E. cbn. apply Hhr.
  - unfold dispatch. rewrite E. cbn. apply Hhr.
  - set (why := reasonOr (ca_Reason (cmd_Args cmd)) "emergency kill").
    assert (Hd : fst (dispatch (H := liveController venue) w cmd n) = fst (Live_EmergencyKill venue w why n))
      by (unfold dispatch; rewrite E; apply eff_map_fst).
    enough (H : IsHalted (nd_halt (fst (Live_EmergencyKill venue w why n))) = true /\
      existsb (activeFor (Some s)) (pg_halts (nd_pg (fst (Live_EmergencyKill venue w why n)))) = true)
      by (rewrite <- Hd in H; by destruct (dispatch w cmd n) as [n' [v|e]]).
    unfold Live_EmergencyKill. set (r := if String.eqb why "" then _ else _). destruct (Hhr r) as [Hh1 Hh2].
    set (n1 := haltAndRecord w HaltManual r r n) in *. destruct (nd_trade n1) as [[g rec]|]; [|done].
    by destruct (flattenSession venue w _ g) as [g' [coids e]].
Qed.
End Machine.

(** ** Properties *)

#[local] Abbreviation Venue := (list PlaceOrderRequest -> PlaceOrderRequest -> list (OrderUpdate * time) * res string).

(** C13: A halt outlives the process.  Once a halt, kill or emergency kill is applied
    while the supervisor runs, then through any further commands but start and
    resume, any trading, session restarts, shutdowns, crashes and new processes of
    the same trader, either the session was closed by an orderly exit or its halt
    row is still active, and whenever a supervisor runs it is on that session with
    the latch set, so nothing is emitted. *)
Theorem operator_halt_survives_crash (venue : Venue) (m : Machine) (w : world) (row : Z * CommandRow) (args : CommandArgs) (ops : list nodeOp)
    (Hdep : deployed venue m) (Hsup : supervising m)
    (Hargs : cr_args row.2 = Ok args) (Hname : isHaltName (cr_name row.2) = true) (Hw : wd_write w 0 = true)
    (Hops : Forall (leavesHalt (lcf_TraderID (nd_cfg (m_node m)))) ops) :
  let s := nd_sessionID (m_node m) in
  let m' := runNode venue ops (nodeStep venue (OCommand w row) m) in
  sessKey (pg_sessions (nd_pg (m_node m'))) s = Some (lcf_TraderID (nd_cfg (m_node m)), "STOPPED") \/
  (sessKey (pg_sessions (nd_pg (m_node m'))) s = Some (lcf_TraderID (nd_cfg (m_node m)), RUNNING) /\ haltActive s m' /\
   (supervising m' -> nd_sessionID (m_node m') = s /\ IsHalted (nd_halt (m_node m')) = true /\ Emitting (nd_halt (m_node m')) = false)).
Proof.
  intros s m'. pose proof (deployed_inv venue m Hdep) as Hm. pose proof (mi_session m Hm Hsup) as Hk.
  pose proof (proj1 (tablesOk_keys _) (mi_tables m Hm)) as (Hids & _ & _). specialize (Hids _ _ Hk) as Hs. fold s in Hs, Hk.
  set (m1 := nodeStep venue (OCommand w row) m) in *.
  assert (Hm1 : m1 = mkMachine (m_phase m) (fst (runCommand (H := liveController venue) w row (m_node m)))).
  { unfold m1, nodeStep. destruct m as [ph n]. destruct Hsup as [H|H]; cbn in H; by subst ph. }
  assert (Hr : isResumeName (cr_name row.2) = false).
  { unfold isHaltName, isOneOf in Hname. cbn [existsb] in Hname. rewrite !orb_true_iff, !String.eqb_eq in Hname.
    destruct Hname as [->|[->|[->|[=]]]]; done. }
  pose proof (keeps_command venue w row (m_node m) Hr) as Hkp.
  destruct (halt_command venue w row args (m_node m) s Hargs Hname Hw) as [Hh Ha]; [unfold sessionIDValue; by destruct (Z.eqb_spec (nd_sessionID (m_node m)) 0); [lia|]|].
  assert (Hheld : held (lcf_TraderID (nd_cfg (m_node m))) s m1).
  { rewrite Hm1. split; cbn; [rewrite (kp_next _ _ Hkp); lia|]. right. unfold haltActive. cbn. rewrite (kp_sessions _ _ Hkp), (kp_cfg _ _ Hkp), (kp_id _ _ Hkp).
    by splits. }
  destruct (run_held venue _ s ops m1 (step_inv venue (OCommand w row) m Hm) Hops ltac:(lia) Hheld) as (_ & [H|(H1 & H2 & _ & H3)]); [by left|right].
  splits; [exact H1|exact H2|]. intros Hs2. destruct (H3 Hs2) as [E1 E2]. splits; [done|done|]. unfold Emitting. change (hs_halted (nd_halt (m_node m')) = true) in E2. by rewrite E2.
Qed.

(** C14: No order reaches the broker without its credentials.  In every state of a
    running node, live mode means that the bound account, the confirmation phrase
    and the real-money trader id were configured, paper mode means a bound account,
    and every request the active session has sent carries the bound account's
    number and environment; a real environment again means phrase and trader id. *)
Theorem orders_need_credentials (venue : Venue) (m : Machine) (Hdep : deployed venue m) (Hup : m_phase m <> PDown) :
  let n := m_node m in
  credsFor (nd_cfg n) (nd_mode n) /\ (nd_restartMode n = "" \/ credsFor (nd_cfg n) (nd_restartMode n)) /\
  forall g rec, nd_trade n = Some (g, rec) -> boundTo (nd_cfg n) (gs_exec g).
Proof. cbv zeta. destruct (mi_node m (deployed_inv venue m Hdep) Hup). by splits. Qed.

(** *** Stop commands *)

Definition isStopName (name : string) : bool := isOneOf [NameStop; NameKill; NameEmergencyKill] name.

Section Stops.
Context (venue : Venue).
#[local] Abbreviation command w row n := (fst (runCommand (H := liveController venue) w row n)).

Lemma command_stopped w row n : IsStopped (nd_halt n) = true -> IsStopped (nd_halt (command w row n)) = true.
Proof.
  intros Hs. destruct (isResumeName (cr_name row.2)) eqn:Hr; [|by apply (keeps_command venue w row n Hr)].
  unfold runCommand. destruct (cr_args row.2) as [args|e]; [|done]. destruct (Command_Validate _); [|done].
  unfold dispatch. cbn [cmd_Name commandOf]. unfold isResumeName in Hr. rewrite Hr. cbn. unfold clearHalt. by destruct (wd_write w 0).
Qed.

Lemma stop_command w row args n : cr_args row.2 = Ok args -> isStopName (cr_name row.2) = true -> IsStopped (nd_halt (command w row n)) = true.
Proof.
  intros Ha Hn. unfold runCommand. rewrite Ha. set (cmd := commandOf row.1 row.2 args).
  unfold isStopName, isOneOf in Hn. cbn [existsb] in Hn. rewrite !orb_true_iff, !String.eqb_eq in Hn.
  assert (Hv : Command_Validate cmd = Ok tt) by (unfold Command_Validate, cmd; cbn [cmd_Name commandOf]; by destruct Hn as [->|[->|[->|[=]]]]).
  rewrite Hv. destruct Hn as [E|[E|[E|[=]]]]; change (cr_name row.2) with (cmd_Name cmd) in E.
  - unfold dispatch. by rewrite E.
  - unfold dispatch. by rewrite E.
  - assert (Hd : fst (dispatch (H := liveController venue) w cmd n) = fst (Live_EmergencyKill venue w (reasonOr (ca_Reason (cmd_Args cmd)) "emergency kill") n))
      by (unfold dispatch; rewrite E; apply eff_map_fst).
    assert (Hs : IsStopped (nd_halt (fst (Live_EmergencyKill venue w (reasonOr (ca_Reason (cmd_Args cmd)) "emergency kill") n))) = true).
    { unfold Live_EmergencyKill. destruct (nd_trade _) as [[g rec]|]; [|done]. by destruct (flattenSession venue w _ g) as [g' [coids e]]. }
    rewrite <- Hd in Hs. by destruct (dispatch w cmd n) as [n' [v|e]].
Qed.

Lemma runQueue_stopped rounds q : forall k n, IsStopped (nd_halt n) = true -> IsStopped (nd_halt (fst (runQueue (H := liveController venue) rounds k q n))) = true.
Proof.
  induction q as [|e q IH]; intros k n Hs; [done|]. cbn [runQueue]. pose proof (command_stopped (ro_env (rounds k)) e n Hs) as H1.
  destruct (runCommand (ro_env (rounds k)) e n) as [n1 out]. cbn [fst] in H1. specialize (IH (S k) n1 H1).
  by destruct (runQueue rounds (S k) q n1).
Qed.

Lemma runQueue_stops rounds q : forall k n e args, In e q -> cr_args e.2 = Ok args -> isStopName (cr_name e.2) = true ->
  IsStopped (nd_halt (fst (runQueue (H := liveController venue) rounds k q n))) = true.
Proof.
  induction q as [|e' q IH]; intros k n e args Hin Ha Hn; [done|]. destruct Hin as [->|Hin]; cbn [runQueue].
  - pose proof (stop_command (ro_env (rounds k)) e args n Ha Hn) as H1.
    destruct (runCommand (ro_env (rounds k)) e n) as [n1 out]. cbn [fst] in H1. pose proof (runQueue_stopped rounds q (S k) n1 H1).
    by destruct (runQueue rounds (S k) q n1).
  - destruct (runCommand (ro_env (rounds k)) e' n) as [n1 out]. specialize (IH (S k) n1 e args Hin Ha Hn). by destruct (runQueue rounds (S k) q n1).
Qed.
End Stops.

(** C16: A stop cannot be taken back.  When the consumer drains a queue that holds a
    stop, kill or emergency kill, then whatever else is in the queue and in whatever
    order, the drain returns with the node stopped: it emits nothing, and the
    supervisor's next turn leaves its loop. *)
Theorem stop_in_queue_is_final (venue : Venue) (rounds : nat -> Round world) (c : Consumer Live) (id : Z) (r : CommandRow) (args : CommandArgs)
    (Hquiet : forall k, quietRound (rounds k)) (Hzero : co_commands c !! 0 = None)
    (Hrow : co_commands c !! id = Some r) (Hpending : pendingLive ∅ (id, r) = true)
    (Hargs : cr_args r = Ok args) (Hname : isStopName (cr_name r) = true) :
  exists c', drain (H := liveController venue) (S (length (pendingQueue ∅ (co_commands c)))) rounds 0 c = (c', Ok tt) /\
    IsStopped (nd_halt (co_ctrl c')) = true /\ Emitting (nd_halt (co_ctrl c')) = false /\
    forall w b, m_phase (nodeStep venue (OLoop w b) (mkMachine PIdle (co_ctrl c'))) = PWaiting.
Proof.
  pose proof (drain_run (H := liveController venue) rounds Hquiet _ 0 c Hzero eq_refl) as Hd.
  assert (Hin : In (id, r) (pendingQueue ∅ (co_commands c))) by (apply list_elem_of_In, pendingQueue_in; done).
  pose proof (runQueue_stops venue rounds _ 0 (co_ctrl c) (id, r) args Hin Hargs Hname) as Hs.
  destruct (runQueue rounds 0 (pendingQueue ∅ (co_commands c)) (co_ctrl c)) as [n outs]. cbn [fst] in Hs.
  destruct Hd as (c' & Hd & Hn & _). rewrite <- Hn in Hs. exists c'. splits; [exact Hd|exact Hs| |].
  - unfold Emitting. unfold IsStopped in Hs. rewrite Hs. by rewrite andb_false_r.
  - intros w b. unfold nodeStep. cbn [m_phase m_node]. by rewrite Hs.
Qed.

(** ** Concrete runs *)

Definition noAccount : BrokerAccount := {| acct_ID := ""; acct_Venue := ""; acct_Env := ""; acct_BrokerAccID := 0; acct_Label := "";
  acct_IsDefault := false; acct_Notes := "" |}.
Definition signalCfg : LiveConfig := mkLiveConfig "SIGNAL-001" "" noAccount "" "" 0 0 0.
Definition realCfg : LiveConfig := mkLiveConfig LiveTraderID "live" (demoAccount EnvReal) "" LiveConfirmationPhrase 0 0 0.

Definition emptyTables : Tables := mkTables ∅ 1 [] ∅.
Definition downNode : Live := mkLive signalCfg NewHaltState "" "" false false 0 "" None 0 emptyTables.
Definition cleanMachine : Machine := mkMachine PDown downNode.

Definition worldAt (sec : Z) : world := mkWorld (mkTime (sec * 1000000000) 0) (fun _ => true) (Ok []) None.

Definition liveRow (name mode : string) : Z * CommandRow :=
  (1, mkRow "cli" TargetLive name (Ok (mkArgs mode "" "" "")) CmdPending "op" 0 None None None None).

Definition demoBuild (sec : Z) : Build :=
  mkBuild None (worldAt sec) (Some demoClient) None (NewAccount 1000000000 None) 1000000000 (fun _ => Ok None) (Ok []) (fun _ => mkTime 0 0) None.

Lemma emptyTables_ok : tablesOk emptyTables.
Proof. split; cbn; [intros id r E; by rewrite lookup_empty in E|lia|intros i j a b E; by rewrite lookup_empty in E]. Qed.

Definition startOps (cfg : LiveConfig) (sec : Z) : list nodeOp := [OStart cfg; OOpen (worldAt sec)].

Definition watch (m : Machine) : Phase * string * Z * bool * bool :=
  (m_phase m, nd_mode (m_node m), nd_sessionID (m_node m), IsHalted (nd_halt (m_node m)), Emitting (nd_halt (m_node m))).

Definition crashOps : list nodeOp :=
  [OLoop (worldAt 3) (demoBuild 3); OCommand (worldAt 4) (liveRow NameSetMode "signal"); OCrash] ++ startOps signalCfg 5.

Lemma operator_halt_survives_crash_witness :
  exists m', runNode demoVenue crashOps (nodeStep demoVenue (OCommand (worldAt 2) (liveRow NameHalt ""))
      (runNode demoVenue (startOps signalCfg 1) cleanMachine)) = m' /\
    watch m' = (PIdle, "signal", 1, true, false) /\ haltActive 1 m'.
Proof.
  set (m := runNode demoVenue (startOps signalCfg 1) cleanMachine).
  assert (Hdep : deployed demoVenue m) by (exists downNode, (startOps signalCfg 1); split; [apply emptyTables_ok|done]).
  assert (Hops : Forall (leavesHalt (lcf_TraderID (nd_cfg (m_node m)))) crashOps) by (repeat constructor).
  pose proof (operator_halt_survives_crash demoVenue m (worldAt 2) (liveRow NameHalt "") (mkArgs "" "" "" "") crashOps Hdep
    ltac:(by left) eq_refl eq_refl eq_refl Hops) as H.
  eexists. split; [reflexivity|]. split; [vm_compute; reflexivity|].
  destruct H as [H|(_ & H & _)]; [vm_compute in H; discriminate H|exact H].
Defined.

Definition realOps : list nodeOp :=
  startOps realCfg 1 ++ [OLoop (worldAt 2) (demoBuild 2); OGate (GMarket "sepa" "SPY" OrderSideBuy 10 "entry" (mkTime 3 0))].

Lemma orders_need_credentials_witness :
  exists g rec, nd_trade (m_node (runNode demoVenue realOps cleanMachine)) = Some (g, rec) /\
    length (x_sent (gs_exec g)) = 1%nat /\ x_env (gs_exec g) = TrdEnvReal /\ boundTo (nd_cfg (m_node (runNode demoVenue realOps cleanMachine))) (gs_exec g).
Proof.
  set (m := runNode demoVenue realOps cleanMachine).
  assert (Hdep : deployed demoVenue m) by (exists downNode, realOps; split; [apply emptyTables_ok|done]).
  destruct (orders_need_credentials demoVenue m Hdep ltac:(vm_compute; discriminate)) as (_ & _ & H).
  destruct (nd_trade (m_node m)) as [[g rec]|] eqn:E; [|vm_compute in E; discriminate E]. exists g, rec. split; [done|].
  assert (E2 : option_map (fun t => (length (x_sent (gs_exec t.1)), x_env (gs_exec t.1))) (nd_trade (m_node m)) = Some (1%nat, TrdEnvReal))
    by (vm_compute; reflexivity).
  rewrite E in E2. cbn in E2. injection E2 as E3 E4. split; [exact E3|]. split; [exact E4|]. by apply (H g rec).
Defined.

Definition queuedStop : gmap Z CommandRow :=
  <[1 := mkRow "cli" TargetLive NameKill (Ok zeroArgs) CmdPending "op" 10 None None None None]>
  (<[2 := mkRow "cli" TargetLive NameStart (Ok zeroArgs) CmdPending "op" 20 None None None None]> ∅).

Definition liveRounds (k : nat) : Round world := mkRound None 0 ∅ None (fun _ => true) (worldAt (Z.of_nat k)).

Lemma stop_in_queue_is_final_witness :
  exists c', drain (H := liveController demoVenue) 3 liveRounds 0 (NewConsumer queuedStop [] (m_node (runNode demoVenue (startOps signalCfg 1) cleanMachine)) "") = (c', Ok tt) /\
    IsStopped (nd_halt (co_ctrl c')) = true /\ IsHalted (nd_halt (co_ctrl c')) = false.
Proof.
  set (c := NewConsumer queuedStop [] (m_node (runNode demoVenue (startOps signalCfg 1) cleanMachine)) "").
  destruct (stop_in_queue_is_final demoVenue liveRounds c 1 (mkRow "cli" TargetLive NameKill (Ok zeroArgs) CmdPending "op" 10 None None None None) zeroArgs
    (fun k => conj eq_refl (conj eq_refl (conj eq_refl (fun _ => eq_refl)))) eq_refl eq_refl eq_refl eq_refl eq_refl) as (c' & H1 & H2 & _ & _).
  exists c'. split; [exact H1|]. split; [exact H2|].
  assert (E : IsHalted (nd_halt (co_ctrl (fst (drain (H := liveController demoVenue) 3 liveRounds 0 c)))) = false) by (vm_compute; reflexivity).
  change (S (length (pendingQueue ∅ (co_commands c)))) with 3%nat in H1. rewrite H1 in E. exact E.
Defined.

(** *** Where the code departs from its comments *)

(** An orderly restart loses the halt: the row stays active on the closed session,
    and the new process emits. *)
Lemma graceful_restart_clears_halt :
  let m := runNode demoVenue (startOps signalCfg 1 ++ [OCommand (worldAt 2) (liveRow NameHalt ""); OShutdown (worldAt 3)] ++ startOps signalCfg 4) cleanMachine in
  watch m = (PIdle, "signal", 2, false, true) /\ haltActive 1 m.
Proof. vm_compute. done. Qed.

(** A kill is lost the same way once the supervisor has left its loop. *)
Lemma kill_does_not_outlive_exit :
  watch (runNode demoVenue (startOps signalCfg 1 ++ [OCommand (worldAt 2) (liveRow NameKill ""); OLoop (worldAt 3) (demoBuild 3); OShutdown (worldAt 4)]
    ++ startOps signalCfg 5) cleanMachine) = (PIdle, "signal", 2, false, true).
Proof. vm_compute. done. Qed.

(** A halt consumed before the session row is open is recorded without a session,
    and a crash loses it; a resume consumed there is undone by the rehydration. *)
Lemma early_commands_miss_the_session :
  watch (runNode demoVenue ([OStart signalCfg; OCommand (worldAt 1) (liveRow NameHalt ""); OOpen (worldAt 2)] ++ [OCrash] ++ startOps signalCfg 3) cleanMachine)
    = (PIdle, "signal", 1, false, true) /\
  watch (runNode demoVenue (startOps signalCfg 1 ++ [OCommand (worldAt 2) (liveRow NameHalt ""); OCrash; OStart signalCfg;
    OCommand (worldAt 3) (liveRow NameResume ""); OOpen (worldAt 4)]) cleanMachine) = (PIdle, "signal", 1, true, false).
Proof. vm_compute. done. Qed.

(** A live node switched to paper keeps the real account: its orders are real. *)
Lemma paper_mode_trades_real_account :
  let m := runNode demoVenue (realOps ++ [OCommand (worldAt 4) (liveRow NameSetMode "paper"); OSessionEnd None; OLoop (worldAt 5) (demoBuild 5);
    OGate (GMarket "sepa" "SPY" OrderSideBuy 10 "entry" (mkTime 6 0))]) cleanMachine in
  (m_phase m, nd_mode (m_node m)) = (PRunning, "paper") /\
  option_map (fun t => map pr_TrdEnv (x_sent (gs_exec t.1))) (nd_trade (m_node m)) = Some [TrdEnvReal].
Proof. vm_compute. done. Qed.

(** A mode the enqueuer accepts and the node refuses. *)
Lemma spelled_mode_is_refused :
  let p := mkEnqueue "cli" NameSetMode (mkArgs " Paper " "" "token" "") "op" in
  let t := fst (Enqueue "" 1 10 p ∅) in
  snd (Enqueue "" 1 10 p ∅) = Ok 1 /\
  option_map cr_error (co_commands (fst (drain (H := liveController demoVenue) 2 liveRounds 0
    (NewConsumer t [] (m_node (runNode demoVenue realOps cleanMachine)) ""))) !! 1) = Some (Some "unknown mode  Paper ").
Proof. vm_compute. done. Qed.

(** After the loop the process waits for its consumer, which only the end of the
    process stops: commands are still accepted. *)
Lemma stopped_node_keeps_consuming :
  let m := runNode demoVenue (startOps signalCfg 1 ++ [OCommand (worldAt 2) (liveRow NameStop ""); OLoop (worldAt 3) (demoBuild 3);
    OCommand (worldAt 4) (liveRow NameHalt "")]) cleanMachine in
  watch m = (PWaiting, "signal", 1, true, false).
Proof. vm_compute. done. Qed.
