(* ===== verification/Scheduler.v ===== *)
(** * The daily scheduler (src/internal/scheduler)

    On every NYSE trading day, from a configured wall-clock time on, the scheduler
    enqueues the day's data pipeline once.  The ledger that hands out the day's slot
    and the job queue are interfaces, as in the code: the theorems are proved against
    the ledger's contract, which the table [tms.scheduler_runs] implements, and the
    queue is that of [Jobs].  Any number of scheduler processes and manual forces
    interleave as a sequence of evaluations over one ledger and one queue.  The
    logger is left out. *)

From stdpp Require Import gmap strings list sorting.
From S2P Require Import Prelude Lists Fixed Money Domain Calendar Jobs.
Set Default Goal Selector "!".
#[local] Open Scope string_scope.
#[local] Open Scope Z_scope.
#[local] Open Scope list_scope.
#[local] Abbreviation length := List.length.

(** ** Time of day (scheduler.go) *)

Record TimeOfDay : Set := mkTimeOfDay { tod_Hour : Z; tod_Minute : Z }.

#[export] Instance TimeOfDay_eq_dec : EqDecision TimeOfDay.
Proof. solve_decision. Defined.

Definition DefaultDailyAt : TimeOfDay := mkTimeOfDay 18 30.

(** [time.Parse("15:04", s)]: an hour of one or two digits, two digits of minutes. *)
Definition parseClock (s : list ascii) : res TimeOfDay :=
  let finish h rest :=
    match h, rest with
    | Some h, [c; m1; m2] =>
        match digitsVal 0 [m1; m2] with
        | Some m => if Ascii.eqb c ":"%char && (h <? 24) && (m <? 60) then Ok (mkTimeOfDay h m) else Err ErrInvalidArgument
        | None => Err ErrInvalidArgument
        end
    | _, _ => Err ErrInvalidArgument
    end in
  match s with
  | h1 :: h2 :: rest =>
      match digitVal h2 with
      | Some _ => finish (digitsVal 0 [h1; h2]) rest
      | None => finish (digitVal h1) (h2 :: rest)
      end
  | _ => Err ErrInvalidArgument
  end.

Definition ParseTimeOfDay (s : list ascii) : res TimeOfDay := parseClock (trimSpace s).

Definition TimeOfDay_String (t : TimeOfDay) : list ascii := padZero 2 (tod_Hour t) ++ [":"%char] ++ padZero 2 (tod_Minute t).

(** ** The ledger (ledger.go) *)

Definition TriggerScheduled : string := "scheduled".
Definition TriggerCatchup : string := "catchup".
Definition TriggerManual : string := "manual".
Definition PipelineDaily : string := "daily".

Record ClaimResult : Set := mkClaimResult { cl_Won : bool; cl_RunID : Z }.

(** [EL] is what the database answers to a call. *)
Class Ledger (EL L : Type) := {
  led_Claim : EL -> string -> Date -> string -> string -> eff L ClaimResult;
  led_RecordJobs : EL -> Z -> Z -> Z -> eff L unit;
  led_slots : L -> gset (string * Date)
}.

(** The contract: exactly one claim wins a slot, a failed claim takes none. *)
Class LedgerLaws (EL L : Type) `{!Ledger EL L} := {
  claim_law : forall env pipeline d who trig l,
    let '(l', r) := led_Claim env pipeline d who trig l in
    match r with
    | Ok c => cl_Won c = negb (bool_decide ((pipeline, d) ∈ led_slots l)) /\ led_slots l' = led_slots l ∪ {[(pipeline, d)]}
    | Err _ => led_slots l' = led_slots l
    end;
  record_law : forall env id a b l, led_slots (fst (led_RecordJobs env id a b l)) = led_slots l
}.

(** The table [tms.scheduler_runs]. *)
Record RunRow : Set := mkRunRow {
  rr_pipeline : string;
  rr_trading_date : Date;
  rr_claimed_by : string;
  rr_trigger : string;
  rr_data_job_id : option Z;
  rr_eod_job_id : option Z
}.

Record PGLedger : Set := mkPGLedger { pl_runs : list (Z * RunRow); pl_nextID : Z }.

Definition slotOf (e : Z * RunRow) : string * Date := (rr_pipeline e.2, rr_trading_date e.2).

(** The insert; [env] is the error of the connection.  The sequence also advances on
    a conflict. *)
Definition PGLedger_Claim (env : option error) (pipeline : string) (d : Date) (claimedBy trig : string) : eff PGLedger ClaimResult :=
  fun l =>
    if String.eqb pipeline "" then (l, Err (ErrOther "scheduler: claim: empty pipeline"))
    else if String.eqb claimedBy "" then (l, Err (ErrOther "scheduler: claim: empty claimed_by"))
    else match env with
         | Some e => (l, Err e)
         | None =>
             let id := pl_nextID l in
             if existsb (fun e => bool_decide (slotOf e = (pipeline, d))) (pl_runs l)
             then (mkPGLedger (pl_runs l) (id + 1), Ok (mkClaimResult false 0))
             else (mkPGLedger (pl_runs l ++ [(id, mkRunRow pipeline d claimedBy trig None None)]) (id + 1), Ok (mkClaimResult true id))
         end.

Definition nullableJobID (id : Z) : option Z := if id <=? 0 then None else Some id.

Definition PGLedger_RecordJobs (env : option error) (runID dataJobID eodJobID : Z) : eff PGLedger unit :=
  fun l =>
    match env with
    | Some e => (l, Err e)
    | None =>
        (mkPGLedger (map (fun e => if e.1 =? runID
           then (e.1, mkRunRow (rr_pipeline e.2) (rr_trading_date e.2) (rr_claimed_by e.2) (rr_trigger e.2) (nullableJobID dataJobID) (nullableJobID eodJobID))
           else e) (pl_runs l)) (pl_nextID l), Ok tt)
    end.

#[export] Instance PGLedger_ledger : Ledger (option error) PGLedger := {
  led_Claim := PGLedger_Claim;
  led_RecordJobs := PGLedger_RecordJobs;
  led_slots l := list_to_set (map slotOf (pl_runs l))
}.

#[export] Instance PGLedger_laws : LedgerLaws (option error) PGLedger.
Proof.
  split.
  - intros env pipeline d who trig l. cbn [led_Claim PGLedger_ledger led_slots]. unfold PGLedger_Claim.
    destruct (String.eqb pipeline ""); [done|]. destruct (String.eqb who ""); [done|]. destruct env; [done|].
    assert (Hin : existsb (fun e => bool_decide (slotOf e = (pipeline, d))) (pl_runs l) =
                  bool_decide ((pipeline, d) ∈ (list_to_set (map slotOf (pl_runs l)) : gset (string * Date)))).
    { apply eq_true_iff_eq. rewrite existsb_exists, bool_decide_eq_true, elem_of_list_to_set, list_elem_of_In, in_map_iff.
      split; intros (e & H1 & H2); exists e; [by apply bool_decide_eq_true in H2|split; [done|by apply bool_decide_eq_true]]. }
    rewrite Hin. case_bool_decide as Hc; cbn; (split; [done|]); [set_solver|].
    rewrite map_app, list_to_set_app_L. cbn. set_solver.
  - intros env id a b l. cbn. unfold PGLedger_RecordJobs. destruct env; [done|]. cbn. rewrite map_map. f_equal. apply map_ext.
    intros [i r]. cbn. by destruct (i =? id).
Qed.

(** ** The pipeline (pipeline.go) *)

(** The slice of the queue the scheduler uses. *)
Class Enqueuer (EQ Q : Type) := enq_Enqueue : EQ -> EnqueueParams -> eff Q (Job * bool).

(** The clocks and the other clients' commits of an enqueue, or a lost connection. *)
#[export] Instance Queue_enqueuer (q : Queue) : Enqueuer ((nat -> Z) * (nat -> DB -> DB) * option error) DB :=
  fun env p d => match env.2 with Some e => (d, Err e) | None => Jobs.Enqueue q env.1.1 env.1.2 p d end.

(** What the queue promises: once it accepts a request under a deduplication key it
    holds an active job of that key. *)
Class EnqueuerLaws (EQ Q : Type) `{!Enqueuer EQ Q} := {
  enq_active : Q -> string -> Prop;
  enqueue_law : forall env p q q' j dd, ep_DedupeKey p <> "" -> enq_Enqueue env p q = (q', Ok (j, dd)) -> enq_active q' (ep_DedupeKey p)
}.

Lemma enqueueLoop_active qu now others p payload : ep_DedupeKey p <> "" -> forall races k d d' j dd,
  enqueueLoop qu now others k races p payload (ep_RunAt p) (if ep_MaxAttempts p <? 1 then 1 else ep_MaxAttempts p)
    (nullIfEmpty (ep_DedupeKey p)) d = (d', Ok (j, dd)) -> j ∈ activeWithKey (ep_DedupeKey p) d'.
Proof.
  intros Hkey. assert (Ek : nullIfEmpty (ep_DedupeKey p) = Some (ep_DedupeKey p)) by (unfold nullIfEmpty; by destruct (String.eqb_spec (ep_DedupeKey p) "")).
  induction races as [|races IH]; intros k d d' j dd E; cbn [enqueueLoop] in E; [done|].
  unfold eff_bind at 1, eff_modify at 1 in E. unfold eff_bind at 1 in E. pose proof (tryInsert_run (now k) p payload (others k d)) as Hi. cbv zeta in Hi.
  destruct (tryInsert (now k) p payload _ _ _ (others k d)) as [d1 r]. destruct Hi as [(-> & -> & _)|(-> & _ & Hj & _)].
  - unfold eff_bind, eff_modify, eff_get in E. destruct (latest (activeWithKey (ep_DedupeKey p) (others (S k) (others k d)))) as [x|] eqn:El; [|by apply IH in E].
    injection E as <- <- <-. by apply latest_some.
  - unfold eff_bind, eff_modify, eff_ret in E. injection E as <- <- <-. apply activeWithKey_in. split; [|split; [done|by cbn; rewrite Ek]].
    exists (d_nextID (others k d)). unfold notify. destruct (q_notifier qu); cbn; by rewrite Hj, lookup_insert_eq.
Qed.

Lemma Enqueue_active q env p d d' j dd : ep_DedupeKey p <> "" -> enq_Enqueue (Enqueuer := Queue_enqueuer q) env p d = (d', Ok (j, dd)) ->
  j ∈ activeWithKey (ep_DedupeKey p) d'.
Proof.
  destruct env as [[now others] [e|]]; intros Hkey; cbn; [done|]. unfold Jobs.Enqueue. destruct (String.eqb (ep_Kind p) ""); [done|].
  unfold eff_bind at 1, eff_lift. destruct (marshalObject (ep_Payload p)); [|done]. by apply enqueueLoop_active.
Qed.

#[export] Instance Queue_enqueuer_laws (q : Queue) : EnqueuerLaws (Enqueuer0 := Queue_enqueuer q) ((nat -> Z) * (nat -> DB -> DB) * option error) DB := {
  enq_active d key := exists j, j ∈ activeWithKey key d;
  enqueue_law env p d d' j dd Hkey E := ex_intro _ j (Enqueue_active q env p d d' j dd Hkey E)
}.

(** A queue that keeps a log of the requests sent to it: the request, whether it was
    accepted, and the queue afterwards. *)
Record QueueCall (Q : Type) : Type := mkQueueCall { qc_params : EnqueueParams; qc_ok : bool; qc_after : Q }.
Arguments mkQueueCall {Q}. Arguments qc_params {Q}. Arguments qc_ok {Q}. Arguments qc_after {Q}.

#[export] Instance logged_enqueuer {EQ Q : Type} `{!Enqueuer EQ Q} : Enqueuer EQ (Q * list (QueueCall Q)) :=
  fun env p q => let '(q', r) := enq_Enqueue env p q.1 in ((q', q.2 ++ [mkQueueCall p (match r with Ok _ => true | Err _ => false end) q']), r).

Record PipelineResult : Set := mkPipeline { pr_DataJobID : Z; pr_EODJobID : Z; pr_DataDeduped : bool; pr_EODDeduped : bool }.
Definition zeroPipeline : PipelineResult := mkPipeline 0 0 false false.

Definition eodGraceAfterData : Z := 600 * second.
Definition dataRefreshPriority : Z := 10.
Definition KindDataRefresh : string := "data.refresh".
Definition KindEODRefresh : string := "eod.refresh".

Definition quoted (s : string) : string := String "034"%char (s ++ String "034"%char "").
Definition dateText (d : Date) : string := string_of_list_ascii (DateString d).

Definition dataParams (d : Date) (actor : string) : EnqueueParams :=
  mkEnqueue KindDataRefresh (PayloadValue (Some ("{" ++ quoted "source" ++ ":" ++ quoted "api" ++ "}")%string))
    ("scheduler:data.refresh:" ++ dateText d) dataRefreshPriority None 3 actor.

Definition eodParams (d : Date) (now : time) (actor : string) : EnqueueParams :=
  mkEnqueue KindEODRefresh
    (PayloadValue (Some ("{" ++ quoted "as_of" ++ ":" ++ quoted (dateText d) ++ "," ++ quoted "strategy" ++ ":" ++ quoted "multi" ++ "}")%string))
    ("scheduler:eod.refresh:" ++ dateText d) 0 (Some (t_ns now + eodGraceAfterData)) 3 actor.

Section Scheduler.
Context {EL L EQ Q : Type} `{!Ledger EL L} `{!Enqueuer EQ Q} (cal : Calendar).

Definition enqueuePipeline (e1 e2 : EQ) (d : Date) (now : time) (actor : string) (q : Q) : Q * (PipelineResult * option error) :=
  match enq_Enqueue e1 (dataParams d actor) q with
  | (q, Err e) => (q, (zeroPipeline, Some e))
  | (q, Ok (dataJob, dd)) =>
      match enq_Enqueue e2 (eodParams d now actor) q with
      | (q, Err e) => (q, (mkPipeline (j_ID dataJob) 0 dd false, Some e))
      | (q, Ok (eodJob, ed)) => (q, (mkPipeline (j_ID dataJob) (j_ID eodJob) dd ed, None))
      end
  end.

(** ** Evaluation (scheduler.go) *)

Record Scheduler : Type := mkScheduler {
  sd_dailyAt : TimeOfDay;
  sd_loc : Location;
  sd_catchup : bool;
  sd_instance : string
}.

(** [New], once the calendar, the queue and the ledger are there. *)
Definition NewScheduler (dailyAt : TimeOfDay) (loc : option Location) (catchup : bool) (instanceID : list ascii) : Scheduler :=
  mkScheduler (if decide (dailyAt = mkTimeOfDay 0 0) then DefaultDailyAt else dailyAt) (default (cal_loc cal) loc) catchup
    (match trimSpace instanceID with [] => "scheduler" | s => string_of_list_ascii s end).

Definition fireInstant (s : Scheduler) (d : Date) : time :=
  dateIn (sd_loc s) (d_Year d) (d_Month d) (d_Day d) (tod_Hour (sd_dailyAt s)) (tod_Minute (sd_dailyAt s)).

Definition tradingDate (s : Scheduler) (now : time) : Date * res bool :=
  let d := DateOf (sd_loc s) now in (d, IsTradingDay cal d).

Inductive TickAction : Set :=
| ActionNone | ActionSkippedNonTradingDay | ActionWaiting | ActionEnqueued | ActionAlreadyDone | ActionOutOfRange.

#[export] Instance TickAction_eq_dec : EqDecision TickAction.
Proof. solve_decision. Defined.

Record TickResult : Set := mkTick { tr_Date : Date; tr_Action : TickAction; tr_Pipeline : PipelineResult }.

(** One ledger and one queue, shared by all. *)
Record Shared : Type := mkShared { sh_ledger : L; sh_queue : Q }.

(** What an evaluation sees: its clock and the answers of ledger and queue. *)
Record Answers : Type := mkAnswers { an_now : time; an_claim : EL; an_record : EL; an_data : EQ; an_eod : EQ }.

(** The claim and what follows it; a failed record of the job ids is logged. *)
Definition claimAndEnqueue (s : Scheduler) (an : Answers) (d : Date) (trig actor : string) (w : Shared) : Shared * (TickResult * option error) :=
  match led_Claim (an_claim an) PipelineDaily d (sd_instance s) trig (sh_ledger w) with
  | (l, Err e) => (mkShared l (sh_queue w), (mkTick d ActionNone zeroPipeline, Some e))
  | (l, Ok c) =>
      if negb (cl_Won c) then (mkShared l (sh_queue w), (mkTick d ActionAlreadyDone zeroPipeline, None))
      else
        match enqueuePipeline (an_data an) (an_eod an) d (an_now an) actor (sh_queue w) with
        | (q, (pipe, Some e)) => (mkShared l q, (mkTick d ActionEnqueued pipe, Some e))
        | (q, (pipe, None)) =>
            (mkShared (fst (led_RecordJobs (an_record an) (cl_RunID c) (pr_DataJobID pipe) (pr_EODJobID pipe) l)) q,
             (mkTick d ActionEnqueued pipe, None))
        end
  end.

Definition isOutOfRange (e : error) : bool := match e, ErrOutOfRange with ErrOther a, ErrOther b => String.eqb a b | _, _ => false end.

Definition evaluate (s : Scheduler) (an : Answers) (trig : string) (w : Shared) : Shared * (TickResult * option error) :=
  let '(d, trading) := tradingDate s (an_now an) in
  match trading with
  | Err e => (w, if isOutOfRange e then (mkTick d ActionOutOfRange zeroPipeline, None) else (mkTick d ActionNone zeroPipeline, Some e))
  | Ok false => (w, (mkTick d ActionSkippedNonTradingDay zeroPipeline, None))
  | Ok true =>
      if Before (an_now an) (fireInstant s d) then (w, (mkTick d ActionWaiting zeroPipeline, None))
      else claimAndEnqueue s an d trig "scheduler" w
  end.

Definition Tick (s : Scheduler) (an : Answers) : Shared -> Shared * (TickResult * option error) := evaluate s an TriggerScheduled.

Definition actorOrScheduler (actor : list ascii) : string :=
  match trimSpace actor with [] => "scheduler" | a => string_of_list_ascii a end.

Definition SyncNow (s : Scheduler) (an : Answers) (actor : list ascii) (w : Shared) : Shared * (TickResult * option error) :=
  let d := DateOf (sd_loc s) (an_now an) in
  match IsTradingDay cal d with
  | Err e => (w, (mkTick d ActionNone zeroPipeline, Some e))
  | Ok true => claimAndEnqueue s an d TriggerManual (actorOrScheduler actor) w
  | Ok false =>
      match PrevSession cal d with
      | Err e => (w, (mkTick d ActionNone zeroPipeline, Some e))
      | Ok sess => claimAndEnqueue s an (ss_Date sess) TriggerManual (actorOrScheduler actor) w
      end
  end.

(** ** Many schedulers *)

Inductive schedOp : Type :=
| OpEvaluate (s : Scheduler) (an : Answers) (trig : string)
| OpSyncNow (s : Scheduler) (an : Answers) (actor : list ascii).

Definition runSchedOp (o : schedOp) : Shared -> Shared * (TickResult * option error) :=
  match o with OpEvaluate s an trig => evaluate s an trig | OpSyncNow s an actor => SyncNow s an actor end.

Fixpoint runSched (ops : list schedOp) (w : Shared) : Shared * list (TickResult * option error) :=
  match ops with
  | [] => (w, [])
  | o :: ops => let '(w, r) := runSchedOp o w in let '(w, rs) := runSched ops w in (w, r :: rs)
  end.

(** [Run] until it is cancelled: the catch-up at [start], then one [Tick] per beat of
    the ticker; their errors are logged. *)
Definition Scheduler_Run (s : Scheduler) (start : Answers) (beats : list Answers) (w : Shared) : Shared :=
  let w := if sd_catchup s then fst (evaluate s start TriggerCatchup w) else w in
  foldl (fun w an => fst (Tick s an w)) w beats.

Lemma runSched_beats s beats : forall w,
  fst (runSched (map (fun an => OpEvaluate s an TriggerScheduled) beats) w) = foldl (fun w an => fst (Tick s an w)) w beats.
Proof.
  induction beats as [|an beats IH]; intros w; [done|]. cbn [map runSched runSchedOp foldl]. unfold Tick at 2.
  destruct (evaluate s an TriggerScheduled w) as [w1 r]. cbn [fst]. rewrite <- IH. by destruct (runSched (map _ beats) w1).
Qed.

(** A scheduler process is one of the sequences the theorems are about. *)
Lemma Run_is_sequence s start beats w :
  Scheduler_Run s start beats w =
  fst (runSched ((if sd_catchup s then [OpEvaluate s start TriggerCatchup] else []) ++ map (fun an => OpEvaluate s an TriggerScheduled) beats) w).
Proof.
  unfold Scheduler_Run. destruct (sd_catchup s); cbn [app]; [|by rewrite runSched_beats]. cbn [runSched runSchedOp].
  destruct (evaluate s start TriggerCatchup w) as [w1 r]. cbn [fst]. rewrite <- runSched_beats. by destruct (runSched (map _ beats) w1).
Qed.
End Scheduler.

(** ** One slot a day *)

Section Once.
Context {EL L EQ Q : Type} `{!Ledger EL L} `{!LedgerLaws EL L} `{!Enqueuer EQ Q}.
Context (loc : Location) (cal : Calendar) (dates : list Date) (Hc : covers loc cal dates).
#[local] Abbreviation world := (Shared (L := L) (Q := Q)).

Definition isEnqueued (r : TickResult * option error) : bool := bool_decide (tr_Action r.1 = ActionEnqueued).
Definition enqueuedDates (rs : list (TickResult * option error)) : list Date := map (fun r => tr_Date r.1) (List.filter isEnqueued rs).

Lemma enqueuedDates_cons r rs : enqueuedDates (r :: rs) = (if isEnqueued r then [tr_Date r.1] else []) ++ enqueuedDates rs.
Proof. unfold enqueuedDates. cbn [List.filter]. by destruct (isEnqueued r). Qed.

Definition claimed (w : world) (d : Date) : Prop := (PipelineDaily, d) ∈ led_slots (sh_ledger w).

(** What an evaluation does to the day's slot. *)
Definition slotStep (w w' : world) (r : TickResult * option error) : Prop :=
  (tr_Action r.1 = ActionEnqueued /\ ~ claimed w (tr_Date r.1) /\ led_slots (sh_ledger w') = led_slots (sh_ledger w) ∪ {[(PipelineDaily, tr_Date r.1)]}) \/
  (tr_Action r.1 <> ActionEnqueued /\ led_slots (sh_ledger w') = led_slots (sh_ledger w)).

Lemma claimAndEnqueue_slot s an d trig actor (w : world) :
  let '(w', r) := claimAndEnqueue s an d trig actor w in
  slotStep w w' r /\ tr_Date r.1 = d /\ (r.2 = None -> claimed w' d).
Proof.
  unfold claimAndEnqueue. pose proof (claim_law (an_claim an) PipelineDaily d (sd_instance s) trig (sh_ledger w)) as Hcl.
  destruct (led_Claim _ _ _ _ _ _) as [l [c|e]]; [|split; [by right|done]]. destruct Hcl as [Hw Hs]. destruct (cl_Won c) eqn:Ew; cbn [negb].
  - symmetry in Hw. apply negb_true_iff, bool_decide_eq_false in Hw.
    destruct (enqueuePipeline _ _ _ _ _ _) as [q [pipe [e|]]]; cbn [fst snd tr_Date tr_Action];
      (split; [left; splits; try done; cbn; rewrite ?record_law; done|split; [done|]]); intros _; unfold claimed; cbn; rewrite ?record_law, Hs; set_solver.
  - symmetry in Hw. apply negb_false_iff, bool_decide_eq_true in Hw. split; [right; split; [done|]; cbn; rewrite Hs; set_solver|].
    split; [done|]. intros _. unfold claimed. cbn. rewrite Hs. set_solver.
Qed.

(** A tick that is due: a trading day of its own zone, from the configured time on. *)
Definition due (s : Scheduler) (now : time) : Prop :=
  let d := DateOf (sd_loc s) now in inRange d /\ isTradingDate d = true /\ Before now (fireInstant s d) = false.

Lemma DateOf_valid l t : validDate (DateOf l t) = true.
Proof. apply validDate_civil. Qed.

(** A date of the calendar that is a trading day. *)
Definition tradingDay (d : Date) : Prop := validDate d = true /\ inRange d /\ isTradingDate d = true.

Lemma evaluate_slot s an trig (w : world) :
  let '(w', r) := evaluate cal s an trig w in
  slotStep w w' r /\
  (tr_Action r.1 = ActionEnqueued -> tradingDay (tr_Date r.1) /\ due s (an_now an) /\ tr_Date r.1 = DateOf (sd_loc s) (an_now an)) /\
  (due s (an_now an) -> r.2 = None -> claimed w' (DateOf (sd_loc s) (an_now an))).
Proof.
  unfold evaluate, tradingDate, due. set (d := DateOf (sd_loc s) (an_now an)).
  rewrite (IsTradingDay_run loc _ _ Hc d (DateOf_valid _ _)). destruct (decide (inRange d)) as [Hr|Hr].
  - destruct (isTradingDate d) eqn:Et; [|split; [by right|split; [done|by intros (_ & ? & _)]]].
    destruct (Before (an_now an) (fireInstant s d)) eqn:Eb; [split; [by right|split; [done|by intros (_ & _ & ?)]]|].
    pose proof (claimAndEnqueue_slot s an d trig "scheduler" w) as H. destruct (claimAndEnqueue _ _ _ _ _ w) as [w' r].
    destruct H as (H1 & H2 & H3). split; [done|]. split; [intros _; rewrite H2; by pose proof (DateOf_valid (sd_loc s) (an_now an))|]. intros _. exact H3.
  - split; [right|]; [by destruct (isOutOfRange ErrOutOfRange)|]. split; [by destruct (isOutOfRange ErrOutOfRange)|]. by intros (? & _).
Qed.

Lemma SyncNow_slot s an actor (w : world) :
  let '(w', r) := SyncNow cal s an actor w in
  slotStep w w' r /\ (tr_Action r.1 = ActionEnqueued -> tradingDay (tr_Date r.1)).
Proof.
  unfold SyncNow. set (d := DateOf (sd_loc s) (an_now an)).
  rewrite (IsTradingDay_run loc _ _ Hc d (DateOf_valid _ _)). destruct (decide (inRange d)) as [Hr|Hr]; [|split; [by right|done]].
  destruct (isTradingDate d) eqn:Et.
  - pose proof (claimAndEnqueue_slot s an d TriggerManual (actorOrScheduler actor) w) as H. destruct (claimAndEnqueue _ _ _ _ _ w) as [w' r].
    destruct H as (H1 & H2 & _). split; [done|]. intros _. rewrite H2. by pose proof (DateOf_valid (sd_loc s) (an_now an)).
  - rewrite (PrevSession_run loc _ _ Hc d (DateOf_valid _ _) Hr). destruct (list.last (tradingBefore dates d)) as [x|] eqn:El; [|split; [by right|done]].
    pose proof (claimAndEnqueue_slot s an (ss_Date (sessionFor loc x)) TriggerManual (actorOrScheduler actor) w) as H.
    destruct (claimAndEnqueue _ _ _ _ _ w) as [w' r]. destruct H as (H1 & H2 & _). split; [done|]. intros _. rewrite H2.
    change (ss_Date (sessionFor loc x)) with x. apply last_Some_elem_of in El. unfold tradingBefore in El.
    rewrite list_elem_of_In, filter_In in El. destruct El as [Hin Ht]. apply andb_true_iff in Ht as [Ht _].
    pose proof (dates_valid loc _ _ Hc x Hin) as Hv. split; [done|]. split; [|done]. by apply (dates_range loc _ _ Hc x).
Qed.

Lemma runSchedOp_slot o (w : world) : let '(w', r) := runSchedOp cal o w in
  slotStep w w' r /\ (tr_Action r.1 = ActionEnqueued -> tradingDay (tr_Date r.1)).
Proof.
  destruct o as [s an trig|s an actor]; cbn [runSchedOp]; [|apply SyncNow_slot].
  pose proof (evaluate_slot s an trig w) as H. destruct (evaluate cal s an trig w) as [w' r]. destruct H as (H1 & H2 & _). split; [done|]. intros Ha.
  by destruct (H2 Ha) as (? & _).
Qed.

(** The days enqueued by a run are the days whose slots it took. *)
Lemma runSched_slots ops : forall w : world,
  let '(w', rs) := runSched cal ops w in
  base.NoDup (enqueuedDates rs) /\ (forall d, In d (enqueuedDates rs) -> ~ claimed w d /\ tradingDay d) /\
  (forall d, claimed w' d <-> claimed w d \/ In d (enqueuedDates rs)).
Proof.
  induction ops as [|o ops IH]; intros w; cbn [runSched].
  - split; [apply base.NoDup_nil_2|]. split; [done|]. intros d. cbn. tauto.
  - pose proof (runSchedOp_slot o w) as Ho. destruct (runSchedOp cal o w) as [w1 r]. destruct Ho as [Hs Ht].
    specialize (IH w1). destruct (runSched cal ops w1) as [w2 rs]. destruct IH as (I1 & I2 & I3).
    rewrite enqueuedDates_cons. unfold isEnqueued. destruct Hs as [(Ea & Hn & Hl)|(Ea & Hl)].
    + rewrite bool_decide_eq_true_2 by done. cbn [app].
      assert (Hc1 : forall d, claimed w1 d <-> claimed w d \/ d = tr_Date r.1).
      { intros d. unfold claimed. rewrite Hl, elem_of_union, elem_of_singleton. split; (intros [?|E]; [by left|right; congruence]). }
      splits.
      * apply list.NoDup_cons. split; [|done]. rewrite list_elem_of_In. intros Hin. destruct (I2 _ Hin) as [Hx _]. apply Hx, Hc1. by right.
      * intros d [<-|Hin]; [split; [done|by apply Ht]|]. destruct (I2 d Hin) as [Hx Hy]. split; [|done]. intros H. apply Hx, Hc1. by left.
      * intros d. rewrite I3, Hc1. cbn [In]. intuition congruence.
    + rewrite bool_decide_eq_false_2 by done. assert (Hc1 : forall d, claimed w1 d <-> claimed w d) by (intros d; unfold claimed; by rewrite Hl).
      splits; [done| |].
      * intros d Hin. destruct (I2 d Hin) as [Hx Hy]. split; [|done]. intros H. by apply Hx, Hc1.
      * intros d. rewrite I3, Hc1. done.
Qed.

(** Slots are never given back. *)
Lemma runSched_mono ops (w : world) d : claimed w d -> claimed (fst (runSched cal ops w)) d.
Proof.
  intros H. pose proof (runSched_slots ops w) as Hr. destruct (runSched cal ops w) as [w' rs]. destruct Hr as (_ & _ & Hcl). apply Hcl. by left.
Qed.

Lemma runSched_due ops : forall (w : world) i s an trig r,
  ops !! i = Some (OpEvaluate s an trig) -> (snd (runSched cal ops w)) !! i = Some r -> r.2 = None -> due s (an_now an) ->
  claimed (fst (runSched cal ops w)) (DateOf (sd_loc s) (an_now an)).
Proof.
  induction ops as [|o ops IH]; intros w i s an trig r Hi Hr He Hd; [by rewrite lookup_nil in Hi|]. cbn [runSched] in *.
  destruct i as [|i].
  - cbn in Hi. injection Hi as ->. cbn [runSchedOp] in *. pose proof (evaluate_slot s an trig w) as H.
    destruct (evaluate cal s an trig w) as [w1 r1]. destruct H as (_ & _ & H). pose proof (runSched_mono ops w1 (DateOf (sd_loc s) (an_now an))) as Hm.
    destruct (runSched cal ops w1) as [w2 rs]. cbn in Hr. injection Hr as ->. apply Hm, H; done.
  - cbn in Hi. destruct (runSchedOp cal o w) as [w1 r1]. specialize (IH w1 i s an trig r Hi). destruct (runSched cal ops w1) as [w2 rs].
    cbn in Hr. by apply IH.
Qed.
End Once.

(** ** The requests of a run *)

Section Requests.
Context {EL L EQ Q : Type} `{!Ledger EL L} `{!LedgerLaws EL L} `{!Enqueuer EQ Q} `{!EnqueuerLaws EQ Q}.
Context (loc : Location) (cal : Calendar) (dates : list Date) (Hc : covers loc cal dates).
#[local] Abbreviation world := (Shared (L := L) (Q := Q * list (QueueCall Q))).

Definition dataKey (d : Date) : string := "scheduler:data.refresh:" ++ dateText d.
Definition eodKey (d : Date) : string := "scheduler:eod.refresh:" ++ dateText d.
Definition callKey (c : QueueCall Q) : string := ep_DedupeKey (qc_params c).
Definition logOf (w : world) : list (QueueCall Q) := (sh_queue w).2.

(** The request was accepted and the queue then held an active job under its key. *)
Definition accepted (log : list (QueueCall Q)) (key : string) : Prop :=
  exists c, In c log /\ callKey c = key /\ qc_ok c = true /\ enq_active (qc_after c) key.

(** A request of the day's pipeline. *)
Definition pipelineCall (d : Date) (c : QueueCall Q) : Prop :=
  exists actor now, qc_params c = dataParams d actor \/ qc_params c = eodParams d now actor.

(** The requests of one evaluation. *)
Definition requestsOf (r : TickResult * option error) (new : list (QueueCall Q)) : Prop :=
  (tr_Action r.1 <> ActionEnqueued /\ new = []) \/
  (tr_Action r.1 = ActionEnqueued /\ Forall (pipelineCall (tr_Date r.1)) new /\
   (map callKey new = [dataKey (tr_Date r.1)] \/ map callKey new = [dataKey (tr_Date r.1); eodKey (tr_Date r.1)]) /\
   (r.2 = None -> accepted new (dataKey (tr_Date r.1)) /\ accepted new (eodKey (tr_Date r.1)))).

Lemma enqueuePipeline_requests e1 e2 d now actor (q : Q * list (QueueCall Q)) :
  let '(q', (pipe, err)) := enqueuePipeline e1 e2 d now actor q in
  exists new, q'.2 = q.2 ++ new /\ forall res, tr_Action res = ActionEnqueued -> tr_Date res = d -> requestsOf (res, err) new.
Proof.
  unfold enqueuePipeline, enq_Enqueue, logged_enqueuer. destruct (enq_Enqueue e1 (dataParams d actor) q.1) as [q1 [[j1 dd]|e]] eqn:E1; cbn [fst snd].
  - destruct (enq_Enqueue e2 (eodParams d now actor) q1) as [q2 r2] eqn:E2.
    assert (H : forall res err, tr_Action res = ActionEnqueued -> tr_Date res = d -> (err = None -> exists x, r2 = Ok x) ->
        requestsOf (res, err) [mkQueueCall (dataParams d actor) true q1; mkQueueCall (eodParams d now actor) (match r2 with Ok _ => true | Err _ => false end) q2]).
    { intros res err Ha Hd Hok. right. cbn [fst snd]. rewrite Hd. split; [done|]. split; [|split; [by right|]].
      - apply List.Forall_cons; [exists actor, now; by left|]. apply List.Forall_cons; [exists actor, now; by right|constructor].
      - intros He. destruct (Hok He) as [[j2 ed] ->]. split; eexists.
        + split; [by left|]. split; [done|]. split; [done|]. exact (enqueue_law e1 (dataParams d actor) _ _ _ _ ltac:(discriminate) E1).
        + split; [right; by left|]. split; [done|]. split; [done|]. exact (enqueue_law e2 (eodParams d now actor) _ _ _ _ ltac:(discriminate) E2). }
    destruct r2 as [[j2 ed]|e]; eexists; (split; [cbn [snd]; by rewrite <- app_assoc|]); intros res Ha Hd; apply H; try done; intros; by eexists.
  - eexists. split; [done|]. intros res Ha Hd. right. cbn [fst snd]. rewrite Hd. splits; try done; [|by left].
    apply List.Forall_cons; [exists actor, now; by left|constructor].
Qed.

Lemma claimAndEnqueue_requests s an d trig actor (w : world) :
  let '(w', r) := claimAndEnqueue s an d trig actor w in exists new, logOf w' = logOf w ++ new /\ requestsOf r new.
Proof.
  unfold claimAndEnqueue, logOf. destruct (led_Claim _ _ _ _ _ _) as [l [c|e]].
  - destruct (cl_Won c); cbn [negb].
    + pose proof (enqueuePipeline_requests (an_data an) (an_eod an) d (an_now an) actor (sh_queue w)) as H.
      destruct (enqueuePipeline _ _ _ _ _ _) as [q [pipe [e|]]]; destruct H as (new & El & Hr); exists new; (split; [exact El|]); by apply Hr.
    + exists []. split; [cbn; by rewrite app_nil_r|]. by left.
  - exists []. split; [cbn; by rewrite app_nil_r|]. by left.
Qed.

Lemma runSchedOp_requests o (w : world) : let '(w', r) := runSchedOp cal o w in exists new, logOf w' = logOf w ++ new /\ requestsOf r new.
Proof.
  assert (Hnone : forall r : TickResult * option error, tr_Action r.1 <> ActionEnqueued -> exists new, logOf w = logOf w ++ new /\ requestsOf r new).
  { intros r Hr. exists []. split; [by rewrite app_nil_r|by left]. }
  destruct o as [s an trig|s an actor]; cbn [runSchedOp].
  - unfold evaluate. destruct (tradingDate cal s (an_now an)) as [d [[|]|e]]; [|by apply Hnone|by apply Hnone; destruct (isOutOfRange e)].
    destruct (Before _ _); [by apply Hnone|]. apply claimAndEnqueue_requests.
  - unfold SyncNow. destruct (IsTradingDay _ _) as [[|]|e]; [apply claimAndEnqueue_requests| |by apply Hnone].
    destruct (PrevSession _ _); [apply claimAndEnqueue_requests|by apply Hnone].
Qed.

Lemma dateText_inj d1 d2 : tradingDay d1 -> tradingDay d2 -> dateText d1 = dateText d2 -> d1 = d2.
Proof.
  intros (V1 & R1 & _) (V2 & R2 & _) E. unfold inRange in *. unfold dateText in E. apply (f_equal list_ascii_of_string) in E. rewrite !list_ascii_of_string_of_list_ascii in E.
  assert (P1 : ParseDate (DateString d1) = Ok d1) by (apply ParseDate_String; [done|revert R1; unfold MinYear, MaxYear; lia]).
  assert (P2 : ParseDate (DateString d2) = Ok d2) by (apply ParseDate_String; [done|revert R2; unfold MinYear, MaxYear; lia]). congruence.
Qed.

Lemma pipelineCall_key d c : pipelineCall d c -> callKey c = dataKey d \/ callKey c = eodKey d.
Proof. unfold callKey. intros (a & t & [->| ->]); [by left|by right]. Qed.

Lemma keys_inj d1 d2 x : tradingDay d1 -> tradingDay d2 -> x = dataKey d1 \/ x = eodKey d1 -> x = dataKey d2 \/ x = eodKey d2 -> d1 = d2.
Proof.
  intros T1 T2 H1 H2. apply dateText_inj; [done|done|]. unfold dataKey, eodKey in *.
  destruct H1 as [->| ->], H2 as [H|H]; [by apply (inj _) in H|discriminate H|discriminate H|by apply (inj _) in H].
Qed.

Lemma keys_differ d : dataKey d <> eodKey d.
Proof. done. Qed.

Lemma accepted_app log1 log2 key : accepted log1 key \/ accepted log2 key -> accepted (log1 ++ log2) key.
Proof. intros [(c & Hin & H)|(c & Hin & H)]; exists c; (split; [apply in_or_app; tauto|done]). Qed.

Lemma runSched_requests ops : forall w : world,
  let '(w', rs) := runSched cal ops w in
  exists new, logOf w' = logOf w ++ new /\
    List.NoDup (map callKey new) /\
    (forall c, In c new -> exists d, In d (enqueuedDates rs) /\ pipelineCall d c) /\
    (forall i r, rs !! i = Some r -> tr_Action r.1 = ActionEnqueued -> r.2 = None -> accepted new (dataKey (tr_Date r.1)) /\ accepted new (eodKey (tr_Date r.1))).
Proof.
  induction ops as [|o ops IH]; intros w.
  { cbn [runSched]. exists []. splits; [by rewrite app_nil_r|constructor|done|]. intros i r Hr. by rewrite lookup_nil in Hr. }
  pose proof (runSched_slots loc cal dates Hc (o :: ops) w) as Hs. cbn [runSched] in *. pose proof (runSchedOp_requests o w) as Ho.
  destruct (runSchedOp cal o w) as [w1 r]. destruct Ho as (new & El & Hn). specialize (IH w1). destruct (runSched cal ops w1) as [w2 rs].
  destruct IH as (new2 & El2 & I1 & I2 & I3). destruct Hs as (Hnd & Htr & _). rewrite enqueuedDates_cons in *. exists (new ++ new2).
  split; [by rewrite El2, El, app_assoc|]. destruct Hn as [[Ha ->]|(Ha & Hcalls & Hkeys & Hok)].
  - unfold isEnqueued in *. rewrite bool_decide_eq_false_2 in * by done. cbn [app] in *. splits; [done|done|].
    intros [|i] r' Hi; [cbn in Hi; by injection Hi as <-|by apply (I3 i)].
  - unfold isEnqueued in *. rewrite bool_decide_eq_true_2 in * by done. cbn [app] in *. apply list.NoDup_cons in Hnd as [Hnotin _].
    rewrite list_elem_of_In in Hnotin. splits.
    + rewrite map_app. apply List.NoDup_app; [|done|].
      * destruct Hkeys as [->| ->]; repeat constructor; cbn; [tauto| |tauto]. intros [E|[]]; by apply (keys_differ (tr_Date r.1)).
      * intros x Hx Hy. apply in_map_iff in Hx as (c & <- & Hc1). apply in_map_iff in Hy as (c2 & Ek & Hc2). destruct (I2 c2 Hc2) as (d & Hd & Hp).
        rewrite Forall_forall in Hcalls. specialize (Hcalls c Hc1).
        apply Hnotin. rewrite (keys_inj (tr_Date r.1) d (callKey c)); [done|apply Htr; by left|apply Htr; by right|by apply pipelineCall_key|].
        rewrite <- Ek. by apply pipelineCall_key.
    + intros c Hin. apply in_app_or in Hin as [Hin|Hin].
      * exists (tr_Date r.1). split; [by left|]. rewrite Forall_forall in Hcalls. by apply Hcalls.
      * destruct (I2 c Hin) as (d & Hd & Hp). exists d. split; [by right|done].
    + intros [|i] r' Hi Ha' He.
      * cbn in Hi. injection Hi as <-. destruct (Hok He). split; apply accepted_app; by left.
      * destruct (I3 i r' Hi Ha' He). split; apply accepted_app; by right.
Qed.

(** The evaluation that took the slot of a day that a tick finds taken. *)
Lemma runSched_due_taken ops : forall (w : world) i s an trig r,
  ops !! i = Some (OpEvaluate s an trig) -> snd (runSched cal ops w) !! i = Some r -> r.2 = None -> due s (an_now an) ->
  ~ claimed w (DateOf (sd_loc s) (an_now an)) ->
  exists k rk, (k <= i)%nat /\ snd (runSched cal ops w) !! k = Some rk /\ tr_Action rk.1 = ActionEnqueued /\ tr_Date rk.1 = DateOf (sd_loc s) (an_now an).
Proof.
  induction ops as [|o ops IH]; intros w i s an trig r Hi Hr He Hd Hn; [by rewrite lookup_nil in Hi|]. cbn [runSched] in *.
  pose proof (runSchedOp_slot loc cal dates Hc o w) as Hs. pose proof (evaluate_slot loc cal dates Hc s an trig w) as Hev.
  destruct i as [|i].
  - cbn in Hi. injection Hi as ->. cbn [runSchedOp] in *. destruct (evaluate cal s an trig w) as [w1 r1]. destruct (runSched cal ops w1) as [w2 rs].
    cbn in Hr. injection Hr as ->. destruct Hev as (_ & _ & Hcl). specialize (Hcl Hd He). exists 0%nat, r. cbn.
    destruct Hs as [[(Ha & _ & Hl)|(Ha & Hl)] _]; unfold claimed in *; rewrite Hl in Hcl; [|done].
    splits; [done|done|done|]. apply elem_of_union in Hcl as [?|Hcl]; [done|]. apply elem_of_singleton in Hcl. congruence.
  - cbn in Hi. destruct (runSchedOp cal o w) as [w1 r1]. destruct (decide ((PipelineDaily, DateOf (sd_loc s) (an_now an)) ∈ led_slots (sh_ledger w1))) as [Hin|Hin].
    + exists 0%nat, r1. destruct (runSched cal ops w1) as [w2 rs]. cbn. destruct Hs as [[(Ha & _ & Hl)|(Ha & Hl)] _]; unfold claimed in *; rewrite Hl in Hin; [|done].
      splits; [lia|done|done|]. apply elem_of_union in Hin as [?|Hin]; [done|]. apply elem_of_singleton in Hin. congruence.
    + specialize (IH w1 i s an trig r Hi). destruct (runSched cal ops w1) as [w2 rs]. cbn in Hr.
      destruct (IH Hr He Hd Hin) as (k & rk & Hk & H). exists (S k), rk. split; [lia|done].
Qed.
End Requests.

(** ** Properties *)


(** ** The pipeline on the job queue *)

(** Clients that do not interfere, and one clock. *)
Definition quietQueue (now : Z) : (nat -> Z) * (nat -> DB -> DB) * option error := ((fun _ => now), (fun _ d => d), None).

Lemma Enqueue_fresh q now p payload d : ep_Kind p <> "" -> marshalObject (ep_Payload p) = Ok payload ->
  (forall k, nullIfEmpty (ep_DedupeKey p) = Some k -> activeWithKey k d = []) ->
  exists d', Jobs.Enqueue q (fun _ => now) (fun _ d => d) p d = (d', Ok (insertedRow now p payload d, false)) /\
    d_jobs d' = <[d_nextID d := insertedRow now p payload d]> (d_jobs d) /\ d_nextID d' = d_nextID d + 1.
Proof.
  intros Hk Hp Hfree. unfold Jobs.Enqueue. destruct (String.eqb_spec (ep_Kind p) ""); [done|]. unfold eff_bind at 1, eff_lift. rewrite Hp.
  unfold dedupeRaces. cbn [enqueueLoop]. unfold eff_bind at 1, eff_modify at 1. unfold eff_bind at 1.
  pose proof (tryInsert_run now p payload d) as Hr. cbv zeta in Hr. destruct (tryInsert now p payload _ _ _ d) as [d1 r].
  destruct Hr as [(_ & _ & k & Ek & Hne)|(-> & _ & Hj & Hn)]; [by destruct Hne; apply Hfree|].
  unfold eff_bind, eff_modify, eff_ret. eexists. split; [done|]. unfold notify. by destruct (q_notifier q).
Qed.

(** The two jobs of a day's pipeline run in order.  Enqueued on a queue that has
    no active job under the day's keys, they are two new queued rows; until ten
    minutes have passed the end-of-day job is not claimable, and afterwards a worker
    that claims takes the data refresh before it. *)
Theorem pipeline_jobs_in_order (q : Queue) (now : time) (date : Date) (actor : string) (d : DB)
    (Hdata : activeWithKey ("scheduler:data.refresh:" ++ dateText date) d = [])
    (Heod : activeWithKey ("scheduler:eod.refresh:" ++ dateText date) d = []) (Hids : idsOk d)
    (Hnext : forall i j, d_jobs d !! i = Some j -> i < d_nextID d) :
  exists d' data eod,
    enqueuePipeline (Enqueuer0 := Queue_enqueuer q) (quietQueue (t_ns now)) (quietQueue (t_ns now)) date now actor d =
      (d', (mkPipeline (j_ID data) (j_ID eod) false false, None)) /\
    d_jobs d' = <[j_ID eod := eod]> (<[j_ID data := data]> (d_jobs d)) /\
    d_jobs d !! j_ID data = None /\ d_jobs d !! j_ID eod = None /\ j_ID data <> j_ID eod /\
    j_Kind data = KindDataRefresh /\ j_Kind eod = KindEODRefresh /\
    (forall t, t_ns now <= t -> data ∈ claimQueue t ∅ d' /\ (eod ∈ claimQueue t ∅ d' <-> t_ns now + 600 * second <= t)) /\
    claimLe data eod /\ ~ claimLe eod data.
Proof.
  set (p1 := dataParams date actor). set (p2 := eodParams date now actor).
  destruct (Enqueue_fresh q (t_ns now) p1 _ d ltac:(done) eq_refl) as (d1 & E1 & J1 & N1); [by intros k [= <-]|].
  set (data := insertedRow (t_ns now) p1 _ d) in *.
  assert (Hfree2 : forall k, nullIfEmpty (ep_DedupeKey p2) = Some k -> activeWithKey k d1 = []).
  { intros k [= <-]. apply elem_of_nil_inv. intros x Hx. apply activeWithKey_in in Hx as [(i & Hi) [Ha Hk]]. rewrite J1 in Hi.
    apply lookup_insert_Some in Hi as [[_ <-]|[_ Hi]]; [cbn in Hk; by injection Hk|].
    assert (Hin : x ∈ activeWithKey ("scheduler:eod.refresh:" ++ dateText date) d) by (apply activeWithKey_in; split; [by exists i|done]).
    rewrite Heod in Hin. by apply elem_of_nil in Hin. }
  destruct (Enqueue_fresh q (t_ns now) p2 _ d1 ltac:(done) eq_refl Hfree2) as (d2 & E2 & J2 & N2). set (eod := insertedRow (t_ns now) p2 _ d1) in *.
  exists d2, data, eod. assert (Hd : j_ID data = d_nextID d) by done. assert (He : j_ID eod = d_nextID d + 1) by (by rewrite <- N1).
  assert (Hn1 : d_jobs d !! j_ID data = None) by (rewrite Hd; destruct (d_jobs d !! d_nextID d) eqn:E; [apply Hnext in E; lia|done]).
  assert (Hn2 : d_jobs d !! j_ID eod = None) by (rewrite He; destruct (d_jobs d !! (d_nextID d + 1)) eqn:E; [apply Hnext in E; lia|done]).
  assert (Hj : d_jobs d2 = <[j_ID eod := eod]> (<[j_ID data := data]> (d_jobs d))) by (by rewrite J2, J1).
  assert (Hi2 : idsOk d2).
  { unfold idsOk. rewrite Hj. intros i x Hx. apply lookup_insert_Some in Hx as [[<- <-]|[_ Hx]]; [done|].
    apply lookup_insert_Some in Hx as [[<- <-]|[_ Hx]]; [done|by apply Hids]. }
  splits; try done.
  - unfold enqueuePipeline, enq_Enqueue, Queue_enqueuer. cbn [quietQueue fst snd]. fold p1. rewrite E1. fold p2. by rewrite E2.
  - rewrite Hd, He. lia.
  - intros t Ht. rewrite !claimQueue_in, Hj by done. rewrite lookup_insert_eq, (lookup_insert_ne _ (j_ID eod)), lookup_insert_eq by (rewrite Hd, He; lia).
    change (j_RunAt data) with (t_ns now). change (j_RunAt eod) with (t_ns now + 600 * second).
    split; [splits; [done|done|done|set_solver]|]. split; [intros (_ & _ & H & _); exact H|]. intros H. splits; [done|done|done|set_solver].
  - left. done.
  - intros [H|[H _]]; cbn in H; unfold dataRefreshPriority in H; lia.
Qed.

(** ** Witnesses *)

Definition demoTick (t : Z) (broken : option error) : Answers (EL := option error) (EQ := (nat -> Z) * (nat -> DB -> DB) * option error) :=
  mkAnswers (mkTime t 0) None None ((fun _ => t), (fun _ d => d), broken) (quietQueue t).

(** Monday 2024-03-04, 19:00 UTC. *)
Definition demoEvening : Z := 1709578800 * second.

Definition demoScheduler (name : string) : Scheduler := mkScheduler DefaultDailyAt UTCLocation true name.
Definition freshShared : Shared (L := PGLedger) (Q := DB * list (QueueCall DB)) := mkShared (mkPGLedger [] 1) (emptyDB, []).

(** Two processes tick on the same evening and the operator forces a third run. *)
Definition demoRaces : list (schedOp (EL := option error) (EQ := (nat -> Z) * (nat -> DB -> DB) * option error)) :=
  [OpEvaluate (demoScheduler "a") (demoTick demoEvening None) TriggerCatchup;
   OpEvaluate (demoScheduler "b") (demoTick demoEvening None) TriggerScheduled;
   OpSyncNow (demoScheduler "c") (demoTick (demoEvening + 60 * second) None) ["j"; "c"]%char].

Lemma demo_due name : due (demoScheduler name) (mkTime demoEvening 0).
Proof. unfold due. change (DateOf _ _) with (mkDate 2024 3 4). splits; [done|by vm_compute|by vm_compute]. Qed.


Lemma pipeline_jobs_in_order_witness : exists d' data eod,
  enqueuePipeline (Enqueuer0 := Queue_enqueuer (NewQueue true)) (quietQueue demoEvening) (quietQueue demoEvening) (mkDate 2024 3 4) (mkTime demoEvening 0)
    "scheduler" emptyDB = (d', (mkPipeline (j_ID data) (j_ID eod) false false, None)) /\
  data ∈ claimQueue (demoEvening + 60 * second) ∅ d' /\ ~ eod ∈ claimQueue (demoEvening + 60 * second) ∅ d'.
Proof.
  destruct (pipeline_jobs_in_order (NewQueue true) (mkTime demoEvening 0) (mkDate 2024 3 4) "scheduler" emptyDB eq_refl eq_refl)
    as (d' & data & eod & E & _ & _ & _ & _ & _ & _ & H & _).
  - intros i j Hi. discriminate Hi.
  - intros i j Hi. discriminate Hi.
  - exists d', data, eod. split; [exact E|]. destruct (H (demoEvening + 60 * second)) as [H1 H2]; [by vm_compute|].
    split; [exact H1|]. intros Hx. apply H2 in Hx. vm_compute in Hx. by destruct Hx.
Defined.

(** ** Configuration *)

Definition timesOfDay : list TimeOfDay :=
  List.concat (map (fun h => map (mkTimeOfDay h) (map Z.of_nat (seq 0 60))) (map Z.of_nat (seq 0 24))).

Lemma timesOfDay_all t : 0 <= tod_Hour t < 24 -> 0 <= tod_Minute t < 60 -> In t timesOfDay.
Proof.
  destruct t as [h m]. intros Hh Hm. cbn [tod_Hour tod_Minute] in *. unfold timesOfDay. apply in_concat.
  exists (map (mkTimeOfDay h) (map Z.of_nat (seq 0 60))). split.
  - apply in_map_iff. exists h. split; [done|]. apply in_map_iff. exists (Z.to_nat h). split; [lia|]. apply in_seq. lia.
  - apply in_map, in_map_iff. exists (Z.to_nat m). split; [lia|]. apply in_seq. lia.
Qed.

(** The configured time prints and parses back. *)
Lemma TimeOfDay_roundtrip t : 0 <= tod_Hour t < 24 -> 0 <= tod_Minute t < 60 -> ParseTimeOfDay (TimeOfDay_String t) = Ok t.
Proof.
  intros Hh Hm. pose proof (timesOfDay_all t Hh Hm) as Hin. revert Hin.
  assert (Hall : forallb (fun t => match ParseTimeOfDay (TimeOfDay_String t) with Ok u => bool_decide (u = t) | Err _ => false end) timesOfDay = true)
    by (vm_compute; reflexivity).
  rewrite forallb_forall in Hall. intros Hin. specialize (Hall t Hin). destruct (ParseTimeOfDay (TimeOfDay_String t)) as [u|]; [|done].
  by apply bool_decide_eq_true in Hall as ->.
Qed.

(** A configured midnight is read as the default, half past six in the evening. *)
Lemma midnight_becomes_default cal loc catchup who :
  ParseTimeOfDay ["0"; "0"; ":"; "0"; "0"]%char = Ok (mkTimeOfDay 0 0) /\
  sd_dailyAt (NewScheduler cal (mkTimeOfDay 0 0) loc catchup who) = mkTimeOfDay 18 30.
Proof. done. Qed.

(** ** A claimed day stays claimed *)

Section Lost.
Context {EL L EQ Q : Type} `{!Ledger EL L} `{!LedgerLaws EL L} `{!Enqueuer EQ Q}.

Lemma claimed_is_never_enqueued s an d trig actor (w : Shared (L := L) (Q := Q)) : claimed w d ->
  let '(w', r) := claimAndEnqueue s an d trig actor w in
  sh_queue w' = sh_queue w /\ tr_Action r.1 <> ActionEnqueued /\ (r.2 = None -> tr_Action r.1 = ActionAlreadyDone).
Proof.
  unfold claimAndEnqueue, claimed. intros Hin. pose proof (claim_law (an_claim an) PipelineDaily d (sd_instance s) trig (sh_ledger w)) as Hcl.
  destruct (led_Claim _ _ _ _ _ _) as [l [c|e]]; [|done]. destruct Hcl as [-> _]. by rewrite bool_decide_eq_true_2.
Qed.

(** A tick whose first enqueue fails has used the day's slot and enqueued nothing;
    the loop logs that it retries, and the code names the manual sync as the remedy,
    but neither a later tick nor a manual sync for the day enqueues anything. *)
Lemma failed_enqueue_loses_day s an d trig e (w w1 : Shared (L := L) (Q := Q)) r :
  (forall q, enq_Enqueue (an_data an) (dataParams d "scheduler") q = (q, Err e)) -> ~ claimed w d ->
  claimAndEnqueue s an d trig "scheduler" w = (w1, r) -> tr_Action r.1 = ActionEnqueued ->
  r.2 = Some e /\ sh_queue w1 = sh_queue w /\
  forall s' an' trig' actor, let '(w2, r') := claimAndEnqueue s' an' d trig' actor w1 in
    sh_queue w2 = sh_queue w /\ (r'.2 = None -> tr_Action r'.1 = ActionAlreadyDone).
Proof.
  intros Hbad Hn E Ha.
  assert (H : r.2 = Some e /\ sh_queue w1 = sh_queue w /\ claimed w1 d).
  { revert E. unfold claimAndEnqueue. pose proof (claim_law (an_claim an) PipelineDaily d (sd_instance s) trig (sh_ledger w)) as Hcl.
    destruct (led_Claim _ _ _ _ _ _) as [l [c|e']]; [|by intros [= <- <-]]. destruct Hcl as [Hw Hs].
    destruct (cl_Won c); cbn [negb]; [|by intros [= <- <-]]. unfold enqueuePipeline. rewrite Hbad. intros [= <- <-].
    splits; [done|done|]. unfold claimed. cbn. rewrite Hs. set_solver. }
  destruct H as (H1 & H2 & H3). splits; [done|done|]. intros s' an' trig' actor.
  pose proof (claimed_is_never_enqueued s' an' d trig' actor w1 H3) as H. destruct (claimAndEnqueue s' an' d trig' actor w1) as [w2 r'].
  destruct H as (Hq & _ & Hd). by rewrite <- H2.
Qed.
End Lost.
