(* ===== verification/Indicators.v ===== *)
(** * Indicators (src/internal/indicators)

    The numerical primitives of the strategies: rolling windows in batch and in
    streaming form, moving averages, swing points, the volatility contraction base,
    the trend template and the stage classifier, the trade plan and the statistics
    of the pairs strategy.  Prices and volumes are the floats of [Float64], NaN and
    infinities included, in the source's order of operations, so that equalities
    here are equalities of bits.  A slice is a list, oldest first; a window is a
    positive number of samples, on others the code panics. *)

From Stdlib Require Import SpecFloat.
From stdpp Require Import gmap strings list sorting.
From S2P Require Import Prelude Lists Fixed Money Float64.
Set Default Goal Selector "!".
#[local] Open Scope string_scope.
#[local] Open Scope Z_scope.
#[local] Open Scope list_scope.
#[local] Abbreviation length := List.length.
#[local] Abbreviation floats := (list float64).

Definition NaN : float64 := fNaN.
Definition at_ (x : floats) (i : nat) : float64 := nth i x NaN.
Definition ofNat (n : nat) : float64 := zToFloat (Z.of_nat n).

(** The last [n] samples. *)
Definition lastn {A} (n : nat) (x : list A) : list A := skipn (length x - n) x.

(** ** Rolling windows in batch (rolling.go) *)

(** A sum that stops at the first NaN: [None]. *)
Fixpoint sumLoop (acc : float64) (x : floats) : option float64 :=
  match x with
  | [] => Some acc
  | v :: x => if isNaN v then None else sumLoop (fadd acc v) x
  end.

(** Samples [i - w + 1 .. i]. *)
Definition window (x : floats) (w i : nat) : floats := lastn w (firstn (S i) x).

(** NaN where the window is not full, [f] of the window elsewhere. *)
Definition rolling (f : floats -> float64) (x : floats) (w : nat) : floats :=
  map (fun i => if (S i <? w)%nat then NaN else f (window x w i)) (seq 0 (length x)).

Definition meanWindow (w : nat) (seg : floats) : float64 :=
  match sumLoop fzero seg with Some s => fdiv s (ofNat w) | None => NaN end.
Definition SMA (x : floats) (w : nat) : floats := rolling (meanWindow w) x w.

Definition sumWindow (seg : floats) : float64 := match sumLoop fzero seg with Some s => s | None => NaN end.
Definition RollingSum (x : floats) (w : nat) : floats := rolling sumWindow x w.

(** The sum of squared deviations. *)
Definition squaresLoop (mean : float64) (seg : floats) : float64 :=
  fold_left (fun ss v => let d := fsub v mean in fadd ss (fmul d d)) seg fzero.

Definition stdWindow (w : nat) (ddof : Z) (seg : floats) : float64 :=
  let denom := zToFloat (Z.of_nat w - ddof) in
  match sumLoop fzero seg with
  | None => NaN
  | Some s => if fleb denom fzero then NaN else fsqrt (fdiv (squaresLoop (fdiv s (ofNat w)) seg) denom)
  end.
Definition RollingStd (x : floats) (w : nat) (ddof : Z) : floats := rolling (stdWindow w ddof) x w.

(** The leftmost extremum; [None] on a NaN. *)
Fixpoint extLoop (wantMax : bool) (ext : float64) (x : floats) : option float64 :=
  match x with
  | [] => Some ext
  | v :: x =>
      if isNaN v then None
      else extLoop wantMax (if (if wantMax then fgtb v ext else fltb v ext) then v else ext) x
  end.
Definition extWindow (wantMax : bool) (seg : floats) : float64 :=
  match seg with
  | [] => fzero
  | v :: seg => if isNaN v then NaN else match extLoop wantMax v seg with Some e => e | None => NaN end
  end.
Definition rollingExtremum (x : floats) (w : nat) (wantMax : bool) : floats := rolling (extWindow wantMax) x w.
Definition RollingMax (x : floats) (w : nat) : floats := rollingExtremum x w true.
Definition RollingMin (x : floats) (w : nat) : floats := rollingExtremum x w false.

(** Extrema and mean that skip NaN. *)
Definition maxStep (out v : float64) : float64 := if isNaN v then out else if isNaN out || fgtb v out then v else out.
Definition Max (x : floats) : float64 := fold_left maxStep x NaN.
Definition minStep (out v : float64) : float64 := if isNaN v then out else if isNaN out || fltb v out then v else out.
Definition Min (x : floats) : float64 := fold_left minStep x NaN.
Definition meanStep (a : float64 * nat) (v : float64) : float64 * nat := if isNaN v then a else (fadd a.1 v, S a.2).
Definition Mean (x : floats) : float64 :=
  let '(sum, n) := fold_left meanStep x (fzero, 0%nat) in
  if (n =? 0)%nat then NaN else fdiv sum (ofNat n).

(** ** Rolling windows as streams (incremental.go) *)

Record RollingSMA : Set := mkSMA { sm_window : nat; sm_buf : floats; sm_idx : nat; sm_count : nat; sm_sum : float64; sm_nans : Z }.

Definition NewRollingSMA (w : nat) : RollingSMA := mkSMA w (repeat fzero w) 0 0 fzero 0.

Definition nanOne (v : float64) : Z := if isNaN v then 1 else 0.

Definition SMA_Value (r : RollingSMA) : float64 :=
  if (sm_count r <? sm_window r)%nat || (0 <? sm_nans r) then NaN else fdiv (sm_sum r) (ofNat (sm_window r)).

Definition SMA_Update (v : float64) (r : RollingSMA) : RollingSMA * float64 :=
  let full := (sm_count r =? sm_window r)%nat in
  let old := at_ (sm_buf r) (sm_idx r) in
  let '(sum, nans) :=
    if full then if isNaN old then (sm_sum r, sm_nans r - 1) else (fsub (sm_sum r) old, sm_nans r) else (sm_sum r, sm_nans r) in
  let '(sum, nans) := if isNaN v then (sum, nans + 1) else (fadd sum v, nans) in
  let r := mkSMA (sm_window r) (<[sm_idx r := v]> (sm_buf r)) ((sm_idx r + 1) mod sm_window r)
             (if full then sm_count r else S (sm_count r)) sum nans in
  (r, SMA_Value r).

Record RollingStdAcc : Set := mkStd { st_window : nat; st_ddof : Z; st_buf : floats; st_idx : nat; st_count : nat; st_nans : Z }.

Definition NewRollingStd (w : nat) (ddof : Z) : RollingStdAcc := mkStd w ddof (repeat fzero w) 0 0 0.

(** The samples of the ring, oldest first. *)
Definition chronological (buf : floats) (idx w : nat) : floats := map (fun k => at_ buf ((idx + k) mod w)) (seq 0 w).

Definition Std_Value (r : RollingStdAcc) : float64 :=
  let w := st_window r in
  let denom := zToFloat (Z.of_nat w - st_ddof r) in
  if (st_count r <? w)%nat || (0 <? st_nans r) || fleb denom fzero then NaN
  else
    let seg := chronological (st_buf r) (st_idx r) w in
    let mean := fdiv (fold_left fadd seg fzero) (ofNat w) in
    fsqrt (fdiv (squaresLoop mean seg) denom).

Definition Std_Update (v : float64) (r : RollingStdAcc) : RollingStdAcc * float64 :=
  let full := (st_count r =? st_window r)%nat in
  let nans := if full then st_nans r - nanOne (at_ (st_buf r) (st_idx r)) else st_nans r in
  let r := mkStd (st_window r) (st_ddof r) (<[st_idx r := v]> (st_buf r)) ((st_idx r + 1) mod st_window r)
             (if full then st_count r else S (st_count r)) (nans + nanOne v) in
  (r, Std_Value r).

(** The monotonic deque of sample indices. *)
Record monoDeque : Set := mkDeque { md_window : nat; md_buf : floats; md_count : nat; md_dq : list nat; md_wantMax : bool; md_nans : Z }.

Definition newMonoDeque (w : nat) (wantMax : bool) : monoDeque := mkDeque w (repeat fzero w) 0 [] wantMax 0.

Fixpoint evict (lo : Z) (dq : list nat) : list nat :=
  match dq with
  | i :: rest => if Z.of_nat i <? lo then evict lo rest else dq
  | [] => []
  end.

(** Drops from the back of the deque, given back first. *)
Fixpoint popBack (wantMax : bool) (buf : floats) (w : nat) (v : float64) (rdq : list nat) : list nat :=
  match rdq with
  | [] => []
  | back :: rest =>
      let backVal := at_ buf (back mod w) in
      if isNaN backVal then popBack wantMax buf w v rest
      else if (if wantMax then fleb backVal v else fgeb backVal v) then popBack wantMax buf w v rest
      else rdq
  end.

Definition md_update (v : float64) (m : monoDeque) : monoDeque * float64 :=
  let w := md_window m in
  let cur := md_count m in
  let count := S cur in
  let slot := (cur mod w)%nat in
  let nans := (if (w <? count)%nat then md_nans m - nanOne (at_ (md_buf m) slot) else md_nans m) + nanOne v in
  let buf := <[slot := v]> (md_buf m) in
  let dq := evict (Z.of_nat cur - Z.of_nat w + 1) (md_dq m) in
  let dq := if isNaN v then dq else rev (popBack (md_wantMax m) buf w v (rev dq)) ++ [cur] in
  let m := mkDeque w buf count dq (md_wantMax m) nans in
  (m, if (count <? w)%nat || (0 <? nans) then NaN else match dq with [] => NaN | i :: _ => at_ buf (i mod w) end).

Definition NewRollingMax (w : nat) : monoDeque := newMonoDeque w true.
Definition NewRollingMin (w : nat) : monoDeque := newMonoDeque w false.

(** A stream of samples through an accumulator, with the values it returned. *)
Fixpoint feed {S : Type} (update : float64 -> S -> S * float64) (s : S) (x : floats) : S * floats :=
  match x with
  | [] => (s, [])
  | v :: x => let '(s, y) := update v s in let '(s, ys) := feed update s x in (s, y :: ys)
  end.

(** ** Windows and rings *)

Lemma length_lastn {A} n (x : list A) : length (lastn n x) = (n `min` length x)%nat.
Proof. unfold lastn. rewrite length_skipn. lia. Qed.

Lemma lastn_all {A} n (x : list A) : (length x <= n)%nat -> lastn n x = x.
Proof. intros H. unfold lastn. by replace (length x - n)%nat with 0%nat by lia. Qed.

Lemma lastn_snoc {A} n (x : list A) v : (0 < n)%nat -> lastn n (x ++ [v]) = lastn (n - 1) x ++ [v].
Proof.
  intros Hn. unfold lastn. rewrite length_app. cbn [List.length]. rewrite skipn_app.
  replace (length x + 1 - n - length x)%nat with 0%nat by lia. by replace (length x + 1 - n)%nat with (length x - (n - 1))%nat by lia.
Qed.

Lemma lastn_cons (n : nat) (x : floats) : (0 < n <= length x)%nat -> lastn n x = at_ x (length x - n) :: lastn (n - 1) x.
Proof.
  intros Hn. unfold lastn. replace (length x - (n - 1))%nat with (S (length x - n)) by lia.
  generalize (length x - n)%nat (ltac:(lia) : (length x - n < length x)%nat). clear Hn. intros k. revert x.
  induction k as [|k IH]; intros [|v x] Hk; cbn [List.length] in Hk; try lia; [done|]. cbn [skipn]. unfold at_. cbn [nth]. apply IH. lia.
Qed.

Lemma lastn_lastn {A} m n (x : list A) : (m <= n)%nat -> lastn m (lastn n x) = lastn m x.
Proof. intros H. unfold lastn at 1 3. rewrite length_lastn. unfold lastn. rewrite skipn_skipn. f_equal. lia. Qed.

Lemma at_lastn n (x : floats) k : (k < n <= length x)%nat -> at_ (lastn n x) k = at_ x (length x - n + k).
Proof. intros H. unfold at_, lastn. apply nth_skipn. Qed.

Lemma nth_at x i (v : float64) : x !! i = Some v -> at_ x i = v.
Proof. intros H. unfold at_. rewrite nth_lookup, H. done. Qed.

Lemma at_insert (x : floats) i j v : (i < length x)%nat -> at_ (<[i := v]> x) j = if decide (i = j) then v else at_ x j.
Proof.
  intros H. unfold at_. rewrite !nth_lookup. destruct (decide (i = j)) as [->|Hn].
  - by rewrite list_lookup_insert_eq by done.
  - by rewrite list_lookup_insert_ne.
Qed.

Lemma at_snoc (x : floats) v j : at_ (x ++ [v]) j = if decide (j = length x) then v else at_ x j.
Proof.
  unfold at_. destruct (decide (j = length x)) as [->|Hn]; [by rewrite app_nth2, Nat.sub_diag by lia|].
  destruct (decide (j < length x)%nat); [by rewrite app_nth1|]. rewrite !nth_overflow; [done|lia|rewrite length_app; cbn; lia].
Qed.

(** Slot [j mod w] of the ring holds sample [j], for the last [w] samples. *)
Definition ringOk (buf : floats) (w : nat) (xs : floats) : Prop :=
  length buf = w /\ forall j, (length xs <= j + w)%nat -> (j < length xs)%nat -> at_ buf (j mod w) = at_ xs j.

Lemma mod_ne a b w : (a < b)%nat -> (b < a + w)%nat -> (a mod w <> b mod w)%nat.
Proof.
  intros H1 H2 E. pose proof (Nat.div_mod_eq a w). pose proof (Nat.div_mod_eq b w). rewrite E in *.
  assert (a / w < b / w)%nat by nia. nia.
Qed.

Lemma ring_push buf w xs v : (0 < w)%nat -> ringOk buf w xs -> ringOk (<[(length xs mod w)%nat := v]> buf) w (xs ++ [v]).
Proof.
  intros Hw [Hl Hr]. split; [by rewrite length_insert|]. intros j H1 H2. rewrite length_app in H1, H2. cbn [List.length] in H1, H2.
  rewrite at_insert by (rewrite Hl; apply Nat.mod_upper_bound; lia). rewrite at_snoc. destruct (decide (j = length xs)) as [->|Hn].
  - by rewrite decide_True.
  - rewrite decide_False; [apply Hr; lia|]. intros E. symmetry in E. revert E. apply mod_ne; lia.
Qed.

Lemma ring_init w : ringOk (repeat fzero w) w [].
Proof. split; [apply repeat_length|]. cbn. lia. Qed.

(** The number of NaN samples. *)
Fixpoint nansOf (x : floats) : Z := match x with [] => 0 | v :: x => nanOne v + nansOf x end.

Lemma nansOf_app x y : nansOf (x ++ y) = nansOf x + nansOf y.
Proof. induction x as [|v x IH]; cbn; [done|]. rewrite IH. lia. Qed.
Lemma nansOf_nonneg x : 0 <= nansOf x.
Proof. induction x as [|v x IH]; cbn; [done|]. unfold nanOne. destruct (isNaN v); lia. Qed.
Lemma nansOf_zero x : nansOf x = 0 <-> forall v, In v x -> isNaN v = false.
Proof.
  induction x as [|v x IH]; cbn; [by split|]. pose proof (nansOf_nonneg x). unfold nanOne. destruct (isNaN v) eqn:E.
  - split; [lia|]. intros H1. specialize (H1 v (or_introl eq_refl)). congruence.
  - rewrite Z.add_0_l, IH. split; [intros H1 u [<-|Hu]; [done|by apply H1]|intros H1 u Hu; apply H1; by right].
Qed.

(** The count as a window slides. *)
Lemma nansOf_slide w xs v : (0 < w)%nat ->
  nansOf (lastn w (xs ++ [v])) = (if (w <=? length xs)%nat then nansOf (lastn w xs) - nanOne (at_ xs (length xs - w)) else nansOf (lastn w xs)) + nanOne v.
Proof.
  intros Hw. rewrite lastn_snoc, nansOf_app by done. cbn [nansOf]. rewrite Z.add_0_r. f_equal. destruct (Nat.leb_spec w (length xs)).
  - rewrite (lastn_cons w) by lia. cbn [nansOf]. lia.
  - rewrite !lastn_all by lia. done.
Qed.

(** What a stream of samples makes of a window. *)
Definition rollValue (f : floats -> float64) (w : nat) (xs : floats) : float64 :=
  if (length xs <? w)%nat then NaN else f (lastn w xs).

Lemma rolling_values f x w : rolling f x w = map (fun i => rollValue f w (firstn (S i) x)) (seq 0 (length x)).
Proof.
  unfold rolling. apply map_ext_in. intros i Hi. apply in_seq in Hi. unfold rollValue, window. rewrite length_firstn.
  by replace (S i `min` length x)%nat with (S i) by lia.
Qed.

Lemma length_rolling f x w : length (rolling f x w) = length x.
Proof. unfold rolling. by rewrite length_map, length_seq. Qed.

Lemma rolling_at f x w i : (i < length x)%nat -> at_ (rolling f x w) i = rollValue f w (firstn (S i) x).
Proof.
  intros Hi. rewrite rolling_values. unfold at_. rewrite nth_lookup, list_lookup_fmap.
  rewrite (lookup_seq_lt 0 (length x) i) by done. done.
Qed.

(** ** Streams *)

Section Stream.
Context {S : Type} (update : float64 -> S -> S * float64) (Inv : S -> floats -> Prop) (R : float64 -> float64 -> Prop) (val : floats -> float64).
Hypothesis (step : forall s xs v, Inv s xs -> let '(s', y) := update v s in Inv s' (xs ++ [v]) /\ R y (val (xs ++ [v]))).

Lemma feed_spec x : forall s xs, Inv s xs ->
  let '(s', ys) := feed update s x in
  Inv s' (xs ++ x) /\ Forall2 R ys (map (fun i => val (xs ++ firstn (Datatypes.S i) x)) (seq 0 (length x))).
Proof.
  induction x as [|v x IH]; intros s xs Hs; cbn [feed]; [by rewrite app_nil_r|].
  pose proof (step s xs v Hs) as H1. destruct (update v s) as [s1 y]. destruct H1 as [I1 R1].
  specialize (IH s1 (xs ++ [v]) I1). destruct (feed update s1 x) as [s2 ys]. destruct IH as [I2 R2]. split.
  - by rewrite <- app_assoc in I2.
  - cbn [List.length seq map]. apply List.Forall2_cons; [done|]. rewrite <- seq_shift, map_map.
    revert R2. match goal with |- Forall2 R ys ?a -> Forall2 R ys ?b => replace a with b; [done|] end.
    apply map_ext. intros i. cbn [firstn]. by rewrite <- app_assoc.
Qed.

Lemma feed_batch f w x s : (forall xs, val xs = rollValue f w xs) -> Inv s [] ->
  let '(s', ys) := feed update s x in Inv s' x /\ Forall2 R ys (rolling f x w).
Proof.
  intros Hv Hs. pose proof (feed_spec x s [] Hs) as H. destruct (feed update s x) as [s' ys]. destruct H as [H1 H2].
  split; [done|]. rewrite rolling_values. revert H2. match goal with |- Forall2 R ys ?a -> Forall2 R ys ?b => replace b with a; [done|] end.
  apply map_ext. intros i. by rewrite Hv.
Qed.
End Stream.

Lemma feed_app {S} (update : float64 -> S -> S * float64) x y s :
  feed update s (x ++ y) = let '(s1, ys) := feed update s x in let '(s2, zs) := feed update s1 y in (s2, ys ++ zs).
Proof.
  revert s. induction x as [|v x IH]; intros s; cbn [feed app]; [by destruct (feed update s y)|].
  destruct (update v s) as [s1 a]. rewrite IH. destruct (feed update s1 x) as [s2 ys]. by destruct (feed update s2 y).
Qed.

(** ** The standard deviation as a stream *)

Lemma sumLoop_spec x : forall acc, sumLoop acc x = if decide (nansOf x = 0) then Some (fold_left fadd x acc) else None.
Proof.
  induction x as [|v x IH]; intros acc; [done|]. cbn [sumLoop nansOf fold_left]. pose proof (nansOf_nonneg x). unfold nanOne.
  destruct (isNaN v); [rewrite decide_False by lia; done|]. rewrite IH. by rewrite Z.add_0_l.
Qed.

Lemma map_at (l : floats) : map (at_ l) (seq 0 (length l)) = l.
Proof.
  induction l as [|v l IH]; [done|]. cbn [List.length seq map]. rewrite <- seq_shift, map_map. f_equal. exact IH.
Qed.

Lemma chronological_ring buf w xs : (0 < w <= length xs)%nat -> ringOk buf w xs -> chronological buf (length xs mod w) w = lastn w xs.
Proof.
  intros Hw [Hl Hr]. unfold chronological. rewrite <- (map_at (lastn w xs)), length_lastn.
  replace (w `min` length xs)%nat with w by lia. apply map_ext_in. intros k Hk. apply in_seq in Hk.
  rewrite Nat.Div0.add_mod_idemp_l. replace (length xs + k)%nat with ((length xs - w + k) + 1 * w)%nat by lia.
  rewrite Nat.Div0.mod_add, Hr by lia. symmetry. apply at_lastn. lia.
Qed.

Lemma ring_oldest buf w xs : (0 < w <= length xs)%nat -> ringOk buf w xs -> at_ buf (length xs mod w) = at_ xs (length xs - w).
Proof.
  intros Hw [_ Hr]. replace (length xs mod w)%nat with ((length xs - w) mod w)%nat; [apply Hr; lia|].
  replace (length xs) with ((length xs - w) + 1 * w)%nat at 2 by lia. by rewrite Nat.Div0.mod_add.
Qed.

Definition stdInv (w : nat) (ddof : Z) (r : RollingStdAcc) (xs : floats) : Prop :=
  st_window r = w /\ st_ddof r = ddof /\ ringOk (st_buf r) w xs /\ st_idx r = (length xs mod w)%nat /\
  st_count r = (w `min` length xs)%nat /\ st_nans r = nansOf (lastn w xs).

Lemma Std_Value_spec w ddof r xs : (0 < w)%nat -> stdInv w ddof r xs -> Std_Value r = rollValue (stdWindow w ddof) w xs.
Proof.
  intros Hw (E1 & E2 & Hring & E3 & E4 & E5). unfold Std_Value, rollValue, stdWindow. rewrite E1, E2, E3, E4, E5.
  destruct (Nat.ltb_spec (length xs) w).
  - by rewrite (proj2 (Nat.ltb_lt _ _)) by lia.
  - rewrite (proj2 (Nat.ltb_ge _ _)) by lia. cbn [orb]. rewrite chronological_ring by (done || lia). rewrite sumLoop_spec.
    pose proof (nansOf_nonneg (lastn w xs)). destruct (decide (nansOf (lastn w xs) = 0)) as [E|Hne].
    + rewrite E. cbn [Z.ltb Z.compare orb]. done.
    + by rewrite (proj2 (Z.ltb_lt _ _)) by lia.
Qed.

Lemma Std_step w ddof : (0 < w)%nat -> forall r xs v, stdInv w ddof r xs ->
  let '(r', y) := Std_Update v r in stdInv w ddof r' (xs ++ [v]) /\ y = rollValue (stdWindow w ddof) w (xs ++ [v]).
Proof.
  intros Hw r xs v (E1 & E2 & Hring & E3 & E4 & E5). unfold Std_Update. cbv zeta.
  match goal with |- context [Std_Value ?a] => assert (Hi : stdInv w ddof a (xs ++ [v])) end.
  { unfold stdInv. cbn [st_window st_ddof st_buf st_idx st_count st_nans]. rewrite E1, E2, E3, E4, E5, length_app. cbn [List.length].
    splits; try done.
    - by apply ring_push.
    - by rewrite Nat.Div0.add_mod_idemp_l.
    - destruct (Nat.eqb_spec (w `min` length xs) w); lia.
    - rewrite nansOf_slide by done. destruct (Nat.leb_spec w (length xs)).
      + rewrite (proj2 (Nat.eqb_eq _ _)) by lia. by rewrite ring_oldest by (done || lia).
      + by rewrite (proj2 (Nat.eqb_neq _ _)) by lia. }
  split; [exact Hi|]. by apply Std_Value_spec.
Qed.

(** ** The monotonic deque *)

(** The order in which the deque looks for the best sample. *)
Definition worse (wantMax : bool) (a b : float64) : Prop := if wantMax then ~ klt (fkey b) (fkey a) else ~ klt (fkey a) (fkey b).

Lemma worse_refl m a : worse m a a.
Proof. destruct m; cbn; apply klt_irrefl. Qed.
Lemma worse_trans m a b c : worse m a b -> worse m b c -> worse m a c.
Proof. destruct m; cbn; intros H1 H2; [exact (klt_not _ _ _ H1 H2)|exact (klt_not _ _ _ H2 H1)]. Qed.
Lemma worse_total m a b : worse m a b \/ worse m b a.
Proof.
  unfold worse. destruct (fkey a) as [[a1 a2] a3], (fkey b) as [[b1 b2] b3]. destruct m; cbn; lia.
Qed.
Lemma worse_antisym m a b : isNaN a = false -> isNaN b = false -> worse m a b -> worse m b a -> feq a b.
Proof. intros Ha Hb H1 H2. apply fkey_feq; [done|done|]. destruct m; cbn in *; by apply klt_tricho. Qed.

Lemma extLoop_spec m x : forall e, isNaN e = false -> nansOf x = 0 ->
  exists r, extLoop m e x = Some r /\ isNaN r = false /\ (r = e \/ In r x) /\ worse m e r /\ forall v, In v x -> worse m v r.
Proof.
  induction x as [|v x IH]; intros e He Hx; [exists e; splits; [done|done|by left|apply worse_refl|done]|].
  cbn [nansOf] in Hx. pose proof (nansOf_nonneg x). assert (Hv : isNaN v = false) by (unfold nanOne in Hx; destruct (isNaN v); [lia|done]).
  assert (Hx' : nansOf x = 0) by (unfold nanOne in Hx; rewrite Hv in Hx; lia). cbn [extLoop]. rewrite Hv.
  set (t := if m then fgtb v e else fltb v e).
  assert (Ht : if t then worse m e v else worse m v e).
  { unfold t, fgtb. destruct m; cbn [worse].
    - destruct (fltb e v) eqn:E; [apply fltb_key in E; [|done..]; intros Hk; by apply (klt_irrefl (fkey e)), (klt_trans _ (fkey v))|].
      intros Hk. apply fltb_key in Hk; [|done..]. congruence.
    - destruct (fltb v e) eqn:E; [apply fltb_key in E; [|done..]; intros Hk; by apply (klt_irrefl (fkey e)), (klt_trans _ (fkey v))|].
      intros Hk. apply fltb_key in Hk; [|done..]. congruence. }
  destruct (IH (if t then v else e)) as (r & E & Hr & Hin & Hw & Hall); [by destruct t|done|]. exists r. splits; [done|done| | |].
  - destruct Hin as [->|Hin]; [destruct t; [by right; left|by left]|by right; right].
  - destruct t; [by eapply worse_trans|done].
  - intros u [<-|Hu]; [|by apply Hall]. destruct t; [done|by eapply worse_trans].
Qed.

(** The batch extremum of a window without NaN. *)
Lemma extWindow_spec m seg : (0 < length seg)%nat -> nansOf seg = 0 ->
  In (extWindow m seg) seg /\ isNaN (extWindow m seg) = false /\ forall v, In v seg -> worse m v (extWindow m seg).
Proof.
  destruct seg as [|v seg]; cbn [List.length]; [lia|]. intros _ Hn. cbn [nansOf] in Hn. pose proof (nansOf_nonneg seg).
  assert (Hv : isNaN v = false) by (unfold nanOne in Hn; destruct (isNaN v); [lia|done]).
  cbn [extWindow]. rewrite Hv. destruct (extLoop_spec m seg v Hv) as (r & -> & Hr & Hin & Hw & Hall);
    [unfold nanOne in Hn; rewrite Hv in Hn; lia|].
  splits; [destruct Hin as [->|]; [by left|by right]|done|]. intros u [<-|Hu]; [done|by apply Hall].
Qed.

Lemma extWindow_nan m seg : nansOf seg <> 0 -> extWindow m seg = NaN.
Proof.
  destruct seg as [|v seg]; [done|]. cbn [nansOf extWindow]. unfold nanOne. destruct (isNaN v); [done|]. intros H.
  assert (Hn : nansOf seg <> 0) by lia. clear H. enough (E : extLoop m v seg = None) by (by rewrite E).
  revert v Hn. induction seg as [|u seg IH]; intros v Hn; [done|]. cbn [nansOf extLoop] in *. unfold nanOne in Hn.
  destruct (isNaN u); [done|]. apply IH. lia.
Qed.

(** Sample [i] of the stream is ahead of sample [j] in the deque. *)
Definition ahead (m : bool) (xs : floats) (i j : nat) : Prop := (i < j)%nat /\ ~ worse m (at_ xs i) (at_ xs j).

Record dequeInv (w : nat) (m : bool) (d : monoDeque) (xs : floats) : Prop := {
  dq_window : md_window d = w;
  dq_wantMax : md_wantMax d = m;
  dq_count : md_count d = length xs;
  dq_ring : ringOk (md_buf d) w xs;
  dq_nans : md_nans d = nansOf (lastn w xs);
  dq_in : forall i, In i (md_dq d) -> (length xs <= i + w)%nat /\ (i < length xs)%nat /\ isNaN (at_ xs i) = false;
  dq_sorted : StronglySorted (ahead m xs) (md_dq d);
  dq_cover : forall j, (length xs <= j + w)%nat -> (j < length xs)%nat -> isNaN (at_ xs j) = false ->
    exists i, In i (md_dq d) /\ (j <= i)%nat /\ worse m (at_ xs j) (at_ xs i)
}.

Lemma evict_in lo dq i : In i dq -> lo <= Z.of_nat i -> In i (evict lo dq).
Proof.
  induction dq as [|h dq IH]; [done|]. cbn [evict In]. destruct (Z.ltb_spec (Z.of_nat h) lo); intros [<-|Hi] Hlo; [lia|by apply IH|by left|by right].
Qed.
Lemma evict_incl lo dq i : In i (evict lo dq) -> In i dq.
Proof. induction dq as [|h dq IH]; [done|]. cbn [evict]. destruct (Z.of_nat h <? lo); [|done]. intros H. right. by apply IH. Qed.
Lemma evict_sorted R lo dq : StronglySorted R dq -> StronglySorted R (evict lo dq).
Proof. induction 1 as [|h dq H IH]; cbn [evict]; [constructor|]. destruct (Z.of_nat h <? lo); [done|]. by constructor. Qed.
Lemma evict_lo m xs lo dq i : StronglySorted (ahead m xs) dq -> In i (evict lo dq) -> lo <= Z.of_nat i.
Proof.
  induction 1 as [|h dq H IH Hh]; [done|]. cbn [evict]. destruct (Z.ltb_spec (Z.of_nat h) lo); [done|]. intros [<-|Hi]; [done|].
  rewrite List.Forall_forall in Hh. destruct (Hh i Hi). lia.
Qed.

Lemma ahead_snoc m xs v dq : (forall i, In i dq -> (i < length xs)%nat) -> StronglySorted (ahead m xs) dq -> StronglySorted (ahead m (xs ++ [v])) dq.
Proof.
  intros Hin Hs. induction Hs as [|h dq Hs IH Hh]; [constructor|]. constructor; [apply IH; intros i Hi; apply Hin; by right|].
  rewrite List.Forall_forall in *. intros i Hi. specialize (Hh i Hi). unfold ahead in *. rewrite !at_snoc.
  pose proof (Hin h (or_introl eq_refl)). pose proof (Hin i (or_intror Hi)). by rewrite !decide_False by lia.
Qed.

Lemma popBack_spec m buf w v rdq (x : nat -> float64) : isNaN v = false ->
  (forall i, In i rdq -> at_ buf (i mod w) = x i /\ isNaN (x i) = false) ->
  exists popped, rdq = popped ++ popBack m buf w v rdq /\ (forall i, In i popped -> worse m (x i) v) /\
    forall i rest, popBack m buf w v rdq = i :: rest -> ~ worse m (x i) v.
Proof.
  intros Hv. induction rdq as [|b rdq IH]; intros Hx; [exists []; splits; [done|done|done]|].
  destruct (Hx b (or_introl eq_refl)) as [Hb Hbn]. cbn [popBack]. rewrite Hb, Hbn.
  assert (Hk : (if m then fleb (x b) v else fgeb (x b) v) = true <-> worse m (x b) v) by (destruct m; cbn; [by apply fleb_key|unfold fgeb; by rewrite fleb_key]).
  destruct (if m then fleb (x b) v else fgeb (x b) v).
  - destruct IH as (popped & E & H1 & H2); [intros i Hi; apply Hx; by right|]. exists (b :: popped). splits; [by cbn; f_equal| |done].
    intros i [<-|Hi]; [by apply Hk|by apply H1].
  - exists []. splits; [done|done|]. intros i rest [= -> ->] Hw. apply Hk in Hw. done.
Qed.

Lemma sorted_app_inv {A} (R : A -> A -> Prop) l1 l2 : StronglySorted R (l1 ++ l2) -> StronglySorted R l1 /\ forall a b, In a l1 -> In b l2 -> R a b.
Proof.
  induction l1 as [|h l1 IH]; cbn; [split; [constructor|done]|]. intros H. inversion_clear H as [|? ? H1 H2]. destruct (IH H1) as [I1 I2].
  rewrite List.Forall_forall in H2. split.
  - constructor; [done|]. apply List.Forall_forall. intros a Ha. apply H2, in_app_iff. by left.
  - intros a b [<-|Ha] Hb; [apply H2, in_app_iff; by right|by apply I2].
Qed.

Lemma sorted_snoc {A} (R : A -> A -> Prop) l b : StronglySorted R l -> (forall a, In a l -> R a b) -> StronglySorted R (l ++ [b]).
Proof.
  induction 1 as [|h l H IH Hh]; intros Hb; cbn; [by repeat constructor|]. constructor; [apply IH; intros a Ha; apply Hb; by right|].
  apply List.Forall_app. split; [done|]. constructor; [apply Hb; by left|done].
Qed.

(** The samples the deque keeps when it takes a sample in. *)
Lemma keep_spec m xs v w buf dq : isNaN v = false -> (0 < w)%nat -> ringOk buf w (xs ++ [v]) ->
  StronglySorted (ahead m xs) dq -> (forall i, In i dq -> (length xs + 1 <= i + w)%nat /\ (i < length xs)%nat /\ isNaN (at_ xs i) = false) ->
  let keep := rev (popBack m buf w v (rev dq)) in
  StronglySorted (ahead m xs) keep /\ (forall i, In i keep -> In i dq /\ ~ worse m (at_ xs i) v) /\
  (forall i, In i dq -> In i keep \/ worse m (at_ xs i) v).
Proof.
  intros Hv Hw [_ Hring] Hs Hin. cbv zeta.
  destruct (popBack_spec m buf w v (rev dq) (at_ xs)) as (popped & E & Hp & Hk); [done| |].
  { intros i Hi. apply in_rev in Hi. destruct (Hin i Hi) as (H1 & H2 & H3). split; [|done].
    rewrite Hring by (rewrite ?length_app; cbn; lia). rewrite at_snoc. by rewrite decide_False by lia. }
  set (k := popBack m buf w v (rev dq)) in *. assert (Edq : dq = rev k ++ rev popped) by (by rewrite <- rev_app_distr, <- E, rev_involutive).
  rewrite Edq in Hs. destruct (sorted_app_inv _ _ _ Hs) as [Hsk _]. splits; [done| |].
  - intros i Hi. split; [rewrite Edq; apply in_app_iff; by left|]. destruct k as [|b k]; [done|]. specialize (Hk b k eq_refl).
    cbn [rev] in Hi, Hsk. apply in_app_iff in Hi as [Hi|[<-|[]]]; [|done]. destruct (sorted_app_inv _ _ _ Hsk) as [_ Ha].
    destruct (Ha i b Hi (or_introl eq_refl)) as [_ Hnw]. intros Hiv. apply Hnw. destruct (worse_total m (at_ xs b) v) as [|Hvb]; [done|].
    by eapply worse_trans.
  - intros i Hi. rewrite Edq in Hi. apply in_app_iff in Hi as [Hi|Hi]; [by left|right]. apply Hp. by apply in_rev.
Qed.

(** The deque after one more sample. *)
Lemma md_update_inv w m d xs v : (0 < w)%nat -> dequeInv w m d xs -> dequeInv w m (fst (md_update v d)) (xs ++ [v]).
Proof.
  intros Hw [E1 E2 E3 Hr E5 Hin Hs Hc]. pose proof (ring_push _ _ _ v Hw Hr) as Hr'. unfold md_update. cbv zeta. cbn [fst]. rewrite E1, E2, E3.
  set (lo := Z.of_nat (length xs) - Z.of_nat w + 1). set (dq1 := evict lo (md_dq d)).
  assert (Hs1 : StronglySorted (ahead m xs) dq1) by (by apply evict_sorted).
  assert (Hin1 : forall i, In i dq1 -> (length xs + 1 <= i + w)%nat /\ (i < length xs)%nat /\ isNaN (at_ xs i) = false).
  { intros i Hi. pose proof (evict_lo _ _ _ _ _ Hs Hi). destruct (Hin i (evict_incl _ _ _ Hi)) as (_ & ? & ?). splits; [lia|done|done]. }
  assert (Hc1 : forall j, (length xs + 1 <= j + w)%nat -> (j < length xs)%nat -> isNaN (at_ xs j) = false ->
    exists i, In i dq1 /\ (j <= i)%nat /\ worse m (at_ xs j) (at_ xs i)).
  { intros j H1 H2 H3. destruct (Hc j) as (i & Hi & Hji & Hwi); [lia|done|done|]. exists i. split; [|done]. apply evict_in; [done|]. unfold lo. lia. }
  assert (Hold : forall i, (i < length xs)%nat -> at_ (xs ++ [v]) i = at_ xs i) by (intros i Hi; rewrite at_snoc; by rewrite decide_False by lia).
  assert (Hnew : at_ (xs ++ [v]) (length xs) = v) by (rewrite at_snoc; by rewrite decide_True).
  assert (Hlen : length (xs ++ [v]) = (length xs + 1)%nat) by (by rewrite length_app).
  assert (Hnans : (if (w <? S (length xs))%nat then md_nans d - nanOne (at_ (md_buf d) (length xs mod w)) else md_nans d) + nanOne v =
                  nansOf (lastn w (xs ++ [v]))).
  { rewrite nansOf_slide, E5 by done. destruct (Nat.leb_spec w (length xs)).
    - rewrite (proj2 (Nat.ltb_lt _ _)) by lia. by rewrite ring_oldest by (done || lia).
    - by rewrite (proj2 (Nat.ltb_ge _ _)) by lia. }
  destruct (isNaN v) eqn:Ev.
  - split; cbn [md_window md_wantMax md_count md_buf md_dq md_nans]; [done|done|lia|done|done| |by apply ahead_snoc; [intros i Hi; by apply Hin1|]|].
    + intros i Hi. destruct (Hin1 i Hi) as (? & ? & ?). rewrite Hold by done. splits; [lia|lia|done].
    + intros j H1 H2 H3. destruct (decide (j = length xs)) as [->|Hn]; [rewrite Hnew in H3; congruence|]. rewrite Hold in H3 |- * by lia.
      destruct (Hc1 j) as (i & Hi & ? & ?); [lia|lia|done|]. exists i. destruct (Hin1 i Hi) as (_ & ? & _). by rewrite Hold by done.
  - destruct (keep_spec m xs v w _ dq1 Ev Hw Hr' Hs1 Hin1) as (K1 & K2 & K3). set (keep := rev _) in *.
    split; cbn [md_window md_wantMax md_count md_buf md_dq md_nans]; [done|done|lia|done|done| | |].
    + intros i Hi. apply in_app_iff in Hi as [Hi|[<-|[]]]; [|rewrite Hnew; splits; [lia|lia|done]].
      destruct (Hin1 i (proj1 (K2 i Hi))) as (? & ? & ?). rewrite Hold by done. splits; [lia|lia|done].
    + apply sorted_snoc; [apply ahead_snoc; [intros i Hi; by apply Hin1, K2|done]|]. intros i Hi. destruct (K2 i Hi) as [Hd Hk].
      destruct (Hin1 i Hd) as (_ & ? & _). split; [done|]. by rewrite Hnew, Hold.
    + intros j H1 H2 H3. destruct (decide (j = length xs)) as [->|Hn].
      { exists (length xs). splits; [apply in_app_iff; right; by left|done|apply worse_refl]. }
      rewrite Hold in H3 |- * by lia. destruct (Hc1 j) as (i & Hi & Hji & Hwi); [lia|lia|done|]. destruct (Hin1 i Hi) as (_ & ? & _).
      destruct (K3 i Hi) as [Hk|Hk]; [exists i; splits; [apply in_app_iff; by left|done|by rewrite Hold]|].
      exists (length xs). splits; [apply in_app_iff; right; by left|lia|]. rewrite Hnew. by eapply worse_trans.
Qed.

Lemma in_lastn w (xs : floats) v : (w <= length xs)%nat -> In v (lastn w xs) <-> exists j, (length xs <= j + w)%nat /\ (j < length xs)%nat /\ at_ xs j = v.
Proof.
  intros Hw. split.
  - intros Hin. apply (In_nth _ _ NaN) in Hin as (k & Hk & <-). rewrite length_lastn in Hk. fold (at_ (lastn w xs) k).
    exists (length xs - w + k)%nat. splits; [lia|lia|]. symmetry. apply at_lastn. lia.
  - intros (j & H1 & H2 & <-). replace j with (length xs - w + (j - (length xs - w)))%nat by lia. rewrite <- at_lastn by lia.
    apply nth_In. rewrite length_lastn. lia.
Qed.

(** The value the deque returns. *)
Lemma md_update_value w m d xs v : (0 < w)%nat -> dequeInv w m d xs ->
  feq (snd (md_update v d)) (rollValue (extWindow m) w (xs ++ [v])).
Proof.
  intros Hw Hd. pose proof (md_update_inv w m d xs v Hw Hd) as [E1 E2 E3 [_ Hr] E5 Hin Hs Hc]. revert E3 Hr E5 Hin Hs Hc.
  unfold md_update. cbv zeta. cbn [fst snd md_count md_buf md_dq md_nans]. destruct Hd as [F1 F2 F3 _ _ _ _ _]. rewrite F1, F2, F3.
  set (ys := xs ++ [v]). set (buf := <[_ := v]> (md_buf d)). set (nans := _ + nanOne v). set (dq := if isNaN v then _ else _).
  intros E3 Hr E5 Hin Hs Hc. rewrite E3. unfold rollValue. destruct (Nat.ltb_spec (length ys) w); cbn [orb]; [done|].
  rewrite E5. pose proof (nansOf_nonneg (lastn w ys)). destruct (Z.ltb_spec 0 (nansOf (lastn w ys))) as [Hn|Hn]; [by rewrite extWindow_nan by lia|].
  assert (Hz : nansOf (lastn w ys) = 0) by lia. destruct (extWindow_spec m (lastn w ys)) as (Xin & Xn & Xall); [rewrite length_lastn; lia|done|].
  rewrite nansOf_zero in Hz. assert (Hok : forall j, (length ys <= j + w)%nat -> (j < length ys)%nat -> isNaN (at_ ys j) = false)
    by (intros j ? ?; apply Hz, in_lastn; [done|by exists j]).
  apply in_lastn in Xin as (j & J1 & J2 & J3); [|done]. destruct (Hc j J1 J2 (Hok j J1 J2)) as (i & Hi & _ & Hji).
  destruct dq as [|h dq]; [done|]. destruct (Hin h (or_introl eq_refl)) as (A1 & A2 & A3). rewrite Hr by done.
  apply worse_antisym with (m := m); [done|done|apply Xall, in_lastn; [done|by exists h]|]. rewrite <- J3.
  eapply worse_trans; [exact Hji|]. destruct Hi as [<-|Hi]; [apply worse_refl|]. apply StronglySorted_inv in Hs as [_ Hs].
  rewrite List.Forall_forall in Hs. destruct (Hs i Hi) as [_ Hni]. by destruct (worse_total m (at_ ys h) (at_ ys i)).
Qed.

Lemma md_step w m : (0 < w)%nat -> forall d xs v, dequeInv w m d xs ->
  let '(d', y) := md_update v d in dequeInv w m d' (xs ++ [v]) /\ feq y (rollValue (extWindow m) w (xs ++ [v])).
Proof.
  intros Hw d xs v Hd. pose proof (md_update_inv w m d xs v Hw Hd) as H1. pose proof (md_update_value w m d xs v Hw Hd) as H2.
  by destruct (md_update v d).
Qed.

Lemma newMonoDeque_inv w m : dequeInv w m (newMonoDeque w m) [].
Proof. split; cbn; try done; [apply ring_init|constructor|lia]. Qed.

Lemma NewRollingStd_inv w ddof : stdInv w ddof (NewRollingStd w ddof) [].
Proof. unfold stdInv. cbn. splits; try done; [apply ring_init|destruct w; [done|by rewrite Nat.Div0.mod_0_l]|lia]. Qed.

(** The streaming accumulators compute the batch indicators.  Fed any samples,
    NaN and infinities included, the standard deviation returns at each of them
    exactly the value of the batch form, and the maximum and minimum, kept by a
    monotonic deque over a ring, return the batch value up to the sign of zero. *)
Theorem stream_equals_batch (w : nat) (ddof : Z) (x : floats) (Hw : (0 < w)%nat) :
  snd (feed Std_Update (NewRollingStd w ddof) x) = RollingStd x w ddof /\
  Forall2 feq (snd (feed md_update (NewRollingMax w) x)) (RollingMax x w) /\
  Forall2 feq (snd (feed md_update (NewRollingMin w) x)) (RollingMin x w).
Proof.
  splits.
  - pose proof (feed_batch Std_Update (stdInv w ddof) eq (rollValue (stdWindow w ddof) w) (Std_step w ddof Hw) (stdWindow w ddof) w x _
      (fun _ => eq_refl) (NewRollingStd_inv w ddof)) as H.
    destruct (feed Std_Update _ x) as [r ys]. destruct H as [_ H]. by apply list_eq_Forall2.
  - pose proof (feed_batch md_update (dequeInv w true) feq (rollValue (extWindow true) w) (md_step w true Hw) (extWindow true) w x _
      (fun _ => eq_refl) (newMonoDeque_inv w true)) as H.
    unfold NewRollingMax. destruct (feed md_update _ x) as [r ys]. by destruct H.
  - pose proof (feed_batch md_update (dequeInv w false) feq (rollValue (extWindow false) w) (md_step w false Hw) (extWindow false) w x _
      (fun _ => eq_refl) (newMonoDeque_inv w false)) as H.
    unfold NewRollingMin. destruct (feed md_update _ x) as [r ys]. by destruct H.
Qed.

Definition demoSamples : floats := map zToFloat [3; 1; 4; 1; 5; -2; 6] ++ [NaN; zToFloat 2].

Lemma stream_equals_batch_witness :
  snd (feed Std_Update (NewRollingStd 3 1) demoSamples) = RollingStd demoSamples 3 1 /\
  Forall2 feq (snd (feed md_update (NewRollingMax 3) demoSamples)) (RollingMax demoSamples 3) /\
  RollingMax demoSamples 3 = [NaN; NaN] ++ map zToFloat [4; 4; 5; 5; 6] ++ [NaN; NaN].
Proof.
  destruct (stream_equals_batch 3 1 demoSamples) as (H1 & H2 & _); [lia|]. split; [exact H1|]. split; [exact H2|]. vm_compute. reflexivity.
Defined.

(** The sign of zero is where the deque and the batch form differ: the deque keeps
    the latest of equal samples, the batch form the first. *)
Lemma deque_keeps_latest_zero :
  let x := [S754_zero true; S754_zero false] in
  RollingMax x 2 = [NaN; S754_zero true] /\ snd (feed md_update (NewRollingMax 2) x) = [NaN; S754_zero false].
Proof. vm_compute. done. Qed.

(** The running sum of the streaming average is not the sum of its window: after a
    large sample has left it, the average is off by half, and after an infinity it
    never recovers. *)
Lemma running_sum_drifts :
  let big := zToFloat 10000000000000000 in let one := zToFloat 1 in
  SMA [big; one; one] 2 = [NaN; fdiv big (ofNat 2); one] /\
  snd (feed SMA_Update (NewRollingSMA 2) [big; one; one]) = [NaN; fdiv big (ofNat 2); fdiv one (ofNat 2)] /\
  at_ (SMA [S754_infinity false; one; one] 2) 2 = one /\
  at_ (snd (feed SMA_Update (NewRollingSMA 2) [S754_infinity false; one; one])) 2 = NaN.
Proof. vm_compute. done. Qed.

(** ** Moving averages (ma.go) *)

Definition MA (close : floats) (period : nat) : floats := SMA close period.

(** The last sample, NaN of an empty series. *)
Definition lastNonWindow (x : floats) : float64 := at_ x (length x - 1).

Definition hundred : float64 := zToFloat 100.

Definition slopePct (last prev : float64) : float64 :=
  if feqb prev fzero || isNaN prev || isNaN last then fzero else fmul (fdiv (fsub last prev) prev) hundred.

Definition MASlopePct (close : floats) (period lookback : nat) : float64 :=
  if (length close <? period + lookback)%nat then fzero
  else let series := MA close period in slopePct (lastNonWindow series) (at_ series (length series - 1 - lookback)).

(** The length of the longest suffix of positive differences, newest first. *)
Fixpoint risingRun (newest : float64) (older : floats) : Z :=
  match older with
  | [] => 0
  | p :: older => if fgtb (fsub newest p) fzero then 1 + risingRun p older else 0
  end.

Definition MAUptrendDays (close : floats) (period : nat) : Z :=
  if (length close <? period + 2)%nat then 0
  else match rev (List.filter (fun v => negb (isNaN v)) (MA close period)) with [] => 0 | v :: older => risingRun v older end.

Definition aboveOne (p : float64 * float64) : nat :=
  if isNaN p.1 || isNaN p.2 then 0%nat else if fgtb p.1 p.2 then 1%nat else 0%nat.

Definition FractionAbove (close ma : floats) (n : nat) : float64 :=
  if (n =? 0)%nat || (length close <? n)%nat || (length ma <? n)%nat then NaN
  else fdiv (ofNat (list_sum (map aboveOne (combine (lastn n close) (lastn n ma))))) (ofNat n).

(** ** Highs, lows and returns (highlow.go) *)

Definition RollingHigh (high : floats) (w : nat) : floats := RollingMax high w.
Definition RollingLow (low : floats) (w : nat) : floats := RollingMin low w.

Definition FiftyTwoWeekHigh (high : floats) (w : nat) : float64 :=
  match high with
  | [] => NaN
  | _ => let v := lastNonWindow (RollingHigh high w) in if isNaN v then Max high else v
  end.
Definition FiftyTwoWeekLow (low : floats) (w : nat) : float64 :=
  match low with
  | [] => NaN
  | _ => let v := lastNonWindow (RollingLow low w) in if isNaN v then Min low else v
  end.

Definition PctReturn (x : floats) (w : nat) : floats :=
  map (fun i =>
    if (i <? w)%nat then NaN
    else
      let old := at_ x (i - w) in let cur := at_ x i in
      if isNaN old || isNaN cur || feqb old fzero then NaN else fdiv (fsub cur old) old) (seq 0 (length x)).

Definition WindowReturn (deque : floats) : float64 :=
  if (length deque <? 2)%nat then NaN
  else
    let old := at_ deque 0 in let cur := lastNonWindow deque in
    if fleb old fzero || isNaN old || isNaN cur then NaN else fdiv (fsub cur old) old.

(** ** True range (atr.go) *)

Definition fmaxOf (a b : float64) : float64 := if fgtb b a then b else a.

(** On slices of one length; on others the code panics. *)
Definition TrueRange (high low close : floats) : floats :=
  map (fun i =>
    let h := at_ high i in let l := at_ low i in let hl := fsub h l in
    if (i =? 0)%nat then hl
    else
      let pc := at_ close (i - 1) in
      if isNaN h || isNaN l || isNaN pc then NaN
      else fmaxOf (fmaxOf hl (fabs (fsub h pc))) (fabs (fsub l pc))) (seq 0 (length high)).

Fixpoint wilderLoop (period : nat) (prev : float64) (tr : floats) : floats :=
  match tr with
  | [] => []
  | t :: tr =>
      let v := if isNaN prev || isNaN t then NaN else fdiv (fadd (fmul prev (ofNat (period - 1))) t) (ofNat period) in
      v :: wilderLoop period v tr
  end.

Definition ATRWilder (high low close : floats) (period : nat) : floats :=
  let n := length high in
  let tr := TrueRange high low close in
  if (n <? period)%nat then repeat NaN n
  else match sumLoop fzero (firstn period tr) with
       | None => repeat NaN n
       | Some s => let seed := fdiv s (ofNat period) in repeat NaN (period - 1) ++ seed :: wilderLoop period seed (skipn period tr)
       end.

Definition ATRSimple (high low close : floats) (period : nat) : floats := SMA (TrueRange high low close) period.

(** ** Statistics (stats.go) *)

Definition FMean (x : floats) : float64 :=
  match x with [] => NaN | _ => fdiv (fold_left fadd x fzero) (ofNat (length x)) end.

Definition atLeastZero (v : float64) : float64 := if fltb v fzero then fzero else v.

Definition PStdev (x : floats) : float64 :=
  match x with [] => NaN | _ => fsqrt (atLeastZero (fdiv (squaresLoop (FMean x) x) (ofNat (length x)))) end.

Definition Stdev (x : floats) : float64 :=
  if (length x <? 2)%nat then NaN else fsqrt (atLeastZero (fdiv (squaresLoop (FMean x) x) (ofNat (length x - 1)))).

Definition ZScore (x : floats) : float64 :=
  if (length x <? 2)%nat then NaN
  else
    let std := PStdev x in
    if feqb std fzero then NaN else fdiv (fsub (lastNonWindow x) (FMean x)) std.

Definition zWindow (seg : floats) : float64 :=
  if existsb isNaN seg then NaN
  else
    let std := PStdev seg in
    if feqb std fzero then NaN else fdiv (fsub (lastNonWindow seg) (FMean seg)) std.
Definition RollingZScore (x : floats) (w : nat) : floats := rolling zWindow x w.

(** The two sums of the regression. *)
Definition olsLoop (mx my : float64) (ps : list (float64 * float64)) : float64 * float64 :=
  fold_left (fun s p => let dx := fsub p.1 mx in (fadd s.1 (fmul dx (fsub p.2 my)), fadd s.2 (fmul dx dx))) ps (fzero, fzero).

(** [None] when the regression is degenerate. *)
Definition OLSSlope (x y : floats) : option float64 :=
  if negb (length x =? length y)%nat || (length x <? 2)%nat then None
  else let '(num, den) := olsLoop (FMean x) (FMean y) (combine x y) in if feqb den fzero then None else Some (fdiv num den).

Record OLSResult : Set := mkOLS { ols_Slope : float64; ols_Intercept : float64; ols_OK : bool }.

Definition OLS (x y : floats) : OLSResult :=
  match OLSSlope x y with
  | None => mkOLS NaN NaN false
  | Some slope => mkOLS slope (fsub (FMean y) (fmul slope (FMean x))) true
  end.

Definition corrLoop (mx my : float64) (ps : list (float64 * float64)) : float64 * float64 * float64 :=
  fold_left (fun s p =>
    let dx := fsub p.1 mx in let dy := fsub p.2 my in
    (fadd s.1.1 (fmul dx dy), fadd s.1.2 (fmul dx dx), fadd s.2 (fmul dy dy))) ps (fzero, fzero, fzero).

Definition Correlation (x y : floats) : float64 :=
  if negb (length x =? length y)%nat || (length x <? 2)%nat then NaN
  else
    let '(sxy, sxx, syy) := corrLoop (FMean x) (FMean y) (combine x y) in
    let den := fsqrt (fmul sxx syy) in
    if feqb den fzero then NaN else fdiv sxy den.

(** On legs of one length. *)
Definition Spread (long short : floats) (beta : float64) : floats :=
  map (fun p => fsub p.1 (fmul beta p.2)) (combine long short).

(** ** Rounding (round.go) *)

Definition half : float64 := flit 1 2.

Definition RoundHalfEven (x : float64) (digits : Z) : float64 :=
  if isNaN x || isInf x then x
  else
    let pow := zToFloat (10 ^ digits) in
    let scaled := fmul x pow in
    let floor := ffloor scaled in
    let diff := fsub scaled floor in
    let up := fadd floor (zToFloat 1) in
    let rounded :=
      if fltb diff half then floor
      else if fgtb diff half then up
      else if feqb (fmod floor (zToFloat 2)) fzero then floor else up in
    fdiv rounded pow.

(** ** Breakout volume (volume.go) *)

Definition VolumeBaselineExcludingCurrent (volume : floats) (base : nat) : option float64 :=
  let n := length volume in
  if (n <? base + 1)%nat then None else Some (Mean (firstn base (skipn (n - base - 1) volume))).

Definition BreakoutVolumeOK (volume : floats) (base : nat) (multiple : float64) : bool :=
  match VolumeBaselineExcludingCurrent volume base with
  | None => false
  | Some baseline => if fleb baseline fzero then false else fgtb (lastNonWindow volume) (fmul multiple baseline)
  end.

(** ** Relative strength (relstrength.go) *)

Definition RSLookback63 : nat := 63.
Definition RSLookback126 : nat := 126.
Definition RSLookback189 : nat := 189.
Definition RSLookback252 : nat := 252.
Definition rsWeight63 : float64 := flit 2 5.
Definition rsWeight126 : float64 := flit 1 5.
Definition rsWeight189 : float64 := flit 1 5.
Definition rsWeight252 : float64 := flit 1 5.
Definition RSRankMin : Z := 1.
Definition RSRankMax : Z := 99.

Definition RSRawScore (closeAdj : floats) : option float64 :=
  let n := length closeAdj in
  if (n <=? RSLookback252)%nat then None
  else
    let cur := at_ closeAdj (n - 1) in
    if fleb cur fzero then None
    else
      let r lookback := let base := at_ closeAdj (n - 1 - lookback) in if fleb base fzero then None else Some (fsub (fdiv cur base) (zToFloat 1)) in
      match r RSLookback63, r RSLookback126, r RSLookback189, r RSLookback252 with
      | Some a, Some b, Some c, Some d =>
          Some (fadd (fadd (fadd (fmul rsWeight63 a) (fmul rsWeight126 b)) (fmul rsWeight189 c)) (fmul rsWeight252 d))
      | _, _, _, _ => None
      end.

(** [sort.Float64s] puts NaN first. *)
Definition scoreLess (a b : float64) : bool := fltb a b || (isNaN a && negb (isNaN b)).
Fixpoint insertScore (v : float64) (l : floats) : floats :=
  match l with [] => [v] | u :: l' => if scoreLess v u then v :: l else u :: insertScore v l' end.
Definition sortScores (l : floats) : floats := fold_left (fun acc v => insertScore v acc) l [].

(** [sort.Search(n, p)]: the least index of [i..j] where [p] holds, by bisection. *)
Fixpoint bisect (fuel : nat) (p : nat -> bool) (i j : nat) : nat :=
  match fuel with
  | O => i
  | S fuel => if (i <? j)%nat then let h := ((i + j) / 2)%nat in if p h then bisect fuel p i h else bisect fuel p (S h) j else i
  end.

Definition belowCount (scores : floats) (v : float64) : nat :=
  bisect (S (length scores)) (fun i => fgeb (at_ scores i) v) 0 (length scores).

(** The clamped integer rank. *)
Definition rankOf (n : nat) (scores : floats) (v : float64) : Z :=
  let pct := fdiv (ofNat (belowCount scores v)) (zToFloat (Z.of_nat n - 1)) in
  let rank := truncFloat (fadd (fadd (zToFloat RSRankMin) (fmul pct (zToFloat (RSRankMax - RSRankMin)))) half) in
  Z.min RSRankMax (Z.max RSRankMin rank).

Definition RSRankUniverse (raw : gmap string float64) : gmap string Z :=
  let n := size raw in
  if (n =? 1)%nat then (fun _ => RSRankMax) <$> raw
  else let scores := sortScores (map snd (map_to_list raw)) in rankOf n scores <$> raw.

(** A symbol whose prices have a gap gets a score that is not a number, which no
    score reaches: it is ranked as the strongest of the universe. *)
Lemma gap_ranks_strongest :
  RSRawScore (repeat (zToFloat 1) 10 ++ [NaN] ++ repeat (zToFloat 1) 252) = Some NaN /\
  RSRankUniverse (list_to_map [("GAP", NaN); ("A", zToFloat 1); ("B", zToFloat 2)]) !! "GAP" = Some 99 /\
  RSRankUniverse (list_to_map [("GAP", NaN); ("A", zToFloat 1); ("B", zToFloat 2)]) !! "B" = Some 99 /\
  RSRankUniverse (list_to_map [("A", zToFloat 1); ("B", zToFloat 2); ("C", zToFloat 3)]) = list_to_map [("A", 1); ("B", 50); ("C", 99)].
Proof. vm_compute. done. Qed.
