(* ===== verification/Setup.v ===== *)
(** * Setups (src/internal/indicators)

    Swing points, the volatility contraction base, the trend template, the stage
    classifier and the trade plan: the patterns the SEPA strategy looks for.  [None]
    is a panic of the code: slices of different lengths or a swing lookback below
    one. *)

From Stdlib Require Import SpecFloat.
From stdpp Require Import gmap strings list sorting.
From S2P Require Import Prelude Lists Fixed Money Float64 Indicators.
Set Default Goal Selector "!".
#[local] Open Scope string_scope.
#[local] Open Scope Z_scope.
#[local] Open Scope list_scope.
#[local] Abbreviation length := List.length.
#[local] Abbreviation floats := (list float64).

(** [x[lo:hi]]. *)
Definition slice {A} (lo hi : nat) (x : list A) : list A := firstn (hi - lo) (skipn lo x).

(** ** Swing points (swing.go) *)

Inductive SwingKind : Set := SwingHigh | SwingLow.

Record Swing : Set := mkSwing { sw_Idx : nat; sw_Price : float64; sw_Kind : SwingKind }.

(** The first best sample of a segment and its position. *)
Fixpoint argLoop (better : float64 -> float64 -> bool) (best : float64) (arg j : nat) (x : floats) : float64 * nat :=
  match x with
  | [] => (best, arg)
  | v :: x => if better v best then argLoop better v j (S j) x else argLoop better best arg (S j) x
  end.

Definition argBest (better : float64 -> float64 -> bool) (seg : floats) : float64 * nat :=
  match seg with [] => (NaN, 0%nat) | v :: seg => argLoop better v 0 1 seg end.

(** Is the centre of its window the leftmost best one? *)
Definition isSwing (better : float64 -> float64 -> bool) (x : floats) (lookback i : nat) : bool :=
  let '(best, arg) := argBest better (slice (i - lookback) (i + lookback + 1) x) in
  feqb (at_ x i) best && (arg =? lookback)%nat.

Definition swingsAt (high low : floats) (lookback i : nat) : list Swing :=
  (if isSwing fgtb high lookback i then [mkSwing i (at_ high i) SwingHigh] else []) ++
  (if isSwing fltb low lookback i then [mkSwing i (at_ low i) SwingLow] else []).

Definition FindSwingPoints (high low : floats) (lookback : Z) : option (list Swing) :=
  if (lookback <? 1) || negb (length low =? length high)%nat then None
  else
    let l := Z.to_nat lookback in
    Some (List.concat (map (swingsAt high low l) (seq l (length high - l - l)))).

(** ** The volatility contraction base (vcp.go) *)

Definition VCPDryupBaselineThreshold : float64 := flit 7 10.
Definition VCPBaselineLookback : nat := 50.
Definition VCPDefaultBaseMinDays : Z := 25.
Definition VCPDefaultBaseMaxDays : Z := 150.

Record Contraction : Set := mkContraction { co_DepthPct : float64; co_LowPrice : float64; co_LowIdx : nat; co_HighIdx : nat }.

Definition ContractionDepthPct (high low : float64) : float64 := fmul (fdiv (fsub high low) high) hundred.

Record VCPSnapshot : Set := mkVCP {
  vc_Code : string;
  vc_Contractions : floats;
  vc_LastContractionPct : float64;
  vc_PivotPrice : float64;
  vc_BaseLengthDays : Z;
  vc_VolumeDryup : bool;
  vc_QualityScore : float64;
  vc_VolDryupRatio : float64;
  vc_FinalContractionDurationDays : Z;
  vc_BaseLowPrice : float64
}.

Record DetectVCPParams : Set := mkVCPParams {
  vp_Code : string;
  vp_Lookback : Z;
  vp_MinContractions : Z;
  vp_MaxLastContraction : float64;
  vp_BaseLengthMin : Z;
  vp_BaseLengthMax : Z
}.

Definition DefaultVCPParams : DetectVCPParams := mkVCPParams "" 5 2 (zToFloat 10) VCPDefaultBaseMinDays VCPDefaultBaseMaxDays.

(** A low consumes the pending high, also when the depth is out of range. *)
Definition contractionOf (lastHigh : float64) (highIdx : nat) (s : Swing) : list Contraction :=
  let depth := ContractionDepthPct lastHigh (sw_Price s) in
  if fgtb depth half && fltb depth (zToFloat 50) then [mkContraction depth (sw_Price s) (sw_Idx s) highIdx] else [].

Fixpoint pairLoop (pending : option (float64 * nat)) (swings : list Swing) : list Contraction :=
  match swings with
  | [] => []
  | s :: swings =>
      match sw_Kind s, pending with
      | SwingHigh, _ => pairLoop (Some (sw_Price s, sw_Idx s)) swings
      | SwingLow, Some (h, hi) => contractionOf h hi s ++ pairLoop None swings
      | SwingLow, None => pairLoop None swings
      end
  end.

(** Older contractions, newest first, as long as the depth does not shrink. *)
Fixpoint tailLoop (depth : float64) (older : list Contraction) : list Contraction :=
  match older with
  | [] => []
  | c :: older => if fgeb (co_DepthPct c) depth then c :: tailLoop (co_DepthPct c) older else []
  end.

Definition convergentTail (contractions : list Contraction) : list Contraction :=
  match rev contractions with
  | [] => []
  | newest :: older => rev (newest :: tailLoop (co_DepthPct newest) older)
  end.

(** Does the six-bar volume shrink from leg to leg? *)
Fixpoint dryupLoop (volume : floats) (prev : option float64) (tail : list Contraction) : bool :=
  match tail with
  | [] => true
  | c :: tail =>
      let avg := Mean (slice (co_LowIdx c - 5) (co_LowIdx c + 1) volume) in
      if match prev with Some p => fgeb avg p | None => false end then false else dryupLoop volume (Some avg) tail
  end.

(** The snapshot of a base whose legs are [tail], [last] being the newest. *)
Definition vcpSnapshot (code : string) (high low volume : floats) (tail : list Contraction) (first last : Contraction) (baseLen : Z) : VCPSnapshot :=
  let n := length high in
  let lastLow := co_LowIdx last in
  let pivot := if (lastLow + 1 <? n)%nat then Max (skipn (lastLow + 1) high) else at_ high (n - 1) in
  let baseLow :=
    if (lastLow + 1 <=? n)%nat && (co_LowIdx first <=? lastLow)%nat then Min (slice (co_LowIdx first) (lastLow + 1) low)
    else at_ low (co_LowIdx first) in
  let finalDuration := Z.max 1 (Z.of_nat lastLow - Z.of_nat (co_HighIdx last)) in
  let lo := (lastLow - VCPBaselineLookback)%nat in
  let hiBase := (1 `max` lastLow)%nat in
  let baselineAvg := if (lo <? hiBase)%nat then Mean (slice lo hiBase volume) else fzero in
  let finalAvg := if (co_HighIdx last <=? lastLow)%nat then Mean (slice (co_HighIdx last) (lastLow + 1) volume) else fzero in
  let ratio := if fgtb baselineAvg fzero then fdiv finalAvg baselineAvg else zToFloat 1 in
  let dryup := dryupLoop volume None tail && fltb ratio VCPDryupBaselineThreshold in
  let lastDepth := co_DepthPct last in
  let score := fadd (fmul (flit 1 4) (ofNat (length tail))) (fmul (flit 2 5) (fsub (zToFloat 1) (fdiv lastDepth (zToFloat 10)))) in
  let score := if dryup then fadd score (flit 1 5) else score in
  let score := if fgtb score (zToFloat 1) then zToFloat 1 else score in
  mkVCP code (map (fun c => RoundHalfEven (co_DepthPct c) 2) tail) (RoundHalfEven lastDepth 2) pivot baseLen dryup
    (RoundHalfEven score 2) (RoundHalfEven ratio 3) finalDuration baseLow.

Definition minContractions (p : DetectVCPParams) : Z := if vp_MinContractions p <=? 0 then 2 else vp_MinContractions p.

(** The base, once the swings are known. *)
Definition vcpOfSwings (high low volume : floats) (p : DetectVCPParams) (swings : list Swing) : option VCPSnapshot :=
  let contractions := pairLoop None swings in
  if Z.of_nat (length contractions) <? minContractions p then None
  else
    let tail := convergentTail contractions in
    match head tail, list.last tail with
    | Some first, Some last =>
        if Z.of_nat (length tail) <? minContractions p then None
        else if fgtb (co_DepthPct last) (vp_MaxLastContraction p) then None
        else
          let baseLen := Z.of_nat (length high) - 1 - Z.of_nat (co_LowIdx first) in
          if negb ((vp_BaseLengthMin p <=? baseLen) && (baseLen <=? vp_BaseLengthMax p)) then None
          else Some (vcpSnapshot (vp_Code p) high low volume tail first last baseLen)
    | _, _ => None
    end.

Definition DetectVCP (high low volume : floats) (p : DetectVCPParams) : option (option VCPSnapshot) :=
  let n := length high in
  if negb (length low =? n)%nat || negb (length volume =? n)%nat then None
  else if (n <? 30)%nat then Some None
  else swings ← FindSwingPoints high low (vp_Lookback p); Some (vcpOfSwings high low volume p swings).

(** ** The trend template (trend_template.go) *)

Definition TTHighLowWindow : nat := 252.
Definition TTMinBars : nat := 200.
(** [1.0 - TTHighTolerance] and [1.0 + TTLowPremium], constants of the compiler. *)
Definition highFactor : float64 := flit 3 4.
Definition lowFactor : float64 := flit 13 10.

Record TrendTemplateResult : Set := mkTrend {
  tt_Rule1CloseGtMA50 : bool;
  tt_Rule2CloseGtMA150 : bool;
  tt_Rule3CloseGtMA200 : bool;
  tt_Rule4MA50GtMA150 : bool;
  tt_Rule5MA150GtMA200 : bool;
  tt_Rule6Within25PctHigh : bool;
  tt_Rule7Above30PctLow : bool;
  tt_Rule8MarketCapAboveMin : bool;
  tt_Close : float64;
  tt_MA50 : float64;
  tt_MA150 : float64;
  tt_MA200 : float64;
  tt_High52w : float64;
  tt_Low52w : float64;
  tt_MarketCapUSD : float64;
  tt_MA200UptrendDays : Z
}.

Definition rulesOf (r : TrendTemplateResult) : list bool :=
  [tt_Rule1CloseGtMA50 r; tt_Rule2CloseGtMA150 r; tt_Rule3CloseGtMA200 r; tt_Rule4MA50GtMA150 r; tt_Rule5MA150GtMA200 r;
   tt_Rule6Within25PctHigh r; tt_Rule7Above30PctLow r; tt_Rule8MarketCapAboveMin r].

Definition Passed (r : TrendTemplateResult) : bool := forallb (fun b => b) (rulesOf r).
Definition PassingRules (r : TrendTemplateResult) : Z := Z.of_nat (length (List.filter (fun b => b) (rulesOf r))).

Definition EvaluateTrendTemplate (close high low : floats) (marketCapUSD marketCapMinUSD : float64) : TrendTemplateResult :=
  let n := length close in
  if (n <? TTMinBars)%nat then
    mkTrend false false false false false false false (fgeb marketCapUSD marketCapMinUSD)
      (if (0 <? n)%nat then lastNonWindow close else fzero) fzero fzero fzero fzero fzero marketCapUSD 0
  else
    let c := lastNonWindow close in
    let ma50 := lastNonWindow (MA close 50) in
    let ma150 := lastNonWindow (MA close 150) in
    let ma200 := lastNonWindow (MA close 200) in
    let high52w := FiftyTwoWeekHigh high TTHighLowWindow in
    let low52w := FiftyTwoWeekLow low TTHighLowWindow in
    mkTrend (fgtb c ma50) (fgtb c ma150) (fgtb c ma200) (fgtb ma50 ma150) (fgtb ma150 ma200)
      (fgeb c (fmul high52w highFactor)) (if fgtb low52w fzero then fgeb c (fmul low52w lowFactor) else false)
      (fgeb marketCapUSD marketCapMinUSD) c ma50 ma150 ma200 high52w low52w marketCapUSD (MAUptrendDays close 200).

(** ** Stages *)

Definition StageMinBars : nat := 220.
Definition StageMomentumWindow : nat := 60.
Definition StageRecentMomentumThresh : float64 := zToFloat 5.
Definition StageSlopeBullThreshold : float64 := zToFloat 1.
Definition StageSlopeBearThreshold : float64 := zToFloat (-1).
Definition StageSlopeBaseThreshold : float64 := flit 1 2.
Definition StageAboveMAHistoryFraction : float64 := flit 7 10.

(** The decision, from the last close, the averages, the slope, the momentum and
    the share of closes above the long average. *)
Definition stageOf (last ma150 ma200 slope momentum aboveFrac : float64) : string :=
  if fgtb last ma150 && fgtb ma150 ma200 && fgtb slope StageSlopeBullThreshold && fgtb momentum StageRecentMomentumThresh then "2"
  else if fltb last ma150 && fltb ma150 ma200 && fltb slope StageSlopeBearThreshold then "4"
  else if fgtb last ma200 && fgtb slope StageSlopeBullThreshold && fltb momentum StageRecentMomentumThresh then "3"
  else if fgtb aboveFrac StageAboveMAHistoryFraction && fleb (fabs slope) StageSlopeBullThreshold then "3"
  else if fltb (fabs slope) StageSlopeBaseThreshold then "1"
  else "unknown".

Definition momentumOf (recent prior : float64) : float64 := fmul (fdiv (fsub recent prior) prior) hundred.

Definition ClassifyStage (close : floats) : string :=
  let n := length close in
  if (n <? StageMinBars)%nat then "unknown"
  else
    let ma200series := MA close 200 in
    let slope := MASlopePct close 200 20 in
    let momentum :=
      if (2 * StageMomentumWindow <=? n)%nat
      then momentumOf (Mean (skipn (n - StageMomentumWindow) close)) (Mean (slice (n - 2 * StageMomentumWindow) (n - StageMomentumWindow) close))
      else slope in
    stageOf (lastNonWindow close) (lastNonWindow (MA close 150)) (lastNonWindow ma200series) slope momentum (FractionAbove close ma200series 200).

(** ** The trade plan (tradeplan.go) *)

Definition SwingPlanLookback : Z := 10.
Definition VolumeSMALookback : Z := 50.

Definition completedTail (x : floats) (lookback : Z) (completedExclusive : bool) : floats :=
  let n := Z.of_nat (length x) - (if completedExclusive then 1 else 0) in
  if (n <=? 0) || (lookback <=? 0) then [] else slice (Z.to_nat (n - lookback)) (Z.to_nat n) x.

Definition SwingHighPivot (high : floats) (lookback : Z) (completedExclusive : bool) : float64 :=
  match completedTail high lookback completedExclusive with [] => fzero | seg => Max seg end.
Definition SwingLowStop (low : floats) (lookback : Z) (completedExclusive : bool) : float64 :=
  match completedTail low lookback completedExclusive with [] => fzero | seg => Min seg end.

Definition VolumeRatio (volume : floats) (lookback : Z) : float64 :=
  if (Z.of_nat (length volume) <? lookback) || (lookback <=? 0) then fzero
  else
    let avg := Mean (lastn (Z.to_nat lookback) volume) in
    if fleb avg fzero then fzero else fdiv (lastNonWindow volume) avg.

Definition ProximityToTriggerPct (pivot close : float64) : float64 :=
  if fleb close fzero then fzero else fmul (fdiv (fsub pivot close) close) hundred.
Definition RiskPct (pivot stop : float64) : float64 :=
  if fleb pivot fzero then fzero else fmul (fdiv (fsub pivot stop) pivot) hundred.
Definition PctOff52wkHigh (close high52wk : float64) : float64 :=
  if fleb high52wk fzero then fzero else fmul (fdiv (fsub close high52wk) high52wk) hundred.

Record BuyReadinessInputs : Set := mkReadiness {
  br_ProximityPct : float64;
  br_RSRank : Z;
  br_HasVCP : bool;
  br_BaseDepthPct : float64;
  br_RiskPct : float64
}.

Definition clamp01 (x : float64) : float64 := if fltb x fzero then fzero else if fgtb x (zToFloat 1) then zToFloat 1 else x.

Definition proximityScore (p : float64) : float64 :=
  if fgeb p fzero && fleb p (zToFloat 5) then fsub (zToFloat 1) (fmul (flit 2 5) (fdiv p (zToFloat 5)))
  else if fgtb p (zToFloat 5) then clamp01 (fdiv (fmul (flit 3 5) (fsub (zToFloat 25) p)) (zToFloat 20))
  else clamp01 (fdiv (fadd (zToFloat 3) p) (zToFloat 3)).

Definition tightnessScore (hasVCP : bool) (d : float64) : float64 :=
  if hasVCP then
    if fleb d (zToFloat 8) then zToFloat 1
    else if fgeb d (zToFloat 25) then fzero
    else fdiv (fsub (zToFloat 25) d) (zToFloat 17)
  else flit 3 10.

Definition riskScore (rk : float64) : float64 :=
  if fleb rk (zToFloat 3) then zToFloat 1
  else if fgeb rk (zToFloat 15) then fzero
  else fdiv (fsub (zToFloat 15) rk) (zToFloat 12).

Definition BuyReadiness (i : BuyReadinessInputs) : float64 :=
  let rs := if 0 <? br_RSRank i then clamp01 (fdiv (zToFloat (br_RSRank i)) (zToFloat RSRankMax)) else fzero in
  let sum := fadd (fadd (fadd (fmul (flit 2 5) (proximityScore (br_ProximityPct i))) (fmul (flit 3 10) rs))
               (fmul (flit 1 5) (tightnessScore (br_HasVCP i) (br_BaseDepthPct i)))) (fmul (flit 1 10) (riskScore (br_RiskPct i))) in
  let score := fmul hundred sum in
  fdiv (fround (fmul score hundred)) hundred.

(** ** Swing points are the strict leftmost extrema *)

Definition nanFree (x : floats) : Prop := forall v, In v x -> isNaN v = false.

(** A strict order of samples, by value or by the reverse of it. *)
Section Extrema.
Context (better : float64 -> float64 -> bool) (gt : float64 -> float64 -> Prop).
Hypothesis (Hb : forall a b, isNaN a = false -> isNaN b = false -> better a b = true <-> gt a b).
Hypothesis (Hirr : forall a, ~ gt a a).
Hypothesis (Htr : forall a b c, gt a b -> gt b c -> gt a c).
Hypothesis (Hweak : forall a b c, gt a b -> ~ gt c b -> gt a c).

Lemma argLoop_spec x : forall best arg j seen, nanFree x -> nanFree seen -> isNaN best = false -> length seen = j ->
  (arg < j)%nat -> at_ seen arg = best ->
  (forall k, (k < arg)%nat -> gt best (at_ seen k)) -> (forall k, (k < j)%nat -> ~ gt (at_ seen k) best) ->
  let '(b, a) := argLoop better best arg j x in
  isNaN b = false /\ (a < length (seen ++ x))%nat /\ at_ (seen ++ x) a = b /\
  (forall k, (k < a)%nat -> gt b (at_ (seen ++ x) k)) /\ (forall k, (k < length (seen ++ x))%nat -> ~ gt (at_ (seen ++ x) k) b).
Proof.
  induction x as [|v x IH]; intros best arg j seen Hx Hs Hn Hl Ha Hat Hlt Hge.
  { cbn [argLoop]. rewrite app_nil_r. splits; [done|lia|done|done|]. intros k Hk. apply Hge. lia. }
  cbn [argLoop]. assert (Hv : isNaN v = false) by (apply Hx; by left).
  assert (Hx' : nanFree x) by (intros u Hu; apply Hx; by right).
  assert (Hs' : nanFree (seen ++ [v])) by (intros u Hu; apply in_app_iff in Hu as [Hu|[<-|[]]]; [by apply Hs|done]).
  replace (seen ++ v :: x) with ((seen ++ [v]) ++ x) by (by rewrite <- app_assoc).
  pose proof (Hb v best Hv Hn) as Hbb. destruct (better v best) eqn:E.
  - assert (Hg : gt v best) by (by apply Hbb). apply IH; try done; try (rewrite length_app; cbn; lia); try lia.
    + rewrite at_snoc. by rewrite decide_True.
    + intros k Hk. rewrite at_snoc. rewrite decide_False by lia. apply Hweak with best; [done|apply Hge; lia].
    + intros k Hk. rewrite at_snoc. destruct (decide (k = length seen)); [apply Hirr|]. intros Hg'.
      apply (Hge k); [lia|]. by apply Htr with v.
  - apply IH; try done; try (rewrite length_app; cbn; lia); try lia.
    + rewrite at_snoc. by rewrite decide_False by lia.
    + intros k Hk. rewrite at_snoc. rewrite decide_False by lia. by apply Hlt.
    + intros k Hk. rewrite at_snoc. destruct (decide (k = length seen)); [|apply Hge; lia]. intros Hg. apply Hbb in Hg. congruence.
Qed.
End Extrema.

Lemma length_slice {A} lo hi (x : list A) : (lo <= hi <= length x)%nat -> length (slice lo hi x) = (hi - lo)%nat.
Proof. intros H. unfold slice. rewrite length_firstn, length_skipn. lia. Qed.
Lemma at_slice lo hi (x : floats) k : (k < hi - lo)%nat -> at_ (slice lo hi x) k = at_ x (lo + k).
Proof.
  intros H. unfold at_, slice. rewrite <- (nth_skipn lo). generalize (skipn lo x) as y. intros y.
  rewrite !nth_lookup, lookup_take_lt by done. done.
Qed.
Lemma slice_in {A} lo hi (x : list A) v : In v (slice lo hi x) -> In v x.
Proof.
  unfold slice. intros H. rewrite <- (firstn_skipn lo x). apply in_app_iff. right. rewrite <- (firstn_skipn (hi - lo) (skipn lo x)).
  apply in_app_iff. by left.
Qed.
Lemma at_in (x : floats) i : (i < length x)%nat -> In (at_ x i) x.
Proof. intros H. by apply nth_In. Qed.

(** The centre is the first of the best of its window. *)
Definition leftmostBest (gt : float64 -> float64 -> Prop) (x : floats) (l i : nat) : Prop :=
  (forall j, (i - l <= j < i)%nat -> gt (at_ x i) (at_ x j)) /\ (forall j, (i < j <= i + l)%nat -> ~ gt (at_ x j) (at_ x i)).

Section Swing.
Context (better : float64 -> float64 -> bool) (gt : float64 -> float64 -> Prop).
Hypothesis (Hb : forall a b, isNaN a = false -> isNaN b = false -> better a b = true <-> gt a b).
Hypothesis (Hirr : forall a, ~ gt a a).
Hypothesis (Htr : forall a b c, gt a b -> gt b c -> gt a c).
Hypothesis (Hweak : forall a b c, gt a b -> ~ gt c b -> gt a c).

Lemma argBest_spec seg : (0 < length seg)%nat -> nanFree seg ->
  let '(b, a) := argBest better seg in
  isNaN b = false /\ (a < length seg)%nat /\ at_ seg a = b /\
  (forall k, (k < a)%nat -> gt b (at_ seg k)) /\ (forall k, (k < length seg)%nat -> ~ gt (at_ seg k) b).
Proof.
  destruct seg as [|v seg]; cbn [List.length]; [lia|]. intros _ Hn. cbn [argBest].
  apply (argLoop_spec better gt Hb Hirr Htr Hweak seg v 0 1 [v]); try done; try lia.
  - intros u Hu. apply Hn. by right.
  - intros u [<-|[]]. apply Hn. by left.
  - apply Hn. by left.
  - intros k Hk. assert (k = 0)%nat as -> by lia. apply Hirr.
Qed.

Lemma feqb_refl v : isNaN v = false -> feqb v v = true.
Proof.
  destruct v as [|[|]| |[|] m e]; try done; intros _; unfold feqb, SFeqb, SFcompare; rewrite Z.compare_refl;
    change (Pos.compare_cont Eq m m) with (m ?= m)%positive; by rewrite Pos.compare_refl.
Qed.

Lemma isSwing_iff x l i : (0 < l)%nat -> (l <= i)%nat -> (i + l < length x)%nat -> nanFree x ->
  isSwing better x l i = true <-> leftmostBest gt x l i.
Proof.
  intros Hl Hi Hn Hx. unfold isSwing. set (seg := slice (i - l) (i + l + 1) x).
  assert (Hlen : length seg = (2 * l + 1)%nat) by (unfold seg; rewrite length_slice; lia).
  assert (Hseg : nanFree seg) by (intros v Hv; by apply Hx, (slice_in _ _ _ _ Hv)).
  assert (Hat : forall k, (k < 2 * l + 1)%nat -> at_ seg k = at_ x (i - l + k)) by (intros k Hk; apply at_slice; lia).
  pose proof (argBest_spec seg ltac:(lia) Hseg) as H. destruct (argBest better seg) as [b a]. destruct H as (Hbn & Ha & Hab & Hlt & Hge).
  assert (Hc : at_ seg l = at_ x i) by (rewrite Hat by lia; f_equal; lia).
  rewrite andb_true_iff, Nat.eqb_eq. split.
  - intros [_ ->]. rewrite Hc in Hab. subst b. split; intros j Hj.
    + replace j with (i - l + (j - (i - l)))%nat by lia. rewrite <- Hat by lia. apply Hlt. lia.
    + replace j with (i - l + (j - (i - l)))%nat by lia. rewrite <- Hat by lia. apply Hge. lia.
  - intros [H1 H2]. assert (Hal : a = l).
    { destruct (Nat.lt_trichotomy a l) as [Hlt'|[E|Hgt]]; [|done|].
      - destruct (Hge l); [lia|]. rewrite Hc, <- Hab, Hat by lia. apply H1. lia.
      - exfalso. specialize (Hlt l Hgt). rewrite Hc, <- Hab, Hat in Hlt by lia. revert Hlt. apply H2. lia. }
    split; [|done]. rewrite <- Hab, Hal, Hc. apply feqb_refl, Hx, at_in. lia.
Qed.
End Swing.

Definition above (a b : float64) : Prop := klt (fkey b) (fkey a).
Definition below (a b : float64) : Prop := klt (fkey a) (fkey b).

Lemma high_iff x l i : (0 < l)%nat -> (l <= i)%nat -> (i + l < length x)%nat -> nanFree x -> isSwing fgtb x l i = true <-> leftmostBest above x l i.
Proof.
  apply isSwing_iff.
  - intros a b Ha Hb. unfold fgtb. by apply fltb_key.
  - intros a. apply klt_irrefl.
  - intros a b c H1 H2. exact (klt_trans _ _ _ H2 H1).
  - intros a b c H1 H2. exact (klt_not_lt _ _ _ H2 H1).
Qed.
Lemma low_iff x l i : (0 < l)%nat -> (l <= i)%nat -> (i + l < length x)%nat -> nanFree x -> isSwing fltb x l i = true <-> leftmostBest below x l i.
Proof.
  apply isSwing_iff.
  - intros a b Ha Hb. by apply fltb_key.
  - intros a. apply klt_irrefl.
  - intros a b c H1 H2. exact (klt_trans _ _ _ H1 H2).
  - intros a b c H1 H2. exact (klt_lt_not _ _ _ H1 H2).
Qed.

(** Swings come in order, a high before a low of the same bar. *)
Definition swingBefore (a b : Swing) : Prop := (sw_Idx a < sw_Idx b)%nat \/ sw_Idx a = sw_Idx b /\ sw_Kind a = SwingHigh /\ sw_Kind b = SwingLow.

Lemma swingsAt_in high low l i s : In s (swingsAt high low l i) <->
  sw_Idx s = i /\ match sw_Kind s with
                  | SwingHigh => sw_Price s = at_ high i /\ isSwing fgtb high l i = true
                  | SwingLow => sw_Price s = at_ low i /\ isSwing fltb low l i = true
                  end.
Proof.
  unfold swingsAt. rewrite in_app_iff. destruct s as [si sp sk]. cbn. destruct (isSwing fgtb high l i), (isSwing fltb low l i), sk; cbn;
    split; try (intros [[?|[]]|[]]; simplify_eq; done); intuition simplify_eq; naive_solver.
Qed.

Lemma swingsAt_sorted high low l i : StronglySorted swingBefore (swingsAt high low l i).
Proof.
  unfold swingsAt. destruct (isSwing fgtb high l i), (isSwing fltb low l i); cbn; [|repeat constructor..].
  constructor; [repeat constructor|]. constructor; [by right|constructor].
Qed.

Lemma swings_sorted high low l n : forall a, StronglySorted swingBefore (List.concat (map (swingsAt high low l) (seq a n))).
Proof.
  induction n as [|n IH]; intros a; cbn; [constructor|]. apply StronglySorted_app_2; [|apply swingsAt_sorted|apply IH].
  intros s t Hs Ht. rewrite list_elem_of_In in Hs, Ht. apply swingsAt_in in Hs as [Es _]. apply in_concat in Ht as (b & Hb & Ht).
  apply in_map_iff in Hb as (i & <- & Hi). apply in_seq in Hi. apply swingsAt_in in Ht as [Et _]. left. lia.
Qed.

(** Swing points are exact.  On highs and lows without NaN, a bar is reported as a
    swing high just when its high is above every earlier high of the window around
    it and not below any later one, and symmetrically for swing lows; no bar closer
    than the lookback to an end is reported, and the swings come in the order of the
    bars, a high before a low of the same bar. *)
Theorem swing_points_exact (high low : floats) (lookback : Z) (Hl : 1 <= lookback) (Hlen : length low = length high)
    (Hh : nanFree high) (Hlo : nanFree low) :
  exists swings, FindSwingPoints high low lookback = Some swings /\ StronglySorted swingBefore swings /\
  let l := Z.to_nat lookback in
  forall s, In s swings <->
    (l <= sw_Idx s)%nat /\ (sw_Idx s + l < length high)%nat /\
    match sw_Kind s with
    | SwingHigh => sw_Price s = at_ high (sw_Idx s) /\ leftmostBest above high l (sw_Idx s)
    | SwingLow => sw_Price s = at_ low (sw_Idx s) /\ leftmostBest below low l (sw_Idx s)
    end.
Proof.
  unfold FindSwingPoints. rewrite (proj2 (Z.ltb_ge _ _)) by lia. rewrite (proj2 (Nat.eqb_eq _ _)) by done. cbn [orb negb].
  eexists. split; [done|]. split; [apply swings_sorted|]. cbv zeta. intros s. rewrite in_concat. split.
  - intros (b & Hb & Hs). apply in_map_iff in Hb as (i & <- & Hi). apply in_seq in Hi. apply swingsAt_in in Hs as [<- Hs].
    splits; [lia|lia|]. destruct (sw_Kind s); (destruct Hs as [H1 H2]; split; [done|]); [apply high_iff|apply low_iff]; try done; lia.
  - intros (H1 & H2 & H3). exists (swingsAt high low (Z.to_nat lookback) (sw_Idx s)). split; [apply in_map, in_seq; lia|].
    apply swingsAt_in. split; [done|]. destruct (sw_Kind s); (destruct H3 as [H4 H5]; split; [done|]); [apply high_iff|apply low_iff]; try done; lia.
Qed.

Lemma swing_points_exact_witness :
  FindSwingPoints (map zToFloat [1; 3; 2; 5; 5; 1; 2]) (map zToFloat [1; 2; 1; 4; 4; 0; 1]) 1 =
    Some [mkSwing 1 (zToFloat 3) SwingHigh; mkSwing 2 (zToFloat 1) SwingLow; mkSwing 3 (zToFloat 5) SwingHigh; mkSwing 5 (zToFloat 0) SwingLow] /\
  exists swings, FindSwingPoints (map zToFloat [1; 3; 2; 5; 5; 1; 2]) (map zToFloat [1; 2; 1; 4; 4; 0; 1]) 1 = Some swings /\ StronglySorted swingBefore swings.
Proof.
  split; [vm_compute; reflexivity|].
  destruct (swing_points_exact (map zToFloat [1; 3; 2; 5; 5; 1; 2]) (map zToFloat [1; 2; 1; 4; 4; 0; 1]) 1) as (sw & E & Hs & _); [lia|reflexivity| | |].
  - intros v Hv. cbn in Hv. repeat destruct Hv as [<-|Hv]; try reflexivity. destruct Hv.
  - intros v Hv. cbn in Hv. repeat destruct Hv as [<-|Hv]; try reflexivity. destruct Hv.
  - exists sw. split; [exact E|exact Hs].
Defined.

(** ** A detected base *)

(** Read from the newest leg back, depths do not shrink. *)
Definition notShallower (newer older : Contraction) : Prop := fgeb (co_DepthPct older) (co_DepthPct newer) = true.

Lemma tailLoop_spec older : forall d, exists rest, older = tailLoop d older ++ rest /\
  (forall newest, co_DepthPct newest = d -> Sorted notShallower (newest :: tailLoop d older)) /\
  (forall c rest', rest = c :: rest' -> fgeb (co_DepthPct c) (match list.last (tailLoop d older) with Some o => co_DepthPct o | None => d end) = false).
Proof.
  induction older as [|c older IH]; intros d; [exists []; splits; [done|intros; repeat constructor|done]|].
  cbn [tailLoop]. destruct (fgeb (co_DepthPct c) d) eqn:E.
  - destruct (IH (co_DepthPct c)) as (rest & E1 & Hs & Hm). exists rest. splits; [by cbn; f_equal| |].
    + intros newest Hd. constructor; [by apply Hs|]. constructor. unfold notShallower. by rewrite Hd.
    + intros c' rest' Hr. specialize (Hm c' rest' Hr). rewrite last_cons. by destruct (list.last (tailLoop _ older)).
  - exists (c :: older). splits; [done|intros; repeat constructor|]. by intros c' rest' [= <- <-].
Qed.

Lemma convergentTail_spec cs : cs <> [] -> exists older newest tail,
  convergentTail cs = rev (newest :: tail) /\ cs = older ++ convergentTail cs /\ Sorted notShallower (newest :: tail) /\
  (forall c, list.last older = Some c -> fgeb (co_DepthPct c) (match list.last (newest :: tail) with Some o => co_DepthPct o | None => NaN end) = false).
Proof.
  intros Hne. unfold convergentTail. destruct (rev cs) as [|newest older] eqn:E.
  { destruct Hne. rewrite <- (rev_involutive cs), E. done. }
  destruct (tailLoop_spec older (co_DepthPct newest)) as (rest & E1 & Hs & Hm).
  exists (rev rest), newest, (tailLoop (co_DepthPct newest) older). splits; [done| |by apply Hs|].
  - rewrite <- (rev_involutive cs), E, E1 at 1. change (newest :: tailLoop (co_DepthPct newest) older ++ rest) with ((newest :: tailLoop (co_DepthPct newest) older) ++ rest).
    by rewrite rev_app_distr.
  - intros c Hc. destruct rest as [|r rest]; [done|]. cbn [rev] in Hc. rewrite last_snoc in Hc. injection Hc as <-. specialize (Hm r rest eq_refl).
    rewrite last_cons. by destruct (list.last (tailLoop _ older)).
Qed.

(** A contraction joins a swing high to a swing low that follows it. *)
Definition legOf (swings : list Swing) (c : Contraction) : Prop :=
  exists h l, In h swings /\ In l swings /\ sw_Kind h = SwingHigh /\ sw_Kind l = SwingLow /\ (sw_Idx h <= sw_Idx l)%nat /\
    co_HighIdx c = sw_Idx h /\ co_LowIdx c = sw_Idx l /\ co_LowPrice c = sw_Price l /\
    co_DepthPct c = ContractionDepthPct (sw_Price h) (sw_Price l) /\
    fgtb (co_DepthPct c) half = true /\ fltb (co_DepthPct c) (zToFloat 50) = true.

Lemma pairLoop_legs all swings : forall pending,
  incl swings all -> StronglySorted swingBefore swings ->
  (forall p hi, pending = Some (p, hi) -> In (mkSwing hi p SwingHigh) all /\ forall s, In s swings -> (hi <= sw_Idx s)%nat) ->
  forall c, In c (pairLoop pending swings) -> legOf all c.
Proof.
  induction swings as [|s swings IH]; intros pending Hi Hs Hp c Hc; [done|].
  apply StronglySorted_inv in Hs as [Hs Hh]. rewrite List.Forall_forall in Hh.
  assert (Hi' : incl swings all) by (intros t Ht; apply Hi; by right). cbn [pairLoop] in Hc. destruct (sw_Kind s) eqn:Ek.
  - eapply (IH (Some (sw_Price s, sw_Idx s))); [done|done| |done]. intros p hi [= <- <-]. split.
    + replace (mkSwing (sw_Idx s) (sw_Price s) SwingHigh) with s by (by destruct s; cbn in *; subst). apply Hi. by left.
    + intros t Ht. destruct (Hh t Ht) as [|[-> _]]; lia.
  - destruct pending as [[h hi]|]; [|by eapply (IH None)]. destruct (Hp h hi eq_refl) as [Hin Hle].
    apply in_app_iff in Hc as [Hc|Hc]; [|by eapply (IH None)]. unfold contractionOf in Hc.
    destruct (fgtb _ half && fltb _ (zToFloat 50)) eqn:Ed; [|done]. destruct Hc as [<-|[]]. apply andb_true_iff in Ed as [D1 D2].
    exists (mkSwing hi h SwingHigh), s. cbn [sw_Kind sw_Idx sw_Price co_HighIdx co_LowIdx co_LowPrice co_DepthPct].
    splits; try done; [apply Hi; by left|]. apply Hle. by left.
Qed.

Lemma head_rev_last {A} (x : A) l : head (rev (x :: l)) = list.last (x :: l).
Proof.
  rewrite <- (rev_involutive (x :: l)) at 2. destruct (rev (x :: l)) as [|y r] eqn:E; [by apply (f_equal (@rev A)) in E; rewrite rev_involutive in E|].
  cbn [rev head]. by rewrite last_snoc.
Qed.

(** The lows of the contractions come in order. *)
Lemma pairLoop_lows swings : forall pending c, In c (pairLoop pending swings) -> exists s, In s swings /\ co_LowIdx c = sw_Idx s.
Proof.
  induction swings as [|s swings IH]; intros pending c Hc; [done|]. cbn [pairLoop] in Hc.
  assert (Hrest : forall pend, In c (pairLoop pend swings) -> exists t, In t (s :: swings) /\ co_LowIdx c = sw_Idx t)
    by (intros pend Hin; destruct (IH pend c Hin) as (t & ? & ?); exists t; split; [by right|done]).
  destruct (sw_Kind s); [by eapply Hrest|]. destruct pending as [[h hi]|]; [|by eapply Hrest].
  apply in_app_iff in Hc as [Hc|Hc]; [|by eapply Hrest]. unfold contractionOf in Hc. destruct (fgtb _ half && _); [|done].
  destruct Hc as [<-|[]]. exists s. split; [by left|done].
Qed.

Definition lowsOrdered (a b : Contraction) : Prop := (co_LowIdx a <= co_LowIdx b)%nat.

Lemma pairLoop_ordered swings : forall pending, StronglySorted swingBefore swings -> StronglySorted lowsOrdered (pairLoop pending swings).
Proof.
  induction swings as [|s swings IH]; intros pending Hs; [constructor|]. apply StronglySorted_inv in Hs as [Hs Hh]. rewrite List.Forall_forall in Hh.
  cbn [pairLoop]. destruct (sw_Kind s); [by apply IH|]. destruct pending as [[h hi]|]; [|by apply IH].
  unfold contractionOf. destruct (fgtb _ half && _); [|by apply IH]. cbn. constructor; [by apply IH|]. apply List.Forall_forall.
  intros c Hc. destruct (pairLoop_lows swings None c Hc) as (t & Ht & E). unfold lowsOrdered. cbn. rewrite E. destruct (Hh t Ht) as [|[-> _]]; lia.
Qed.

Lemma FindSwingPoints_inv high low lookback swings : FindSwingPoints high low lookback = Some swings ->
  StronglySorted swingBefore swings /\ forall s, In s swings -> (sw_Idx s + 1 < length high)%nat.
Proof.
  unfold FindSwingPoints. destruct (Z.ltb_spec lookback 1); [done|]. destruct (length low =? length high)%nat; [|done]. cbn [orb negb].
  intros [= <-]. split; [apply swings_sorted|]. intros s Hs. apply in_concat in Hs as (b & Hb & Hs). apply in_map_iff in Hb as (i & <- & Hi).
  apply in_seq in Hi. apply swingsAt_in in Hs as [-> _]. lia.
Qed.

Lemma head_last_ordered legs first newest : StronglySorted lowsOrdered legs -> head legs = Some first -> list.last legs = Some newest ->
  (co_LowIdx first <= co_LowIdx newest)%nat.
Proof.
  intros Hs Hf Hl. destruct legs as [|c legs]; [done|]. injection Hf as ->. apply StronglySorted_inv in Hs as [_ Hs]. rewrite List.Forall_forall in Hs.
  rewrite last_cons in Hl. destruct (list.last legs) as [o|] eqn:E; injection Hl as <-; [|done]. apply Hs. apply last_Some_elem_of in E.
  by apply list_elem_of_In.
Qed.

(** A detected base is what it is said to be.  Its legs are the newest
    contractions, each the step from a swing high down to a later swing low by more
    than half and less than fifty percent; read backwards no leg is shallower than
    the one after it, and the contraction before them, if any, is; there are enough
    of them, the newest is no deeper than allowed, the base is neither too short nor
    too long, and the pivot is the highest high after its last low. *)
Theorem detected_base_is_valid (high low volume : floats) (p : DetectVCPParams) (snap : VCPSnapshot)
    (Hdetected : DetectVCP high low volume p = Some (Some snap)) :
  exists swings older legs first newest,
    FindSwingPoints high low (vp_Lookback p) = Some swings /\ pairLoop None swings = older ++ legs /\
    (forall c, In c legs -> legOf swings c) /\ head legs = Some first /\ list.last legs = Some newest /\
    minContractions p <= Z.of_nat (length legs) /\ Sorted notShallower (rev legs) /\
    (forall c, list.last older = Some c -> fgeb (co_DepthPct c) (co_DepthPct first) = false) /\
    fgtb (co_DepthPct newest) (vp_MaxLastContraction p) = false /\
    vc_BaseLengthDays snap = Z.of_nat (length high) - 1 - Z.of_nat (co_LowIdx first) /\
    vp_BaseLengthMin p <= vc_BaseLengthDays snap <= vp_BaseLengthMax p /\
    vc_Contractions snap = map (fun c => RoundHalfEven (co_DepthPct c) 2) legs /\
    vc_PivotPrice snap = Max (skipn (co_LowIdx newest + 1) high) /\
    vc_BaseLowPrice snap = Min (slice (co_LowIdx first) (co_LowIdx newest + 1) low).
Proof.
  unfold DetectVCP in Hdetected. destruct (negb _ || negb _); [done|]. destruct (length high <? 30)%nat; [done|].
  destruct (FindSwingPoints high low (vp_Lookback p)) as [swings|] eqn:Ef; [|done]. cbn in Hdetected.
  destruct (FindSwingPoints_inv _ _ _ _ Ef) as [Hsw Hidx]. injection Hdetected as H. unfold vcpOfSwings in H.
  set (cs := pairLoop None swings) in *. destruct (Z.ltb_spec (Z.of_nat (length cs)) (minContractions p)) as [|Hmin]; [done|].
  assert (Hpos : 0 < minContractions p) by (unfold minContractions; destruct (Z.leb_spec (vp_MinContractions p) 0); lia).
  assert (Hne : cs <> []) by (intros E; rewrite E in Hmin; cbn in Hmin; lia).
  destruct (convergentTail_spec cs Hne) as (older & newest & tail & Et & Ec & Hs & Hm).
  assert (Hlegs : forall c, In c (convergentTail cs) -> legOf swings c).
  { intros c Hc. eapply (pairLoop_legs swings swings None); [by intros t|done|done|]. fold cs. rewrite Ec. apply in_app_iff. by right. }
  assert (Hord : StronglySorted lowsOrdered (convergentTail cs)).
  { pose proof (pairLoop_ordered swings None Hsw) as Ho. fold cs in Ho. rewrite Ec in Ho. clear -Ho. induction older as [|o older IH]; [done|].
    apply IH. cbn in Ho. by apply StronglySorted_inv in Ho as [? _]. }
  destruct (head (convergentTail cs)) as [first|] eqn:Eh; [|done]. destruct (list.last (convergentTail cs)) as [new|] eqn:El; [|done].
  destruct (Z.ltb_spec (Z.of_nat (length (convergentTail cs))) (minContractions p)) as [|Hlen]; [done|].
  destruct (fgtb (co_DepthPct new) (vp_MaxLastContraction p)) eqn:Ed; [done|].
  destruct (Z.leb_spec (vp_BaseLengthMin p) (Z.of_nat (length high) - 1 - Z.of_nat (co_LowIdx first))) as [Hb1|]; [|done].
  destruct (Z.leb_spec (Z.of_nat (length high) - 1 - Z.of_nat (co_LowIdx first)) (vp_BaseLengthMax p)) as [Hb2|]; [|done].
  cbn [andb negb] in H. injection H as <-. pose proof (head_last_ordered _ _ _ Hord Eh El) as Hfl.
  assert (Hnew : (co_LowIdx new + 1 < length high)%nat).
  { apply last_Some_elem_of in El. rewrite list_elem_of_In in El. destruct (Hlegs new El) as (h & l & _ & Hl & _ & _ & _ & _ & -> & _). by apply Hidx. }
  exists swings, older, (convergentTail cs), first, new. cbn [vcpSnapshot vc_BaseLengthDays vc_Contractions vc_PivotPrice vc_BaseLowPrice].
  splits; try done; try lia.
  - by rewrite Et, rev_involutive.
  - intros c Hc. specialize (Hm c Hc). rewrite Et, head_rev_last in Eh. by rewrite Eh in Hm.
  - by rewrite (proj2 (Nat.ltb_lt _ _)).
  - rewrite (proj2 (Nat.leb_le _ _)) by lia. by rewrite (proj2 (Nat.leb_le _ _)).
Qed.

(** ** Witness *)

Definition demoHigh : floats := map zToFloat ([100; 110; 102; 104; 105; 103] ++ repeat 104 34).
Definition demoLow : floats := map zToFloat ([98; 105; 95; 100; 101; 99] ++ repeat 100 34).
Definition demoVolume : floats := map zToFloat (repeat 1000 40).
Definition demoParams : DetectVCPParams := mkVCPParams "ACME" 1 2 (zToFloat 10) VCPDefaultBaseMinDays VCPDefaultBaseMaxDays.

Definition demoBase : VCPSnapshot :=
  mkVCP "ACME" [flit 1364 100; flit 571 100] (flit 571 100) (zToFloat 104) 37 false (flit 67 100) (zToFloat 1) 1 (zToFloat 95).

Lemma detected_base_is_valid_witness :
  DetectVCP demoHigh demoLow demoVolume demoParams = Some (Some demoBase) /\
  exists legs newest, list.last legs = Some newest /\ length legs = 2%nat /\ fgtb (co_DepthPct newest) (zToFloat 10) = false /\
    vc_PivotPrice demoBase = Max (skipn (co_LowIdx newest + 1) demoHigh).
Proof.
  assert (E : DetectVCP demoHigh demoLow demoVolume demoParams = Some (Some demoBase)) by (vm_compute; reflexivity).
  split; [exact E|].
  destruct (detected_base_is_valid demoHigh demoLow demoVolume demoParams demoBase E)
    as (swings & older & legs & first & newest & _ & _ & _ & _ & Hlast & _ & _ & _ & Hmax & _ & _ & Hc & Hp & _).
  exists legs, newest. split; [exact Hlast|]. split; [|split; [exact Hmax|exact Hp]].
  apply (f_equal (@List.length float64)) in Hc. rewrite length_map in Hc. symmetry. exact Hc.
Defined.

(** A configured lookback below one passes the validation of the strategy and
    panics at the first evaluation of a base. *)
Lemma zero_lookback_panics high low volume p : length low = length high -> length volume = length high -> (30 <= length high)%nat ->
  vp_Lookback p <= 0 -> DetectVCP high low volume p = None.
Proof.
  intros H1 H2 H3 H4. unfold DetectVCP. rewrite H1, H2, Nat.eqb_refl. cbn [negb orb]. rewrite (proj2 (Nat.ltb_ge _ _)) by done.
  unfold FindSwingPoints. by rewrite (proj2 (Z.ltb_lt _ _)) by lia.
Qed.

Lemma DetectVCP_total high low volume p : length low = length high -> length volume = length high -> 1 <= vp_Lookback p ->
  exists r, DetectVCP high low volume p = Some r.
Proof.
  intros H1 H2 H3. unfold DetectVCP. rewrite H1, H2, Nat.eqb_refl. cbn [negb orb]. destruct (length high <? 30)%nat; [by eexists|].
  unfold FindSwingPoints. rewrite (proj2 (Z.ltb_ge _ _)), H1, Nat.eqb_refl by lia. by eexists.
Qed.
