(* ===== verification/Sepa.v ===== *)
(** * The SEPA strategy (src/internal/strategy/sepa)

    The streaming state machine of the SEPA setup: a buffer of daily bars, the
    incremental indicator state that replaces the batch recomputation, the entry
    chain, sizing, the hard stop, the warm-up and the crash-recovery snapshot.
    The fields of the generator are grouped into its buffer, its position and its
    context.  The equity provider is read at sizing time: an operation takes the
    value it would return.  [None] is a panic.  Floating-point expressions are
    evaluated in the order of the source without fused operations. *)

From Stdlib Require Import SpecFloat.
From stdpp Require Import gmap strings list sorting.
From S2P Require Import Prelude Lists Fixed Money Domain Float64 FloatRound Indicators Setup.
Set Default Goal Selector "!".
#[local] Open Scope string_scope.
#[local] Open Scope Z_scope.
#[local] Open Scope list_scope.
#[local] Abbreviation length := List.length.
#[local] Abbreviation floats := (list float64).

(** ** Printed floats (pydec.go) *)

Definition chars (s : string) : list ascii := list_ascii_of_string s.

Definition formatPyDigits (ds : list ascii) (exp : Z) : list ascii :=
  let n := Z.of_nat (length ds) in
  if (exp <? -4) || (16 <=? exp) then formatE ds exp
  else if 0 <=? exp then
    if n <=? exp + 1 then ds ++ repeat "0"%char (Z.to_nat (exp + 1 - n)) ++ ["."; "0"]%char
    else firstn (Z.to_nat (exp + 1)) ds ++ ["."%char] ++ skipn (Z.to_nat (exp + 1)) ds
  else ["0"; "."]%char ++ repeat "0"%char (Z.to_nat (- exp - 1)) ++ ds.

Definition pyFloatRepr (f : float64) : list ascii :=
  match f with
  | S754_infinity s => chars (if s then "-inf" else "inf")
  | S754_nan => chars "nan"
  | S754_zero s => chars (if s then "-0.0" else "0.0")
  | S754_finite s m e =>
      let '(D, k) := shortestDecimal m e in
      let ds := uintDigits 20 D in
      let out := formatPyDigits ds (k + Z.of_nat (length ds) - 1) in
      if s then "-"%char :: out else out
  end.

(** [FormatFloat(f, 'f', 2, 64)]. *)
Definition pyFixed2 (f : float64) : list ascii :=
  let body v := uintDigits 330 (v / 100) ++ ["."%char] ++ uintDigits 1 (v / 10 mod 10) ++ uintDigits 1 (v mod 10) in
  let signed (s : bool) out := if s then "-"%char :: out else out in
  match f with
  | S754_infinity s => chars (if s then "-Inf" else "+Inf")
  | S754_nan => chars "NaN"
  | S754_zero s => signed s (body 0)
  | S754_finite s m e => let '(n, d) := fracOf m e in signed s (body (round_half_even (Zpos n * 100) (Zpos d)))
  end.

Definition digitOf (c : ascii) : option Z :=
  let v := Z.of_nat (nat_of_ascii c) - 48 in if (0 <=? v) && (v <? 10) then Some v else None.

(** Digits from the front of a text, as a value and a count. *)
Fixpoint scanDigits (acc n : Z) (s : list ascii) : Z * Z * list ascii :=
  match s with
  | c :: rest => match digitOf c with Some v => scanDigits (acc * 10 + v) (n + 1) rest | None => (acc, n, s) end
  | [] => (acc, n, [])
  end.

(** The exponent part, when there is one. *)
Definition scanExp (s : list ascii) : option Z :=
  match s with
  | [] => Some 0
  | "e"%char :: "-"%char :: s => match scanDigits 0 0 s with (v, n, []) => if n =? 0 then None else Some (- v) | _ => None end
  | "e"%char :: "+"%char :: s => match scanDigits 0 0 s with (v, n, []) => if n =? 0 then None else Some v | _ => None end
  | _ => None
  end.

(** [ParseFloat] on the decimal texts the code writes; any other text, and a value
    out of range, is its error, which counts as zero. *)
Definition parseUnsigned (neg : bool) (s : list ascii) : float64 :=
  let '(ip, n1, rest) := scanDigits 0 0 s in
  let '(D, k, rest) :=
    match rest with
    | "."%char :: r => let '(v, n, r') := scanDigits ip 0 r in (v, n, r')
    | _ => (ip, 0, rest)
    end in
  match scanExp rest with
  | Some e =>
      if n1 + k =? 0 then fzero
      else match D with
           | Zpos p => let f := decimalToFloat neg p (e - k) in if isInf f then fzero else f
           | _ => S754_zero neg
           end
  | None => fzero
  end.

Definition parsePyFloat (s : list ascii) : float64 :=
  if decide (s = chars "inf") then S754_infinity false
  else if decide (s = chars "-inf") then S754_infinity true
  else if decide (s = chars "nan") then S754_nan
  else match s with "-"%char :: s => parseUnsigned true s | _ => parseUnsigned false s end.

(** ** Types (types.go, config.go) *)

Inductive SepaSide : Set := SepaLong | SepaFlat | SepaShort.

Definition GradeAPlus : string := "A+".
Definition GradeB : string := "B".
Definition GradeSkip : string := "skip".

Record SepaBar : Set := mkSepaBar {
  sb_Symbol : string; sb_TS : time; sb_Open : float64; sb_High : float64; sb_Low : float64; sb_Close : float64; sb_Volume : Z
}.

Record Signal : Set := mkSignal {
  sg_Symbol : string; sg_TS : time; sg_Side : SepaSide; sg_TargetQty : Z; sg_Reason : list ascii;
  sg_Confidence : float64; sg_Grade : string; sg_StopPrice : list ascii
}.

Record SepaConfig : Set := mkConfig {
  cf_Symbol : string;
  cf_hasEquityProvider : bool;
  cf_RiskPct : float64;
  cf_MarketCapMinUSD : float64;
  cf_HardStopPct : float64;
  cf_PivotBufferPct : float64;
  cf_BreakoutVolumeMultiple : float64;
  cf_VCPLookback : Z;
  cf_HistoryMaxBars : Z;
  cf_Timezone : string
}.

Definition ErrInvalidConfig : error := ErrOther "sepa: invalid config".

Definition Config_Validate (c : SepaConfig) : res unit :=
  if negb (cf_hasEquityProvider c) then Err ErrInvalidConfig
  else if negb (fgtb (cf_RiskPct c) fzero && fleb (cf_RiskPct c) hundred) then Err ErrInvalidConfig
  else if negb (fgtb (cf_HardStopPct c) fzero) then Err ErrInvalidConfig
  else Ok tt.

(** ** Incremental indicator state (incstate.go) *)

Record incState : Set := mkInc {
  in_high252 : monoDeque;
  in_low252 : monoDeque;
  in_high252Val : float64;
  in_low252Val : float64;
  in_barsFed : nat;
  in_fullHigh : float64;
  in_fullLow : float64;
  in_ma200 : floats
}.

Definition newIncState : incState := mkInc (NewRollingMax TTHighLowWindow) (NewRollingMin TTHighLowWindow) NaN NaN 0 NaN NaN [].

Definition freshSMA (close : floats) (w : nat) : float64 :=
  if (length close <? w)%nat then NaN
  else match sumLoop fzero (skipn (length close - w) close) with Some s => fdiv s (ofNat w) | None => NaN end.

Definition onAppend (high low : float64) (close : floats) (s : incState) : incState :=
  let '(h, hv) := md_update high (in_high252 s) in
  let '(l, lv) := md_update low (in_low252 s) in
  mkInc h l hv lv (S (in_barsFed s))
    (if isNaN (in_fullHigh s) || fgtb high (in_fullHigh s) then high else in_fullHigh s)
    (if isNaN (in_fullLow s) || fltb low (in_fullLow s) then low else in_fullLow s)
    (in_ma200 s ++ [freshSMA close 200]).

Definition trimFront (cut : nat) (s : incState) : incState :=
  if (0 <? cut)%nat && (cut <=? length (in_ma200 s))%nat
  then mkInc (in_high252 s) (in_low252 s) (in_high252Val s) (in_low252Val s) (in_barsFed s) (in_fullHigh s) (in_fullLow s) (skipn cut (in_ma200 s))
  else s.

(** One pass over the buffer; the columns have one length. *)
Definition rebuild (high low close : floats) : incState :=
  fold_left (fun s i => onAppend (at_ high i) (at_ low i) (firstn (S i) close) s) (seq 0 (length close)) newIncState.

Definition fiftyTwoWeekHigh (s : incState) : float64 := if (TTHighLowWindow <=? in_barsFed s)%nat then in_high252Val s else in_fullHigh s.
Definition fiftyTwoWeekLow (s : incState) : float64 := if (TTHighLowWindow <=? in_barsFed s)%nat then in_low252Val s else in_fullLow s.

(** ** The generator (sepa.go) *)

Record decState : Set := mkDec { ds_val : float64; ds_str : list ascii }.
Definition decFromFloat (f : float64) : decState := mkDec f (pyFloatRepr f).
Definition dsZero : decState := mkDec fzero (chars "0").

Record Klines : Set := mkKlines {
  kl_ts : list time; kl_open : floats; kl_high : floats; kl_low : floats; kl_close : floats; kl_volume : floats
}.
Definition noKlines : Klines := mkKlines [] [] [] [] [] [].

Record Holding : Set := mkHolding {
  ho_position : Z; ho_entryPrice : decState; ho_stopPrice : decState; ho_pivotPrice : decState; ho_grade : string
}.
Definition flatHolding : Holding := mkHolding 0 dsZero dsZero dsZero "".

Record SepaContext : Set := mkCtx { cx_regime : string; cx_marketCapUSD : float64; cx_earningsBlackout : bool; cx_catalyst : bool }.

Record Generator : Set := mkGen {
  g_cfg : SepaConfig;
  g_kl : Klines;
  g_hold : Holding;
  g_intentGeneration : Z;
  g_ctx : SepaContext;
  g_inc : incState
}.

Definition NewGenerator (cfg : SepaConfig) : res Generator :=
  _ <-? Config_Validate cfg ;; Ok (mkGen cfg noKlines flatHolding 0 (mkCtx "unknown" fzero false false) newIncState).

Definition with_kl (k : Klines) (i : incState) (g : Generator) : Generator := mkGen (g_cfg g) k (g_hold g) (g_intentGeneration g) (g_ctx g) i.
Definition with_hold (h : Holding) (g : Generator) : Generator := mkGen (g_cfg g) (g_kl g) h (g_intentGeneration g) (g_ctx g) (g_inc g).
Definition with_ctx (c : SepaContext) (g : Generator) : Generator := mkGen (g_cfg g) (g_kl g) (g_hold g) (g_intentGeneration g) c (g_inc g).

Definition Gen_SetRegime (r : string) (g : Generator) : Generator :=
  with_ctx (mkCtx r (cx_marketCapUSD (g_ctx g)) (cx_earningsBlackout (g_ctx g)) (cx_catalyst (g_ctx g))) g.
Definition Gen_SetMarketCap (v : float64) (g : Generator) : Generator :=
  with_ctx (mkCtx (cx_regime (g_ctx g)) v (cx_earningsBlackout (g_ctx g)) (cx_catalyst (g_ctx g))) g.
Definition Gen_SetEarningsBlackout (b : bool) (g : Generator) : Generator :=
  with_ctx (mkCtx (cx_regime (g_ctx g)) (cx_marketCapUSD (g_ctx g)) b (cx_catalyst (g_ctx g))) g.
Definition Gen_SetCatalyst (b : bool) (g : Generator) : Generator :=
  with_ctx (mkCtx (cx_regime (g_ctx g)) (cx_marketCapUSD (g_ctx g)) (cx_earningsBlackout (g_ctx g)) b) g.

(** ** The incremental entry chain (incentry.go) *)

Definition maSlopePct200x20 (g : Generator) : float64 :=
  if (length (kl_close (g_kl g)) <? 220)%nat then fzero
  else let ma := in_ma200 (g_inc g) in slopePct (lastNonWindow ma) (at_ ma (length ma - 1 - 20)).

(** Averages of the current buffer are undefined at its first 199 bars. *)
Definition fractionAbove200 (g : Generator) : float64 :=
  let close := kl_close (g_kl g) in
  let ma := in_ma200 (g_inc g) in
  let bufLen := length close in
  if (bufLen <? 200)%nat || (length ma <? 200)%nat then NaN
  else
    let start := (bufLen - 200)%nat in
    let one i := if (start + i <? 199)%nat then 0%nat else aboveOne (at_ (skipn start close) i, at_ (skipn (length ma - 200) ma) i) in
    fdiv (ofNat (list_sum (map one (seq 0 200)))) (ofNat 200).

Definition meanTail (close : floats) (w off : nat) : float64 :=
  let hi := (length close - off)%nat in
  let '(sum, cnt) := fold_left meanStep (slice (hi - w) hi close) (fzero, 0%nat) in
  if (cnt =? 0)%nat then NaN else fdiv sum (ofNat cnt).

Definition classifyStageInc (g : Generator) : string :=
  let close := kl_close (g_kl g) in
  let n := length close in
  if (n <? StageMinBars)%nat then "unknown"
  else
    let slope := maSlopePct200x20 g in
    let momentum :=
      if (2 * StageMomentumWindow <=? n)%nat
      then momentumOf (meanTail close StageMomentumWindow 0) (meanTail close StageMomentumWindow StageMomentumWindow)
      else slope in
    stageOf (lastNonWindow close) (freshSMA close 150) (lastNonWindow (in_ma200 (g_inc g))) slope momentum (fractionAbove200 g).

Definition trendTemplatePassInc (g : Generator) : bool :=
  let close := kl_close (g_kl g) in
  let cap := fgeb (cx_marketCapUSD (g_ctx g)) (cf_MarketCapMinUSD (g_cfg g)) in
  if (length close <? TTMinBars)%nat then cap && false
  else
    let c := lastNonWindow close in
    let ma50 := freshSMA close 50 in
    let ma150 := freshSMA close 150 in
    let ma200 := lastNonWindow (in_ma200 (g_inc g)) in
    let high52w := fiftyTwoWeekHigh (g_inc g) in
    let low52w := fiftyTwoWeekLow (g_inc g) in
    fgtb c ma50 && fgtb c ma150 && fgtb c ma200 && fgtb ma50 ma150 && fgtb ma150 ma200 &&
    fgeb c (fmul high52w highFactor) && (if fgtb low52w fzero then fgeb c (fmul low52w lowFactor) else false) && cap.

(** ** Grading and sizing (grade.go, mathhelpers.go) *)

Record setupInputs : Set := mkSetup {
  su_trendTemplatePass : bool; su_earningsPass : bool; su_stage : string; su_catalyst : bool; su_vcpContractionCount : Z; su_regime : string
}.

Definition gradeSetup (i : setupInputs) : string :=
  if String.eqb (su_regime i) "bear" || negb (String.eqb (su_stage i) "2") then GradeSkip
  else if negb (su_trendTemplatePass i && su_earningsPass i) then GradeSkip
  else if su_vcpContractionCount i <? 2 then GradeSkip
  else if su_catalyst i && (3 <=? su_vcpContractionCount i) && String.eqb (su_regime i) "bull" then GradeAPlus
  else GradeB.

Definition pyFloorDiv (a b : float64) : Z :=
  let div := fdiv (fsub a (fmod a b)) b in
  let floordiv := ffloor div in
  intOfFloat (if fgtb (fsub div floordiv) half then fadd floordiv (zToFloat 1) else floordiv).

Definition computeFirstTrancheShares (cfg : SepaConfig) (equity entry stop : float64) (tranches : Z) : Z :=
  let riskDollar := fmul equity (fdiv (cf_RiskPct cfg) hundred) in
  let stopDistance := fsub entry stop in
  if fleb stopDistance fzero then 0
  else Z.quot (pyFloorDiv riskDollar stopDistance) (if tranches <? 1 then 1 else tranches).

(** ** Entry and exit (sepa.go) *)

(** [x * (1 - pct/100)], rounded to four decimals. *)
Definition stopUnder (price pct : float64) : float64 := RoundHalfEven (fmul price (fsub (zToFloat 1) (fdiv pct hundred))) 4.

Definition sepaItoa (n : Z) : list ascii := if n <? 0 then "-"%char :: uintDigits 20 (- n) else uintDigits 20 n.

Definition buildLongEntry (equity : float64) (bar : SepaBar) (vcp : VCPSnapshot) (grade : string) (g : Generator) : Generator * list Signal :=
  let entryF := sb_Close bar in
  let pivotF := vc_PivotPrice vcp in
  let hardStop := stopUnder entryF (cf_HardStopPct (g_cfg g)) in
  let pivotStop := stopUnder pivotF (cf_PivotBufferPct (g_cfg g)) in
  let stopF := if fgtb pivotStop hardStop then pivotStop else hardStop in
  let tranches := if String.eqb grade GradeAPlus then 3 else 2 in
  let shares := computeFirstTrancheShares (g_cfg g) equity entryF stopF tranches in
  if shares <=? 0 then (g, [])
  else
    let stop := decFromFloat stopF in
    let reason := chars "SEPA " ++ chars grade ++ chars " :: stage=2, TT pass, VCP " ++ sepaItoa (Z.of_nat (length (vc_Contractions vcp))) ++
      chars " contractions (last " ++ pyFloatRepr (vc_LastContractionPct vcp) ++ chars "%), pivot $" ++ pyFixed2 pivotF ++
      chars " -> close $" ++ pyFixed2 entryF ++ chars ", stop $" ++ pyFixed2 stopF in
    (with_hold (mkHolding shares (decFromFloat entryF) stop (decFromFloat pivotF) grade) g,
     [mkSignal (sb_Symbol bar) (sb_TS bar) SepaLong shares reason (zToFloat 1) grade (ds_str stop)]).

Definition entryParams (cfg : SepaConfig) : DetectVCPParams :=
  mkVCPParams (cf_Symbol cfg) (cf_VCPLookback cfg) 2 (zToFloat 10) VCPDefaultBaseMinDays VCPDefaultBaseMaxDays.

Definition breakoutVolumeOK (g : Generator) : bool := BreakoutVolumeOK (kl_volume (g_kl g)) 60 (cf_BreakoutVolumeMultiple (g_cfg g)).

(** The chain over a stage classifier and a trend template. *)
Definition maybeEnterWith (stageOfGen : Generator -> string) (ttOf : Generator -> bool) (equity : float64) (bar : SepaBar) (g : Generator) :
    option (Generator * list Signal) :=
  let k := g_kl g in
  let n := length (kl_close k) in
  if (n <? 200)%nat then Some (g, [])
  else if negb (fgeb (cx_marketCapUSD (g_ctx g)) (cf_MarketCapMinUSD (g_cfg g))) then Some (g, [])
  else
    let stage := stageOfGen g in
    if negb (String.eqb stage "2") then Some (g, [])
    else
      let ttPass := ttOf g in
      if negb ttPass then Some (g, [])
      else
        let prior := (n - 1)%nat in
        if (prior <? 30)%nat then Some (g, [])
        else
          r ← DetectVCP (firstn prior (kl_high k)) (firstn prior (kl_low k)) (firstn prior (kl_volume k)) (entryParams (g_cfg g));
          match r with
          | None => Some (g, [])
          | Some vcp =>
              if fleb (sb_Close bar) (vc_PivotPrice vcp) then Some (g, [])
              else if negb (breakoutVolumeOK g) then Some (g, [])
              else
                let grade := gradeSetup (mkSetup ttPass (negb (cx_earningsBlackout (g_ctx g))) stage (cx_catalyst (g_ctx g))
                               (Z.of_nat (length (vc_Contractions vcp))) (cx_regime (g_ctx g))) in
                if String.eqb grade GradeSkip then Some (g, []) else Some (buildLongEntry equity bar vcp grade g)
          end.

Definition maybeEnter : float64 -> SepaBar -> Generator -> option (Generator * list Signal) := maybeEnterWith classifyStageInc trendTemplatePassInc.

Definition maybeExit (bar : SepaBar) (g : Generator) : Generator * list Signal :=
  let h := g_hold g in
  if fleb (sb_Close bar) (ds_val (ho_stopPrice h)) then
    let reason := chars "SEPA stop hit at $" ++ pyFixed2 (ds_val (ho_stopPrice h)) ++ chars " :: close $" ++ pyFixed2 (sb_Close bar) in
    (with_hold flatHolding g,
     [mkSignal (sb_Symbol bar) (sb_TS bar) SepaFlat 0 reason (zToFloat 1) (ho_grade h) (ds_str (ho_stopPrice h))])
  else (g, []).

Definition trimKlines (cut : nat) (k : Klines) : Klines :=
  mkKlines (skipn cut (kl_ts k)) (skipn cut (kl_open k)) (skipn cut (kl_high k)) (skipn cut (kl_low k)) (skipn cut (kl_close k)) (skipn cut (kl_volume k)).

Definition appendBar (bar : SepaBar) (g : Generator) : Generator :=
  let k := g_kl g in
  let k := mkKlines (kl_ts k ++ [sb_TS bar]) (kl_open k ++ [sb_Open bar]) (kl_high k ++ [sb_High bar]) (kl_low k ++ [sb_Low bar])
             (kl_close k ++ [sb_Close bar]) (kl_volume k ++ [zToFloat (sb_Volume bar)]) in
  let i := onAppend (sb_High bar) (sb_Low bar) (kl_close k) (g_inc g) in
  let max := cf_HistoryMaxBars (g_cfg g) in
  if (0 <? max) && (max <? Z.of_nat (length (kl_close k))) then
    let cut := Z.to_nat (Z.of_nat (length (kl_close k)) - max) in
    with_kl (trimKlines cut k) (trimFront cut i) g
  else with_kl k i g.

Definition OnBarWith (enter : float64 -> SepaBar -> Generator -> option (Generator * list Signal)) (equity : float64) (bar : SepaBar) (g : Generator) :
    option (Generator * list Signal) :=
  if negb (String.eqb (sb_Symbol bar) (cf_Symbol (g_cfg g))) then Some (g, [])
  else
    let g := appendBar bar g in
    if ho_position (g_hold g) =? 0 then enter equity bar g else Some (maybeExit bar g).

Definition OnBar : float64 -> SepaBar -> Generator -> option (Generator * list Signal) := OnBarWith maybeEnter.

Definition WarmupFromHistory (bars : list SepaBar) (g : Generator) : Generator :=
  match bars with
  | [] => g
  | _ =>
      let max := cf_HistoryMaxBars (g_cfg g) in
      let kept := if (0 <? max) && (max <? Z.of_nat (length bars)) then skipn (length bars - Z.to_nat max) bars else bars in
      let k := mkKlines (map sb_TS kept) (map sb_Open kept) (map sb_High kept) (map sb_Low kept) (map sb_Close kept)
                 (map (fun b => zToFloat (sb_Volume b)) kept) in
      with_kl k (rebuild (kl_high k) (kl_low k) (kl_close k)) g
  end.

(** ** Crash recovery (state.go) *)

Record StateConfig : Set := mkStateConfig { sc_equityAtSnapshot : float64; sc_config : SepaConfig }.
Record StatePosition : Set := mkStatePosition {
  sp_Shares : Z; sp_EntryPrice : list ascii; sp_StopPrice : list ascii; sp_PivotPrice : list ascii; sp_Grade : option string
}.
Record StateDict : Set := mkStateDict { sd_Config : StateConfig; sd_Context : SepaContext; sd_Position : StatePosition; sd_Klines : Klines }.

Definition StateDictOf (equity : float64) (g : Generator) : StateDict :=
  let h := g_hold g in
  mkStateDict (mkStateConfig equity (g_cfg g)) (g_ctx g)
    (mkStatePosition (ho_position h) (ds_str (ho_entryPrice h)) (ds_str (ho_stopPrice h)) (ds_str (ho_pivotPrice h))
       (if String.eqb (ho_grade h) "" then None else Some (ho_grade h)))
    (g_kl g).

Definition sepaOrDefault (s def : string) : string := if String.eqb s "" then def else s.

Definition decFromStr (s : list ascii) : decState :=
  if bool_decide (s = []) || bool_decide (s = chars "0") then dsZero else decFromFloat (parsePyFloat s).

Definition LoadState (d : StateDict) (g : Generator) : Generator :=
  let c := sd_Context d in
  let p := sd_Position d in
  let k := sd_Klines d in
  mkGen (g_cfg g) k
    (mkHolding (sp_Shares p) (decFromStr (sp_EntryPrice p)) (decFromStr (sp_StopPrice p)) (decFromStr (sp_PivotPrice p)) (default "" (sp_Grade p)))
    (g_intentGeneration g)
    (mkCtx (sepaOrDefault (cx_regime c) "unknown") (cx_marketCapUSD c) (cx_earningsBlackout c) (cx_catalyst c))
    (rebuild (kl_high k) (kl_low k) (kl_close k)).

(** ** Projections for the user interface (intent.go) *)

Inductive SepaState : Set := SepaNoSetup | SepaForming | SepaBuy | SepaHold | SepaExit | SepaStopHit.

Definition StrategyID : string := "sepa".

Record SignalSnapshot : Set := mkSnapshot {
  sn_Symbol : string;
  sn_State : SepaState;
  sn_Strength : float64;
  sn_ProximityToTriggerP : option float64;
  sn_UpdatedAt : time;
  sn_Generation : Z;
  sn_StrategyID : string;
  sn_Grade : Z;
  sn_TrendTemplatePass : bool;
  sn_BaseAgeDays : option Z;
  sn_BaseDepthPct : option float64;
  sn_VolumeDryup : option bool;
  sn_PivotPrice : list ascii;
  sn_StopPrice : list ascii;
  sn_RSRank : option Z;
  sn_RiskPct : option float64;
  sn_PctOff52wkH : option float64;
  sn_VolRatio : option float64;
  sn_BuyReadiness : option float64
}.

Definition positive (f : float64) : bool := fgtb f fzero.

(** Pivot and stop of the plan: those of the base, else the swing of the last ten
    bars, else the close and seven percent under the pivot. *)
Definition planLevels (g : Generator) (lastClose : float64) (vcp : option VCPSnapshot) : float64 * float64 :=
  let '(pivot, stop) :=
    match vcp with
    | Some v => if positive (vc_PivotPrice v) then (vc_PivotPrice v, vc_BaseLowPrice v) else (fzero, fzero)
    | None => (fzero, fzero)
    end in
  let pivot := if fleb pivot fzero then SwingHighPivot (kl_high (g_kl g)) SwingPlanLookback false else pivot in
  let stop := if fleb stop fzero || fgeb stop pivot then SwingLowStop (kl_low (g_kl g)) SwingPlanLookback false else stop in
  let pivot := if fleb pivot fzero then lastClose else pivot in
  let stop := if fleb stop fzero || fgeb stop pivot then fmul pivot (flit 93 100) else stop in
  (pivot, stop).

Definition pctOffHigh (g : Generator) (lastClose : float64) : float64 :=
  PctOff52wkHigh lastClose (FiftyTwoWeekHigh (kl_high (g_kl g)) TTHighLowWindow).

Definition EvaluateSignal (asOf : time) (g : Generator) : option (Generator * SignalSnapshot) :=
  let g := mkGen (g_cfg g) (g_kl g) (g_hold g) (g_intentGeneration g + 1) (g_ctx g) (g_inc g) in
  let h := g_hold g in
  let k := g_kl g in
  let n := length (kl_close k) in
  let pivotV := ds_val (ho_pivotPrice h) in
  let stopV := ds_val (ho_stopPrice h) in
  let pivotStr := if positive pivotV then ds_str (ho_pivotPrice h) else [] in
  let stopStr := if positive stopV then ds_str (ho_stopPrice h) else [] in
  let snap state strength prox grade ttPass age depth dryup pivot stop risk off vol ready :=
    mkSnapshot (cf_Symbol (g_cfg g)) state strength prox asOf (g_intentGeneration g) StrategyID grade ttPass age depth dryup pivot stop None risk off vol ready in
  let bare state strength grade ttPass := snap state strength None grade ttPass None None None pivotStr stopStr None None None None in
  if (n <? 50)%nat then Some (g, bare SepaNoSetup fzero 0 false)
  else
    let lastClose := lastNonWindow (kl_close k) in
    if negb (ho_position h =? 0) && positive stopV && fltb lastClose stopV then Some (g, bare SepaStopHit fzero 0 false)
    else
      let off := Some (pctOffHigh g lastClose) in
      let vol := Some (VolumeRatio (kl_volume k) VolumeSMALookback) in
      if negb (ho_position h =? 0) then
        let prox := if positive pivotV then Some (ProximityToTriggerPct pivotV lastClose) else None in
        let risk := if positive pivotV && positive stopV && fltb stopV pivotV then Some (RiskPct pivotV stopV) else None in
        Some (g, snap SepaHold (zToFloat 50) prox 0 true None None None pivotStr stopStr risk off vol None)
      else
        let tt := EvaluateTrendTemplate (kl_close k) (kl_high k) (kl_low k) (cx_marketCapUSD (g_ctx g)) (cf_MarketCapMinUSD (g_cfg g)) in
        let ttGrade := truncFloat (fmul (fdiv (zToFloat (PassingRules tt)) (zToFloat 8)) hundred) in
        vcp ← DetectVCP (kl_high k) (kl_low k) (kl_volume k) (entryParams (g_cfg g));
        if negb (Passed tt) then Some (g, bare SepaNoSetup (zToFloat ttGrade) ttGrade false)
        else
          let '(pivot, stop) := planLevels g lastClose vcp in
          let prox := ProximityToTriggerPct pivot lastClose in
          let risk := RiskPct pivot stop in
          let depth := match vcp with Some v => vc_LastContractionPct v | None => fzero end in
          let ready := BuyReadiness (mkReadiness prox 0 (match vcp with Some _ => true | None => false end) depth risk) in
          let state := if positive pivotV && fgeb lastClose pivotV then SepaBuy else SepaForming in
          Some (g, snap state (zToFloat ttGrade) (Some prox) ttGrade true (vc_BaseLengthDays <$> vcp) (vc_LastContractionPct <$> vcp)
                     (vc_VolumeDryup <$> vcp) (pyFloatRepr pivot) (pyFloatRepr stop) (Some risk) off vol (Some ready)).

Record StateSummary : Set := mkSummary {
  sm_Symbol : string; sm_Regime : string; sm_MarketCapUSD : float64; sm_InBlackout : bool; sm_PositionQty : Z;
  sm_EntryPrice : list ascii; sm_StopPrice : list ascii; sm_CurrentGrade : string; sm_VCPDetected : bool; sm_PivotPrice : list ascii;
  sm_BarsInHistory : nat
}.

Definition StateSummaryOf (g : Generator) : StateSummary :=
  let h := g_hold g in let c := g_ctx g in
  let held := negb (ho_position h =? 0) in
  let detected := held && positive (ds_val (ho_pivotPrice h)) in
  mkSummary (cf_Symbol (g_cfg g)) (cx_regime c) (cx_marketCapUSD c) (cx_earningsBlackout c) (ho_position h)
    (if held then ds_str (ho_entryPrice h) else []) (if held then ds_str (ho_stopPrice h) else []) (if held then ho_grade h else "")
    detected (if detected then ds_str (ho_pivotPrice h) else []) (length (kl_close (g_kl g))).

(** ** Runs *)

(** [toSepaBar] of the adapter: prices are fixed-point numbers. *)
Definition toSepaBar (b : Bar) : SepaBar :=
  mkSepaBar (bar_Symbol b) (bar_TS b) (Price_Float64 (bar_Open b)) (Price_Float64 (bar_High b)) (Price_Float64 (bar_Low b))
    (Price_Float64 (bar_Close b)) (bar_Volume b).

Inductive sepaOp : Set :=
| OpBar (equity : float64) (bar : Bar)
| OpWarmup (bars : list Bar)
| OpRegime (r : string)
| OpMarketCap (v : float64)
| OpBlackout (b : bool)
| OpCatalyst (b : bool)
| OpEvaluate (asOf : time).

Definition stepWith (enter : float64 -> SepaBar -> Generator -> option (Generator * list Signal)) (o : sepaOp) (g : Generator) :
    option (Generator * list Signal) :=
  match o with
  | OpBar equity bar => OnBarWith enter equity (toSepaBar bar) g
  | OpWarmup bars => Some (WarmupFromHistory (map toSepaBar bars) g, [])
  | OpRegime r => Some (Gen_SetRegime r g, [])
  | OpMarketCap v => Some (Gen_SetMarketCap v g, [])
  | OpBlackout b => Some (Gen_SetEarningsBlackout b g, [])
  | OpCatalyst b => Some (Gen_SetCatalyst b g, [])
  | OpEvaluate asOf => '(g, _) ← EvaluateSignal asOf g; Some (g, [])
  end.

Fixpoint runWith (enter : float64 -> SepaBar -> Generator -> option (Generator * list Signal)) (ops : list sepaOp) (g : Generator) :
    option (Generator * list (list Signal)) :=
  match ops with
  | [] => Some (g, [])
  | o :: ops => '(g, s) ← stepWith enter o g; '(g, ss) ← runWith enter ops g; Some (g, s :: ss)
  end.

Definition runSepa : list sepaOp -> Generator -> option (Generator * list (list Signal)) := runWith maybeEnter.

(** The strategy that recomputes the batch indicators over its buffer at every bar. *)
Definition batchStage (g : Generator) : string := ClassifyStage (kl_close (g_kl g)).
Definition batchTrend (g : Generator) : bool :=
  Passed (EvaluateTrendTemplate (kl_close (g_kl g)) (kl_high (g_kl g)) (kl_low (g_kl g)) (cx_marketCapUSD (g_ctx g)) (cf_MarketCapMinUSD (g_cfg g))).
Definition runBatch : list sepaOp -> Generator -> option (Generator * list (list Signal)) := runWith (maybeEnterWith batchStage batchTrend).

(** ** Windows of a suffix *)

Lemma rollValue_suffix f w m H : (m = length H \/ w <= m)%nat -> (m <= length H)%nat -> rollValue f w (lastn m H) = rollValue f w H.
Proof.
  intros [->|Hw] Hm; [by rewrite lastn_all|]. unfold rollValue. rewrite length_lastn.
  rewrite !(proj2 (Nat.ltb_ge _ _)) by lia. by rewrite lastn_lastn.
Qed.

Lemma firstn_lastn {A} m k (H : list A) : (k <= m <= length H)%nat -> firstn (m - k) (lastn m H) = lastn (m - k) (firstn (length H - k) H).
Proof.
  intros Hk. unfold lastn. rewrite length_firstn. replace ((length H - k) `min` length H - (m - k))%nat with (length H - m)%nat by lia.
  rewrite firstn_skipn_comm. f_equal. f_equal. lia.
Qed.

(** The rolling series of a suffix, read from its end. *)
Lemma rolling_suffix f w m k H : (m = length H \/ w + k <= m)%nat -> (k < m <= length H)%nat ->
  at_ (rolling f (lastn m H) w) (m - 1 - k) = at_ (rolling f H w) (length H - 1 - k).
Proof.
  intros Hw Hm. rewrite !rolling_at by (rewrite ?length_lastn; lia). replace (S (m - 1 - k)) with (m - k)%nat by lia.
  replace (S (length H - 1 - k)) with (length H - k)%nat by lia. rewrite firstn_lastn by lia. apply rollValue_suffix.
  - rewrite length_firstn. destruct Hw as [->|]; [left; lia|right; lia].
  - rewrite length_firstn. lia.
Qed.

Lemma rolling_snoc f w x v : rolling f (x ++ [v]) w = rolling f x w ++ [rollValue f w (x ++ [v])].
Proof.
  rewrite !rolling_values, length_app. cbn [List.length]. rewrite seq_app, map_app. cbn [seq map]. rewrite Nat.add_0_l. f_equal.
  - apply map_ext_in. intros i Hi. apply in_seq in Hi. rewrite firstn_app. replace (S i - length x)%nat with 0%nat by lia. by rewrite app_nil_r.
  - by rewrite firstn_all2 by (rewrite length_app; cbn; lia).
Qed.

Lemma freshSMA_roll close w : freshSMA close w = rollValue (meanWindow w) w close.
Proof. unfold freshSMA, rollValue, lastn, meanWindow. by destruct (length close <? w)%nat. Qed.

Lemma lastNonWindow_rolling f x w : (0 < length x)%nat -> lastNonWindow (rolling f x w) = rollValue f w x.
Proof. intros H. unfold lastNonWindow. rewrite length_rolling, rolling_at by lia. by rewrite firstn_all2 by lia. Qed.

(** ** The incremental state and its history *)

(** The buffer is the end of a history of bars that went through the incremental
    state; where it is not the whole history it spans the longest window. *)
Record history (g : Generator) (Hh Hl Hc : floats) : Prop := {
  hi_low : length Hl = length Hh;
  hi_close : length Hc = length Hh;
  hi_len : (length (kl_close (g_kl g)) <= length Hc)%nat;
  hi_long : (length (kl_close (g_kl g)) = length Hc \/ 252 <= length (kl_close (g_kl g)))%nat;
  hi_bufHigh : kl_high (g_kl g) = lastn (length (kl_close (g_kl g))) Hh;
  hi_bufLow : kl_low (g_kl g) = lastn (length (kl_close (g_kl g))) Hl;
  hi_bufClose : kl_close (g_kl g) = lastn (length (kl_close (g_kl g))) Hc;
  hi_nanHigh : nanFree Hh;
  hi_nanLow : nanFree Hl
}.

(** The state after the samples of a history whose long averages are [ma]. *)
Record incOk (s : incState) (Hh Hl : floats) (ma : floats) : Prop := {
  io_high : dequeInv 252 true (in_high252 s) Hh;
  io_low : dequeInv 252 false (in_low252 s) Hl;
  io_highVal : feq (in_high252Val s) (rollValue (extWindow true) 252 Hh);
  io_lowVal : feq (in_low252Val s) (rollValue (extWindow false) 252 Hl);
  io_fed : in_barsFed s = length Hh;
  io_fullHigh : in_fullHigh s = Max Hh;
  io_fullLow : in_fullLow s = Min Hl;
  io_ma : in_ma200 s = ma
}.

Lemma newIncState_ok : incOk newIncState [] [] [].
Proof. split; try done; [apply newMonoDeque_inv..]. Qed.

Lemma Max_snoc x v : Max (x ++ [v]) = maxStep (Max x) v.
Proof. unfold Max. by rewrite fold_left_app. Qed.
Lemma Min_snoc x v : Min (x ++ [v]) = minStep (Min x) v.
Proof. unfold Min. by rewrite fold_left_app. Qed.

Lemma onAppend_ok h l close s Hh Hl ma : isNaN h = false -> isNaN l = false -> incOk s Hh Hl ma ->
  incOk (onAppend h l close s) (Hh ++ [h]) (Hl ++ [l]) (ma ++ [freshSMA close 200]).
Proof.
  intros Nh Nl [I1 I2 I3 I4 I5 I6 I7 I8]. unfold onAppend.
  pose proof (md_step 252 true ltac:(lia) _ _ h I1) as S1. pose proof (md_step 252 false ltac:(lia) _ _ l I2) as S2.
  destruct (md_update h (in_high252 s)) as [dh hv], (md_update l (in_low252 s)) as [dl lv]. destruct S1 as [A1 A2], S2 as [B1 B2].
  split; cbn; try done.
  - rewrite length_app, I5. cbn. lia.
  - rewrite Max_snoc, I6. unfold maxStep. by rewrite Nh.
  - rewrite Min_snoc, I7. unfold minStep. by rewrite Nl.
  - by rewrite I8.
Qed.

(** Is the invariant of a generator: some history of it went through its state. *)
Definition genInc (g : Generator) : Prop := exists Hh Hl Hc,
  history g Hh Hl Hc /\ incOk (g_inc g) Hh Hl (lastn (length (kl_close (g_kl g))) (SMA Hc 200)).

(** A cap under the longest window would be served from a longer window. *)
Definition capOk (cfg : SepaConfig) : Prop := cf_HistoryMaxBars cfg <= 0 \/ 252 <= cf_HistoryMaxBars cfg.

Lemma freshSMA_history close w Hc : (length close <= length Hc)%nat -> (length close = length Hc \/ w <= length close)%nat ->
  close = lastn (length close) Hc -> freshSMA close w = rollValue (meanWindow w) w Hc.
Proof.
  intros H1 H2 H3. rewrite freshSMA_roll, H3 at 1. apply rollValue_suffix; [|done]. destruct H2; [by left|by right].
Qed.

Lemma skipn_lastn {A} cut m (x : list A) : (cut <= m <= length x)%nat -> skipn cut (lastn m x) = lastn (m - cut) x.
Proof. intros H. unfold lastn. rewrite skipn_skipn. f_equal. lia. Qed.

Lemma length_SMA x w : length (SMA x w) = length x.
Proof. apply length_rolling. Qed.

Lemma appendBar_genInc bar g : capOk (g_cfg g) -> isNaN (sb_High bar) = false -> isNaN (sb_Low bar) = false ->
  genInc g -> genInc (appendBar bar g).
Proof.
  intros Hcap Nh Nl (Hh & Hl & Hc & [E1 E2 E3 E4 E5 E6 E7 E8 E9] & Hi).
  set (m := length (kl_close (g_kl g))) in *.
  set (k := mkKlines (kl_ts (g_kl g) ++ [sb_TS bar]) (kl_open (g_kl g) ++ [sb_Open bar]) (kl_high (g_kl g) ++ [sb_High bar])
              (kl_low (g_kl g) ++ [sb_Low bar]) (kl_close (g_kl g) ++ [sb_Close bar]) (kl_volume (g_kl g) ++ [zToFloat (sb_Volume bar)])).
  set (i := onAppend (sb_High bar) (sb_Low bar) (kl_close k) (g_inc g)).
  assert (Hlen : length (kl_close k) = S m) by (cbn; rewrite length_app; cbn; lia).
  assert (Hsnoc : forall (x y : floats) v, length x = length Hc -> y = lastn m x -> y ++ [v] = lastn (S m) (x ++ [v])).
  { intros x y v Hx ->. rewrite lastn_snoc by lia. by replace (S m - 1)%nat with m by lia. }
  assert (Hk : history (with_kl k i g) (Hh ++ [sb_High bar]) (Hl ++ [sb_Low bar]) (Hc ++ [sb_Close bar])).
  { split; cbn [g_kl with_kl]; rewrite ?Hlen, ?length_app; cbn [List.length]; try lia.
    - cbn. apply Hsnoc; [lia|done].
    - cbn. apply Hsnoc; [lia|done].
    - cbn. apply Hsnoc; [lia|done].
    - intros v Hv. apply in_app_iff in Hv as [Hv|[<-|[]]]; [by apply E8|done].
    - intros v Hv. apply in_app_iff in Hv as [Hv|[<-|[]]]; [by apply E9|done]. }
  assert (Hio : incOk i (Hh ++ [sb_High bar]) (Hl ++ [sb_Low bar]) (lastn (S m) (SMA (Hc ++ [sb_Close bar]) 200))).
  { unfold SMA. rewrite rolling_snoc, <- (Hsnoc (rolling (meanWindow 200) Hc 200) (lastn m (SMA Hc 200))) by (rewrite ?length_rolling; done).
    rewrite <- (freshSMA_history (kl_close k) 200 (Hc ++ [sb_Close bar])).
    - by apply onAppend_ok.
    - rewrite Hlen, length_app. cbn. lia.
    - rewrite Hlen, length_app. cbn. lia.
    - rewrite Hlen. cbn. apply Hsnoc; [lia|done]. }
  unfold appendBar. cbv zeta. fold k i. clearbody k i. set (max := cf_HistoryMaxBars (g_cfg g)) in *. rewrite Hlen.
  destruct ((0 <? max) && (max <? Z.of_nat (S m))) eqn:Et.
  - apply andb_true_iff in Et as [T1 T2]. apply Z.ltb_lt in T1, T2. unfold capOk in Hcap. fold max in Hcap.
    destruct Hcap as [Hcap|Hcap]; [lia|]. set (cut := Z.to_nat (Z.of_nat (S m) - max)).
    destruct Hk as [K1 K2 K3 K4 K5 K6 K7 K8 K9]. cbn [g_kl with_kl] in *. rewrite Hlen in *.
    exists (Hh ++ [sb_High bar]), (Hl ++ [sb_Low bar]), (Hc ++ [sb_Close bar]).
    assert (Hl' : length (kl_close (g_kl (with_kl (trimKlines cut k) (trimFront cut i) g))) = (S m - cut)%nat)
      by (cbn; rewrite length_skipn; lia).
    split.
    + split; rewrite ?Hl'; try done; try lia; cbn [with_kl g_kl trimKlines kl_high kl_low kl_close].
      * rewrite K5. apply skipn_lastn. lia.
      * rewrite K6. apply skipn_lastn. lia.
      * rewrite K7. apply skipn_lastn. lia.
    + rewrite Hl'. cbn [with_kl g_inc]. destruct Hio as [I1 I2 I3 I4 I5 I6 I7 I8]. unfold trimFront. rewrite I8, length_lastn, length_SMA.
      rewrite (proj2 (Nat.ltb_lt _ _)) by lia. rewrite (proj2 (Nat.leb_le _ _)) by lia. cbn [andb]. split; cbn; try done.
      apply skipn_lastn. rewrite length_SMA. lia.
  - exists (Hh ++ [sb_High bar]), (Hl ++ [sb_Low bar]), (Hc ++ [sb_Close bar]). split; [done|]. cbn [with_kl g_kl g_inc]. by rewrite Hlen.
Qed.

Lemma firstn_snoc_at (x : floats) k : (k < length x)%nat -> firstn (S k) x = firstn k x ++ [at_ x k].
Proof. intros H. unfold at_. rewrite nth_lookup. destruct (lookup_lt_is_Some_2 x k H) as [v E]. rewrite E. by apply take_S_r. Qed.

Lemma at_skipn n (x : floats) i : at_ (skipn n x) i = at_ x (n + i).
Proof. apply nth_skipn. Qed.

Lemma rebuild_ok high low close : length high = length close -> length low = length close -> nanFree high -> nanFree low ->
  incOk (rebuild high low close) high low (SMA close 200).
Proof.
  intros E1 E2 N1 N2. unfold rebuild.
  assert (H : forall k, (k <= length close)%nat ->
    incOk (fold_left (fun s i => onAppend (at_ high i) (at_ low i) (firstn (S i) close) s) (seq 0 k) newIncState) (firstn k high) (firstn k low) (firstn k (SMA close 200))).
  { induction k as [|k IH]; intros Hk; [apply newIncState_ok|]. rewrite seq_S, fold_left_app. cbn [fold_left]. rewrite Nat.add_0_l.
    rewrite !firstn_snoc_at by (rewrite ?length_SMA; lia). unfold SMA at 2. rewrite rolling_at by lia. rewrite <- freshSMA_roll.
    rewrite firstn_snoc_at by lia. apply onAppend_ok; [apply N1, at_in; lia|apply N2, at_in; lia|]. apply IH. lia. }
  specialize (H (length close) ltac:(lia)). by rewrite !firstn_all2 in H by (rewrite ?length_SMA; lia).
Qed.

Lemma rebuild_genInc g k : length (kl_high k) = length (kl_close k) -> length (kl_low k) = length (kl_close k) ->
  nanFree (kl_high k) -> nanFree (kl_low k) -> g_kl g = k -> g_inc g = rebuild (kl_high k) (kl_low k) (kl_close k) -> genInc g.
Proof.
  intros E1 E2 N1 N2 Ek Ei. exists (kl_high k), (kl_low k), (kl_close k). rewrite Ek, Ei. split.
  - rewrite <- Ek in *. split; try done; try lia; by rewrite lastn_all by lia.
  - rewrite lastn_all by (rewrite length_SMA; lia). by apply rebuild_ok.
Qed.

(** ** The incremental values are the batch values *)

Section Agree.
Context (g : Generator) (Hh Hl Hc : floats) (HH : history g Hh Hl Hc).
#[local] Abbreviation close := (kl_close (g_kl g)).
#[local] Abbreviation m := (length close).
Context (HI : incOk (g_inc g) Hh Hl (lastn m (SMA Hc 200))).

(** An average of the buffer is that of the history, seen from the end. *)
Lemma ma_suffix k : (200 + k <= m)%nat -> at_ (in_ma200 (g_inc g)) (length (in_ma200 (g_inc g)) - 1 - k) = at_ (MA close 200) (length (MA close 200) - 1 - k).
Proof.
  intros Hk. destruct HH as [E1 E2 E3 E4 E5 E6 E7 E8 E9]. rewrite (io_ma _ _ _ _ HI). unfold MA, SMA. rewrite length_lastn, !length_rolling.
  replace (m `min` length Hc)%nat with m by lia. rewrite at_lastn by (rewrite length_rolling; lia). rewrite length_rolling.
  replace (at_ (rolling (meanWindow 200) close 200) (m - 1 - k)) with (at_ (rolling (meanWindow 200) (lastn m Hc) 200) (m - 1 - k)) by (by rewrite <- E7).
  rewrite rolling_suffix by lia. f_equal. lia.
Qed.

Lemma ma_last : (200 <= m)%nat -> lastNonWindow (in_ma200 (g_inc g)) = lastNonWindow (MA close 200).
Proof. intros H. pose proof (ma_suffix 0 ltac:(lia)) as E. rewrite !Nat.sub_0_r in E. exact E. Qed.

Lemma slope_agrees : maSlopePct200x20 g = MASlopePct close 200 20.
Proof.
  unfold maSlopePct200x20, MASlopePct. change (200 + 20)%nat with 220%nat. destruct (Nat.ltb_spec m 220); [done|].
  rewrite ma_last by lia. by rewrite ma_suffix by lia.
Qed.

Lemma combine_map_at (x y : floats) : length x = length y -> combine x y = map (fun i => (at_ x i, at_ y i)) (seq 0 (length x)).
Proof.
  revert y. induction x as [|a x IH]; intros [|b y] E; try done. cbn in *. rewrite <- seq_shift, map_map. f_equal. apply IH. lia.
Qed.

Lemma fraction_agrees : fractionAbove200 g = FractionAbove close (MA close 200) 200.
Proof.
  unfold fractionAbove200, FractionAbove. rewrite (io_ma _ _ _ _ HI), length_lastn, length_SMA. destruct HH as [E1 E2 E3 E4 E5 E6 E7 E8 E9].
  replace (m `min` length Hc)%nat with m by lia. unfold MA. rewrite length_SMA. cbn [Nat.eqb orb].
  destruct (Nat.ltb_spec m 200); [done|]. cbn [orb]. rewrite combine_map_at by (rewrite !length_lastn, length_SMA; lia).
  rewrite length_lastn, map_map. replace (200 `min` m)%nat with 200%nat by lia. do 3 f_equal. apply map_ext_in. intros i Hi. apply in_seq in Hi.
  rewrite !at_lastn by (rewrite ?length_SMA; lia). rewrite !at_skipn, !length_SMA. destruct (Nat.ltb_spec (m - 200 + i) 199).
  - unfold aboveOne. cbn [fst snd]. unfold SMA. rewrite rolling_at by lia. unfold rollValue. rewrite length_firstn, (proj2 (Nat.ltb_lt _ _)) by lia.
    cbn. by rewrite orb_true_r.
  - do 2 f_equal. rewrite at_lastn by (rewrite length_SMA; lia). unfold SMA. rewrite length_rolling.
    replace (at_ (rolling (meanWindow 200) close 200) (m - 200 + i)) with (at_ (rolling (meanWindow 200) (lastn m Hc) 200) (m - 1 - (199 - i)))
      by (rewrite <- E7; f_equal; lia).
    rewrite rolling_suffix by lia. f_equal. lia.
Qed.

Lemma stage_agrees : classifyStageInc g = batchStage g.
Proof.
  unfold classifyStageInc, batchStage, ClassifyStage. change StageMinBars with 220%nat. destruct (Nat.ltb_spec m 220); [done|].
  rewrite slope_agrees, fraction_agrees, ma_last, freshSMA_roll by lia. unfold MA at 3. unfold SMA. rewrite lastNonWindow_rolling by lia.
  assert (Hmean : forall off, meanTail close 60 off = Mean (slice (m - off - 60) (m - off) close)) by done.
  change StageMomentumWindow with 60%nat. rewrite !Hmean. replace (slice (m - 0 - 60) (m - 0) close) with (skipn (m - 60) close); [|].
  - replace (m - 60 - 60)%nat with (m - 2 * 60)%nat by lia. done.
  - unfold slice. rewrite Nat.sub_0_r, firstn_all2; [done|]. rewrite length_skipn. lia.
Qed.

(** The year's extremum, up to the sign of zero. *)
Lemma roll_not_nan b x : (252 <= length x)%nat -> nanFree x -> isNaN (rollValue (extWindow b) 252 x) = false.
Proof.
  intros Hx Hn. unfold rollValue. rewrite (proj2 (Nat.ltb_ge _ _)) by lia. apply extWindow_spec; [rewrite length_lastn; lia|].
  apply nansOf_zero. intros v Hv. apply Hn. apply in_lastn in Hv as (j & _ & Hj & <-); [by apply at_in|lia].
Qed.

Lemma nanFree_lastn n x : nanFree x -> nanFree (lastn n x).
Proof. intros H v Hv. apply H. unfold lastn in Hv. rewrite <- (firstn_skipn (length x - n) x). apply in_app_iff. by right. Qed.

Lemma high_agrees : (0 < m)%nat -> feq (fiftyTwoWeekHigh (g_inc g)) (FiftyTwoWeekHigh (kl_high (g_kl g)) 252).
Proof.
  intros Hm. destruct HH as [E1 E2 E3 E4 E5 E6 E7 E8 E9]. unfold fiftyTwoWeekHigh, FiftyTwoWeekHigh. rewrite (io_fed _ _ _ _ HI). change TTHighLowWindow with 252%nat.
  assert (Hlen : length (kl_high (g_kl g)) = m) by (rewrite E5, length_lastn; lia).
  unfold RollingHigh, RollingMax, rollingExtremum. rewrite lastNonWindow_rolling by lia. destruct (kl_high (g_kl g)) as [|h hs] eqn:Ek; [cbn in Hlen; lia|]. rewrite <- Ek in *.
  destruct (Nat.leb_spec 252 (length Hh)) as [Hf|Hf].
  - rewrite roll_not_nan; [|lia|rewrite E5; by apply nanFree_lastn]. rewrite E5, rollValue_suffix by lia. apply (io_highVal _ _ _ _ HI).
  - unfold rollValue. rewrite (proj2 (Nat.ltb_lt _ _)) by lia. cbn [isNaN NaN fNaN]. rewrite (io_fullHigh _ _ _ _ HI), E5, lastn_all by lia. reflexivity.
Qed.

Lemma low_agrees : (0 < m)%nat -> feq (fiftyTwoWeekLow (g_inc g)) (FiftyTwoWeekLow (kl_low (g_kl g)) 252).
Proof.
  intros Hm. destruct HH as [E1 E2 E3 E4 E5 E6 E7 E8 E9]. unfold fiftyTwoWeekLow, FiftyTwoWeekLow. rewrite (io_fed _ _ _ _ HI). change TTHighLowWindow with 252%nat.
  assert (Hlen : length (kl_low (g_kl g)) = m) by (rewrite E6, length_lastn; lia).
  unfold RollingLow, RollingMin, rollingExtremum. rewrite lastNonWindow_rolling by lia. destruct (kl_low (g_kl g)) as [|h hs] eqn:Ek; [cbn in Hlen; lia|]. rewrite <- Ek in *.
  destruct (Nat.leb_spec 252 (length Hh)) as [Hf|Hf].
  - rewrite roll_not_nan; [|lia|rewrite E6; by apply nanFree_lastn]. rewrite E6, rollValue_suffix by lia. apply (io_lowVal _ _ _ _ HI).
  - unfold rollValue. rewrite (proj2 (Nat.ltb_lt _ _)) by lia. cbn [isNaN NaN fNaN]. rewrite (io_fullLow _ _ _ _ HI), E6, lastn_all by lia. reflexivity.
Qed.

Lemma trend_agrees : trendTemplatePassInc g = batchTrend g.
Proof.
  unfold trendTemplatePassInc, batchTrend, EvaluateTrendTemplate. change TTMinBars with 200%nat. change TTHighLowWindow with 252%nat.
  destruct (Nat.ltb_spec m 200); [by rewrite andb_false_r|]. rewrite ma_last, !freshSMA_roll by lia. unfold MA. unfold SMA. rewrite !lastNonWindow_rolling by lia.
  unfold Passed, rulesOf.
  cbn [forallb tt_Rule1CloseGtMA50 tt_Rule2CloseGtMA150 tt_Rule3CloseGtMA200 tt_Rule4MA50GtMA150 tt_Rule5MA150GtMA200 tt_Rule6Within25PctHigh tt_Rule7Above30PctLow tt_Rule8MarketCapAboveMin].
  unfold fgeb, fgtb. rewrite high_agrees, !low_agrees by lia. by rewrite andb_true_r, !andb_assoc.
Qed.
End Agree.

(** ** Runs of the generator *)

(** The columns of the buffer have one length. *)
Definition columnsOk (k : Klines) : Prop :=
  length (kl_high k) = length (kl_close k) /\ length (kl_low k) = length (kl_close k) /\ length (kl_volume k) = length (kl_close k).

Lemma toSepaBar_numbers b : isNaN (sb_High (toSepaBar b)) = false /\ isNaN (sb_Low (toSepaBar b)) = false.
Proof. split; apply fixed4ToFloat_not_nan. Qed.

Lemma genInc_ext g g' : g_kl g' = g_kl g -> g_inc g' = g_inc g -> genInc g -> genInc g'.
Proof.
  intros E1 E2 (Hh & Hl & Hc & [H1 H2 H3 H4 H5 H6 H7 H8 H9] & Hi). exists Hh, Hl, Hc. rewrite E1, E2. split; [|done]. split; by rewrite ?E1.
Qed.

(** An entry changes the holding only, and fails only where the base detection does. *)
Lemma maybeEnterWith_inv st tt equity bar g : match maybeEnterWith st tt equity bar g with
  | Some (g', s) => (g' = g /\ s = []) \/
      exists vcp grade, (grade = GradeAPlus \/ grade = GradeB) /\ fleb (sb_Close bar) (vc_PivotPrice vcp) = false /\ (g', s) = buildLongEntry equity bar vcp grade g
  | None => exists n, (30 <= n <= length (kl_close (g_kl g)))%nat /\
      DetectVCP (firstn n (kl_high (g_kl g))) (firstn n (kl_low (g_kl g))) (firstn n (kl_volume (g_kl g))) (entryParams (g_cfg g)) = None
  end.
Proof.
  unfold maybeEnterWith. destruct (_ <? 200)%nat; [by left|]. destruct (negb (fgeb _ _)); [by left|]. destruct (negb (String.eqb (st g) "2")); [by left|].
  destruct (negb (tt g)); [by left|]. destruct (Nat.ltb_spec (length (kl_close (g_kl g)) - 1) 30); [by left|].
  destruct (DetectVCP _ _ _ _) as [[vcp|]|] eqn:Ed; cbn [mbind option_bind]; [|by left|].
  - destruct (fleb (sb_Close bar) (vc_PivotPrice vcp)) eqn:Ep; [by left|]. destruct (negb (breakoutVolumeOK g)); [by left|].
    match goal with |- context [String.eqb ?x GradeSkip] => destruct (String.eqb_spec x GradeSkip) as [|Hg]; [by left|]; set (grade := x) in * end.
    destruct (buildLongEntry equity bar vcp grade g) as [g' s] eqn:Eb. right. exists vcp, grade. split; [|done].
    unfold grade in *. unfold gradeSetup in *. repeat case_match; auto; done.
  - exists (length (kl_close (g_kl g)) - 1)%nat. split; [lia|done].
Qed.

(** The base an entry was made of. *)
Lemma maybeEnterWith_vcp st tt equity bar g g' s : maybeEnterWith st tt equity bar g = Some (g', s) ->
  g' = g \/ exists vcp grade n, DetectVCP (firstn n (kl_high (g_kl g))) (firstn n (kl_low (g_kl g))) (firstn n (kl_volume (g_kl g))) (entryParams (g_cfg g)) = Some (Some vcp) /\
    buildLongEntry equity bar vcp grade g = (g', s).
Proof.
  unfold maybeEnterWith. cbv zeta. destruct (_ <? 200)%nat; [intros [= <- _]; by left|]. destruct (negb (fgeb _ _)); [intros [= <- _]; by left|].
  destruct (negb (String.eqb _ "2")); [intros [= <- _]; by left|]. destruct (negb (tt g)); [intros [= <- _]; by left|]. destruct (_ <? 30)%nat; [intros [= <- _]; by left|].
  destruct (DetectVCP _ _ _ _) as [[vcp|]|] eqn:Ed; cbn [mbind option_bind]; [|intros [= <- _]; by left|done].
  destruct (fleb _ _); [intros [= <- _]; by left|]. destruct (negb _); [intros [= <- _]; by left|]. destruct (String.eqb _ GradeSkip); [intros [= <- _]; by left|].
  intros [= E]. right. by eexists vcp, _, _.
Qed.

Lemma buildLongEntry_inv equity bar vcp grade g : let '(g', s) := buildLongEntry equity bar vcp grade g in
  (g' = g /\ s = []) \/
  exists shares stop reason, 0 < shares /\ (stop = stopUnder (sb_Close bar) (cf_HardStopPct (g_cfg g)) \/ stop = stopUnder (vc_PivotPrice vcp) (cf_PivotBufferPct (g_cfg g))) /\
    fleb (fsub (sb_Close bar) stop) fzero = false /\
    g' = with_hold (mkHolding shares (decFromFloat (sb_Close bar)) (decFromFloat stop) (decFromFloat (vc_PivotPrice vcp)) grade) g /\
    s = [mkSignal (sb_Symbol bar) (sb_TS bar) SepaLong shares reason (zToFloat 1) grade (pyFloatRepr stop)].
Proof.
  unfold buildLongEntry. cbv zeta. set (stop := if fgtb _ _ then _ else _). set (n := computeFirstTrancheShares _ _ _ _ _).
  destruct (Z.leb_spec n 0); [by left|]. right. exists n, stop. eexists. splits; [done| | |done|done].
  - unfold stop. destruct (fgtb _ _); [by right|by left].
  - destruct (fleb (fsub (sb_Close bar) stop) fzero) eqn:E; [|done]. unfold n, computeFirstTrancheShares in H. rewrite E in H. lia.
Qed.

Lemma appendBar_parts bar g : g_cfg (appendBar bar g) = g_cfg g /\ g_hold (appendBar bar g) = g_hold g /\ g_ctx (appendBar bar g) = g_ctx g.
Proof. unfold appendBar. cbv zeta. by destruct (_ && _). Qed.

Lemma appendBar_columns bar g : columnsOk (g_kl g) -> columnsOk (g_kl (appendBar bar g)).
Proof.
  intros (H1 & H2 & H3). unfold appendBar, columnsOk. cbv zeta. destruct (_ && _); cbn; rewrite ?length_skipn, !length_app; cbn; lia.
Qed.

(** What a run keeps. *)
Record genOk (cfg : SepaConfig) (g : Generator) : Prop := {
  go_cfg : g_cfg g = cfg;
  go_columns : columnsOk (g_kl g);
  go_inc : genInc g
}.

Lemma genOk_hold cfg h g : genOk cfg g -> genOk cfg (with_hold h g).
Proof. intros [H1 H2 H3]. split; [done|done|]. by apply (genInc_ext g). Qed.

Lemma genOk_append cfg b g : capOk cfg -> genOk cfg g -> genOk cfg (appendBar (toSepaBar b) g).
Proof.
  intros Hcap [H1 H2 H3]. destruct (appendBar_parts (toSepaBar b) g) as (E1 & _ & _). destruct (toSepaBar_numbers b) as [N1 N2].
  split; [congruence|by apply appendBar_columns|]. apply appendBar_genInc; [by rewrite H1|done|done|done].
Qed.

Lemma warmup_columns (kept : list SepaBar) :
  let k := mkKlines (map sb_TS kept) (map sb_Open kept) (map sb_High kept) (map sb_Low kept) (map sb_Close kept) (map (fun b => zToFloat (sb_Volume b)) kept) in
  columnsOk k.
Proof. unfold columnsOk. cbn. by rewrite !length_map. Qed.

Lemma genOk_warmup cfg bars g : genOk cfg g -> genOk cfg (WarmupFromHistory (map toSepaBar bars) g).
Proof.
  intros [H1 H2 H3]. unfold WarmupFromHistory. destruct (map toSepaBar bars) as [|b bs] eqn:E; [by split|]. rewrite <- E. clear E b bs. cbv zeta.
  set (kept := if _ && _ then _ else _).
  assert (Hin : forall x, In x kept -> exists b, x = toSepaBar b).
  { intros x Hx. assert (Hx' : In x (map toSepaBar bars)).
    { unfold kept in Hx. destruct (_ && _); [|done]. rewrite <- (firstn_skipn (length (map toSepaBar bars) - Z.to_nat (cf_HistoryMaxBars (g_cfg g))) (map toSepaBar bars)).
      apply in_app_iff. by right. }
    apply in_map_iff in Hx' as (b & <- & _). by exists b. }
  split; [done|apply warmup_columns|]. eapply rebuild_genInc; [| | | |done|done]; cbn; rewrite ?length_map; try done.
  - intros v Hv. apply in_map_iff in Hv as (x & <- & Hx). destruct (Hin x Hx) as [b ->]. apply toSepaBar_numbers.
  - intros v Hv. apply in_map_iff in Hv as (x & <- & Hx). destruct (Hin x Hx) as [b ->]. apply toSepaBar_numbers.
Qed.

Lemma EvaluateSignal_gen asOf g g' s : EvaluateSignal asOf g = Some (g', s) ->
  g' = mkGen (g_cfg g) (g_kl g) (g_hold g) (g_intentGeneration g + 1) (g_ctx g) (g_inc g).
Proof.
  unfold EvaluateSignal. cbv zeta. destruct (_ <? 50)%nat; [by intros [= <- _]|]. destruct (negb _ && _ && _); [by intros [= <- _]|].
  destruct (negb (_ =? 0)); [by intros [= <- _]|]. destruct (DetectVCP _ _ _ _) as [vcp|]; [|done]. cbn [mbind option_bind].
  destruct (negb (Passed _)); [by intros [= <- _]|]. destruct (planLevels _ _ _) as [pivot stop]. by intros [= <- _].
Qed.

Lemma genOk_enter cfg st tt equity bar g g' s : genOk cfg g -> maybeEnterWith st tt equity bar g = Some (g', s) -> genOk cfg g'.
Proof.
  intros Hg E. pose proof (maybeEnterWith_inv st tt equity bar g) as H. rewrite E in H. destruct H as [[-> _]|(vcp & grade & _ & _ & Eb)]; [done|].
  pose proof (buildLongEntry_inv equity bar vcp grade g) as Hb. rewrite <- Eb in Hb. destruct Hb as [[-> _]|(? & ? & ? & _ & _ & _ & -> & _)]; [done|].
  by apply genOk_hold.
Qed.

Lemma genOk_step cfg st tt o g g' s : capOk cfg -> genOk cfg g -> stepWith (maybeEnterWith st tt) o g = Some (g', s) -> genOk cfg g'.
Proof.
  intros Hcap Hg. destruct o as [equity bar|bars|r|v|b|b|asOf]; cbn [stepWith]; try (intros [= <- <-]; destruct Hg as [H1 H2 H3]; split; [done|done|by apply (genInc_ext g)]).
  - unfold OnBarWith. destruct (negb _); [by intros [= <- <-]|]. pose proof (genOk_append cfg bar g Hcap Hg) as Ha.
    destruct (_ =? 0); [by apply genOk_enter|]. unfold maybeExit. destruct (fleb _ _); intros [= <- <-]; [by apply genOk_hold|done].
  - intros [= <- <-]. by apply genOk_warmup.
  - destruct (EvaluateSignal asOf g) as [[g1 sn]|] eqn:E; [|done]. intros [= <- <-]. apply EvaluateSignal_gen in E as ->.
    destruct Hg as [H1 H2 H3]. split; [done|done|by apply (genInc_ext g)].
Qed.

Lemma NewGenerator_ok cfg g : NewGenerator cfg = Ok g -> genOk cfg g /\ g_hold g = flatHolding.
Proof.
  unfold NewGenerator. destruct (Config_Validate cfg); cbn; [|done]. intros [= <-]. split; [|done]. split; [done|by unfold columnsOk|].
  eapply (rebuild_genInc _ noKlines); [done|done|by intros v []|by intros v []|done|done].
Qed.

(** ** Properties *)

Lemma enter_is_batch cfg equity bar g : genOk cfg g -> maybeEnter equity bar g = maybeEnterWith batchStage batchTrend equity bar g.
Proof.
  intros [_ _ (Hh & Hl & Hc & HH & HI)]. unfold maybeEnter, maybeEnterWith. by rewrite (stage_agrees g Hh Hl Hc HH HI), (trend_agrees g Hh Hl Hc HH HI).
Qed.

Lemma step_is_batch cfg o g : capOk cfg -> genOk cfg g -> stepWith maybeEnter o g = stepWith (maybeEnterWith batchStage batchTrend) o g.
Proof.
  intros Hcap Hg. destruct o as [equity bar|bars|r|v|b|b|asOf]; [|reflexivity..]. cbn [stepWith]. unfold OnBarWith. destruct (negb _); [done|].
  by rewrite (enter_is_batch cfg) by (by apply genOk_append).
Qed.

Lemma run_is_batch cfg ops : forall g, capOk cfg -> genOk cfg g -> runSepa ops g = runBatch ops g.
Proof.
  unfold runSepa, runBatch. induction ops as [|o ops IH]; intros g Hcap Hg; [done|]. cbn [runWith]. rewrite (step_is_batch cfg) by done.
  destruct (stepWith _ o g) as [[g1 s]|] eqn:E; [|done]. cbn [mbind option_bind]. rewrite IH; [done|done|]. by apply (genOk_step cfg batchStage batchTrend o g g1 s).
Qed.

(** C19: The incremental entry chain is the batch one.  Over any bars with fixed-point
    prices, warm-ups and changes of context, and across the trimming of its buffer,
    the generator emits exactly the signals, and keeps exactly the state, of one that
    recomputes stage and trend template from its whole buffer at every bar; the
    buffer is unbounded or spans at least a year of bars. *)
Theorem incremental_equals_batch (cfg : SepaConfig) (g : Generator) (ops : list sepaOp) (Hnew : NewGenerator cfg = Ok g)
    (Hcap : cf_HistoryMaxBars cfg <= 0 \/ 252 <= cf_HistoryMaxBars cfg) :
  runSepa ops g = runBatch ops g.
Proof. destruct (NewGenerator_ok cfg g Hnew) as [Hg _]. by apply (run_is_batch cfg). Qed.

(** ** Positions *)

(** The holding of a generator. *)
Definition holdOk (cfg : SepaConfig) (h : Holding) : Prop :=
  h = flatHolding \/
  0 < ho_position h /\ (ho_grade h = GradeAPlus \/ ho_grade h = GradeB) /\
  exists entry stop pivot, ho_entryPrice h = decFromFloat entry /\ ho_stopPrice h = decFromFloat stop /\ ho_pivotPrice h = decFromFloat pivot /\
    fleb (fsub entry stop) fzero = false /\ fleb entry pivot = false /\
    (stop = stopUnder entry (cf_HardStopPct cfg) \/ stop = stopUnder pivot (cf_PivotBufferPct cfg)).

(** The signals take the position from one size to another: an entry from flat, an
    exit of a position to flat. *)
Inductive follows : Z -> list Signal -> Z -> Prop :=
| follows_nil p : follows p [] p
| follows_long s ss q : sg_Side s = SepaLong -> 0 < sg_TargetQty s -> follows (sg_TargetQty s) ss q -> follows 0 (s :: ss) q
| follows_flat s ss p q : sg_Side s = SepaFlat -> 0 < p -> sg_TargetQty s = 0 -> follows 0 ss q -> follows p (s :: ss) q.

Lemma follows_app p ss q tt r : follows p ss q -> follows q tt r -> follows p (ss ++ tt) r.
Proof. induction 1; intros H'; [done|by apply follows_long; auto|by apply follows_flat; auto]. Qed.

Lemma holdOk_pos cfg h : holdOk cfg h -> ho_position h = 0 /\ h = flatHolding \/ 0 < ho_position h.
Proof. intros [->|(H & _)]; [by left|by right]. Qed.

Lemma bar_position cfg st tt equity bar g g' s : g_cfg g = cfg -> holdOk cfg (g_hold g) ->
  OnBarWith (maybeEnterWith st tt) equity bar g = Some (g', s) ->
  holdOk cfg (g_hold g') /\ follows (ho_position (g_hold g)) s (ho_position (g_hold g')).
Proof.
  intros Hcfg Hh. unfold OnBarWith. destruct (negb _); [intros [= <- <-]; split; [done|constructor]|].
  destruct (appendBar_parts bar g) as (E1 & E2 & _). set (g1 := appendBar bar g) in *. rewrite <- E2 in Hh |- *. destruct (Z.eqb_spec (ho_position (g_hold g1)) 0) as [E0|E0].
  - intros E. pose proof (maybeEnterWith_inv st tt equity bar g1) as H. rewrite E in H. destruct H as [[-> ->]|(vcp & grade & Hgr & Hp & Eb)]; [split; [done|constructor]|].
    pose proof (buildLongEntry_inv equity bar vcp grade g1) as Hb. rewrite <- Eb in Hb.
    destruct Hb as [[-> ->]|(n & stop & reason & Hn & Hst & Hd & -> & ->)]; [split; [done|constructor]|]. split.
    + right. cbn. split; [done|]. split; [done|]. exists (sb_Close bar), stop, (vc_PivotPrice vcp). rewrite E1, Hcfg in Hst. done.
    + rewrite E0. cbn. apply follows_long; [done|done|constructor].
  - unfold maybeExit. destruct (fleb _ _); intros [= <- <-]; [|split; [done|constructor]]. split; [by left|].
    destruct (holdOk_pos cfg _ Hh) as [[? _]|Hpos]; [done|]. cbn. apply follows_flat; [done|done|done|constructor].
Qed.

Lemma step_position cfg st tt o g g' s : g_cfg g = cfg -> holdOk cfg (g_hold g) -> stepWith (maybeEnterWith st tt) o g = Some (g', s) ->
  holdOk cfg (g_hold g') /\ follows (ho_position (g_hold g)) s (ho_position (g_hold g')).
Proof.
  intros Hcfg Hh. destruct o as [equity bar|bars|r|v|b|b|asOf]; cbn [stepWith]; try (intros [= <- <-]; split; [done|constructor]).
  - by apply bar_position.
  - intros [= <- <-]. assert (E : g_hold (WarmupFromHistory (map toSepaBar bars) g) = g_hold g) by (unfold WarmupFromHistory; by destruct (map toSepaBar bars)).
    rewrite E. split; [done|constructor].
  - destruct (EvaluateSignal asOf g) as [[g1 sn]|] eqn:E; [|done]. intros [= <- <-]. apply EvaluateSignal_gen in E as ->. split; [done|constructor].
Qed.

Lemma step_total cfg st tt o g : 1 <= cf_VCPLookback cfg -> genOk cfg g -> exists r, stepWith (maybeEnterWith st tt) o g = Some r.
Proof.
  intros Hl [Hcfg Hcol _]. destruct o as [equity bar|bars|r|v|b|b|asOf]; cbn [stepWith]; try by eexists.
  - unfold OnBarWith. destruct (negb _); [by eexists|]. destruct (_ =? 0); [|by eexists].
    set (g1 := appendBar (toSepaBar bar) g). pose proof (maybeEnterWith_inv st tt equity (toSepaBar bar) g1) as H.
    destruct (maybeEnterWith st tt equity (toSepaBar bar) g1) as [r|]; [by eexists|]. destruct H as (n & Hn & Ed). exfalso.
    destruct (appendBar_columns (toSepaBar bar) g Hcol) as (C1 & C2 & C3). fold g1 in C1, C2, C3.
    destruct (DetectVCP_total (firstn n (kl_high (g_kl g1))) (firstn n (kl_low (g_kl g1))) (firstn n (kl_volume (g_kl g1))) (entryParams (g_cfg g1))) as [r Er];
      [rewrite !length_firstn; lia|rewrite !length_firstn; lia| |congruence].
    destruct (appendBar_parts (toSepaBar bar) g) as (E1 & _ & _). cbn. unfold g1. by rewrite E1, Hcfg.
  - destruct Hcol as (C1 & C2 & C3). destruct (EvaluateSignal asOf g) as [[g1 sn]|] eqn:E; [by eexists|]. exfalso. revert E. unfold EvaluateSignal. cbv zeta. cbn [g_kl g_cfg].
    destruct (_ <? 50)%nat; [done|]. destruct (negb _ && _ && _); [done|]. destruct (negb (_ =? 0)); [done|].
    destruct (DetectVCP_total (kl_high (g_kl g)) (kl_low (g_kl g)) (kl_volume (g_kl g)) (entryParams (g_cfg g))) as [r Er]; [lia|lia|cbn; by rewrite Hcfg|].
    rewrite Er. cbn [mbind option_bind]. destruct (negb (Passed _)); [done|]. by destruct (planLevels _ _ _).
Qed.

Lemma run_position cfg st tt ops : forall g, capOk cfg -> 1 <= cf_VCPLookback cfg -> genOk cfg g -> holdOk cfg (g_hold g) ->
  exists g' ss, runWith (maybeEnterWith st tt) ops g = Some (g', ss) /\ holdOk cfg (g_hold g') /\
    follows (ho_position (g_hold g)) (List.concat ss) (ho_position (g_hold g')).
Proof.
  induction ops as [|o ops IH]; intros g Hcap Hl Hg Hh; [exists g, []; splits; [done|done|constructor]|].
  destruct (step_total cfg st tt o g Hl Hg) as [[g1 s] E]. cbn [runWith]. rewrite E. cbn [mbind option_bind].
  destruct (step_position cfg st tt o g g1 s (go_cfg _ _ Hg) Hh E) as [H1 F1].
  destruct (IH g1 Hcap Hl (genOk_step cfg st tt o g g1 s Hcap Hg E) H1) as (g2 & ss & -> & H2 & F2).
  exists g2, (s :: ss). splits; [done|done|]. cbn. by eapply follows_app.
Qed.

(** The strategy never panics and its position is consistent.  With a swing
    lookback of at least one, every run returns; the signals it emits are entries
    from flat with a positive size and exits of a held position to flat, in
    alternation; and at its end the generator is flat with nothing remembered, or it
    holds a graded position entered above its pivot whose stop, the hard stop or the
    buffer under the pivot, lies under its entry. *)
Theorem positions_are_consistent (cfg : SepaConfig) (g : Generator) (ops : list sepaOp) (Hnew : NewGenerator cfg = Ok g)
    (Hcap : cf_HistoryMaxBars cfg <= 0 \/ 252 <= cf_HistoryMaxBars cfg) (Hlookback : 1 <= cf_VCPLookback cfg) :
  exists g' signals, runSepa ops g = Some (g', signals) /\ holdOk cfg (g_hold g') /\ follows 0 (List.concat signals) (ho_position (g_hold g')).
Proof.
  destruct (NewGenerator_ok cfg g Hnew) as [Hg Hf]. destruct (run_position cfg classifyStageInc trendTemplatePassInc ops g Hcap Hlookback Hg) as (g' & ss & E & H1 & H2);
    [left; done|]. exists g', ss. rewrite Hf in H2. done.
Qed.

(** ** Printed prices read back *)

Lemma digitOf_digit c : digitOf c = if is_digit c then Some (code c - 48) else None.
Proof.
  unfold digitOf, is_digit. assert (E : Z.of_nat (nat_of_ascii c) = code c) by (unfold code, nat_of_ascii; lia). rewrite E.
  destruct (Z.leb_spec 0 (code c - 48)), (Z.ltb_spec (code c - 48) 10), (Z.leb_spec 48 (code c)), (Z.leb_spec (code c) 57); done || lia.
Qed.

Lemma scanDigits_app ds : forall acc n rest, digits ds ->
  scanDigits acc n (ds ++ rest) = scanDigits (acc * 10 ^ Z.of_nat (length ds) + dval ds) (n + Z.of_nat (length ds)) rest.
Proof.
  induction ds as [|c ds IH]; intros acc n rest Hd.
  - cbn [app length]. change (dval []) with 0. f_equal; cbn; lia.
  - apply List.Forall_cons_iff in Hd as [Hc Hd]. cbn [app scanDigits]. rewrite digitOf_digit, Hc, IH by done. rewrite dval_cons. cbn [length].
    rewrite Nat2Z.inj_succ, Z.pow_succ_r by lia. f_equal; [ring|lia].
Qed.

(** A text that does not go on with a digit. *)
Definition stops (s : list ascii) : Prop := match s with [] => True | c :: _ => is_digit c = false end.

Lemma scanDigits_stop acc n s : stops s -> scanDigits acc n s = (acc, n, s).
Proof. destruct s as [|c s]; [done|]. cbn. intros Hc. by rewrite digitOf_digit, Hc. Qed.

Lemma scanDigits_all acc n ds s : digits ds -> stops s ->
  scanDigits acc n (ds ++ s) = (acc * 10 ^ Z.of_nat (length ds) + dval ds, n + Z.of_nat (length ds), s).
Proof. intros Hd Hs. by rewrite scanDigits_app, scanDigits_stop. Qed.

(** A decimal text: integral digits, fractional ones after a point, an exponent. *)
Lemma parseUnsigned_point neg ip fp tail p ex : digits ip -> digits fp -> ip <> [] -> stops tail -> scanExp tail = Some ex -> dval (ip ++ fp) = Zpos p ->
  isInf (decimalToFloat neg p (ex - Z.of_nat (length fp))) = false ->
  parseUnsigned neg (ip ++ "."%char :: fp ++ tail) = decimalToFloat neg p (ex - Z.of_nat (length fp)).
Proof.
  intros Hi Hf Hne Ht He Hv Hinf. unfold parseUnsigned. rewrite scanDigits_all by done. cbn [Z.mul]. rewrite scanDigits_all by done. rewrite He.
  rewrite dval_app in Hv. rewrite !Z.add_0_l, Hv, Hinf. destruct (Z.eqb_spec (Z.of_nat (length ip) + Z.of_nat (length fp)) 0) as [E|]; [|done].
  destruct ip; [done|cbn in E; lia].
Qed.

Lemma parseUnsigned_plain neg ip tail p ex : digits ip -> ip <> [] -> stops tail -> hd_error tail <> Some "."%char -> scanExp tail = Some ex -> dval ip = Zpos p ->
  isInf (decimalToFloat neg p ex) = false -> parseUnsigned neg (ip ++ tail) = decimalToFloat neg p ex.
Proof.
  intros Hi Hne Ht Hdot He Hv Hinf. unfold parseUnsigned. rewrite scanDigits_all by done. cbn [Z.mul]. rewrite !Z.add_0_l.
  assert (Em : forall X : Z * Z * list ascii, match tail with "."%char :: r => let '(v, n, r') := scanDigits (dval ip) 0 r in (v, n, r') | _ => X end = X).
  { intros X. destruct tail as [|c tail]; [done|]. destruct (Ascii.eqb_spec c "."%char) as [->|Hc]; [done|]. destruct c as [[] [] [] [] [] [] [] []]; done. }
  rewrite Em, He, Hv, Z.sub_0_r, Hinf. destruct (Z.eqb_spec (Z.of_nat (length ip) + 0) 0) as [E|]; [|done]. destruct ip; [done|cbn in E; lia].
Qed.

(** The exponent part that is printed. *)
Definition expText (exp : Z) : list ascii :=
  ["e"%char; if exp <? 0 then "-"%char else "+"%char] ++
  (if Z.abs exp <? 10 then "0"%char :: uintDigits 20 (Z.abs exp) else uintDigits 20 (Z.abs exp)).

Lemma scanExp_text exp : Z.abs exp < 10 ^ 19 -> scanExp (expText exp) = Some exp.
Proof.
  intros He. unfold expText. destruct (uintDigits_spec 20 (Z.abs exp)) as (D & V & N); [change (10 ^ Z.of_nat 20) with (10 * 10 ^ 19); lia|lia|].
  set (ds := if Z.abs exp <? 10 then _ else _). assert (Hds : digits ds /\ dval ds = Z.abs exp /\ ds <> []).
  { unfold ds. destruct (_ <? _); [|done]. split; [by constructor|]. split; [|done]. rewrite dval_cons. change (code "0") with 48. lia. }
  clearbody ds. destruct Hds as (Dd & Vd & Nd). pose proof (scanDigits_all 0 0 ds [] Dd I) as Hs. rewrite app_nil_r, Vd in Hs. cbn [Z.mul] in Hs. rewrite !Z.add_0_l in Hs.
  assert (Hlen : (Z.of_nat (length ds) =? 0) = false) by (apply Z.eqb_neq; destruct ds; [done|cbn; lia]).
  destruct (Z.ltb_spec exp 0); cbn [app scanExp]; rewrite Hs, Hlen; f_equal; lia.
Qed.

Lemma digits_repeat n : digits (repeat "0"%char n) /\ dval (repeat "0"%char n) = 0.
Proof. induction n as [|n [IH1 IH2]]; [by split; [constructor|]|]. cbn [repeat]. split; [by constructor|]. rewrite dval_cons, IH2. change (code "0") with 48. lia. Qed.

Lemma uintDigits_short fuel : forall u, (length (uintDigits fuel u) <= fuel)%nat.
Proof. induction fuel as [|f IH]; intros u; [done|]. cbn [uintDigits]. destruct (u <? 10); [cbn; lia|]. rewrite length_app. specialize (IH (u / 10)). cbn. lia. Qed.

(** What is printed of digits and their exponent reads back as their value. *)
Lemma parse_formatPyDigits neg p k : Zpos p <= 10 ^ 17 -> Z.abs k < 10 ^ 18 -> isInf (decimalToFloat neg p k) = false ->
  let ds := uintDigits 20 (Zpos p) in parseUnsigned neg (formatPyDigits ds (k + Z.of_nat (length ds) - 1)) = decimalToFloat neg p k.
Proof.
  intros Hp Hk Hinf. cbv zeta. destruct (uintDigits_spec 20 (Zpos p)) as (D & V & N); [change (10 ^ Z.of_nat 20) with (1000 * 10 ^ 17); lia|lia|].
  assert (Hlen : 0 < Z.of_nat (length (uintDigits 20 (Zpos p))) <= 20).
  { pose proof (uintDigits_short 20 (Zpos p)) as Hs. destruct (uintDigits 20 (Zpos p)); [done|cbn [length] in *; lia]. }
  set (ds := uintDigits 20 (Zpos p)) in *. clearbody ds. set (n := Z.of_nat (length ds)) in *. set (exp := k + n - 1).
  unfold formatPyDigits. fold n. destruct (_ || _) eqn:Ee.
  - change (formatE ds exp) with (match ds with [] => [] | [c] => [c] | c :: rest => c :: "."%char :: rest end ++ expText exp).
    assert (He : scanExp (expText exp) = Some exp) by (apply scanExp_text; unfold exp; lia).
    destruct ds as [|c [|c2 rest]]; [done| |].
    + unfold exp in *. cbn [length] in n. replace (k + n - 1) with k in * by (unfold n; lia). by apply parseUnsigned_plain.
    + change ((c :: "."%char :: c2 :: rest) ++ expText exp) with ([c] ++ "."%char :: (c2 :: rest) ++ expText exp).
      apply List.Forall_cons_iff in D as [D1 D2]. replace k with (exp - Z.of_nat (length (c2 :: rest))) in * by (unfold exp, n; cbn [length]; lia).
      apply parseUnsigned_point; try done. by constructor.
  - apply orb_false_iff in Ee as [Ee1 Ee2]. apply Z.ltb_ge in Ee1. apply Z.leb_gt in Ee2. destruct (Z.leb_spec 0 exp) as [H0|H0].
    + destruct (Z.leb_spec n (exp + 1)) as [Hn|Hn].
      * destruct (digits_repeat (Z.to_nat (exp + 1 - n))) as [Dz Vz]. set (zs := repeat "0"%char (Z.to_nat (exp + 1 - n))) in *.
        assert (Hz : Z.of_nat (length zs) = k) by (unfold zs; rewrite repeat_length; unfold exp; lia).
        change ["."; "0"]%char with ("."%char :: ["0"%char] ++ []). rewrite app_assoc. assert (H10 : 0 < 10 ^ (k + 1)) by (apply pow10_pos; lia).
        assert (Hv : dval ((ds ++ zs) ++ ["0"%char]) = Zpos (p * Z.to_pos (10 ^ (k + 1)))).
        { rewrite Pos2Z.inj_mul, Z2Pos.id by done. rewrite !dval_app, V, Vz, Hz. change (dval ["0"%char]) with 0. cbn [length]. rewrite Z.pow_add_r by lia. change (10 ^ Z.of_nat 1) with 10. change (10 ^ 1) with 10. lia. }
        assert (Hd : decimalToFloat neg (p * Z.to_pos (10 ^ (k + 1))) (0 - Z.of_nat (length ["0"%char])) = decimalToFloat neg p k).
        { apply decimalToFloat_zeros; [lia|]. by rewrite Pos2Z.inj_mul, Z2Pos.id. }
        rewrite <- Hd in *. apply parseUnsigned_point; try done; [by apply digits_app|by repeat constructor|by destruct ds].
      * set (a := firstn _ ds). set (b := skipn _ ds). assert (Eds : a ++ b = ds) by apply firstn_skipn. rewrite <- Eds in D. apply digits_app in D as [Da Db].
        assert (Hb : Z.of_nat (length b) = - k) by (unfold b; rewrite length_skipn; unfold exp, n in *; lia).
        replace k with (0 - Z.of_nat (length b)) in * by lia. rewrite <- (app_nil_r b) at 1.
        change (a ++ ["."%char] ++ b ++ []) with (a ++ "."%char :: b ++ []). apply parseUnsigned_point; try done; [|by rewrite Eds].
        intros Ea. apply (f_equal (@List.length ascii)) in Ea. unfold a in Ea. rewrite length_firstn in Ea. cbn in Ea. unfold n in *. lia.
    + destruct (digits_repeat (Z.to_nat (- exp - 1))) as [Dz Vz]. set (zs := repeat "0"%char (Z.to_nat (- exp - 1))) in *.
      assert (Hz : Z.of_nat (length (zs ++ ds)) = - k) by (rewrite length_app; unfold zs; rewrite repeat_length; unfold exp, n in *; lia).
      replace k with (0 - Z.of_nat (length (zs ++ ds))) in * by lia. change (["0"; "."]%char ++ zs ++ ds) with (["0"%char] ++ "."%char :: (zs ++ ds)).
      rewrite <- (app_nil_r (zs ++ ds)) at 1. apply parseUnsigned_point; try done; [by repeat constructor|by apply digits_app|].
      change (["0"%char] ++ zs ++ ds) with ("0"%char :: zs ++ ds). rewrite dval_cons, dval_app, V, Vz. change (code "0") with 48. lia.
Qed.

Lemma formatPyDigits_head ds exp : digits ds -> ds <> [] -> exists c t, formatPyDigits ds exp = c :: t /\ is_digit c = true.
Proof.
  intros Hd Hne. unfold formatPyDigits, formatE. destruct ds as [|c ds]; [done|]. apply List.Forall_cons_iff in Hd as [Hc _].
  destruct (_ || _); [destruct ds; by eexists _, _|]. destruct (Z.leb_spec 0 exp); [|by eexists _, _]. destruct (_ <=? _); [by eexists _, _|].
  destruct (Z.to_nat (exp + 1)) as [|n] eqn:En; [lia|]. by eexists _, _.
Qed.

(** The shortest text of a binary64 number reads back as the number. *)
Lemma pyFloat_roundtrip f : isFloat64 f -> parsePyFloat (pyFloatRepr f) = f.
Proof.
  intros Hf. destruct f as [[]|[]| |s m e]; [by vm_compute..|].
  destruct (shortestDecimal_back m e) as (p & k & Es & Hb & Hp & Hk); [exact Hf|].
  assert (Hback : decimalToFloat s p k = S754_finite s m e) by (destruct s; [by rewrite decimalToFloat_sign, Hb|done]).
  pose proof (parse_formatPyDigits s p k Hp ltac:(lia)) as Hparse. rewrite Hback in Hparse. specialize (Hparse eq_refl). cbv zeta in Hparse.
  unfold pyFloatRepr. rewrite Es. cbv zeta.
  destruct (uintDigits_spec 20 (Zpos p)) as (D & _ & N); [change (10 ^ Z.of_nat 20) with (1000 * 10 ^ 17); lia|lia|].
  destruct (formatPyDigits_head _ (k + Z.of_nat (length (uintDigits 20 (Zpos p))) - 1) D N) as (c & t & Ec & Hc). rewrite Ec in *.
  unfold parsePyFloat. destruct s.
  - destruct (decide _) as [E|_]; [discriminate E|]. destruct (decide _) as [E|_]; [by injection E as -> _|]. by destruct (decide _) as [E|_]; [discriminate E|].
  - destruct (decide _) as [E|_]; [by injection E as -> _|]. destruct (decide _) as [E|_]; [by injection E as -> _|]. destruct (decide _) as [E|_]; [by injection E as -> _|].
    rewrite <- Hparse. destruct (Ascii.eqb_spec c "-"%char) as [->|Hne]; [done|]. destruct c as [[] [] [] [] [] [] [] []]; done.
Qed.

Lemma decFromStr_back f : isFloat64 f -> decFromStr (ds_str (decFromFloat f)) = decFromFloat f.
Proof.
  intros Hf. unfold decFromStr. cbn [ds_str decFromFloat]. rewrite (pyFloat_roundtrip f Hf).
  assert (Hne : pyFloatRepr f <> [] /\ pyFloatRepr f <> chars "0").
  { split; intros E; pose proof (pyFloat_roundtrip f Hf) as Hb; rewrite E in Hb; vm_compute in Hb; subst f; vm_compute in E; discriminate E. }
  destruct Hne as [H1 H2]. by rewrite !bool_decide_eq_false_2.
Qed.

(** ** Every price held is a float *)

(** The highs of the buffer are floats, and so are the prices of the position, which
    are zero while there is none. *)
Definition pricesOk (g : Generator) : Prop :=
  Forall isFloat64 (kl_high (g_kl g)) /\
  let h := g_hold g in Forall (fun d => d = dsZero \/ exists f, d = decFromFloat f /\ isFloat64 f) [ho_entryPrice h; ho_stopPrice h; ho_pivotPrice h].

Lemma fixed4ToFloat_float64 v : isFloat64 (fixed4ToFloat v).
Proof. destruct v; [done|apply ratToFloat_float64..]. Qed.

Lemma Max_float64 l : Forall isFloat64 l -> isFloat64 (Max l).
Proof.
  unfold Max. assert (H0 : isFloat64 NaN) by done. revert H0. generalize NaN as out. induction l as [|v l IH]; intros out H0 Hl; [done|].
  apply List.Forall_cons_iff in Hl as [Hv Hl]. cbn [fold_left]. apply IH; [|done]. unfold maxStep. repeat case_match; done.
Qed.

Lemma stopUnder_float64 price pct : isFloat64 (stopUnder price pct).
Proof.
  unfold stopUnder, RoundHalfEven. set (x := fmul _ _). destruct (isNaN x || isInf x) eqn:E; [by destruct x|]. cbv zeta. apply fdiv_float64.
Qed.

Lemma Forall_sub {A} (P : A -> Prop) l l' : (forall x, In x l' -> In x l) -> Forall P l -> Forall P l'.
Proof. rewrite !List.Forall_forall. auto. Qed.

Lemma pricesOk_append cfg b g : g_cfg g = cfg -> pricesOk g -> pricesOk (appendBar (toSepaBar b) g).
Proof.
  intros _ [H1 H2]. destruct (appendBar_parts (toSepaBar b) g) as (_ & E & _). unfold pricesOk. rewrite E. split; [|done].
  assert (Hn : Forall isFloat64 (kl_high (g_kl g) ++ [sb_High (toSepaBar b)])) by (apply List.Forall_app; split; [done|]; constructor; [apply fixed4ToFloat_float64|done]).
  unfold appendBar. cbv zeta. destruct (_ && _); cbn [g_kl with_kl trimKlines kl_high]; [|done].
  eapply Forall_sub; [|exact Hn]. intros x Hx. rewrite <- (firstn_skipn (Z.to_nat (Z.of_nat (length (kl_close (g_kl g) ++ [sb_Close (toSepaBar b)])) - cf_HistoryMaxBars (g_cfg g)))).
  apply in_or_app. by right.
Qed.

Lemma pricesOk_enter st tt equity b g g' s : pricesOk g -> maybeEnterWith st tt equity (toSepaBar b) g = Some (g', s) -> pricesOk g'.
Proof.
  intros [H1 H2] E. pose proof (maybeEnterWith_vcp st tt equity (toSepaBar b) g g' s E) as H. destruct H as [->|(vcp & grade & n & Ed & Eb)]; [done|].
  pose proof (buildLongEntry_inv equity (toSepaBar b) vcp grade g) as Hb. rewrite Eb in Hb.
  destruct Hb as [[-> _]|(shares & stop & reason & _ & Hstop & _ & -> & _)]; [done|]. unfold pricesOk. cbn [g_kl with_hold g_hold ho_entryPrice ho_stopPrice ho_pivotPrice].
  split; [done|]. destruct (detected_base_is_valid _ _ _ _ _ Ed) as (sw & older & legs & first & newest & _ & _ & _ & _ & _ & _ & _ & _ & _ & _ & _ & _ & Hpiv & _).
  repeat apply List.Forall_cons; try apply List.Forall_nil; right; eexists; (split; [done|]).
  - apply fixed4ToFloat_float64.
  - destruct Hstop as [->| ->]; apply stopUnder_float64.
  - rewrite Hpiv. apply Max_float64. eapply Forall_sub; [|exact H1]. intros x Hx.
    rewrite <- (firstn_skipn n (kl_high (g_kl g))). apply in_or_app. left. rewrite <- (firstn_skipn (co_LowIdx newest + 1) (firstn n (kl_high (g_kl g)))). apply in_or_app. by right.
Qed.

Lemma pricesOk_step cfg st tt o g g' s : g_cfg g = cfg -> pricesOk g -> stepWith (maybeEnterWith st tt) o g = Some (g', s) -> pricesOk g'.
Proof.
  intros Hcfg Hg. destruct o as [equity bar|bars|r|v|b|b|asOf]; cbn [stepWith]; try (intros [= <- <-]; exact Hg).
  - unfold OnBarWith. destruct (negb _); [by intros [= <- <-]|]. pose proof (pricesOk_append cfg bar g Hcfg Hg) as Ha.
    destruct (_ =? 0); [by apply pricesOk_enter|]. unfold maybeExit. destruct (fleb _ _); intros [= <- <-]; [|done].
    split; [apply Ha|]. cbn. repeat apply List.Forall_cons; try apply List.Forall_nil; by left.
  - intros [= <- <-]. unfold WarmupFromHistory. destruct (map toSepaBar bars) as [|b bs] eqn:E; [done|]. rewrite <- E. clear E b bs. cbv zeta.
    split; [|apply Hg]. cbn [g_kl with_kl kl_high]. apply List.Forall_forall. intros x Hx. apply in_map_iff in Hx as (y & <- & Hy).
    assert (Hy' : In y (map toSepaBar bars)).
    { destruct (_ && _); [|done]. rewrite <- (firstn_skipn (length (map toSepaBar bars) - Z.to_nat (cf_HistoryMaxBars (g_cfg g))) (map toSepaBar bars)). apply in_or_app. by right. }
    apply in_map_iff in Hy' as (b & <- & _). apply fixed4ToFloat_float64.
  - destruct (EvaluateSignal asOf g) as [[g1 sn]|] eqn:E; [|done]. intros [= <- <-]. apply EvaluateSignal_gen in E as ->. exact Hg.
Qed.

Lemma pricesOk_run cfg st tt ops : forall g g' ss, capOk cfg -> genOk cfg g -> pricesOk g -> runWith (maybeEnterWith st tt) ops g = Some (g', ss) -> pricesOk g'.
Proof.
  induction ops as [|o ops IH]; intros g g' ss Hcap Hg Hp E; cbn [runWith] in E; [by simplify_eq|].
  destruct (stepWith _ o g) as [[g1 s]|] eqn:E1; [|done]. cbn [mbind option_bind] in E. destruct (runWith _ ops g1) as [[g2 ss2]|] eqn:E2; [|done].
  cbn [mbind option_bind] in E. simplify_eq. eapply IH; [done|by apply (genOk_step cfg st tt o g g1 s)| |exact E2]. eapply (pricesOk_step cfg); [apply Hg|exact Hp|exact E1].
Qed.

(** ** Crash recovery *)

(** Generators that behave alike: they differ in their incremental state, their
    snapshot counter, and an empty regime may read as unknown. *)
Definition regimeSim (r r' : string) : Prop := sepaOrDefault r "unknown" = sepaOrDefault r' "unknown".

Record genSim (g g' : Generator) : Prop := {
  si_cfg : g_cfg g' = g_cfg g;
  si_kl : g_kl g' = g_kl g;
  si_hold : g_hold g' = g_hold g;
  si_cap : cx_marketCapUSD (g_ctx g') = cx_marketCapUSD (g_ctx g);
  si_blackout : cx_earningsBlackout (g_ctx g') = cx_earningsBlackout (g_ctx g);
  si_catalyst : cx_catalyst (g_ctx g') = cx_catalyst (g_ctx g);
  si_regime : regimeSim (cx_regime (g_ctx g)) (cx_regime (g_ctx g'))
}.

Definition sameResult (r r' : option (Generator * list Signal)) : Prop :=
  match r, r' with Some (g, s), Some (g', s') => genSim g g' /\ s' = s | None, None => True | _, _ => False end.

Lemma gradeSetup_regime tt e st c n r r' : regimeSim r r' -> gradeSetup (mkSetup tt e st c n r) = gradeSetup (mkSetup tt e st c n r').
Proof.
  unfold regimeSim, sepaOrDefault. destruct (String.eqb_spec r ""), (String.eqb_spec r' ""); intros E; subst; try done.
Qed.

Lemma buildLongEntry_sim equity bar vcp grade g g' : genSim g g' -> sameResult (Some (buildLongEntry equity bar vcp grade g)) (Some (buildLongEntry equity bar vcp grade g')).
Proof.
  intros [H1 H2 H3 H4 H5 H6 H7]. unfold buildLongEntry. cbv zeta. rewrite H1. destruct (_ <=? 0); cbn; (split; [|done]); split; done.
Qed.

Lemma batchEnter_sim equity bar g g' : genSim g g' ->
  sameResult (maybeEnterWith batchStage batchTrend equity bar g) (maybeEnterWith batchStage batchTrend equity bar g').
Proof.
  intros Hs. pose proof Hs as [H1 H2 H3 H4 H5 H6 H7]. unfold maybeEnterWith, batchStage, batchTrend, breakoutVolumeOK.
  rewrite H1, H2, H4, H5, H6. destruct (_ <? 200)%nat; [by split|]. destruct (negb (fgeb _ _)); [by split|]. destruct (negb (String.eqb _ "2")); [by split|].
  destruct (negb (Passed _)); [by split|]. destruct (_ <? 30)%nat; [by split|]. destruct (DetectVCP _ _ _ _) as [[vcp|]|]; cbn [mbind option_bind]; [|by split|done].
  destruct (fleb (sb_Close bar) _); [by split|]. destruct (negb (BreakoutVolumeOK _ _ _)); [by split|]. rewrite <- (gradeSetup_regime _ _ _ _ _ _ _ H7).
  destruct (String.eqb _ GradeSkip); [by split|]. by apply buildLongEntry_sim.
Qed.

Lemma appendBar_sim bar g g' : genSim g g' -> genSim (appendBar bar g) (appendBar bar g').
Proof.
  intros [H1 H2 H3 H4 H5 H6 H7]. unfold appendBar. cbv zeta. rewrite H1, H2. destruct (_ && _); split; done.
Qed.

Lemma EvaluateSignal_total_sim asOf g g' : genSim g g' -> (EvaluateSignal asOf g = None <-> EvaluateSignal asOf g' = None).
Proof.
  intros [H1 H2 H3 H4 H5 H6 H7]. unfold EvaluateSignal. cbv zeta. cbn [g_kl g_cfg g_hold g_ctx g_intentGeneration]. rewrite H1, H2, H3, H4.
  destruct (_ <? 50)%nat; [done|]. destruct (negb _ && _ && _); [done|]. destruct (negb (_ =? 0)); [done|].
  destruct (DetectVCP _ _ _ _) as [vcp|]; [|done]. cbn [mbind option_bind]. destruct (negb (Passed _)); [done|].
  repeat case_match; done.
Qed.

Lemma step_sim o g g' : genSim g g' -> sameResult (stepWith (maybeEnterWith batchStage batchTrend) o g) (stepWith (maybeEnterWith batchStage batchTrend) o g').
Proof.
  intros Hs. destruct o as [equity bar|bars|r|v|b|b|asOf]; cbn [stepWith].
  - pose proof (appendBar_sim (toSepaBar bar) g g' Hs) as Ha. unfold OnBarWith. rewrite (si_cfg _ _ Hs). destruct (negb _); [by split|].
    rewrite (si_hold _ _ Ha). destruct (_ =? 0); [by apply batchEnter_sim|]. unfold maybeExit. rewrite (si_hold _ _ Ha).
    destruct Ha as [H1 H2 H3 H4 H5 H6 H7]. destruct (fleb _ _); split; try done; split; done.
  - destruct Hs as [H1 H2 H3 H4 H5 H6 H7]. unfold WarmupFromHistory. rewrite H1. destruct (map toSepaBar bars); (split; [|done]); split; done.
  - destruct Hs as [H1 H2 H3 H4 H5 H6 H7]. by split; [split|].
  - destruct Hs as [H1 H2 H3 H4 H5 H6 H7]. by split; [split|].
  - destruct Hs as [H1 H2 H3 H4 H5 H6 H7]. by split; [split|].
  - destruct Hs as [H1 H2 H3 H4 H5 H6 H7]. by split; [split|].
  - pose proof (EvaluateSignal_total_sim asOf g g' Hs) as Ht. destruct (EvaluateSignal asOf g) as [[g1 s1]|] eqn:E1, (EvaluateSignal asOf g') as [[g2 s2]|] eqn:E2;
      cbn [mbind option_bind sameResult]; try naive_solver.
    apply EvaluateSignal_gen in E1 as ->. apply EvaluateSignal_gen in E2 as ->. destruct Hs as [H1 H2 H3 H4 H5 H6 H7]. split; [by split|done].
Qed.

Lemma run_sim ops : forall g g', genSim g g' -> snd <$> runBatch ops g = snd <$> runBatch ops g'.
Proof.
  unfold runBatch. induction ops as [|o ops IH]; intros g g' Hs; [done|]. cbn [runWith]. pose proof (step_sim o g g' Hs) as H.
  destruct (stepWith _ o g) as [[g1 s]|], (stepWith _ o g') as [[g1' s']|]; try done. destruct H as [Hs1 ->]. cbn [mbind option_bind].
  specialize (IH g1 g1' Hs1). destruct (runWith _ ops g1) as [[g2 ss]|], (runWith _ ops g1') as [[g2' ss']|]; try done. cbn in *. by simplify_eq.
Qed.

Lemma genOk_run cfg st tt ops : forall g g' ss, capOk cfg -> genOk cfg g -> runWith (maybeEnterWith st tt) ops g = Some (g', ss) -> genOk cfg g'.
Proof.
  induction ops as [|o ops IH]; intros g g' ss Hcap Hg E; cbn [runWith] in E; [by simplify_eq|].
  destruct (stepWith _ o g) as [[g1 s]|] eqn:E1; [|done]. cbn [mbind option_bind] in E. destruct (runWith _ ops g1) as [[g2 ss2]|] eqn:E2; [|done].
  cbn [mbind option_bind] in E. simplify_eq. eapply IH; [done| |exact E2]. by apply (genOk_step cfg st tt o g g1 s).
Qed.

(** A price whose text in the snapshot parses back to it. *)
Definition printsBack (d : decState) : Prop := decFromStr (ds_str d) = d.

Lemma pricesOk_prints g : pricesOk g ->
  printsBack (ho_entryPrice (g_hold g)) /\ printsBack (ho_stopPrice (g_hold g)) /\ printsBack (ho_pivotPrice (g_hold g)).
Proof.
  assert (H : forall d, d = dsZero \/ (exists f, d = decFromFloat f /\ isFloat64 f) -> printsBack d).
  { intros d [->|(f & -> & Hf)]; [by vm_compute|]. by apply decFromStr_back. }
  intros [_ Hp]. cbv zeta in Hp. apply List.Forall_cons_iff in Hp as [H1 Hp]. apply List.Forall_cons_iff in Hp as [H2 Hp].
  apply List.Forall_cons_iff in Hp as [H3 _]. auto.
Qed.

Lemma LoadState_ok cfg g0 g equity : genOk cfg g -> genOk cfg g0 -> genOk cfg (LoadState (StateDictOf equity g) g0).
Proof.
  intros [H1 H2 H3] [H4 _ _]. split; [done|done|]. destruct H3 as (Hh & Hl & Hc & [E1 E2 E3 E4 E5 E6 E7 E8 E9] & _). destruct H2 as (C1 & C2 & _).
  eapply (rebuild_genInc _ (g_kl g)); [done|done| | |done|done].
  - rewrite E5. by apply nanFree_lastn.
  - rewrite E6. by apply nanFree_lastn.
Qed.

Lemma LoadState_sim cfg g0 g equity : genOk cfg g -> genOk cfg g0 -> printsBack (ho_entryPrice (g_hold g)) -> printsBack (ho_stopPrice (g_hold g)) ->
  printsBack (ho_pivotPrice (g_hold g)) -> genSim g (LoadState (StateDictOf equity g) g0).
Proof.
  intros [H1 _ _] [H2 _ _] P1 P2 P3. split; try done.
  - cbn. congruence.
  - cbn. destruct (g_hold g) as [n e s p grade]. cbn in *. unfold printsBack in *. f_equal; [done..|]. by destruct (String.eqb_spec grade "").
  - cbn. unfold regimeSim, sepaOrDefault. destruct (String.eqb_spec (cx_regime (g_ctx g)) "") as [|Hr]; [done|].
    by rewrite (proj2 (String.eqb_neq _ _) Hr).
Qed.

(** C20: A restart resumes the strategy.  A generator rebuilt from the crash-recovery
    snapshot of a run, under the same configuration, emits for whatever follows the
    signals the interrupted one would have emitted: nothing of the incremental state
    needs to be saved, and the texts of the entry, stop and pivot prices in the
    snapshot read back as the prices; the buffer is unbounded or spans at least a
    year of bars. *)
Theorem restart_resumes (cfg : SepaConfig) (g0 g : Generator) (before after : list sepaOp) (signals : list (list Signal)) (equity : float64)
    (Hnew : NewGenerator cfg = Ok g0) (Hcap : cf_HistoryMaxBars cfg <= 0 \/ 252 <= cf_HistoryMaxBars cfg)
    (Hrun : runSepa before g0 = Some (g, signals)) :
  snd <$> runSepa after (LoadState (StateDictOf equity g) g0) = snd <$> runSepa after g /\
  g_hold (LoadState (StateDictOf equity g) g0) = g_hold g.
Proof.
  destruct (NewGenerator_ok cfg g0 Hnew) as [Hg0 Hflat]. pose proof (genOk_run cfg _ _ before g0 g signals Hcap Hg0 Hrun) as Hg.
  assert (Hp : pricesOk g).
  { eapply (pricesOk_run cfg); [exact Hcap|exact Hg0| |exact Hrun]. unfold pricesOk. rewrite Hflat. revert Hnew. unfold NewGenerator.
    destruct (Config_Validate cfg); cbn; [|done]. intros [= <-]. split; [done|]. repeat apply List.Forall_cons; try apply List.Forall_nil; by left. }
  destruct (pricesOk_prints g Hp) as (P1 & P2 & P3). pose proof (LoadState_sim cfg g0 g equity Hg Hg0 P1 P2 P3) as Hsim. split; [|apply Hsim].
  rewrite (run_is_batch cfg after g Hcap Hg), (run_is_batch cfg after _ Hcap (LoadState_ok cfg g0 g equity Hg Hg0)).
  symmetry. by apply run_sim.
Qed.

(** ** A run *)

(** Closes in cents: a long rise, two narrowing contractions, a flat handle and a
    breakout. *)
Definition demoCloses : list Z :=
  map (fun i => 5000 + 25 * Z.of_nat i) (seq 0 200) ++
  [10100; 9950; 9800; 9650; 9500; 9350; 9200; 9300; 9400; 9500; 9600; 9700; 9800; 9720; 9640; 9560; 9480; 9400; 9460; 9520; 9580; 9640] ++
  repeat 9700 18 ++ [10300].

Definition demoBar (volume : Z) (cents : Z) : Bar :=
  Build_Bar "ACME" (mkTime 0 0) (cents * 100) (cents * 100 + 5000) (cents * 100 - 5000) (cents * 100) volume.

Definition demoConfig : SepaConfig :=
  mkConfig "ACME" true (zToFloat 1) (zToFloat 1000) (zToFloat 8) (zToFloat 1) (flit 3 2) 5 1000 "America/New_York".

Definition demoEquity : float64 := zToFloat 100000.

(** Context, a warm-up of 200 bars, then the bars one by one; the last on volume. *)
Definition demoOps : list sepaOp :=
  [OpRegime "bull"; OpMarketCap (zToFloat 5000); OpWarmup (map (demoBar 1000) (firstn 200 demoCloses))] ++
  map (fun c => OpBar demoEquity (demoBar 1000 c)) (firstn 40 (skipn 200 demoCloses)) ++ [OpBar demoEquity (demoBar 3000 10300)].

Definition demoStart : Generator := mkGen demoConfig noKlines flatHolding 0 (mkCtx "unknown" fzero false false) newIncState.

(** What the run ends with: its position, its stop and the sizes of its signals. *)
Definition outcome (r : option (Generator * list (list Signal))) : option (Z * list ascii * list Z) :=
  '(g, ss) ← r; Some (ho_position (g_hold g), ds_str (ho_stopPrice (g_hold g)), map sg_TargetQty (List.concat ss)).

Lemma incremental_equals_batch_witness :
  NewGenerator demoConfig = Ok demoStart /\ outcome (runSepa demoOps demoStart) = Some (77, chars "96.525", [77]) /\
  runSepa demoOps demoStart = runBatch demoOps demoStart.
Proof.
  split; [reflexivity|]. split; [vm_compute; reflexivity|].
  apply (incremental_equals_batch demoConfig demoStart demoOps eq_refl). right. vm_compute. discriminate.
Defined.

Lemma positions_are_consistent_witness :
  exists g' signals, runSepa demoOps demoStart = Some (g', signals) /\ follows 0 (List.concat signals) (ho_position (g_hold g')).
Proof.
  destruct (positions_are_consistent demoConfig demoStart demoOps eq_refl) as (g' & ss & E & _ & H).
  - right. vm_compute. discriminate.
  - vm_compute. discriminate.
  - exists g', ss. split; [exact E|exact H].
Defined.

(** The generator at the end of the run, and the stop that follows. *)
Definition demoHeld : Generator := default demoStart (fst <$> runSepa demoOps demoStart).

Lemma restart_resumes_witness :
  snd <$> runSepa [OpBar demoEquity (demoBar 1000 9600)] (LoadState (StateDictOf demoEquity demoHeld) demoStart) =
    snd <$> runSepa [OpBar demoEquity (demoBar 1000 9600)] demoHeld /\
  ((fun ss => map sg_Side (List.concat ss)) <$> (snd <$> runSepa [OpBar demoEquity (demoBar 1000 9600)] demoHeld)) = Some [SepaFlat].
Proof.
  split; [|vm_compute; reflexivity].
  refine (proj1 (restart_resumes demoConfig demoStart demoHeld demoOps _ (default [] (snd <$> runSepa demoOps demoStart)) demoEquity eq_refl _ _)).
  - right. vm_compute. discriminate.
  - unfold demoHeld. destruct (runSepa demoOps demoStart) as [[g ss]|] eqn:E; [reflexivity|]. exfalso.
    assert (H : match runSepa demoOps demoStart with Some _ => true | None => false end = true) by (vm_compute; reflexivity).
    rewrite E in H. discriminate H.
Defined.

(** ** A history cap under a year *)

(** With a cap of 210 bars the batch form looks for the year's high in the buffer
    alone, the incremental form in the last 252 bars it has seen: after a spike that
    has left the buffer they disagree about the trend template. *)
Definition shortConfig : SepaConfig :=
  mkConfig "ACME" true (zToFloat 1) (zToFloat 1000) (zToFloat 8) (zToFloat 1) (flit 3 2) 5 210 "America/New_York".
Definition spikeBars : list Bar :=
  map (fun i => demoBar 1000 (if (i =? 20)%nat then 30000 else 5000 + 25 * Z.of_nat i)) (seq 0 260).
Definition shortStart : Generator := mkGen shortConfig noKlines flatHolding 0 (mkCtx "bull" (zToFloat 5000) false false) newIncState.

Lemma short_cap_disagrees :
  let g := fold_left (fun g b => appendBar (toSepaBar b) g) spikeBars shortStart in
  length (kl_close (g_kl g)) = 210%nat /\ batchTrend g = true /\ trendTemplatePassInc g = false.
Proof. vm_compute. done. Qed.
