(* ===== verification/Targets.v ===== *)
(** * Target signals and the orders that follow them

    The signals a strategy emits ([domain/signal.go], [domain/intent.go]) and
    the contract between a signal generator and the adapter that trades it.  A
    signal names a target position; the adapters turn it into market orders.
    [TargetGenerator] states what a generator promises (its signals, replayed,
    are its own positions, and it opens a name only when it is flat in it),
    [FollowsTargets] what an adapter does with one signal, and the lemmas of
    section [Account] conclude that an account in which every order fills holds
    exactly what the generator believes to hold. *)

From Stdlib Require Import SpecFloat.
From stdpp Require Import gmap strings list.
From S2P Require Import Prelude Lists Fixed Money Domain Float64 Engine LiveSession.
Set Default Goal Selector "!".
#[local] Open Scope string_scope.
#[local] Open Scope Z_scope.
#[local] Open Scope list_scope.
#[local] Abbreviation length := List.length.

(** ** domain/signal.go *)

Record DomainSignal : Set := mkDomainSignal {
  dg_Symbol : string;
  dg_TS : time;
  dg_Side : SignalSide;
  dg_TargetQty : Qty;
  dg_Reason : string;
  dg_Confidence : float64;
  dg_Grade : option string;
  dg_StopPrice : option Price
}.

Definition NewSignal (symbol : string) (ts : time) (side : SignalSide) (targetQty : Qty) (reason : string) : DomainSignal :=
  mkDomainSignal symbol ts side targetQty reason (zToFloat 1) None None.

Definition Grade_IsValid (g : string) : bool := oneOf ["A+"; "B"; "skip"] g.

Definition Signal_Validate (s : DomainSignal) : res unit :=
  _ <-? rejectIf (String.eqb (dg_Symbol s) "") ;;
  _ <-? rejectIf (IsZeroTime (dg_TS s)) ;;
  _ <-? rejectIf (negb (SignalSide_IsValid (dg_Side s))) ;;
  rejectIf (match dg_Grade s with Some g => negb (Grade_IsValid g) | None => false end).

(** ** domain/intent.go *)

Definition StrategyIDPairs : string := "pairs".
Definition StrategyIDSectorRotation : string := "sector_rotation".
Definition StrategyIDIntradayBreakout : string := "intraday_breakout".

Record SignalCore : Set := mkCore {
  co_Symbol : string;
  co_State : SignalState;
  co_Strength : float64;
  co_Proximity : option float64;
  co_UpdatedAt : time;
  co_Generation : Z;
  co_StrategyID : string
}.

Record PairsSignal : Set := mkPairsSignal {
  ps_Core : SignalCore;
  ps_PairID : string;
  ps_LegRole : string;
  ps_ZScore : float64;
  ps_ZEntryThreshold : float64;
  ps_ZExitThreshold : float64;
  ps_HedgeRatio : float64
}.

Record SectorRotationSignal : Set := mkSectorSignal {
  rs_Core : SignalCore;
  rs_MomentumScore : float64;
  rs_Rank : Z;
  rs_TargetWeight : float64;
  rs_CurrentWeight : float64
}.

Record IntradayBreakoutSignal : Set := mkBreakoutSignal {
  bs_Core : SignalCore;
  bs_ORBHigh : option Price;
  bs_ORBLow : option Price;
  bs_EntryWindowEnd : option time
}.

Definition signbit (f : float64) : bool :=
  match f with S754_zero s | S754_infinity s | S754_finite s _ _ => s | S754_nan => false end.
Definition isPosInf (f : float64) : bool := match f with S754_infinity false => true | _ => false end.
Definition isNegInf (f : float64) : bool := match f with S754_infinity true => true | _ => false end.

(** [math.Max] and [math.Min]. *)
Definition fmax (x y : float64) : float64 :=
  if isPosInf x || isPosInf y then S754_infinity false
  else if isNaN x || isNaN y then fNaN
  else if isZero x && feqb x y then (if signbit x then y else x)
  else if fgtb x y then x else y.
Definition fmin (x y : float64) : float64 :=
  if isNegInf x || isNegInf y then S754_infinity true
  else if isNaN x || isNaN y then fNaN
  else if isZero x && feqb x y then (if signbit x then x else y)
  else if fltb x y then x else y.

Definition StrengthFromZ (zAbs : float64) : float64 :=
  fmin (zToFloat 100) (fmul (fdiv (fabs zAbs) (zToFloat 3)) (zToFloat 100)).

Definition StrengthFromRank (rank total : Z) : float64 :=
  if (total <=? 1) || (rank <=? 1) then (if rank =? 1 then zToFloat 100 else fzero)
  else if total <=? rank then fzero
  else fmax fzero (fsub (zToFloat 100) (fmul (fdiv (zToFloat (rank - 1)) (zToFloat (total - 1))) (zToFloat 100))).

(** ** [fmt]'s fixed-point verb: [%.nf], and [%+.nf] when [plus] *)

Definition fmtFixed (plus : bool) (n : nat) (f : float64) : list ascii :=
  let sign (s : bool) out := if s then "-"%char :: out else if plus then "+"%char :: out else out in
  let frac v := let ds := uintDigits 400 v in repeat "0"%char (n - length ds) ++ ds in
  let body v := uintDigits 400 (v / 10 ^ Z.of_nat n) ++ ["."%char] ++ frac (v mod 10 ^ Z.of_nat n) in
  match f with
  | S754_nan => list_ascii_of_string (if plus then "+NaN" else "NaN")
  | S754_infinity s => list_ascii_of_string (if s then "-Inf" else "+Inf")
  | S754_zero s => sign s (body 0)
  | S754_finite s m e => let '(a, b) := fracOf m e in sign s (body (round_half_even (Zpos a * 10 ^ Z.of_nat n) (Zpos b)))
  end.

(** ** Targets *)

(** The position a signal asks for. *)
Definition targetOf (s : DomainSignal) : Z :=
  if String.eqb (dg_Side s) SideLong then dg_TargetQty s
  else if String.eqb (dg_Side s) SideShort then - dg_TargetQty s
  else 0.

Definition setTarget (pos : string -> Z) (s : DomainSignal) : string -> Z :=
  fun sym => if decide (sym = dg_Symbol s) then targetOf s else pos sym.

(** Positions after a sequence of signals. *)
Definition replay (sigs : list DomainSignal) (pos : string -> Z) : string -> Z := fold_left setTarget sigs pos.

Definition opening (s : DomainSignal) : Prop :=
  (dg_Side s = SideLong \/ dg_Side s = SideShort) /\ 0 < dg_TargetQty s <= max_int64.

(** A signal that can be followed from these positions: an opening of a name
    that is flat, or a close. *)
Definition fresh (pos : string -> Z) (s : DomainSignal) : Prop :=
  (opening s /\ pos (dg_Symbol s) = 0) \/ (dg_Side s = SideFlat /\ Z.abs (pos (dg_Symbol s)) <= max_int64).

Fixpoint allFresh (pos : string -> Z) (sigs : list DomainSignal) : Prop :=
  match sigs with [] => True | s :: sigs => fresh pos s /\ allFresh (setTarget pos s) sigs end.

Lemma setTarget_ext p q s : (forall x, p x = q x) -> forall x, setTarget p s x = setTarget q s x.
Proof. intros H x. unfold setTarget. destruct (decide _); [done|apply H]. Qed.

Lemma replay_ext sigs : forall p q, (forall x, p x = q x) -> forall x, replay sigs p x = replay sigs q x.
Proof. induction sigs as [|s sigs IH]; intros p q H; cbn; [done|]. apply IH, setTarget_ext, H. Qed.

Lemma fresh_ext p q s : (forall x, p x = q x) -> fresh p s -> fresh q s.
Proof. intros H. unfold fresh. by rewrite H. Qed.

Lemma allFresh_ext sigs : forall p q, (forall x, p x = q x) -> allFresh p sigs -> allFresh q sigs.
Proof.
  induction sigs as [|s sigs IH]; intros p q H; cbn; [done|]. intros [H1 H2]. split; [by apply (fresh_ext p)|].
  eapply IH; [|exact H2]. apply setTarget_ext, H.
Qed.

Lemma replay_app a b pos : replay (a ++ b) pos = replay b (replay a pos).
Proof. apply fold_left_app. Qed.

Lemma allFresh_app a : forall b pos, allFresh pos (a ++ b) <-> allFresh pos a /\ allFresh (replay a pos) b.
Proof. induction a as [|s a IH]; intros b pos; cbn [app allFresh replay fold_left]; [tauto|]. rewrite IH. unfold replay. tauto. Qed.

(** ** The interfaces *)

(** A generator: one bar with the equity its provider returns, the positions it
    keeps and what holds of its state. *)
Class TargetGenerator (G : Type) : Type := {
  tg_OnBar : float64 -> Bar -> G -> G * list DomainSignal;
  tg_position : G -> string -> Z;
  tg_ok : G -> Prop;
  tg_keeps : forall eq bar g, tg_ok g -> tg_ok (tg_OnBar eq bar g).1;
  tg_fresh : forall eq bar g, tg_ok g -> allFresh (tg_position g) (tg_OnBar eq bar g).2;
  tg_replays : forall eq bar g, tg_ok g -> forall sym,
    tg_position (tg_OnBar eq bar g).1 sym = replay (tg_OnBar eq bar g).2 (tg_position g) sym
}.

(** The account in which every order fills at once and in full. *)
Abbreviation PaperBook := (gmap string Z).
Definition netOf (b : PaperBook) (sym : string) : Z := default 0 (b !! sym).
Definition paperFill (side : OrderSide) (qty : Qty) (sym : string) (b : PaperBook) : PaperBook :=
  <[sym := netOf b sym + (if String.eqb side OrderSideBuy then qty else - qty)]> b.

#[export] Instance paperSubmitter : OrderSubmitter PaperBook := {
  sub_Market := fun _ sym side qty _ _ b => (paperFill side qty sym b, Ok "");
  sub_Signal := fun _ sym _ side qty _ _ b => (paperFill side qty sym b, Ok ("", true));
  sub_Net := fun sym b => netOf b sym
}.

(** What an adapter does with one signal before it goes on with [k]. *)
Abbreviation signalStep St := (DomainSignal -> (option error -> SProg St) -> SProg St).

(** The loop of the adapters' [OnBar] over the signals of a generator: the first
    error ends it. *)
Fixpoint submitLoop {Sig St} (one : Sig -> (option error -> SProg St) -> SProg St) (st : St) (sigs : list Sig) : SProg St :=
  match sigs with
  | [] => SDone st None
  | s :: sigs => one s (fun err => match err with Some e => SDone st (Some e) | None => submitLoop one st sigs end)
  end.

(** On the signals in [ok], the paper account moves to the target. *)
Class FollowsTargets {St} (ok : DomainSignal -> Prop) (one : signalStep St) : Prop :=
  follows : forall eq s k b, ok s -> fresh (netOf b) s ->
    exists b', runProg eq (one s k) b = runProg eq (k None) b' /\ forall sym, netOf b' sym = setTarget (netOf b) s sym.

Lemma netOf_paperFill side qty sym b s :
  netOf (paperFill side qty sym b) s = if decide (s = sym) then netOf b sym + (if String.eqb side OrderSideBuy then qty else - qty) else netOf b s.
Proof. unfold paperFill, netOf at 1. destruct (decide _) as [->|H]; [by rewrite lookup_insert_eq|by rewrite lookup_insert_ne by done]. Qed.

(** [CloseToFlat] flattens the name. *)
Lemma CloseToFlat_flattens {St} eq id sym ts rf (k : res bool -> SProg St) b : Z.abs (netOf b sym) <= max_int64 ->
  exists b' done, runProg eq (CloseToFlat id sym ts rf k) b = runProg eq (k (Ok done)) b' /\
    forall s, netOf b' s = if decide (s = sym) then 0 else netOf b s.
Proof.
  intros Hb. unfold CloseToFlat. cbn [runProg sub_Net paperSubmitter]. unfold CloseSideFor.
  assert (Hn : wrap64 (- netOf b sym) = - netOf b sym) by (apply wrap64_id; rlia).
  destruct (Z.ltb_spec 0 (netOf b sym)); [|destruct (Z.ltb_spec (netOf b sym) 0)].
  - replace (netOf b sym <? 0) with false by lia. cbn [runProg sub_Market paperSubmitter]. eexists _, true. split; [done|].
    intros s. rewrite netOf_paperFill. destruct (decide _); [cbn; lia|done].
  - cbn [runProg sub_Market paperSubmitter]. rewrite Hn. eexists _, true. split; [done|].
    intros s. rewrite netOf_paperFill. destruct (decide _); [cbn; lia|done].
  - eexists b, false. split; [done|]. intros s. destruct (decide _) as [->|]; [lia|done].
Qed.

(** A sequence of bars on the paper account; an error of a bar ends it. *)
Fixpoint paperRun {St} (onBar : St -> Bar -> SProg St) (equity : PaperBook -> float64) (bars : list Bar) (st : St) (b : PaperBook) :
    PaperBook * res St :=
  match bars with
  | [] => (b, Ok st)
  | bar :: bars =>
      match runProg equity (onBar st bar) b with
      | (b, Ok (st, None)) => paperRun onBar equity bars st b
      | (b, Ok (_, Some e)) | (b, Err e) => (b, Err e)
      end
  end.

(** ** The account follows the generator *)

Section Account.
Context {G : Type} {TG : TargetGenerator G}.
Context (ok : DomainSignal -> Prop) (one : signalStep G) {Hone : FollowsTargets ok one}.
Context (Hok : forall eq bar g, tg_ok g -> Forall ok (tg_OnBar eq bar g).2).

(** The shape of the adapters' [OnBar]. *)
Definition adapterOnBar (g : G) (bar : Bar) : SProg G :=
  SEquityFloat (fun eq => let '(g', sigs) := tg_OnBar eq bar g in submitLoop one g' sigs).

Lemma submitLoop_follows eq st sigs : forall b, Forall ok sigs -> allFresh (netOf b) sigs ->
  exists b', runProg eq (submitLoop one st sigs) b = (b', Ok (st, None)) /\ forall sym, netOf b' sym = replay sigs (netOf b) sym.
Proof using Hone.
  induction sigs as [|s sigs IH]; intros b Ho Hf; [by exists b|]. apply List.Forall_cons_iff in Ho as [Ho Hos]. destruct Hf as [Hf Hfs].
  cbn [submitLoop]. match goal with |- context [one s ?k] => destruct (follows eq s k b Ho Hf) as (b1 & E1 & N1) end. rewrite E1.
  destruct (IH b1 Hos) as (b2 & E2 & N2). { eapply allFresh_ext; [|exact Hfs]. by intros x. }
  exists b2. split; [done|]. intros sym. rewrite N2. cbn [replay fold_left]. by apply replay_ext.
Qed.

Lemma paperRun_follows (I : G -> Prop) (HI : forall eq bar g, tg_ok g -> I g -> I (tg_OnBar eq bar g).1) equity bars :
  forall g b, tg_ok g -> I g -> (forall sym, netOf b sym = tg_position g sym) ->
  exists g' b', paperRun adapterOnBar equity bars g b = (b', Ok g') /\ tg_ok g' /\ I g' /\ forall sym, netOf b' sym = tg_position g' sym.
Proof using Hone Hok.
  induction bars as [|bar bars IH]; intros g b Hg Hi Hb; [by exists g, b|]. cbn [paperRun adapterOnBar runProg].
  pose proof (Hok (equity b) bar g Hg) as Ho. pose proof (tg_keeps (equity b) bar g Hg) as Hk. pose proof (HI (equity b) bar g Hg Hi) as Hi'.
  pose proof (tg_fresh (equity b) bar g Hg) as Hf. pose proof (tg_replays (equity b) bar g Hg) as Hr.
  destruct (tg_OnBar (equity b) bar g) as [g1 sigs]. cbn [fst snd] in *.
  destruct (submitLoop_follows equity g1 sigs b Ho) as (b1 & E1 & N1). { eapply allFresh_ext; [|exact Hf]. by intros x. }
  rewrite E1. apply IH; [done|done|]. intros sym. rewrite N1, Hr. by apply replay_ext.
Qed.
End Account.
