(* ===== verification/Pairs.v ===== *)
(** * The pairs strategy (src/internal/strategy/pairs, pairsadapter)

    The multi-pair generator: per-symbol rings of closes shared by the pairs, the
    regression and z-score of an in-sync pair, the spread state machine with its
    sizing, the snapshot and the projections; the adapter that submits its
    signals.  Each map of the generator is a [gmap]; the pair of maps that keeps a
    telemetry value and its presence is one [gmap].  The equity provider is read
    while a bar is handled: an operation takes the value it returns.  A leg without
    a ring is a nil pointer in the source; [bo_rings] and [po_legs] show there is none. *)

From Stdlib Require Import SpecFloat.
From stdpp Require Import gmap strings list sorting.
From S2P Require Import Prelude Lists Fixed Money Domain Float64 FloatInt Calendar Engine LiveSession Indicators Targets.
Set Default Goal Selector "!".
#[local] Open Scope string_scope.
#[local] Open Scope Z_scope.
#[local] Open Scope list_scope.
#[local] Abbreviation length := List.length.

(** ** pair.go *)

Record Pair : Set := mkPair { LongLeg : string; ShortLeg : string }.

#[export] Instance Pair_eq_dec : EqDecision Pair.
Proof. solve_decision. Defined.

Abbreviation PairKey := (string * string)%type.
Definition Pair_Key (p : Pair) : PairKey := (LongLeg p, ShortLeg p).

Definition DefaultPairs : list Pair := [mkPair "KO" "PEP"; mkPair "MA" "V"; mkPair "XOM" "CVX"].

Abbreviation PairState := string (only parsing).
Definition StateFlat : PairState := "FLAT".
Definition StateLongSpread : PairState := "LONG_SPREAD".
Definition StateShortSpread : PairState := "SHORT_SPREAD".

(** ** config.go *)

(** [pc_hasEquity] tells a provider from nil. *)
Record PairsConfig : Set := mkPairsConfig {
  pc_hasEquity : bool;
  pc_Pairs : list Pair;
  pc_Lookback : Z;
  pc_EntryZ : float64;
  pc_ExitZ : float64;
  pc_CapitalPerPairPct : float64;
  pc_Timezone : string
}.

Definition ErrConfigType : error := ErrOther "pairs config type error".
Definition ErrConfigValue : error := ErrOther "pairs config value error".

Definition PairsConfig_Validate (c : PairsConfig) : res unit :=
  let bad (b : bool) := if b then Err ErrConfigValue else Ok tt in
  _ <-? (if negb (pc_hasEquity c) then Err ErrConfigType else Ok tt) ;;
  _ <-? bad (bool_decide (pc_Pairs c = [])) ;;
  _ <-? bad (pc_Lookback c <? 5) ;;
  _ <-? bad (fleb (pc_EntryZ c) fzero || fltb (pc_ExitZ c) fzero) ;;
  _ <-? bad (fgeb (pc_ExitZ c) (pc_EntryZ c)) ;;
  bad (negb (fgtb (pc_CapitalPerPairPct c) fzero && fleb (pc_CapitalPerPairPct c) (zToFloat 1))).

(** ** decimalstr.go *)

Definition pyDecimalStr (p : Price) : string :=
  let s := formatG (Price_Float64 p) in
  string_of_list_ascii
    (if existsb (fun c => Ascii.eqb c "."%char || Ascii.eqb c "e"%char || Ascii.eqb c "E"%char) s then s else s ++ ["."; "0"]%char).

(** ** generator.go *)

(** [dateOf]: the UTC date of an instant. *)
Definition barDateOf (ts : time) : Date := DateOf UTCLocation ts.
Definition barDate_iso (d : Date) : string := string_of_list_ascii (DateString d).

Record priceRing : Set := mkRing { pr_prices : list Price; pr_strs : list string; pr_cap : Z }.
Definition newPriceRing (capacity : Z) : priceRing := mkRing [] [] capacity.

Definition ring_append (p : Price) (str : string) (r : priceRing) : priceRing :=
  let prices := pr_prices r ++ [p] in
  let strs := pr_strs r ++ [str] in
  if pr_cap r <? Z.of_nat (length prices) then mkRing (List.tl prices) (List.tl strs) (pr_cap r)
  else mkRing prices strs (pr_cap r).

Definition ring_len (r : priceRing) : Z := Z.of_nat (length (pr_prices r)).

(** For [n] at most the length. *)
Definition lastNFloat (n : Z) (r : priceRing) : list float64 :=
  map Price_Float64 (skipn (length (pr_prices r) - Z.to_nat n) (pr_prices r)).

Record PairsGenerator : Set := mkPairsGenerator {
  pg_cfg : PairsConfig;
  pg_history : gmap string priceRing;
  pg_lastClose : gmap string Price;
  pg_lastCloseSt : gmap string string;
  pg_lastBarDate : gmap string Date;
  pg_pairState : gmap PairKey string;
  pg_legPosition : gmap string Z;
  pg_latestZ : gmap PairKey float64;
  pg_latestBeta : gmap PairKey float64;
  pg_intentGeneration : Z
}.

(** Set-if-absent. *)
Definition seedKey {K A} `{Countable K} (v : A) (m : gmap K A) (k : K) : gmap K A :=
  match m !! k with Some _ => m | None => <[k := v]> m end.
Definition pairLegs (ps : list Pair) : list string := flat_map (fun p => [LongLeg p; ShortLeg p]) ps.

Definition NewPairs (cfg : PairsConfig) : res PairsGenerator :=
  _ <-? PairsConfig_Validate cfg ;;
  let legs := pairLegs (pc_Pairs cfg) in
  Ok (mkPairsGenerator cfg (fold_left (seedKey (newPriceRing (pc_Lookback cfg + 1))) legs ∅) ∅ ∅ ∅
        (fold_left (seedKey StateFlat) (map Pair_Key (pc_Pairs cfg)) ∅) (fold_left (seedKey 0) legs ∅) ∅ ∅ 0).

Definition ringOf (g : PairsGenerator) (sym : string) : priceRing :=
  default (newPriceRing (pc_Lookback (pg_cfg g) + 1)) (pg_history g !! sym).
Definition legPos (g : PairsGenerator) (sym : string) : Z := default 0 (pg_legPosition g !! sym).
Definition stateOf (g : PairsGenerator) (p : Pair) : PairState := default "" (pg_pairState g !! Pair_Key p).

(** The bookkeeping of a bar. *)
Definition recordBar (bar : Bar) (closeStr : string) (g : PairsGenerator) : PairsGenerator :=
  let sym := bar_Symbol bar in
  mkPairsGenerator (pg_cfg g) (<[sym := ring_append (bar_Close bar) closeStr (ringOf g sym)]> (pg_history g))
    (<[sym := bar_Close bar]> (pg_lastClose g)) (<[sym := closeStr]> (pg_lastCloseSt g)) (<[sym := barDateOf (bar_TS bar)]> (pg_lastBarDate g))
    (pg_pairState g) (pg_legPosition g) (pg_latestZ g) (pg_latestBeta g) (pg_intentGeneration g).

Definition with_telemetry (k : PairKey) (z beta : float64) (g : PairsGenerator) : PairsGenerator :=
  mkPairsGenerator (pg_cfg g) (pg_history g) (pg_lastClose g) (pg_lastCloseSt g) (pg_lastBarDate g) (pg_pairState g) (pg_legPosition g)
    (<[k := z]> (pg_latestZ g)) (<[k := beta]> (pg_latestBeta g)) (pg_intentGeneration g).

Definition with_book (st : gmap PairKey string) (legs : gmap string Z) (g : PairsGenerator) : PairsGenerator :=
  mkPairsGenerator (pg_cfg g) (pg_history g) (pg_lastClose g) (pg_lastCloseSt g) (pg_lastBarDate g) st legs
    (pg_latestZ g) (pg_latestBeta g) (pg_intentGeneration g).

Definition pairInSync (g : PairsGenerator) (p : Pair) (cur : Date) : bool :=
  match pg_lastBarDate g !! LongLeg p, pg_lastBarDate g !! ShortLeg p with
  | Some ld, Some sd => bool_decide (ld = cur) && bool_decide (sd = cur)
  | _, _ => false
  end.

Definition priceFloatOrZero (m : gmap string Price) (sym : string) : float64 :=
  match m !! sym with Some p => Price_Float64 p | None => fzero end.

Definition computeLegQuantities (equity : float64) (g : PairsGenerator) (p : Pair) : Z * Z :=
  let longPrice := priceFloatOrZero (pg_lastClose g) (LongLeg p) in
  let shortPrice := priceFloatOrZero (pg_lastClose g) (ShortLeg p) in
  if fleb longPrice fzero || fleb shortPrice fzero then (0, 0)
  else
    let targetPerLeg := fdiv (fmul equity (pc_CapitalPerPairPct (pg_cfg g))) (zToFloat 2) in
    (intOfFloat (ffloor (fdiv targetPerLeg longPrice)), intOfFloat (ffloor (fdiv targetPerLeg shortPrice))).

Definition fmtZ (z : float64) : string := string_of_list_ascii (fmtFixed true 2 z).
Definition fmtBeta (b : float64) : string := string_of_list_ascii (fmtFixed false 3 b).

Definition openReason (p : Pair) (what : string) (z beta : float64) : string :=
  ("Pairs " ++ LongLeg p ++ "/" ++ ShortLeg p ++ " " ++ what ++ " :: z=" ++ fmtZ z ++ ", β=" ++ fmtBeta beta)%string.

Definition openLongSpread (equity : float64) (p : Pair) (beta z : float64) (ts : time) (g : PairsGenerator) :
    PairsGenerator * list DomainSignal :=
  let '(longQty, shortQty) := computeLegQuantities equity g p in
  if (longQty <=? 0) || (shortQty <=? 0) then (g, [])
  else
    let reason := openReason p StateLongSpread z beta in
    (with_book (<[Pair_Key p := StateLongSpread]> (pg_pairState g))
       (<[ShortLeg p := - shortQty]> (<[LongLeg p := longQty]> (pg_legPosition g))) g,
     [NewSignal (LongLeg p) ts SideLong longQty reason; NewSignal (ShortLeg p) ts SideShort shortQty reason]).

Definition openShortSpread (equity : float64) (p : Pair) (beta z : float64) (ts : time) (g : PairsGenerator) :
    PairsGenerator * list DomainSignal :=
  let '(longQty, shortQty) := computeLegQuantities equity g p in
  if (longQty <=? 0) || (shortQty <=? 0) then (g, [])
  else
    let reason := openReason p StateShortSpread z beta in
    (with_book (<[Pair_Key p := StateShortSpread]> (pg_pairState g))
       (<[ShortLeg p := shortQty]> (<[LongLeg p := - longQty]> (pg_legPosition g))) g,
     [NewSignal (LongLeg p) ts SideShort longQty reason; NewSignal (ShortLeg p) ts SideLong shortQty reason]).

(** The loop over the legs. *)
Fixpoint closeLegs (ts : time) (reason : string) (legs : list string) (pos : gmap string Z) : gmap string Z * list DomainSignal :=
  match legs with
  | [] => (pos, [])
  | leg :: legs =>
      if default 0 (pos !! leg) =? 0 then closeLegs ts reason legs pos
      else
        let '(pos, sigs) := closeLegs ts reason legs (<[leg := 0]> pos) in
        (pos, NewSignal leg ts SideFlat 0 reason :: sigs)
  end.

Definition closePair (p : Pair) (z : float64) (ts : time) (reason : string) (g : PairsGenerator) : PairsGenerator * list DomainSignal :=
  let fullReason := ("Pairs " ++ LongLeg p ++ "/" ++ ShortLeg p ++ " close (" ++ reason ++ ") :: z=" ++ fmtZ z)%string in
  let '(pos, sigs) := closeLegs ts fullReason [LongLeg p; ShortLeg p] (pg_legPosition g) in
  (with_book (<[Pair_Key p := StateFlat]> (pg_pairState g)) pos g, sigs).

Definition closeReason (exitZ z : float64) : string := if fltb (fabs z) exitZ then "mean reversion" else "spread diverged".

(** The regression and z-score of a pair: the hedge ratio and z, when every guard
    passes. *)
Definition pairScore (lb : Z) (longRing shortRing : priceRing) : option (float64 * float64) :=
  if (ring_len longRing <? lb) || (ring_len shortRing <? lb) then None
  else
    let longP := lastNFloat lb longRing in
    let shortP := lastNFloat lb shortRing in
    match OLSSlope shortP longP with
    | None => None
    | Some beta =>
        let spreads := map (fun i => fsub (at_ longP i) (fmul beta (at_ shortP i))) (seq 0 (Z.to_nat lb)) in
        if (length spreads <? 2)%nat then None
        else
          let mean := FMean spreads in
          let std := PStdev spreads in
          if feqb std fzero then None
          else Some (beta, fdiv (fsub (at_ spreads (length spreads - 1)) mean) std)
    end.

Definition pairDecision (equity : float64) (p : Pair) (beta z : float64) (ts : time) (g : PairsGenerator) : PairsGenerator * list DomainSignal :=
  let entryZ := pc_EntryZ (pg_cfg g) in
  let exitZ := pc_ExitZ (pg_cfg g) in
  let state := stateOf g p in
  if String.eqb state StateFlat then
    if fgtb z entryZ then openShortSpread equity p beta z ts g
    else if fltb z (fneg entryZ) then openLongSpread equity p beta z ts g
    else (g, [])
  else if String.eqb state StateLongSpread then
    if fltb (fabs z) exitZ || fgtb z entryZ then closePair p z ts (closeReason exitZ z) g else (g, [])
  else if String.eqb state StateShortSpread then
    if fltb (fabs z) exitZ || fltb z (fneg entryZ) then closePair p z ts (closeReason exitZ z) g else (g, [])
  else (g, []).

Definition evaluatePair (equity : float64) (p : Pair) (ts : time) (g : PairsGenerator) : PairsGenerator * list DomainSignal :=
  match pairScore (pc_Lookback (pg_cfg g)) (ringOf g (LongLeg p)) (ringOf g (ShortLeg p)) with
  | None => (g, [])
  | Some (beta, z) => pairDecision equity p beta z ts (with_telemetry (Pair_Key p) z beta g)
  end.

(** The loop over the pairs of the configuration. *)
Fixpoint evaluatePairs (equity : float64) (bar : Bar) (ps : list Pair) (g : PairsGenerator) : PairsGenerator * list DomainSignal :=
  match ps with
  | [] => (g, [])
  | p :: ps =>
      if negb (String.eqb (bar_Symbol bar) (LongLeg p)) && negb (String.eqb (bar_Symbol bar) (ShortLeg p)) then evaluatePairs equity bar ps g
      else if negb (pairInSync g p (barDateOf (bar_TS bar))) then evaluatePairs equity bar ps g
      else
        let '(g, s) := evaluatePair equity p (bar_TS bar) g in
        let '(g, s') := evaluatePairs equity bar ps g in
        (g, s ++ s')
  end.

Definition Pairs_OnBar (equity : float64) (bar : Bar) (closeStr : string) (g : PairsGenerator) : PairsGenerator * list DomainSignal :=
  match pg_history g !! bar_Symbol bar with
  | None => (g, [])
  | Some _ => evaluatePairs equity bar (pc_Pairs (pg_cfg g)) (recordBar bar closeStr g)
  end.

Definition Pairs_OnDomainBar (equity : float64) (bar : Bar) (g : PairsGenerator) : PairsGenerator * list DomainSignal :=
  Pairs_OnBar equity bar (pyDecimalStr (bar_Close bar)) g.

(** ** persist.go *)

Record PairsStateConfig : Set := mkPairsStateConfig {
  qc_Pairs : list (list string);
  qc_Lookback : Z;
  qc_EntryZ : float64;
  qc_ExitZ : float64;
  qc_EquityAtSnapshot : float64;
  qc_CapitalPerPairPct : float64;
  qc_Timezone : string
}.

Record PairsStateDict : Set := mkPairsStateDict {
  qd_Config : PairsStateConfig;
  qd_History : gmap string (list string);
  qd_LastClose : gmap string string;
  qd_LastBarDate : gmap string string;
  qd_PairState : gmap string string;
  qd_LegPosition : gmap string Z
}.

Definition pipeKey (k : PairKey) : string := (k.1 ++ "|" ++ k.2)%string.

Definition Pairs_StateDict (equity : float64) (g : PairsGenerator) : PairsStateDict :=
  let c := pg_cfg g in
  mkPairsStateDict
    (mkPairsStateConfig (map (fun p => [LongLeg p; ShortLeg p]) (pc_Pairs c)) (pc_Lookback c) (pc_EntryZ c) (pc_ExitZ c) equity
       (pc_CapitalPerPairPct c) (pc_Timezone c))
    (pr_strs <$> pg_history g) (pg_lastCloseSt g) (barDate_iso <$> pg_lastBarDate g)
    (list_to_map (map (fun '(k, s) => (pipeKey k, s)) (map_to_list (pg_pairState g)))) (pg_legPosition g).

Fixpoint splitPipe (k : list ascii) : list ascii * list ascii :=
  match k with
  | [] => ([], [])
  | c :: k => if Ascii.eqb c "|"%char then ([], k) else let '(a, b) := splitPipe k in (c :: a, b)
  end.
Definition splitFirstPipe (k : string) : PairKey :=
  let '(a, b) := splitPipe (list_ascii_of_string k) in (string_of_list_ascii a, string_of_list_ascii b).

Definition ErrBadDate : error := ErrOther "pairs: malformed ISO date".

(** [strconv.Atoi] of a short text: an optional sign and at least one digit. *)
Definition atoi (s : list ascii) : res Z :=
  let '(neg, ds) := match s with
                    | c :: ds => if Ascii.eqb c "-"%char then (true, ds) else if Ascii.eqb c "+"%char then (false, ds) else (false, s)
                    | [] => (false, s)
                    end in
  match ds, digitsVal 0 ds with
  | _ :: _, Some n => Ok (if neg : bool then - n else n)
  | _, _ => Err (ErrOther "strconv.Atoi: invalid syntax")
  end.

Definition parseISODate (s : string) : res Date :=
  let cs := list_ascii_of_string s in
  if (length cs <? 10)%nat || negb (Ascii.eqb (nth 4 cs " "%char) "-"%char) || negb (Ascii.eqb (nth 7 cs " "%char) "-"%char) then Err ErrBadDate
  else
    y <-? atoi (firstn 4 cs) ;;
    mo <-? atoi (firstn 2 (skipn 5 cs)) ;;
    dd <-? atoi (firstn 2 (skipn 8 cs)) ;;
    Ok (mkDate y mo dd).

(** A loop that fills a map from another one and stops at the first error, with
    what it filled so far. *)
Fixpoint loadMap {A B K} `{Countable K} (fk : string -> K) (fv : A -> res B) (l : list (string * A)) (acc : gmap K B) : gmap K B * option error :=
  match l with
  | [] => (acc, None)
  | (k, a) :: l =>
      match fv a with
      | Err e => (acc, Some e)
      | Ok b => loadMap fk fv l (<[fk k := b]> acc)
      end
  end.

(** The ring of a persisted history. *)
Fixpoint loadRing (strs : list string) (r : priceRing) : res priceRing :=
  match strs with
  | [] => Ok r
  | s :: strs => p <-? ParsePrice s ;; loadRing strs (ring_append p s r)
  end.

Definition parseClose (s : string) : res (Price * string) := p <-? ParsePrice s ;; Ok (p, s).

(** The fields assigned one after the other; an error leaves the later ones as
    they were.  Apart from the histories the maps are read in the order of the
    runtime; what an error leaves of the map being filled depends on it. *)
Definition Pairs_LoadState (d : PairsStateDict) : eff PairsGenerator unit := fun g =>
  let c := pg_cfg g in
  let maxlen := pc_Lookback c + 1 in
  let legs := pairLegs (pc_Pairs c) in
  let syms := merge_sort String.le (map fst (map_to_list (qd_History d))) in
  let '(history, err) := loadMap id (fun strs => loadRing strs (newPriceRing maxlen))
                           (map (fun sym => (sym, default [] (qd_History d !! sym))) syms) ∅ in
  let g1 h := mkPairsGenerator c h (pg_lastClose g) (pg_lastCloseSt g) (pg_lastBarDate g) (pg_pairState g) (pg_legPosition g)
                (pg_latestZ g) (pg_latestBeta g) (pg_intentGeneration g) in
  match err with
  | Some e => (g1 history, Err e)
  | None =>
  let history := fold_left (seedKey (newPriceRing maxlen)) legs history in
  let '(closes, err) := loadMap id parseClose (map_to_list (qd_LastClose d)) ∅ in
  let g2 dates := mkPairsGenerator c history (fst <$> closes) (snd <$> closes) dates (pg_pairState g) (pg_legPosition g)
                    (pg_latestZ g) (pg_latestBeta g) (pg_intentGeneration g) in
  match err with
  | Some e => (g2 (pg_lastBarDate g), Err e)
  | None =>
  let '(dates, err) := loadMap id parseISODate (map_to_list (qd_LastBarDate d)) ∅ in
  match err with
  | Some e => (g2 dates, Err e)
  | None =>
  let states := (loadMap splitFirstPipe Ok (map_to_list (qd_PairState d)) ∅).1 in
  let states := fold_left (seedKey StateFlat) (map Pair_Key (pc_Pairs c)) states in
  let pos := fold_left (seedKey 0) legs (qd_LegPosition d) in
  (mkPairsGenerator c history (fst <$> closes) (snd <$> closes) dates states pos (pg_latestZ g) (pg_latestBeta g) (pg_intentGeneration g), Ok tt)
  end end end.

(** ** observability.go *)

Definition pairStateOr (g : PairsGenerator) (p : Pair) : PairState := default StateFlat (pg_pairState g !! Pair_Key p).

Definition proximityTo (v ref scale : float64) : float64 := fmul (fdiv (fsub v ref) scale) (zToFloat 100).

Definition pairUIState (entryZ exitZ absZ : float64) (state : PairState) : SignalState * option float64 :=
  if String.eqb state StateFlat then
    let prox := if fgtb entryZ fzero then Some (proximityTo absZ entryZ entryZ) else None in
    if fgeb absZ entryZ then ("buy", prox)
    else if fgeb absZ (fmul (flit 7 10) entryZ) then ("forming", prox)
    else ("no_setup", None)
  else if fleb absZ exitZ then ("exit", Some (proximityTo absZ exitZ (fmax exitZ (flit 1 10))))
  else ("hold", None).

Definition pairSignals (g : PairsGenerator) (generation : Z) (asOf : time) (p : Pair) : list PairsSignal :=
  let entryZ := pc_EntryZ (pg_cfg g) in
  let exitZ := pc_ExitZ (pg_cfg g) in
  let z := default fzero (pg_latestZ g !! Pair_Key p) in
  let beta := default (zToFloat 1) (pg_latestBeta g !! Pair_Key p) in
  let absZ := fabs z in
  let '(state, proximity) := pairUIState entryZ exitZ absZ (pairStateOr g p) in
  map (fun '(symbol, role) =>
    mkPairsSignal (mkCore symbol state (StrengthFromZ absZ) proximity asOf generation StrategyIDPairs)
      (LongLeg p ++ "/" ++ ShortLeg p)%string role z entryZ exitZ beta)
    [(LongLeg p, "long"); (ShortLeg p, "short")].

Definition Pairs_EvaluateSignal (asOf : time) (g : PairsGenerator) : PairsGenerator * list PairsSignal :=
  let n := wrap64 (pg_intentGeneration g + 1) in
  let g := mkPairsGenerator (pg_cfg g) (pg_history g) (pg_lastClose g) (pg_lastCloseSt g) (pg_lastBarDate g) (pg_pairState g)
             (pg_legPosition g) (pg_latestZ g) (pg_latestBeta g) n in
  (g, flat_map (pairSignals g n asOf) (pc_Pairs (pg_cfg g))).

Record PairSummary : Set := mkPairSummary {
  py_LongLeg : string;
  py_ShortLeg : string;
  py_State : string;
  py_CurrentZ : option float64;
  py_CurrentBeta : option float64;
  py_LongLegQty : Z;
  py_ShortLegQty : Z
}.

Definition Pairs_StateSummary (g : PairsGenerator) : list PairSummary :=
  map (fun p => mkPairSummary (LongLeg p) (ShortLeg p) (pairStateOr g p) (pg_latestZ g !! Pair_Key p) (pg_latestBeta g !! Pair_Key p)
                  (legPos g (LongLeg p)) (legPos g (ShortLeg p))) (pc_Pairs (pg_cfg g)).

(** ** pairsadapter/adapter.go *)

Definition pairsFlatReason (s : DomainSignal) (net : Qty) : string :=
  (dg_Reason s ++ " :: FLAT (close " ++ string_of_list_ascii (formatInt net) ++ ")")%string.

(** The body of the loop of [OnBar]. *)
Definition pairsSubmit {St} (id : string) : signalStep St := fun s k =>
  if String.eqb (dg_Side s) SideLong || String.eqb (dg_Side s) SideShort then
    if dg_TargetQty s <=? 0 then k None
    else
      match OrderSideFor (dg_Side s) with
      | Err e => k (Some e)
      | Ok side =>
          SSubmitSignal id (dg_Symbol s) (dg_Side s) side (dg_TargetQty s) (dg_Reason s) (dg_TS s)
            (fun r => k (match r with Err e => Some e | Ok _ => None end))
      end
  else if String.eqb (dg_Side s) SideFlat then
    CloseToFlat id (dg_Symbol s) (dg_TS s) (pairsFlatReason s) (fun r => k (match r with Err e => Some e | Ok _ => None end))
  else k None.

Definition pairsAdapterOnBar (id : string) (g : PairsGenerator) (bar : Bar) : SProg PairsGenerator :=
  SEquityFloat (fun equity => let '(g', sigs) := Pairs_OnDomainBar equity bar g in submitLoop (pairsSubmit id) g' sigs).

(** Equity while priming is the value the provider returns then. *)
Definition pairsWarmupBatch (equity : float64) (bars : list Bar) (g : PairsGenerator) : PairsGenerator :=
  fold_left (fun g bar => (Pairs_OnDomainBar equity bar g).1) bars g.

(** The adapter with its capabilities, as a strategy of the engine. *)
Definition pairsStrategy (id : string) (warmEquity : float64) (cfg : PairsConfig) : Strategy PairsGenerator :=
  mkStrategy id (pairsAdapterOnBar id) None (Some (pairLegs (pc_Pairs cfg))) None (Some (pairsWarmupBatch warmEquity)).

Definition NewPairsAdapter (id : string) (warmEquity : float64) (g : PairsGenerator) : res (Strategy PairsGenerator) :=
  if String.eqb id "" then Err ErrInvalidArgument else Ok (pairsStrategy id warmEquity (pg_cfg g)).

(** ** The book of the generator *)

Abbreviation posOf m := (fun x : string => default 0 (m !! x)).

Lemma computeLegQuantities_range equity g p : let '(l, s) := computeLegQuantities equity g p in l <= max_int64 /\ s <= max_int64.
Proof. unfold computeLegQuantities. cbv zeta. destruct (_ || _); [rlia|]. split; apply intOfFloat_range. Qed.

(** What the state of a pair says of its legs. *)
Definition spreadOk (state : PairState) (l s : Z) : Prop :=
  (state = StateFlat /\ l = 0 /\ s = 0) \/
  (state = StateLongSpread /\ 0 < l <= max_int64 /\ - max_int64 <= s < 0) \/
  (state = StateShortSpread /\ - max_int64 <= l < 0 /\ 0 < s <= max_int64).

Record bookOk (g : PairsGenerator) : Prop := {
  bo_legs : base.NoDup (pairLegs (pc_Pairs (pg_cfg g)));
  bo_pairs : forall p, In p (pc_Pairs (pg_cfg g)) -> spreadOk (stateOf g p) (legPos g (LongLeg p)) (legPos g (ShortLeg p));
  bo_others : forall x, ~ In x (pairLegs (pc_Pairs (pg_cfg g))) -> legPos g x = 0;
  bo_rings : forall x, is_Some (pg_history g !! x) <-> In x (pairLegs (pc_Pairs (pg_cfg g)))
}.

Lemma pairLegs_in ps p : In p ps -> In (LongLeg p) (pairLegs ps) /\ In (ShortLeg p) (pairLegs ps).
Proof. intros H. unfold pairLegs. rewrite !in_flat_map. split; exists p; cbn; tauto. Qed.

Lemma pairLegs_cons p ps : base.NoDup (pairLegs (p :: ps)) ->
  LongLeg p <> ShortLeg p /\ ~ In (LongLeg p) (pairLegs ps) /\ ~ In (ShortLeg p) (pairLegs ps) /\ base.NoDup (pairLegs ps).
Proof.
  cbn [pairLegs flat_map app]. rewrite !list.NoDup_cons, !elem_of_cons, !list_elem_of_In. intros (H1 & H2 & H3).
  splits; [intros E; apply H1; by left|intros E; apply H1; by right|done|done].
Qed.

Lemma pairLegs_self ps p : base.NoDup (pairLegs ps) -> In p ps -> LongLeg p <> ShortLeg p.
Proof.
  induction ps as [|q ps IH]; [done|]. intros (H1 & _ & _ & H2)%pairLegs_cons [->|H]; [done|by apply IH].
Qed.

Lemma pairLegs_disjoint ps p q : base.NoDup (pairLegs ps) -> In p ps -> In q ps -> p <> q ->
  LongLeg q <> LongLeg p /\ LongLeg q <> ShortLeg p /\ ShortLeg q <> LongLeg p /\ ShortLeg q <> ShortLeg p.
Proof.
  induction ps as [|r ps IH]; [done|]. intros (H1 & H2 & H3 & H4)%pairLegs_cons [->|Hp] [->|Hq] Hne; [done| | |by apply IH].
  - apply pairLegs_in in Hq as [Ha Hb]. splits; congruence.
  - apply pairLegs_in in Hp as [Ha Hb]. splits; congruence.
Qed.

Lemma with_book_ok g p st pos : bookOk g -> In p (pc_Pairs (pg_cfg g)) ->
  (forall x, x <> LongLeg p -> x <> ShortLeg p -> posOf pos x = legPos g x) ->
  spreadOk st (posOf pos (LongLeg p)) (posOf pos (ShortLeg p)) ->
  bookOk (with_book (<[Pair_Key p := st]> (pg_pairState g)) pos g).
Proof.
  intros [Hd Hb Ho Hr] Hp Hother Hst. split; cbn [pg_cfg with_book pg_history]; [done| | |done].
  2: { intros x Hx. unfold legPos. cbn [pg_legPosition with_book]. rewrite Hother; [by apply Ho|intros ->; by apply Hx, pairLegs_in..]. }
  intros q Hq. unfold stateOf, legPos. cbn. destruct (decide (p = q)) as [->|Hne].
  - by rewrite lookup_insert_eq.
  - destruct (pairLegs_disjoint _ p q Hd Hp Hq Hne) as (N1 & N2 & N3 & N4).
    rewrite lookup_insert_ne by (unfold Pair_Key; congruence). specialize (Hb q Hq). unfold stateOf in Hb. by rewrite !Hother by done.
Qed.

Lemma closeLegs_spec ts reason legs : forall pos pos' sigs, closeLegs ts reason legs pos = (pos', sigs) ->
  (forall x, In x legs -> Z.abs (posOf pos x) <= max_int64) ->
  allFresh (posOf pos) sigs /\ (forall x, posOf pos' x = replay sigs (posOf pos) x) /\
  (forall x, posOf pos' x = if decide (x ∈ legs) then 0 else posOf pos x).
Proof.
  induction legs as [|leg legs IH]; intros pos pos' sigs; cbn [closeLegs]; [intros [= <- <-] _; splits; done|].
  destruct (Z.eqb_spec (default 0 (pos !! leg)) 0) as [H0|H0]; intros E Hb.
  - destruct (IH _ _ _ E) as (F & R & P). { intros x Hx. apply Hb. by right. }
    splits; [done|done|]. intros x. rewrite P. destruct (decide (x ∈ legs)) as [Hx|Hx], (decide (x ∈ leg :: legs)) as [Hy|Hy]; try done.
    + exfalso. apply Hy. by right.
    + by apply elem_of_cons in Hy as [->|Hy].
  - destruct (closeLegs ts reason legs (<[leg := 0]> pos)) as [pos1 sigs1] eqn:E1. injection E as <- <-.
    assert (Hset : forall x, posOf (<[leg := 0]> pos) x = setTarget (posOf pos) (NewSignal leg ts SideFlat 0 reason) x).
    { intros x. unfold setTarget. cbn. destruct (decide (x = leg)) as [->|Hne]; [by rewrite lookup_insert_eq|by rewrite lookup_insert_ne]. }
    destruct (IH _ _ _ E1) as (F & R & P).
    { intros x Hx. rewrite Hset. unfold setTarget. case_decide; [cbn; rlia|]. apply Hb. by right. }
    cbn [allFresh replay fold_left]. splits.
    + right. split; [done|]. apply Hb. by left.
    + eapply allFresh_ext; [|exact F]. exact Hset.
    + intros x. rewrite R. apply replay_ext, Hset.
    + intros x. rewrite P. destruct (decide (x ∈ legs)) as [Hx|Hx], (decide (x ∈ leg :: legs)) as [Hy|Hy]; try done.
      * exfalso. apply Hy. by right.
      * apply elem_of_cons in Hy as [->|Hy]; [by rewrite lookup_insert_eq|done].
      * rewrite lookup_insert_ne; [done|]. intros ->. apply Hy. by left.
Qed.

(** What one step of the generator promises about the signals it emits. *)
Definition stepOk (g : PairsGenerator) (r : PairsGenerator * list DomainSignal) : Prop :=
  pg_cfg r.1 = pg_cfg g /\ bookOk r.1 /\ allFresh (legPos g) r.2 /\ forall x, legPos r.1 x = replay r.2 (legPos g) x.

Lemma stepOk_none g : bookOk g -> stepOk g (g, []).
Proof. intros H. splits; done. Qed.

Lemma stepOk_trans g g1 s1 g2 s2 : stepOk g (g1, s1) -> stepOk g1 (g2, s2) -> stepOk g (g2, s1 ++ s2).
Proof.
  intros (C1 & B1 & F1 & R1) (C2 & B2 & F2 & R2). cbn [fst snd] in *. unfold stepOk. cbn [fst snd]. splits; [congruence|done| |].
  - apply allFresh_app. split; [done|]. eapply allFresh_ext; [|exact F2]. exact R1.
  - intros x. rewrite R2, replay_app. by apply replay_ext.
Qed.

(** Opening both legs of a flat pair. *)
Lemma open_ok g p st ls ss lq sq ts reason : bookOk g -> In p (pc_Pairs (pg_cfg g)) -> stateOf g p = StateFlat ->
  0 < lq <= max_int64 -> 0 < sq <= max_int64 ->
  (st = StateLongSpread /\ ls = SideLong /\ ss = SideShort \/ st = StateShortSpread /\ ls = SideShort /\ ss = SideLong) ->
  let l := NewSignal (LongLeg p) ts ls lq reason in
  let s := NewSignal (ShortLeg p) ts ss sq reason in
  stepOk g (with_book (<[Pair_Key p := st]> (pg_pairState g))
              (<[ShortLeg p := targetOf s]> (<[LongLeg p := targetOf l]> (pg_legPosition g))) g, [l; s]).
Proof.
  intros Hg Hp Hst Hl Hs Hside l s. pose proof (pairLegs_self _ p (bo_legs g Hg) Hp) as Hne.
  assert (H0 : legPos g (LongLeg p) = 0 /\ legPos g (ShortLeg p) = 0).
  { pose proof (bo_pairs g Hg p Hp) as H. rewrite Hst in H. destruct H as [[_ H]|[[H _]|[H _]]]; [done|discriminate..]. }
  unfold stepOk. cbn [fst snd allFresh]. splits; [done| | | |done|].
  - apply with_book_ok; [done|done| |].
    + intros x N1 N2. by rewrite !lookup_insert_ne by congruence.
    + rewrite lookup_insert_ne by congruence. rewrite !lookup_insert_eq. cbn [default].
      unfold spreadOk, l, s, targetOf. cbn. destruct Hside as [(-> & -> & ->)|(-> & -> & ->)]; cbn; [right; left|right; right]; splits; lia || done.
  - left. split; [|cbn; tauto]. split; [|done]. cbn. destruct Hside as [(_ & -> & _)|(_ & -> & _)]; tauto.
  - left. split; [split; [|done]; cbn; destruct Hside as [(_ & _ & ->)|(_ & _ & ->)]; tauto|].
    unfold setTarget. cbn. by destruct (decide _); [|apply H0].
  - intros x. unfold legPos. cbn [pg_legPosition with_book replay fold_left]. unfold setTarget. cbn [dg_Symbol s l NewSignal].
    destruct (decide (x = ShortLeg p)) as [->|N1]; [by rewrite lookup_insert_eq|]. rewrite lookup_insert_ne by done.
    destruct (decide (x = LongLeg p)) as [->|N2]; [by rewrite lookup_insert_eq|by rewrite lookup_insert_ne].
Qed.

Lemma closePair_ok g p z ts reason : bookOk g -> In p (pc_Pairs (pg_cfg g)) -> stepOk g (closePair p z ts reason g).
Proof.
  intros Hg Hp. unfold closePair. cbv zeta. destruct (closeLegs _ _ _ _) as [pos sigs] eqn:E.
  apply closeLegs_spec in E as (F & R & P).
  2: { intros x Hx. pose proof (bo_pairs g Hg p Hp) as H. unfold legPos, spreadOk in H. cbn in Hx. destruct Hx as [<-|[<-|[]]]; rlia. }
  unfold stepOk. cbn [fst snd]. splits; [done| |done|done].
  apply with_book_ok; [done|done| |].
  - intros x N1 N2. rewrite P, decide_False; [done|]. set_solver.
  - rewrite !P. rewrite !decide_True by set_solver. by left.
Qed.

Lemma pairDecision_ok equity g p beta z ts : bookOk g -> In p (pc_Pairs (pg_cfg g)) -> stepOk g (pairDecision equity p beta z ts g).
Proof.
  intros Hg Hp. unfold pairDecision. cbv zeta.
  assert (Hopen : stateOf g p = StateFlat -> stepOk g (openShortSpread equity p beta z ts g) /\ stepOk g (openLongSpread equity p beta z ts g)).
  { intros Hst. unfold openShortSpread, openLongSpread. pose proof (computeLegQuantities_range equity g p) as Hr.
    destruct (computeLegQuantities equity g p) as [lq sq].
    destruct (Z.leb_spec lq 0); [split; apply stepOk_none, Hg|]. destruct (Z.leb_spec sq 0); [split; apply stepOk_none, Hg|]. cbn [orb]. split.
    - apply (open_ok g p StateShortSpread SideShort SideLong lq sq ts (openReason p StateShortSpread z beta)); tauto || lia.
    - apply (open_ok g p StateLongSpread SideLong SideShort lq sq ts (openReason p StateLongSpread z beta)); tauto || lia. }
  destruct (String.eqb_spec (stateOf g p) StateFlat) as [Hst|_].
  { destruct (Hopen Hst). repeat case_match; by first [assumption|apply stepOk_none]. }
  repeat case_match; (by apply closePair_ok) || by apply stepOk_none.
Qed.

Lemma bookOk_ext g g' : pg_cfg g' = pg_cfg g -> pg_pairState g' = pg_pairState g -> pg_legPosition g' = pg_legPosition g ->
  (forall x, is_Some (pg_history g' !! x) <-> is_Some (pg_history g !! x)) -> bookOk g -> bookOk g'.
Proof.
  intros E1 E2 E3 E4 [H1 H2 H3 H4]. split; [by rewrite E1| | |].
  - intros p. rewrite E1. unfold stateOf, legPos. rewrite E2, E3. apply H2.
  - intros x. rewrite E1. unfold legPos. rewrite E3. apply H3.
  - intros x. rewrite E1, E4. apply H4.
Qed.

Lemma evaluatePair_ok equity g p ts : bookOk g -> In p (pc_Pairs (pg_cfg g)) -> stepOk g (evaluatePair equity p ts g).
Proof.
  intros Hg Hp. unfold evaluatePair. destruct (pairScore _ _ _) as [[beta z]|]; [|by apply stepOk_none].
  apply (pairDecision_ok equity (with_telemetry (Pair_Key p) z beta g)); [by apply (bookOk_ext g)|done].
Qed.

Lemma evaluatePairs_ok equity bar ps : forall g, bookOk g -> incl ps (pc_Pairs (pg_cfg g)) -> stepOk g (evaluatePairs equity bar ps g).
Proof.
  induction ps as [|p ps IH]; intros g Hg Hi; cbn [evaluatePairs]; [by apply stepOk_none|].
  apply incl_cons_inv in Hi as [Hp Hi]. destruct (_ && _); [by apply IH|]. destruct (negb _); [by apply IH|].
  pose proof (evaluatePair_ok equity g p (bar_TS bar) Hg Hp) as H1. destruct (evaluatePair _ _ _ _) as [g1 s1].
  pose proof H1 as (C1 & B1 & _ & _). cbn [fst] in C1, B1. specialize (IH g1 B1 ltac:(by rewrite C1)).
  destruct (evaluatePairs _ _ _ _) as [g2 s2]. by apply (stepOk_trans g g1 s1).
Qed.

Lemma Pairs_OnBar_ok equity bar str g : bookOk g -> stepOk g (Pairs_OnBar equity bar str g).
Proof.
  intros Hg. unfold Pairs_OnBar. destruct (_ !! _) eqn:E; [|by apply stepOk_none].
  apply (evaluatePairs_ok equity bar (pc_Pairs (pg_cfg g)) (recordBar bar str g)); [|apply incl_refl].
  apply (bookOk_ext g); try done. intros x. cbn. destruct (decide (bar_Symbol bar = x)) as [<-|Hne]; [|by rewrite lookup_insert_ne].
  rewrite lookup_insert_eq, E. split; by eexists.
Qed.

#[export] Instance pairsTargets : TargetGenerator PairsGenerator := {
  tg_OnBar := Pairs_OnDomainBar;
  tg_position := legPos;
  tg_ok := bookOk;
  tg_keeps := fun eq bar g Hg => proj1 (proj2 (Pairs_OnBar_ok eq bar (pyDecimalStr (bar_Close bar)) g Hg));
  tg_fresh := fun eq bar g Hg => proj1 (proj2 (proj2 (Pairs_OnBar_ok eq bar (pyDecimalStr (bar_Close bar)) g Hg)));
  tg_replays := fun eq bar g Hg => proj2 (proj2 (proj2 (Pairs_OnBar_ok eq bar (pyDecimalStr (bar_Close bar)) g Hg)))
}.

#[export] Instance pairsSubmit_follows {St} id : FollowsTargets (fun _ => True) (@pairsSubmit St id).
Proof.
  intros eq s k b _ Hf. unfold pairsSubmit, setTarget, targetOf. destruct Hf as [[[Hside Hq] H0]|[Hside Hb]].
  - replace (dg_TargetQty s <=? 0) with false by lia. destruct Hside as [E|E]; rewrite E; cbn [String.eqb orb OrderSideFor].
    all: eexists; split; [reflexivity|]; intros sym; rewrite netOf_paperFill; destruct (decide _); [cbn; lia|done].
  - rewrite Hside. cbn [String.eqb orb].
    match goal with |- context [CloseToFlat id ?a ?t ?r ?f] => destruct (CloseToFlat_flattens eq id a t r f b Hb) as (b' & d & E & N) end.
    exists b'. split; [exact E|]. intros sym. by rewrite N.
Qed.

Lemma seed_lookup {K A} `{Countable K} (v : A) ks : forall (m : gmap K A) k, fold_left (seedKey v) ks m !! k =
  match m !! k with Some a => Some a | None => if decide (k ∈ ks) then Some v else None end.
Proof.
  induction ks as [|x ks IH]; intros m k; cbn [fold_left]; [by case_match|]. rewrite IH. unfold seedKey.
  destruct (m !! x) eqn:E.
  - destruct (m !! k) eqn:Ek; [done|]. destruct (decide (k ∈ ks)), (decide (k ∈ x :: ks)); try done; set_solver.
  - destruct (decide (x = k)) as [->|Hne]; [rewrite lookup_insert_eq, E, decide_True by set_solver; done|]. rewrite lookup_insert_ne by done.
    destruct (m !! k) eqn:Ek; [done|]. destruct (decide (k ∈ ks)), (decide (k ∈ x :: ks)); try done; set_solver.
Qed.

Lemma NewPairs_ok cfg g : NewPairs cfg = Ok g -> base.NoDup (pairLegs (pc_Pairs cfg)) ->
  pg_cfg g = cfg /\ bookOk g /\ forall x, legPos g x = 0.
Proof.
  unfold NewPairs. destruct (PairsConfig_Validate cfg); cbn [res_bind]; [|done]. intros [= <-] Hd.
  assert (Hz : forall x, default 0 (fold_left (seedKey 0) (pairLegs (pc_Pairs cfg)) (∅ : gmap string Z) !! x) = 0).
  { intros x. rewrite seed_lookup, lookup_empty. by case_decide. }
  splits; [done| |exact Hz]. split; [done| |intros x _; apply Hz|].
  - intros p Hp. left. unfold stateOf, legPos. cbn [pg_pairState pg_legPosition].
    splits; [|apply Hz..]. rewrite seed_lookup, lookup_empty, decide_True; [done|]. apply list_elem_of_In. by apply in_map.
  - intros x. cbn [pg_history pg_cfg]. rewrite seed_lookup, lookup_empty, <- list_elem_of_In. destruct (decide _); [by split|split; [by intros []|done]].
Qed.

(** The default universe has disjoint legs. *)
Lemma default_legs_disjoint : base.NoDup (pairLegs DefaultPairs).
Proof. apply (bool_decide_unpack _). by vm_compute. Qed.

(** ** Properties of trading *)

(** C22: The account follows the pairs strategy.  For pairs without a common leg,
    over any sequence of bars and whatever equity the provider returns, the orders
    the adapter submits, when they fill in full, leave in every symbol exactly the
    leg position the generator records, and no bar fails.  The account of a pair is
    then what its state says: both legs flat, long the first and short the second,
    or the reverse.  Bars of other symbols change nothing. *)
Theorem account_follows_pairs (cfg : PairsConfig) (g0 : PairsGenerator) (id : string) (equity : PaperBook -> float64) (bars : list Bar)
    (Hnew : NewPairs cfg = Ok g0) (Hlegs : base.NoDup (pairLegs (pc_Pairs cfg))) :
  exists g book, paperRun (pairsAdapterOnBar id) equity bars g0 ∅ = (book, Ok g) /\
    (forall sym, netOf book sym = legPos g sym) /\
    (forall p, In p (pc_Pairs cfg) ->
       (stateOf g p = StateFlat /\ netOf book (LongLeg p) = 0 /\ netOf book (ShortLeg p) = 0) \/
       (stateOf g p = StateLongSpread /\ 0 < netOf book (LongLeg p) /\ netOf book (ShortLeg p) < 0) \/
       (stateOf g p = StateShortSpread /\ netOf book (LongLeg p) < 0 /\ 0 < netOf book (ShortLeg p))) /\
    (forall sym, ~ In sym (pairLegs (pc_Pairs cfg)) -> netOf book sym = 0 /\
       forall bar, bar_Symbol bar = sym -> runProg equity (pairsAdapterOnBar id g bar) book = (book, Ok (g, None))).
Proof.
  destruct (NewPairs_ok cfg g0 Hnew Hlegs) as (Hc & Hb & H0).
  destruct (paperRun_follows (fun _ => True) (pairsSubmit id) ltac:(intros; by apply List.Forall_forall) 
    (fun g => pg_cfg g = cfg) ltac:(intros eq bar g Hg <-; apply (Pairs_OnBar_ok eq bar _ g Hg)) equity bars g0 ∅ Hb Hc)
    as (g & book & E & Hg & Hcg & Hn).
  { intros sym. symmetry. apply H0. }
  destruct Hg as [_ Hp Ho Hr]. rewrite Hcg in *. exists g, book. splits; [done|exact Hn| |].
  - intros p Hin. rewrite !Hn. pose proof (Hp p Hin) as H. unfold spreadOk in H. cbn. tauto.
  - intros sym Hs. rewrite Hn. split; [by apply Ho|]. intros bar <-. unfold pairsAdapterOnBar. cbn [runProg]. unfold Pairs_OnDomainBar, Pairs_OnBar.
    destruct (pg_history g !! bar_Symbol bar) eqn:El; [|done]. exfalso. apply Hs, Hr. by eexists.
Qed.

Definition demoDay (d : Z) : time := mkTime ((1704067200 + 86400 * d) * 1000000000) 0.
Definition demoPairBar (sym : string) (d close : Z) : Bar :=
  {| bar_Symbol := sym; bar_TS := demoDay d; bar_Open := close; bar_High := close; bar_Low := close; bar_Close := close; bar_Volume := 1000 |}.
Definition demoPairsCfg (ps : list Pair) : PairsConfig := mkPairsConfig true ps 5 (flit 6 5) (flit 1 2) (flit 1 5) "America/New_York".
Definition demoEquity (_ : PaperBook) : float64 := zToFloat 100000.
Definition demoCloses (f : Z -> list (string * Z)) (n : nat) : list Bar :=
  flat_map (fun i => let d := Z.of_nat i in map (fun '(sym, c) => demoPairBar sym d c) (f d)) (seq 0 n).
(** A spread that widens on the last of six days. *)
Definition demoSpread (d : Z) : list (string * Z) :=
  [("KO", if d <? 5 then 500000 + 1000 * (d * d) else 600000); ("PEP", 1700000 + 3000 * ((d * 7) mod 5))].

(** ** Restart *)

Lemma loadMap_spec {A B K} `{Countable K} (fk : string -> K) (fv : A -> res B) (M : gmap K B) l : forall acc,
  (forall k a, In (k, a) l -> exists b, fv a = Ok b /\ M !! fk k = Some b) ->
  acc ⊆ M -> (forall k b, M !! k = Some b -> acc !! k = Some b \/ exists k' a, In (k', a) l /\ fk k' = k) ->
  loadMap fk fv l acc = (M, None).
Proof.
  induction l as [|[k a] l IH]; intros acc Hl Hs Hc; cbn [loadMap].
  - f_equal. apply map_eq. intros x. destruct (M !! x) as [b|] eqn:E.
    + by destruct (Hc x b E) as [?|(? & ? & [] & _)].
    + destruct (acc !! x) eqn:E'; [|done]. by rewrite (lookup_weaken _ _ _ _ E' Hs) in E.
  - destruct (Hl k a (or_introl eq_refl)) as (b & -> & Hb). apply IH.
    + intros k' a' Hin. apply Hl. by right.
    + by apply insert_subseteq_l.
    + intros k' b' Hk. destruct (decide (fk k = k')) as [<-|Hne]; [left; rewrite lookup_insert_eq; congruence|].
      rewrite lookup_insert_ne by done. destruct (Hc k' b' Hk) as [?|(k0 & a0 & [[= -> ->]|Hin] & Hf)]; [by left|by destruct Hne|right; by exists k0, a0].
Qed.

(** Loading a map that was written entry by entry. *)
Lemma loadMap_fmap {A B} (fv : A -> res B) (f : B -> A) (M : gmap string B) l : l ≡ₚ map_to_list (f <$> M) ->
  (forall k b, M !! k = Some b -> fv (f b) = Ok b) -> loadMap id fv l ∅ = (M, None).
Proof.
  intros Hl Hf. assert (Hin : forall k a, In (k, a) l <-> exists b, a = f b /\ M !! k = Some b).
  { intros k a. rewrite <- list_elem_of_In, Hl, elem_of_map_to_list, lookup_fmap. destruct (M !! k) as [b|]; cbn.
    - split; [intros [= <-]; by exists b|intros (b' & -> & [= ->]); done].
    - split; [done|intros (b' & _ & [=])]. }
  apply loadMap_spec; [|apply map_empty_subseteq|].
  - intros k a (b & -> & Hb)%Hin. exists b. split; [by apply (Hf k)|done].
  - intros k b Hb. right. exists k, (f b). split; [|done]. apply Hin. by exists b.
Qed.

Definition closesOf (strs : list string) (prices : list Price) : Prop := Forall2 (fun s p => ParsePrice s = Ok p) strs prices.

Lemma loadRing_spec cap strs : forall prices r, closesOf strs prices -> pr_cap r = cap ->
  ring_len r + Z.of_nat (length strs) <= cap -> loadRing strs r = Ok (mkRing (pr_prices r ++ prices) (pr_strs r ++ strs) cap).
Proof.
  induction strs as [|s strs IH]; intros prices r Hc Hcap Hlen; inversion Hc as [|? p ? ps Hp Hps E1 E2]; subst; cbn [loadRing].
  - by rewrite !app_nil_r; destruct r.
  - rewrite Hp. cbn [res_bind]. assert (E : ring_append p s r = mkRing (pr_prices r ++ [p]) (pr_strs r ++ [s]) (pr_cap r)).
    { unfold ring_append. cbv zeta. rewrite length_app. cbn [List.length] in *. unfold ring_len in Hlen.
      case_match; [|done]. breflect. lia. }
    rewrite E, (IH ps); cbn [pr_prices pr_strs pr_cap]; [by rewrite <- !app_assoc|done|done|].
    unfold ring_len in *. cbn [pr_prices List.length] in *. rewrite length_app. cbn [List.length]. lia.
Qed.

Lemma atoi_digits c ds n : digitsVal 0 (c :: ds) = Some n -> atoi (c :: ds) = Ok n.
Proof.
  intros H. unfold atoi. cbn [digitsVal] in *. destruct (digitVal c) eqn:E; [|done].
  destruct (Ascii.eqb_spec c "-"%char) as [->|_]; [discriminate E|]. destruct (Ascii.eqb_spec c "+"%char) as [->|_]; [discriminate E|].
  by rewrite E, H.
Qed.

Lemma parseISODate_iso d : validDate d = true -> 0 <= d_Year d <= 9999 -> parseISODate (barDate_iso d) = Ok d.
Proof.
  intros Hv Hy. destruct (valid_bounds d Hv) as (Hm & _ & Hd).
  assert (Hd' : d_Day d <= 99).
  { destruct Hd as [_ Hd]. unfold daysBeforeMonth in Hd. destruct (isLeap (d_Year d)); repeat case_match; lia. }
  destruct (padZero4 (d_Year d) Hy) as (a & b & c & e & E1 & V1). destruct (padZero2 (d_Month d) ltac:(lia)) as (f & g & E2 & V2).
  destruct (padZero2 (d_Day d) ltac:(lia)) as (h & i & E3 & V3). unfold parseISODate, barDate_iso.
  rewrite list_ascii_of_string_of_list_ascii. unfold DateString. rewrite E1, E2, E3.
  cbn [app List.length Nat.ltb Nat.leb nth orb firstn skipn]. rewrite !Ascii.eqb_refl. cbn [negb orb].
  rewrite (atoi_digits _ _ _ V1), (atoi_digits _ _ _ V2), (atoi_digits _ _ _ V3). by destruct d.
Qed.

Definition pipeFree (s : string) : Prop := ~ In "|"%char (list_ascii_of_string s).

Lemma list_ascii_of_append a b : list_ascii_of_string (a ++ b)%string = list_ascii_of_string a ++ list_ascii_of_string b.
Proof. induction a as [|c a IH]; [done|exact (f_equal (cons c) IH)]. Qed.

Lemma splitPipe_app a b : ~ In "|"%char a -> splitPipe (a ++ "|"%char :: b) = (a, b).
Proof.
  induction a as [|c a IH]; intros Ha; cbn [app splitPipe]; [done|]. destruct (Ascii.eqb_spec c "|"%char) as [->|_]; [by destruct Ha; left|].
  rewrite IH; [done|]. intros Hin. apply Ha. by right.
Qed.

Lemma splitFirstPipe_key k : pipeFree k.1 -> splitFirstPipe (pipeKey k) = k.
Proof.
  destruct k as [a b]. intros Ha. unfold splitFirstPipe, pipeKey. cbn [fst snd]. rewrite !list_ascii_of_append. cbn [list_ascii_of_string app].
  rewrite splitPipe_app by done. by rewrite !string_of_list_ascii_of_string.
Qed.

(** What a snapshot keeps: everything but the telemetry. *)
Definition tradingPart (g : PairsGenerator) : PairsGenerator :=
  mkPairsGenerator (pg_cfg g) (pg_history g) (pg_lastClose g) (pg_lastCloseSt g) (pg_lastBarDate g) (pg_pairState g) (pg_legPosition g) ∅ ∅ 0.

Record persistOk (g : PairsGenerator) : Prop := {
  po_rings : forall s r, pg_history g !! s = Some r ->
    closesOf (pr_strs r) (pr_prices r) /\ pr_cap r = pc_Lookback (pg_cfg g) + 1 /\ ring_len r <= pr_cap r;
  po_closes : forall s, match pg_lastCloseSt g !! s, pg_lastClose g !! s with
    | Some st, Some p => ParsePrice st = Ok p | None, None => True | _, _ => False end;
  po_dates : forall s d, pg_lastBarDate g !! s = Some d -> validDate d = true /\ 0 <= d_Year d <= 9999;
  po_states : forall k, is_Some (pg_pairState g !! k) <-> In k (map Pair_Key (pc_Pairs (pg_cfg g)));
  po_legs : forall x, In x (pairLegs (pc_Pairs (pg_cfg g))) -> is_Some (pg_history g !! x) /\ is_Some (pg_legPosition g !! x)
}.

Lemma seed_present {K A} `{Countable K} (v : A) ks (m : gmap K A) : (forall k, In k ks -> is_Some (m !! k)) -> fold_left (seedKey v) ks m = m.
Proof.
  intros Hk. apply map_eq. intros k. rewrite seed_lookup. destruct (m !! k) eqn:E; [done|]. destruct (decide _) as [Hin|]; [|done].
  apply list_elem_of_In, Hk in Hin as [? Hin]. congruence.
Qed.

Lemma sorted_entries {A} (d : A) (m : gmap string A) :
  map (fun k => (k, default d (m !! k))) (merge_sort String.le (map fst (map_to_list m))) ≡ₚ map_to_list m.
Proof.
  rewrite merge_sort_Permutation, map_map. assert (E : map (fun x => (x.1, default d (m !! x.1))) (map_to_list m) = map_to_list m); [|by rewrite E].
  rewrite <- (map_id (map_to_list m)) at 2. apply map_ext_in. intros [k a] Hin%list_elem_of_In%elem_of_map_to_list. cbn. by rewrite Hin.
Qed.

Lemma states_load (M : gmap PairKey string) : (forall k, is_Some (M !! k) -> pipeFree k.1) ->
  (loadMap splitFirstPipe Ok (map_to_list (list_to_map (map (fun '(k, s) => (pipeKey k, s)) (map_to_list M)) : gmap string string)) ∅).1 = M.
Proof.
  intros Hp. set (l := map _ (map_to_list M)).
  assert (Hl : forall x s, (x, s) ∈ l <-> exists k, x = pipeKey k /\ M !! k = Some s).
  { intros x s. unfold l. rewrite list_elem_of_In, in_map_iff. setoid_rewrite <- list_elem_of_In. split.
    - intros ([k s'] & [= <- <-] & Hin%elem_of_map_to_list). by exists k.
    - intros (k & -> & Hk). exists (k, s). split; [done|by apply elem_of_map_to_list]. }
  rewrite (loadMap_spec splitFirstPipe Ok M); [done| |apply map_empty_subseteq|].
  - intros x s Hin%list_elem_of_In%elem_of_map_to_list%elem_of_list_to_map_2. apply Hl in Hin as (k & -> & Hk).
    exists s. split; [done|]. rewrite splitFirstPipe_key; [done|]. apply Hp. by eexists.
  - intros k s Hk. right. destruct ((list_to_map l : gmap string string) !! pipeKey k) as [s'|] eqn:E.
    + exists (pipeKey k), s'. split; [by apply list_elem_of_In, elem_of_map_to_list|]. apply splitFirstPipe_key, Hp. by eexists.
    + apply not_elem_of_list_to_map_2 in E. destruct E. apply list_elem_of_fmap. exists (pipeKey k, s). split; [done|]. apply Hl. by exists k.
Qed.

Lemma Pairs_load_dump equity g g0 : persistOk g -> pg_cfg g0 = pg_cfg g -> (forall p, In p (pc_Pairs (pg_cfg g)) -> pipeFree (LongLeg p)) ->
  exists g', Pairs_LoadState (Pairs_StateDict equity g) g0 = (g', Ok tt) /\ tradingPart g' = tradingPart g.
Proof.
  intros [Hr Hc Hd Hs Hlg] Hcfg Hp. unfold Pairs_LoadState. cbv zeta. cbn [qd_History qd_LastClose qd_LastBarDate qd_PairState qd_LegPosition Pairs_StateDict].
  rewrite Hcfg.
  rewrite (loadMap_fmap _ pr_strs (pg_history g)).
  2: { apply sorted_entries. }
  2: { intros k r Hk. destruct (Hr k r Hk) as (H1 & H2 & H3). erewrite loadRing_spec; [|exact H1|done|]; cbn.
       - f_equal. destruct r. cbn in *. by rewrite H2.
       - apply Forall2_length in H1. unfold ring_len in *. cbn. lia. }
  set (closes := map_zip_with pair (pg_lastClose g) (pg_lastCloseSt g)).
  assert (Hz : (fst <$> closes) = pg_lastClose g /\ (snd <$> closes) = pg_lastCloseSt g).
  { split; apply map_eq; intros s; unfold closes; rewrite lookup_fmap, map_lookup_zip_with; specialize (Hc s);
      destruct (pg_lastCloseSt g !! s), (pg_lastClose g !! s); cbn; done. }
  rewrite (loadMap_fmap parseClose snd closes); [|by rewrite (proj2 Hz)|].
  2: { intros s [p st]. unfold closes. rewrite map_lookup_zip_with. specialize (Hc s).
       destruct (pg_lastCloseSt g !! s), (pg_lastClose g !! s); cbn; try done. intros [= -> ->]. unfold parseClose. by rewrite Hc. }
  rewrite (loadMap_fmap parseISODate barDate_iso (pg_lastBarDate g)); [|done|].
  2: { intros s d Hs'. apply parseISODate_iso; by apply (Hd s). }
  rewrite states_load. 2: { intros k Hk. apply Hs, in_map_iff in Hk as (p & <- & Hin). by apply Hp. }
  rewrite (proj1 Hz), (proj2 Hz), !seed_present; [by eexists|intros x Hx; by apply Hlg|intros k Hk; by apply Hs|intros x Hx; by apply Hlg].
Qed.

(** Everything but the book and the telemetry stays, and the book keeps its keys. *)
Definition framed (g g' : PairsGenerator) : Prop :=
  (pg_cfg g' = pg_cfg g /\ pg_history g' = pg_history g /\ pg_lastClose g' = pg_lastClose g /\ pg_lastCloseSt g' = pg_lastCloseSt g /\
   pg_lastBarDate g' = pg_lastBarDate g) /\
  (forall k, is_Some (pg_pairState g' !! k) <-> is_Some (pg_pairState g !! k)) /\
  (forall x, is_Some (pg_legPosition g !! x) -> is_Some (pg_legPosition g' !! x)).

Lemma framed_refl g : framed g g.
Proof. by split. Qed.

Lemma framed_trans g1 g2 g3 : framed g1 g2 -> framed g2 g3 -> framed g1 g3.
Proof. intros ((A1 & A2 & A3 & A4 & A5) & B1 & C1) ((D1 & D2 & D3 & D4 & D5) & E1 & F1). split; [splits; congruence|]. split; [intros k; by rewrite E1|auto]. Qed.

Lemma framed_book g k st pos : is_Some (pg_pairState g !! k) -> (forall x, is_Some (pg_legPosition g !! x) -> is_Some (pos !! x)) ->
  framed g (with_book (<[k := st]> (pg_pairState g)) pos g).
Proof.
  intros Hk Hp. split; [done|]. split; [|done]. intros k'. cbn. destruct (decide (k = k')) as [<-|Hne]; [|by rewrite lookup_insert_ne].
  rewrite lookup_insert_eq. by split.
Qed.

Lemma insert_keeps {A} (m : gmap string A) k v x : is_Some (m !! x) -> is_Some (<[k := v]> m !! x).
Proof. intros H. destruct (decide (k = x)) as [<-|Hne]; [by rewrite lookup_insert_eq|by rewrite lookup_insert_ne]. Qed.
#[local] Hint Resolve insert_keeps : go.

Lemma closeLegs_keeps ts reason legs x : forall pos, is_Some (pos !! x) -> is_Some ((closeLegs ts reason legs pos).1 !! x).
Proof.
  induction legs as [|leg legs IH]; intros pos Hx; cbn [closeLegs]; [done|]. destruct (_ =? 0); [by apply IH|].
  specialize (IH (<[leg := 0]> pos) (insert_keeps _ _ _ _ Hx)). by destruct (closeLegs _ _ _ _).
Qed.

Lemma evaluatePair_framed equity p ts g : is_Some (pg_pairState g !! Pair_Key p) -> framed g (evaluatePair equity p ts g).1.
Proof.
  intros Hp. unfold evaluatePair. destruct (pairScore _ _ _) as [[beta z]|]; [|apply framed_refl].
  apply (framed_trans _ (with_telemetry (Pair_Key p) z beta g)); [by split|]. set (g1 := with_telemetry _ _ _ _).
  assert (Hp1 : is_Some (pg_pairState g1 !! Pair_Key p)) by done. clearbody g1. clear Hp.
  assert (Hclose : forall r, framed g1 (closePair p z ts r g1).1).
  { intros r. unfold closePair. cbv zeta. pose proof (closeLegs_keeps ts) as Hc. match goal with |- context [closeLegs ts ?r ?l ?m] => specialize (Hc r l); destruct (closeLegs ts r l m) as [pos sigs] eqn:E end.
    apply framed_book; [done|]. intros x Hx. specialize (Hc x _ Hx). by rewrite E in Hc. }
  unfold pairDecision, openLongSpread, openShortSpread. cbv zeta. destruct (computeLegQuantities equity g1 p) as [lq sq].
  repeat case_match; try apply framed_refl; try apply Hclose.
  all: apply framed_book; [done|auto with go].
Qed.

Lemma evaluatePairs_framed equity bar ps : forall g, (forall p, In p ps -> is_Some (pg_pairState g !! Pair_Key p)) -> framed g (evaluatePairs equity bar ps g).1.
Proof.
  induction ps as [|p ps IH]; intros g Hp; cbn [evaluatePairs]; [apply framed_refl|].
  assert (Hps : forall q, In q ps -> is_Some (pg_pairState g !! Pair_Key q)) by (intros; apply Hp; by right).
  destruct (_ && _); [by apply IH|]. destruct (negb _); [by apply IH|].
  pose proof (evaluatePair_framed equity p (bar_TS bar) g (Hp p (or_introl eq_refl))) as H1. destruct (evaluatePair _ _ _ _) as [g1 s1]. cbn [fst] in H1.
  specialize (IH g1). destruct (evaluatePairs _ _ _ _) as [g2 s2]. cbn [fst] in *. apply (framed_trans g g1); [done|]. apply IH.
  intros q Hq. apply H1. by apply Hps.
Qed.

Lemma persistOk_framed g g' : framed g g' -> persistOk g -> persistOk g'.
Proof.
  intros ((E1 & E2 & E3 & E4 & E5) & Hs & Hl) [H1 H2 H3 H4 H5]. split; rewrite ?E1, ?E2, ?E3, ?E4, ?E5; try done.
  - intros k. rewrite Hs. apply H4.
  - intros x Hx. destruct (H5 x Hx). auto.
Qed.

Lemma ring_append_ok r p s cap : closesOf (pr_strs r) (pr_prices r) -> pr_cap r = cap -> ring_len r <= cap -> 0 < cap -> ParsePrice s = Ok p ->
  closesOf (pr_strs (ring_append p s r)) (pr_prices (ring_append p s r)) /\ pr_cap (ring_append p s r) = cap /\ ring_len (ring_append p s r) <= cap.
Proof.
  intros Hc Hcap Hl Hpos Hp. unfold ring_append, ring_len in *. cbv zeta. rewrite length_app.
  assert (Hc' : closesOf (pr_strs r ++ [s]) (pr_prices r ++ [p])) by (apply Forall2_app; [done|by constructor]).
  case_match; cbn [pr_strs pr_prices pr_cap]; breflect; splits; try done.
  - inversion Hc'; by constructor || done.
  - destruct (pr_prices r ++ [p]) as [|q l] eqn:E; [cbn; lia|]. apply (f_equal List.length) in E. rewrite length_app in E. cbn in *. lia.
  - rewrite length_app. cbn in *. lia.
Qed.

Lemma recordBar_ok bar str g : 0 <= pc_Lookback (pg_cfg g) -> is_Some (pg_history g !! bar_Symbol bar) -> ParsePrice str = Ok (bar_Close bar) ->
  0 <= d_Year (barDateOf (bar_TS bar)) <= 9999 -> persistOk g -> persistOk (recordBar bar str g).
Proof.
  intros Hlb [r Hr] Hp Hy [H1 H2 H3 H4 H5]. destruct (H1 _ _ Hr) as (R1 & R2 & R3).
  assert (Er : ringOf g (bar_Symbol bar) = r) by (unfold ringOf; by rewrite Hr).
  split; cbn [recordBar pg_history pg_cfg pg_lastClose pg_lastCloseSt pg_lastBarDate pg_pairState pg_legPosition]; try done.
  - intros s r'. destruct (decide (bar_Symbol bar = s)) as [<-|Hne]; [|rewrite lookup_insert_ne by done; apply H1].
    rewrite lookup_insert_eq, Er. intros [= <-].
    destruct (ring_append_ok r (bar_Close bar) str (pr_cap r)) as (Q1 & Q2 & Q3); try done; [lia|]. splits; [done|congruence|by rewrite Q2].
  - intros s. destruct (decide (bar_Symbol bar = s)) as [<-|Hne]; [by rewrite !lookup_insert_eq|rewrite !lookup_insert_ne by done; apply H2].
  - intros s d. destruct (decide (bar_Symbol bar = s)) as [<-|Hne]; [|rewrite lookup_insert_ne by done; apply H3].
    rewrite lookup_insert_eq. intros [= <-]. split; [apply validDate_civil|done].
  - intros x Hx. destruct (H5 x Hx). auto with go.
Qed.

(** ** The telemetry does not trade *)

Definition sameTrading (g g' : PairsGenerator) : Prop := tradingPart g = tradingPart g'.

Lemma evaluatePair_same equity p ts g g' : sameTrading g g' ->
  (evaluatePair equity p ts g).2 = (evaluatePair equity p ts g').2 /\ sameTrading (evaluatePair equity p ts g).1 (evaluatePair equity p ts g').1.
Proof.
  destruct g as [c h l s d st lp z b n], g' as [c' h' l' s' d' st' lp' z' b' n']. intros [= -> -> -> -> -> -> ->].
  unfold evaluatePair, ringOf. cbn [pg_cfg pg_history]. destruct (pairScore _ _ _) as [[beta zz]|]; [|done].
  unfold pairDecision, openLongSpread, openShortSpread, closePair, computeLegQuantities, stateOf.
  cbn [with_telemetry pg_cfg pg_pairState pg_lastClose pg_legPosition]. cbv zeta.
  repeat case_match; done.
Qed.

Lemma evaluatePairs_same equity bar ps : forall g g', sameTrading g g' ->
  (evaluatePairs equity bar ps g).2 = (evaluatePairs equity bar ps g').2 /\ sameTrading (evaluatePairs equity bar ps g).1 (evaluatePairs equity bar ps g').1.
Proof.
  induction ps as [|p ps IH]; intros g g' Hs; cbn [evaluatePairs]; [done|].
  assert (Hsync : forall cur, pairInSync g p cur = pairInSync g' p cur).
  { intros cur. unfold pairInSync. destruct g, g'. injection Hs as -> -> -> -> -> -> ->. done. }
  rewrite Hsync. destruct (_ && _); [by apply IH|]. destruct (negb _); [by apply IH|].
  destruct (evaluatePair_same equity p (bar_TS bar) g g' Hs) as [E1 S1].
  destruct (evaluatePair _ _ _ g) as [g1 s1], (evaluatePair _ _ _ g') as [g1' s1']. cbn [fst snd] in *.
  destruct (IH g1 g1' S1) as [E2 S2]. destruct (evaluatePairs _ _ _ g1) as [g2 s2], (evaluatePairs _ _ _ g1') as [g2' s2']. cbn [fst snd] in *.
  by subst.
Qed.

Lemma Pairs_OnBar_same equity bar str g g' : sameTrading g g' ->
  (Pairs_OnBar equity bar str g).2 = (Pairs_OnBar equity bar str g').2 /\ sameTrading (Pairs_OnBar equity bar str g).1 (Pairs_OnBar equity bar str g').1.
Proof.
  intros Hs. unfold Pairs_OnBar. assert (E : pg_history g = pg_history g' /\ pg_cfg g = pg_cfg g') by (destruct g, g'; by injection Hs as -> -> -> -> -> -> ->).
  destruct E as [-> ->]. destruct (_ !! _); [|done]. apply evaluatePairs_same.
  destruct g, g'. injection Hs as -> -> -> -> -> -> ->. done.
Qed.

(** Bars with the equity the provider returned and the text of the close. *)
Fixpoint runPairs (ops : list (float64 * Bar * string)) (g : PairsGenerator) : PairsGenerator * list (list DomainSignal) :=
  match ops with
  | [] => (g, [])
  | (equity, bar, str) :: ops =>
      let '(g, s) := Pairs_OnBar equity bar str g in
      let '(g, ss) := runPairs ops g in
      (g, s :: ss)
  end.

Lemma runPairs_same ops : forall g g', sameTrading g g' -> (runPairs ops g).2 = (runPairs ops g').2 /\ sameTrading (runPairs ops g).1 (runPairs ops g').1.
Proof.
  induction ops as [|[[equity bar] str] ops IH]; intros g g' Hs; cbn [runPairs]; [done|].
  destruct (Pairs_OnBar_same equity bar str g g' Hs) as [E1 S1]. destruct (Pairs_OnBar _ _ _ g) as [g1 s1], (Pairs_OnBar _ _ _ g') as [g1' s1'].
  cbn [fst snd] in *. destruct (IH g1 g1' S1) as [E2 S2]. destruct (runPairs ops g1) as [g2 s2], (runPairs ops g1') as [g2' s2']. cbn [fst snd] in *.
  by subst.
Qed.

(** What the data layer promises of a bar: the text is that of the close. *)
Definition textOk (op : float64 * Bar * string) : Prop :=
  ParsePrice op.2 = Ok (bar_Close op.1.2) /\ 0 <= d_Year (barDateOf (bar_TS op.1.2)) <= 9999.

Lemma Pairs_OnBar_persist equity bar str g : 0 <= pc_Lookback (pg_cfg g) -> textOk (equity, bar, str) -> persistOk g ->
  persistOk (Pairs_OnBar equity bar str g).1 /\ pg_cfg (Pairs_OnBar equity bar str g).1 = pg_cfg g.
Proof.
  intros Hlb [Ht Hy] Hg. unfold Pairs_OnBar. destruct (pg_history g !! bar_Symbol bar) as [r|] eqn:E; [|done].
  assert (Hf : framed (recordBar bar str g) (evaluatePairs equity bar (pc_Pairs (pg_cfg g)) (recordBar bar str g)).1).
  { apply evaluatePairs_framed. intros p Hp. cbn. apply (po_states g Hg). by apply in_map. }
  split; [|by destruct Hf as ((-> & _) & _)]. apply (persistOk_framed _ _ Hf). by apply recordBar_ok.
Qed.

Lemma runPairs_persist ops : forall g, 0 <= pc_Lookback (pg_cfg g) -> Forall textOk ops -> persistOk g ->
  persistOk (runPairs ops g).1 /\ pg_cfg (runPairs ops g).1 = pg_cfg g.
Proof.
  induction ops as [|[[equity bar] str] ops IH]; intros g Hlb Ho Hg; cbn [runPairs]; [done|]. apply List.Forall_cons_iff in Ho as [Ho Hos].
  destruct (Pairs_OnBar_persist equity bar str g Hlb Ho Hg) as [H1 H2]. destruct (Pairs_OnBar _ _ _ _) as [g1 s1]. cbn [fst] in *.
  destruct (IH g1) as [H3 H4]; [by rewrite H2|done|done|]. destruct (runPairs ops g1). cbn [fst] in *. split; [done|congruence].
Qed.

Lemma NewPairs_persist cfg g : NewPairs cfg = Ok g -> pg_cfg g = cfg /\ 0 <= pc_Lookback cfg /\ persistOk g.
Proof.
  unfold NewPairs, PairsConfig_Validate. destruct (negb (pc_hasEquity cfg)); [done|]. cbn [res_bind]. destruct (bool_decide _); [done|]. cbn [res_bind].
  destruct (Z.ltb_spec (pc_Lookback cfg) 5); [done|]. cbn [res_bind]. repeat (case_match; try done). cbn [res_bind]. intros [= <-].
  splits; [done|lia|]. split; cbn [pg_history pg_cfg pg_lastClose pg_lastCloseSt pg_lastBarDate pg_pairState pg_legPosition].
  - intros s r. rewrite seed_lookup, lookup_empty. case_decide; [|done]. intros [= <-]. splits; [apply Forall2_nil_2|done|unfold ring_len; cbn; lia].
  - intros s. by rewrite !lookup_empty.
  - intros s d. by rewrite lookup_empty.
  - intros k. rewrite seed_lookup, lookup_empty, <- list_elem_of_In. destruct (decide _); [by split|split; [by intros []|done]].
  - intros x Hx. apply list_elem_of_In in Hx. rewrite !seed_lookup, !lookup_empty, !decide_True by done. by split.
Qed.

(** A pairs generator rebuilt from its snapshot continues as the one that wrote
    it.  After any bars whose closes carry their own text, with legs that do not
    contain the separator of the snapshot's keys, loading the snapshot into a fresh
    generator of the same configuration succeeds, and from then on every bar yields
    the same signals and leaves the same leg positions and spread states. *)
Theorem pairs_restart_resumes (cfg : PairsConfig) (g0 : PairsGenerator) (past future : list (float64 * Bar * string)) (equity : float64)
    (Hnew : NewPairs cfg = Ok g0) (Hpipe : forall p, In p (pc_Pairs cfg) -> pipeFree (LongLeg p)) (Hpast : Forall textOk past) :
  let g := (runPairs past g0).1 in
  exists g', Pairs_LoadState (Pairs_StateDict equity g) g0 = (g', Ok tt) /\
    (runPairs future g').2 = (runPairs future g).2 /\
    (forall sym, legPos (runPairs future g').1 sym = legPos (runPairs future g).1 sym) /\
    (forall p, stateOf (runPairs future g').1 p = stateOf (runPairs future g).1 p).
Proof.
  intros g. destruct (NewPairs_persist cfg g0 Hnew) as (Hc & Hlb & Hp0).
  destruct (runPairs_persist past g0) as [Hp Hcg]; [by rewrite Hc|done|done|]. fold g in Hp, Hcg.
  destruct (Pairs_load_dump equity g g0 Hp) as (g' & E & Hs); [congruence|by rewrite Hcg, Hc|].
  exists g'. split; [done|]. destruct (runPairs_same future g' g Hs) as [E2 S2]. split; [done|].
  unfold sameTrading in S2. unfold legPos, stateOf. apply (f_equal (fun g => (pg_legPosition g, pg_pairState g))) in S2. cbn in S2. injection S2 as -> ->. done.
Qed.

Definition demoPair : list Pair := [mkPair "KO" "PEP"].
Definition demoGen (ps : list Pair) : PairsGenerator :=
  match NewPairs (demoPairsCfg ps) with Ok g => g | Err _ => mkPairsGenerator (demoPairsCfg ps) ∅ ∅ ∅ ∅ ∅ ∅ ∅ ∅ 0 end.
Definition demoOps (n : nat) : list (float64 * Bar * string) :=
  map (fun b => (zToFloat 100000, b, pyDecimalStr (bar_Close b))) (demoCloses demoSpread n).

Lemma account_follows_pairs_witness :
  exists g book, paperRun (pairsAdapterOnBar "Pairs-002") demoEquity (demoCloses demoSpread 6) (demoGen demoPair) ∅ = (book, Ok g) /\
    (forall sym, netOf book sym = legPos g sym) /\ legPos g "KO" = -193 /\ legPos g "PEP" = 58.
Proof.
  destruct (account_follows_pairs (demoPairsCfg demoPair) (demoGen demoPair) "Pairs-002" demoEquity (demoCloses demoSpread 6)) as (g & book & E & Hn & _).
  - vm_compute. reflexivity.
  - apply (bool_decide_unpack _). vm_compute. exact I.
  - exists g, book. split; [exact E|]. split; [exact Hn|].
    assert (Hg : match (paperRun (pairsAdapterOnBar "Pairs-002") demoEquity (demoCloses demoSpread 6) (demoGen demoPair) ∅).2 with
                 | Ok g => (legPos g "KO", legPos g "PEP") = (-193, 58) | Err _ => False end) by (vm_compute; reflexivity).
    rewrite E in Hg. cbn [snd] in Hg. injection Hg as -> ->. split; reflexivity.
Defined.

Lemma pairs_restart_resumes_witness :
  exists g', Pairs_LoadState (Pairs_StateDict fzero (runPairs (demoOps 5) (demoGen demoPair)).1) (demoGen demoPair) = (g', Ok tt) /\
    (runPairs (demoOps 6) g').2 = (runPairs (demoOps 6) (runPairs (demoOps 5) (demoGen demoPair)).1).2.
Proof.
  destruct (pairs_restart_resumes (demoPairsCfg demoPair) (demoGen demoPair) (demoOps 5) (demoOps 6) fzero) as (g' & E & H & _).
  - vm_compute. reflexivity.
  - intros p [<-|[]]. vm_compute. intros Hin. repeat destruct Hin as [Hin|Hin]; [discriminate Hin..|exact Hin].
  - apply List.Forall_forall. intros op Hin. unfold demoOps in Hin. apply in_map_iff in Hin as (b & <- & Hin). cbn [fst snd].
    revert b Hin. apply List.Forall_forall. repeat constructor; vm_compute; reflexivity || discriminate.
  - exists g'. split; [exact E|exact H].
Defined.

(** A symbol of two pairs: both entries are traded, one of them is recorded. *)
Lemma shared_leg_diverges :
  let r := paperRun (pairsAdapterOnBar "Pairs-002") demoEquity
             (demoCloses (fun d => demoSpread d ++ [("MNST", 400000 + 3000 * ((d * 7) mod 5))]) 6)
             (demoGen [mkPair "KO" "PEP"; mkPair "KO" "MNST"]) ∅ in
  netOf r.1 "KO" = -386 /\ match r.2 with Ok g => legPos g "KO" = -193 | Err _ => False end.
Proof. vm_compute. split; reflexivity. Qed.

(** A close of a million dollars is printed with an exponent. *)
Lemma million_close_prints_exponent : pyDecimalStr 10000000000 = "1e+06" /\ pyDecimalStr 1000000 = "100.0".
Proof. vm_compute. split; reflexivity. Qed.
