(* ===== verification/Sector.v ===== *)
(** * Sector rotation (src/internal/strategy/sectorrotation, sectoradapter)

    The universe-wide momentum rotation: bounded close histories, the rebalance on
    the first bar of a new month, the snapshot and the projections; the adapter
    that submits its signals.  Every universe symbol has a history; before a
    rebalance it is full, so reading its ends is safe ([hasFullWarmup]).  The
    equity provider is read while a bar is handled: an operation takes the value
    it returns. *)

From Stdlib Require Import SpecFloat Sorted.
From stdpp Require Import gmap strings list sorting.
From S2P Require Import Prelude Lists Fixed Money Domain Float64 FloatInt Calendar Engine LiveSession Targets.
Set Default Goal Selector "!".
#[local] Open Scope string_scope.
#[local] Open Scope Z_scope.
#[local] Open Scope list_scope.
#[local] Abbreviation length := List.length.

(** ** signal.go: configuration *)

Definition DefaultUniverse : list string := ["XLK"; "XLF"; "XLE"; "XLV"; "XLY"; "XLP"; "XLU"; "XLB"; "XLI"; "XLRE"; "XLC"].

(** [se_hasEquity] tells a provider from nil. *)
Record SectorConfig : Set := mkSectorConfig {
  se_hasEquity : bool;
  se_Universe : list string;
  se_MomentumLookback : Z;
  se_TopK : Z;
  se_Timezone : string
}.

Definition ErrSectorConfig : error := ErrOther "sector rotation config".

Definition SectorConfig_Validate (c : SectorConfig) : res unit :=
  let bad (b : bool) := if b then Err ErrSectorConfig else Ok tt in
  _ <-? bad (negb (se_hasEquity c)) ;;
  _ <-? bad (bool_decide (se_Universe c = [])) ;;
  _ <-? bad (se_MomentumLookback c <? 2) ;;
  bad (negb ((1 <=? se_TopK c) && (se_TopK c <=? Z.of_nat (length (se_Universe c))))).

(** ** internal.go *)

Record priceDeque : Set := mkPriceDeque { dq_buf : list Price; dq_maxlen : Z }.
Definition newPriceDeque (maxlen : Z) : priceDeque := mkPriceDeque [] maxlen.

Definition dq_push (p : Price) (d : priceDeque) : priceDeque :=
  if dq_maxlen d =? 0 then d
  else if Z.of_nat (length (dq_buf d)) =? dq_maxlen d then mkPriceDeque (List.tl (dq_buf d) ++ [p]) (dq_maxlen d)
  else mkPriceDeque (dq_buf d ++ [p]) (dq_maxlen d).

Definition dq_len (d : priceDeque) : Z := Z.of_nat (length (dq_buf d)).
(** For a deque that is not empty. *)
Definition dq_front (d : priceDeque) : Price := nth 0 (dq_buf d) 0.
Definition dq_back (d : priceDeque) : Price := nth (length (dq_buf d) - 1) (dq_buf d) 0.

Definition ratioReturn (old new : Price) : float64 := fdiv (zToFloat (wrap64 (new - old))) (zToFloat old).

Definition formatSignedPct2 (x : float64) : string := string_of_list_ascii (fmtFixed true 2 x).

Definition sectorDateOf (ts : time) : Date := DateOf UTCLocation ts.

(** ** pyfloat.go *)

(** The exponent of [formatG] has its sign and two digits already. *)
Definition sectorFloatRepr (f : float64) : string :=
  match f with
  | S754_infinity false => "inf"
  | S754_infinity true => "-inf"
  | S754_nan => "nan"
  | _ =>
      let s := formatG f in
      string_of_list_ascii
        (if existsb (fun c => Ascii.eqb c "e"%char || Ascii.eqb c "E"%char) s then s
         else if existsb (Ascii.eqb "."%char) s then s else s ++ ["."; "0"]%char)
  end.

(** ** signal.go: the generator *)

Record SectorGenerator : Set := mkSectorGenerator {
  sg_cfg : SectorConfig;
  sg_history : gmap string priceDeque;
  sg_lastClose : gmap string Price;
  sg_lastUniverseDate : option Date;
  sg_currentPositions : gmap string Z;
  sg_intentGeneration : Z
}.

Definition NewSector (cfg : SectorConfig) : res SectorGenerator :=
  _ <-? SectorConfig_Validate cfg ;;
  Ok (mkSectorGenerator cfg
        (fold_left (fun m sym => <[sym := newPriceDeque (se_MomentumLookback cfg + 1)]> m) (se_Universe cfg) ∅) ∅ None
        (fold_left (fun m sym => <[sym := 0]> m) (se_Universe cfg) ∅) 0).

Definition dequeOf (g : SectorGenerator) (sym : string) : priceDeque :=
  default (newPriceDeque (se_MomentumLookback (sg_cfg g) + 1)) (sg_history g !! sym).
Definition heldQty (g : SectorGenerator) (sym : string) : Z := default 0 (sg_currentPositions g !! sym).

Definition hasFullWarmup (g : SectorGenerator) : bool :=
  forallb (fun sym => se_MomentumLookback (sg_cfg g) + 1 <=? dq_len (dequeOf g sym)) (se_Universe (sg_cfg g)).

(** Symbols with a positive old close, and their return over the lookback. *)
Definition eligibleOf (g : SectorGenerator) : list string :=
  List.filter (fun sym => negb (dq_front (dequeOf g sym) <=? 0)) (se_Universe (sg_cfg g)).
Definition returnOf (g : SectorGenerator) (sym : string) : float64 := ratioReturn (dq_front (dequeOf g sym)) (dq_back (dequeOf g sym)).

Definition byReturn (ret : string -> float64) (a b : string) : bool := fgtb (ret a) (ret b).

(** The first [min(TopK, len)] of the stable ranking. *)
Definition newTopK (g : SectorGenerator) : list string :=
  let ranked := sliceStable (byReturn (returnOf g)) (eligibleOf g) in
  firstn (Z.to_nat (Z.min (se_TopK (sg_cfg g)) (Z.of_nat (length ranked)))) ranked.

Definition currentlyHeld (g : SectorGenerator) : gset string := dom (base.filter (fun kv => 0 < kv.2) (sg_currentPositions g)).

Definition itoaS (n : Z) : string := string_of_list_ascii (formatInt n).

Definition flatReason (topK : Z) (sym : string) (qty : Z) : string :=
  ("Sector Rotation rebalance :: closing " ++ sym ++ " (was " ++ itoaS qty ++ " sh, no longer in top-" ++ itoaS topK ++ ")")%string.

Fixpoint flatLoop (ts : time) (topK : Z) (syms : list string) (pos : gmap string Z) : gmap string Z * list DomainSignal :=
  match syms with
  | [] => (pos, [])
  | sym :: syms =>
      let reason := flatReason topK sym (default 0 (pos !! sym)) in
      let '(pos, sigs) := flatLoop ts topK syms (<[sym := 0]> pos) in
      (pos, NewSignal sym ts SideFlat 0 reason :: sigs)
  end.

Definition sharesFor (targetValue : float64) (g : SectorGenerator) (sym : string) : Z :=
  let price := match sg_lastClose g !! sym with Some p => Price_Float64 p | None => Price_Float64 0 end in
  if fleb price fzero then 0 else intOfFloat (ffloor (fdiv targetValue price)).

Definition entryReason (g : SectorGenerator) (sym : string) : string :=
  let momPct := fmul (returnOf g sym) (zToFloat 100) in
  ("Sector Rotation rebalance :: top-" ++ itoaS (se_TopK (sg_cfg g)) ++ " entry, " ++ itoaS (se_MomentumLookback (sg_cfg g)) ++
   "-bar return " ++ formatSignedPct2 momPct ++ "%")%string.

Fixpoint longLoop (ts : time) (targetValue : float64) (g : SectorGenerator) (syms : list string) (pos : gmap string Z) :
    gmap string Z * list DomainSignal :=
  match syms with
  | [] => (pos, [])
  | sym :: syms =>
      let targetShares := sharesFor targetValue g sym in
      if targetShares <=? 0 then longLoop ts targetValue g syms pos
      else
        let '(pos, sigs) := longLoop ts targetValue g syms (<[sym := targetShares]> pos) in
        (pos, NewSignal sym ts SideLong targetShares (entryReason g sym) :: sigs)
  end.

Definition with_positions (pos : gmap string Z) (g : SectorGenerator) : SectorGenerator :=
  mkSectorGenerator (sg_cfg g) (sg_history g) (sg_lastClose g) (sg_lastUniverseDate g) pos (sg_intentGeneration g).

Definition computeRebalanceSignals (equity : float64) (ts : time) (g : SectorGenerator) : SectorGenerator * list DomainSignal :=
  if bool_decide (eligibleOf g = []) then (g, [])
  else
    let top : gset string := list_to_set (newTopK g) in
    let held := currentlyHeld g in
    let toFlat := merge_sort String.le (elements (held ∖ top)) in
    let '(pos, flats) := flatLoop ts (se_TopK (sg_cfg g)) toFlat (sg_currentPositions g) in
    let targetValue := fdiv equity (zToFloat (se_TopK (sg_cfg g))) in
    let toLong := merge_sort String.le (elements (top ∖ held)) in
    let '(pos, longs) := longLoop ts targetValue g toLong pos in
    (with_positions pos g, flats ++ longs).

Definition ingestBar (bar : Bar) (g : SectorGenerator) : SectorGenerator :=
  let sym := bar_Symbol bar in
  mkSectorGenerator (sg_cfg g) (<[sym := dq_push (bar_Close bar) (dequeOf g sym)]> (sg_history g)) (<[sym := bar_Close bar]> (sg_lastClose g))
    (Some (sectorDateOf (bar_TS bar))) (sg_currentPositions g) (sg_intentGeneration g).

Definition newMonth (g : SectorGenerator) (bar : Bar) : bool :=
  match sg_lastUniverseDate g with
  | Some d => negb (d_Month (sectorDateOf (bar_TS bar)) =? d_Month d)
  | None => false
  end.

Definition Sector_OnBar (equity : float64) (bar : Bar) (g : SectorGenerator) : SectorGenerator * list DomainSignal :=
  if negb (bool_decide (bar_Symbol bar ∈ se_Universe (sg_cfg g))) then (g, [])
  else
    let '(g, sigs) := if newMonth g bar && hasFullWarmup g then computeRebalanceSignals equity (bar_TS bar) g else (g, []) in
    (ingestBar bar g, sigs).

(** ** state.go *)

Record SectorSummary : Set := mkSectorSummary {
  sy_CurrentHoldings : gmap string Z;
  sy_LastUniverseDate : option string;
  sy_TopK : Z;
  sy_UniverseSize : Z
}.

Definition dateISO (d : Date) : string := string_of_list_ascii (DateString d).

Definition Sector_StateSummary (g : SectorGenerator) : SectorSummary :=
  mkSectorSummary
    (fold_left (fun m sym => if 0 <? heldQty g sym then <[sym := heldQty g sym]> m else m) (se_Universe (sg_cfg g)) ∅)
    (option_map dateISO (sg_lastUniverseDate g)) (se_TopK (sg_cfg g)) (Z.of_nat (length (se_Universe (sg_cfg g)))).

Record SectorStateConfig : Set := mkSectorStateConfig {
  sk_Universe : list string;
  sk_MomentumLookback : Z;
  sk_TopK : Z;
  sk_EquityAtSnapshot : float64;
  sk_Timezone : string
}.

Record SectorStateDict : Set := mkSectorStateDict {
  sd_SectorConfig : SectorStateConfig;
  sd_History : gmap string (list string);
  sd_LastClose : gmap string string;
  sd_LastUniverseDate : option string;
  sd_CurrentPositions : gmap string Z
}.

Definition closeText (p : Price) : string := sectorFloatRepr (Price_Float64 p).

Definition Sector_StateDict (equity : float64) (g : SectorGenerator) : SectorStateDict :=
  let c := sg_cfg g in
  mkSectorStateDict (mkSectorStateConfig (se_Universe c) (se_MomentumLookback c) (se_TopK c) equity (se_Timezone c))
    ((fun d => map closeText (dq_buf d)) <$> sg_history g) (closeText <$> sg_lastClose g)
    (option_map dateISO (sg_lastUniverseDate g)) (sg_currentPositions g).

Fixpoint loadDeque (strs : list string) (d : priceDeque) : res priceDeque :=
  match strs with
  | [] => Ok d
  | s :: strs => p <-? ParsePrice s ;; loadDeque strs (dq_push p d)
  end.

(** A map rebuilt entry by entry, or the first error. *)
Fixpoint parseAll {A B} (f : A -> res B) (l : list (string * A)) (acc : gmap string B) : res (gmap string B) :=
  match l with
  | [] => Ok acc
  | (k, a) :: l => b <-? f a ;; parseAll f l (<[k := b]> acc)
  end.

Definition seedAbsent {A} (v : A) (syms : list string) (m : gmap string A) : gmap string A :=
  fold_left (fun m sym => match m !! sym with Some _ => m | None => <[sym := v]> m end) syms m.

Definition Sector_LoadState (d : SectorStateDict) : eff SectorGenerator unit := fun g =>
  let c := sg_cfg g in
  let maxlen := se_MomentumLookback c + 1 in
  match parseAll (fun strs => loadDeque strs (newPriceDeque maxlen)) (map_to_list (sd_History d)) ∅ with
  | Err e => (g, Err e)
  | Ok newHistory =>
  let history := seedAbsent (newPriceDeque maxlen) (se_Universe c) newHistory in
  match parseAll ParsePrice (map_to_list (sd_LastClose d)) ∅ with
  | Err e => (mkSectorGenerator c history (sg_lastClose g) (sg_lastUniverseDate g) (sg_currentPositions g) (sg_intentGeneration g), Err e)
  | Ok newLastClose =>
  let date := match sd_LastUniverseDate d with
              | Some s => if String.eqb s "" then Ok None else t <-? ParseDate (list_ascii_of_string s) ;; Ok (Some t)
              | None => Ok None
              end in
  match date with
  | Err e => (mkSectorGenerator c history newLastClose (sg_lastUniverseDate g) (sg_currentPositions g) (sg_intentGeneration g), Err e)
  | Ok date =>
  (mkSectorGenerator c history newLastClose date (seedAbsent 0 (se_Universe c) (sd_CurrentPositions d)) (sg_intentGeneration g), Ok tt)
  end end end.

(** ** intent.go *)

Definition warmupSignal (asOf : time) (generation : Z) (sym : string) : SectorRotationSignal :=
  mkSectorSignal (mkCore sym "no_setup" fzero None asOf generation StrategyIDSectorRotation) fzero 0 fzero fzero.

Definition signalReturn (g : SectorGenerator) (sym : string) : float64 :=
  if dq_front (dequeOf g sym) <=? 0 then fzero else returnOf g sym.

Definition currentWeight (equity : float64) (g : SectorGenerator) (sym : string) : float64 :=
  let last := match sg_lastClose g !! sym with Some p => Price_Float64 p | None => fzero end in
  if fgtb equity fzero then fdiv (fmul (zToFloat (heldQty g sym)) last) equity else fzero.

(** The 1-based rank of a symbol; the last position counts when it is repeated. *)
Definition rankIn (ranked : list string) (sym : string) : Z :=
  fold_left (fun r '(i, s) => if String.eqb s sym then Z.of_nat i + 1 else r) (combine (seq 0 (length ranked)) ranked) 0.

Definition sectorUIState (inTop held : bool) (rank topK : Z) : SignalState :=
  if inTop && held then "hold" else if inTop && negb held then "buy" else if negb inTop && held then "exit"
  else if rank <=? topK + 2 then "forming" else "no_setup".

Definition sectorSignal (equity : float64) (asOf : time) (generation : Z) (g : SectorGenerator) (ranked : list string) (sym : string) :
    SectorRotationSignal :=
  let topK := se_TopK (sg_cfg g) in
  let n := Z.of_nat (length (se_Universe (sg_cfg g))) in
  let rank := rankIn ranked sym in
  let inTop := bool_decide (sym ∈ firstn (Z.to_nat topK) ranked) in
  let proximity := fmul (fdiv (zToFloat (topK - rank)) (zToFloat (Z.max n 1))) (zToFloat 100) in
  mkSectorSignal
    (mkCore sym (sectorUIState inTop (0 <? heldQty g sym) rank topK) (StrengthFromRank rank n) (Some proximity) asOf generation StrategyIDSectorRotation)
    (signalReturn g sym) rank (if inTop then fdiv (zToFloat 1) (zToFloat topK) else fzero) (currentWeight equity g sym).

Definition Sector_EvaluateSignal (equity : float64) (asOf : time) (g : SectorGenerator) : SectorGenerator * list SectorRotationSignal :=
  let n := wrap64 (sg_intentGeneration g + 1) in
  let g := mkSectorGenerator (sg_cfg g) (sg_history g) (sg_lastClose g) (sg_lastUniverseDate g) (sg_currentPositions g) n in
  if negb (hasFullWarmup g) then (g, map (warmupSignal asOf n) (se_Universe (sg_cfg g)))
  else
    let ranked := sliceStable (byReturn (signalReturn g)) (se_Universe (sg_cfg g)) in
    (g, map (sectorSignal equity asOf n g ranked) (se_Universe (sg_cfg g))).

(** ** sectoradapter/adapter.go *)

(** The body of the loop of [OnBar]. *)
Definition sectorSubmit {St} (id : string) : signalStep St := fun s k =>
  let next {A} (r : res A) := k (match r with Err e => Some e | Ok _ => None end) in
  if String.eqb (dg_Side s) SideLong then
    if dg_TargetQty s <=? 0 then k None
    else
      SSubmitSignal id (dg_Symbol s) SideLong OrderSideBuy (dg_TargetQty s)
        ("[SectorRot] LONG " ++ itoaS (dg_TargetQty s) ++ " " ++ dg_Symbol s ++ " :: " ++ dg_Reason s)%string (dg_TS s) next
  else if String.eqb (dg_Side s) SideFlat then
    CloseToFlat id (dg_Symbol s) (dg_TS s)
      (fun net => ("[SectorRot] FLAT (close " ++ itoaS net ++ ") " ++ dg_Symbol s ++ " :: " ++ dg_Reason s)%string) next
  else k None.

Definition sectorAdapterOnBar (id : string) (g : SectorGenerator) (bar : Bar) : SProg SectorGenerator :=
  SEquityFloat (fun equity => let '(g', sigs) := Sector_OnBar equity bar g in submitLoop (sectorSubmit id) g' sigs).

Definition sectorWarmupBatch (equity : float64) (bars : list Bar) (g : SectorGenerator) : SectorGenerator :=
  fold_left (fun g bar => (Sector_OnBar equity bar g).1) bars g.

Definition sectorStrategy (id : string) (warmEquity : float64) (cfg : SectorConfig) : Strategy SectorGenerator :=
  mkStrategy id (sectorAdapterOnBar id) None (Some (se_Universe cfg)) None (Some (sectorWarmupBatch warmEquity)).

Definition NewSectorAdapter (id : string) (warmEquity : float64) (g : SectorGenerator) : res (Strategy SectorGenerator) :=
  if String.eqb id "" then Err ErrInvalidArgument else Ok (sectorStrategy id warmEquity (sg_cfg g)).

(** ** The holdings *)

Abbreviation qtyOf m := (fun x : string => default 0 (m !! x)).

Record sectorOk (g : SectorGenerator) : Prop := {
  so_long : forall sym, 0 <= heldQty g sym <= max_int64;
  so_universe : forall sym, sym ∉ se_Universe (sg_cfg g) -> heldQty g sym = 0;
  so_topK : 1 <= se_TopK (sg_cfg g);
  so_count : Z.of_nat (size (currentlyHeld g)) <= se_TopK (sg_cfg g)
}.

Lemma currentlyHeld_iff g sym : sym ∈ currentlyHeld g <-> 0 < heldQty g sym.
Proof.
  unfold currentlyHeld, heldQty. rewrite elem_of_dom. split.
  - intros [q [E Hq]%map_lookup_filter_Some]. by rewrite E.
  - destruct (sg_currentPositions g !! sym) as [q|] eqn:E; cbn; [|lia]. intros Hq. exists q. by apply map_lookup_filter_Some.
Qed.

Lemma setTarget_insert (m : gmap string Z) (s : DomainSignal) x : qtyOf (<[dg_Symbol s := targetOf s]> m) x = setTarget (qtyOf m) s x.
Proof. unfold setTarget. destruct (decide (x = dg_Symbol s)) as [->|Hne]; [by rewrite lookup_insert_eq|by rewrite lookup_insert_ne]. Qed.

Lemma flatLoop_spec ts k syms : forall pos pos' sigs, flatLoop ts k syms pos = (pos', sigs) ->
  (forall x, Z.abs (qtyOf pos x) <= max_int64) ->
  Forall (fun s => dg_Side s = SideFlat) sigs /\ allFresh (qtyOf pos) sigs /\ (forall x, qtyOf pos' x = replay sigs (qtyOf pos) x) /\
  (forall x, qtyOf pos' x = if decide (x ∈ syms) then 0 else qtyOf pos x).
Proof.
  induction syms as [|sym syms IH]; intros pos pos' sigs; cbn [flatLoop]; [intros [= <- <-] _; splits; by try constructor|].
  cbv zeta. generalize (flatReason k sym (default 0 (pos !! sym))). intros reason. destruct (flatLoop ts k syms (<[sym := 0]> pos)) as [pos1 sigs1] eqn:E1. intros [= <- <-] Hb.
  assert (Hset : forall x, qtyOf (<[sym := 0]> pos) x = setTarget (qtyOf pos) (NewSignal sym ts SideFlat 0 reason) x).
  { intros x. apply (setTarget_insert pos (NewSignal sym ts SideFlat 0 reason)). }
  destruct (IH _ _ _ E1) as (S1 & F & R & P).
  { intros x. rewrite Hset. unfold setTarget. case_decide; [cbn; rlia|apply Hb]. }
  cbn [allFresh replay fold_left]. splits.
  - by constructor.
  - right. split; [done|]. apply Hb.
  - eapply allFresh_ext; [|exact F]. exact Hset.
  - intros x. rewrite R. apply replay_ext, Hset.
  - intros x. rewrite P. destruct (decide (x ∈ syms)) as [Hx|Hx], (decide (x ∈ sym :: syms)) as [Hy|Hy]; try done.
    + exfalso. apply Hy. by right.
    + apply elem_of_cons in Hy as [->|Hy]; [by rewrite lookup_insert_eq|done].
    + rewrite lookup_insert_ne; [done|]. intros ->. apply Hy. by left.
Qed.

Lemma sharesFor_range tv g sym : sharesFor tv g sym <= max_int64.
Proof. unfold sharesFor. cbv zeta. destruct (fleb _ _); [rlia|]. apply intOfFloat_range. Qed.

Lemma longLoop_spec ts tv g syms : forall pos pos' sigs, longLoop ts tv g syms pos = (pos', sigs) ->
  base.NoDup syms -> (forall x, x ∈ syms -> qtyOf pos x = 0) ->
  Forall (fun s => dg_Side s = SideLong) sigs /\ allFresh (qtyOf pos) sigs /\ (forall x, qtyOf pos' x = replay sigs (qtyOf pos) x) /\
  (forall x, qtyOf pos' x = if decide (x ∈ syms) then Z.max 0 (sharesFor tv g x) else qtyOf pos x).
Proof.
  induction syms as [|sym syms IH]; intros pos pos' sigs; cbn [longLoop]; [intros [= <- <-] _ _; splits; by try constructor|].
  intros E [Hn Hd]%list.NoDup_cons Hz. pose proof (Hz sym (list_elem_of_here _ _)) as Hz0.
  destruct (Z.leb_spec (sharesFor tv g sym) 0) as [Hs|Hs].
  - destruct (IH _ _ _ E Hd) as (S1 & F & R & P). { intros x Hx. apply Hz. by right. }
    splits; [done|done|done|]. intros x. rewrite P. destruct (decide (x ∈ syms)) as [Hx|Hx], (decide (x ∈ sym :: syms)) as [Hy|Hy]; try done.
    + exfalso. apply Hy. by right.
    + apply elem_of_cons in Hy as [->|Hy]; [lia|done].
  - revert E. generalize (entryReason g sym). intros reason E.
    destruct (longLoop ts tv g syms (<[sym := sharesFor tv g sym]> pos)) as [pos1 sigs1] eqn:E1. injection E as <- <-.
    assert (Hset : forall x, qtyOf (<[sym := sharesFor tv g sym]> pos) x = setTarget (qtyOf pos) (NewSignal sym ts SideLong (sharesFor tv g sym) reason) x).
    { intros x. apply (setTarget_insert pos (NewSignal sym ts SideLong (sharesFor tv g sym) reason)). }
    destruct (IH _ _ _ E1 Hd) as (S1 & F & R & P).
    { intros x Hx. rewrite lookup_insert_ne by (intros ->; done). apply Hz. by right. }
    cbn [allFresh replay fold_left]. splits.
    + by constructor.
    + left. split; [|exact Hz0]. split; [by left|]. cbn. pose proof (sharesFor_range tv g sym). lia.
    + eapply allFresh_ext; [|exact F]. exact Hset.
    + intros x. rewrite R. apply replay_ext, Hset.
    + intros x. rewrite P. destruct (decide (x ∈ syms)) as [Hx|Hx], (decide (x ∈ sym :: syms)) as [Hy|Hy]; try done.
      * exfalso. apply Hy. by right.
      * apply elem_of_cons in Hy as [->|Hy]; [rewrite lookup_insert_eq; cbn; lia|done].
      * rewrite lookup_insert_ne; [done|]. intros ->. apply Hy. by left.
Qed.

(** The holdings a rebalance aims at. *)
Definition rebalanced (equity : float64) (g : SectorGenerator) (sym : string) : Z :=
  if decide (sym ∈ newTopK g) then
    if 0 <? heldQty g sym then heldQty g sym else Z.max 0 (sharesFor (fdiv equity (zToFloat (se_TopK (sg_cfg g)))) g sym)
  else 0.

Definition longOrFlat (s : DomainSignal) : Prop := dg_Side s = SideLong \/ dg_Side s = SideFlat.

Lemma rebalance_spec equity ts g : sectorOk g -> eligibleOf g <> [] ->
  let r := computeRebalanceSignals equity ts g in
  Forall longOrFlat r.2 /\ allFresh (heldQty g) r.2 /\ (forall x, heldQty r.1 x = replay r.2 (heldQty g) x) /\
  (forall x, heldQty r.1 x = rebalanced equity g x) /\ exists pos, r.1 = with_positions pos g.
Proof.
  intros [Hl Hu Hk Hc] He. unfold computeRebalanceSignals. rewrite bool_decide_eq_false_2 by done. cbv zeta.
  set (top := list_to_set (newTopK g) : gset string). set (held := currentlyHeld g). set (tv := fdiv equity _).
  destruct (flatLoop _ _ _ _) as [pos1 flats] eqn:E1. destruct (longLoop _ _ _ _ _) as [pos2 longs] eqn:E2. cbn [fst snd].
  apply flatLoop_spec in E1 as (S1 & F1 & R1 & P1). 2: { intros x. pose proof (Hl x) as H. unfold heldQty in H. lia. }
  assert (Hflat : forall x, x ∈ merge_sort String.le (elements (held ∖ top)) <-> 0 < heldQty g x /\ x ∉ newTopK g).
  { intros x. rewrite merge_sort_Permutation, elem_of_elements, elem_of_difference. unfold held, top. by rewrite currentlyHeld_iff, elem_of_list_to_set. }
  assert (Hlong : forall x, x ∈ merge_sort String.le (elements (top ∖ held)) <-> x ∈ newTopK g /\ ~ 0 < heldQty g x).
  { intros x. rewrite merge_sort_Permutation, elem_of_elements, elem_of_difference. unfold held, top. by rewrite currentlyHeld_iff, elem_of_list_to_set. }
  apply longLoop_spec in E2 as (S2 & F2 & R2 & P2).
  2: { rewrite merge_sort_Permutation. apply NoDup_elements. }
  2: { intros x [Hx Hn]%Hlong. rewrite P1. rewrite decide_False by (by intros [_ ?]%Hflat). pose proof (Hl x). unfold heldQty in *. lia. }
  splits.
  - apply Forall_app. split; [eapply List.Forall_impl; [|exact S1]; by right|eapply List.Forall_impl; [|exact S2]; by left].
  - apply allFresh_app. split; [exact F1|]. eapply allFresh_ext; [|exact F2]. exact R1.
  - intros x. unfold heldQty. cbn [with_positions sg_currentPositions]. rewrite R2, replay_app. apply replay_ext. exact R1.
  - intros x. unfold heldQty at 1. cbn [with_positions sg_currentPositions]. rewrite P2, P1. fold (heldQty g x). unfold rebalanced. pose proof (Hl x) as Hlx.
    destruct (decide (x ∈ newTopK g)) as [Ht|Ht].
    + rewrite (decide_False (P := x ∈ merge_sort String.le (elements (held ∖ top)))) by (by intros [_ ?]%Hflat).
      destruct (Z.ltb_spec 0 (heldQty g x)); [rewrite decide_False by (intros [_ ?]%Hlong; lia); done|].
      rewrite decide_True; [done|]. apply Hlong. split; [done|lia].
    + rewrite (decide_False (P := x ∈ merge_sort String.le (elements (top ∖ held)))) by (by intros [? _]%Hlong).
      destruct (decide _) as [_|Hn]; [done|]. destruct (Z.lt_ge_cases 0 (heldQty g x)); [|lia]. destruct Hn. by apply Hflat.
  - by eexists.
Qed.

Lemma newTopK_eligible g x : x ∈ newTopK g -> x ∈ eligibleOf g.
Proof. intros Hx%firstn_in. by rewrite sliceStable_perm in Hx. Qed.

Lemma newTopK_length g : Z.of_nat (length (newTopK g)) = Z.max 0 (Z.min (se_TopK (sg_cfg g)) (Z.of_nat (length (eligibleOf g)))).
Proof. unfold newTopK. rewrite length_firstn, (Permutation_length (sliceStable_perm _ _)). lia. Qed.

Lemma size_list_to_set_le (l : list string) : (size (list_to_set l : gset string) <= length l)%nat.
Proof.
  induction l as [|x l IH]; [done|]. cbn [list_to_set List.length]. rewrite size_union_alt, size_singleton.
  assert ((size ((list_to_set l : gset string) ∖ {[x]}) <= size (list_to_set l : gset string))%nat) by (apply subseteq_size; set_solver). lia.
Qed.

Lemma rebalance_ok equity ts g : sectorOk g -> sectorOk (computeRebalanceSignals equity ts g).1.
Proof.
  intros Hg. destruct (decide (eligibleOf g = [])) as [He|He].
  { unfold computeRebalanceSignals. by rewrite bool_decide_eq_true_2. }
  destruct (rebalance_spec equity ts g Hg He) as (_ & _ & _ & P & pos & E). destruct Hg as [Hl Hu Hk Hc].
  destruct (computeRebalanceSignals equity ts g) as [g' sigs]. cbn [fst snd] in *. split; [| |by subst|].
  - intros sym. rewrite P. unfold rebalanced. case_decide; [|rlia]. pose proof (sharesFor_range (fdiv equity (zToFloat (se_TopK (sg_cfg g)))) g sym).
    destruct (0 <? _); [apply Hl|rlia].
  - intros sym Hs. rewrite P. unfold rebalanced. rewrite decide_False; [done|]. intros Hin%newTopK_eligible.
    apply Hs. subst g'. cbn. apply list_elem_of_In in Hin. apply filter_In in Hin as [Hin _]. by apply list_elem_of_In.
  - subst g'. cbn [sg_cfg with_positions]. transitivity (Z.of_nat (size (list_to_set (newTopK g) : gset string))).
    + apply Nat2Z.inj_le, subseteq_size. intros x Hx%currentlyHeld_iff. rewrite P in Hx. unfold rebalanced in Hx. apply elem_of_list_to_set. case_decide; [done|lia].
    + pose proof (newTopK_length g). pose proof (size_list_to_set_le (newTopK g)) as Hs. lia.
Qed.

(** ** A bar *)

Lemma sectorOk_ext g g' : sg_cfg g' = sg_cfg g -> sg_currentPositions g' = sg_currentPositions g -> sectorOk g -> sectorOk g'.
Proof.
  intros E1 E2 [H1 H2 H3 H4]. split; unfold heldQty, currentlyHeld in *; rewrite ?E1, ?E2; done.
Qed.

Definition sectorStepOk (g : SectorGenerator) (r : SectorGenerator * list DomainSignal) : Prop :=
  sectorOk r.1 /\ sg_cfg r.1 = sg_cfg g /\ Forall longOrFlat r.2 /\ allFresh (heldQty g) r.2 /\ forall x, heldQty r.1 x = replay r.2 (heldQty g) x.

Lemma rebalance_step equity ts g : sectorOk g -> sectorStepOk g (computeRebalanceSignals equity ts g).
Proof.
  intros Hg. pose proof (rebalance_ok equity ts g Hg) as Ho. destruct (decide (eligibleOf g = [])) as [He|He].
  { revert Ho. unfold computeRebalanceSignals. rewrite bool_decide_eq_true_2 by done. intros Ho. by splits. }
  destruct (rebalance_spec equity ts g Hg He) as (S & F & R & _ & pos & E). unfold sectorStepOk. splits; try done. by rewrite E.
Qed.

Lemma Sector_OnBar_step equity bar g : sectorOk g -> sectorStepOk g (Sector_OnBar equity bar g).
Proof.
  intros Hg. unfold Sector_OnBar. destruct (negb _); [by splits|].
  assert (Hs : sectorStepOk g (if newMonth g bar && hasFullWarmup g then computeRebalanceSignals equity (bar_TS bar) g else (g, []))).
  { destruct (_ && _); [by apply rebalance_step|by splits]. }
  destruct (if newMonth g bar && hasFullWarmup g then _ else _) as [g1 sigs]. destruct Hs as (H1 & H2 & H3 & H4 & H5).
  unfold sectorStepOk. cbn [fst snd] in *. splits; try done. by apply (sectorOk_ext g1).
Qed.

#[export] Instance sectorTargets : TargetGenerator SectorGenerator := {
  tg_OnBar := Sector_OnBar;
  tg_position := heldQty;
  tg_ok := sectorOk;
  tg_keeps := fun eq bar g Hg => proj1 (Sector_OnBar_step eq bar g Hg);
  tg_fresh := fun eq bar g Hg => proj1 (proj2 (proj2 (proj2 (Sector_OnBar_step eq bar g Hg))));
  tg_replays := fun eq bar g Hg => proj2 (proj2 (proj2 (proj2 (Sector_OnBar_step eq bar g Hg))))
}.

#[export] Instance sectorSubmit_follows {St} id : FollowsTargets longOrFlat (@sectorSubmit St id).
Proof.
  intros eq s k b Hs Hf. unfold sectorSubmit, setTarget, targetOf. destruct Hf as [[[Hside Hq] H0]|[Hside Hb]].
  - replace (dg_TargetQty s <=? 0) with false by lia. destruct Hs as [E|E]; [|rewrite E in Hside; by destruct Hside].
    rewrite E. cbn [String.eqb]. eexists. split; [reflexivity|]. intros sym. rewrite netOf_paperFill. destruct (decide _); [cbn; lia|done].
  - rewrite Hside. cbn [String.eqb].
    match goal with |- context [CloseToFlat id ?a ?t ?r ?f] => destruct (CloseToFlat_flattens eq id a t r f b Hb) as (b' & d & E & N) end.
    exists b'. split; [exact E|]. intros sym. by rewrite N.
Qed.

Lemma fold_insert_lookup {A} (v : A) syms : forall (m : gmap string A) x,
  fold_left (fun m sym => <[sym := v]> m) syms m !! x = if decide (x ∈ syms) then Some v else m !! x.
Proof.
  induction syms as [|s syms IH]; intros m x; cbn [fold_left]; [done|]. rewrite IH.
  destruct (decide (x ∈ syms)), (decide (x ∈ s :: syms)); [done|set_solver| |].
  - assert (x = s) as -> by set_solver. by rewrite lookup_insert_eq.
  - rewrite lookup_insert_ne; [done|set_solver].
Qed.

Lemma NewSector_ok cfg g : NewSector cfg = Ok g -> sg_cfg g = cfg /\ sectorOk g /\ forall x, heldQty g x = 0.
Proof.
  unfold NewSector, SectorConfig_Validate. destruct (negb (se_hasEquity cfg)); [done|]. cbn [res_bind]. destruct (bool_decide _); [done|]. cbn [res_bind].
  destruct (_ <? 2); [done|]. cbn [res_bind]. destruct (negb _) eqn:Hk; [done|]. cbn [res_bind]. breflect. intros [= <-].
  assert (Hz : forall x, default 0 (fold_left (fun m sym => <[sym := 0]> m) (se_Universe cfg) (∅ : gmap string Z) !! x) = 0).
  { intros x. rewrite fold_insert_lookup, lookup_empty. by case_decide. }
  splits; [done| |exact Hz]. split; cbn [sg_cfg]; [intros x; unfold heldQty; cbn; rewrite Hz; rlia|intros x _; apply Hz|lia|].
  match goal with |- context [currentlyHeld ?g] => assert (E : currentlyHeld g = ∅) end.
  { apply set_eq. intros x. rewrite currentlyHeld_iff. unfold heldQty. cbn. rewrite Hz, elem_of_empty. lia. }
  rewrite E, size_empty. lia.
Qed.

(** The account follows the sector rotation.  Over any sequence of bars and
    whatever equity the provider returns, no bar fails, and the orders the adapter
    submits, when they fill in full, leave in every symbol exactly the shares the
    generator records: never short, never outside the universe, and in at most
    top-K names at a time. *)
Theorem account_follows_rotation (cfg : SectorConfig) (g0 : SectorGenerator) (id : string) (equity : PaperBook -> float64) (bars : list Bar)
    (Hnew : NewSector cfg = Ok g0) :
  exists g book, paperRun (sectorAdapterOnBar id) equity bars g0 ∅ = (book, Ok g) /\
    (forall sym, netOf book sym = heldQty g sym /\ 0 <= netOf book sym) /\
    (forall sym, sym ∉ se_Universe cfg -> netOf book sym = 0) /\
    exists names : list string, Z.of_nat (length names) <= se_TopK cfg /\ forall sym, 0 < netOf book sym <-> sym ∈ names.
Proof.
  destruct (NewSector_ok cfg g0 Hnew) as (Hc & Hb & H0).
  destruct (paperRun_follows (TG := sectorTargets) longOrFlat (sectorSubmit id) ltac:(intros eq bar g Hg; apply (Sector_OnBar_step eq bar g Hg))
    (fun g => sg_cfg g = cfg) ltac:(intros eq bar g Hg <-; apply (Sector_OnBar_step eq bar g Hg)) equity bars g0 ∅ Hb Hc)
    as (g & book & E & Hg & Hcg & Hn).
  { intros sym. symmetry. apply H0. }
  change (@tg_position _ sectorTargets) with heldQty in Hn. destruct Hg as [Hl Hu _ Hk]. rewrite Hcg in *. exists g, book. splits; [done| | |].
  - intros sym. rewrite Hn. split; [done|apply Hl].
  - intros sym Hs. rewrite Hn. by apply Hu.
  - exists (elements (currentlyHeld g)). split; [exact Hk|]. intros sym. by rewrite Hn, elem_of_elements, currentlyHeld_iff.
Qed.

(** ** The ranking *)

(** Every stored close is an int64. *)
Definition closesFit (g : SectorGenerator) : Prop := forall sym p, In p (dq_buf (dequeOf g sym)) -> in64 p.

Lemma returnOf_number g sym : closesFit g -> sym ∈ eligibleOf g -> isNaN (returnOf g sym) = false.
Proof.
  intros Hf Hin%list_elem_of_In. apply filter_In in Hin as [_ Hp]. apply negb_true_iff, Z.leb_gt in Hp.
  unfold returnOf, ratioReturn. assert (H64 : in64 (dq_front (dequeOf g sym))).
  { unfold dq_front in *. specialize (Hf sym). destruct (dq_buf (dequeOf g sym)) as [|p l]; [cbn in Hp; lia|]. apply Hf. by left. }
  destruct (dq_front (dequeOf g sym)) as [|p|p]; [lia| |lia]. apply fdiv_not_nan; [apply zToFloat_not_nan|rlia].
Qed.

(** Ranking by numbers, the largest first, is a strict weak order. *)
Lemma byReturn_asym f a b : isNaN (f a) = false -> isNaN (f b) = false -> byReturn f a b = true -> byReturn f b a = false.
Proof.
  intros Ha Hb. unfold byReturn, fgtb. intros H%fltb_key; [|done..]. destruct (fltb _ _) eqn:E; [|done]. apply fltb_key in E; [|done..].
  destruct (klt_irrefl (fkey (f a))). by eapply klt_trans.
Qed.

Lemma byReturn_trans f a b c : isNaN (f a) = false -> isNaN (f b) = false -> isNaN (f c) = false ->
  byReturn f a b = false -> byReturn f b c = false -> byReturn f a c = false.
Proof.
  intros Ha Hb Hc. unfold byReturn, fgtb. intros H1 H2. destruct (fltb (f c) (f a)) eqn:E; [|done]. apply fltb_key in E; [|done..].
  assert (N1 : ~ klt (fkey (f b)) (fkey (f a))) by (rewrite <- fltb_key by done; congruence).
  assert (N2 : ~ klt (fkey (f c)) (fkey (f b))) by (rewrite <- fltb_key by done; congruence).
  by destruct (klt_not _ _ _ N1 N2).
Qed.

Lemma newTopK_ranked g : closesFit g -> base.NoDup (se_Universe (sg_cfg g)) -> forall s e, s ∈ newTopK g -> e ∈ eligibleOf g -> e ∉ newTopK g ->
  rankedBefore (byReturn (returnOf g)) (indexOf (se_Universe (sg_cfg g))) s e.
Proof.
  intros Hf Hd s e Hs He Hn. unfold newTopK in *. set (ranked := sliceStable _ _) in *. set (n := Z.to_nat _) in *.
  assert (Hsorted : StronglySorted (rankedBefore (byReturn (returnOf g)) (indexOf (se_Universe (sg_cfg g)))) ranked).
  { apply (sliceStable_sorted _ _ (fun x => isNaN (returnOf g x) = false)).
    - apply byReturn_asym.
    - apply byReturn_trans.
    - apply List.Forall_forall. intros x Hx%list_elem_of_In. by apply returnOf_number.
    - apply StronglySorted_filter. by apply indexOf_sorted. }
  assert (Hin : e ∈ ranked) by (unfold ranked; by rewrite sliceStable_perm). rewrite <- (firstn_skipn n ranked) in Hin.
  apply elem_of_app in Hin as [?|Hin]; [done|]. by apply (sorted_cut _ n ranked Hsorted).
Qed.

Lemma NoDup_filter_list {A} (P : A -> bool) l : base.NoDup l -> base.NoDup (List.filter P l).
Proof. intros H. rewrite <- (map_id (List.filter P l)). apply NoDup_map_filter. by rewrite map_id. Qed.

(** C23: On the first bar of a new month, once every history is full, the rotation
    holds the strongest names.  There are top names, as many as top-K or as there
    are names with a positive old close, such that no other name has a higher
    return over the lookback, a tie going to the name listed first; the returns are
    those of the bars before this one.  After the bar the generator holds of a top
    name the shares it held already, or else an equal share of the equity in whole
    shares at the last close, and nothing of any other name; the signals it emits
    replay to these holdings. *)
Theorem rebalance_holds_strongest (g : SectorGenerator) (equity : float64) (bar : Bar)
    (Hg : sectorOk g) (Hf : closesFit g) (Hd : base.NoDup (se_Universe (sg_cfg g))) (Hu : bar_Symbol bar ∈ se_Universe (sg_cfg g))
    (Hm : newMonth g bar = true) (Hw : hasFullWarmup g = true) (He : eligibleOf g <> []) :
  let r := Sector_OnBar equity bar g in
  exists top : list string,
    base.NoDup top /\ (forall s, s ∈ top -> s ∈ eligibleOf g) /\
    Z.of_nat (length top) = Z.min (se_TopK (sg_cfg g)) (Z.of_nat (length (eligibleOf g))) /\
    (forall s e, s ∈ top -> e ∈ eligibleOf g -> e ∉ top ->
       fgtb (returnOf g e) (returnOf g s) = false /\
       (fgtb (returnOf g s) (returnOf g e) = true \/ (indexOf (se_Universe (sg_cfg g)) s < indexOf (se_Universe (sg_cfg g)) e)%nat)) /\
    (forall sym, heldQty r.1 sym =
       if decide (sym ∈ top) then
         if 0 <? heldQty g sym then heldQty g sym else Z.max 0 (sharesFor (fdiv equity (zToFloat (se_TopK (sg_cfg g)))) g sym)
       else 0) /\
    (forall sym, heldQty r.1 sym = replay r.2 (heldQty g) sym).
Proof.
  intros r. pose proof (Sector_OnBar_step equity bar g Hg) as (_ & _ & _ & _ & Hr). exists (newTopK g). splits; [| | | | |exact Hr].
  - unfold newTopK. eapply sublist_NoDup; [|apply sublist_take]. rewrite sliceStable_perm. unfold eligibleOf. by apply NoDup_filter_list.
  - apply newTopK_eligible.
  - rewrite newTopK_length. pose proof (so_topK g Hg). lia.
  - apply (newTopK_ranked g Hf Hd).
  - intros sym. unfold r, Sector_OnBar. rewrite bool_decide_eq_true_2 by done. cbn [negb]. rewrite Hm, Hw. cbn [andb].
    destruct (rebalance_spec equity (bar_TS bar) g Hg He) as (_ & _ & _ & P & _). specialize (P sym).
    destruct (computeRebalanceSignals equity (bar_TS bar) g) as [g1 sigs]. exact P.
Qed.

(** Three names over the last days of January 2024 and the first of February. *)
Definition demoSectorBar (sym : string) (d close : Z) : Bar :=
  {| bar_Symbol := sym; bar_TS := mkTime ((1704067200 + 86400 * d) * 1000000000) 0; bar_Open := close; bar_High := close; bar_Low := close;
     bar_Close := close; bar_Volume := 1000 |}.
Definition demoSectorCfg : SectorConfig := mkSectorConfig true ["XLK"; "XLF"; "XLE"] 2 1 "America/New_York".
Definition demoSectorGen : SectorGenerator := match NewSector demoSectorCfg with Ok g => g | Err _ => mkSectorGenerator demoSectorCfg ∅ ∅ None ∅ 0 end.
Definition demoSectorDay (d : Z) : list Bar :=
  [demoSectorBar "XLK" d (1000000 + 2000 * d); demoSectorBar "XLF" d (400000 + 5000 * d); demoSectorBar "XLE" d (900000 - 1000 * d)].
Definition demoSectorBars : list Bar := flat_map demoSectorDay [28; 29; 30; 31].
Definition demoSectorEquity (_ : PaperBook) : float64 := zToFloat 10000.
Definition demoWarm : SectorGenerator := sectorWarmupBatch (zToFloat 10000) (flat_map demoSectorDay [28; 29; 30]) demoSectorGen.

Lemma account_follows_rotation_witness :
  exists g book, paperRun (sectorAdapterOnBar "SectorRotationRunner-000") demoSectorEquity demoSectorBars demoSectorGen ∅ = (book, Ok g) /\
    (forall sym, netOf book sym = heldQty g sym) /\ netOf book "XLF" = 181.
Proof.
  destruct (account_follows_rotation demoSectorCfg demoSectorGen "SectorRotationRunner-000" demoSectorEquity demoSectorBars) as (g & book & E & Hn & _).
  - vm_compute. reflexivity.
  - exists g, book. split; [exact E|]. split; [intros sym; apply Hn|].
    assert (Hb : netOf (paperRun (sectorAdapterOnBar "SectorRotationRunner-000") demoSectorEquity demoSectorBars demoSectorGen ∅).1 "XLF" = 181)
      by (vm_compute; reflexivity).
    rewrite E in Hb. exact Hb.
Defined.

Lemma demoWarm_ok : sectorOk demoWarm.
Proof.
  assert (H : forall bars g, sectorOk g -> sectorOk (sectorWarmupBatch (zToFloat 10000) bars g)).
  { induction bars as [|b bars IH]; intros g Hg; [done|]. apply IH, Sector_OnBar_step, Hg. }
  apply H. apply (NewSector_ok demoSectorCfg). by vm_compute.
Qed.

Lemma closesFit_stored g : map_Forall (fun _ d => Forall (fun p => min_int64 <= p <= max_int64) (dq_buf d)) (sg_history g) -> closesFit g.
Proof.
  intros Hall sym p. unfold dequeOf. destruct (sg_history g !! sym) as [d|] eqn:E; [|done]. cbn [default].
  intros Hin. specialize (Hall sym d E). cbn in Hall. rewrite List.Forall_forall in Hall. by apply Hall.
Qed.

Lemma rebalance_holds_strongest_witness :
  exists top : list string, base.NoDup top /\ Z.of_nat (length top) = 1 /\
    heldQty (Sector_OnBar (zToFloat 10000) (demoSectorBar "XLK" 31 1062000) demoWarm).1 "XLF" =
      if decide ("XLF" ∈ top) then
        if 0 <? heldQty demoWarm "XLF" then heldQty demoWarm "XLF" else Z.max 0 (sharesFor (fdiv (zToFloat 10000) (zToFloat (se_TopK (sg_cfg demoWarm)))) demoWarm "XLF")
      else 0.
Proof.
  destruct (rebalance_holds_strongest demoWarm (zToFloat 10000) (demoSectorBar "XLK" 31 1062000)) as (top & H1 & _ & H2 & _ & H3 & _).
  - exact demoWarm_ok.
  - apply closesFit_stored, (bool_decide_unpack _). vm_compute. exact I.
  - apply (bool_decide_unpack _). vm_compute. exact I.
  - apply (bool_decide_unpack _). vm_compute. exact I.
  - vm_compute. reflexivity.
  - vm_compute. reflexivity.
  - vm_compute. discriminate.
  - exists top. split; [exact H1|]. split; [rewrite H2; vm_compute; reflexivity|apply (H3 "XLF")].
Defined.

(** A rotation primed over a rebalance records a holding that no order opened;
    a later rebalance with the same strongest name does not open it either. *)
Lemma warmed_holding_is_never_bought :
  let primed := sectorWarmupBatch (zToFloat 10000) demoSectorBars demoSectorGen in
  let later := flat_map demoSectorDay [58; 59; 60; 61] in
  let r := paperRun (sectorAdapterOnBar "SectorRotationRunner-000") demoSectorEquity later primed ∅ in
  heldQty primed "XLF" = 181 /\ match r.2 with Ok g => heldQty g "XLF" = 181 | Err _ => False end /\ netOf r.1 "XLF" = 0.
Proof. vm_compute. splits; reflexivity. Qed.

(** The next bar a year later, in the same month, is no rollover. *)
Lemma same_month_of_next_year_is_no_rollover :
  newMonth demoWarm (demoSectorBar "XLK" (366 + 10) 1062000) = false /\ newMonth demoWarm (demoSectorBar "XLK" 31 1062000) = true.
Proof. vm_compute. split; reflexivity. Qed.

(** Seven digits before the point already print with an exponent. *)
Lemma million_prints_exponent : closeText 10000000000 = "1e+06" /\ closeText 1420000 = "142.0".
Proof. vm_compute. split; reflexivity. Qed.
