(* ===== verification/PyDecimal.v ===== *)
(** * The scale-propagating decimal (src/internal/strategy/orb/pydec.go)

    A decimal is a coefficient and a power of ten.  Parsing and printing keep the
    written scale, addition and multiplication are exact, a quotient is rounded
    half to even to 28 significant digits.  [scaledTo] reads a value at a common
    scale, in which the operations are those of the integers.  A [*big.Int] is an
    integer; no decimal with a nil coefficient is ever built. *)

From Stdlib Require Import SpecFloat.
From stdpp Require Import strings list.
From S2P Require Import Prelude Lists Fixed Money Float64 Sepa.
Set Default Goal Selector "!".
#[local] Open Scope string_scope.
#[local] Open Scope Z_scope.
#[local] Open Scope list_scope.
#[local] Abbreviation length := List.length.

Definition decContextPrec : Z := 28.

Record pydec : Set := mkPydec { dc_coef : Z; dc_exp : Z }.

#[export] Instance pydec_eq_dec : EqDecision pydec.
Proof. solve_decision. Defined.

(** [big.Int.SetString] in base ten: an optional sign and at least one digit. *)
Definition setString (s : list ascii) : option Z :=
  let '(neg, ds) := scanSign s in
  match ds with
  | [] => None
  | _ => if forallb is_digit ds then Some (if neg then - dval ds else dval ds) else None
  end.

(** The text before the first point and, when there is one, the text after it. *)
Fixpoint cutDot (s : list ascii) : list ascii * list ascii :=
  match s with
  | [] => ([], [])
  | c :: s => if Ascii.eqb c "."%char then ([], s) else let '(a, b) := cutDot s in (c :: a, b)
  end.

Definition parseDec (s : string) : option pydec :=
  let '(neg, s) := scanSign (trimSpace (list_ascii_of_string s)) in
  let '(intPart, fracPart) := cutDot s in
  coef ← setString (intPart ++ fracPart);
  Some (mkPydec (if neg : bool then - coef else coef) (- Z.of_nat (length fracPart))).

Definition decOfInt (v : Z) : pydec := mkPydec v 0.

(** The orb package keeps its own copy of the printer of floats. *)
Definition orbFloatRepr (f : float64) : list ascii := pyFloatRepr f.

Definition decFromPyFloatStr (f : float64) : pydec :=
  default (decOfInt 0) (parseDec (string_of_list_ascii (orbFloatRepr f))).

Definition dec_isZero (d : pydec) : bool := dc_coef d =? 0.

Definition scaleCoef (d : pydec) (target : Z) : Z :=
  if dc_exp d =? target then dc_coef d else dc_coef d * 10 ^ (dc_exp d - target).

Definition align (a b : pydec) : Z * Z * Z :=
  if dc_exp a =? dc_exp b then (dc_coef a, dc_coef b, dc_exp a)
  else
    let exp := if dc_exp b <? dc_exp a then dc_exp b else dc_exp a in
    (scaleCoef a exp, scaleCoef b exp, exp).

Definition dec_cmp (d o : pydec) : Z := let '(ca, cb, _) := align d o in cmpInt64 ca cb.
Definition dec_add (d o : pydec) : pydec := let '(ca, cb, exp) := align d o in mkPydec (ca + cb) exp.
Definition dec_sub (d o : pydec) : pydec := let '(ca, cb, exp) := align d o in mkPydec (ca - cb) exp.
Definition dec_mul (d o : pydec) : pydec := mkPydec (dc_coef d * dc_coef o) (dc_exp d + dc_exp o).

(** [Text(10)] of a magnitude: it has no more decimal digits than bits. *)
Definition bigText (n : Z) : list ascii := uintDigits (S (Z.to_nat (Z.log2 n))) n.

Definition numDigits (n : Z) : Z := if n =? 0 then 1 else Z.of_nat (length (bigText (Z.abs n))).

Definition decRoundHalfEven (q exp drop : Z) : Z * Z :=
  if drop <=? 0 then (q, exp)
  else
    let pow := 10 ^ drop in
    let quo := Z.abs q / pow in
    let rem := Z.abs q mod pow in
    let half := Z.shiftr pow 1 in
    let roundUp := if half <? rem then true else if rem =? half then Z.testbit quo 0 else false in
    let quo := if roundUp then quo + 1 else quo in
    (if q <? 0 then - quo else quo, exp + drop).

Definition roundRemainderHalfEven (q exp r den : Z) : Z * Z :=
  let twice := Z.shiftl r 1 in
  let roundUp := if den <? twice then true else if twice =? den then Z.testbit q 0 else false in
  ((if roundUp then if q <? 0 then q - 1 else q + 1 else q), exp).

(** The loop of [stripTrailingZerosTo]: each turn raises the exponent. *)
Fixpoint stripLoop (fuel : nat) (coef exp floorExp : Z) : pydec :=
  match fuel with
  | O => mkPydec coef exp
  | S fuel =>
      if exp <? floorExp then
        if negb (coef mod 10 =? 0) then mkPydec coef exp else stripLoop fuel (coef / 10) (exp + 1) floorExp
      else mkPydec coef exp
  end.

Definition stripTrailingZerosTo (floorExp : Z) (d : pydec) : pydec :=
  if dc_coef d =? 0 then (if dc_exp d <? floorExp then mkPydec 0 floorExp else d)
  else stripLoop (Z.to_nat (floorExp - dc_exp d)) (dc_coef d) (dc_exp d) floorExp.

(** Scaling the numerator up to the denominator, counting the factors of ten: a
    positive numerator needs no more of them than the denominator has bits. *)
Fixpoint scaleNum (fuel : nat) (num den shift : Z) : Z * Z :=
  match fuel with
  | O => (num, shift)
  | S fuel => if num <? den then scaleNum fuel (num * 10) den (shift + 1) else (num, shift)
  end.

(** Long division from the remainder, digit by digit. *)
Fixpoint longDiv (fuel : nat) (q r den shift : Z) : Z * Z * Z :=
  match fuel with
  | O => (q, r, shift)
  | S fuel =>
      if (numDigits q <? decContextPrec) && negb (r =? 0) then
        let num := r * 10 in longDiv fuel (q * 10 + num / den) (num mod den) den (shift + 1)
      else (q, r, shift)
  end.

Definition divFuel (den : Z) : nat := S (Z.to_nat (Z.log2 den)).

Definition dec_div (d o : pydec) : pydec :=
  if dec_isZero o then decOfInt 0
  else if dec_isZero d then mkPydec 0 (dc_exp d - dc_exp o)
  else
    let idealExp := dc_exp d - dc_exp o in
    let den := Z.abs (dc_coef o) in
    let neg := xorb (dc_coef d <? 0) (dc_coef o <? 0) in
    let '(num, shift) := scaleNum (divFuel den) (Z.abs (dc_coef d)) den 0 in
    let '(q, r, shift) := longDiv (Z.to_nat decContextPrec) (num / den) (num mod den) den shift in
    let resultExp := idealExp - shift in
    let '(q, resultExp) :=
      if decContextPrec <? numDigits q then decRoundHalfEven q resultExp (numDigits q - decContextPrec)
      else if negb (r =? 0) then roundRemainderHalfEven q resultExp r den
      else (q, resultExp) in
    stripTrailingZerosTo idealExp (mkPydec (if neg then - q else q) resultExp).

Definition dec_divInt (d : pydec) (n : Z) : pydec := dec_div d (decOfInt n).

(** [ParseFloat] of the printed decimal; a value out of range gives its infinity. *)
Definition dec_float64 (d : pydec) : float64 :=
  match dc_coef d with
  | Z0 => fzero
  | Zpos p => decimalToFloat false p (dc_exp d)
  | Zneg p => decimalToFloat true p (dc_exp d)
  end.

Definition dec_String (d : pydec) : string :=
  let neg := dc_coef d <? 0 in
  let digits := bigText (Z.abs (dc_coef d)) in
  let body :=
    if dc_exp d =? 0 then digits
    else if 0 <? dc_exp d then digits ++ repeat "0"%char (Z.to_nat (dc_exp d))
    else
      let frac := Z.to_nat (- dc_exp d) in
      if (length digits <=? frac)%nat then ["0"; "."]%char ++ repeat "0"%char (frac - length digits) ++ digits
      else let split := (length digits - frac)%nat in firstn split digits ++ ["."%char] ++ skipn split digits in
  string_of_list_ascii (if neg then "-"%char :: body else body).

(** [FormatFloat(f, 'f', 0, 64)] *)
Definition pyFmt0 (f : float64) : list ascii :=
  let signed (s : bool) out := if s then "-"%char :: out else out in
  match f with
  | S754_infinity s => list_ascii_of_string (if s then "-Inf" else "+Inf")
  | S754_nan => list_ascii_of_string "NaN"
  | S754_zero s => signed s ["0"%char]
  | S754_finite s m e => let '(n, d) := fracOf m e in signed s (bigText (round_half_even (Zpos n) (Zpos d)))
  end.

(** ** The value of a decimal *)

(** The value in units of [10^E], for [E] at most the exponent. *)
Definition scaledTo (E : Z) (d : pydec) : Z := dc_coef d * 10 ^ (dc_exp d - E).

Lemma scaleCoef_scaledTo d E : scaleCoef d E = scaledTo E d.
Proof. unfold scaleCoef, scaledTo. destruct (Z.eqb_spec (dc_exp d) E) as [->|]; [|done]. rewrite Z.sub_diag. cbn. lia. Qed.

Lemma align_scaled a b : let E := Z.min (dc_exp a) (dc_exp b) in align a b = (scaledTo E a, scaledTo E b, E).
Proof.
  cbv zeta. unfold align. destruct (Z.eqb_spec (dc_exp a) (dc_exp b)) as [He|He].
  - rewrite He, Z.min_id. unfold scaledTo. rewrite He, Z.sub_diag. cbn. by rewrite !Z.mul_1_r.
  - destruct (Z.ltb_spec (dc_exp b) (dc_exp a)); rewrite !scaleCoef_scaledTo; [rewrite Z.min_r by lia|rewrite Z.min_l by lia]; done.
Qed.

(** A lower scale multiplies the value. *)
Lemma scaledTo_lower d E F : F <= E -> E <= dc_exp d -> scaledTo F d = scaledTo E d * 10 ^ (E - F).
Proof.
  intros H1 H2. unfold scaledTo. rewrite <- Z.mul_assoc, <- Z.pow_add_r by lia. do 2 f_equal. lia.
Qed.

Lemma scaledTo_add E a b : E <= dc_exp a -> E <= dc_exp b -> scaledTo E (dec_add a b) = scaledTo E a + scaledTo E b.
Proof.
  intros Ha Hb. unfold dec_add. rewrite align_scaled. cbv zeta. set (M := Z.min _ _). assert (E <= M) by lia.
  rewrite (scaledTo_lower a M E), (scaledTo_lower b M E) by lia. unfold scaledTo at 1. cbn. lia.
Qed.

Lemma scaledTo_sub E a b : E <= dc_exp a -> E <= dc_exp b -> scaledTo E (dec_sub a b) = scaledTo E a - scaledTo E b.
Proof.
  intros Ha Hb. unfold dec_sub. rewrite align_scaled. cbv zeta. set (M := Z.min _ _). assert (E <= M) by lia.
  rewrite (scaledTo_lower a M E), (scaledTo_lower b M E) by lia. unfold scaledTo at 1. cbn. lia.
Qed.

Lemma scaledTo_mul E F a b : E <= dc_exp a -> F <= dc_exp b -> scaledTo (E + F) (dec_mul a b) = scaledTo E a * scaledTo F b.
Proof.
  intros Ha Hb. unfold scaledTo. cbn. replace (dc_exp a + dc_exp b - (E + F)) with ((dc_exp a - E) + (dc_exp b - F)) by lia.
  rewrite Z.pow_add_r by lia. lia.
Qed.

Lemma dec_exp_add a b : dc_exp (dec_add a b) = Z.min (dc_exp a) (dc_exp b).
Proof. unfold dec_add. by rewrite align_scaled. Qed.
Lemma dec_exp_sub a b : dc_exp (dec_sub a b) = Z.min (dc_exp a) (dc_exp b).
Proof. unfold dec_sub. by rewrite align_scaled. Qed.

Lemma cmpInt64_scale a b k : 0 < k -> cmpInt64 (a * k) (b * k) = cmpInt64 a b.
Proof.
  intros Hk. unfold cmpInt64. destruct (Z.ltb_spec a b), (Z.ltb_spec b a), (Z.ltb_spec (a * k) (b * k)), (Z.ltb_spec (b * k) (a * k)); nia || done.
Qed.

(** Comparison is the comparison of the values at any common scale. *)
Lemma dec_cmp_scaled E a b : E <= dc_exp a -> E <= dc_exp b -> dec_cmp a b = cmpInt64 (scaledTo E a) (scaledTo E b).
Proof.
  intros Ha Hb. unfold dec_cmp. rewrite align_scaled. cbv zeta. set (M := Z.min _ _). assert (E <= M) by lia.
  rewrite (scaledTo_lower a M E), (scaledTo_lower b M E) by lia. symmetry. apply cmpInt64_scale. by apply pow10_pos; lia.
Qed.

(** The order of the values. *)
Definition dec_lt (a b : pydec) : Prop := scaledTo (Z.min (dc_exp a) (dc_exp b)) a < scaledTo (Z.min (dc_exp a) (dc_exp b)) b.
Definition dec_le (a b : pydec) : Prop := scaledTo (Z.min (dc_exp a) (dc_exp b)) a <= scaledTo (Z.min (dc_exp a) (dc_exp b)) b.

Lemma dec_lt_cmp a b : dec_lt a b <-> dec_cmp a b < 0.
Proof. rewrite (dec_cmp_scaled (Z.min (dc_exp a) (dc_exp b))) by lia. unfold dec_lt, cmpInt64. repeat case_match; breflect; lia. Qed.
Lemma dec_le_cmp a b : dec_le a b <-> dec_cmp a b <= 0.
Proof. rewrite (dec_cmp_scaled (Z.min (dc_exp a) (dc_exp b))) by lia. unfold dec_le, cmpInt64. repeat case_match; breflect; lia. Qed.
Lemma dec_cmp_opp a b : dec_cmp b a = - dec_cmp a b.
Proof.
  rewrite (dec_cmp_scaled (Z.min (dc_exp a) (dc_exp b)) a b), (dec_cmp_scaled (Z.min (dc_exp a) (dc_exp b)) b a) by lia.
  unfold cmpInt64. repeat case_match; breflect; lia.
Qed.

Lemma dec_lt_scaled E a b : E <= dc_exp a -> E <= dc_exp b -> (dec_lt a b <-> scaledTo E a < scaledTo E b).
Proof. intros Ha Hb. rewrite dec_lt_cmp, (dec_cmp_scaled E) by lia. unfold cmpInt64. repeat case_match; breflect; lia. Qed.
Lemma dec_le_scaled E a b : E <= dc_exp a -> E <= dc_exp b -> (dec_le a b <-> scaledTo E a <= scaledTo E b).
Proof. intros Ha Hb. rewrite dec_le_cmp, (dec_cmp_scaled E) by lia. unfold cmpInt64. repeat case_match; breflect; lia. Qed.

(** ** Digits *)

Lemma uintDigits_length fuel : forall u, 0 < u < 10 ^ Z.of_nat fuel -> fuel <> O ->
  10 ^ (Z.of_nat (length (uintDigits fuel u)) - 1) <= u < 10 ^ Z.of_nat (length (uintDigits fuel u)).
Proof.
  induction fuel as [|f IH]; intros u Hu Hf; [done|]. cbn [uintDigits]. destruct (Z.ltb_spec u 10) as [H|H]; [cbn; lia|].
  rewrite Nat2Z.inj_succ, Z.pow_succ_r in Hu by lia.
  assert (Hq : 0 < u / 10 < 10 ^ Z.of_nat f). { split; [apply Z.div_str_pos; lia|apply Z.div_lt_upper_bound; lia]. }
  assert (Hf0 : f <> O). { intros ->. cbn in Hq. lia. }
  pose proof (IH (u / 10) Hq Hf0) as [Hl Hh]. rewrite length_app. cbn [List.length]. pose proof (Z.div_mod u 10 ltac:(lia)) as Ed.
  pose proof (Z.mod_pos_bound u 10 ltac:(lia)) as Hm. set (n := length (uintDigits f (u / 10))) in *.
  assert (Hn : (1 <= n)%nat). { destruct n; [cbn in Hh; lia|lia]. }
  replace (Z.of_nat (n + 1) - 1) with (Z.succ (Z.of_nat n - 1)) by lia. replace (Z.of_nat (n + 1)) with (Z.succ (Z.of_nat n)) by lia.
  rewrite !Z.pow_succ_r by lia. lia.
Qed.

Lemma bigText_fuel n : 0 <= n -> 0 <= n < 10 ^ Z.of_nat (S (Z.to_nat (Z.log2 n))).
Proof.
  intros Hn. split; [done|]. pose proof (Z.log2_nonneg n). rewrite Nat2Z.inj_succ, Z2Nat.id by done. destruct (Z.eq_dec n 0) as [->|Hz]; [done|].
  pose proof (Z.log2_spec n ltac:(lia)) as [_ Hl]. eapply Z.lt_le_trans; [exact Hl|]. apply Z.pow_le_mono_l. lia.
Qed.

Lemma bigText_spec n : 0 <= n -> digits (bigText n) /\ dval (bigText n) = n /\ bigText n <> [].
Proof. intros Hn. apply uintDigits_spec; [by apply bigText_fuel|lia]. Qed.

Lemma numDigits_spec n : 0 < n -> 10 ^ (numDigits n - 1) <= n < 10 ^ numDigits n.
Proof.
  intros Hn. unfold numDigits. replace (n =? 0) with false by lia. rewrite Z.abs_eq by lia.
  apply uintDigits_length; [|done]. pose proof (bigText_fuel n ltac:(lia)). lia.
Qed.

Lemma numDigits_lt n k : 0 < n -> 0 <= k -> (numDigits n < k <-> n < 10 ^ (k - 1)).
Proof.
  intros Hn Hk. pose proof (numDigits_spec n Hn) as [Hl Hh]. split.
  - intros H. eapply Z.lt_le_trans; [exact Hh|]. apply Z.pow_le_mono_r; lia.
  - intros H. destruct (Z.lt_ge_cases (numDigits n) k) as [|Hc]; [done|]. pose proof (Z.pow_le_mono_r 10 (k - 1) (numDigits n - 1) ltac:(lia) ltac:(lia)). lia.
Qed.

(** ** Parsing and printing *)

Lemma cutDot_digits ds : forall rest, digits ds -> cutDot (ds ++ "."%char :: rest) = (ds, rest) /\ cutDot ds = (ds, []).
Proof.
  induction ds as [|c ds IH]; intros rest Hd; [done|]. inversion Hd as [|? ? Hc Hds]; subst. cbn [app cutDot].
  assert (Hne : Ascii.eqb c "." = false). { destruct (Ascii.eqb_spec c ".") as [->|]; done. }
  rewrite Hne. by destruct (IH rest Hds) as [-> ->].
Qed.

Lemma scanSign_digit c s : is_digit c = true -> scanSign (c :: s) = (false, c :: s).
Proof.
  intros Hc. unfold scanSign. destruct (Ascii.eqb_spec c "+") as [->|]; [done|]. by destruct (Ascii.eqb_spec c "-") as [->|].
Qed.

Lemma setString_digits ds : digits ds -> ds <> [] -> setString ds = Some (dval ds).
Proof.
  intros Hd Hn. destruct ds as [|c ds]; [done|]. unfold setString. rewrite scanSign_digit by (by inversion Hd).
  assert (forallb is_digit (c :: ds) = true) as ->; [|done]. apply forallb_forall. by apply List.Forall_forall.
Qed.

Lemma decimalChars_plain neg ds frac : digits ds -> digits (default [] frac) -> Forall (fun c => plainChar c = true) (decimalChars neg ds frac).
Proof.
  intros Hd Hf. assert (Dg : forall l, digits l -> Forall (fun c => plainChar c = true) l).
  { intros l D. refine (List.Forall_impl _ _ D). intros c Hc. unfold plainChar. by rewrite Hc. }
  unfold decimalChars. apply Forall_app. split; [by destruct neg; repeat constructor|]. apply Forall_app. split; [by apply Dg|].
  destruct frac; [constructor; [done|by apply Dg]|constructor].
Qed.

Lemma trimSpace_plain s : s <> [] -> Forall (fun c => plainChar c = true) s -> trimSpace s = s.
Proof.
  intros Hn Hf. destruct s as [|c s]; [done|]. destruct (exists_last Hn) as (t & d & Et).
  assert (Hd : plainChar d = true). { rewrite Et in Hf. apply Forall_app in Hf as [_ Hf]. by inversion Hf. }
  apply (trimSpace_id c s d t Et); left; [by inversion Hf|done].
Qed.

Lemma parseDec_decimal neg ds frac : digits ds -> ds <> [] -> digits (default [] frac) ->
  parseDec (string_of_list_ascii (decimalChars neg ds frac)) = Some (mkPydec (sgn neg * dval (ds ++ default [] frac)) (- Z.of_nat (length (default [] frac)))).
Proof.
  intros Hd Hn Hf. unfold parseDec. rewrite list_ascii_of_string_of_list_ascii.
  rewrite trimSpace_plain; [|unfold decimalChars; destruct neg, ds; done|by apply decimalChars_plain].
  assert (Es : scanSign (decimalChars neg ds frac) = (neg, ds ++ match frac with Some fs => "."%char :: fs | None => [] end)).
  { unfold decimalChars. destruct neg; [done|]. destruct ds as [|c ds]; [done|]. apply scanSign_digit. by inversion Hd. }
  rewrite Es. destruct frac as [fs|]; cbn [from_option id] in *.
  - rewrite (proj1 (cutDot_digits ds fs Hd)), setString_digits by (by apply digits_app || by destruct ds). cbn. do 2 f_equal. destruct neg; cbn; lia.
  - rewrite app_nil_r, (proj2 (cutDot_digits ds [] Hd)), app_nil_r, setString_digits by done. cbn. do 2 f_equal. destruct neg; cbn; lia.
Qed.

Lemma digits_zeros n : digits (repeat "0"%char n).
Proof. induction n; constructor; done. Qed.
Lemma dval_zeros n ds : dval (repeat "0"%char n ++ ds) = dval ds.
Proof. induction n as [|n IH]; [done|]. cbn [repeat app]. rewrite dval_cons, IH. change (code "0" - 48) with 0. lia. Qed.

(** A printed decimal of a scale that is not positive. *)
Lemma dec_String_shape d : dc_exp d <= 0 -> exists ds frac,
  dec_String d = string_of_list_ascii (decimalChars (dc_coef d <? 0) ds frac) /\ digits ds /\ ds <> [] /\ digits (default [] frac) /\
  dval (ds ++ default [] frac) = Z.abs (dc_coef d) /\ Z.of_nat (length (default [] frac)) = - dc_exp d.
Proof.
  intros He. destruct (bigText_spec (Z.abs (dc_coef d)) ltac:(lia)) as (D & V & N). unfold dec_String, decimalChars.
  set (t := bigText _) in *. assert (Hs : forall body, (if dc_coef d <? 0 then "-"%char :: body else body) = (if dc_coef d <? 0 then ["-"%char] else []) ++ body).
  { intros body. by destruct (_ <? 0). }
  destruct (Z.eqb_spec (dc_exp d) 0) as [E0|E0]; [|replace (0 <? dc_exp d) with false by lia; cbv zeta; destruct (Nat.leb_spec (length t) (Z.to_nat (- dc_exp d))) as [Hl|Hl]].
  - exists t, None. rewrite Hs. cbn. rewrite app_nil_r. splits; [done|done|done|constructor|done|lia].
  - exists ["0"%char], (Some (repeat "0"%char (Z.to_nat (- dc_exp d) - length t) ++ t)). rewrite Hs. cbn [from_option id app]. splits; [done|by repeat constructor|done| | |].
    + apply digits_app. split; [apply digits_zeros|done].
    + rewrite <- V. change (dval (repeat "0"%char 1 ++ (repeat "0"%char (Z.to_nat (- dc_exp d) - length t) ++ t)) = dval t). by rewrite !dval_zeros.
    + cbn [from_option id]. rewrite length_app, repeat_length. lia.
  - set (k := (length t - Z.to_nat (- dc_exp d))%nat). exists (firstn k t), (Some (skipn k t)). rewrite Hs. cbn [from_option id app].
    assert (D2 : digits (firstn k t) /\ digits (skipn k t)). { apply digits_app. by rewrite firstn_skipn. }
    splits; [done|tauto| |tauto|by rewrite firstn_skipn|rewrite length_skipn; unfold k; lia].
    intros H. apply (f_equal (@List.length ascii)) in H. rewrite length_firstn in H. unfold k in H. cbn [List.length] in H. lia.
Qed.

(** A decimal that is printed and read back keeps its coefficient and its scale. *)
Lemma parseDec_String d : dc_exp d <= 0 -> parseDec (dec_String d) = Some d.
Proof.
  intros He. destruct (dec_String_shape d He) as (ds & frac & -> & D & N & F & V & L). rewrite parseDec_decimal by done. rewrite V, L, sgn_abs.
  destruct d. cbn. do 2 f_equal. lia.
Qed.

(** The two-place text of a price. *)
Lemma parseDec_StringFixed p : in64 p -> parseDec (Price_StringFixed p 2) = Some (mkPydec (round_half_even p 100) (-2)).
Proof.
  intros Hp. unfold Price_StringFixed, formatFixedDP. change (fixedFracDigits <=? (if 2 <? 0 then 0 else 2)) with false. cbv beta iota zeta.
  change (pow10 (Z.to_nat (fixedFracDigits - (if 2 <? 0 then 0 else 2)))) with 100. change (pow10 (Z.to_nat (if 2 <? 0 then 0 else 2))) with 100.
  change (0 <? (if 2 <? 0 then 0 else 2)) with true. change (Z.to_nat (if 2 <? 0 then 0 else 2)) with 2%nat. cbv iota.
  rewrite roundHalfEvenDiv_ref; [|exact Hp|rlia|done]. set (r := round_half_even p 100).
  assert (Hr : -922337203685477581 <= r <= 922337203685477581) by (apply round_half_even_mono_bounds; [done|]; unfold Price in *; rlia). rewrite magnitudeOf_abs by rlia.
  pose proof (Z.mod_pos_bound (Z.abs r) 100 ltac:(lia)) as Bm. pose proof (Z.div_mod (Z.abs r) 100 ltac:(lia)) as Edm.
  destruct (uintDigits_spec 20 (Z.abs r / 100)) as (D1 & V1 & N1); [change (10 ^ Z.of_nat 20) with 100000000000000000000; lia|lia|].
  destruct (padDigits_spec 2 (Z.abs r mod 100)) as (D2 & L2 & V2); [done|].
  pose proof (parseDec_decimal (r <? 0) (uintDigits 20 (Z.abs r / 100)) (Some (padDigits 2 (Z.abs r mod 100))) D1 N1 D2) as E.
  unfold decimalChars in E. unfold appendUint. rewrite <- app_assoc. cbn [from_option id] in E. refine (eq_trans E _). rewrite dval_app, V1, V2, L2. do 2 f_equal.
  change (10 ^ Z.of_nat 2) with 100. transitivity (sgn (r <? 0) * Z.abs r); [f_equal; lia|apply sgn_abs].
Qed.

(** ** Division *)

Lemma scaleNum_spec fuel : forall num den shift, 0 < num -> 0 < den -> den < num * 2 ^ Z.of_nat fuel ->
  exists k, 0 <= k /\ scaleNum fuel num den shift = (num * 10 ^ k, shift + k) /\ den <= num * 10 ^ k /\ (k = 0 \/ num * 10 ^ k < 10 * den).
Proof.
  induction fuel as [|fuel IH]; intros num den shift Hn Hd Hf; cbn [scaleNum].
  { exists 0. splits; [lia|f_equal; lia|change (Z.of_nat 0) with 0 in Hf; lia|by left]. }
  destruct (Z.ltb_spec num den) as [H|H]; [|exists 0; splits; [lia|f_equal; lia|lia|by left]].
  rewrite Nat2Z.inj_succ, Z.pow_succ_r in Hf by lia.
  destruct (IH (num * 10) den (shift + 1)) as (k & Hk & E & Hl & Hh); [lia|done|pose proof (Z.pow_pos_nonneg 2 (Z.of_nat fuel) ltac:(lia) ltac:(lia)); nia|].
  exists (Z.succ k). rewrite E, Z.pow_succ_r by done. splits; [lia|f_equal; lia|lia|]. right. destruct Hh as [->|Hh]; cbn in *; lia.
Qed.

(** [N] is the scaled numerator: the loop keeps [q * den + r = N * 10^(turns)]. *)
Lemma longDiv_spec fuel : forall q r den shift, 0 < den -> 0 <= r < den -> 1 <= q < 10 ^ 28 -> 10 ^ 27 <= q * 10 ^ Z.of_nat fuel ->
  exists k q' r', 0 <= k /\ longDiv fuel q r den shift = (q', r', shift + k) /\ q' * den + r' = (q * den + r) * 10 ^ k /\ 0 <= r' < den /\
    1 <= q' < 10 ^ 28 /\ (r' = 0 \/ 10 ^ 27 <= q').
Proof.
  induction fuel as [|fuel IH]; intros q r den shift Hd Hr Hq Hf; cbn [longDiv].
  { exists 0, q, r. splits; [lia|f_equal; lia|lia|lia|lia|lia|lia|right; cbn in *; lia]. }
  destruct (Z.ltb_spec (numDigits q) decContextPrec) as [Hn|Hn]; cbn [andb]; [destruct (Z.eqb_spec r 0) as [H0|H0]; cbn [negb]|].
  - exists 0, q, r. splits; [lia|f_equal; lia|lia|lia|lia|lia|lia|by left].
  - apply (numDigits_lt q decContextPrec ltac:(lia) ltac:(done)) in Hn. change (10 ^ (decContextPrec - 1)) with (10 ^ 27) in Hn.
    pose proof (Z.div_mod (r * 10) den ltac:(lia)) as Ed. pose proof (Z.mod_pos_bound (r * 10) den Hd) as Hm.
    assert (Hdig : 0 <= r * 10 / den <= 9). { split; [apply Z.div_pos; lia|]. apply Z.lt_succ_r, Z.div_lt_upper_bound; lia. }
    rewrite Nat2Z.inj_succ, Z.pow_succ_r in Hf by lia.
    destruct (IH (q * 10 + r * 10 / den) (r * 10 mod den) den (shift + 1)) as (k & q' & r' & Hk & E & Ev & Hr' & Hq' & Hend);
      [done|done|lia|pose proof (Z.pow_pos_nonneg 10 (Z.of_nat fuel) ltac:(lia) ltac:(lia)); nia|].
    exists (Z.succ k), q', r'. rewrite E, Ev, Z.pow_succ_r by done. splits; [lia|f_equal; lia| |lia|lia|lia|lia|done].
    assert (Hx : (q * 10 + r * 10 / den) * den + (r * 10) mod den = 10 * (q * den + r)) by lia. rewrite Hx. lia.
  - exists 0, q, r. splits; [lia|f_equal; lia|lia|lia|lia|lia|lia|]. right. destruct (Z.lt_ge_cases q (10 ^ 27)) as [Hc|]; [|done].
    apply (numDigits_lt q decContextPrec ltac:(lia) ltac:(done)) in Hc. lia.
Qed.

Lemma stripLoop_spec fuel : forall coef exp floor, coef <> 0 -> floor - exp <= Z.of_nat fuel ->
  let d := stripLoop fuel coef exp floor in
  exp <= dc_exp d /\ (exp <= floor -> dc_exp d <= floor) /\ scaledTo exp d = coef /\ (dc_exp d < floor -> dc_coef d mod 10 <> 0).
Proof.
  induction fuel as [|fuel IH]; intros coef exp floor Hc Hf; cbn [stripLoop].
  { cbv zeta. unfold scaledTo. cbn [dc_exp dc_coef]. rewrite Z.sub_diag. splits; [lia|done|lia|lia]. }
  cbv zeta. destruct (Z.ltb_spec exp floor) as [H|H]; [destruct (Z.eqb_spec (coef mod 10) 0) as [Hm|Hm]; cbn [negb]|].
  - pose proof (Z.div_mod coef 10 ltac:(lia)) as Ed. destruct (IH (coef / 10) (exp + 1) floor) as (A & B & C & D); [lia|lia|].
    set (d := stripLoop _ _ _ _) in *. splits; [lia|intros _; apply B; lia| |done].
    rewrite (scaledTo_lower d (exp + 1) exp), C by lia. replace (exp + 1 - exp) with 1 by lia. lia.
  - unfold scaledTo. cbn [dc_exp dc_coef]. rewrite Z.sub_diag. splits; [lia|lia|lia|done].
  - unfold scaledTo. cbn [dc_exp dc_coef]. rewrite Z.sub_diag. splits; [lia|lia|lia|lia].
Qed.

Lemma roundRemainder_rounds q e r den : 0 <= q -> 0 <= r < den -> roundRemainderHalfEven q e r den = (round_half_even (q * den + r) den, e).
Proof.
  intros Hq Hr. unfold roundRemainderHalfEven, round_half_even. rewrite Z.shiftl_mul_pow2 by lia. change (2 ^ 1) with 2.
  replace ((q * den + r) / den) with q by (apply (Z.div_unique _ _ _ r); lia). replace ((q * den + r) mod den) with r by (apply (Z.mod_unique _ _ q); lia).
  rewrite Z.bit0_odd, <- Z.negb_even. f_equal. replace (q <? 0) with false by lia. replace (r * 2) with (2 * r) by lia.
  destruct (Z.ltb_spec den (2 * r)), (Z.ltb_spec (2 * r) den), (Z.eqb_spec (2 * r) den); try lia; try done. by destruct (Z.even q).
Qed.

(** Division is the rational quotient rounded half to even: a quotient whose
    integer part of coefficients has at most 28 digits is exact when it ends within
    28 significant digits and else is the nearest decimal of 28 significant digits,
    ties to even; its exponent is the nearest to the ideal one (the difference of
    the exponents) at which the result can be written. *)
Theorem division_half_even (a b : pydec) (Ha : dc_coef a <> 0) (Hb : dc_coef b <> 0)
    (Hq : Z.abs (dc_coef a) < 10 ^ 28 * Z.abs (dc_coef b)) :
  let ideal := dc_exp a - dc_exp b in
  exists k q, 0 <= k /\ q = round_half_even (Z.abs (dc_coef a) * 10 ^ k) (Z.abs (dc_coef b)) /\
    (q * Z.abs (dc_coef b) = Z.abs (dc_coef a) * 10 ^ k \/ 10 ^ 27 <= q <= 10 ^ 28) /\
    scaledTo (ideal - k) (dec_div a b) = Z.sgn (dc_coef a) * Z.sgn (dc_coef b) * q /\
    ideal - k <= dc_exp (dec_div a b) <= ideal /\
    (dc_exp (dec_div a b) < ideal -> dc_coef (dec_div a b) mod 10 <> 0).
Proof.
  cbv zeta. set (n := Z.abs (dc_coef a)) in *. set (den := Z.abs (dc_coef b)) in *. assert (Hn : 0 < n) by lia. assert (Hd : 0 < den) by lia.
  unfold dec_div, dec_isZero. replace (dc_coef b =? 0) with false by lia. replace (dc_coef a =? 0) with false by lia. fold n den.
  destruct (scaleNum_spec (divFuel den) n den 0 Hn Hd) as (k0 & Hk0 & -> & Hl & Hh).
  { unfold divFuel. pose proof (Z.log2_nonneg den). rewrite Nat2Z.inj_succ, Z2Nat.id by done. pose proof (Z.log2_spec den Hd) as [_ Hs]. nia. }
  set (num := n * 10 ^ k0) in *. pose proof (Z.div_mod num den ltac:(lia)) as Ed. pose proof (Z.mod_pos_bound num den Hd) as Hm.
  assert (Hq0 : 1 <= num / den < 10 ^ 28).
  { split; [apply Z.div_le_lower_bound; lia|]. apply Z.div_lt_upper_bound; [done|]. unfold num in *. destruct Hh as [->|Hh]; [rewrite Z.mul_1_r|]; lia. }
  destruct (longDiv_spec (Z.to_nat decContextPrec) (num / den) (num mod den) den (0 + k0)) as (k1 & q & r & Hk1 & -> & Ev & Hr & Hq1 & Hend);
    [done|done|done|change (10 ^ Z.of_nat (Z.to_nat decContextPrec)) with (10 ^ 28); lia|].
  assert (Hnd : numDigits q <= 28).
  { destruct (Z.lt_ge_cases (numDigits q) 29) as [|Hc]; [lia|]. pose proof (numDigits_lt q 29 ltac:(lia) ltac:(lia)) as [_ H2]. change (29 - 1) with 28 in H2. lia. }
  replace (decContextPrec <? numDigits q) with false by (unfold decContextPrec; lia).
  assert (Hv : q * den + r = n * 10 ^ (k0 + k1)).
  { rewrite Ev, Z.pow_add_r, Z.mul_assoc by done. fold num. f_equal. lia. }
  assert (Hpair : (if negb (r =? 0) then roundRemainderHalfEven q (dc_exp a - dc_exp b - (0 + k0 + k1)) r den else (q, dc_exp a - dc_exp b - (0 + k0 + k1)))
    = (round_half_even (n * 10 ^ (k0 + k1)) den, dc_exp a - dc_exp b - (k0 + k1))).
  { replace (dc_exp a - dc_exp b - (0 + k0 + k1)) with (dc_exp a - dc_exp b - (k0 + k1)) by lia. destruct (Z.eqb_spec r 0) as [H0|H0]; cbn [negb].
    - f_equal. apply half_even_round; [done|]. rewrite <- Hv, H0, Z.add_0_r. by apply half_even_exact.
    - by rewrite roundRemainder_rounds, Hv by lia. }
  rewrite Hpair. set (Q := round_half_even (n * 10 ^ (k0 + k1)) den).
  assert (HQ : q <= Q <= q + 1). { apply round_half_even_mono_bounds; [done|lia]. }
  set (ideal := dc_exp a - dc_exp b). exists (k0 + k1), Q. unfold stripTrailingZerosTo. cbn [dc_coef dc_exp].
  set (c := if xorb _ _ then - Q else Q). assert (Hc : c = Z.sgn (dc_coef a) * Z.sgn (dc_coef b) * Q).
  { unfold c. destruct (Z.ltb_spec (dc_coef a) 0), (Z.ltb_spec (dc_coef b) 0); cbn [xorb].
    - rewrite !Z.sgn_neg by lia. lia.
    - rewrite Z.sgn_neg, Z.sgn_pos by lia. lia.
    - rewrite Z.sgn_pos, Z.sgn_neg by lia. lia.
    - rewrite !Z.sgn_pos by lia. lia. }
  assert (Hc0 : c <> 0) by (unfold c; destruct (xorb _ _); lia). replace (c =? 0) with false by lia.
  destruct (stripLoop_spec (Z.to_nat (ideal - (ideal - (k0 + k1)))) c (ideal - (k0 + k1)) ideal Hc0) as (A & B & C & D); [lia|].
  splits; [lia|done| |congruence|exact A| |exact D].
  - destruct Hend as [H0|H27]; [left|right; lia]. unfold Q. rewrite <- Hv, H0, Z.add_0_r.
    by rewrite <- (half_even_round _ den q Hd (half_even_exact q den Hd)).
  - apply B. lia.
Qed.

Lemma division_half_even_witness :
  dec_String (dec_div (decOfInt 2) (decOfInt (-3))) = "-0.6666666666666666666666666667" /\
  exists k q, 0 <= k /\ q = round_half_even (2 * 10 ^ k) 3 /\ scaledTo (- k) (dec_div (decOfInt 2) (decOfInt (-3))) = - q.
Proof.
  split; [by vm_compute|].
  destruct (division_half_even (decOfInt 2) (decOfInt (-3)) ltac:(done) ltac:(done) ltac:(done)) as (k & q & A & B & _ & D & _).
  exists k, q. splits; [exact A|exact B|]. revert D. generalize (dec_div (decOfInt 2) (decOfInt (-3))). cbn. intros d D. exact D.
Defined.

(** A quotient of more than 28 digits is rounded without its remainder: the exact
    quotient lies above the tie, so its nearest decimal is [2000000000000000000000000001e1]. *)
Lemma long_quotient_ignores_remainder :
  let a := decOfInt (3 * (2 * 10 ^ 28 + 5) + 1) in
  dec_div a (decOfInt 3) = mkPydec (2 * 10 ^ 27) 1 /\
  round_half_even (dc_coef a) (3 * 10) = 2 * 10 ^ 27 + 1.
Proof. by vm_compute. Qed.

(** A float that prints with an exponent is read as zero. *)
Lemma exponent_knob_reads_zero : decFromPyFloatStr (flit 5 100000) = decOfInt 0 /\ fgtb (flit 5 100000) fzero = true.
Proof. by vm_compute. Qed.

(** ** The decimal of a float that is not negative *)

Lemma uintDigits_all fuel : forall u, 0 <= u -> digits (uintDigits fuel u) /\ (fuel <> O -> exists t d, uintDigits fuel u = t ++ [d]).
Proof.
  induction fuel as [|f IH]; intros u Hu; cbn [uintDigits]; [by split; [constructor|]|]. destruct (Z.ltb_spec u 10).
  - split; [|intros _; by exists [], (digit u)]. constructor; [apply is_digit_digit; lia|constructor].
  - pose proof (Z.mod_pos_bound u 10 ltac:(lia)). split; [|intros _; by eexists _, _]. apply digits_app. split; [apply IH, Z.div_pos; lia|].
    constructor; [apply is_digit_digit; lia|constructor].
Qed.

Lemma searchDigits_nonneg fuel f n d x : forall digits, 0 <= n -> 0 <= d -> 0 <= (searchDigits fuel f n d x digits).1.
Proof.
  induction fuel as [|fuel IH]; intros digits Hn Hd; cbn [searchDigits].
  - unfold scaledDigits. cbn [fst]. destruct (Z.leb_spec 0 (x - digits + 1)) as [H|H].
    + destruct (Z.eq_dec d 0) as [->|]; [by rewrite Z.mul_0_l, Z.div_0_r|]. apply Z.div_pos; [done|]. pose proof (pow10_pos _ H). nia.
    + destruct (Z.eq_dec d 0) as [->|]; [by rewrite Z.div_0_r|]. apply Z.div_pos; [|lia]. pose proof (pow10_pos (- (x - digits + 1)) ltac:(lia)). nia.
  - destruct (tryDigits f n d x digits) as [[D k]|] eqn:E; [|by apply IH]. apply tryDigits_back in E as (p & -> & _). done.
Qed.

Lemma shortestDecimal_nonneg m e : 0 <= (shortestDecimal m e).1.
Proof. unfold shortestDecimal. destruct (fracOf m e) as [n d]. by apply searchDigits_nonneg. Qed.

(** Such a text starts and ends with a digit. *)
Definition digitEnds (s : list ascii) : Prop := (exists c t, s = c :: t /\ is_digit c = true) /\ (exists t c, s = t ++ [c] /\ is_digit c = true).

Lemma digitEnds_app a b c : digitEnds a -> digitEnds b -> digitEnds (a ++ c ++ b).
Proof.
  intros [(x & t & -> & Hx) _] [_ (t' & y & -> & Hy)]. split; [by exists x, (t ++ c ++ t' ++ [y])|]. exists ((x :: t) ++ c ++ t'), y. by rewrite !app_assoc.
Qed.

Lemma digits_ends ds : digits ds -> ds <> [] -> digitEnds ds.
Proof.
  intros Hd Hn. split; [destruct ds as [|c ds]; [done|]; exists c, ds; split; [done|by inversion Hd]|].
  destruct (exists_last Hn) as (t & c & ->). exists t, c. split; [done|]. apply digits_app in Hd as [_ Hd]. by inversion Hd.
Qed.

Lemma formatPyDigits_ends ds exp : digits ds -> ds <> [] -> digitEnds (formatPyDigits ds exp).
Proof.
  intros Hd Hn. pose proof (digits_ends ds Hd Hn) as He. unfold formatPyDigits. cbv zeta.
  assert (Hz : forall n, digitEnds (ds ++ repeat "0"%char n)).
  { intros n. apply digits_ends; [apply digits_app; split; [done|apply digits_zeros]|]. by destruct ds. }
  destruct (_ || _); [|destruct (Z.leb_spec 0 exp) as [H0|H0]; [destruct (Z.leb_spec (Z.of_nat (length ds)) (exp + 1)) as [Hl|Hl]|]].
  - unfold formatE. set (ex := if _ <? 10 then _ else _). set (mant := match ds with [] => _ | _ => _ end).
    assert (Hx : digitEnds ex).
    { destruct (uintDigits_all 20 (Z.abs exp) ltac:(lia)) as [D E]. destruct (E ltac:(lia)) as (t & d & Ed). unfold ex. apply digits_ends.
      - destruct (_ <? 10); [by constructor|exact D].
      - rewrite Ed. by destruct (_ <? 10), t. }
    destruct Hx as [_ (t' & y & -> & Hy)].
    assert (Hm : exists m, mant = hd "0"%char ds :: m). { unfold mant. destruct ds as [|c [|c' ds]]; [done|by eexists|by eexists]. }
    destruct Hm as [m ->]. destruct ds as [|c ds]; [done|]. split.
    + eexists c, _. split; [done|by inversion Hd].
    + exists ((c :: m) ++ ["e"%char; if exp <? 0 then "-"%char else "+"%char] ++ t'), y. cbn [hd]. by rewrite <- !app_assoc.
  - rewrite app_assoc. change ["."%char; "0"%char] with (["."%char] ++ ["0"%char]). apply digitEnds_app; [apply Hz|]. apply digits_ends; [by repeat constructor|done].
  - apply digitEnds_app; (apply digits_ends; [|intros H; apply (f_equal (@List.length ascii)) in H; rewrite ?length_firstn, ?length_skipn in H; cbn [List.length] in H; lia]).
    + apply (digits_app _ (skipn (Z.to_nat (exp + 1)) ds)). by rewrite firstn_skipn.
    + apply (digits_app (firstn (Z.to_nat (exp + 1)) ds)). by rewrite firstn_skipn.
  - change (["0"; "."]%char) with (["0"%char] ++ ["."%char]). rewrite <- app_assoc, (app_assoc ["."%char]). apply digitEnds_app; [|done].
    apply digits_ends; [by repeat constructor|done].
Qed.

Lemma digitEnds_trim s : digitEnds s -> trimSpace s = s.
Proof.
  intros [(c & t & -> & Hc) (t' & d & E & Hd)]. apply (trimSpace_id c t d t' E); left; unfold plainChar; [by rewrite Hc|by rewrite Hd].
Qed.

Lemma setString_unsigned c s v : is_digit c = true -> setString (c :: s) = Some v -> 0 <= v.
Proof.
  intros Hc. unfold setString. rewrite scanSign_digit by done. destruct (forallb is_digit (c :: s)) eqn:E; [|done]. intros [= <-].
  apply dval_bounds. apply List.Forall_forall. by apply forallb_forall.
Qed.

Lemma parseDec_unsigned s d : digitEnds (list_ascii_of_string s) -> parseDec s = Some d -> 0 <= dc_coef d /\ dc_exp d <= 0.
Proof.
  intros He. unfold parseDec. rewrite digitEnds_trim by done. destruct He as [(c & t & -> & Hc) _]. rewrite scanSign_digit by done.
  cbn [cutDot]. assert (Hne : Ascii.eqb c "." = false). { by destruct (Ascii.eqb_spec c ".") as [->|]. }
  rewrite Hne. destruct (cutDot t) as [a b]. cbn [app]. destruct (setString (c :: a ++ b)) as [v|] eqn:E; [|done]. cbn. intros [= <-]. cbn.
  split; [by apply setString_unsigned in E|lia].
Qed.

(** A knob of the configuration that is positive. *)
Lemma decFromPyFloatStr_nonneg f : fgtb f fzero = true -> 0 <= dc_coef (decFromPyFloatStr f) /\ dc_exp (decFromPyFloatStr f) <= 0.
Proof.
  intros Hf. unfold decFromPyFloatStr. destruct (parseDec _) as [d|] eqn:E; [|done]. cbn. destruct f as [s|s| |s m e]; try done.
  { destruct s; [done|]. by vm_compute in E. }
  destruct s; [done|]. revert E. unfold orbFloatRepr, pyFloatRepr. destruct (shortestDecimal m e) as [D k] eqn:Es.
  apply parseDec_unsigned. rewrite list_ascii_of_string_of_list_ascii. pose proof (shortestDecimal_nonneg m e) as HD. rewrite Es in HD.
  destruct (uintDigits_all 20 D HD) as [Hd Hl]. apply formatPyDigits_ends; [done|]. destruct (Hl ltac:(lia)) as (t & x & ->). by destruct t.
Qed.
