(* ===== verification/Orb.v ===== *)
(** * The opening-range breakout (src/internal/strategy/orb, orbadapter)

    The intraday generator of one symbol: the opening range of a session, its lock,
    the breakout entry with its bracket, the exits, the snapshot and the
    projections; the adapter that submits its signals.  Prices are the decimals of
    [PyDecimal].  A calendar date is a [Date]; the equity provider is read while a
    bar is handled: an operation takes the value it returns.  The time zone
    database is not part of the program: [LoadLocation] is a parameter. *)

From Stdlib Require Import SpecFloat.
From stdpp Require Import gmap strings list.
From S2P Require Import Prelude Lists Fixed Money Domain Float64 FloatInt Calendar Engine LiveSession Targets PyDecimal.
Set Default Goal Selector "!".
#[local] Open Scope string_scope.
#[local] Open Scope Z_scope.
#[local] Open Scope list_scope.
#[local] Abbreviation length := List.length.

(** ** config.go *)

Definition sessionOpenHour : Z := 9.
Definition sessionOpenMinute : Z := 30.

(** [oc_hasEquity] tells a provider from nil. *)
Record OrbConfig : Set := mkOrbConfig {
  oc_Symbol : string;
  oc_hasEquity : bool;
  oc_RiskPct : float64;
  oc_RangeMinutes : Z;
  oc_VolMultiple : float64;
  oc_ProfitTargetR : float64;
  oc_HardStopPct : float64;
  oc_EODExitTime : string;
  oc_Timezone : string
}.

Definition OrbDefaultConfig : OrbConfig :=
  mkOrbConfig "" false (zToFloat 1) 30 (flit 3 2) (zToFloat 2) (zToFloat 1) "15:55" "America/New_York".

Definition ErrOrbConfig (field : string) : error := ErrOther ("orb: invalid config: " ++ field)%string.

(** The digits of [atoiStrict], in a machine integer. *)
Fixpoint atoiDigits (n : Z) (s : list ascii) : option Z :=
  match s with
  | [] => Some n
  | c :: s => if is_digit c then atoiDigits (wrap64 (n * 10 + (code c - 48))) s else None
  end.

Definition atoiStrict (s : list ascii) : option Z :=
  let '(neg, ds) := scanSign s in
  match ds with
  | [] => None
  | _ => n ← atoiDigits 0 ds; Some (if neg : bool then wrap64 (- n) else n)
  end.

(** The text before the first colon and the text after it. *)
Fixpoint cutColon (s : list ascii) : option (list ascii * list ascii) :=
  match s with
  | [] => None
  | c :: s => if Ascii.eqb c ":"%char then Some ([], s) else '(a, b) ← cutColon s; Some (c :: a, b)
  end.

Definition splitColonInts (s : string) : option (Z * Z) :=
  '(l, r) ← cutColon (list_ascii_of_string s);
  match cutColon r with
  | Some _ => None
  | None => a ← atoiStrict l; b ← atoiStrict r; Some (a, b)
  end.

Definition parseHHMM (s : string) : option (Z * Z) :=
  '(h, m) ← splitColonInts s;
  if (0 <=? h) && (h <=? 23) && (0 <=? m) && (m <=? 59) then Some (h, m) else None.

Definition OrbConfig_Validate (LoadLocation : string -> option Location) (c : OrbConfig) : res unit :=
  let need (ok : bool) field := if ok then Ok tt else Err (ErrOrbConfig field) in
  _ <-? need (oc_hasEquity c) "equity_provider" ;;
  _ <-? need (fgtb (oc_RiskPct c) fzero && fleb (oc_RiskPct c) (zToFloat 100)) "risk_pct" ;;
  _ <-? need (1 <=? oc_RangeMinutes c) "range_minutes" ;;
  _ <-? need (fgtb (oc_VolMultiple c) fzero) "vol_multiple" ;;
  _ <-? need (fgtb (oc_ProfitTargetR c) fzero) "profit_target_r" ;;
  _ <-? need (fgtb (oc_HardStopPct c) fzero && fleb (oc_HardStopPct c) (zToFloat 50)) "hard_stop_pct" ;;
  _ <-? need (bool_decide (is_Some (parseHHMM (oc_EODExitTime c)))) "eod_exit_time" ;;
  need (match LoadLocation (oc_Timezone c) with Some _ => true | None => false end) "timezone".

(** ** types.go *)

Record OrbBar : Set := mkOrbBar {
  rb_Symbol : string; rb_TS : time; rb_Open : pydec; rb_High : pydec; rb_Low : pydec; rb_Close : pydec; rb_Volume : Z
}.

Definition NewBarFromFloats (symbol : string) (ts : time) (o h l c : float64) (vol : Z) : OrbBar :=
  mkOrbBar symbol ts (decFromPyFloatStr o) (decFromPyFloatStr h) (decFromPyFloatStr l) (decFromPyFloatStr c) vol.

Definition NewBarFromStrings (symbol : string) (ts : time) (o h l c : string) (vol : Z) : option OrbBar :=
  od ← parseDec o; hd ← parseDec h; ld ← parseDec l; cd ← parseDec c;
  Some (mkOrbBar symbol ts od hd ld cd vol).

Record OrbSignal : Set := mkOrbSignal {
  os_Symbol : string; os_TS : time; os_Side : SignalSide; os_TargetQty : Z; os_Reason : string; os_Confidence : float64; os_StopPrice : string
}.

Record OrbSnapshot : Set := mkOrbSnapshot {
  on_Symbol : string;
  on_State : SignalState;
  on_Strength : float64;
  on_Proximity : option float64;
  on_UpdatedAt : time;
  on_Generation : Z;
  on_StrategyID : string;
  on_ORBHigh : string;
  on_ORBLow : string;
  on_EntryWindowEnd : option time
}.

(** ** signal.go *)

Record OrbGenerator : Type := mkOrb {
  ob_cfg : OrbConfig;
  ob_loc : Location;
  ob_session : option Date;
  ob_count : Z;
  ob_high : option pydec;
  ob_low : option pydec;
  ob_locked : bool;
  ob_total : Z;
  ob_avg : float64;
  ob_qty : Z;
  ob_entry : pydec;
  ob_stop : pydec;
  ob_target : pydec;
  ob_last : option pydec;
  ob_generation : Z
}.

Definition orb_iso (d : Date) : string := string_of_list_ascii (DateString d).

Definition NewOrb (LoadLocation : string -> option Location) (cfg : OrbConfig) : res OrbGenerator :=
  _ <-? OrbConfig_Validate LoadLocation cfg ;;
  match LoadLocation (oc_Timezone cfg) with
  | None => Err (ErrOrbConfig "timezone")
  | Some loc => Ok (mkOrb cfg loc None 0 None None false 0 fzero 0 (decOfInt 0) (decOfInt 0) (decOfInt 0) None 0)
  end.

Definition with_last (c : pydec) (g : OrbGenerator) : OrbGenerator :=
  mkOrb (ob_cfg g) (ob_loc g) (ob_session g) (ob_count g) (ob_high g) (ob_low g) (ob_locked g) (ob_total g) (ob_avg g)
    (ob_qty g) (ob_entry g) (ob_stop g) (ob_target g) (Some c) (ob_generation g).
Definition with_position (qty : Z) (entry stop target : pydec) (g : OrbGenerator) : OrbGenerator :=
  mkOrb (ob_cfg g) (ob_loc g) (ob_session g) (ob_count g) (ob_high g) (ob_low g) (ob_locked g) (ob_total g) (ob_avg g)
    qty entry stop target (ob_last g) (ob_generation g).

Definition resetSession (d : Date) (g : OrbGenerator) : OrbGenerator :=
  mkOrb (ob_cfg g) (ob_loc g) (Some d) 0 None None false 0 fzero 0 (decOfInt 0) (decOfInt 0) (decOfInt 0) (ob_last g) (ob_generation g).

Definition extendRange (bar : OrbBar) (g : OrbGenerator) : OrbGenerator :=
  let high := match ob_high g with Some h => if 0 <? dec_cmp (rb_High bar) h then rb_High bar else h | None => rb_High bar end in
  let low := match ob_low g with Some l => if dec_cmp (rb_Low bar) l <? 0 then rb_Low bar else l | None => rb_Low bar end in
  mkOrb (ob_cfg g) (ob_loc g) (ob_session g) (wrap64 (ob_count g + 1)) (Some high) (Some low) (ob_locked g) (wrap64 (ob_total g + rb_Volume bar))
    (ob_avg g) (ob_qty g) (ob_entry g) (ob_stop g) (ob_target g) (ob_last g) (ob_generation g).

Definition lockRange (g : OrbGenerator) : OrbGenerator :=
  if (ob_count g =? 0) || match ob_high g with None => true | _ => false end then g
  else mkOrb (ob_cfg g) (ob_loc g) (ob_session g) (ob_count g) (ob_high g) (ob_low g) true (ob_total g)
         (fdiv (zToFloat (ob_total g)) (zToFloat (ob_count g))) (ob_qty g) (ob_entry g) (ob_stop g) (ob_target g) (ob_last g) (ob_generation g).

(** The opening, the end of the opening range and the exit instant of a date. *)
Definition sessionOpen (loc : Location) (d : Date) : time :=
  dateIn loc (d_Year d) (d_Month d) (d_Day d) sessionOpenHour sessionOpenMinute.
Definition rangeEnd (cfg : OrbConfig) (loc : Location) (d : Date) : time :=
  let t := sessionOpen loc d in mkTime (t_ns t + wrap64 (oc_RangeMinutes cfg * 60000000000)) (t_off t).
Definition eodDT (cfg : OrbConfig) (loc : Location) (d : Date) : time :=
  let '(h, m) := default (0, 0) (parseHHMM (oc_EODExitTime cfg)) in dateIn loc (d_Year d) (d_Month d) (d_Day d) h m.

Definition makeFlatSignal (bar : OrbBar) (reason : string) (g : OrbGenerator) : OrbGenerator * OrbSignal :=
  (with_position 0 (decOfInt 0) (decOfInt 0) (decOfInt 0) g,
   mkOrbSignal (oc_Symbol (ob_cfg g)) (rb_TS bar) SideFlat (ob_qty g) reason (zToFloat 1) "").

Definition breakoutReason (bar : OrbBar) (high stop target : pydec) (g : OrbGenerator) : string :=
  ("ORB breakout: close " ++ dec_String (rb_Close bar) ++ " > range_high " ++ dec_String high ++ ", vol " ++
   string_of_list_ascii (formatInt (rb_Volume bar)) ++ " > avg " ++ string_of_list_ascii (pyFmt0 (ob_avg g)) ++ " * " ++
   string_of_list_ascii (orbFloatRepr (oc_VolMultiple (ob_cfg g))) ++ " :: stop " ++ dec_String stop ++ ", target " ++ dec_String target)%string.

Definition orbMaybeEnter (equity : float64) (bar : OrbBar) (d : Date) (g : OrbGenerator) : OrbGenerator * list OrbSignal :=
  let cfg := ob_cfg g in
  if negb (Before (rb_TS bar) (eodDT cfg (ob_loc g) d)) then (g, [])
  else
    match ob_high g, ob_low g with
    | Some high, Some low =>
        if dec_cmp (rb_Close bar) high <=? 0 then (g, [])
        else if fleb (zToFloat (rb_Volume bar)) (fmul (ob_avg g) (oc_VolMultiple cfg)) then (g, [])
        else
          let entry := rb_Close bar in
          let hardStop := dec_mul entry (dec_sub (decOfInt 1) (dec_divInt (decFromPyFloatStr (oc_HardStopPct cfg)) 100)) in
          let stop := if 0 <? dec_cmp hardStop low then hardStop else low in
          if 0 <=? dec_cmp stop entry then (g, [])
          else
            let stopDistance := dec_sub entry stop in
            let target := dec_add entry (dec_mul stopDistance (decFromPyFloatStr (oc_ProfitTargetR cfg))) in
            let riskDollar := fmul equity (fdiv (oc_RiskPct cfg) (zToFloat 100)) in
            let shares := intOfFloat (ffloor (fdiv riskDollar (dec_float64 stopDistance))) in
            if shares <? 1 then (g, [])
            else
              (with_position shares entry stop target g,
               [mkOrbSignal (oc_Symbol cfg) (rb_TS bar) SideLong shares (breakoutReason bar high stop target g) (zToFloat 1) (dec_String stop)])
    | _, _ => (g, [])
    end.

Definition flatOne (bar : OrbBar) (reason : string) (g : OrbGenerator) : OrbGenerator * list OrbSignal :=
  let '(g, s) := makeFlatSignal bar reason g in (g, [s]).

Definition orbMaybeExit (bar : OrbBar) (d : Date) (g : OrbGenerator) : OrbGenerator * list OrbSignal :=
  if negb (Before (rb_TS bar) (eodDT (ob_cfg g) (ob_loc g) d)) then flatOne bar ("EOD exit at " ++ oc_EODExitTime (ob_cfg g))%string g
  else if dec_cmp (rb_Low bar) (ob_stop g) <=? 0 then flatOne bar ("stop hit at " ++ dec_String (ob_stop g))%string g
  else if 0 <=? dec_cmp (rb_High bar) (ob_target g) then flatOne bar ("target hit at " ++ dec_String (ob_target g))%string g
  else (g, []).

(** The session change at the head of [OnBar]. *)
Definition enterSession (bar : OrbBar) (d : Date) (g : OrbGenerator) : OrbGenerator * list OrbSignal :=
  if bool_decide (ob_session g = Some d) then (g, [])
  else
    let '(g, s) := if 0 <? ob_qty g then flatOne bar "session boundary" g else (g, []) in
    (resetSession d g, s).

Definition Orb_OnBar (equity : float64) (bar : OrbBar) (g : OrbGenerator) : OrbGenerator * list OrbSignal :=
  if negb (String.eqb (rb_Symbol bar) (oc_Symbol (ob_cfg g))) then (g, [])
  else
    let g := with_last (rb_Close bar) g in
    let d := DateOf (ob_loc g) (rb_TS bar) in
    let '(g, signals) := enterSession bar d g in
    if Before (rb_TS bar) (rangeEnd (ob_cfg g) (ob_loc g) d) then (extendRange bar g, signals)
    else
      let g := if ob_locked g then g else lockRange g in
      if negb (ob_locked g) then (g, signals)
      else
        let '(g, s) := if 0 <? ob_qty g then orbMaybeExit bar d g else orbMaybeEnter equity bar d g in
        (g, signals ++ s).

(** ** intent.go *)

Definition decPtrString (d : option pydec) : string := match d with Some d => dec_String d | None => "" end.

(** [100 * (a / b)] as a float. *)
Definition orbPercent (a b : pydec) : float64 := dec_float64 (dec_mul (dec_div a b) (decOfInt 100)).

Definition Orb_EvaluateSignal (asOf : time) (g : OrbGenerator) : OrbGenerator * OrbSnapshot :=
  let n := wrap64 (ob_generation g + 1) in
  let g := mkOrb (ob_cfg g) (ob_loc g) (ob_session g) (ob_count g) (ob_high g) (ob_low g) (ob_locked g) (ob_total g) (ob_avg g)
             (ob_qty g) (ob_entry g) (ob_stop g) (ob_target g) (ob_last g) n in
  let window := eodDT (ob_cfg g) (ob_loc g) <$> ob_session g in
  let base (state : SignalState) strength proximity :=
    (g, mkOrbSnapshot (oc_Symbol (ob_cfg g)) state strength proximity asOf n StrategyIDIntradayBreakout
          (decPtrString (ob_high g)) (decPtrString (ob_low g)) (UTC <$> window)) in
  match ob_high g, ob_low g, ob_locked g with
  | Some orbHigh, Some orbLow, true =>
      if 0 <? ob_qty g then base "hold" (zToFloat 100) None
      else if match window with Some w => negb (Before asOf w) | None => false end then base "no_setup" fzero None
      else
        match ob_last g with
        | None => base "forming" (zToFloat 50) None
        | Some last =>
            let prox := orbPercent (dec_sub last orbHigh) orbHigh in
            if 0 <? dec_cmp last orbHigh then base "buy" (zToFloat 100) (Some prox)
            else
              let rangeWidth := dec_sub orbHigh orbLow in
              let strength :=
                if 0 <? dec_cmp rangeWidth (decOfInt 0)
                then fmax fzero (fmin (zToFloat 100) (orbPercent (dec_sub last orbLow) rangeWidth))
                else zToFloat 50 in
              base "forming" strength (Some prox)
        end
  | _, _, _ => base "no_setup" fzero None
  end.

(** ** state.go *)

Record OrbStateSummary : Set := mkOrbSummary {
  ou_Symbol : string;
  ou_SessionDate : option string;
  ou_RangeHigh : option string;
  ou_RangeLow : option string;
  ou_RangeLocked : bool;
  ou_AvgVolume : float64;
  ou_PositionQty : Z;
  ou_EntryPrice : option string;
  ou_StopPrice : option string;
  ou_TargetPrice : option string
}.

Definition Orb_StateSummary (g : OrbGenerator) : OrbStateSummary :=
  let held (d : pydec) := if 0 <? ob_qty g then Some (dec_String d) else None in
  mkOrbSummary (oc_Symbol (ob_cfg g)) (orb_iso <$> ob_session g) (dec_String <$> ob_high g) (dec_String <$> ob_low g) (ob_locked g)
    (ob_avg g) (ob_qty g) (held (ob_entry g)) (held (ob_stop g)) (held (ob_target g)).

Record OrbStateConfig : Set := mkOrbStateConfig {
  ok_Symbol : string;
  ok_RiskPct : float64;
  ok_RangeMinutes : Z;
  ok_VolMultiple : float64;
  ok_ProfitTargetR : float64;
  ok_HardStopPct : float64;
  ok_EODExitTime : string;
  ok_Timezone : string;
  ok_EquityAtSnapshot : float64
}.

Record OrbStateDict : Set := mkOrbStateDict {
  od_CurrentSessionDate : option string;
  od_RangeBarsCount : Z;
  od_RangeHigh : option string;
  od_RangeLow : option string;
  od_RangeLocked : bool;
  od_RangeTotalVolume : Z;
  od_AvgVolume : float64;
  od_PositionQty : Z;
  od_EntryPrice : string;
  od_StopPrice : string;
  od_TargetPrice : string;
  od_Config : OrbStateConfig
}.

Definition Orb_StateDict (equity : float64) (g : OrbGenerator) : OrbStateDict :=
  let c := ob_cfg g in
  mkOrbStateDict (orb_iso <$> ob_session g) (ob_count g) (dec_String <$> ob_high g) (dec_String <$> ob_low g) (ob_locked g) (ob_total g)
    (ob_avg g) (ob_qty g) (dec_String (ob_entry g)) (dec_String (ob_stop g)) (dec_String (ob_target g))
    (mkOrbStateConfig (oc_Symbol c) (oc_RiskPct c) (oc_RangeMinutes c) (oc_VolMultiple c) (oc_ProfitTargetR c) (oc_HardStopPct c)
       (oc_EODExitTime c) (oc_Timezone c) equity).

Definition orbParseISODate (s : string) : option Date :=
  let cs := list_ascii_of_string s in
  if negb (length cs =? 10)%nat || negb (Ascii.eqb (nth 4 cs " "%char) "-"%char) || negb (Ascii.eqb (nth 7 cs " "%char) "-"%char) then None
  else
    y ← atoiStrict (firstn 4 cs);
    mo ← atoiStrict (firstn 2 (skipn 5 cs));
    d ← atoiStrict (firstn 2 (skipn 8 cs));
    if (mo <? 1) || (12 <? mo) || (d <? 1) || (31 <? d) then None else Some (mkDate y mo d).

Definition parseDecPtr (s : option string) : option pydec :=
  s ← s; if String.eqb s "" then None else parseDec s.

Definition parseDecOrZero (s : string) : pydec :=
  if String.eqb s "" then decOfInt 0 else default (decOfInt 0) (parseDec s).

(** A malformed date leaves the generator as it was. *)
Definition Orb_LoadState (sd : OrbStateDict) : eff OrbGenerator unit := fun g =>
  let session :=
    match od_CurrentSessionDate sd with
    | Some s => if String.eqb s "" then Some None else Some <$> orbParseISODate s
    | None => Some None
    end in
  match session with
  | None => (g, Err (ErrOrbConfig "current_session_date"))
  | Some session =>
      (mkOrb (ob_cfg g) (ob_loc g) session (od_RangeBarsCount sd) (parseDecPtr (od_RangeHigh sd)) (parseDecPtr (od_RangeLow sd)) (od_RangeLocked sd)
         (od_RangeTotalVolume sd) (od_AvgVolume sd) (od_PositionQty sd) (parseDecOrZero (od_EntryPrice sd)) (parseDecOrZero (od_StopPrice sd))
         (parseDecOrZero (od_TargetPrice sd)) (ob_last g) (ob_generation g), Ok tt)
  end.

(** ** orbadapter/adapter.go, orbadapter/intent.go *)

(** The texts of a price always parse ([toORBBar_price]). *)
Definition toORBBar (bar : Bar) : OrbBar :=
  let z := decOfInt 0 in
  default (mkOrbBar "" zeroTime z z z z 0)
    (NewBarFromStrings (bar_Symbol bar) (bar_TS bar) (Price_StringFixed (bar_Open bar) 2) (Price_StringFixed (bar_High bar) 2)
       (Price_StringFixed (bar_Low bar) 2) (Price_StringFixed (bar_Close bar) 2) (bar_Volume bar)).

Definition orbItoa (n : Z) : string := string_of_list_ascii (formatInt n).

(** The body of the loop of [OnBar], in the fields of the signal it reads. *)
Definition orbSubmitTo {St} (id sym : string) (side : SignalSide) (qty : Z) (reason : string) (ts : time) (k : option error -> SProg St) : SProg St :=
  let next {A} (r : res A) := k (match r with Err e => Some e | Ok _ => None end) in
  if String.eqb side SideLong then
    if qty <=? 0 then k None
    else SSubmitSignal id sym SideLong OrderSideBuy qty ("[IntradayBreakout] LONG " ++ orbItoa qty ++ " " ++ sym ++ " :: " ++ reason)%string ts next
  else if String.eqb side SideFlat then
    CloseToFlat id sym ts (fun net => ("[IntradayBreakout] FLAT (close " ++ orbItoa net ++ ") " ++ sym ++ " :: " ++ reason)%string) next
  else k None.

Definition orbSubmit {St} (id : string) (s : OrbSignal) (k : option error -> SProg St) : SProg St :=
  orbSubmitTo id (os_Symbol s) (os_Side s) (os_TargetQty s) (os_Reason s) (os_TS s) k.

Definition orbAdapterOnBar (id : string) (g : OrbGenerator) (bar : Bar) : SProg OrbGenerator :=
  SEquityFloat (fun equity => let '(g', sigs) := Orb_OnBar equity (toORBBar bar) g in submitLoop (orbSubmit id) g' sigs).

Definition orbStrategy (id : string) (g : OrbGenerator) : Strategy OrbGenerator :=
  mkStrategy id (orbAdapterOnBar id) None (Some [oc_Symbol (ob_cfg g)]) None None.

Definition NewOrbAdapter (id : string) (g : OrbGenerator) : res (Strategy OrbGenerator) :=
  if String.eqb id "" then Err ErrInvalidArgument else Ok (orbStrategy id g).

Definition priceStrPtr (s : string) : option Price :=
  if String.eqb s "" then None else match ParsePrice s with Ok p => Some p | Err _ => None end.

Definition orbNormalizeSignal (s : OrbSnapshot) : IntradayBreakoutSignal :=
  mkBreakoutSignal
    (mkCore (on_Symbol s) (on_State s) (on_Strength s) (on_Proximity s) (UTC (on_UpdatedAt s)) (on_Generation s) StrategyIDIntradayBreakout)
    (priceStrPtr (on_ORBHigh s)) (priceStrPtr (on_ORBLow s)) (UTC <$> on_EntryWindowEnd s).

(** ** The position of the generator *)

(** A position lies between its bracket, in a session whose exit comes after its
    range; every decimal keeps a scale that is not positive. *)
Record orbOk (g : OrbGenerator) : Prop := {
  oo_target : fgtb (oc_ProfitTargetR (ob_cfg g)) fzero = true;
  oo_qty : 0 <= ob_qty g <= max_int64;
  oo_held : 0 < ob_qty g -> ob_locked g = true /\ dec_lt (ob_stop g) (ob_entry g) /\ dec_le (ob_entry g) (ob_target g) /\
    exists d, ob_session g = Some d /\ t_ns (rangeEnd (ob_cfg g) (ob_loc g) d) < t_ns (eodDT (ob_cfg g) (ob_loc g) d);
  oo_high : forall d, ob_high g = Some d -> dc_exp d <= 0;
  oo_low : forall d, ob_low g = Some d -> dc_exp d <= 0;
  oo_prices : dc_exp (ob_entry g) <= 0 /\ dc_exp (ob_stop g) <= 0 /\ dc_exp (ob_target g) <= 0
}.

Definition barScaled (bar : OrbBar) : Prop := dc_exp (rb_High bar) <= 0 /\ dc_exp (rb_Low bar) <= 0 /\ dc_exp (rb_Close bar) <= 0.

Definition orbPos (g : OrbGenerator) (sym : string) : Z := if decide (sym = oc_Symbol (ob_cfg g)) then ob_qty g else 0.

(** The signal as a target. *)
Definition orbTarget (s : OrbSignal) : DomainSignal := NewSignal (os_Symbol s) (os_TS s) (os_Side s) (os_TargetQty s) (os_Reason s).

(** One operation: it keeps the invariant and the configuration, and its signals
    are targets that lead to its position. *)
Record orbStep (g g' : OrbGenerator) (sigs : list OrbSignal) : Prop := {
  st_ok : orbOk g';
  st_cfg : ob_cfg g' = ob_cfg g /\ ob_loc g' = ob_loc g;
  st_sides : Forall (fun s => os_Side s = SideLong \/ os_Side s = SideFlat) sigs;
  st_fresh : allFresh (orbPos g) (map orbTarget sigs);
  st_replay : forall sym, orbPos g' sym = replay (map orbTarget sigs) (orbPos g) sym
}.

Lemma orbStep_trans g1 g2 g3 s1 s2 : orbStep g1 g2 s1 -> orbStep g2 g3 s2 -> orbStep g1 g3 (s1 ++ s2).
Proof.
  intros [_ [C1 L1] B1 F1 R1] [K2 [C2 L2] B2 F2 R2]. split; [done|by split; congruence|by apply Forall_app| |].
  - rewrite map_app. apply allFresh_app. split; [done|]. eapply allFresh_ext; [|exact F2]. exact R1.
  - intros sym. rewrite R2, map_app, replay_app. by apply replay_ext.
Qed.

(** Operations that emit nothing. *)
Lemma orbStep_quiet g g' : orbOk g' -> ob_cfg g' = ob_cfg g -> ob_loc g' = ob_loc g -> ob_qty g' = ob_qty g -> orbStep g g' [].
Proof. intros K C L Q. split; [done|done|constructor|done|]. intros sym. unfold orbPos. cbn. by rewrite C, Q. Qed.

Lemma flatOne_step bar reason g : orbOk g -> orbStep g (flatOne bar reason g).1 (flatOne bar reason g).2 /\ ob_qty (flatOne bar reason g).1 = 0.
Proof.
  intros [T Q H Hh Hl P]. split; [|done]. split; [split; cbn; try done; lia|done|by repeat constructor; right| |].
  - cbn. split; [|done]. right. split; [done|]. unfold orbPos. cbn. destruct (decide _); lia.
  - intros sym. unfold orbPos, replay, setTarget. cbn. destruct (decide (sym = _)); done.
Qed.

Lemma resetSession_step d g : orbOk g -> ob_qty g = 0 -> orbStep g (resetSession d g) [].
Proof. intros [T Q H Hh Hl P] Q0. apply orbStep_quiet; [split; cbn; done || lia|done|done|done]. Qed.

Lemma enterSession_step bar d g : orbOk g ->
  let g' := (enterSession bar d g).1 in
  orbStep g g' (enterSession bar d g).2 /\ ob_session g' = Some d /\
  (ob_session g = Some d /\ g' = g \/ ob_session g <> Some d /\ ob_qty g' = 0 /\ ob_locked g' = false /\ ob_count g' = 0).
Proof.
  intros K. unfold enterSession. destruct (bool_decide_reflect (ob_session g = Some d)) as [E|E]; [splits; [by apply orbStep_quiet|done|by left]|].
  destruct (Z.ltb_spec 0 (ob_qty g)) as [H|H].
  - destruct (flatOne bar "session boundary" g) as [g1 s] eqn:E1. cbn [fst snd]. destruct (flatOne_step bar "session boundary" g K) as [S1 Q1].
    rewrite E1 in S1, Q1. cbn [fst snd] in S1, Q1. splits; [|done|by right]. rewrite <- (app_nil_r s). apply (orbStep_trans _ g1); [done|]. apply resetSession_step; [apply S1|done].
  - cbn [fst snd]. splits; [|done|by right]. apply resetSession_step; [done|]. pose proof (oo_qty g K). lia.
Qed.

Lemma extendRange_step bar g : orbOk g -> barScaled bar -> orbStep g (extendRange bar g) [].
Proof.
  intros [T Q H Hh Hl P] (B1 & B2 & B3). apply orbStep_quiet; [|done|done|done]. split; cbn; try done.
  - intros d [= <-]. destruct (ob_high g) as [h|]; [destruct (_ <? _); [done|by apply Hh]|done].
  - intros d [= <-]. destruct (ob_low g) as [l|]; [destruct (_ <? _); [done|by apply Hl]|done].
Qed.

Lemma lockRange_step g : orbOk g -> orbStep g (lockRange g) [].
Proof.
  intros K. unfold lockRange. destruct (_ || _); [by apply orbStep_quiet|]. destruct K as [T Q H Hh Hl P].
  apply orbStep_quiet; [|done|done|done]. split; cbn; try done. intros Hq. by destruct (H Hq) as (_ & ?).
Qed.

Lemma target_above entry stop r : dec_lt stop entry -> 0 <= dc_coef r -> dec_le entry (dec_add entry (dec_mul (dec_sub entry stop) r)).
Proof.
  intros Hs Hr. set (p := dec_mul (dec_sub entry stop) r). set (E := Z.min (dc_exp entry) (dc_exp p)).
  apply (dec_le_scaled E); [lia|rewrite dec_exp_add; lia|]. rewrite scaledTo_add by lia.
  enough (0 <= scaledTo E p) by lia. unfold scaledTo. apply Z.mul_nonneg_nonneg; [|apply Z.pow_nonneg; lia]. unfold p. cbn [dec_mul dc_coef].
  apply Z.mul_nonneg_nonneg; [|done]. apply (dec_lt_scaled (Z.min (dc_exp entry) (dc_exp stop))) in Hs; [|lia|lia].
  unfold dec_sub. rewrite align_scaled. cbv zeta. cbn [dc_coef]. lia.
Qed.

Lemma orbMaybeEnter_step equity bar d g : orbOk g -> barScaled bar -> ob_qty g = 0 -> ob_locked g = true -> ob_session g = Some d ->
  Before (rb_TS bar) (rangeEnd (ob_cfg g) (ob_loc g) d) = false ->
  orbStep g (orbMaybeEnter equity bar d g).1 (orbMaybeEnter equity bar d g).2 /\
  (Before (rb_TS bar) (eodDT (ob_cfg g) (ob_loc g) d) = false -> ob_qty (orbMaybeEnter equity bar d g).1 = 0).
Proof.
  intros K (B1 & B2 & B3) Q0 L S Hr. unfold orbMaybeEnter. assert (Hquiet : orbStep g g []) by (by apply orbStep_quiet). cbv zeta.
  destruct (Before (rb_TS bar) (eodDT (ob_cfg g) (ob_loc g) d)) eqn:He; cbn [negb]; [|by split].
  destruct (ob_high g) as [h|] eqn:Eh, (ob_low g) as [l|] eqn:El; try (by split).
  destruct (dec_cmp (rb_Close bar) h <=? 0); [by split|]. destruct (fleb _ _); [by split|].
  set (stop := if 0 <? _ then _ else l). destruct (Z.leb_spec 0 (dec_cmp stop (rb_Close bar))) as [|Hs]; [by split|].
  set (shares := intOfFloat _). destruct (Z.ltb_spec shares 1) as [|Hsh]; [by split|].
  assert (Hmax : shares <= max_int64) by apply intOfFloat_range. pose proof (decFromPyFloatStr_nonneg _ (oo_target g K)) as [Hc _].
  assert (Hlt : dec_lt stop (rb_Close bar)) by (by apply dec_lt_cmp).
  assert (Hse : dc_exp stop <= 0). { unfold stop. destruct (0 <? _); [|by apply (oo_low g K)]. cbn [dec_mul dc_exp]. rewrite dec_exp_sub. cbn [decOfInt dc_exp]. lia. }
  destruct K as [T Q H Hh Hl P]. unfold Before in *. split; [|done]. split; [split; cbn [fst ob_cfg ob_loc ob_qty ob_locked ob_stop ob_entry ob_target ob_session ob_high ob_low with_position]; try done; try lia| done |by repeat constructor; left| |].
  - intros _. splits; [done|done|by apply target_above|]. exists d. split; [done|]. breflect. lia.
  - splits; [done|done|]. rewrite dec_exp_add. lia.
  - cbn. split; [|done]. left. split; [split; [by left|cbn; lia]|]. unfold orbPos. cbn. by destruct (decide _).
  - intros sym. unfold orbPos, replay, setTarget. cbn. by destruct (decide (sym = _)).
Qed.

Lemma orbMaybeExit_step bar d g : orbOk g ->
  orbStep g (orbMaybeExit bar d g).1 (orbMaybeExit bar d g).2 /\
  (Before (rb_TS bar) (eodDT (ob_cfg g) (ob_loc g) d) = false -> ob_qty (orbMaybeExit bar d g).1 = 0).
Proof.
  intros K. unfold orbMaybeExit. destruct (Before _ _); cbn [negb]; [|destruct (flatOne_step bar ("EOD exit at " ++ oc_EODExitTime (ob_cfg g))%string g K); by split].
  destruct (_ <=? 0); [split; [apply flatOne_step, K|done]|]. destruct (0 <=? _); (split; [|done]); [apply flatOne_step, K|by apply orbStep_quiet].
Qed.

(** The exit instant of the bar's date is over. *)
Definition pastEOD (g : OrbGenerator) (bar : OrbBar) : Prop :=
  rb_Symbol bar = oc_Symbol (ob_cfg g) /\ Before (rb_TS bar) (eodDT (ob_cfg g) (ob_loc g) (DateOf (ob_loc g) (rb_TS bar))) = false.

Lemma Orb_OnBar_step equity bar g : orbOk g -> barScaled bar ->
  orbStep g (Orb_OnBar equity bar g).1 (Orb_OnBar equity bar g).2 /\ (pastEOD g bar -> ob_qty (Orb_OnBar equity bar g).1 = 0).
Proof.
  intros K B. unfold Orb_OnBar, pastEOD. destruct (String.eqb_spec (rb_Symbol bar) (oc_Symbol (ob_cfg g))) as [Es|Es]; cbn [negb];
    [|split; [by apply orbStep_quiet|by intros []]].
  assert (K1 : orbOk (with_last (rb_Close bar) g)) by (destruct K; by split).
  assert (S0 : orbStep g (with_last (rb_Close bar) g) []) by (by apply orbStep_quiet).
  cbv zeta. change (ob_loc (with_last (rb_Close bar) g)) with (ob_loc g). set (d := DateOf (ob_loc g) (rb_TS bar)).
  destruct (enterSession bar d (with_last (rb_Close bar) g)) as [g2 s2] eqn:E2.
  destruct (enterSession_step bar d (with_last (rb_Close bar) g) K1) as (S2 & D2 & Hcase). rewrite E2 in S2, D2, Hcase. cbn [fst snd] in S2, D2, Hcase.
  pose proof (orbStep_trans _ _ _ [] _ S0 S2) as S02. cbn [app] in S02. destruct (st_cfg _ _ _ S02) as [C2 L2]. pose proof (st_ok _ _ _ S2) as K2.
  rewrite C2, L2. destruct (Before (rb_TS bar) (rangeEnd (ob_cfg g) (ob_loc g) d)) eqn:Hr.
  - split; [rewrite <- (app_nil_r s2); by apply (orbStep_trans _ g2), extendRange_step|]. cbn [fst]. intros [_ He]. cbn [extendRange ob_qty].
    destruct Hcase as [[Hd ->]|(_ & Hq & _)]; [|done]. destruct (Z.eq_dec (ob_qty g) 0) as [Hz|Hz]; [done|]. exfalso.
    destruct (oo_held g K) as (_ & _ & _ & d' & E' & Hlt); [pose proof (oo_qty g K); lia|]. cbn in Hd. assert (d' = d) as -> by congruence. unfold Before in *. breflect. lia.
  - set (g3 := if ob_locked g2 then g2 else lockRange g2). assert (S3 : orbStep g2 g3 []) by (unfold g3; destruct (ob_locked g2); [by apply orbStep_quiet|by apply lockRange_step]).
    pose proof (orbStep_trans _ _ _ _ [] S02 S3) as S03. rewrite app_nil_r in S03. pose proof (st_ok _ _ _ S3) as K3. destruct (st_cfg _ _ _ S03) as [C3 L3].
    assert (D3 : ob_session g3 = Some d). { unfold g3. destruct (ob_locked g2); [done|]. unfold lockRange. by destruct (_ || _). }
    destruct (ob_locked g3) eqn:L; cbn [negb].
    + assert (Hstep : orbStep g3 (if 0 <? ob_qty g3 then orbMaybeExit bar d g3 else orbMaybeEnter equity bar d g3).1
        (if 0 <? ob_qty g3 then orbMaybeExit bar d g3 else orbMaybeEnter equity bar d g3).2 /\
        (Before (rb_TS bar) (eodDT (ob_cfg g3) (ob_loc g3) d) = false -> ob_qty (if 0 <? ob_qty g3 then orbMaybeExit bar d g3 else orbMaybeEnter equity bar d g3).1 = 0)).
      { destruct (Z.ltb_spec 0 (ob_qty g3)) as [H|H]; [by apply orbMaybeExit_step|]. pose proof (oo_qty g3 K3). apply orbMaybeEnter_step; try done; [lia|by rewrite C3, L3]. }
      destruct (if 0 <? ob_qty g3 then _ else _) as [g4 s4]. cbn [fst snd] in *. rewrite C3, L3 in Hstep. destruct Hstep as [S4 Hq].
      split; [by apply (orbStep_trans _ g3)|]. intros [_ He]. by apply Hq.
    + split; [done|]. intros [_ He]. cbn [fst]. destruct (Z.eq_dec (ob_qty g3) 0) as [|Hz]; [done|]. destruct (oo_held g3 K3) as (Hl & _); [pose proof (oo_qty g3 K3); lia|congruence].
Qed.

(** ** The account *)

Lemma parseDec_exp s d : parseDec s = Some d -> dc_exp d <= 0.
Proof.
  unfold parseDec. destruct (scanSign _) as [neg r], (cutDot r) as [a b]. destruct (setString _); [|done]. cbn. intros [= <-]. cbn. lia.
Qed.

Lemma toORBBar_scaled bar : barScaled (toORBBar bar).
Proof.
  unfold toORBBar, NewBarFromStrings, barScaled. destruct (parseDec (Price_StringFixed (bar_Open bar) 2)) eqn:E1; [|done].
  destruct (parseDec (Price_StringFixed (bar_High bar) 2)) eqn:E2; [|done]. destruct (parseDec (Price_StringFixed (bar_Low bar) 2)) eqn:E3; [|done].
  destruct (parseDec (Price_StringFixed (bar_Close bar) 2)) eqn:E4; [|done]. cbn. splits; by eapply parseDec_exp.
Qed.

(** The bar the generator sees is the engine's bar at two places. *)
Lemma toORBBar_price bar : in64 (bar_Open bar) -> in64 (bar_High bar) -> in64 (bar_Low bar) -> in64 (bar_Close bar) ->
  let two p := mkPydec (round_half_even p 100) (-2) in
  toORBBar bar = mkOrbBar (bar_Symbol bar) (bar_TS bar) (two (bar_Open bar)) (two (bar_High bar)) (two (bar_Low bar)) (two (bar_Close bar)) (bar_Volume bar).
Proof. intros H1 H2 H3 H4. unfold toORBBar, NewBarFromStrings. by rewrite !parseDec_StringFixed by done. Qed.

Definition orbTargetsOnBar (eq : float64) (bar : Bar) (g : OrbGenerator) : OrbGenerator * list DomainSignal :=
  let r := Orb_OnBar eq (toORBBar bar) g in (r.1, map orbTarget r.2).

Lemma orbTargets_step eq bar g : orbOk g -> orbStep g (Orb_OnBar eq (toORBBar bar) g).1 (Orb_OnBar eq (toORBBar bar) g).2.
Proof. intros K. by apply Orb_OnBar_step; [|apply toORBBar_scaled]. Qed.

#[export] Instance orbTargets : TargetGenerator OrbGenerator := {
  tg_OnBar := orbTargetsOnBar;
  tg_position := orbPos;
  tg_ok := orbOk;
  tg_keeps := fun eq bar g K => st_ok _ _ _ (orbTargets_step eq bar g K);
  tg_fresh := fun eq bar g K => st_fresh _ _ _ (orbTargets_step eq bar g K);
  tg_replays := fun eq bar g K => st_replay _ _ _ (orbTargets_step eq bar g K)
}.

(** The adapter's step on a target. *)
Definition orbSubmitTarget {St} (id : string) : signalStep St := fun s =>
  orbSubmitTo id (dg_Symbol s) (dg_Side s) (dg_TargetQty s) (dg_Reason s) (dg_TS s).

#[export] Instance orbSubmit_follows {St} id : FollowsTargets (fun s => dg_Side s = SideLong \/ dg_Side s = SideFlat) (@orbSubmitTarget St id).
Proof.
  intros eq s k b Hside Hf. unfold orbSubmitTarget, orbSubmitTo. destruct Hside as [Hs|Hs]; rewrite Hs.
  - destruct Hf as [[[_ Hq] H0]|[Hx _]]; [|by rewrite Hs in Hx]. cbn [String.eqb]. replace (dg_TargetQty s <=? 0) with false by lia.
    change (String.eqb SideLong SideLong) with true. cbn iota. cbn [runProg sub_Signal paperSubmitter]. eexists. split; [done|].
    intros sym. rewrite netOf_paperFill. unfold setTarget, targetOf. rewrite Hs. cbn. destruct (decide _); [|done]. rewrite H0. lia.
  - destruct Hf as [[[[Hx|Hx] _] _]|[_ Ha]]; [by rewrite Hs in Hx|by rewrite Hs in Hx|]. change (String.eqb SideFlat SideLong) with false. change (String.eqb SideFlat SideFlat) with true. cbn iota.
    match goal with |- context [CloseToFlat ?i ?sy ?t ?rf ?kk] => destruct (CloseToFlat_flattens eq i sy t rf kk b Ha) as (b' & done & E & N) end.
    exists b'. split; [exact E|]. intros sym. rewrite N. unfold setTarget, targetOf. rewrite Hs. by destruct (decide _).
Qed.

(** The loop over the signals is the loop over their targets. *)
Lemma orbSubmitTo_ext {St} eq id sym side qty reason ts (k k' : option error -> SProg St) (b : PaperBook) :
  (forall err b, runProg eq (k err) b = runProg eq (k' err) b) ->
  runProg eq (orbSubmitTo id sym side qty reason ts k) b = runProg eq (orbSubmitTo id sym side qty reason ts k') b.
Proof.
  intros Hk. unfold orbSubmitTo, CloseToFlat. repeat case_match; cbn [runProg sub_Market sub_Signal sub_Net paperSubmitter]; try apply Hk.
  repeat case_match; cbn [runProg sub_Market sub_Signal sub_Net paperSubmitter]; apply Hk.
Qed.

Lemma orbLoop_targets {St} eq id (st : St) sigs : forall b : PaperBook,
  runProg eq (submitLoop (orbSubmit id) st sigs) b = runProg eq (submitLoop (orbSubmitTarget id) st (map orbTarget sigs)) b.
Proof.
  induction sigs as [|s sigs IH]; intros b; [done|]. cbn [submitLoop map]. apply orbSubmitTo_ext. intros [e|] b'; [done|apply IH].
Qed.

Lemma orbAdapter_targets id equity g bar b :
  runProg equity (orbAdapterOnBar id g bar) b = runProg equity (adapterOnBar (orbSubmitTarget id) g bar) b.
Proof.
  unfold orbAdapterOnBar, adapterOnBar. cbn [runProg tg_OnBar orbTargets]. unfold orbTargetsOnBar. destruct (Orb_OnBar _ _ _) as [g' sigs]. apply orbLoop_targets.
Qed.

Lemma paperRun_ext {St} (f f' : St -> Bar -> SProg St) equity bars :
  (forall st bar b, runProg equity (f st bar) b = runProg equity (f' st bar) b) -> forall st b, paperRun f equity bars st b = paperRun f' equity bars st b.
Proof.
  intros H. induction bars as [|bar bars IH]; intros st b; [done|]. cbn [paperRun]. rewrite H. destruct (runProg _ _ _) as [b' [[st' [e|]]|e]]; done || apply IH.
Qed.

Lemma orb_sides eq bar g : orbOk g -> Forall (fun s => dg_Side s = SideLong \/ dg_Side s = SideFlat) (tg_OnBar eq bar g).2.
Proof.
  intros K. cbn [tg_OnBar orbTargets]. unfold orbTargetsOnBar. cbn [snd]. apply List.Forall_map. apply (st_sides _ _ _ (orbTargets_step eq bar g K)).
Qed.

Lemma NewOrb_ok LoadLocation cfg g : NewOrb LoadLocation cfg = Ok g -> orbOk g /\ ob_cfg g = cfg /\ ob_qty g = 0.
Proof.
  unfold NewOrb, OrbConfig_Validate. intros H. bind_inv.
  destruct (fgtb (oc_ProfitTargetR cfg) fzero) eqn:E; [|repeat case_match; done].
  destruct (LoadLocation (oc_Timezone cfg)); [|done]. simplify_eq. splits; [|done|done]. split; cbn; done.
Qed.

(** C24: An account in which every order of the adapter fills holds exactly the
    generator's position, after any sequence of bars: it is never short, only in the
    generator's own symbol, and while it is long the stop lies below the entry and
    the target not below it.  Whatever came before, the next bar of the symbol at or
    after the exit time of its day leaves the account flat. *)
Theorem account_follows_breakout (LoadLocation : string -> option Location) (cfg : OrbConfig) (g0 : OrbGenerator) (id : string)
    (equity : PaperBook -> float64) (bars : list Bar) (Hnew : NewOrb LoadLocation cfg = Ok g0) :
  exists g book, paperRun (orbAdapterOnBar id) equity bars g0 ∅ = (book, Ok g) /\
    netOf book (oc_Symbol cfg) = ob_qty g /\ 0 <= ob_qty g /\ (forall sym, sym <> oc_Symbol cfg -> netOf book sym = 0) /\
    (0 < netOf book (oc_Symbol cfg) -> dec_lt (ob_stop g) (ob_entry g) /\ dec_le (ob_entry g) (ob_target g)) /\
    (forall bar, pastEOD g (toORBBar bar) ->
       exists g' book', runProg equity (orbAdapterOnBar id g bar) book = (book', Ok (g', None)) /\ forall sym, netOf book' sym = 0).
Proof.
  destruct (NewOrb_ok _ _ _ Hnew) as (K0 & C0 & Q0).
  assert (Hcfg : forall eq bar g, orbOk g -> ob_cfg g = cfg -> ob_cfg (orbTargetsOnBar eq bar g).1 = cfg).
  { intros eq bar g K <-. apply (st_cfg _ _ _ (orbTargets_step eq bar g K)). }
  destruct (paperRun_follows (TG := orbTargets) _ (orbSubmitTarget id) orb_sides (fun g => ob_cfg g = cfg) Hcfg equity bars g0 ∅ K0 C0) as (g & book & E & K & C & N).
  { intros sym. change (0 = orbPos g0 sym). unfold orbPos. by destruct (decide _). }
  exists g, book. rewrite (paperRun_ext _ (adapterOnBar (orbSubmitTarget id))) by (intros; apply orbAdapter_targets).
  assert (Hsym : netOf book (oc_Symbol cfg) = ob_qty g). { rewrite N. cbn. unfold orbPos. rewrite C. by rewrite decide_True. }
  splits; [done|done|apply (oo_qty g K)| | |].
  - intros sym Hs. rewrite N. cbn. unfold orbPos. by rewrite C, decide_False.
  - rewrite Hsym. intros Hq. by destruct (oo_held g K Hq) as (_ & ? & ? & _).
  - intros bar Hpast. rewrite orbAdapter_targets. cbn [adapterOnBar runProg].
    destruct (Orb_OnBar_step (equity book) (toORBBar bar) g K (toORBBar_scaled bar)) as [S Hflat]. specialize (Hflat Hpast).
    cbn [tg_OnBar orbTargets]. unfold orbTargetsOnBar. destruct (Orb_OnBar (equity book) (toORBBar bar) g) as [g' sigs]. cbn [fst snd] in *.
    destruct (submitLoop_follows _ (orbSubmitTarget id) equity g' (map orbTarget sigs) book) as (book' & E' & N').
    + apply List.Forall_map, (st_sides _ _ _ S).
    + eapply allFresh_ext; [|apply (st_fresh _ _ _ S)]. intros x. by rewrite N.
    + exists g', book'. split; [exact E'|]. intros sym. rewrite N'. erewrite replay_ext; [|exact N]. rewrite <- (st_replay _ _ _ S). unfold orbPos. rewrite Hflat. by destruct (decide _).
Qed.

(** A day of the demonstration: two bars of the range, the breakout, the bar after the exit. *)
Definition demoOrbCfg : OrbConfig := mkOrbConfig "SPY" true (zToFloat 1) 30 (flit 3 2) (zToFloat 2) (zToFloat 1) "15:55" "UTC".
Definition demoOrbBar (mins h l c v : Z) : Bar :=
  {| bar_Symbol := "SPY"; bar_TS := mkTime ((1704153600 + 60 * mins) * 1000000000) 0;
     bar_Open := c; bar_High := h; bar_Low := l; bar_Close := c; bar_Volume := v |}.
Definition demoOrbBars : list Bar := [demoOrbBar 571 1010000 1000000 1005000 1000; demoOrbBar 590 1020000 1001000 1010000 1000; demoOrbBar 601 1030000 1010000 1025000 5000].
Definition demoOrbGen : OrbGenerator := match NewOrb (fun _ => Some UTCLocation) demoOrbCfg with Ok g => g | Err _ => mkOrb demoOrbCfg UTCLocation None 0 None None false 0 fzero 0 (decOfInt 0) (decOfInt 0) (decOfInt 0) None 0 end.

Lemma account_follows_breakout_witness :
  (let '(book, r) := paperRun (orbAdapterOnBar "orb") (fun _ => zToFloat 100000) demoOrbBars demoOrbGen ∅ in
   netOf book "SPY" = 975 /\ match r with Ok g => map dec_String [ob_entry g; ob_stop g; ob_target g] = ["102.50"; "101.4750"; "104.55000"] | Err _ => False end) /\
  (exists g book, paperRun (orbAdapterOnBar "orb") (fun _ => zToFloat 100000) demoOrbBars demoOrbGen ∅ = (book, Ok g) /\ netOf book "SPY" = ob_qty g).
Proof.
  split.
  - by vm_compute.
  - destruct (account_follows_breakout (fun _ => Some UTCLocation) demoOrbCfg demoOrbGen "orb" (fun _ => zToFloat 100000) demoOrbBars ltac:(by vm_compute)) as (g & book & E & Q & _).
    exists g, book. split; [exact E|exact Q].
Defined.

(** ** Restart *)

Lemma digitVal_code c n : digitVal c = Some n -> is_digit c = true /\ code c - 48 = n /\ 0 <= n <= 9.
Proof.
  unfold digitVal, is_digit, code, nat_of_ascii. rewrite N_nat_Z. destruct (_ && _) eqn:E; [|done]. intros [= <-]. breflect. splits; [|done|lia|lia].
  apply andb_true_intro. lia.
Qed.

Lemma digitsVal_ge s : forall n v, 0 <= n -> digitsVal n s = Some v -> n <= v.
Proof.
  induction s as [|c s IH]; intros n v Hn; cbn [digitsVal]; [by intros [= ->]|]. destruct (digitVal c) as [x|] eqn:E; [|done].
  apply digitVal_code in E as (_ & _ & Hx). intros H. apply IH in H; lia.
Qed.

Lemma atoiDigits_val s : forall n v, 0 <= n -> v <= max_int64 -> digitsVal n s = Some v -> atoiDigits n s = Some v.
Proof.
  induction s as [|c s IH]; intros n v Hn Hv; cbn [digitsVal atoiDigits]; [done|]. destruct (digitVal c) as [x|] eqn:E; [|done].
  apply digitVal_code in E as (-> & -> & Hx). intros H. assert (Hge : n * 10 + x <= v) by (apply (digitsVal_ge s); [lia|done]). rewrite wrap64_id by rlia. apply IH; [lia|done|done].
Qed.

Lemma atoiStrict_val c s v : v <= max_int64 -> digitsVal 0 (c :: s) = Some v -> atoiStrict (c :: s) = Some v.
Proof.
  intros Hv H. assert (Hc : is_digit c = true). { cbn [digitsVal] in H. destruct (digitVal c) as [x|] eqn:E; [|done]. by apply digitVal_code in E as (? & _). }
  unfold atoiStrict. rewrite scanSign_digit by done. by rewrite (atoiDigits_val _ 0 v).
Qed.

Lemma orbParseISODate_iso d : validDate d = true -> 0 <= d_Year d <= 9999 -> orbParseISODate (orb_iso d) = Some d.
Proof.
  intros Hv Hy. destruct (valid_bounds d Hv) as (Hm & Hd1 & Hd).
  assert (Hd' : 1 <= d_Day d <= 31). { unfold validDate, daysIn, daysBeforeMonth in Hv. breflect. destruct (isLeap (d_Year d)); repeat case_match; lia. }
  destruct (padZero4 (d_Year d) Hy) as (a & b & c & e & E1 & V1). destruct (padZero2 (d_Month d) ltac:(lia)) as (f & g & E2 & V2).
  destruct (padZero2 (d_Day d) ltac:(lia)) as (h & i & E3 & V3). unfold orbParseISODate, orb_iso.
  rewrite list_ascii_of_string_of_list_ascii. unfold DateString. rewrite E1, E2, E3.
  cbn [app List.length Nat.eqb nth orb firstn skipn]. rewrite !Ascii.eqb_refl. cbn [negb orb].
  rewrite (atoiStrict_val _ _ (d_Year d) ltac:(rlia) V1), (atoiStrict_val _ _ (d_Month d) ltac:(rlia) V2), (atoiStrict_val _ _ (d_Day d) ltac:(rlia) V3). cbn [mbind option_bind].
  replace (_ || _) with false by lia. by destruct d.
Qed.

Lemma dec_String_nonempty d : dec_String d <> "".
Proof.
  destruct (bigText_spec (Z.abs (dc_coef d)) ltac:(lia)) as (_ & _ & N). unfold dec_String. set (t := bigText _) in *. intros H.
  apply (f_equal list_ascii_of_string) in H. rewrite list_ascii_of_string_of_list_ascii in H. revert H.
  destruct (_ <? 0); [done|]. destruct (_ =? 0); [done|]. destruct (0 <? _); [by destruct t|]. cbv zeta. destruct (_ <=? _)%nat; [done|].
  intros H. apply app_eq_nil in H as [_ H]. done.
Qed.

Lemma parseDecOrZero_String d : dc_exp d <= 0 -> parseDecOrZero (dec_String d) = d.
Proof.
  intros He. unfold parseDecOrZero. destruct (String.eqb_spec (dec_String d) "") as [H|_]; [by apply dec_String_nonempty in H|]. by rewrite parseDec_String.
Qed.

Lemma parseDecPtr_String d : (forall x, d = Some x -> dc_exp x <= 0) -> parseDecPtr (dec_String <$> d) = d.
Proof.
  intros He. destruct d as [d|]; [|done]. cbn. destruct (String.eqb_spec (dec_String d) "") as [H|_]; [by apply dec_String_nonempty in H|].
  rewrite parseDec_String; [done|by apply He].
Qed.

(** The generator with another last close and another projection counter, which
    no decision reads. *)
Definition with_view (last : option pydec) (n : Z) (g : OrbGenerator) : OrbGenerator :=
  mkOrb (ob_cfg g) (ob_loc g) (ob_session g) (ob_count g) (ob_high g) (ob_low g) (ob_locked g) (ob_total g) (ob_avg g)
    (ob_qty g) (ob_entry g) (ob_stop g) (ob_target g) last n.

Lemma LoadState_StateDict equity g fresh : orbOk g -> ob_cfg fresh = ob_cfg g -> ob_loc fresh = ob_loc g ->
  (forall d, ob_session g = Some d -> validDate d = true /\ 0 <= d_Year d <= 9999) ->
  exists h, Orb_LoadState (Orb_StateDict equity g) fresh = (h, Ok tt) /\ h = with_view (ob_last fresh) (ob_generation fresh) g.
Proof.
  intros [T Q H Hh Hl (P1 & P2 & P3)] C L Hd. unfold Orb_LoadState, Orb_StateDict, with_view. cbn [od_CurrentSessionDate od_RangeBarsCount od_RangeHigh od_RangeLow od_RangeLocked od_RangeTotalVolume od_AvgVolume od_PositionQty od_EntryPrice od_StopPrice od_TargetPrice].
  rewrite !parseDecOrZero_String by done. rewrite !parseDecPtr_String by done. rewrite C, L.
  destruct (ob_session g) as [d|] eqn:Es; cbn [fmap option_fmap option_map].
  - destruct (Hd d eq_refl) as [Hv Hy]. destruct (String.eqb_spec (orb_iso d) "") as [He|_].
    + pose proof (orbParseISODate_iso d Hv Hy) as Hp. by rewrite He in Hp.
    + rewrite orbParseISODate_iso by done. cbn [fmap option_fmap option_map]. eexists. split; done.
  - eexists. split; done.
Qed.

Lemma orbMaybeEnter_view equity bar d last n g :
  orbMaybeEnter equity bar d (with_view last n g) = (with_view last n (orbMaybeEnter equity bar d g).1, (orbMaybeEnter equity bar d g).2).
Proof. unfold orbMaybeEnter, breakoutReason. cbn [ob_cfg ob_loc ob_high ob_low ob_avg with_view]. repeat case_match; done. Qed.

Lemma orbMaybeExit_view bar d last n g : orbMaybeExit bar d (with_view last n g) = (with_view last n (orbMaybeExit bar d g).1, (orbMaybeExit bar d g).2).
Proof. unfold orbMaybeExit. cbn [ob_cfg ob_loc ob_stop ob_target with_view]. repeat case_match; done. Qed.

Lemma enterSession_view bar d last n g : enterSession bar d (with_view last n g) = (with_view last n (enterSession bar d g).1, (enterSession bar d g).2).
Proof. unfold enterSession. cbn [ob_session ob_qty with_view]. destruct (bool_decide _); [done|]. by destruct (0 <? _). Qed.

Lemma lockRange_view last n g : lockRange (with_view last n g) = with_view last n (lockRange g).
Proof. unfold lockRange. cbn [ob_count ob_high with_view]. by destruct (_ || _). Qed.

Lemma OnBar_view equity bar last n g : (Orb_OnBar equity bar (with_view last n g)).2 = (Orb_OnBar equity bar g).2 /\
  exists last', (Orb_OnBar equity bar (with_view last n g)).1 = with_view last' n (Orb_OnBar equity bar g).1.
Proof.
  unfold Orb_OnBar. cbn [ob_cfg with_view]. destruct (negb _); [split; [done|by exists last]|].
  set (c := rb_Close bar). change (with_last c (with_view last n g)) with (with_view (Some c) n (with_last c g)). cbv zeta. rewrite enterSession_view.
  cbn [ob_loc with_view with_last]. destruct (enterSession bar _ (with_last c g)) as [g1 s1]. cbn [fst snd]. cbn [ob_cfg ob_loc with_view].
  destruct (Before _ _); [split; [done|by exists (Some c)]|].
  replace (if ob_locked (with_view (Some c) n g1) then with_view (Some c) n g1 else lockRange (with_view (Some c) n g1))
    with (with_view (Some c) n (if ob_locked g1 then g1 else lockRange g1)) by (rewrite lockRange_view; cbn [ob_locked with_view]; by destruct (ob_locked g1)).
  set (g2 := if ob_locked g1 then g1 else lockRange g1). cbn [ob_locked ob_qty with_view]. destruct (negb _); [split; [done|by exists (Some c)]|].
  rewrite orbMaybeExit_view, orbMaybeEnter_view. destruct (0 <? _).
  - destruct (orbMaybeExit _ _ g2) as [g3 s3]. split; [done|by exists (Some c)].
  - destruct (orbMaybeEnter _ _ _ g2) as [g3 s3]. split; [done|by exists (Some c)].
Qed.

(** The signals of a run. *)
Fixpoint orbSignals (bars : list (float64 * OrbBar)) (g : OrbGenerator) : list OrbSignal :=
  match bars with
  | [] => []
  | (equity, bar) :: bars => let '(g, s) := Orb_OnBar equity bar g in s ++ orbSignals bars g
  end.

Lemma orbSignals_view bars : forall last n g, orbSignals bars (with_view last n g) = orbSignals bars g.
Proof.
  induction bars as [|[eq bar] bars IH]; intros last n g; [done|]. cbn [orbSignals]. destruct (OnBar_view eq bar last n g) as [Hs [last' Hg]].
  destruct (Orb_OnBar eq bar (with_view last n g)) as [h s], (Orb_OnBar eq bar g) as [g' s']. cbn [fst snd] in *. subst. by rewrite IH.
Qed.

(** A generator rebuilt from its snapshot trades on: loading the state that was
    saved into a generator of the same configuration succeeds, and from then on every
    sequence of bars gives the signals the saved generator would have given, with the
    same brackets, quantities and texts.  (A session lies in the years that have four
    digits.) *)
Theorem breakout_restart_resumes (equity : float64) (g fresh : OrbGenerator) (Hok : orbOk g) (Hcfg : ob_cfg fresh = ob_cfg g) (Hloc : ob_loc fresh = ob_loc g)
    (Hdate : forall d, ob_session g = Some d -> validDate d = true /\ 0 <= d_Year d <= 9999) :
  exists h, Orb_LoadState (Orb_StateDict equity g) fresh = (h, Ok tt) /\ ob_qty h = ob_qty g /\ ob_stop h = ob_stop g /\ ob_target h = ob_target g /\
    forall bars, orbSignals bars h = orbSignals bars g.
Proof.
  destruct (LoadState_StateDict equity g fresh Hok Hcfg Hloc Hdate) as (h & E & ->). eexists. splits; [exact E|done|done|done|].
  intros bars. apply orbSignals_view.
Qed.

Definition demoOrbHeld : OrbGenerator :=
  mkOrb demoOrbCfg UTCLocation (Some (mkDate 2024 1 2)) 2 (Some (mkPydec 10200 (-2))) (Some (mkPydec 10000 (-2))) true 2000 (zToFloat 1000)
    975 (mkPydec 10250 (-2)) (mkPydec 1014750 (-4)) (mkPydec 10455000 (-5)) None 7.

Lemma breakout_restart_resumes_witness : exists h,
  Orb_LoadState (Orb_StateDict (zToFloat 100000) demoOrbHeld) demoOrbGen = (h, Ok tt) /\ ob_qty h = 975 /\ dec_String (ob_stop h) = "101.4750".
Proof.
  destruct (breakout_restart_resumes (zToFloat 100000) demoOrbHeld demoOrbGen) as (h & E & Q & S & _).
  - split; cbn; try done.
    + intros _. splits; [done|done|done|]. eexists. by split.
    + by intros d [= <-].
    + by intros d [= <-].
  - by vm_compute.
  - by vm_compute.
  - by intros d [= <-].
  - exists h. rewrite Q, S. splits; [exact E|done|by vm_compute].
Defined.

(** ** The opening range *)

Lemma dec_le_refl a : dec_le a a.
Proof. unfold dec_le. lia. Qed.
Lemma dec_le_trans a b c : dec_le a b -> dec_le b c -> dec_le a c.
Proof.
  set (E := Z.min (dc_exp a) (Z.min (dc_exp b) (dc_exp c))). rewrite (dec_le_scaled E a b), (dec_le_scaled E b c), (dec_le_scaled E a c) by lia. lia.
Qed.
Lemma dec_le_lt_trans a b c : dec_le a b -> dec_lt b c -> dec_lt a c.
Proof.
  set (E := Z.min (dc_exp a) (Z.min (dc_exp b) (dc_exp c))). rewrite (dec_le_scaled E a b), (dec_lt_scaled E b c), (dec_lt_scaled E a c) by lia. lia.
Qed.

Abbreviation totalVolume ws := (fold_right (fun w n => rb_Volume w + n) 0 ws).

(** The range of the state is the envelope of these bars, with their volume. *)
Record rangeIs (d : Date) (ws : list OrbBar) (g : OrbGenerator) : Prop := {
  ri_session : ob_session g = Some d;
  ri_high : exists h, ob_high g = Some h /\ In h (map rb_High ws) /\ Forall (fun w => dec_le (rb_High w) h) ws;
  ri_low : exists l, ob_low g = Some l /\ In l (map rb_Low ws) /\ Forall (fun w => dec_le l (rb_Low w)) ws;
  ri_count : ob_count g = wrap64 (Z.of_nat (length ws));
  ri_total : ob_total g = wrap64 (totalVolume ws);
  ri_avg : ob_locked g = true -> ob_avg g = fdiv (zToFloat (ob_total g)) (zToFloat (ob_count g))
}.

Lemma extendRange_first d bar g : rangeIs d [bar] (extendRange bar (resetSession d g)).
Proof.
  split; cbn [extendRange resetSession ob_session ob_high ob_low ob_count ob_total ob_locked map fold_right List.length]; try done.
  - eexists. splits; [done|by left|]. constructor; [apply dec_le_refl|done].
  - eexists. splits; [done|by left|]. constructor; [apply dec_le_refl|done].
  - f_equal. lia.
Qed.

Lemma extendRange_range d ws bar g : rangeIs d ws g -> ob_locked g = false -> rangeIs d (ws ++ [bar]) (extendRange bar g).
Proof.
  intros [S (h & Eh & Ih & Fh) (l & El & Il & Fl) C T A] L.
  split; cbn [extendRange ob_session ob_high ob_low ob_count ob_total ob_locked]; rewrite ?Eh, ?El, ?map_app; try done.
  - eexists. split; [done|]. destruct (Z.ltb_spec 0 (dec_cmp (rb_High bar) h)) as [H|H].
    + split; [apply in_or_app; right; by left|]. apply Forall_app. split; [|constructor; [apply dec_le_refl|done]].
      refine (List.Forall_impl _ _ Fh). intros w Hw. eapply dec_le_trans; [exact Hw|]. apply dec_le_cmp. rewrite dec_cmp_opp. lia.
    + split; [apply in_or_app; by left|]. apply Forall_app. split; [done|]. constructor; [by apply dec_le_cmp|done].
  - eexists. split; [done|]. destruct (Z.ltb_spec (dec_cmp (rb_Low bar) l) 0) as [H|H].
    + split; [apply in_or_app; right; by left|]. apply Forall_app. split; [|constructor; [apply dec_le_refl|done]].
      refine (List.Forall_impl _ _ Fl). intros w Hw. eapply dec_le_trans; [|exact Hw]. apply dec_le_cmp. lia.
    + split; [apply in_or_app; by left|]. apply Forall_app. split; [done|]. constructor; [|done]. apply dec_le_cmp. rewrite dec_cmp_opp. lia.
  - rewrite C, length_app, wrap64_add_wrap. f_equal. cbn [List.length]. lia.
  - rewrite T, wrap64_add_wrap, fold_right_app. f_equal. cbn [fold_right]. rewrite Z.add_0_r. clear. induction ws as [|w ws IH]; cbn [fold_right]; [lia|]. lia.
  - by rewrite L.
Qed.

Lemma rangeIs_ext d ws g g' : rangeIs d ws g -> ob_session g' = ob_session g -> ob_count g' = ob_count g -> ob_high g' = ob_high g -> ob_low g' = ob_low g ->
  ob_total g' = ob_total g -> (ob_locked g' = true -> ob_avg g' = fdiv (zToFloat (ob_total g)) (zToFloat (ob_count g))) -> rangeIs d ws g'.
Proof. intros [S H L C T A] E1 E2 E3 E4 E5 E6. split; rewrite ?E1, ?E2, ?E3, ?E4, ?E5; done. Qed.

Lemma lockRange_range d ws g : rangeIs d ws g -> rangeIs d ws (lockRange g).
Proof. intros R. unfold lockRange. destruct (_ || _); [done|]. by apply (rangeIs_ext d ws g). Qed.

Lemma with_position_range d ws g q e s t : rangeIs d ws g -> rangeIs d ws (with_position q e s t g).
Proof. intros R. apply (rangeIs_ext d ws g); try done. apply (ri_avg _ _ _ R). Qed.

Lemma orbMaybeExit_range bar d' d ws g : rangeIs d ws g -> rangeIs d ws (orbMaybeExit bar d' g).1.
Proof. intros R. unfold orbMaybeExit, flatOne, makeFlatSignal. repeat case_match; cbn [fst]; by try apply with_position_range. Qed.

(** An entry: its instant, the range it broke, its volume and its bracket. *)
Record entryOf (g : OrbGenerator) (d : Date) (bar : OrbBar) (s : OrbSignal) : Prop := {
  eo_time : Before (rb_TS bar) (eodDT (ob_cfg g) (ob_loc g) d) = true;
  eo_high : exists h, ob_high g = Some h /\ dec_lt h (rb_Close bar);
  eo_stop : exists l stop, ob_low g = Some l /\ os_StopPrice s = dec_String stop /\ dec_le l stop /\ dec_lt stop (rb_Close bar);
  eo_volume : fleb (zToFloat (rb_Volume bar)) (fmul (ob_avg g) (oc_VolMultiple (ob_cfg g))) = false
}.

Lemma orbMaybeEnter_entry equity bar d ws g : rangeIs d ws g ->
  rangeIs d ws (orbMaybeEnter equity bar d g).1 /\ Forall (entryOf g d bar) (orbMaybeEnter equity bar d g).2.
Proof.
  intros R. unfold orbMaybeEnter. cbv zeta. assert (Hq : rangeIs d ws g /\ Forall (entryOf g d bar) []) by done.
  destruct (Before (rb_TS bar) _) eqn:He; cbn [negb]; [|exact Hq].
  destruct (ob_high g) as [h|] eqn:Eh, (ob_low g) as [l|] eqn:El; try exact Hq.
  destruct (Z.leb_spec (dec_cmp (rb_Close bar) h) 0) as [|Hh]; [exact Hq|]. destruct (fleb _ _) eqn:Hv; [exact Hq|].
  set (hs := dec_mul _ _). set (stop := if 0 <? _ then _ else l). destruct (Z.leb_spec 0 (dec_cmp stop (rb_Close bar))) as [|Hs]; [exact Hq|].
  destruct (_ <? 1); [exact Hq|]. split; [by apply with_position_range|]. constructor; [|done]. cbn [snd]. split; [done| | |done].
  - exists h. split; [done|]. apply dec_lt_cmp. rewrite dec_cmp_opp. lia.
  - exists l, stop. splits; [done|done| |by apply dec_lt_cmp]. unfold stop. destruct (Z.ltb_spec 0 (dec_cmp hs l)); [|apply dec_le_refl].
    apply dec_le_cmp. rewrite dec_cmp_opp. lia.
Qed.

(** A bar of the symbol on a date, before or after the end of its range. *)
Definition sessionBar (cfg : OrbConfig) (loc : Location) (d : Date) (inRange : bool) (bar : OrbBar) : Prop :=
  rb_Symbol bar = oc_Symbol cfg /\ DateOf loc (rb_TS bar) = d /\ Before (rb_TS bar) (rangeEnd cfg loc d) = inRange.

Lemma OnBar_first equity bar d g : sessionBar (ob_cfg g) (ob_loc g) d true bar -> orbOk g -> ob_session g <> Some d ->
  rangeIs d [bar] (Orb_OnBar equity bar g).1 /\ ob_locked (Orb_OnBar equity bar g).1 = false.
Proof.
  intros (Hs & Hd & Hb) K Hn. unfold Orb_OnBar. rewrite Hs, String.eqb_refl. cbn [negb]. cbv zeta. cbn [ob_loc with_last]. rewrite Hd. unfold enterSession. cbn [ob_session with_last].
  rewrite bool_decide_eq_false_2 by done. cbn [ob_qty with_last]. destruct (0 <? ob_qty g); cbn [flatOne makeFlatSignal with_position ob_cfg ob_loc resetSession with_last]; rewrite Hb; (split; [apply extendRange_first|done]).
Qed.

Lemma OnBar_window equity bar d ws g : sessionBar (ob_cfg g) (ob_loc g) d true bar -> rangeIs d ws g -> ob_locked g = false ->
  rangeIs d (ws ++ [bar]) (Orb_OnBar equity bar g).1 /\ ob_locked (Orb_OnBar equity bar g).1 = false.
Proof.
  intros (Hs & Hd & Hb) R L. unfold Orb_OnBar. rewrite Hs, String.eqb_refl. cbn [negb]. cbv zeta. cbn [ob_loc with_last]. rewrite Hd. unfold enterSession. cbn [ob_session with_last].
  rewrite bool_decide_eq_true_2 by apply R. cbn [ob_cfg ob_loc with_last]. rewrite Hb. split; [|done]. apply extendRange_range; [|done]. apply (rangeIs_ext d ws g); try done. apply (ri_avg _ _ _ R).
Qed.

Lemma OnBar_after equity bar d ws g : sessionBar (ob_cfg g) (ob_loc g) d false bar -> rangeIs d ws g ->
  rangeIs d ws (Orb_OnBar equity bar g).1 /\
  (forall s, In s (Orb_OnBar equity bar g).2 -> os_Side s = SideLong -> exists g', rangeIs d ws g' /\ ob_locked g' = true /\ ob_cfg g' = ob_cfg g /\ ob_loc g' = ob_loc g /\ entryOf g' d bar s).
Proof.
  intros (Hs & Hd & Hb) R. unfold Orb_OnBar. rewrite Hs, String.eqb_refl. cbn [negb]. cbv zeta. cbn [ob_loc with_last]. rewrite Hd. unfold enterSession. cbn [ob_session with_last].
  rewrite bool_decide_eq_true_2 by apply R. cbn [ob_cfg ob_loc with_last]. rewrite Hb. set (g1 := with_last (rb_Close bar) g).
  assert (R1 : rangeIs d ws g1). { apply (rangeIs_ext d ws g); try done. apply (ri_avg _ _ _ R). }
  change (ob_locked g) with (ob_locked g1). set (g2 := if ob_locked g1 then g1 else lockRange g1).
  assert (R2 : rangeIs d ws g2 /\ ob_cfg g2 = ob_cfg g /\ ob_loc g2 = ob_loc g).
  { unfold g2. destruct (ob_locked g1); [done|]. split; [by apply lockRange_range|]. unfold lockRange. by destruct (_ || _). }
  destruct R2 as (R2 & C2 & L2). destruct (ob_locked g2) eqn:L; cbn [negb]; [|split; [done|by intros s []]].
  destruct (0 <? ob_qty g2).
  - destruct (orbMaybeExit bar d g2) as [g3 s3] eqn:E3. pose proof (orbMaybeExit_range bar d d ws g2 R2) as R3. rewrite E3 in R3. split; [done|].
    cbn [snd app]. intros s Hin Hside. exfalso. revert E3. unfold orbMaybeExit, flatOne, makeFlatSignal. intros E3. repeat case_match; simplify_eq; cbn in Hin; first [by destruct Hin as [<-|[]]|by destruct Hin].
  - destruct (orbMaybeEnter equity bar d g2) as [g3 s3] eqn:E3. destruct (orbMaybeEnter_entry equity bar d ws g2 R2) as [R3 F3]. rewrite E3 in R3, F3. split; [done|].
    cbn [snd app] in *. intros s Hin _. exists g2. splits; try done. rewrite List.Forall_forall in F3. by apply F3.
Qed.

(** The generator after a sequence of bars, each with the equity at its time. *)
Definition orbRun (bars : list (float64 * Bar)) (g : OrbGenerator) : OrbGenerator :=
  fold_left (fun g '(equity, bar) => (Orb_OnBar equity (toORBBar bar) g).1) bars g.

Lemma orbRun_ok bars : forall g, orbOk g -> orbOk (orbRun bars g) /\ ob_cfg (orbRun bars g) = ob_cfg g /\ ob_loc (orbRun bars g) = ob_loc g.
Proof.
  induction bars as [|[eq bar] bars IH]; intros g K; [done|]. cbn [orbRun fold_left]. destruct (orbTargets_step eq bar g K) as [K' [C L] _ _ _].
  destruct (IH _ K') as (A & B & D). splits; [done|by rewrite <- C|by rewrite <- L].
Qed.

Lemma orbRun_app a b g : orbRun (a ++ b) g = orbRun b (orbRun a g).
Proof. apply fold_left_app. Qed.

Abbreviation orbBarOf p := (toORBBar (snd p)).

Lemma window_run d g ws : orbOk g -> ob_session g <> Some d -> ws <> [] -> Forall (fun p => sessionBar (ob_cfg g) (ob_loc g) d true (orbBarOf p)) ws ->
  rangeIs d (map (fun p => orbBarOf p) ws) (orbRun ws g) /\ ob_locked (orbRun ws g) = false.
Proof.
  intros K Hn. induction ws as [|[eq bar] ws IH] using rev_ind; [done|]. intros _ F. apply Forall_app in F as [F Fb]. inversion Fb as [|? ? Hb _]; subst.
  rewrite orbRun_app, map_app. destruct (orbRun_ok ws g K) as (K' & C & L). cbn [orbRun fold_left map]. fold (orbRun ws g).
  destruct ws as [|w ws]; [by apply OnBar_first|]. destruct (IH ltac:(done) F) as [R Lk]. apply OnBar_window; [by rewrite C, L|done|done].
Qed.

Lemma after_run d ws ms : forall g, orbOk g -> rangeIs d ws g -> Forall (fun p => sessionBar (ob_cfg g) (ob_loc g) d false (orbBarOf p)) ms -> rangeIs d ws (orbRun ms g).
Proof.
  induction ms as [|[eq bar] ms IH]; intros g K R F; [done|]. inversion F as [|? ? Hb F']; subst. cbn [orbRun fold_left].
  destruct (orbTargets_step eq bar g K) as [K' [C L] _ _ _]. apply IH; [done|by apply OnBar_after|]. by rewrite C, L.
Qed.

(** C25: An entry is a breakout of the opening range.  When a session opens with some
    bars before the end of its range and goes on with any bars after it, a buy signal
    on a later bar means that the bar comes before the exit time, that its close lies
    above the high of every bar of the range, that its volume is not at most the
    range's average volume times the multiple, and that the stop it carries lies below
    the close and not below every low of the range. *)
Theorem entry_breaks_opening_range (g0 : OrbGenerator) (d : Date) (ws ms : list (float64 * Bar)) (equity : float64) (bar : Bar) (s : OrbSignal)
    (Hok : orbOk g0) (Hnew : ob_session g0 <> Some d) (Hne : ws <> [])
    (Hws : Forall (fun p => sessionBar (ob_cfg g0) (ob_loc g0) d true (toORBBar p.2)) ws)
    (Hms : Forall (fun p => sessionBar (ob_cfg g0) (ob_loc g0) d false (toORBBar p.2)) ms)
    (Hbar : sessionBar (ob_cfg g0) (ob_loc g0) d false (toORBBar bar))
    (Hin : In s (Orb_OnBar equity (toORBBar bar) (orbRun (ws ++ ms) g0)).2) (Hlong : os_Side s = SideLong) :
  Before (rb_TS (toORBBar bar)) (eodDT (ob_cfg g0) (ob_loc g0) d) = true /\
  (forall p, In p ws -> dec_lt (rb_High (toORBBar p.2)) (rb_Close (toORBBar bar))) /\
  fleb (zToFloat (rb_Volume (toORBBar bar)))
    (fmul (fdiv (zToFloat (wrap64 (totalVolume (map (fun p => toORBBar p.2) ws)))) (zToFloat (wrap64 (Z.of_nat (length ws)))))
       (oc_VolMultiple (ob_cfg g0))) = false /\
  exists stop p, os_StopPrice s = dec_String stop /\ dec_lt stop (rb_Close (toORBBar bar)) /\ In p ws /\ dec_le (rb_Low (toORBBar p.2)) stop.
Proof.
  rewrite orbRun_app in Hin. destruct (window_run d g0 ws Hok Hnew Hne Hws) as [R _]. destruct (orbRun_ok ws g0 Hok) as (K1 & C1 & L1).
  assert (R2 : rangeIs d (map (fun p => orbBarOf p) ws) (orbRun ms (orbRun ws g0))) by (apply after_run; [done|done|by rewrite C1, L1]).
  destruct (orbRun_ok ms _ K1) as (_ & C2 & L2). rewrite C1 in C2. rewrite L1 in L2.
  destruct (OnBar_after equity (toORBBar bar) d _ (orbRun ms (orbRun ws g0)) ltac:(by rewrite C2, L2) R2) as [_ He].
  destruct (He s Hin Hlong) as (g & [_ (h & Eh & _ & Fh) (l & El & Il & _) Ec Et Ea] & Lk & C & L & [T (h' & Eh' & Hh) (l' & stop & El' & Es & Hl & Hst) V]).
  assert (h' = h) as -> by congruence. assert (l' = l) as -> by congruence. rewrite C, C2 in *. rewrite L, L2 in T. rewrite (Ea Lk), Et, Ec, length_map in V.
  splits; [done| |done|].
  - intros p Hp. eapply dec_le_lt_trans; [|exact Hh]. rewrite List.Forall_forall in Fh. apply Fh, (in_map (fun p => orbBarOf p) _ _ Hp).
  - rewrite map_map in Il. apply in_map_iff in Il as (p & <- & Hp). exists stop, p. splits; [exact Es|exact Hst|exact Hp|exact Hl].
Qed.

Definition demoRange : list (float64 * Bar) := map (pair (zToFloat 100000)) (firstn 2 demoOrbBars).
Definition demoBreakout : Bar := demoOrbBar 601 1030000 1010000 1025000 5000.

Lemma demo_range_bars :
  Forall (fun p => sessionBar (ob_cfg demoOrbGen) (ob_loc demoOrbGen) (mkDate 2024 1 2) true (toORBBar p.2)) demoRange /\
  sessionBar (ob_cfg demoOrbGen) (ob_loc demoOrbGen) (mkDate 2024 1 2) false (toORBBar demoBreakout) /\ ob_session demoOrbGen = None.
Proof.
  split; [|split; [vm_compute; by repeat split|by vm_compute]]. unfold demoRange, demoOrbBars. cbn [map firstn].
  constructor; [vm_compute; by repeat split|constructor; [vm_compute; by repeat split|constructor]].
Qed.

Lemma demo_entry : exists s, In s (Orb_OnBar (zToFloat 100000) (toORBBar demoBreakout) (orbRun (demoRange ++ []) demoOrbGen)).2 /\
  os_Side s = SideLong /\ os_TargetQty s = 975.
Proof. vm_compute. eexists. splits; [by left|done|done]. Qed.

Lemma demoOrbGen_ok : orbOk demoOrbGen.
Proof. exact (proj1 (NewOrb_ok (fun _ => Some UTCLocation) demoOrbCfg demoOrbGen ltac:(by vm_compute))). Qed.

Lemma entry_breaks_opening_range_witness : exists s,
  In s (Orb_OnBar (zToFloat 100000) (toORBBar demoBreakout) (orbRun (demoRange ++ []) demoOrbGen)).2 /\ os_TargetQty s = 975 /\
  exists stop p, os_StopPrice s = dec_String stop /\ In p demoRange /\ dec_le (rb_Low (toORBBar p.2)) stop.
Proof.
  destruct demo_range_bars as (Hw & Hb & Hn). destruct demo_entry as (s & Hin & Hs & Hq). exists s. split; [exact Hin|]. split; [exact Hq|].
  destruct (entry_breaks_opening_range demoOrbGen (mkDate 2024 1 2) demoRange [] (zToFloat 100000) demoBreakout s demoOrbGen_ok
    ltac:(rewrite Hn; discriminate) ltac:(discriminate) Hw (List.Forall_nil _) Hb Hin Hs) as (_ & _ & _ & stop & p & A & _ & B & C).
  exists stop, p. split; [exact A|split; [exact B|exact C]].
Defined.

(** ** Findings *)

(** A positive hard stop that prints with an exponent reads as zero: the stop is the
    entry and no breakout is ever entered. *)
Lemma tiny_hard_stop_never_enters :
  let cfg := mkOrbConfig "SPY" true (zToFloat 1) 30 (flit 3 2) (zToFloat 2) (flit 5 100000) "15:55" "UTC" in
  OrbConfig_Validate (fun _ => Some UTCLocation) cfg = Ok tt /\
  forall g equity bar d, ob_cfg g = cfg -> (orbMaybeEnter equity bar d g).2 = [].
Proof.
  split; [by vm_compute|]. intros g equity bar d Hc. unfold orbMaybeEnter. rewrite Hc. cbn [oc_HardStopPct]. cbv zeta.
  destruct (negb _); [done|]. destruct (ob_high g); [|done]. destruct (ob_low g) as [l|]; [|done]. destruct (_ <=? 0); [done|]. destruct (fleb _ _); [done|].
  replace (dec_sub (decOfInt 1) (dec_divInt (decFromPyFloatStr (flit 5 100000)) 100)) with (decOfInt 1) by (by vm_compute).
  set (hs := dec_mul _ _). assert (Hhs : hs = rb_Close bar) by (unfold hs, dec_mul; cbn; rewrite Z.mul_1_r, Z.add_0_r; by destruct (rb_Close bar)).
  rewrite Hhs. assert (H0 : dec_cmp (rb_Close bar) (rb_Close bar) = 0). { unfold dec_cmp, align. rewrite Z.eqb_refl. unfold cmpInt64. by rewrite Z.ltb_irrefl. }
  destruct (Z.ltb_spec 0 (dec_cmp (rb_Close bar) l)) as [H|H]; [by rewrite H0|]. rewrite (dec_cmp_opp (rb_Close bar) l). by replace (0 <=? - dec_cmp (rb_Close bar) l) with true by lia.
Qed.

(** An exit hour beyond 64 bits wraps to a valid one. *)
Lemma exit_time_wraps : parseHHMM "18446744073709551631:55" = Some (15, 55).
Proof. by vm_compute. Qed.
