(* ===== verification/Trades.v ===== *)
(** * Round-trip trades (src/internal/runs/trades.go)

    The walk over the fills of a run that derives its trades: per strategy and
    symbol the running round trip, its blended entry, its realized profit and the
    trades it completes; the trades still open; the order of the result.  The map
    of open trades is a [gmap], the pointer it holds is the value it points to (a
    walk that fails returns nothing). *)

From stdpp Require Import gmap strings list.
From S2P Require Import Prelude Lists Fixed Money Domain.
Set Default Goal Selector "!".
#[local] Open Scope string_scope.
#[local] Open Scope Z_scope.
#[local] Open Scope list_scope.
#[local] Abbreviation length := List.length.

Record Trade : Set := mkTrade {
  td_StrategyID : string;
  td_Symbol : string;
  td_Side : string;
  td_Qty : Qty;
  td_EntryTS : time;
  td_ExitTS : option time;
  td_EntryPx : Price;
  td_ExitPx : option Price;
  td_RealizedPnL : Money
}.

Record openTrade : Set := mkOpenTrade {
  ot_strat : string;
  ot_sym : string;
  ot_signed : Qty;
  ot_peakAbs : Qty;
  ot_entryNote : Money;
  ot_avgEntry : Price;
  ot_openedShort : bool;
  ot_openNote : Money;
  ot_openQty : Qty;
  ot_entryTS : time;
  ot_lastTS : time;
  ot_realized : Money;
  ot_lastExitPx : Price;
  ot_reduced : bool
}.

Definition ot_flat (o : openTrade) : bool := ot_signed o =? 0.

Definition tradeAbsQty (q : Qty) : Qty := if q <? 0 then wrap64 (- q) else q.

(** The package's copy of the helper of package domain. *)
Definition runsRoundHalfEvenDiv (v d : Z) : Z := roundHalfEvenDiv v d.

Definition avgPrice (notional : Money) (absQty : Qty) : Price := if absQty =? 0 then 0 else runsRoundHalfEvenDiv notional absQty.

Definition openNew (signed : Qty) (px : Price) (ts : time) (o : openTrade) : openTrade :=
  let abs := tradeAbsQty signed in
  let note := match Price_MulQty px abs with Ok n => n | Err _ => 0 end in
  mkOpenTrade (ot_strat o) (ot_sym o) signed abs note px (signed <? 0) note abs ts ts 0 (ot_lastExitPx o) false.

Definition with_lastTS (ts : time) (o : openTrade) : openTrade :=
  mkOpenTrade (ot_strat o) (ot_sym o) (ot_signed o) (ot_peakAbs o) (ot_entryNote o) (ot_avgEntry o) (ot_openedShort o) (ot_openNote o) (ot_openQty o)
    (ot_entryTS o) ts (ot_realized o) (ot_lastExitPx o) (ot_reduced o).

Definition increase (delta : Qty) (px : Price) (o : openTrade) : res openTrade :=
  let addAbs := tradeAbsQty delta in
  addNote <-? Price_MulQty px addAbs ;;
  let signed := wrap64 (ot_signed o + delta) in
  let newAbs := tradeAbsQty signed in
  let peak := if ot_peakAbs o <? newAbs then newAbs else ot_peakAbs o in
  entryNote <-? Money_Add (ot_entryNote o) addNote ;;
  openNote <-? Money_Add (ot_openNote o) addNote ;;
  Ok (mkOpenTrade (ot_strat o) (ot_sym o) signed peak entryNote (avgPrice entryNote newAbs) (ot_openedShort o) openNote
        (wrap64 (ot_openQty o + addAbs)) (ot_entryTS o) (ot_lastTS o) (ot_realized o) (ot_lastExitPx o) (ot_reduced o)).

Definition reduce (closeAbs : Qty) (px : Price) (o : openTrade) : res openTrade :=
  let wasLong := 0 <? ot_signed o in
  perShare <-? (if wasLong then Price_Sub px (ot_avgEntry o) else Price_Sub (ot_avgEntry o) px) ;;
  pnl <-? Price_MulQty perShare closeAbs ;;
  realized <-? Money_Add (ot_realized o) pnl ;;
  closedEntryNote <-? Price_MulQty (ot_avgEntry o) closeAbs ;;
  entryNote <-? Money_Sub (ot_entryNote o) closedEntryNote ;;
  let signed := if wasLong then wrap64 (ot_signed o - closeAbs) else wrap64 (ot_signed o + closeAbs) in
  Ok (mkOpenTrade (ot_strat o) (ot_sym o) signed (ot_peakAbs o) entryNote (ot_avgEntry o) (ot_openedShort o) (ot_openNote o) (ot_openQty o)
        (ot_entryTS o) (ot_lastTS o) realized px true).

Definition tradeSide (o : openTrade) : string := if ot_openedShort o then "SHORT" else "LONG".

Definition completeTrade (ts : time) (o : openTrade) : Trade :=
  mkTrade (ot_strat o) (ot_sym o) (tradeSide o) (ot_peakAbs o) (ot_entryTS o) (Some ts) (avgPrice (ot_openNote o) (ot_openQty o))
    (Some (ot_lastExitPx o)) (ot_realized o).

Definition snapshotOpen (o : openTrade) : Trade :=
  mkTrade (ot_strat o) (ot_sym o) (tradeSide o) (ot_peakAbs o) (ot_entryTS o) None (avgPrice (ot_openNote o) (ot_openQty o)) None (ot_realized o).

Definition ot_reset (o : openTrade) : openTrade :=
  mkOpenTrade (ot_strat o) (ot_sym o) 0 0 0 0 false 0 0 (ot_entryTS o) (ot_lastTS o) 0 0 false.

Definition ot_apply (delta : Qty) (px : Price) (ts : time) (o : openTrade) : res (openTrade * list Trade) :=
  if delta =? 0 then Ok (o, [])
  else if ot_signed o =? 0 then Ok (openNew delta px ts o, [])
  else
    let o := with_lastTS ts o in
    if Bool.eqb (0 <? ot_signed o) (0 <? delta) then o <-? increase delta px o ;; Ok (o, [])
    else
      let closeQty := tradeAbsQty delta in
      let curAbs := tradeAbsQty (ot_signed o) in
      if closeQty <=? curAbs then
        o <-? reduce closeQty px o ;;
        if ot_signed o =? 0 then Ok (ot_reset o, [completeTrade ts o]) else Ok (o, [])
      else
        o <-? reduce curAbs px o ;;
        let residual := wrap64 (closeQty - curAbs) in
        Ok (openNew (if delta <? 0 then wrap64 (- residual) else residual) px ts (ot_reset o), [completeTrade ts o]).

Abbreviation tradeKey := (string * string)%type.
Definition newOpenTrade (k : tradeKey) : openTrade :=
  mkOpenTrade k.1 k.2 0 0 0 0 false 0 0 zeroTime zeroTime 0 0 false.

Record walk : Set := mkWalk { wk_open : gmap tradeKey openTrade; wk_keys : list tradeKey; wk_out : list Trade }.

Definition tradeDelta (f : Fill) : Qty := if String.eqb (f_Side f) OrderSideSell then wrap64 (- f_Qty f) else f_Qty f.
Definition fillKey (f : Fill) : tradeKey := (f_StrategyID f, f_Symbol f).

(** One fill of the walk. *)
Definition walkFill (f : Fill) (w : walk) : res walk :=
  let k := fillKey f in
  let '(o, keys) := match wk_open w !! k with Some o => (o, wk_keys w) | None => (newOpenTrade k, wk_keys w ++ [k]) end in
  '(o, closed) <-? ot_apply (tradeDelta f) (f_Price f) (f_TS f) o ;;
  Ok (mkWalk (if ot_flat o then delete k (wk_open w) else <[k := o]> (wk_open w)) keys (wk_out w ++ closed)).

Fixpoint walkFills (fills : list Fill) (w : walk) : res walk :=
  match fills with
  | [] => Ok w
  | f :: fills => w <-? walkFill f w ;; walkFills fills w
  end.

Definition tradeLess (a b : Trade) : bool :=
  if negb (String.eqb (td_StrategyID a) (td_StrategyID b)) then String.ltb (td_StrategyID a) (td_StrategyID b)
  else if negb (String.eqb (td_Symbol a) (td_Symbol b)) then String.ltb (td_Symbol a) (td_Symbol b)
  else Before (td_EntryTS a) (td_EntryTS b).

Definition ExtractTrades (fills : list Fill) : res (list Trade) :=
  w <-? walkFills fills (mkWalk ∅ [] []) ;;
  let still := omap (fun k => snapshotOpen <$> wk_open w !! k) (wk_keys w) in
  Ok (sliceStable tradeLess (wk_out w ++ still)).

(** ** Rounding *)

(** The helper errs by half a unit, and by one part of an odd divisor more. *)
Lemma runsRound_error v d : in64 v -> 0 < d <= max_int64 -> 2 * Z.abs (v - runsRoundHalfEvenDiv v d * d) <= d + 1 /\ in64 (runsRoundHalfEvenDiv v d).
Proof.
  intros Hv Hd. unfold runsRoundHalfEvenDiv, roundHalfEvenDiv.
  pose proof (Z.quot_rem v d ltac:(lia)) as E. pose proof (Z.rem_bound_abs v d ltac:(lia)) as R. pose proof (Z.rem_sign_mul v d ltac:(lia)) as Sg.
  destruct (Z.eq_dec d 1) as [->|Hd1].
  { rewrite Z.quot_1_r, Z.rem_1_r. cbn [Z.eqb]. rewrite wrap64_id by done. split; [lia|done]. }
  set (q := Z.quot v d) in *. set (r := Z.rem v d) in *.
  assert (Hq : Z.abs q <= 4611686018427387904).
  { subst q. rewrite <- Z.quot_abs, (Z.abs_eq d) by lia. apply Z.quot_le_upper_bound; [lia|]. rlia. }
  assert (Eh : Z.quot d 2 = d / 2) by (apply Z.quot_div_nonneg; lia). rewrite Eh. pose proof (Z.div_mod d 2 ltac:(lia)) as Ed.
  pose proof (Z.mod_pos_bound d 2 ltac:(lia)) as Em. set (h := d / 2) in *.
  rewrite (wrap64_id q), (wrap64_id h) by rlia.
  assert (Ar : (if r <? 0 then wrap64 (- r) else r) = Z.abs r) by (destruct (Z.ltb_spec r 0); [rewrite wrap64_id by rlia|]; lia). rewrite Ar.
  destruct (Z.eqb_spec r 0) as [R0|R0]; [split; [lia|rlia]|].
  assert (Rs : (v < 0 /\ r < 0) \/ (0 <= v /\ 0 < r)).
  { assert (v <> 0) by (intros ->; apply R0; apply Z.rem_0_l; lia). clear -Sg R0 H. nia. }
  destruct (Z.ltb_spec h (Z.abs r)) as [G|G]; cbn [orb].
  - destruct (Z.ltb_spec v 0); rewrite wrap64_id by rlia; split; [lia|rlia|lia|rlia].
  - destruct (_ && _) eqn:G2; [|split; [lia|rlia]]. apply andb_prop in G2 as [G2 _]. breflect.
    destruct (Z.ltb_spec v 0); rewrite wrap64_id by rlia; split; [lia|rlia|lia|rlia].
Qed.

Lemma tradeAbsQty_abs q : Z.abs q <= max_int64 -> tradeAbsQty q = Z.abs q.
Proof. intros H. unfold tradeAbsQty. destruct (Z.ltb_spec q 0); [rewrite wrap64_id by rlia|]; lia. Qed.

(** ** One round trip *)

(** The cash of the fills of a round trip since it opened is what it realized less
    what its remaining entry cost, and the remaining entry is its size at the average
    entry price up to the rounding of that price. *)
Record tradeOk (o : openTrade) (cash : Z) : Prop := {
  to_signed : ot_signed o <> 0;
  to_peak : Z.abs (ot_signed o) <= ot_peakAbs o <= max_int64;
  to_cash : ot_realized o = cash + Z.sgn (ot_signed o) * ot_entryNote o;
  to_avg : 2 * Z.abs (ot_entryNote o - ot_avgEntry o * Z.abs (ot_signed o)) <= ot_peakAbs o + 1;
  to_side : ot_openedShort o = (ot_signed o <? 0);
  to_range : in64 (ot_entryNote o) /\ in64 (ot_avgEntry o) /\ in64 (ot_realized o) /\ in64 (ot_openNote o)
}.

Lemma openNew_ok signed px ts o : signed <> 0 -> Z.abs signed <= max_int64 -> in64 px -> in64 (px * Z.abs signed) ->
  tradeOk (openNew signed px ts o) (- (signed * px)).
Proof.
  intros H0 Hs Hp Hn. unfold openNew. rewrite tradeAbsQty_abs by done.
  assert (E : Price_MulQty px (Z.abs signed) = Ok (px * Z.abs signed)) by (apply Price_MulQty_ok; [done|rlia|done]). rewrite E.
  split; cbn; try done; try rlia.
Qed.

Lemma increase_ok delta px o o' cash : tradeOk o cash -> delta <> 0 -> (0 <? ot_signed o) = (0 <? delta) -> Z.abs (ot_signed o) + Z.abs delta <= max_int64 -> in64 px ->
  increase delta px o = Ok o' ->
  tradeOk o' (cash - delta * px) /\ ot_signed o' = ot_signed o + delta /\ ot_strat o' = ot_strat o /\ ot_sym o' = ot_sym o.
Proof.
  intros [S P C A D (R1 & R2 & R3 & R4)] H0 Hdir Hsum Hp H. unfold increase in H. rewrite (tradeAbsQty_abs delta), (wrap64_id (ot_signed o + delta)) in H by rlia.
  bind_inv. apply Price_MulQty_ok in Hb as [-> Hn]; [|done|rlia]. apply Money_Add_ok in Hb0 as [-> He]; [|done|done]. apply Money_Add_ok in Hb1 as [-> Ho]; [|done|done].
  injection Hk as <-. assert (Habs : Z.abs (ot_signed o + delta) = Z.abs (ot_signed o) + Z.abs delta) by lia. rewrite (tradeAbsQty_abs (ot_signed o + delta)) by rlia.
  assert (Hsgn : Z.sgn (ot_signed o + delta) = Z.sgn (ot_signed o)) by lia.
  unfold avgPrice. replace (Z.abs (ot_signed o + delta) =? 0) with false by lia.
  destruct (runsRound_error (ot_entryNote o + px * Z.abs delta) (Z.abs (ot_signed o + delta)) He ltac:(rlia)) as [Er Ei].
  split; [|done]. split; cbn [ot_signed ot_peakAbs ot_realized ot_entryNote ot_avgEntry ot_openedShort ot_openNote].
  - lia.
  - destruct (Z.ltb_spec (ot_peakAbs o) (Z.abs (ot_signed o + delta))); rlia.
  - rewrite Hsgn, C. nia.
  - destruct (Z.ltb_spec (ot_peakAbs o) (Z.abs (ot_signed o + delta))); lia.
  - rewrite D. lia.
  - done.
Qed.

Lemma reduce_ok closeAbs px o o' cash : tradeOk o cash -> 0 < closeAbs <= Z.abs (ot_signed o) -> in64 px -> reduce closeAbs px o = Ok o' ->
  let s := Z.sgn (ot_signed o) in
  ot_signed o' = ot_signed o - s * closeAbs /\ ot_peakAbs o' = ot_peakAbs o /\ ot_strat o' = ot_strat o /\ ot_sym o' = ot_sym o /\ ot_openedShort o' = ot_openedShort o /\
  ot_realized o' = cash + s * closeAbs * px + s * ot_entryNote o' /\
  2 * Z.abs (ot_entryNote o' - ot_avgEntry o' * (Z.abs (ot_signed o) - closeAbs)) <= ot_peakAbs o + 1 /\
  in64 (ot_entryNote o') /\ in64 (ot_avgEntry o') /\ in64 (ot_realized o') /\ in64 (ot_openNote o').
Proof.
  intros [S P C A D (R1 & R2 & R3 & R4)] Hc Hp H. unfold reduce in H. cbv zeta. bind_inv.
  assert (Hps : r = Z.sgn (ot_signed o) * (px - ot_avgEntry o) /\ in64 r).
  { destruct (Z.ltb_spec 0 (ot_signed o)); apply Price_Sub_ok in Hb as [-> Hb]; try done; (split; [|done]); [rewrite Z.sgn_pos by lia|rewrite Z.sgn_neg by lia]; lia. }
  destruct Hps as [Er Hr]. apply Price_MulQty_ok in Hb0 as [-> Hb0]; [|done|rlia]. apply Money_Add_ok in Hb1 as [-> Hb1]; [|done|done].
  apply Price_MulQty_ok in Hb2 as [-> Hb2]; [|done|rlia]. apply Money_Sub_ok in Hb3 as [-> Hb3]; [|done|done]. injection Hk as <-.
  cbn [ot_signed ot_peakAbs ot_strat ot_sym ot_openedShort ot_realized ot_entryNote ot_avgEntry ot_openNote]. splits; try done.
  - destruct (Z.ltb_spec 0 (ot_signed o)); [rewrite Z.sgn_pos by lia|rewrite Z.sgn_neg by lia]; rewrite wrap64_id by rlia; lia.
  - rewrite C, Er. nia.
  - replace (ot_entryNote o - ot_avgEntry o * closeAbs - ot_avgEntry o * (Z.abs (ot_signed o) - closeAbs)) with (ot_entryNote o - ot_avgEntry o * Z.abs (ot_signed o)) by lia. done.
Qed.

(** A completed trade with the cash of its fills. *)
Definition settledTrade (t : Trade) (cash : Z) : Prop :=
  2 * Z.abs (td_RealizedPnL t - cash) <= td_Qty t + 1 /\ is_Some (td_ExitTS t).

(** The state after a fill: the round trip that runs on, or none. *)
Definition runningTrade (o : openTrade) (cash : Z) : Prop := (ot_signed o = 0 /\ cash = 0) \/ tradeOk o cash.

(** A reduction to flat. *)
Lemma reduce_flat px ts o o' cash : tradeOk o cash -> in64 px -> reduce (Z.abs (ot_signed o)) px o = Ok o' ->
  ot_signed o' = 0 /\ settledTrade (completeTrade ts o') (cash + ot_signed o * px) /\ ot_strat o' = ot_strat o /\ ot_sym o' = ot_sym o.
Proof.
  intros K Hp H. destruct (reduce_ok (Z.abs (ot_signed o)) px o o' cash K ltac:(pose proof (to_signed _ _ K); lia) Hp H) as (E1 & E2 & E3 & E4 & _ & E5 & E6 & _).
  assert (Hs : Z.sgn (ot_signed o) * Z.abs (ot_signed o) = ot_signed o) by lia.
  splits; [lia| |done|done]. split; [|by eexists]. cbn. rewrite E5, E2. replace (cash + Z.sgn (ot_signed o) * Z.abs (ot_signed o) * px) with (cash + ot_signed o * px) by (by rewrite Hs).
  rewrite Z.sub_diag, Z.mul_0_r, Z.sub_0_r in E6. destruct (Z.lt_total (ot_signed o) 0) as [Hl|[Hl|Hl]]; [rewrite (Z.sgn_neg _ Hl)|by destruct (to_signed _ _ K)|rewrite (Z.sgn_pos _ Hl)]; lia.
Qed.

Lemma ot_apply_ok delta px ts o o' done cash : runningTrade o cash -> delta <> 0 -> Z.abs (ot_signed o) + Z.abs delta <= max_int64 -> in64 px ->
  in64 (px * Z.abs delta) -> ot_apply delta px ts o = Ok (o', done) ->
  ot_signed o' = ot_signed o + delta /\ ot_strat o' = ot_strat o /\ ot_sym o' = ot_sym o /\
  exists cash', runningTrade o' cash' /\
    ((done = [] /\ cash' = cash - delta * px) \/
     exists t c, done = [t] /\ c + cash' = cash - delta * px /\ settledTrade t c /\ td_StrategyID t = ot_strat o /\ td_Symbol t = ot_sym o).
Proof.
  intros K H0 Hsum Hp Hn H. unfold ot_apply in H. replace (delta =? 0) with false in H by lia.
  destruct (Z.eqb_spec (ot_signed o) 0) as [Hz|Hz].
  { injection H as <- <-. destruct K as [[_ ->]|K]; [|by destruct (to_signed _ _ K)]. cbn [openNew ot_signed ot_strat ot_sym]. splits; [lia|done|done|].
    exists (- (delta * px)). split; [right; apply openNew_ok; done || lia|]. left. split; [done|lia]. }
  destruct K as [[Hz' _]|K]; [done|]. assert (K1 : tradeOk (with_lastTS ts o) cash) by (destruct K; by split).
  cbv zeta in H. cbn [ot_signed with_lastTS] in H. rewrite (tradeAbsQty_abs delta), (tradeAbsQty_abs (ot_signed o)) in H by rlia.
  destruct (Bool.eqb (0 <? ot_signed o) (0 <? delta)) eqn:Ed.
  { apply Bool.eqb_prop in Ed. bind_inv. injection Hk as <- <-. destruct (increase_ok _ _ _ _ _ K1 H0 Ed Hsum Hp Hb) as (K2 & E1 & E2 & E3). splits; [done|done|done|].
    eexists. split; [right; exact K2|by left]. }
  assert (Hopp : ot_signed o * delta < 0) by (destruct (Z.ltb_spec 0 (ot_signed o)), (Z.ltb_spec 0 delta); try done; nia).
  assert (Hsg : Z.sgn (ot_signed o) * Z.abs delta = - delta) by nia.
  destruct (Z.leb_spec (Z.abs delta) (Z.abs (ot_signed o))) as [Hle|Hgt]; bind_inv.
  - destruct (Z.eq_dec (Z.abs delta) (Z.abs (ot_signed o))) as [Heq|Hne].
    + rewrite Heq in Hb. destruct (reduce_flat px ts _ _ _ K1 Hp Hb) as (E1 & E2 & E3 & E4). rewrite E1 in Hk. cbn in Hk. injection Hk as <- <-.
      cbn [ot_reset ot_signed ot_strat ot_sym]. splits; [lia|done|done|]. exists 0. split; [by left|]. right. eexists _, (cash + ot_signed o * px). splits; [done|nia|apply E2|done|done].
    + destruct (reduce_ok (Z.abs delta) px _ _ cash K1 ltac:(cbn; lia) Hp Hb) as (E1 & E2 & E3 & E4 & E5 & E6 & E7 & R). cbn [with_lastTS ot_signed ot_strat ot_sym ot_peakAbs ot_openedShort] in *.
      replace (ot_signed r =? 0) with false in Hk by lia. injection Hk as <- <-. splits; [lia|done|done|]. exists (cash - delta * px). split; [|by left]. right.
      assert (Hsr : Z.sgn (ot_signed r) = Z.sgn (ot_signed o)) by nia. assert (Har : Z.abs (ot_signed r) = Z.abs (ot_signed o) - Z.abs delta) by nia.
      pose proof (to_peak _ _ K). pose proof (to_side _ _ K) as Ks. cbn in Ks. split; [lia|lia| |by rewrite E2, Har|rewrite E5, Ks; lia|done]. rewrite E6, Hsr. f_equal. rewrite Hsg. lia.
  - destruct (reduce_flat px ts _ _ _ K1 Hp Hb) as (E1 & E2 & E3 & E4). injection Hk as <- <-.
    rewrite (wrap64_id (Z.abs delta - Z.abs (ot_signed o))) by rlia.
    set (res := if delta <? 0 then _ else _). assert (Hres : res = ot_signed o + delta).
    { unfold res. destruct (Z.ltb_spec delta 0); [rewrite wrap64_id by rlia|]; nia. }
    cbn [openNew ot_reset ot_signed ot_strat ot_sym]. splits; [done|done|done|]. exists (- (res * px)). split.
    + right. apply openNew_ok; [rewrite Hres; nia|rewrite Hres; rlia|done|]. assert (Hab : 0 <= Z.abs res <= Z.abs delta) by (rewrite Hres; nia). unfold in64 in *. nia.
    + right. eexists _, (cash + ot_signed o * px). splits; [done|rewrite Hres; lia|apply E2|done|done].
Qed.

(** ** The walk *)

Definition sumBy {A} (f : A -> Z) (l : list A) : Z := fold_right (fun x n => f x + n) 0 l.

Lemma sumBy_app {A} (f : A -> Z) a b : sumBy f (a ++ b) = sumBy f a + sumBy f b.
Proof. induction a as [|x a IH]; [done|]. unfold sumBy in *. cbn [app fold_right]. lia. Qed.

Lemma sumBy_perm {A} (f : A -> Z) a b : a ≡ₚ b -> sumBy f a = sumBy f b.
Proof. unfold sumBy. induction 1 as [|x a b _ IH|x y a|a b c _ IH1 _ IH2]; cbn [fold_right]; lia. Qed.

Definition only {A} (key : A -> tradeKey) (k : tradeKey) (f : A -> Z) (x : A) : Z := if decide (key x = k) then f x else 0.
Definition keyOf (t : Trade) : tradeKey := (td_StrategyID t, td_Symbol t).

(** The position and the cash the fills of a key leave. *)
Definition netFilled (k : tradeKey) : list Fill -> Z := sumBy (only fillKey k tradeDelta).
Definition cashFlow (k : tradeKey) : list Fill -> Z := sumBy (only fillKey k (fun f => - (tradeDelta f * f_Price f))).
(** The profit its trades realized, and twice the ticks they may be off: for each
    trade the shares of its peak size and one more. *)
Definition realizedPnL (k : tradeKey) : list Trade -> Z := sumBy (only keyOf k td_RealizedPnL).
Definition tickSlack (k : tradeKey) : list Trade -> Z := sumBy (only keyOf k (fun t => td_Qty t + 1)).

Definition fillSane (f : Fill) : Prop := 0 < f_Qty f /\ in64 (f_Price f) /\ in64 (f_Price f * f_Qty f).
Definition fillsSane (fills : list Fill) : Prop := Forall fillSane fills /\ sumBy f_Qty fills <= max_int64.

Lemma fillDelta_abs f : fillSane f -> f_Qty f <= max_int64 -> Z.abs (tradeDelta f) = f_Qty f.
Proof. intros (Hq & _) Hm. unfold tradeDelta. destruct (String.eqb _ _); [rewrite wrap64_id by rlia|]; lia. Qed.

Lemma sumBy_nonneg fills : Forall fillSane fills -> 0 <= sumBy f_Qty fills.
Proof. induction 1 as [|f fills (Hq & _) _ IH]; [done|]. unfold sumBy in *. cbn [fold_right]. lia. Qed.

Lemma netFilled_bound k fills : fillsSane fills -> Z.abs (netFilled k fills) <= sumBy f_Qty fills.
Proof.
  intros [F S]. induction F as [|f fills Hf F IH]; [done|]. unfold netFilled, sumBy in *. cbn [fold_right] in *.
  pose proof (sumBy_nonneg fills F) as Hn. unfold sumBy in Hn. destruct Hf as (Hq & Hf). pose proof (fillDelta_abs f ltac:(by split) ltac:(lia)).
  specialize (IH ltac:(lia)). unfold only at 1. destruct (decide _); lia.
Qed.

Definition walkOk (fills : list Fill) (w : walk) : Prop :=
  Forall (fun t => is_Some (td_ExitTS t)) (wk_out w) /\
  forall k, exists cash,
    match wk_open w !! k with
    | Some o => tradeOk o cash /\ ot_signed o = netFilled k fills /\ (ot_strat o, ot_sym o) = k /\ In k (wk_keys w)
    | None => cash = 0 /\ netFilled k fills = 0
    end /\
    2 * Z.abs (realizedPnL k (wk_out w) - (cashFlow k fills - cash)) <= tickSlack k (wk_out w).

Lemma only_same {A} (key : A -> tradeKey) k f x : key x = k -> sumBy (only key k f) [x] = f x.
Proof. intros <-. unfold sumBy, only. cbn [fold_right]. rewrite decide_True by done. lia. Qed.
Lemma only_other {A} (key : A -> tradeKey) k f x : key x <> k -> sumBy (only key k f) [x] = 0.
Proof. intros H. unfold sumBy, only. cbn [fold_right]. by rewrite decide_False. Qed.

Lemma walkFill_ok fills f w w' : walkOk fills w -> fillsSane (fills ++ [f]) -> walkFill f w = Ok w' -> walkOk (fills ++ [f]) w'.
Proof.
  intros [Hx HI] [Hs Hsum] H. apply Forall_app in Hs as [Hs Hf]. apply List.Forall_cons_iff in Hf as [Hf _].
  assert (Hqs : 0 <= sumBy f_Qty fills) by (by apply sumBy_nonneg). rewrite sumBy_app in Hsum. unfold sumBy at 2 in Hsum. cbn [fold_right] in Hsum.
  pose proof Hf as (Hq & Hp & Hn). assert (Ha : Z.abs (tradeDelta f) = f_Qty f) by (apply fillDelta_abs; [done|lia]).
  set (k := fillKey f) in *. unfold walkFill in H. fold k in H.
  destruct (HI k) as (cash & Hm & Hc).
  set (o := match wk_open w !! k with Some o => o | None => newOpenTrade k end).
  assert (Ho : runningTrade o cash /\ ot_signed o = netFilled k fills /\ (ot_strat o, ot_sym o) = k).
  { unfold o. destruct (wk_open w !! k) as [o1|]; [destruct Hm as (K & S & E & _); splits; [by right|done|done]|].
    destruct Hm as [-> N]. splits; [by left|by rewrite N|by destruct k]. }
  destruct Ho as (Ko & So & Eo).
  set (keys := match wk_open w !! k with Some _ => wk_keys w | None => wk_keys w ++ [k] end).
  assert (Hkeys : In k keys /\ forall x, In x (wk_keys w) -> In x keys).
  { unfold keys. destruct (wk_open w !! k); [split; [apply Hm|done]|]. split; [apply in_or_app; right; by left|intros x Hxx; apply in_or_app; by left]. }
  destruct Hkeys as [Hkin Hkmono].
  replace (match wk_open w !! k with Some o => (o, wk_keys w) | None => (newOpenTrade k, wk_keys w ++ [k]) end) with (o, keys) in H by (unfold o, keys; by destruct (wk_open w !! k)).
  bind_inv. destruct r as [o' done]. injection Hk as <-.
  pose proof (netFilled_bound k fills ltac:(split; [done|lia])) as Hnb.
  destruct (ot_apply_ok (tradeDelta f) (f_Price f) (f_TS f) o o' done cash Ko ltac:(lia) ltac:(rewrite So; lia) Hp ltac:(by rewrite Ha) Hb)
    as (Es & Est & Esy & cash' & K' & Hd).
  assert (Hnet : netFilled k (fills ++ [f]) = ot_signed o'). { unfold netFilled. rewrite sumBy_app, only_same by done. rewrite Es, So. done. }
  assert (Hcf : cashFlow k (fills ++ [f]) = cashFlow k fills - tradeDelta f * f_Price f). { unfold cashFlow. rewrite sumBy_app, only_same by done. lia. }
  split.
  { cbn [wk_out]. apply Forall_app. split; [done|]. destruct Hd as [[-> _]|(t & c & -> & _ & [_ Ht] & _)]; [constructor|by repeat constructor]. }
  intros k'. cbn [wk_out wk_open wk_keys]. destruct (decide (k' = k)) as [->|Hne].
  - exists cash'. split.
    + unfold ot_flat. destruct (Z.eqb_spec (ot_signed o') 0) as [Hz|Hz].
      * rewrite lookup_delete_eq. split; [|by rewrite Hnet]. destruct K' as [[_ ->]|K']; [done|by destruct (to_signed _ _ K')].
      * rewrite lookup_insert_eq. destruct K' as [[? _]|K']; [done|]. splits; [done|done|congruence|done].
    + rewrite Hcf. unfold realizedPnL, tickSlack. rewrite !sumBy_app. destruct Hd as [[-> ->]|(t & c & -> & Ec & [Ht _] & Et1 & Et2)].
      * cbn [sumBy fold_right]. unfold realizedPnL, tickSlack in Hc. lia.
      * assert (Hkt : keyOf t = k) by (unfold keyOf; congruence). rewrite !only_same by done. unfold realizedPnL, tickSlack in Hc. lia.
  - destruct (HI k') as (c' & Hm' & Hc'). exists c'.
    assert (Hlook : (if ot_flat o' then delete k (wk_open w) else <[k := o']> (wk_open w)) !! k' = wk_open w !! k').
    { destruct (ot_flat o'); [by rewrite lookup_delete_ne|by rewrite lookup_insert_ne]. }
    rewrite Hlook. unfold netFilled, cashFlow, realizedPnL, tickSlack in *. rewrite !sumBy_app, !(only_other fillKey) by done. rewrite !Z.add_0_r.
    assert (Hdk : sumBy (only keyOf k' td_RealizedPnL) done = 0 /\ sumBy (only keyOf k' (fun t => td_Qty t + 1)) done = 0).
    { destruct Hd as [[-> _]|(t & c & -> & _ & _ & Et1 & Et2)]; [done|]. assert (Hkt : keyOf t <> k') by (unfold keyOf; congruence). by rewrite !only_other. }
    destruct Hdk as [-> ->]. rewrite !Z.add_0_r. split; [|done]. destruct (wk_open w !! k'); [|done]. destruct Hm' as (A & B & C & D). splits; try done. by apply Hkmono.
Qed.

Lemma walkFills_ok fills : forall seen w w', walkOk seen w -> fillsSane (seen ++ fills) -> walkFills fills w = Ok w' -> walkOk (seen ++ fills) w'.
Proof.
  induction fills as [|f fills IH]; intros seen w w' K S H; cbn [walkFills] in H; [injection H as <-; by rewrite app_nil_r|]. bind_inv.
  rewrite (app_assoc seen [f] fills : seen ++ f :: fills = _) in *. apply (IH (seen ++ [f]) r); [|done|done]. apply (walkFill_ok seen f w); [done| |done].
  destruct S as [F T]. apply Forall_app in F as [F1 F2]. split; [done|]. rewrite sumBy_app in T. pose proof (sumBy_nonneg _ F2). lia.
Qed.

Lemma snapshotOpen_open o : td_ExitTS (snapshotOpen o) = None.
Proof. done. Qed.

(** The trades that are still open, by key. *)
Lemma stillOpen_in k w t : In t (omap (fun k => snapshotOpen <$> wk_open w !! k) (wk_keys w)) -> keyOf t = k ->
  (forall x o, wk_open w !! x = Some o -> (ot_strat o, ot_sym o) = x) -> exists o, wk_open w !! k = Some o /\ t = snapshotOpen o.
Proof.
  intros Hin Hk Hkeys. apply list_elem_of_In, list_elem_of_omap in Hin as (x & _ & Hx). destruct (wk_open w !! x) as [o|] eqn:E; [|done]. injection Hx as <-.
  pose proof (Hkeys x o E) as Ex. unfold keyOf, snapshotOpen in Hk. cbn in Hk. assert (x = k) as -> by congruence. by exists o.
Qed.

Lemma still_none k w : wk_open w !! k = None -> (forall x o, wk_open w !! x = Some o -> (ot_strat o, ot_sym o) = x) ->
  forall f, sumBy (only keyOf k f) (omap (fun k => snapshotOpen <$> wk_open w !! k) (wk_keys w)) = 0.
Proof.
  intros E Hkeys f. induction (wk_keys w) as [|x keys IH]; [done|]. cbn [omap list_omap]. destruct (wk_open w !! x) as [o|] eqn:Ex; cbn [fmap option_fmap option_map]; [|done].
  unfold sumBy in *. cbn [fold_right]. unfold only at 1. rewrite decide_False; [lia|]. pose proof (Hkeys x o Ex) as Hx. unfold keyOf. cbn. rewrite Hx. congruence.
Qed.

(** C26: The trades of a run account for its fills.  When the walk succeeds, a strategy
    and symbol whose fills net to zero has only completed trades, and the profit they
    realized differs from the cash of the fills, for each trade, by at most half a tick
    per share of its peak size and half a tick more (the rounding of its average entry
    price, which can be off by more than half a tick for an odd size); one whose fills
    do not net to zero has an open trade on the side of its position. *)
Theorem trades_realize_cash_flow (fills : list Fill) (trades : list Trade) (k : tradeKey)
    (Hsane : fillsSane fills) (H : ExtractTrades fills = Ok trades) :
  (netFilled k fills = 0 ->
     (forall t, In t trades -> keyOf t = k -> is_Some (td_ExitTS t)) /\
     2 * Z.abs (realizedPnL k trades - cashFlow k fills) <= tickSlack k trades) /\
  (netFilled k fills <> 0 ->
     exists t, In t trades /\ keyOf t = k /\ td_ExitTS t = None /\ td_Side t = if netFilled k fills <? 0 then "SHORT" else "LONG").
Proof.
  unfold ExtractTrades in H. bind_inv. injection Hk as <-.
  assert (K0 : walkOk [] (mkWalk ∅ [] [])). { split; [constructor|]. intros x. exists 0. cbn [wk_open wk_out]. rewrite lookup_empty. by repeat split. }
  destruct (walkFills_ok fills [] _ _ K0 Hsane Hb) as [Hout HI]. cbn [app] in HI.
  assert (Hkeys : forall x o, wk_open r !! x = Some o -> (ot_strat o, ot_sym o) = x).
  { intros x o E. destruct (HI x) as (c & Hm & _). rewrite E in Hm. by destruct Hm as (_ & _ & ? & _). }
  set (still := omap _ _). pose proof (sliceStable_perm tradeLess (wk_out r ++ still)) as Hperm. destruct (HI k) as (cash & Hm & Hc). split.
  - intros Hnet. destruct (wk_open r !! k) as [o|] eqn:E; [destruct Hm as (K & S & _); by destruct (to_signed _ _ K); rewrite S|]. destruct Hm as [-> _]. split.
    + intros t Hin Hkt. rewrite Hperm in Hin. apply in_app_or in Hin as [Hin|Hin]; [rewrite List.Forall_forall in Hout; by apply Hout|].
      destruct (stillOpen_in k r t Hin Hkt Hkeys) as (o & Eo & _). congruence.
    + unfold realizedPnL, tickSlack in *. rewrite !(sumBy_perm _ _ _ Hperm), !sumBy_app. unfold still. rewrite !(still_none k r E Hkeys), !Z.add_0_r. rewrite Z.sub_0_r in Hc. done.
  - intros Hnet. destruct (wk_open r !! k) as [o|] eqn:E; [|by destruct Hm]. destruct Hm as (K & S & Ek & Hin). exists (snapshotOpen o). splits; [|exact Ek|done|].
    + rewrite Hperm. apply in_or_app. right. apply list_elem_of_In, list_elem_of_omap. exists k. rewrite E. split; [by apply list_elem_of_In|done].
    + cbn. unfold tradeSide. by rewrite (to_side _ _ K), S.
Qed.

Definition demoTradeFill (sym : string) (side : OrderSide) (qty px sec : Z) : Fill :=
  mkFill "t" "o" "v" "sepa" sym side qty px 0 (mkTime (sec * 1000000000) 0).

(** Two openings at different prices, a partial exit, and a reversal that is closed. *)
Definition demoTrades : list Fill :=
  [demoTradeFill "SPY" OrderSideBuy 10 1000000 1; demoTradeFill "SPY" OrderSideBuy 5 1000100 2; demoTradeFill "SPY" OrderSideSell 3 1010000 3;
   demoTradeFill "SPY" OrderSideSell 20 1020000 4; demoTradeFill "SPY" OrderSideBuy 8 990000 5; demoTradeFill "QQQ" OrderSideBuy 1 4000000 6].

Lemma trades_realize_cash_flow_witness : exists trades, ExtractTrades demoTrades = Ok trades /\
  netFilled ("sepa", "SPY") demoTrades = 0 /\ map td_RealizedPnL trades = [0; 269505; 240000] /\ cashFlow ("sepa", "SPY") demoTrades = 509500 /\
  2 * Z.abs (realizedPnL ("sepa", "SPY") trades - cashFlow ("sepa", "SPY") demoTrades) <= tickSlack ("sepa", "SPY") trades.
Proof.
  assert (E : exists trades, ExtractTrades demoTrades = Ok trades /\ map td_RealizedPnL trades = [0; 269505; 240000]) by (vm_compute; by eexists).
  destruct E as (trades & E & Er). exists trades. splits; [exact E|by vm_compute|exact Er|by vm_compute|].
  apply (trades_realize_cash_flow demoTrades trades ("sepa", "SPY")); [|exact E|by vm_compute]. split; [|by vm_compute].
  repeat (apply List.Forall_cons; [unfold fillSane; cbn; rlia|]). apply List.Forall_nil.
Defined.

(** ** Findings *)

(** A position that was closed and opened again is listed twice while it is open. *)
Lemma reopened_position_listed_twice :
  let fills := [demoTradeFill "SPY" OrderSideBuy 1 1000000 1; demoTradeFill "SPY" OrderSideSell 1 1000000 2; demoTradeFill "SPY" OrderSideBuy 7 1000000 3] in
  match ExtractTrades fills with Ok trades => map (fun t => (td_Qty t, td_ExitTS t)) trades | Err _ => [] end = [(1, Some (mkTime 2000000000 0)); (7, None); (7, None)].
Proof. by vm_compute. Qed.

(** Four ticks over three shares average to two ticks, where the account has one. *)
Lemma odd_size_rounds_up : avgPrice 4 3 = 2 /\ round_half_even 4 3 = 1.
Proof. by vm_compute. Qed.
