(* ===== verification/WalkForward.v ===== *)
(** * Walk-forward folds (src/internal/hyperopt/walkforward.go)

    The evaluation windows of a study.  The code reads the calendar date of its
    instants only, so an instant is its [Date]; the difference of two dates goes
    through [time.Duration] and a float, as in the code.  A range has at most
    106751 days (the longest [time.Duration]), so no integer of the split can
    overflow. *)

From Stdlib Require Import SpecFloat.
From stdpp Require Import list numbers.
From S2P Require Import Prelude Lists Fixed Money Domain Float64 FloatInt Calendar.
Set Default Goal Selector "!".
#[local] Open Scope string_scope.
#[local] Open Scope Z_scope.
#[local] Open Scope list_scope.
#[local] Abbreviation length := List.length.

Record EvalSegment : Set := mkSegment { TestStart : Date; TestEnd : Date }.

(** [time.Time.Sub], which saturates, and [Duration.Hours]. *)
Definition durationBetween (a b : Date) : Z :=
  let ns := (dayOf b - dayOf a) * 86400000000000 in
  if ns <? min_int64 then min_int64 else if max_int64 <? ns then max_int64 else ns.
Definition durationHours (d : Z) : float64 :=
  fadd (zToFloat (Z.quot d 3600000000000)) (fdiv (zToFloat (Z.rem d 3600000000000)) (zToFloat 3600000000000)).

Definition dayDiff (a b : Date) : Z := intOfFloat (fdiv (durationHours (durationBetween a b)) (zToFloat 24)).

(** [startDay] is the date itself. *)
Definition wfAddDays (d : Date) (n : Z) : Date := AddDays n d.

Definition floorDivInt (a b : Z) : Z := Z.quot a b.

Definition ErrFolds (msg : string) : error := ErrOther msg.

Definition foldSegment (start endDay : Date) (nFolds embargoDays bufferDays segmentDays idx : Z) : EvalSegment :=
  let prevEnd := wfAddDays start (bufferDays + idx * segmentDays - 1) in
  let testStart := wfAddDays prevEnd (embargoDays + 1) in
  let testEnd := wfAddDays testStart (segmentDays - 1) in
  mkSegment testStart (if idx =? nFolds - 1 then endDay else testEnd).

Definition ExpandingAnchored (start end_ : Date) (nFolds embargoDays : Z) : res (list EvalSegment) :=
  if dayDiff start end_ <=? 0 then Err (ErrFolds "end must be after start")
  else if nFolds <? 1 then Err (ErrFolds "n_folds must be >= 1")
  else if embargoDays <? 0 then Err (ErrFolds "embargo_days must be >= 0")
  else
    let totalDays := dayDiff start end_ + 1 in
    let bufferDays := floorDivInt totalDays 3 in
    let bufferDays := if bufferDays <? 1 then 1 else bufferDays in
    let remainingDays := totalDays - bufferDays - embargoDays in
    if remainingDays <? nFolds then Err (ErrFolds "date range too short for requested folds")
    else
      let segmentDays := floorDivInt remainingDays nFolds in
      if segmentDays <? 1 then Err (ErrFolds "date range too short for requested folds")
      else Ok (map (foldSegment start end_ nFolds embargoDays bufferDays segmentDays) (seqZ 0 nFolds)).

(** ** The difference of dates *)

Lemma dayDiff_exact a b : 0 < dayOf b - dayOf a <= 106751 -> dayDiff a b = dayOf b - dayOf a.
Proof.
  intros H. unfold dayDiff, durationBetween. set (n := dayOf b - dayOf a) in *.
  replace (n * 86400000000000 <? min_int64) with false by rlia. replace (max_int64 <? n * 86400000000000) with false by rlia.
  unfold durationHours. replace (n * 86400000000000) with (n * 24 * 3600000000000) by lia. rewrite Z.quot_mul, Z.rem_mul by lia.
  destruct n as [|p|p]; [lia| |lia]. change (Zpos p * 24) with (Zpos (p * 24)).
  assert (Hp : Zpos (p * 24) < 2 ^ 53) by (cbn; lia).
  assert (Hadd : fadd (zToFloat (Zpos (p * 24))) (fdiv (zToFloat 0) (zToFloat 3600000000000)) = zToFloat (Zpos (p * 24))).
  { destruct (zToFloat_finite (p * 24) ltac:(cbn; lia)) as (m & e & ->). destruct (zToFloat_finite 3600000000000 ltac:(done)) as (m' & e' & ->). done. }
  rewrite Hadd, fdiv_exact by done. apply intOfFloat_exact. cbn. lia.
Qed.

Definition notPositive (f : float64) : Prop := match f with S754_finite false _ _ | S754_infinity false => False | _ => True end.

Lemma binary_round_aux_sign m e l : notPositive (binary_round_aux 53 1024 true m e l).
Proof. unfold binary_round_aux. destruct (shr_fexp _ _ _ _ _) as [r e1], (shr_fexp _ _ _ _ _) as [r2 e2]. destruct (shr_m r2); [done| |done]. by destruct (_ <=? _). Qed.

Lemma zToFloat_notPositive n : n <= 0 -> notPositive (zToFloat n).
Proof. intros H. destruct n as [|p|p]; [done|lia|]. unfold zToFloat, binary_normalize, binary_round. destruct (shl_align _ _ _). apply binary_round_aux_sign. Qed.

Lemma fdiv_notPositive f p : notPositive f -> Zpos p <= 2 ^ 64 -> notPositive (fdiv f (zToFloat (Zpos p))).
Proof.
  intros Hf Hp. destruct (zToFloat_finite p Hp) as (m & e & ->). destruct f as [s|[]| |[] mf ef]; try done. unfold fdiv, SFdiv.
  destruct (SFdiv_core_binary _ _ _ _ _ _) as [[q e1] l]. apply binary_round_aux_sign.
Qed.

Lemma fadd_notPositive a b : notPositive a -> notPositive b -> notPositive (fadd a b).
Proof.
  destruct a as [[]|[]| |[] ma ea], b as [[]|[]| |[] mb eb]; try done. intros _ _. unfold fadd, SFadd. cbn [cond_Zopp]. set (x := (shl_align ma _ _).1). set (y := (shl_align mb _ _).1).
  change (- Zpos x + - Zpos y) with (Zneg (x + y)). clearbody x y. unfold binary_normalize, binary_round. destruct (shl_align _ _ _). apply binary_round_aux_sign.
Qed.

Lemma intOfFloat_notPositive f : notPositive f -> intOfFloat f <= 0.
Proof.
  intros Hf. unfold intOfFloat. destruct (_ || _); [lia|]. cbv zeta. destruct (_ && _); [|lia]. destruct f as [s|s| |[] m e]; try done. cbn [truncFloat].
  destruct (0 <=? e); [pose proof (Z.pow_nonneg 2 e); nia|]. pose proof (Z.div_pos (Zpos m) (2 ^ (- e))) as H. destruct (Z.eq_dec (2 ^ (- e)) 0) as [->|]; [by rewrite Z.div_0_r|].
  pose proof (Z.pow_nonneg 2 (- e)). lia.
Qed.

Lemma dayDiff_backward a b : dayOf b <= dayOf a -> dayDiff a b <= 0.
Proof.
  intros H. unfold dayDiff, durationHours. apply intOfFloat_notPositive, fdiv_notPositive; [|done]. set (d := durationBetween a b).
  assert (Hd : d <= 0). { unfold d, durationBetween. destruct (_ <? _); [rlia|]. destruct (Z.ltb_spec max_int64 ((dayOf b - dayOf a) * 86400000000000)); rlia. }
  apply fadd_notPositive; [|apply fdiv_notPositive; [|done]]; apply zToFloat_notPositive; pose proof (Z.quot_rem' d 3600000000000); pose proof (Z.rem_sign_mul d 3600000000000 ltac:(lia)); pose proof (Z.rem_bound_abs d 3600000000000 ltac:(lia)); nia.
Qed.

(** ** The folds *)

Lemma seqZ_blocks a s n : 0 <= s -> 0 <= n -> flat_map (fun i => seqZ (a + i * s) s) (seqZ 0 n) = seqZ a (n * s).
Proof.
  intros Hs Hn. revert n Hn. apply natlike_ind; [done|]. intros n Hn IH. rewrite <- Z.add_1_r. rewrite seqZ_app by lia. rewrite flat_map_app, IH.
  rewrite (seqZ_cons (0 + n) 1), (seqZ_nil _ (Z.pred 1)) by lia. cbn [flat_map]. rewrite app_nil_r. replace (a + (0 + n) * s) with (a + n * s) by lia. replace ((n + 1) * s) with (n * s + s) by lia. rewrite seqZ_app by nia. done.
Qed.

Abbreviation segDays s := (seqZ (dayOf (TestStart s)) (dayOf (TestEnd s) - dayOf (TestStart s) + 1)).

(** What precedes the first window: a third of the range, at least a day. *)
Definition bufferOf (total : Z) : Z := Z.max 1 (total / 3).

(** C36: The folds of a study partition its evaluation days.  For a range of dates the
    split succeeds exactly when the end lies after the start, the number of folds is
    positive, the embargo is not negative and at least one day per fold remains after
    the buffer and the embargo; it then returns that many windows, none of them empty,
    and their days, one window after the other, are exactly the days from the first
    evaluation day to the end of the range: no day is evaluated twice and none is left
    out, and all windows but the last have the same length. *)
Theorem folds_partition_range (start end_ : Date) (nFolds embargoDays : Z) (Hspan : dayOf end_ - dayOf start <= 106751) :
  let total := dayOf end_ - dayOf start + 1 in
  let first := dayOf start + bufferOf total + embargoDays in
  match ExpandingAnchored start end_ nFolds embargoDays with
  | Ok segs =>
      Z.of_nat (length segs) = nFolds /\ flat_map (fun s => segDays s) segs = seqZ first (dayOf end_ - first + 1) /\
      (exists size, 1 <= size /\ Forall (fun s => size <= dayOf (TestEnd s) - dayOf (TestStart s) + 1) segs /\
         Forall (fun s => dayOf (TestEnd s) - dayOf (TestStart s) + 1 = size) (removelast segs)) /\
      dayOf start < dayOf end_ /\ 1 <= nFolds /\ 0 <= embargoDays /\ nFolds <= total - bufferOf total - embargoDays
  | Err _ => dayOf end_ <= dayOf start \/ nFolds < 1 \/ embargoDays < 0 \/ total - bufferOf total - embargoDays < nFolds
  end.
Proof.
  cbv zeta. unfold ExpandingAnchored. destruct (Z.le_gt_cases (dayOf end_) (dayOf start)) as [Hle|Hgt].
  { pose proof (dayDiff_backward start end_ Hle). replace (dayDiff start end_ <=? 0) with true by lia. by left. }
  rewrite dayDiff_exact by lia. set (T := dayOf end_ - dayOf start) in *. replace (T <=? 0) with false by lia.
  destruct (Z.ltb_spec nFolds 1); [tauto|]. destruct (Z.ltb_spec embargoDays 0); [tauto|]. cbv zeta. unfold floorDivInt.
  assert (Hbuf : (if Z.quot (T + 1) 3 <? 1 then 1 else Z.quot (T + 1) 3) = bufferOf (T + 1)).
  { rewrite Z.quot_div_nonneg by lia. unfold bufferOf. destruct (Z.ltb_spec ((T + 1) / 3) 1); lia. }
  rewrite Hbuf. set (B := bufferOf (T + 1)). set (R := T + 1 - B - embargoDays). destruct (Z.ltb_spec R nFolds) as [|HR]; [tauto|].
  rewrite Z.quot_div_nonneg by lia. set (S := R / nFolds). assert (HS : 1 <= S) by (apply Z.div_le_lower_bound; lia). replace (S <? 1) with false by lia.
  assert (HSR : nFolds * S <= R) by (apply Z.mul_div_le; lia). set (first := dayOf start + B + embargoDays).
  assert (Hend : dayOf end_ = first + R - 1) by (unfold first, R, T; lia).
  set (f := foldSegment start end_ nFolds embargoDays B S).
  assert (Hst : forall i, dayOf (TestStart (f i)) = first + i * S). { intros i. unfold f, foldSegment, wfAddDays. cbn [TestStart]. rewrite !dayOf_AddDays. unfold first. lia. }
  assert (Hen : forall i, dayOf (TestEnd (f i)) = if i =? nFolds - 1 then dayOf end_ else first + i * S + S - 1).
  { intros i. unfold f, foldSegment, wfAddDays. cbn [TestEnd]. destruct (i =? nFolds - 1); [done|]. rewrite !dayOf_AddDays. unfold first. lia. }
  assert (Hsplit : seqZ 0 nFolds = seqZ 0 (nFolds - 1) ++ [nFolds - 1]).
  { replace nFolds with (nFolds - 1 + 1) at 1 by lia. rewrite seqZ_app by lia. rewrite (seqZ_cons (0 + (nFolds - 1)) 1), (seqZ_nil _ (Z.pred 1)) by lia. done. }
  splits; try lia.
  - rewrite length_map, length_seqZ. lia.
  - rewrite Hsplit, map_app, flat_map_app. cbn [map flat_map]. rewrite app_nil_r, Hst, Hen, Z.eqb_refl.
    assert (Hhead : flat_map (fun s => segDays s) (map f (seqZ 0 (nFolds - 1))) = seqZ first ((nFolds - 1) * S)).
    { rewrite <- (seqZ_blocks first S (nFolds - 1)) by lia. rewrite !flat_map_concat_map, map_map. f_equal. apply map_ext_in. intros i Hi.
      apply list_elem_of_In, elem_of_seqZ in Hi. rewrite Hst, Hen. replace (i =? nFolds - 1) with false by lia. f_equal. lia. }
    rewrite Hhead, <- seqZ_app by nia. f_equal. lia.
  - exists S. splits; [done| |].
    + apply List.Forall_map, List.Forall_forall. intros i Hi%list_elem_of_In%elem_of_seqZ. rewrite Hst, Hen. destruct (Z.eqb_spec i (nFolds - 1)) as [->|]; nia.
    + rewrite Hsplit, map_app. cbn [map]. rewrite removelast_last. apply List.Forall_map, List.Forall_forall. intros i Hi%list_elem_of_In%elem_of_seqZ.
      rewrite Hst, Hen. replace (i =? nFolds - 1) with false by lia. lia.
Qed.

Lemma folds_partition_range_witness :
  ExpandingAnchored (mkDate 2024 1 1) (mkDate 2024 1 31) 3 2 =
    Ok [mkSegment (mkDate 2024 1 13) (mkDate 2024 1 18); mkSegment (mkDate 2024 1 19) (mkDate 2024 1 24); mkSegment (mkDate 2024 1 25) (mkDate 2024 1 31)] /\
  match ExpandingAnchored (mkDate 2024 1 1) (mkDate 2024 1 31) 3 2 with
  | Ok segs => Z.of_nat (length segs) = 3
  | Err _ => True
  end.
Proof.
  split; [by vm_compute|]. pose proof (folds_partition_range (mkDate 2024 1 1) (mkDate 2024 1 31) 3 2 ltac:(by vm_compute)) as H. cbv zeta in H.
  destruct (ExpandingAnchored (mkDate 2024 1 1) (mkDate 2024 1 31) 3 2); [apply H|done].
Defined.

