(* ===== verification/Metrics.v ===== *)
(** * Performance metrics (src/internal/metrics)

    The metrics of an equity curve (metrics.go) and of a walk-forward study
    (stitch.go).  Mean and deviation are computed on exact rationals ([big.Rat] keeps
    its value in lowest terms, here [Qred]) and converted to a float once; a sample
    that is not finite leaves the rational of the sample before it in place, as
    [SetFloat64] does.  [math.Pow] approximates a real function: it is a parameter of
    [Calmar] and what uses it. *)

From Stdlib Require Import SpecFloat QArith.
From stdpp Require Import list numbers.
From S2P Require Import Prelude Lists Fixed Money Float64.
Set Default Goal Selector "!".
#[local] Open Scope Z_scope.
#[local] Open Scope list_scope.
#[local] Abbreviation length := List.length.
#[local] Abbreviation floats := (list float64).

Definition PeriodsPerYear : Z := 252.
Definition CalmarZeroDDDivisor : float64 := flit 1 100.

Record BacktestMetrics : Set := mkMetrics {
  bm_FinalBalanceUSD : float64;
  bm_TotalPnLUSD : float64;
  bm_Sharpe : float64;
  bm_Calmar : float64;
  bm_MaxDrawdownPct : float64;
  bm_NumOrders : Z;
  bm_NumFilledOrders : Z;
  bm_NumRejectedOrders : Z;
  bm_NumPositions : Z
}.

Record MetricCounts : Set := mkCounts { ct_Orders : Z; ct_Filled : Z; ct_Rejected : Z; ct_Positions : Z }.

Definition Objectives (m : BacktestMetrics) : float64 * float64 := (bm_Sharpe m, bm_Calmar m).

(** The loop over consecutive pairs. *)
Fixpoint returnsFrom (prev : float64) (curve : floats) : floats :=
  match curve with
  | [] => []
  | cur :: curve => if feqb prev fzero then returnsFrom cur curve else fdiv (fsub cur prev) prev :: returnsFrom cur curve
  end.
Definition Returns (curve : floats) : floats := match curve with [] => [] | x :: curve => returnsFrom x curve end.

(** ** Exact statistics *)

(** [SetFloat64]: the exact value of a finite float. *)
Definition ratOfFloat (f : float64) : option Q :=
  match f with
  | S754_zero _ => Some 0%Q
  | S754_finite s m e =>
      let '(n, d) := fracOf m e in Some (Qred ((if s then Zneg n else Zpos n) # d))
  | _ => None
  end.

(** [Rat.Float64]: the nearest float. *)
Definition ratFloat (q : Q) : float64 :=
  match Qnum q with
  | Z0 => fzero
  | Zpos p => ratToFloat false p (Qden q)
  | Zneg p => ratToFloat true p (Qden q)
  end.

Fixpoint ratSums (tmp sx sxx : Q) (xs : floats) : Q * Q :=
  match xs with
  | [] => (sx, sxx)
  | x :: xs =>
      let tmp := default tmp (ratOfFloat x) in
      ratSums tmp (Qred (sx + tmp)) (Qred (sxx + Qred (tmp * tmp))) xs
  end.

Definition ratStats (xs : floats) : Q * Q :=
  let '(sx, sxx) := ratSums 0 0 0 xs in
  let n := inject_Z (Z.of_nat (length xs)) in
  (sx, Qred (Qred (Qred (n * sxx) - Qred (sx * sx)) / n)).

Definition exactMean (xs : floats) : float64 :=
  ratFloat (Qred ((ratStats xs).1 / inject_Z (Z.of_nat (length xs)))).

Definition sqrtBitWidth : Z := 109.

Definition floorDiv (a b : Z) : Z :=
  let q := Z.quot a b in
  if negb (Z.rem a b =? 0) && negb (Bool.eqb (a <? 0) (b <? 0)) then q - 1 else q.

Definition integerSqrtOfFracRTO (n m : Z) : Z :=
  let a := Z.sqrt (Z.quot n m) in
  if a * a * m =? n then a else Z.lor a 1.

Definition floatSqrtOfFrac (n m : Z) : float64 :=
  if n =? 0 then fzero
  else
    let q := floorDiv (Zdigits2 n - Zdigits2 m - sqrtBitWidth) 2 in
    let '(numerator, denominator) :=
      if 0 <=? q then (Z.shiftl (integerSqrtOfFracRTO n (Z.shiftl m (2 * q))) q, 1)
      else (integerSqrtOfFracRTO (Z.shiftl n (- (2 * q))) m, Z.shiftl 1 (- q)) in
    ratFloat (Qred (numerator # Z.to_pos denominator)).

Definition pvariance (xs : floats) : Q := Qred ((ratStats xs).2 / inject_Z (Z.of_nat (length xs))).

Definition exactPstdev (xs : floats) : float64 :=
  let pvar := pvariance xs in floatSqrtOfFrac (Qnum pvar) (Zpos (Qden pvar)).

(** ** The metrics *)

Definition Sharpe (curve : floats) : float64 :=
  let r := Returns curve in
  if (length r <? 2)%nat then fzero
  else
    let m := exactMean r in
    let vol := exactPstdev r in
    if feqb vol fzero then fzero else fmul (fdiv m vol) (fsqrt (zToFloat PeriodsPerYear)).

Definition drawdown (v peak : float64) : float64 := fmul (fdiv (fsub v peak) peak) (zToFloat 100).

Fixpoint drawdownLoop (peak maxDD : float64) (curve : floats) : float64 :=
  match curve with
  | [] => maxDD
  | v :: curve =>
      let peak := if fgtb v peak then v else peak in
      if feqb peak fzero then drawdownLoop peak maxDD curve
      else let dd := drawdown v peak in drawdownLoop peak (if fltb dd maxDD then dd else maxDD) curve
  end.

Definition MaxDrawdownPct (curve : floats) : float64 :=
  match curve with [] => fzero | x :: _ => drawdownLoop x fzero curve end.

Definition fone : float64 := zToFloat 1.
Definition lastPoint (curve : floats) : float64 := List.last curve fzero.

Definition TotalReturn (curve : floats) : float64 :=
  match curve with
  | x :: _ :: _ => if feqb x fzero then fzero else fsub (fdiv (lastPoint curve) x) fone
  | _ => fzero
  end.

Definition Volatility (curve : floats) : float64 :=
  let r := Returns curve in if (length r <? 2)%nat then fzero else exactPstdev r.

Section Pow.
Variable pow : float64 -> float64 -> float64.

Definition Calmar (curve : floats) : float64 :=
  match curve with
  | x :: _ :: _ =>
      if feqb x fzero then fzero
      else
        let totalReturn := fsub (fdiv (lastPoint curve) x) fone in
        if fleb totalReturn (fneg fone) then fneg fone
        else
          let periods := zToFloat PeriodsPerYear in
          let years := fdiv (zToFloat (Z.of_nat (length curve) - 1)) periods in
          let years := let floor := fdiv fone periods in if fltb years floor then floor else years in
          let ann := fsub (pow (fadd fone totalReturn) (fdiv fone years)) fone in
          let mdd := fdiv (fabs (MaxDrawdownPct curve)) (zToFloat 100) in
          if feqb mdd fzero then (if fleb ann fzero then fzero else fdiv ann CalmarZeroDDDivisor) else fdiv ann mdd
  | _ => fzero
  end.

Definition Compute (curve : floats) (startingBalance finalBalance : float64) (counts : MetricCounts) : BacktestMetrics :=
  mkMetrics finalBalance (fsub finalBalance startingBalance) (Sharpe curve) (Calmar curve) (MaxDrawdownPct curve)
    (ct_Orders counts) (ct_Filled counts) (ct_Rejected counts) (ct_Positions counts).

(** ** stitch.go *)

Fixpoint stitchPairs (prev last : float64) (curve : floats) : floats * float64 :=
  match curve with
  | [] => ([], last)
  | cur :: curve =>
      if feqb prev fzero then stitchPairs cur last curve
      else
        let ret := fdiv (fsub cur prev) prev in
        let v := fmul last (fadd fone ret) in
        let '(out, last) := stitchPairs cur v curve in (v :: out, last)
  end.

(** The folds one after the other; [last] is the last point so far. *)
Fixpoint stitchFolds (last : float64) (folds : list floats) : floats :=
  match folds with
  | [] => []
  | curve :: folds =>
      let '(out, last) := match curve with x :: (_ :: _) as rest => stitchPairs x last rest | _ => ([], last) end in
      out ++ stitchFolds last folds
  end.

Definition Stitch (foldCurves : list floats) (startingBalance : float64) : floats := startingBalance :: stitchFolds startingBalance foldCurves.

Definition addCounts (c : MetricCounts) (m : BacktestMetrics) : MetricCounts :=
  mkCounts (wrap64 (ct_Orders c + bm_NumOrders m)) (wrap64 (ct_Filled c + bm_NumFilledOrders m))
    (wrap64 (ct_Rejected c + bm_NumRejectedOrders m)) (wrap64 (ct_Positions c + bm_NumPositions m)).

Definition AggregateFolds (foldCurves : list floats) (foldMetrics : list BacktestMetrics) : BacktestMetrics :=
  match foldMetrics with
  | [] => mkMetrics fzero fzero fzero fzero fzero 0 0 0 0
  | m0 :: _ =>
      let starting := fsub (bm_FinalBalanceUSD m0) (bm_TotalPnLUSD m0) in
      let equity := Stitch foldCurves starting in
      Compute equity starting (lastPoint equity) (fold_left addCounts foldMetrics (mkCounts 0 0 0 0))
  end.
End Pow.

(** ** Exactness of the statistics *)

Definition sumRat (vs : list Q) : Q := fold_right Qplus 0%Q vs.
Definition meanQ (vs : list Q) : Q := (sumRat vs / inject_Z (Z.of_nat (length vs)))%Q.
(** The population variance, as the mean of the squared deviations. *)
Definition varianceQ (vs : list Q) : Q := meanQ (map (fun v => (v - meanQ vs) * (v - meanQ vs))%Q vs).

(** The samples are finite, with these exact values. *)
Definition exactValues (xs : floats) (vs : list Q) : Prop := Forall2 (fun x v => ratOfFloat x = Some v) xs vs.

Lemma ratSums_spec xs vs : exactValues xs vs -> forall tmp sx sxx,
  ((ratSums tmp sx sxx xs).1 == sx + sumRat vs /\ (ratSums tmp sx sxx xs).2 == sxx + sumRat (map (fun v => v * v) vs))%Q.
Proof.
  induction 1 as [|x v xs vs E _ IH]; intros tmp sx sxx; cbn [ratSums map sumRat fold_right fst snd].
  - split; ring.
  - rewrite E. cbn [default from_option id]. destruct (IH v (Qred (sx + v)) (Qred (sxx + Qred (v * v)))) as [-> ->]. rewrite !Qred_correct.
    unfold sumRat. split; ring.
Qed.

Lemma inject_length {A} (l : list A) : l <> [] -> ~ (inject_Z (Z.of_nat (length l)) == 0)%Q.
Proof. intros Hl H. unfold Qeq in H. cbn in H. destruct l; [done|]. cbn in H. lia. Qed.

Lemma sumRat_deviations vs mu : (sumRat (map (fun v => (v - mu) * (v - mu)) vs) ==
  sumRat (map (fun v => v * v) vs) - (2 # 1) * mu * sumRat vs + inject_Z (Z.of_nat (length vs)) * mu * mu)%Q.
Proof.
  induction vs as [|v vs IH]; cbn [map sumRat fold_right List.length]; [ring|]. fold (sumRat vs) (sumRat (map (fun v => v * v)%Q vs)) (sumRat (map (fun v => (v - mu) * (v - mu))%Q vs)).
  rewrite IH, Nat2Z.inj_succ. unfold Z.succ. rewrite inject_Z_plus. change (inject_Z 1) with 1%Q. ring.
Qed.

Lemma Forall2_len {A B} (R : A -> B -> Prop) xs ys : Forall2 R xs ys -> length xs = length ys.
Proof. induction 1; cbn; congruence. Qed.

Lemma pvariance_exact xs vs : exactValues xs vs -> xs <> [] -> (pvariance xs == varianceQ vs)%Q.
Proof.
  intros E Hn. pose proof (Forall2_len _ _ _ E) as Hl. assert (Hv : vs <> []) by (destruct vs; [by destruct xs|done]).
  unfold pvariance, ratStats. destruct (ratSums_spec xs vs E 0 0 0) as [S1 S2]. destruct (ratSums 0 0 0 xs) as [sx sxx]. cbn [fst snd] in *.
  rewrite !Qred_correct, S1, S2, Hl. unfold varianceQ, meanQ at 1. rewrite length_map, sumRat_deviations. unfold meanQ.
  pose proof (inject_length vs Hv) as Hz. field. done.
Qed.

Lemma sumRat_squares_zero f vs : (sumRat (map (fun v : Q => f v * f v) vs) == 0)%Q -> Forall (fun v => (f v == 0)%Q) vs.
Proof.
  assert (Hpos : forall l, (0 <= sumRat (map (fun v : Q => f v * f v) l))%Q).
  { induction l as [|v l IH]; cbn [map sumRat fold_right]; [apply Qle_refl|]. change 0%Q with (0 + 0)%Q. apply Qplus_le_compat; [|exact IH].
    unfold Qle. cbn. nia. }
  induction vs as [|v vs IH]; [constructor|]. cbn [map sumRat fold_right]. fold (sumRat (map (fun v : Q => f v * f v)%Q vs)). intros H.
  assert (Hsq : (0 <= f v * f v)%Q) by (unfold Qle; cbn; nia). specialize (Hpos vs). set (S := sumRat _) in *. set (t := f v) in *.
  assert (Ht : (t * t == 0)%Q). { apply Qle_antisym; [|done]. rewrite <- H. rewrite <- (Qplus_0_r (t * t)) at 1. apply Qplus_le_compat; [apply Qle_refl|done]. }
  constructor; [by destruct (Qmult_integral _ _ Ht)|]. apply IH. rewrite <- H, Ht. ring.
Qed.

Lemma variance_zero_iff vs : vs <> [] -> (varianceQ vs == 0)%Q <-> Forall (fun v => (v == meanQ vs)%Q) vs.
Proof.
  intros Hn. unfold varianceQ, meanQ at 1. rewrite length_map. pose proof (inject_length vs Hn) as Hz. set (n := inject_Z _) in *. split.
  - intros H. assert (H' : (sumRat (map (fun v => (v - meanQ vs) * (v - meanQ vs)) vs) == 0)%Q).
    { transitivity (sumRat (map (fun v => (v - meanQ vs) * (v - meanQ vs)) vs) / n * n)%Q; [by field|]. rewrite H. ring. }
    apply (sumRat_squares_zero (fun v => v - meanQ vs)%Q) in H'. refine (List.Forall_impl _ _ H'). intros v Hv. cbn in Hv.
    transitivity (v - meanQ vs + meanQ vs)%Q; [ring|]. rewrite Hv. ring.
  - intros H. assert (H' : (sumRat (map (fun v => (v - meanQ vs) * (v - meanQ vs)) vs) == 0)%Q); [|rewrite H'; by field].
    generalize (meanQ vs) H. clear. intros mu. induction 1 as [|v vs Hv _ IH]; cbn [map sumRat fold_right]; [reflexivity|].
    fold (sumRat (map (fun v => (v - mu) * (v - mu))%Q vs)). rewrite IH, Hv. ring.
Qed.

(** C37: The statistics behind the Sharpe ratio are exact.  For finite returns the
    variance the code computes is, as a rational number, the mean of the squared
    deviations from the arithmetic mean, and the reported mean is the float nearest to
    that mean; the variance vanishes exactly when all returns are the same number, and
    then the deviation is exactly zero, so that the Sharpe ratio of a curve that grows
    at a constant rate is zero and not the quotient of rounding errors. *)
Theorem deviation_is_exact (curve : floats) (vs : list Q) (Hne : Returns curve <> []) (Hvs : exactValues (Returns curve) vs) :
  (pvariance (Returns curve) == varianceQ vs)%Q /\
  exactMean (Returns curve) = ratFloat (Qred (meanQ vs)) /\
  ((pvariance (Returns curve) == 0)%Q <-> forall a b, In a vs -> In b vs -> (a == b)%Q) /\
  ((forall a b, In a vs -> In b vs -> (a == b)%Q) -> Volatility curve = fzero /\ Sharpe curve = fzero).
Proof.
  set (xs := Returns curve) in *. pose proof (Forall2_len _ _ _ Hvs) as Hl. assert (Hv : vs <> []) by (destruct vs; [by destruct xs|done]).
  pose proof (pvariance_exact xs vs Hvs Hne) as Hp.
  assert (Heq : (varianceQ vs == 0)%Q <-> forall a b, In a vs -> In b vs -> (a == b)%Q).
  { rewrite variance_zero_iff by done. rewrite List.Forall_forall. split.
    - intros H a b Ha Hb. by rewrite (H a Ha), (H b Hb).
    - intros H v Hin. unfold meanQ. pose proof (inject_length vs Hv) as Hz.
      assert (Hs : forall l, (forall x, In x l -> (x == v)%Q) -> (sumRat l == inject_Z (Z.of_nat (length l)) * v)%Q).
      { induction l as [|x l IH]; intros Hx; cbn [sumRat fold_right List.length]; [ring|]. fold (sumRat l). rewrite IH by (intros y Hy; apply Hx; by right).
        rewrite (Hx x) by (by left). rewrite Nat2Z.inj_succ. unfold Z.succ. rewrite inject_Z_plus. change (inject_Z 1) with 1%Q. ring. }
      rewrite (Hs vs) by (intros x Hx; by apply H). field. done. }
  splits; [done| | |].
  - unfold exactMean, ratStats, meanQ. destruct (ratSums_spec xs vs Hvs 0 0 0) as [S1 _]. destruct (ratSums 0 0 0 xs) as [sx sxx]. cbn [fst] in *. rewrite Hl. f_equal. apply Qred_complete. rewrite S1. field. by apply inject_length.
  - by rewrite Hp.
  - intros H. apply Heq in H. rewrite <- Hp in H.
    assert (Hz : exactPstdev xs = fzero). { unfold exactPstdev. assert (E : pvariance xs = 0%Q); [|by rewrite E]. unfold pvariance in *. rewrite Qred_correct in H. by rewrite (Qred_complete _ 0 H). }
    unfold Volatility, Sharpe. fold xs. rewrite Hz. by destruct (_ <? _)%nat.
Qed.

(** Growth by a tenth in three steps. *)
Definition demoGrowth : floats := map zToFloat [1000; 1100; 1210; 1331].

Lemma deviation_is_exact_witness : exists vs, exactValues (Returns demoGrowth) vs /\ length vs = 3%nat /\ Sharpe demoGrowth = fzero.
Proof.
  assert (E : exists v, exactValues (Returns demoGrowth) [v; v; v]).
  { exists (Qred (3602879701896397 # 36028797018963968)). unfold exactValues. replace (Returns demoGrowth) with [flit 1 10; flit 1 10; flit 1 10] by (by vm_compute).
    repeat (constructor; [by vm_compute|]). constructor. }
  destruct E as [v E]. exists [v; v; v]. splits; [exact E|done|].
  apply (deviation_is_exact demoGrowth [v; v; v] ltac:(by vm_compute) E). intros a b [<-|[<-|[<-|[]]]] [<-|[<-|[<-|[]]]]; reflexivity.
Defined.

(** ** The drawdown *)

(** The running peak of a curve: no later value exceeds it. *)
Definition isPeak (prefix : floats) (p : float64) : Prop := In p prefix /\ Forall (fun v => fgtb v p = false) prefix.

(** The points of the curve, each with a peak of the curve up to it. *)
Inductive peaked : floats -> floats -> list (float64 * float64) -> Prop :=
| peaked_nil before : peaked before [] []
| peaked_cons before v p curve l : isPeak (before ++ [v]) p -> peaked (before ++ [v]) curve l -> peaked before (v :: curve) ((v, p) :: l).

Definition nanFreeCurve (curve : floats) : Prop := Forall (fun v => isNaN v = false) curve.

Lemma fltb_irrefl a : fltb a a = false.
Proof. destruct (fltb a a) eqn:E; [|done]. pose proof (fltb_trans_flip a a E). congruence. Qed.

(** A value not above the old peak is not above a higher one. *)
Lemma above_peak v p q : isNaN v = false -> isNaN p = false -> isNaN q = false -> fgtb v p = false -> fgtb q p = true -> fgtb v q = false.
Proof.
  unfold fgtb. intros Hv Hp Hq H1 H2. destruct (fltb q v) eqn:E; [|done]. apply fltb_key in E; [|done..]. apply fltb_key in H2; [|done..].
  assert (fltb p v = true) by (apply fltb_key; [done..|]; eapply klt_trans; eassumption). congruence.
Qed.

(** The smallest so far. *)
Lemma lower_min d r x : isNaN r = false -> fltb x r = true -> fltb d r = false -> fltb d x = false.
Proof.
  intros Hr H1 H2. destruct (fltb d x) eqn:E; [|done]. assert (Hx : isNaN x = false) by (destruct x; try done; destruct d as [|[|]| |[|]]; discriminate E).
  assert (Hd : isNaN d = false) by (destruct d; try done). apply fltb_key in E; [|done..]. apply fltb_key in H1; [|done..].
  assert (fltb d r = true) by (apply fltb_key; [done..|]; eapply klt_trans; eassumption). congruence.
Qed.

(** The drawdowns that count. *)
Abbreviation drawdownsOf l := (map (fun '(v, p) => drawdown v p) (List.filter (fun '(_, p) => negb (feqb p fzero)) l)).

Lemma drawdownLoop_spec curve : forall before peak maxDD, nanFreeCurve (before ++ curve) -> (before = [] /\ Forall (fun v => fgtb v peak = false) (firstn 1 curve) /\ isNaN peak = false /\ (curve <> [] -> In peak (firstn 1 curve)) \/ isPeak before peak) ->
  fleb maxDD fzero = true ->
  exists l, peaked before curve l /\ let r := drawdownLoop peak maxDD curve in
    fleb r fzero = true /\ (r = maxDD \/ In r (drawdownsOf l)) /\ fltb maxDD r = false /\ Forall (fun d => fltb d r = false) (drawdownsOf l).
Proof.
  induction curve as [|v curve IH]; intros before peak maxDD Hn Hpk Hm; cbn [drawdownLoop].
  { exists []. splits; [constructor|done|by left|apply fltb_irrefl|constructor]. }
  set (p := if fgtb v peak then v else peak).
  assert (Hv : isNaN v = false). { apply Forall_app in Hn as [_ Hn]. by inversion Hn. }
  assert (Hnb : nanFreeCurve before) by (by apply Forall_app in Hn as [Hn _]).
  assert (Hp : isPeak (before ++ [v]) p).
  { destruct Hpk as [(-> & F & Hpn & Hin)|[Hin F]]; unfold p.
    - specialize (Hin ltac:(done)). cbn in Hin. destruct Hin as [->|[]]. unfold fgtb. rewrite fltb_irrefl. split; [by left|]. repeat constructor. apply fltb_irrefl.
    - assert (Hpn : isNaN peak = false) by (unfold nanFreeCurve in Hnb; rewrite List.Forall_forall in Hnb; by apply Hnb).
      destruct (fgtb v peak) eqn:E; split.
      + apply in_or_app. right. by left.
      + apply Forall_app. split; [|repeat constructor; apply fltb_irrefl]. apply List.Forall_forall. intros x Hx. unfold nanFreeCurve in Hnb. rewrite List.Forall_forall in Hnb, F. apply (above_peak x peak v); auto.
      + apply in_or_app. by left.
      + apply Forall_app. split; [done|]. by repeat constructor. }
  assert (Hn' : nanFreeCurve ((before ++ [v]) ++ curve)) by (by rewrite <- app_assoc).
  destruct (feqb p fzero) eqn:Ez.
  - destruct (IH (before ++ [v]) p maxDD Hn' (or_intror Hp) Hm) as (l & Hl & A & B & C & D). exists ((v, p) :: l). split; [by constructor|]. cbn [List.filter]. rewrite Ez. cbn [negb]. done.
  - set (m1 := if fltb (drawdown v p) maxDD then drawdown v p else maxDD). assert (Hm1 : fleb m1 fzero = true).
    { unfold m1. destruct (fltb (drawdown v p) maxDD) eqn:E; [|done]. destruct (drawdown v p) as [s|[]| |[] a b], maxDD as [s'|[]| |[] a' b']; try done. }
    destruct (IH (before ++ [v]) p m1 Hn' (or_intror Hp) Hm1) as (l & Hl & A & B & C & D). exists ((v, p) :: l). split; [by constructor|]. cbn [List.filter]. rewrite Ez. cbn [negb map]. cbv zeta in A, B, C, D |- *.
    set (r := drawdownLoop p m1 curve) in *. clearbody r. unfold m1 in *. destruct (fltb (drawdown v p) maxDD) eqn:E.
    + splits; [done|destruct B as [->|B]; right; [by left|by right]| |by constructor].
      destruct (fltb maxDD r) eqn:Er; [|done]. assert (Hx : isNaN (drawdown v p) = false) by (destruct (drawdown v p); done).
      pose proof (lower_min maxDD (drawdown v p) r). exfalso. assert (Hr : isNaN r = false) by (destruct r; try done; destruct maxDD as [|[]| |[]]; done).
      assert (Hmx : isNaN maxDD = false) by (destruct maxDD; done). apply fltb_key in E; [|done..]. apply fltb_key in Er; [|done..].
      assert (fltb (drawdown v p) r = true) by (apply fltb_key; [done..|]; eapply klt_trans; eassumption). congruence.
    + splits; [done|destruct B as [->|B]; [by left|right; by right]|done|]. constructor; [|done].
      destruct B as [->|B]; [done|]. destruct (fltb (drawdown v p) r) eqn:Er; [|done]. exfalso.
      assert (Hr : isNaN r = false) by (destruct r; try done; destruct (drawdown v p) as [|[]| |[]]; done).
      assert (Hx : isNaN (drawdown v p) = false) by (destruct (drawdown v p); done). assert (Hmx : isNaN maxDD = false) by (destruct maxDD; done).
      apply fltb_key in Er; [|done..]. destruct (fltb_key (drawdown v p) maxDD Hx Hmx) as [_ K]. rewrite E in K.
      destruct (fltb_key maxDD r Hmx Hr) as [_ K2]. rewrite C in K2. assert (~ klt (fkey maxDD) (fkey r)) by (intros X; by specialize (K2 X)).
      assert (~ klt (fkey (drawdown v p)) (fkey maxDD)) by (intros X; by specialize (K X)). destruct (klt_irrefl (fkey (drawdown v p))).
      pose proof (klt_not_lt (fkey r) (fkey maxDD) (fkey r)). pose proof (klt_lt_not (fkey (drawdown v p)) (fkey r) (fkey maxDD)). tauto.
Qed.

(** The maximum drawdown is the worst fall from a running peak.  For a curve of
    numbers, every point taken with the highest value up to it, the result is never
    positive, is zero or the drawdown of one of the points, and no point with a peak
    other than zero has a lower one. *)
Theorem max_drawdown_is_worst (curve : floats) (Hn : nanFreeCurve curve) :
  exists points, peaked [] curve points /\ fleb (MaxDrawdownPct curve) fzero = true /\
    (MaxDrawdownPct curve = fzero \/ In (MaxDrawdownPct curve) (drawdownsOf points)) /\
    Forall (fun d => fltb d (MaxDrawdownPct curve) = false) (drawdownsOf points).
Proof.
  destruct curve as [|x curve]; [exists []; splits; [constructor|done|by left|constructor]|]. unfold MaxDrawdownPct.
  destruct (drawdownLoop_spec (x :: curve) [] x fzero Hn) as (l & Hl & A & B & _ & D); [|done|by exists l].
  left. splits; [done|repeat constructor; apply fltb_irrefl|by inversion Hn|intros _; by left].
Qed.

Lemma max_drawdown_is_worst_witness : MaxDrawdownPct (map zToFloat [100; 80; 200; 150; 50; 60]) = zToFloat (-75) /\
  exists points, peaked [] (map zToFloat [100; 80; 200; 150; 50; 60]) points /\ In (zToFloat (-75)) (drawdownsOf points).
Proof.
  assert (E : MaxDrawdownPct (map zToFloat [100; 80; 200; 150; 50; 60]) = zToFloat (-75)) by (by vm_compute). split; [exact E|].
  destruct (max_drawdown_is_worst (map zToFloat [100; 80; 200; 150; 50; 60])) as (l & Hl & _ & Hin & _).
  - repeat (apply List.Forall_cons; [by vm_compute|]). apply List.Forall_nil.
  - exists l. split; [exact Hl|]. rewrite E in Hin. destruct Hin as [Hin|Hin]; [by vm_compute in Hin|exact Hin].
Defined.

(** ** Stitching *)

(** Compounding a sequence of returns. *)
Fixpoint compound (v : float64) (rets : floats) : floats :=
  match rets with [] => [] | r :: rets => let v := fmul v (fadd fone r) in v :: compound v rets end.

Lemma last_default {A} (l : list A) (y d d' : A) : List.last (y :: l) d = List.last (y :: l) d'.
Proof. revert y. induction l as [|z l IH]; intros y; [done|]. apply IH. Qed.

Lemma compound_app v a b : compound v (a ++ b) = compound v a ++ compound (List.last (v :: compound v a) v) b.
Proof.
  revert v. induction a as [|r a IH]; intros v; [done|]. cbn [app compound]. rewrite IH. do 2 f_equal. set (w := fmul v (fadd fone r)).
  cbn [List.last]. destruct (compound w a) as [|y l] eqn:E; [done|]. f_equal. apply last_default.
Qed.

Lemma stitchPairs_compound curve : forall prev last,
  stitchPairs prev last curve = (compound last (returnsFrom prev curve), List.last (last :: compound last (returnsFrom prev curve)) last).
Proof.
  induction curve as [|cur curve IH]; intros prev last; cbn [stitchPairs returnsFrom compound]; [done|]. destruct (feqb prev fzero); [apply IH|].
  rewrite IH. cbn [compound]. set (w := fmul last _). f_equal. cbn [List.last]. destruct (compound w (returnsFrom cur curve)) as [|y l] eqn:E; [done|].
  apply last_default.
Qed.

(** Stitching concatenates the returns of the folds: the stitched curve is the
    starting balance compounded by the returns of the first fold, then of the second
    and so on; a fold of fewer than two points adds nothing, and no return is made up
    between folds. *)
Theorem stitch_compounds_returns (folds : list floats) (start : float64) : Stitch folds start = start :: compound start (List.concat (map Returns folds)).
Proof.
  unfold Stitch. f_equal. revert start. induction folds as [|curve folds IH]; intros start; [done|]. cbn [stitchFolds map List.concat]. rewrite compound_app.
  destruct curve as [|x [|y curve]]; cbn [Returns]; [apply IH|cbn [returnsFrom compound app List.last]; apply IH|]. rewrite stitchPairs_compound, IH. done.
Qed.
