(* ===== verification/SafeEval.v ===== *)
(** * Constraint expressions (src/internal/hyperopt/safe_eval.go)

    The evaluator of the bounds in parameter files: tokens, the recursive descent
    over sums, products, signs, names, calls and parentheses, and its errors.  The
    parser's position is the text that remains.  Each function of the descent takes
    the calls it makes as a parameter; [descent] ties the knot with fuel, one unit per
    call, and [evalFuel] is enough for every text ([safeEval_total]). *)

From Stdlib Require Import SpecFloat.
From stdpp Require Import gmap strings list.
From S2P Require Import Prelude Lists Fixed Money Float64.
Set Default Goal Selector "!".
#[local] Open Scope string_scope.
#[local] Open Scope Z_scope.
#[local] Open Scope list_scope.
#[local] Abbreviation length := List.length.
#[local] Abbreviation text := (list ascii).

(** ** Tokens *)

Inductive tokKind : Set := tokEOF | tokNum | tokIdent | tokPlus | tokMinus | tokStar | tokSlash | tokLParen | tokRParen | tokComma.

#[export] Instance tokKind_eq_dec : EqDecision tokKind.
Proof. solve_decision. Defined.

Record token : Set := mkToken { tk_kind : tokKind; tk_text : text }.
Record exprParser : Set := mkParser { xp_rest : text; xp_tok : token }.

Definition isIdentStart (c : ascii) : bool :=
  Ascii.eqb c "_"%char || ((97 <=? code c) && (code c <=? 122)) || ((65 <=? code c) && (code c <=? 90)).
Definition isIdentPart (c : ascii) : bool := isIdentStart c || is_digit c.
Definition isE (c : ascii) : bool := Ascii.eqb c "e"%char || Ascii.eqb c "E"%char.

(** The characters of a number, given the one before. *)
Fixpoint scanNumber (prev : option ascii) (s : text) : text * text :=
  match s with
  | [] => ([], [])
  | c :: r =>
      if is_digit c || Ascii.eqb c "."%char || isE c ||
         ((Ascii.eqb c "+"%char || Ascii.eqb c "-"%char) && match prev with Some q => isE q | None => false end)
      then let '(a, b) := scanNumber (Some c) r in (c :: a, b)
      else ([], s)
  end.

Fixpoint scanIdent (s : text) : text * text :=
  match s with
  | [] => ([], [])
  | c :: r => if isIdentPart c then let '(a, b) := scanIdent r in (c :: a, b) else ([], s)
  end.

Fixpoint skipBlanks (s : text) : text :=
  match s with
  | c :: r => if Ascii.eqb c " "%char || (code c =? 9) then skipBlanks r else s
  | [] => []
  end.

(** The operator a character stands for. *)
Definition opKind (c : ascii) : option tokKind :=
  if Ascii.eqb c "+"%char then Some tokPlus else if Ascii.eqb c "-"%char then Some tokMinus
  else if Ascii.eqb c "*"%char then Some tokStar else if Ascii.eqb c "/"%char then Some tokSlash
  else if Ascii.eqb c "("%char then Some tokLParen else if Ascii.eqb c ")"%char then Some tokRParen
  else if Ascii.eqb c ","%char then Some tokComma else None.

(** The token at the head of a text.  A character that starts no token is not
    consumed. *)
Definition lexToken (s : text) : exprParser :=
  match skipBlanks s with
  | [] => mkParser [] (mkToken tokEOF [])
  | c :: r =>
      match opKind c with
      | Some k => mkParser r (mkToken k [c])
      | None =>
          if is_digit c || Ascii.eqb c "."%char then let '(a, b) := scanNumber None (c :: r) in mkParser b (mkToken tokNum a)
          else if isIdentStart c then let '(a, b) := scanIdent (c :: r) in mkParser b (mkToken tokIdent a)
          else mkParser (c :: r) (mkToken tokEOF [c])
      end
  end.

Definition xp_next (p : exprParser) : exprParser := lexToken (xp_rest p).

(** ** [strconv.ParseFloat] on the texts of numbers *)

Fixpoint takeDigits (s : text) : text * text :=
  match s with
  | c :: r => if is_digit c then let '(a, b) := takeDigits r in (c :: a, b) else ([], s)
  | [] => ([], [])
  end.

(** The exponent stops growing at ten thousand. *)
Definition expValue (ds : text) : Z := fold_left (fun e c => if e <? 10000 then e * 10 + (code c - 48) else e) ds 0.

Definition parseExponent (s : text) : option Z :=
  match s with
  | [] => Some 0
  | c :: s =>
      if isE c then
        let '(neg, ds) := scanSign s in
        match takeDigits ds with
        | ((_ :: _) as ds, []) => Some (if neg : bool then - expValue ds else expValue ds)
        | _ => None
        end
      else None
  end.

Definition parseFloatText (s : text) : option float64 :=
  let '(ip, r) := takeDigits s in
  let '(fp, r) := match r with c :: r' => if Ascii.eqb c "."%char then takeDigits r' else ([], r) | [] => ([], []) end in
  match ip ++ fp, parseExponent r with
  | (_ :: _) as ds, Some e =>
      match dval ds with
      | Zpos p => let f := decimalToFloat false p (e - Z.of_nat (length fp)) in if isInf f then None else Some f
      | _ => Some fzero
      end
  | _, _ => None
  end.

(** ** The descent *)

(** [None]: the fuel ran out. *)
Abbreviation evalOutcome := (option (res (float64 * exprParser))).

(** The calls of the descent; a loop carries the value so far. *)
Inductive job : Set := JExpr | JTerm | JUnary | JPrimary | JExprLoop (acc : float64) | JTermLoop (acc : float64) | JArgs (name : string) (args : list float64).

Definition ErrEval (msg : string) : error := ErrOther msg.
Definition fail (msg : string) : evalOutcome := Some (Err (ErrEval msg)).

Definition evalThen (o : evalOutcome) (k : float64 -> exprParser -> evalOutcome) : evalOutcome :=
  match o with
  | Some (Ok (v, p)) => k v p
  | Some (Err e) => Some (Err e)
  | None => None
  end.

Definition isTok (p : exprParser) (k : tokKind) : bool := bool_decide (tk_kind (xp_tok p) = k).

Definition applyFunc (name : string) (args : list float64) : res float64 :=
  match args with
  | [] => Err (ErrEval (name ++ " expected at least 1 arg")%string)
  | a :: rest =>
      if String.eqb name "abs" then
        match rest with
        | [] => Ok (if fltb a fzero then fneg a else a)
        | _ => Err (ErrEval "abs expected 1 arg")
        end
      else if String.eqb name "min" then Ok (fold_left (fun m a => if fltb a m then a else m) rest a)
      else if String.eqb name "max" then Ok (fold_left (fun m a => if fgtb a m then a else m) rest a)
      else Err (ErrEval ("unsupported function: " ++ name)%string)
  end.

Section Descent.
Variable scope : gmap string float64.
Variable rec : job -> exprParser -> evalOutcome.

Definition parseExpr (p : exprParser) : evalOutcome := evalThen (rec JTerm p) (fun acc p => rec (JExprLoop acc) p).

Definition exprLoop (acc : float64) (p : exprParser) : evalOutcome :=
  if isTok p tokPlus || isTok p tokMinus then
    evalThen (rec JTerm (xp_next p)) (fun right p' => rec (JExprLoop (if isTok p tokPlus then fadd acc right else fsub acc right)) p')
  else Some (Ok (acc, p)).

Definition parseTerm (p : exprParser) : evalOutcome := evalThen (rec JUnary p) (fun acc p => rec (JTermLoop acc) p).

Definition termLoop (acc : float64) (p : exprParser) : evalOutcome :=
  if isTok p tokStar || isTok p tokSlash then
    evalThen (rec JUnary (xp_next p)) (fun right p' =>
      if isTok p tokStar then rec (JTermLoop (fmul acc right)) p'
      else if feqb right fzero then fail "division by zero"
      else rec (JTermLoop (fdiv acc right)) p')
  else Some (Ok (acc, p)).

Definition parseUnary (p : exprParser) : evalOutcome :=
  if isTok p tokMinus then evalThen (rec JUnary (xp_next p)) (fun v p => Some (Ok (fneg v, p)))
  else if isTok p tokPlus then rec JUnary (xp_next p)
  else rec JPrimary p.

(** After the name; the current token is the opening parenthesis. *)
Definition parseCall (name : string) (p : exprParser) : evalOutcome :=
  if negb (existsb (String.eqb name) ["min"; "max"; "abs"]) then fail ("unsupported function: " ++ name)%string
  else
    let p := xp_next p in
    if isTok p tokRParen then match applyFunc name [] with Ok v => Some (Ok (v, xp_next p)) | Err e => Some (Err e) end
    else rec (JArgs name []) p.

(** The loop over the arguments and what follows it. *)
Definition parseArgs (name : string) (args : list float64) (p : exprParser) : evalOutcome :=
  evalThen (rec JExpr p) (fun v p =>
    let args := args ++ [v] in
    if isTok p tokComma then rec (JArgs name args) (xp_next p)
    else if negb (isTok p tokRParen) then fail ("unsupported expression node: expected ')' in call to " ++ name)%string
    else match applyFunc name args with Ok v => Some (Ok (v, xp_next p)) | Err e => Some (Err e) end).

Definition parsePrimary (p : exprParser) : evalOutcome :=
  match tk_kind (xp_tok p) with
  | tokNum =>
      match parseFloatText (tk_text (xp_tok p)) with
      | Some f => Some (Ok (f, xp_next p))
      | None => fail "unsupported expression node: bad number"
      end
  | tokLParen =>
      evalThen (rec JExpr (xp_next p)) (fun v p => if negb (isTok p tokRParen) then fail "unsupported expression node: expected ')'" else Some (Ok (v, xp_next p)))
  | tokIdent =>
      let name := string_of_list_ascii (tk_text (xp_tok p)) in
      let p := xp_next p in
      if isTok p tokLParen then parseCall name p
      else match scope !! name with
           | Some v => Some (Ok (v, p))
           | None => fail ("undefined: " ++ name)%string
           end
  | _ => fail "unsupported expression node"
  end.

Definition descend (j : job) (p : exprParser) : evalOutcome :=
  match j with
  | JExpr => parseExpr p
  | JTerm => parseTerm p
  | JUnary => parseUnary p
  | JPrimary => parsePrimary p
  | JExprLoop acc => exprLoop acc p
  | JTermLoop acc => termLoop acc p
  | JArgs name args => parseArgs name args p
  end.
End Descent.

Fixpoint descent (scope : gmap string float64) (fuel : nat) (j : job) (p : exprParser) : evalOutcome :=
  match fuel with
  | O => None
  | S fuel => descend scope (descent scope fuel) j p
  end.

(** Four calls per token and a call to start with. *)
Definition evalFuel (src : text) : nat := 4 * length src + 4.

Definition safeEval (expression : string) (scope : gmap string float64) : option (res float64) :=
  let src := list_ascii_of_string expression in
  match descent scope (evalFuel src) JExpr (lexToken src) with
  | Some (Ok (v, p)) => if negb (isTok p tokEOF) then Some (Err (ErrEval "unsupported expression node: trailing token")) else Some (Ok v)
  | Some (Err e) => Some (Err e)
  | None => None
  end.

(** ** The descent terminates *)

(** What is left to read: a token ahead and the text behind it. *)
Definition left_of (p : exprParser) : nat := (length (xp_rest p) + if isTok p tokEOF then 0 else 1)%nat.

Lemma isTok_spec p k : isTok p k = true <-> tk_kind (xp_tok p) = k.
Proof. unfold isTok. apply bool_decide_eq_true. Qed.

Lemma skipBlanks_len s : (length (skipBlanks s) <= length s)%nat.
Proof. induction s as [|c s IH]; cbn; [lia|]. destruct (_ || _); cbn; lia. Qed.

Lemma scanNumber_app s : forall prev, (scanNumber prev s).1 ++ (scanNumber prev s).2 = s.
Proof.
  induction s as [|c s IH]; intros prev; cbn [scanNumber]; [done|]. destruct (_ || _); [|done].
  specialize (IH (Some c)). destruct (scanNumber (Some c) s). cbn in *. by rewrite IH.
Qed.

Lemma scanIdent_app s : (scanIdent s).1 ++ (scanIdent s).2 = s.
Proof. induction s as [|c s IH]; cbn [scanIdent]; [done|]. destruct (isIdentPart c); [|done]. destruct (scanIdent s). cbn in *. by rewrite IH. Qed.

(** A number or an identifier consumes its first character. *)
Lemma scan_consumes {A} (a b s : list A) : a ++ b = s -> a <> [] -> (length b < length s)%nat.
Proof. intros <- Ha. destruct a; [done|]. rewrite length_app. cbn. lia. Qed.

Lemma left_lexToken s : (left_of (lexToken s) <= length s)%nat.
Proof.
  pose proof (skipBlanks_len s) as Hb. unfold lexToken. destruct (skipBlanks s) as [|c r] eqn:E; [apply Nat.le_0_l|]. cbn in Hb.
  destruct (opKind c) as [k|] eqn:Ek; [unfold left_of; cbn [xp_rest]; destruct (isTok _ _); cbn in *; lia|].
  destruct (is_digit c || Ascii.eqb c ".") eqn:Ed.
  - pose proof (scanNumber_app (c :: r) None) as Ha. pose proof (scan_consumes _ _ _ Ha) as Hc. cbn [scanNumber] in *.
    assert (Hf : is_digit c || Ascii.eqb c "." || isE c || (Ascii.eqb c "+" || Ascii.eqb c "-") && false = true) by (rewrite Ed; done).
    rewrite Hf in *. destruct (scanNumber (Some c) r) as [a b]. cbn in Hc. specialize (Hc ltac:(done)). unfold left_of. cbn [xp_rest]. destruct (isTok _ _); lia.
  - destruct (isIdentStart c) eqn:Ei; [|change (left_of _) with (length (c :: r) + 0)%nat; cbn [length]; lia].
    pose proof (scanIdent_app (c :: r)) as Ha. pose proof (scan_consumes _ _ _ Ha) as Hc. cbn [scanIdent] in *. unfold isIdentPart in *. rewrite Ei in *. cbn [orb] in *.
    destruct (scanIdent r) as [a b]. cbn in Hc. specialize (Hc ltac:(done)). unfold left_of. cbn [xp_rest]. destruct (isTok _ _); lia.
Qed.

(** Reading on from a token leaves less. *)
Lemma left_next p : tk_kind (xp_tok p) <> tokEOF -> (left_of (xp_next p) < left_of p)%nat.
Proof.
  intros H. pose proof (left_lexToken (xp_rest p)). unfold xp_next. unfold left_of at 2.
  destruct (isTok p tokEOF) eqn:E; [by apply isTok_spec in E|lia].
Qed.

(** The fuel a call needs. *)
Definition needs (j : job) (p : exprParser) : nat :=
  (4 * left_of p + match j with JPrimary | JExprLoop _ | JTermLoop _ => 1 | JUnary => 2 | JTerm => 3 | JExpr => 4 | JArgs _ _ => 5 end)%nat.

(** A call came back, and did not move backwards. *)
Definition returned (p : exprParser) (o : evalOutcome) : Prop :=
  match o with
  | Some (Ok (_, p')) => (left_of p' <= left_of p)%nat
  | Some (Err _) => True
  | None => False
  end.

Lemma returned_evalThen p o k : returned p o -> (forall v p', (left_of p' <= left_of p)%nat -> returned p (k v p')) -> returned p (evalThen o k).
Proof. destruct o as [[[v p']|e]|]; cbn; auto. Qed.

Lemma returned_weaken p q o : returned q o -> (left_of q <= left_of p)%nat -> returned p o.
Proof. destruct o as [[[v p']|e]|]; cbn; [lia|done..]. Qed.

Lemma left_next_le p : (left_of (xp_next p) <= left_of p)%nat.
Proof. pose proof (left_lexToken (xp_rest p)) as H. unfold xp_next. unfold left_of at 2. lia. Qed.

#[local] Hint Resolve left_next_le : core.


Section Total.
Context (scope : gmap string float64) (rec : job -> exprParser -> evalOutcome) (fuel : nat)
        (Hrec : forall j p, (needs j p <= fuel)%nat -> returned p (rec j p)).

Lemma rec_returned j p q : (needs j q <= fuel)%nat -> (left_of q <= left_of p)%nat -> returned p (rec j q).
Proof. intros H1 H2. apply (returned_weaken p q); auto. Qed.

Ltac by_fuel := apply rec_returned; unfold needs in *; lia.

Lemma applied_returned name args p q : (left_of q <= left_of p)%nat ->
  returned p (match applyFunc name args with Ok v => Some (Ok (v, q)) | Err e => Some (Err e) end).
Proof. destruct (applyFunc name args); done. Qed.

Lemma loop_returned j p : (needs j p <= S fuel)%nat -> match j with JExprLoop _ | JTermLoop _ => True | _ => False end -> returned p (descend scope rec j p).
Proof.
  intros Hn Hj. destruct j as [| | | |acc|acc|]; try done; clear Hj; cbn [descend]; unfold needs in Hn.
  - unfold exprLoop. destruct (isTok p tokPlus || isTok p tokMinus) eqn:E; [|cbn; lia].
    assert (left_of (xp_next p) < left_of p)%nat by (apply left_next; apply orb_prop in E as [E|E]; apply isTok_spec in E; rewrite E; done).
    apply (returned_weaken p (xp_next p)); [|lia]. apply returned_evalThen; [by_fuel|]. intros v q Hq. by_fuel.
  - unfold termLoop. destruct (isTok p tokStar || isTok p tokSlash) eqn:E; [|cbn; lia].
    assert (left_of (xp_next p) < left_of p)%nat by (apply left_next; apply orb_prop in E as [E|E]; apply isTok_spec in E; rewrite E; done).
    apply (returned_weaken p (xp_next p)); [|lia]. apply returned_evalThen; [by_fuel|]. intros v q Hq.
    destruct (isTok p tokStar); [by_fuel|]. destruct (feqb v fzero); [done|by_fuel].
Qed.

Lemma primary_returned p : (4 * left_of p <= fuel)%nat -> returned p (parsePrimary scope rec p).
Proof.
  intros Hn. unfold parsePrimary. pose proof (left_next p) as Hlt.
  destruct (tk_kind (xp_tok p)) eqn:E; try done; specialize (Hlt ltac:(done)).
  - destruct (parseFloatText _); [|done]. unfold returned. lia.
  - destruct (isTok (xp_next p) tokLParen) eqn:El; [|destruct (scope !! _); [unfold returned; lia|done]]. set (p1 := xp_next p) in *.
    assert (left_of (xp_next p1) < left_of p1)%nat by (apply left_next; apply isTok_spec in El; rewrite El; done).
    unfold parseCall. destruct (negb _); [done|]. pose proof (left_next_le (xp_next p1)).
    destruct (isTok (xp_next p1) tokRParen); [apply applied_returned; lia|]. by_fuel.
  - apply (returned_weaken p (xp_next p)); [|lia]. apply returned_evalThen; [by_fuel|]. intros v q Hq.
    destruct (negb _); [done|]. unfold returned. pose proof (left_next_le q). lia.
Qed.

Lemma descend_returned j p : (needs j p <= S fuel)%nat -> returned p (descend scope rec j p).
Proof.
  intros Hn. destruct j as [| | | |acc|acc|name args]; cbn [descend]; unfold needs in Hn.
  - unfold parseExpr. apply returned_evalThen; [by_fuel|]. intros v q Hq. by_fuel.
  - unfold parseTerm. apply returned_evalThen; [by_fuel|]. intros v q Hq. by_fuel.
  - unfold parseUnary. pose proof (left_next p) as Hlt. destruct (isTok p tokMinus) eqn:E1.
    + apply isTok_spec in E1. rewrite E1 in Hlt. specialize (Hlt ltac:(done)). apply returned_evalThen; [by_fuel|]. done.
    + destruct (isTok p tokPlus) eqn:E2; [|by_fuel]. apply isTok_spec in E2. rewrite E2 in Hlt. specialize (Hlt ltac:(done)). by_fuel.
  - apply primary_returned. lia.
  - apply (loop_returned (JExprLoop acc)); [unfold needs; lia|done].
  - apply (loop_returned (JTermLoop acc)); [unfold needs; lia|done].
  - unfold parseArgs. apply returned_evalThen; [by_fuel|]. intros v q Hq. destruct (isTok q tokComma) eqn:E.
    + assert (left_of (xp_next q) < left_of q)%nat by (apply left_next; apply isTok_spec in E; rewrite E; done). by_fuel.
    + destruct (negb _); [done|]. apply applied_returned. pose proof (left_next_le q). lia.
Qed.
End Total.

Lemma descent_returned scope fuel : forall j p, (needs j p <= fuel)%nat -> returned p (descent scope fuel j p).
Proof.
  induction fuel as [|fuel IH]; intros j p H; [destruct j; cbn in H; lia|]. cbn [descent]. by apply (descend_returned scope (descent scope fuel) fuel IH).
Qed.

(** The fuel of [safeEval] is enough for every text. *)
Theorem safeEval_total (expression : string) (scope : gmap string float64) : safeEval expression scope <> None.
Proof.
  unfold safeEval. set (src := list_ascii_of_string expression).
  assert (H : returned (lexToken src) (descent scope (evalFuel src) JExpr (lexToken src))).
  { apply descent_returned. unfold needs, evalFuel. pose proof (left_lexToken src). lia. }
  destruct (descent _ _ _ _) as [[[v p]|e]|]; [|done..]. by destruct (negb _).
Qed.

(** ** Calls with enough fuel *)

Definition recExtends (rec rec' : job -> exprParser -> evalOutcome) : Prop := forall j p r, rec j p = Some r -> rec' j p = Some r.

Lemma evalThen_some o k r : evalThen o k = Some r ->
  (exists v p, o = Some (Ok (v, p)) /\ k v p = Some r) \/ (exists e, o = Some (Err e) /\ r = Err e).
Proof. destruct o as [[[v p]|e]|]; cbn; [by eauto|intros [= <-]; by eauto|done]. Qed.

Lemma evalThen_extends o o' k k' r : evalThen o k = Some r -> (forall x, o = Some x -> o' = Some x) ->
  (forall v p x, k v p = Some x -> k' v p = Some x) -> evalThen o' k' = Some r.
Proof. intros H Ho Hk. destruct (evalThen_some o k r H) as [(v & p & E & Ek)|(e & E & ->)]; apply Ho in E; rewrite E; cbn; auto. Qed.

Lemma descend_extends scope rec rec' : recExtends rec rec' -> recExtends (descend scope rec) (descend scope rec').
Proof.
  intros Hr j p r. unfold recExtends in Hr. destruct j as [| | | |acc|acc|name args]; cbn [descend].
  - intros H. eapply evalThen_extends; eauto.
  - intros H. eapply evalThen_extends; eauto.
  - unfold parseUnary. destruct (isTok p tokMinus); [|destruct (isTok p tokPlus); apply Hr]. intros H. eapply evalThen_extends; eauto.
  - unfold parsePrimary. destruct (tk_kind (xp_tok p)); try done.
    + destruct (isTok (xp_next p) tokLParen); [|done]. unfold parseCall. destruct (negb _); [done|]. destruct (isTok _ _); [done|apply Hr].
    + intros H. eapply evalThen_extends; eauto.
  - unfold exprLoop. destruct (_ || _); [|done]. intros H. eapply evalThen_extends; eauto.
  - unfold termLoop. destruct (_ || _); [|done]. intros H. eapply evalThen_extends; eauto. intros v q x. destruct (isTok p tokStar); [apply Hr|]. destruct (feqb v fzero); [done|apply Hr].
  - intros H. eapply evalThen_extends; eauto. intros v q x. cbv beta zeta. destruct (isTok q tokComma); [apply Hr|done].
Qed.

Lemma descent_succ scope fuel : recExtends (descent scope fuel) (descent scope (S fuel)).
Proof.
  induction fuel as [|fuel IH]; [intros j p r; done|]. intros j p r H. cbn [descent] in H |- *.
  by apply (descend_extends scope (descent scope fuel) (descent scope (S fuel)) IH).
Qed.

Lemma descent_le scope fuel fuel' : (fuel <= fuel')%nat -> recExtends (descent scope fuel) (descent scope fuel').
Proof. induction 1 as [|fuel' _ IH]; [by intros j p r|]. intros j p r H. by apply descent_succ, IH. Qed.

Section Calls.
Context (scope : gmap string float64).

(** Some amount of fuel gives the result. *)
Definition yields (j : job) (p : exprParser) (r : res (float64 * exprParser)) : Prop := exists fuel, descent scope fuel j p = Some r.

Lemma yields_total j p r : yields j p r -> forall fuel, (needs j p <= fuel)%nat -> descent scope fuel j p = Some r.
Proof.
  intros [f Hf] fuel Hn. pose proof (descent_returned scope fuel j p Hn) as H. destruct (descent scope fuel j p) as [x|] eqn:E; [|done].
  destruct (Nat.le_ge_cases f fuel) as [Hl|Hl]; [apply (descent_le scope _ _ Hl) in Hf|apply (descent_le scope _ _ Hl) in E]; congruence.
Qed.

(** A call and what follows it share their fuel. *)
Lemma yields_seq (mk : nat -> float64 -> exprParser -> evalOutcome) j p x r :
  (forall f f' v q y, (f <= f')%nat -> mk f v q = Some y -> mk f' v q = Some y) ->
  yields j p x -> match x with Ok (v, q) => exists f, mk f v q = Some r | Err e => r = Err e end ->
  exists f, evalThen (descent scope f j p) (mk f) = Some r.
Proof.
  intros Hm [f1 H1]. destruct x as [[v q]|e].
  - intros [f2 H2]. exists (Nat.max f1 f2). rewrite (descent_le scope f1 (Nat.max f1 f2) ltac:(lia) _ _ _ H1). cbn. apply (Hm f2); [lia|done].
  - intros ->. exists f1. by rewrite H1.
Qed.

Lemma descent_mono f f' j p y : (f <= f')%nat -> descent scope f j p = Some y -> descent scope f' j p = Some y.
Proof. intros H. by apply descent_le. Qed.

(** What a call yields from what it calls. *)
Definition follow (x r : res (float64 * exprParser)) (P : float64 -> exprParser -> Prop) : Prop :=
  match x with Ok (v, q) => P v q | Err e => r = Err e end.

Lemma yields_expr p x r : yields JTerm p x -> follow x r (fun v q => yields (JExprLoop v) q r) -> yields JExpr p r.
Proof.
  intros H1 H2. destruct (yields_seq (fun f v q => descent scope f (JExprLoop v) q) JTerm p x r) as [f Hf]; [intros; by eapply descent_mono|done|by destruct x as [[]|]|].
  by exists (S f).
Qed.

Lemma yields_term p x r : yields JUnary p x -> follow x r (fun v q => yields (JTermLoop v) q r) -> yields JTerm p r.
Proof.
  intros H1 H2. destruct (yields_seq (fun f v q => descent scope f (JTermLoop v) q) JUnary p x r) as [f Hf]; [intros; by eapply descent_mono|done|by destruct x as [[]|]|].
  by exists (S f).
Qed.

Lemma yields_primary_paren p x r : tk_kind (xp_tok p) = tokLParen -> yields JExpr (xp_next p) x ->
  follow x r (fun v q => isTok q tokRParen = true /\ r = Ok (v, xp_next q)) -> yields JPrimary p r.
Proof.
  intros Hk [f Hf] H2. exists (S f). cbn [descent descend]. unfold parsePrimary. rewrite Hk, Hf. destruct x as [[v q]|e]; cbn in *; [|by subst].
  destruct H2 as [H2 ->]. by rewrite H2.
Qed.

Lemma yields_unary_primary p r : isTok p tokMinus = false -> isTok p tokPlus = false -> yields JPrimary p r -> yields JUnary p r.
Proof. intros H1 H2 [f Hf]. exists (S f). cbn [descent descend]. unfold parseUnary. by rewrite H1, H2. Qed.

Lemma yields_unary_plus p r : tk_kind (xp_tok p) = tokPlus -> yields JUnary (xp_next p) r -> yields JUnary p r.
Proof. intros H [f Hf]. exists (S f). cbn [descent descend]. unfold parseUnary, isTok. by rewrite H. Qed.

Lemma yields_unary_minus p x r : tk_kind (xp_tok p) = tokMinus -> yields JUnary (xp_next p) x -> follow x r (fun v q => r = Ok (fneg v, q)) -> yields JUnary p r.
Proof.
  intros H [f Hf] H2. exists (S f). cbn [descent descend]. unfold parseUnary, isTok. rewrite H, bool_decide_eq_true_2, Hf by done.
  by destruct x as [[v q]|e]; cbn in *; subst.
Qed.

Lemma yields_expr_step (plus : bool) acc p x r : tk_kind (xp_tok p) = (if plus then tokPlus else tokMinus) -> yields JTerm (xp_next p) x ->
  follow x r (fun v q => yields (JExprLoop (if plus then fadd acc v else fsub acc v)) q r) -> yields (JExprLoop acc) p r.
Proof.
  intros Hk H1 H2.
  destruct (yields_seq (fun f v q => descent scope f (JExprLoop (if plus then fadd acc v else fsub acc v)) q) JTerm (xp_next p) x r) as [f Hf]; [intros; by eapply descent_mono|done|by destruct x as [[]|]|].
  exists (S f). cbn [descent descend]. unfold exprLoop, isTok. rewrite Hk. by destruct plus.
Qed.

Lemma yields_expr_stop acc p : isTok p tokPlus = false -> isTok p tokMinus = false -> yields (JExprLoop acc) p (Ok (acc, p)).
Proof. intros H1 H2. exists 1%nat. cbn [descent descend]. unfold exprLoop. by rewrite H1, H2. Qed.

Lemma yields_term_step (times : bool) acc p x r : tk_kind (xp_tok p) = (if times then tokStar else tokSlash) -> yields JUnary (xp_next p) x ->
  follow x r (fun v q =>
    if negb times && feqb v fzero then r = Err (ErrEval "division by zero")
    else yields (JTermLoop (if times then fmul acc v else fdiv acc v)) q r) -> yields (JTermLoop acc) p r.
Proof.
  intros Hk H1 H2.
  destruct (yields_seq (fun f v q => if negb times && feqb v fzero then fail "division by zero" else descent scope f (JTermLoop (if times then fmul acc v else fdiv acc v)) q)
              JUnary (xp_next p) x r) as [f Hf].
  { intros f f' v q y Hle. destruct (_ && _); [done|by apply descent_mono]. }
  { done. }
  { destruct x as [[v q]|e]; [|done]. cbn in H2. destruct (negb times && feqb v fzero); [exists 0%nat; by subst|done]. }
  exists (S f). cbn [descent descend]. unfold termLoop, isTok. rewrite Hk. by destruct times.
Qed.

Lemma yields_term_stop acc p : isTok p tokStar = false -> isTok p tokSlash = false -> yields (JTermLoop acc) p (Ok (acc, p)).
Proof. intros H1 H2. exists 1%nat. cbn [descent descend]. unfold termLoop. by rewrite H1, H2. Qed.

Lemma yields_args name args p x r : yields JExpr p x ->
  follow x r (fun v q =>
    (isTok q tokComma = true /\ yields (JArgs name (args ++ [v])) (xp_next q) r) \/
    (isTok q tokComma = false /\ isTok q tokRParen = true /\ r = match applyFunc name (args ++ [v]) with Ok v => Ok (v, xp_next q) | Err e => Err e end)) ->
  yields (JArgs name args) p r.
Proof.
  intros H1 H2.
  destruct (yields_seq (fun f v p => let args := args ++ [v] in
    if isTok p tokComma then descent scope f (JArgs name args) (xp_next p)
    else if negb (isTok p tokRParen) then fail ("unsupported expression node: expected ')' in call to " ++ name)%string
    else match applyFunc name args with Ok v => Some (Ok (v, xp_next p)) | Err e => Some (Err e) end) JExpr p x r) as [f Hf].
  { intros f f' v q y Hle. cbv zeta. destruct (isTok q tokComma); [by apply descent_mono|done]. }
  { done. }
  { destruct x as [[v q]|e]; [|done]. cbn in H2 |- *. destruct H2 as [[-> [f Hf]]|(-> & -> & ->)]; [by exists f|]. exists 0%nat. by destruct (applyFunc _ _). }
  by exists (S f).
Qed.
End Calls.

(** ** Expressions *)

Inductive binOp : Set := OpAdd | OpSub | OpMul | OpDiv.

Inductive expr : Set :=
| ENum (t : text)
| EVar (x : text)
| EPos (e : expr)
| ENeg (e : expr)
| EBin (op : binOp) (a b : expr)
| ECall (f : text) (args : list expr).

Lemma expr_nested_ind (P : expr -> Prop)
    (HN : forall t, P (ENum t)) (HV : forall x, P (EVar x)) (HP : forall e, P e -> P (EPos e)) (HM : forall e, P e -> P (ENeg e))
    (HB : forall op a b, P a -> P b -> P (EBin op a b)) (HC : forall f args, Forall P args -> P (ECall f args)) : forall e, P e.
Proof.
  fix IH 1. intros [t|x|e|e|op a b|f args]; [apply HN|apply HV|apply HP, IH|apply HM, IH|apply HB; apply IH|apply HC].
  induction args as [|a args IHargs]; constructor; [apply IH|exact IHargs].
Qed.

(** A name begins with a letter or an underscore; a number with a digit or a point,
    and the scanner reads it to its end. *)
Definition isIdentText (x : text) : bool := match x with c :: r => isIdentStart c && forallb isIdentPart r | [] => false end.
Definition isNumText (t : text) : bool :=
  match t with
  | c :: _ => (is_digit c || Ascii.eqb c "."%char) && match (scanNumber None t).2 with [] => true | _ => false end
  | [] => false
  end.

Fixpoint wfE (e : expr) : bool :=
  match e with
  | ENum t => isNumText t
  | EVar x => isIdentText x
  | EPos e | ENeg e => wfE e
  | EBin _ a b => wfE a && wfE b
  | ECall f args => isIdentText f && forallb wfE args
  end.

(** The value of an expression: operands from the left, the first error wins. *)
Definition evalOp (op : binOp) (a b : float64) : res float64 :=
  match op with
  | OpAdd => Ok (fadd a b)
  | OpSub => Ok (fsub a b)
  | OpMul => Ok (fmul a b)
  | OpDiv => if feqb b fzero then Err (ErrEval "division by zero") else Ok (fdiv a b)
  end.

Definition supported (f : text) : bool := existsb (String.eqb (string_of_list_ascii f)) ["min"; "max"; "abs"].

Fixpoint evalE (scope : gmap string float64) (e : expr) : res float64 :=
  match e with
  | ENum t => match parseFloatText t with Some f => Ok f | None => Err (ErrEval "unsupported expression node: bad number") end
  | EVar x =>
      let name := string_of_list_ascii x in
      match scope !! name with Some v => Ok v | None => Err (ErrEval ("undefined: " ++ name)%string) end
  | EPos e => evalE scope e
  | ENeg e => res_bind (evalE scope e) (fun v => Ok (fneg v))
  | EBin op a b => res_bind (evalE scope a) (fun v => res_bind (evalE scope b) (fun w => evalOp op v w))
  | ECall f args =>
      let name := string_of_list_ascii f in
      if supported f then
        res_bind ((fix evalArgs (l : list expr) : res (list float64) :=
           match l with
           | [] => Ok []
           | a :: l => res_bind (evalE scope a) (fun v => res_bind (evalArgs l) (fun vs => Ok (v :: vs)))
           end) args) (fun vs => applyFunc name vs)
      else Err (ErrEval ("unsupported function: " ++ name)%string)
  end.

Fixpoint evalArgs (scope : gmap string float64) (l : list expr) : res (list float64) :=
  match l with
  | [] => Ok []
  | a :: l => res_bind (evalE scope a) (fun v => res_bind (evalArgs scope l) (fun vs => Ok (v :: vs)))
  end.

Lemma evalE_call scope f args : evalE scope (ECall f args) =
  if supported f then res_bind (evalArgs scope args) (fun vs => applyFunc (string_of_list_ascii f) vs)
  else Err (ErrEval ("unsupported function: " ++ string_of_list_ascii f)%string).
Proof.
  cbn [evalE]. destruct (supported f); [|done]. cbv zeta. f_equal. induction args as [|a args IH]; [done|]. cbn [evalArgs]. by rewrite IH.
Qed.

(** Printing, with parentheses where the precedence asks for them: sums at level 0,
    products at 1, signs at 2, the rest at 3. *)
Definition prec (e : expr) : nat :=
  match e with
  | EBin (OpAdd | OpSub) _ _ => 0
  | EBin (OpMul | OpDiv) _ _ => 1
  | EPos _ | ENeg _ => 2
  | _ => 3
  end.

Definition opText (op : binOp) : ascii :=
  match op with OpAdd => "+"%char | OpSub => "-"%char | OpMul => "*"%char | OpDiv => "/"%char end.
Definition opLevel (op : binOp) : nat := match op with OpAdd | OpSub => 0 | OpMul | OpDiv => 1 end.

Definition paren (p lvl : nat) (t : text) : text := if (p <? lvl)%nat then "("%char :: t ++ [")"%char] else t.

Definition sepArgs (l : list text) : text :=
  match l with
  | [] => []
  | t :: l => t ++ flat_map (fun t => ","%char :: " "%char :: t) l
  end.

Fixpoint printE (lvl : nat) (e : expr) : text :=
  paren (prec e) lvl
    match e with
    | ENum t => t
    | EVar x => x
    | EPos e => "+"%char :: printE 2 e
    | ENeg e => "-"%char :: printE 2 e
    | EBin op a b => printE (opLevel op) a ++ " "%char :: opText op :: " "%char :: printE (S (opLevel op)) b
    | ECall f args => f ++ "("%char :: sepArgs (map (printE 0) args) ++ [")"%char]
    end.

(** ** The tokens of printed text *)

(** What follows an operand in printed text. *)
Definition delim (k : text) : Prop :=
  k = [] \/ (exists k', k = ")"%char :: k') \/ (exists k', k = ","%char :: k') \/ (exists op k', k = " "%char :: opText op :: k').

Lemma delim_close k : delim (")"%char :: k).
Proof. right. left. by exists k. Qed.
Lemma delim_comma k : delim (","%char :: k).
Proof. right. right. left. by exists k. Qed.
Lemma delim_op op k : delim (" "%char :: opText op :: k).
Proof. right. right. right. by exists op, k. Qed.
#[local] Hint Resolve delim_close delim_comma delim_op : core.

Ltac delim_cases H := destruct H as [->|[[? ->]|[[? ->]|([] & ? & ->)]]].

Lemma delim_not_call k : delim k -> isTok (lexToken k) tokLParen = false.
Proof. intros H. by delim_cases H. Qed.

Lemma scanNumber_delim t k : delim k -> forall prev, (scanNumber prev t).2 = [] -> scanNumber prev (t ++ k) = (t, k).
Proof.
  intros Hk. induction t as [|c t IH]; intros prev H; [by delim_cases Hk; destruct prev|].
  cbn [scanNumber app] in *. destruct (_ || _); [|done]. specialize (IH (Some c)). destruct (scanNumber (Some c) t) as [a b]. cbn in *. by rewrite (IH H).
Qed.

Definition identEnds (k : text) : Prop := match k with c :: _ => isIdentPart c = false | [] => True end.

Lemma delim_identEnds k : delim k -> identEnds k.
Proof. intros H. by delim_cases H. Qed.

Lemma scanIdent_ends t k : identEnds k -> forallb isIdentPart t = true -> scanIdent (t ++ k) = (t, k).
Proof.
  intros Hk. induction t as [|c t IH]; cbn [forallb app scanIdent].
  - intros _. destruct k as [|c k]; [done|]. cbn in Hk |- *. by rewrite Hk.
  - intros H. apply andb_prop in H as [Hc H]. by rewrite Hc, (IH H).
Qed.

Lemma digit_start c : is_digit c || Ascii.eqb c "."%char = true -> opKind c = None /\ Ascii.eqb c " "%char || (code c =? 9) = false.
Proof. destruct c as [[] [] [] [] [] [] [] []]; vm_compute; try done; by split. Qed.

Lemma ident_start c : isIdentStart c = true -> opKind c = None /\ Ascii.eqb c " "%char || (code c =? 9) = false /\ is_digit c || Ascii.eqb c "."%char = false.
Proof. destruct c as [[] [] [] [] [] [] [] []]; vm_compute; try done; by repeat split. Qed.

Lemma lex_num t k : isNumText t = true -> delim k -> lexToken (t ++ k) = mkParser k (mkToken tokNum t).
Proof.
  intros Ht Hk. destruct t as [|c t]; [done|]. unfold isNumText in Ht. apply andb_prop in Ht as [Hc Ht]. destruct (digit_start c Hc) as [Ho Hb].
  pose proof (scanNumber_delim (c :: t) k Hk None) as Hs. cbn [app] in *. unfold lexToken. cbn [skipBlanks]. rewrite Hb, Ho, Hc.
  destruct (scanNumber None (c :: t)).2; [|done]. by rewrite Hs.
Qed.

Lemma lex_ident t k : isIdentText t = true -> identEnds k -> lexToken (t ++ k) = mkParser k (mkToken tokIdent t).
Proof.
  intros Ht Hk. destruct t as [|c t]; [done|]. unfold isIdentText in Ht. apply andb_prop in Ht as [Hc Ht]. destruct (ident_start c Hc) as (Ho & Hb & Hd).
  pose proof (scanIdent_ends (c :: t) k Hk) as Hs. cbn [app forallb] in *. unfold lexToken. cbn [skipBlanks]. rewrite Hb, Ho, Hd, Hc.
  rewrite Hs; [done|]. unfold isIdentPart at 1. by rewrite Hc.
Qed.

(** ** The descent on printed text *)

Section Printed.
Context (scope : gmap string float64).

Definition readResult (x : res float64) (k : text) : res (float64 * exprParser) :=
  match x with Ok v => Ok (v, lexToken k) | Err e => Err e end.

Definition noProduct (k : text) : Prop := isTok (lexToken k) tokStar = false /\ isTok (lexToken k) tokSlash = false.

(** A text reads as a value at a level: whatever follows it, the call of that level
    goes on as if it had the value.  The calls with a loop are described by what the
    loop makes of the value. *)
Definition readsAt (lvl : nat) (t : text) (x : res float64) : Prop :=
  (forall k, delim k -> isTok (lexToken (t ++ k)) tokRParen = false) /\
  match lvl with
  | 0%nat => forall k r, delim k -> noProduct k -> follow (readResult x k) r (fun v q => yields scope (JExprLoop v) q r) -> yields scope JExpr (lexToken (t ++ k)) r
  | 1%nat => forall k r, delim k -> follow (readResult x k) r (fun v q => yields scope (JTermLoop v) q r) -> yields scope JTerm (lexToken (t ++ k)) r
  | 2%nat => forall k, delim k -> yields scope JUnary (lexToken (t ++ k)) (readResult x k)
  | _ => forall k, delim k ->
      isTok (lexToken (t ++ k)) tokMinus = false /\ isTok (lexToken (t ++ k)) tokPlus = false /\
      yields scope JPrimary (lexToken (t ++ k)) (readResult x k)
  end.

Lemma follow_self x k P : (forall v, x = Ok v -> P v (lexToken k)) -> follow (readResult x k) (readResult x k) P.
Proof. destruct x; cbn; auto. Qed.

Lemma reads_unary t x : readsAt 3 t x -> readsAt 2 t x.
Proof. intros [Ho H]. split; [done|]. intros k Hk. destruct (H k Hk) as (A & B & C). by apply yields_unary_primary. Qed.

Lemma reads_term t x : readsAt 2 t x -> readsAt 1 t x.
Proof. intros [Ho H]. split; [done|]. intros k r Hk Hr. by apply (yields_term scope _ (readResult x k)); [apply H|]. Qed.

(** A term on its own. *)
Lemma term_alone t x k : readsAt 1 t x -> delim k -> noProduct k -> yields scope JTerm (lexToken (t ++ k)) (readResult x k).
Proof. intros [_ H] Hk [Hs Hd]. apply H; [done|]. apply follow_self. intros v ->. by apply yields_term_stop. Qed.

Lemma reads_expr t x : readsAt 1 t x -> readsAt 0 t x.
Proof.
  intros H. split; [apply H|]. intros k r Hk Hp Hr. apply (yields_expr scope _ (readResult x k)); [by apply term_alone|done].
Qed.

(** An expression on its own: before a closing parenthesis, a comma or the end. *)
Definition closesExpr (k : text) : Prop := k = [] \/ (exists k', k = ")"%char :: k') \/ (exists k', k = ","%char :: k').

Lemma expr_alone t x k : readsAt 0 t x -> closesExpr k -> yields scope JExpr (lexToken (t ++ k)) (readResult x k).
Proof.
  intros [_ H] Hk. assert (Hd : delim k) by (unfold delim, closesExpr in *; tauto).
  assert (Hs : noProduct k /\ isTok (lexToken k) tokPlus = false /\ isTok (lexToken k) tokMinus = false) by (by destruct Hk as [->|[[? ->]|[? ->]]]).
  apply H; [done|tauto|]. apply follow_self. intros v ->. apply yields_expr_stop; tauto.
Qed.

Lemma reads_paren t x : readsAt 0 t x -> readsAt 3 ("("%char :: t ++ [")"%char]) x.
Proof.
  intros H. split; [done|]. intros k Hk. split; [done|]. split; [done|]. cbn [app]. rewrite <- app_assoc. cbn [app].
  apply (yields_primary_paren scope _ (readResult x (")"%char :: k))); [done| |].
  - change (xp_next _) with (lexToken (t ++ ")"%char :: k)). apply expr_alone; [done|]. right. left. by exists k.
  - destruct x; done.
Qed.

Lemma reads_down p lvl t x : readsAt p t x -> (lvl <= p <= 3)%nat -> readsAt lvl t x.
Proof.
  intros H Hl. assert (H1 : (1 <= p)%nat -> readsAt 1 t x).
  { intros Hp. destruct p as [|[|[|[|p]]]]; try lia; [done|by apply reads_term|by apply reads_term, reads_unary]. }
  destruct lvl as [|[|[|[|lvl]]]]; try lia.
  - destruct p; [done|]. apply reads_expr, H1. lia.
  - apply H1. lia.
  - destruct p as [|[|[|[|p]]]]; try lia; [done|by apply reads_unary].
  - by replace p with 3%nat in H by lia.
Qed.

(** Parentheses make a text of any level one of any other. *)
Lemma reads_levels p t x : readsAt p t x -> (p <= 3)%nat -> forall lvl, (lvl <= 3)%nat -> readsAt lvl (paren p lvl t) x.
Proof.
  intros H Hp lvl Hl. unfold paren. destruct (Nat.ltb_spec p lvl) as [Hlt|Hge]; [|by apply (reads_down p)].
  apply (reads_down 3); [|lia]. apply reads_paren. apply (reads_down p); [done|lia].
Qed.

Lemma reads_num t : isNumText t = true -> readsAt 3 t (evalE scope (ENum t)).
Proof.
  intros Ht. split; [intros k Hk; by rewrite lex_num|]. intros k Hk. rewrite lex_num by done. split; [done|]. split; [done|].
  exists 1%nat. cbn [descent descend evalE]. unfold parsePrimary. cbn [tk_kind tk_text xp_tok]. by destruct (parseFloatText t).
Qed.

Lemma reads_var x : isIdentText x = true -> readsAt 3 x (evalE scope (EVar x)).
Proof.
  intros Ht. assert (Hl : forall k, delim k -> lexToken (x ++ k) = mkParser k (mkToken tokIdent x)) by (intros k Hk; apply lex_ident; [done|by apply delim_identEnds]).
  split; [intros k Hk; by rewrite Hl|]. intros k Hk. rewrite Hl by done. split; [done|]. split; [done|].
  exists 1%nat. cbn [descent descend evalE]. unfold parsePrimary. cbn [tk_kind tk_text xp_tok]. change (xp_next _) with (lexToken k). rewrite delim_not_call by done.
  cbv zeta. by destruct (scope !! _).
Qed.

Lemma reads_pos t x : readsAt 2 t x -> readsAt 2 ("+"%char :: t) x.
Proof. intros [_ H]. split; [done|]. intros k Hk. apply yields_unary_plus; [done|]. by apply (H k). Qed.

Lemma reads_neg t x : readsAt 2 t x -> readsAt 2 ("-"%char :: t) (res_bind x (fun v => Ok (fneg v))).
Proof.
  intros [_ H]. split; [done|]. intros k Hk. apply (yields_unary_minus scope _ (readResult x k)); [done|by apply (H k)|]. by destruct x.
Qed.

Lemma app_binary (t u k : text) c : (t ++ " "%char :: c :: " "%char :: u) ++ k = t ++ (" "%char :: c :: " "%char :: u ++ k).
Proof. by rewrite <- app_assoc. Qed.

Lemma reads_sum (plus : bool) op t u x y : op = (if plus then OpAdd else OpSub) -> readsAt 0 t x -> readsAt 1 u y ->
  readsAt 0 (t ++ " "%char :: opText op :: " "%char :: u) (res_bind x (fun v => res_bind y (fun w => evalOp op v w))).
Proof.
  intros Hop [Ho H] Hu. split; [intros k Hk; rewrite app_binary; by apply Ho|]. intros k r Hk Hp Hr. rewrite app_binary.
  apply H; [done|by rewrite Hop; destruct plus|]. destruct x as [v|e]; [|done]. cbn [readResult follow res_bind] in *.
  apply (yields_expr_step scope plus _ _ (readResult y k)); [by rewrite Hop; destruct plus| |].
  - change (xp_next _) with (xp_next (lexToken (opText op :: " "%char :: u ++ k))). replace (xp_next _) with (lexToken (u ++ k)) by (by rewrite Hop; destruct plus). by apply term_alone.
  - destruct y as [w|e]; [|done]. cbn [readResult follow res_bind] in *. rewrite Hop in Hr. by destruct plus.
Qed.

Lemma reads_product (times : bool) op t u x y : op = (if times then OpMul else OpDiv) -> readsAt 1 t x -> readsAt 2 u y ->
  readsAt 1 (t ++ " "%char :: opText op :: " "%char :: u) (res_bind x (fun v => res_bind y (fun w => evalOp op v w))).
Proof.
  intros Hop [Ho H] [_ Hu]. split; [intros k Hk; rewrite app_binary; by apply Ho|]. intros k r Hk Hr. rewrite app_binary.
  apply H; [done|]. destruct x as [v|e]; [|done]. cbn [readResult follow res_bind] in *.
  apply (yields_term_step scope times _ _ (readResult y k)); [by rewrite Hop; destruct times| |].
  - replace (xp_next _) with (lexToken (u ++ k)) by (by rewrite Hop; destruct times). by apply Hu.
  - destruct y as [w|e]; [|done]. cbn [readResult follow res_bind] in *. rewrite Hop in Hr. destruct times; [done|]. cbn [evalOp negb andb] in *. by destruct (feqb w fzero).
Qed.

Lemma evalArgs_cons a l : evalArgs scope (a :: l) = res_bind (evalE scope a) (fun v => res_bind (evalArgs scope l) (fun vs => Ok (v :: vs))).
Proof. done. Qed.

(** The arguments of a call, from the first one on. *)
Lemma reads_args name args : forall a vs k, Forall (fun a => readsAt 0 (printE 0 a) (evalE scope a)) (a :: args) ->
  yields scope (JArgs name vs) (lexToken (sepArgs (map (printE 0) (a :: args)) ++ ")"%char :: k))
    (readResult (res_bind (evalArgs scope (a :: args)) (fun ws => applyFunc name (vs ++ ws))) k).
Proof.
  induction args as [|b args IH]; intros a vs k Hall; inversion Hall as [|? ? Ha Hrest]; subst.
  - cbn [map sepArgs flat_map]. rewrite app_nil_r. apply (yields_args scope _ _ _ (readResult (evalE scope a) (")"%char :: k))); [apply expr_alone; [done|right; left; by exists k]|].
    rewrite evalArgs_cons. destruct (evalE scope a) as [v|e]; [|done]. right. split; [done|]. split; [done|]. by cbn; destruct (applyFunc name (vs ++ [v])).
  - replace (_ ++ ")"%char :: k) with (printE 0 a ++ ","%char :: " "%char :: sepArgs (map (printE 0) (b :: args)) ++ ")"%char :: k)
      by (cbn [map sepArgs flat_map]; rewrite <- !app_assoc; cbn [app]; rewrite <- ?app_assoc; reflexivity).
    apply (yields_args scope _ _ _ (readResult (evalE scope a) (","%char :: " "%char :: sepArgs (map (printE 0) (b :: args)) ++ ")"%char :: k)));
      [apply expr_alone; [done|right; right; by eexists]|].
    rewrite evalArgs_cons. destruct (evalE scope a) as [v|e]; [|done]. left. split; [done|]. specialize (IH b (vs ++ [v]) k Hrest). cbn [res_bind] in *.
    destruct (evalArgs scope (b :: args)) as [ws|e]; cbn [res_bind] in *; [|done]. by rewrite <- app_assoc in IH.
Qed.

Lemma reads_call f args : isIdentText f = true -> Forall (fun a => readsAt 0 (printE 0 a) (evalE scope a)) args ->
  readsAt 3 (f ++ "("%char :: sepArgs (map (printE 0) args) ++ [")"%char]) (evalE scope (ECall f args)).
Proof.
  intros Hf Hargs. set (body := sepArgs (map (printE 0) args)).
  assert (Hl : forall k, lexToken ((f ++ "("%char :: body ++ [")"%char]) ++ k) = mkParser ("("%char :: body ++ ")"%char :: k) (mkToken tokIdent f)).
  { intros k. rewrite <- app_assoc. cbn [app]. rewrite <- app_assoc. by apply lex_ident. }
  split; [intros k Hk; by rewrite Hl|]. intros k Hk. rewrite Hl. split; [done|]. split; [done|]. rewrite evalE_call.
  assert (Hcall : forall r fuel, parseCall (descent scope fuel) (string_of_list_ascii f) (lexToken ("("%char :: body ++ ")"%char :: k)) = Some r ->
    yields scope JPrimary (mkParser ("("%char :: body ++ ")"%char :: k) (mkToken tokIdent f)) r) by (intros r fuel H; by exists (S fuel)).
  unfold parseCall in Hcall. fold (supported f) in Hcall. destruct (supported f); cbn [negb] in Hcall; [|by apply (Hcall _ 0%nat)].
  change (xp_next (lexToken ("("%char :: body ++ ")"%char :: k))) with (lexToken (body ++ ")"%char :: k)) in Hcall. cbv zeta in Hcall. destruct args as [|a args].
  - apply (Hcall _ 0%nat). cbn [res_bind evalArgs]. by destruct (applyFunc _ _).
  - assert (Hopen : isTok (lexToken (body ++ ")"%char :: k)) tokRParen = false).
    { inversion Hargs as [|? ? [Ho _] _]; subst. subst body. cbn [map sepArgs]. rewrite <- app_assoc. apply Ho. destruct args; cbn; auto. }
    rewrite Hopen in Hcall. destruct (reads_args (string_of_list_ascii f) args a [] k Hargs) as [fuel H]. by apply (Hcall _ fuel).
Qed.

(** Printed expressions read as their values, at every level. *)
Lemma reads_printed e : wfE e = true -> forall lvl, (lvl <= 3)%nat -> readsAt lvl (printE lvl e) (evalE scope e).
Proof.
  induction e as [t|x|e IH|e IH|op a b IHa IHb|f args IH] using expr_nested_ind; cbn [wfE]; intros Hwf; cbn [printE]; apply reads_levels.
  all: cbn [prec]; try (destruct op; lia).
  - by apply reads_num.
  - lia.
  - by apply reads_var.
  - lia.
  - apply reads_pos, IH; [done|lia].
  - lia.
  - apply reads_neg, IH; [done|lia].
  - lia.
  - apply andb_prop in Hwf as [Ha Hb]. specialize (IHa Ha). specialize (IHb Hb).
    destruct op; cbn [evalE opLevel].
    + apply (reads_sum true); [done|apply IHa; lia|apply IHb; lia].
    + apply (reads_sum false); [done|apply IHa; lia|apply IHb; lia].
    + apply (reads_product true); [done|apply IHa; lia|apply IHb; lia].
    + apply (reads_product false); [done|apply IHa; lia|apply IHb; lia].
  - apply andb_prop in Hwf as [Hf Hargs]. apply reads_call; [done|]. rewrite forallb_forall in Hargs. rewrite List.Forall_forall in IH |- *.
    intros a Ha. apply IH; [done|by apply Hargs|lia].
  - lia.
Qed.
End Printed.

(** C35: The evaluator of constraint expressions computes the value of the expression.
    On every text it returns a value or an error, never running out of the fuel of the
    model.  An expression over numbers, names, signs, the four operations and calls,
    printed with parentheses only where the precedence asks for them, evaluates to its
    value: products before sums, operators of one level from the left, a sign before
    the product it stands in, and of several errors (an undefined name, a malformed
    number, a division by zero, an unsupported function, a wrong number of arguments)
    the leftmost. *)
Theorem evaluates_expressions (scope : gmap string float64) (e : expr) (Hwf : wfE e = true) :
  (forall expression, safeEval expression scope <> None) /\
  safeEval (string_of_list_ascii (printE 0 e)) scope = Some (evalE scope e).
Proof.
  split; [intros; apply safeEval_total|]. unfold safeEval. rewrite list_ascii_of_string_of_list_ascii. set (src := printE 0 e).
  assert (H : yields scope JExpr (lexToken src) (readResult (evalE scope e) [])).
  { pose proof (expr_alone scope src (evalE scope e) [] (reads_printed scope e Hwf 0 ltac:(lia)) ltac:(by left)) as H. by rewrite app_nil_r in H. }
  rewrite (yields_total scope _ _ _ H (evalFuel src)).
  - by destruct (evalE scope e).
  - unfold needs, evalFuel. pose proof (left_lexToken src). lia.
Qed.

(** min(1.0, entry_z - 0.1) * -2 *)
Definition demoExpr : expr :=
  EBin OpMul (ECall (list_ascii_of_string "min") [ENum (list_ascii_of_string "1.0"); EBin OpSub (EVar (list_ascii_of_string "entry_z")) (ENum (list_ascii_of_string "0.1"))])
    (ENeg (ENum (list_ascii_of_string "2"))).

Lemma evaluates_expressions_witness :
  wfE demoExpr = true /\ string_of_list_ascii (printE 0 demoExpr) = "min(1.0, entry_z - 0.1) * -2" /\
  (forall expression, safeEval expression {[ "entry_z" := zToFloat 2 ]} <> None) /\
  safeEval (string_of_list_ascii (printE 0 demoExpr)) {[ "entry_z" := zToFloat 2 ]} = Some (evalE {[ "entry_z" := zToFloat 2 ]} demoExpr) /\
  evalE {[ "entry_z" := zToFloat 2 ]} demoExpr = Ok (zToFloat (-2)).
Proof.
  split; [reflexivity|]. split; [reflexivity|]. destruct (evaluates_expressions {[ "entry_z" := zToFloat 2 ]} demoExpr eq_refl) as [A B].
  split; [exact A|]. split; [exact B|]. vm_compute. reflexivity.
Defined.

(** ** Findings *)

(** A character outside the grammar ends the expression instead of failing it. *)
Lemma unknown_character_ends_expression : safeEval "1 $ 2" gmap_empty = Some (Ok (zToFloat 1)).
Proof. vm_compute. reflexivity. Qed.
