(* ===== verification/SepaAdapter.v ===== *)
(** * The SEPA adapter (src/internal/strategy/sepaadapter)

    The adapter of one SEPA generator as a strategy of the engine: context
    injection, warm-up, the translation of signals into orders, and the payloads it
    publishes.  The equity provider is read while a bar is handled.  A panic of the
    generator, which a swing lookback below one causes, ends the run: the program
    then ends with [ErrPanic]. *)

From Stdlib Require Import SpecFloat.
From stdpp Require Import gmap strings list.
From S2P Require Import Prelude Lists Fixed Money Domain Float64 FloatInt Indicators Setup Sepa Engine LiveSession Targets Orb.
Set Default Goal Selector "!".
#[local] Open Scope string_scope.
#[local] Open Scope Z_scope.
#[local] Open Scope list_scope.
#[local] Abbreviation length := List.length.

(** ** Context and warm-up *)

(** A missing entry leaves the value the generator has. *)
Definition sepaInjectContext (ctx : StrategyContext) (g : Generator) : Generator :=
  let sym := cf_Symbol (g_cfg g) in
  let g := if String.eqb (sc_Regime ctx) "" then g else Gen_SetRegime (sc_Regime ctx) g in
  let g := match sc_MarketCapUSD ctx !! sym with Some v => Gen_SetMarketCap v g | None => g end in
  match sc_EarningsBlackout ctx !! sym with Some v => Gen_SetEarningsBlackout v g | None => g end.

Definition sepaWarmupBars (sym : string) (history : list Bar) (g : Generator) : Generator :=
  if negb (String.eqb sym (cf_Symbol (g_cfg g))) || (length history =? 0)%nat then g
  else WarmupFromHistory (map toSepaBar history) g.

(** ** Orders *)

Definition sepaFlatReason (sym : string) (net : Qty) : string :=
  ("SEPA FLAT (close " ++ string_of_list_ascii (formatInt net) ++ ") " ++ sym)%string.

Definition sepaSubmit {St} (id : string) (ts : time) (sig : Signal) (k : option error -> SProg St) : SProg St :=
  match sg_Side sig with
  | SepaLong =>
      if sg_TargetQty sig <=? 0 then k None
      else SSubmitSignal id (sg_Symbol sig) SideLong OrderSideBuy (sg_TargetQty sig) (string_of_list_ascii (sg_Reason sig)) ts
             (fun r => k (match r with Err e => Some e | Ok _ => None end))
  | SepaFlat =>
      CloseToFlat id (sg_Symbol sig) ts (sepaFlatReason (sg_Symbol sig)) (fun r => k (match r with Err e => Some e | Ok _ => None end))
  | SepaShort => k None
  end.

Definition ErrPanic : error := ErrOther "panic".

Definition sepaAdapterOnBar (id : string) (g : Generator) (bar : Bar) : SProg Generator :=
  SEquityFloat (fun equity =>
    match OnBar equity (toSepaBar bar) g with
    | Some (g', sigs) => submitLoop (sepaSubmit id (bar_TS bar)) g' sigs
    | None => SDone g (Some ErrPanic)
    end).

Definition sepaStrategy (id : string) (g : Generator) : Strategy Generator :=
  mkStrategy id (sepaAdapterOnBar id) (Some sepaInjectContext) (Some [cf_Symbol (g_cfg g)]) (Some sepaWarmupBars) None.

Definition NewSepaAdapter (id : string) (g : Generator) : res (Strategy Generator) :=
  if String.eqb id "" then Err ErrInvalidArgument else Ok (sepaStrategy id g).

(** ** Payloads (intent.go, marshal.go) *)

Record SEPASignal : Set := mkSEPASignal {
  ss_Core : SignalCore;
  ss_Grade : Z;
  ss_TrendTemplatePass : bool;
  ss_BaseAgeDays : option Z;
  ss_BaseDepthPct : option float64;
  ss_VolumeDryup : option bool;
  ss_PivotPrice : option Price;
  ss_StopPrice : option Price;
  ss_RSRank : option Z;
  ss_RiskPct : option float64;
  ss_PctOff52wkHigh : option float64;
  ss_VolRatio : option float64;
  ss_BuyReadiness : option float64
}.

Definition sepaStateName (s : SepaState) : string :=
  match s with
  | SepaNoSetup => "no_setup" | SepaForming => "forming" | SepaBuy => "buy" | SepaHold => "hold" | SepaExit => "exit" | SepaStopHit => "stop_hit"
  end.

Definition sepaPriceStrPtr (s : list ascii) : option Price := priceStrPtr (string_of_list_ascii s).

Definition sepaNormalizeSignal (s : SignalSnapshot) : SEPASignal :=
  mkSEPASignal
    (mkCore (sn_Symbol s) (sepaStateName (sn_State s)) (sn_Strength s) (sn_ProximityToTriggerP s) (UTC (sn_UpdatedAt s)) (sn_Generation s) Sepa.StrategyID)
    (sn_Grade s) (sn_TrendTemplatePass s) (sn_BaseAgeDays s) (sn_BaseDepthPct s) (sn_VolumeDryup s) (sepaPriceStrPtr (sn_PivotPrice s))
    (sepaPriceStrPtr (sn_StopPrice s)) (sn_RSRank s) (sn_RiskPct s) (sn_PctOff52wkH s) (sn_VolRatio s) (sn_BuyReadiness s).

Record summaryJSON : Set := mkSummaryJSON {
  sj_Symbol : string; sj_Regime : string; sj_MarketCapUSD : float64; sj_InBlackout : bool; sj_PositionQty : Z;
  sj_EntryPrice : option (list ascii); sj_StopPrice : option (list ascii); sj_CurrentGrade : option string; sj_VCPDetected : bool;
  sj_PivotPrice : option (list ascii); sj_BarsInHistory : nat
}.

Definition emptyToNil (s : list ascii) : option (list ascii) := match s with [] => None | _ => Some s end.

Definition marshalSummary (s : StateSummary) : summaryJSON :=
  mkSummaryJSON (sm_Symbol s) (sm_Regime s) (sm_MarketCapUSD s) (sm_InBlackout s) (sm_PositionQty s) (emptyToNil (sm_EntryPrice s))
    (emptyToNil (sm_StopPrice s)) (if String.eqb (sm_CurrentGrade s) "" then None else Some (sm_CurrentGrade s)) (sm_VCPDetected s)
    (emptyToNil (sm_PivotPrice s)) (sm_BarsInHistory s).

Definition sepaEvaluateSignalJSON (asOf : time) (g : Generator) : option (Generator * SEPASignal) :=
  '(g, s) ← EvaluateSignal asOf g; Some (g, sepaNormalizeSignal s).

(** ** The account follows the generator *)

(** What the adapter is offered while a session runs. *)
Inductive sepaEvent : Set :=
| EvBar (bar : Bar)
| EvContext (ctx : StrategyContext)
| EvWarmup (sym : string) (history : list Bar).

(** A session on the paper account; an error of a bar ends it. *)
Fixpoint sepaSession (id : string) (equity : PaperBook -> float64) (evs : list sepaEvent) (g : Generator) (b : PaperBook) : PaperBook * res Generator :=
  match evs with
  | [] => (b, Ok g)
  | EvBar bar :: evs =>
      match runProg equity (sepaAdapterOnBar id g bar) b with
      | (b, Ok (g, None)) => sepaSession id equity evs g b
      | (b, Ok (_, Some e)) | (b, Err e) => (b, Err e)
      end
  | EvContext ctx :: evs => sepaSession id equity evs (sepaInjectContext ctx g) b
  | EvWarmup sym history :: evs => sepaSession id equity evs (sepaWarmupBars sym history g) b
  end.

(** The setters and the warm-up are operations of the generator. *)
Lemma inject_runs ctx g : exists ops, (forall enter, runWith enter ops g = Some (sepaInjectContext ctx g, map (fun _ => []) ops)).
Proof.
  unfold sepaInjectContext.
  exists ((if String.eqb (sc_Regime ctx) "" then [] else [OpRegime (sc_Regime ctx)]) ++
          (match sc_MarketCapUSD ctx !! cf_Symbol (g_cfg g) with Some v => [OpMarketCap v] | None => [] end) ++
          (match sc_EarningsBlackout ctx !! cf_Symbol (g_cfg g) with Some v => [OpBlackout v] | None => [] end)).
  intros enter. destruct (String.eqb _ _), (sc_MarketCapUSD ctx !! _), (sc_EarningsBlackout ctx !! _); reflexivity.
Qed.

Lemma warmup_runs sym history g : exists ops, (forall enter, runWith enter ops g = Some (sepaWarmupBars sym history g, map (fun _ => []) ops)).
Proof.
  unfold sepaWarmupBars. destruct (_ || _); [exists []|exists [OpWarmup history]]; reflexivity.
Qed.

(** The bound of a position. *)
Lemma shares_range cfg equity entry stop tranches : computeFirstTrancheShares cfg equity entry stop tranches <= max_int64.
Proof.
  unfold computeFirstTrancheShares. destruct (fleb _ _); [rlia|]. unfold pyFloorDiv.
  set (f := if fgtb _ _ then _ else _). pose proof (intOfFloat_range f) as H. set (t := if tranches <? 1 then 1 else tranches).
  assert (1 <= t) by (unfold t; destruct (Z.ltb_spec tranches 1); lia).
  destruct (Z.le_gt_cases 0 (intOfFloat f)); [apply Z.quot_le_upper_bound; [lia|nia]|].
  assert (Z.quot (intOfFloat f) t <= 0); [|rlia].
  rewrite <- (Z.opp_involutive (intOfFloat f)), Z.quot_opp_l by lia. pose proof (Z.quot_pos (- intOfFloat f) t). lia.
Qed.

(** A bar: nothing, an entry from flat, or the exit of what is held. *)
Lemma OnBar_signals equity bar g g' sigs : OnBar equity (toSepaBar bar) g = Some (g', sigs) ->
  (sigs = [] /\ ho_position (g_hold g') = ho_position (g_hold g)) \/
  (exists sig, sigs = [sig] /\ sg_Symbol sig = cf_Symbol (g_cfg g) /\
    ((sg_Side sig = SepaLong /\ ho_position (g_hold g) = 0 /\ ho_position (g_hold g') = sg_TargetQty sig /\ 0 < sg_TargetQty sig <= max_int64) \/
     (sg_Side sig = SepaFlat /\ ho_position (g_hold g') = 0))).
Proof.
  unfold OnBar, OnBarWith. destruct (String.eqb_spec (sb_Symbol (toSepaBar bar)) (cf_Symbol (g_cfg g))) as [Es|]; cbn [negb]; [|intros [= <- <-]; by left].
  destruct (appendBar_parts (toSepaBar bar) g) as (E1 & E2 & _). set (g1 := appendBar (toSepaBar bar) g) in *.
  destruct (Z.eqb_spec (ho_position (g_hold g1)) 0) as [E0|E0].
  - intros E. pose proof (maybeEnterWith_inv classifyStageInc trendTemplatePassInc equity (toSepaBar bar) g1) as H. unfold maybeEnter in E. rewrite E in H.
    destruct H as [[-> ->]|(vcp & grade & _ & _ & Eb)]; [left; by rewrite E2|]. unfold buildLongEntry in Eb. cbv zeta in Eb.
    destruct (Z.leb_spec (computeFirstTrancheShares (g_cfg g1) equity (sb_Close (toSepaBar bar))
      (if fgtb (stopUnder (vc_PivotPrice vcp) (cf_PivotBufferPct (g_cfg g1))) (stopUnder (sb_Close (toSepaBar bar)) (cf_HardStopPct (g_cfg g1)))
       then stopUnder (vc_PivotPrice vcp) (cf_PivotBufferPct (g_cfg g1)) else stopUnder (sb_Close (toSepaBar bar)) (cf_HardStopPct (g_cfg g1)))
      (if String.eqb grade GradeAPlus then 3 else 2)) 0); [injection Eb as -> ->; left; by rewrite E2|].
    injection Eb as -> ->. right. eexists. split; [done|]. split; [done|]. left. cbn. rewrite <- E2. splits; [done|done|done|done|apply shares_range].
  - unfold maybeExit. destruct (fleb _ _); intros [= <- <-]; [|left; by rewrite E2]. right. eexists. split; [done|]. split; [done|]. by right.
Qed.

Record sepaOk (cfg : SepaConfig) (g : Generator) (b : PaperBook) : Prop := {
  sk_gen : genOk cfg g;
  sk_hold : holdOk cfg (g_hold g);
  sk_range : ho_position (g_hold g) <= max_int64;
  sk_book : forall sym, netOf b sym = if decide (sym = cf_Symbol cfg) then ho_position (g_hold g) else 0
}.

Lemma sepaOk_nonneg cfg g b : sepaOk cfg g b -> 0 <= ho_position (g_hold g).
Proof. intros [_ H _ _]. destruct (holdOk_pos cfg _ H) as [[-> _]|]; lia. Qed.

Lemma sepaOk_runs cfg g b g' ops : capOk cfg -> (forall enter, runWith enter ops g = Some (g', map (fun _ => []) ops)) -> g_hold g' = g_hold g ->
  sepaOk cfg g b -> sepaOk cfg g' b.
Proof.
  intros Hcap Hr Hh [H1 H2 H3 H4]. split; rewrite ?Hh; [|done..]. by apply (genOk_run cfg classifyStageInc trendTemplatePassInc ops g g' _ Hcap H1 (Hr _)).
Qed.

(** One bar moves the account with the generator. *)
Lemma sepaOk_bar cfg id equity bar g b : capOk cfg -> 1 <= cf_VCPLookback cfg -> sepaOk cfg g b ->
  exists g' b', runProg equity (sepaAdapterOnBar id g bar) b = (b', Ok (g', None)) /\ sepaOk cfg g' b'.
Proof.
  intros Hcap Hl K. pose proof (sepaOk_nonneg cfg g b K) as Hpos. destruct K as [H1 H2 H3 H4].
  destruct (step_total cfg classifyStageInc trendTemplatePassInc (OpBar (equity b) bar) g Hl H1) as [[g' sigs] E].
  pose proof (genOk_step cfg _ _ _ g g' sigs Hcap H1 E) as H1'. destruct (step_position cfg _ _ _ g g' sigs (go_cfg _ _ H1) H2 E) as [H2' _].
  cbn [stepWith] in E. fold maybeEnter in E. change (OnBarWith maybeEnter) with OnBar in E.
  unfold sepaAdapterOnBar. cbn [runProg]. rewrite E. pose proof (go_cfg _ _ H1) as Hc.
  destruct (OnBar_signals (equity b) bar g g' sigs E) as [[-> Ep]|(sig & -> & Es & Hside)].
  - exists g', b. split; [done|]. split; [done|done|by rewrite Ep|intros sym; by rewrite H4, Ep].
  - rewrite Hc in Es. cbn [submitLoop]. unfold sepaSubmit. destruct Hside as [(-> & E0 & Ep & Hq)|(-> & Ep)].
    + replace (sg_TargetQty sig <=? 0) with false by lia. cbn [runProg sub_Signal paperSubmitter]. eexists g', _. split; [done|].
      split; [done|done|lia|]. intros sym. rewrite netOf_paperFill, Es, !H4. destruct (decide (sym = cf_Symbol cfg)); [|done].
      rewrite decide_True, E0, Ep by done. change (String.eqb OrderSideBuy OrderSideBuy) with true. cbv iota. lia.
    + match goal with |- context [CloseToFlat ?i ?sy ?t ?rf ?kk] => destruct (CloseToFlat_flattens equity i sy t rf kk b) as (b' & done & Er & N) end.
      { rewrite Es, H4, decide_True by done. lia. }
      exists g', b'. split; [exact Er|]. split; [done|done|rewrite Ep; rlia|]. intros sym. rewrite N, Es, Ep, H4. by destruct (decide _).
Qed.

(** C21: an account in which every order of the SEPA adapter fills holds exactly the
    generator's position.  With a swing lookback of at least one and a history that is
    unbounded or spans a year, for any sequence of bars, context updates and warm-ups
    of any symbols, the session runs to its end without an error; the account is never
    short, only in the generator's own symbol, and while it is long the position is
    one of a graded entry above its pivot with a stop under its entry. *)
Theorem account_follows_sepa (cfg : SepaConfig) (g0 : Generator) (id : string) (equity : PaperBook -> float64) (evs : list sepaEvent)
    (Hnew : NewGenerator cfg = Ok g0) (Hcap : cf_HistoryMaxBars cfg <= 0 \/ 252 <= cf_HistoryMaxBars cfg) (Hlookback : 1 <= cf_VCPLookback cfg) :
  exists g book, sepaSession id equity evs g0 ∅ = (book, Ok g) /\
    netOf book (cf_Symbol cfg) = ho_position (g_hold g) /\ 0 <= ho_position (g_hold g) /\
    (forall sym, sym <> cf_Symbol cfg -> netOf book sym = 0) /\ holdOk cfg (g_hold g).
Proof.
  destruct (NewGenerator_ok cfg g0 Hnew) as [Hg0 Hf].
  assert (K0 : sepaOk cfg g0 ∅). { split; [done|by left|rewrite Hf; vm_compute; discriminate|]. intros sym. rewrite Hf. by destruct (decide _). }
  assert (H : exists g book, sepaSession id equity evs g0 ∅ = (book, Ok g) /\ sepaOk cfg g book).
  { revert g0 K0 Hnew Hg0 Hf. generalize (∅ : PaperBook) as b.
    intros b g0 K0 _ _ _. revert b g0 K0. induction evs as [|ev evs IH]; intros b g K; [by exists g, b|]. destruct ev as [bar|ctx|sym history]; cbn [sepaSession].
    - destruct (sepaOk_bar cfg id equity bar g b Hcap Hlookback K) as (g' & b' & -> & K'). by apply IH.
    - destruct (inject_runs ctx g) as [ops Ho]. apply IH. apply (sepaOk_runs cfg g b _ ops Hcap Ho); [|done].
      unfold sepaInjectContext. by repeat case_match.
    - destruct (warmup_runs sym history g) as [ops Ho]. apply IH. apply (sepaOk_runs cfg g b _ ops Hcap Ho); [|done].
      unfold sepaWarmupBars, WarmupFromHistory. by repeat case_match. }
  destruct H as (g & book & E & K). exists g, book. pose proof (sepaOk_nonneg cfg g book K). destruct K as [K1 K2 K3 K4]. splits; [done| |done| |done].
  - by rewrite K4, decide_True.
  - intros sym Hs. by rewrite K4, decide_False.
Qed.

(** The demonstration of [Sepa], offered to the adapter. *)
Definition demoSepaEvents : list sepaEvent :=
  [EvContext (mkStrategyContext "bull" (mkTime 0 0) {[ "ACME" := zToFloat 5000 ]} ∅); EvWarmup "ACME" (map (demoBar 1000) (firstn 200 demoCloses))] ++
  map (fun c => EvBar (demoBar 1000 c)) (firstn 40 (skipn 200 demoCloses)) ++ [EvBar (demoBar 3000 10300)].

Lemma account_follows_sepa_witness :
  (let '(book, r) := sepaSession "sepa" (fun _ => demoEquity) demoSepaEvents demoStart ∅ in netOf book "ACME") = 77 /\
  exists g book, sepaSession "sepa" (fun _ => demoEquity) demoSepaEvents demoStart ∅ = (book, Ok g) /\ netOf book "ACME" = ho_position (g_hold g).
Proof.
  split; [vm_compute; reflexivity|].
  destruct (account_follows_sepa demoConfig demoStart "sepa" (fun _ => demoEquity) demoSepaEvents eq_refl) as (g & book & E & Q & _).
  - right. vm_compute. discriminate.
  - vm_compute. discriminate.
  - exists g, book. split; [exact E|exact Q].
Defined.
