(* ===== verification/Compose.v ===== *)
(** * Compositions and strategy parameters (src/internal/composition, src/internal/params)

    A composition: its members with their weights, its cash and its risk, the
    validation and the seeds.  The typed parameters of the four strategies: decoding
    from a resolved map of JSON values, and their validation.  [LoadLocation] stands
    for the time zone database.  Error texts leave out the values they print. *)

From Stdlib Require Import SpecFloat.
From stdpp Require Import gmap strings list.
From S2P Require Import Prelude Lists Fixed Money Domain Float64 FloatInt Calendar Engine LiveSession Sepa Targets Pairs Sector PyDecimal Orb.
Set Default Goal Selector "!".
#[local] Open Scope string_scope.
#[local] Open Scope Z_scope.
#[local] Open Scope list_scope.
#[local] Abbreviation length := List.length.

(** ** composition.go *)

Definition CompStrategySEPA : string := "sepa".
Definition CompStrategySectorRotation : string := "sector_rotation".
Definition CompStrategyPairs : string := "pairs".
Definition CompStrategyIntradayBreakout : string := "intraday_breakout".

(** [1.0 + weightEpsilon]. *)
Definition weightLimit : float64 := flit 1000000001 1000000000.

Record Risk : Set := mkRisk {
  rk_SingleNamePct : float64; rk_ConcentrationPct : float64; rk_DailyLossHaltPct : float64;
  rk_MaxGrossPct : option float64; rk_MaxPositions : option Z
}.

Record Member : Set := mkMember { mb_StrategyID : string; mb_Weight : float64; mb_Active : bool; mb_ParamSetID : option Z }.

Record Composition : Set := mkComposition {
  cm_ID : string; cm_Name : string; cm_Description : string; cm_CashPct : float64; cm_Risk : Risk; cm_Members : list Member; cm_Version : Z
}.

Definition canonicalStrategy (id : string) : bool :=
  existsb (String.eqb id) [CompStrategySEPA; CompStrategySectorRotation; CompStrategyPairs; CompStrategyIntradayBreakout].

Definition ErrComposition (msg : string) : error := ErrOther ("composition: " ++ msg)%string.

Definition fone1 : float64 := zToFloat 1.
Definition fracBad (v : float64) : bool := fleb v fzero || fgtb v fone1.

(** The map the source ranges over yields its entries in any order: some bad entry
    is reported. *)
Definition Risk_validate (r : Risk) : res unit :=
  if existsb fracBad [rk_SingleNamePct r; rk_ConcentrationPct r; rk_DailyLossHaltPct r] then Err (ErrComposition "risk out of range (0,1]")
  else if match rk_MaxGrossPct r with Some v => fleb v fzero | None => false end then Err (ErrComposition "risk_max_gross_pct must be > 0")
  else if match rk_MaxPositions r with Some v => v <=? 0 | None => false end then Err (ErrComposition "risk_max_positions must be > 0")
  else Ok tt.

(** The loop over the members: the ids seen and the active sum. *)
Fixpoint memberLoop (seen : list string) (activeSum : float64) (members : list Member) : res float64 :=
  match members with
  | [] => Ok activeSum
  | mem :: rest =>
      if negb (canonicalStrategy (mb_StrategyID mem)) then Err (ErrComposition "unknown strategy_id")
      else if existsb (String.eqb (mb_StrategyID mem)) seen then Err (ErrComposition "duplicate strategy_id")
      else if fracBad (mb_Weight mem) then Err (ErrComposition "weight out of range (0,1]")
      else memberLoop (mb_StrategyID mem :: seen) (if mb_Active mem then fadd activeSum (mb_Weight mem) else activeSum) rest
  end.

Definition Composition_Validate (m : Composition) : res unit :=
  if String.eqb (cm_ID m) "" then Err (ErrComposition "id must be non-empty")
  else if String.eqb (cm_Name m) "" then Err (ErrComposition "name must be non-empty")
  else if fltb (cm_CashPct m) fzero || fgeb (cm_CashPct m) fone1 then Err (ErrComposition "cash_pct out of range [0,1)")
  else
    _ <-? Risk_validate (cm_Risk m) ;;
    match cm_Members m with
    | [] => Err (ErrComposition "must have at least one member")
    | _ =>
        activeSum <-? memberLoop [] (cm_CashPct m) (cm_Members m) ;;
        if fgtb activeSum weightLimit then Err (ErrComposition "active weights + cash_pct exceeds 1.0") else Ok tt
    end.

Definition seedRisk (single conc halt : BinNums.positive) : Risk := mkRisk (flit single 100) (flit conc 100) (flit halt 100) None None.
Definition seedMember (id : string) (weight : BinNums.positive) : Member := mkMember id (flit weight 100) true None.

Definition SeedCompositions : list Composition :=
  [ mkComposition "default-multi" "Default Multi-Strategy" "SEPA + Sector Rotation + Pairs blend (legacy strategy=multi)." (flit 10 100) (seedRisk 50 40 10)
      [seedMember CompStrategySEPA 40; seedMember CompStrategySectorRotation 30; seedMember CompStrategyPairs 20] 1;
    mkComposition "sepa-only" "SEPA Only" "Single-member Composition: SEPA (legacy strategy=sepa)." fzero (seedRisk 20 30 5) [seedMember CompStrategySEPA 100] 1;
    mkComposition "sector-only" "Sector Rotation Only" "Single-member Composition: Sector Rotation (legacy strategy=sector_rotation)." fzero (seedRisk 50 40 10)
      [seedMember CompStrategySectorRotation 100] 1;
    mkComposition "pairs-only" "Pairs Only" "Single-member Composition: Pairs (legacy strategy=pairs)." fzero (seedRisk 20 30 5) [seedMember CompStrategyPairs 100] 1;
    mkComposition "orb-only" "Intraday ORB Only" "Single-member Composition: Intraday Breakout (legacy strategy=intraday_breakout)." fzero (seedRisk 20 30 5)
      [seedMember CompStrategyIntradayBreakout 100] 1 ].

Definition ErrCompNotFound : error := ErrOther "composition: not found".

Definition Seed (id : string) : res Composition :=
  match List.find (fun m => String.eqb (cm_ID m) id) SeedCompositions with
  | Some m => Ok m
  | None => Err ErrCompNotFound
  end.

(** ** typed.go: parameter maps *)

(** A decoded JSON value. *)
Inductive JVal : Set := JNull | JBool (b : bool) | JNum (f : float64) | JStr (s : string) | JList (l : list JVal) | JObject (l : list (string * JVal)).

Definition pmap : Set := gmap string JVal.
Definition ErrParam (msg name : string) : error := ErrOther (msg ++ " " ++ name)%string.

Definition pm_get (m : pmap) (name : string) : res JVal :=
  match m !! name with Some v => Ok v | None => Err (ErrParam "missing parameter" name) end.

Definition pm_float (m : pmap) (name : string) : res float64 :=
  v <-? pm_get m name ;; match v with JNum f => Ok f | _ => Err (ErrParam "expected number" name) end.

Definition pm_integer (m : pmap) (name : string) : res Z :=
  f <-? pm_float m name ;;
  if negb (feqb f (zToFloat (intOfFloat f))) then Err (ErrParam "expected integer" name) else Ok (intOfFloat f).

Definition pm_str (m : pmap) (name : string) : res string :=
  v <-? pm_get m name ;; match v with JStr s => Ok s | _ => Err (ErrParam "expected string" name) end.

Definition pm_list (m : pmap) (name : string) : res (list JVal) :=
  v <-? pm_get m name ;; match v with JList l => Ok l | _ => Err (ErrParam "expected list" name) end.

Fixpoint strElems (name : string) (raw : list JVal) : res (list string) :=
  match raw with
  | [] => Ok []
  | JStr s :: raw => out <-? strElems name raw ;; Ok (s :: out)
  | _ :: _ => Err (ErrParam "expected string in" name)
  end.

Definition pm_strList (m : pmap) (name : string) : res (list string) := raw <-? pm_list m name ;; strElems name raw.

Fixpoint pairElems (name : string) (raw : list JVal) : res (list Pair) :=
  match raw with
  | [] => Ok []
  | JList [l; s] :: raw =>
      match l, s with
      | JStr l, JStr s => out <-? pairElems name raw ;; Ok (mkPair l s :: out)
      | _, _ => Err (ErrParam "legs must be strings in" name)
      end
  | _ :: _ => Err (ErrParam "expected [long, short] pair in" name)
  end.

Definition pm_pairList (m : pmap) (name : string) : res (list Pair) := raw <-? pm_list m name ;; pairElems name raw.

(** ** typed.go: the parameters of the strategies *)

Record SEPAParams : Set := mkSEPAParams {
  pp_RiskPct : float64; pp_MarketCapMinUSD : float64; pp_HardStopPct : float64; pp_PivotBufferPct : float64; pp_BreakoutVolumeMultiple : float64;
  pp_VCPLookback : Z; pp_HistoryMaxBars : Z; pp_Timezone : string
}.

Record PairsParams : Set := mkPairsParams {
  qp_Pairs : list Pair; qp_Lookback : Z; qp_EntryZ : float64; qp_ExitZ : float64; qp_CapitalPerPairPct : float64; qp_Timezone : string
}.

Record SectorRotationParams : Set := mkSectorParams { rp_Universe : list string; rp_MomentumLookback : Z; rp_TopK : Z; rp_Timezone : string }.

Record IntradayBreakoutParams : Set := mkBreakoutParams {
  ip_RiskPct : float64; ip_RangeMinutes : Z; ip_VolMultiple : float64; ip_ProfitTargetR : float64; ip_HardStopPct : float64;
  ip_EODExitTime : string; ip_Timezone : string
}.

Definition ErrBound (field : string) : error := ErrParam "out of range:" field.
Definition require (ok : bool) (field : string) : res unit := if ok then Ok tt else Err (ErrBound field).

Definition SEPAParams_Validate (p : SEPAParams) : res unit :=
  _ <-? require (fgtb (pp_RiskPct p) fzero && fleb (pp_RiskPct p) (zToFloat 100)) "risk_pct" ;;
  require (fgtb (pp_HardStopPct p) fzero) "hard_stop_pct".

Definition sepaFromMap (m : pmap) : res SEPAParams :=
  risk <-? pm_float m "risk_pct" ;;
  cap <-? pm_float m "market_cap_min_usd" ;;
  stop <-? pm_float m "hard_stop_pct" ;;
  buffer <-? pm_float m "pivot_buffer_pct" ;;
  multiple <-? pm_float m "breakout_volume_multiple" ;;
  lookback <-? pm_integer m "vcp_lookback" ;;
  bars <-? pm_integer m "history_max_bars" ;;
  tz <-? pm_str m "timezone" ;;
  let p := mkSEPAParams risk cap stop buffer multiple lookback bars tz in
  _ <-? SEPAParams_Validate p ;; Ok p.

Definition PairsParams_Validate (p : PairsParams) : res unit :=
  _ <-? require (negb (length (qp_Pairs p) =? 0)%nat) "pairs" ;;
  _ <-? require (negb (qp_Lookback p <? 5)) "lookback" ;;
  _ <-? require (negb (fleb (qp_EntryZ p) fzero || fltb (qp_ExitZ p) fzero)) "entry_z, exit_z" ;;
  _ <-? require (negb (fgeb (qp_ExitZ p) (qp_EntryZ p))) "exit_z" ;;
  require (fgtb (qp_CapitalPerPairPct p) fzero && fleb (qp_CapitalPerPairPct p) (zToFloat 1)) "capital_per_pair_pct".

Definition pairsFromMap (m : pmap) : res PairsParams :=
  pairs <-? pm_pairList m "pairs" ;;
  lookback <-? pm_integer m "lookback" ;;
  entry <-? pm_float m "entry_z" ;;
  exit <-? pm_float m "exit_z" ;;
  capital <-? pm_float m "capital_per_pair_pct" ;;
  tz <-? pm_str m "timezone" ;;
  let p := mkPairsParams pairs lookback entry exit capital tz in
  _ <-? PairsParams_Validate p ;; Ok p.

Definition SectorParams_Validate (p : SectorRotationParams) : res unit :=
  _ <-? require (negb (length (rp_Universe p) =? 0)%nat) "universe" ;;
  _ <-? require (negb (rp_MomentumLookback p <? 2)) "momentum_lookback" ;;
  require ((1 <=? rp_TopK p) && (rp_TopK p <=? Z.of_nat (length (rp_Universe p)))) "top_k".

Definition sectorFromMap (m : pmap) : res SectorRotationParams :=
  universe <-? pm_strList m "universe" ;;
  lookback <-? pm_integer m "momentum_lookback" ;;
  k <-? pm_integer m "top_k" ;;
  tz <-? pm_str m "timezone" ;;
  let p := mkSectorParams universe lookback k tz in
  _ <-? SectorParams_Validate p ;; Ok p.

(** [strconv.Atoi]. *)
Definition Atoi (s : list ascii) : res Z :=
  v <-? atoi s ;; if (min_int64 <=? v) && (v <=? max_int64) then Ok v else Err (ErrOther "strconv.Atoi: value out of range").

Fixpoint splitColons (s : list ascii) : list (list ascii) :=
  match s with
  | [] => [[]]
  | c :: s =>
      if Ascii.eqb c ":"%char then [] :: splitColons s
      else match splitColons s with part :: parts => (c :: part) :: parts | [] => [[c]] end
  end.

Definition validateHHMM (s : string) : res unit :=
  match splitColons (list_ascii_of_string s) with
  | [hs; ms] =>
      match Atoi hs, Atoi ms with
      | Ok h, Ok m => require ((0 <=? h) && (h <=? 23) && (0 <=? m) && (m <=? 59)) "eod_exit_time"
      | _, _ => Err (ErrBound "eod_exit_time")
      end
  | _ => Err (ErrBound "eod_exit_time")
  end.

Section Timezones.
Context (LoadLocation : string -> option Location).

Definition BreakoutParams_Validate (p : IntradayBreakoutParams) : res unit :=
  _ <-? require (negb (fleb (ip_RiskPct p) fzero || fgtb (ip_RiskPct p) (zToFloat 100))) "risk_pct" ;;
  _ <-? require (negb (ip_RangeMinutes p <? 1)) "range_minutes" ;;
  _ <-? require (negb (fleb (ip_VolMultiple p) fzero)) "vol_multiple" ;;
  _ <-? require (negb (fleb (ip_ProfitTargetR p) fzero)) "profit_target_r" ;;
  _ <-? require (negb (fleb (ip_HardStopPct p) fzero || fgtb (ip_HardStopPct p) (zToFloat 50))) "hard_stop_pct" ;;
  _ <-? validateHHMM (ip_EODExitTime p) ;;
  require (match LoadLocation (ip_Timezone p) with Some _ => true | None => false end) "timezone".

Definition intradayFromMap (m : pmap) : res IntradayBreakoutParams :=
  risk <-? pm_float m "risk_pct" ;;
  minutes <-? pm_integer m "range_minutes" ;;
  multiple <-? pm_float m "vol_multiple" ;;
  target <-? pm_float m "profit_target_r" ;;
  stop <-? pm_float m "hard_stop_pct" ;;
  eod <-? pm_str m "eod_exit_time" ;;
  tz <-? pm_str m "timezone" ;;
  let p := mkBreakoutParams risk minutes multiple target stop eod tz in
  _ <-? BreakoutParams_Validate p ;; Ok p.
End Timezones.
