(* ===== verification/Assembly.v ===== *)
(** * Strategy assembly (src/internal/engine/strategyassembly, src/internal/runner/assembly.go,
      src/internal/data/universe/live.go)

    From a composition and the parameters of its strategies: the strategies of a
    session over one type of generator states, the risk gate, and the instruments to
    load; the live universe within the subscription quota.  The database is a
    parameter: the loader's results, the market caps, the default universe, the
    context and the warm-up symbols. *)

From Stdlib Require Import SpecFloat.
From stdpp Require Import gmap strings list sorting.
From S2P Require Import Prelude Lists Fixed Money Domain Float64 FloatInt Calendar RiskGate Context Engine LiveSession Indicators Setup Sepa Targets Pairs Sector PyDecimal Orb SepaAdapter Compose.
Set Default Goal Selector "!".
#[local] Open Scope string_scope.
#[local] Open Scope Z_scope.
#[local] Open Scope list_scope.
#[local] Abbreviation length := List.length.

(** ** One state type for the strategies of a session *)

Inductive genState : Set :=
| GSepa (g : Sepa.Generator)
| GSector (g : SectorGenerator)
| GPairs (g : PairsGenerator)
| GOrb (g : OrbGenerator).

Fixpoint mapProg {A B} (f : A -> B) (p : SProg A) : SProg B :=
  match p with
  | SDone st r => SDone (f st) r
  | SSubmitMarket id sym side qty reason ts k => SSubmitMarket id sym side qty reason ts (fun r => mapProg f (k r))
  | SSubmitSignal id sym sside oside qty reason ts k => SSubmitSignal id sym sside oside qty reason ts (fun r => mapProg f (k r))
  | SNetPosition sym k => SNetPosition sym (fun n => mapProg f (k n))
  | SEquityFloat k => SEquityFloat (fun e => mapProg f (k e))
  end.

(** A strategy of the engine over the common type; it only ever sees its own state. *)
Definition liftStrategy {G} (inj : G -> genState) (proj : genState -> option G) (s : Strategy G) : Strategy genState :=
  let on (f : G -> G) st := match proj st with Some g => inj (f g) | None => st end in
  mkStrategy (s_ID s)
    (fun st bar => match proj st with Some g => mapProg inj (s_OnBar s g bar) | None => SDone st None end)
    ((fun h ctx => on (h ctx)) <$> s_InjectContext s) (s_SymbolsScoped s)
    ((fun h sym bars => on (h sym bars)) <$> s_WarmupBars s) ((fun h bars => on (h bars)) <$> s_WarmupBatch s).

Abbreviation Prebuilt := (Strategy genState * genState)%type.

Definition asSepa (st : genState) : option Sepa.Generator := match st with GSepa g => Some g | _ => None end.
Definition asSector (st : genState) : option SectorGenerator := match st with GSector g => Some g | _ => None end.
Definition asPairs (st : genState) : option PairsGenerator := match st with GPairs g => Some g | _ => None end.
Definition asOrb (st : genState) : option OrbGenerator := match st with GOrb g => Some g | _ => None end.

(** ** strategyassembly/assembly.go *)

Definition IDSEPA : string := "SEPA-UNIVERSE-001".
Definition IDSector : string := "SectorRotation-001".
Definition IDPairs : string := "Pairs-001".
Definition IDORB : string := "IntradayBreakoutRunner-000".

Definition ErrAssembly (msg : string) : error := ErrOther ("strategyassembly: " ++ msg)%string.

Definition engineID (strategyID : string) : res string :=
  if String.eqb strategyID CompStrategySEPA then Ok IDSEPA
  else if String.eqb strategyID CompStrategySectorRotation then Ok IDSector
  else if String.eqb strategyID CompStrategyPairs then Ok IDPairs
  else if String.eqb strategyID CompStrategyIntradayBreakout then Ok IDORB
  else Err (ErrAssembly "unknown strategy id").

(** The late-bound equity: the fallback until a source is bound. *)
Record LiveEquity : Type := mkLiveEquity { le_fallback : float64; le_fn : option (unit -> float64) }.
Definition NewLiveEquity (fallback : float64) : LiveEquity := mkLiveEquity fallback None.
Definition le_Get (le : LiveEquity) : float64 := match le_fn le with Some fn => fn tt | None => le_fallback le end.
Definition le_bind (fn : unit -> float64) (le : LiveEquity) : LiveEquity := mkLiveEquity (le_fallback le) (Some fn).

Record StrategyParamSet : Set := mkParamSet { ps_SEPA : SEPAParams; ps_Sector : SectorRotationParams; ps_Pairs : PairsParams; ps_ORB : IntradayBreakoutParams }.

Record AssemblyInputs : Set := mkInputs {
  ai_Composition : Composition;
  ai_StartingBalance : float64;
  ai_Params : StrategyParamSet;
  ai_SEPAStocks : list string;
  ai_ORBSymbol : string;
  ai_Context : option ContextProvider;
  ai_SPYSymbol : string
}.

Record Assembly : Type := mkAssembly {
  as_Strategies : list Prebuilt;
  as_Gate : Gate;
  as_Context : option ContextProvider;
  as_SPYSymbol : string;
  as_ExtraTickers : list string;
  as_equity : LiveEquity
}.

(** The entries of a list but for empty ones and repetitions, in order. *)
Fixpoint dedupLoop (seen : list string) (l : list string) : list string :=
  match l with
  | [] => []
  | s :: l =>
      if String.eqb s "" then dedupLoop seen l
      else if existsb (String.eqb s) seen then dedupLoop seen l
      else s :: dedupLoop (s :: seen) l
  end.
Definition dedupKeepOrder (l : list string) : list string := dedupLoop [] l.

Definition sepaConfigOf (p : SEPAParams) (sym : string) : SepaConfig :=
  Sepa.mkConfig sym true (pp_RiskPct p) (pp_MarketCapMinUSD p) (pp_HardStopPct p) (pp_PivotBufferPct p) (pp_BreakoutVolumeMultiple p)
    (pp_VCPLookback p) (pp_HistoryMaxBars p) (pp_Timezone p).

Fixpoint buildSEPALoop (p : SEPAParams) (stocks : list string) : res (list Prebuilt) :=
  match stocks with
  | [] => Ok []
  | sym :: stocks =>
      gen <-? NewGenerator (sepaConfigOf p sym) ;;
      adapter <-? NewSepaAdapter IDSEPA gen ;;
      out <-? buildSEPALoop p stocks ;;
      Ok ((liftStrategy GSepa asSepa adapter, GSepa gen) :: out)
  end.

Definition buildSEPA (p : SEPAParams) (stocks : list string) : res (list Prebuilt) :=
  match stocks with
  | [] => Err (ErrAssembly "sepa needs at least one stock")
  | _ => buildSEPALoop p stocks
  end.

Definition sectorConfigOf (p : SectorRotationParams) : SectorConfig :=
  mkSectorConfig true (rp_Universe p) (rp_MomentumLookback p) (rp_TopK p) (rp_Timezone p).

Definition buildSector (p : SectorRotationParams) (eq : LiveEquity) : res (Prebuilt * list string) :=
  gen <-? NewSector (sectorConfigOf p) ;;
  adp <-? NewSectorAdapter IDSector (le_Get eq) gen ;;
  Ok ((liftStrategy GSector asSector adp, GSector gen), rp_Universe p).

Definition pairsConfigOf (p : PairsParams) : PairsConfig :=
  mkPairsConfig true (qp_Pairs p) (qp_Lookback p) (qp_EntryZ p) (qp_ExitZ p) (qp_CapitalPerPairPct p) (qp_Timezone p).

(** The legs as a sorted set. *)
Definition legSet (prs : list Pair) : list string :=
  merge_sort String.le (elements (list_to_set (pairLegs prs) : gset string)).

Definition buildPairs (p : PairsParams) (eq : LiveEquity) : res (Prebuilt * list string) :=
  gen <-? NewPairs (pairsConfigOf p) ;;
  adp <-? NewPairsAdapter IDPairs (le_Get eq) gen ;;
  Ok ((liftStrategy GPairs asPairs adp, GPairs gen), legSet (qp_Pairs p)).

Section Database.
Context (LoadLocation : string -> option Location).

Definition orbConfigOf (p : IntradayBreakoutParams) (symbol : string) : OrbConfig :=
  mkOrbConfig symbol true (ip_RiskPct p) (ip_RangeMinutes p) (ip_VolMultiple p) (ip_ProfitTargetR p) (ip_HardStopPct p) (ip_EODExitTime p) (ip_Timezone p).

Definition buildORB (p : IntradayBreakoutParams) (symbol : string) : res Prebuilt :=
  if String.eqb symbol "" then Err (ErrAssembly "orb needs an instrument symbol")
  else
    gen <-? NewOrb LoadLocation (orbConfigOf p symbol) ;;
    adp <-? NewOrbAdapter IDORB gen ;;
    Ok (liftStrategy GOrb asOrb adp, GOrb gen).

Definition buildGate (allocs : list StrategyAllocation) (risk : Risk) : res Gate :=
  alloc <-? NewAllocator allocs ;;
  rc <-? NewRiskConstraints (mkRiskConfig (rk_SingleNamePct risk) (rk_ConcentrationPct risk) (rk_DailyLossHaltPct risk)) ;;
  Ok (mkGate alloc rc).

(** What the loop over the members collects. *)
Record wired : Type := mkWired { wi_strats : list Prebuilt; wi_allocs : list StrategyAllocation; wi_universe : list string; wi_legs : list string }.

Definition wireMember (inp : AssemblyInputs) (eq : LiveEquity) (mem : Member) (w : wired) : res wired :=
  if negb (mb_Active mem) then Ok w
  else
    id <-? engineID (mb_StrategyID mem) ;;
    let allocs := wi_allocs w ++ [mkAllocation id (mb_Weight mem)] in
    let params := ai_Params inp in
    if String.eqb (mb_StrategyID mem) CompStrategySEPA then
      ss <-? buildSEPA (ps_SEPA params) (ai_SEPAStocks inp) ;;
      Ok (mkWired (wi_strats w ++ ss) allocs (wi_universe w) (wi_legs w))
    else if String.eqb (mb_StrategyID mem) CompStrategySectorRotation then
      r <-? buildSector (ps_Sector params) eq ;;
      Ok (mkWired (wi_strats w ++ [r.1]) allocs r.2 (wi_legs w))
    else if String.eqb (mb_StrategyID mem) CompStrategyPairs then
      r <-? buildPairs (ps_Pairs params) eq ;;
      Ok (mkWired (wi_strats w ++ [r.1]) allocs (wi_universe w) r.2)
    else if String.eqb (mb_StrategyID mem) CompStrategyIntradayBreakout then
      s <-? buildORB (ps_ORB params) (ai_ORBSymbol inp) ;;
      Ok (mkWired (wi_strats w ++ [s]) allocs (wi_universe w) (wi_legs w ++ [ai_ORBSymbol inp]))
    else Ok (mkWired (wi_strats w) allocs (wi_universe w) (wi_legs w)).

Fixpoint wireMembers (inp : AssemblyInputs) (eq : LiveEquity) (members : list Member) (w : wired) : res wired :=
  match members with
  | [] => Ok w
  | mem :: members => w <-? wireMember inp eq mem w ;; wireMembers inp eq members w
  end.

Definition assembleFromComposition (inp : AssemblyInputs) : res Assembly :=
  _ <-? Composition_Validate (ai_Composition inp) ;;
  let spy := if String.eqb (ai_SPYSymbol inp) "" then "SPY" else ai_SPYSymbol inp in
  let eq := NewLiveEquity (ai_StartingBalance inp) in
  w <-? wireMembers inp eq (cm_Members (ai_Composition inp)) (mkWired [] [] [] []) ;;
  gate <-? buildGate (wi_allocs w) (cm_Risk (ai_Composition inp)) ;;
  let extra := (match ai_Context inp with Some _ => [spy] | None => [] end) ++ wi_universe w ++ wi_legs w in
  Ok (mkAssembly (wi_strats w) gate (ai_Context inp) spy (dedupKeepOrder extra) eq).

Definition Assemble (inp : AssemblyInputs) : res Assembly := assembleFromComposition inp.
End Database.

(** ** universe/live.go *)

Definition DefaultLiveUniverseLimit : Z := 85.
Definition SubscriptionSafetyMargin : Z := 5.

Definition sectorETFs : list string := ["XLK"; "XLF"; "XLE"; "XLV"; "XLY"; "XLP"; "XLU"; "XLB"; "XLI"; "XLRE"; "XLC"].
Definition ExcludedTickers : list string := "SPY" :: sectorETFs.

(** [getenv] of the limit, after trimming. *)
Definition ResolveUniverseLimit (raw : string) : res Z :=
  if String.eqb raw "" then Ok DefaultLiveUniverseLimit
  else match Atoi (list_ascii_of_string raw) with Ok n => Ok n | Err _ => Err (ErrOther "TMS_LIVE_UNIVERSE_LIMIT must be an integer") end.

Definition byCap (lookup : string -> float64) (a b : string) : bool := fgtb (lookup a) (lookup b).

Definition ApplyUniverseLimit (tickers : list string) (lookup : string -> float64) (limit : Z) : list string :=
  if (limit <=? 0) || (length tickers =? 0)%nat then []
  else if Z.of_nat (length tickers) <=? limit then tickers
  else firstn (Z.to_nat limit) (sliceStable (byCap lookup) tickers).

Record LiveSubscriptionSet : Set := mkSubscriptionSet {
  ls_Fixed : list string; ls_SEPA : list string; ls_SEPALimit : Z; ls_All : list string; ls_Cap : Z; ls_Budget : Z
}.

Definition dedupeSorted (l : list string) : list string := merge_sort String.le (dedupKeepOrder l).

(** The screened names outside the fixed baskets, in order. *)
Definition sepaOnly (fixed sepa : list string) : list string :=
  List.filter (fun t => negb (existsb (String.eqb t) fixed)) (dedupKeepOrder sepa).

Definition ResolveLiveSubscriptionSet (fixed sepa : list string) (lookup : string -> float64) (openDCap : Z) : LiveSubscriptionSet :=
  let distinctFixed := dedupeSorted fixed in
  let budget := Z.max (openDCap - SubscriptionSafetyMargin) 0 in
  let sepaSlot := Z.max (budget - Z.of_nat (length distinctFixed)) 0 in
  let capped := ApplyUniverseLimit (sepaOnly distinctFixed sepa) lookup sepaSlot in
  mkSubscriptionSet distinctFixed capped sepaSlot (merge_sort String.le (distinctFixed ++ capped)) openDCap budget.

(** ** runner/assembly.go *)

Definition sepaWarmupCalendarDays : Z := 400.

(** [math.Ceil]. *)
Definition fceil (f : float64) : float64 := fneg (ffloor (fneg f)).

(** [int(math.Ceil(float64(n) * 1.55)) + 10]. *)
Definition tradingDaysToCalendarDays (tradingDays : Z) : Z :=
  if tradingDays <=? 0 then 0 else intOfFloat (fceil (fmul (zToFloat tradingDays) (flit 155 100))) + 10.
Definition sectorWarmupCalendarDays (momentumLookback : Z) : Z := tradingDaysToCalendarDays (momentumLookback + 1 + 63).
Definition pairsWarmupCalendarDays (lookback : Z) : Z := tradingDaysToCalendarDays (lookback + 20).

Definition unionTickers (first second : list string) : list string := dedupLoop [] (first ++ second).

Definition ErrRunner (msg : string) : error := ErrOther ("runner: " ++ msg)%string.

Definition seedCompositionForStrategy (strategy : string) : res Composition :=
  if String.eqb strategy "multi" then Seed "default-multi"
  else if String.eqb strategy "sepa" then Seed "sepa-only"
  else if String.eqb strategy "sector_rotation" then Seed "sector-only"
  else if String.eqb strategy "pairs" then Seed "pairs-only"
  else if String.eqb strategy "orb" then Seed "orb-only"
  else Err (ErrRunner "no seed composition for strategy").

Record AssemblyInput : Set := mkAssemblyInput {
  in_Strategy : string; in_Tickers : list string; in_ORBSymbol : string; in_StartingBalance : float64; in_SubscriptionCap : Z; in_UniverseLimit : Z
}.

Record Assembled : Type := mkAssembled {
  ad_Assembly : Assembly; ad_Tickers : list string; ad_WarmupSymbols : list string; ad_WarmupBatchSymbols : list string; ad_WarmupCalendarDays : Z
}.

(** The assembler's view of the database. *)
Record AssemblerDB : Type := mkAssemblerDB {
  db_SEPA : res SEPAParams;
  db_Sector : res SectorRotationParams;
  db_Pairs : res PairsParams;
  db_ORB : res IntradayBreakoutParams;
  db_Universe : res (list string);
  db_MarketCaps : list string -> res (gmap string float64);
  db_Context : list string -> res (option ContextProvider);
  db_Warmup : list string -> res (list string)
}.

Section Runner.
Context (LoadLocation : string -> option Location) (db : AssemblerDB).

Definition resolveFixedBaskets (strategy spy : string) : res (list string) :=
  if negb (String.eqb strategy "multi") then Ok [spy]
  else
    sp <-? db_Sector db ;;
    pp <-? db_Pairs db ;;
    Ok ([spy] ++ rp_Universe sp ++ pairLegs (qp_Pairs pp)).

Definition capSEPAUniverse (fixed sepa : list string) (openDCap envLimit : Z) : res (list string) :=
  caps <-? db_MarketCaps db sepa ;;
  let lookup t := default fzero (caps !! t) in
  let capped := ls_SEPA (ResolveLiveSubscriptionSet fixed sepa lookup openDCap) in
  Ok (if (0 <? envLimit) && (envLimit <? Z.of_nat (length capped)) then ApplyUniverseLimit capped lookup envLimit else capped).

Definition needsStocks (strategy : string) : bool := String.eqb strategy "sepa" || String.eqb strategy "multi".

(** The stocks: those given, else the default universe. *)
Definition resolveTickers (inp : AssemblyInput) : res (list string) :=
  if needsStocks (in_Strategy inp) && (length (in_Tickers inp) =? 0)%nat then
    def <-? db_Universe db ;;
    match def with [] => Err (ErrRunner "the default universe is empty") | _ => Ok def end
  else Ok (in_Tickers inp).

(** The cap of a live session. *)
Definition capTickers (inp : AssemblyInput) (spy : string) (tickers : list string) : res (list string) :=
  if (0 <? in_SubscriptionCap inp) && needsStocks (in_Strategy inp) && (0 <? length tickers)%nat then
    fixed <-? resolveFixedBaskets (in_Strategy inp) spy ;;
    capSEPAUniverse fixed tickers (in_SubscriptionCap inp) (in_UniverseLimit inp)
  else Ok tickers.

Definition noSEPA : SEPAParams := mkSEPAParams fzero fzero fzero fzero fzero 0 0 "".
Definition noSector : SectorRotationParams := mkSectorParams [] 0 0 "".
Definition noPairs : PairsParams := mkPairsParams [] 0 fzero fzero fzero "".
Definition noORB : IntradayBreakoutParams := mkBreakoutParams fzero 0 fzero fzero fzero "" "".

(** The switch on the strategy: parameters, context, warm-up symbols, the batch
    horizon and the breakout symbol. *)
Definition resolveStrategy (inp : AssemblyInput) (tickers : list string)
    : res (StrategyParamSet * option ContextProvider * list string * Z * string) :=
  let orb := in_ORBSymbol inp in
  if String.eqb (in_Strategy inp) "sepa" then
    p <-? db_SEPA db ;; ctx <-? db_Context db tickers ;; warm <-? db_Warmup db tickers ;;
    Ok (mkParamSet p noSector noPairs noORB, ctx, warm, 0, orb)
  else if String.eqb (in_Strategy inp) "sector_rotation" then
    p <-? db_Sector db ;; Ok (mkParamSet noSEPA p noPairs noORB, None, [], sectorWarmupCalendarDays (rp_MomentumLookback p), orb)
  else if String.eqb (in_Strategy inp) "pairs" then
    p <-? db_Pairs db ;; Ok (mkParamSet noSEPA noSector p noORB, None, [], pairsWarmupCalendarDays (qp_Lookback p), orb)
  else if String.eqb (in_Strategy inp) "orb" then
    sym <-? (if negb (String.eqb orb "") then Ok orb else match tickers with [t] => Ok t | _ => Err (ErrRunner "orb strategy requires an orb symbol") end) ;;
    p <-? db_ORB db ;; Ok (mkParamSet noSEPA noSector noPairs p, None, [], 0, sym)
  else
    p <-? db_SEPA db ;; sp <-? db_Sector db ;; pp <-? db_Pairs db ;;
    ctx <-? db_Context db tickers ;; warm <-? db_Warmup db tickers ;;
    Ok (mkParamSet p sp pp noORB, ctx, warm,
        Z.max (sectorWarmupCalendarDays (rp_MomentumLookback sp)) (pairsWarmupCalendarDays (qp_Lookback pp)), orb).

Definition Assembler_Assemble (inp : AssemblyInput) : res Assembled :=
  if negb (existsb (String.eqb (in_Strategy inp)) ["sepa"; "sector_rotation"; "pairs"; "orb"; "multi"]) then Err (ErrRunner "unsupported strategy")
  else
    let spy := "SPY" in
    tickers <-? resolveTickers inp ;;
    tickers <-? capTickers inp spy tickers ;;
    comp <-? seedCompositionForStrategy (in_Strategy inp) ;;
    r <-? resolveStrategy inp tickers ;;
    let '(params, ctx, warm, batchDays, orb) := r in
    asm <-? Assemble LoadLocation (mkInputs comp (in_StartingBalance inp) params tickers orb ctx spy) ;;
    Ok (mkAssembled asm (unionTickers (as_ExtraTickers asm) tickers) warm (if 0 <? batchDays then as_ExtraTickers asm else []) batchDays).
End Runner.

(** ** Lists of names *)

Lemma existsb_str s l : existsb (String.eqb s) l = true <-> In s l.
Proof. rewrite existsb_exists. split; [intros (x & Hx & E); apply String.eqb_eq in E; by subst|intros H; exists s; split; [done|apply String.eqb_refl]]. Qed.

Lemma existsb_str_false s l : existsb (String.eqb s) l = false <-> ~ In s l.
Proof. rewrite <- existsb_str. by destruct (existsb _ _). Qed.

Lemma dedupLoop_spec l : forall seen, List.NoDup (dedupLoop seen l) /\ forall s, In s (dedupLoop seen l) <-> In s l /\ s <> "" /\ ~ In s seen.
Proof.
  induction l as [|x l IH]; intros seen; cbn [dedupLoop]; [split; [constructor|cbn; tauto]|].
  destruct (String.eqb_spec x "") as [->|Hx].
  - destruct (IH seen) as [H1 H2]. split; [done|]. intros s. rewrite H2. cbn. split; [intros (? & ? & ?); auto|]. intros ([<-|?] & ? & ?); [done|auto].
  - destruct (existsb (String.eqb x) seen) eqn:E.
    + apply existsb_str in E. destruct (IH seen) as [H1 H2]. split; [done|]. intros s. rewrite H2. cbn. split; [tauto|]. intros ([->|?] & ? & ?); [done|done].
    + apply existsb_str_false in E. destruct (IH (x :: seen)) as [H1 H2]. split.
      * constructor; [|done]. rewrite H2. cbn. tauto.
      * intros s. cbn [In]. rewrite H2. cbn [In]. split; [intros [->|(? & ? & ?)]; tauto|]. intros ([->|?] & ? & ?); [by left|].
        destruct (decide (x = s)) as [->|]; [by left|right; tauto].
Qed.

Lemma dedup_NoDup l : List.NoDup (dedupKeepOrder l).
Proof. apply dedupLoop_spec. Qed.
Lemma dedup_In l s : In s (dedupKeepOrder l) <-> In s l /\ s <> "".
Proof. unfold dedupKeepOrder. rewrite (proj2 (dedupLoop_spec l [])). cbn. tauto. Qed.

Lemma sortStrings_perm l : Permutation (merge_sort String.le l) l.
Proof. apply merge_sort_Permutation. Qed.

Lemma dedupeSorted_NoDup l : List.NoDup (dedupeSorted l).
Proof. unfold dedupeSorted. eapply Permutation_NoDup; [symmetry; apply sortStrings_perm|apply dedup_NoDup]. Qed.
Lemma dedupeSorted_In l s : In s (dedupeSorted l) <-> In s l /\ s <> "".
Proof.
  unfold dedupeSorted. rewrite <- dedup_In. split; apply Permutation_in; [apply sortStrings_perm|symmetry; apply sortStrings_perm].
Qed.

Lemma sepaOnly_NoDup fixed sepa : List.NoDup (sepaOnly fixed sepa).
Proof. apply List.NoDup_filter, dedup_NoDup. Qed.
Lemma sepaOnly_In fixed sepa t : In t (sepaOnly fixed sepa) <-> In t sepa /\ t <> "" /\ ~ In t fixed.
Proof.
  unfold sepaOnly. rewrite filter_In, dedup_In, negb_true_iff, existsb_str_false. tauto.
Qed.

(** ** The largest names *)

Lemma ApplyUniverseLimit_len tickers lookup limit : Z.of_nat (length (ApplyUniverseLimit tickers lookup limit)) <= Z.max limit 0.
Proof.
  unfold ApplyUniverseLimit. destruct (Z.leb_spec limit 0); cbn [orb]; [cbn; lia|]. destruct (_ =? 0)%nat; [cbn; lia|].
  destruct (Z.leb_spec (Z.of_nat (length tickers)) limit); [lia|]. rewrite length_firstn. lia.
Qed.

Lemma ApplyUniverseLimit_sub tickers lookup limit t : In t (ApplyUniverseLimit tickers lookup limit) -> In t tickers.
Proof.
  unfold ApplyUniverseLimit. destruct (_ || _); [done|]. destruct (_ <=? _); [done|]. intros H.
  apply (Permutation_in t (sliceStable_perm (byCap lookup) tickers)). rewrite <- (firstn_skipn (Z.to_nat limit)). apply in_or_app. by left.
Qed.

Lemma NoDup_firstn {A} n (l : list A) : List.NoDup l -> List.NoDup (firstn n l).
Proof. intros H. rewrite <- (firstn_skipn n l) in H. by apply List.NoDup_app_remove_r in H. Qed.

Lemma ApplyUniverseLimit_NoDup tickers lookup limit : List.NoDup tickers -> List.NoDup (ApplyUniverseLimit tickers lookup limit).
Proof.
  intros H. unfold ApplyUniverseLimit. destruct (_ || _); [constructor|]. destruct (_ <=? _); [done|].
  apply NoDup_firstn. eapply Permutation_NoDup; [symmetry; apply sliceStable_perm|done].
Qed.

(** No name left out is larger than one that is kept. *)
Lemma ApplyUniverseLimit_largest tickers lookup limit s t : (forall x, isNaN (lookup x) = false) -> List.NoDup tickers ->
  In s (ApplyUniverseLimit tickers lookup limit) -> In t tickers -> ~ In t (ApplyUniverseLimit tickers lookup limit) -> fltb (lookup s) (lookup t) = false.
Proof.
  intros Hn Hd Hs Ht Hout. unfold ApplyUniverseLimit in *. destruct (_ || _); [done|]. destruct (_ <=? _); [done|].
  assert (Hsorted : Sorted.StronglySorted (rankedBefore (byReturn lookup) (indexOf tickers)) (sliceStable (byReturn lookup) tickers)).
  { apply (sliceStable_sorted _ _ (fun x => isNaN (lookup x) = false)); [apply byReturn_asym|apply byReturn_trans|by apply List.Forall_forall|].
    by apply indexOf_sorted, NoDup_ListNoDup. }
  change (byCap lookup) with (byReturn lookup) in *. set (ranked := sliceStable _ _) in *. set (n := Z.to_nat limit) in *.
  assert (Hin : In t ranked) by (eapply Permutation_in; [symmetry; apply sliceStable_perm|done]).
  rewrite <- (firstn_skipn n ranked) in Hin. apply in_app_or in Hin as [?|Hin]; [done|].
  destruct (sorted_cut _ n ranked Hsorted s t) as [H _]; [by apply list_elem_of_In..|]. exact H.
Qed.

(** Names are only left out when every slot is taken. *)
Lemma ApplyUniverseLimit_full tickers lookup limit t : In t tickers -> ~ In t (ApplyUniverseLimit tickers lookup limit) ->
  Z.of_nat (length (ApplyUniverseLimit tickers lookup limit)) = Z.max limit 0.
Proof.
  intros Ht Hout. unfold ApplyUniverseLimit in *. destruct (Z.leb_spec limit 0); cbn [orb] in *; [cbn; lia|]. destruct (Nat.eqb_spec (length tickers) 0); [by destruct tickers|].
  destruct (Z.leb_spec (Z.of_nat (length tickers)) limit); [done|]. rewrite length_firstn, (Permutation_length (sliceStable_perm _ tickers)). lia.
Qed.

(** The live subscription set fits the quota and keeps the largest names.  Whatever
    the fixed baskets and the screened universe, the set has no duplicates, holds every
    fixed instrument and otherwise only screened names; it exceeds the broker's cap
    less the safety margin only if the fixed baskets alone do; a screened name is left
    out only when every slot is taken, and then no admitted name has a smaller market
    cap. *)
Theorem subscription_fits_quota (fixed sepa : list string) (lookup : string -> float64) (openDCap : Z) (Hcaps : forall t, isNaN (lookup t) = false) :
  let set := ResolveLiveSubscriptionSet fixed sepa lookup openDCap in
  List.NoDup (ls_All set) /\
  (forall t, In t (ls_All set) <-> In t (ls_Fixed set) \/ In t (ls_SEPA set)) /\
  (forall t, In t (ls_Fixed set) <-> In t fixed /\ t <> "") /\
  (forall t, In t (ls_SEPA set) -> In t sepa /\ ~ In t fixed) /\
  Z.of_nat (length (ls_All set)) <= Z.max (openDCap - SubscriptionSafetyMargin) (Z.of_nat (length (ls_Fixed set))) /\
  (forall t, In t sepa -> t <> "" -> ~ In t (ls_All set) ->
     openDCap - SubscriptionSafetyMargin <= Z.of_nat (length (ls_All set)) /\
     forall s, In s (ls_SEPA set) -> fltb (lookup s) (lookup t) = false).
Proof.
  cbv zeta. unfold ResolveLiveSubscriptionSet. cbn [ls_All ls_Fixed ls_SEPA]. set (fx := dedupeSorted fixed). set (budget := Z.max (openDCap - SubscriptionSafetyMargin) 0). set (slot := Z.max (budget - _) 0).
  set (names := sepaOnly fx sepa). set (capped := ApplyUniverseLimit names lookup slot).
  pose proof (sortStrings_perm (fx ++ capped)) as Hp.
  assert (Hsub : forall t, In t capped -> In t sepa /\ t <> "" /\ ~ In t fx) by (intros t H; by apply (ApplyUniverseLimit_sub names), sepaOnly_In in H).
  assert (Hlen : Z.of_nat (length (fx ++ capped)) <= Z.max (openDCap - SubscriptionSafetyMargin) (Z.of_nat (length fx))).
  { rewrite length_app, Nat2Z.inj_add. pose proof (ApplyUniverseLimit_len names lookup slot) as H. fold capped in H. unfold slot, budget in *. lia. }
  rewrite (Permutation_length Hp). assert (Hin : forall t, In t (merge_sort String.le (fx ++ capped)) <-> In t fx \/ In t capped).
  { intros t. rewrite <- in_app_iff. split; apply Permutation_in; [done|by symmetry]. }
  splits; [|done|apply dedupeSorted_In| |done|].
  - eapply Permutation_NoDup; [symmetry; exact Hp|]. apply List.NoDup_app; [apply dedupeSorted_NoDup|apply ApplyUniverseLimit_NoDup, sepaOnly_NoDup|].
    intros t H1 H2. by apply Hsub in H2 as (_ & _ & ?).
  - intros t H. apply Hsub in H as (H1 & H2 & H3). split; [done|]. intros H4. apply H3. by apply dedupeSorted_In.
  - intros t Ht Hne Hout. rewrite Hin in Hout. assert (Hnm : In t names) by (apply sepaOnly_In; tauto). assert (Hc : ~ In t capped) by tauto. split.
    + pose proof (ApplyUniverseLimit_full names lookup slot t Hnm Hc) as H. fold capped in H. rewrite length_app, Nat2Z.inj_add, H. unfold slot, budget. lia.
    + intros s Hs. apply (ApplyUniverseLimit_largest names lookup slot s t Hcaps); [apply sepaOnly_NoDup|done|done|done].
Qed.

Lemma subscription_fits_quota_witness :
  let lookup t := if String.eqb t "BIG" then zToFloat 3 else if String.eqb t "MID" then zToFloat 2 else fzero in
  let set := ResolveLiveSubscriptionSet ["SPY"; "KO"; "SPY"] ["SMALL"; "KO"; "MID"; "BIG"] lookup 9 in
  ls_All set = ["BIG"; "KO"; "MID"; "SPY"] /\ Z.of_nat (length (ls_All set)) <= Z.max (9 - SubscriptionSafetyMargin) (Z.of_nat (length (ls_Fixed set))).
Proof.
  intros lookup set. split; [vm_compute; reflexivity|].
  apply (subscription_fits_quota ["SPY"; "KO"; "SPY"] ["SMALL"; "KO"; "MID"; "BIG"] lookup 9).
  intros t. unfold lookup. destruct (String.eqb t "BIG"); [reflexivity|]. destruct (String.eqb t "MID"); reflexivity.
Defined.

(** ** The allocator of the gate *)

Lemma allocLoop_spec allocs : forall table total table' total', allocLoop table total allocs = Ok (table', total') ->
  (forall id w, table !! id = Some w -> table' !! id = Some w) /\
  (forall a, In a allocs -> table' !! al_StrategyID a = Some (al_CapitalPct a)) /\
  (forall id w, table' !! id = Some w -> table !! id = Some w \/ In (mkAllocation id w) allocs).
Proof.
  induction allocs as [|a allocs IH]; intros table total table' total' H; cbn [allocLoop] in H.
  - injection H as <- <-. splits; [done|done|by left].
  - destruct (table !! al_StrategyID a) eqn:E; [done|]. destruct (negb _); [done|]. apply IH in H as (H1 & H2 & H3). splits.
    + intros id w Hw. apply H1. rewrite lookup_insert_ne; [done|]. intros <-. congruence.
    + intros a' [<-|Ha]; [|by apply H2]. apply H1. by rewrite lookup_insert_eq.
    + intros id w Hw. apply H3 in Hw as [Hw|Hw]; [|by right; right]. destruct (decide (al_StrategyID a = id)) as [<-|Hne].
      * rewrite lookup_insert_eq in Hw. injection Hw as <-. right. left. by destruct a.
      * rewrite lookup_insert_ne in Hw by done. by left.
Qed.

Lemma NewAllocator_spec allocs table : NewAllocator allocs = Ok table -> forall id w, table !! id = Some w <-> In (mkAllocation id w) allocs.
Proof.
  unfold NewAllocator. destruct allocs as [|a allocs]; [done|]. set (l := a :: allocs). intros H id w. bind_inv.
  match goal with H : allocLoop _ _ _ = Ok ?r |- _ => destruct r as [t tot]; apply allocLoop_spec in H as (_ & H2 & H3) end.
  destruct (fltb _ _); [done|]. simplify_eq. split; [|intros Hin; apply (H2 _ Hin)]. intros Hw. by apply H3 in Hw as [Hw|Hw].
Qed.

(** ** What the members wire *)

Definition activeMembers (members : list Member) : list Member := List.filter mb_Active members.

(** The engine id of a member. *)
Definition runsAs (mem : Member) (id : string) : Prop := engineID (mb_StrategyID mem) = Ok id.

(** An active breakout member stands before an active pairs member. *)
Definition orbBeforePairs (members : list Member) : Prop :=
  exists l1 m1 l2 m2 l3, activeMembers members = l1 ++ m1 :: l2 ++ m2 :: l3 /\
    mb_StrategyID m1 = CompStrategyIntradayBreakout /\ mb_StrategyID m2 = CompStrategyPairs.

Section Wiring.
Context (LoadLocation : string -> option Location) (inp : AssemblyInputs) (eq : LiveEquity).

(** The strategies of one engine id, and the names they subscribe. *)
Definition scopes (s : Prebuilt) (syms : list string) : Prop := s_SymbolsScoped s.1 = Some syms.

Definition sepaBuilt (s : Prebuilt) : Prop := s_ID s.1 = IDSEPA /\ exists sym, In sym (ai_SEPAStocks inp) /\ scopes s [sym].
Definition sectorBuilt (s : Prebuilt) : Prop := s_ID s.1 = IDSector /\ scopes s (rp_Universe (ps_Sector (ai_Params inp))).
Definition pairsBuilt (s : Prebuilt) : Prop :=
  s_ID s.1 = IDPairs /\ exists syms, scopes s syms /\ forall x, In x syms -> In x (legSet (qp_Pairs (ps_Pairs (ai_Params inp)))).
Definition orbBuilt (s : Prebuilt) : Prop := s_ID s.1 = IDORB /\ scopes s [ai_ORBSymbol inp].

Lemma buildSEPALoop_spec p stocks : forall out, buildSEPALoop p stocks = Ok out ->
  length out = length stocks /\ Forall (fun s : Prebuilt => s_ID s.1 = IDSEPA /\ exists sym, In sym stocks /\ scopes s [sym]) out.
Proof.
  induction stocks as [|sym stocks IH]; intros out H; cbn [buildSEPALoop] in H; [injection H as <-; by split|]. bind_inv.
  match goal with H : NewGenerator _ = Ok ?g |- _ => apply NewGenerator_ok in H as [[Hc _ _] _] end.
  match goal with H : NewSepaAdapter _ _ = Ok _ |- _ => unfold NewSepaAdapter in H; cbn in H; injection H as <- end.
  match goal with H : buildSEPALoop _ _ = Ok _ |- _ => destruct (IH _ H) as [Hl Hf] end. simplify_eq. split; [cbn; lia|]. constructor.
  - split; [done|]. exists sym. split; [by left|]. unfold scopes. cbn. by rewrite Hc.
  - refine (List.Forall_impl _ _ Hf). intros s (H1 & sym' & H2 & H3). split; [done|]. exists sym'. split; [by right|done].
Qed.

Lemma buildSEPA_spec out : buildSEPA (ps_SEPA (ai_Params inp)) (ai_SEPAStocks inp) = Ok out -> out <> [] /\ Forall sepaBuilt out.
Proof.
  unfold buildSEPA. intros H. destruct (ai_SEPAStocks inp) as [|sym stocks] eqn:E; [done|]. apply buildSEPALoop_spec in H as [Hl Hf]. rewrite <- E in *.
  split; [|done]. intros ->. by rewrite E in Hl.
Qed.

Lemma buildSector_spec s uni : buildSector (ps_Sector (ai_Params inp)) eq = Ok (s, uni) -> sectorBuilt s /\ uni = rp_Universe (ps_Sector (ai_Params inp)).
Proof.
  unfold buildSector, NewSector, NewSectorAdapter. intros H. bind_inv. cbn in *. simplify_eq. split; [|done]. by split.
Qed.

Lemma legSet_In prs x : In x (legSet prs) <-> In x (pairLegs prs).
Proof.
  unfold legSet. rewrite <- !list_elem_of_In. rewrite merge_sort_Permutation, elem_of_elements, elem_of_list_to_set. done.
Qed.

Lemma buildPairs_spec s legs : buildPairs (ps_Pairs (ai_Params inp)) eq = Ok (s, legs) -> pairsBuilt s /\ legs = legSet (qp_Pairs (ps_Pairs (ai_Params inp))).
Proof.
  unfold buildPairs, NewPairs, NewPairsAdapter. intros H. bind_inv. cbn in *. simplify_eq. split; [|done]. split; [done|].
  eexists. split; [unfold scopes; cbn; reflexivity|]. intros x Hx. by apply legSet_In.
Qed.

Lemma buildORB_spec s : buildORB LoadLocation (ps_ORB (ai_Params inp)) (ai_ORBSymbol inp) = Ok s -> orbBuilt s.
Proof.
  unfold buildORB. destruct (String.eqb _ _); [done|]. intros H. bind_inv.
  match goal with H : NewOrb _ _ = Ok _ |- _ => apply NewOrb_ok in H as (_ & Hc & _) end. cbn in *. simplify_eq. split; [done|]. unfold scopes. cbn. by rewrite Hc.
Qed.

Record wiredBy (members : list Member) (w : wired) : Prop := {
  wb_allocs : forall id pct, In (mkAllocation id pct) (wi_allocs w) <-> exists m, In m (activeMembers members) /\ runsAs m id /\ mb_Weight m = pct;
  wb_active : forall m, In m (activeMembers members) -> exists s, In s (wi_strats w) /\ runsAs m (s_ID s.1);
  wb_strats : forall s, In s (wi_strats w) -> exists m, In m (activeMembers members) /\ runsAs m (s_ID s.1);
  wb_names : forall s, In s (wi_strats w) ->
    sepaBuilt s \/ (sectorBuilt s /\ wi_universe w = rp_Universe (ps_Sector (ai_Params inp))) \/
    (pairsBuilt s /\ forall x, In x (legSet (qp_Pairs (ps_Pairs (ai_Params inp)))) -> In x (wi_legs w)) \/
    (orbBuilt s /\ (In (ai_ORBSymbol inp) (wi_legs w) \/ orbBeforePairs members));
  wb_universe : forall x, In x (wi_universe w) -> In x (rp_Universe (ps_Sector (ai_Params inp))) /\ exists m, In m (activeMembers members) /\ mb_StrategyID m = CompStrategySectorRotation;
  wb_legs : forall x, In x (wi_legs w) ->
    (In x (legSet (qp_Pairs (ps_Pairs (ai_Params inp)))) /\ exists m, In m (activeMembers members) /\ mb_StrategyID m = CompStrategyPairs) \/
    (x = ai_ORBSymbol inp /\ exists m, In m (activeMembers members) /\ mb_StrategyID m = CompStrategyIntradayBreakout)
}.

Lemma activeMembers_snoc members mem : activeMembers (members ++ [mem]) = activeMembers members ++ (if mb_Active mem then [mem] else []).
Proof. unfold activeMembers. rewrite List.filter_app. cbn. by destruct (mb_Active mem). Qed.

Lemma orbBeforePairs_snoc members mem : orbBeforePairs members -> orbBeforePairs (members ++ [mem]).
Proof.
  intros (l1 & m1 & l2 & m2 & l3 & E & H1 & H2). exists l1, m1, l2, m2, (l3 ++ (if mb_Active mem then [mem] else [])). split; [|done].
  rewrite activeMembers_snoc, E, <- app_assoc. cbn [app]. by rewrite <- app_assoc.
Qed.

(** An orb strategy already wired stands before a pairs member that follows. *)
Lemma orbBeforePairs_new members mem m : In m (activeMembers members) -> mb_StrategyID m = CompStrategyIntradayBreakout -> mb_Active mem = true ->
  mb_StrategyID mem = CompStrategyPairs -> orbBeforePairs (members ++ [mem]).
Proof.
  intros (l1 & l2 & E)%in_split Hm Ha Hp. exists l1, m, l2, mem, []. split; [|done]. by rewrite activeMembers_snoc, E, Ha, <- app_assoc.
Qed.

Lemma wired_snoc members mem w : wiredBy members w -> mb_Active mem = false -> wiredBy (members ++ [mem]) w.
Proof.
  intros [H1 H2 H3 H4 H5 H6] Ha. split; rewrite ?activeMembers_snoc, ?Ha, ?app_nil_r; try done.
  intros s Hs. destruct (H4 s Hs) as [?|[?|[?|[? [?|?]]]]]; auto 6. right. right. right. split; [done|]. right. by apply orbBeforePairs_snoc.
Qed.

(** An active member adds its strategies under its engine id. *)
Lemma wired_active members mem id w w' ss : wiredBy members w -> mb_Active mem = true -> runsAs mem id -> ss <> [] ->
  wi_strats w' = wi_strats w ++ ss -> wi_allocs w' = wi_allocs w ++ [mkAllocation id (mb_Weight mem)] -> Forall (fun s : Prebuilt => s_ID s.1 = id) ss ->
  (forall s, In s (wi_strats w') ->
    sepaBuilt s \/ (sectorBuilt s /\ wi_universe w' = rp_Universe (ps_Sector (ai_Params inp))) \/
    (pairsBuilt s /\ forall x, In x (legSet (qp_Pairs (ps_Pairs (ai_Params inp)))) -> In x (wi_legs w')) \/
    (orbBuilt s /\ (In (ai_ORBSymbol inp) (wi_legs w') \/ orbBeforePairs (members ++ [mem])))) ->
  (forall x, In x (wi_universe w') -> In x (wi_universe w) \/ (In x (rp_Universe (ps_Sector (ai_Params inp))) /\ mb_StrategyID mem = CompStrategySectorRotation)) ->
  (forall x, In x (wi_legs w') -> In x (wi_legs w) \/ (In x (legSet (qp_Pairs (ps_Pairs (ai_Params inp)))) /\ mb_StrategyID mem = CompStrategyPairs) \/
    (x = ai_ORBSymbol inp /\ mb_StrategyID mem = CompStrategyIntradayBreakout)) ->
  wiredBy (members ++ [mem]) w'.
Proof.
  intros [H1 H2 H3 H4 H5 H6] Ha Hid Hss Es Eal Hf Hnames Huni Hlegs. rewrite List.Forall_forall in Hf.
  assert (Hact : forall m, In m (activeMembers (members ++ [mem])) <-> In m (activeMembers members) \/ m = mem).
  { intros m. rewrite activeMembers_snoc, Ha, in_app_iff. cbn. split; [intros [?|[->|[]]]; [by left|by right]|intros [?| ->]; [by left|right; by left]]. }
  split.
  - intros i pct. rewrite Eal, in_app_iff, H1. cbn. split.
    + intros [(m & ? & ?)|[[= <- <-]|[]]]; [exists m; rewrite Hact; tauto|]. exists mem. rewrite Hact. tauto.
    + intros (m & Hm & Hr & Hw). apply Hact in Hm as [Hm| ->]; [left; by exists m|]. right. left. unfold runsAs in *. congruence.
  - intros m Hm. rewrite Es. setoid_rewrite in_app_iff. apply Hact in Hm as [Hm| ->].
    + destruct (H2 m Hm) as (s & Hs & Hr). exists s. tauto.
    + destruct ss as [|s ss]; [done|]. exists s. split; [right; by left|]. rewrite (Hf s); [done|by left].
  - intros s. rewrite Es, in_app_iff. setoid_rewrite Hact. intros [Hs|Hs]; [destruct (H3 s Hs) as (m & ? & ?); exists m; tauto|].
    exists mem. rewrite (Hf s Hs). tauto.
  - done.
  - intros x Hx. setoid_rewrite Hact. apply Huni in Hx as [Hx|[? ?]]; [|split; [done|exists mem; tauto]]. destruct (H5 x Hx) as (? & m & ? & ?). split; [done|]. exists m. tauto.
  - intros x Hx. setoid_rewrite Hact. apply Hlegs in Hx as [Hx|[[? ?]|[? ?]]].
    + destruct (H6 x Hx) as [(? & m & ? & ?)|(? & m & ? & ?)]; [left|right]; (split; [done|]); exists m; tauto.
    + left. split; [done|]. exists mem. tauto.
    + right. split; [done|]. exists mem. tauto.
Qed.

Lemma runsAs_orb m : runsAs m IDORB -> mb_StrategyID m = CompStrategyIntradayBreakout.
Proof.
  unfold runsAs, engineID. destruct (String.eqb_spec (mb_StrategyID m) CompStrategySEPA); [done|]. destruct (String.eqb_spec (mb_StrategyID m) CompStrategySectorRotation); [done|].
  destruct (String.eqb_spec (mb_StrategyID m) CompStrategyPairs); [done|]. by destruct (String.eqb_spec (mb_StrategyID m) CompStrategyIntradayBreakout).
Qed.

(** What stays true of the strategies wired before. *)
Lemma names_keep members mem w w' : wiredBy members w -> wi_universe w' = rp_Universe (ps_Sector (ai_Params inp)) \/ wi_universe w' = wi_universe w ->
  (forall x, In x (wi_legs w) -> In x (wi_legs w')) -> forall s, In s (wi_strats w) ->
    sepaBuilt s \/ (sectorBuilt s /\ wi_universe w' = rp_Universe (ps_Sector (ai_Params inp))) \/
    (pairsBuilt s /\ forall x, In x (legSet (qp_Pairs (ps_Pairs (ai_Params inp)))) -> In x (wi_legs w')) \/
    (orbBuilt s /\ (In (ai_ORBSymbol inp) (wi_legs w') \/ orbBeforePairs (members ++ [mem]))).
Proof.
  intros H Hu Hl s Hs. destruct (wb_names _ _ H s Hs) as [?|[[? E]|[[? ?]|[? [?|?]]]]].
  - by left.
  - right. left. split; [done|]. destruct Hu as [->| ->]; done.
  - right. right. left. split; [done|]. auto.
  - right. right. right. split; [done|]. left. auto.
  - right. right. right. split; [done|]. right. by apply orbBeforePairs_snoc.
Qed.

Lemma wireMember_wired members mem w w' : wiredBy members w -> wireMember LoadLocation inp eq mem w = Ok w' -> wiredBy (members ++ [mem]) w'.
Proof.
  intros Hw H. unfold wireMember in H. destruct (mb_Active mem) eqn:Ha; cbn [negb] in H; [|injection H as <-; by apply wired_snoc].
  destruct (engineID (mb_StrategyID mem)) as [id|e] eqn:Eid; [|done]. cbn [res_bind] in H. pose proof Eid as Hrun. fold (runsAs mem id) in Hrun.
  unfold engineID in Eid. pose proof (names_keep members mem w) as Hkeep.
  destruct (String.eqb_spec (mb_StrategyID mem) CompStrategySEPA) as [Em|_].
  { injection Eid as <-. bind_inv. match goal with H : buildSEPA _ _ = Ok _ |- _ => apply buildSEPA_spec in H as [Hne Hf] end. simplify_eq.
    eapply (wired_active _ _ _ w _ _ Hw Ha Hrun Hne); [done|done|refine (List.Forall_impl _ _ Hf); by intros s []| |by left|by left].
    cbn. intros s [Hs|Hs]%in_app_iff; [apply (Hkeep (mkWired [] [] (wi_universe w) (wi_legs w)) Hw); auto|]. left. rewrite List.Forall_forall in Hf. by apply Hf. }
  destruct (String.eqb_spec (mb_StrategyID mem) CompStrategySectorRotation) as [Em|_].
  { injection Eid as <-. bind_inv. match goal with H : buildSector _ _ = Ok ?r |- _ => destruct r as [s uni]; apply buildSector_spec in H as [Hb ->] end. simplify_eq.
    eapply (wired_active _ _ _ w _ [s] Hw Ha Hrun); [done|done|done|repeat constructor; apply Hb| | |by left].
    - cbn. intros s' [Hs|[<-|[]]]%in_app_iff; [apply (Hkeep (mkWired [] [] (rp_Universe (ps_Sector (ai_Params inp))) (wi_legs w)) Hw); auto|]. right. left. by split.
    - cbn. intros x Hx. by right. }
  destruct (String.eqb_spec (mb_StrategyID mem) CompStrategyPairs) as [Em|_].
  { injection Eid as <-. bind_inv. match goal with H : buildPairs _ _ = Ok ?r |- _ => destruct r as [s legs]; apply buildPairs_spec in H as [Hb ->] end. simplify_eq.
    eapply (wired_active _ _ _ w _ [s] Hw Ha Hrun); [done|done|done|repeat constructor; apply Hb| |by left|].
    - cbn. intros s' [Hs|[<-|[]]]%in_app_iff; [|right; right; left; by split].
      destruct (wb_names _ _ Hw s' Hs) as [?|[[? E]|[[? ?]|[Ho _]]]]; [by left|right; left; by split|right; right; left; by split|].
      right. right. right. split; [done|]. right. destruct (wb_strats _ _ Hw s' Hs) as (m & Hm & Hr). destruct Ho as [Ho _]. rewrite Ho in Hr.
      eapply orbBeforePairs_new; [exact Hm|by apply runsAs_orb|done|done].
    - cbn. intros x Hx. right. by left. }
  destruct (String.eqb_spec (mb_StrategyID mem) CompStrategyIntradayBreakout) as [Em|_]; [|done].
  injection Eid as <-. bind_inv. match goal with H : buildORB _ _ _ = Ok ?r |- _ => rename r into s; apply buildORB_spec in H as Hb end. simplify_eq.
  eapply (wired_active _ _ _ w _ [s] Hw Ha Hrun); [done|done|done|repeat constructor; apply Hb| |by left|].
  - cbn. intros s' [Hs|[<-|[]]]%in_app_iff.
    + apply (Hkeep (mkWired [] [] (wi_universe w) (wi_legs w ++ [ai_ORBSymbol inp])) Hw); [by right|intros x Hx; apply in_or_app; by left|done].
    + right. right. right. split; [done|]. left. apply in_or_app. right. by left.
  - cbn. intros x [Hx|[<-|[]]]%in_app_iff; [by left|]. right. by right.
Qed.

Lemma wireMembers_wired rest : forall members w w', wiredBy members w -> wireMembers LoadLocation inp eq rest w = Ok w' -> wiredBy (members ++ rest) w'.
Proof.
  induction rest as [|mem rest IH]; intros members w w' Hw H; cbn [wireMembers] in H; [injection H as <-; by rewrite app_nil_r|]. bind_inv.
  match goal with H1 : wireMember _ _ _ _ _ = Ok _, H2 : wireMembers _ _ _ _ _ = Ok _ |- _ => apply (wireMember_wired members) in H1; [|done]; apply (IH _ _ _ H1) in H2; rewrite <- app_assoc in H2; exact H2 end.
Qed.

Lemma wired_nothing : wiredBy [] (mkWired [] [] [] []).
Proof. split; cbn; try done. intros id pct. split; [done|]. by intros (m & [] & _). Qed.
End Wiring.

(** C27: an assembled session is the composition's.  The risk gate has exactly one budget
    per active member, under its engine id and with its weight, and the composition's
    risk limits; every strategy runs under the id of an active member, so that it has a
    budget, and every active member has a strategy; the extra tickers have no
    duplicates and begin with the context instrument when there is a context; and
    every instrument a strategy reacts to is a stock of the request or an extra ticker,
    so that its bars are loaded, except that the breakout symbol may be missing when a
    pairs member follows the breakout member. *)
Theorem assembly_follows_composition (LoadLocation : string -> option Location) (inp : AssemblyInputs) (asm : Assembly)
    (H : Assemble LoadLocation inp = Ok asm) :
  let members := cm_Members (ai_Composition inp) in
  let risk := cm_Risk (ai_Composition inp) in
  (forall id pct, g_allocator (as_Gate asm) !! id = Some pct <-> exists m, In m (activeMembers members) /\ runsAs m id /\ mb_Weight m = pct) /\
  g_risk (as_Gate asm) = mkRiskConfig (rk_SingleNamePct risk) (rk_ConcentrationPct risk) (rk_DailyLossHaltPct risk) /\
  (forall s, In s (as_Strategies asm) -> is_Some (g_allocator (as_Gate asm) !! s_ID s.1)) /\
  (forall m, In m (activeMembers members) -> exists s, In s (as_Strategies asm) /\ runsAs m (s_ID s.1)) /\
  List.NoDup (as_ExtraTickers asm) /\
  (as_Context asm <> None -> head (as_ExtraTickers asm) = Some (as_SPYSymbol asm)) /\
  (forall s, In s (as_Strategies asm) -> exists syms, s_SymbolsScoped s.1 = Some syms /\
     forall sym, In sym syms -> sym <> "" ->
       In sym (ai_SEPAStocks inp) \/ In sym (as_ExtraTickers asm) \/ (sym = ai_ORBSymbol inp /\ orbBeforePairs members)).
Proof.
  cbv zeta. unfold Assemble, assembleFromComposition in H. bind_inv. cbv zeta in *. bind_inv.
  match goal with H : wireMembers _ _ _ _ _ = Ok ?x |- _ => rename x into w; apply (wireMembers_wired _ _ _ _ []) in H as W; [|apply wired_nothing] end.
  cbn [app] in W.
  match goal with H : buildGate _ _ = Ok ?g |- _ => rename H into Hgate; unfold buildGate in Hgate end. bind_inv.
  match goal with H : NewRiskConstraints _ = Ok _ |- _ => unfold NewRiskConstraints in H end. bind_inv.
  match goal with H : NewAllocator _ = Ok ?x |- _ => rename x into alloc; pose proof (NewAllocator_spec _ _ H) as Hal end. simplify_eq. cbn [as_Gate g_allocator g_risk as_Strategies as_ExtraTickers as_Context as_SPYSymbol].
  assert (Hbudget : forall id pct, alloc !! id = Some pct <-> exists m, In m (activeMembers (cm_Members (ai_Composition inp))) /\ runsAs m id /\ mb_Weight m = pct).
  { intros id pct. rewrite Hal. apply (wb_allocs _ _ _ W). }
  set (spy := if String.eqb (ai_SPYSymbol inp) "" then "SPY" else ai_SPYSymbol inp).
  assert (Hspy : spy <> "") by (unfold spy; destruct (String.eqb_spec (ai_SPYSymbol inp) ""); done).
  splits; [exact Hbudget|done| |apply (wb_active _ _ _ W)|apply dedup_NoDup| |].
  - intros s Hs. destruct (wb_strats _ _ _ W s Hs) as (m & Hm & Hr). exists (mb_Weight m). apply Hbudget. by exists m.
  - destruct (ai_Context inp); [intros _|done]. cbn [app]. unfold dedupKeepOrder. cbn [dedupLoop existsb]. destruct (String.eqb_spec spy ""); [done|]. reflexivity.
  - assert (Hext : forall x, In x (wi_universe w) \/ In x (wi_legs w) -> x <> "" ->
      In x (dedupKeepOrder ((match ai_Context inp with Some _ => [spy] | None => [] end) ++ wi_universe w ++ wi_legs w))).
    { intros x Hx Hne. apply dedup_In. rewrite !in_app_iff. tauto. }
    intros s Hs. destruct (wb_names _ _ _ W s Hs) as [(_ & x & Hx & Hsc)|[[(_ & Hsc) E]|[[(_ & syms & Hsc & Hl) Hlegs]|[(_ & Hsc) Ho]]]].
    + exists [x]. split; [done|]. intros sym [<-|[]] _. by left.
    + eexists. split; [exact Hsc|]. rewrite <- E. intros sym Hsym Hne. right. left. apply Hext; [by left|done].
    + exists syms. split; [done|]. intros sym Hsym Hne. right. left. apply Hext; [right; by apply Hlegs, Hl|done].
    + eexists. split; [exact Hsc|]. intros sym [<-|[]] Hne. destruct Ho as [Ho|Ho]; [right; left; apply Hext; [by right|done]|right; by right].
Qed.

(** ** A live session *)

(** The extra tickers of an assembly come from its members. *)
Lemma extra_sources LoadLocation inp asm x : Assemble LoadLocation inp = Ok asm -> In x (as_ExtraTickers asm) ->
  x <> "" /\ (x = as_SPYSymbol asm \/
    (In x (rp_Universe (ps_Sector (ai_Params inp))) /\ exists m, In m (activeMembers (cm_Members (ai_Composition inp))) /\ mb_StrategyID m = CompStrategySectorRotation) \/
    (In x (legSet (qp_Pairs (ps_Pairs (ai_Params inp)))) /\ exists m, In m (activeMembers (cm_Members (ai_Composition inp))) /\ mb_StrategyID m = CompStrategyPairs) \/
    (exists m, In m (activeMembers (cm_Members (ai_Composition inp))) /\ mb_StrategyID m = CompStrategyIntradayBreakout)).
Proof.
  unfold Assemble, assembleFromComposition. intros H. bind_inv. cbv zeta in *. bind_inv.
  match goal with H : wireMembers _ _ _ _ _ = Ok ?x |- _ => rename x into w; apply (wireMembers_wired _ _ _ _ []) in H as W; [|apply wired_nothing] end.
  cbn [app] in W. simplify_eq. cbn [as_ExtraTickers as_SPYSymbol]. rewrite dedup_In, !in_app_iff. intros [[Hx|[Hx|Hx]] Hne]; (split; [done|]).
  - left. destruct (ai_Context inp); [|done]. by destruct Hx as [<-|[]].
  - right. left. by apply (wb_universe _ _ _ W).
  - right. right. destruct (wb_legs _ _ _ W x Hx) as [?|[_ ?]]; [by left|by right].
Qed.

Lemma Assemble_spy LoadLocation inp asm : Assemble LoadLocation inp = Ok asm -> as_SPYSymbol asm = if String.eqb (ai_SPYSymbol inp) "" then "SPY" else ai_SPYSymbol inp.
Proof. unfold Assemble, assembleFromComposition. intros H. bind_inv. cbv zeta in *. bind_inv. by simplify_eq. Qed.

(** The names of a capped universe: at most the free slots, none of them fixed. *)
Lemma capSEPAUniverse_spec db fixed sepa cap limit capped : capSEPAUniverse db fixed sepa cap limit = Ok capped ->
  Z.of_nat (length (dedupeSorted fixed)) + Z.of_nat (length capped) <= Z.max (cap - SubscriptionSafetyMargin) (Z.of_nat (length (dedupeSorted fixed))).
Proof.
  unfold capSEPAUniverse. intros H. destruct (db_MarketCaps db sepa) as [caps|e]; [|done]. cbn [res_bind] in H. cbv zeta in H. injection H as <-. unfold ResolveLiveSubscriptionSet. cbn [ls_SEPA].
  set (fx := dedupeSorted fixed). set (look := fun t : string => default fzero (caps !! t)).
  set (slot := Z.max (Z.max (cap - SubscriptionSafetyMargin) 0 - Z.of_nat (length fx)) 0). set (names := ApplyUniverseLimit (sepaOnly fx sepa) look slot).
  pose proof (ApplyUniverseLimit_len (sepaOnly fx sepa) look slot) as H1. fold names in H1. pose proof (ApplyUniverseLimit_len names look limit) as H2.
  destruct (Z.ltb_spec 0 limit), (Z.ltb_spec limit (Z.of_nat (length names))); cbn [andb]; unfold slot in *; lia.
Qed.

Lemma NoDup_within (l a b : list string) : List.NoDup l -> (forall x, In x l -> In x a \/ In x b) -> (length l <= length a + length b)%nat.
Proof. intros Hd Hs. rewrite <- length_app. apply NoDup_incl_length; [done|]. intros x Hx. apply in_or_app. auto. Qed.

(** The multi-strategy set runs with the parameters of the database. *)
Lemma resolveStrategy_multi db inp tickers params ctx warm days orb : resolveStrategy db inp tickers = Ok (params, ctx, warm, days, orb) -> in_Strategy inp = "multi" ->
  exists sp pp, db_Sector db = Ok sp /\ db_Pairs db = Ok pp /\ ps_Sector params = sp /\ ps_Pairs params = pp.
Proof.
  unfold resolveStrategy. intros H Es. rewrite Es in H. cbn [String.eqb Ascii.eqb Bool.eqb] in H. bind_inv. match goal with H : Ok _ = Ok _ |- _ => injection H as <- _ _ _ _ end. by eexists _, _.
Qed.

(** C28: a live session subscribes within the quota.  When a session of the SEPA or the
    multi-strategy set is assembled under a subscription cap, the instruments it loads
    are distinct, and they number at most the cap less the safety margin, unless the
    fixed baskets its parameters ask for are larger by themselves; whatever the
    parameters, the stocks given, the market caps and the context in the database. *)
Theorem live_session_fits_quota (LoadLocation : string -> option Location) (db : AssemblerDB) (inp : AssemblyInput) (fixed : list string) (out : Assembled)
    (Hstrategy : in_Strategy inp = "sepa" \/ in_Strategy inp = "multi") (Hcap : 0 < in_SubscriptionCap inp)
    (Hfixed : resolveFixedBaskets db (in_Strategy inp) "SPY" = Ok fixed) (H : Assembler_Assemble LoadLocation db inp = Ok out) :
  List.NoDup (ad_Tickers out) /\
  Z.of_nat (length (ad_Tickers out)) <= Z.max (in_SubscriptionCap inp - SubscriptionSafetyMargin) (Z.of_nat (length (dedupeSorted fixed))).
Proof.
  unfold Assembler_Assemble in H. assert (Hneeds : needsStocks (in_Strategy inp) = true) by (unfold needsStocks; destruct Hstrategy as [-> | ->]; done).
  destruct (negb (existsb _ _)); [done|]. cbv zeta in H.
  destruct (resolveTickers db inp) as [all|e] eqn:Eall; [|done]. cbn [res_bind] in H.
  assert (Hall : all <> []).
  { unfold resolveTickers in Eall. rewrite Hneeds in Eall. cbn [andb] in Eall. destruct (in_Tickers inp) as [|t l] eqn:Et; cbn in Eall; [|injection Eall as <-; discriminate]. destruct (db_Universe db) as [[|t l]|e]; cbn in Eall; [done| |done]. injection Eall as <-. discriminate. }
  destruct (capTickers db inp "SPY" all) as [tickers|e] eqn:Et; [|done]. cbn [res_bind] in H.
  unfold capTickers in Et. rewrite Hneeds in Et. destruct (Z.ltb_spec 0 (in_SubscriptionCap inp)) as [_|?]; [|lia]. cbn [andb] in Et.
  destruct (Nat.ltb_spec 0 (length all)) as [_|Hz]; [|destruct all; [done|cbn in Hz; lia]]. rewrite Hfixed in Et. cbn [res_bind] in Et.
  pose proof (capSEPAUniverse_spec _ _ _ _ _ _ Et) as Hlen.
  destruct (seedCompositionForStrategy (in_Strategy inp)) as [comp|e] eqn:Ec; [|done]. cbn [res_bind] in H.
  destruct (resolveStrategy db inp tickers) as [[[[[params ctx] warm] days] orb]|e] eqn:Er; [|done]. cbn [res_bind] in H.
  destruct (Assemble _ _) as [asm|e] eqn:Ea; [|done]. cbn [res_bind] in H. injection H as <-. cbn [ad_Tickers].
  split; [apply dedupLoop_spec|]. enough (Hsub : forall x, In x (as_ExtraTickers asm) -> In x (dedupeSorted fixed)).
  { pose proof (NoDup_within (unionTickers (as_ExtraTickers asm) tickers) (dedupeSorted fixed) tickers (proj1 (dedupLoop_spec _ []))) as Hn.
    assert (forall x, In x (unionTickers (as_ExtraTickers asm) tickers) -> In x (dedupeSorted fixed) \/ In x tickers).
    { intros x Hx. apply (proj2 (dedupLoop_spec _ [])) in Hx as [Hx _]. apply in_app_iff in Hx as [Hx|Hx]; [left; by apply Hsub|by right]. }
    specialize (Hn ltac:(done)). lia. }
  intros x Hx. destruct (extra_sources _ _ _ x Ea Hx) as [Hne Hsrc]. rewrite (Assemble_spy _ _ _ Ea) in Hsrc. cbn [ai_SPYSymbol ai_Params ai_Composition] in Hsrc.
  apply dedupeSorted_In. split; [|done]. unfold resolveFixedBaskets in Hfixed. destruct Hstrategy as [Es|Es]; rewrite Es in *.
  - cbn in Hfixed. injection Hfixed as <-. cbn in Ec. injection Ec as <-. destruct Hsrc as [->|[(_ & m & [<-|[]] & ?)|[(_ & m & [<-|[]] & ?)|(m & [<-|[]] & ?)]]]; [by left|done..].
  - apply resolveStrategy_multi in Er as (sp & pp & E1 & E2 & E3 & E4); [|exact Es]. rewrite E3, E4 in Hsrc. cbn [String.eqb Ascii.eqb Bool.eqb negb] in Hfixed. rewrite E1, E2 in Hfixed. cbn [res_bind] in Hfixed.
    injection Hfixed as <-. cbn in Ec. injection Ec as <-. rewrite legSet_In in Hsrc. cbn [In app]. rewrite in_app_iff.
    destruct Hsrc as [->|[[? _]|[[? _]|(m & [<-|[<-|[<-|[]]]] & ?)]]]; [by left|by right; left|by right; right|done..].
Qed.

(** ** Validated parameters construct their strategies *)

(** JSON has no number that is not one. *)
Definition jsonNumbers (m : pmap) : Prop := forall k f, m !! k = Some (JNum f) -> isNaN f = false.

Lemma pm_float_number m k f : jsonNumbers m -> pm_float m k = Ok f -> isNaN f = false.
Proof. intros Hj. unfold pm_float, pm_get. destruct (m !! k) as [v|] eqn:E; [|done]. cbn. destruct v; try done. intros [= <-]. by apply (Hj k). Qed.

Lemma not_le_gt f g : isNaN f = false -> isNaN g = false -> fleb f g = negb (fgtb f g).
Proof.
  intros Hf Hg. unfold fgtb. destruct (fleb f g) eqn:E1, (fltb g f) eqn:E2; try done.
  - apply fleb_key in E1; [|done..]. by apply fltb_key in E2.
  - assert (~ klt (fkey g) (fkey f)) by (rewrite <- fltb_key by done; congruence). assert (fleb f g = true) by (by apply fleb_key). congruence.
Qed.

(** A sign that [Atoi] and [atoiStrict] read alike. *)
Lemma Atoi_strict s v : Atoi s = Ok v -> 0 <= v -> atoiStrict s = Some v.
Proof.
  unfold Atoi, atoi. intros H Hv.
  assert (Hs : (match s with c :: ds => if Ascii.eqb c "-"%char then (true, ds) else if Ascii.eqb c "+"%char then (false, ds) else (false, s) | [] => (false, s) end) = scanSign s).
  { unfold scanSign. destruct s as [|c s]; [done|]. destruct (Ascii.eqb_spec c "-"%char) as [->|]; [done|]. by destruct (Ascii.eqb_spec c "+"%char) as [->|]. }
  rewrite Hs in H. unfold atoiStrict. destruct (scanSign s) as [neg ds]. destruct ds as [|c ds]; [done|].
  destruct (digitsVal 0 (c :: ds)) as [n|] eqn:En; [|done]. cbn [res_bind] in H. destruct (_ && _) eqn:Er; [|done]. injection H as <-. breflect.
  assert (0 <= n) by (by apply (digitsVal_ge _ 0 n) in En).
  rewrite (atoiDigits_val (c :: ds) 0 n); [|lia| |done]; cbn [mbind option_bind].
  - destruct neg; [|done]. replace n with 0 by lia. reflexivity.
  - destruct neg; lia.
Qed.

Lemma splitColons_cons s : exists part parts, splitColons s = part :: parts.
Proof.
  induction s as [|c s (part & parts & IH)]; cbn [splitColons]; [by eexists _, _|]. destruct (Ascii.eqb c ":"%char); [by eexists _, _|].
  rewrite IH. by eexists _, _.
Qed.

Lemma splitColons_one s part : splitColons s = [part] -> s = part /\ cutColon s = None.
Proof.
  revert part. induction s as [|c s IH]; intros part; cbn [splitColons cutColon]; [by intros [= <-]|]. destruct (Ascii.eqb c ":"%char) eqn:E.
  - destruct (splitColons_cons s) as (p & ps & ->). done.
  - destruct (splitColons s) as [|p [|p2 ps]] eqn:Es; [destruct (splitColons_cons s) as (? & ? & ?); congruence| |done]. intros [= <-]. destruct (IH p eq_refl) as [-> ->]. done.
Qed.

Lemma splitColons_two s a b : splitColons s = [a; b] -> cutColon s = Some (a, b) /\ cutColon b = None.
Proof.
  revert a. induction s as [|c s IH]; intros a; cbn [splitColons cutColon]; [done|]. destruct (Ascii.eqb c ":"%char) eqn:E.
  - intros [= <- Hs]. apply splitColons_one in Hs as [-> ->]. done.
  - destruct (splitColons s) as [|p ps] eqn:Es; [done|]. intros [= <- ->]. destruct (IH p eq_refl) as [-> ->]. done.
Qed.

Lemma validateHHMM_parses s : validateHHMM s = Ok tt -> is_Some (parseHHMM s).
Proof.
  unfold validateHHMM, parseHHMM, splitColonInts. destruct (splitColons (list_ascii_of_string s)) as [|a [|b [|? ?]]] eqn:E; try done.
  apply splitColons_two in E as [-> Hb]. destruct (Atoi a) as [h|] eqn:Eh; [|done]. destruct (Atoi b) as [m|] eqn:Em; [|done].
  unfold require. destruct (_ && _) eqn:Er; [|done]. intros _. assert (0 <= h /\ 0 <= m) by (breflect; lia). cbn [mbind option_bind]. rewrite Hb.
  rewrite (Atoi_strict a h Eh), (Atoi_strict b m Em) by lia. cbn [mbind option_bind]. rewrite Er. by eexists.
Qed.

Lemma within_flip r a b : isNaN r = false -> isNaN a = false -> isNaN b = false -> negb (fleb r a || fgtb r b) = fgtb r a && fleb r b.
Proof. intros Hr Ha Hb. rewrite negb_orb, (not_le_gt r a), (not_le_gt r b), negb_involutive by done. done. Qed.

Lemma require_ok b f u : require b f = Ok u -> b = true.
Proof. by destruct b. Qed.

(** Decoded parameters that pass their validation construct the strategy: the
    validation of the generator accepts whatever the loader accepts. *)
Theorem valid_params_construct (LoadLocation : string -> option Location) (m : pmap) (sym : string) (eq : LiveEquity) (Hj : jsonNumbers m) (Hsym : sym <> "") :
  (forall p, sepaFromMap m = Ok p -> is_ok (buildSEPA p [sym]) = true) /\
  (forall p, sectorFromMap m = Ok p -> is_ok (buildSector p eq) = true) /\
  (forall p, pairsFromMap m = Ok p -> is_ok (buildPairs p eq) = true) /\
  (forall p, intradayFromMap LoadLocation m = Ok p -> is_ok (buildORB LoadLocation p sym) = true).
Proof.
  splits; intros p H.
  - unfold sepaFromMap, SEPAParams_Validate in H. bind_inv. cbn in *. repeat match goal with H : require _ _ = Ok _ |- _ => apply require_ok in H end. simplify_eq.
    unfold buildSEPA, buildSEPALoop, NewGenerator, Config_Validate. cbn. change hundred with (zToFloat 100).
    repeat match goal with H : _ = true |- _ => rewrite H; clear H end. reflexivity.
  - unfold sectorFromMap, SectorParams_Validate in H. bind_inv. cbn [rp_Universe rp_MomentumLookback rp_TopK] in *. repeat match goal with H : require _ _ = Ok _ |- _ => apply require_ok in H end. simplify_eq.
    unfold buildSector, NewSector, SectorConfig_Validate. cbn [sectorConfigOf se_hasEquity se_Universe se_MomentumLookback se_TopK rp_Universe rp_MomentumLookback rp_TopK negb res_bind].
    match goal with H : negb (_ =? 0)%nat = true |- _ => apply negb_true_iff, Nat.eqb_neq in H end.
    rewrite bool_decide_eq_false_2 by (intros E; by rewrite E in *). cbn [res_bind].
    repeat match goal with H : negb _ = true |- _ => apply negb_true_iff in H; rewrite H | H : _ = true |- _ => rewrite H end. reflexivity.
  - unfold pairsFromMap, PairsParams_Validate in H. bind_inv. cbn [qp_Pairs qp_Lookback qp_EntryZ qp_ExitZ qp_CapitalPerPairPct] in *. repeat match goal with H : require _ _ = Ok _ |- _ => apply require_ok in H end. simplify_eq.
    unfold buildPairs, NewPairs, PairsConfig_Validate. cbn [pairsConfigOf pc_hasEquity pc_Pairs pc_Lookback pc_EntryZ pc_ExitZ pc_CapitalPerPairPct qp_Pairs qp_Lookback qp_EntryZ qp_ExitZ qp_CapitalPerPairPct negb res_bind].
    match goal with H : negb (_ =? 0)%nat = true |- _ => apply negb_true_iff, Nat.eqb_neq in H end.
    rewrite bool_decide_eq_false_2 by (intros E; by rewrite E in *). cbn [res_bind].
    repeat match goal with H : negb _ = true |- _ => apply negb_true_iff in H; rewrite H | H : _ = true |- _ => rewrite H end. reflexivity.
  - unfold intradayFromMap, BreakoutParams_Validate in H. bind_inv.
    cbn [ip_RiskPct ip_RangeMinutes ip_VolMultiple ip_ProfitTargetR ip_HardStopPct ip_EODExitTime ip_Timezone] in *.
    repeat match goal with H : pm_float _ _ = Ok _ |- _ => apply (pm_float_number _ _ _ Hj) in H end.
    repeat match goal with H : require _ _ = Ok _ |- _ => apply require_ok in H end.
    match goal with H : validateHHMM _ = Ok ?u |- _ => destruct u; pose proof (bool_decide_eq_true_2 _ (validateHHMM_parses _ H)) as Hhm end.
    match goal with H : context [LoadLocation ?z] |- _ => destruct (LoadLocation z) as [loc|] eqn:Eloc; [clear H|done] end.
    simplify_eq. unfold buildORB. destruct (String.eqb_spec sym ""); [done|]. unfold NewOrb, OrbConfig_Validate.
    cbn [orbConfigOf oc_hasEquity oc_RiskPct oc_RangeMinutes oc_VolMultiple oc_ProfitTargetR oc_HardStopPct oc_EODExitTime oc_Timezone ip_RiskPct ip_RangeMinutes ip_VolMultiple ip_ProfitTargetR ip_HardStopPct ip_EODExitTime ip_Timezone res_bind].
    rewrite Hhm, Eloc. repeat match goal with H : negb (_ <? 1) = true |- _ => rewrite <- Z.leb_antisym in H; rewrite H; clear H
      | H : negb (fleb _ _ || fgtb _ _) = true |- _ => rewrite within_flip in H by done; rewrite H; clear H
      | H : negb (fleb _ _) = true |- _ => rewrite not_le_gt, negb_involutive in H by done; rewrite H; clear H end. reflexivity.
Qed.

(** The baseline parameters of the repository (hyperopt/baseline). *)
Definition baselinePairs : pmap :=
  {[ "lookback" := JNum (zToFloat 60); "entry_z" := JNum (zToFloat 2); "exit_z" := JNum (flit 1 2); "capital_per_pair_pct" := JNum (flit 3 10);
     "pairs" := JList [JList [JStr "KO"; JStr "PEP"]; JList [JStr "MA"; JStr "V"]; JList [JStr "XOM"; JStr "CVX"]]; "timezone" := JStr "America/New_York" ]}.
Definition baselineSector : pmap :=
  {[ "momentum_lookback" := JNum (zToFloat 63); "top_k" := JNum (zToFloat 3); "universe" := JList (map JStr sectorETFs); "timezone" := JStr "America/New_York" ]}.
Definition baselineSEPA : pmap :=
  {[ "risk_pct" := JNum (zToFloat 1); "market_cap_min_usd" := JNum (zToFloat 500000000); "hard_stop_pct" := JNum (flit 15 2); "pivot_buffer_pct" := JNum (flit 3 2);
     "breakout_volume_multiple" := JNum (flit 3 2); "vcp_lookback" := JNum (zToFloat 5); "history_max_bars" := JNum (zToFloat 1000); "timezone" := JStr "America/New_York" ]}.
Definition baselineORB : pmap :=
  {[ "risk_pct" := JNum (zToFloat 1); "range_minutes" := JNum (zToFloat 30); "vol_multiple" := JNum (flit 3 2); "profit_target_r" := JNum (zToFloat 2);
     "hard_stop_pct" := JNum (zToFloat 1); "eod_exit_time" := JStr "15:55"; "timezone" := JStr "America/New_York" ]}.

(** Every baseline passes its validation. *)
Lemma baselines_validate :
  is_ok (sepaFromMap baselineSEPA) && is_ok (sectorFromMap baselineSector) && is_ok (pairsFromMap baselinePairs) &&
  is_ok (intradayFromMap (fun _ => Some UTCLocation) baselineORB) = true.
Proof. vm_compute. reflexivity. Qed.

(** ** Demonstrations *)

Definition okOr {A} (d : A) (r : res A) : A := match r with Ok x => x | Err _ => d end.

Definition demoParamSet : StrategyParamSet :=
  mkParamSet (okOr noSEPA (sepaFromMap baselineSEPA)) (okOr noSector (sectorFromMap baselineSector)) (okOr noPairs (pairsFromMap baselinePairs))
    (okOr noORB (intradayFromMap (fun _ => Some UTCLocation) baselineORB)).

Definition demoComposition (members : list Member) : Composition := mkComposition "demo" "Demo" "" (flit 1 10) (seedRisk 50 40 10) members 1.

(** Pairs before the breakout member, and a member that is switched off. *)
Definition demoInputs : AssemblyInputs :=
  mkInputs (demoComposition [seedMember CompStrategyPairs 30; seedMember CompStrategyIntradayBreakout 20; mkMember CompStrategySEPA (flit 1 2) false None])
    (zToFloat 100000) demoParamSet [] "QQQ" None "".

Lemma assembly_follows_composition_witness :
  exists asm, Assemble (fun _ => Some UTCLocation) demoInputs = Ok asm /\
    g_allocator (as_Gate asm) !! IDPairs = Some (flit 30 100) /\ g_allocator (as_Gate asm) !! IDSEPA = None /\
    (forall s, In s (as_Strategies asm) -> is_Some (g_allocator (as_Gate asm) !! s_ID s.1)).
Proof.
  destruct (Assemble (fun _ => Some UTCLocation) demoInputs) as [asm|e] eqn:E.
  - destruct (assembly_follows_composition (fun _ => Some UTCLocation) demoInputs asm E) as (A & _ & B & _). exists asm. split; [reflexivity|].
    split; [|split; [|exact B]].
    + apply A. exists (seedMember CompStrategyPairs 30). split; [left; reflexivity|]. split; reflexivity.
    + destruct (g_allocator (as_Gate asm) !! IDSEPA) as [w|] eqn:Ew; [|reflexivity]. apply A in Ew as (m & [<-|[<-|[]]] & Hr & _); discriminate Hr.
  - exfalso. assert (H : is_ok (Assemble (fun _ => Some UTCLocation) demoInputs) = true) by (vm_compute; reflexivity). rewrite E in H. discriminate H.
Defined.

(** A database with the baseline parameters and two capitalized stocks. *)
Definition demoAssemblerDB : AssemblerDB :=
  mkAssemblerDB (Ok (ps_SEPA demoParamSet)) (Ok (ps_Sector demoParamSet)) (Ok (ps_Pairs demoParamSet)) (Ok (ps_ORB demoParamSet)) (Ok ["AAA"; "BBB"; "CCC"; "KO"])
    (fun _ => Ok {[ "BBB" := zToFloat 7; "CCC" := zToFloat 9 ]}) (fun _ => Ok None) (fun _ => Ok []).

Definition demoLiveInput : AssemblyInput := mkAssemblyInput "multi" [] "" (zToFloat 100000) 25 85.

(** The tickers of an assembled session. *)
Definition tickersOf (r : res Assembled) : res (list string) := x <-? r ;; Ok (ad_Tickers x).

Lemma live_session_fits_quota_witness :
  (exists fixed out, resolveFixedBaskets demoAssemblerDB "multi" "SPY" = Ok fixed /\ Assembler_Assemble (fun _ => Some UTCLocation) demoAssemblerDB demoLiveInput = Ok out /\
     Z.of_nat (length (ad_Tickers out)) <= Z.max (25 - SubscriptionSafetyMargin) (Z.of_nat (length (dedupeSorted fixed)))) /\
  res_bind (tickersOf (Assembler_Assemble (fun _ => Some UTCLocation) demoAssemblerDB demoLiveInput)) (fun l => Ok (length l, skipn 17 l)) = Ok (19%nat, ["CCC"; "BBB"]).
Proof.
  split; [|vm_compute; reflexivity].
  destruct (resolveFixedBaskets demoAssemblerDB "multi" "SPY") as [fixed|e] eqn:Ef; [|discriminate Ef].
  destruct (Assembler_Assemble (fun _ => Some UTCLocation) demoAssemblerDB demoLiveInput) as [out|e] eqn:E.
  - exists fixed, out. split; [reflexivity|]. split; [reflexivity|].
    apply (live_session_fits_quota (fun _ => Some UTCLocation) demoAssemblerDB demoLiveInput fixed out); [right; reflexivity|reflexivity|exact Ef|exact E].
  - exfalso. assert (H : is_ok (tickersOf (Assembler_Assemble (fun _ => Some UTCLocation) demoAssemblerDB demoLiveInput)) = true) by (vm_compute; reflexivity).
    rewrite E in H. discriminate H.
Defined.

(** ** Findings *)

(** The extra tickers of an assembled session. *)
Definition extraOf (r : res Assembly) : res (list string) := x <-? r ;; Ok (as_ExtraTickers x).

(** With the breakout member first, as the store orders the members of a composition,
    the pairs member replaces the list that held the breakout symbol: it is not among
    the instruments to load. *)
Lemma breakout_symbol_is_lost :
  let comp := demoComposition [seedMember CompStrategyIntradayBreakout 20; seedMember CompStrategyPairs 30] in
  extraOf (Assemble (fun _ => Some UTCLocation) (mkInputs comp (zToFloat 100000) demoParamSet [] "QQQ" None "")) = Ok ["CVX"; "KO"; "MA"; "PEP"; "V"; "XOM"].
Proof. vm_compute. reflexivity. Qed.

(** The live cap drops a pair leg from the SEPA stocks, where an uncapped session of
    the same stocks keeps it. *)
Lemma capped_session_drops_pair_legs :
  capSEPAUniverse demoAssemblerDB ["SPY"; "KO"; "PEP"] ["AAA"; "KO"] 100 0 = Ok ["AAA"].
Proof. vm_compute. reflexivity. Qed.

(** A composition whose members are all switched off is valid, and not assembled. *)
Lemma inactive_composition_is_valid :
  let comp := demoComposition [mkMember CompStrategyPairs (flit 1 2) false None] in
  Composition_Validate comp = Ok tt /\
  is_ok (Assemble (fun _ => Some UTCLocation) (mkInputs comp (zToFloat 100000) demoParamSet [] "" None "")) = false.
Proof. split; vm_compute; reflexivity. Qed.
